(* ===== verification/_CoqProject ===== *)
-Q . S2P
Prelude.v
Heap.v
Vector.v
DList.v
KString.v
KStringText.v
RadixTree.v
RadixPath.v
RadixHeap.v
RadixMap.v
RadixInsert.v
RadixRemove.v
RadixRuns.v
Bitmap.v
Cpu.v
Sched.v
SchedInv.v
SchedSteps.v
SchedLive.v
Semaphore.v
Hoare.v
Counting.v
HashTable.v
PageFlags.v
Paging.v
PagingWords.v
PagingInv.v
PageStack.v
AddressSpace.v
PagingMap.v
PageFree.v
PageClone.v
PagingRuns.v
UnlikelyLock.v
MemoryPool.v
RingBuffer.v
RangeList.v
CMem.v
CString.v
Printf.v
TcpBuffer.v
TcpTree.v
Tcp.v
TcpManager.v
TcpInv.v
TcpStates.v
TcpData.v
TcpRuns.v
X86Flags.v
X86Alu.v
X86Shift.v
X86Machine.v
X86Decode.v
X86MulDiv.v
X86Ops.v
X86OpsExt.v
X86OpsAlu.v
X86OpsReg.v
X86OpsStr.v
X86OpsCtl.v
X86Exec.v
X86Isa.v
X86OpcodeMap.v
X86MapOne.v
X86MapTwo.v
X86Map.v
X86Safe.v
X86SafePrims.v
X86SafeOps.v
X86Safety.v
Tree.v
TreeRep.v
TreeMap.v
TreeDict.v
TreeIter.v
Slam.v
SlamSearch.v
SlamInv.v
SlamHeap.v
SlamRuns.v
