(* ===== verification/Prelude.v ===== *)
(** * Pedigree: a verification library for the kernel's core

    Pedigree is a microkernel-style operating system.  This library models the
    parts of it that every other part stands on, the data structures, the process
    management primitives, the kernel heap, physical pages and address spaces, the
    freestanding C library, the BIOS emulator and TCP, as executable Rocq functions
    translated from the sources, and proves what they promise to their callers.  Paths below are relative to [src/src/].

    ** Foundations

    - Prelude (this file): machine integers ([wrap], [signed]), state passing
      without and with faults ([State], [StateE]), byte-addressed memory and
      generic lemmas.  [None] is a fault (a null or dangling pointer, an access
      outside an array, a FATAL message) or the end of the fuel.
    - Heap: objects behind pointers, shared by the linked structures through the
      class [HasHeap].
    - Counting: the class [CountingSemaphore], what a semaphore promises to its
      clients.  UnlikelyLock, MemoryPool and RingBuffer are proved against it;
      Semaphore proves it of the code ([semaphore_conserves]: in an interleaving the
      calls that return with success never have more units than there were and were
      returned; [semaphore_no_lost_wakeup]).

    ** Process management ([system/kernel/core/process], [system/kernel/Spinlock.cc])

    - Cpu: threads, spinlocks, ready queues and the interrupt flag of a processor.
    - Sched: RoundRobin.cc and PerProcessorScheduler.cc with their callers in
      Thread.cc and Scheduler.cc.  SchedInv states the invariant between two
      operations, SchedSteps shows that every enabled step ends and keeps it,
      SchedLive draws the conclusions for all runs: at most one thread runs, the
      ready queues hold exactly the ready threads, a ready thread is chosen after
      those before it; and says what [schedule] does, for a thread that it is given
      and for one that it chooses.
    - Semaphore: Semaphore.cc as interleaved atomic actions of any number of
      threads.

    ** Data structures ([system/kernel/utilities], [system/include/utilities])

    - Vector, DList (List), KString with KStringText (String), Bitmap
      (ExtensibleBitmap), RangeList, RingBuffer, UnlikelyLock, MemoryPool.
    - Tree (the AVL dictionary): Tree is the code, TreeRep relates a heap of nodes
      to an abstract tree, TreeMap runs the loops on it, TreeDict and TreeIter
      prove the operations of a finite map, iteration and clearing.
    - RadixTree (the dictionary with string keys): RadixTree is the code, RadixPath
      the invariant and the walk from the root, RadixHeap the changes of shape,
      RadixMap, RadixInsert and RadixRemove the dictionary operations, RadixRuns
      concrete runs.
    - How they use each other: RadixTree keeps children in a Vector, MemoryPool
      an ExtensibleBitmap, RingBuffer a List and two semaphores; the client's
      model holds what the used component's theorem says it represents (the list
      of a vector, the sequence of a list), or the component itself (the bitmaps of
      MemoryPool and of TcpManager).
    - RingBuffer and its List are not guarded by a lock, so a call of the list has a
      beginning and an end; two of them at the same time have no result.  The theorem
      is about runs in which they do not meet, and a run of two writers has them meet.
      In MemoryPool a call takes its unit first and its buffer later, as the code does,
      and other calls come in between.
    - [List::erase] of a reverse iterator mixes up the two ends of the list; DList has
      it as it is, and the theorem leaves out the elements at only one end.

    ** Kernel heap ([system/kernel/core/lib/SlamAllocator.cc])

    - Slam is the code: the page bitmap, slabs, the free list of each object size
      and the words of memory they are kept in.  SlamSearch proves the search for
      free pages, SlamInv states the invariant of the heap and how elementary
      steps keep it, SlamHeap runs the operations on it, SlamRuns draws the
      conclusion for every sequence of allocations, frees and writes.

    ** TCP ([modules/system/network-stack])

    - Hoare: postconditions of computations with faults, and computations that
      keep an invariant.
    - TcpBuffer and TcpTree (TcpMisc.h, TcpMisc.cc): the byte streams of an
      endpoint, the tables of connections.
    - Tcp (TcpStateBlock.h, TcpEndpoint.cc and the part of TcpManagerReceive.cc
      that works on one connection): an operation runs on a state block, the
      endpoints and the packets sent so far.  TcpInv: connections stay
      well-formed and no operation faults.  TcpStates: the state machine is a
      table of transitions.  TcpData: what one side sends the other can read.
    - TcpManager (TcpManager.h, TcpManager.cc, the rest of TcpManagerReceive.cc
      and the calls of TcpEndpoint.cc): pointers to state blocks, tables, the bitmaps of
      the ports, the mutex.  TcpRuns: the ephemeral ports, and runs of two hosts.

    ** C library ([system/kernel/core/lib])

    - CMem (memory.c), CString (string.c), Printf (vsprintf.c).

    ** Memory management ([system/kernel/core/processor/x86_common/PhysicalMemoryManager.cc],
       [system/kernel/core/processor/x64/VirtualAddressSpace.cc])

    - HashTable ([system/include/utilities/HashTable.h]): what the manager of physical
      pages counts references in.
    - PageFlags: the flags of [VirtualAddressSpace.h] and the bits of a table entry.
    - Paging is the state of both components, [Machine], and the operations of the stack
      of free pages; AddressSpace is the code of the address spaces.  Each calls the other.
      The words of physical memory are one map, so a table, the stack of pages and their
      aliases through a page mapped twice are the same store.  Locks are the list of those
      held; a memory pressure handler is a parameter, and idle in the theorems.
    - PagingWords is the arithmetic of entries and walks, PagingInv the invariant
      [consistent own fl m]: [own] names the one owner of each page, [fl] is the list of
      free pages.  PageStack reads that list off memory; PagingMap proves the operations on
      mappings, PageFree those on pages, PageClone what a new space and a clone hold.
      PagingRuns runs a small machine where the code departs from what it means to do.

    ** BIOS emulator ([system/kernel/machine/x86_common/x86emu], Bios.cc)

    - X86Flags, X86Alu, X86Shift and X86MulDiv (prim_ops.c), X86Machine (regs.h,
      sys.c and the callbacks of Bios.cc, behind the class [Sys]), X86Decode
      (decode.c, stack and interrupts).
    - The handlers of the opcodes, every one of ops.c and ops2.c: X86OpsAlu (00 to 3F),
      X86OpsReg (40 to 8F), X86OpsStr (90 to BF), X86OpsCtl (C0 to FF), X86OpsExt (0F 00 to
      0F FF with its table, and fpu.c), written in what X86Ops defines.  They are
      translated case by case as the code repeats them.  X86Exec is the table of the first
      bytes and the loop of [X86EMU_exec].
    - X86Isa is what they ought to do: the opcode map of the processor, which says every
      operand form once.  X86OpcodeMap has the steps of a proof that runs a handler and an
      entry of the map side by side; X86MapOne and X86MapTwo do it for the two tables;
      X86Map concludes, and runs programs.
    - X86Safe: the judgement that a computation ends without a fault and keeps every register
      in its width, with rules for sequences and for loops that count a register, and the
      tactic that applies them; X86SafePrims and X86SafeOps go through the functions of
      decode.c and prim_ops.c and through all handlers; X86Safety concludes for the main loop.
      Three instructions can fault: MOV from and to a segment register that does not
      exist (8C, 8E), and IDIV of the most negative number by -1 (F7), which C leaves
      undefined and the processor of the kernel answers with a trap.

    ** What the theorems show

    Safety of concurrent primitives over all interleavings; refinement of
    finite maps, sets, sequences and texts by the pointer and array structures,
    with memory safety and termination; address spaces as partial functions on pages,
    with no page of physical memory lost or owned twice; exact functional behaviour of the C
    library and of the emulator's arithmetic, overflow and error paths included, and the
    equality of its opcode handlers with the opcode map; safety of any program it runs
    without those three instructions.
    Where the code does not do what it means to, or what a comment or a header says, the
    theorem has the condition under which it does, and an example evaluates the code on an
    input outside it: texts of ASCII characters and of different lengths in
    [string_edit_correct], an [enter] while nobody waits in [unlikely_lock_excludes],
    pages below 4 GB in [physical_pages_conserved], and so on.

    ** Bounds and fuel

    Machine words keep their width: 32 bits for the bitmap, the pool and the
    emulator, 64 for page tables, a parameter [w] or [W] elsewhere.  Loops over data have a fuel
    argument; the theorems give the amount that is enough as a function of the
    data (the height of a tree, the length of a string or key plus 2 for the
    radix tree, twice that for its removal) or say that from some amount on the
    result is the same.  Loops bounded by a word have its width or its range as
    fuel.  A retracing of the parent pointers in TcpTree takes at most 8 turns at
    each node ([ascents]; the proof of [handle_table_insert] shows that 2 are
    enough for an insertion), [send_loop] the length of the data plus 2, [parse_options] the length
    of the header plus 1, each option being at least one byte long.  [freeStack] has the
    number of pages of the stack as fuel and unmaps downwards from its top.
    The loops of the emulator count CX or a bit index, and have the count plus one
    as fuel; [exec_loop] is the program that is emulated and runs as long as its fuel.

    ** Not modelled

    Memory for [new] is never exhausted.  The recovery
    of unused slabs is modelled but not part of the heap's safety theorem: it
    corrupts blocks in use, as the examples of SlamRuns show.  The scheduler's context switch is one
    step; [join] and callers that name the next thread or pass a lock of their own are not
    among the steps of the scheduler's runs (their [schedule] is covered by
    [schedule_correct]), and other processors appear only in Semaphore, UnlikelyLock, MemoryPool
    and RingBuffer, as interleavings.  Sequential consistency is assumed.  Of memory
    management: regions of physical memory ([allocateRegion], [unmapRegion], [initialise],
    which work on the RangeLists modelled) and page tables of the other processors (32-bit x86 reaches them through a
    recursive mapping, which the store of Paging does not show) are left out; of the translations that the processor
    caches only their invalidations are recorded.  The theorems on freed pages are those
    below 4 GB; the two other stacks are modelled.
    Outside the library are: hardware access (drivers, interrupt controllers), which is writes
    to registers whose effect no source here
    states; file systems, the network stack below TCP (the model has [route] in its
    place, which says whether a packet is sent) and the sockets above it; the
    subsystems, the kernel linker and the page cache with its request queue, which run
    in threads over disks; vendored code (SQLite, SDL, dlmalloc, newlib, libudis86, md5, sha1).
    The floating point unit of the emulator is not compiled into the kernel ([fpu.c] only
    steps over its opcodes). *)
From Stdlib Require Import ZArith Lia List Bool.
From stdpp Require Import base.
Import ListNotations.
Local Open Scope Z_scope.

(** ** Machine integers

    A value of an unsigned type of [w] bits is a [Z] in [0, 2^w); an operation
    that can overflow is followed by [wrap w].  A signed value is the [Z] that
    [signed w] reads off the unsigned one. *)

Definition wrap (w z : Z) : Z := z mod 2 ^ w.

Definition signed (w z : Z) : Z := if z <? 2 ^ (w - 1) then z else z - 2 ^ w.

(** The value a [w]-bit signed variable holds after [z] is stored in it. *)
Definition swrap (w z : Z) : Z := signed w (wrap w z).

Declare Scope word_scope.
Delimit Scope word_scope with word.
Notation "x +[ w ] y" := (wrap w (x + y)) (at level 50, left associativity) : word_scope.
Notation "x -[ w ] y" := (wrap w (x - y)) (at level 50, left associativity) : word_scope.
Notation "x *[ w ] y" := (wrap w (x * y)) (at level 40, left associativity) : word_scope.

(** [in_word w z]: [z] is a value of the unsigned type of [w] bits. *)
Definition in_word (w z : Z) : Prop := 0 <= z < 2 ^ w.

(** Linear arithmetic with division and modulo by constants. *)
Ltac zlia := Z.div_mod_to_equations; lia.

(** Case analysis on every boolean comparison of integers in sight. *)
Ltac zcmp :=
  repeat match goal with
    | |- context [?a <=? ?b] => destruct (Z.leb_spec a b)
    | |- context [?a <? ?b] => destruct (Z.ltb_spec a b)
    | |- context [?a =? ?b] => destruct (Z.eqb_spec a b)
    | H : context [?a <=? ?b] |- _ => destruct (Z.leb_spec a b)
    | H : context [?a <? ?b] |- _ => destruct (Z.ltb_spec a b)
    | H : context [?a =? ?b] |- _ => destruct (Z.eqb_spec a b)
    end.

(** The same, dropping contradictory cases as they appear. *)
Ltac zprune :=
  repeat (match goal with
    | |- context [?a <=? ?b] => destruct (Z.leb_spec a b)
    | |- context [?a <? ?b] => destruct (Z.ltb_spec a b)
    | |- context [?a =? ?b] => destruct (Z.eqb_spec a b)
    end; try lia).

Lemma wrap_range w z : 0 <= w -> in_word w (wrap w z).
Proof. intros Hw. apply Z.mod_pos_bound. apply Z.pow_pos_nonneg; lia. Qed.

Lemma wrap_small w z : in_word w z -> wrap w z = z.
Proof. exact (Z.mod_small z (2 ^ w)). Qed.

Lemma wrap_idem w z : wrap w (wrap w z) = wrap w z.
Proof. apply Zmod_mod. Qed.

Lemma wrap_land w z : 0 <= w -> wrap w z = Z.land z (Z.ones w).
Proof. intros Hw. symmetry. now apply Z.land_ones. Qed.

Lemma wrap_add_idemp_l w a b : wrap w (wrap w a + b) = wrap w (a + b).
Proof. apply Zplus_mod_idemp_l. Qed.

Lemma wrap_add_idemp_r w a b : wrap w (a + wrap w b) = wrap w (a + b).
Proof. apply Zplus_mod_idemp_r. Qed.

Lemma testbit_wrap w z i :
  0 <= w -> Z.testbit (wrap w z) i = (i <? w) && Z.testbit z i.
Proof.
  intros Hw. destruct (Z.ltb_spec i w).
  - now apply Z.mod_pow2_bits_low.
  - apply Z.mod_pow2_bits_high. lia.
Qed.

Lemma in_word_testbit_high w z i : in_word w z -> w <= i -> 0 <= w -> Z.testbit z i = false.
Proof.
  intros Hz Hi Hw. rewrite <- (wrap_small w z Hz), testbit_wrap by lia.
  destruct (Z.ltb_spec i w); [lia | reflexivity].
Qed.

(** Reading a value back as unsigned. *)
Lemma wrap_swrap w z : 0 <= w -> wrap w (swrap w z) = wrap w z.
Proof.
  intros Hw. unfold swrap, signed. destruct (_ <? _); [apply wrap_idem|].
  unfold wrap at 1. rewrite <- (Z_mod_plus_full _ 1 (2 ^ w)).
  replace (wrap w z - 2 ^ w + 1 * 2 ^ w) with (wrap w z) by lia. apply wrap_idem.
Qed.

Lemma swrap_idem w z : 0 <= w -> swrap w (swrap w z) = swrap w z.
Proof. intros Hw. unfold swrap at 1 3. now rewrite wrap_swrap. Qed.

(** [static_cast<int>] of a small [size_t], and the difference of two. *)
Lemma swrap_31 z : 0 <= z < 2 ^ 31 -> swrap 32 z = z.
Proof.
  change (2 ^ 31) with 2147483648. intros Hz. unfold swrap, signed.
  rewrite wrap_small by (unfold in_word; change (2 ^ 32) with 4294967296; lia).
  change (2 ^ (32 - 1)) with 2147483648. zcmp; lia.
Qed.

Lemma swrap_diff a b : 0 <= a < 2 ^ 31 -> 0 <= b < 2 ^ 31 -> swrap 32 (a - b) = a - b.
Proof.
  change (2 ^ 31) with 2147483648. intros Ha Hb. unfold swrap, signed, wrap.
  change (2 ^ (32 - 1)) with 2147483648. change (2 ^ 32) with 4294967296.
  destruct (Z.ltb_spec ((a - b) mod 4294967296) 2147483648); zlia.
Qed.

Create HintDb word.
Create Rewrite HintDb word.
#[export] Hint Resolve wrap_range : word.
#[export] Hint Rewrite wrap_idem wrap_add_idemp_l wrap_add_idemp_r : word.

(** ** State passing

    A routine that updates a global object is a function from the object to
    its result and the object it leaves. *)

Definition State (S A : Type) : Type := S -> A * S.

Definition ret {S A} (a : A) : State S A := fun s => (a, s).

Definition bind {S A B} (m : State S A) (k : A -> State S B) : State S B :=
  fun s => let (a, s') := m s in k a s'.

Declare Scope state_scope.
Delimit Scope state_scope with state.
Notation "x <- m ;; k" := (bind m (fun x => k))
  (at level 100, m at next level, k at level 200, right associativity) : state_scope.
Notation "m ;; k" := (bind m (fun _ => k))
  (at level 100, k at level 200, right associativity) : state_scope.

Lemma bind_ret_l {S A B} (a : A) (k : A -> State S B) s : bind (ret a) k s = k a s.
Proof. reflexivity. Qed.

Lemma bind_run {S A B} (m : State S A) (k : A -> State S B) s a s' :
  m s = (a, s') -> bind m k s = k a s'.
Proof. unfold bind. now intros ->. Qed.

Lemma bind_assoc {S A B C} (m : State S A) (k : A -> State S B) (k' : B -> State S C) s :
  bind (bind m k) k' s = bind m (fun a => bind (k a) k') s.
Proof. unfold bind. now destruct (m s). Qed.

Lemma bind_if {S A B} (b : bool) (m1 m2 : State S A) (k : A -> State S B) s :
  bind (if b then m1 else m2) k s = if b then bind m1 k s else bind m2 k s.
Proof. now destruct b. Qed.

(** The same where a step can fail: [None] is a fault (a null or dangling
    pointer is dereferenced) or the end of the fuel. *)
Definition StateE (S A : Type) : Type := S -> option (A * S).

Definition eret {S A} (a : A) : StateE S A := fun s => Some (a, s).

Definition efail {S A} : StateE S A := fun _ => None.

Definition ebind {S A B} (m : StateE S A) (k : A -> StateE S B) : StateE S B :=
  fun s => match m s with Some (a, s') => k a s' | None => None end.

Declare Scope err_scope.
Delimit Scope err_scope with err.
Notation "x <- m ;; k" := (ebind m (fun x => k))
  (at level 100, m at next level, k at level 200, right associativity) : err_scope.
Notation "m ;; k" := (ebind m (fun _ => k))
  (at level 100, k at level 200, right associativity) : err_scope.

Lemma ebind_run {S A B} (m : StateE S A) (k : A -> StateE S B) s a s' :
  m s = Some (a, s') -> ebind m k s = k a s'.
Proof. unfold ebind. now intros ->. Qed.

(** Reading and updating a field, a computation that may be undefined, and
    [if] without [else]. *)
Definition egets {S A} (f : S -> A) : StateE S A := fun s => Some (f s, s).

Definition emodify {S} (f : S -> S) : StateE S unit := fun s => Some (tt, f s).

Definition elift {S A} (o : option A) : StateE S A :=
  fun s => match o with Some a => Some (a, s) | None => None end.

Definition ewhen {S} (c : bool) (m : StateE S unit) : StateE S unit :=
  if c then m else eret tt.

Lemma ebind_assoc {S A B C} (m : StateE S A) (k : A -> StateE S B) (k' : B -> StateE S C) s :
  ebind (ebind m k) k' s = ebind m (fun a => ebind (k a) k') s.
Proof. unfold ebind. now destruct (m s) as [[]|]. Qed.

(** Run the first step of a computation by a lemma about it. *)
Ltac estep tac := erewrite ebind_run by tac.

(** ** Byte-addressed memory

    The memory a C routine works on: an address to the byte stored there.
    Pointers are addresses, so two pointers may alias. *)

Definition mem : Type := Z -> Z.

Definition upd (m : mem) (a v : Z) : mem := fun b => if b =? a then v else m b.

Lemma upd_eq m a v : upd m a v a = v.
Proof. unfold upd. now rewrite Z.eqb_refl. Qed.

Lemma upd_ne m a v b : b <> a -> upd m a v b = m b.
Proof. unfold upd. intros H. now rewrite (proj2 (Z.eqb_neq b a) H). Qed.

(** [in_range p n a]: [a] is one of the [n] bytes from [p] on. *)
Definition in_range (p n a : Z) : bool := (p <=? a) && (a <? p + n).

Lemma in_range_spec p n a : reflect (p <= a < p + n) (in_range p n a).
Proof. apply iff_reflect. unfold in_range. rewrite andb_true_iff. lia. Qed.

Ltac rcase :=
  repeat match goal with
    | |- context [in_range ?p ?n ?a] => destruct (in_range_spec p n a)
    | H : context [in_range ?p ?n ?a] |- _ => destruct (in_range_spec p n a)
    end.

#[export] Hint Rewrite upd_eq : word.

(** ** Lists *)

(** [extract p l]: the first element of [l] with [p], and [l] without it. *)
Fixpoint extract {A} (p : A -> bool) (l : list A) : option (A * list A) :=
  match l with
  | [] => None
  | r :: l' =>
      if p r then Some (r, l')
      else match extract p l' with
           | Some (r', l'') => Some (r', r :: l'')
           | None => None
           end
  end.

Lemma extract_Some {A} (p : A -> bool) l x l' :
  extract p l = Some (x, l') ->
  exists l1 l2, l = l1 ++ x :: l2 /\ l' = l1 ++ l2 /\ p x = true /\
                Forall (fun y => p y = false) l1.
Proof.
  revert x l'. induction l as [|y l IH]; intros x l'; simpl; [discriminate|].
  destruct (p y) eqn:Hy.
  - intros [= <- <-]. exists [], l. auto.
  - destruct (extract p l) as [[r rest]|]; [|discriminate]. intros [= <- <-].
    destruct (IH _ _ eq_refl) as (l1 & l2 & -> & -> & Hp & Hall).
    exists (y :: l1), l2. auto.
Qed.

Lemma extract_None {A} (p : A -> bool) l :
  extract p l = None -> Forall (fun y => p y = false) l.
Proof.
  induction l as [|y l IH]; simpl; [constructor|].
  destruct (p y) eqn:Hy; [discriminate|].
  destruct (extract p l) as [[]|]; [discriminate|]. auto.
Qed.

(** A decidable property of bytes, by evaluation at all of them. *)
Definition all_below (n : nat) (P : Z -> bool) : bool :=
  forallb (fun k => P (Z.of_nat k)) (seq 0 n).

Lemma all_below_spec n P z : all_below n P = true -> 0 <= z < Z.of_nat n -> P z = true.
Proof.
  unfold all_below. rewrite forallb_forall. intros H Hz.
  rewrite <- (Z2Nat.id z) by lia. apply H. apply in_seq. lia.
Qed.

Lemma land_255_range z : 0 <= Z.land z 255 < 256.
Proof. change 255 with (Z.ones 8). rewrite Z.land_ones by lia. apply Z.mod_pos_bound. lia. Qed.

(** Prove [e = true] for a byte [c] with [H : 0 <= c < 256] by evaluation. *)
Ltac byte_cases c H :=
  match goal with
  | |- ?e = true =>
      let f := eval pattern c in e in
      match f with
      | ?g c => refine (all_below_spec 256 g c _ H); vm_compute; reflexivity
      end
  end.
