(* ===== verification/Heap.v ===== *)
(** * Heaps of linked nodes

    The objects a linked data structure allocates: a pointer is null or the
    address of a node, following a null or dangling pointer is a fault, [new]
    takes a fresh address and [delete] of null does nothing.  A structure whose
    state contains such a heap is an instance of [HasHeap]. *)
From Stdlib Require Import ZArith Lia List Bool.
From stdpp Require Import base gmap list fin_maps.
From S2P Require Import Prelude.
Local Open Scope err_scope.

Definition loc : Type := positive.
Definition ptr : Type := option loc.

Definition nonnull (p : ptr) : bool := match p with Some _ => true | None => false end.
Definition same_ptr (p q : ptr) : bool := bool_decide (p = q).

Class HasHeap (S N : Type) := {
  heap_of : S -> gmap loc N;
  with_heap : gmap loc N -> S -> S;
  heap_with : forall h s, heap_of (with_heap h s) = h;
  with_heap_twice : forall h h' s, with_heap h (with_heap h' s) = with_heap h s
}.

Section Heap.
Context {S N : Type} `{HasHeap S N}.

(** [p->f]. *)
Definition field {A} (f : N -> A) (p : ptr) : StateE S A :=
  fun s => match p with
           | Some a => match heap_of s !! a with Some nd => Some (f nd, s) | None => None end
           | None => None
           end.

(** [p->f = v], with [g] the node after the assignment. *)
Definition modify (g : N -> N) (p : ptr) : StateE S unit :=
  fun s => match p with
           | Some a => match heap_of s !! a with
                       | Some nd => Some (tt, with_heap (<[a := g nd]> (heap_of s)) s)
                       | None => None
                       end
           | None => None
           end.

Definition new_node (nd : N) : StateE S ptr :=
  fun s => let a := fresh (dom (heap_of s)) in
           Some (Some a, with_heap (<[a := nd]> (heap_of s)) s).

Definition delete_node (p : ptr) : StateE S unit :=
  fun s => match p with
           | Some a => match heap_of s !! a with
                       | Some _ => Some (tt, with_heap (delete a (heap_of s)) s)
                       | None => None
                       end
           | None => Some (tt, s)
           end.

Lemma field_run {A} (f : N -> A) a s nd :
  heap_of s !! a = Some nd -> field f (Some a) s = Some (f nd, s).
Proof. unfold field. by intros ->. Qed.

Lemma modify_run g a s nd :
  heap_of s !! a = Some nd -> modify g (Some a) s = Some (tt, with_heap (<[a := g nd]> (heap_of s)) s).
Proof. unfold modify. by intros ->. Qed.

Lemma new_run nd s :
  exists a, heap_of s !! a = None /\
            new_node nd s = Some (Some a, with_heap (<[a := nd]> (heap_of s)) s).
Proof.
  exists (fresh (dom (heap_of s))). split; [|done]. apply not_elem_of_dom, is_fresh.
Qed.

Lemma drop_run a s nd :
  heap_of s !! a = Some nd -> delete_node (Some a) s = Some (tt, with_heap (delete a (heap_of s)) s).
Proof. unfold delete_node. by intros ->. Qed.

Lemma ptr_eqb_refl p : same_ptr p p = true.
Proof. by apply bool_decide_eq_true. Qed.

Lemma ptr_eqb_ne p q : p <> q -> same_ptr p q = false.
Proof. by apply bool_decide_eq_false. Qed.

End Heap.

(** Two heaps written as chains of insertions are the same. *)
Ltac heap_at := let a := fresh "a" in intros a; intros;
  repeat match goal with
    | |- context [(<[?x := _]> _) !! a] =>
        destruct (decide (x = a)) as [<-|?];
        [rewrite ?lookup_insert_eq | rewrite ?(lookup_insert_ne _ x a) by done]
    | |- context [(<[?x := _]> _) !! ?y] =>
        first [rewrite (lookup_insert_ne _ x y) by done | rewrite (lookup_insert_eq _ x)]
    end; try done.

Ltac heap_eq := apply map_eq; heap_at.
