(* ===== verification/Vector.v ===== *)
(** * Vector<void*>: the kernel's growing array

    [src/system/kernel/utilities/Vector.cc].  The elements are integers (the
    kernel's instances hold pointers and [size_t]); [m_Data] is null or an
    array, and an access outside it is a fault.  [size_t] and [uintptr_t] have
    [W] bits; a count of bytes that overflows wraps around.  An iterator is the
    index of the element it points to.  [new] always succeeds; the cells of a
    new array hold [garbage]. *)
From Stdlib Require Import ZArith Lia List Bool.
From stdpp Require Import base list.
From S2P Require Import Prelude.
Import ListNotations.
Local Open Scope Z_scope.
Local Open Scope err_scope.

Record Vector := mkVector { m_Size : Z; m_Count : Z; m_Data : option (list Z) }.

Definition new_vector : Vector := mkVector 0 0 None.

Section Vector.
Context (W : Z) (garbage : nat -> Z).

(** [sizeof(void* )] and the number of elements in so many bytes. *)
Definition ptr_size : Z := W / 8.
Definition bytes (n : Z) : Z := wrap W (n * ptr_size).
Definition elems (b : Z) : nat := Z.to_nat (b / ptr_size).

(** ** Access to the array *)

Definition put_data (d : option (list Z)) (v : Vector) : Vector := mkVector (m_Size v) (m_Count v) d.
Definition put_count (c : Z) (v : Vector) : Vector := mkVector (m_Size v) c (m_Data v).
Definition put_size (n : Z) (v : Vector) : Vector := mkVector n (m_Count v) (m_Data v).

Definition new_array (n : Z) : list Z := map garbage (seq 0 (Z.to_nat n)).

(** [m_Data[i]]. *)
Definition read (i : Z) : StateE Vector Z :=
  fun v => match m_Data v with
           | Some d => match d !! Z.to_nat i with Some x => Some (x, v) | None => None end
           | None => None
           end.

(** [m_Data[i] = x]. *)
Definition write (i x : Z) : StateE Vector unit :=
  fun v => match m_Data v with
           | Some d => if i <? Z.of_nat (length d) then Some (tt, put_data (Some (<[Z.to_nat i := x]> d)) v)
                       else None
           | None => None
           end.

(** [memcpy] of [n] elements to the start of an array. *)
Definition copy_array (dst src : list Z) (n : nat) : option (list Z) :=
  if (n <=? length dst)%nat && (n <=? length src)%nat then Some (take n src ++ drop n dst) else None.

(** [memcpy] between two pointers, either of which may be null. *)
Definition copy_ptr (dst src : option (list Z)) (n : nat) : option (option (list Z)) :=
  match n, dst, src with
  | O, _, _ => Some dst
  | _, Some d, Some s => match copy_array d s n with Some d' => Some (Some d') | None => None end
  | _, _, _ => None
  end.

(** [memmove(&m_Data[to], &m_Data[from], b)]. *)
Definition move (to from b : Z) : StateE Vector unit :=
  fun v => match m_Data v with
           | Some d =>
               let t := Z.to_nat to in let f := Z.to_nat from in let n := elems b in
               if (t + n <=? length d)%nat && (f + n <=? length d)%nat
               then Some (tt, put_data (Some (take t d ++ take n (drop f d) ++ drop (t + n) d)) v)
               else None
           | None => if b =? 0 then Some (tt, v) else None
           end.

(** ** The operations *)

Definition reserve (size : Z) (copy : bool) : StateE Vector unit :=
  n <- egets m_Size ;;
  if size <=? n then eret tt
  else
    tmp <- egets m_Data ;;
    emodify (put_data (Some (new_array size))) ;;
    (match tmp with
     | Some t =>
         ewhen copy (d' <- elift (copy_array (new_array size) t (elems (bytes n))) ;;
                     emodify (put_data (Some d')))
     | None => eret tt
     end) ;;
    emodify (put_size size).

Definition vector_of_size (size : Z) : option Vector :=
  match reserve size false new_vector with Some (_, v) => Some v | None => None end.

Definition size : StateE Vector Z := egets m_Size.
Definition count : StateE Vector Z := egets m_Count.

Definition pushBack (value : Z) : StateE Vector unit :=
  c <- egets m_Count ;; reserve (wrap W (c + 1)) true ;;
  write c value ;; emodify (put_count (wrap W (c + 1))).

Definition popBack : StateE Vector Z :=
  c <- egets m_Count ;; emodify (put_count (wrap W (c - 1))) ;;
  c' <- egets m_Count ;; read c'.

Definition pushFront (value : Z) : StateE Vector unit :=
  c <- egets m_Count ;; reserve (wrap W (c + 1)) true ;;
  move 1 0 (bytes c) ;; write 0 value ;; emodify (put_count (wrap W (c + 1))).

Definition popFront : StateE Vector Z :=
  ret <- read 0 ;;
  c <- egets m_Count ;; emodify (put_count (wrap W (c - 1))) ;;
  c' <- egets m_Count ;; move 0 1 (bytes c') ;; eret ret.

Definition setAt (idx value : Z) : StateE Vector unit :=
  c <- egets m_Count ;; ewhen (idx <? c) (write idx value).

Definition clear : StateE Vector unit := emodify (put_count 0).

Definition erase (iter : Z) : StateE Vector Z :=
  c <- egets m_Count ;;
  move iter (iter + 1) (wrap W (wrap W (c - 1) * ptr_size - iter * ptr_size)) ;;
  emodify (put_count (wrap W (c - 1))) ;; eret iter.

Definition assign (x : Vector) : StateE Vector unit :=
  reserve (m_Count x) false ;;
  d <- egets m_Data ;;
  d' <- elift (copy_ptr d (m_Data x) (elems (bytes (m_Count x)))) ;;
  emodify (put_data d') ;; emodify (put_count (m_Count x)).

Definition copy_vector (x : Vector) : option Vector :=
  match assign x new_vector with Some (_, v) => Some v | None => None end.

(** ** The list a vector holds *)

Definition cells (v : Vector) : list Z := match m_Data v with Some d => d | None => [] end.

Definition items (v : Vector) : list Z := take (Z.to_nat (m_Count v)) (cells v).

Record Wf (v : Vector) : Prop := {
  wf_size : m_Size v = Z.of_nat (length (cells v));
  wf_count : 0 <= m_Count v <= m_Size v;
  wf_bytes : m_Size v * ptr_size < 2 ^ W
}.

Context (HW : 8 <= W).

Lemma ptr_size_pos : 1 <= ptr_size.
Proof. unfold ptr_size. apply Z.div_le_lower_bound; lia. Qed.

Lemma bytes_small n : 0 <= n -> n * ptr_size < 2 ^ W -> bytes n = n * ptr_size.
Proof. pose proof ptr_size_pos. intros H1 H2. apply wrap_small. split; nia. Qed.

Lemma elems_bytes n : 0 <= n -> n * ptr_size < 2 ^ W -> elems (bytes n) = Z.to_nat n.
Proof.
  pose proof ptr_size_pos. intros H1 H2. unfold elems. rewrite bytes_small by done.
  by rewrite Z.div_mul by lia.
Qed.

(** A count of elements fits in [size_t]. *)
Lemma count_small n : 0 <= n -> n * ptr_size < 2 ^ W -> wrap W n = n.
Proof. pose proof ptr_size_pos. intros H1 H2. apply wrap_small. split; nia. Qed.

Lemma Wf_count v : Wf v -> 0 <= m_Count v /\ m_Count v * ptr_size < 2 ^ W /\
                          (Z.to_nat (m_Count v) <= length (cells v))%nat.
Proof. pose proof ptr_size_pos. intros [H1 H2 H3]. split_and!; [lia | nia | lia]. Qed.

Lemma length_items v : Wf v -> Z.of_nat (length (items v)) = m_Count v.
Proof. intros H. destruct (Wf_count v H) as (?&?&?). unfold items. rewrite length_take. lia. Qed.

(** A vector given by its fields. *)
Lemma Wf_mk n c d :
  n = Z.of_nat (length d) -> 0 <= c <= n -> n * ptr_size < 2 ^ W -> Wf (mkVector n c (Some d)).
Proof. by split. Qed.

Lemma length_new_array n : length (new_array n) = Z.to_nat n.
Proof. unfold new_array. by rewrite length_map, length_seq. Qed.

Lemma reserve_keep n copy v : n <= m_Size v -> reserve n copy v = Some (tt, v).
Proof. intros H. unfold reserve, ebind, egets. by rewrite (proj2 (Z.leb_le _ _) H). Qed.

(** Growing with [copy] keeps every cell. *)
Lemma reserve_grow n v :
  Wf v -> m_Size v < n -> n * ptr_size < 2 ^ W ->
  exists d, reserve n true v = Some (tt, mkVector n (m_Count v) (Some d)) /\
            Z.of_nat (length d) = n /\ take (length (cells v)) d = cells v.
Proof.
  intros [H1 H2 H3] Hn Hb. unfold reserve, ebind, egets.
  rewrite (proj2 (Z.leb_gt _ _) Hn). unfold cells in *. destruct (m_Data v) as [t|] eqn:E; cbn.
  - rewrite elems_bytes, H1, Nat2Z.id by lia. unfold copy_array.
    pose proof (length_new_array n) as Hl.
    rewrite (proj2 (Nat.leb_le _ _)) by lia. rewrite Nat.leb_refl. cbn.
    eexists. split; [reflexivity|]. rewrite take_ge by done. split.
    + rewrite length_app, length_drop. lia.
    + by rewrite take_app_length.
  - eexists. split; [reflexivity|]. rewrite length_new_array. split; [cbn in *; lia|done].
Qed.

(** Reserving room for one more element keeps the elements. *)
Lemma reserve_room v :
  Wf v -> (m_Count v + 1) * ptr_size < 2 ^ W ->
  exists s d, reserve (wrap W (m_Count v + 1)) true v = Some (tt, mkVector s (m_Count v) (Some d)) /\
              s = Z.of_nat (length d) /\ m_Count v < s /\ s * ptr_size < 2 ^ W /\
              take (Z.to_nat (m_Count v)) d = items v.
Proof.
  intros Hv Hb. destruct (Wf_count v Hv) as (H0 & _ & Hc). rewrite count_small by lia.
  destruct (Z.leb_spec (m_Count v + 1) (m_Size v)) as [Hle|Hgt].
  - rewrite reserve_keep by done. destruct v as [s c [d|]]; destruct Hv as [H1 H2 H3]; cbn in *; [|lia].
    exists s, d. split_and!; [done | done | lia | done | done].
  - destruct (reserve_grow _ v Hv Hgt Hb) as (d & -> & Hl & Hd). eexists _, d.
    split_and!; [done | lia | lia | done |]. unfold items. rewrite <- Hd. rewrite take_take.
    by rewrite Nat.min_l.
Qed.

(** ** Each operation on the list *)

Lemma pushBack_items v x :
  Wf v -> (m_Count v + 1) * ptr_size < 2 ^ W ->
  exists v', pushBack x v = Some (tt, v') /\ Wf v' /\ items v' = (items v ++ [x])%list.
Proof.
  intros Hv Hb. destruct (Wf_count v Hv) as (H0 & _ & _).
  destruct (reserve_room v Hv Hb) as (s & d & Hr & Hs & Hc & Hm & Hi).
  unfold pushBack. rewrite (ebind_run _ _ v (m_Count v) v) by done.
  rewrite (ebind_run _ _ _ _ _ Hr). unfold ebind, write, emodify, put_count, put_data. cbn.
  rewrite (proj2 (Z.ltb_lt _ _)), count_small by lia. eexists. split; [done|]. split.
  - apply Wf_mk; cbn; [by rewrite length_insert | lia | done].
  - unfold items at 1. cbn. rewrite Z2Nat.inj_add by lia. change (Z.to_nat 1) with 1%nat.
    rewrite Nat.add_1_r, (take_S_r _ _ x) by (apply list_lookup_insert_eq; lia).
    by rewrite take_insert_ge, Hi.
Qed.

Lemma pushFront_items v x :
  Wf v -> (m_Count v + 1) * ptr_size < 2 ^ W ->
  exists v', pushFront x v = Some (tt, v') /\ Wf v' /\ items v' = x :: items v.
Proof.
  intros Hv Hb. destruct (Wf_count v Hv) as (H0 & Hb' & _).
  destruct (reserve_room v Hv Hb) as (s & d & Hr & Hs & Hc & Hm & Hi).
  unfold pushFront. rewrite (ebind_run _ _ v (m_Count v) v) by done.
  rewrite (ebind_run _ _ _ _ _ Hr). unfold ebind, write, move, emodify, put_count, put_data. cbn.
  rewrite elems_bytes by done. set (n := Z.to_nat (m_Count v)) in *.
  change (Z.to_nat 1) with 1%nat. change (Z.to_nat 0) with 0%nat.
  rewrite !(proj2 (Nat.leb_le _ _)) by lia. cbn. rewrite drop_0, Hi.
  destruct d as [|y d]; cbn in *; [lia|].
  eexists. split; [rewrite count_small by lia; done|]. split.
  - clear Hr. apply Wf_mk; cbn - [take]; [|lia|done].
    rewrite take_0, app_nil_l, length_app, length_drop.
    rewrite <- Hi, length_take. cbn [length]. lia.
  - unfold items at 1. cbn. rewrite Z2Nat.inj_add by lia. change (Z.to_nat 1) with 1%nat. fold n.
    rewrite Nat.add_1_r. cbn. rewrite take_0. cbn. pose proof (length_items v Hv). f_equal.
    rewrite take_app_le by (subst n; lia).
    apply take_ge. subst n. lia.
Qed.


(** A vector with elements has an array. *)
Lemma Wf_array v x l : Wf v -> items v = x ++ l -> x <> [] ->
  exists d, v = mkVector (Z.of_nat (length d)) (m_Count v) (Some d).
Proof.
  destruct v as [s c [d|]]; intros [H1 H2 H3] Hi Hx; cbn in *.
  - exists d. by subst.
  - exfalso. unfold items in Hi. cbn in Hi. rewrite take_nil in Hi. by destruct x.
Qed.

Lemma items_lookup v i x : items v !! i = Some x -> cells v !! i = Some x.
Proof. intros Hi. by apply lookup_take_Some in Hi as [Hi _]. Qed.

Lemma read_cells v i x : cells v !! Z.to_nat i = Some x -> read i v = Some (x, v).
Proof. unfold read, cells. destruct (m_Data v); [by intros ->|done]. Qed.

Lemma index_items v i x : items v !! Z.to_nat i = Some x -> read i v = Some (x, v).
Proof. intros Hi. by apply read_cells, items_lookup. Qed.

(** Dropping the last element: only the count changes. *)
Lemma shrink_items v l x : Wf v -> items v = (l ++ [x])%list ->
  let v' := put_count (m_Count v - 1) v in
  wrap W (m_Count v - 1) = m_Count v - 1 /\ Wf v' /\ items v' = l /\
  cells v !! Z.to_nat (m_Count v - 1) = Some x.
Proof.
  intros Hv Hi v'. destruct (Wf_count v Hv) as (H0 & Hb & Hc).
  pose proof ptr_size_pos as Hp. pose proof (length_items v Hv) as Hl.
  rewrite Hi, length_app in Hl. cbn in Hl.
  assert (Hn : Z.to_nat (m_Count v - 1) = length l) by lia. split_and!.
  - apply count_small; nia.
  - destruct Hv. split; cbn; [done | lia | done].
  - apply (f_equal (take (length l))) in Hi. unfold items in *. rewrite take_take, take_app_length in Hi.
    rewrite <- Hi. cbn. f_equal. lia.
  - apply items_lookup. rewrite Hi, Hn. by apply list_lookup_middle.
Qed.

Lemma popBack_items v l x :
  Wf v -> items v = (l ++ [x])%list ->
  exists v', popBack v = Some (x, v') /\ Wf v' /\ items v' = l.
Proof.
  intros Hv Hi. destruct (shrink_items v l x Hv Hi) as (Hc & Hw & Hi' & Hx).
  eexists. split; [|done]. unfold popBack, ebind, egets, emodify. rewrite Hc.
  by apply read_cells.
Qed.

(** Moving the elements behind index [i] one place to the front. *)
Lemma move_down v l1 x l2 :
  Wf v -> items v = (l1 ++ x :: l2)%list ->
  let i := Z.of_nat (length l1) in
  exists v', move i (i + 1) (bytes (m_Count v - 1 - i)) v = Some (tt, v') /\
             m_Count v' = m_Count v /\ wrap W (m_Count v - 1) = m_Count v - 1 /\
             Wf (put_count (m_Count v - 1) v') /\ items (put_count (m_Count v - 1) v') = (l1 ++ l2)%list.
Proof.
  intros Hv Hi i. destruct (Wf_count v Hv) as (H0 & Hb & Hc).
  pose proof ptr_size_pos as Hp. pose proof (length_items v Hv) as Hl.
  rewrite Hi, length_app in Hl. cbn in Hl.
  assert (Hi2 : items v = ((l1 ++ [x]) ++ l2)%list) by by rewrite <- app_assoc.
  destruct (Wf_array v _ _ Hv Hi2) as [d Ev]; [by destruct l1|].
  rewrite Ev in *. cbn in *. clear Ev. set (c := m_Count v) in *. unfold items in Hi2, Hi. cbn in *.
  unfold move. cbn. rewrite elems_bytes by nia.
  replace (Z.to_nat i) with (length l1) by lia.
  replace (Z.to_nat (i + 1)) with (S (length l1)) by lia.
  replace (Z.to_nat (c - 1 - i)) with (length l2) by lia.
  rewrite !(proj2 (Nat.leb_le _ _)) by lia. cbn.
  assert (Hd : d = ((l1 ++ [x]) ++ l2 ++ drop (Z.to_nat c) d)%list).
  { by rewrite app_assoc, <- Hi2, take_drop. }
  eexists. split; [reflexivity|]. split; [done|]. split; [apply count_small; nia|]. split.
  - destruct Hv. apply Wf_mk; cbn - [take drop]; [|lia|done].
    rewrite !length_app, !length_take, !length_drop. lia.
  - unfold items. cbn - [take drop]. rewrite Hd at 1 2.
    rewrite <- app_assoc at 1. rewrite take_app_length.
    replace (S (length l1)) with (length (l1 ++ [x])) by (rewrite length_app; cbn; lia).
    rewrite drop_app_length, take_app_length, app_assoc, take_app_le, take_ge
      by (rewrite ?length_app; lia). done.
Qed.

Lemma move_put_count t f b c v v' :
  move t f b v = Some (tt, v') -> move t f b (put_count c v) = Some (tt, put_count c v').
Proof.
  unfold move. destruct v as [s c' [d|]]; cbn.
  - destruct (_ && _); [|done]. by intros [= <-].
  - destruct (b =? 0); [|done]. by intros [= <-].
Qed.

Lemma popFront_items v x l :
  Wf v -> items v = x :: l ->
  exists v', popFront v = Some (x, v') /\ Wf v' /\ items v' = l.
Proof.
  intros Hv Hi. destruct (move_down v [] x l Hv Hi) as (v' & Hm & _ & Hc & Hw & Hi').
  eexists. split; [|done]. unfold popFront.
  rewrite (ebind_run _ _ v x v) by (apply index_items; by rewrite ?Hi).
  unfold ebind, egets, emodify, eret. rewrite Hc. cbn in Hm |- *.
  rewrite Z.sub_0_r in Hm. by rewrite (move_put_count _ _ _ _ _ _ Hm).
Qed.

Lemma erase_items v l1 x l2 :
  Wf v -> items v = (l1 ++ x :: l2)%list ->
  let i := Z.of_nat (length l1) in
  exists v', erase i v = Some (i, v') /\ Wf v' /\ items v' = (l1 ++ l2)%list.
Proof.
  intros Hv Hi i. destruct (move_down v l1 x l2 Hv Hi) as (v' & Hm & _ & Hc & Hw & Hi').
  eexists. split; [|done]. unfold erase, ebind, egets, emodify, eret. rewrite Hc.
  replace (wrap W ((m_Count v - 1) * ptr_size - i * ptr_size)) with (bytes (m_Count v - 1 - i))
    by (unfold bytes; f_equal; lia).
  subst i. by rewrite Hm.
Qed.

Lemma setAt_items v i x :
  Wf v -> 0 <= i ->
  exists v', setAt i x v = Some (tt, v') /\ Wf v' /\ items v' = <[Z.to_nat i := x]> (items v).
Proof.
  intros Hv Hi. destruct (Wf_count v Hv) as (H0 & Hb & Hc).
  unfold setAt, ebind, egets, ewhen, write. pose proof (length_items v Hv) as Hl.
  destruct (Z.ltb_spec i (m_Count v)).
  - destruct Hv as [H1 H2 H3]. unfold items, cells in *. destruct (m_Data v) as [d|] eqn:E; cbn in *; [|lia].
    rewrite (proj2 (Z.ltb_lt _ _)) by lia. eexists. split; [reflexivity|]. split.
    + apply Wf_mk; [by rewrite length_insert | lia | done].
    + cbn. by rewrite take_insert_lt by lia.
  - exists v. split_and!; [done..|]. by rewrite list_insert_ge by lia.
Qed.

Lemma assign_items v x :
  Wf v -> Wf x -> exists v', assign x v = Some (tt, v') /\ Wf v' /\ items v' = items x.
Proof.
  intros Hv Hx. destruct (Wf_count x Hx) as (H0 & Hb & Hc).
  pose proof (length_new_array (m_Count x)) as Hla.
  assert (Hr : exists s o, reserve (m_Count x) false v = Some (tt, mkVector s (m_Count v) o) /\
    s = Z.of_nat (length (default [] o)) /\ m_Count x <= s /\ s * ptr_size < 2 ^ W).
  { destruct (Z.leb_spec (m_Count x) (m_Size v)) as [Hle|Hgt].
    - rewrite reserve_keep by done. exists (m_Size v), (m_Data v). destruct v as [s c [d|]], Hv; cbn in *; split_and!; done || lia.
    - unfold reserve, ebind, egets. rewrite (proj2 (Z.leb_gt _ _) Hgt).
      exists (m_Count x), (Some (new_array (m_Count x))). destruct (m_Data v); cbn; split_and!; done || lia. }
  destruct Hr as (s & o & Hr & Hs & Hle & Hm). unfold assign. rewrite (ebind_run _ _ _ _ _ Hr).
  unfold ebind, egets, elift, emodify. cbn. rewrite elems_bytes by done.
  unfold items, cells in *. destruct (Z.to_nat (m_Count x)) as [|n] eqn:En; cbn.
  - eexists. split; [reflexivity|]. split; [by destruct o; split; cbn in *; lia | cbn; by rewrite En].
  - destruct (m_Data x) as [e|]; cbn in *; [|lia]. destruct o as [d|]; cbn in *; [|lia].
    unfold copy_array. rewrite !(proj2 (Nat.leb_le _ _)) by lia. cbn - [take drop].
    eexists. split; [reflexivity|]. split.
    + apply Wf_mk; cbn - [take drop]; [|lia|done]. rewrite length_app, length_take, length_drop. lia.
    + cbn - [take drop]. rewrite En, take_app_le by (rewrite length_take; lia).
      by rewrite take_take, Nat.min_id.
Qed.

Lemma clear_items v : Wf v -> exists v', clear v = Some (tt, v') /\ Wf v' /\ items v' = [].
Proof. intros [H1 H2 H3]. eexists. split; [reflexivity|]. split; [by split; cbn; [|lia|]|done]. Qed.

Lemma new_vector_Wf : Wf new_vector.
Proof. split; cbn; lia. Qed.

End Vector.

(** C31. A [Vector] is a list: starting from the empty vector, every operation
    keeps the vector well formed and does to its elements what its name says,
    in their order, whatever the array grows to: [pushBack] and [pushFront]
    add an element at an end, [popBack] and [popFront] return and remove it,
    [operator []] reads and [setAt] replaces the element at an index and does
    nothing past the end, [erase] removes the element the iterator points to and
    returns the iterator, [assign] (and with it the copy constructor and
    [operator =]) copies the elements.  No access leaves the array. *)
Theorem vector_refines_list W garbage v x :
  8 <= W -> Wf W v ->
  let room := (m_Count v + 1) * ptr_size W < 2 ^ W in
  let does {A} (op : StateE Vector A) (a : A) (l : list Z) :=
    exists v', op v = Some (a, v') /\ Wf W v' /\ items v' = l in
  (Wf W new_vector /\ items new_vector = [] /\ Z.of_nat (length (items v)) = m_Count v) /\
  (room -> does (pushBack W garbage x) tt (items v ++ [x])%list) /\
  (room -> does (pushFront W garbage x) tt (x :: items v)) /\
  (forall l y, items v = (l ++ [y])%list -> does (popBack W) y l) /\
  (forall l y, items v = y :: l -> does (popFront W) y l) /\
  (forall i y, items v !! Z.to_nat i = Some y -> does (read i) y (items v)) /\
  (forall i, 0 <= i -> does (setAt i x) tt (<[Z.to_nat i := x]> (items v))) /\
  (forall l1 y l2, items v = (l1 ++ y :: l2)%list ->
     let i := Z.of_nat (length l1) in does (erase W i) i (l1 ++ l2)%list) /\
  does clear tt [] /\
  (forall u, Wf W u -> does (assign W garbage u) tt (items u)).
Proof.
  intros HW Hv room does. split_and!.
  - by apply new_vector_Wf.
  - done.
  - by apply (length_items W).
  - by apply pushBack_items.
  - by apply pushFront_items.
  - intros l y. by apply popBack_items.
  - intros l y. by apply popFront_items.
  - intros i y Hi. exists v. by split; [apply index_items|].
  - intros i. by apply setAt_items.
  - intros l1 y l2. by apply erase_items.
  - by apply clear_items.
  - intros u. by apply assign_items.
Qed.

Definition abc : Vector := mkVector 4 3 (Some [7; 8; 9; 0]).

Lemma vector_refines_list_witness :
  Wf 32 abc /\
  (exists v', pushFront 32 (fun _ => 0) 6 abc = Some (tt, v') /\ Wf 32 v' /\ items v' = [6; 7; 8; 9]) /\
  (exists v', erase 32 1 abc = Some (1, v') /\ Wf 32 v' /\ items v' = [7; 9]).
Proof.
  assert (H : Wf 32 abc) by by split.
  destruct (vector_refines_list 32 (fun _ => 0) abc 6 ltac:(lia) H)
    as (_ & _ & Hpf & _ & _ & _ & _ & He & _).
  split; [done|]. split; [by apply Hpf | by apply (He [7] 8 [9])].
Defined.

(** [popBack] of an empty vector is not guarded: the count wraps around and the
    cell read is far outside the array. *)
Example popBack_empty : popBack 16 (mkVector 2 0 (Some [7; 8])) = None.
Proof. reflexivity. Qed.
