(* ===== verification/DList.v ===== *)
(** * List<void*>: the kernel's doubly linked list

    [src/system/kernel/utilities/List.cc].  The values are integers (the
    kernel's instances hold pointers and [uint64_t]); [size_t] has [w] bits.  An
    iterator is a pointer to a node. *)
From Stdlib Require Import ZArith Lia List Bool.
From stdpp Require Import base gmap list fin_maps.
From S2P Require Import Prelude Heap.
Import ListNotations.
Local Open Scope Z_scope.
#[local] Set Warnings "-clear-no-such-hyp".
Local Open Scope err_scope.

Record node_t := mkNode { m_Next : ptr; m_Previous : ptr; value : Z }.

Record DList := mkList { nodes : gmap loc node_t; m_Count : Z; m_First : ptr; m_Last : ptr }.

Definition put_nodes (h : gmap loc node_t) (l : DList) : DList := mkList h (m_Count l) (m_First l) (m_Last l).

#[export] Instance dlist_heap : HasHeap DList node_t :=
  {| heap_of := nodes; with_heap := put_nodes;
     heap_with _ _ := eq_refl; with_heap_twice _ _ _ := eq_refl |}.

Definition put_count (c : Z) (l : DList) : DList := mkList (nodes l) c (m_First l) (m_Last l).
Definition put_first (p : ptr) (l : DList) : DList := mkList (nodes l) (m_Count l) p (m_Last l).
Definition put_last (p : ptr) (l : DList) : DList := mkList (nodes l) (m_Count l) (m_First l) p.

Definition with_next (p : ptr) (n : node_t) : node_t := mkNode p (m_Previous n) (value n).
Definition with_prev (p : ptr) (n : node_t) : node_t := mkNode (m_Next n) p (value n).

Definition new_list : DList := mkList ∅ 0 None None.

Section DList.
Context (w : Z).

(** [++m_Count] and [--m_Count]. *)
Definition add_count (d : Z) : StateE DList unit :=
  c <- egets m_Count ;; emodify (put_count (wrap w (c + d))).

Definition count : StateE DList Z := egets m_Count.

Definition pushBack (v : Z) : StateE DList unit :=
  last <- egets m_Last ;;
  newNode <- new_node (mkNode None last v) ;;
  (if nonnull last then modify (with_next newNode) last else emodify (put_first newNode)) ;;
  emodify (put_last newNode) ;; add_count 1.

Definition pushFront (v : Z) : StateE DList unit :=
  first <- egets m_First ;;
  newNode <- new_node (mkNode first None v) ;;
  (if nonnull first then modify (with_prev newNode) first else emodify (put_last newNode)) ;;
  emodify (put_first newNode) ;; add_count 1.

Definition popBack : StateE DList Z :=
  node <- egets m_Last ;;
  prev <- field m_Previous node ;; emodify (put_last prev) ;;
  (if nonnull prev then modify (with_next None) prev else emodify (put_first None)) ;;
  add_count (-1) ;;
  v <- field value node ;; delete_node node ;; eret v.

Definition popFront : StateE DList Z :=
  node <- egets m_First ;;
  next <- field m_Next node ;; emodify (put_first next) ;;
  (if nonnull next then modify (with_prev None) next else emodify (put_last None)) ;;
  add_count (-1) ;;
  v <- field value node ;; delete_node node ;; eret v.

(** Taking [node] out of the chain: the two statements of [erase] with an iterator. *)
Definition unlink_prev (node : ptr) : StateE DList unit :=
  prev <- field m_Previous node ;; next <- field m_Next node ;;
  if nonnull prev then modify (with_next next) prev else emodify (put_first next).

Definition unlink_next (node : ptr) : StateE DList unit :=
  next <- field m_Next node ;; prev <- field m_Previous node ;;
  if nonnull next then modify (with_prev prev) next else emodify (put_last prev).

Definition erase (node : ptr) : StateE DList ptr :=
  unlink_prev node ;; unlink_next node ;; add_count (-1) ;;
  pNext <- field m_Next node ;; delete_node node ;; eret pNext.

(** The two statements of [erase] with a reverse iterator; where the node has no
    neighbour they assign to the other end of the list. *)
Definition unlink_next_reverse (node : ptr) : StateE DList unit :=
  next <- field m_Next node ;; prev <- field m_Previous node ;;
  if nonnull next then modify (with_prev prev) next else emodify (put_first prev).

Definition unlink_prev_reverse (node : ptr) : StateE DList unit :=
  prev <- field m_Previous node ;; next <- field m_Next node ;;
  if nonnull prev then modify (with_next next) prev else emodify (put_last next).

Definition erase_reverse (node : ptr) : StateE DList ptr :=
  unlink_next_reverse node ;; unlink_prev_reverse node ;; add_count (-1) ;;
  pNext <- field m_Previous node ;; delete_node node ;; eret pNext.

Fixpoint clear_nodes (n : nat) (cur : ptr) : StateE DList unit :=
  match n with
  | O => eret tt
  | S n' => next <- field m_Next cur ;; delete_node cur ;; clear_nodes n' next
  end.

Definition clear : StateE DList unit :=
  c <- egets m_Count ;; first <- egets m_First ;;
  clear_nodes (Z.to_nat c) first ;;
  emodify (put_count 0) ;; emodify (put_first None) ;; emodify (put_last None).

(** [++it] and [*it], for an iterator that follows [m_Next]. *)
Definition advance (it : ptr) : StateE DList ptr :=
  if nonnull it then field m_Next it else eret it.

Definition deref (it : ptr) : StateE DList Z :=
  if nonnull it then field value it else eret 0.

(** Run a computation on another list. *)
Definition on {A} (x : DList) (m : StateE DList A) : StateE DList A :=
  fun s => match m x with Some (a, _) => Some (a, s) | None => None end.

(** The loop of [assign] over the list [x]; the two are different objects. *)
Fixpoint copy_nodes (fuel : nat) (x : DList) (cur : ptr) : StateE DList unit :=
  match fuel with
  | O => efail
  | S fuel' =>
      if nonnull cur then
        v <- on x (deref cur) ;; pushBack v ;;
        next <- on x (advance cur) ;; copy_nodes fuel' x next
      else eret tt
  end.

Definition assign (fuel : nat) (x : DList) : StateE DList unit :=
  c <- egets m_Count ;; ewhen (negb (c =? 0)) clear ;;
  copy_nodes fuel x (m_First x).

(** [l = l]: the list that is read is the one [clear] has emptied. *)
Definition assign_self (fuel : nat) : StateE DList unit :=
  c <- egets m_Count ;; ewhen (negb (c =? 0)) clear ;;
  x <- egets id ;; copy_nodes fuel x (m_First x).

(** ** The list in the heap

    [cells] are the nodes in order, with their values. *)
Definition head_ptr (l : list (loc * Z)) : ptr := fst <$> head l.
Definition last_ptr (l : list (loc * Z)) : ptr := fst <$> last l.

Record Chain (h : gmap loc node_t) (l : list (loc * Z)) : Prop := {
  chain_nodup : NoDup (l.*1);
  chain_dom : forall a, is_Some (h !! a) <-> a ∈ l.*1;
  chain_link : forall l1 a v l2, l = (l1 ++ (a, v) :: l2)%list ->
    h !! a = Some (mkNode (head_ptr l2) (last_ptr l1) v)
}.

Record Rep (s : DList) (l : list (loc * Z)) : Prop := {
  rep_chain : Chain (nodes s) l;
  rep_first : m_First s = head_ptr l;
  rep_last : m_Last s = last_ptr l;
  rep_count : m_Count s = wrap w (Z.of_nat (length l))
}.

Lemma new_list_Rep : Rep new_list [].
Proof.
  split; try done. split; [constructor | |].
  - intros a. cbn. rewrite lookup_empty. split; [by intros [??] | by intros ?%elem_of_nil].
  - intros [|] ???; discriminate.
Qed.

Lemma last_ptr_app l a v : last_ptr (l ++ [(a, v)]) = Some a.
Proof. unfold last_ptr. by rewrite last_snoc. Qed.

Lemma last_ptr_cons x l : last_ptr (x :: l) = match last_ptr l with Some p => Some p | None => Some x.1 end.
Proof. unfold last_ptr. destruct l as [|y l]; [done|]. rewrite last_cons_cons. by destruct (last (y :: l)) eqn:E; [|apply last_None in E]. Qed.

Lemma head_ptr_app l1 l2 : head_ptr (l1 ++ l2) = match head_ptr l1 with Some p => Some p | None => head_ptr l2 end.
Proof. by destruct l1. Qed.

(** Writing a link of the node [p] points to, if there is one. *)
Definition relink (g : node_t -> node_t) (p : ptr) (h : gmap loc node_t) : gmap loc node_t :=
  match p with Some a => alter g a h | None => h end.

Lemma relink_lookup g p h b :
  relink g p h !! b = if decide (p = Some b) then g <$> h !! b else h !! b.
Proof.
  case_decide as Hp; [subst p; apply lookup_alter_eq|].
  destruct p as [a|]; cbn; [|done]. apply lookup_alter_ne. congruence.
Qed.

Lemma modify_relink g a s nd :
  nodes s !! a = Some nd -> modify g (Some a) s = Some (tt, put_nodes (relink g (Some a) (nodes s)) s).
Proof.
  intros H. unfold modify. cbn. rewrite H. do 3 f_equal. unfold relink.
  rewrite <- (insert_id (nodes s) a nd H) at 2. by rewrite alter_insert_eq.
Qed.

(** The chain with a node put between two parts, and with one taken out. *)
Definition spliced (l1 l2 : list (loc * Z)) (a : loc) (v : Z) (h : gmap loc node_t) : gmap loc node_t :=
  relink (with_prev (Some a)) (head_ptr l2)
    (relink (with_next (Some a)) (last_ptr l1) (<[a := mkNode (head_ptr l2) (last_ptr l1) v]> h)).

Definition unlinked (l1 l2 : list (loc * Z)) (a : loc) (h : gmap loc node_t) : gmap loc node_t :=
  delete a (relink (with_prev (last_ptr l1)) (head_ptr l2)
             (relink (with_next (head_ptr l2)) (last_ptr l1) h)).

Lemma ptr_elem l a : (head_ptr l = Some a \/ last_ptr l = Some a) -> a ∈ l.*1.
Proof.
  intros [H|H].
  - destruct l as [|[b v] l]; [done|]. injection H as ->. by left.
  - destruct l as [|[b v] l] using rev_ind; [done|]. rewrite last_ptr_app in H. injection H as ->.
    rewrite fmap_app. apply elem_of_app. right. by left.
Qed.

Lemma chain_elem h l a : Chain h l -> a ∈ l.*1 ->
  exists l1 v l2, l = (l1 ++ (a, v) :: l2)%list.
Proof.
  intros Hc Ha. apply list_elem_of_fmap in Ha as ([b v] & -> & Hin).
  apply list_elem_of_split in Hin as (l1 & l2 & ->). by exists l1, v, l2.
Qed.

(** Where a node of two lists put together lies. *)
Lemma split_cases {A} (l1 l2 k1 k2 : list A) b :
  (l1 ++ l2 = k1 ++ b :: k2)%list ->
  (exists m, l1 = (k1 ++ b :: m)%list /\ k2 = (m ++ l2)%list) \/
  (exists m, l2 = (m ++ b :: k2)%list /\ k1 = (l1 ++ m)%list).
Proof.
  intros H. apply app_eq_app in H as [m [[-> H]|[-> ->]]]; [|right; by exists m].
  destruct m as [|c m]; cbn in H.
  - right. exists []. by rewrite !app_nil_r.
  - injection H as <- ->. left. by exists m.
Qed.

Lemma nodup_mid (l1 l2 : list (loc * Z)) b y :
  NoDup ((l1 ++ (b, y) :: l2).*1) -> (b ∉ l1.*1) /\ (b ∉ l2.*1).
Proof.
  rewrite fmap_app. cbn. rewrite NoDup_app, NoDup_cons. intros (_ & H & Hb & _).
  split; [intros Hin; apply (H b Hin); by left | done].
Qed.

Lemma not_head l b : b ∉ l.*1 -> head_ptr l <> Some b.
Proof. intros H E. apply H, ptr_elem. by left. Qed.

Lemma not_last l b : b ∉ l.*1 -> last_ptr l <> Some b.
Proof. intros H E. apply H, ptr_elem. by right. Qed.

(** The node [b] of the first part, followed by [m], after the links around
    the end of the part were set; and of the second part. *)
Lemma relinked_left k1 b y m l2 q p n h :
  b ∉ m.*1 -> b ∉ l2.*1 -> h !! b = Some (mkNode n (last_ptr k1) y) ->
  (forall c, head_ptr m = Some c -> n = Some c) ->
  relink (with_prev p) (head_ptr l2) (relink (with_next q) (last_ptr (k1 ++ (b, y) :: m)) h) !! b =
  Some (mkNode (match head_ptr m with Some c => Some c | None => q end) (last_ptr k1) y).
Proof.
  intros Hm H2 Hb Hn. rewrite !relink_lookup, decide_False by by apply not_head.
  destruct m as [|[c z] m _] using rev_ind.
  - rewrite last_ptr_app, decide_True, Hb by done. done.
  - rewrite app_comm_cons, app_assoc, last_ptr_app, decide_False, Hb.
    + destruct (head_ptr _) eqn:E; [by rewrite (Hn _ eq_refl) | by destruct m].
    + intros [= ->]. apply Hm. rewrite fmap_app. apply elem_of_app. right. by left.
Qed.

Lemma relinked_right l1 m b y k2 q p n h :
  b ∉ m.*1 -> b ∉ l1.*1 -> h !! b = Some (mkNode (head_ptr k2) n y) ->
  (forall c, last_ptr m = Some c -> n = Some c) ->
  relink (with_prev p) (head_ptr (m ++ (b, y) :: k2)) (relink (with_next q) (last_ptr l1) h) !! b =
  Some (mkNode (head_ptr k2) (match last_ptr m with Some c => Some c | None => p end) y).
Proof.
  intros Hm H1 Hb Hn. rewrite !relink_lookup, (decide_False (P := last_ptr l1 = _)) by by apply not_last.
  rewrite head_ptr_app. destruct m as [|[c z] m].
  - cbn. rewrite decide_True, Hb by done. done.
  - cbn - [last_ptr]. rewrite decide_False, Hb.
    + destruct (last_ptr _) eqn:E; [by rewrite (Hn _ eq_refl)|].
      rewrite last_ptr_cons in E. by destruct (last_ptr m).
    + intros [= ->]. apply Hm. by left.
Qed.

(** The pointers at the ends of two lists put together. *)
Lemma last_ptr_app2 l1 l2 : last_ptr (l1 ++ l2) = match last_ptr l2 with Some p => Some p | None => last_ptr l1 end.
Proof.
  destruct l2 as [|[c z] l2 _] using rev_ind; [by rewrite app_nil_r|].
  by rewrite app_assoc, !last_ptr_app.
Qed.

Lemma relink_dom g p h a : is_Some (relink g p h !! a) <-> is_Some (h !! a).
Proof. rewrite relink_lookup. case_decide; [apply fmap_is_Some | done]. Qed.

Lemma chain_spliced h l1 l2 a v :
  Chain h (l1 ++ l2) -> h !! a = None -> Chain (spliced l1 l2 a v h) (l1 ++ (a, v) :: l2).
Proof.
  intros [Hnd Hdom Hl] Ha.
  assert (Hn : a ∉ (l1 ++ l2).*1) by (intros Hin; apply Hdom in Hin; rewrite Ha in Hin; by destruct Hin).
  assert (Hnd' : NoDup ((l1 ++ (a, v) :: l2).*1)).
  { rewrite fmap_app in *. cbn. rewrite <- Permutation_middle. by constructor. }
  rewrite fmap_app, not_elem_of_app in Hn. destruct Hn as [Hn1 Hn2]. split; [done | |].
  - intros b. unfold spliced. rewrite !relink_dom, fmap_app, elem_of_app. cbn.
    rewrite elem_of_cons. destruct (decide (b = a)) as [->|Hne].
    + rewrite lookup_insert_eq. naive_solver.
    + rewrite lookup_insert_ne, Hdom, fmap_app, elem_of_app by done. naive_solver.
  - intros k1 b y k2 E. pose proof Hnd' as Hk. rewrite E in Hk. apply nodup_mid in Hk as [Hk1 Hk2].
    unfold spliced. apply split_cases in E as [(m & -> & ->)|([|[c z] m] & E & ->)]; cbn in *.
    + rewrite fmap_app in *. cbn in *. rewrite not_elem_of_app, not_elem_of_cons in *.
      erewrite relinked_left; [|naive_solver..| |].
      * by rewrite head_ptr_app.
      * rewrite lookup_insert_ne by naive_solver. apply Hl. by rewrite <- app_assoc.
      * intros c Hc. by rewrite head_ptr_app, Hc.
    + injection E as -> -> ->. rewrite app_nil_r in *.
      rewrite !relink_lookup, !decide_False by (by apply not_head || by apply not_last).
      apply lookup_insert_eq.
    + injection E as <- <- ->. rewrite !fmap_app in *. cbn in *.
      rewrite ?not_elem_of_app, ?not_elem_of_cons in *.
      erewrite relinked_right; [|naive_solver..| |].
      * by rewrite last_ptr_app2, last_ptr_cons; destruct (last_ptr m).
      * rewrite lookup_insert_ne by naive_solver. apply Hl. by rewrite app_assoc.
      * intros d Hd. by rewrite last_ptr_app2, Hd.
Qed.

Lemma chain_unlinked h l1 l2 a v :
  Chain h (l1 ++ (a, v) :: l2) -> Chain (unlinked l1 l2 a h) (l1 ++ l2).
Proof.
  intros [Hnd Hdom Hl]. pose proof (nodup_mid _ _ _ _ Hnd) as [Ha1 Ha2].
  assert (Hnd' : NoDup ((l1 ++ l2).*1)).
  { rewrite fmap_app in *. cbn in Hnd. rewrite <- Permutation_middle in Hnd. by inversion Hnd. }
  split; [done | |].
  - intros b. unfold unlinked. destruct (decide (b = a)) as [->|Hne].
    + rewrite lookup_delete_eq, fmap_app, elem_of_app. split; [by intros [??] | naive_solver].
    + rewrite lookup_delete_ne, !relink_dom, Hdom, !fmap_app, !elem_of_app by done. cbn.
      rewrite elem_of_cons. naive_solver.
  - intros k1 b y k2 E. pose proof Hnd' as Hk. rewrite E in Hk. apply nodup_mid in Hk as [Hk1 Hk2].
    unfold unlinked. apply split_cases in E as [(m & -> & ->)|(m & -> & ->)];
      rewrite !fmap_app in *; cbn in *; rewrite ?not_elem_of_app, ?not_elem_of_cons in *;
      rewrite lookup_delete_ne by naive_solver.
    + erewrite relinked_left; [|naive_solver..| |].
      * by rewrite head_ptr_app.
      * apply Hl. by rewrite <- app_assoc.
      * intros c Hc. by rewrite head_ptr_app, Hc.
    + erewrite relinked_right; [|naive_solver..| |].
      * by rewrite last_ptr_app2.
      * apply (Hl (l1 ++ (a, v) :: m)%list). by rewrite <- app_assoc.
      * intros d Hd. by rewrite last_ptr_app2, last_ptr_cons, Hd.
Qed.

(** ** Each operation on the list *)

Definition alive (h : gmap loc node_t) (p : ptr) : Prop := forall b, p = Some b -> is_Some (h !! b).

Lemma chain_alive h l : Chain h l -> alive h (head_ptr l) /\ alive h (last_ptr l).
Proof. intros Hc. split; intros b Hb; apply (chain_dom h l Hc), ptr_elem; auto. Qed.

Lemma alive_relink g p h q : alive h q -> alive (relink g p h) q.
Proof. intros H b Hb. apply relink_dom. by apply H. Qed.

Lemma alive_insert a nd h q : alive h q -> alive (<[a := nd]> h) q.
Proof.
  intros H b Hb. destruct (decide (a = b)) as [->|]; [by rewrite lookup_insert_eq|].
  rewrite lookup_insert_ne by done. by apply H.
Qed.

(** [if (p) p->f = v; else g], where [p] is null or a node. *)
Lemma relink_run g p alt s : alive (nodes s) p ->
  (if nonnull p then modify g p else emodify alt) s =
  Some (tt, match p with Some _ => put_nodes (relink g p (nodes s)) s | None => alt s end).
Proof.
  intros Hp. destruct p as [a|]; [|done]. destruct (Hp a eq_refl) as [nd Hnd]. by apply modify_relink with nd.
Qed.

Lemma add_count_run d s : add_count d s = Some (tt, put_count (wrap w (m_Count s + d)) s).
Proof. done. Qed.

Lemma wrap_length_S (n : nat) : wrap w (wrap w (Z.of_nat n) + 1) = wrap w (Z.of_nat (S n)).
Proof. rewrite wrap_add_idemp_l. f_equal. lia. Qed.

Lemma wrap_length_P (n : nat) : wrap w (wrap w (Z.of_nat (S n)) + -1) = wrap w (Z.of_nat n).
Proof. rewrite wrap_add_idemp_l. f_equal. lia. Qed.

Lemma pushBack_Rep s l v : Rep s l ->
  exists a s', pushBack v s = Some (tt, s') /\ Rep s' (l ++ [(a, v)]).
Proof.
  intros [Hc Hf Hl Hn]. destruct (new_run (mkNode None (m_Last s) v) s) as (a & Ha & Hnew).
  pose proof (chain_alive _ _ Hc) as [_ Hal]. exists a. unfold pushBack.
  rewrite (ebind_run _ _ s (m_Last s) s) by done. rewrite (ebind_run _ _ _ _ _ Hnew).
  erewrite ebind_run; [|apply relink_run; cbn; rewrite Hl; by apply alive_insert].
  eexists. split; [reflexivity|]. cbn in *. rewrite Hl in *.
  assert (Hs : Chain (relink (with_next (Some a)) (last_ptr l) (<[a := mkNode None (last_ptr l) v]> (nodes s))) (l ++ [(a, v)])).
  { apply (chain_spliced _ l [] a v); [by rewrite app_nil_r|done]. }
  assert (Hcnt : wrap w (m_Count s + 1) = wrap w (Z.of_nat (length (l ++ [(a, v)])))).
  { rewrite Hn, wrap_length_S, length_app. f_equal. cbn. lia. }
  destruct l as [|x l _] using rev_ind; [by split|].
  destruct x as [b y]. rewrite last_ptr_app in *. split; cbn; [done | | by rewrite last_ptr_app | done].
  rewrite Hf, !head_ptr_app. by destruct (head_ptr l).
Qed.

Lemma pushFront_Rep s l v : Rep s l ->
  exists a s', pushFront v s = Some (tt, s') /\ Rep s' ((a, v) :: l).
Proof.
  intros [Hc Hf Hl Hn]. destruct (new_run (mkNode (m_First s) None v) s) as (a & Ha & Hnew).
  pose proof (chain_alive _ _ Hc) as [Hal _]. exists a. unfold pushFront.
  rewrite (ebind_run _ _ s (m_First s) s) by done. rewrite (ebind_run _ _ _ _ _ Hnew).
  erewrite ebind_run; [|apply relink_run; cbn; rewrite Hf; by apply alive_insert].
  eexists. split; [reflexivity|]. cbn in *. rewrite Hf in *.
  pose proof (chain_spliced _ [] l a v Hc Ha) as Hs. unfold spliced in Hs. cbn in Hs.
  assert (Hcnt : wrap w (m_Count s + 1) = wrap w (Z.of_nat (S (length l)))) by by rewrite Hn, wrap_length_S.
  destruct l as [|x l]; [by split|]. cbn in Hs. split; [done | done | | done]. cbn - [last_ptr].
  rewrite Hl, !last_ptr_cons. destruct (last_ptr l); done.
Qed.

(** The node [a] in the middle: its links, and that setting its neighbours'
    links leaves it alone. *)
Lemma rep_node s l1 a v l2 : Rep s (l1 ++ (a, v) :: l2) ->
  nodes s !! a = Some (mkNode (head_ptr l2) (last_ptr l1) v) /\
  (forall g h, relink g (last_ptr l1) h !! a = h !! a) /\
  (forall g h, relink g (head_ptr l2) h !! a = h !! a) /\
  alive (nodes s) (last_ptr l1) /\ alive (nodes s) (head_ptr l2).
Proof.
  intros [Hc _ _ _]. pose proof (nodup_mid _ _ _ _ (chain_nodup _ _ Hc)) as [H1 H2]. split_and!.
  - by apply (chain_link _ _ Hc).
  - intros g h. by rewrite relink_lookup, decide_False by by apply not_last.
  - intros g h. by rewrite relink_lookup, decide_False by by apply not_head.
  - intros b Hb. apply (chain_dom _ _ Hc). rewrite fmap_app, elem_of_app. left. apply ptr_elem. by right.
  - intros b Hb. apply (chain_dom _ _ Hc). rewrite fmap_app, elem_of_app. cbn. right. right.
    apply ptr_elem. by left.
Qed.

(** What is left of the list when the node is out. *)
Lemma rep_unlinked s l1 a v l2 :
  Rep s (l1 ++ (a, v) :: l2) ->
  Rep (mkList (unlinked l1 l2 a (nodes s)) (wrap w (m_Count s + -1))
         (if nonnull (last_ptr l1) then m_First s else head_ptr l2)
         (if nonnull (head_ptr l2) then m_Last s else last_ptr l1)) (l1 ++ l2).
Proof.
  intros [Hc Hf Hl Hn]. split; cbn.
  - by apply chain_unlinked with v.
  - rewrite Hf, !head_ptr_app. by destruct l1 as [|x l1 _] using rev_ind;
      [|destruct x; rewrite last_ptr_app; destruct (l1 ++ _)%list eqn:E; [by destruct l1|]].
  - rewrite Hl, !last_ptr_app2, last_ptr_cons. destruct l2; [done|]. cbn - [last_ptr].
    rewrite last_ptr_cons. by destruct (last_ptr l2).
  - rewrite Hn, !length_app. cbn. rewrite Nat.add_succ_r. apply wrap_length_P.
Qed.

Lemma node_field {A} (f : node_t -> A) s a nd :
  nodes s !! a = Some nd -> field f (Some a) s = Some (f nd, s).
Proof. exact (field_run (S := DList) f a s nd). Qed.

(** [if (p) p->f = v; else g] in one state, and the fields it leaves. *)
Definition relinked (g : node_t -> node_t) (p : ptr) (alt : DList -> DList) (s : DList) : DList :=
  match p with Some _ => put_nodes (relink g p (nodes s)) s | None => alt s end.

Lemma unlink_prev_run s a n p v : nodes s !! a = Some (mkNode n p v) -> alive (nodes s) p ->
  unlink_prev (Some a) s = Some (tt, relinked (with_next n) p (put_first n) s).
Proof.
  intros Ha Hp. unfold unlink_prev.
  rewrite (ebind_run _ _ _ _ _ (node_field m_Previous _ _ _ Ha)), (ebind_run _ _ _ _ _ (node_field m_Next _ _ _ Ha)).
  by apply relink_run.
Qed.

Lemma unlink_next_run s a n p v : nodes s !! a = Some (mkNode n p v) -> alive (nodes s) n ->
  unlink_next (Some a) s = Some (tt, relinked (with_prev p) n (put_last p) s).
Proof.
  intros Ha Hp. unfold unlink_next.
  rewrite (ebind_run _ _ _ _ _ (node_field m_Next _ _ _ Ha)), (ebind_run _ _ _ _ _ (node_field m_Previous _ _ _ Ha)).
  by apply relink_run.
Qed.

(** The two relinkings commute: the result is the same whichever neighbour
    is first, and the node itself is not touched. *)
Lemma relinked_nodes g p alt s :
  (forall t, nodes (alt t) = nodes t) -> nodes (relinked g p alt s) = relink g p (nodes s).
Proof. intros H. destruct p; [done | apply H]. Qed.

Lemma relink_comm g g' p q h : p <> q \/ p = None \/ q = None ->
  relink g p (relink g' q h) = relink g' q (relink g p h).
Proof.
  intros Hne. apply map_eq. intros b. rewrite !relink_lookup.
  repeat case_decide; naive_solver.
Qed.

Lemma ends_ne s l1 a v l2 : Rep s (l1 ++ (a, v) :: l2) ->
  last_ptr l1 <> head_ptr l2 \/ last_ptr l1 = None \/ head_ptr l2 = None.
Proof.
  intros [[Hnd _ _] _ _ _]. destruct (last_ptr l1) as [b|] eqn:E1; [|by right; left].
  destruct (head_ptr l2) as [c|] eqn:E2; [|by right; right]. left. intros [= ->].
  rewrite fmap_app in Hnd. apply NoDup_app in Hnd as (_ & Hd & _). apply (Hd c).
  - apply ptr_elem. by right.
  - right. apply ptr_elem. by left.
Qed.

Lemma remove_run {A} (f : node_t -> A) s a nd : nodes s !! a = Some nd ->
  (add_count (-1) ;; x <- field f (Some a) ;; delete_node (Some a) ;; eret x) s =
  Some (f nd, mkList (delete a (nodes s)) (wrap w (m_Count s + -1)) (m_First s) (m_Last s)).
Proof.
  intros Ha. rewrite (ebind_run _ _ _ _ _ (add_count_run _ _)).
  rewrite (ebind_run _ _ _ _ _ (node_field f (put_count _ s) a nd Ha)).
  unfold ebind, delete_node. cbn. by rewrite Ha.
Qed.

Lemma erase_Rep s l1 a v l2 : Rep s (l1 ++ (a, v) :: l2) ->
  exists s', erase (Some a) s = Some (head_ptr l2, s') /\ Rep s' (l1 ++ l2).
Proof.
  intros Hr. destruct (rep_node _ _ _ _ _ Hr) as (Ha & Hp & Hq & Hlp & Hln).
  apply rep_unlinked in Hr. eexists. split; [|exact Hr]. unfold erase.
  rewrite (ebind_run _ _ _ _ _ (unlink_prev_run s a _ _ v Ha Hlp)).
  set (s1 := relinked _ _ _ s). assert (E1 : nodes s1 = relink (with_next (head_ptr l2)) (last_ptr l1) (nodes s))
    by by apply relinked_nodes.
  assert (Ha1 : nodes s1 !! a = Some (mkNode (head_ptr l2) (last_ptr l1) v)) by by rewrite E1, Hp.
  assert (Hln1 : alive (nodes s1) (head_ptr l2)) by (rewrite E1; by apply alive_relink).
  rewrite (ebind_run _ _ _ _ _ (unlink_next_run s1 a _ _ v Ha1 Hln1)).
  set (s2 := relinked _ _ _ s1).
  assert (E2 : nodes s2 = relink (with_prev (last_ptr l1)) (head_ptr l2) (nodes s1)) by by apply relinked_nodes.
  rewrite (remove_run m_Next s2 a (mkNode (head_ptr l2) (last_ptr l1) v)) by by rewrite E2, Hq.
  rewrite E2, E1. subst s2 s1. clear. unfold relinked, unlinked.
  by destruct (last_ptr l1), (head_ptr l2).
Qed.

Lemma unlink_next_reverse_run s a n p v : nodes s !! a = Some (mkNode n p v) -> alive (nodes s) n ->
  unlink_next_reverse (Some a) s = Some (tt, relinked (with_prev p) n (put_first p) s).
Proof.
  intros Ha Hp. unfold unlink_next_reverse.
  rewrite (ebind_run _ _ _ _ _ (node_field m_Next _ _ _ Ha)), (ebind_run _ _ _ _ _ (node_field m_Previous _ _ _ Ha)).
  by apply relink_run.
Qed.

Lemma unlink_prev_reverse_run s a n p v : nodes s !! a = Some (mkNode n p v) -> alive (nodes s) p ->
  unlink_prev_reverse (Some a) s = Some (tt, relinked (with_next n) p (put_last n) s).
Proof.
  intros Ha Hp. unfold unlink_prev_reverse.
  rewrite (ebind_run _ _ _ _ _ (node_field m_Previous _ _ _ Ha)), (ebind_run _ _ _ _ _ (node_field m_Next _ _ _ Ha)).
  by apply relink_run.
Qed.

(** A node with two neighbours, or without any. *)
Lemma erase_reverse_Rep s l1 a v l2 : Rep s (l1 ++ (a, v) :: l2) -> (l1 = [] <-> l2 = []) ->
  exists s', erase_reverse (Some a) s = Some (last_ptr l1, s') /\ Rep s' (l1 ++ l2).
Proof.
  intros Hr Hends. destruct (rep_node _ _ _ _ _ Hr) as (Ha & Hp & Hq & Hlp & Hln).
  pose proof (ends_ne _ _ _ _ _ Hr) as Hne.
  assert (Hpq : last_ptr l1 = None <-> head_ptr l2 = None).
  { destruct l1 as [|[b u] l1 _] using rev_ind; [|rewrite last_ptr_app]; (destruct l2 as [|[c x] l2]; [|cbn]).
    - done.
    - by specialize (proj1 Hends eq_refl).
    - specialize (proj2 Hends eq_refl). by destruct l1.
    - done. }
  apply rep_unlinked in Hr. eexists. split; [|exact Hr]. unfold erase_reverse.
  rewrite (ebind_run _ _ _ _ _ (unlink_next_reverse_run s a _ _ v Ha Hln)).
  set (s1 := relinked _ _ _ s). assert (E1 : nodes s1 = relink (with_prev (last_ptr l1)) (head_ptr l2) (nodes s))
    by by apply relinked_nodes.
  assert (Ha1 : nodes s1 !! a = Some (mkNode (head_ptr l2) (last_ptr l1) v)) by by rewrite E1, Hq.
  assert (Hlp1 : alive (nodes s1) (last_ptr l1)) by (rewrite E1; by apply alive_relink).
  rewrite (ebind_run _ _ _ _ _ (unlink_prev_reverse_run s1 a _ _ v Ha1 Hlp1)).
  set (s2 := relinked _ _ _ s1).
  assert (E2 : nodes s2 = relink (with_next (head_ptr l2)) (last_ptr l1) (nodes s1)) by by apply relinked_nodes.
  rewrite (remove_run m_Previous s2 a (mkNode (head_ptr l2) (last_ptr l1) v)) by by rewrite E2, Hp.
  rewrite E2, E1, relink_comm by done. subst s2 s1. clear - Hpq. unfold relinked, unlinked.
  destruct (last_ptr l1), (head_ptr l2); try done; [by specialize (proj2 Hpq eq_refl)|by specialize (proj1 Hpq eq_refl)].
Qed.

(** [popBack] and [popFront] are the two [erase]s at an end. *)
Lemma popBack_Rep s l a v : Rep s (l ++ [(a, v)]) ->
  exists s', popBack s = Some (v, s') /\ Rep s' l.
Proof.
  intros Hr. destruct (rep_node _ _ _ _ _ Hr) as (Ha & Hp & _ & Hlp & _).
  assert (Hm : m_Last s = Some a) by by rewrite (rep_last _ _ Hr), last_ptr_app.
  apply rep_unlinked in Hr. rewrite app_nil_r in Hr. eexists. split; [|exact Hr].
  unfold popBack. rewrite (ebind_run _ _ s (Some a) s) by (unfold egets; by rewrite Hm).
  rewrite (ebind_run _ _ _ _ _ (node_field m_Previous _ _ _ Ha)). cbn [m_Previous].
  rewrite (ebind_run _ _ s tt (put_last (last_ptr l) s)) by done.
  erewrite ebind_run by by apply relink_run.
  unfold unlinked. destruct (last_ptr l) as [b|]; erewrite (remove_run value _ a (mkNode None _ v)); try done.
  transitivity (nodes s !! a); [apply Hp | exact Ha].
Qed.

Lemma popFront_Rep s a v l : Rep s ((a, v) :: l) ->
  exists s', popFront s = Some (v, s') /\ Rep s' l.
Proof.
  intros Hr. destruct (rep_node s [] _ _ _ Hr) as (Ha & _ & Hq & _ & Hln).
  assert (Hm : m_First s = Some a) by by rewrite (rep_first _ _ Hr).
  apply (rep_unlinked s []) in Hr. eexists. split; [|exact Hr].
  unfold popFront. rewrite (ebind_run _ _ s (Some a) s) by (unfold egets; by rewrite Hm).
  rewrite (ebind_run _ _ _ _ _ (node_field m_Next _ _ _ Ha)). cbn [m_Next].
  rewrite (ebind_run _ _ s tt (put_first (head_ptr l) s)) by done.
  erewrite ebind_run by by apply relink_run.
  unfold unlinked. destruct (head_ptr l) as [b|]; erewrite (remove_run value _ a (mkNode _ None v)); try done.
  transitivity (nodes s !! a); [apply Hq | exact Ha].
Qed.

Lemma clear_nodes_run l : forall s,
  NoDup (l.*1) ->
  (forall l1 a v l2, l = (l1 ++ (a, v) :: l2)%list -> exists p, nodes s !! a = Some (mkNode (head_ptr l2) p v)) ->
  exists h, clear_nodes (length l) (head_ptr l) s = Some (tt, put_nodes h s) /\
            forall b, h !! b = if decide (b ∈ l.*1) then None else nodes s !! b.
Proof.
  induction l as [|[a v] l IH]; intros s Hnd Hl.
  - exists (nodes s). by destruct s.
  - cbn in Hnd. apply NoDup_cons in Hnd as [Ha Hnd]. destruct (Hl [] a v l eq_refl) as [p Hp].
    destruct (IH (put_nodes (delete a (nodes s)) s) Hnd) as (h & Hh & Hb).
    { intros l1 b u l2 ->. destruct (Hl ((a, v) :: l1) b u l2 eq_refl) as [q Hq]. exists q. cbn.
      rewrite lookup_delete_ne; [done|]. intros <-. apply Ha. rewrite fmap_app, elem_of_app. right. by left. }
    exists h. split.
    + cbn. rewrite (ebind_run _ _ _ _ _ (node_field m_Next _ _ _ Hp)). unfold ebind, delete_node. cbn.
      by rewrite Hp.
    + intros b. rewrite Hb. cbn. destruct (decide (b = a)) as [->|Hne].
      * rewrite (decide_True (P := a ∈ a :: _)) by by left. case_decide; [done|]. apply lookup_delete_eq.
      * rewrite lookup_delete_ne by done. repeat case_decide; rewrite ?elem_of_cons in *; naive_solver.
Qed.

Lemma clear_Rep s l : Rep s l -> Z.of_nat (length l) < 2 ^ w ->
  exists s', clear s = Some (tt, s') /\ s' = new_list.
Proof.
  intros [Hc Hf Hl Hn] Hlen. unfold clear. unfold ebind at 1 2, egets.
  rewrite Hn, Hf, wrap_small, Nat2Z.id by (split; lia).
  destruct (clear_nodes_run l s (chain_nodup _ _ Hc)) as (h & Hh & Hb).
  { intros l1 a v l2 E. eexists. by apply (chain_link _ _ Hc). }
  rewrite (ebind_run _ _ _ _ _ Hh). eexists. split; [reflexivity|].
  cut (h = ∅); [intros ->; by destruct s|].
  apply map_eq. intros b. rewrite Hb, lookup_empty. case_decide as Hd; [done|].
  destruct (nodes s !! b) eqn:E; [|done]. exfalso. apply Hd, (chain_dom _ _ Hc). by rewrite E.
Qed.

Lemma iterate_Rep s l1 a v l2 : Rep s (l1 ++ (a, v) :: l2) ->
  deref (Some a) s = Some (v, s) /\ advance (Some a) s = Some (head_ptr l2, s).
Proof.
  intros Hr. destruct (rep_node _ _ _ _ _ Hr) as (Ha & _).
  split; [apply (node_field value _ _ _ Ha) | apply (node_field m_Next _ _ _ Ha)].
Qed.

Lemma on_run {A} x (m : StateE DList A) a x' s : m x = Some (a, x') -> on x m s = Some (a, s).
Proof. unfold on. by intros ->. Qed.

Lemma copy_nodes_Rep x lx l1 l2 : forall fuel s l,
  Rep x lx -> lx = (l1 ++ l2)%list -> Rep s l -> (length l2 < fuel)%nat ->
  exists s' l2', copy_nodes fuel x (head_ptr l2) s = Some (tt, s') /\ Rep s' (l ++ l2') /\ l2'.*2 = l2.*2.
Proof.
  revert l1. induction l2 as [|[a v] l2 IH]; intros l1 fuel s l Hx -> Hs Hfuel;
    (destruct fuel as [|fuel]; [cbn in Hfuel; lia|]).
  - exists s, []. by rewrite app_nil_r.
  - destruct (iterate_Rep x l1 a v l2 Hx) as [Hd Hadv]. cbn [copy_nodes head_ptr fmap option_fmap option_map head nonnull fst].
    rewrite (ebind_run _ _ _ _ _ (on_run _ _ _ _ s Hd)). destruct (pushBack_Rep s l v Hs) as (b & s1 & Hpush & Hs1).
    rewrite (ebind_run _ _ _ _ _ Hpush), (ebind_run _ _ _ _ _ (on_run _ _ _ _ s1 Hadv)).
    destruct (IH (l1 ++ [(a, v)])%list fuel s1 (l ++ [(b, v)])%list Hx) as (s' & l2' & Hrun & Hs' & E);
      [by rewrite <- app_assoc | done | cbn in Hfuel; lia |].
    exists s', ((b, v) :: l2'). rewrite <- app_assoc in Hs'. split_and!; [done | done | cbn; by f_equal].
Qed.

Lemma assign_Rep s l x lx fuel : Rep s l -> Rep x lx -> 0 < w -> Z.of_nat (length l) < 2 ^ w ->
  (length lx < fuel)%nat ->
  exists s' l', assign fuel x s = Some (tt, s') /\ Rep s' l' /\ l'.*2 = lx.*2.
Proof.
  intros Hs Hx Hw Hlen Hfuel. unfold assign. unfold ebind at 1, egets.
  assert (Hcl : exists s1, ewhen (negb (m_Count s =? 0)) clear s = Some (tt, s1) /\ Rep s1 []).
  { destruct (Z.eqb_spec (m_Count s) 0) as [E|E]; cbn.
    - exists s. split; [done|]. rewrite (rep_count _ _ Hs), wrap_small in E by (split; lia).
      by destruct l; [|cbn in E; lia].
    - destruct (clear_Rep s l Hs Hlen) as (s1 & H1 & ->). exists new_list. split; [done | apply new_list_Rep]. }
  destruct Hcl as (s1 & H1 & Hs1). rewrite (ebind_run _ _ _ _ _ H1), (rep_first _ _ Hx).
  destruct (copy_nodes_Rep x lx [] lx fuel s1 [] Hx eq_refl Hs1 Hfuel) as (s' & l' & H' & Hr & E).
  by exists s', l'.
Qed.

End DList.

(** [holds w s vs]: the list object [s] holds the values [vs], in this order. *)
Definition holds (w : Z) (s : DList) (vs : list Z) : Prop := exists l, Rep w s l /\ l.*2 = vs.

(** The [i]-th node of the chain, or null at its end. *)
Fixpoint nth_node (i : nat) (it : ptr) : StateE DList ptr :=
  match i with O => eret it | S i' => n <- advance it ;; nth_node i' n end.

Lemma nth_node_run w s l2 l1 : Rep w s (l1 ++ l2) ->
  nth_node (length l1) (head_ptr (l1 ++ l2)) s = Some (head_ptr l2, s).
Proof.
  assert (H : forall k1 k2 k0, Rep w s (k0 ++ k1 ++ k2) ->
    nth_node (length k1) (head_ptr (k1 ++ k2)) s = Some (head_ptr k2, s)).
  { induction k1 as [|[a v] k1 IH]; intros k2 k0 Hr; [done|].
    destruct (iterate_Rep w s k0 a v (k1 ++ k2) Hr) as [_ Ha]. cbn [length nth_node].
    rewrite (ebind_run _ _ _ _ _ Ha). apply (IH k2 (k0 ++ [(a, v)])%list). by rewrite <- app_assoc. }
  intros Hr. by apply (H l1 l2 []).
Qed.

Lemma holds_split w s v1 v v2 : holds w s (v1 ++ v :: v2) ->
  exists l1 a l2, Rep w s (l1 ++ (a, v) :: l2) /\ l1.*2 = v1 /\ l2.*2 = v2.
Proof.
  intros (l & Hr & E). apply fmap_app_inv in E as (l1 & l2' & -> & E & ->).
  symmetry in E. apply fmap_cons_inv in E as ([a u] & l2 & -> & -> & ->). by exists l1, a, l2.
Qed.

Lemma holds_intro w s l : Rep w s l -> holds w s (l.*2).
Proof. intros H. by exists l. Qed.

(** The iterator an [erase] returns. *)
Lemma erase_holds w s v1 v v2 : holds w s (v1 ++ v :: v2) ->
  exists it, nth_node (length v1) (m_First s) s = Some (it, s) /\ deref it s = Some (v, s) /\
    (exists next s', erase w it s = Some (next, s') /\ holds w s' (v1 ++ v2) /\
                     nth_node (length v1) (m_First s') s' = Some (next, s')) /\
    ((v1 = [] <-> v2 = []) -> exists prev s', erase_reverse w it s = Some (prev, s') /\ holds w s' (v1 ++ v2) /\
                     if decide (v1 = []) then prev = None
                     else nth_node (pred (length v1)) (m_First s') s' = Some (prev, s')).
Proof.
  intros (l1 & a & l2 & Hr & <- & <-)%holds_split. exists (Some a). rewrite length_fmap, <- fmap_app.
  rewrite (rep_first _ _ _ Hr), (nth_node_run _ _ _ _ Hr). split; [done|].
  split; [by apply (iterate_Rep w s l1 a v l2)|]. split.
  - destruct (erase_Rep w s _ _ _ _ Hr) as (s' & H' & Hr'). exists (head_ptr l2), s'.
    split; [done|]. split; [by apply holds_intro|].
    rewrite (rep_first _ _ _ Hr'). by apply (nth_node_run w s').
  - intros Hends. destruct (erase_reverse_Rep w s _ _ _ _ Hr) as (s' & H' & Hr').
    { split; intros E; apply (fmap_nil_inv snd), Hends; by rewrite E. }
    exists (last_ptr l1), s'. split; [done|]. split; [by apply holds_intro|].
    destruct l1 as [|[b u] l1 _] using rev_ind; [done|]. rewrite decide_False
      by (rewrite fmap_app; intros H%app_nil; by destruct H).
    rewrite length_app, Nat.add_1_r, last_ptr_app, (rep_first _ _ _ Hr'). cbn [pred].
    rewrite <- app_assoc in *. by apply (nth_node_run w s' ((b, u) :: l2)).
Qed.

Lemma pops_empty w s : holds w s [] -> popBack w s = None /\ popFront w s = None.
Proof.
  intros (l & Hr & E). apply fmap_nil_inv in E as ->. unfold popBack, popFront, ebind, egets.
  by rewrite (rep_first _ _ _ Hr), (rep_last _ _ _ Hr).
Qed.

(** C30. A [List] is a sequence: every operation keeps the chain of nodes
    well formed (its links agree in both directions, its ends and its count
    are right, no node is lost or shared) and changes the sequence as its name
    says.  [pushBack], [pushFront], [popBack], [popFront] work at the ends (a pop
    of the empty list follows a null pointer), an iterator reaches every element
    in order and then [end()], [erase] takes out the element the iterator is
    at and returns the iterator of the next one, [clear] frees
    every node, and [assign] copies another list; all the loops end.  The [erase] of a
    reverse iterator does so, and returns the iterator of the element before, where the
    element has a neighbour on either side or is the only one. *)
Theorem list_refines_sequence w s vs :
  0 < w -> holds w s vs -> Z.of_nat (length vs) < 2 ^ w ->
  let does {A} (op : StateE DList A) (a : A) (vs' : list Z) :=
    exists s', op s = Some (a, s') /\ holds w s' vs' in
  count s = Some (Z.of_nat (length vs), s) /\
  (forall v, does (pushBack w v) tt (vs ++ [v])%list /\ does (pushFront w v) tt (v :: vs)) /\
  (forall vs' v, vs = (vs' ++ [v])%list -> does (popBack w) v vs') /\
  (forall vs' v, vs = v :: vs' -> does (popFront w) v vs') /\
  (vs = [] -> popBack w s = None /\ popFront w s = None) /\
  nth_node (length vs) (m_First s) s = Some (None, s) /\
  (forall v1 v v2, vs = (v1 ++ v :: v2)%list ->
     exists it, nth_node (length v1) (m_First s) s = Some (it, s) /\ deref it s = Some (v, s) /\
       (exists next s', erase w it s = Some (next, s') /\ holds w s' (v1 ++ v2) /\
                        nth_node (length v1) (m_First s') s' = Some (next, s')) /\
       ((v1 = [] <-> v2 = []) ->
        exists prev s', erase_reverse w it s = Some (prev, s') /\ holds w s' (v1 ++ v2) /\
                        if decide (v1 = []) then prev = None
                        else nth_node (pred (length v1)) (m_First s') s' = Some (prev, s'))) /\
  (exists s', clear s = Some (tt, s') /\ s' = new_list /\ holds w s' []) /\
  (forall x xs fuel, holds w x xs -> (length xs < fuel)%nat -> does (assign w fuel x) tt xs).
Proof.
  intros Hw Hs Hlen does. destruct Hs as (l & Hr & <-). pose proof (holds_intro w s l Hr) as Hs.
  rewrite length_fmap in *. split_and!.
  - unfold count, egets. by rewrite (rep_count _ _ _ Hr), wrap_small by (split; lia).
  - intros v. split.
    + destruct (pushBack_Rep w s l v Hr) as (a & s' & H' & Hr'). exists s'. split; [done|].
      exists (l ++ [(a, v)])%list. by rewrite fmap_app.
    + destruct (pushFront_Rep w s l v Hr) as (a & s' & H' & Hr'). exists s'. split; [done|].
      by exists ((a, v) :: l).
  - intros vs' v Ev. rewrite Ev in Hs. apply holds_split in Hs as (l1 & a & l2 & Hr1 & <- & ?%fmap_nil_inv).
    subst l2. destruct (popBack_Rep w s l1 a v Hr1) as (s' & H' & Hr'). exists s'. by split; [|apply holds_intro].
  - intros vs' v Ev. rewrite Ev in Hs. apply (holds_split w s []) in Hs as (l1 & a & l2 & Hr1 & ?%fmap_nil_inv & <-).
    subst l1. destruct (popFront_Rep w s a v l2 Hr1) as (s' & H' & Hr'). exists s'. by split; [|apply holds_intro].
  - intros Ev. rewrite Ev in Hs. by apply pops_empty.
  - rewrite (rep_first _ _ _ Hr). pose proof (nth_node_run w s [] l) as H. rewrite app_nil_r in H. by apply H.
  - intros v1 v v2 Ev. rewrite Ev in Hs. by apply erase_holds.
  - destruct (clear_Rep w s l Hr Hlen) as (s' & H' & ->). exists new_list. split_and!; [done..|].
    exists []. split; [apply new_list_Rep | done].
  - intros x xs fuel (lx & Hx & <-) Hfuel. rewrite length_fmap in Hfuel.
    destruct (assign_Rep w s l x lx fuel Hr Hx Hw Hlen Hfuel) as (s' & l' & H' & Hr' & El).
    exists s'. split; [done|]. exists l'. done.
Qed.

Definition two : DList :=
  mkList {[1%positive := mkNode (Some 2%positive) None 7; 2%positive := mkNode None (Some 1%positive) 8]} 2
         (Some 1%positive) (Some 2%positive).

Lemma two_holds : holds 32 two [7; 8].
Proof.
  exists [(1%positive, 7); (2%positive, 8)]. split; [|done]. split; [split| | |]; try done.
  - by apply (bool_decide_unpack _).
  - intros a. cbn. rewrite lookup_insert_is_Some', lookup_singleton_is_Some, !elem_of_cons, elem_of_nil.
    split; [intros [<-|<-]; auto | intros [->|[->|[]]]; auto].
  - intros [|x1 [|x2 [|]]] a v l2 E; injection E; by intros; subst.
Qed.

Lemma list_refines_sequence_witness :
  holds 32 two [7; 8] /\
  (exists s', popFront 32 two = Some (7, s') /\ holds 32 s' [8]) /\
  (exists s', assign 32 2 new_list two = Some (tt, s') /\ holds 32 s' []).
Proof.
  pose proof two_holds as H.
  destruct (list_refines_sequence 32 two [7; 8] ltac:(lia) H ltac:(cbn; lia))
    as (_ & _ & _ & Hpf & _ & _ & _ & _ & Has).
  split; [done|]. split; [by apply Hpf|].
  apply (Has new_list []); [|cbn; lia]. exists []. split; [apply new_list_Rep | done].
Defined.

(** Assigning a list to itself empties it. *)
Example assign_self_empties : assign_self 32 5 two = Some (tt, new_list).
Proof. vm_compute. reflexivity. Qed.

(** The [erase] of a reverse iterator assigns to the wrong end.  Of the last element: [m_Last]
    still points to the node that was deleted, and the next [popBack] reads it; of the
    first element: [m_First] does. *)
Example reverse_erase_of_last :
  option_map (fun r => (m_First (snd r), m_Last (snd r), nodes (snd r) !! 2%positive, popBack 32 (snd r)))
    (erase_reverse 32 (Some 2%positive) two) = Some (Some 1%positive, Some 2%positive, None, None).
Proof. vm_compute. reflexivity. Qed.

Example reverse_erase_of_first :
  option_map (fun r => (m_First (snd r), m_Last (snd r), nodes (snd r) !! 1%positive, popFront 32 (snd r)))
    (erase_reverse 32 (Some 1%positive) two) = Some (Some 1%positive, Some 2%positive, None, None).
Proof. vm_compute. reflexivity. Qed.
