(* ===== verification/KString.v ===== *)
(** * String

    [src/system/kernel/utilities/String.cc] and its header: strings of up to 63
    characters in the object ([m_Static]), longer ones in an array on the heap
    ([m_Data]).  A character is a byte; a C string argument is the list of the
    bytes before its terminator, or null; a string passed by reference is another
    object than [*this].  [new] always succeeds, and the bytes of a new
    array are [garbage].  An access outside an array or through null is a fault.
    Sizes are far below the range of [size_t]; where the code decrements a
    length of 0, the access that follows is a fault. *)
From Stdlib Require Import ZArith Lia List Bool.
From stdpp Require Import base list.
From S2P Require Import Prelude.
Import ListNotations.
Local Open Scope nat_scope.
Local Open Scope err_scope.

Record String := mkString {
  m_Data : option (list Z);
  m_Length : nat;
  m_Size : nat;
  m_Static : list Z
}.

Definition StaticSize : nat := 64.

Definition new_string : String := mkString None 0 0 (replicate StaticSize 0%Z).

Definition Op (A : Type) : Type := StateE String A.

Definition put_data (d : option (list Z)) (s : String) : String := mkString d (m_Length s) (m_Size s) (m_Static s).
Definition put_length (n : nat) (s : String) : String := mkString (m_Data s) n (m_Size s) (m_Static s).
Definition put_size (n : nat) (s : String) : String := mkString (m_Data s) (m_Length s) n (m_Static s).
Definition put_static (a : list Z) (s : String) : String := mkString (m_Data s) (m_Length s) (m_Size s) a.

(** ** Arrays of characters *)

(** [n] bytes of an array from [i] on, and an array with such bytes replaced. *)
Definition get (a : list Z) (i n : nat) : option (list Z) :=
  if i + n <=? length a then Some (take n (drop i a)) else None.

Definition put (a : list Z) (i : nat) (l : list Z) : option (list Z) :=
  if i + length l <=? length a then Some (take i a ++ l ++ drop (i + length l) a)%list else None.

(** The C string at index [i] of an array. *)
Fixpoint string_at (a : list Z) : option (list Z) :=
  match a with
  | [] => None
  | c :: a' => if (c =? 0)%Z then Some [] else option_map (cons c) (string_at a')
  end.

Section KString.
Context (garbage : nat -> Z).

Definition new_array (n : nat) : list Z := map garbage (seq 0 n).

(** The array a [char *buf] is set to: [m_Static] of a short string, [m_Data]
    of a long one. *)
Inductive place := Static | Data.

Definition current : Op place := n <- egets m_Length ;; eret (if n <? StaticSize then Static else Data).

Definition array (p : place) : Op (list Z) :=
  match p with Static => egets m_Static | Data => d <- egets m_Data ;; elift d end.

Definition put_array (p : place) (a : list Z) : Op unit :=
  match p with Static => emodify (put_static a) | Data => emodify (put_data (Some a)) end.

(** [memcpy] of the bytes [l] to index [i] of an array; a terminated string. *)
Definition write (p : place) (i : nat) (l : list Z) : Op unit :=
  a <- array p ;; a' <- elift (put a i l) ;; put_array p a'.

Definition read (p : place) (i n : nat) : Op (list Z) := a <- array p ;; elift (get a i n).

Definition is_null (p : place) : Op bool :=
  match p with Static => eret false | Data => d <- egets m_Data ;; eret (match d with None => true | _ => false end) end.

(** The characters of another string, from the place [p] on. *)
Definition read_from (x : String) (p : place) (n : nat) : Op (list Z) :=
  fun s => match read p 0 n x with Some (l, _) => Some (l, s) | None => None end.

(** ** Storage *)

Definition reserve (size : nat) : Op unit :=
  if size <? StaticSize then eret tt
  else
    old <- egets m_Size ;;
    let size := if (size =? old) && (old =? StaticSize) then S size else size in
    ewhen (old <? size)
      (tmp <- egets m_Data ;;
       emodify (put_data (Some (new_array size))) ;;
       (match tmp with
        | Some t => ewhen (negb (old =? 0)) (l <- elift (get t 0 old) ;; write Data 0 l)
        | None => eret tt
        end) ;;
       emodify (put_size size)).

Definition free : Op unit :=
  emodify (put_data None) ;; emodify (put_length 0) ;; emodify (put_size 0).

Definition assign (x : String) : Op unit :=
  let n := m_Length x in
  emodify (put_length n) ;;
  if n <? StaticSize then
    l <- read_from x Static (n + 1) ;; write Static 0 l ;; emodify (put_data None)
  else
    reserve (n + 1) ;;
    (match m_Data x with
     | Some _ => l <- read_from x Data (n + 1) ;; write Data 0 l
     | None => write Data 0 [0%Z]
     end).

(** [assign(const char *s)]. *)
Definition assign_cstr (s : option (list Z)) : Op unit :=
  let n := match s with Some l => length l | None => 0 end in
  emodify (put_length n) ;;
  if n <? StaticSize then
    l <- elift s ;; write Static 0 (l ++ [0%Z])%list ;; emodify (put_data None)
  else
    reserve (n + 1) ;; l <- elift s ;; write Data 0 (l ++ [0%Z])%list.

Definition make (s : option (list Z)) : option String :=
  match assign_cstr s new_string with Some (_, x) => Some x | None => None end.

Definition copy (x : String) : option String :=
  match assign x new_string with Some (_, y) => Some y | None => None end.

(** [operator const char * ]. *)
Definition c_str (s : String) : option (list Z) :=
  if m_Length s <? StaticSize then string_at (m_Static s)
  else match m_Data s with Some d => string_at d | None => Some [] end.

(** ** Concatenation *)

Definition append (x : String) : Op unit :=
  n <- egets m_Length ;;
  let newLength := m_Length x + n in
  (if StaticSize <=? newLength then
     reserve (newLength + 1) ;;
     ewhen (n <? StaticSize) (l <- read Static 0 n ;; write Data 0 l)
   else eret tt) ;;
  l <- read_from x (if StaticSize <? m_Length x then Data else Static) (m_Length x + 1) ;;
  write (if StaticSize <=? newLength then Data else Static) n l ;;
  emodify (put_length (n + m_Length x)).

(** [operator +=(const char *s)]. *)
Definition append_cstr (s : list Z) : Op unit :=
  n <- egets m_Length ;;
  (if length s + n <? StaticSize then write Static n (s ++ [0%Z])%list
   else
     reserve (length s + n + 1) ;;
     ewhen (n <? StaticSize) (l <- read Static 0 n ;; write Data 0 l) ;;
     write Data n (s ++ [0%Z])%list) ;;
  emodify (put_length (n + length s)).

(** ** Shortening *)

(** [if ((buf == m_Data) && (m_Length < StaticSize)) ...]: back into the object. *)
Definition settle (buf : place) : Op unit :=
  n <- egets m_Length ;;
  match buf with
  | Data =>
      ewhen (n <? StaticSize)
        (l <- read Data 0 (n + 1) ;; write Static 0 l ;;
         emodify (put_size StaticSize) ;; emodify (put_data None))
  | Static => eret tt
  end.

(** [char] is signed. *)
Definition iswhitespace (c : Z) : bool := ((signed 8 c <=? 32) || (c =? 127))%Z.

(** [while (n < m_Length && iswhitespace(buf[n])) n++]. *)
Fixpoint skip_white (k : nat) (buf : place) (n : nat) : Op nat :=
  match k with
  | O => eret n
  | S k' => c <- read buf n 1 ;; if iswhitespace (nth 0 c 0%Z) then skip_white k' buf (S n) else eret n
  end.

Definition lstrip : Op unit :=
  buf <- current ;; b <- is_null buf ;;
  if b then eret tt
  else
    c <- read buf 0 1 ;;
    if negb (iswhitespace (nth 0 c 0%Z)) then eret tt
    else
      len <- egets m_Length ;;
      n <- skip_white len buf 0 ;;
      emodify (put_length (len - n)) ;;
      l <- read buf n (len - n) ;; write buf 0 l ;;
      write buf (len - n) [0%Z] ;;
      settle buf.

(** [while (n > 0 && iswhitespace(buf[n - 1])) n--]. *)
Fixpoint drop_white (n : nat) (buf : place) : Op nat :=
  match n with
  | O => eret O
  | S n' => c <- read buf n' 1 ;; if iswhitespace (nth 0 c 0%Z) then drop_white n' buf else eret n
  end.

Definition rstrip : Op unit :=
  buf <- current ;; b <- is_null buf ;;
  if b then eret tt
  else
    len <- egets m_Length ;;
    match len with
    | O => efail
    | S last =>
        c <- read buf last 1 ;;
        if negb (iswhitespace (nth 0 c 0%Z)) then eret tt
        else
          n <- drop_white len buf ;;
          emodify (put_length n) ;; write buf n [0%Z] ;; settle buf
    end.

Definition strip : Op unit := lstrip ;; rstrip.

Definition chomp : Op unit :=
  buf <- current ;; len <- egets m_Length ;;
  match len with
  | O => efail
  | S n => emodify (put_length n) ;; write buf n [0%Z] ;; settle buf
  end.

Definition split (offset : nat) : Op String :=
  buf <- current ;; a <- array buf ;;
  l <- elift (if offset <=? length a then string_at (drop offset a) else None) ;;
  s <- elift (make (Some l)) ;;
  emodify (put_length offset) ;;
  (match buf with
   | Data =>
       if offset <? StaticSize then
         l <- read Data 0 offset ;; write Static 0 l ;;
         emodify (put_data None) ;; emodify (put_size StaticSize) ;; write Static offset [0%Z]
       else write Data offset [0%Z]
   | Static => write Static offset [0%Z]
   end) ;;
  eret s.

Definition nextCharacter (c : nat) : nat := c + 1.

Fixpoint tokenise_loop (fuel : nat) (token : Z) (cp : String) (l : list String) (idx : nat) : option (list String) :=
  match fuel with
  | O => None
  | S fuel' =>
      if idx <? m_Length cp then
        a ← c_str cp;
        if (nth idx a 0 =? token)%Z then
          '(tmp, cp1) ← split (idx + 1) cp;
          pStr ← copy cp1;
          '(_, cp2) ← assign tmp cp1;
          '(_, pStr) ← chomp pStr;
          tokenise_loop fuel' token cp2 (if m_Length pStr =? 0 then l else (l ++ [pStr])%list) 0
        else tokenise_loop fuel' token cp l (nextCharacter idx)
      else if 0 <? m_Length cp then pStr ← copy cp; Some (l ++ [pStr])%list
      else Some l
  end.

Definition tokenise (fuel : nat) (token : Z) (s : String) : option (list String) :=
  cp ← copy s; tokenise_loop fuel token cp [] 0.

(** [sprintf], where [vsprintf] (Printf.v) writes the text [l] and a NUL. *)
Definition sprintf (l : list Z) : Op unit :=
  reserve 256 ;;
  write Data 0 (l ++ [0%Z])%list ;;
  emodify (put_length (length l)) ;;
  settle Data.

(** One byte, whatever the character. *)
Definition Utf32ToUtf8 (utf32 : Z) : list Z * nat := ([Z.land utf32 127], 1).

(** ** Comparison *)

(** [operator ==(const String &s)]; [strcmp] compares up to the terminators. *)
Definition equals (x y : String) : option bool :=
  if negb (m_Length x =? m_Length y) then Some false
  else if m_Length x <? StaticSize then
    a ← string_at (m_Static x); b ← string_at (m_Static y); Some (bool_decide (a = b))
  else
    match m_Data x, m_Data y with
    | None, None => Some true
    | Some d, Some e => a ← string_at d; b ← string_at e; Some (bool_decide (a = b))
    | _, _ => Some false
    end.

(** [operator ==(const char *s)]. *)
Definition equals_cstr (x : String) (s : option (list Z)) : option bool :=
  match (if m_Length x <? StaticSize then Some (m_Static x) else m_Data x), s with
  | None, None => Some true
  | Some buf, Some b => a ← string_at buf; Some (bool_decide (a = b))
  | _, _ => Some false
  end.

(** [startswith] and [endswith] are const, and [operator ==] is not: [*this == s]
    there converts both to [const char * ] and compares the pointers, which are
    different for different objects. *)
Definition same_pointer : bool := false.

(** [memcmp] of the first [n] characters of two arrays. *)
Definition same_bytes (a : list Z) (i : nat) (b : list Z) (n : nat) : option bool :=
  x ← get a i n; y ← get b 0 n; Some (bool_decide (x = y)).

Definition chars (s : String) : option (list Z) :=
  if m_Length s <? StaticSize then Some (m_Static s) else m_Data s.

Definition startswith (x s : String) : option bool :=
  if m_Length x =? m_Length s then Some same_pointer
  else if m_Length x <? m_Length s then Some false
  else a ← chars x; b ← chars s; same_bytes a 0 b (m_Length s).

Definition endswith (x s : String) : option bool :=
  if m_Length x =? m_Length s then Some same_pointer
  else if m_Length x <? m_Length s then Some false
  else a ← chars x; b ← chars s; same_bytes a (m_Length x - m_Length s) b (m_Length s).

(** [startswith(const char *s)], [endswith(const char *s)]. *)
Definition startswith_cstr (x : String) (s : option (list Z)) : option bool := y ← make s; startswith x y.

Definition endswith_cstr (x : String) (s : option (list Z)) : option bool := y ← make s; endswith x y.

End KString.
