(* ===== verification/KStringText.v ===== *)
(** * String: the text of a string

    Every operation of KString.v on strings that hold a text does to the text what
    its name says, as long as the room invariant lets it grow. *)
From Stdlib Require Import ZArith Lia List Bool.
From stdpp Require Import base list tactics.
From S2P Require Import Prelude KString.
Import ListNotations.
Local Open Scope nat_scope.

(** ** Arrays of characters *)

(** Bytes a C string can have, and an array that holds one. *)
Definition text (l : list Z) : Prop := Forall (fun c => 0 < c < 256)%Z l.

Definition has (a l : list Z) : Prop := exists r, a = l ++ 0%Z :: r.

Lemma get_app a b c : get (a ++ b ++ c) (length a) (length b) = Some b.
Proof.
  unfold get. rewrite !length_app, (proj2 (Nat.leb_le _ _)) by lia.
  by rewrite drop_app_length, take_app_length.
Qed.

Lemma put_app a b c l : length l = length b -> put (a ++ b ++ c) (length a) l = Some (a ++ l ++ c).
Proof.
  intros Hl. unfold put. rewrite !length_app, (proj2 (Nat.leb_le _ _)) by lia.
  by rewrite take_app_length, Hl, <- length_app, (app_assoc a b c), drop_app_length.
Qed.

(** A write from the start of an array that is long enough. *)
Lemma put_start a l : length l <= length a -> put a 0 l = Some (l ++ drop (length l) a).
Proof. intros Hl. unfold put. rewrite (proj2 (Nat.leb_le _ _)) by lia. done. Qed.

Lemma get_has a l : has a l -> get a 0 (length l + 1) = Some (l ++ [0%Z]).
Proof.
  intros [r ->]. replace (l ++ 0%Z :: r) with ([] ++ (l ++ [0%Z]) ++ r) by by rewrite <- app_assoc.
  replace (length l + 1) with (length (l ++ [0%Z])) by (rewrite length_app; simpl; lia). apply (get_app []).
Qed.

(** Writing [l'] and a terminator after the characters [l]. *)
Lemma put_has a l l' r : a = l ++ r -> length l' < length r ->
  exists a', put a (length l) (l' ++ [0%Z]) = Some a' /\ length a' = length a /\ has a' (l ++ l').
Proof.
  intros -> Hr. exists (l ++ (l' ++ [0%Z]) ++ drop (length l' + 1) r). split_and!.
  - rewrite <- (take_drop (length l' + 1) r) at 1. apply put_app. rewrite length_app, length_take. simpl. lia.
  - rewrite !length_app, length_drop. simpl. lia.
  - exists (drop (length l' + 1) r). by rewrite <- !app_assoc.
Qed.

Lemma string_at_has a l : text l -> has a l -> string_at a = Some l.
Proof.
  intros Hl [r ->]. induction Hl as [|c l Hc Hl IH]; simpl; [done|].
  rewrite (proj2 (Z.eqb_neq _ _)) by lia. by rewrite IH.
Qed.

Lemma has_length a l : has a l -> length l < length a.
Proof. intros [r ->]. rewrite length_app. simpl. lia. Qed.

(** ** Strings that hold a text *)

(** The arrays have their sizes. *)
Definition wf (s : String) : Prop :=
  length (m_Static s) = StaticSize /\ forall d, m_Data s = Some d -> length d = m_Size s.

Definition buffer (p : place) (s : String) : option (list Z) :=
  match p with Static => Some (m_Static s) | Data => m_Data s end.

Definition place_of (n : nat) : place := if n <? StaticSize then Static else Data.

Record Holds (s : String) (l : list Z) : Prop := {
  holds_text : text l;
  holds_length : m_Length s = length l;
  holds_wf : wf s;
  holds_buffer : exists a, buffer (place_of (length l)) s = Some a /\ has a l
}.

(** A string of [n] characters fits: without an array, [reserve] has to see
    that the size is too small. *)
Definition room (n : nat) (s : String) : Prop :=
  StaticSize <= n -> m_Data s = None -> m_Size s <= n.

Lemma buffer_length p s a : wf s -> buffer p s = Some a ->
  length a = match p with Static => StaticSize | Data => m_Size s end.
Proof. intros [Hs Hd] Hb. destruct p; simpl in Hb; [by injection Hb as <- | by apply Hd]. Qed.

Lemma array_run p s a : buffer p s = Some a -> array p s = Some (a, s).
Proof. unfold array, ebind, egets, elift. destruct p; simpl; [by intros [= ->] | by intros ->]. Qed.

Lemma read_run p i n s a l : buffer p s = Some a -> get a i n = Some l -> read p i n s = Some (l, s).
Proof. intros Hb Hg. unfold read, array, ebind, egets, elift. destruct p; simpl in *; by simplify_eq; rewrite ?Hb, ?Hg. Qed.

(** [s] with the array of [p] replaced. *)
Definition with_buffer (p : place) (a : list Z) (s : String) : String :=
  match p with Static => put_static a s | Data => put_data (Some a) s end.

Lemma write_run p i l s a a' : buffer p s = Some a -> put a i l = Some a' ->
  write p i l s = Some (tt, with_buffer p a' s).
Proof.
  intros Hb Hp. unfold write, array, put_array, emodify, ebind, egets, elift.
  destruct p; simpl in *; simplify_eq; by rewrite ?Hb, ?Hp.
Qed.

Lemma put_length_eq a i l a' : put a i l = Some a' -> length a' = length a.
Proof.
  unfold put. destruct (Nat.leb_spec (i + length l) (length a)); [|done].
  intros [= <-]. rewrite !length_app, length_take, length_drop. lia.
Qed.

Lemma wf_with_buffer p a a' s : wf s -> buffer p s = Some a -> length a' = length a -> wf (with_buffer p a' s).
Proof.
  intros Hwf Hb Hl. pose proof (buffer_length _ _ _ Hwf Hb) as Ha. destruct Hwf as [Hs Hd].
  destruct p; split; simpl in *; try done; [lia|]. intros d [= <-]. lia.
Qed.

Lemma current_run s : current s = Some (place_of (m_Length s), s).
Proof. done. Qed.

Lemma read_from_run x p n s l : read p 0 n x = Some (l, x) -> read_from x p n s = Some (l, s).
Proof. unfold read_from. by intros ->. Qed.

(** A string [x] yields its characters and the terminator from its place. *)
Lemma read_holds x l : Holds x l -> read (place_of (length l)) 0 (length l + 1) x = Some (l ++ [0%Z], x).
Proof. intros [_ _ _ (a & Hb & Ha)]. eapply read_run; [done|]. by apply get_has. Qed.

(** Unfold the steps of an operation. *)
Ltac steps :=
  cbn [ebind egets emodify eret elift ewhen m_Data m_Length m_Size m_Static put_data put_length put_size put_static];
  unfold ebind, egets, emodify, eret, elift, ewhen;
  cbn [m_Data m_Length m_Size m_Static put_data put_length put_size put_static].

Section Text.
Context (garbage : nat -> Z).

Lemma length_fresh_array n : length (new_array garbage n) = n.
Proof. unfold new_array. by rewrite length_map, length_seq. Qed.

(** The array after [reserve] starts with the old one. *)
Lemma reserve_run n s : wf s -> StaticSize <= n -> room n s ->
  exists d, reserve garbage (n + 1) s = Some (tt, mkString (Some d) (m_Length s) (length d) (m_Static s)) /\
            n + 1 <= length d /\ (forall t, m_Data s = Some t -> exists r, d = t ++ r).
Proof.
  intros [Hs Hd] Hn Hroom. unfold reserve. unfold StaticSize in *. destruct s as [dt len sz st]; simpl in Hs, Hd.
  rewrite (proj2 (Nat.ltb_ge _ _)) by lia. steps.
  replace ((n + 1 =? sz) && (sz =? 64)) with false
    by (symmetry; apply andb_false_iff; rewrite !Nat.eqb_neq; lia). cbn zeta.
  destruct (Nat.ltb_spec sz (n + 1)) as [Hlt|Hge].
  - steps. destruct dt as [t|]; steps;
      [|exists (new_array garbage (n + 1)); rewrite length_fresh_array; split_and!; [done | lia | done]].
    specialize (Hd t eq_refl). destruct (Nat.eqb_spec sz 0) as [->|Hz]; cbn [negb].
    + destruct t; [|done]. exists (new_array garbage (n + 1)). rewrite length_fresh_array. split_and!; [done | lia|].
      intros t [= <-]. by eexists.
    + replace (get t 0 sz) with (Some t)
        by (unfold get; rewrite (proj2 (Nat.leb_le _ _)) by lia; by rewrite drop_0, <- Hd, firstn_all).
      erewrite (write_run Data 0 t); [|done | apply put_start; rewrite length_fresh_array; lia].
      exists (t ++ drop (length t) (new_array garbage (n + 1))). split_and!.
      * unfold put_size, put_data. cbn. do 3 f_equal. rewrite length_app, length_drop, length_fresh_array. lia.
      * rewrite length_app, length_drop, length_fresh_array. lia.
      * intros t' [= <-]. by eexists.
  - steps. destruct dt as [t|]; [|specialize (Hroom ltac:(unfold StaticSize; lia) eq_refl); simpl in Hroom; lia].
    specialize (Hd t eq_refl). exists t. split_and!; [by rewrite Hd | lia|].
    intros t' [= <-]. exists []. by rewrite app_nil_r.
Qed.

(** The text written to an empty place at length 0. *)
Lemma holds_short l s : text l -> length l < StaticSize -> m_Length s = length l -> wf s ->
  has (m_Static s) l -> Holds s l.
Proof.
  intros. split; try done. unfold place_of. rewrite (proj2 (Nat.ltb_lt _ _)) by done. by eexists.
Qed.

Lemma holds_long l s d : text l -> StaticSize <= length l -> m_Length s = length l -> wf s ->
  m_Data s = Some d -> has d l -> Holds s l.
Proof.
  intros. split; try done. unfold place_of. rewrite (proj2 (Nat.ltb_ge _ _)) by done. by eexists.
Qed.

Lemma write_data_start l s d : m_Data s = Some d -> length l + 1 <= length d -> m_Length s = length l ->
  text l -> StaticSize <= length l -> wf s ->
  exists s', write Data 0 (l ++ [0%Z]) s = Some (tt, s') /\ Holds s' l.
Proof.
  intros Hd Hl Hn Ht Hsz Hwf.
  destruct (put_has d [] l d) as (d' & Hp & Hld & Hh); [done | lia|].
  eexists. split; [by apply (write_run Data 0 _ s d)|].
  apply (holds_long _ _ d'); try done. by apply (wf_with_buffer Data d).
Qed.

Lemma wf_array d n st : length st = StaticSize -> wf (mkString (Some d) n (length d) st).
Proof. intros Hs. split; [done|]. by intros ? [= <-]. Qed.

Lemma assign_holds x l s : wf s -> room (length l) s -> Holds x l ->
  exists s', assign garbage x s = Some (tt, s') /\ Holds s' l.
Proof.
  intros Hwf Hroom Hx. pose proof (read_holds x l Hx) as Hr. destruct Hx as [Ht Hn Hwx (a & Hb & Ha)].
  unfold assign. rewrite Hn. steps. unfold place_of in Hr, Hb.
  destruct (Nat.ltb_spec (length l) StaticSize) as [Hlt|Hge].
  - rewrite (read_from_run _ _ _ _ _ Hr). destruct Hwf as [Hs Hd].
    destruct (put_has (m_Static s) [] l (m_Static s)) as (st & Hp & Hst & Hh); [done | lia|].
    rewrite (write_run Static _ _ _ (m_Static s) st); [|done..]. eexists. split; [done|].
    apply holds_short; try done. split; simpl; [lia | done].
  - destruct (reserve_run (length l) (put_length (length l) s)) as (d & -> & Hd & _); [done..|].
    simpl in Hb. rewrite Hb, (read_from_run _ _ _ _ _ Hr).
    apply (write_data_start l _ d); try done. apply wf_array, Hwf.
Qed.

Lemma assign_cstr_holds l s : wf s -> room (length l) s -> text l ->
  exists s', assign_cstr garbage (Some l) s = Some (tt, s') /\ Holds s' l.
Proof.
  intros Hwf Hroom Ht. unfold assign_cstr. steps.
  destruct (Nat.ltb_spec (length l) StaticSize) as [Hlt|Hge].
  - destruct Hwf as [Hs Hd].
    destruct (put_has (m_Static s) [] l (m_Static s)) as (st & Hp & Hst & Hh); [done | lia|].
    rewrite (write_run Static _ _ _ (m_Static s) st); [|done..]. eexists. split; [done|].
    apply holds_short; try done. split; simpl; [lia | done].
  - destruct (reserve_run (length l) (put_length (length l) s)) as (d & -> & Hd & _); [done..|].
    apply (write_data_start l _ d); try done. apply wf_array, Hwf.
Qed.

Lemma wf_new : wf new_string.
Proof. split; [done|]. done. Qed.

Lemma room_new n : room n new_string.
Proof. intros _ _. simpl. lia. Qed.

Lemma make_holds l : text l -> exists s, make garbage (Some l) = Some s /\ Holds s l.
Proof.
  intros Ht. unfold make. destruct (assign_cstr_holds l new_string wf_new (room_new _) Ht) as (s & -> & Hs).
  by exists s.
Qed.

Lemma copy_holds x l : Holds x l -> exists s, copy garbage x = Some s /\ Holds s l.
Proof.
  intros Hx. unfold copy. destruct (assign_holds x l new_string wf_new (room_new _) Hx) as (s & -> & Hs).
  by exists s.
Qed.

Lemma c_str_holds s l : Holds s l -> c_str s = Some l.
Proof.
  intros [Ht Hn Hwf (a & Hb & Ha)]. unfold c_str. rewrite Hn. unfold place_of in Hb.
  destruct (length l <? StaticSize); simpl in Hb; [injection Hb as ->|rewrite Hb]; by apply string_at_has.
Qed.

(** ** Concatenation *)

(** The characters of [s] in the array that [reserve] left, when it had none. *)
Lemma append_data s l lx : Holds s l -> text lx -> StaticSize <= length l + length lx ->
  room (length l + length lx) s ->
  exists d s', (reserve garbage (length l + length lx + 1) ;;
                ewhen (length l <? StaticSize) (t <- read Static 0 (length l) ;; write Data 0 t))%err s
                 = Some (tt, s') /\
               m_Data s' = Some d /\ wf s' /\ m_Length s' = length l /\
               length l + length lx < length d /\ (exists r, d = l ++ r).
Proof.
  intros [Ht Hn Hwf (a & Hb & r & Ha)] Htx Hsz Hroom.
  destruct (reserve_run _ s Hwf Hsz Hroom) as (d & Hres & Hd & Hpre).
  estep ltac:(exact Hres). unfold place_of in Hb.
  destruct (Nat.ltb_spec (length l) StaticSize) as [Hlt|Hge]; unfold ewhen.
  - simpl in Hb. injection Hb as Ha'.
    estep ltac:(eapply read_run; [done|]; simpl; rewrite Ha', Ha; apply (get_app [])).
    assert (Hl : length (l ++ drop (length l) d) = length d) by (rewrite length_app, length_drop; lia).
    eexists _, _. split; [eapply (write_run Data); [done | apply put_start; lia]|].
    split_and!; [done| |done|rewrite Hl; lia|by eexists].
    apply (wf_with_buffer Data d); [apply wf_array, Hwf | done..].
  - destruct (Hpre _ Hb) as [r' ->]. eexists _, _. split; [done|].
    split_and!; [done|apply wf_array, Hwf|done|lia|]. exists (0%Z :: r ++ r'). subst a. by rewrite <- app_assoc.
Qed.

Lemma eseq2_run (m1 m2 w f : Op unit) s s' : (m1 ;; m2)%err s = Some (tt, s') ->
  ((m1 ;; m2 ;; w) ;; f)%err s = (w ;; f)%err s'.
Proof.
  unfold ebind. destruct (m1 s) as [[? s1]|]; [|done].
  destruct (m2 s1) as [[? s2]|]; [|done]. by intros [= _ ->].
Qed.

(** The end of both operators: the new characters after the old ones. *)
Lemma append_write p s l lx a : wf s -> text l -> text lx -> m_Length s = length l ->
  buffer p s = Some a -> (exists r, a = l ++ r) -> p = place_of (length l + length lx) ->
  length l + length lx < length a ->
  exists s', (write p (length l) (lx ++ [0%Z]) ;; emodify (put_length (length l + length lx)))%err s
               = Some (tt, s') /\ Holds s' (l ++ lx).
Proof.
  intros Hwf Ht Htx Hn Hb [r ->] Hp Hlen. rewrite length_app in Hlen.
  destruct (put_has (l ++ r) l lx r) as (a' & Hput & Hla & Hh); [done | lia|].
  estep ltac:(by apply (write_run p _ _ s (l ++ r) a')). eexists. split; [done|].
  pose proof (wf_with_buffer _ _ a' _ Hwf Hb Hla) as Hwf'.
  split; [by apply Forall_app_2 | by rewrite length_app |done|].
  rewrite length_app, <- Hp. exists a'. split; [|done]. by destruct p.
Qed.

Lemma append_cstr_holds s l lx : Holds s l -> text lx -> room (length l + length lx) s ->
  exists s', append_cstr garbage lx s = Some (tt, s') /\ Holds s' (l ++ lx).
Proof.
  intros Hs Htx Hroom. pose proof Hs as [Ht Hn Hwf (a & Hb & Ha)].
  unfold append_cstr. estep ltac:(done). rewrite Hn, (Nat.add_comm (length lx)).
  destruct (Nat.ltb_spec (length l + length lx) StaticSize) as [Hlt|Hge].
  - unfold place_of in Hb. rewrite (proj2 (Nat.ltb_lt _ _)) in Hb by lia. simpl in Hb. injection Hb as <-.
    eapply (append_write Static); try done.
    + destruct Ha as [r ->]. by eexists.
    + unfold place_of. by rewrite (proj2 (Nat.ltb_lt _ _)) by lia.
    + destruct Hwf as [-> _]. lia.
  - destruct (append_data s l lx Hs Htx Hge Hroom) as (d & s' & Hrun & Hd & Hwf' & Hn' & Hlen & Hpre).
    rewrite (eseq2_run _ _ _ _ _ _ Hrun). eapply (append_write Data); try done.
    unfold place_of. by rewrite (proj2 (Nat.ltb_ge _ _)) by lia.
Qed.

(** [operator +=]; a string of exactly 64 characters on the right is left out. *)
Lemma append_holds s l x lx : Holds s l -> Holds x lx -> length lx <> StaticSize ->
  room (length l + length lx) s ->
  exists s', append garbage x s = Some (tt, s') /\ Holds s' (l ++ lx).
Proof.
  intros Hs Hx Hne Hroom. pose proof (read_holds x lx Hx) as Hr. destruct Hx as [Htx Hnx _ _].
  pose proof Hs as [Ht Hn Hwf (a & Hb & Ha)].
  unfold append. estep ltac:(done). rewrite Hn, Hnx, (Nat.add_comm (length lx)). cbn zeta.
  assert (Hp : (if StaticSize <? length lx then Data else Static) = place_of (length lx)).
  { unfold place_of. destruct (Nat.ltb_spec StaticSize (length lx)), (Nat.ltb_spec (length lx) StaticSize); try done; lia. }
  rewrite Hp. destruct (Nat.leb_spec StaticSize (length l + length lx)) as [Hge|Hlt].
  - destruct (append_data s l lx Hs Htx Hge Hroom) as (d & s' & Hrun & Hd & Hwf' & Hn' & Hlen & Hpre).
    estep ltac:(exact Hrun). estep ltac:(by apply read_from_run).
    eapply (append_write Data); try done. unfold place_of. by rewrite (proj2 (Nat.ltb_ge _ _)) by lia.
  - estep ltac:(done). estep ltac:(by apply read_from_run).
    unfold place_of in Hb. rewrite (proj2 (Nat.ltb_lt _ _)) in Hb by lia. simpl in Hb. injection Hb as <-.
    eapply (append_write Static); try done.
    + destruct Ha as [r ->]. by eexists.
    + unfold place_of. by rewrite (proj2 (Nat.ltb_lt _ _)) by lia.
    + destruct Hwf as [-> _]. lia.
Qed.

(** ** Shortening *)

(** [settle] brings a text that became short back into the object. *)
Lemma settle_holds p s l a : wf s -> text l -> m_Length s = length l -> buffer p s = Some a -> has a l ->
  (p = Static -> length l < StaticSize) ->
  exists s', settle p s = Some (tt, s') /\ Holds s' l.
Proof.
  intros Hwf Ht Hn Hb Ha Hp. unfold settle. estep ltac:(done). destruct p.
  - eexists. split; [done|]. injection Hb as <-. by apply holds_short; auto.
  - rewrite Hn. destruct (Nat.ltb_spec (length l) StaticSize) as [Hlt|Hge]; unfold ewhen.
    + estep ltac:(eapply (read_run Data); [done | by apply get_has]).
      destruct (put_has (m_Static s) [] l (m_Static s)) as (st & Hput & Hst & Hh); [done|destruct Hwf; lia|].
      estep ltac:(by eapply (write_run Static)). eexists. split; [done|].
      apply holds_short; try done. split; simpl; [destruct Hwf; lia | done].
    + eexists. split; [done|]. by apply (holds_long _ _ a).
Qed.

(** The end of the shortening operations: the terminator after the text [l'],
    which is at the start of the array. *)
Lemma shorten_holds p s l' a : wf s -> text l' -> m_Length s = length l' -> buffer p s = Some a ->
  length l' < length a -> (p = Static -> length l' < StaticSize) -> (exists r, a = l' ++ r) ->
  exists s', (write p (length l') [0%Z] ;; settle p)%err s = Some (tt, s') /\ Holds s' l'.
Proof.
  intros Hwf Ht Hn Hb Hlen Hp [r ->]. rewrite length_app in Hlen.
  destruct (put_has (l' ++ r) l' [] r) as (a' & Hput & Hla & Hh); [done | simpl; lia|].
  rewrite app_nil_r in Hh.
  estep ltac:(eapply write_run; [done | exact Hput]).
  apply (settle_holds p _ l' a'); try done.
  - by apply (wf_with_buffer p (l' ++ r)).
  - by destruct p.
  - by destruct p.
Qed.

Lemma text_prefix l l' : text (l ++ l') -> text l.
Proof. by intros [? ?]%Forall_app. Qed.

Lemma text_suffix l l' : text (l ++ l') -> text l'.
Proof. by intros [? ?]%Forall_app. Qed.

Lemma wf_put_length n s : wf s -> wf (put_length n s).
Proof. by intros []. Qed.

Lemma buffer_put_length p n s : buffer p (put_length n s) = buffer p s.
Proof. by destruct p. Qed.

(** Where a text is, a shorter one is too. *)
Lemma place_shorter n m : place_of n = Static -> m <= n -> m < StaticSize.
Proof. unfold place_of. destruct (Nat.ltb_spec n StaticSize); [lia | done]. Qed.

Lemma chomp_holds s l c : Holds s (l ++ [c]) -> exists s', chomp s = Some (tt, s') /\ Holds s' l.
Proof.
  intros [Ht Hn Hwf (a & Hb & r & Ha)]. unfold chomp.
  estep ltac:(apply current_run). estep ltac:(done). rewrite Hn.
  rewrite length_app, Nat.add_comm in *. cbn [length Nat.add] in *. estep ltac:(done).
  apply (shorten_holds _ _ l a); try done.
  - by apply text_prefix in Ht.
  - subst a. rewrite !length_app. simpl. lia.
  - intros Hp. eapply place_shorter; [done | lia].
  - exists ([c] ++ 0%Z :: r). subst a. by rewrite <- app_assoc.
Qed.

(** ** Whitespace *)

Fixpoint ltrim (l : list Z) : list Z :=
  match l with [] => [] | c :: l' => if iswhitespace c then ltrim l' else l end.

Definition rtrim (l : list Z) : list Z := rev (ltrim (rev l)).

Lemma ltrim_suffix l : exists w, l = w ++ ltrim l.
Proof.
  induction l as [|c l [w Hw]]; [by exists []|]. simpl. destruct (iswhitespace c); [|by exists []].
  exists (c :: w). simpl. by f_equal.
Qed.

Lemma rtrim_prefix l : exists w, l = rtrim l ++ w.
Proof.
  destruct (ltrim_suffix (rev l)) as [w Hw]. exists (rev w). unfold rtrim.
  rewrite <- (rev_involutive l) at 1. by rewrite Hw, rev_app_distr at 1.
Qed.

Lemma ltrim_length l : length (ltrim l) <= length l.
Proof. destruct (ltrim_suffix l) as [w Hw]. rewrite Hw at 2. rewrite length_app. lia. Qed.

(** One character of an array. *)
Lemma read_one p s pre c r : buffer p s = Some (pre ++ c :: r) -> read p (length pre) 1 s = Some ([c], s).
Proof. intros Hb. eapply read_run; [done|]. apply (get_app pre [c] r). Qed.

Lemma skip_white_run p s l pre r : buffer p s = Some (pre ++ l ++ r) ->
  skip_white (length l) p (length pre) s = Some (length pre + (length l - length (ltrim l)), s).
Proof.
  revert pre. induction l as [|c l IH]; intros pre Hb; simpl; [by rewrite Nat.add_0_r|].
  estep ltac:(by eapply read_one). simpl. destruct (iswhitespace c).
  - specialize (IH (pre ++ [c])). rewrite <- app_assoc in IH. specialize (IH Hb).
    rewrite length_app, Nat.add_comm in IH. simpl in IH. rewrite IH.
    pose proof (ltrim_length l). unfold eret. do 2 f_equal. lia.
  - unfold eret. do 2 f_equal. simpl. lia.
Qed.

Lemma rtrim_snoc l c : rtrim (l ++ [c]) = if iswhitespace c then rtrim l else l ++ [c].
Proof.
  unfold rtrim. rewrite rev_app_distr. simpl. destruct (iswhitespace c); [done|].
  simpl. by rewrite rev_involutive.
Qed.

Lemma drop_white_run p s l r : buffer p s = Some (l ++ r) ->
  drop_white (length l) p s = Some (length (rtrim l), s).
Proof.
  revert r. induction l as [|c l IH] using rev_ind; intros r Hb; [done|].
  rewrite length_app, Nat.add_comm. simpl. rewrite <- app_assoc in Hb.
  estep ltac:(by eapply read_one). simpl. rewrite rtrim_snoc. destruct (iswhitespace c).
  - by apply IH in Hb.
  - unfold eret. do 2 f_equal. rewrite length_app. simpl. lia.
Qed.

Lemma is_null_run p s a : buffer p s = Some a -> is_null p s = Some (false, s).
Proof. unfold is_null, ebind, egets, eret. destruct p; simpl; [done|]. by intros ->. Qed.

Lemma lstrip_holds s l : Holds s l -> exists s', lstrip s = Some (tt, s') /\ Holds s' (ltrim l).
Proof.
  intros Hs. pose proof Hs as [Ht Hn Hwf (a & Hb & r & ->)]. unfold lstrip.
  estep ltac:(apply current_run). rewrite Hn.
  estep ltac:(by eapply is_null_run). cbn [negb].
  assert (Hread : exists c, read (place_of (length l)) 0 1 s = Some ([c], s) /\
                            (if iswhitespace c then True else ltrim l = l)).
  { destruct l as [|c l]; eexists; (split; [by eapply (read_one _ _ [])|]); simpl; [done|].
    by destruct (iswhitespace c). }
  destruct Hread as (c & Hread & Hc). estep ltac:(exact Hread). simpl.
  destruct (iswhitespace c); cbn [negb]; [|exists s; by rewrite Hc].
  estep ltac:(done). rewrite Hn.
  estep ltac:(by eapply (skip_white_run _ s l [])). simpl.
  destruct (ltrim_suffix l) as [w Hw].
  assert (Hlen : length l = length w + length (ltrim l)) by (rewrite Hw at 1; apply length_app).
  replace (length l - (length l - length (ltrim l))) with (length (ltrim l)) by lia.
  replace (length l - length (ltrim l)) with (length w) by lia.
  estep ltac:(done).
  assert (Hb' : buffer (place_of (length l)) (put_length (length (ltrim l)) s)
                = Some (w ++ ltrim l ++ 0%Z :: r)).
  { rewrite buffer_put_length, Hb, Hw at 1. by rewrite <- app_assoc. }
  estep ltac:(eapply read_run; [exact Hb' | apply get_app]).
  estep ltac:(eapply write_run; [exact Hb' | apply put_start; rewrite !length_app; simpl; lia]).
  set (a' := ltrim l ++ drop _ _).
  assert (Ha' : length a' = length (w ++ ltrim l ++ 0%Z :: r))
    by (subst a'; rewrite length_app, length_drop, !length_app; simpl; lia).
  apply (shorten_holds _ _ _ a').
  - eapply wf_with_buffer; [by apply wf_put_length | exact Hb' | done].
  - rewrite Hw in Ht. by apply text_suffix in Ht.
  - by destruct (place_of _).
  - by destruct (place_of _).
  - rewrite Ha', !length_app. simpl. lia.
  - intros Hp. eapply place_shorter; [done | lia].
  - by eexists.
Qed.

Lemma rstrip_holds s l : l <> [] -> Holds s l -> exists s', rstrip s = Some (tt, s') /\ Holds s' (rtrim l).
Proof.
  intros Hne Hs. pose proof Hs as [Ht Hn Hwf (a & Hb & r & ->)]. unfold rstrip.
  estep ltac:(apply current_run). rewrite Hn.
  estep ltac:(by eapply is_null_run). cbn [negb]. estep ltac:(done). rewrite Hn.
  destruct (exists_last Hne) as (l1 & c & ->). clear Hne.
  assert (Hlast : length (l1 ++ [c]) = S (length l1)) by (rewrite length_app; simpl; lia).
  rewrite Hlast. rewrite Hlast in Hb, Hn. pose proof Hb as Hb1. rewrite <- app_assoc in Hb1.
  estep ltac:(by eapply read_one). cbn [nth].
  rewrite rtrim_snoc. destruct (iswhitespace c) eqn:Hc; cbn [negb]; [|by exists s].
  pose proof (drop_white_run _ _ _ _ Hb) as Hdrop. rewrite Hlast, rtrim_snoc, Hc in Hdrop.
  estep ltac:(exact Hdrop).
  estep ltac:(done). destruct (rtrim_prefix l1) as [w Hw].
  assert (Hlen : length l1 = length (rtrim l1) + length w) by (rewrite Hw at 1; apply length_app).
  apply (shorten_holds _ _ _ ((l1 ++ [c]) ++ 0%Z :: r)).
  - by apply wf_put_length.
  - apply text_prefix in Ht. rewrite Hw in Ht. by apply text_prefix in Ht.
  - done.
  - by rewrite buffer_put_length.
  - rewrite !length_app. simpl. lia.
  - intros Hp. eapply place_shorter; [done | lia].
  - exists (w ++ [c] ++ 0%Z :: r). rewrite Hw at 1. by rewrite <- !app_assoc.
Qed.

Lemma strip_holds s l : ltrim l <> [] -> Holds s l ->
  exists s', strip s = Some (tt, s') /\ Holds s' (rtrim (ltrim l)).
Proof.
  intros Hne Hs. destruct (lstrip_holds s l Hs) as (s1 & Hrun & H1).
  unfold strip. estep ltac:(exact Hrun). by apply rstrip_holds.
Qed.

(** ** Cutting *)

Lemma has_drop a l n : n <= length l -> has a l -> n <= length a /\ has (drop n a) (drop n l).
Proof. intros Hn [r ->]. split; [rewrite length_app; lia|]. exists r. by rewrite drop_app_le. Qed.

(** The terminator at the end of a shorter text. *)
Lemma cut_buffer p s l' a : wf s -> text l' -> m_Length s = length l' -> buffer p s = Some a ->
  length l' < length a -> p = place_of (length l') -> (exists r, a = l' ++ r) ->
  exists a', write p (length l') [0%Z] s = Some (tt, with_buffer p a' s) /\ Holds (with_buffer p a' s) l'.
Proof.
  intros Hwf Ht Hn Hb Hlen Hp [r ->]. rewrite length_app in Hlen.
  destruct (put_has (l' ++ r) l' [] r) as (a' & Hput & Hla & Hh); [done | simpl; lia|].
  rewrite app_nil_r in Hh. exists a'. split; [eapply write_run; [done | exact Hput]|].
  split; [done | by destruct p | by eapply wf_with_buffer|].
  rewrite <- Hp. exists a'. split; [by destruct p | done].
Qed.

(** A short text moves from the heap into the object. *)
Lemma cut_into_object s l' d r : wf s -> text l' -> m_Length s = length l' -> m_Data s = Some d ->
  d = l' ++ r -> length l' < StaticSize ->
  exists s', (l <- read Data 0 (length l') ;; write Static 0 l ;; emodify (put_data None) ;;
              emodify (put_size StaticSize) ;; write Static (length l') [0%Z])%err s = Some (tt, s') /\
             Holds s' l' /\ m_Size s' = StaticSize.
Proof.
  intros Hwf Ht Hn Hd -> Hlt.
  estep ltac:(eapply (read_run Data); [exact Hd | apply (get_app [])]).
  destruct Hwf as [Hst Hsz].
  estep ltac:(eapply (write_run Static); [done | apply put_start; lia]).
  estep ltac:(done). estep ltac:(done).
  match goal with |- context [write _ _ _ ?s1] =>
    edestruct (cut_buffer Static s1 l') as (a' & Hw & Hh) end; [..|by eexists; split_and!].
  - split; simpl; [|done]. rewrite length_app, length_drop. lia.
  - done.
  - done.
  - done.
  - simpl. rewrite length_app, length_drop. lia.
  - unfold place_of. by rewrite (proj2 (Nat.ltb_lt _ _)).
  - by eexists.
Qed.

Lemma split_holds s l n : n <= length l -> Holds s l ->
  exists t s', split garbage n s = Some (t, s') /\ Holds t (drop n l) /\ Holds s' (take n l) /\
               (StaticSize <= length l -> m_Data s' = None -> m_Size s' = StaticSize).
Proof.
  intros Hle Hs. pose proof Hs as [Ht Hn Hwf (a & Hb & Ha)]. unfold split.
  assert (Htake : text (take n l)) by by apply Forall_take.
  assert (Hlen : length (take n l) = n) by (rewrite length_take; lia).
  assert (Hpre : exists r, a = take n l ++ r).
  { destruct Ha as [r ->]. exists (drop n l ++ 0%Z :: r). by rewrite app_assoc, take_drop. }
  pose proof (has_length _ _ Ha) as Hla.
  destruct (has_drop a l n Hle Ha) as [Hna Hdrop].
  destruct (make_holds (drop n l)) as (t & Hmake & Ht'); [by apply Forall_drop|].
  estep ltac:(apply current_run). rewrite Hn.
  estep ltac:(by apply array_run).
  rewrite (proj2 (Nat.leb_le _ _)) by done. rewrite (string_at_has _ _ (Forall_drop _ _ _ Ht) Hdrop).
  estep ltac:(done). rewrite Hmake. estep ltac:(done). estep ltac:(done).
  exists t. set (s1 := put_length n s). assert (Hwf1 : wf s1) by by apply wf_put_length.
  assert (Hn1 : m_Length s1 = length (take n l)) by by rewrite Hlen.
  assert (Hb1 : buffer (place_of (length l)) s1 = Some a) by by rewrite <- Hb, <- (buffer_put_length _ n).
  clearbody s1. destruct (place_of (length l)) eqn:Hp.
  - assert (Hshort : n < StaticSize) by (eapply place_shorter; [done | lia]).
    destruct (cut_buffer Static s1 (take n l) a) as (a' & Hw & Hh); try done; [lia| |].
    + rewrite Hlen. unfold place_of. by rewrite (proj2 (Nat.ltb_lt _ _)).
    + rewrite Hlen in Hw. estep ltac:(exact Hw). eexists. split_and!; try done.
      intros Hge. pose proof (place_shorter _ (length l) Hp ltac:(lia)). lia.
  - destruct Hpre as [r Hpre]. simpl in Hb1. destruct (Nat.ltb_spec n StaticSize) as [Hlt|Hge].
    + destruct (cut_into_object s1 (take n l) a r) as (s' & Hrun & Hh & Hsz); try done; [lia|].
      rewrite Hlen in Hrun. estep ltac:(exact Hrun). by eexists.
    + destruct (cut_buffer Data s1 (take n l) a) as (a' & Hw & Hh); try done; [lia| |by eexists|].
      * rewrite Hlen. unfold place_of. by rewrite (proj2 (Nat.ltb_ge _ _)).
      * rewrite Hlen in Hw. estep ltac:(exact Hw). eexists. by split_and!.
Qed.

(** ** Tokens *)

(** The pieces of a text between the separators, and those that are not empty. *)
Fixpoint fields (token : Z) (l : list Z) : list (list Z) :=
  match l with
  | [] => [[]]
  | c :: l' =>
      if (c =? token)%Z then [] :: fields token l'
      else match fields token l' with
           | f :: fs => (c :: f) :: fs
           | [] => [[c]]
           end
  end.

Definition tokens (token : Z) (l : list Z) : list (list Z) := filter (fun f => f <> []) (fields token l).

Lemma fields_last token l : token ∉ l -> fields token l = [l].
Proof.
  induction l as [|c l IH]; simpl; [done|]. rewrite not_elem_of_cons. intros [Hc Hl].
  rewrite (proj2 (Z.eqb_neq _ _)) by done. by rewrite IH.
Qed.

Lemma fields_cut token pre l : token ∉ pre -> fields token (pre ++ token :: l) = pre :: fields token l.
Proof.
  induction pre as [|c pre IH]; simpl; [by rewrite Z.eqb_refl|]. rewrite not_elem_of_cons. intros [Hc Hl].
  rewrite (proj2 (Z.eqb_neq _ _)) by done. by rewrite IH.
Qed.

Lemma tokenise_loop_holds token fuel cp pre rest out outl :
  Holds cp (pre ++ rest) -> token ∉ pre -> length rest < fuel -> Forall2 Holds out outl ->
  exists ss, tokenise_loop garbage fuel token cp out (length pre) = Some ss /\
             Forall2 Holds ss (outl ++ tokens token (pre ++ rest)).
Proof.
  revert cp pre rest out outl. induction fuel as [|fuel IH]; intros cp pre rest out outl Hcp Hpre Hfuel Hout; [lia|].
  simpl. rewrite (holds_length _ _ Hcp). destruct rest as [|c rest].
  - rewrite app_nil_r in *. rewrite Nat.ltb_irrefl. unfold tokens. rewrite fields_last, filter_cons by done.
    destruct pre as [|c pre]; simpl.
    + eexists. by rewrite app_nil_r.
    + destruct (copy_holds _ _ Hcp) as (p & -> & Hp). simpl. eexists. split; [done|].
      apply Forall2_app; [done|]. by constructor.
  - rewrite (proj2 (Nat.ltb_lt _ _)) by (rewrite length_app; simpl; lia).
    rewrite (c_str_holds _ _ Hcp). simpl. rewrite nth_middle. simpl in Hfuel.
    destruct (Z.eqb_spec c token) as [->|Hc].
    + destruct (split_holds cp (pre ++ token :: rest) (length pre + 1))
        as (t & cp1 & -> & Ht & Hcp1 & Hsz); [rewrite length_app; simpl; lia | done |].
      replace (pre ++ token :: rest) with ((pre ++ [token]) ++ rest) in Ht, Hcp1, Hsz by by rewrite <- app_assoc.
      replace (length pre + 1) with (length (pre ++ [token])) in Ht, Hcp1 by by rewrite length_app.
      rewrite drop_app_length in Ht. rewrite take_app_length in Hcp1.
      cbn [mbind option_bind]. destruct (copy_holds _ _ Hcp1) as (p & -> & Hp). cbn [mbind option_bind].
      destruct (assign_holds t rest cp1) as (cp2 & -> & Hcp2); [apply Hcp1| |done|].
      { intros Hge Hnone. rewrite Hsz; [done| |done]. rewrite length_app. lia. }
      cbn [mbind option_bind]. destruct (chomp_holds p pre token Hp) as (p' & -> & Hp'). cbn [mbind option_bind].
      unfold tokens. rewrite fields_cut, filter_cons by done. rewrite (holds_length _ _ Hp').
      destruct pre as [|c pre]; simpl.
      * apply (IH cp2 [] rest); [done | apply not_elem_of_nil | lia | done].
      * destruct (IH cp2 [] rest (out ++ [p']) (outl ++ [c :: pre])) as (ss & Hrun & Hss);
          [done | apply not_elem_of_nil | lia | apply Forall2_app; [done | by constructor]|].
        exists ss. split; [done|]. by rewrite <- app_assoc in Hss.
    + unfold nextCharacter. destruct (IH cp (pre ++ [c]) rest out outl) as (ss & Hrun & Hss); [..|lia|done|].
      * by rewrite <- app_assoc.
      * rewrite not_elem_of_app, list_elem_of_singleton. by split; [|intros ->].
      * rewrite length_app in Hrun. exists ss. by rewrite <- app_assoc in Hss.
Qed.

Lemma tokenise_holds token s l fuel : Holds s l -> length l < fuel ->
  exists ss, tokenise garbage fuel token s = Some ss /\ Forall2 Holds ss (tokens token l).
Proof.
  intros Hs Hf. unfold tokenise. destruct (copy_holds s l Hs) as (cp & -> & Hcp). simpl.
  apply (tokenise_loop_holds token fuel cp [] l [] []); [done | apply not_elem_of_nil | done | done].
Qed.

(** ** Comparison *)

Lemma equals_holds x y l m : Holds x l -> Holds y m -> equals x y = Some (bool_decide (l = m)).
Proof.
  intros [Hl Hnl _ (a & Ha & Hal)] [Hm Hnm _ (b & Hb & Hbm)]. unfold equals. rewrite Hnl, Hnm.
  destruct (Nat.eqb_spec (length l) (length m)) as [He|He]; cbn [negb].
  - rewrite <- He in Hb. unfold place_of in *. destruct (length l <? StaticSize); simpl in Ha, Hb.
    + injection Ha as ->. injection Hb as ->. by rewrite (string_at_has a l), (string_at_has b m).
    + rewrite Ha, Hb. by rewrite (string_at_has a l), (string_at_has b m).
  - rewrite bool_decide_eq_false_2; [done|]. by intros ->.
Qed.

Lemma chars_holds x l : Holds x l -> exists a, chars x = Some a /\ has a l.
Proof.
  intros [_ Hn _ (a & Hb & Ha)]. exists a. split; [|done]. unfold chars, place_of in *. rewrite Hn.
  by destruct (length l <? StaticSize).
Qed.

Lemma equals_cstr_holds x l m : Holds x l -> text m -> equals_cstr x (Some m) = Some (bool_decide (l = m)).
Proof.
  intros Hx Hm. destruct (chars_holds x l Hx) as (a & Hc & Ha). unfold equals_cstr. fold (chars x).
  rewrite Hc, (string_at_has a l); [done | apply Hx | done].
Qed.

(** A part of a text, in the array that holds it. *)
Lemma get_part a l i n : has a l -> i + n <= length l -> get a i n = Some (take n (drop i l)).
Proof.
  intros [r ->] Hn. unfold get. rewrite length_app, (proj2 (Nat.leb_le _ _)) by (simpl; lia).
  rewrite drop_app_le by lia. rewrite take_app_le; [done|]. rewrite length_drop. lia.
Qed.

Lemma same_bytes_has a l b m i : has a l -> has b m -> i + length m <= length l ->
  same_bytes a i b (length m) = Some (bool_decide (take (length m) (drop i l) = m)).
Proof.
  intros Ha Hb Hn. unfold same_bytes. rewrite (get_part a l), (get_part b m) by (done || lia). simpl.
  by rewrite drop_0, firstn_all.
Qed.

Lemma startswith_holds x y l m : Holds x l -> Holds y m ->
  startswith x y = Some (bool_decide (length m < length l /\ take (length m) l = m)).
Proof.
  intros Hx Hy. destruct (chars_holds x l Hx) as (a & Hca & Ha), (chars_holds y m Hy) as (b & Hcb & Hb).
  unfold startswith. rewrite (holds_length _ _ Hx), (holds_length _ _ Hy).
  destruct (Nat.eqb_spec (length l) (length m)); [f_equal; symmetry; apply bool_decide_eq_false; lia|].
  destruct (Nat.ltb_spec (length l) (length m)); [f_equal; symmetry; apply bool_decide_eq_false; lia|].
  rewrite Hca, Hcb. simpl. rewrite (same_bytes_has a l b m) by (done || lia). f_equal.
  apply bool_decide_ext. rewrite drop_0. split; [split; [lia | done] | by intros []].
Qed.

Lemma endswith_holds x y l m : Holds x l -> Holds y m ->
  endswith x y = Some (bool_decide (length m < length l /\ drop (length l - length m) l = m)).
Proof.
  intros Hx Hy. destruct (chars_holds x l Hx) as (a & Hca & Ha), (chars_holds y m Hy) as (b & Hcb & Hb).
  unfold endswith. rewrite (holds_length _ _ Hx), (holds_length _ _ Hy).
  destruct (Nat.eqb_spec (length l) (length m)); [f_equal; symmetry; apply bool_decide_eq_false; lia|].
  destruct (Nat.ltb_spec (length l) (length m)); [f_equal; symmetry; apply bool_decide_eq_false; lia|].
  rewrite Hca, Hcb. simpl. rewrite (same_bytes_has a l b m) by (done || lia). f_equal.
  apply bool_decide_ext. rewrite take_ge by (rewrite length_drop; lia).
  split; [split; [lia | done] | by intros []].
Qed.

(** Of different lengths, the texts compared are a text and a proper part of it. *)
Lemma proper_prefix (l m : list Z) : length l <> length m ->
  (length m < length l /\ take (length m) l = m) <-> m `prefix_of` l.
Proof.
  intros Hn. split.
  - intros [_ Hm]. exists (drop (length m) l). by rewrite <- Hm at 1; rewrite take_drop.
  - intros [r ->]. rewrite length_app, take_app_length in *. split; [lia | done].
Qed.

Lemma proper_suffix (l m : list Z) : length l <> length m ->
  (length m < length l /\ drop (length l - length m) l = m) <-> m `suffix_of` l.
Proof.
  intros Hn. split.
  - intros [_ Hm]. exists (take (length l - length m) l). by rewrite <- Hm at 2; rewrite take_drop.
  - intros [r ->]. rewrite length_app in *. split; [lia|].
    replace (length r + length m - length m) with (length r) by lia. apply drop_app_length.
Qed.

(** ** Formatted text *)

Lemma sprintf_holds s l : wf s -> room 255 s -> text l -> length l < 256 ->
  exists s', sprintf garbage l s = Some (tt, s') /\ Holds s' l.
Proof.
  intros Hwf Hroom Ht Hlen. unfold sprintf.
  destruct (reserve_run 255 s Hwf) as (d & Hres & Hd & _); [unfold StaticSize; lia | done|].
  estep ltac:(exact Hres).
  destruct (put_has d [] l d) as (d' & Hput & Hld & Hh); [done | lia|].
  estep ltac:(by eapply (write_run Data)). estep ltac:(done).
  apply (settle_holds Data _ l d'); try done.
  apply wf_put_length, (wf_with_buffer Data d); [apply wf_array, Hwf | done..].
Qed.
End Text.

(** ** Blanks of ASCII texts *)

(** A text in ASCII, its blanks, and the text without those at an end. *)
Definition ascii (l : list Z) : Prop := Forall (fun c => 0 < c < 128)%Z l.

Definition blank (c : Z) : Prop := (c <= 32 \/ c = 127)%Z.

#[export] Instance blank_dec c : Decision (blank c).
Proof. unfold blank. apply _. Defined.

Fixpoint trim_front (l : list Z) : list Z :=
  match l with [] => [] | c :: l' => if decide (blank c) then trim_front l' else l end.

Definition trim_back (l : list Z) : list Z := rev (trim_front (rev l)).

Lemma iswhitespace_ascii c : (0 < c < 128)%Z -> iswhitespace c = bool_decide (blank c).
Proof.
  intros Hc. unfold iswhitespace, signed.
  rewrite (proj2 (Z.ltb_lt _ _)) by (simpl; lia).
  symmetry. destruct (Z.leb_spec c 32), (Z.eqb_spec c 127); simpl;
    first [apply bool_decide_eq_true; unfold blank; lia | apply bool_decide_eq_false; unfold blank; lia].
Qed.

Lemma ltrim_ascii l : ascii l -> ltrim l = trim_front l.
Proof.
  induction 1 as [|c l Hc Hl IH]; simpl; [done|]. rewrite iswhitespace_ascii, IH by done.
  destruct (decide (blank c)); [by rewrite bool_decide_true | by rewrite bool_decide_false].
Qed.

Lemma rtrim_ascii l : ascii l -> rtrim l = trim_back l.
Proof. intros Hl. unfold rtrim, trim_back. rewrite ltrim_ascii; [done|]. by apply Forall_rev. Qed.

Lemma ascii_ltrim l : ascii l -> ascii (trim_front l).
Proof.
  intros Hl. rewrite <- ltrim_ascii by done. destruct (ltrim_suffix l) as [w Hw].
  unfold ascii in *. rewrite Hw in Hl. by apply Forall_app in Hl as [_ Hl].
Qed.

(** ** The claims *)

(** C32. Constructing, copying, assigning, appending and formatting.  Each runs without
    a fault, stays in its arrays and leaves the string holding the text it should - of a
    C string, of another string, of the old text and the new - in the object or on the
    heap as its length says, and [operator const char * ] gives that text back.  The
    conditions: the characters are not 0; an assignment, an append and a format find
    [room], that is, when the new text needs the heap (64 characters or more; a format
    always does) and the string has no array there, [m_Size] is not more than the length
    of the new text (255 for a format); a string that is appended does not have exactly 64
    characters; and the formatted text has fewer than 256. *)
Theorem string_text_correct (garbage : nat -> Z) s l x lx c :
  Holds s l -> Holds x lx -> text c ->
  c_str s = Some l /\
  (exists y, make garbage (Some c) = Some y /\ Holds y c) /\
  (exists y, copy garbage x = Some y /\ Holds y lx) /\
  (room (length lx) s -> exists s', assign garbage x s = Some (tt, s') /\ Holds s' lx) /\
  (room (length c) s -> exists s', assign_cstr garbage (Some c) s = Some (tt, s') /\ Holds s' c) /\
  (room (length l + length lx) s -> length lx <> StaticSize ->
   exists s', append garbage x s = Some (tt, s') /\ Holds s' (l ++ lx)) /\
  (room (length l + length c) s ->
   exists s', append_cstr garbage c s = Some (tt, s') /\ Holds s' (l ++ c)) /\
  (room 255 s -> length c < 256 -> exists s', sprintf garbage c s = Some (tt, s') /\ Holds s' c).
Proof.
  intros Hs Hx Hc. pose proof (holds_wf _ _ Hs) as Hwf.
  split_and!; eauto using c_str_holds, make_holds, copy_holds, assign_holds, assign_cstr_holds,
    append_holds, append_cstr_holds, sprintf_holds.
Qed.

(** C33. Shortening and comparing.  [lstrip] takes the blanks at the front, [rstrip],
    of a text that is not empty, those at the end, and [strip], of a text that is not
    all blank, both: of texts in ASCII, whose blanks are the codes up to 32 and 127.
    [chomp] takes the last character of a text that has one, and [split] cuts a text in
    two at an offset up to its length.  The text that is left is where its length says,
    in the object or on the heap, so that every later operation finds it.  [==] decides
    the equality of two texts, and of a text and a C string; [startswith] and [endswith]
    decide, of two texts of different lengths, whether the second is a prefix or a
    suffix of the first. *)
Theorem string_edit_correct (garbage : nat -> Z) s l y m :
  Holds s l -> Holds y m ->
  (ascii l -> exists s', lstrip s = Some (tt, s') /\ Holds s' (trim_front l)) /\
  (ascii l -> l <> [] -> exists s', rstrip s = Some (tt, s') /\ Holds s' (trim_back l)) /\
  (ascii l -> trim_front l <> [] -> exists s', strip s = Some (tt, s') /\ Holds s' (trim_back (trim_front l))) /\
  (forall l1 c, l = l1 ++ [c] -> exists s', chomp s = Some (tt, s') /\ Holds s' l1) /\
  (forall n, n <= length l ->
   exists t s', split garbage n s = Some (t, s') /\ Holds t (drop n l) /\ Holds s' (take n l)) /\
  equals s y = Some (bool_decide (l = m)) /\
  equals_cstr s (Some m) = Some (bool_decide (l = m)) /\
  (length l <> length m ->
   startswith s y = Some (bool_decide (m `prefix_of` l)) /\
   endswith s y = Some (bool_decide (m `suffix_of` l))).
Proof.
  intros Hs Hy. split_and!; eauto using equals_holds.
  - intros Ha. rewrite <- ltrim_ascii by done. by apply lstrip_holds.
  - intros Ha Hl. rewrite <- rtrim_ascii by done. by apply rstrip_holds.
  - intros Ha Hl. rewrite <- (rtrim_ascii (trim_front l)) by by apply ascii_ltrim.
    rewrite <- ltrim_ascii in * by done. by apply strip_holds.
  - intros l1 c ->. by apply (chomp_holds s l1 c).
  - intros n Hn. destruct (split_holds garbage s l n Hn Hs) as (t & s' & ? & ? & ? & _). by exists t, s'.
  - apply equals_cstr_holds; [done | apply Hy].
  - intros Hn. rewrite (startswith_holds s y l m), (endswith_holds s y l m) by done.
    split; f_equal; apply bool_decide_ext; [by apply proper_prefix | by apply proper_suffix].
Qed.

(** C34. [tokenise] ends, after at most one step per character, and returns the
    non-empty pieces of the text between the separators, in order, each in a
    well-formed string; the string itself is only read. *)
Theorem tokenise_correct (garbage : nat -> Z) token s l fuel :
  Holds s l -> length l < fuel ->
  exists ss, tokenise garbage fuel token s = Some ss /\ Forall2 Holds ss (tokens token l).
Proof. apply tokenise_holds. Qed.

(** ** Concrete strings *)

Definition short_text : list Z := [32; 97; 44; 44; 98; 32]%Z.

Definition short_string : String := mkString None 6 0 (short_text ++ replicate 58 0%Z).

Definition long_text : list Z := replicate 70 97%Z.

Definition long_string : String := mkString (Some (long_text ++ [0; 0]%Z)) 70 72 (replicate 64 0%Z).

Lemma text_forallb l : forallb (fun c => (0 <? c) && (c <? 256))%Z l = true -> text l.
Proof.
  intros H. apply Forall_forall. intros c Hc. rewrite forallb_forall in H.
  specialize (H c Hc). lia.
Qed.

Lemma short_holds : Holds short_string short_text.
Proof.
  apply holds_short; [by apply text_forallb | unfold StaticSize; simpl; lia | done | by split | by eexists].
Qed.

Lemma long_holds : Holds long_string long_text.
Proof.
  apply (holds_long _ _ (long_text ++ [0; 0]%Z));
    [by apply text_forallb | unfold StaticSize; simpl; lia | done | | done | by eexists].
  split; [done|]. by intros d [= <-].
Qed.

Lemma string_text_correct_witness :
  Holds short_string short_text /\ Holds long_string long_text /\
  exists s', append (fun _ => 7%Z) long_string short_string = Some (tt, s') /\
             Holds s' (short_text ++ long_text).
Proof.
  split; [exact short_holds|]. split; [exact long_holds|].
  destruct (string_text_correct (fun _ => 7%Z) short_string short_text long_string long_text []
              short_holds long_holds (Forall_nil_2 _)) as (_ & _ & _ & _ & _ & H & _).
  apply H; [|done]. intros _ _. simpl. lia.
Defined.

Lemma string_edit_correct_witness :
  Holds short_string short_text /\ ascii short_text /\ trim_front short_text = [97; 44; 44; 98; 32]%Z /\
  exists s', strip short_string = Some (tt, s') /\ Holds s' [97; 44; 44; 98]%Z.
Proof.
  assert (Ha : ascii short_text) by (repeat constructor).
  split; [exact short_holds|]. split; [exact Ha|]. split; [vm_compute; reflexivity|].
  destruct (string_edit_correct (fun _ => 7%Z) short_string short_text long_string long_text
              short_holds long_holds) as (_ & _ & H & _).
  destruct (H Ha) as (s' & Hs & Hh); [vm_compute; discriminate|].
  exists s'. split; [exact Hs|]. exact Hh.
Defined.

Lemma tokenise_correct_witness :
  Holds short_string short_text /\ length short_text < 7 /\
  exists ss, tokenise (fun _ => 7%Z) 7 44 short_string = Some ss /\
             Forall2 Holds ss [[32; 97]; [98; 32]]%Z.
Proof.
  split; [exact short_holds|]. split; [simpl; lia|].
  apply (tokenise_correct (fun _ => 7%Z) 44 short_string short_text 7 short_holds). simpl. lia.
Defined.

(** ** Where the code does not do what it means to *)

Section Findings.
Local Open Scope err_scope.
Let g : nat -> Z := fun _ => 0%Z.

(** [assign] of a short text frees [m_Data] and leaves [m_Size]: [reserve] then
    sees room for the next long text, and null is written to. *)
Example reassign_faults :
  (assign_cstr g (Some long_text) ;; assign_cstr g (Some [97%Z]) ;; assign_cstr g (Some long_text)) new_string
    = None.
Proof. vm_compute. reflexivity. Qed.

(** [operator +=] takes a string of exactly 64 characters from [m_Static]. *)
Example append_64_faults :
  match make g (Some (replicate 64 97%Z)) with Some x => append g x new_string | None => Some (tt, new_string) end
    = None.
Proof. vm_compute. reflexivity. Qed.

(** [assign] accepts null as an empty string and copies its terminator. *)
Example assign_null_faults : assign_cstr g None new_string = None.
Proof. reflexivity. Qed.

(** [rstrip], [strip] of white space, and [chomp] look before the array. *)
Example rstrip_empty_faults : rstrip new_string = None.
Proof. reflexivity. Qed.

Example strip_blank_faults : (assign_cstr g (Some [32%Z]) ;; strip) new_string = None.
Proof. vm_compute. reflexivity. Qed.

Example chomp_empty_faults : chomp new_string = None.
Proof. reflexivity. Qed.

(** Every character of 128 or more, that is every UTF-8 sequence, is white space. *)
Example high_characters_blank : forallb iswhitespace (map Z.of_nat (seq 128 128)) = true.
Proof. vm_compute. reflexivity. Qed.

(** A string does not start or end with an equal string. *)
Example not_its_own_prefix :
  startswith short_string short_string = Some false /\ endswith short_string short_string = Some false.
Proof. split; reflexivity. Qed.

(** [free] sets the length to 0 and leaves the characters, which are still the C
    string of the object. *)
Example free_keeps_text :
  match free short_string with Some (_, s) => (m_Length s, c_str s) | None => (0, None) end
    = (0, Some short_text).
Proof. vm_compute. reflexivity. Qed.

(** The UTF-8 form of U+00E9 has two bytes. *)
Example utf8_cut : Utf32ToUtf8 233 = ([105%Z], 1).
Proof. reflexivity. Qed.

End Findings.
