(* ===== verification/RadixTree.v ===== *)
(** * RadixTree<void*>: the kernel's dictionary with string keys

    [src/system/kernel/utilities/RadixTree.cc] and its header: a trie whose
    nodes carry pieces of keys, with parent pointers.  A key is the list of the
    bytes of a C string before its terminator; a value is a pointer, 0 being
    null.  The children of a node are a [Vector] of pointers, here the list of
    its elements ([Vector.vector_refines_list]); [size_t] has [w] bits.
    [FATAL] and a loop that leaves a string are faults. *)
From Stdlib Require Import ZArith Lia List Bool.
From stdpp Require Import base gmap list fin_maps.
From S2P Require Import Prelude Heap.
Import ListNotations.
Local Open Scope Z_scope.
Local Open Scope err_scope.

Record Node := mkNode {
  m_pKey : option (list Z);
  value : Z;
  m_Children : list loc;
  m_pParent : ptr;
  m_bCaseSensitive : bool
}.

Record RadixTree := mkTree {
  nodes : gmap loc Node;
  m_nItems : Z;
  m_pRoot : ptr;
  caseSensitive : bool
}.

Definition put_nodes (h : gmap loc Node) (t : RadixTree) : RadixTree :=
  mkTree h (m_nItems t) (m_pRoot t) (caseSensitive t).

#[export] Instance radix_heap : HasHeap RadixTree Node :=
  {| heap_of := nodes; with_heap := put_nodes;
     heap_with _ _ := eq_refl; with_heap_twice _ _ _ := eq_refl |}.

Definition put_items (n : Z) (t : RadixTree) : RadixTree :=
  mkTree (nodes t) n (m_pRoot t) (caseSensitive t).
Definition put_root (p : ptr) (t : RadixTree) : RadixTree :=
  mkTree (nodes t) (m_nItems t) p (caseSensitive t).
Definition put_case (b : bool) (t : RadixTree) : RadixTree :=
  mkTree (nodes t) (m_nItems t) (m_pRoot t) b.

Definition Op (A : Type) : Type := StateE RadixTree A.

(** ** Nodes *)

Definition with_key (k : list Z) (n : Node) : Node :=
  mkNode (Some k) (value n) (m_Children n) (m_pParent n) (m_bCaseSensitive n).
Definition with_value (v : Z) (n : Node) : Node :=
  mkNode (m_pKey n) v (m_Children n) (m_pParent n) (m_bCaseSensitive n).
Definition with_children (f : list loc -> list loc) (n : Node) : Node :=
  mkNode (m_pKey n) (value n) (f (m_Children n)) (m_pParent n) (m_bCaseSensitive n).
Definition with_parent (p : ptr) (n : Node) : Node :=
  mkNode (m_pKey n) (value n) (m_Children n) p (m_bCaseSensitive n).

(** [new Node(b)]. *)
Definition empty_node (b : bool) : Node := mkNode None 0 [] None b.

Definition toLower (c : Z) : Z := if (c <? 65) || (90 <? c) then c else c + 32.

Definition same_char (cs : bool) (x y : Z) : bool :=
  if cs then x =? y else toLower x =? toLower y.

Inductive MatchType := ExactMatch | NoMatch | PartialMatch | OverMatch.

(** The loop of [matchKey], with [first] for [i == 0]. *)
Fixpoint match_loop (cs first : bool) (cpKey key : list Z) : MatchType :=
  match cpKey, key with
  | x :: cpKey', y :: key' =>
      if same_char cs x y then match_loop cs false cpKey' key'
      else if first then NoMatch else PartialMatch
  | [], [] => ExactMatch
  | [], _ :: _ => PartialMatch
  | _ :: _, [] => OverMatch
  end.

Definition matchKey (pNode : ptr) (cpKey : list Z) : Op MatchType :=
  k <- field m_pKey pNode ;; cs <- field m_bCaseSensitive pNode ;;
  match k with
  | None => eret OverMatch
  | Some key => eret (match_loop cs true cpKey key)
  end.

Fixpoint find_in (cs : list loc) (cpKey : list Z) : Op ptr :=
  match cs with
  | [] => eret None
  | c :: cs' =>
      m <- matchKey (Some c) cpKey ;;
      match m with NoMatch => find_in cs' cpKey | _ => eret (Some c) end
  end.

Definition findChild (pNode : ptr) (cpKey : list Z) : Op ptr :=
  cs <- field m_Children pNode ;; find_in cs cpKey.

Definition addChild (pNode pChild : ptr) : Op unit :=
  match pChild with
  | Some c => modify (with_children (fun cs => (cs ++ [c])%list)) pNode
  | None => eret tt
  end.

Definition replace_in (old new : loc) (cs : list loc) : list loc :=
  map (fun c => if bool_decide (c = old) then new else c) cs.

Definition replaceChild (pNode : ptr) (old new : loc) : Op unit :=
  modify (with_children (replace_in old new)) pNode.

Fixpoint remove_in (old : loc) (cs : list loc) : list loc :=
  match cs with
  | [] => []
  | c :: cs' => if bool_decide (c = old) then remove_in old cs' else c :: remove_in old cs'
  end.

Definition removeChild (pNode : ptr) (old : loc) : Op unit :=
  modify (with_children (remove_in old)) pNode.

Definition getFirstChild (pNode : ptr) : Op ptr :=
  cs <- field m_Children pNode ;; eret (head cs).

(** A string that must be there: [m_pKey[i]] faults when [m_pKey] is null. *)
Definition keyOf (pNode : ptr) : Op (list Z) :=
  k <- field m_pKey pNode ;; elift k.

Definition prependKey (pNode : ptr) (cpKey : list Z) : Op unit :=
  k <- keyOf pNode ;; modify (with_key (cpKey ++ k)%list) pNode.

(** [while (a[i] == b[i]) i++] (without regard to case when [cs] is false):
    the number of equal characters; [None] when both strings end there. *)
Fixpoint common (cs : bool) (a b : list Z) : option nat :=
  match a, b with
  | x :: a', y :: b' => if same_char cs x y then option_map S (common cs a' b') else Some O
  | x :: _, [] => if same_char cs x 0 then None else Some O
  | [], y :: _ => if same_char cs 0 y then None else Some O
  | [], [] => None
  end.

Section RadixTree.
Context (w : Z).

Definition count : Op Z := egets m_nItems.

Definition add_items (d : Z) : Op unit :=
  n <- egets m_nItems ;; emodify (put_items (wrap w (n + d))).

(** A new node with a key, a value and a parent. *)
Definition make_node (key : list Z) (v : Z) (parent : ptr) : Op ptr :=
  cs <- egets caseSensitive ;; p <- new_node (empty_node cs) ;;
  modify (with_key key) p ;; modify (with_value v) p ;; modify (with_parent parent) p ;; eret p.

(** [if (!m_pRoot) ...]: the root is a node with an empty key. *)
Definition ensure_root : Op unit :=
  r <- egets m_pRoot ;;
  ewhen (negb (nonnull r))
    (cs <- egets caseSensitive ;; p <- new_node (empty_node cs) ;; emodify (put_root p) ;;
     modify (with_key []) p).

(** ** Insertion *)

(** The case [PartialMatch]: an intermediate node with the common prefix. *)
Definition split_node (pNode : ptr) (cpKey : list Z) (v : Z) : Op unit :=
  cs <- egets caseSensitive ;;
  k <- keyOf pNode ;;
  i <- elift (common cs cpKey k) ;;
  pInter <- new_node (empty_node cs) ;;
  modify (with_key (take i cpKey)) pInter ;;
  parent <- field m_pParent pNode ;;
  n <- elift pNode ;; inter <- elift pInter ;;
  replaceChild parent n inter ;;
  modify (with_key (drop i k)) pNode ;;
  (if negb (nth i cpKey 0 =? 0) then
     pChild <- make_node (drop i cpKey) v pInter ;; addChild pInter pChild
   else modify (with_value v) pInter) ;;
  parent' <- field m_pParent pNode ;; modify (with_parent parent') pInter ;;
  addChild pInter pNode ;; modify (with_parent pInter) pNode ;;
  add_items 1.

(** [while (pNode->m_pKey[i++]) cpKey++], guarded by [if (pNode->m_pKey)]. *)
Definition skip_key (pNode : ptr) (cpKey : list Z) : Op (list Z) :=
  k <- field m_pKey pNode ;;
  match k with Some k => eret (drop (length k) cpKey) | None => eret cpKey end.

Fixpoint insert_loop (fuel : nat) (pNode : ptr) (cpKey : list Z) (v : Z) : Op unit :=
  match fuel with
  | O => efail
  | S fuel' =>
      m <- matchKey pNode cpKey ;;
      match m with
      | ExactMatch => modify (with_value v) pNode
      | NoMatch => efail
      | PartialMatch => split_node pNode cpKey v
      | OverMatch =>
          cpKey' <- skip_key pNode cpKey ;;
          pChild <- findChild pNode cpKey' ;;
          if nonnull pChild then insert_loop fuel' pChild cpKey' v
          else
            c <- make_node cpKey' v pNode ;; addChild pNode c ;; add_items 1
      end
  end.

Definition insert (fuel : nat) (key : list Z) (v : Z) : Op unit :=
  ensure_root ;; r <- egets m_pRoot ;; insert_loop fuel r key v.

(** ** Lookup *)

Fixpoint lookup_loop (fuel : nat) (pNode : ptr) (cpKey : list Z) : Op Z :=
  match fuel with
  | O => efail
  | S fuel' =>
      m <- matchKey pNode cpKey ;;
      match m with
      | ExactMatch => field value pNode
      | NoMatch | PartialMatch => eret 0
      | OverMatch =>
          k <- keyOf pNode ;;
          pChild <- findChild pNode (drop (length k) cpKey) ;;
          if nonnull pChild then lookup_loop fuel' pChild (drop (length k) cpKey) else eret 0
      end
  end.

Definition lookup (fuel : nat) (key : list Z) : Op Z :=
  r <- egets m_pRoot ;; if nonnull r then lookup_loop fuel r key else eret 0.

(** ** Deletion *)

(** [delete pNode]: the destructor deletes the children first. *)
Fixpoint delete_tree (fuel : nat) (p : ptr) : Op unit :=
  match fuel with
  | O => efail
  | S fuel' =>
      if nonnull p then
        cs <- field m_Children p ;;
        fold_right (fun c k => delete_tree fuel' (Some c) ;; k) (eret tt) cs ;;
        delete_node p
      else eret tt
  end.

(** A node without children. *)
Definition delete_leaf (p : ptr) : Op unit := delete_tree 1 p.

(** [pParent = pNode->getParent(); pParent->removeChild(pNode); delete pNode],
    for a node without children. *)
Definition drop_leaf (pNode : ptr) : Op ptr :=
  pParent <- field m_pParent pNode ;; n <- elift pNode ;;
  removeChild pParent n ;; delete_leaf pNode ;; eret pParent.

(** The loop that optimises up the tree; null when [remove] returns, else the
    node at which it goes on. *)
Fixpoint optimise (fuel : nat) (pNode : ptr) : Op ptr :=
  match fuel with
  | O => efail
  | S fuel' =>
      r <- egets m_pRoot ;;
      if same_ptr pNode r then eret None
      else
        cs <- field m_Children pNode ;; v <- field value pNode ;;
        if (length cs =? 1)%nat && (v =? 0) then eret pNode
        else if (length cs =? 0)%nat && (v =? 0) then
          pParent <- drop_leaf pNode ;; optimise fuel' pParent
        else eret None
  end.

(** [if (pNode->m_Children.count() == 1)]: the child takes the place of its
    parent. *)
Definition merge (pNode : ptr) : Op unit :=
  cs <- field m_Children pNode ;;
  ewhen (length cs =? 1)%nat
    (pChild <- getFirstChild pNode ;;
     pParent <- field m_pParent pNode ;;
     n <- elift pNode ;; c <- elift pChild ;;
     removeChild pNode c ;;
     k <- keyOf pNode ;; prependKey pChild k ;;
     modify (with_parent pParent) pChild ;;
     removeChild pParent n ;; addChild pParent pChild ;;
     delete_leaf pNode).

(** The case [ExactMatch] of [remove]. *)
Definition remove_node (fuel : nat) (pNode : ptr) : Op unit :=
  modify (with_value 0) pNode ;; add_items (-1) ;;
  cs <- field m_Children pNode ;;
  if (length cs =? 0)%nat then
    pParent <- drop_leaf pNode ;;
    p <- optimise fuel pParent ;;
    if nonnull p then merge p else eret tt
  else merge pNode.

Fixpoint remove_loop (fuel : nat) (pNode : ptr) (cpKey : list Z) : Op unit :=
  match fuel with
  | O => efail
  | S fuel' =>
      m <- matchKey pNode cpKey ;;
      match m with
      | ExactMatch => remove_node fuel pNode
      | NoMatch | PartialMatch => eret tt
      | OverMatch =>
          cpKey' <- skip_key pNode cpKey ;;
          pChild <- findChild pNode cpKey' ;;
          if nonnull pChild then remove_loop fuel' pChild cpKey' else eret tt
      end
  end.

Definition remove (fuel : nat) (key : list Z) : Op unit :=
  ensure_root ;; r <- egets m_pRoot ;;
  match key with
  | [] => modify (with_value 0) r
  | _ => remove_loop fuel r key
  end.

Definition clear (fuel : nat) : Op unit :=
  r <- egets m_pRoot ;; delete_tree fuel r ;;
  cs <- egets caseSensitive ;; p <- new_node (empty_node cs) ;; emodify (put_root p) ;;
  modify (with_key []) p ;; emodify (put_items 0).

(** ** Copying

    [cloneNode] of the node [pNode] of the tree [x]. *)
Definition on {A} (x : RadixTree) (m : Op A) : Op A :=
  fun s => match m x with Some (a, _) => Some (a, s) | None => None end.

Fixpoint cloneNode (fuel : nat) (x : RadixTree) (pNode pParent : ptr) : Op ptr :=
  match fuel with
  | O => efail
  | S fuel' =>
      if nonnull pNode then
        k <- on x (keyOf pNode) ;; v <- on x (field value pNode) ;;
        n <- make_node k v pParent ;;
        cs <- on x (field m_Children pNode) ;;
        fold_right (fun c rest => m <- cloneNode fuel' x (Some c) pParent ;; addChild n m ;; rest)
          (eret tt) cs ;;
        eret n
      else eret None
  end.

(** [operator =]; the copy constructor is the same on a new tree with the case
    sensitivity of [x]. *)
Definition assign (fuel : nat) (x : RadixTree) : Op unit :=
  clear fuel ;; r <- egets m_pRoot ;; delete_tree fuel r ;;
  p <- cloneNode fuel x (m_pRoot x) None ;; emodify (put_root p) ;;
  emodify (put_items (m_nItems x)) ;; emodify (put_case (caseSensitive x)).

Definition new_tree (cs : bool) : RadixTree := mkTree ∅ 0 None cs.

Definition copy_tree (fuel : nat) (x : RadixTree) : option RadixTree :=
  match assign fuel x (new_tree (caseSensitive x)) with Some (_, t) => Some t | None => None end.

(** ** Iteration *)

Fixpoint sibling_after (self : loc) (cs : list loc) : ptr :=
  match cs with
  | [] => None
  | c :: cs' => if bool_decide (c = self) then head cs' else sibling_after self cs'
  end.

Definition getNextSibling (pNode : ptr) : Op ptr :=
  p <- field m_pParent pNode ;; n <- elift pNode ;;
  if nonnull p then cs <- field m_Children p ;; eret (sibling_after n cs) else eret None.

(** The climb of [doNext]: null when [tmp] has become a node without parent. *)
Fixpoint climb (fuel : nat) (tmp : ptr) : Op ptr :=
  match fuel with
  | O => efail
  | S fuel' =>
      p <- field m_pParent tmp ;;
      if nonnull p then
        s <- getNextSibling tmp ;;
        if nonnull s then eret s else climb fuel' p
      else eret None
  end.

Fixpoint next_loop (fuel : nat) (pNode : ptr) (first : bool) : Op ptr :=
  match fuel with
  | O => efail
  | S fuel' =>
      v <- (if nonnull pNode then field value pNode else eret 1) ;;
      if first || (v =? 0) then
        cs <- field m_Children pNode ;;
        if negb (length cs =? 0)%nat then
          c <- getFirstChild pNode ;; next_loop fuel' c false
        else
          p <- climb fuel' pNode ;;
          if nonnull p then next_loop fuel' p false else eret None
      else eret pNode
  end.

Definition doNext (fuel : nat) (this : ptr) : Op ptr := next_loop fuel this true.

Definition begin_ (fuel : nat) : Op ptr := r <- egets m_pRoot ;; doNext fuel r.

(** [erase(iter)] of the header. *)
Definition erase (fuel : nat) (iter : ptr) : Op ptr :=
  next <- doNext fuel iter ;; k <- keyOf iter ;; remove fuel k ;; eret next.

(** The values an iteration meets, from an iterator on. *)
Fixpoint iterate (fuel : nat) (it : ptr) : Op (list Z) :=
  match fuel with
  | O => efail
  | S fuel' =>
      if nonnull it then
        v <- field value it ;; n <- doNext fuel' it ;; vs <- iterate fuel' n ;; eret (v :: vs)
      else eret []
  end.

End RadixTree.
