(* ===== verification/RadixPath.v ===== *)
(** * The keys of the nodes of a radix tree

    The invariant of the heap of a [RadixTree], the key that leads to a node,
    and the walk down the tree that [insert], [lookup] and [remove] share. *)
From Stdlib Require Import ZArith Lia List Bool.
From stdpp Require Import base gmap list fin_maps.
From S2P Require Import Prelude Heap RadixTree.
Import ListNotations.
Local Open Scope Z_scope.
Local Open Scope err_scope.
#[local] Set Warnings "-clear-no-such-hyp".

(** A string of C characters, and the key it stands for: without regard to case
    all letters are small ones. *)
Definition cstr (k : list Z) : Prop := Forall (fun c => 0 < c < 256) k.

Definition norm (cs : bool) (k : list Z) : list Z := if cs then k else map toLower k.

Definition nkey (nd : Node) : list Z := norm (m_bCaseSensitive nd) (default [] (m_pKey nd)).

(** [path h r k a]: the node [a] is reached from the root [r] by the key [k]. *)
Inductive path (h : gmap loc Node) (r : loc) : list Z -> loc -> Prop :=
  | path_root : path h r [] r
  | path_child k p c ndp ndc :
      path h r k p -> h !! p = Some ndp -> c ∈ m_Children ndp -> h !! c = Some ndc ->
      path h r (k ++ nkey ndc) c.

Record Inv (cs : bool) (h : gmap loc Node) (r : loc) : Prop := {
  inv_root : exists nd, h !! r = Some nd /\ m_pKey nd = Some [] /\ m_pParent nd = None;
  inv_key : forall a nd, h !! a = Some nd ->
    m_bCaseSensitive nd = cs /\ exists k, m_pKey nd = Some k /\ cstr k;
  inv_child : forall p nd c, h !! p = Some nd -> c ∈ m_Children nd ->
    exists ndc, h !! c = Some ndc /\ m_pParent ndc = Some p /\ nkey ndc <> [];
  inv_first : forall p nd c d ndc ndd, h !! p = Some nd -> c ∈ m_Children nd -> d ∈ m_Children nd ->
    h !! c = Some ndc -> h !! d = Some ndd -> head (nkey ndc) = head (nkey ndd) -> c = d;
  inv_nodup : forall p nd, h !! p = Some nd -> NoDup (m_Children nd);
  inv_reach : forall a nd, h !! a = Some nd -> exists k, path h r k a
}.

(** ** Characters *)

Lemma toLower_nonzero c : 0 < c < 256 -> 0 < toLower c < 256.
Proof. unfold toLower. intros Hc. destruct (_ || _) eqn:E; [done|]. apply orb_false_iff in E as [E1 E2]. lia. Qed.

Lemma toLower_idem c : toLower (toLower c) = toLower c.
Proof.
  unfold toLower. destruct ((c <? 65) || (90 <? c)) eqn:E; [by rewrite E|].
  apply orb_false_iff in E as [E1 E2]. replace (90 <? c + 32) with true by (symmetry; lia).
  by rewrite orb_true_r.
Qed.

Lemma same_char_norm cs x y : same_char cs x y = bool_decide (norm cs [x] = norm cs [y]).
Proof.
  unfold same_char, norm. destruct cs; cbn; case_bool_decide as H; [by injection H as ->; lia | | |].
  - apply Z.eqb_neq. congruence.
  - injection H as ->. lia.
  - apply Z.eqb_neq. congruence.
Qed.

Lemma norm_cons cs x k : norm cs (x :: k) = (norm cs [x] ++ norm cs k)%list.
Proof. by destruct cs. Qed.

Lemma norm_app cs a b : norm cs (a ++ b) = (norm cs a ++ norm cs b)%list.
Proof. destruct cs; [done|]. apply map_app. Qed.

Lemma length_norm cs k : length (norm cs k) = length k.
Proof. destruct cs; [done|]. apply length_map. Qed.

Lemma norm_nil cs k : norm cs k = [] <-> k = [].
Proof. split; [|by intros ->; destruct cs]. intros H. apply (f_equal length) in H. rewrite length_norm in H. by destruct k. Qed.

Lemma norm_idem cs k : norm cs (norm cs k) = norm cs k.
Proof. destruct cs; [done|]. cbn. rewrite map_map. apply map_ext. apply toLower_idem. Qed.

Lemma norm_take cs n k : norm cs (take n k) = take n (norm cs k).
Proof. destruct cs; [done|]. symmetry. apply firstn_map. Qed.

Lemma norm_drop cs n k : norm cs (drop n k) = drop n (norm cs k).
Proof. destruct cs; [done|]. symmetry. apply skipn_map. Qed.

Lemma cstr_norm cs k : cstr k -> cstr (norm cs k).
Proof. destruct cs; [done|]. intros H. apply Forall_map. eapply Forall_impl; [exact H|]. apply toLower_nonzero. Qed.

(** ** The comparison of two keys *)

(** What [matchKey] finds, for normalised keys. *)
Inductive Match (a b : list Z) : MatchType -> Prop :=
  | M_exact : a = b -> Match a b ExactMatch
  | M_no : a <> [] -> b <> [] -> head a <> head b -> Match a b NoMatch
  | M_partial c a' b' : a = (c ++ a')%list -> b = (c ++ b')%list -> b' <> [] -> head a' <> head b' ->
      (c = [] -> a = []) -> Match a b PartialMatch
  | M_over x r : a = (b ++ x :: r)%list -> Match a b OverMatch.

Lemma match_loop_spec cs a : forall b first,
  match match_loop cs first a b with
  | NoMatch => first = true /\ Match (norm cs a) (norm cs b) NoMatch
  | PartialMatch => if first then Match (norm cs a) (norm cs b) PartialMatch
                    else exists c a' b', norm cs a = (c ++ a')%list /\ norm cs b = (c ++ b')%list /\
                                         b' <> [] /\ head a' <> head b'
  | m => Match (norm cs a) (norm cs b) m
  end.
Proof.
  induction a as [|x a IH]; intros [|y b] first; cbn [match_loop].
  - by constructor.
  - destruct first.
    + apply (M_partial _ _ [] (norm cs []) (norm cs (y :: b))); try done; by destruct cs.
    + exists [], (norm cs []), (norm cs (y :: b)). split_and!; try done; by destruct cs.
  - destruct cs; by econstructor.
  - rewrite same_char_norm. case_bool_decide as E.
    + specialize (IH b false). rewrite (norm_cons cs x), (norm_cons cs y), E.
      destruct (match_loop cs false a b).
      * inversion_clear IH as [H| | |]. constructor. by rewrite H.
      * by destruct IH.
      * destruct IH as (c & a' & b' & -> & -> & Hb & Hh). destruct first.
        -- apply (M_partial _ _ (norm cs [y] ++ c) a' b'); rewrite ?app_assoc; try done.
           intros H. exfalso. by destruct cs.
        -- exists (norm cs [y] ++ c)%list, a', b'. by rewrite !app_assoc.
      * inversion_clear IH as [| | |z r H]. rewrite H. apply (M_over _ _ z r). by rewrite app_assoc.
    + destruct first.
      * split; [done|]. constructor; try by destruct cs. destruct cs; cbn in *; congruence.
      * exists [], (norm cs (x :: a)), (norm cs (y :: b)). split_and!; try done; destruct cs; cbn in *; congruence.
Qed.

Lemma match_key_spec cs a b :
  Match (norm cs a) (norm cs b) (match_loop cs true a b).
Proof. generalize (match_loop_spec cs a b true). destruct (match_loop cs true a b); by try intros [_ ?]. Qed.

(** A key never compares in two ways. *)
Lemma Match_head a b m : Match a b m -> b <> [] -> m <> NoMatch -> a = [] \/ head a = head b.
Proof.
  intros [-> | | c a' b' -> -> _ _ Hc | x r ->] Hb Hm; [by right | done | | right; by destruct b].
  destruct c; [left; by apply Hc | by right].
Qed.

Lemma Match_partial a b : Match a b PartialMatch ->
  exists c a' b', a = (c ++ a')%list /\ b = (c ++ b')%list /\ b' <> [] /\ head a' <> head b' /\
                  (c = [] -> a = []).
Proof. inversion 1; eauto 10. Qed.

Lemma Match_no_head a b : Match a b NoMatch -> head a <> head b.
Proof. by inversion 1. Qed.

Section Paths.
Context (cs : bool) (h : gmap loc Node) (r : loc) (I : Inv cs h r).

Lemma nkey_norm a nd : h !! a = Some nd ->
  exists k, m_pKey nd = Some k /\ nkey nd = norm cs k /\ cstr k /\ m_bCaseSensitive nd = cs.
Proof.
  intros Ha. destruct (inv_key _ _ _ I a nd Ha) as [Hc (k & Hk & Hs)].
  exists k. unfold nkey. by rewrite Hc, Hk.
Qed.

Lemma path_in k a : path h r k a -> exists nd, h !! a = Some nd.
Proof. destruct 1 as [|]; [|by eexists]. destruct (inv_root _ _ _ I) as (nd & H & _). by exists nd. Qed.

Lemma root_nkey nd : h !! r = Some nd -> nkey nd = [].
Proof.
  intros Hr. destruct (inv_root _ _ _ I) as (nd' & H & Hk & _). simplify_eq.
  unfold nkey. rewrite Hk. by destruct (m_bCaseSensitive nd).
Qed.

Lemma root_not_child p nd : h !! p = Some nd -> r ∉ m_Children nd.
Proof.
  intros Hp Hc. destruct (inv_child _ _ _ I p nd r Hp Hc) as (ndc & H & Hpar & _).
  destruct (inv_root _ _ _ I) as (nd' & H' & _ & Hpar'). simplify_eq.
Qed.

(** The last piece of the key of a node is the one in the node. *)
Lemma path_split k a nd : path h r k a -> h !! a = Some nd -> exists pre, k = (pre ++ nkey nd)%list.
Proof.
  destruct 1 as [|k p c ndp ndc]; intros Ha.
  - exists []. by rewrite root_nkey.
  - simplify_eq. by exists k.
Qed.

(** Every node but the root is the child of its parent. *)
Lemma path_parent k a nd : path h r k a -> h !! a = Some nd -> a <> r ->
  exists p ndp k', m_pParent nd = Some p /\ h !! p = Some ndp /\ a ∈ m_Children ndp /\
                   path h r k' p /\ k = (k' ++ nkey nd)%list /\ nkey nd <> [].
Proof.
  destruct 1 as [|k p c ndp ndc Hp Hndp Hc Hndc]; intros Ha Hne; [done|]. simplify_eq.
  destruct (inv_child _ _ _ I p ndp c Hndp Hc) as (nd' & H & Hpar & Hk). simplify_eq.
  by exists p, ndp, k.
Qed.

Lemma path_inv k a : path h r k a ->
  k = [] /\ a = r \/
  exists k' p ndp nda, k = (k' ++ nkey nda)%list /\ path h r k' p /\ h !! p = Some ndp /\
                       a ∈ m_Children ndp /\ h !! a = Some nda /\ m_pParent nda = Some p.
Proof.
  destruct 1 as [|k p c ndp ndc Hp Hndp Hc Hndc]; [by left|]. right. exists k, p, ndp, ndc.
  destruct (inv_child _ _ _ I p ndp c Hndp Hc) as (n1 & E1 & P1 & _). by simplify_eq.
Qed.

Lemma path_root_key k : path h r k r -> k = [].
Proof.
  intros [[-> _]|(k' & p & ndp & nda & _ & _ & Hp & Hc & _)]%path_inv; [done|].
  by destruct (root_not_child p ndp Hp).
Qed.

(** The key of a node is unique. *)
Lemma path_unique k1 k2 a : path h r k1 a -> path h r k2 a -> k1 = k2.
Proof.
  intros H1. revert k2. induction H1 as [|k p c ndp ndc Hp IH Hndp Hc Hndc]; intros k2 H2.
  - symmetry. by apply path_root_key.
  - destruct (inv_child _ _ _ I p ndp c Hndp Hc) as (n1 & E1 & P1 & _).
    apply path_inv in H2 as [[-> ->]|(k' & p' & ndp' & nda & -> & Hp' & Hndp' & Hc' & Hndc' & Hpar)].
    + by destruct (root_not_child p ndp Hndp).
    + simplify_eq. f_equal. by apply IH.
Qed.

Lemma path_cstr k a : path h r k a -> cstr k.
Proof.
  induction 1 as [|k p c ndp ndc Hp IH Hndp Hc Hndc]; [constructor|].
  apply Forall_app. split; [done|]. destruct (nkey_norm c ndc Hndc) as (kc & _ & -> & Hs & _).
  by apply cstr_norm.
Qed.

(** The child whose key begins like [cpKey]. *)
Definition first_child (cpKey : list Z) (p : loc) (o : option loc) : Prop :=
  exists nd, h !! p = Some nd /\
    match o with
    | Some c => c ∈ m_Children nd /\ exists ndc, h !! c = Some ndc /\ head (norm cs cpKey) = head (nkey ndc)
    | None => forall c ndc, c ∈ m_Children nd -> h !! c = Some ndc -> head (norm cs cpKey) <> head (nkey ndc)
    end.

Lemma matchKey_run t a nd cpKey : nodes t = h -> h !! a = Some nd ->
  exists m, matchKey (Some a) cpKey t = Some (m, t) /\ Match (norm cs cpKey) (nkey nd) m.
Proof.
  intros Ht Ha. destruct (nkey_norm a nd Ha) as (k & Hk & Hn & _ & Hc).
  exists (match_loop cs true cpKey k). split; [|rewrite Hn; apply match_key_spec].
  assert (E : heap_of t !! a = Some nd) by (cbn; by rewrite Ht).
  unfold matchKey. rewrite (ebind_run _ _ _ _ _ (field_run m_pKey a t nd E)).
  rewrite (ebind_run _ _ _ _ _ (field_run m_bCaseSensitive a t nd E)). by rewrite Hk, Hc.
Qed.

Lemma findChild_run t p nd cpKey : nodes t = h -> h !! p = Some nd -> cpKey <> [] ->
  exists o, findChild (Some p) cpKey t = Some (o, t) /\ first_child cpKey p o.
Proof.
  intros Ht Hp Hne. unfold findChild.
  assert (E : heap_of t !! p = Some nd) by (cbn; by rewrite Ht).
  rewrite (ebind_run _ _ _ _ _ (field_run m_Children p t nd E)).
  assert (H : forall l, (forall c, c ∈ l -> c ∈ m_Children nd) ->
    exists o, find_in l cpKey t = Some (o, t) /\
      match o with
      | Some c => c ∈ m_Children nd /\ exists ndc, h !! c = Some ndc /\ head (norm cs cpKey) = head (nkey ndc)
      | None => forall c ndc, c ∈ l -> h !! c = Some ndc -> head (norm cs cpKey) <> head (nkey ndc)
      end).
  { induction l as [|c l IH]; intros Hl; cbn [find_in].
    - exists None. split; [done|]. intros c ndc Hc. by apply not_elem_of_nil in Hc.
    - destruct (inv_child _ _ _ I p nd c Hp (Hl c (list_elem_of_here _ _))) as (ndc & Hc & _ & Hk).
      destruct (matchKey_run t c ndc cpKey Ht Hc) as (m & Hm & HM).
      rewrite (ebind_run _ _ _ _ _ Hm).
      assert (Hyes : m <> NoMatch -> c ∈ m_Children nd /\
        exists ndc, h !! c = Some ndc /\ head (norm cs cpKey) = head (nkey ndc)).
      { intros Hno. split; [apply Hl; by left|]. exists ndc. split; [done|].
        destruct (Match_head _ _ _ HM Hk Hno) as [E'|E']; [by apply norm_nil in E'|done]. }
      destruct m; [exists (Some c); by split; [|apply Hyes] | | exists (Some c); by split; [|apply Hyes]..].
      destruct IH as (o & Ho & Hspec); [intros d Hd; apply Hl; by right|].
      exists o. split; [done|]. destruct o; [done|]. intros d ndd [->|Hd]%elem_of_cons Hndd; [|by apply (Hspec d)].
      simplify_eq. by apply Match_no_head. }
  destruct (H (m_Children nd)) as (o & Ho & Hspec); [done|]. exists o. split; [done|]. exists nd. by destruct o.
Qed.

(** ** The walk down the tree *)

Inductive outcome := Found | Split | Missing.

(** [Walk d a s n s' o]: from the node [a] with the rest [s] of the key, after
    [d] steps to a child, the walk ends at [n] with the rest [s']. *)
Inductive Walk : nat -> loc -> list Z -> loc -> list Z -> outcome -> Prop :=
  | W_found a s nd : h !! a = Some nd -> norm cs s = nkey nd -> Walk 0 a s a s Found
  | W_split a s nd : h !! a = Some nd -> Match (norm cs s) (nkey nd) PartialMatch -> Walk 0 a s a s Split
  | W_missing a s nd s' : h !! a = Some nd -> norm cs s = (nkey nd ++ norm cs s')%list -> s' <> [] ->
      s' = drop (length (nkey nd)) s -> first_child s' a None -> Walk 0 a s a s' Missing
  | W_step d a s nd s1 c n s' o : h !! a = Some nd -> norm cs s = (nkey nd ++ norm cs s1)%list -> s1 <> [] ->
      s1 = drop (length (nkey nd)) s -> first_child s1 a (Some c) ->
      Walk d c s1 n s' o -> Walk (S d) a s n s' o.

Lemma first_child_unique s a o o' : first_child s a o -> first_child s a o' -> o = o'.
Proof.
  intros (nd & H & Ho) (nd' & H' & Ho'). simplify_eq. destruct o as [c|], o' as [c'|]; [| | |done].
  - destruct Ho as (Hc & ndc & Hndc & E), Ho' as (Hc' & ndc' & Hndc' & E'). f_equal.
    apply (inv_first _ _ _ I a nd c c' ndc ndc'); try done. congruence.
  - destruct Ho as (Hc & ndc & Hndc & E). by destruct (Ho' c ndc).
  - destruct Ho' as (Hc & ndc & Hndc & E). by destruct (Ho c' ndc).
Qed.

Lemma partial_not_exact s nd : Match (norm cs s) (nkey nd) PartialMatch -> norm cs s <> nkey nd.
Proof. intros (c & a' & b' & -> & -> & _ & Hh & _)%Match_partial E%app_inv_head. congruence. Qed.

Lemma partial_not_over s nd s1 : Match (norm cs s) (nkey nd) PartialMatch -> norm cs s <> (nkey nd ++ s1)%list.
Proof.
  intros (c & a' & b' & -> & -> & Hb & Hh & _)%Match_partial. rewrite <- app_assoc. intros E%app_inv_head. subst a'.
  by destruct b'.
Qed.

Lemma over_not_exact s nd s1 : norm cs s = (nkey nd ++ norm cs s1)%list -> s1 <> [] -> norm cs s <> nkey nd.
Proof.
  intros -> Hs E. apply Hs. apply (norm_nil cs). rewrite <- (app_nil_r (nkey nd)) in E at 2. by apply app_inv_head in E.
Qed.

Lemma Walk_det d a s n s' o : Walk d a s n s' o -> forall d2 n2 s2 o2, Walk d2 a s n2 s2 o2 ->
  n = n2 /\ s' = s2 /\ o = o2.
Proof.
  induction 1 as [a s nd Ha E|a s nd Ha M|a s nd s' Ha E Hs Es F|d a s nd s1 c n s' o Ha E Hs Es F W IH];
    intros d2 n2 s2 o2 W2; inversion W2; subst; simplify_eq; try done;
    try match goal with
    | M : Match _ _ PartialMatch, E : norm cs _ = nkey _ |- _ => by destruct (partial_not_exact _ _ M E)
    | M : Match _ _ PartialMatch, E : norm cs _ = (nkey _ ++ _)%list |- _ => by destruct (partial_not_over _ _ _ M E)
    | E : norm cs ?s = nkey ?nd, E' : norm cs ?s = (nkey ?nd ++ _)%list, H : _ <> [] |- _ =>
        by destruct (over_not_exact _ _ _ E' H E)
    | F : first_child ?s ?a ?o, F' : first_child ?s ?a ?o' |- _ =>
        pose proof (first_child_unique _ _ _ _ F F') as Hu; first [discriminate Hu | injection Hu as ->; by eauto]
    end.
Qed.

(** What the end of the walk means for the whole key [q]. *)
Definition Ends (q : list Z) (n : loc) (s' : list Z) (o : outcome) : Prop :=
  cstr s' /\ exists nd pre, h !! n = Some nd /\ path h r (pre ++ nkey nd) n /\
  match o with
  | Found => q = (pre ++ nkey nd)%list
  | Split => q = (pre ++ norm cs s')%list /\ n <> r /\
             exists c a' b', norm cs s' = (c ++ a')%list /\ nkey nd = (c ++ b')%list /\
                             c <> [] /\ b' <> [] /\ head a' <> head b'
  | Missing => q = (pre ++ nkey nd ++ norm cs s')%list /\ s' <> [] /\ first_child s' n None
  end.

(** The start of the walk at a node: its key goes on like the rest. *)
Definition starts (a : loc) (nd : Node) (s : list Z) : Prop :=
  a = r \/ s <> [] /\ head (norm cs s) = head (nkey nd).

Lemma key_nonempty k a nd : path h r k a -> h !! a = Some nd -> nkey nd <> [] \/ a = r.
Proof.
  intros Hp Ha. destruct (decide (a = r)) as [->|Hne]; [by right|].
  destruct (path_parent k a nd Hp Ha Hne) as (p & ndp & k' & _ & _ & _ & _ & _ & H). by left.
Qed.

Lemma over_rest s nd x l : norm cs s = (nkey nd ++ x :: l)%list ->
  let s1 := drop (length (nkey nd)) s in
  norm cs s = (nkey nd ++ norm cs s1)%list /\ s1 <> [] /\ length s1 = (length s - length (nkey nd))%nat.
Proof.
  intros E s1. subst s1. rewrite norm_drop, E, drop_app_length, length_drop. split_and!; [done | | done].
  intros H. apply (f_equal (norm cs)) in H. rewrite norm_drop, E, drop_app_length in H. by destruct cs.
Qed.

Lemma Walk_total N : forall a nd s pre,
  h !! a = Some nd -> path h r (pre ++ nkey nd) a -> cstr s -> starts a nd s ->
  (length s + (if decide (a = r) then 1 else 0) <= N)%nat ->
  exists d n s' o, Walk d a s n s' o /\ (d <= N)%nat /\ Ends (pre ++ norm cs s) n s' o.
Proof.
  induction N as [N IH] using lt_wf_ind. intros a nd s pre Ha Hp Hs Hst Hlen.
  destruct (nkey_norm a nd Ha) as (k & Hk & Hn & Hck & _).
  pose proof (match_key_spec cs s k) as M. rewrite <- Hn in M.
  destruct (match_loop cs true s k).
  - inversion M as [E| | |]. exists 0%nat, a, s, Found. split; [by apply W_found with nd|].
    split; [lia|]. split; [done|]. exists nd, pre. by rewrite E.
  - inversion M as [|H1 H2 Hh| |]. destruct Hst as [->|[_ Hh']]; [|done].
    by rewrite (root_nkey nd Ha) in H2.
  - exists 0%nat, a, s, Split. split; [by apply W_split with nd|]. split; [lia|]. split; [done|].
    apply Match_partial in M as (c & a' & b' & E1 & E2 & Hb & Hh & Hc). exists nd, pre.
    split_and!; try done.
    + intros ->. rewrite (root_nkey nd Ha) in E2. destruct c, b'; done.
    + exists c, a', b'. split_and!; try done. intros ->. destruct Hst as [->|[Hne _]].
      * rewrite (root_nkey nd Ha) in E2. by destruct b'.
      * specialize (Hc eq_refl). by apply norm_nil in Hc.
  - inversion M as [| | |x l E]. destruct (over_rest _ _ _ _ E) as (E1 & Hne & Hl).
    set (s1 := drop (length (nkey nd)) s) in *.
    assert (Hs1 : cstr s1) by (by apply Forall_drop).
    set (t := mkTree h 0 (Some r) cs).
    destruct (findChild_run t a nd s1 eq_refl Ha Hne) as (o & _ & Ho).
    destruct o as [c|].
    + destruct Ho as (nd' & Ha' & Hc & ndc & Hndc & Eh). simplify_eq.
      assert (Hpc : path h r ((pre ++ nkey nd) ++ nkey ndc) c) by (by eapply path_child).
      assert (Hcr : c <> r) by (intros ->; by destruct (root_not_child a nd Ha)).
      assert (Hls : (length s1 < N)%nat).
      { rewrite Hl. destruct (key_nonempty _ _ _ Hp Ha) as [Hk'| ->].
        - assert (0 < length (nkey nd))%nat by (by destruct (nkey nd); cbn; [|lia]).
          apply (f_equal length) in E. rewrite length_norm, length_app in E. cbn in E. lia.
        - rewrite decide_True in Hlen by done. lia. }
      destruct (IH (length s1) Hls c ndc s1 _ Hndc Hpc Hs1) as (d & n & s' & o & W & Hd & He);
        [by right | rewrite decide_False by done; lia |].
      exists (S d), n, s', o. split; [|split; [lia|]].
      * apply (W_step d a s nd s1 c); try done. exists nd. split; [done|]. split; [done|]. by exists ndc.
      * by rewrite <- app_assoc, <- E1 in He.
    + exists 0%nat, a, s1, Missing. split; [by apply W_missing with nd|]. split; [lia|]. split; [done|].
      exists nd, pre. by rewrite <- E1.
Qed.

(** The walk from the root passes by every node on its way. *)
Lemma Walk_from_root k a : path h r k a -> forall nd s1 s2 d n s' o,
  h !! a = Some nd -> k = (norm cs s1 ++ nkey nd)%list -> starts a nd s2 ->
  Walk d a s2 n s' o -> exists d', Walk d' r (s1 ++ s2) n s' o.
Proof.
  induction 1 as [|k p c ndp ndc Hp IH Hndp Hc Hndc]; intros nd s1 s2 d n s' o Ha Hk Hst W.
  - symmetry in Hk. apply app_nil in Hk as [->%norm_nil _]. by exists d.
  - simplify_eq. apply app_inv_tail in Hk as Hk.
    destruct (path_split k p ndp Hp Hndp) as [pre Epre].
    set (u := take (length pre) s1). set (v := drop (length pre) s1).
    assert (Eu : norm cs u = pre) by (unfold u; rewrite norm_take, <- Hk, Epre; apply take_app_length).
    assert (Ev : norm cs v = nkey ndp) by (unfold v; rewrite norm_drop, <- Hk, Epre; apply drop_app_length).
    destruct Hst as [->|[Hne Hh]]; [by destruct (root_not_child p ndp Hndp)|].
    destruct (IH ndp u (v ++ s2)%list (S d) n s' o) as [d' W']; try done.
    + by rewrite Epre, Eu.
    + destruct (key_nonempty k p ndp Hp Hndp) as [Hkp| ->]; [|by left]. right. split; [by destruct v, s2|].
      rewrite norm_app, Ev. by destruct (nkey ndp).
    + apply (W_step d p (v ++ s2) ndp s2 c); try done.
      * by rewrite norm_app, Ev.
      * rewrite <- Ev, length_norm. by rewrite drop_app_length.
      * exists ndp. split; [done|]. split; [done|]. by exists ndc.
    + exists d'. unfold u, v in W'. by rewrite app_assoc, take_drop in W'.
Qed.

Lemma path_Walk q a s : path h r q a -> norm cs s = q -> exists d s', Walk d r s a s' Found.
Proof.
  intros Hp Es. destruct (path_in q a Hp) as [nd Ha]. destruct (path_split q a nd Hp Ha) as [pre Eq].
  set (s1 := take (length pre) s). set (s2 := drop (length pre) s).
  assert (E1 : norm cs s1 = pre) by (unfold s1; rewrite norm_take, Es, Eq; apply take_app_length).
  assert (E2 : norm cs s2 = nkey nd) by (unfold s2; rewrite norm_drop, Es, Eq; apply drop_app_length).
  destruct (Walk_from_root q a Hp nd s1 s2 0 a s2 Found Ha) as [d W].
  - by rewrite E1.
  - destruct (key_nonempty q a nd Hp Ha) as [Hk|Hr]; [|by left]. right. rewrite E2. split; [|done].
    intros H. apply Hk. rewrite <- E2, H. by destruct cs.
  - by apply W_found with nd.
  - exists d, s2. unfold s1, s2 in W. by rewrite take_drop in W.
Qed.

Lemma path_norm k a : path h r k a -> norm cs k = k.
Proof.
  induction 1 as [|k p c ndp ndc Hp IH Hndp Hc Hndc]; [by destruct cs|].
  destruct (nkey_norm c ndc Hndc) as (kc & _ & E & _). rewrite norm_app, IH, E. by rewrite norm_idem.
Qed.

(** Different nodes have different keys. *)
Lemma path_inj q a b : path h r q a -> path h r q b -> a = b.
Proof.
  intros Ha Hb. destruct (path_Walk q a q Ha (path_norm q a Ha)) as (d & s & W).
  destruct (path_Walk q b q Hb (path_norm q a Ha)) as (d' & s' & W').
  by destruct (Walk_det _ _ _ _ _ _ W _ _ _ _ W') as (-> & _ & _).
Qed.

(** The walk for a key: at most one step for each character, and it finds the
    node of the key if there is one. *)
Lemma find s : cstr s ->
  exists d n s' o, Walk d r s n s' o /\ (d <= length s + 1)%nat /\ Ends (norm cs s) n s' o /\
    match o with Found => path h r (norm cs s) n | _ => forall a, ~ path h r (norm cs s) a end.
Proof.
  intros Hs. destruct (inv_root _ _ _ I) as (nd & Hr & _ & _).
  assert (Hp : path h r ([] ++ nkey nd) r) by (rewrite (root_nkey nd Hr); constructor).
  destruct (Walk_total (length s + 1) r nd s [] Hr Hp Hs) as (d & n & s' & o & W & Hd & He);
    [by left | rewrite decide_True by done; lia |].
  exists d, n, s', o. split; [done|]. split; [done|]. split; [done|].
  assert (Habs : o <> Found -> forall a, ~ path h r (norm cs s) a).
  { intros Ho a Ha. destruct (path_Walk _ a s Ha eq_refl) as (d' & s2 & W').
    by destruct (Walk_det _ _ _ _ _ _ W _ _ _ _ W') as (_ & _ & ->). }
  destruct o; [|by apply Habs..]. destruct He as (_ & nd' & pre & _ & H & E). cbn in E. by rewrite E.
Qed.

End Paths.
