(* ===== verification/RadixHeap.v ===== *)
(** * Changing the shape of a radix tree

    The four changes the operations make to the heap of a tree: a new leaf, a
    node put above another, a leaf taken away, and a node merged with its only
    child.  Each keeps the invariant, and the key of every other node. *)
From Stdlib Require Import ZArith Lia List Bool.
From stdpp Require Import base gmap list fin_maps.
From S2P Require Import Prelude Heap RadixTree RadixPath.
Import ListNotations.
Local Open Scope Z_scope.
#[local] Set Warnings "-clear-no-such-hyp".

(** Two nodes alike but for value and children. *)
Definition alike (x y : Node) : Prop :=
  m_pKey x = m_pKey y /\ m_pParent x = m_pParent y /\ m_bCaseSensitive x = m_bCaseSensitive y.

Lemma alike_nkey x y : alike x y -> nkey x = nkey y.
Proof. intros (H1 & _ & H3). unfold nkey. by rewrite H1, H3. Qed.

Lemma alike_refl x : alike x x.
Proof. done. Qed.

Section Shape.
Context (cs : bool) (h : gmap loc Node) (r : loc) (I : Inv cs h r).

(** A node is not its own child. *)
Lemma not_own_child p nd : h !! p = Some nd -> p ∉ m_Children nd.
Proof.
  intros Hp Hc. destruct (inv_reach _ _ _ I p nd Hp) as [k Hk].
  assert (Hk' : path h r (k ++ nkey nd) p) by by eapply path_child.
  pose proof (path_unique _ _ _ I _ _ _ Hk Hk') as E.
  rewrite <- (app_nil_r k) in E at 1. apply app_inv_head in E.
  destruct (inv_child _ _ _ I p nd p Hp Hc) as (nd' & H & _ & Hne). simplify_eq.
Qed.

(** ** Values *)

Lemma set_value_shape h' n nd v :
  h !! n = Some nd -> h' !! n = Some (with_value v nd) -> (forall a, a <> n -> h' !! a = h !! a) ->
  Inv cs h' r /\ forall k a, path h' r k a <-> path h r k a.
Proof.
  intros Hn Hn' Ho.
  assert (V : forall a x, h' !! a = Some x -> exists y, h !! a = Some y /\ alike x y /\ m_Children x = m_Children y).
  { intros a x Ha. destruct (decide (a = n)) as [->|Hne]; [|rewrite Ho in Ha by done; by exists x].
    simplify_eq. by exists nd. }
  assert (V' : forall a y, h !! a = Some y -> exists x, h' !! a = Some x /\ alike x y /\ m_Children x = m_Children y).
  { intros a y Ha. destruct (decide (a = n)) as [->|Hne]; [|rewrite <- Ho in Ha by done; by exists y].
    simplify_eq. by eexists. }
  assert (P : forall k a, path h' r k a <-> path h r k a).
  { intros k a. split.
    - induction 1 as [|k p c ndp ndc _ IH Hp Hc Hndc]; [constructor|].
      destruct (V p ndp Hp) as (y & Hy & _ & Ey), (V c ndc Hndc) as (z & Hz & Ez & _).
      rewrite (alike_nkey _ _ Ez). eapply path_child; eauto. by rewrite <- Ey.
    - induction 1 as [|k p c ndp ndc _ IH Hp Hc Hndc]; [constructor|].
      destruct (V' p ndp Hp) as (y & Hy & _ & Ey), (V' c ndc Hndc) as (z & Hz & Ez & _).
      rewrite <- (alike_nkey _ _ Ez). eapply path_child; eauto. by rewrite Ey. }
  split; [|done]. split.
  - destruct (inv_root _ _ _ I) as (y & Hy & Hk & Hp). destruct (V' r y Hy) as (x & Hx & (E1 & E2 & _) & _).
    exists x. by rewrite E1, E2.
  - intros a x Hx. destruct (V a x Hx) as (y & Hy & (E1 & _ & E3) & _). rewrite E1, E3. by apply (inv_key _ _ _ I a).
  - intros p x c Hx Hc. destruct (V p x Hx) as (y & Hy & _ & Ey). rewrite Ey in Hc.
    destruct (inv_child _ _ _ I p y c Hy Hc) as (z & Hz & Hpar & Hne). destruct (V' c z Hz) as (u & Hu & Eu & _).
    exists u. rewrite (alike_nkey _ _ Eu). by destruct Eu as (_ & -> & _).
  - intros p x c d ndc ndd Hx Hc Hd Hndc Hndd. destruct (V p x Hx) as (y & Hy & _ & Ey). rewrite Ey in *.
    destruct (V c ndc Hndc) as (z & Hz & Ez & _), (V d ndd Hndd) as (u & Hu & Eu & _).
    rewrite (alike_nkey _ _ Ez), (alike_nkey _ _ Eu). by apply (inv_first _ _ _ I p y).
  - intros p x Hx. destruct (V p x Hx) as (y & Hy & _ & ->). by apply (inv_nodup _ _ _ I p).
  - intros a x Hx. destruct (V a x Hx) as (y & Hy & _). destruct (inv_reach _ _ _ I a y Hy) as [k Hk].
    exists k. by apply P.
Qed.

(** ** A new leaf [c] under [n] *)

Lemma add_leaf_shape h' n nd nd' c ndc :
  h !! n = Some nd -> h !! c = None ->
  h' !! n = Some nd' -> h' !! c = Some ndc -> (forall a, a <> n -> a <> c -> h' !! a = h !! a) ->
  alike nd' nd -> m_Children nd' ≡ₚ c :: m_Children nd ->
  m_bCaseSensitive ndc = cs -> (exists k, m_pKey ndc = Some k /\ cstr k) -> nkey ndc <> [] ->
  m_pParent ndc = Some n -> m_Children ndc = [] ->
  (forall d ndd, d ∈ m_Children nd -> h !! d = Some ndd -> head (nkey ndc) <> head (nkey ndd)) ->
  Inv cs h' r /\
  forall k a, path h' r k a <-> path h r k a \/ a = c /\ exists kn, path h r kn n /\ k = (kn ++ nkey ndc)%list.
Proof.
  intros Hn Hc Hn' Hc' Ho Hal Hch Hcs Hkey Hne Hpar Hnil Hfirst.
  assert (Hnc : n <> c) by congruence.
  (* the nodes of the two heaps *)
  assert (V : forall a x, h' !! a = Some x -> a = c /\ x = ndc \/
    exists y, h !! a = Some y /\ alike x y /\ a <> c /\ NoDup (m_Children x) /\
              forall d, d ∈ m_Children x <-> d ∈ m_Children y \/ a = n /\ d = c).
  { intros a x Ha. destruct (decide (a = c)) as [->|Hac]; [left; by simplify_eq|]. right.
    destruct (decide (a = n)) as [->|Han].
    - simplify_eq. exists nd. split_and!; try done; [|intros d; rewrite Hch, elem_of_cons; naive_solver].
      rewrite Hch. constructor; [|by apply (inv_nodup _ _ _ I n)].
      intros Hin. destruct (inv_child _ _ _ I n nd c Hn Hin) as (? & ? & _). congruence.
    - rewrite Ho in Ha by done. exists x. split_and!; try done; [by apply (inv_nodup _ _ _ I a)|naive_solver]. }
  assert (V' : forall a y, h !! a = Some y -> a <> c /\ exists x, h' !! a = Some x /\ alike x y /\
    forall d, d ∈ m_Children y -> d ∈ m_Children x).
  { intros a y Ha. assert (a <> c) by congruence. split; [done|].
    destruct (decide (a = n)) as [->|Han].
    - simplify_eq. exists nd'. split_and!; try done. intros d Hd. rewrite Hch. by right.
    - exists y. by rewrite Ho. }
  assert (Hold : forall p y d, h !! p = Some y -> d ∈ m_Children y -> d <> c).
  { intros p y d Hp Hd ->. destruct (inv_child _ _ _ I p y c Hp Hd) as (? & ? & _). congruence. }
  assert (P : forall k a, path h' r k a <->
    path h r k a \/ a = c /\ exists kn, path h r kn n /\ k = (kn ++ nkey ndc)%list).
  { assert (P1 : forall k a, path h r k a -> path h' r k a).
    { induction 1 as [|k p d ndp ndd _ IH Hp Hd Hndd]; [constructor|].
      destruct (V' p ndp Hp) as (_ & y & Hy & _ & Ey), (V' d ndd Hndd) as (_ & z & Hz & Ez & _).
      rewrite <- (alike_nkey _ _ Ez). eapply path_child; eauto. }
    intros k a. split.
    - induction 1 as [|k p d ndp ndd _ IH Hp Hd Hndd]; [left; constructor|].
      destruct (V p ndp Hp) as [[-> ->]|(y & Hy & _ & _ & _ & Ey)]; [rewrite Hnil in Hd; by apply not_elem_of_nil in Hd|].
      assert (Hpk : path h r k p) by (destruct IH as [?|[-> _]]; [done|congruence]).
      destruct (proj1 (Ey d) Hd) as [Hd'|[-> ->]]; [left | right; simplify_eq; eauto].
      destruct (V d ndd Hndd) as [[-> _]|(z & Hz & Ez & _)]; [by destruct (Hold p y c)|].
      rewrite (alike_nkey _ _ Ez). by eapply path_child.
    - intros [H|(-> & kn & H & ->)]; [by apply P1|].
      eapply path_child; [by apply P1 | done | | done]. rewrite Hch. by left. }
  split; [|done]. split.
  - destruct (inv_root _ _ _ I) as (y & Hy & Hk & Hp). destruct (V' r y Hy) as (_ & x & Hx & (E1 & E2 & _) & _).
    exists x. by rewrite E1, E2.
  - intros a x Hx. destruct (V a x Hx) as [[-> ->]|(y & Hy & (E1 & _ & E3) & _)]; [done|].
    rewrite E1, E3. by apply (inv_key _ _ _ I a).
  - intros p x d Hx Hd. destruct (V p x Hx) as [[-> ->]|(y & Hy & _ & _ & _ & Ey)];
      [rewrite Hnil in Hd; by apply not_elem_of_nil in Hd|].
    destruct (proj1 (Ey d) Hd) as [Hd'|[-> ->]]; [|by exists ndc].
    destruct (inv_child _ _ _ I p y d Hy Hd') as (z & Hz & Hzp & Hzk). destruct (V' d z Hz) as (_ & u & Hu & Eu & _).
    exists u. rewrite (alike_nkey _ _ Eu). by destruct Eu as (_ & -> & _).
  - intros p x d e ndd nde Hx Hd He Hndd Hnde.
    destruct (V p x Hx) as [[-> ->]|(y & Hy & _ & _ & _ & Ey)]; [rewrite Hnil in Hd; by apply not_elem_of_nil in Hd|].
    destruct (proj1 (Ey d) Hd) as [Hd'|[-> ->]], (proj1 (Ey e) He) as [He'|[Hen ->]]; simplify_eq; try done; intros E.
    + destruct (V d ndd Hndd) as [[-> _]|(z & Hz & Ez & _)]; [by destruct (Hold p y c)|].
      destruct (V e nde Hnde) as [[-> _]|(u & Hu & Eu & _)]; [by destruct (Hold p y c)|].
      rewrite (alike_nkey _ _ Ez), (alike_nkey _ _ Eu) in E. by apply (inv_first _ _ _ I p y d e z u).
    + destruct (V d ndd Hndd) as [[-> _]|(z & Hz & Ez & _)]; [done|].
      rewrite (alike_nkey _ _ Ez) in E. by destruct (Hfirst d z Hd' Hz).
    + destruct (V e nde Hnde) as [[-> _]|(z & Hz & Ez & _)]; [done|].
      rewrite (alike_nkey _ _ Ez) in E. by destruct (Hfirst e z He' Hz).
  - intros p x Hx. destruct (V p x Hx) as [[-> ->]|(y & Hy & _ & _ & Hnd & _)]; [|done]. rewrite Hnil. constructor.
  - intros a x Hx. destruct (V a x Hx) as [[-> ->]|(y & Hy & _)].
    + destruct (inv_reach _ _ _ I n nd Hn) as [kn Hkn]. exists (kn ++ nkey ndc)%list. apply P. right. eauto.
    + destruct (inv_reach _ _ _ I a y Hy) as [k Hk]. exists k. apply P. by left.
Qed.

End Shape.

(** ** A node [m] between [p] and its child [n] *)

Section Between.
Context (cs : bool) (h h' : gmap loc Node) (r p n m : loc) (ndp nd ndp' ndm nd' : Node).

(** [h] without [m], [h'] with it. *)
Record Between : Prop := {
  bt_p : h !! p = Some ndp;
  bt_n : h !! n = Some nd;
  bt_m : h !! m = None;
  bt_p' : h' !! p = Some ndp';
  bt_m' : h' !! m = Some ndm;
  bt_n' : h' !! n = Some nd';
  bt_other : forall a, a <> p -> a <> n -> a <> m -> h' !! a = h !! a;
  bt_alike : alike ndp' ndp;
  bt_children : m_Children nd' = m_Children nd;
  bt_key : nkey nd = (nkey ndm ++ nkey nd')%list;
  bt_pn : p <> n;
  bt_in : n ∈ m_Children ndp;
  bt_nodup : NoDup (m_Children ndp) /\ NoDup (m_Children ndp');
  bt_m_in : m ∉ m_Children ndp;
  bt_root : r <> m /\ r <> n;
  bt_in' : forall d, d ∈ m_Children ndp' <-> d ∈ m_Children ndp /\ d <> n \/ d = m;
  bt_only : m_Children ndm = [n];
  bt_case : m_bCaseSensitive ndm = cs /\ m_bCaseSensitive nd' = cs /\ m_bCaseSensitive nd = cs;
  bt_cstr : (exists k, m_pKey ndm = Some k /\ cstr k) /\ (exists k, m_pKey nd' = Some k /\ cstr k) /\
            (exists k, m_pKey nd = Some k /\ cstr k);
  bt_parents : m_pParent nd = Some p /\ m_pParent ndm = Some p /\ m_pParent nd' = Some m;
  bt_nonempty : nkey ndm <> [] /\ nkey nd' <> []
}.

Context (B : Between).

Lemma bt_ne : p <> m /\ n <> m.
Proof. pose proof (bt_p B). pose proof (bt_n B). pose proof (bt_m B). split; congruence. Qed.

(** The nodes of [h']. *)
Lemma bt_view a x : h' !! a = Some x ->
  a = m /\ x = ndm \/ a = n /\ x = nd' \/
  a <> m /\ a <> n /\ exists y, h !! a = Some y /\ alike x y /\
    (a <> p -> x = y) /\ (a = p -> x = ndp' /\ y = ndp).
Proof.
  intros Ha. destruct B, bt_ne.
  destruct (decide (a = m)) as [->|Hm]; [left; by simplify_eq|].
  destruct (decide (a = n)) as [->|Hn]; [right; left; by simplify_eq|]. right; right.
  split; [done|]. split; [done|].
  destruct (decide (a = p)) as [->|Hp]; [simplify_eq; by exists ndp|].
  rewrite bt_other0 in Ha by done. by exists x.
Qed.

(** The nodes of [h]. *)
Lemma bt_view' a y : h !! a = Some y ->
  a <> m /\ (a = n /\ y = nd \/
  a <> n /\ exists x, h' !! a = Some x /\ alike x y /\
    (a <> p -> x = y) /\ (a = p -> x = ndp' /\ y = ndp)).
Proof.
  intros Ha. destruct B, bt_ne. split; [congruence|].
  destruct (decide (a = n)) as [->|Hn]; [left; by simplify_eq|]. right. split; [done|].
  destruct (decide (a = p)) as [->|Hp]; [simplify_eq; by exists ndp'|].
  exists y. by rewrite bt_other0 by congruence.
Qed.

(** In [h], [m] has no parent and [n] only [p]. *)
Definition detached : Prop := forall a y, h !! a = Some y ->
  (m ∉ m_Children y) /\ (n ∈ m_Children y -> a = p).

Lemma detached_before : Inv cs h r -> detached.
Proof.
  intros I a y Ha. split.
  - intros Hm. destruct (inv_child _ _ _ I a y m Ha Hm) as (? & ? & _). pose proof (bt_m B). congruence.
  - intros Hn. destruct (inv_child _ _ _ I a y n Ha Hn) as (? & ? & ? & _).
    pose proof (bt_n B). destruct (bt_parents B) as [? _]. congruence.
Qed.

Lemma detached_after : Inv cs h' r -> detached.
Proof.
  intros I a y Ha. destruct bt_ne as [Hpm Hnm]. destruct (bt_parents B) as (_ & Hpar & Hpar').
  destruct (bt_view' a y Ha) as [Ham [[-> ->]|(Han & x & Hx & _ & Hxy & Hp)]].
  - rewrite <- (bt_children B). split; intros Hin.
    + destruct (inv_child _ _ _ I n nd' m (bt_n' B) Hin) as (z & Hz & Hzp & _).
      pose proof (bt_m' B). pose proof (bt_pn B). congruence.
    + by destruct (not_own_child cs h' r I n nd' (bt_n' B)).
  - destruct (decide (a = p)) as [->|Hap].
    + destruct (Hp eq_refl) as [_ ->]. split; [apply (bt_m_in B) | done].
    + rewrite <- (Hxy Hap). split; intros Hin.
      * destruct (inv_child _ _ _ I a x m Hx Hin) as (z & Hz & Hzp & _). pose proof (bt_m' B). congruence.
      * destruct (inv_child _ _ _ I a x n Hx Hin) as (z & Hz & Hzp & _). pose proof (bt_n' B). congruence.
Qed.

Context (D : detached).

(** The edges of the two heaps: most are common. *)
Definition common_edge (a d : loc) : Prop :=
  a <> m /\ d <> n /\ d <> m /\ exists x y, h' !! a = Some x /\ h !! a = Some y /\ d ∈ m_Children x /\ d ∈ m_Children y.

Lemma edges_before a y d : h !! a = Some y -> d ∈ m_Children y -> a = p /\ d = n \/ common_edge a d.
Proof.
  intros Ha Hd. destruct (D a y Ha) as [Hm Hn]. destruct (decide (d = n)) as [->|Hdn]; [left; by split; [apply Hn|]|].
  assert (Hdm : d <> m) by congruence. right. destruct (bt_view' a y Ha) as [Ham [[-> ->]|(Han & x & Hx & _ & Hxy & Hp)]].
  - split_and!; try done. exists nd', nd. rewrite (bt_children B). split_and!; try done; apply B.
  - split_and!; try done. exists x, y. split_and!; try done. destruct (decide (a = p)) as [->|Hap].
    + destruct (Hp eq_refl) as [-> ->]. apply (bt_in' B). by left.
    + by rewrite (Hxy Hap).
Qed.

Lemma edges_after a x d : h' !! a = Some x -> d ∈ m_Children x ->
  a = m /\ d = n \/ a = p /\ d = m \/ common_edge a d.
Proof.
  intros Ha Hd. destruct bt_ne as [Hpm Hnm].
  assert (Hc : forall y, a <> m -> h !! a = Some y -> d ∈ m_Children y -> (a = p -> d <> n) -> common_edge a d).
  { intros y Ham Hy Hdy Hp. destruct (D a y Hy) as [Hm Hn]. split_and!; [done | | congruence | by exists x, y].
    intros ->. by apply Hp; [apply Hn|]. }
  destruct (bt_view a x Ha) as [[-> ->]|[[-> ->]|(Ham & Han & y & Hy & _ & Hxy & Hp)]].
  - rewrite (bt_only B) in Hd. apply list_elem_of_singleton in Hd. by left.
  - rewrite (bt_children B) in Hd. right; right. apply (Hc nd); try done; [apply B|]. intros <-. by destruct (bt_pn B).
  - right. destruct (decide (a = p)) as [->|Hap].
    + destruct (Hp eq_refl) as [-> ->]. apply (bt_in' B) in Hd as [[Hd Hdn]| ->]; [|by left].
      right. by apply (Hc ndp).
    + rewrite (Hxy Hap) in Hd. right. by apply (Hc y).
Qed.

Lemma common_alike d : d <> n -> d <> m -> forall x y, h' !! d = Some x -> h !! d = Some y -> alike x y.
Proof.
  intros Hn Hm x y Hx Hy. destruct (bt_view d x Hx) as [[-> _]|[[-> _]|(_ & _ & y' & Hy' & Hal & _)]]; try done.
  by simplify_eq.
Qed.

Lemma common_in d : d <> n -> d <> m -> is_Some (h' !! d) <-> is_Some (h !! d).
Proof.
  intros Hn Hm. split; intros [x Hx].
  - destruct (bt_view d x Hx) as [[-> _]|[[-> _]|(_ & _ & y & Hy & _)]]; try done.
  - destruct (bt_view' d x Hx) as [_ [[-> _]|(_ & y & Hy & _)]]; done.
Qed.

(** The keys: those of all the other nodes are the same. *)
Lemma bt_path k a : path h' r k a <->
  path h r k a \/ a = m /\ exists kp, path h r kp p /\ k = (kp ++ nkey ndm)%list.
Proof.
  destruct bt_ne as [Hpm Hnm]. pose proof (bt_root B) as [Hrm Hrn].
  assert (Hnot : forall k, ~ path h r k m).
  { intros k' H. inversion H as [|? ? ? ? ? _ _ _ Hm]; [congruence|]. by rewrite (bt_m B) in Hm. }
  assert (P1 : forall k a, path h r k a -> path h' r k a).
  { induction 1 as [|k' q d ndq ndd _ IH Hq Hd Hndd]; [constructor|].
    destruct (edges_before q ndq d Hq Hd) as [[-> ->]|(Hqm & Hdn & Hdm & x & y & Hx & Hy & Hdx & _)].
    - rewrite (bt_n B) in Hndd. injection Hndd as <-. rewrite (bt_key B), app_assoc.
      eapply path_child; [|apply (bt_m' B) | rewrite (bt_only B); by left | apply B].
      eapply path_child; [done | apply (bt_p' B) | apply (bt_in' B); by right | apply B].
    - destruct (proj2 (common_in d Hdn Hdm)) as [z Hz]; [by eexists|].
      rewrite <- (alike_nkey z ndd) by by eapply common_alike. by eapply path_child. }
  split.
  - induction 1 as [|k' q d ndq ndd _ IH Hq Hd Hndd]; [left; constructor|].
    destruct (edges_after q ndq d Hq Hd) as [[-> ->]|[[-> ->]|(Hqm & Hdn & Hdm & x & y & Hx & Hy & _ & Hdy)]].
    + destruct IH as [H|(_ & kp & H & ->)]; [by destruct (Hnot k')|]. left.
      rewrite (bt_n' B) in Hndd. injection Hndd as <-. rewrite <- app_assoc, <- (bt_key B).
      eapply path_child; [done | apply (bt_p B) | apply B | apply B].
    + right. split; [done|]. destruct IH as [H|[-> _]]; [|done]. rewrite (bt_m' B) in Hndd. injection Hndd as <-. eauto.
    + left. destruct IH as [H|[-> _]]; [|done]. destruct (proj1 (common_in d Hdn Hdm)) as [z Hz]; [by eexists|].
      rewrite (alike_nkey ndd z) by by eapply common_alike. by eapply path_child.
  - intros [H|(-> & kp & H & ->)]; [by apply P1|].
    eapply path_child; [by apply P1 | apply (bt_p' B) | apply (bt_in' B); by right | apply B].
Qed.

Lemma bt_head : head (nkey nd) = head (nkey ndm).
Proof. rewrite (bt_key B). destruct (bt_nonempty B) as [H _]. by destruct (nkey ndm). Qed.

(** Splitting: from [h] to [h']. *)
Lemma split_inv : Inv cs h r -> Inv cs h' r.
Proof.
  intros I. destruct bt_ne as [Hpm Hnm]. pose proof (bt_root B) as [Hrm Hrn].
  destruct (bt_parents B) as (_ & Hparm & Hparn), (bt_nonempty B) as [Hkm Hkn].
  destruct (bt_case B) as (Hcm & Hcn & _), (bt_cstr B) as (Hsm & Hsn & _).
  assert (Hm : forall e x y, h' !! e = Some x -> h !! p = Some y -> e ∈ m_Children y -> e <> n -> e <> m ->
    head (nkey x) <> head (nkey ndm)).
  { intros e x y Hx Hy He Hen Hem E. destruct (proj1 (common_in e Hen Hem)) as [z Hz]; [by eexists|].
    apply Hen. apply (inv_first _ _ _ I p y e n z nd); try done; [| apply B | by rewrite <- (alike_nkey x z), bt_head by by eapply common_alike].
    rewrite (bt_p B) in Hy. injection Hy as <-. apply B. }
  split.
  - destruct (inv_root _ _ _ I) as (y & Hy & Hk & Hp).
    destruct (bt_view' r y Hy) as [_ [[-> _]|(_ & x & Hx & (E1 & E2 & _) & _)]]; [done|]. exists x. by rewrite E1, E2.
  - intros a x Hx. destruct (bt_view a x Hx) as [[-> ->]|[[-> ->]|(_ & _ & y & Hy & (E1 & _ & E3) & _)]]; [done..|].
    rewrite E1, E3. by apply (inv_key _ _ _ I a).
  - intros q x d Hx Hd. destruct (edges_after q x d Hx Hd) as [[-> ->]|[[-> ->]|(_ & Hdn & Hdm & _ & y & _ & Hy & _ & Hdy)]].
    + exists nd'. split; [apply B | done].
    + exists ndm. split; [apply B | done].
    + destruct (inv_child _ _ _ I q y d Hy Hdy) as (z & Hz & Hpar & Hne).
      destruct (proj2 (common_in d Hdn Hdm)) as [u Hu]; [by eexists|].
      pose proof (common_alike d Hdn Hdm u z Hu Hz) as Hal. exists u. rewrite (alike_nkey _ _ Hal).
      by destruct Hal as (_ & -> & _).
  - intros q x d e ndd nde Hx Hd He Hndd Hnde E.
    destruct (edges_after q x d Hx Hd) as [[-> ->]|[[-> ->]|(Hqm & Hdn & Hdm & _ & y & _ & Hy & _ & Hdy)]],
      (edges_after _ x e Hx He) as [[H1 ->]|[[H1 ->]|(Hqm' & Hen & Hem & _ & y' & _ & Hy' & _ & Hey)]]; subst; try done.
    + rewrite (bt_m' B) in Hndd. injection Hndd as <-. by destruct (Hm e nde y').
    + rewrite (bt_m' B) in Hnde. injection Hnde as <-. by destruct (Hm d ndd y).
    + simplify_eq. destruct (proj1 (common_in d Hdn Hdm)) as [z Hz]; [by eexists|].
      destruct (proj1 (common_in e Hen Hem)) as [u Hu]; [by eexists|].
      apply (inv_first _ _ _ I q y d e z u); try done.
      by rewrite <- (alike_nkey _ _ (common_alike d Hdn Hdm ndd z Hndd Hz)), <- (alike_nkey _ _ (common_alike e Hen Hem nde u Hnde Hu)).
  - intros q x Hx. destruct (bt_view q x Hx) as [[-> ->]|[[-> ->]|(_ & _ & y & Hy & _ & Hxy & Hp)]].
    + rewrite (bt_only B). apply NoDup_singleton.
    + rewrite (bt_children B). apply (inv_nodup _ _ _ I n). apply B.
    + destruct (decide (q = p)) as [->|Hqp]; [destruct (Hp eq_refl) as [-> _]; apply B|].
      rewrite (Hxy Hqp). by apply (inv_nodup _ _ _ I q).
  - intros a x Hx. destruct (inv_reach _ _ _ I p ndp (bt_p B)) as [kp Hkp].
    destruct (bt_view a x Hx) as [[-> ->]|[[-> ->]|(_ & _ & y & Hy & _)]].
    + exists (kp ++ nkey ndm)%list. apply bt_path. right. eauto.
    + destruct (inv_reach _ _ _ I n nd (bt_n B)) as [k Hk]. exists k. apply bt_path. by left.
    + destruct (inv_reach _ _ _ I a y Hy) as [k Hk]. exists k. apply bt_path. by left.
Qed.

(** Merging: from [h'] to [h]. *)
Lemma merge_inv : Inv cs h' r -> Inv cs h r.
Proof.
  intros I. destruct bt_ne as [Hpm Hnm]. pose proof (bt_root B) as [Hrm Hrn].
  destruct (bt_parents B) as (Hparn & _ & _), (bt_nonempty B) as [Hkm _].
  destruct (bt_case B) as (_ & _ & Hcn), (bt_cstr B) as (_ & _ & Hsn).
  assert (Hkn : nkey nd <> []) by (rewrite (bt_key B); by destruct (nkey ndm)).
  assert (Hm : forall e x y, h !! e = Some y -> h' !! p = Some x -> e ∈ m_Children x -> e <> n -> e <> m ->
    head (nkey y) <> head (nkey nd)).
  { intros e x y Hy Hx He Hen Hem E. destruct (proj2 (common_in e Hen Hem)) as [z Hz]; [by eexists|].
    apply Hem. apply (inv_first _ _ _ I p x e m z ndm); try done; [| apply B | by rewrite (alike_nkey z y), <- bt_head by by eapply common_alike].
    rewrite (bt_p' B) in Hx. injection Hx as <-. apply (bt_in' B). by right. }
  split.
  - destruct (inv_root _ _ _ I) as (x & Hx & Hk & Hp).
    destruct (bt_view r x Hx) as [[-> _]|[[-> _]|(_ & _ & y & Hy & (E1 & E2 & _) & _)]]; [done..|].
    exists y. by rewrite <- E1, <- E2.
  - intros a y Hy. destruct (bt_view' a y Hy) as [_ [[-> ->]|(_ & x & Hx & (E1 & _ & E3) & _)]]; [done|].
    rewrite <- E1, <- E3. by apply (inv_key _ _ _ I a).
  - intros q y d Hy Hd. destruct (edges_before q y d Hy Hd) as [[-> ->]|(_ & Hdn & Hdm & x & _ & Hx & _ & Hdx & _)].
    + exists nd. split; [apply B | done].
    + destruct (inv_child _ _ _ I q x d Hx Hdx) as (z & Hz & Hpar & Hne).
      destruct (proj1 (common_in d Hdn Hdm)) as [u Hu]; [by eexists|].
      pose proof (common_alike d Hdn Hdm z u Hz Hu) as Hal. exists u. rewrite <- (alike_nkey _ _ Hal).
      by destruct Hal as (_ & <- & _).
  - intros q y d e ndd nde Hy Hd He Hndd Hnde E.
    destruct (edges_before q y d Hy Hd) as [[-> ->]|(Hqm & Hdn & Hdm & x & _ & Hx & _ & Hdx & _)],
      (edges_before _ y e Hy He) as [[H1 ->]|(Hqm' & Hen & Hem & x' & _ & Hx' & _ & Hex & _)]; subst; try done.
    + rewrite (bt_n B) in Hndd. injection Hndd as <-. by destruct (Hm e x' nde).
    + rewrite (bt_n B) in Hnde. injection Hnde as <-. by destruct (Hm d x ndd).
    + simplify_eq. destruct (proj2 (common_in d Hdn Hdm)) as [z Hz]; [by eexists|].
      destruct (proj2 (common_in e Hen Hem)) as [u Hu]; [by eexists|].
      apply (inv_first _ _ _ I q x d e z u); try done.
      by rewrite (alike_nkey _ _ (common_alike d Hdn Hdm z ndd Hz Hndd)), (alike_nkey _ _ (common_alike e Hen Hem u nde Hu Hnde)).
  - intros q y Hy. destruct (bt_view' q y Hy) as [_ [[-> ->]|(_ & x & Hx & _ & Hxy & Hp)]].
    + rewrite <- (bt_children B). apply (inv_nodup _ _ _ I n). apply B.
    + destruct (decide (q = p)) as [->|Hqp]; [destruct (Hp eq_refl) as [_ ->]; apply B|].
      rewrite <- (Hxy Hqp). by apply (inv_nodup _ _ _ I q).
  - intros a y Hy. assert (Ha : exists x, h' !! a = Some x).
    { destruct (bt_view' a y Hy) as [_ [[-> _]|(_ & x & Hx & _)]]; [exists nd'; apply B | by exists x]. }
    destruct Ha as [x Hx]. destruct (inv_reach _ _ _ I a x Hx) as [k Hk].
    apply bt_path in Hk as [Hk|[-> _]]; [by exists k|]. by rewrite (bt_m B) in Hy.
Qed.

End Between.

(** ** Taking away the leaf [n] under [p] *)

Lemma drop_leaf_shape cs h r h' n nd p ndp ndp' :
  Inv cs h r ->
  h !! n = Some nd -> n <> r -> m_Children nd = [] -> m_pParent nd = Some p -> h !! p = Some ndp ->
  h' !! n = None -> h' !! p = Some ndp' -> (forall a, a <> n -> a <> p -> h' !! a = h !! a) ->
  alike ndp' ndp -> NoDup (m_Children ndp') ->
  (forall d, d ∈ m_Children ndp' <-> d ∈ m_Children ndp /\ d <> n) ->
  Inv cs h' r /\ forall k a, path h' r k a <-> path h r k a /\ a <> n.
Proof.
  intros I Hn Hnr Hnil Hpar Hp Hn' Hp' Ho Hal Hnd Hch.
  assert (Hpn : p <> n) by congruence.
  assert (V : forall a x, h' !! a = Some x -> a <> n /\ exists y, h !! a = Some y /\ alike x y /\
    NoDup (m_Children x) /\ forall d, d ∈ m_Children x <-> d ∈ m_Children y /\ d <> n).
  { intros a x Ha. assert (Han : a <> n) by congruence. split; [done|].
    destruct (decide (a = p)) as [->|Hap]; [simplify_eq; by exists ndp|].
    rewrite Ho in Ha by done. exists x. split_and!; [done..|by apply (inv_nodup _ _ _ I a)|].
    intros d. split; [|by intros [? _]]. intros Hd. split; [done|]. intros ->.
    destruct (inv_child _ _ _ I a x n Ha Hd) as (z & Hz & Hzp & _). congruence. }
  assert (V' : forall a y, a <> n -> h !! a = Some y -> exists x, h' !! a = Some x /\ alike x y).
  { intros a y Han Ha. destruct (decide (a = p)) as [->|Hap]; [simplify_eq; by exists ndp'|].
    exists y. by rewrite Ho. }
  assert (P : forall k a, path h' r k a <-> path h r k a /\ a <> n).
  { intros k a. split.
    - induction 1 as [|k q d ndq ndd _ [IH Hqn] Hq Hd Hndd]; [split; [constructor|done]|].
      destruct (V q ndq Hq) as (_ & y & Hy & _ & _ & Ey), (V d ndd Hndd) as (Hdn & z & Hz & Ez & _).
      split; [|done]. rewrite (alike_nkey _ _ Ez). eapply path_child; eauto. by apply Ey.
    - intros [H Hne]. revert Hne. induction H as [|k q d ndq ndd _ IH Hq Hd Hndd]; intros Hdn; [constructor|].
      assert (Hqn : q <> n) by (intros ->; simplify_eq; rewrite Hnil in Hd; by apply not_elem_of_nil in Hd).
      destruct (V' q ndq Hqn Hq) as (x & Hx & _), (V' d ndd Hdn Hndd) as (z & Hz & Ez).
      rewrite <- (alike_nkey _ _ Ez). eapply path_child; eauto.
      destruct (V q x Hx) as (_ & y & Hy & _ & _ & Ey). simplify_eq. by apply Ey. }
  split; [|done]. split.
  - destruct (inv_root _ _ _ I) as (y & Hy & Hk & Hyp).
    destruct (V' r y (not_eq_sym Hnr) Hy) as (x & Hx & E1 & E2 & _). exists x. by rewrite E1, E2.
  - intros a x Hx. destruct (V a x Hx) as (_ & y & Hy & (E1 & _ & E3) & _).
    rewrite E1, E3. by apply (inv_key _ _ _ I a).
  - intros q x d Hx Hd. destruct (V q x Hx) as (_ & y & Hy & _ & _ & Ey). destruct (proj1 (Ey d) Hd) as [Hd' Hdn].
    destruct (inv_child _ _ _ I q y d Hy Hd') as (z & Hz & Hzp & Hzk). destruct (V' d z Hdn Hz) as (u & Hu & Eu).
    exists u. rewrite (alike_nkey _ _ Eu). by destruct Eu as (_ & -> & _).
  - intros q x d e ndd nde Hx Hd He Hndd Hnde E. destruct (V q x Hx) as (_ & y & Hy & _ & _ & Ey).
    destruct (proj1 (Ey d) Hd) as [Hd' _], (proj1 (Ey e) He) as [He' _].
    destruct (V d ndd Hndd) as (_ & z & Hz & Ez & _), (V e nde Hnde) as (_ & u & Hu & Eu & _).
    rewrite (alike_nkey _ _ Ez), (alike_nkey _ _ Eu) in E. by apply (inv_first _ _ _ I q y d e z u).
  - intros q x Hx. by destruct (V q x Hx) as (_ & y & _ & _ & ? & _).
  - intros a x Hx. destruct (V a x Hx) as (Han & y & Hy & _). destruct (inv_reach _ _ _ I a y Hy) as [k Hk].
    exists k. by apply P.
Qed.
