(* ===== verification/RadixMap.v ===== *)
(** * A radix tree is a dictionary

    The loops of [insert], [lookup] and [remove] follow the walk of [RadixPath];
    what the first two do to the dictionary. *)
From Stdlib Require Import ZArith Lia List Bool.
From stdpp Require Import base gmap list fin_maps.
From S2P Require Import Prelude Heap RadixTree RadixPath RadixHeap.
Import ListNotations.
Local Open Scope Z_scope.
Local Open Scope err_scope.
#[local] Set Warnings "-clear-no-such-hyp".

Section Loops.
Context (w : Z) (cs : bool) (h : gmap loc Node) (r : loc) (I : Inv cs h r).
Context (t : RadixTree) (Ht : nodes t = h).

Lemma field_node {A} (f : Node -> A) a nd : h !! a = Some nd -> field f (Some a) t = Some (f nd, t).
Proof. intros Ha. apply (field_run (S := RadixTree) f a t nd). cbn. by rewrite Ht. Qed.

Lemma key_field a nd : h !! a = Some nd ->
  exists k, m_pKey nd = Some k /\ keyOf (Some a) t = Some (k, t) /\ length k = length (nkey nd).
Proof.
  intros Ha. destruct (nkey_norm cs h r I a nd Ha) as (k & Hk & Hn & _). exists k. split; [done|].
  split; [|by rewrite Hn, length_norm]. unfold keyOf.
  rewrite (ebind_run _ _ _ _ _ (field_node m_pKey a nd Ha)). by rewrite Hk.
Qed.

(** The comparison at the nodes the walk passes. *)
Lemma matchKey_found a s nd : h !! a = Some nd -> norm cs s = nkey nd ->
  matchKey (Some a) s t = Some (ExactMatch, t).
Proof.
  intros Ha E. destruct (matchKey_run cs h r I t a nd s Ht Ha) as (m & -> & M). do 2 f_equal.
  inversion M as [| H1 H2 H3 | c a' b' E1 E2 _ Hh _ | x l E1]; subst; [done | congruence | | ].
  - rewrite E1, E2 in E. apply app_inv_head in E. congruence.
  - rewrite E1 in E. rewrite <- (app_nil_r (nkey nd)) in E at 2. by apply app_inv_head in E.
Qed.

Lemma matchKey_split a s nd : h !! a = Some nd -> Match (norm cs s) (nkey nd) PartialMatch ->
  matchKey (Some a) s t = Some (PartialMatch, t).
Proof.
  intros Ha M. destruct (matchKey_run cs h r I t a nd s Ht Ha) as (m & -> & M'). do 2 f_equal.
  apply Match_partial in M as (c & a' & b' & E1 & E2 & Hb & Hh & Hc).
  inversion M' as [E| H1 H2 H3 | | x l E3]; subst; [ | | done | ].
  - rewrite E1, E2 in E. apply app_inv_head in E. congruence.
  - rewrite E1, E2 in H3. destruct c; [|done]. by rewrite Hc in H1.
  - rewrite E1, E2, <- app_assoc in E3. apply app_inv_head in E3. subst a'. by destruct b'.
Qed.

Lemma matchKey_over a s nd s1 : h !! a = Some nd -> norm cs s = (nkey nd ++ norm cs s1)%list -> s1 <> [] ->
  matchKey (Some a) s t = Some (OverMatch, t).
Proof.
  intros Ha E Hs. destruct (matchKey_run cs h r I t a nd s Ht Ha) as (m & -> & M'). do 2 f_equal.
  assert (Hn : norm cs s1 <> []) by by rewrite norm_nil.
  inversion M' as [E'| H1 H2 H3 | c a' b' E1 E2 Hb Hh _ | ]; subst; [ | | | done].
  - rewrite E' in E. rewrite <- (app_nil_r (nkey nd)) in E at 1. by apply app_inv_head in E.
  - rewrite E in H3. by destruct (nkey nd).
  - rewrite E1, E2, <- app_assoc in E. apply app_inv_head in E. subst a'. by destruct b'.
Qed.

Lemma findChild_step a s o : s <> [] -> first_child cs h s a o -> findChild (Some a) s t = Some (o, t).
Proof.
  intros Hs F. destruct F as (nd & Ha & F). destruct (findChild_run cs h r I t a nd s Ht Ha Hs) as (o' & -> & F').
  rewrite (first_child_unique cs h r I s a o o'); [done | by exists nd | done].
Qed.

(** A step of one of the loops, over the key of the node. *)
Lemma skip_step a s nd s1 : h !! a = Some nd -> s1 = drop (length (nkey nd)) s -> skip_key (Some a) s t = Some (s1, t).
Proof.
  intros Ha ->. destruct (key_field a nd Ha) as (k & Hk & _ & Hl). unfold skip_key.
  rewrite (ebind_run _ _ _ _ _ (field_node m_pKey a nd Ha)), Hk. by rewrite <- Hl.
Qed.

Lemma lookup_walk d a s n s' o : Walk cs h d a s n s' o -> forall fuel, (d < fuel)%nat ->
  lookup_loop fuel (Some a) s t = Some (match o with Found => default 0 (value <$> h !! n) | _ => 0 end, t).
Proof.
  induction 1 as [a s nd Ha E|a s nd Ha M|a s nd s' Ha E Hs Es F|d a s nd s1 c n s' o Ha E Hs Es F W IH];
    intros [|fuel] Hf; try lia; cbn [lookup_loop].
  - rewrite (ebind_run _ _ _ _ _ (matchKey_found a s nd Ha E)), Ha. exact (field_node value a nd Ha).
  - by rewrite (ebind_run _ _ _ _ _ (matchKey_split a s nd Ha M)).
  - rewrite (ebind_run _ _ _ _ _ (matchKey_over a s nd s' Ha E Hs)).
    destruct (key_field a nd Ha) as (k & _ & Hk & Hl). rewrite (ebind_run _ _ _ _ _ Hk), Hl, <- Es.
    by rewrite (ebind_run _ _ _ _ _ (findChild_step a s' None Hs F)).
  - rewrite (ebind_run _ _ _ _ _ (matchKey_over a s nd s1 Ha E Hs)).
    destruct (key_field a nd Ha) as (k & _ & Hk & Hl). rewrite (ebind_run _ _ _ _ _ Hk), Hl, <- Es.
    rewrite (ebind_run _ _ _ _ _ (findChild_step a s1 (Some c) Hs F)). apply IH. lia.
Qed.

Lemma insert_walk d a s n s' o v : Walk cs h d a s n s' o -> forall fuel, (d < fuel)%nat ->
  insert_loop w fuel (Some a) s v t =
  match o with
  | Found => modify (with_value v) (Some n) t
  | Split => split_node w (Some n) s' v t
  | Missing => (c <- make_node s' v (Some n) ;; addChild (Some n) c ;; add_items w 1) t
  end.
Proof.
  induction 1 as [a s nd Ha E|a s nd Ha M|a s nd s' Ha E Hs Es F|d a s nd s1 c n s' o Ha E Hs Es F W IH];
    intros [|fuel] Hf; try lia; cbn [insert_loop].
  - by rewrite (ebind_run _ _ _ _ _ (matchKey_found a s nd Ha E)).
  - by rewrite (ebind_run _ _ _ _ _ (matchKey_split a s nd Ha M)).
  - rewrite (ebind_run _ _ _ _ _ (matchKey_over a s nd s' Ha E Hs)), (ebind_run _ _ _ _ _ (skip_step a s nd s' Ha Es)).
    by rewrite (ebind_run _ _ _ _ _ (findChild_step a s' None Hs F)).
  - rewrite (ebind_run _ _ _ _ _ (matchKey_over a s nd s1 Ha E Hs)), (ebind_run _ _ _ _ _ (skip_step a s nd s1 Ha Es)).
    rewrite (ebind_run _ _ _ _ _ (findChild_step a s1 (Some c) Hs F)). apply IH. lia.
Qed.

Lemma remove_walk d a s n s' o : Walk cs h d a s n s' o -> forall fuel, (d < fuel)%nat ->
  remove_loop w fuel (Some a) s t =
  match o with Found => remove_node w (fuel - d) (Some n) t | _ => Some (tt, t) end.
Proof.
  induction 1 as [a s nd Ha E|a s nd Ha M|a s nd s' Ha E Hs Es F|d a s nd s1 c n s' o Ha E Hs Es F W IH];
    intros [|fuel] Hf; try lia; cbn [remove_loop].
  - by rewrite (ebind_run _ _ _ _ _ (matchKey_found a s nd Ha E)).
  - by rewrite (ebind_run _ _ _ _ _ (matchKey_split a s nd Ha M)).
  - rewrite (ebind_run _ _ _ _ _ (matchKey_over a s nd s' Ha E Hs)), (ebind_run _ _ _ _ _ (skip_step a s nd s' Ha Es)).
    by rewrite (ebind_run _ _ _ _ _ (findChild_step a s' None Hs F)).
  - rewrite (ebind_run _ _ _ _ _ (matchKey_over a s nd s1 Ha E Hs)), (ebind_run _ _ _ _ _ (skip_step a s nd s1 Ha Es)).
    rewrite (ebind_run _ _ _ _ _ (findChild_step a s1 (Some c) Hs F)).
    replace (S fuel - S d)%nat with (fuel - d)%nat by lia. apply IH. lia.
Qed.

End Loops.

(** ** The dictionary of a tree *)

Definition Tree_ok (t : RadixTree) : Prop :=
  match m_pRoot t with
  | Some r => Inv (caseSensitive t) (nodes t) r
  | None => nodes t = ∅
  end.

(** The steps that are enough for a key: two more than it has characters. *)
Definition enough (key : list Z) : nat := length key + 2.

(** The value of a key, null when it has none. *)
Definition value_at (t : RadixTree) (key : list Z) : Z :=
  match lookup (enough key) key t with Some (v, _) => v | None => 0 end.

Lemma lookup_root t r fuel key d n s' o : m_pRoot t = Some r -> Inv (caseSensitive t) (nodes t) r ->
  Walk (caseSensitive t) (nodes t) d r key n s' o -> (d < fuel)%nat ->
  lookup fuel key t = Some (match o with Found => default 0 (value <$> nodes t !! n) | _ => 0 end, t).
Proof.
  intros Hr I W Hd. unfold lookup. rewrite (ebind_run _ _ t (Some r) t) by (unfold egets; by rewrite Hr).
  exact (lookup_walk _ _ r I t eq_refl d r key n s' o W fuel Hd).
Qed.

Lemma lookup_value t fuel key : Tree_ok t -> cstr key -> (enough key <= fuel)%nat ->
  lookup fuel key t = Some (value_at t key, t).
Proof.
  intros Hok Hs Hf. unfold Tree_ok in Hok. unfold value_at, enough in *.
  destruct (m_pRoot t) as [r|] eqn:Hr.
  - destruct (find _ _ r Hok key Hs) as (d & n & s' & o & W & Hd & _).
    rewrite (lookup_root t r fuel key d n s' o Hr Hok W) by lia.
    by rewrite (lookup_root t r _ key d n s' o Hr Hok W) by lia.
  - unfold lookup, ebind, egets. by rewrite Hr.
Qed.

(** The value is the one of the node of the key. *)
Lemma value_node t r key a nd : m_pRoot t = Some r -> Inv (caseSensitive t) (nodes t) r -> cstr key ->
  path (nodes t) r (norm (caseSensitive t) key) a -> nodes t !! a = Some nd -> value_at t key = value nd.
Proof.
  intros Hr I Hs Hp Ha. unfold value_at, enough.
  destruct (find _ _ r I key Hs) as (d & n & s' & o & W & Hd & _ & Hf).
  rewrite (lookup_root t r _ key d n s' o Hr I W) by lia. destruct o; [|by destruct (Hf a)..].
  rewrite (path_inj _ _ _ I _ _ _ Hf Hp), Ha. done.
Qed.

Lemma value_none t r key : m_pRoot t = Some r -> Inv (caseSensitive t) (nodes t) r -> cstr key ->
  (forall a, ~ path (nodes t) r (norm (caseSensitive t) key) a) -> value_at t key = 0.
Proof.
  intros Hr I Hs Hp. unfold value_at, enough.
  destruct (find _ _ r I key Hs) as (d & n & s' & o & W & Hd & _ & Hf).
  rewrite (lookup_root t r _ key d n s' o Hr I W) by lia. destruct o; [by destruct (Hp n)|done..].
Qed.

(** A key whose node keeps its value, or comes or goes with the null value. *)
Lemma value_same t t' r key :
  m_pRoot t = Some r -> m_pRoot t' = Some r -> caseSensitive t' = caseSensitive t ->
  Inv (caseSensitive t) (nodes t) r -> Inv (caseSensitive t) (nodes t') r -> cstr key ->
  let q := norm (caseSensitive t) key in
  (forall a nd, path (nodes t) r q a -> nodes t !! a = Some nd ->
     (exists nd', path (nodes t') r q a /\ nodes t' !! a = Some nd' /\ value nd' = value nd) \/
     value nd = 0 /\ forall b, ~ path (nodes t') r q b) ->
  (forall b nd', (forall a, ~ path (nodes t) r q a) -> path (nodes t') r q b -> nodes t' !! b = Some nd' -> value nd' = 0) ->
  value_at t' key = value_at t key.
Proof.
  intros Hr Hr' Hc I I' Hs q H1 H2.
  assert (I2 : Inv (caseSensitive t') (nodes t') r) by by rewrite Hc.
  destruct (find _ _ r I key Hs) as (_ & a & _ & o & _ & _ & _ & Hf).
  assert (Hcase : (exists a, path (nodes t) r q a) \/ forall a, ~ path (nodes t) r q a)
    by (destruct o; [left; by exists a | by right..]).
  destruct Hcase as [[b Hb]|Hno].
  - destruct (path_in _ _ _ I q b Hb) as [nd Hnd]. rewrite (value_node t r key b nd) by done.
    destruct (H1 b nd Hb Hnd) as [(nd' & Hp & Hnd' & <-)|[-> Hno]].
    + apply (value_node t' r key b); try done. by rewrite Hc.
    + apply (value_none t' r); try done. by rewrite Hc.
  - rewrite (value_none t r key) by done.
    destruct (find _ _ r I' key Hs) as (_ & b & _ & o' & _ & _ & _ & Hf').
    assert (Hcase' : (exists a, path (nodes t') r q a) \/ forall a, ~ path (nodes t') r q a)
      by (destruct o'; [left; by exists b | by right..]).
    destruct Hcase' as [[c Hc']|Hno'].
    + destruct (path_in _ _ _ I' q c Hc') as [nd Hnd].
      rewrite (value_node t' r key c nd); [by apply (H2 c) | done | done | done | by rewrite Hc | done].
    + apply (value_none t' r); try done. by rewrite Hc.
Qed.
