(* ===== verification/RadixInsert.v ===== *)
(** * Insertion into a radix tree

    [insert] in its three cases: the node of the key exists, a new leaf, and a
    node that is split. *)
From Stdlib Require Import ZArith Lia List Bool.
From stdpp Require Import base gmap list fin_maps.
From S2P Require Import Prelude Heap RadixTree RadixPath RadixHeap RadixMap.
Import ListNotations.
Local Open Scope Z_scope.
Local Open Scope err_scope.
#[local] Set Warnings "-clear-no-such-hyp".

(** The state with another heap. *)
Lemma put_nodes_twice h h' t : put_nodes h (put_nodes h' t) = put_nodes h t.
Proof. done. Qed.

Lemma modify_node g a t nd : nodes t !! a = Some nd ->
  modify g (Some a) t = Some (tt, put_nodes (<[a := g nd]> (nodes t)) t).
Proof. exact (modify_run (S := RadixTree) g a t nd). Qed.

Lemma fresh_node_run nd t : exists a, nodes t !! a = None /\
  new_node nd t = Some (Some a, put_nodes (<[a := nd]> (nodes t)) t).
Proof. exact (new_run (S := RadixTree) nd t). Qed.

Lemma get_field {A} (f : Node -> A) a t nd : nodes t !! a = Some nd -> field f (Some a) t = Some (f nd, t).
Proof. exact (field_run (S := RadixTree) f a t nd). Qed.

Lemma get_key a t nd k : nodes t !! a = Some nd -> m_pKey nd = Some k -> keyOf (Some a) t = Some (k, t).
Proof. intros Ha Hk. unfold keyOf. rewrite (ebind_run _ _ _ _ _ (get_field m_pKey a t nd Ha)). by rewrite Hk. Qed.

Lemma make_node_run key v p t : exists c, nodes t !! c = None /\
  make_node key v p t =
  Some (Some c, put_nodes (<[c := mkNode (Some key) v [] p (caseSensitive t)]> (nodes t)) t).
Proof.
  destruct (fresh_node_run (empty_node (caseSensitive t)) t) as (c & Hc & Hn). exists c. split; [done|].
  unfold make_node. rewrite (ebind_run _ _ t (caseSensitive t) t) by done. rewrite (ebind_run _ _ _ _ _ Hn).
  do 3 (erewrite ebind_run by (apply modify_node; apply lookup_insert_eq)).
  unfold eret. do 2 f_equal. cbn. by rewrite !insert_insert_eq.
Qed.

Lemma ensure_root_run t : Tree_ok t ->
  exists r t1, ensure_root t = Some (tt, t1) /\ m_pRoot t1 = Some r /\ caseSensitive t1 = caseSensitive t /\
    Inv (caseSensitive t) (nodes t1) r /\ m_nItems t1 = m_nItems t /\
    (m_pRoot t = Some r /\ t1 = t \/ m_pRoot t = None /\ forall k a, path (nodes t1) r k a -> k = []) /\
    forall key, cstr key -> value_at t1 key = value_at t key.
Proof.
  intros Hok. unfold Tree_ok in Hok. unfold ensure_root.
  destruct (m_pRoot t) as [r|] eqn:Hr.
  - exists r, t. rewrite (ebind_run _ _ t (Some r) t) by (unfold egets; by rewrite Hr).
    split_and!; try done. by left.
  - destruct (fresh_node_run (empty_node (caseSensitive t)) t) as (r & Hc & Hn).
    eexists r, _. split.
    { rewrite (ebind_run _ _ t (None : ptr) t) by (unfold egets; by rewrite Hr). cbn [nonnull negb ewhen].
      rewrite (ebind_run _ _ t (caseSensitive t) t) by done. rewrite (ebind_run _ _ _ _ _ Hn).
      erewrite ebind_run by done. apply modify_node, lookup_insert_eq. }
    cbn. rewrite insert_insert_eq, Hok.
    set (nd := with_key [] _).
    assert (Hl : forall a x, (<[r := nd]> (∅ : gmap loc Node)) !! a = Some x -> a = r /\ x = nd).
    { intros a x. rewrite lookup_insert_Some, lookup_empty. naive_solver. }
    assert (Hnil : forall c, c ∉ m_Children nd) by (intros c; apply not_elem_of_nil).
    assert (I : Inv (caseSensitive t) (<[r := nd]> ∅) r).
    { split.
      - exists nd. by rewrite lookup_insert_eq.
      - intros a x [-> ->]%Hl. split; [done|]. exists []. split; [done | constructor].
      - intros a x c [-> ->]%Hl Hin. by apply Hnil in Hin.
      - intros a x c d ndc ndd [-> ->]%Hl Hin. by apply Hnil in Hin.
      - intros a x [-> ->]%Hl. constructor.
      - intros a x [-> ->]%Hl. exists []. constructor. }
    assert (Hp : forall k a, path (<[r := nd]> (∅ : gmap loc Node)) r k a -> k = [] /\ a = r).
    { induction 1 as [|k p c ndp ndc _ _ [-> ->]%Hl Hin]; [done|]. by apply Hnil in Hin. }
    split_and!; try done; [right; split; [done|]; intros k a H; apply (Hp k a H)|].
    intros key Hs. transitivity 0; [|unfold value_at, lookup, ebind, egets; by rewrite Hr].
    match goal with |- value_at ?x key = _ => set (t1 := x) end.
    destruct key as [|c key].
    + rewrite (value_node t1 r [] r nd); try done; [|by apply lookup_insert_eq].
      destruct (caseSensitive t1); constructor.
    + apply (value_none t1 r); try done. intros a [Hk _]%Hp. by apply norm_nil in Hk.
Qed.

(** [stored t t' r key v]: in [t'] the key has the value [v] and all the others
    the one they have in [t]. *)
Definition stored (t t' : RadixTree) (r : loc) (key : list Z) (v : Z) : Prop :=
  m_pRoot t' = Some r /\ caseSensitive t' = caseSensitive t /\ Inv (caseSensitive t) (nodes t') r /\
  forall key', cstr key' -> value_at t' key' =
    if decide (norm (caseSensitive t) key' = norm (caseSensitive t) key) then v else value_at t key'.

Section Insert.
Context (w : Z) (t : RadixTree) (r : loc) (Hr : m_pRoot t = Some r) (I : Inv (caseSensitive t) (nodes t) r).
Abbreviation cs := (caseSensitive t).
Abbreviation h := (nodes t).

(** How the values change, from the nodes: the one of the key has the new
    value, the other old ones keep theirs, other new ones have the null value. *)
Lemma stored_intro t' key v n nd' :
  m_pRoot t' = Some r -> caseSensitive t' = cs -> Inv cs (nodes t') r ->
  path (nodes t') r (norm cs key) n -> nodes t' !! n = Some nd' -> value nd' = v ->
  (forall k a nd, path h r k a -> h !! a = Some nd -> k <> norm cs key ->
     (exists nd', path (nodes t') r k a /\ nodes t' !! a = Some nd' /\ value nd' = value nd) \/
     value nd = 0 /\ forall b, ~ path (nodes t') r k b) ->
  (forall k a nd', (forall b, ~ path h r k b) -> path (nodes t') r k a -> k <> norm cs key ->
     nodes t' !! a = Some nd' -> value nd' = 0) ->
  stored t t' r key v.
Proof.
  intros Hr' Hc I' Hp Hn Hv Hold Hnew. split_and!; try done. intros key' Hs. case_decide as E.
  - rewrite <- Hv. apply (value_node t' r key' n); rewrite ?Hc; try done. by rewrite E.
  - apply (value_same t t' r); try done; intros; eauto.
Qed.

Lemma insert_found key v n nd : h !! n = Some nd -> path h r (norm cs key) n ->
  exists t', modify (with_value v) (Some n) t = Some (tt, t') /\ stored t t' r key v /\ m_nItems t' = m_nItems t.
Proof.
  intros Hn Hp. rewrite (modify_node _ _ _ _ Hn). eexists. split; [done|]. split; [|done].
  set (h' := <[n := with_value v nd]> h).
  destruct (set_value_shape cs h r I h' n nd v Hn) as [I' P].
  - apply lookup_insert_eq.
  - intros a Ha. by apply lookup_insert_ne.
  - apply (stored_intro _ key v n (with_value v nd)); try done.
    + by apply P.
    + apply lookup_insert_eq.
    + intros k a x Hk Ha Hne. left. exists x. split; [by apply P|]. split; [|done]. cbn.
      unfold h'. rewrite lookup_insert_ne; [done|]. intros <-. apply Hne. by apply (path_unique _ _ _ I _ _ n).
    + intros k a x Hno Ha%P. by destruct (Hno a).
Qed.

Lemma insert_missing key s' v n : cstr s' -> Ends cs h r (norm cs key) n s' Missing ->
  (forall a, ~ path h r (norm cs key) a) ->
  exists t', (c <- make_node s' v (Some n) ;; addChild (Some n) c ;; add_items w 1) t = Some (tt, t') /\
    stored t t' r key v /\ m_nItems t' = wrap w (m_nItems t + 1).
Proof.
  intros Hs (_ & nd & pre & Hn & Hp & Eq & Hne & Hfc) Hno.
  destruct (make_node_run s' v (Some n) t) as (c & Hc & Hrun).
  set (ndc := mkNode (Some s') v [] (Some n) cs) in *.
  assert (Hnc : n <> c) by congruence.
  set (nd' := with_children (fun l => (l ++ [c])%list) nd).
  set (h' := <[n := nd']> (<[c := ndc]> h)).
  exists (put_items (wrap w (m_nItems t + 1)) (put_nodes h' t)). split.
  { rewrite (ebind_run _ _ _ _ _ Hrun). cbn [addChild]. erewrite ebind_run by
      (apply modify_node; cbn; rewrite lookup_insert_ne by done; exact Hn). done. }
  split; [|done]. destruct Hfc as (nd0 & Hn0 & Hfc). simplify_eq.
  assert (Hkey : nkey ndc = norm cs s') by done.
  destruct (add_leaf_shape cs h r I h' n nd nd' c ndc) as [I' P]; try done.
  - apply lookup_insert_eq.
  - unfold h'. rewrite lookup_insert_ne, lookup_insert_eq by done. done.
  - intros a H1 H2. unfold h'. by rewrite !lookup_insert_ne by done.
  - cbn. by rewrite Permutation_app_comm.
  - by exists s'.
  - rewrite Hkey. by rewrite norm_nil.
  - assert (Hh' : forall a, a <> c -> exists f, h' !! a = (fun x => with_children f x) <$> h !! a \/ h' !! a = h !! a).
    { intros a Hac. exists (fun l => (l ++ [c])%list). unfold h'. destruct (decide (n = a)) as [<-|].
      - left. by rewrite lookup_insert_eq, Hn.
      - right. by rewrite !lookup_insert_ne by done. }
    apply (stored_intro _ key v c ndc); try done.
    + apply P. right. split; [done|]. exists (pre ++ nkey nd)%list. split; [done|]. rewrite Hkey, Eq. by rewrite app_assoc.
    + cbn. unfold h'. rewrite lookup_insert_ne, lookup_insert_eq by done. done.
    + intros k a x Hk Ha Hne'. left. assert (Hac : a <> c) by congruence.
      destruct (Hh' a Hac) as [f [E|E]]; rewrite Ha in E; eexists; (split; [apply P; by left|]); by split.
    + intros k a x Hnok Ha Hne' Hx. cbn in Ha. apply P in Ha as [Ha|(-> & kn & Hkn & ->)]; [by destruct (Hnok a)|].
      destruct Hne'. rewrite Hkey, Eq, app_assoc. f_equal. by apply (path_unique _ _ _ I _ _ n).
Qed.

(** ** Splitting a node *)

Lemma common_spec b0 : forall c a b a' b',
  cstr a -> cstr b -> norm b0 a = (c ++ a')%list -> norm b0 b = (c ++ b')%list -> b' <> [] -> head a' <> head b' ->
  common b0 a b = Some (length c).
Proof.
  assert (H0 : forall y, 0 < y < 256 -> same_char b0 0 y = false /\ same_char b0 y 0 = false).
  { intros y Hy. pose proof (toLower_nonzero y Hy). unfold same_char.
    destruct b0; [|change (toLower 0) with 0]; split; lia. }
  induction c as [|z c IH]; intros a b a' b' Ha Hb Ea Eb Hne Hh; cbn in Ea, Eb.
  - destruct b as [|y b]; [subst b'; by destruct b0|]. inversion_clear Hb as [|? ? Hy _].
    destruct a as [|x a]; cbn; [by rewrite (proj1 (H0 y Hy))|].
    rewrite same_char_norm, bool_decide_false; [done|]. intros E. apply Hh. subst a' b'.
    rewrite (norm_cons b0 x), (norm_cons b0 y), E. by destruct b0.
  - destruct a as [|x a]; [by destruct b0|]. destruct b as [|y b]; [by destruct b0|]. cbn [common].
    inversion_clear Ha. inversion_clear Hb. rewrite (norm_cons b0 x) in Ea. rewrite (norm_cons b0 y) in Eb.
    assert (E : norm b0 [x] = [z] /\ norm b0 [y] = [z] /\ norm b0 a = (c ++ a')%list /\ norm b0 b = (c ++ b')%list)
      by (destruct b0; cbn in *; injection Ea as ? ?; injection Eb as ? ?; split_and!; congruence).
    destruct E as (E1 & E2 & E3 & E4).
    rewrite same_char_norm, E1, E2, bool_decide_true by done. by rewrite (IH a b a' b').
Qed.

(** The last steps of the split: the new node goes between. *)
Lemma split_tail t1 n m p N M : nodes t1 !! n = Some N -> nodes t1 !! m = Some M -> n <> m -> m_pParent N = Some p ->
  (parent' <- field m_pParent (Some n) ;; modify (with_parent parent') (Some m) ;;
   addChild (Some m) (Some n) ;; modify (with_parent (Some m)) (Some n) ;; add_items w 1) t1 =
  Some (tt, put_items (wrap w (m_nItems t1 + 1)) (put_nodes
    (<[n := with_parent (Some m) N]> (<[m := with_children (fun l => (l ++ [n])%list) (with_parent (Some p) M)]> (nodes t1))) t1)).
Proof.
  intros Hn Hm Hne Hp. rewrite (ebind_run _ _ _ _ _ (get_field m_pParent n t1 N Hn)), Hp.
  rewrite (ebind_run _ _ _ _ _ (modify_node _ _ _ _ Hm)). cbn [addChild].
  erewrite ebind_run by (apply modify_node, lookup_insert_eq).
  erewrite ebind_run by (apply modify_node; cbn; rewrite !lookup_insert_ne by done; exact Hn).
  unfold add_items, ebind, egets, emodify. cbn. by rewrite insert_insert_eq.
Qed.

(** The heap after a split: [m] between [p] and [n]. *)
Definition split_low (m : loc) (i : nat) (k : list Z) (nd : Node) : Node := with_parent (Some m) (with_key (drop i k) nd).
Definition split_mid (p n : loc) (i : nat) (s' : list Z) (u : Z) : Node := mkNode (Some (take i s')) u [n] (Some p) cs.
Definition split_top (n m : loc) (ndp : Node) : Node := with_children (replace_in n m) ndp.
Definition split_heap (p n m : loc) (ndp nd : Node) (i : nat) (k s' : list Z) (u : Z) : gmap loc Node :=
  <[n := split_low m i k nd]> (<[m := split_mid p n i s' u]> (<[p := split_top n m ndp]> h)).

Lemma replace_in_spec n m l : n ∈ l -> m ∉ l -> NoDup l ->
  NoDup (replace_in n m l) /\ forall d, d ∈ replace_in n m l <-> d ∈ l /\ d <> n \/ d = m.
Proof.
  intros Hn Hm Hnd. unfold replace_in. split.
  - induction l as [|a l IH]; [constructor|]. apply NoDup_cons in Hnd as [Ha Hnd].
    rewrite not_elem_of_cons in Hm. destruct Hm as [Hma Hm].
    assert (Hid : forall l', n ∉ l' -> map (fun c => if bool_decide (c = n) then m else c) l' = l').
    { induction l' as [|b l' IHl]; intros Hb; [done|]. rewrite not_elem_of_cons in Hb. cbn.
      rewrite bool_decide_false by naive_solver. f_equal. naive_solver. }
    cbn. case_bool_decide as E.
    + subst a. rewrite Hid by done. by constructor.
    + apply elem_of_cons in Hn as [->|Hn]; [done|]. constructor; [|by apply IH].
      intros Hin. apply list_elem_of_In, in_map_iff in Hin as (x & Hx & Hin). apply list_elem_of_In in Hin.
      case_bool_decide; [by subst|]. by subst.
  - intros d. rewrite list_elem_of_In, in_map_iff. split.
    + intros (x & Hx & Hin%list_elem_of_In). case_bool_decide; [by right|]. left. by subst.
    + intros [[Hd Hne]| ->].
      * exists d. rewrite bool_decide_false by done. by rewrite <- list_elem_of_In.
      * exists n. rewrite bool_decide_true by done. by rewrite <- list_elem_of_In.
Qed.

Lemma split_between p n m ndp nd i k s' u c b' :
  h !! p = Some ndp -> h !! n = Some nd -> h !! m = None -> m_pParent nd = Some p -> n ∈ m_Children ndp ->
  n <> r -> m_pKey nd = Some k -> cstr s' -> i = length c ->
  norm cs (take i s') = c -> norm cs k = (c ++ b')%list -> c <> [] -> b' <> [] ->
  Between cs h (split_heap p n m ndp nd i k s' u) r p n m ndp nd
    (split_top n m ndp) (split_mid p n i s' u) (split_low m i k nd).
Proof.
  intros Hp Hn Hm Hpar Hin Hnr Hk Hs Hi Hc Ek Hcne Hbne.
  assert (Hpm : p <> m) by congruence. assert (Hnm : n <> m) by congruence.
  assert (Hpn : p <> n) by (intros ->; by destruct (not_own_child cs h r I n ndp)).
  destruct (nkey_norm cs h r I n nd Hn) as (k0 & Hk0 & Hnk & Hck & Hcs). rewrite Hk in Hk0. injection Hk0 as <-.
  assert (Hmin : m ∉ m_Children ndp).
  { intros H. destruct (inv_child _ _ _ I p ndp m Hp H) as (? & ? & _). congruence. }
  assert (Hlow : nkey (split_low m i k nd) = b').
  { unfold nkey. cbn. rewrite Hcs, norm_drop, Ek, Hi. apply drop_app_length. }
  destruct (replace_in_spec n m (m_Children ndp) Hin Hmin (inv_nodup _ _ _ I p ndp Hp)) as [Hnd Hch].
  destruct (inv_root _ _ _ I) as (rt & Hrt & _).
  split; try done; unfold split_heap.
  - by rewrite !lookup_insert_ne, lookup_insert_eq by done.
  - by rewrite lookup_insert_ne, lookup_insert_eq by done.
  - apply lookup_insert_eq.
  - intros a H1 H2 H3. by rewrite !lookup_insert_ne by done.
  - rewrite Hlow, Hnk, Ek. f_equal. by rewrite <- Hc.
  - split; [by apply (inv_nodup _ _ _ I p) | done].
  - split; [congruence | done].
  - split_and!; [exists (take i s') | exists (drop i k) | by exists k]; split; try done; [by apply Forall_take | by apply Forall_drop].
  - rewrite Hlow. split; [|done]. unfold nkey. cbn. by rewrite Hc.
Qed.

(** The values after a split with the value [u] at [m], and after one leaf more. *)
Lemma split_values p n m ndp nd i k s' u (ht : gmap loc Node) :
  h !! p = Some ndp -> h !! n = Some nd -> h !! m = None -> p <> n ->
  (forall a x, split_heap p n m ndp nd i k s' u !! a = Some x -> a <> m -> exists x', ht !! a = Some x' /\ value x' = value x) ->
  forall a x, h !! a = Some x -> exists x', ht !! a = Some x' /\ value x' = value x.
Proof.
  intros Hp Hn Hm Hpn Hht a x Ha. assert (Ham : a <> m) by congruence.
  destruct (decide (a = n)) as [->|Han].
  - simplify_eq. apply (Hht n (split_low m i k nd)); [|done]. apply lookup_insert_eq.
  - destruct (decide (a = p)) as [->|Hap].
    + simplify_eq. apply (Hht p (split_top n m ndp)); [|done]. unfold split_heap.
      by rewrite !lookup_insert_ne, lookup_insert_eq by done.
    + apply Hht; [|done]. unfold split_heap. by rewrite !lookup_insert_ne by done.
Qed.

Lemma nth_zero s i : cstr s -> (nth i s 0 =? 0) = bool_decide (drop i s = []).
Proof.
  intros Hs. revert i. induction Hs as [|x s Hx Hs IH]; intros [|i]; cbn [nth drop]; try done.
  rewrite bool_decide_false by done. lia.
Qed.

(** What is known where a key leaves the tree within the piece [k] of the node [n]:
    [c] is common, and goes on with [a'] in the key and with [b'] in the node. *)
Record Cut (key s' : list Z) (p n : loc) (ndp nd : Node) (k c a' b' pre : list Z) : Prop := {
  cut_p : h !! p = Some ndp;
  cut_n : h !! n = Some nd;
  cut_parent : m_pParent nd = Some p;
  cut_in : n ∈ m_Children ndp;
  cut_root : n <> r;
  cut_pn : p <> n;
  cut_key : m_pKey nd = Some k;
  cut_path : path h r pre p;
  cut_cstr : cstr s';
  cut_query : norm cs key = (pre ++ norm cs s')%list;
  cut_common : common cs s' k = Some (length c);
  cut_take : norm cs (take (length c) s') = c;
  cut_drop : norm cs (drop (length c) s') = a';
  cut_node : norm cs k = (c ++ b')%list;
  cut_c : c <> [];
  cut_b : b' <> [];
  cut_head : head a' <> head b';
  cut_low : forall m, nkey (split_low m (length c) k nd) = b'
}.

Lemma cut_of_ends key s' n : Ends cs h r (norm cs key) n s' Split ->
  exists p ndp nd k c a' b' pre, Cut key s' p n ndp nd k c a' b' pre.
Proof.
  intros (Hs & nd & pre & Hn & Hpath & Eq & Hnr & c & a' & b' & Es & Ek & Hcne & Hbne & Hh).
  destruct (path_parent cs h r I _ n nd Hpath Hn Hnr) as (p & ndp & kp & Hpar & Hp & Hin & Hkp & Ekp & _).
  apply app_inv_tail in Ekp. subst kp.
  destruct (nkey_norm cs h r I n nd Hn) as (k & Hk & Hnk & Hck & Hcs). rewrite Hnk in Ek.
  exists p, ndp, nd, k, c, a', b', pre. split; try done.
  - intros ->. by destruct (not_own_child cs h r I n ndp).
  - by apply (common_spec cs c s' k a' b').
  - rewrite norm_take, Es. apply take_app_length.
  - rewrite norm_drop, Es. apply drop_app_length.
  - intros m. unfold nkey. cbn. rewrite Hcs, norm_drop, Ek. apply drop_app_length.
Qed.

Section Cut.
Context (key s' : list Z) (p n : loc) (ndp nd : Node) (k c a' b' pre : list Z).
Context (C : Cut key s' p n ndp nd k c a' b' pre) (m : loc) (Hm : h !! m = None).
Abbreviation hs := (split_heap p n m ndp nd (length c) k s').

Lemma cut_ne : p <> m /\ n <> m /\ n <> p /\ m <> n /\ m <> p.
Proof. pose proof (cut_p _ _ _ _ _ _ _ _ _ _ _ C). pose proof (cut_n _ _ _ _ _ _ _ _ _ _ _ C).
  pose proof (cut_pn _ _ _ _ _ _ _ _ _ _ _ C). split_and!; congruence. Qed.

Lemma cut_between u : Between cs h (hs u) r p n m ndp nd (split_top n m ndp)
  (split_mid p n (length c) s' u) (split_low m (length c) k nd).
Proof. destruct C. by apply (split_between p n m ndp nd (length c) k s' u c b'). Qed.

Lemma cut_inv u : Inv cs (hs u) r.
Proof. eapply split_inv; [apply (cut_between u) | by eapply detached_before; [apply (cut_between u)|] | done]. Qed.

Lemma cut_path' u k' a : path (hs u) r k' a <-> path h r k' a \/ a = m /\ k' = (pre ++ c)%list.
Proof.
  rewrite (bt_path _ _ _ _ _ _ _ _ _ _ _ _ (cut_between u) (detached_before _ _ _ _ _ _ _ _ _ _ _ _ (cut_between u) I)).
  assert (E : nkey (split_mid p n (length c) s' u) = c) by apply C. rewrite E.
  split; (intros [H|H]; [by left | right]).
  - destruct H as (-> & kp & Hkp & ->). split; [done|]. f_equal. eapply (path_unique cs h r I); [done | apply C].
  - destruct H as [-> ->]. split; [done|]. exists pre. split; [apply C | done].
Qed.

Lemma cut_mid u : hs u !! m = Some (split_mid p n (length c) s' u).
Proof. destruct cut_ne as (?&?&?&?&?). unfold split_heap. by rewrite lookup_insert_ne, lookup_insert_eq by done. Qed.

Lemma cut_old u a x : h !! a = Some x -> exists x', hs u !! a = Some x' /\ value x' = value x.
Proof.
  apply (split_values p n m ndp nd (length c) k s' u); try apply C; [done|].
  intros b y Hy _. by exists y.
Qed.

(** The key ends with the common part: the new node is its node. *)
Lemma cut_stored_mid t' v : a' = [] -> m_pRoot t' = Some r -> caseSensitive t' = cs -> nodes t' = hs v ->
  stored t t' r key v.
Proof.
  intros Ea Hr' Hc Ht'. pose proof (cut_inv v) as I'.
  assert (Es : norm cs key = (pre ++ c)%list).
  { destruct C. rewrite cut_query0. f_equal. rewrite <- (take_drop (length c) s'), norm_app, cut_take0, cut_drop0, Ea.
    apply app_nil_r. }
  apply (stored_intro t' key v m (split_mid p n (length c) s' v)); rewrite ?Ht'; try done.
  - apply cut_path'. by right.
  - apply cut_mid.
  - intros k1 a x Hk1 Ha _. left. destruct (cut_old v a x Ha) as (x' & Hx' & Ev). exists x'.
    split; [apply cut_path'; by left | done].
  - intros k1 a x Hno1 Ha Hne _. apply cut_path' in Ha as [Ha|[-> ->]]; [by destruct (Hno1 a) | by destruct Hne].
Qed.

(** The key goes on: it gets a leaf [l] below the new node. *)
Lemma cut_stored_leaf t' v l M L : h !! l = None -> l <> m -> a' <> [] ->
  m_pRoot t' = Some r -> caseSensitive t' = cs ->
  nodes t' !! m = Some M -> nodes t' !! l = Some L -> (forall a, a <> m -> a <> l -> nodes t' !! a = hs 0 !! a) ->
  M = with_children (fun _ => [l; n]) (split_mid p n (length c) s' 0) ->
  L = mkNode (Some (drop (length c) s')) v [] (Some m) cs ->
  stored t t' r key v.
Proof.
  intros Hl Hlm Ha Hr' Hc HM HL Ho -> EL. destruct cut_ne as (Hpm & Hnm & Hnp & Hmn & Hmp).
  assert (Hln : l <> n) by (intros ->; by rewrite (cut_n _ _ _ _ _ _ _ _ _ _ _ C) in Hl).
  assert (Hlp : l <> p) by (intros ->; by rewrite (cut_p _ _ _ _ _ _ _ _ _ _ _ C) in Hl).
  assert (EkL : nkey L = a') by (rewrite EL; apply C).
  assert (Es : norm cs key = ((pre ++ c) ++ a')%list).
  { destruct C. rewrite cut_query0, <- app_assoc. f_equal. by rewrite <- (take_drop (length c) s') at 1; rewrite norm_app, cut_take0, cut_drop0. }
  assert (Hl0 : hs 0 !! l = None).
  { unfold split_heap. by rewrite !lookup_insert_ne by congruence. }
  destruct (add_leaf_shape cs (hs 0) r (cut_inv 0) (nodes t') m _ _ l L (cut_mid 0) Hl0 HM HL Ho) as [I' P]; try done.
  - by rewrite EL.
  - rewrite EL. exists (drop (length c) s'). split; [done|]. apply Forall_drop, C.
  - by rewrite EkL.
  - by rewrite EL.
  - by rewrite EL.
  - intros d ndd [->|Hd]%elem_of_cons Hndd; [|by apply not_elem_of_nil in Hd].
    unfold split_heap in Hndd. rewrite lookup_insert_eq in Hndd. injection Hndd as <-.
    rewrite EkL, (cut_low _ _ _ _ _ _ _ _ _ _ _ C). apply C.
  - apply (stored_intro t' key v l L); try done.
    + apply P. right. split; [done|]. exists (pre ++ c)%list. rewrite EkL, Es. split; [apply cut_path'; by right | done].
    + by rewrite EL.
    + intros k1 a x Hk1 Hx _. left. destruct (cut_old 0 a x Hx) as (x' & Hx' & Ev). exists x'.
      split; [apply P; left; apply cut_path'; by left|]. split; [|done]. by rewrite Ho by congruence.
    + intros k1 a x Hno1 Hp1 Hne Hx. apply P in Hp1 as [Hp1|(-> & kn & Hkn & ->)].
      * apply cut_path' in Hp1 as [Hp1|[-> ->]]; [by destruct (Hno1 a)|]. rewrite HM in Hx. by injection Hx as <-.
      * destruct Hne. rewrite EkL, Es. f_equal. apply cut_path' in Hkn as [Hkn|[_ ->]]; [|done].
        apply (path_in cs h r I) in Hkn as [? Hkn]. congruence.
Qed.

End Cut.

(** The steps of [split_node] up to the choice of the value. *)
Lemma split_start key s' v p n ndp nd k c a' b' pre : Cut key s' p n ndp nd k c a' b' pre ->
  exists m, h !! m = None /\
    split_node w (Some n) s' v t =
    ((if negb (nth (length c) s' 0 =? 0)
      then pChild <- make_node (drop (length c) s') v (Some m) ;; addChild (Some m) pChild
      else modify (with_value v) (Some m)) ;;
     parent' <- field m_pParent (Some n) ;; modify (with_parent parent') (Some m) ;;
     addChild (Some m) (Some n) ;; modify (with_parent (Some m)) (Some n) ;; add_items w 1)
    (put_nodes (<[n := with_key (drop (length c) k) nd]> (<[p := split_top n m ndp]>
       (<[m := with_key (take (length c) s') (empty_node cs)]> h))) t).
Proof.
  intros C. destruct (fresh_node_run (empty_node cs) t) as (m & Hm & Hnew). exists m. split; [done|].
  destruct (cut_ne _ _ _ _ _ _ _ _ _ _ _ C m Hm) as (Hpm & Hnm & Hnp & Hmn & Hmp). destruct C.
  unfold split_node. rewrite (ebind_run _ _ t cs t) by done. rewrite (ebind_run _ _ _ _ _ (get_key n t nd k cut_n0 cut_key0)).
  rewrite (ebind_run _ _ t (length c) t) by (unfold elift; by rewrite cut_common0). rewrite (ebind_run _ _ _ _ _ Hnew).
  erewrite ebind_run by (apply modify_node, lookup_insert_eq).
  erewrite ebind_run by (apply get_field; cbn; rewrite !lookup_insert_ne by done; exact cut_n0). rewrite cut_parent0.
  erewrite (ebind_run (elift (Some n))) by done. erewrite (ebind_run (elift (Some m))) by done.
  erewrite ebind_run by (apply modify_node; cbn; rewrite !lookup_insert_ne by done; exact cut_p0).
  erewrite ebind_run by (apply modify_node; cbn; rewrite !lookup_insert_ne by done; exact cut_n0).
  cbn [put_nodes nodes]. by rewrite insert_insert_eq.
Qed.

Lemma insert_split key s' v n : Ends cs h r (norm cs key) n s' Split ->
  (forall a, ~ path h r (norm cs key) a) ->
  exists t', split_node w (Some n) s' v t = Some (tt, t') /\
    stored t t' r key v /\ m_nItems t' = wrap w (m_nItems t + 1).
Proof.
  intros (p & ndp & nd & k & c & a' & b' & pre & C)%cut_of_ends Hno.
  destruct (split_start key s' v p n ndp nd k c a' b' pre C) as (m & Hm & ->).
  destruct (cut_ne _ _ _ _ _ _ _ _ _ _ _ C m Hm) as (Hpm & Hnm & Hnp & Hmn & Hmp).
  set (N := with_key (drop (length c) k) nd). set (M0 := with_key (take (length c) s') (empty_node cs)).
  set (t1 := put_nodes _ t).
  assert (Ht1n : nodes t1 !! n = Some N) by apply lookup_insert_eq.
  assert (Ht1m : nodes t1 !! m = Some M0) by (cbn; by rewrite !lookup_insert_ne, lookup_insert_eq by done).
  assert (HpN : m_pParent N = Some p) by apply C.
  rewrite (nth_zero s' (length c)) by apply C. pose proof (cut_drop _ _ _ _ _ _ _ _ _ _ _ C) as Hd.
  case_bool_decide as E; cbn [negb].
  - rewrite (ebind_run _ _ _ _ _ (modify_node _ _ _ _ Ht1m)).
    rewrite (split_tail _ n m p N (with_value v M0)); try done;
      [|cbn; by rewrite !lookup_insert_ne, lookup_insert_eq by done | apply lookup_insert_eq].
    eexists. split; [reflexivity|]. split; [|done].
    eapply (cut_stored_mid _ _ _ _ _ _ _ _ _ _ _ C m Hm); try done; [rewrite <- Hd, E; by destruct cs|].
    cbn. unfold split_heap. heap_eq.
  - destruct (make_node_run (drop (length c) s') v (Some m) t1) as (l & Hl & Hrun).
    assert (Hlm : l <> m) by congruence. assert (Hln : l <> n) by congruence.
    assert (Hlp : l <> p).
    { intros ->. cbn in Hl. by rewrite lookup_insert_ne, lookup_insert_eq in Hl by done. }
    rewrite ebind_assoc, (ebind_run _ _ _ _ _ Hrun). cbn [addChild].
    erewrite ebind_run by (apply modify_node; cbn; rewrite !lookup_insert_ne, lookup_insert_eq by done; done).
    erewrite (split_tail _ n m p N); try done;
      [|cbn; by rewrite !lookup_insert_ne, lookup_insert_eq by done | apply lookup_insert_eq].
    eexists. split; [reflexivity|]. split; [|done].
    eapply (cut_stored_leaf _ _ _ _ _ _ _ _ _ _ _ C m Hm _ v l); try done.
    + cbn in Hl. by rewrite !lookup_insert_ne in Hl by done.
    + intros E'. apply E, (norm_nil cs). by rewrite Hd.
    + cbn. by rewrite lookup_insert_ne, lookup_insert_eq by done.
    + cbn. by rewrite !lookup_insert_ne, lookup_insert_eq by done.
    + intros a Ham Hal. cbn. unfold split_heap. revert a Ham Hal. heap_at.
Qed.

End Insert.

(** The key leads to a node, of an entry or an intermediate one. *)
Definition has_node (t : RadixTree) (key : list Z) : Prop :=
  exists r a, m_pRoot t = Some r /\ path (nodes t) r (norm (caseSensitive t) key) a.

Definition same_key (t : RadixTree) (k1 k2 : list Z) : bool :=
  bool_decide (norm (caseSensitive t) k1 = norm (caseSensitive t) k2).

Lemma insert_stored w t r key v fuel : m_pRoot t = Some r -> Inv (caseSensitive t) (nodes t) r -> cstr key ->
  (enough key <= fuel)%nat ->
  exists t', insert_loop w fuel (Some r) key v t = Some (tt, t') /\ stored t t' r key v /\
    ((exists a, path (nodes t) r (norm (caseSensitive t) key) a) /\ m_nItems t' = m_nItems t \/
     (forall a, ~ path (nodes t) r (norm (caseSensitive t) key) a) /\ m_nItems t' = wrap w (m_nItems t + 1)).
Proof.
  intros Hr I Hs Hf. unfold enough in Hf.
  destruct (find _ _ r I key Hs) as (d & n & s' & o & W & Hd & He & Hp).
  rewrite (insert_walk w _ _ r I t eq_refl d r key n s' o v W fuel) by lia. destruct o.
  - destruct (path_in _ _ _ I _ _ Hp) as [nd Hn].
    destruct (insert_found t r Hr I key v n nd Hn Hp) as (t' & H1 & H2 & H3). exists t'. split_and!; try done.
    left. split; [by exists n | done].
  - destruct (insert_split w t r Hr I key s' v n He Hp) as (t' & H1 & H2 & H3). exists t'. split_and!; try done.
    by right.
  - pose proof He as [Hs' _].
    destruct (insert_missing w t r Hr I key s' v n Hs' He Hp) as (t' & H1 & H2 & H3). exists t'. split_and!; try done.
    by right.
Qed.

(** C28. [insert] stores the value under the key and changes no other one: in a
    well-formed tree, for every key without terminator in it and enough steps (two
    more than it has characters), [insert] ends without a fault, the tree stays well formed,
    and from then on [lookup] finds the new value for the key (in a tree without
    case sensitivity for every spelling of it) and for any other key what it
    found before.  The count goes up exactly when the key has had no node. *)
Theorem radix_insert_correct w t key v fuel :
  Tree_ok t -> cstr key -> (enough key <= fuel)%nat ->
  exists t', insert w fuel key v t = Some (tt, t') /\ Tree_ok t' /\ caseSensitive t' = caseSensitive t /\
    (forall key' fuel', cstr key' -> (enough key' <= fuel')%nat ->
       lookup fuel' key' t' = Some (if same_key t key' key then v else value_at t key', t') /\
       lookup fuel' key' t = Some (value_at t key', t)) /\
    (has_node t key \/ key = [] -> m_nItems t' = m_nItems t) /\
    (~ has_node t key -> key <> [] -> m_nItems t' = wrap w (m_nItems t + 1)).
Proof.
  intros Hok Hs Hf. destruct (ensure_root_run t Hok) as (r & t1 & Hrun & Hr & Hc & I & Hn & Hroot & Hv).
  rewrite <- Hc in I. destruct (insert_stored w t1 r key v fuel Hr I Hs Hf) as (t' & H1 & (Hr' & Hc' & I' & Hv') & Hcnt).
  exists t'. unfold insert. rewrite (ebind_run _ _ _ _ _ Hrun), (ebind_run _ _ t1 (Some r) t1) by (unfold egets; by rewrite Hr).
  assert (Hok' : Tree_ok t') by (unfold Tree_ok; by rewrite Hr', Hc').
  split_and!; [done.. | by rewrite Hc' | | | ].
  - intros key' fuel' Hs' Hf'. split; [|by apply lookup_value]. rewrite (lookup_value t' fuel') by done.
    rewrite (Hv' key' Hs'), Hc, (Hv key' Hs'). unfold same_key. by case_bool_decide; case_decide.
  - intros Hk. destruct Hcnt as [[_ ->]|[Hno _]]; [done|]. exfalso.
    destruct Hroot as [[Hr0 ->]|[Hr0 Hnil]].
    + destruct Hk as [(r0 & a & Hr1 & Hp)| ->]; [by simplify_eq; destruct (Hno a)|].
      apply (Hno r). destruct (caseSensitive t); constructor.
    + destruct Hk as [(r0 & a & Hr1 & Hp)| ->]; [congruence|].
      apply (Hno r). destruct (caseSensitive t1); constructor.
  - intros Hno Hne. destruct Hcnt as [[[a Ha] _]|[_ ->]]; [|by rewrite Hn]. exfalso.
    destruct Hroot as [[Hr0 ->]|[Hr0 Hnil]].
    + apply Hno. by exists r, a.
    + apply Hnil in Ha. by apply norm_nil in Ha.
Qed.

Lemma radix_insert_correct_witness :
  (exists t', insert 64 4 [97; 98] 7 (new_tree false) = Some (tt, t') /\ m_nItems t' = 1 /\
     lookup 4 [65; 98] t' = Some (7, t')) /\ Tree_ok (new_tree false).
Proof.
  assert (Hok : Tree_ok (new_tree false)) by done. split; [|done].
  assert (Hs : cstr [97; 98] /\ cstr [65; 98]) by (split; repeat constructor).
  destruct (radix_insert_correct 64 (new_tree false) [97; 98] 7 4 Hok (proj1 Hs) ltac:(cbn; lia))
    as (t' & H & _ & _ & Hl & _ & Hn).
  exists t'. split; [done|]. split.
  - rewrite Hn; [done | | done]. by intros (r & a & Hr & _).
  - by destruct (Hl [65; 98] 4%nat (proj2 Hs) ltac:(cbn; lia)) as [-> _].
Defined.
