(* ===== verification/RadixRemove.v ===== *)
(** * Removal from a radix tree

    [remove] takes the value away, then the node if it is a leaf, and optimises
    the branch it was on. *)
From Stdlib Require Import ZArith Lia List Bool.
From stdpp Require Import base gmap list fin_maps.
From S2P Require Import Prelude Heap RadixTree RadixPath RadixHeap RadixMap RadixInsert.
Import ListNotations.
Local Open Scope Z_scope.
Local Open Scope err_scope.
#[local] Set Warnings "-clear-no-such-hyp".

Lemma remove_in_spec n l : NoDup l ->
  NoDup (remove_in n l) /\ forall d, d ∈ remove_in n l <-> d ∈ l /\ d <> n.
Proof.
  induction l as [|a l IH]; intros Hnd; cbn.
  - split; [constructor|]. intros d. split; [by intros ?%not_elem_of_nil | by intros [?%not_elem_of_nil _]].
  - apply NoDup_cons in Hnd as [Ha Hnd]. destruct (IH Hnd) as [IH1 IH2].
    case_bool_decide as E.
    + split; [done|]. intros d. rewrite IH2, elem_of_cons. subst. naive_solver.
    + split.
      * constructor; [|done]. rewrite IH2. by intros [? _].
      * intros d. rewrite !elem_of_cons, IH2. naive_solver.
Qed.

(** A heap with the same values for all the keys. *)
Definition Same (t t' : RadixTree) (r : loc) : Prop :=
  m_pRoot t' = Some r /\ caseSensitive t' = caseSensitive t /\ Inv (caseSensitive t) (nodes t') r /\
  m_nItems t' = m_nItems t /\ forall key, cstr key -> value_at t' key = value_at t key.

Lemma Same_trans t1 t2 t3 r : Same t1 t2 r -> Same t2 t3 r -> Same t1 t3 r.
Proof.
  intros (R1 & C1 & I1 & N1 & V1) (R2 & C2 & I2 & N2 & V2). split_and!; [done | congruence | by rewrite <- C1 | congruence |].
  intros key Hs. by rewrite V2, V1.
Qed.

Section Remove.
Context (w : Z) (t : RadixTree) (r : loc) (Hr : m_pRoot t = Some r) (I : Inv (caseSensitive t) (nodes t) r).
Abbreviation cs := (caseSensitive t).
Abbreviation h := (nodes t).

(** The keys but that of one node with the null value are the same. *)
Lemma Same_intro t' n nd : m_pRoot t' = Some r -> caseSensitive t' = cs -> m_nItems t' = m_nItems t ->
  Inv cs (nodes t') r -> h !! n = Some nd -> value nd = 0 ->
  (forall k a, path (nodes t') r k a <-> path h r k a /\ a <> n) ->
  (forall a x, a <> n -> h !! a = Some x -> exists x', nodes t' !! a = Some x' /\ value x' = value x) ->
  Same t t' r.
Proof.
  intros Hr' Hc Hn' I' Hn Hv P Hval. split_and!; try done. intros key Hs. apply (value_same t t' r); try done.
  - intros a x Hp Ha. destruct (decide (a = n)) as [->|Hne].
    + right. simplify_eq. split; [done|]. intros b [Hb Hbn]%P. by apply Hbn, (path_inj cs h r I _ _ _ Hb Hp).
    + left. destruct (Hval a x Hne Ha) as (x' & Hx' & E). exists x'. split; [by apply P | done].
  - intros b x Hno [Hb _]%P. by destruct (Hno b).
Qed.

Lemma removeChild_run t' p nd n : nodes t' !! p = Some nd ->
  removeChild (Some p) n t' = Some (tt, put_nodes (<[p := with_children (remove_in n) nd]> (nodes t')) t').
Proof. apply modify_node. Qed.

Lemma delete_leaf_run t' n nd : nodes t' !! n = Some nd -> m_Children nd = [] ->
  delete_leaf (Some n) t' = Some (tt, put_nodes (delete n (nodes t')) t').
Proof.
  intros Hn Hc. unfold delete_leaf. cbn [delete_tree nonnull].
  rewrite (ebind_run _ _ _ _ _ (get_field m_Children n t' nd Hn)), Hc. cbn [fold_right].
  rewrite (ebind_run _ _ t' tt t') by done. exact (drop_run (S := RadixTree) n t' nd Hn).
Qed.

Lemma drop_leaf_run n nd : h !! n = Some nd -> n <> r -> m_Children nd = [] -> value nd = 0 ->
  exists p t', drop_leaf (Some n) t = Some (Some p, t') /\ Same t t' r /\
    exists k, path h r (k ++ nkey nd) n /\ path (nodes t') r k p /\ nkey nd <> [].
Proof.
  intros Hn Hnr Hnil Hv. destruct (inv_reach _ _ _ I n nd Hn) as [kn Hkn].
  destruct (path_parent cs h r I kn n nd Hkn Hn Hnr) as (p & ndp & k & Hpar & Hp & Hin & Hkp & Ek & Hne).
  assert (Hpn : p <> n) by (intros ->; by destruct (not_own_child cs h r I n ndp)).
  set (h' := delete n (<[p := with_children (remove_in n) ndp]> h)).
  exists p, (put_nodes h' t). split.
  { unfold drop_leaf. rewrite (ebind_run _ _ _ _ _ (get_field m_pParent n t nd Hn)), Hpar.
    rewrite (ebind_run _ _ t n t) by done. rewrite (ebind_run _ _ _ _ _ (removeChild_run t p ndp n Hp)).
    erewrite ebind_run by (apply (delete_leaf_run _ n nd); [cbn; by rewrite lookup_insert_ne by done | done]). done. }
  destruct (remove_in_spec n (m_Children ndp) (inv_nodup _ _ _ I p ndp Hp)) as [Hnd Hch].
  destruct (drop_leaf_shape cs h r h' n nd p ndp (with_children (remove_in n) ndp) I) as [I' P]; try done.
  - apply lookup_delete_eq.
  - unfold h'. by rewrite lookup_delete_ne, lookup_insert_eq by done.
  - intros a H1 H2. unfold h'. by rewrite lookup_delete_ne, lookup_insert_ne by done.
  - split.
    + apply (Same_intro _ n nd); try done. intros a x Ha Hx. cbn. unfold h'.
      rewrite lookup_delete_ne by done. destruct (decide (p = a)) as [<-|Hpa].
      * rewrite lookup_insert_eq. eexists. split; [done|]. by simplify_eq.
      * rewrite lookup_insert_ne by done. by exists x.
    + exists k. rewrite <- Ek. split_and!; try done. by apply P.
Qed.

(** The heap after the merge of [n] with its child [c]. *)
Definition merged_child (p : loc) (kn kc : list Z) (ndc : Node) : Node := with_parent (Some p) (with_key (kn ++ kc) ndc).
Definition merged_top (n c : loc) (ndp : Node) : Node :=
  with_children (fun l => (l ++ [c])%list) (with_children (remove_in n) ndp).
Definition merged_heap (p n c : loc) (ndp ndc : Node) (kn kc : list Z) : gmap loc Node :=
  delete n (<[p := merged_top n c ndp]> (<[c := merged_child p kn kc ndc]> h)).

(** What is known of the node [n], its parent [p] and its only child [c]. *)
Record Chain3 (p n c : loc) (ndp nd ndc : Node) (kn kc : list Z) : Prop := {
  c3_p : h !! p = Some ndp;
  c3_n : h !! n = Some nd;
  c3_c : h !! c = Some ndc;
  c3_ne : p <> n /\ c <> n /\ c <> p /\ n <> p;
  c3_root : r <> n /\ r <> c;
  c3_parents : m_pParent nd = Some p /\ m_pParent ndc = Some n;
  c3_in : n ∈ m_Children ndp;
  c3_out : c ∉ m_Children ndp;
  c3_only : m_Children nd = [c];
  c3_kn : m_pKey nd = Some kn /\ nkey nd = norm cs kn /\ cstr kn /\ m_bCaseSensitive nd = cs;
  c3_kc : m_pKey ndc = Some kc /\ nkey ndc = norm cs kc /\ cstr kc /\ m_bCaseSensitive ndc = cs;
  c3_nonempty : nkey nd <> [] /\ nkey ndc <> []
}.

Lemma chain3 n nd c : h !! n = Some nd -> n <> r -> m_Children nd = [c] ->
  exists p ndp ndc kn kc, Chain3 p n c ndp nd ndc kn kc.
Proof.
  intros Hn Hnr Hone. destruct (inv_reach _ _ _ I n nd Hn) as [kk Hkk].
  destruct (path_parent cs h r I kk n nd Hkk Hn Hnr) as (p & ndp & k & Hpar & Hp & Hin & Hkp & Ek & Hne).
  assert (Hcin : c ∈ m_Children nd) by (rewrite Hone; by left).
  destruct (inv_child _ _ _ I n nd c Hn Hcin) as (ndc & Hc & Hcpar & Hcne).
  destruct (nkey_norm cs h r I n nd Hn) as (kn & Hkn & Hnn & Hsn & Hcsn).
  destruct (nkey_norm cs h r I c ndc Hc) as (kc & Hkc & Hnc & Hsc & Hcsc).
  assert (Hpn : p <> n) by (intros ->; by destruct (not_own_child cs h r I n ndp)).
  assert (Hcn : c <> n) by (intros ->; by destruct (not_own_child cs h r I n nd Hn)).
  assert (Hcp : c <> p).
  { intros ->. assert (H := path_child h r k p n ndp nd Hkp Hp Hin Hn).
    assert (H' := path_child h r _ n p nd ndp H Hn Hcin Hp).
    pose proof (path_unique cs h r I _ _ _ Hkp H') as E. rewrite <- app_assoc in E.
    rewrite <- (app_nil_r k) in E at 1. apply app_inv_head in E. by destruct (nkey nd). }
  exists p, ndp, ndc, kn, kc. split; try done.
  - split; [done|]. intros ->. by destruct (root_not_child cs h c I n nd Hn).
  - intros H. destruct (inv_child _ _ _ I p ndp c Hp H) as (? & ? & ? & _). congruence.
Qed.

Section Merge.
Context (p n c : loc) (ndp nd ndc : Node) (kn kc : list Z) (C : Chain3 p n c ndp nd ndc kn kc).
Abbreviation h' := (merged_heap p n c ndp ndc kn kc).

Lemma merge_between :
  Between cs h' h r p c n (merged_top n c ndp) (merged_child p kn kc ndc) ndp nd ndc.
Proof.
  destruct C as [Hp Hn Hc (Hpn & Hcn & Hcp & Hnp) [Hrn Hrc] [Hpar Hcpar] Hin Hout Hone (Hkn & Hnn & Hsn & Hcsn) (Hkc & Hnc & Hsc & Hcsc) [Hne Hcne]].
  destruct (remove_in_spec n (m_Children ndp) (inv_nodup _ _ _ I p ndp Hp)) as [Hnd Hch].
  assert (Hkm : nkey (merged_child p kn kc ndc) = (nkey nd ++ nkey ndc)%list).
  { unfold nkey at 1. cbn. by rewrite Hcsc, norm_app, Hnn, Hnc. }
  split; try done; unfold merged_heap.
  - by rewrite lookup_delete_ne, lookup_insert_eq by done.
  - by rewrite lookup_delete_ne, lookup_insert_ne, lookup_insert_eq by done.
  - apply lookup_delete_eq.
  - intros a H1 H2 H3. by rewrite lookup_delete_ne, !lookup_insert_ne by done.
  - cbn. apply elem_of_app. right. by left.
  - split; [|by apply (inv_nodup _ _ _ I p)]. cbn. apply NoDup_app. split_and!; [done | | apply NoDup_singleton].
    intros d Hd ->%list_elem_of_singleton. by apply Hch in Hd as [Hd _].
  - cbn. rewrite elem_of_app, Hch, list_elem_of_singleton. naive_solver.
  - intros d. cbn. rewrite elem_of_app, Hch, list_elem_of_singleton. destruct (decide (d = n)); naive_solver.
  - split_and!; [by exists kn | by exists kc | exists (kn ++ kc)%list]. split; [done|]. by apply Forall_app.
Qed.

Lemma merge_same t' : m_pRoot t' = Some r -> caseSensitive t' = cs -> m_nItems t' = m_nItems t ->
  nodes t' = h' -> value nd = 0 -> Same t t' r.
Proof.
  intros Hr' Hc Hn' Ht' Hv. pose proof (detached_after _ _ _ _ _ _ _ _ _ _ _ _ merge_between I) as D.
  apply (Same_intro t' n nd); rewrite ?Ht'; try done; [by apply (merge_inv _ _ _ _ _ _ _ _ _ _ _ _ merge_between D) | apply C | |].
  - intros k a. rewrite (bt_path _ _ _ _ _ _ _ _ _ _ _ _ merge_between D). split.
    + intros Ha. split; [by left|]. intros ->.
      inversion Ha as [E|? ? ? ? ? _ _ _ E]; [by destruct (c3_root _ _ _ _ _ _ _ _ C)|].
      unfold merged_heap in E. by rewrite lookup_delete_eq in E.
    + by intros [[H|[-> _]] Hne].
  - intros a x Ha Hx. destruct C as [Hp Hn Hcc (Hpn & Hcn & Hcp & Hnp) _ _ _ _ _ _ _ _]. unfold merged_heap.
    rewrite lookup_delete_ne by done. destruct (decide (p = a)) as [<-|Hpa].
    + rewrite lookup_insert_eq. eexists. split; [done|]. by simplify_eq.
    + rewrite lookup_insert_ne by done. destruct (decide (c = a)) as [<-|Hca].
      * rewrite lookup_insert_eq. eexists. split; [done|]. by simplify_eq.
      * rewrite lookup_insert_ne by done. by exists x.
Qed.

(** The steps of [merge]. *)
Lemma merge_steps : merge (Some n) t = Some (tt, put_nodes h' t).
Proof.
  destruct C as [Hp Hn Hc (Hpn & Hcn & Hcp & Hnp) _ [Hpar Hcpar] Hin Hout Hone (Hkn & Hnn & Hsn & Hcsn) (Hkc & Hnc & Hsc & Hcsc) _].
  set (nd' := with_children (remove_in c) nd).
  assert (Hrm : m_Children nd' = []) by (cbn; rewrite Hone; cbn; by rewrite bool_decide_true).
  unfold merge. rewrite (ebind_run _ _ _ _ _ (get_field m_Children n t nd Hn)), Hone. cbn [length Nat.eqb ewhen].
  unfold getFirstChild. rewrite ebind_assoc, (ebind_run _ _ _ _ _ (get_field m_Children n t nd Hn)), Hone. cbn [head].
  rewrite (ebind_run _ _ t (Some c : ptr) t) by done.
  rewrite (ebind_run _ _ _ _ _ (get_field m_pParent n t nd Hn)), Hpar.
  rewrite (ebind_run _ _ t n t), (ebind_run _ _ t c t) by done.
  rewrite (ebind_run _ _ _ _ _ (removeChild_run t n nd c Hn)).
  erewrite ebind_run by (apply get_key with nd' ; [apply lookup_insert_eq | exact Hkn]).
  unfold prependKey. rewrite ebind_assoc.
  erewrite ebind_run by (apply get_key with ndc; [cbn; rewrite lookup_insert_ne by done; exact Hc | exact Hkc]).
  erewrite ebind_run by (apply modify_node; cbn; rewrite lookup_insert_ne by done; exact Hc).
  erewrite ebind_run by (apply modify_node, lookup_insert_eq).
  erewrite ebind_run by (apply removeChild_run; cbn; rewrite !lookup_insert_ne by done; exact Hp).
  cbn [addChild]. erewrite ebind_run by (apply modify_node, lookup_insert_eq).
  erewrite (delete_leaf_run _ n nd'); [ | cbn; by rewrite !lookup_insert_ne, lookup_insert_eq by done | done].
  do 2 f_equal. cbn. unfold put_nodes. f_equal. unfold merged_heap.
  apply map_eq. intros a. destruct (decide (n = a)) as [<-|Hna]; [by rewrite !lookup_delete_eq|].
  rewrite !lookup_delete_ne by done. revert a Hna. heap_at.
Qed.

End Merge.

Lemma merge_run n nd c : h !! n = Some nd -> n <> r -> m_Children nd = [c] -> value nd = 0 ->
  exists t', merge (Some n) t = Some (tt, t') /\ Same t t' r.
Proof.
  intros Hn Hnr Hone Hv. destruct (chain3 n nd c Hn Hnr Hone) as (p & ndp & ndc & kn & kc & C).
  eexists. split; [by apply (merge_steps p n c ndp nd ndc kn kc)|].
  by apply (merge_same p n c ndp nd ndc kn kc).
Qed.

End Remove.

(** ** The whole removal *)

Lemma optimise_run r N : forall fuel t p nd k,
  m_pRoot t = Some r -> Inv (caseSensitive t) (nodes t) r -> nodes t !! p = Some nd -> path (nodes t) r k p ->
  (length k <= N)%nat -> (N < fuel)%nat ->
  exists o t', optimise fuel (Some p) t = Some (o, t') /\ Same t t' r /\
    forall q, o = Some q -> q <> r /\ exists ndq c, nodes t' !! q = Some ndq /\ m_Children ndq = [c] /\ value ndq = 0.
Proof.
  induction N as [N IH] using lt_wf_ind. intros [|fuel] t p nd k Hr I Hp Hk Hlen Hf; [lia|]. cbn [optimise].
  assert (Hid : Same t t r) by by split_and!.
  destruct (decide (p = r)) as [->|Hpr].
  { exists None, t. rewrite (ebind_run _ _ t (Some r : ptr) t) by (unfold egets; by rewrite Hr).
    by rewrite ptr_eqb_refl. }
  destruct ((length (m_Children nd) =? 1)%nat && (value nd =? 0)) eqn:E1;
    [|destruct ((length (m_Children nd) =? 0)%nat && (value nd =? 0)) eqn:E0].
  - exists (Some p), t. rewrite (ebind_run _ _ t (Some r : ptr) t) by (unfold egets; by rewrite Hr).
    rewrite ptr_eqb_ne by congruence.
    rewrite (ebind_run _ _ _ _ _ (get_field m_Children p t nd Hp)), (ebind_run _ _ _ _ _ (get_field value p t nd Hp)), E1.
    split_and!; try done. intros q [= <-]. split; [done|].
    apply andb_true_iff in E1 as [E1%Nat.eqb_eq E2%Z.eqb_eq].
    destruct (m_Children nd) as [|c [|]] eqn:Ec; try done. by exists nd, c.
  - pose proof E0 as E0'. apply andb_true_iff in E0' as [E2%Nat.eqb_eq E3%Z.eqb_eq].
    destruct (m_Children nd) as [|] eqn:Ec; [|done].
    destruct (drop_leaf_run t r Hr I p nd Hp Hpr Ec E3) as (p' & t1 & Hrun & Hs & k' & Hk' & Hkp & Hne).
    assert (Ek : k = (k' ++ nkey nd)%list) by by apply (path_unique _ _ _ I _ _ p).
    destruct Hs as (R1 & C1 & I1 & N1 & V1).
    assert (I1' : Inv (caseSensitive t1) (nodes t1) r) by by rewrite C1.
    destruct (path_in _ _ _ I1' _ _ Hkp) as [nd' Hp'].
    assert (Hl : (length k' < N)%nat) by (rewrite Ek, length_app in Hlen; destruct (nkey nd); cbn in *; [done|lia]).
    destruct (IH (length k') Hl fuel t1 p' nd' k' R1 I1' Hp' Hkp ltac:(lia) ltac:(lia)) as (o & t' & Hrun' & Hs' & Ho).
    exists o, t'. rewrite (ebind_run _ _ t (Some r : ptr) t) by (unfold egets; by rewrite Hr).
    rewrite ptr_eqb_ne by congruence.
    rewrite (ebind_run _ _ _ _ _ (get_field m_Children p t nd Hp)), (ebind_run _ _ _ _ _ (get_field value p t nd Hp)), Ec, E1, E0.
    rewrite (ebind_run _ _ _ _ _ Hrun). split_and!; [done | | done]. by apply (Same_trans t t1).
  - exists None, t. rewrite (ebind_run _ _ t (Some r : ptr) t) by (unfold egets; by rewrite Hr).
    rewrite ptr_eqb_ne by congruence.
    by rewrite (ebind_run _ _ _ _ _ (get_field m_Children p t nd Hp)), (ebind_run _ _ _ _ _ (get_field value p t nd Hp)), E1, E0.
Qed.

Lemma stored_items t t' r key v c : stored t t' r key v -> stored t (put_items c t') r key v.
Proof.
  intros (R & C & I & V). split_and!; try done. intros k Hs. rewrite <- (V k Hs).
  apply (value_same t' (put_items c t') r); rewrite ?C; try done.
  - intros a nd Ha Hnd. left. by exists nd.
  - intros b nd Hno Hb. by destruct (Hno b).
Qed.

Lemma stored_same t t1 t' r key v : stored t t1 r key v -> Same t1 t' r -> stored t t' r key v.
Proof.
  intros (R & C & I & V) (R' & C' & I' & N' & V'). split_and!; [done | congruence | by rewrite <- C |].
  intros k Hs. by rewrite V', V.
Qed.

(** Without a child that could take over, or with several, a node stays. *)
Lemma merge_none t n nd : nodes t !! n = Some nd -> (length (m_Children nd) <> 1)%nat -> merge (Some n) t = Some (tt, t).
Proof.
  intros Hn Hl. unfold merge. rewrite (ebind_run _ _ _ _ _ (get_field m_Children n t nd Hn)).
  by rewrite (proj2 (Nat.eqb_neq _ _) Hl).
Qed.

(** The case [ExactMatch]. *)
Lemma remove_node_run w t r key n fuel :
  m_pRoot t = Some r -> Inv (caseSensitive t) (nodes t) r -> path (nodes t) r (norm (caseSensitive t) key) n ->
  n <> r -> (length key < fuel)%nat ->
  exists t', remove_node w fuel (Some n) t = Some (tt, t') /\ stored t t' r key 0 /\
    m_nItems t' = wrap w (m_nItems t + -1).
Proof.
  intros Hr I Hp Hnr Hf. destruct (path_in _ _ _ I _ _ Hp) as [nd Hn].
  destruct (insert_found t r Hr I key 0 n nd Hn Hp) as (t0 & H0 & Hst0 & Hn0).
  rewrite (modify_node _ _ _ _ Hn) in H0. injection H0 as E0.
  set (t1 := put_items (wrap w (m_nItems t + -1)) t0).
  assert (Hst : stored t t1 r key 0) by by apply stored_items.
  pose proof Hst as (R1 & C1 & I1 & _). rewrite <- C1 in I1.
  assert (Hn1 : nodes t1 !! n = Some (with_value 0 nd)) by (cbn; rewrite <- E0; apply lookup_insert_eq).
  assert (Hstep : remove_node w fuel (Some n) t =
    (c <- field m_Children (Some n) ;;
     if (length c =? 0)%nat then
       pParent <- drop_leaf (Some n) ;; p <- optimise fuel pParent ;; if nonnull p then merge p else eret tt
     else merge (Some n)) t1).
  { unfold remove_node. rewrite (ebind_run _ _ _ _ _ (modify_node _ _ _ _ Hn)), E0.
    rewrite (ebind_run _ _ t0 tt t1); [done|]. subst t1. by rewrite <- Hn0. }
  rewrite Hstep, (ebind_run _ _ _ _ _ (get_field m_Children n t1 _ Hn1)). clear Hstep.
  assert (Hfin : forall t', Same t1 t' r -> stored t t' r key 0 /\ m_nItems t' = wrap w (m_nItems t + -1)).
  { intros t' Hs. split; [by apply (stored_same t t1)|]. by destruct Hs as (_ & _ & _ & -> & _). }
  cbn [m_Children with_value]. destruct (m_Children nd) as [|c l] eqn:Ec; cbn [length Nat.eqb].
  - destruct (drop_leaf_run t1 r R1 I1 n _ Hn1 Hnr Ec eq_refl) as (p & t2 & Hrun & Hs2 & k & Hk & Hkp & Hne).
    rewrite (ebind_run _ _ _ _ _ Hrun). pose proof Hs2 as (R2 & C2 & I2 & _). rewrite <- C2 in I2.
    destruct (path_in _ _ _ I2 _ _ Hkp) as [ndp Hpp].
    assert (Hl : (length k <= length key)%nat).
    { assert (E : path (nodes t1) r (norm (caseSensitive t) key) n).
      { destruct (set_value_shape _ _ r I (nodes t1) n nd 0 Hn Hn1) as [_ P];
          [intros a Ha; cbn; rewrite <- E0; by apply lookup_insert_ne | by apply P]. }
      pose proof (path_unique _ _ _ I1 _ _ _ Hk E) as E'. apply (f_equal length) in E'.
      rewrite length_app, length_norm in E'. lia. }
    destruct (optimise_run r (length key) fuel t2 p ndp k R2 I2 Hpp Hkp Hl Hf) as (o & t3 & Hrun3 & Hs3 & Ho).
    rewrite (ebind_run _ _ _ _ _ Hrun3). pose proof (Same_trans _ _ _ _ Hs2 Hs3) as Hs13.
    destruct o as [q|]; cbn [nonnull]; [|exists t3; split; [done | by apply Hfin]].
    destruct (Ho q eq_refl) as (Hqr & ndq & c & Hq & Hone & Hv). pose proof Hs3 as (R3 & C3 & I3 & _). rewrite <- C3 in I3.
    destruct (merge_run t3 r R3 I3 q ndq c Hq Hqr Hone Hv) as (t4 & Hrun4 & Hs4).
    exists t4. split; [done|]. apply Hfin. by apply (Same_trans _ t3).
  - destruct l as [|c' l].
    + destruct (merge_run t1 r R1 I1 n _ c Hn1 Hnr Ec eq_refl) as (t2 & Hrun & Hs2).
      exists t2. split; [done | by apply Hfin].
    + exists t1. rewrite (merge_none t1 n _ Hn1) by (cbn; by rewrite Ec). split; [done|]. apply Hfin.
      by split_and!.
Qed.

(** C29. [remove] takes a key out of the dictionary and changes nothing else: in a
    well-formed tree and with enough steps (twice the length of the key and four)
    it ends without a fault, the tree stays well formed, and from then on [lookup]
    finds null for the key and what it found before for every other key, though the
    node of the key, its parents and its child may have been deleted or merged.
    The count goes down exactly when the key is not empty and had a node. *)
Theorem radix_remove_correct w t key fuel :
  Tree_ok t -> cstr key -> (2 * enough key <= fuel)%nat ->
  exists t', remove w fuel key t = Some (tt, t') /\ Tree_ok t' /\ caseSensitive t' = caseSensitive t /\
    (forall key' fuel', cstr key' -> (enough key' <= fuel')%nat ->
       lookup fuel' key' t' = Some (if same_key t key' key then 0 else value_at t key', t') /\
       lookup fuel' key' t = Some (value_at t key', t)) /\
    (has_node t key -> key <> [] -> m_nItems t' = wrap w (m_nItems t + -1)) /\
    (~ has_node t key \/ key = [] -> m_nItems t' = m_nItems t).
Proof.
  intros Hok Hs Hf. unfold enough in Hf.
  destruct (ensure_root_run t Hok) as (r & t1 & Hrun & Hr & Hc & I & Hn & Hroot & Hv). rewrite <- Hc in I.
  (* it is enough to know the last tree *)
  assert (Hend : forall t', stored t1 t' r key 0 ->
    Tree_ok t' /\ caseSensitive t' = caseSensitive t /\
    forall key' fuel', cstr key' -> (enough key' <= fuel')%nat ->
       lookup fuel' key' t' = Some (if same_key t key' key then 0 else value_at t key', t') /\
       lookup fuel' key' t = Some (value_at t key', t)).
  { intros t' (R' & C' & I' & V'). assert (Hok' : Tree_ok t') by (unfold Tree_ok; by rewrite R', C').
    split; [done|]. split; [by rewrite C'|]. intros key' fuel' Hs' Hf'. split; [|by apply lookup_value].
    rewrite (lookup_value t' fuel') by done. rewrite (V' key' Hs'), Hc, (Hv key' Hs').
    unfold same_key. by case_bool_decide; case_decide. }
  assert (Hnode : has_node t key -> exists a, path (nodes t1) r (norm (caseSensitive t1) key) a).
  { intros (r0 & a & Hr0 & Ha). destruct Hroot as [[Hr1 ->]|[Hr1 _]]; [|congruence]. simplify_eq. by exists a. }
  unfold remove. rewrite (ebind_run _ _ _ _ _ Hrun), (ebind_run _ _ t1 (Some r : ptr) t1) by (unfold egets; by rewrite Hr).
  destruct (find _ _ r I key Hs) as (d & n & s' & o & W & Hd & He & Hp).
  destruct key as [|c key'].
  - destruct (inv_root _ _ _ I) as (nd & Hrn & _).
    assert (Hpr : path (nodes t1) r (norm (caseSensitive t1) []) r) by (destruct (caseSensitive t1); constructor).
    destruct (insert_found t1 r Hr I [] 0 r nd Hrn Hpr) as (t' & H1 & H2 & H3). exists t'.
    destruct (Hend t' H2) as (E1 & E2 & E3). split_and!; try done. intros _. congruence.
  - rewrite (remove_walk w _ _ r I t1 eq_refl d r _ n s' o W fuel) by lia. destruct o.
    + assert (Hnr : n <> r).
      { intros ->. apply (path_root_key _ _ _ I) in Hp. by apply norm_nil in Hp. }
      destruct (remove_node_run w t1 r _ n (fuel - d) Hr I Hp Hnr ltac:(lia)) as (t' & H1 & H2 & H3). exists t'.
      destruct (Hend t' H2) as (E1 & E2 & E3). split_and!; try done; [intros _ _; by rewrite H3, Hn|].
      intros [Hno|]; [|done]. destruct Hno. destruct Hroot as [[Hr1 ->]|[_ Hnil]]; [by exists r, n|].
      apply Hnil in Hp. by apply norm_nil in Hp.
    + exists t1. destruct (Hend t1) as (E1 & E2 & E3); [|split_and!; try done; intros Hh _; by destruct (Hnode Hh) as [a Ha]; destruct (Hp a)].
      split_and!; try done. intros k Hk. case_decide as E; [|done]. apply (value_none t1 r); try done. by rewrite E.
    + exists t1. destruct (Hend t1) as (E1 & E2 & E3); [|split_and!; try done; intros Hh _; by destruct (Hnode Hh) as [a Ha]; destruct (Hp a)].
      split_and!; try done. intros k Hk. case_decide as E; [|done]. apply (value_none t1 r); try done. by rewrite E.
Qed.

(** A dictionary with one entry, "ab". *)
Definition one : RadixTree := default (new_tree true) (snd <$> insert 64 4 [97; 98] 7 (new_tree true)).

Lemma one_ok : Tree_ok one /\ value_at one [97; 98] = 7.
Proof.
  assert (Hs : cstr [97; 98]) by repeat constructor.
  destruct (ensure_root_run (new_tree true) eq_refl) as (r & t1 & Hrun & Hr & Hc & I & _). rewrite <- Hc in I.
  destruct (insert_stored 64 t1 r [97; 98] 7 4 Hr I Hs ltac:(cbn; lia)) as (t' & H & (R & C & I' & _) & _).
  assert (E : one = t').
  { unfold one, insert. by rewrite (ebind_run _ _ _ _ _ Hrun), (ebind_run _ _ t1 (Some r : ptr) t1), H by (unfold egets; by rewrite Hr). }
  split; [rewrite E; unfold Tree_ok; by rewrite R, C | by vm_compute].
Qed.

Lemma radix_remove_correct_witness :
  value_at one [97; 98] = 7 /\
  exists t', remove 64 8 [97; 98] one = Some (tt, t') /\ Tree_ok t' /\ lookup 4 [97; 98] t' = Some (0, t').
Proof.
  destruct one_ok as [Hok Hv]. assert (Hs : cstr [97; 98]) by repeat constructor. split; [done|].
  destruct (radix_remove_correct 64 one [97; 98] 8 Hok Hs ltac:(cbn; lia)) as (t' & H & Hok' & _ & Hl & _).
  exists t'. split; [done|]. split; [done|].
  destruct (Hl [97; 98] 4%nat Hs ltac:(cbn; lia)) as [-> _]. unfold same_key. by rewrite bool_decide_true.
Defined.
