(* ===== verification/RadixRuns.v ===== *)
(** * Runs of the radix tree

    Concrete runs, and what they show of the operations that do not do what they
    should. *)
From Stdlib Require Import ZArith Lia List Bool.
From stdpp Require Import base gmap list fin_maps.
From S2P Require Import Prelude Heap RadixTree.
Import ListNotations.
Local Open Scope Z_scope.
Local Open Scope err_scope.

Definition run {A} (m : Op A) (t : RadixTree) : option A := fst <$> m t.

(** The dictionary of "ab", "ac", "b" and "abd". *)
Definition abc : Op unit :=
  insert 64 9 [97; 98] 1 ;; insert 64 9 [97; 99] 2 ;; insert 64 9 [98] 3 ;; insert 64 9 [97; 98; 100] 4.

Definition keys_in (cs : bool) : option RadixTree := snd <$> abc (new_tree cs).

Definition on_abc {A} (cs : bool) (m : Op A) : option A := run (abc ;; m) (new_tree cs).

Definition all_values : Op (list Z) := i <- begin_ 20 ;; iterate 20 i.

Example abc_lookup :
  on_abc true (a <- lookup 9 [97] ;; b <- lookup 9 [97; 99] ;; c <- lookup 9 [97; 98; 100] ;; eret [a; b; c])
  = Some [0; 2; 4].
Proof. vm_compute. reflexivity. Qed.

Example abc_iterate : on_abc true all_values = Some [2; 1; 4; 3].
Proof. vm_compute. reflexivity. Qed.

(** Inserting a key whose node exists already as an intermediate node does not
    count, but removing it does: three keys inserted and removed leave a count
    of [2^w - 1]. *)
Example count_underflows :
  run (insert 64 9 [97; 98] 1 ;; insert 64 9 [97; 99] 2 ;; insert 64 9 [97] 3 ;;
       a <- count ;; remove 64 9 [97; 98] ;; remove 64 9 [97] ;; remove 64 9 [97; 99] ;;
       b <- count ;; eret (a, b)) (new_tree true)
  = Some (2, 2 ^ 64 - 1).
Proof. vm_compute. reflexivity. Qed.

(** Removing a key that is not in the dictionary, but is a common prefix of
    others, takes one off the count. *)
Example remove_absent_counts :
  on_abc true (a <- count ;; remove 64 9 [97] ;; b <- count ;; eret [a; b]) = Some [4; 3].
Proof. vm_compute. reflexivity. Qed.

(** [cloneNode] passes its own parent on to the children, so every node of a
    copy has a null parent: an iteration ends at the first leaf, and splitting or
    removing a node follows a null pointer. *)
Example copy_iterates_less :
  option_map (run all_values) (keys_in true ≫= copy_tree 20) = Some (Some [2]).
Proof. vm_compute. reflexivity. Qed.

Example radix_copy_faults :
  option_map (run (insert 64 9 [97; 99] 5)) ((snd <$> insert 64 9 [97; 98] 1 (new_tree true)) ≫= copy_tree 20)
  = Some None /\
  option_map (run (remove 64 9 [98])) (keys_in true ≫= copy_tree 20) = Some None.
Proof. vm_compute. auto. Qed.

(** [operator =] clones the nodes before it takes over the case sensitivity. *)
Example assign_keeps_case :
  option_map (fun x => run (assign 20 x ;; lookup 9 [66]) (new_tree true)) (keys_in false) = Some (Some 0) /\
  option_map (run (lookup 9 [66])) (keys_in false) = Some (Some 3).
Proof. vm_compute. auto. Qed.

(** [erase] removes the piece of the key that is in the node, which is no key. *)
Example erase_removes_nothing :
  on_abc true (i <- begin_ 20 ;; erase 64 20 i ;; lookup 9 [97; 99]) = Some 2.
Proof. vm_compute. reflexivity. Qed.

(** [begin] of a dictionary that was never used follows a null pointer. *)
Example begin_faults : begin_ 20 (new_tree true) = None.
Proof. reflexivity. Qed.

(** The empty key is found but neither counted nor visited. *)
Example empty_key :
  run (insert 64 9 [] 7 ;; v <- lookup 9 [] ;; n <- count ;; l <- all_values ;; eret (v, n, l)) (new_tree true)
  = Some (7, 0, []).
Proof. vm_compute. reflexivity. Qed.
