(* ===== verification/Bitmap.v ===== *)
(** * ExtensibleBitmap

    [kernel/utilities/ExtensibleBitmap.cc] and its header: a bitmap of
    [uintptr_t] bits followed by a byte array that grows on demand.  The
    section's [W] is the number of bits of [uintptr_t]; the theorems are for
    [W = 32], the width the code's [1 << n] is right for.  A null dereference,
    an access outside the array and a shift by 32 or more are faults. *)
From Stdlib Require Import ZArith Lia List Bool.
From stdpp Require Import base gmap list.
From S2P Require Import Prelude.
Import ListNotations.
Local Open Scope Z_scope.
Local Open Scope err_scope.
#[local] Set Warnings "-clear-no-such-hyp".

Record ExtensibleBitmap := mkBitmap {
  m_StaticMap : Z;
  m_pDynamicMap : option (list Z);
  m_DynamicMapSize : Z;
  m_nMaxBit : Z;
  m_nFirstSetBit : Z;
  m_nFirstClearBit : Z;
  m_nLastSetBit : Z;
  m_nLastClearBit : Z
}.

Definition Op (A : Type) : Type := StateE ExtensibleBitmap A.

Definition empty_bitmap : ExtensibleBitmap := mkBitmap 0 None 0 0 0 0 0 0.

(** ** Assignments to the members *)

Definition put_static (v : Z) : Op unit := emodify (fun b =>
  mkBitmap v (m_pDynamicMap b) (m_DynamicMapSize b) (m_nMaxBit b)
           (m_nFirstSetBit b) (m_nFirstClearBit b) (m_nLastSetBit b) (m_nLastClearBit b)).
Definition put_map (l : option (list Z)) (sz : Z) : Op unit := emodify (fun b =>
  mkBitmap (m_StaticMap b) l sz (m_nMaxBit b)
           (m_nFirstSetBit b) (m_nFirstClearBit b) (m_nLastSetBit b) (m_nLastClearBit b)).
Definition put_max (v : Z) : Op unit := emodify (fun b =>
  mkBitmap (m_StaticMap b) (m_pDynamicMap b) (m_DynamicMapSize b) v
           (m_nFirstSetBit b) (m_nFirstClearBit b) (m_nLastSetBit b) (m_nLastClearBit b)).
Definition put_first_set (v : Z) : Op unit := emodify (fun b =>
  mkBitmap (m_StaticMap b) (m_pDynamicMap b) (m_DynamicMapSize b) (m_nMaxBit b)
           v (m_nFirstClearBit b) (m_nLastSetBit b) (m_nLastClearBit b)).
Definition put_first_clear (v : Z) : Op unit := emodify (fun b =>
  mkBitmap (m_StaticMap b) (m_pDynamicMap b) (m_DynamicMapSize b) (m_nMaxBit b)
           (m_nFirstSetBit b) v (m_nLastSetBit b) (m_nLastClearBit b)).
Definition put_last_set (v : Z) : Op unit := emodify (fun b =>
  mkBitmap (m_StaticMap b) (m_pDynamicMap b) (m_DynamicMapSize b) (m_nMaxBit b)
           (m_nFirstSetBit b) (m_nFirstClearBit b) v (m_nLastClearBit b)).

(** [1 << n] on [int]: undefined from 32 on; [1 << 31] is [INT_MIN]. *)
Definition int_shl1 (n : Z) : option Z := if n <? 32 then Some (swrap 32 (2 ^ n)) else None.

(** [m_pDynamicMap[i]]. *)
Definition map_read (i : Z) : Op Z :=
  m <- egets m_pDynamicMap ;;
  match m with Some l => elift (l !! Z.to_nat i) | None => efail end.

Definition map_write (i v : Z) : Op unit :=
  m <- egets m_pDynamicMap ;; sz <- egets m_DynamicMapSize ;;
  match m with
  | Some l => match l !! Z.to_nat i with
              | Some _ => put_map (Some (<[Z.to_nat i := v]> l)) sz
              | None => efail
              end
  | None => efail
  end.

(** ** The operations *)

Section Operations.
Variable W : Z.

Definition test (n : Z) : Op bool :=
  if n <? W then
    s <- elift (int_shl1 n) ;; m <- egets m_StaticMap ;;
    eret (negb (Z.land m (wrap W s) =? 0))
  else
    let n := n - W in
    mx <- egets m_nMaxBit ;; m <- egets m_pDynamicMap ;;
    if (mx <? n) || (match m with None => true | Some _ => false end) then eret false
    else v <- map_read (n / 8) ;; eret (negb (Z.land v (2 ^ (n mod 8)) =? 0)).

(** [do m_nFirstClearBit++; while (test(m_nFirstClearBit))]. *)
Fixpoint skip_set (fuel : nat) : Op unit :=
  match fuel with
  | O => efail
  | S fuel' =>
      c <- egets m_nFirstClearBit ;; put_first_clear (c +[W] 1)%word ;;
      t <- test (c +[W] 1)%word ;;
      if t then skip_set fuel' else eret tt
  end.

(** A new array of [n/8 + 8] bytes that starts with the old one. *)
Definition grow (n : Z) : Op unit :=
  sz <- egets m_DynamicMapSize ;; m <- egets m_pDynamicMap ;;
  ewhen (sz <=? n / 8)
    (let sz' := n / 8 + 8 in
     let old := if sz =? 0 then [] else match m with Some l => l | None => [] end in
     put_map (Some (old ++ replicate (Z.to_nat (sz' - sz)) 0)) sz').

Definition set_bit (n : Z) : Op unit :=
  if n <? W then
    s <- elift (int_shl1 n) ;; m <- egets m_StaticMap ;; put_static (Z.lor m (wrap W s))
  else
    let n := n - W in
    grow n ;;
    v <- map_read (n / 8) ;; map_write (n / 8) (wrap 8 (Z.lor v (2 ^ (n mod 8)))) ;;
    mx <- egets m_nMaxBit ;; ewhen (mx <? n) (put_max n).

Definition set (fuel : nat) (n : Z) : Op unit :=
  fs <- egets m_nFirstSetBit ;; ewhen (n <? fs) (put_first_set n) ;;
  ls <- egets m_nLastSetBit ;; ewhen (ls <? n) (put_last_set n) ;;
  fc <- egets m_nFirstClearBit ;; ewhen (n =? fc) (skip_set fuel) ;;
  set_bit n.

(** [for (i = n; i <= W + m_nMaxBit; i++)] of [clear]. *)
Fixpoint find_first_set (k : nat) (i : Z) : Op unit :=
  match k with
  | O => eret tt
  | S k' => t <- test i ;; if t then put_first_set i else find_first_set k' (i + 1)
  end.

(** [for (i = n; i; i--)] of [clear]. *)
Fixpoint find_last_set (i : nat) : Op unit :=
  match i with
  | O => eret tt
  | S i' => t <- test (Z.of_nat i) ;; if t then put_last_set (Z.of_nat i) else find_last_set i'
  end.

Definition clear_bit (n : Z) : Op unit :=
  if n <? W then
    s <- elift (int_shl1 n) ;; m <- egets m_StaticMap ;;
    put_static (Z.land m (wrap W (Z.lnot s)))
  else
    let n := n - W in
    mx <- egets m_nMaxBit ;;
    if mx <? n then eret tt
    else v <- map_read (n / 8) ;; map_write (n / 8) (wrap 8 (Z.land v (Z.lnot (2 ^ (n mod 8))))).

Definition clear (n : Z) : Op unit :=
  fc <- egets m_nFirstClearBit ;; ewhen (n <? fc) (put_first_clear n) ;;
  fs <- egets m_nFirstSetBit ;; mx <- egets m_nMaxBit ;;
  ewhen (n =? fs) (find_first_set (Z.to_nat (W + mx + 1 - n)) n) ;;
  ls <- egets m_nLastSetBit ;;
  ewhen (n =? ls) (put_last_set 0 ;; find_last_set (Z.to_nat n)) ;;
  clear_bit n.

(** [while (test(m_nFirstClearBit)) m_nFirstClearBit++; return m_nFirstClearBit;] *)
Fixpoint getFirstClear (fuel : nat) : Op Z :=
  match fuel with
  | O => efail
  | S fuel' =>
      c <- egets m_nFirstClearBit ;; t <- test c ;;
      if t then put_first_clear (c +[W] 1)%word ;; getFirstClear fuel' else eret c
  end.

End Operations.

Definition getFirstSet : Op Z := egets m_nFirstSetBit.
Definition getLastSet : Op Z := egets m_nLastSetBit.
Definition getLastClear : Op Z := egets m_nLastClearBit.

(** The copy constructor: [new uint8_t[0]] is not null. *)
Definition copy (other : ExtensibleBitmap) : ExtensibleBitmap :=
  mkBitmap (m_StaticMap other)
           (Some (match m_pDynamicMap other with Some l => l | None => [] end))
           (m_DynamicMapSize other) (m_nMaxBit other)
           (m_nFirstSetBit other) (m_nFirstClearBit other)
           (m_nLastSetBit other) (m_nLastClearBit other).

(** [operator =]: the array is replaced when it is too short, and the other
    bitmap's bytes are copied over its beginning. *)
Definition assign (this other : ExtensibleBitmap) : ExtensibleBitmap :=
  let short := m_DynamicMapSize this <? m_DynamicMapSize other in
  let src := match m_pDynamicMap other with Some l => l | None => [] end in
  let map := if short then Some src
             else if m_DynamicMapSize other =? 0 then m_pDynamicMap this
             else match m_pDynamicMap this with
                  | Some l => Some (src ++ drop (length src) l)
                  | None => None
                  end in
  let sz := if short then m_DynamicMapSize other else m_DynamicMapSize this in
  mkBitmap (m_StaticMap other) map sz (m_nMaxBit other)
           (m_nFirstSetBit other) (m_nFirstClearBit other)
           (m_nLastSetBit other) (m_nLastClearBit other).

(** ** Content *)

(** Bit [k] of the byte array. *)
Definition dynbit (l : list Z) (k : Z) : bool :=
  Z.testbit (nth (Z.to_nat (k / 8)) l 0) (k mod 8).

(** Whether the bitmap holds [n]. *)
Definition holds (b : ExtensibleBitmap) (n : Z) : bool :=
  if n <? 32 then Z.testbit (m_StaticMap b) n
  else match m_pDynamicMap b with Some l => dynbit l (n - 32) | None => false end.

(** The array is there when its size is not 0, every bit in it up to the
    largest one used is inside it, and the bits above are clear. *)
Definition map_ok (m : option (list Z)) (sz mx : Z) : Prop :=
  match m with
  | None => sz = 0 /\ mx = 0
  | Some l => sz = Z.of_nat (length l) /\ 0 <= mx < 8 * sz /\ Forall (in_word 8) l /\
              (forall k, mx < k -> dynbit l k = false)
  end.

(** What [test] depends on. *)
Record core (b : ExtensibleBitmap) : Prop := mkCore {
  core_static : in_word 32 (m_StaticMap b);
  core_map : map_ok (m_pDynamicMap b) (m_DynamicMapSize b) (m_nMaxBit b);
  core_max : 0 <= m_nMaxBit b < 2 ^ 31
}.

(** No bit below [m_nFirstClearBit] is clear. *)
Record wf (b : ExtensibleBitmap) : Prop := mkWf {
  wf_core : core b;
  wf_clear : 0 <= m_nFirstClearBit b <= 32 + m_nMaxBit b + 1;
  wf_full : forall i, 0 <= i < m_nFirstClearBit b -> holds b i = true
}.

(** Two bitmaps that may differ in the first and the last set bit. *)
Definition same (b b' : ExtensibleBitmap) : Prop :=
  m_StaticMap b' = m_StaticMap b /\ m_pDynamicMap b' = m_pDynamicMap b /\
  m_DynamicMapSize b' = m_DynamicMapSize b /\ m_nMaxBit b' = m_nMaxBit b /\
  m_nFirstClearBit b' = m_nFirstClearBit b.

(** The bitmap holds exactly the elements of [X]. *)
Definition represents (b : ExtensibleBitmap) (X : gset Z) : Prop :=
  wf b /\ forall i, 0 <= i -> holds b i = bool_decide (i ∈ X).

(** ** Bits of bytes and words *)

Lemma land_bit_test v n : 0 <= n -> negb (Z.land v (2 ^ n) =? 0) = Z.testbit v n.
Proof.
  intros Hn. destruct (Z.testbit v n) eqn:Hb.
  - destruct (Z.eqb_spec (Z.land v (2 ^ n)) 0) as [E|]; [|done].
    apply (f_equal (fun z => Z.testbit z n)) in E.
    by rewrite Z.land_spec, Z.pow2_bits_true, Z.bits_0, Hb in E.
  - replace (Z.land v (2 ^ n)) with 0; [done|]. symmetry. apply Z.bits_inj'. intros i Hi.
    rewrite Z.land_spec, Z.bits_0. destruct (Z.eq_dec i n) as [->|Hne]; [by rewrite Hb|].
    rewrite Z.pow2_bits_false by lia. apply andb_false_r.
Qed.

Lemma testbit_set v n i :
  0 <= n -> Z.testbit (Z.lor v (2 ^ n)) i = (i =? n) || Z.testbit v i.
Proof.
  intros Hn. rewrite Z.lor_spec, Z.pow2_bits_eqb, Z.eqb_sym by done. apply orb_comm.
Qed.

Lemma testbit_clear v n i :
  0 <= n -> 0 <= i -> Z.testbit (Z.land v (Z.lnot (2 ^ n))) i = negb (i =? n) && Z.testbit v i.
Proof.
  intros Hn Hi. rewrite Z.land_spec, Z.lnot_spec, Z.pow2_bits_eqb, Z.eqb_sym by done. apply andb_comm.
Qed.

(** [1 << n] read as an unsigned word. *)
Lemma int_shl1_word n : 0 <= n < 32 -> exists s, int_shl1 n = Some s /\ wrap 32 s = 2 ^ n.
Proof.
  intros Hn. exists (swrap 32 (2 ^ n)). unfold int_shl1. rewrite (proj2 (Z.ltb_lt n 32)) by lia.
  split; [done|]. rewrite wrap_swrap by lia. apply wrap_small. split.
  - apply Z.pow_nonneg. lia.
  - apply Z.pow_lt_mono_r; lia.
Qed.

Lemma wrap_lnot w s : wrap w (Z.lnot (wrap w s)) = wrap w (Z.lnot s).
Proof.
  assert (E : forall x, Z.lnot x = -1 - x) by (unfold Z.lnot; lia).
  rewrite !E. apply Zminus_mod_idemp_r.
Qed.

Lemma byte_bit k : 0 <= k mod 8 < 8.
Proof. apply Z.mod_pos_bound. lia. Qed.

(** Changing bit [k] of the array. *)
Lemma dynbit_insert l k v i :
  0 <= k < 8 * Z.of_nat (length l) -> 0 <= i ->
  dynbit (<[Z.to_nat (k / 8) := v]> l) i =
  if i / 8 =? k / 8 then Z.testbit v (i mod 8) else dynbit l i.
Proof.
  intros Hk Hi. unfold dynbit. rewrite !nth_lookup.
  destruct (Z.eqb_spec (i / 8) (k / 8)) as [->|Hne].
  - rewrite list_lookup_insert_eq; [done|]. zlia.
  - rewrite list_lookup_insert_ne; [done|]. zlia.
Qed.

Lemma same_bit i k : 0 <= i -> 0 <= k -> (i =? k) = (i / 8 =? k / 8) && (i mod 8 =? k mod 8).
Proof.
  intros Hi Hk. destruct (Z.eqb_spec i k), (Z.eqb_spec (i / 8) (k / 8)), (Z.eqb_spec (i mod 8) (k mod 8));
    subst; simpl; try done; exfalso; zlia.
Qed.

Lemma dynbit_set l k v i :
  l !! Z.to_nat (k / 8) = Some v -> 0 <= k -> 0 <= i ->
  dynbit (<[Z.to_nat (k / 8) := wrap 8 (Z.lor v (2 ^ (k mod 8)))]> l) i = (i =? k) || dynbit l i.
Proof.
  intros Hv Hk Hi. pose proof (lookup_lt_Some _ _ _ Hv). pose proof (byte_bit i). pose proof (byte_bit k).
  assert (0 <= k < 8 * Z.of_nat (length l)) by zlia.
  rewrite dynbit_insert by done.
  rewrite (same_bit i k) by done. destruct (Z.eqb_spec (i / 8) (k / 8)) as [E|]; [|done].
  rewrite testbit_wrap, testbit_set by lia. rewrite (proj2 (Z.ltb_lt _ 8)) by lia.
  unfold dynbit. rewrite E, (nth_lookup_Some _ _ _ _ Hv). done.
Qed.

Lemma dynbit_clear l k v i :
  l !! Z.to_nat (k / 8) = Some v -> 0 <= k -> 0 <= i ->
  dynbit (<[Z.to_nat (k / 8) := wrap 8 (Z.land v (Z.lnot (2 ^ (k mod 8))))]> l) i = negb (i =? k) && dynbit l i.
Proof.
  intros Hv Hk Hi. pose proof (lookup_lt_Some _ _ _ Hv). pose proof (byte_bit i). pose proof (byte_bit k).
  assert (0 <= k < 8 * Z.of_nat (length l)) by zlia.
  rewrite dynbit_insert by done.
  rewrite (same_bit i k) by done. destruct (Z.eqb_spec (i / 8) (k / 8)) as [E|]; [|done].
  rewrite testbit_wrap, testbit_clear by lia. rewrite (proj2 (Z.ltb_lt _ 8)) by lia.
  unfold dynbit. rewrite E, (nth_lookup_Some _ _ _ _ Hv). done.
Qed.

(** The bytes added by [grow] are clear. *)
Lemma dynbit_grow l n i : dynbit (l ++ replicate n 0) i = dynbit l i.
Proof.
  unfold dynbit. destruct (decide (Z.to_nat (i / 8) < length l)%nat) as [H|H].
  - now rewrite app_nth1.
  - rewrite app_nth2, (nth_overflow l) by lia. f_equal. rewrite nth_lookup.
    destruct (replicate n 0 !! _) eqn:E; [|done]. apply lookup_replicate_1 in E. by destruct E.
Qed.

(** ** [test] *)

Lemma map_read_run b l i v :
  m_pDynamicMap b = Some l -> l !! Z.to_nat i = Some v -> map_read i b = Some (v, b).
Proof. intros Hl Hv. unfold map_read, ebind, egets, elift. by rewrite Hl, Hv. Qed.

Lemma map_write_run b l i v v' :
  m_pDynamicMap b = Some l -> l !! Z.to_nat i = Some v ->
  map_write i v' b = put_map (Some (<[Z.to_nat i := v']> l)) (m_DynamicMapSize b) b.
Proof. intros Hl Hv. unfold map_write, ebind, egets. by rewrite Hl, Hv. Qed.

Lemma core_not_held b i : core b -> m_nMaxBit b + 32 < i -> holds b i = false.
Proof.
  intros [_ Hm Hx] Hi. unfold holds. rewrite (proj2 (Z.ltb_ge i 32)) by lia.
  destruct (m_pDynamicMap b); [|done]. apply Hm. lia.
Qed.

(** The byte of a bit that the array covers. *)
Lemma core_byte b k :
  core b -> m_pDynamicMap b <> None -> 0 <= k <= m_nMaxBit b ->
  exists l v, m_pDynamicMap b = Some l /\ l !! Z.to_nat (k / 8) = Some v.
Proof.
  intros [_ Hm Hx] Hn Hk. destruct (m_pDynamicMap b) as [l|]; [|done].
  destruct Hm as (Hl & Hmx & _).
  destruct (lookup_lt_is_Some_2 l (Z.to_nat (k / 8))) as [v Hv]; [zlia|]. eauto.
Qed.

Lemma test_run b n : core b -> 0 <= n -> test 32 n b = Some (holds b n, b).
Proof.
  intros Hc Hn. unfold test. destruct (Z.ltb_spec n 32) as [H|H].
  - unfold holds. rewrite (proj2 (Z.ltb_lt n 32)) by lia.
    destruct (int_shl1_word n ltac:(lia)) as (s & -> & Hs). unfold elift, egets, eret, ebind.
    by rewrite Hs, land_bit_test.
  - unfold egets, eret, ebind.
    destruct (Z.ltb_spec (m_nMaxBit b) (n - 32)) as [Hlt|Hge]; simpl.
    { by rewrite core_not_held by (done || lia). }
    destruct (m_pDynamicMap b) eqn:El; simpl.
    + destruct (core_byte b (n - 32)) as (l' & v & El' & Hv); [done|congruence|lia|].
      rewrite (map_read_run b l' _ v El' Hv), land_bit_test by apply byte_bit.
      unfold holds, dynbit. rewrite (proj2 (Z.ltb_ge n 32)), El', (nth_lookup_Some _ _ _ _ Hv) by lia. done.
    + unfold holds. by rewrite (proj2 (Z.ltb_ge n 32)), El by lia.
Qed.

(** ** Setting and clearing a bit *)

Lemma map_ok_grow l sz mx n :
  map_ok (Some l) sz mx -> map_ok (Some (l ++ replicate n 0)) (sz + Z.of_nat n) mx.
Proof.
  intros (-> & Hm & Hb & Hc). split; [rewrite length_app, length_replicate; lia|].
  split; [lia|]. split; [|intros k Hk; rewrite dynbit_grow; auto].
  apply Forall_app; split; [done|]. apply Forall_replicate. split; [done|by vm_compute].
Qed.

(** [grow] makes room for bit [n] and keeps the content. *)
Lemma grow_run b n :
  core b -> 0 <= n < 2 ^ 31 ->
  exists l sz, grow n b = Some (tt, mkBitmap (m_StaticMap b) (Some l) sz (m_nMaxBit b)
      (m_nFirstSetBit b) (m_nFirstClearBit b) (m_nLastSetBit b) (m_nLastClearBit b)) /\
    map_ok (Some l) sz (m_nMaxBit b) /\ n < 8 * sz /\
    (forall k, dynbit l k = match m_pDynamicMap b with Some l0 => dynbit l0 k | None => false end).
Proof.
  intros [Hs Hm Hx] Hn. unfold grow, ebind, egets, ewhen.
  destruct (m_pDynamicMap b) as [l|] eqn:El.
  - pose proof Hm as (Hsz & Hmx & _). destruct (Z.leb_spec (m_DynamicMapSize b) (n / 8)) as [H|H].
    + unfold put_map, emodify. destruct (Z.eqb_spec (m_DynamicMapSize b) 0); [lia|].
      do 2 eexists. split; [reflexivity|]. set (d := Z.to_nat _).
      assert (Ed : n / 8 + 8 = m_DynamicMapSize b + Z.of_nat d) by (subst d; zlia).
      rewrite Ed. split; [by apply map_ok_grow|]. split; [zlia|]. intros k. apply dynbit_grow.
    + exists l, (m_DynamicMapSize b). destruct b; simpl in *; subst. split; [done|]. split; [done|]. split; [zlia|done].
  - destruct Hm as (Hsz & Hmx). rewrite Hsz, Hmx. destruct (Z.leb_spec 0 (n / 8)) as [H|H]; [|zlia].
    unfold put_map, emodify. simpl. do 2 eexists. split; [by rewrite Hmx|].
    assert (Hz : forall k, dynbit (replicate (Z.to_nat (n / 8 + 8 - 0)) 0) k = false).
    { intros k. pose proof (dynbit_grow [] (Z.to_nat (n / 8 + 8 - 0)) k) as E. simpl in E. rewrite E.
      unfold dynbit. rewrite nth_overflow by (simpl; lia). apply Z.bits_0. }
    split; [|split; [zlia|done]].
    split; [rewrite length_replicate; zlia|]. split; [zlia|]. split; [|done].
    apply Forall_replicate. split; [done|by vm_compute].
Qed.

Lemma lor_word w v k : in_word w v -> 0 <= k < w -> in_word w (Z.lor v (2 ^ k)).
Proof.
  intros Hv Hk. rewrite <- (wrap_small w v Hv), <- (wrap_small w (2 ^ k)), !wrap_land, <- Z.land_lor_distr_l by
    (lia || (split; [apply Z.pow_nonneg; lia|apply Z.pow_lt_mono_r; lia])).
  rewrite <- wrap_land by lia. apply wrap_range. lia.
Qed.

Lemma holds_dyn b l i : m_pDynamicMap b = Some l -> 32 <= i -> holds b i = dynbit l (i - 32).
Proof. intros Hl Hi. unfold holds. by rewrite (proj2 (Z.ltb_ge i 32)), Hl by lia. Qed.

Lemma holds_static b i : i < 32 -> holds b i = Z.testbit (m_StaticMap b) i.
Proof. intros Hi. unfold holds. by rewrite (proj2 (Z.ltb_lt i 32)) by lia. Qed.

Lemma eqb_shift i n : (i =? n) = (i - 32 =? n - 32).
Proof. destruct (Z.eqb_spec i n), (Z.eqb_spec (i - 32) (n - 32)); lia. Qed.

Lemma set_bit_run b n :
  core b -> 0 <= n < 2 ^ 31 ->
  exists b', set_bit 32 n b = Some (tt, b') /\ core b' /\
    (forall i, 0 <= i -> holds b' i = (i =? n) || holds b i) /\
    m_nFirstClearBit b' = m_nFirstClearBit b /\
    m_nMaxBit b <= m_nMaxBit b' /\ n <= 32 + m_nMaxBit b' /\
    (32 <= n \/ m_pDynamicMap b <> None -> m_pDynamicMap b' <> None).
Proof.
  intros Hc Hn. unfold set_bit. destruct (Z.ltb_spec n 32) as [H|H].
  - destruct (int_shl1_word n ltac:(lia)) as (s & -> & Hs). destruct Hc as [Hst Hm Hx].
    unfold elift, egets, eret, ebind, put_static, emodify. rewrite Hs. eexists. split; [reflexivity|]. split.
    { split; [by apply lor_word; [|lia]|done|done]. }
    split; [|simpl; split; [done|split; [lia|split; [lia|intros [?|?]; [lia|done]]]]].
    intros i Hi. unfold holds. cbn [m_StaticMap m_pDynamicMap]. rewrite testbit_set by lia.
    destruct (Z.ltb_spec i 32); [done|]. by rewrite (proj2 (Z.eqb_neq i n)) by lia.
  - destruct (grow_run b (n - 32) Hc) as (l & sz & Hg & Hok & Hsz & Hb); [lia|].
    rewrite (ebind_run _ _ _ _ _ Hg). set (g := mkBitmap _ _ _ _ _ _ _ _).
    destruct Hc as [Hst Hm Hx]. pose proof Hok as (Hl & Hmx & Hby & Hcl).
    destruct (lookup_lt_is_Some_2 l (Z.to_nat ((n - 32) / 8))) as [v Hv]; [zlia|].
    rewrite (ebind_run _ _ _ _ _ (map_read_run g l _ v eq_refl Hv)).
    rewrite (ebind_run _ _ _ tt _ (map_write_run g l _ v _ eq_refl Hv)).
    set (l' := <[_ := _]> l). unfold ebind, egets, ewhen.
    assert (Hd : forall i, 0 <= i -> dynbit l' i = (i =? n - 32) || dynbit l i)
      by (intros i Hi; apply dynbit_set; [done|lia|done]).
    assert (Hok' : forall mx, n - 32 <= mx -> m_nMaxBit b <= mx -> mx < 2 ^ 31 -> mx < 8 * sz -> map_ok (Some l') sz mx).
    { intros mx H1 H2 H3 H4. split; [subst l'; by rewrite length_insert|]. split; [lia|]. split.
      - apply Forall_insert; [done|]. apply wrap_range. lia.
      - intros k Hk. rewrite Hd by lia. rewrite (proj2 (Z.eqb_neq k (n - 32))) by lia. apply Hcl. lia. }
    assert (Hh : forall b', m_StaticMap b' = m_StaticMap b -> m_pDynamicMap b' = Some l' ->
              forall i, 0 <= i -> holds b' i = (i =? n) || holds b i).
    { intros b' E1 E2 i Hi. destruct (Z.ltb_spec i 32) as [Hlt|Hge].
      - rewrite !holds_static, E1, (proj2 (Z.eqb_neq i n)) by lia. done.
      - rewrite (holds_dyn b' l') by done. rewrite Hd, Hb, <- eqb_shift by lia.
        unfold holds. by rewrite (proj2 (Z.ltb_ge i 32)) by lia. }
    cbn [m_nMaxBit g]. destruct (Z.ltb_spec (m_nMaxBit b) (n - 32)) as [Hlt|Hge].
    + eexists. split; [reflexivity|]. split; [split; [done|apply Hok'; simpl; lia|simpl; lia]|].
      split; [by apply Hh|]. simpl. split; [done|]. split; [lia|]. split; [lia|done].
    + eexists. split; [reflexivity|]. split; [split; [done|apply Hok'; simpl; lia|simpl; lia]|].
      split; [by apply Hh|]. simpl. split; [done|]. split; [lia|]. split; [lia|done].
Qed.

(** [clear] writes through a null pointer when bit 32 is cleared before the
    array exists. *)
Definition clearable (b : ExtensibleBitmap) (n : Z) : Prop :=
  n = 32 -> m_pDynamicMap b <> None.

Lemma clear_bit_run b n :
  core b -> 0 <= n -> clearable b n ->
  exists b', clear_bit 32 n b = Some (tt, b') /\ core b' /\
    (forall i, 0 <= i -> holds b' i = negb (i =? n) && holds b i) /\
    m_nFirstClearBit b' = m_nFirstClearBit b /\ m_nMaxBit b' = m_nMaxBit b.
Proof.
  intros Hc Hn Hcb. unfold clear_bit. destruct (Z.ltb_spec n 32) as [H|H].
  - destruct (int_shl1_word n ltac:(lia)) as (s & -> & Hs). destruct Hc as [Hst Hm Hx].
    unfold elift, egets, eret, ebind, put_static, emodify.
    assert (E : Z.land (m_StaticMap b) (wrap 32 (Z.lnot s)) = Z.land (m_StaticMap b) (Z.lnot (2 ^ n))).
    { rewrite <- wrap_lnot, Hs, wrap_land, (Z.land_comm (Z.lnot _)), Z.land_assoc, <- wrap_land by lia.
      by rewrite (wrap_small 32 (m_StaticMap b)). }
    rewrite E. eexists. split; [reflexivity|]. split.
    { split; [|done|done]. simpl. rewrite <- (wrap_small 32 (m_StaticMap b)), wrap_land, (Z.land_comm _ (Z.ones 32)),
        <- Z.land_assoc, Z.land_comm, <- wrap_land by (done || lia). apply wrap_range. lia. }
    split; [|done]. intros i Hi. unfold holds. cbn [m_StaticMap m_pDynamicMap]. rewrite testbit_clear by lia.
    destruct (Z.ltb_spec i 32); [done|]. by rewrite (proj2 (Z.eqb_neq i n)) by lia.
  - unfold ebind at 1, egets. destruct (Z.ltb_spec (m_nMaxBit b) (n - 32)) as [Hlt|Hge].
    + exists b. split; [done|]. split; [done|]. split; [|done]. intros i Hi.
      destruct (Z.eqb_spec i n) as [->|]; [|done]. by rewrite core_not_held by (done || lia).
    + assert (Hnn : m_pDynamicMap b <> None).
      { intros E. destruct Hc as [_ Hm _]. rewrite E in Hm. destruct Hm. apply Hcb; [lia|done]. }
      destruct (core_byte b (n - 32) Hc Hnn) as (l & v & El & Hv); [lia|].
      rewrite (ebind_run _ _ _ _ _ (map_read_run b l _ v El Hv)).
      rewrite (map_write_run b l _ v _ El Hv). destruct Hc as [Hst Hm Hx]. rewrite El in Hm.
      destruct Hm as (Hl & Hmx & Hby & Hcl). set (l' := <[_ := _]> l).
      assert (Hd : forall i, 0 <= i -> dynbit l' i = negb (i =? n - 32) && dynbit l i)
        by (intros i Hi; apply dynbit_clear; [done|lia|done]).
      eexists. split; [reflexivity|]. split; [split; [done| |done]|split; [|done]].
      * split; [subst l'; by rewrite length_insert|]. split; [done|]. split.
        -- apply Forall_insert; [done|]. apply wrap_range. lia.
        -- intros k Hk. cbn [m_nMaxBit] in Hk. rewrite Hd, Hcl by lia. apply andb_false_r.
      * intros i Hi. destruct (Z.ltb_spec i 32) as [Hi2|Hi2].
        -- rewrite !holds_static, (proj2 (Z.eqb_neq i n)) by lia. done.
        -- rewrite (holds_dyn _ l') by done. rewrite (holds_dyn b l), Hd, <- eqb_shift by (done || lia). done.
Qed.

(** ** The cached indexes *)

Lemma same_core b b' : same b b' -> core b -> core b'.
Proof. intros (E1 & E2 & E3 & E4 & _) [H1 H2 H3]. split; congruence. Qed.

Lemma same_holds b b' i : same b b' -> holds b' i = holds b i.
Proof. intros (E1 & E2 & _). unfold holds. by rewrite E1, E2. Qed.

Lemma same_trans b1 b2 b3 : same b1 b2 -> same b2 b3 -> same b1 b3.
Proof. intros (?&?&?&?&?) (?&?&?&?&?). repeat split; congruence. Qed.

Lemma same_refl b : same b b.
Proof. by repeat split. Qed.

#[local] Hint Resolve same_refl same_core : core.

Lemma find_first_set_run k i b :
  core b -> 0 <= i -> exists b', find_first_set 32 k i b = Some (tt, b') /\ same b b'.
Proof.
  revert i. induction k as [|k IH]; intros i Hc Hi; cbn [find_first_set]; [eauto|].
  rewrite (ebind_run _ _ _ _ _ (test_run b i Hc Hi)). destruct (holds b i).
  - eexists. split; [reflexivity|by repeat split].
  - apply IH; [done|lia].
Qed.

Lemma find_last_set_run i b :
  core b -> exists b', find_last_set 32 i b = Some (tt, b') /\ same b b'.
Proof.
  intros Hc. induction i as [|i IH]; cbn [find_last_set]; [eauto|].
  rewrite (ebind_run _ _ _ _ _ (test_run b _ Hc (Zle_0_nat _))). destruct (holds b _); [|done].
  eexists. split; [reflexivity|by repeat split].
Qed.

(** Replacing the first clear bit. *)
Definition with_first_clear (v : Z) (b : ExtensibleBitmap) : ExtensibleBitmap :=
  mkBitmap (m_StaticMap b) (m_pDynamicMap b) (m_DynamicMapSize b) (m_nMaxBit b)
           (m_nFirstSetBit b) v (m_nLastSetBit b) (m_nLastClearBit b).

Lemma with_first_clear_core v b : core b -> core (with_first_clear v b).
Proof. by intros [? ? ?]. Qed.

Lemma with_first_clear_holds v b i : holds (with_first_clear v b) i = holds b i.
Proof. done. Qed.

(** More steps than there are bits to look at. *)
Definition loop_fuel (b : ExtensibleBitmap) : nat := Z.to_nat (32 + m_nMaxBit b + 3).

(** The loop of [set] stops at the next clear bit. *)
Lemma skip_set_run k : forall b,
  core b -> 0 <= m_nFirstClearBit b <= 32 + m_nMaxBit b + 1 ->
  Z.of_nat k = 32 + m_nMaxBit b + 1 - m_nFirstClearBit b ->
  exists c, (forall fuel, (S k <= fuel)%nat -> skip_set 32 fuel b = Some (tt, with_first_clear c b)) /\
    m_nFirstClearBit b < c <= Z.max (m_nFirstClearBit b + 1) (32 + m_nMaxBit b + 1) /\
    (forall i, m_nFirstClearBit b < i < c -> holds b i = true).
Proof.
  induction k as [k IH] using (well_founded_induction Nat.lt_wf_0). intros b Hc Hf Hk.
  pose proof (core_max b Hc) as Hx. set (c := m_nFirstClearBit b) in *.
  assert (Hw : wrap 32 (c + 1) = c + 1) by (apply wrap_small; split; [lia|]; change (2 ^ 32) with (2 * 2 ^ 31); lia).
  set (b1 := with_first_clear (c + 1) b).
  assert (Hstep : forall fuel, skip_set 32 (S fuel) b =
            if holds b (c + 1) then skip_set 32 fuel b1 else Some (tt, b1)).
  { intros fuel. cbn [skip_set]. unfold ebind at 1, egets. fold c. rewrite Hw.
    rewrite (ebind_run (put_first_clear (c + 1)) _ b tt b1) by done.
    rewrite (ebind_run _ _ _ _ _ (test_run b1 (c + 1) (with_first_clear_core _ _ Hc) ltac:(lia))).
    change (holds b1 (c + 1)) with (holds b (c + 1)). by destruct (holds b (c + 1)). }
  destruct (holds b (c + 1)) eqn:Hh.
  - assert (c + 1 <= 32 + m_nMaxBit b).
    { destruct (Z.le_gt_cases (c + 1) (32 + m_nMaxBit b)); [done|].
      by rewrite core_not_held in Hh by (done || lia). }
    destruct (IH (k - 1)%nat ltac:(lia) b1) as (c' & Hrun & Hr & Hall);
      [by apply with_first_clear_core|simpl; lia|simpl; lia|].
    change (m_nFirstClearBit b1) with (c + 1) in *. change (m_nMaxBit b1) with (m_nMaxBit b) in *.
    exists c'. split; [|split; [lia|]].
    + intros [|fuel] Hfu; [lia|]. rewrite Hstep, Hrun by lia. done.
    + intros i Hi. destruct (Z.eq_dec i (c + 1)) as [->|]; [done|]. rewrite <- (Hall i) by lia. done.
  - exists (c + 1). split; [|split; [lia|intros i Hi; lia]].
    intros [|fuel] Hfu; [lia|]. by rewrite Hstep.
Qed.

Lemma getFirstClear_run k : forall b,
  core b -> 0 <= m_nFirstClearBit b <= 32 + m_nMaxBit b + 1 ->
  Z.of_nat k = 32 + m_nMaxBit b + 1 - m_nFirstClearBit b ->
  exists c, (forall fuel, (S k <= fuel)%nat -> getFirstClear 32 fuel b = Some (c, with_first_clear c b)) /\
    m_nFirstClearBit b <= c <= 32 + m_nMaxBit b + 1 /\ holds b c = false /\
    (forall i, m_nFirstClearBit b <= i < c -> holds b i = true).
Proof.
  induction k as [k IH] using (well_founded_induction Nat.lt_wf_0). intros b Hc Hf Hk.
  pose proof (core_max b Hc) as Hx. set (c := m_nFirstClearBit b) in *.
  assert (Hw : wrap 32 (c + 1) = c + 1) by (apply wrap_small; split; [lia|]; change (2 ^ 32) with (2 * 2 ^ 31); lia).
  set (b1 := with_first_clear (c + 1) b).
  assert (Hstep : forall fuel, getFirstClear 32 (S fuel) b =
            if holds b c then getFirstClear 32 fuel b1 else Some (c, b)).
  { intros fuel. cbn [getFirstClear]. unfold ebind at 1, egets. fold c. rewrite Hw.
    rewrite (ebind_run _ _ _ _ _ (test_run b c Hc ltac:(lia))). by destruct (holds b c). }
  destruct (holds b c) eqn:Hh.
  - assert (c <= 32 + m_nMaxBit b).
    { destruct (Z.le_gt_cases c (32 + m_nMaxBit b)); [done|]. by rewrite core_not_held in Hh by (done || lia). }
    destruct (IH (k - 1)%nat ltac:(lia) b1) as (c' & Hrun & Hr & Hcl & Hall);
      [by apply with_first_clear_core|simpl; lia|simpl; lia|].
    change (m_nFirstClearBit b1) with (c + 1) in *. change (m_nMaxBit b1) with (m_nMaxBit b) in *.
    exists c'. split; [|split; [lia|split; [done|]]].
    + intros [|fuel] Hfu; [lia|]. rewrite Hstep, Hrun by lia. done.
    + intros i Hi. destruct (Z.eq_dec i c) as [->|]; [done|]. rewrite <- (Hall i) by lia. done.
  - exists c. split; [|split; [lia|split; [done|intros i Hi; lia]]].
    intros [|fuel] Hfu; [lia|]. rewrite Hstep. by destruct b.
Qed.

(** ** The operations on a well-formed bitmap *)

(** The bookkeeping at the start of [set] and [clear]. *)
Lemma ewhen_same c (m : Op unit) b :
  (exists b', m b = Some (tt, b') /\ same b b') -> exists b', ewhen c m b = Some (tt, b') /\ same b b'.
Proof. intros H. destruct c; [done|]. exists b. by split. Qed.

Lemma put_first_set_same v b : exists b', put_first_set v b = Some (tt, b') /\ same b b'.
Proof. eexists. split; [reflexivity|by repeat split]. Qed.

Lemma put_last_set_same v b : exists b', put_last_set v b = Some (tt, b') /\ same b b'.
Proof. eexists. split; [reflexivity|by repeat split]. Qed.

#[local] Hint Resolve ewhen_same put_first_set_same put_last_set_same : core.

Lemma set_run b n :
  wf b -> 0 <= n < 2 ^ 31 ->
  exists b', (forall fuel, (loop_fuel b <= fuel)%nat -> set 32 fuel n b = Some (tt, b')) /\ wf b' /\
    (forall i, 0 <= i -> holds b' i = (i =? n) || holds b i) /\
    (32 <= n \/ m_pDynamicMap b <> None -> m_pDynamicMap b' <> None).
Proof.
  intros [Hc Hfc Hfull] Hn.
  (* the first two tests *)
  assert (Hpre : exists b1, same b b1 /\ forall fuel, set 32 fuel n b =
    (fc <- egets m_nFirstClearBit ;; ewhen (n =? fc) (skip_set 32 fuel) ;; set_bit 32 n) b1).
  { unfold set. unfold ebind at 1, egets at 1.
    destruct (ewhen_same (n <? m_nFirstSetBit b) (put_first_set n) b) as (b1 & E1 & S1); [auto|].
    destruct (ewhen_same (m_nLastSetBit b1 <? n) (put_last_set n) b1) as (b2 & E2 & S2); [auto|].
    exists b2. split; [by eapply same_trans|]. intros fuel. rewrite (ebind_run _ _ _ _ _ E1).
    unfold ebind at 1, egets at 1. by rewrite (ebind_run _ _ _ _ _ E2). }
  destruct Hpre as (b1 & Hsame & Hrun). pose proof (same_core _ _ Hsame Hc) as Hc1.
  pose proof (fun i => same_holds b b1 i Hsame) as Hh1. destruct Hsame as (_ & Em & _ & Emx & Efc).
  rewrite <- Efc, <- Emx in Hfc. rewrite <- Efc in Hfull.
  assert (Hskip : exists b2, (forall fuel, (loop_fuel b <= fuel)%nat ->
      ewhen (n =? m_nFirstClearBit b1) (skip_set 32 fuel) b1 = Some (tt, b2)) /\
      core b2 /\ m_nMaxBit b2 = m_nMaxBit b1 /\ m_pDynamicMap b2 = m_pDynamicMap b1 /\
      (forall i, holds b2 i = holds b1 i) /\
      (forall i, 0 <= i < m_nFirstClearBit b2 -> (i =? n) || holds b i = true) /\
      0 <= m_nFirstClearBit b2 <= Z.max (n + 1) (32 + m_nMaxBit b2 + 1)).
  { destruct (Z.eqb_spec n (m_nFirstClearBit b1)) as [E|].
    - destruct (skip_set_run (Z.to_nat (32 + m_nMaxBit b1 + 1 - n)) b1) as (c & Hk & Hr & Hall); [done|done|lia|].
      exists (with_first_clear c b1). split; [intros fuel Hf; apply Hk; unfold loop_fuel in Hf; lia|]. split; [by apply with_first_clear_core|].
      do 3 (split; [done|]). simpl. split; [|lia]. intros i Hi.
      destruct (Z.eqb_spec i n) as [|Hne]; [done|]. destruct (Z.ltb_spec i n); [apply Hfull; lia|].
      rewrite <- Hh1. apply Hall. lia.
    - exists b1. split; [done|]. do 4 (split; [done|]). split; [|lia].
      intros i Hi. by rewrite Hfull, orb_true_r. }
  destruct Hskip as (b2 & Hs & Hc2 & Emx2 & Em2 & Hh2 & Hbelow & Hfc2).
  destruct (set_bit_run b2 n Hc2 Hn) as (b3 & Hset & Hc3 & Hh3 & Efc3 & Hmx3 & Hn3 & Hmap).
  exists b3. split; [|split; [|split]].
  - intros fuel Hf. rewrite Hrun. unfold ebind at 1, egets. by rewrite (ebind_run _ _ _ _ _ (Hs fuel Hf)).
  - split; [done|lia|]. intros i Hi. rewrite Hh3, Hh2, Hh1 by lia. apply Hbelow. by rewrite <- Efc3.
  - intros i Hi. by rewrite Hh3, Hh2, Hh1 by done.
  - intros H. apply Hmap. rewrite Em2, Em. done.
Qed.

Lemma clear_run b n :
  wf b -> 0 <= n -> clearable b n ->
  exists b', clear 32 n b = Some (tt, b') /\ wf b' /\
    (forall i, 0 <= i -> holds b' i = negb (i =? n) && holds b i).
Proof.
  intros [Hc Hfc Hfull] Hn Hcb. unfold clear. unfold ebind at 1, egets at 1.
  set (c := if n <? m_nFirstClearBit b then n else m_nFirstClearBit b).
  rewrite (ebind_run _ _ b tt (with_first_clear c b)) by (subst c; destruct (_ <? _); [done|by destruct b]).
  pose proof (with_first_clear_core c b Hc) as Hc0. set (b0 := with_first_clear c b) in *.
  unfold ebind at 1, egets at 1. unfold ebind at 1, egets at 1.
  destruct (ewhen_same (n =? m_nFirstSetBit b0) (find_first_set 32 (Z.to_nat (32 + m_nMaxBit b0 + 1 - n)) n) b0)
    as (b1 & E1 & S1); [by apply find_first_set_run|].
  rewrite (ebind_run _ _ _ _ _ E1). unfold ebind at 1, egets at 1.
  destruct (ewhen_same (n =? m_nLastSetBit b1) (put_last_set 0 ;; find_last_set 32 (Z.to_nat n)) b1) as (b2 & E2 & S2).
  { destruct (put_last_set_same 0 b1) as (b' & E & S'). rewrite (ebind_run _ _ _ _ _ E).
    destruct (find_last_set_run (Z.to_nat n) b') as (b'' & E' & S''); [eauto|].
    exists b''. split; [done|by eapply same_trans]. }
  rewrite (ebind_run _ _ _ _ _ E2). pose proof (same_trans _ _ _ S1 S2) as S.
  destruct (clear_bit_run b2 n (same_core _ _ S Hc0) Hn) as (b3 & Hcl & Hc3 & Hh3 & Efc3 & Emx3).
  { intros H E. apply (Hcb H). destruct S as (_ & Em & _). by rewrite E in Em. }
  exists b3. split; [done|].
  assert (Hh : forall i, 0 <= i -> holds b3 i = negb (i =? n) && holds b i)
    by (intros i Hi; rewrite Hh3, (same_holds b0 b2 i S) by done; done).
  split; [|done]. destruct S as (_ & _ & _ & Emx & Efc). rewrite Efc in Efc3. rewrite Emx in Emx3.
  change (m_nMaxBit b0) with (m_nMaxBit b) in Emx3. change (m_nFirstClearBit b0) with c in Efc3.
  split; [done| |].
  - rewrite Efc3, Emx3. subst c. destruct (Z.ltb_spec n (m_nFirstClearBit b)); lia.
  - intros i Hi. rewrite Efc3 in Hi. subst c. destruct (Z.ltb_spec n (m_nFirstClearBit b));
      rewrite Hh, Hfull, (proj2 (Z.eqb_neq i n)) by lia; done.
Qed.

(** ** Correctness *)

(** The operations on the set a bitmap represents. *)
Lemma set_represents b X n : represents b X -> 0 <= n < 2 ^ 31 ->
  exists b', (forall fuel, (loop_fuel b <= fuel)%nat -> set 32 fuel n b = Some (tt, b')) /\
    represents b' ({[n]} ∪ X) /\ clearable b' n.
Proof.
  intros [Hwf HX] Hn. destruct (set_run b n Hwf Hn) as (b' & Hrun & Hwf' & Hh & Hm). exists b'.
  split; [done|]. split; [split; [done|]|].
  - intros i Hi. rewrite Hh, HX by done. destruct (Z.eqb_spec i n) as [->|]; symmetry.
    + apply bool_decide_eq_true_2. set_solver.
    + apply bool_decide_ext. set_solver.
  - intros ->. apply Hm. by left.
Qed.

Lemma clear_represents b X n : represents b X -> 0 <= n -> clearable b n ->
  exists b', clear 32 n b = Some (tt, b') /\ represents b' (X ∖ {[n]}).
Proof.
  intros [Hwf HX] Hn Hcb. destruct (clear_run b n Hwf) as (b' & Hrun & Hwf' & Hh); [lia|done|]. exists b'.
  split; [done|]. split; [done|].
  intros i Hi. rewrite Hh, HX by done. destruct (Z.eqb_spec i n) as [->|]; symmetry.
  - apply bool_decide_eq_false_2. set_solver.
  - apply bool_decide_ext. set_solver.
Qed.

Lemma first_clear_represents b X : represents b X ->
  exists c b', (forall fuel, (loop_fuel b <= fuel)%nat -> getFirstClear 32 fuel b = Some (c, b')) /\
    represents b' X /\ 0 <= c /\ (c ∉ X) /\ forall i, 0 <= i < c -> i ∈ X.
Proof.
  intros [[Hc Hfc Hfull] HX].
  destruct (getFirstClear_run (Z.to_nat (32 + m_nMaxBit b + 1 - m_nFirstClearBit b)) b)
    as (c & Hrun & Hr & Hcl & Hall); [done|done|lia|].
  assert (Hbelow : forall i, 0 <= i < c -> holds b i = true).
  { intros i Hi. destruct (Z.ltb_spec i (m_nFirstClearBit b)); [apply Hfull|apply Hall]; lia. }
  exists c, (with_first_clear c b). split; [intros fuel Hf; apply Hrun; unfold loop_fuel in Hf; lia|].
  split; [|split; [lia|split]].
  - split; [split; [by apply with_first_clear_core|simpl; lia|exact Hbelow]|exact HX].
  - rewrite HX in Hcl by lia. by apply bool_decide_eq_false in Hcl.
  - intros i Hi. specialize (Hbelow i Hi). rewrite HX in Hbelow by lia. by apply bool_decide_eq_true in Hbelow.
Qed.

(** C35. [ExtensibleBitmap] implements a finite set: the fresh bitmap is empty,
    [set] adds an index and [clear] removes one, [test] tells membership and
    [getFirstClear] returns the least index that is not in the set; every loop
    ends and no access leaves the array.  [clear] of the first index past the
    static word needs the array to exist. *)
Theorem bitmap_refines_set b X n :
  represents b X -> 0 <= n < 2 ^ 31 -> clearable b n ->
  (exists N b', (forall fuel, (N <= fuel)%nat -> set 32 fuel n b = Some (tt, b')) /\
     represents b' ({[n]} ∪ X) /\ clearable b' n) /\
  (exists b', clear 32 n b = Some (tt, b') /\ represents b' (X ∖ {[n]})) /\
  test 32 n b = Some (bool_decide (n ∈ X), b) /\
  (exists N c b', (forall fuel, (N <= fuel)%nat -> getFirstClear 32 fuel b = Some (c, b')) /\
     represents b' X /\ (c ∉ X) /\ forall i, 0 <= i < c -> i ∈ X).
Proof.
  intros Hr Hn Hcb. split; [destruct (set_represents b X n Hr Hn) as (b' & Hb'); by exists (loop_fuel b), b'|]. split; [by apply clear_represents; [|lia|]|]. split.
  - destruct Hr as [Hwf HX]. rewrite <- HX by lia. apply test_run; [apply Hwf|lia].
  - destruct (first_clear_represents b X Hr) as (c & b' & H1 & H2 & _ & H3). by exists (loop_fuel b), c, b'.
Qed.

Lemma empty_represents : represents empty_bitmap ∅.
Proof.
  split.
  - split; [split; [by vm_compute|by split|by vm_compute]|by vm_compute|simpl; lia].
  - intros i Hi. rewrite bool_decide_eq_false_2 by set_solver. unfold holds. simpl.
    rewrite Z.bits_0. by destruct (i <? 32).
Qed.

(** A copy of a bitmap whose array exists holds the same elements; so does the
    target of an assignment whose array is not the longer one. *)
Lemma copy_same b : m_pDynamicMap b <> None -> copy b = b.
Proof. destruct b as [s m sz mx fs fc ls lc]. unfold copy. simpl. by destruct m. Qed.

Lemma assign_represents a b :
  wf a -> wf b -> m_DynamicMapSize a <= m_DynamicMapSize b -> 0 < m_DynamicMapSize b ->
  assign a b = b.
Proof.
  intros [[_ Ha _] _ _] [[_ Hb _] _ _] Hle Hpos. destruct a as [s m sz mx fs fc ls lc], b as [s' m' sz' mx' fs' fc' ls' lc'].
  unfold assign. simpl in *. destruct m' as [l'|]; destruct Hb as (Hl & Hb); [|lia].
  destruct (Z.ltb_spec sz sz'); [done|]. destruct (Z.eqb_spec sz' 0); [lia|].
  assert (sz = sz') by lia. subst sz. destruct m as [l|]; destruct Ha as (Ha & _); [|lia].
  rewrite drop_ge, app_nil_r by lia. done.
Qed.

Lemma bitmap_refines_set_witness :
  (exists N b', (forall fuel, (N <= fuel)%nat -> set 32 fuel 40 empty_bitmap = Some (tt, b')) /\
     represents b' ({[40]} ∪ ∅) /\ clearable b' 40) /\
  test 32 40 empty_bitmap = Some (false, empty_bitmap).
Proof.
  destruct (bitmap_refines_set empty_bitmap ∅ 40 empty_represents) as (H1 & _ & H2 & _);
    [by vm_compute|intros [=]|]. split; [exact H1|exact H2].
Defined.

(** ** What the code gets wrong *)

(** [getFirstSet]: the cached index starts at 0 and [set] only lowers it; when
    [clear] looks for the next set bit the bit being cleared is still set. *)
Example first_set_wrong :
  (set 32 9 5 ;; getFirstSet)%err empty_bitmap = Some (0, mkBitmap 32 None 0 0 0 0 5 0) /\
  (set 32 9 0 ;; set 32 9 5 ;; clear 32 0 ;; getFirstSet)%err empty_bitmap =
    Some (0, mkBitmap 32 None 0 0 0 0 5 0) /\
  (set 32 9 5 ;; clear 32 5 ;; getLastSet)%err empty_bitmap = Some (5, mkBitmap 0 None 0 0 0 0 5 0).
Proof. by vm_compute. Qed.

(** [clear] of the first bit past the static word dereferences null in a
    bitmap without an array. *)
Example clear_faults : clear 32 32 empty_bitmap = None.
Proof. by vm_compute. Qed.

(** The copy of an empty bitmap has an array of no bytes, and [test] reads it. *)
Example copy_faults : test 32 32 (copy empty_bitmap) = None.
Proof. by vm_compute. Qed.

(** Assigning the empty bitmap leaves the old bytes in place; setting a high
    bit brings the old elements back. *)
Example assign_keeps_old_bits :
  match set 32 9 100 empty_bitmap with
  | Some (_, b) => (set 32 9 101 ;; test 32 100)%err (assign b empty_bitmap)
  | None => None
  end = match (set 32 9 100 ;; set 32 9 101)%err empty_bitmap with
        | Some (_, b) => Some (true, mkBitmap 0 (m_pDynamicMap b) 16 69 0 0 101 0)
        | None => None
        end.
Proof. by vm_compute. Qed.

(** Where [uintptr_t] has 64 bits [1 << n] is still a shift of an [int]. *)
Example shift_too_far fuel : set 64 (S fuel) 40 empty_bitmap = None.
Proof. by vm_compute. Qed.
