(* ===== verification/Cpu.v ===== *)
(** * Processor, threads and spinlocks

    The state the process management of one processor works on: the threads
    ([include/process/Thread.h]), the spinlocks ([kernel/Spinlock.cc]), the
    ready queues of the scheduling algorithm and the interrupt flag.  Pointers
    to threads are positive numbers.  A panic ([FATAL]) does not return: it is
    a fault of the computation. *)
From Stdlib Require Import ZArith Lia List Bool.
From stdpp Require Import base gmap list fin_maps.
From S2P Require Import Prelude.
Import ListNotations.
Local Open Scope err_scope.

Definition tid : Set := positive.

Inductive Status : Set := Ready | Running | Sleeping | Zombie | AwaitingJoin | Suspended.

#[export] Instance Status_eq_dec : EqDecision Status.
Proof. solve_decision. Defined.

(** [m_bSaved] is the interrupt state the thread goes on with when it gets the
    processor: what it restores when [saveState] returns again; a new thread
    starts with interrupts enabled. *)
Record Thread := mkThread {
  m_Status : Status;
  m_Priority : nat;
  m_bDetached : bool;
  m_pWaiter : option tid;
  m_bSaved : option bool
}.

(** [m_Atom] is true when the lock is free. *)
Record Spinlock := mkSpinlock {
  m_bInterrupts : bool;
  m_Atom : bool;
  m_pOwner : option tid;
  m_Level : nat
}.

Definition new_spinlock : Spinlock := mkSpinlock false true None 0.

(** The locks: one of each kind in a thread, and those of other objects. *)
Inductive lockref : Set := ThreadLock (t : tid) | ConcurrencyLock (t : tid) | ObjectLock (p : positive).

#[export] Instance lockref_eq_dec : EqDecision lockref.
Proof. solve_decision. Defined.

#[export] Instance lockref_countable : Countable lockref.
Proof.
  refine (inj_countable'
    (fun l => match l with ThreadLock t => (0%nat, t) | ConcurrencyLock t => (1%nat, t) | ObjectLock t => (2%nat, t) end)
    (fun p => match p with (0%nat, t) => ThreadLock t | (1%nat, t) => ConcurrencyLock t | (_, t) => ObjectLock t end) _).
  by intros [].
Defined.

Record Cpu := mkCpu {
  threads : gmap tid Thread;
  locks : gmap lockref Spinlock;
  m_TPMap : gset tid;
  m_pReadyQueues : list (list tid);
  currentThread : tid;
  m_pIdleThread : option tid;
  interrupts : bool
}.

Definition Op (A : Type) : Type := StateE Cpu A.

(** ** Access to the state *)

Definition with_threads (f : gmap tid Thread -> gmap tid Thread) (s : Cpu) : Cpu :=
  mkCpu (f (threads s)) (locks s) (m_TPMap s) (m_pReadyQueues s) (currentThread s) (m_pIdleThread s) (interrupts s).
Definition with_lock (l : lockref) (k : Spinlock) (s : Cpu) : Cpu :=
  mkCpu (threads s) (<[l := k]> (locks s)) (m_TPMap s) (m_pReadyQueues s) (currentThread s) (m_pIdleThread s) (interrupts s).
Definition with_TPMap (f : gset tid -> gset tid) (s : Cpu) : Cpu :=
  mkCpu (threads s) (locks s) (f (m_TPMap s)) (m_pReadyQueues s) (currentThread s) (m_pIdleThread s) (interrupts s).
Definition with_queues (q : list (list tid)) (s : Cpu) : Cpu :=
  mkCpu (threads s) (locks s) (m_TPMap s) q (currentThread s) (m_pIdleThread s) (interrupts s).
Definition with_current (t : tid) (s : Cpu) : Cpu :=
  mkCpu (threads s) (locks s) (m_TPMap s) (m_pReadyQueues s) t (m_pIdleThread s) (interrupts s).
Definition with_idle (t : option tid) (s : Cpu) : Cpu :=
  mkCpu (threads s) (locks s) (m_TPMap s) (m_pReadyQueues s) (currentThread s) t (interrupts s).
Definition with_interrupts (b : bool) (s : Cpu) : Cpu :=
  mkCpu (threads s) (locks s) (m_TPMap s) (m_pReadyQueues s) (currentThread s) (m_pIdleThread s) b.

Definition setInterrupts (b : bool) : Op unit := emodify (with_interrupts b).
Definition getInterrupts : Op bool := egets interrupts.

(** [pThread->field]; a dangling pointer is a fault. *)
Definition tfield {A} (f : Thread -> A) (t : tid) : Op A :=
  fun s => match threads s !! t with Some th => Some (f th, s) | None => None end.

Definition tmodify (f : Thread -> Thread) (t : tid) : Op unit :=
  fun s => match threads s !! t with
           | Some th => Some (tt, with_threads <[t := f th]> s)
           | None => None
           end.

Definition with_status (v : Status) (th : Thread) : Thread :=
  mkThread v (m_Priority th) (m_bDetached th) (m_pWaiter th) (m_bSaved th).
Definition with_detached (v : bool) (th : Thread) : Thread :=
  mkThread (m_Status th) (m_Priority th) v (m_pWaiter th) (m_bSaved th).
Definition with_waiter (v : option tid) (th : Thread) : Thread :=
  mkThread (m_Status th) (m_Priority th) (m_bDetached th) v (m_bSaved th).
Definition with_saved (v : option bool) (th : Thread) : Thread :=
  mkThread (m_Status th) (m_Priority th) (m_bDetached th) (m_pWaiter th) v.

(** A lock that was never touched is as its constructor left it. *)
Definition lock_of (l : lockref) (s : Cpu) : Spinlock := default new_spinlock (locks s !! l).

Definition put_lock (l : lockref) (k : Spinlock) : Op unit := emodify (with_lock l k).

(** ** Spinlocks *)

(** [Spinlock::acquire] on one processor: a lock that another thread holds is
    a deadlock, which panics. *)
Definition acquire (l : lockref) : Op bool :=
  pThread <- egets currentThread ;;
  bInterrupts <- getInterrupts ;;
  ewhen bInterrupts (setInterrupts false) ;;
  k <- egets (lock_of l) ;;
  k <- (if m_Atom k then eret (mkSpinlock (m_bInterrupts k) false (m_pOwner k) (m_Level k))
        else if bool_decide (m_pOwner k = Some pThread)
        then eret (mkSpinlock (m_bInterrupts k) false (m_pOwner k) (S (m_Level k)))
        else efail) ;;
  let k := match m_pOwner k with
           | None => mkSpinlock (m_bInterrupts k) (m_Atom k) (Some pThread) 1
           | Some _ => k
           end in
  put_lock l (mkSpinlock bInterrupts (m_Atom k) (m_pOwner k) (m_Level k)) ;;
  eret true.

Definition exit_ (l : lockref) : Op unit :=
  bWasInterrupts <- getInterrupts ;;
  if bWasInterrupts then efail
  else
    k <- egets (lock_of l) ;;
    let level := (m_Level k - 1)%nat in
    if (0 <? level)%nat then put_lock l (mkSpinlock (m_bInterrupts k) (m_Atom k) (m_pOwner k) level)
    else if m_Atom k then efail
    else put_lock l (mkSpinlock (m_bInterrupts k) true None level).

Definition release (l : lockref) : Op unit :=
  k <- egets (lock_of l) ;;
  exit_ l ;;
  ewhen (m_bInterrupts k) (setInterrupts true).

Definition unwind (l : lockref) : Op unit :=
  k <- egets (lock_of l) ;; put_lock l (mkSpinlock (m_bInterrupts k) (m_Atom k) None 0).

(** [m_Atom.m_Atom = 1], as the context switch does it. *)
Definition open_atom (l : lockref) : Op unit :=
  k <- egets (lock_of l) ;; put_lock l (mkSpinlock (m_bInterrupts k) true (m_pOwner k) (m_Level k)).

(** ** Properties of spinlocks *)

(** Nobody holds the lock. *)
Definition free (k : Spinlock) : Prop := m_Atom k = true /\ m_pOwner k = None /\ m_Level k = 0%nat.

(** The lock of the thread [t], held once, taken while interrupts were [b]. *)
Definition held (b : bool) (t : tid) : Spinlock := mkSpinlock b false (Some t) 1.

Definition unheld (b : bool) : Spinlock := mkSpinlock b true None 0.

Lemma free_new : free new_spinlock.
Proof. done. Qed.

Lemma free_unheld b : free (unheld b).
Proof. done. Qed.

#[export] Hint Resolve free_new free_unheld : core.

Lemma lock_of_eq l k s : lock_of l (with_lock l k s) = k.
Proof. unfold lock_of. simpl. by rewrite lookup_insert_eq. Qed.

Lemma lock_of_ne l l' k s : l <> l' -> lock_of l' (with_lock l k s) = lock_of l' s.
Proof. intros H. unfold lock_of. simpl. by rewrite lookup_insert_ne. Qed.

Lemma with_interrupts_same s b : interrupts s = b -> with_interrupts b s = s.
Proof. intros <-. by destruct s. Qed.

Lemma acquire_run l s :
  free (lock_of l s) ->
  acquire l s = Some (true, with_lock l (held (interrupts s) (currentThread s)) (with_interrupts false s)).
Proof.
  intros (H1 & H2 & H3). unfold acquire, getInterrupts, setInterrupts, ewhen, ebind, egets, emodify, eret, put_lock.
  destruct (interrupts s) eqn:E; simpl; unfold lock_of in *; simpl.
  - rewrite H1. simpl. rewrite H2. done.
  - rewrite H1. simpl. rewrite H2. by rewrite with_interrupts_same.
Qed.

Lemma exit_run l b t s :
  interrupts s = false -> lock_of l s = held b t -> exit_ l s = Some (tt, with_lock l (unheld b) s).
Proof.
  intros Hi Hl. unfold exit_, getInterrupts, ebind, egets. rewrite Hi, Hl. done.
Qed.

Lemma release_run l b t s :
  interrupts s = false -> lock_of l s = held b t ->
  release l s = Some (tt, with_interrupts b (with_lock l (unheld b) s)).
Proof.
  intros Hi Hl. unfold release, ebind at 1, egets.
  rewrite (ebind_run _ _ _ _ _ (exit_run l b t s Hi Hl)), Hl. unfold ewhen, setInterrupts, emodify, eret. simpl.
  destruct b; [done|]. rewrite with_interrupts_same; [done|]. by destruct s.
Qed.

Lemma unwind_open_run l s :
  ebind (unwind l) (fun _ => open_atom l) s = Some (tt, with_lock l (unheld (m_bInterrupts (lock_of l s))) s).
Proof.
  unfold unwind, open_atom, ebind, egets, put_lock, emodify. simpl. rewrite lock_of_eq. simpl.
  unfold with_lock at 1. simpl. by rewrite insert_insert_eq.
Qed.

(** A second acquisition by the owner forgets the interrupt state the first
    one saved: after both releases interrupts stay disabled. *)
Example reentry_loses_interrupts (l : lockref) s :
  l = ObjectLock 1 -> s = mkCpu ∅ ∅ ∅ [] 1%positive None true ->
  option_map (fun r => interrupts r.2) ((acquire l ;; acquire l ;; release l ;; release l) s) = Some false.
Proof. by intros -> ->. Qed.

(** A lock held by another thread is never taken. *)
Lemma acquire_held l b t s :
  lock_of l s = held b t -> t <> currentThread s -> acquire l s = None.
Proof.
  intros Hl Ht. unfold acquire, getInterrupts, setInterrupts, ewhen, ebind, egets, emodify, eret.
  destruct (interrupts s); unfold lock_of in *; simpl; rewrite Hl; simpl;
    (rewrite bool_decide_eq_false_2; [done|congruence]).
Qed.
