(* ===== verification/Sched.v ===== *)
(** * The scheduler

    [kernel/core/process/RoundRobin.cc] and [PerProcessorScheduler.cc], with
    the parts of [Thread.cc] and [Scheduler.cc] they work with, on one
    processor.  The context switch is one step: the state of the old thread is
    saved and the new one goes on from where its own state was saved; what it
    restores is its interrupt state.  Address spaces, stacks and pending events
    are not modelled, nor is the check of [schedule] that the lock passed to it is not the
    state level of the next thread, and threads have no parent process to notify. *)
From Stdlib Require Import ZArith Lia List Bool.
From stdpp Require Import base gmap list fin_maps.
From S2P Require Import Prelude Cpu.
Import ListNotations.
Local Open Scope err_scope.
#[local] Set Warnings "-clear-no-such-hyp".

Definition MAX_PRIORITIES : nat := 8.
Definition DEFAULT_PRIORITY : nat := 1.

Definition same_tid (t u : tid) : bool := bool_decide (t = u).
Definition is_idle (t : tid) (i : option tid) : bool := bool_decide (Some t = i).

(** ** RoundRobin *)

(** [List::erase] of the first node that holds [t]. *)
Fixpoint erase_first (t : tid) (q : list tid) : list tid :=
  match q with
  | [] => []
  | u :: q' => if same_tid u t then q' else u :: erase_first t q'
  end.

Definition mem_tid (t : tid) (q : list tid) : bool := existsb (same_tid t) q.

(** The first queue that holds [t] loses it. *)
Fixpoint remove_from (t : tid) (qs : list (list tid)) : list (list tid) :=
  match qs with
  | [] => []
  | q :: qs' => if mem_tid t q then erase_first t q :: qs' else q :: remove_from t qs'
  end.

Definition RoundRobin_removeThread (t : tid) : Op unit :=
  qs <- egets m_pReadyQueues ;; emodify (with_queues (remove_from t qs)).

(** The loop of [getNext]: the head of the first queue that is not empty; when
    it is the current thread, it is dropped and the next queue is tried. *)
Fixpoint next_of (cur : tid) (qs : list (list tid)) : option tid * list (list tid) :=
  match qs with
  | [] => (None, [])
  | [] :: qs' => let (r, qs'') := next_of cur qs' in (r, [] :: qs'')
  | (t :: q) :: qs' =>
      if same_tid t cur then let (r, qs'') := next_of cur qs' in (r, q :: qs'')
      else (Some t, q :: qs')
  end.

Definition getNext (pCurrentThread : tid) : Op (option tid) :=
  qs <- egets m_pReadyQueues ;;
  let (r, qs') := next_of pCurrentThread qs in
  emodify (with_queues qs') ;;
  match r with
  | Some t => acquire (ThreadLock t) ;; eret (Some t)
  | None => eret None
  end.

(** A ready thread joins the end of the queue of its priority, once. *)
Definition threadStatusChanged (t : tid) : Op unit :=
  st <- tfield m_Status t ;;
  ewhen (bool_decide (st = Ready))
    (p <- tfield m_Priority t ;; qs <- egets m_pReadyQueues ;;
     match qs !! p with
     | None => efail
     | Some q => ewhen (negb (mem_tid t q)) (emodify (with_queues (<[p := q ++ [t]]> qs)))
     end).

(** ** Threads *)

Definition setStatus (st : Status) (t : tid) : Op unit :=
  tmodify (with_status st) t ;; threadStatusChanged t.

(** [Scheduler::removeThread]. *)
Definition Scheduler_removeThread (t : tid) : Op unit :=
  m <- egets m_TPMap ;;
  ewhen (bool_decide (t ∈ m)) (RoundRobin_removeThread t ;; emodify (with_TPMap (fun m => m ∖ {[t]}))).

(** [Thread::shutdown] without pending requests. *)
Definition shutdown (t : tid) : Op unit :=
  w <- tfield m_pWaiter t ;;
  match w with
  | Some w => acquire (ThreadLock w) ;; setStatus Ready w ;; release (ThreadLock w)
  | None => eret tt
  end ;;
  acquire (ConcurrencyLock t) ;;
  d <- tfield m_bDetached t ;;
  ewhen (negb d) (tmodify (with_status AwaitingJoin) t) ;;
  release (ConcurrencyLock t).

(** [delete pThread] after [shutdown]. *)
Definition delete_thread (t : tid) : Op unit :=
  Scheduler_removeThread t ;; emodify (with_threads (delete t)).

(** ** PerProcessorScheduler *)

(** [saveState] returned again in [t]: interrupts are as they were. *)
Definition resume (t : tid) : Op unit :=
  b <- tfield m_bSaved t ;;
  match b with Some b => setInterrupts b | None => efail end.

(** The thread that runs next when no thread was named, or [None] when the
    current one goes on. *)
Definition choose (nextStatus : Status) (pCurrentThread : tid) : Op (option tid) :=
  n <- getNext pCurrentThread ;;
  match n with
  | Some t => eret (Some t)
  | None =>
      if bool_decide (nextStatus = Ready) then eret None
      else
        i <- egets m_pIdleThread ;;
        match i with
        | None => efail
        | Some t =>
            ewhen (negb (same_tid t pCurrentThread)) (acquire (ThreadLock t) ;; eret tt) ;;
            eret (Some t)
        end
  end.

(** Both threads are locked: switch from one to the other.  [pLock] is released
    without enabling interrupts; what it saved goes into the state to restore. *)
Definition switch_to (nextStatus : Status) (pLock : option lockref) (bWasInterrupts : bool)
    (pCurrentThread pNextThread : tid) : Op unit :=
  i <- egets m_pIdleThread ;;
  ewhen (negb (is_idle pCurrentThread i)) (setStatus nextStatus pCurrentThread) ;;
  setStatus Running pNextThread ;;
  emodify (with_current pNextThread) ;;
  bWasInterrupts <- match pLock with
                    | Some l => k <- egets (lock_of l) ;; exit_ l ;;
                                eret (m_bInterrupts k || bWasInterrupts)
                    | None => eret bWasInterrupts
                    end ;;
  release (ThreadLock pNextThread) ;;
  tmodify (with_saved (Some bWasInterrupts)) pCurrentThread ;;
  (unwind (ThreadLock pCurrentThread) ;; open_atom (ThreadLock pCurrentThread)) ;;
  resume pNextThread.

Definition schedule (nextStatus : Status) (pNewThread : option tid) (pLock : option lockref) : Op unit :=
  bWasInterrupts <- getInterrupts ;; setInterrupts false ;;
  pCurrentThread <- egets currentThread ;;
  acquire (ThreadLock pCurrentThread) ;;
  n <- match pNewThread with
       | None => choose nextStatus pCurrentThread
       | Some t =>
           ewhen (negb (same_tid t pCurrentThread)) (acquire (ThreadLock t) ;; eret tt) ;;
           eret (Some t)
       end ;;
  match n with
  | None => release (ThreadLock pCurrentThread) ;; setInterrupts bWasInterrupts
  | Some pNextThread => switch_to nextStatus pLock bWasInterrupts pCurrentThread pNextThread
  end.

(** [sleep] of a thread without pending events. *)
Definition sleep (pLock : option lockref) : Op unit := schedule Sleeping None pLock.

(** The timer's handler. *)
Definition timer : Op unit := schedule Ready None None.

(** [addThread] on the processor of the thread: the new thread starts at once,
    with interrupts enabled. *)
Definition addThread (pThread : tid) : Op unit :=
  bWasInterrupts <- getInterrupts ;; setInterrupts false ;;
  pCurrentThread <- egets currentThread ;;
  acquire (ThreadLock pCurrentThread) ;;
  i <- egets m_pIdleThread ;;
  ewhen (negb (is_idle pCurrentThread i)) (setStatus Ready pCurrentThread) ;;
  setStatus Running pThread ;;
  emodify (with_current pThread) ;;
  k <- egets (lock_of (ThreadLock pThread)) ;;
  let bWasInterrupts := m_bInterrupts k || bWasInterrupts in
  (unwind (ThreadLock pThread) ;; open_atom (ThreadLock pThread)) ;;
  tmodify (with_saved (Some bWasInterrupts)) pCurrentThread ;;
  (unwind (ThreadLock pCurrentThread) ;; open_atom (ThreadLock pCurrentThread)) ;;
  setInterrupts true.

(** The constructor of [Thread]; [t] is the address it gets. *)
Definition new_thread (t : tid) : Op unit :=
  emodify (with_threads <[t := mkThread Ready DEFAULT_PRIORITY false None (Some true)]>) ;;
  emodify (with_lock (ThreadLock t) new_spinlock) ;;
  emodify (with_lock (ConcurrencyLock t) new_spinlock) ;;
  acquire (ThreadLock t) ;;
  emodify (with_TPMap (fun m => {[t]} ∪ m)) ;;
  addThread t.

Definition deleteThread (t : tid) : Op unit :=
  d <- tfield m_bDetached t ;; ewhen d (delete_thread t).

Definition killCurrentThread : Op unit :=
  pThread <- egets currentThread ;;
  shutdown pThread ;;
  setInterrupts false ;;
  acquire (ThreadLock pThread) ;;
  n <- getNext pThread ;;
  pNextThread <- match n with
                 | Some t => eret t
                 | None =>
                     i <- egets m_pIdleThread ;;
                     match i with
                     | None => efail
                     | Some t =>
                         ewhen (negb (same_tid t pThread)) (acquire (ThreadLock t) ;; eret tt) ;; eret t
                     end
                 end ;;
  setStatus Running pNextThread ;;
  emodify (with_current pNextThread) ;;
  exit_ (ThreadLock pNextThread) ;;
  deleteThread pThread ;;
  resume pNextThread.

Definition setIdle (t : tid) : Op unit := emodify (with_idle (Some t)).

(** ** Waking, joining and detaching *)

(** How [Semaphore::release] and [sendEvent] make a thread ready. *)
Definition wake (t : tid) : Op unit :=
  acquire (ThreadLock t) ;; setStatus Ready t ;; release (ThreadLock t).

(** [Thread::join] up to the point where the caller goes to sleep ([Some true]),
    and what follows when it was woken.  [None] of the result: refused. *)
Definition join_begin (t : tid) : Op (option bool) :=
  pThisThread <- egets currentThread ;;
  acquire (ConcurrencyLock t) ;;
  d <- tfield m_bDetached t ;;
  if d then release (ConcurrencyLock t) ;; eret None
  else
    st <- tfield m_Status t ;;
    if bool_decide (st = AwaitingJoin) then release (ConcurrencyLock t) ;; eret (Some false)
    else
      w <- tfield m_pWaiter t ;;
      match w with
      | Some _ => release (ConcurrencyLock t) ;; eret None
      | None => tmodify (with_waiter (Some pThisThread)) t ;; release (ConcurrencyLock t) ;; eret (Some true)
      end.

Definition join_end (t : tid) : Op bool := delete_thread t ;; eret true.

(** [Thread::detach] of a thread that has not exited. *)
Definition detach (t : tid) : Op bool :=
  st <- tfield m_Status t ;;
  if bool_decide (st = AwaitingJoin) then join_end t
  else
    acquire (ConcurrencyLock t) ;;
    w <- tfield m_pWaiter t ;;
    match w with
    | Some _ => release (ConcurrencyLock t) ;; eret false
    | None => tmodify (with_detached true) t ;; release (ConcurrencyLock t) ;; eret true
    end.

(** ** Comparing threads *)

Lemma mem_tid_spec t q : mem_tid t q = bool_decide (t ∈ q).
Proof.
  induction q as [|u q IH]; [by rewrite bool_decide_eq_false_2 by set_solver|].
  simpl. rewrite IH. unfold same_tid. repeat case_bool_decide; set_solver.
Qed.

Lemma same_tid_refl t : same_tid t t = true.
Proof. by apply bool_decide_eq_true. Qed.

Lemma same_tid_ne t u : t <> u -> same_tid t u = false.
Proof. apply bool_decide_eq_false_2. Qed.
