(* ===== verification/SchedInv.v ===== *)
(** * The scheduler's invariant

    What holds of the processor between two operations of the scheduler, how
    each operation runs when it holds, and that each keeps it. *)
From Stdlib Require Import ZArith Lia List Bool.
From stdpp Require Import base gmap list fin_maps.
From S2P Require Import Prelude Cpu Sched.
Import ListNotations.
#[local] Set Warnings "-clear-no-such-hyp".

Record Inv (s : Cpu) : Prop := mkInv {
  inv_len : length (m_pReadyQueues s) = MAX_PRIORITIES;
  inv_cur : exists th, threads s !! currentThread s = Some th /\ m_Status th = Running;
  inv_idle : forall i, m_pIdleThread s = Some i -> exists th, threads s !! i = Some th /\ m_Status th = Running;
  inv_queue : forall p q t, m_pReadyQueues s !! p = Some q -> t ∈ q ->
    exists th, threads s !! t = Some th /\ m_Status th = Ready /\ m_Priority th = p;
  inv_nodup : forall p q, m_pReadyQueues s !! p = Some q -> NoDup q;
  inv_ready : forall t th, threads s !! t = Some th -> m_Status th = Ready ->
    exists q, m_pReadyQueues s !! m_Priority th = Some q /\ t ∈ q;
  inv_running : forall t th, threads s !! t = Some th -> m_Status th = Running ->
    t = currentThread s \/ Some t = m_pIdleThread s;
  inv_locks : forall t th, threads s !! t = Some th ->
    (m_Status th <> AwaitingJoin -> free (lock_of (ThreadLock t) s)) /\ free (lock_of (ConcurrencyLock t) s);
  inv_saved : forall t th, threads s !! t = Some th -> m_Status th <> AwaitingJoin ->
    t <> currentThread s -> m_bSaved th <> None;
  inv_prio : forall t th, threads s !! t = Some th -> (m_Priority th < MAX_PRIORITIES)%nat;
  inv_waiter : forall t th, threads s !! t = Some th -> m_pWaiter th = None;
  inv_map : m_TPMap s = dom (threads s)
}.

(** ** Queues *)

(** The choice of [getNext] when the current thread is in no queue. *)
Lemma next_of_spec cur qs :
  (forall q, q ∈ qs -> cur ∉ q) ->
  match next_of cur qs with
  | (Some t, qs') => exists i q, qs !! i = Some (t :: q) /\ qs' = <[i := q]> qs /\
                                 forall j, (j < i)%nat -> qs !! j = Some []
  | (None, qs') => qs' = qs /\ Forall (fun q => q = []) qs
  end.
Proof.
  induction qs as [|q qs IH]; intros Hc; simpl; [done|].
  destruct q as [|t q].
  - specialize (IH ltac:(set_solver)). destruct (next_of cur qs) as [[t|] qs'].
    + destruct IH as (i & q & Hi & -> & Hj). exists (S i), q. split; [done|]. split; [done|].
      intros [|j] Hlt; [done|]. apply Hj. lia.
    + destruct IH as [-> ?]. split; [done|]. by constructor.
  - rewrite same_tid_ne by (intros ->; apply (Hc (cur :: q)); set_solver).
    exists 0%nat, q. split; [done|]. split; [done|]. intros j Hj. lia.
Qed.

Definition enqueue (t : tid) (p : nat) (qs : list (list tid)) : list (list tid) :=
  match qs !! p with Some q => <[p := q ++ [t]]> qs | None => qs end.

Lemma length_enqueue t p qs : length (enqueue t p qs) = length qs.
Proof. unfold enqueue. destruct (qs !! p); [apply length_insert|done]. Qed.

Lemma lookup_enqueue t p qs j :
  enqueue t p qs !! j = (if bool_decide (j = p) then (fun q => q ++ [t]) <$> qs !! j else qs !! j).
Proof.
  unfold enqueue. case_bool_decide as E.
  - subst j. destruct (qs !! p) eqn:Ep; [|by rewrite Ep]. simpl.
    apply list_lookup_insert_eq. by eapply lookup_lt_Some.
  - destruct (qs !! p) eqn:Ep; [|done]. by rewrite list_lookup_insert_ne.
Qed.

(** ** Runs of the small operations *)

Lemma tmodify_run f t th s :
  threads s !! t = Some th -> tmodify f t s = Some (tt, with_threads <[t := f th]> s).
Proof. intros H. unfold tmodify. by rewrite H. Qed.

Lemma tfield_run {A} (f : Thread -> A) t th s : threads s !! t = Some th -> tfield f t s = Some (f th, s).
Proof. intros H. unfold tfield. by rewrite H. Qed.

Lemma lookup_with_threads t th s : threads (with_threads <[t := th]> s) !! t = Some th.
Proof. apply lookup_insert_eq. Qed.

(** A status other than [Ready]. *)
Lemma setStatus_other st t th s :
  threads s !! t = Some th -> st <> Ready ->
  setStatus st t s = Some (tt, with_threads <[t := with_status st th]> s).
Proof.
  intros Ht Hst. unfold setStatus. rewrite (ebind_run _ _ _ _ _ (tmodify_run _ _ _ _ Ht)).
  unfold threadStatusChanged. rewrite (ebind_run _ _ _ _ _ (tfield_run _ _ _ _ (lookup_with_threads _ _ _))).
  unfold ewhen. by rewrite bool_decide_eq_false_2.
Qed.

Lemma setStatus_ready t th q s :
  threads s !! t = Some th -> m_pReadyQueues s !! m_Priority th = Some q -> t ∉ q ->
  setStatus Ready t s =
    Some (tt, with_queues (enqueue t (m_Priority th) (m_pReadyQueues s)) (with_threads <[t := with_status Ready th]> s)).
Proof.
  intros Ht Hq Hn. unfold setStatus. rewrite (ebind_run _ _ _ _ _ (tmodify_run _ _ _ _ Ht)).
  unfold threadStatusChanged. rewrite (ebind_run _ _ _ _ _ (tfield_run _ _ _ _ (lookup_with_threads _ _ _))).
  unfold ewhen at 1. rewrite bool_decide_eq_true_2 by done.
  rewrite (ebind_run _ _ _ _ _ (tfield_run _ _ _ _ (lookup_with_threads _ _ _))).
  unfold ebind, egets. simpl. rewrite Hq, mem_tid_spec, bool_decide_eq_false_2 by done. unfold ewhen, emodify. simpl.
  unfold enqueue. by rewrite Hq.
Qed.

(** The change of status of a thread that is not in the queue of its priority. *)
Definition requeue (st : Status) (t : tid) (th : Thread) (qs : list (list tid)) : list (list tid) :=
  if bool_decide (st = Ready) then enqueue t (m_Priority th) qs else qs.

Lemma setStatus_run st t th q s :
  threads s !! t = Some th -> m_pReadyQueues s !! m_Priority th = Some q -> t ∉ q ->
  setStatus st t s =
    Some (tt, with_queues (requeue st t th (m_pReadyQueues s)) (with_threads <[t := with_status st th]> s)).
Proof.
  intros Ht Hq Hn. unfold requeue. case_bool_decide as E.
  - subst st. by eapply setStatus_ready.
  - rewrite (setStatus_other st t th) by done. by destruct s.
Qed.

(** ** The context switch *)

(** The thread records after a switch from [cur] to [next]. *)
Definition switched_thread (st : Status) (idle : option tid) (cur next : tid) (bw : bool) (t : tid) (th : Thread) : Thread :=
  let th := if bool_decide (t = cur) then
              with_saved (Some bw) (if is_idle t idle then th else with_status st th) else th in
  if bool_decide (t = next) then with_status Running th else th.

Record Switched (st : Status) (pLock : option lockref) (bw : bool) (cur next : tid) (s s' : Cpu) : Prop := mkSwitched {
  sw_threads : forall t, threads s' !! t = switched_thread st (m_pIdleThread s) cur next bw t <$> threads s !! t;
  sw_queues : m_pReadyQueues s' =
    match threads s !! cur with
    | Some th => if is_idle cur (m_pIdleThread s) then m_pReadyQueues s else requeue st cur th (m_pReadyQueues s)
    | None => m_pReadyQueues s
    end;
  sw_cur : currentThread s' = next;
  sw_idle : m_pIdleThread s' = m_pIdleThread s;
  sw_map : m_TPMap s' = m_TPMap s;
  sw_int : exists th, threads s' !! next = Some th /\ m_bSaved th = Some (interrupts s');
  sw_free : forall l, l = ThreadLock cur \/ l = ThreadLock next \/ Some l = pLock -> free (lock_of l s');
  sw_locks : forall l, l <> ThreadLock cur -> l <> ThreadLock next -> Some l <> pLock ->
    lock_of l s' = lock_of l s
}.

(** The interrupt state saved with the old thread. *)
Definition saved_interrupts (pLock : option lockref) (s : Cpu) (b : bool) : bool :=
  match pLock with Some l => m_bInterrupts (lock_of l s) || b | None => b end.

(** The part of the switch that concerns [pLock]. *)
Definition drop_lock (pLock : option lockref) (b : bool) : Op bool :=
  match pLock with
  | Some l => ebind (egets (lock_of l)) (fun k => ebind (exit_ l) (fun _ => eret (m_bInterrupts k || b)))
  | None => eret b
  end.

Lemma drop_lock_run pLock b s :
  interrupts s = false -> (forall l, pLock = Some l -> exists bl t, lock_of l s = held bl t) ->
  exists s', drop_lock pLock b s = Some (saved_interrupts pLock s b, s') /\
    (s' = match pLock with Some l => with_lock l (unheld (m_bInterrupts (lock_of l s))) s | None => s end).
Proof.
  intros Hi Hl. destruct pLock as [l|]; [|by exists s]. destruct (Hl l eq_refl) as (bl & t & E).
  eexists. split; [|reflexivity]. unfold drop_lock, ebind, egets. rewrite (exit_run l bl t s Hi E).
  simpl. by rewrite E.
Qed.

Lemma is_idle_spec t i : is_idle t i = true <-> Some t = i.
Proof. apply bool_decide_eq_true. Qed.

Lemma lock_of_with_threads l f s : lock_of l (with_threads f s) = lock_of l s.
Proof. done. Qed.

Lemma lock_of_with_queues l q s : lock_of l (with_queues q s) = lock_of l s.
Proof. done. Qed.

Lemma switch_to_run st pLock b cur next thc thn q s :
  threads s !! cur = Some thc -> threads s !! next = Some thn ->
  m_pReadyQueues s !! m_Priority thc = Some q -> cur ∉ q ->
  (next <> cur /\ m_bSaved thn <> None \/ next = cur) ->
  interrupts s = false ->
  (exists t, lock_of (ThreadLock cur) s = held false t) -> (exists t, lock_of (ThreadLock next) s = held false t) ->
  (forall l, pLock = Some l -> l <> ThreadLock cur /\ l <> ThreadLock next /\ exists bl t, lock_of l s = held bl t) ->
  exists s', switch_to st pLock b cur next s = Some (tt, s') /\
    Switched st pLock (saved_interrupts pLock s b) cur next s s'.
Proof.
  intros Hc Hn Hq Hnq Hcase Hi [tc Hlc] [tn Hln] Hpl. unfold switch_to. unfold ebind at 1, egets at 1.
  set (idle := is_idle cur (m_pIdleThread s)). set (thc' := if idle then thc else with_status st thc).
  set (qs := if idle then m_pReadyQueues s else requeue st cur thc (m_pReadyQueues s)).
  set (s1 := with_queues qs (with_threads <[cur := thc']> s)).
  assert (E1 : ewhen (negb idle) (setStatus st cur) s = Some (tt, s1)).
  { subst s1 qs thc'. destruct idle; simpl.
    - unfold eret. f_equal. f_equal. destruct s; unfold with_threads, with_queues; simpl in *. by rewrite insert_id.
    - by eapply setStatus_run. }
  rewrite (ebind_run _ _ _ _ _ E1).
  assert (Hthn : exists thn1, threads s1 !! next = Some thn1 /\ (next <> cur -> thn1 = thn) /\ (next = cur -> thn1 = thc')).
  { subst s1. simpl. destruct (decide (next = cur)) as [->|Hne].
    - exists thc'. by rewrite lookup_insert_eq.
    - exists thn. by rewrite lookup_insert_ne by done. }
  destruct Hthn as (thn1 & Hn1 & Hne1 & Heq1).
  rewrite (ebind_run _ _ _ _ _ (setStatus_other Running next thn1 s1 Hn1 ltac:(done))).
  set (s2 := with_threads _ s1). rewrite (ebind_run (emodify _) _ s2 tt (with_current next s2)) by done.
  set (s3 := with_current next s2).
  destruct (drop_lock_run pLock b s3) as (s4 & E4 & Es4); [done| |].
  { intros l Hl. destruct (Hpl l Hl) as (_ & _ & H). exact H. }
  fold (drop_lock pLock b). rewrite (ebind_run _ _ _ _ _ E4).
  replace (saved_interrupts pLock s3 b) with (saved_interrupts pLock s b) by done.
  set (bw := saved_interrupts pLock s b).
  assert (Hl4 : forall l, Some l <> pLock -> lock_of l s4 = lock_of l s).
  { intros l Hne. rewrite Es4. destruct pLock as [l'|]; [|done]. rewrite lock_of_ne by congruence. done. }
  assert (Hf4 : threads s4 = threads s2 /\ m_pReadyQueues s4 = qs /\ currentThread s4 = next /\
                m_pIdleThread s4 = m_pIdleThread s /\ m_TPMap s4 = m_TPMap s /\ interrupts s4 = false)
    by (rewrite Es4; destruct pLock; done).
  destruct Hf4 as (Ht4 & Hq4 & Hc4 & Hi4 & Hm4 & Hb4).
  assert (Hplc : Some (ThreadLock cur) <> pLock) by (intros E; destruct (Hpl _ (eq_sym E)) as (? & _); done).
  assert (Hpln : Some (ThreadLock next) <> pLock) by (intros E; destruct (Hpl _ (eq_sym E)) as (_ & ? & _); done).
  rewrite (ebind_run _ _ s4 tt _ (release_run (ThreadLock next) false tn s4 Hb4 ltac:(by rewrite Hl4))).
  set (s5 := with_interrupts false (with_lock _ _ s4)).
  set (thc5 := if bool_decide (cur = next) then with_status Running thc' else thc').
  assert (Hc5 : threads s5 !! cur = Some thc5).
  { subst s5 thc5. simpl. rewrite Ht4. subst s2 s1. simpl. case_bool_decide as E.
    - rewrite <- E, lookup_insert_eq, Heq1 by done. done.
    - by rewrite lookup_insert_ne, lookup_insert_eq by done. }
  rewrite (ebind_run _ _ _ _ _ (tmodify_run _ _ _ _ Hc5)).
  rewrite (ebind_run _ _ _ tt _ (unwind_open_run _ _)). rewrite lock_of_with_threads.
  set (k := unheld _). set (s6 := with_lock (ThreadLock cur) k _).
  assert (Hts : forall t, threads s6 !! t = switched_thread st (m_pIdleThread s) cur next bw t <$> threads s !! t).
  { intros t. subst s6 s5. simpl. rewrite Ht4. subst s2 s1. simpl. unfold switched_thread. subst thc5 thc' idle.
    destruct (decide (t = cur)) as [->|Hne].
    - rewrite lookup_insert_eq, Hc. simpl. rewrite (bool_decide_eq_true_2 (cur = cur)) by done.
      repeat case_bool_decide; try done; by destruct (is_idle cur (m_pIdleThread s)).
    - rewrite lookup_insert_ne by done. rewrite (bool_decide_eq_false_2 (t = cur)) by done.
      destruct (decide (t = next)) as [->|Hne'].
      + rewrite lookup_insert_eq, Hn, Hne1 by done. simpl. by rewrite bool_decide_eq_true_2.
      + rewrite lookup_insert_ne, lookup_insert_ne by done. rewrite bool_decide_eq_false_2 by done.
        by destruct (threads s !! t). }
  assert (Hsaved : exists th6 b6, threads s6 !! next = Some th6 /\ m_bSaved th6 = Some b6).
  { rewrite Hts. rewrite Hn. simpl. unfold switched_thread. rewrite (bool_decide_eq_true_2 (next = next)) by done.
    destruct Hcase as [[Hne Hs]| ->].
    - rewrite bool_decide_eq_false_2 by done. destruct (m_bSaved thn) eqn:E; [|done]. simpl. eauto.
    - rewrite bool_decide_eq_true_2 by done. simpl. eauto. }
  destruct Hsaved as (th6 & b6 & Ht6 & Hb6).
  assert (Er : resume next s6 = Some (tt, with_interrupts b6 s6)).
  { unfold resume. rewrite (ebind_run _ _ _ _ _ (tfield_run m_bSaved _ _ _ Ht6)), Hb6. done. }
  rewrite Er. exists (with_interrupts b6 s6). split; [done|]. split.
  - exact Hts.
  - rewrite Hc. unfold s6, s5. simpl. by rewrite Hq4.
  - unfold s6, s5. simpl. done.
  - exact Hi4.
  - exact Hm4.
  - exists th6. done.
  - intros l Hl. change (lock_of l (with_interrupts b6 s6)) with (lock_of l s6). unfold s6.
    destruct (decide (l = ThreadLock cur)) as [->|Hne]; [by rewrite lock_of_eq|]. rewrite lock_of_ne by done.
    change (free (lock_of l (with_lock (ThreadLock next) (unheld false) s4))).
    destruct (decide (l = ThreadLock next)) as [->|Hne']; [by rewrite lock_of_eq|]. rewrite lock_of_ne by done.
    destruct Hl as [?|[?|E]]; [done|done|]. rewrite Es4, <- E. by rewrite lock_of_eq.
  - intros l H1 H2 H3. change (lock_of l (with_interrupts b6 s6)) with (lock_of l s6). unfold s6.
    rewrite lock_of_ne by done. change (lock_of l (with_lock (ThreadLock next) (unheld false) s4) = lock_of l s).
    rewrite lock_of_ne by done. by apply Hl4.
Qed.

(** A switch only looks at what the two locks do not change. *)
Lemma switched_from st pLock bw cur next m s s' :
  Switched st pLock bw cur next m s' ->
  threads m = threads s -> m_pReadyQueues m = m_pReadyQueues s -> m_pIdleThread m = m_pIdleThread s ->
  m_TPMap m = m_TPMap s ->
  (forall l, l <> ThreadLock cur -> l <> ThreadLock next -> lock_of l m = lock_of l s) ->
  Switched st pLock bw cur next s s'.
Proof.
  intros [H1 H2 H3 H4 H5 H6 H7 H8] Ht Hq Hi Hm Hl. rewrite Ht, Hi in *. rewrite Hq in H2.
  split; try done; [congruence|]. intros l ? ? ?. rewrite <- Hl by done. by apply H8.
Qed.

(** ** [schedule] *)

Lemma next_of_at cur qs i t q :
  qs !! i = Some (t :: q) -> t <> cur -> (forall j, (j < i)%nat -> qs !! j = Some []) ->
  next_of cur qs = (Some t, <[i := q]> qs).
Proof.
  revert i. induction qs as [|q0 qs IH]; intros [|i] Hi Ht Hj; try done.
  - injection Hi as ->. simpl. by rewrite same_tid_ne.
  - pose proof (Hj 0%nat ltac:(lia)) as [= ->]. simpl.
    rewrite (IH i) by (done || (intros j Hlt; apply (Hj (S j)); lia)). done.
Qed.

Lemma next_of_none cur qs : Forall (fun q => q = []) qs -> next_of cur qs = (None, qs).
Proof. induction 1 as [|q qs -> _ IH]; simpl; [done|]. by rewrite IH. Qed.

(** The ready thread that runs next: the head of the first queue with one. *)
Definition front (qs : list (list tid)) (i : nat) (t : tid) (q : list tid) : Prop :=
  qs !! i = Some (t :: q) /\ forall j, (j < i)%nat -> qs !! j = Some [].

Lemma front_or_idle qs :
  (exists i t q, front qs i t q) \/ Forall (fun q => q = []) qs.
Proof.
  induction qs as [|q qs IH]; [by right|]. destruct q as [|t q].
  - destruct IH as [(i & t & q & Hi & Hj)|H]; [left|right; by constructor].
    exists (S i), t, q. split; [done|]. intros [|j] Hlt; [done|]. apply Hj. lia.
  - left. exists 0%nat, t, q. split; [done|]. intros j Hlt. lia.
Qed.

Lemma getNext_run cur s i t q :
  front (m_pReadyQueues s) i t q -> t <> cur -> free (lock_of (ThreadLock t) s) -> interrupts s = false ->
  getNext cur s = Some (Some t, with_lock (ThreadLock t) (held false (currentThread s))
                                  (with_queues (<[i := q]> (m_pReadyQueues s)) s)).
Proof.
  intros [Hi Hj] Ht Hf Hb. unfold getNext. unfold ebind at 1, egets. rewrite (next_of_at cur _ i t q Hi Ht Hj).
  rewrite (ebind_run (emodify _) _ s tt (with_queues (<[i := q]> (m_pReadyQueues s)) s)) by done.
  rewrite (ebind_run _ _ _ _ _ (acquire_run (ThreadLock t) (with_queues (<[i := q]> (m_pReadyQueues s)) s) Hf)).
  simpl. by rewrite Hb, with_interrupts_same.
Qed.

Lemma getNext_none cur s :
  Forall (fun q => q = []) (m_pReadyQueues s) -> getNext cur s = Some (None, s).
Proof.
  intros H. unfold getNext, ebind, egets. rewrite next_of_none by done. unfold emodify, eret. by destruct s.
Qed.

(** Facts about the threads of a processor in its invariant. *)
Section Facts.
Context (s : Cpu) (H : Inv s).

Lemma cur_not_queued p q : m_pReadyQueues s !! p = Some q -> currentThread s ∉ q.
Proof using H.
  intros Hq Hin. destruct (inv_cur s H) as (th & Hth & Hr).
  destruct (inv_queue s H p q _ Hq Hin) as (th' & Hth' & Hr' & _). congruence.
Qed.

Lemma front_facts i t q :
  front (m_pReadyQueues s) i t q ->
  t <> currentThread s /\ Some t <> m_pIdleThread s /\ (t ∉ q) /\
  exists th, threads s !! t = Some th /\ m_Status th = Ready /\ m_Priority th = i /\
             m_bSaved th <> None /\ free (lock_of (ThreadLock t) s).
Proof using H.
  intros [Hi _]. destruct (inv_queue s H i (t :: q) t Hi ltac:(set_solver)) as (th & Hth & Hr & Hp).
  assert (Hne : t <> currentThread s).
  { intros ->. apply (cur_not_queued i (currentThread s :: q) Hi). set_solver. }
  split; [done|]. split; [|split].
  - intros E. destruct (inv_idle s H t (eq_sym E)) as (th' & Hth' & Hr'). congruence.
  - pose proof (inv_nodup s H i _ Hi) as Hnd. by apply NoDup_cons in Hnd as [? _].
  - exists th. split; [done|]. split; [done|]. split; [done|].
    split; [apply (inv_saved s H t th Hth); congruence|]. apply (inv_locks s H t th Hth). congruence.
Qed.

Lemma cur_facts :
  exists th q, threads s !! currentThread s = Some th /\ m_Status th = Running /\
    m_pReadyQueues s !! m_Priority th = Some q /\ (currentThread s ∉ q) /\
    free (lock_of (ThreadLock (currentThread s)) s).
Proof using H.
  destruct (inv_cur s H) as (th & Hth & Hr). destruct (lookup_lt_is_Some_2 (m_pReadyQueues s) (m_Priority th)) as [q Hq].
  { rewrite (inv_len s H). by eapply inv_prio. }
  exists th, q. do 3 (split; [done|]). split; [by eapply cur_not_queued|].
  apply (inv_locks s H _ _ Hth). congruence.
Qed.
End Facts.

(** The lock the caller of [schedule] passes: held, and not a thread's. *)
Definition passes (pLock : option lockref) (s : Cpu) : Prop :=
  forall l, pLock = Some l -> exists p bl t, l = ObjectLock p /\ lock_of l s = held bl t.

(** The state of [schedule] when it has locked the current thread. *)
Definition entered (s : Cpu) : Cpu :=
  with_lock (ThreadLock (currentThread s)) (held false (currentThread s)) (with_interrupts false s).

Lemma entered_other l s : l <> ThreadLock (currentThread s) -> lock_of l (entered s) = lock_of l s.
Proof.
  intros H. transitivity (lock_of l (with_interrupts false s)); [|done]. by apply lock_of_ne.
Qed.

Lemma entered_cur s : lock_of (ThreadLock (currentThread s)) (entered s) = held false (currentThread s).
Proof. apply lock_of_eq. Qed.

Lemma entered_run {A} (k : bool -> tid -> Op A) s :
  Inv s ->
  ebind getInterrupts (fun b => ebind (setInterrupts false) (fun _ => ebind (egets currentThread) (fun t =>
    ebind (acquire (ThreadLock t)) (fun _ => k b t)))) s = k (interrupts s) (currentThread s) (entered s).
Proof.
  intros H. destruct (cur_facts s H) as (th & q & _ & _ & _ & _ & Hf).
  unfold getInterrupts, ebind at 1, egets at 1. unfold ebind at 1, setInterrupts, emodify. unfold ebind at 1, egets at 1.
  rewrite (ebind_run _ _ _ _ _ (acquire_run (ThreadLock (currentThread s)) (with_interrupts false s) Hf)). done.
Qed.

Lemma schedule_to_front s st pLock i t q :
  Inv s -> passes pLock s -> front (m_pReadyQueues s) i t q ->
  exists s', schedule st None pLock s = Some (tt, s') /\
    Switched st pLock (saved_interrupts pLock s (interrupts s)) (currentThread s) t
             (with_queues (<[i := q]> (m_pReadyQueues s)) s) s'.
Proof.
  intros H Hpl Hfr. destruct (front_facts s H i t q Hfr) as (Hne & Hni & Htq & th & Hth & Hr & Hp & Hsv & Hft).
  destruct (cur_facts s H) as (thc & qc & Hthc & Hrc & Hqc & Hnqc & Hfc).
  unfold schedule. rewrite (entered_run _ s H). unfold choose. rewrite ebind_assoc.
  assert (Hlt : lock_of (ThreadLock t) (entered s) = lock_of (ThreadLock t) s)
    by (apply entered_other; congruence).
  rewrite (ebind_run _ _ _ _ _ (getNext_run _ (entered s) i t q Hfr Hne ltac:(by rewrite Hlt) eq_refl)).
  rewrite (ebind_run (eret (Some t)) _ _ _ _ eq_refl). set (m := with_lock (ThreadLock t) _ _).
  assert (Hlm : forall l, l <> ThreadLock (currentThread s) -> l <> ThreadLock t -> lock_of l m = lock_of l s).
  { intros l H1 H2. unfold m. rewrite lock_of_ne by congruence.
    by apply entered_other. }
  destruct (lookup_lt_is_Some_2 (<[i := q]> (m_pReadyQueues s)) (m_Priority thc)) as [qc' Hqc'].
  { rewrite length_insert. by eapply lookup_lt_Some. }
  assert (Hnqc' : currentThread s ∉ qc').
  { destruct (decide (i = m_Priority thc)) as [->|Hi].
    - rewrite list_lookup_insert_eq in Hqc' by exact (lookup_lt_Some _ _ _ (proj1 Hfr)). injection Hqc' as <-.
      intros Hin. apply (cur_not_queued s H _ _ (proj1 Hfr)). clear -Hin. set_solver.
    - rewrite list_lookup_insert_ne in Hqc' by done. by eapply cur_not_queued. }
  destruct (switch_to_run st pLock (interrupts s) (currentThread s) t thc th qc' m) as (s' & Hrun & Hsw); try done.
  - by left.
  - eexists. unfold m. rewrite lock_of_ne by congruence. apply entered_cur.
  - eexists. apply lock_of_eq.
  - intros l Hl. destruct (Hpl l Hl) as (p & bl & tl & -> & E). split; [done|]. split; [done|].
    exists bl, tl. by rewrite Hlm.
  - exists s'. split; [exact Hrun|].
    replace (saved_interrupts pLock s (interrupts s)) with (saved_interrupts pLock m (interrupts s)).
    + by eapply switched_from.
    + unfold saved_interrupts. destruct pLock as [l|]; [|done]. destruct (Hpl l eq_refl) as (p & bl & tl & -> & E). by rewrite Hlm.
Qed.

Lemma choose_none s st :
  st <> Ready -> Forall (fun q => q = []) (m_pReadyQueues s) ->
  choose st (currentThread s) (entered s) =
    match m_pIdleThread s with
    | None => None
    | Some i => ebind (ewhen (negb (same_tid i (currentThread s))) (ebind (acquire (ThreadLock i)) (fun _ => eret tt)))
                      (fun _ => eret (Some i)) (entered s)
    end.
Proof.
  intros Hst Hall. unfold choose. rewrite (ebind_run _ _ _ _ _ (getNext_none _ (entered s) Hall)).
  rewrite bool_decide_eq_false_2 by done. unfold ebind at 1, egets at 1. simpl. by destruct (m_pIdleThread s).
Qed.

Lemma saved_interrupts_same pLock m s b :
  passes pLock s -> (forall p, lock_of (ObjectLock p) m = lock_of (ObjectLock p) s) ->
  saved_interrupts pLock m b = saved_interrupts pLock s b.
Proof.
  intros Hpl Hm. destruct pLock as [l|]; [|done]. destruct (Hpl l eq_refl) as (p & _ & _ & -> & _).
  unfold saved_interrupts. by rewrite Hm.
Qed.

(** The lock of the thread that was named. *)
Lemma lock_named s t th :
  Inv s -> threads s !! t = Some th -> m_Status th <> AwaitingJoin ->
  exists m, ewhen (negb (same_tid t (currentThread s))) (ebind (acquire (ThreadLock t)) (fun _ => eret tt)) (entered s) = Some (tt, m) /\
    threads m = threads s /\ m_pReadyQueues m = m_pReadyQueues s /\ m_pIdleThread m = m_pIdleThread s /\
    m_TPMap m = m_TPMap s /\ interrupts m = false /\
    (exists u, lock_of (ThreadLock (currentThread s)) m = held false u) /\
    (exists u, lock_of (ThreadLock t) m = held false u) /\
    (forall l, l <> ThreadLock (currentThread s) -> l <> ThreadLock t -> lock_of l m = lock_of l s).
Proof.
  intros H Hth Hst. unfold ewhen. destruct (decide (t = currentThread s)) as [->|Hne].
  - rewrite same_tid_refl. exists (entered s). do 6 (split; [done|]).
    do 2 (split; [eexists; apply entered_cur|]). intros l Hl _. by apply entered_other.
  - rewrite same_tid_ne by done. simpl.
    assert (Hf : free (lock_of (ThreadLock t) (entered s))).
    { rewrite entered_other by congruence. by apply (inv_locks s H t th Hth). }
    rewrite (ebind_run _ _ _ _ _ (acquire_run _ _ Hf)). eexists. split; [reflexivity|].
    do 5 (split; [done|]). split; [|split].
    + eexists. rewrite lock_of_ne by congruence. rewrite with_interrupts_same by done. apply entered_cur.
    + eexists. apply lock_of_eq.
    + intros l H1 H2. rewrite lock_of_ne by done. rewrite with_interrupts_same by done. by apply entered_other.
Qed.

(** Nothing is ready and the current thread stops: the idle thread runs. *)
Lemma schedule_to_idle s st pLock i :
  Inv s -> passes pLock s -> Forall (fun q => q = []) (m_pReadyQueues s) -> st <> Ready ->
  m_pIdleThread s = Some i ->
  exists s', schedule st None pLock s = Some (tt, s') /\
    Switched st pLock (saved_interrupts pLock s (interrupts s)) (currentThread s) i s s'.
Proof.
  intros H Hpl Hall Hst Hid. destruct (inv_idle s H i Hid) as (th & Hth & Hr).
  destruct (cur_facts s H) as (thc & qc & Hthc & Hrc & Hqc & Hnqc & Hfc).
  unfold schedule. rewrite (entered_run _ s H).
  assert (Hch : exists m, choose st (currentThread s) (entered s) = Some (Some i, m) /\
    threads m = threads s /\ m_pReadyQueues m = m_pReadyQueues s /\ m_pIdleThread m = m_pIdleThread s /\
    m_TPMap m = m_TPMap s /\ interrupts m = false /\
    (exists t, lock_of (ThreadLock (currentThread s)) m = held false t) /\
    (exists t, lock_of (ThreadLock i) m = held false t) /\
    (forall l, l <> ThreadLock (currentThread s) -> l <> ThreadLock i -> lock_of l m = lock_of l s)).
  { destruct (lock_named s i th H Hth) as (m & Hm & Hrest); [congruence|]. exists m. split; [|exact Hrest].
    rewrite choose_none, Hid by done. by rewrite (ebind_run _ _ _ _ _ Hm). }
  destruct Hch as (m & Hch & E1 & E2 & E3 & E4 & E5 & Hlc & Hli & Hlo).
  rewrite (ebind_run _ _ _ _ _ Hch).
  assert (Hobj : forall p, lock_of (ObjectLock p) m = lock_of (ObjectLock p) s) by (intros p; by apply Hlo).
  destruct (switch_to_run st pLock (interrupts s) (currentThread s) i thc th qc m) as (s' & Hrun & Hsw); try done; try congruence.
  - destruct (decide (i = currentThread s)) as [->|Hne]; [by right|left]. split; [done|].
    apply (inv_saved s H i th Hth); congruence.
  - intros l Hl. destruct (Hpl l Hl) as (p & bl & tl & -> & E). split; [done|]. split; [done|].
    exists bl, tl. by rewrite Hobj.
  - exists s'. split; [exact Hrun|]. rewrite <- (saved_interrupts_same pLock m s) by done. by eapply switched_from.
Qed.

(** A thread was named that has not exited: it runs, whatever its status. *)
Lemma schedule_to_named s st pLock t th :
  Inv s -> passes pLock s -> threads s !! t = Some th -> m_Status th <> AwaitingJoin ->
  exists s', schedule st (Some t) pLock s = Some (tt, s') /\
    Switched st pLock (saved_interrupts pLock s (interrupts s)) (currentThread s) t s s'.
Proof.
  intros H Hpl Hth Hst. destruct (cur_facts s H) as (thc & qc & Hthc & Hrc & Hqc & Hnqc & Hfc).
  unfold schedule. rewrite (entered_run _ s H). rewrite ebind_assoc.
  destruct (lock_named s t th H Hth Hst) as (m & Hm & E1 & E2 & E3 & E4 & E5 & Hlc & Hli & Hlo).
  rewrite (ebind_run _ _ _ _ _ Hm), (ebind_run (eret (Some t)) _ _ _ _ eq_refl).
  assert (Hobj : forall p, lock_of (ObjectLock p) m = lock_of (ObjectLock p) s) by (intros p; by apply Hlo).
  destruct (switch_to_run st pLock (interrupts s) (currentThread s) t thc th qc m) as (s' & Hrun & Hsw); try done; try congruence.
  - destruct (decide (t = currentThread s)) as [->|Hne]; [by right|left]. split; [done|].
    by apply (inv_saved s H t th Hth).
  - intros l Hl. destruct (Hpl l Hl) as (p & bl & tl & -> & E). split; [done|]. split; [done|].
    exists bl, tl. by rewrite Hobj.
  - exists s'. split; [exact Hrun|]. rewrite <- (saved_interrupts_same pLock m s) by done. by eapply switched_from.
Qed.

(** Nothing else is ready: the current thread goes on. *)
Record Unchanged (s s' : Cpu) : Prop := mkUnchanged {
  un_threads : threads s' = threads s;
  un_queues : m_pReadyQueues s' = m_pReadyQueues s;
  un_cur : currentThread s' = currentThread s;
  un_idle : m_pIdleThread s' = m_pIdleThread s;
  un_map : m_TPMap s' = m_TPMap s;
  un_int : interrupts s' = interrupts s;
  un_locks : forall l, lock_of l s' = lock_of l s \/ free (lock_of l s')
}.

Lemma schedule_stays s pLock :
  Inv s -> Forall (fun q => q = []) (m_pReadyQueues s) ->
  exists s', schedule Ready None pLock s = Some (tt, s') /\ Unchanged s s'.
Proof.
  intros H Hall. unfold schedule. rewrite (entered_run _ s H). unfold choose. rewrite ebind_assoc.
  rewrite (ebind_run _ _ _ _ _ (getNext_none _ (entered s) Hall)). rewrite bool_decide_eq_true_2 by done.
  rewrite (ebind_run (eret None) _ _ _ _ eq_refl).
  rewrite (ebind_run _ _ _ tt _ (release_run _ _ _ (entered s) eq_refl (entered_cur s))).
  eexists. split; [reflexivity|]. split; try done. intros l.
  destruct (decide (l = ThreadLock (currentThread s))) as [->|Hne].
  - right. simpl. change (free (lock_of (ThreadLock (currentThread s)) (with_lock (ThreadLock (currentThread s)) (unheld false) (entered s)))).
    by rewrite lock_of_eq.
  - left. transitivity (lock_of l (with_lock (ThreadLock (currentThread s)) (unheld false) (entered s))); [done|].
    rewrite lock_of_ne by done. by apply entered_other.
Qed.

(** Nothing else is ready, the current thread stops, and there is no idle
    thread: the kernel panics. *)
Lemma schedule_panics s st pLock :
  Inv s -> Forall (fun q => q = []) (m_pReadyQueues s) -> st <> Ready -> m_pIdleThread s = None ->
  schedule st None pLock s = None.
Proof.
  intros H Hall Hst Hid. unfold schedule. rewrite (entered_run _ s H). unfold ebind at 1.
  by rewrite choose_none, Hid.
Qed.

(** ** The invariant is kept by a switch *)

(** The queues without the thread that was chosen. *)
Record Popped (s : Cpu) (next : tid) (qs : list (list tid)) : Prop := mkPopped {
  pop_len : length qs = MAX_PRIORITIES;
  pop_in : forall p q t, qs !! p = Some q -> t ∈ q ->
    t <> next /\ exists q0, m_pReadyQueues s !! p = Some q0 /\ t ∈ q0;
  pop_out : forall p q0 t, m_pReadyQueues s !! p = Some q0 -> t ∈ q0 -> t <> next -> exists q, qs !! p = Some q /\ t ∈ q;
  pop_nodup : forall p q, qs !! p = Some q -> NoDup q
}.

Lemma popped_front s i t q :
  Inv s -> front (m_pReadyQueues s) i t q -> Popped s t (<[i := q]> (m_pReadyQueues s)).
Proof.
  intros H Hfr. destruct (front_facts s H i t q Hfr) as (_ & _ & Htq & th & Hth & _ & Hp & _).
  destruct Hfr as [Hi _]. pose proof (lookup_lt_Some _ _ _ Hi) as Hlt. split.
  - rewrite length_insert. apply (inv_len s H).
  - intros p q' u Hq Hu. destruct (decide (i = p)) as [<-|Hne].
    + rewrite list_lookup_insert_eq in Hq by done. injection Hq as <-. split; [by intros ->|].
      exists (t :: q). split; [done|]. by apply list_elem_of_further.
    + rewrite list_lookup_insert_ne in Hq by done. split; [|eauto]. intros ->.
      destruct (inv_queue s H p q' t Hq Hu) as (th' & Hth' & _ & Hp'). congruence.
  - intros p q0 u Hq Hu Hne. destruct (decide (i = p)) as [<-|Hip].
    + exists q. rewrite list_lookup_insert_eq by done. split; [done|]. rewrite Hi in Hq. injection Hq as <-.
      by apply elem_of_cons in Hu as [?|?].
    + exists q0. by rewrite list_lookup_insert_ne.
  - intros p q' Hq. destruct (decide (i = p)) as [<-|Hip].
    + rewrite list_lookup_insert_eq in Hq by done. injection Hq as <-.
      pose proof (inv_nodup s H i _ Hi) as Hnd. by apply NoDup_cons in Hnd as [_ ?].
    + rewrite list_lookup_insert_ne in Hq by done. by eapply inv_nodup.
Qed.

Lemma popped_idle s i : Inv s -> m_pIdleThread s = Some i -> Popped s i (m_pReadyQueues s).
Proof.
  intros H Hi. destruct (inv_idle s H i Hi) as (th & Hth & Hr). split.
  - apply (inv_len s H).
  - intros p q t Hq Ht. split; [|eauto]. intros ->.
    destruct (inv_queue s H p q i Hq Ht) as (th' & Hth' & Hr' & _). congruence.
  - eauto.
  - apply (inv_nodup s H).
Qed.

Lemma requeue_lookup st t th qs p :
  requeue st t th qs !! p =
  (if bool_decide (st = Ready /\ p = m_Priority th) then (fun q => q ++ [t]) <$> qs !! p else qs !! p).
Proof.
  unfold requeue. destruct (decide (st = Ready)) as [->|Hst].
  - rewrite bool_decide_eq_true_2 by done. rewrite lookup_enqueue.
    repeat case_bool_decide; tauto.
  - rewrite !bool_decide_eq_false_2 by tauto. done.
Qed.

Section Switch.
Context (s s' : Cpu) (H : Inv s) (st : Status) (pLock : option lockref) (bw : bool) (next : tid) (qs : list (list tid)).
Context (Hst : st <> Running /\ st <> AwaitingJoin) (Hpl : passes pLock s) (Hpop : Popped s next qs).
Context (Hnext : exists thn, threads s !! next = Some thn /\ m_Status thn <> AwaitingJoin).
Context (Hself : next = currentThread s -> Some next = m_pIdleThread s).
Context (Hsw : Switched st pLock bw (currentThread s) next (with_queues qs s) s').

Let cur := currentThread s.
Let idle := m_pIdleThread s.

Lemma sw_lookup t th' :
  threads s' !! t = Some th' -> exists th, threads s !! t = Some th /\ th' = switched_thread st idle cur next bw t th.
Proof using Hsw.
  rewrite (sw_threads _ _ _ _ _ _ _ Hsw). intros E. simpl in E. apply fmap_Some in E. exact E.
Qed.

Lemma sw_other t : t <> cur -> t <> next -> threads s' !! t = threads s !! t.
Proof using Hsw.
  intros H1 H2. rewrite (sw_threads _ _ _ _ _ _ _ Hsw). simpl. unfold switched_thread.
  rewrite !bool_decide_eq_false_2 by done. by destruct (threads s !! t).
Qed.

Lemma sw_status t th :
  m_Status (switched_thread st idle cur next bw t th) =
  if bool_decide (t = next) then Running
  else if bool_decide (t = cur) then (if is_idle t idle then m_Status th else st) else m_Status th.
Proof using.
  unfold switched_thread. repeat case_bool_decide; simpl; try done; by destruct (is_idle t idle).
Qed.

Lemma sw_rest t th :
  m_Priority (switched_thread st idle cur next bw t th) = m_Priority th /\
  m_pWaiter (switched_thread st idle cur next bw t th) = m_pWaiter th /\
  m_bDetached (switched_thread st idle cur next bw t th) = m_bDetached th /\
  m_bSaved (switched_thread st idle cur next bw t th) = if bool_decide (t = cur) then Some bw else m_bSaved th.
Proof using.
  unfold switched_thread. repeat case_bool_decide; simpl; try done; by destruct (is_idle t idle).
Qed.

(** The queues after the switch, and who is in them. *)
Lemma sw_in p q t :
  m_pReadyQueues s' !! p = Some q -> t ∈ q ->
  (t <> next /\ t <> cur /\ exists q0, m_pReadyQueues s !! p = Some q0 /\ t ∈ q0) \/
  (t = cur /\ st = Ready /\ Some cur <> idle /\ exists th, threads s !! cur = Some th /\ p = m_Priority th).
Proof using H Hpop Hsw.
  destruct (cur_facts s H) as (thc & qc & Hthc & Hrc & _).
  rewrite (sw_queues _ _ _ _ _ _ _ Hsw). simpl. rewrite Hthc.
  assert (Hold : forall q', qs !! p = Some q' -> t ∈ q' ->
            t <> next /\ t <> cur /\ exists q0, m_pReadyQueues s !! p = Some q0 /\ t ∈ q0).
  { intros q' Hq' Ht. destruct (pop_in _ _ _ Hpop p q' t Hq' Ht) as (? & q0 & Hq0 & Ht0).
    split; [done|]. split; [|eauto]. intros ->. by apply (cur_not_queued s H p q0 Hq0). }
  intros Hq Ht. destruct (is_idle (currentThread s) (m_pIdleThread s)) eqn:E; [left; by eapply Hold|].
  rewrite requeue_lookup in Hq. case_bool_decide as Hc; [|left; by eapply Hold].
  destruct Hc as [Hr ->]. destruct (qs !! m_Priority thc) as [q'|] eqn:Eq; [|done]. injection Hq as <-.
  apply elem_of_app in Ht as [Ht|Ht]; [left; by eapply Hold|]. apply list_elem_of_singleton in Ht as ->.
  right. split; [done|]. split; [done|]. split; [|eauto]. intros E'. apply is_idle_spec in E'. unfold cur, idle in E'. congruence.
Qed.

Lemma sw_kept p q0 t :
  m_pReadyQueues s !! p = Some q0 -> t ∈ q0 -> t <> next -> exists q, m_pReadyQueues s' !! p = Some q /\ t ∈ q.
Proof using H Hpop Hsw.
  intros Hq Ht Hne. destruct (pop_out _ _ _ Hpop p q0 t Hq Ht Hne) as (q & Eq & Hin).
  destruct (cur_facts s H) as (thc & qc & Hthc & _). rewrite (sw_queues _ _ _ _ _ _ _ Hsw). simpl. rewrite Hthc.
  destruct (is_idle _ _); [eauto|]. rewrite requeue_lookup, Eq. case_bool_decide; [|eauto].
  exists (q ++ [currentThread s]). split; [done|]. apply elem_of_app. by left.
Qed.

Lemma sw_requeued :
  st = Ready -> Some cur <> idle -> forall th, threads s !! cur = Some th ->
  exists q, m_pReadyQueues s' !! m_Priority th = Some q /\ cur ∈ q.
Proof using H Hpop Hsw.
  intros Hr Hni th Hth. rewrite (sw_queues _ _ _ _ _ _ _ Hsw). simpl. unfold cur in Hth. rewrite Hth.
  destruct (is_idle (currentThread s) (m_pIdleThread s)) eqn:E; [by apply is_idle_spec in E|].
  rewrite requeue_lookup, bool_decide_eq_true_2 by done.
  destruct (lookup_lt_is_Some_2 qs (m_Priority th)) as [q Eq].
  { rewrite (pop_len _ _ _ Hpop). by eapply (inv_prio s H). }
  rewrite Eq. exists (q ++ [currentThread s]). split; [done|]. apply elem_of_app. right. by apply list_elem_of_singleton.
Qed.

Lemma switch_inv : Inv s'.
Proof using All.
  destruct (cur_facts s H) as (thc & qc & Hthc & Hrc & _). destruct Hnext as (thn & Hthn & Hnn).
  destruct Hsw as [Ht Hq Hc Hi Hm Hint Hfr Hlk].
  assert (Hn' : threads s' !! next = Some (switched_thread st idle cur next bw next thn)) by (rewrite Ht; simpl; by rewrite Hthn).
  assert (Hnrun : m_Status (switched_thread st idle cur next bw next thn) = Running) by (rewrite sw_status; by rewrite bool_decide_eq_true_2).
  assert (Hnc : Some cur <> idle -> cur <> next) by (intros Hc1 Hc2; apply Hc1; rewrite Hc2; apply Hself; by rewrite <- Hc2).
  split.
  - rewrite Hq. simpl. rewrite Hthc. destruct (is_idle _ _); [apply Hpop|]. unfold requeue.
    case_bool_decide; [rewrite length_enqueue|]; apply Hpop.
  - rewrite Hc. eauto.
  - intros i E. rewrite Hi in E. simpl in E. destruct (inv_idle s H i E) as (th & Hth & Hr).
    exists (switched_thread st idle cur next bw i th). rewrite Ht. simpl. rewrite Hth. split; [done|].
    rewrite sw_status. case_bool_decide; [done|]. case_bool_decide; [|done].
    by rewrite (proj2 (is_idle_spec i idle)).
  - intros p q t Eq Hin. destruct (sw_in p q t Eq Hin) as [(Hn & Hcu & q0 & Eq0 & Hin0)|(-> & Hr & Hni & th & Hth & ->)].
    + rewrite sw_other by done. by eapply (inv_queue s H).
    + exists (switched_thread st idle cur next bw cur th). rewrite Ht. simpl. rewrite Hth. split; [done|].
      split; [|apply sw_rest]. fold cur. rewrite sw_status.
      rewrite (bool_decide_eq_false_2 (cur = next)) by auto. rewrite (bool_decide_eq_true_2 (cur = cur)) by done.
      destruct (is_idle cur idle) eqn:E; [apply is_idle_spec in E; done|done].
  - intros p q Eq. rewrite Hq in Eq. simpl in Eq. rewrite Hthc in Eq.
    destruct (is_idle _ _); [by eapply pop_nodup|]. rewrite requeue_lookup in Eq.
    case_bool_decide; [|by eapply pop_nodup]. destruct (qs !! p) as [q'|] eqn:Eq'; [|done]. injection Eq as <-.
    apply NoDup_app. split; [by eapply pop_nodup|]. split; [|by apply NoDup_singleton].
    intros u Hu Hu'. apply list_elem_of_singleton in Hu' as ->. destruct (pop_in _ _ _ Hpop p q' _ Eq' Hu) as (_ & q0 & Eq0 & Hu0).
    by apply (cur_not_queued s H p q0 Eq0).
  - intros t th' Hth' Hr. destruct (sw_lookup t th' Hth') as (th & Hth & ->). rewrite sw_status in Hr.
    destruct (sw_rest t th) as (-> & _). case_bool_decide as Hn; [done|]. case_bool_decide as Hcu.
    + subst t. destruct (is_idle cur idle) eqn:E.
      * apply is_idle_spec in E. destruct (inv_idle s H cur (eq_sym E)) as (th1 & Hth1 & Hr1). congruence.
      * apply sw_requeued; [done| |done]. intros E'. apply is_idle_spec in E'. congruence.
    + destruct (inv_ready s H t th Hth Hr) as (q0 & Eq0 & Hin). by eapply sw_kept.
  - intros t th' Hth' Hr. rewrite Hc, Hi. destruct (sw_lookup t th' Hth') as (th & Hth & ->). rewrite sw_status in Hr.
    case_bool_decide as Hn; [by left|]. case_bool_decide as Hcu.
    + destruct (is_idle t idle) eqn:E; [right; by apply is_idle_spec in E|]. destruct Hst. congruence.
    + destruct (inv_running s H t th Hth Hr) as [?|?]; [done|by right].
  - intros t th' Hth'. destruct (sw_lookup t th' Hth') as (th & Hth & ->).
    assert (Hold : m_Status (switched_thread st idle cur next bw t th) <> AwaitingJoin -> t = cur \/ t = next \/ m_Status th <> AwaitingJoin).
    { rewrite sw_status. repeat case_bool_decide; auto. }
    split.
    + intros Hns. destruct (decide (ThreadLock t = ThreadLock (currentThread s))) as [E|Hn1]; [by apply Hfr; left|].
      destruct (decide (ThreadLock t = ThreadLock next)) as [E|Hn2]; [by apply Hfr; right; left|].
      rewrite Hlk; [|done|done|].
      * apply (inv_locks s H t th Hth). destruct (Hold Hns) as [->|[->|?]]; done.
      * intros E. destruct (Hpl _ (eq_sym E)) as (p & _ & _ & [=] & _).
    + rewrite Hlk; [apply (inv_locks s H t th Hth)|done|done|].
      intros E. destruct (Hpl _ (eq_sym E)) as (p & _ & _ & [=] & _).
  - intros t th' Hth'. destruct (sw_lookup t th' Hth') as (th & Hth & ->). rewrite sw_status, Hc.
    destruct (sw_rest t th) as (_ & _ & _ & ->). intros Hs Hn. rewrite bool_decide_eq_false_2 in Hs by done.
    case_bool_decide as Hcu; [done|]. by apply (inv_saved s H t th Hth).
  - intros t th' Hth'. destruct (sw_lookup t th' Hth') as (th & Hth & ->). destruct (sw_rest t th) as (-> & _). by eapply (inv_prio s H).
  - intros t th' Hth'. destruct (sw_lookup t th' Hth') as (th & Hth & ->). destruct (sw_rest t th) as (_ & -> & _). by eapply (inv_waiter s H).
  - rewrite Hm. simpl. rewrite (inv_map s H). apply set_eq. intros t. rewrite !elem_of_dom, Ht. simpl.
    by rewrite fmap_is_Some.
Qed.
End Switch.
