(* ===== verification/SchedSteps.v ===== *)
(** * The operations of the scheduler from one point of rest to the next

    Waking, creating, ending and detaching threads; the steps of a processor as
    labels; every step that is enabled runs to its end and keeps the
    invariant. *)
From Stdlib Require Import ZArith Lia List Bool.
From stdpp Require Import base gmap list fin_maps.
From S2P Require Import Prelude Cpu Sched SchedInv.
Import ListNotations.
#[local] Set Warnings "-clear-no-such-hyp".

(** Only a ready thread is in a queue. *)
Lemma not_ready_not_queued s t th p q :
  Inv s -> threads s !! t = Some th -> m_Status th <> Ready -> m_pReadyQueues s !! p = Some q -> t ∉ q.
Proof.
  intros H Hth Hr Hq Hin. destruct (inv_queue s H p q t Hq Hin) as (th' & Hth' & Hr' & _). congruence.
Qed.

Lemma queue_of s t th :
  Inv s -> threads s !! t = Some th -> exists q, m_pReadyQueues s !! m_Priority th = Some q.
Proof.
  intros H Hth. apply lookup_lt_is_Some_2. rewrite (inv_len s H). by eapply inv_prio.
Qed.

(** Taking and dropping a free lock around a computation. *)
Lemma locked_run {A} l (m : Op A) (k : A -> Op unit) s a s' :
  free (lock_of l s) ->
  m (with_lock l (held (interrupts s) (currentThread s)) (with_interrupts false s)) = Some (a, s') ->
  lock_of l s' = held (interrupts s) (currentThread s) -> interrupts s' = false ->
  ebind (acquire l) (fun _ => ebind m (fun a => ebind (release l) (fun _ => k a))) s =
  k a (with_interrupts (interrupts s) (with_lock l (unheld (interrupts s)) s')).
Proof.
  intros Hf Hm Hl Hi. rewrite (ebind_run _ _ _ _ _ (acquire_run l s Hf)), (ebind_run _ _ _ _ _ Hm).
  by rewrite (ebind_run _ _ _ tt _ (release_run l _ _ s' Hi Hl)).
Qed.

(** Two processors with the same content whose locks are free alike. *)
Record SameUpToLocks (s s' : Cpu) : Prop := mkSame {
  sm_threads : threads s' = threads s;
  sm_queues : m_pReadyQueues s' = m_pReadyQueues s;
  sm_cur : currentThread s' = currentThread s;
  sm_idle : m_pIdleThread s' = m_pIdleThread s;
  sm_map : m_TPMap s' = m_TPMap s;
  sm_locks : forall l, lock_of l s' = lock_of l s \/ free (lock_of l s')
}.

Lemma same_inv s s' : SameUpToLocks s s' -> Inv s -> Inv s'.
Proof.
  intros [E1 E2 E3 E4 E5 El] [? ? ? ? ? ? ? Hl ? ? ? ?].
  split; rewrite ?E1, ?E2, ?E3, ?E4, ?E5; try done.
  intros t th Hth. destruct (Hl t th Hth) as [Ha Hb]. split.
  - intros Hs. destruct (El (ThreadLock t)) as [->|?]; auto.
  - destruct (El (ConcurrencyLock t)) as [->|?]; auto.
Qed.

Lemma unchanged_same s s' : Unchanged s s' -> SameUpToLocks s s'.
Proof. by intros [? ? ? ? ? ? ?]. Qed.

(** ** Waking a thread *)

Definition woken (t : tid) (th : Thread) (s s' : Cpu) : Prop :=
  SameUpToLocks (with_queues (enqueue t (m_Priority th) (m_pReadyQueues s))
                   (with_threads <[t := with_status Ready th]> s)) s' /\
  interrupts s' = interrupts s.

Lemma wake_run s t th :
  Inv s -> threads s !! t = Some th -> m_Status th <> Ready -> m_Status th <> AwaitingJoin ->
  exists s', wake t s = Some (tt, s') /\ woken t th s s'.
Proof.
  intros H Hth Hr Haw. destruct (inv_locks s H t th Hth) as [Hf _]. specialize (Hf Haw).
  destruct (queue_of s t th H Hth) as [q Hq]. unfold wake.
  rewrite (ebind_run _ _ _ _ _ (acquire_run _ _ Hf)). set (m := with_lock _ _ _).
  rewrite (ebind_run _ _ _ _ _ (setStatus_ready t th q m Hth Hq ltac:(by eapply not_ready_not_queued))).
  set (m' := with_queues _ _).
  rewrite (release_run (ThreadLock t) (interrupts s) (currentThread s) m' eq_refl (lock_of_eq _ _ _)).
  eexists. split; [reflexivity|]. split; [|done]. split; try done. intros l.
  destruct (decide (l = ThreadLock t)) as [->|Hne].
  - right. change (free (lock_of (ThreadLock t) (with_lock (ThreadLock t) (unheld (interrupts s)) m'))). by rewrite lock_of_eq.
  - left. change (lock_of l (with_lock (ThreadLock t) (unheld (interrupts s)) m') = lock_of l s).
    rewrite lock_of_ne by done. change (lock_of l m = lock_of l s). unfold m. by rewrite lock_of_ne.
Qed.

(** A thread that is not ready becomes ready. *)
Lemma ready_inv s t th :
  Inv s -> threads s !! t = Some th -> m_Status th <> Ready -> m_Status th <> Running -> m_Status th <> AwaitingJoin ->
  Inv (with_queues (enqueue t (m_Priority th) (m_pReadyQueues s)) (with_threads <[t := with_status Ready th]> s)).
Proof.
  intros H Hth Hr Hrun Haw. destruct (queue_of s t th H Hth) as [q0 Hq0].
  assert (Htc : t <> currentThread s) by (intros ->; destruct (inv_cur s H) as (? & ? & ?); congruence).
  assert (Hin : forall p q u, enqueue t (m_Priority th) (m_pReadyQueues s) !! p = Some q -> u ∈ q ->
            (u <> t /\ exists q', m_pReadyQueues s !! p = Some q' /\ u ∈ q') \/ (u = t /\ p = m_Priority th)).
  { intros p q u Hq Hu. rewrite lookup_enqueue in Hq.
    assert (Ho : forall q', m_pReadyQueues s !! p = Some q' -> u ∈ q' -> u <> t /\ exists q', m_pReadyQueues s !! p = Some q' /\ u ∈ q').
    { intros q' Hq' Hu'. split; [|eauto]. intros ->. by apply (not_ready_not_queued s t th p q' H). }
    case_bool_decide as E; [|left; by eapply Ho]. destruct (m_pReadyQueues s !! p) as [q'|] eqn:Eq; [|done].
    injection Hq as <-. apply elem_of_app in Hu as [Hu|Hu]; [left; by eapply Ho|].
    apply list_elem_of_singleton in Hu as ->. by right. }
  assert (Hkeep : forall p q u, m_pReadyQueues s !! p = Some q -> u ∈ q ->
            exists q', enqueue t (m_Priority th) (m_pReadyQueues s) !! p = Some q' /\ u ∈ q').
  { intros p q u Hq Hu. rewrite lookup_enqueue, Hq. case_bool_decide; [|eauto].
    exists (q ++ [t]). split; [done|]. apply elem_of_app. by left. }
  destruct H as [H1 H2 H3 H4 H5 H6 H7 H8 H9 H10 H11 H12]. split; simpl.
  - by rewrite length_enqueue.
  - destruct H2 as (thc & ? & ?). exists thc. by rewrite lookup_insert_ne.
  - intros i Hi. destruct (H3 i Hi) as (thi & ? & ?). exists thi. rewrite lookup_insert_ne; [done|]. intros ->. congruence.
  - intros p q u Hq Hu. destruct (Hin p q u Hq Hu) as [(Hne & q' & Hq' & Hu')|[-> ->]].
    + rewrite lookup_insert_ne by done. eauto.
    + exists (with_status Ready th). by rewrite lookup_insert_eq.
  - intros p q Hq. rewrite lookup_enqueue in Hq. case_bool_decide as E; [|by eapply H5].
    destruct (m_pReadyQueues s !! p) as [q'|] eqn:Eq; [|done]. injection Hq as <-.
    apply NoDup_app. split; [by eapply H5|]. split; [|by apply NoDup_singleton].
    intros u Hu Hu'. apply list_elem_of_singleton in Hu' as ->. destruct (H4 p q' t Eq Hu) as (? & ? & ? & _). congruence.
  - intros u thu Hu Hru. destruct (decide (u = t)) as [->|Hne].
    + rewrite lookup_insert_eq in Hu. injection Hu as <-. simpl. rewrite lookup_enqueue, Hq0, bool_decide_eq_true_2 by done.
      exists (q0 ++ [t]). split; [done|]. apply elem_of_app. right. by apply list_elem_of_singleton.
    + rewrite lookup_insert_ne in Hu by done. destruct (H6 u thu Hu Hru) as (q & Hq & Hin'). eauto.
  - intros u thu Hu Hru. destruct (decide (u = t)) as [->|Hne].
    + rewrite lookup_insert_eq in Hu. by injection Hu as <-.
    + rewrite lookup_insert_ne in Hu by done. eauto.
  - intros u thu Hu. destruct (decide (u = t)) as [->|Hne].
    + rewrite lookup_insert_eq in Hu. injection Hu as <-. simpl. destruct (H8 t th Hth) as [Ha Hb]. split; [intros _; exact (Ha Haw)|exact Hb].
    + rewrite lookup_insert_ne in Hu by done. exact (H8 u thu Hu).
  - intros u thu Hu. destruct (decide (u = t)) as [->|Hne].
    + rewrite lookup_insert_eq in Hu. injection Hu as <-. simpl. intros _ _. by apply (H9 t th).
    + rewrite lookup_insert_ne in Hu by done. by apply H9.
  - intros u thu Hu. destruct (decide (u = t)) as [->|Hne].
    + rewrite lookup_insert_eq in Hu. injection Hu as <-. exact (H10 t th Hth).
    + rewrite lookup_insert_ne in Hu by done. by apply (H10 u).
  - intros u thu Hu. destruct (decide (u = t)) as [->|Hne].
    + rewrite lookup_insert_eq in Hu. injection Hu as <-. exact (H11 t th Hth).
    + rewrite lookup_insert_ne in Hu by done. by apply (H11 u).
  - rewrite H12. symmetry. apply dom_insert_lookup_L. eauto.
Qed.

(** ** Creating a thread *)

(** The processor with a thread [t] that no queue knows yet. *)
Definition with_new (t : tid) (s : Cpu) : Cpu :=
  with_TPMap (fun m => {[t]} ∪ m)
    (with_lock (ConcurrencyLock t) new_spinlock (with_lock (ThreadLock t) new_spinlock
      (with_threads <[t := mkThread Suspended DEFAULT_PRIORITY false None (Some true)]> s))).

Lemma lock_of_new t l s :
  lock_of l (with_new t s) = if bool_decide (l = ThreadLock t \/ l = ConcurrencyLock t) then new_spinlock else lock_of l s.
Proof.
  change (lock_of l (with_lock (ConcurrencyLock t) new_spinlock (with_lock (ThreadLock t) new_spinlock s)) =
    if bool_decide (l = ThreadLock t \/ l = ConcurrencyLock t) then new_spinlock else lock_of l s).
  case_bool_decide as E.
  - destruct (decide (l = ConcurrencyLock t)) as [->|]; [by rewrite lock_of_eq|]. rewrite lock_of_ne by congruence.
    destruct E as [->|?]; [by rewrite lock_of_eq|done].
  - by rewrite !lock_of_ne by (intros <-; tauto).
Qed.

Lemma new_inv s t : Inv s -> threads s !! t = None -> Inv (with_new t s).
Proof.
  intros H Ht. assert (Hne : forall u th, threads s !! u = Some th -> t <> u) by congruence.
  assert (Hlk : forall u th, threads s !! u = Some th ->
    lock_of (ThreadLock u) (with_new t s) = lock_of (ThreadLock u) s /\
    lock_of (ConcurrencyLock u) (with_new t s) = lock_of (ConcurrencyLock u) s).
  { intros u th Hu. specialize (Hne u th Hu). rewrite !lock_of_new, !bool_decide_eq_false_2 by naive_solver. done. }
  destruct H as [H1 H2 H3 H4 H5 H6 H7 H8 H9 H10 H11 H12].
  assert (Hold : forall (P : tid -> Thread -> Prop), P t (mkThread Suspended DEFAULT_PRIORITY false None (Some true)) ->
    (forall u th, threads s !! u = Some th -> P u th) ->
    forall u th, threads (with_new t s) !! u = Some th -> P u th).
  { intros P Hp Ho u th Hu. simpl in Hu. destruct (decide (t = u)) as [<-|Hd].
    - rewrite lookup_insert_eq in Hu. by injection Hu as <-.
    - rewrite lookup_insert_ne in Hu by done. by apply Ho. }
  split.
  - done.
  - destruct H2 as (th & Hth & Hr). exists th. simpl. rewrite lookup_insert_ne by eauto. done.
  - intros i Hi. destruct (H3 i Hi) as (th & Hth & Hr). exists th. simpl. rewrite lookup_insert_ne by eauto. done.
  - intros p q u Hq Hu. destruct (H4 p q u Hq Hu) as (th & Hth & Hr). exists th. simpl. rewrite lookup_insert_ne by eauto. done.
  - done.
  - apply (Hold (fun u th => m_Status th = Ready -> _)); [done|exact H6].
  - apply (Hold (fun u th => m_Status th = Running -> _)); [done|exact H7].
  - apply (Hold (fun u th => _ /\ _)).
    + rewrite !lock_of_new, !bool_decide_eq_true_2 by auto. done.
    + intros u th Hu. destruct (Hlk u th Hu) as [-> ->]. eauto.
  - apply (Hold (fun u th => m_Status th <> AwaitingJoin -> u <> _ -> m_bSaved th <> None)); [done|exact H9].
  - apply (Hold (fun u th => (m_Priority th < MAX_PRIORITIES)%nat)); [unfold DEFAULT_PRIORITY, MAX_PRIORITIES; simpl; lia|exact H10].
  - apply (Hold (fun u th => m_pWaiter th = None)); [done|exact H11].
  - simpl. by rewrite dom_insert_L, H12.
Qed.

Lemma popped_new s t : Inv s -> threads s !! t = None -> Popped (with_new t s) t (m_pReadyQueues s).
Proof.
  intros H Ht. split; [apply (inv_len s H)| |eauto|apply (inv_nodup s H)].
  intros p q u Hq Hu. split; [|eauto]. intros ->. destruct (inv_queue s H p q t Hq Hu) as (? & ? & _). congruence.
Qed.

Lemma same_queues_threads s t th :
  threads s !! t = Some th -> with_queues (m_pReadyQueues s) (with_threads <[t := th]> s) = s.
Proof. intros H. destruct s. unfold with_queues, with_threads. simpl in *. by rewrite insert_id. Qed.

Lemma new_thread_run s t :
  Inv s -> threads s !! t = None ->
  exists s', new_thread t s = Some (tt, s') /\
    Switched Ready None (interrupts s) (currentThread s) t (with_new t s) s'.
Proof.
  intros H Ht. destruct (cur_facts s H) as (thc & qc & Hthc & Hrc & Hqc & Hnqc & Hfc).
  assert (Hne : t <> currentThread s) by congruence. unfold new_thread.
  rewrite (ebind_run (emodify _) _ _ tt (with_threads <[t := mkThread Ready DEFAULT_PRIORITY false None (Some true)]> s)) by done.
  set (s1 := with_threads _ s).
  rewrite (ebind_run (emodify _) _ _ tt (with_lock (ThreadLock t) new_spinlock s1)) by done.
  rewrite (ebind_run (emodify _) _ _ tt (with_lock (ConcurrencyLock t) new_spinlock (with_lock (ThreadLock t) new_spinlock s1))) by done.
  set (s2 := with_lock (ConcurrencyLock t) _ _).
  assert (Hf : free (lock_of (ThreadLock t) s2)) by (unfold s2; rewrite lock_of_ne, lock_of_eq by done; done).
  rewrite (ebind_run _ _ _ _ _ (acquire_run _ s2 Hf)). set (s3 := with_lock (ThreadLock t) _ _).
  rewrite (ebind_run (emodify _) _ _ tt (with_TPMap (fun m => {[t]} ∪ m) s3)) by done. set (s4 := with_TPMap _ s3).
  assert (Hl4 : forall l, l <> ThreadLock t -> l <> ConcurrencyLock t -> lock_of l s4 = lock_of l s).
  { intros l H1 H2. change (lock_of l s3 = lock_of l s). unfold s3. rewrite lock_of_ne by done.
    change (lock_of l s2 = lock_of l s). unfold s2. by rewrite !lock_of_ne by done. }
  assert (Hlt : lock_of (ThreadLock t) s4 = held (interrupts s) (currentThread s)) by apply lock_of_eq.
  assert (Hlct : lock_of (ConcurrencyLock t) s4 = new_spinlock).
  { change (lock_of (ConcurrencyLock t) s3 = new_spinlock). unfold s3. rewrite lock_of_ne by done.
    change (lock_of (ConcurrencyLock t) s2 = new_spinlock). apply lock_of_eq. }
  assert (Hf4 : threads s4 = <[t := mkThread Ready DEFAULT_PRIORITY false None (Some true)]> (threads s) /\
    m_pReadyQueues s4 = m_pReadyQueues s /\ currentThread s4 = currentThread s /\ m_pIdleThread s4 = m_pIdleThread s /\
    m_TPMap s4 = {[t]} ∪ m_TPMap s /\ interrupts s4 = false) by done.
  clearbody s4. clear s1 s2 s3 Hf. destruct Hf4 as (Et & Eq & Ec & Ei & Em & Eb).
  unfold addThread, getInterrupts, setInterrupts. unfold ebind at 1, egets at 1.
  rewrite (ebind_run (emodify _) _ s4 tt s4) by (unfold emodify; by rewrite with_interrupts_same).
  unfold ebind at 1, egets at 1. rewrite Ec.
  rewrite (ebind_run _ _ s4 true (with_lock (ThreadLock (currentThread s)) (held false (currentThread s)) s4)).
  2:{ rewrite acquire_run, Eb, Ec, with_interrupts_same; [done|done|]. rewrite Hl4 by congruence. done. }
  set (s5 := with_lock _ _ s4). unfold ebind at 1, egets at 1.
  change (m_pIdleThread s5) with (m_pIdleThread s4). rewrite Ei. set (idle := is_idle (currentThread s) (m_pIdleThread s)).
  set (thc' := if idle then thc else with_status Ready thc).
  set (qs := if idle then m_pReadyQueues s else requeue Ready (currentThread s) thc (m_pReadyQueues s)).
  set (s6 := with_queues qs (with_threads <[currentThread s := thc']> s5)).
  assert (Htc5 : threads s5 !! currentThread s = Some thc) by (change (threads s5) with (threads s4); by rewrite Et, lookup_insert_ne).
  rewrite (ebind_run _ _ s5 tt s6).
  2:{ unfold s6, qs, thc'. destruct idle; simpl.
      - unfold eret. rewrite <- Eq. change (m_pReadyQueues s4) with (m_pReadyQueues s5). by rewrite same_queues_threads.
      - replace (m_pReadyQueues s) with (m_pReadyQueues s5) in Hqc |- * by done. by eapply setStatus_run. }
  assert (Ht6 : threads s6 !! t = Some (mkThread Ready DEFAULT_PRIORITY false None (Some true))).
  { unfold s6. simpl. rewrite lookup_insert_ne, Et by done. apply lookup_insert_eq. }
  rewrite (ebind_run _ _ _ _ _ (setStatus_other Running t _ s6 Ht6 ltac:(done))). set (s7 := with_threads _ s6).
  rewrite (ebind_run (emodify _) _ s7 tt (with_current t s7)) by done. set (s8 := with_current t s7).
  unfold ebind at 1, egets at 1. assert (Hlt8 : lock_of (ThreadLock t) s8 = held (interrupts s) (currentThread s)).
  { change (lock_of (ThreadLock t) s5 = held (interrupts s) (currentThread s)). unfold s5. by rewrite lock_of_ne by congruence. }
  rewrite Hlt8. cbn [m_bInterrupts held]. rewrite Eb, orb_false_r.
  rewrite (ebind_run _ _ _ tt _ (unwind_open_run _ s8)), Hlt8. set (s9 := with_lock (ThreadLock t) _ s8).
  assert (Ht9 : threads s9 !! currentThread s = Some thc').
  { unfold s9, s8, s7, s6. simpl. rewrite lookup_insert_ne by done. apply lookup_insert_eq. }
  rewrite (ebind_run _ _ _ _ _ (tmodify_run _ _ _ s9 Ht9)). set (s10 := with_threads _ s9).
  rewrite (ebind_run _ _ _ tt _ (unwind_open_run _ s10)). set (k := unheld _). set (s11 := with_lock _ k s10).
  exists (with_interrupts true s11). split; [done|].
  assert (Hts : forall u, threads s11 !! u =
    switched_thread Ready (m_pIdleThread s) (currentThread s) t (interrupts s) u <$> threads (with_new t s) !! u).
  { intros u. unfold s11, s10, s9, s8, s7, s6. simpl. rewrite Et. unfold switched_thread, thc', idle.
    destruct (decide (u = currentThread s)) as [->|Hd].
    - rewrite lookup_insert_eq, lookup_insert_ne, Hthc by done. simpl.
      rewrite bool_decide_eq_false_2, bool_decide_eq_true_2 by congruence. by destruct (is_idle _ _).
    - rewrite lookup_insert_ne by done. destruct (decide (u = t)) as [->|Hd'].
      + rewrite !lookup_insert_eq. simpl. by rewrite bool_decide_eq_true_2, bool_decide_eq_false_2 by done.
      + rewrite !lookup_insert_ne by done. rewrite !bool_decide_eq_false_2 by done. by destruct (threads s !! u). }
  split.
  - exact Hts.
  - unfold s11, s10, s9, s8, s7, s6. simpl. rewrite lookup_insert_ne, Hthc by done. done.
  - done.
  - exact Ei.
  - exact Em.
  - exists (mkThread Running DEFAULT_PRIORITY false None (Some true)). split; [|done].
    change (threads (with_interrupts true s11)) with (threads s11). rewrite Hts. simpl. rewrite lookup_insert_eq. simpl.
    unfold switched_thread.
    by rewrite (bool_decide_eq_true_2 (t = t)), (bool_decide_eq_false_2 (t = currentThread s)) by done.
  - intros l Hl. change (free (lock_of l s11)). unfold s11.
    destruct (decide (l = ThreadLock (currentThread s))) as [->|H1]; [by rewrite lock_of_eq|]. rewrite lock_of_ne by done.
    change (free (lock_of l s9)). destruct Hl as [?|[->|?]]; [done| |done]. unfold s9. by rewrite lock_of_eq.
  - intros l H1 H2 _. change (lock_of l s11 = lock_of l (with_new t s)). unfold s11. rewrite lock_of_ne by done.
    change (lock_of l s9 = lock_of l (with_new t s)). unfold s9. rewrite lock_of_ne by done.
    change (lock_of l s5 = lock_of l (with_new t s)). unfold s5. rewrite lock_of_ne by done. rewrite lock_of_new.
    case_bool_decide as E; [destruct E as [? | ->]; [done|exact Hlct]|]. apply Hl4; tauto.
Qed.

(** ** Ending the current thread *)

Definition ended (th : Thread) : option Thread :=
  if m_bDetached th then None else Some (with_status AwaitingJoin th).

Record Killed (next : tid) (qs : list (list tid)) (s s' : Cpu) : Prop := mkKilled {
  kl_threads : forall t, threads s' !! t =
    if bool_decide (t = currentThread s) then threads s !! t ≫= ended
    else if bool_decide (t = next) then with_status Running <$> threads s !! t
    else threads s !! t;
  kl_queues : m_pReadyQueues s' = qs;
  kl_cur : currentThread s' = next;
  kl_idle : m_pIdleThread s' = m_pIdleThread s;
  kl_map : m_TPMap s' = dom (threads s');
  kl_int : exists th, threads s !! next = Some th /\ m_bSaved th = Some (interrupts s');
  kl_locks : forall l, l <> ThreadLock (currentThread s) -> lock_of l s' = lock_of l s \/ free (lock_of l s')
}.

Lemma remove_from_none t qs : (forall q, q ∈ qs -> t ∉ q) -> remove_from t qs = qs.
Proof.
  induction qs as [|q qs IH]; intros Hn; simpl; [done|].
  rewrite mem_tid_spec, bool_decide_eq_false_2 by (apply Hn; set_solver).
  rewrite IH; [done|]. intros q' Hq'. apply Hn. set_solver.
Qed.

(** [shutdown] of a thread nobody waits for. *)
Lemma shutdown_run s t th :
  threads s !! t = Some th -> m_pWaiter th = None -> free (lock_of (ConcurrencyLock t) s) ->
  shutdown t s = Some (tt, with_interrupts (interrupts s) (with_lock (ConcurrencyLock t) (unheld (interrupts s))
    (with_threads <[t := if m_bDetached th then th else with_status AwaitingJoin th]>
      (with_lock (ConcurrencyLock t) (held (interrupts s) (currentThread s)) (with_interrupts false s))))).
Proof.
  intros Hth Hw Hf. unfold shutdown. rewrite (ebind_run _ _ _ _ _ (tfield_run _ _ _ _ Hth)), Hw.
  unfold ebind at 1. unfold eret at 1. rewrite (ebind_run _ _ _ _ _ (acquire_run _ _ Hf)). set (m := with_lock _ _ _).
  assert (Hm : threads m !! t = Some th) by done. rewrite (ebind_run _ _ _ _ _ (tfield_run _ _ _ _ Hm)).
  set (m' := with_threads _ m). rewrite (ebind_run _ _ m tt m').
  - apply (release_run _ _ (currentThread s)); [done|]. apply lock_of_eq.
  - unfold m', ewhen. destruct (m_bDetached th); simpl.
    + unfold eret, with_threads. f_equal. f_equal. by rewrite insert_id.
    + by apply tmodify_run.
Qed.

Lemma deleteThread_run s t th :
  threads s !! t = Some th -> t ∈ m_TPMap s -> (forall q, q ∈ m_pReadyQueues s -> t ∉ q) ->
  deleteThread t s = Some (tt, if m_bDetached th
    then with_threads (delete t) (with_TPMap (fun m => m ∖ {[t]}) (with_queues (m_pReadyQueues s) s)) else s).
Proof.
  intros Hth Hm Hq. unfold deleteThread. rewrite (ebind_run _ _ _ _ _ (tfield_run _ _ _ _ Hth)).
  unfold ewhen. destruct (m_bDetached th); [|done].
  unfold delete_thread, Scheduler_removeThread, RoundRobin_removeThread, ewhen, ebind, egets, emodify. simpl.
  rewrite bool_decide_eq_true_2 by done. by rewrite remove_from_none.
Qed.

Lemma queued_elsewhere s qs next : Inv s -> Popped s next qs -> forall q, q ∈ qs -> currentThread s ∉ q.
Proof.
  intros H Hpop q Hq Hin. apply list_elem_of_lookup in Hq as [p Hp].
  destruct (pop_in _ _ _ Hpop p q _ Hp Hin) as (_ & q0 & Hq0 & Hin0). by apply (cur_not_queued s H p q0 Hq0).
Qed.

(** The second half of [killCurrentThread]: [next] is locked by the thread that
    ends, which is no longer in any queue. *)
Lemma kill_tail m cur next thn thc b tn :
  threads m !! next = Some thn -> m_bSaved thn = Some b -> next <> cur ->
  threads m !! cur = Some thc -> interrupts m = false -> lock_of (ThreadLock next) m = held false tn ->
  cur ∈ m_TPMap m -> (forall q, q ∈ m_pReadyQueues m -> cur ∉ q) ->
  exists s', ebind (setStatus Running next) (fun _ => ebind (emodify (with_current next)) (fun _ =>
      ebind (exit_ (ThreadLock next)) (fun _ => ebind (deleteThread cur) (fun _ => resume next)))) m = Some (tt, s') /\
    threads s' = (if m_bDetached thc then delete cur else fun x => x) (<[next := with_status Running thn]> (threads m)) /\
    m_pReadyQueues s' = m_pReadyQueues m /\ currentThread s' = next /\ m_pIdleThread s' = m_pIdleThread m /\
    m_TPMap s' = (if m_bDetached thc then m_TPMap m ∖ {[cur]} else m_TPMap m) /\ interrupts s' = b /\
    free (lock_of (ThreadLock next) s') /\ (forall l, l <> ThreadLock next -> lock_of l s' = lock_of l m).
Proof.
  intros Hn Hb Hne Hc Hi Hl Hmap Hq.
  rewrite (ebind_run _ _ _ _ _ (setStatus_other Running next thn m Hn ltac:(done))). set (m1 := with_threads _ m).
  rewrite (ebind_run (emodify _) _ m1 tt (with_current next m1)) by done. set (m2 := with_current next m1).
  rewrite (ebind_run _ _ m2 tt _ (exit_run (ThreadLock next) false tn m2 Hi Hl)). set (m3 := with_lock _ _ m2).
  assert (Hc3 : threads m3 !! cur = Some thc) by (unfold m3, m2, m1; simpl; by rewrite lookup_insert_ne).
  rewrite (ebind_run _ _ _ _ _ (deleteThread_run m3 cur thc Hc3 Hmap Hq)).
  set (m4 := if m_bDetached thc then _ else m3).
  assert (Hn4 : threads m4 !! next = Some (with_status Running thn)).
  { unfold m4, m3, m2, m1. destruct (m_bDetached thc); simpl; rewrite ?lookup_delete_ne by done; apply lookup_insert_eq. }
  exists (with_interrupts b m4). split.
  - unfold resume. rewrite (ebind_run _ _ _ _ _ (tfield_run m_bSaved _ _ _ Hn4)). cbn [m_bSaved with_status]. by rewrite Hb.
  - unfold m4. destruct (m_bDetached thc); simpl; do 6 (split; [done|]);
      (split; [change (free (lock_of (ThreadLock next) m3)); unfold m3; by rewrite lock_of_eq|]);
      intros l Hd; change (lock_of l m3 = lock_of l m); unfold m3; by rewrite lock_of_ne.
Qed.

Lemma kill_run s next qs :
  Inv s -> Some (currentThread s) <> m_pIdleThread s ->
  (exists i q, front (m_pReadyQueues s) i next q /\ qs = <[i := q]> (m_pReadyQueues s)) \/
  (Forall (fun q => q = []) (m_pReadyQueues s) /\ m_pIdleThread s = Some next /\ qs = m_pReadyQueues s) ->
  exists s', killCurrentThread s = Some (tt, s') /\ Killed next qs s s'.
Proof.
  intros H Hni Hcase. destruct (cur_facts s H) as (thc & qc & Hthc & Hrc & Hqc & Hnqc & Hfc).
  set (cur := currentThread s) in *.
  assert (Hpop : Popped s next qs).
  { destruct Hcase as [(i & q & Hf & ->)|(_ & Hid & ->)]; [by apply popped_front|by apply popped_idle]. }
  assert (Hnext : exists thn, threads s !! next = Some thn /\ next <> cur /\ m_bSaved thn <> None /\ free (lock_of (ThreadLock next) s)).
  { destruct Hcase as [(i & q & Hf & _)|(_ & Hid & _)].
    - destruct (front_facts s H i next q Hf) as (? & _ & _ & th & ? & _ & _ & ? & ?). eauto.
    - destruct (inv_idle s H next Hid) as (th & Hth & Hr). assert (next <> cur) by congruence.
      exists th. split; [done|]. split; [done|]. split; [by apply (inv_saved s H next th Hth); [congruence|]|].
      apply (inv_locks s H next th Hth). congruence. }
  destruct Hnext as (thn & Hthn & Hne & Hsv & Hfn). destruct (m_bSaved thn) as [b|] eqn:Hb; [clear Hsv|done].
  unfold killCurrentThread. unfold ebind at 1, egets at 1. fold cur.
  rewrite (ebind_run _ _ _ tt _ (shutdown_run s cur thc Hthc (inv_waiter s H _ _ Hthc) (proj2 (inv_locks s H _ _ Hthc)))).
  set (s1 := with_interrupts (interrupts s) _).
  assert (Hl1 : forall l, l <> ConcurrencyLock cur -> lock_of l s1 = lock_of l s).
  { intros l Hl. change (lock_of l (with_lock (ConcurrencyLock cur) (unheld (interrupts s))
      (with_lock (ConcurrencyLock cur) (held (interrupts s) cur) s)) = lock_of l s). by rewrite !lock_of_ne. }
  assert (Hlc1 : free (lock_of (ConcurrencyLock cur) s1)).
  { change (free (lock_of (ConcurrencyLock cur) (with_lock (ConcurrencyLock cur) (unheld (interrupts s))
      (with_lock (ConcurrencyLock cur) (held (interrupts s) cur) s)))). by rewrite lock_of_eq. }
  rewrite (ebind_run (setInterrupts false) _ s1 tt (with_interrupts false s1)) by done. set (s2 := with_interrupts false s1).
  assert (Hf2 : free (lock_of (ThreadLock cur) s2)).
  { change (free (lock_of (ThreadLock cur) s1)). by rewrite Hl1. }
  rewrite (ebind_run _ _ _ _ _ (acquire_run _ s2 Hf2)). set (s3 := with_lock (ThreadLock cur) _ _).
  assert (Hl3 : forall l, l <> ThreadLock cur -> lock_of l s3 = lock_of l s1).
  { intros l Hl. unfold s3. by rewrite lock_of_ne. }
  assert (Hthr : threads s3 = <[cur := if m_bDetached thc then thc else with_status AwaitingJoin thc]> (threads s)) by done.
  assert (Hch : exists m, (ebind (getNext cur) (fun n => match n with
        | Some t => eret t
        | None => ebind (egets m_pIdleThread) (fun i => match i with
            | None => efail
            | Some t => ebind (ewhen (negb (same_tid t cur)) (ebind (acquire (ThreadLock t)) (fun _ => eret tt))) (fun _ => eret t)
            end)
        end)) s3 = Some (next, m) /\
     threads m = threads s3 /\ m_pReadyQueues m = qs /\ m_pIdleThread m = m_pIdleThread s /\ m_TPMap m = m_TPMap s /\
     interrupts m = false /\ (exists tn, lock_of (ThreadLock next) m = held false tn) /\
     (forall l, l <> ThreadLock cur -> l <> ThreadLock next -> lock_of l m = lock_of l s1)).
  { assert (Hfn3 : free (lock_of (ThreadLock next) s3)) by (rewrite Hl3, Hl1 by congruence; done).
    destruct Hcase as [(i & q & Hf & ->)|(Hall & Hid & ->)].
    - rewrite (ebind_run _ _ _ _ _ (getNext_run cur s3 i next q Hf Hne Hfn3 eq_refl)).
      eexists. split; [reflexivity|]. do 5 (split; [done|]). split; [eexists; apply lock_of_eq|].
      intros l H1 H2. rewrite lock_of_ne by done. change (lock_of l s3 = lock_of l s1). by apply Hl3.
    - rewrite (ebind_run _ _ _ _ _ (getNext_none cur s3 Hall)). unfold ebind at 1, egets at 1.
      change (m_pIdleThread s3) with (m_pIdleThread s). rewrite Hid, same_tid_ne by done. cbn [negb ewhen]. rewrite ebind_assoc.
      rewrite (ebind_run _ _ _ _ _ (acquire_run _ s3 Hfn3)). eexists. split; [reflexivity|]. do 5 (split; [done|]).
      split; [eexists; apply lock_of_eq|]. intros l H1 H2. rewrite lock_of_ne by done.
      change (lock_of l s3 = lock_of l s1). by apply Hl3. }
  destruct Hch as (m & Hch & Em1 & Em2 & Em3 & Em4 & Em5 & [tn Hlm] & Hlo).
  rewrite <- ebind_assoc. rewrite (ebind_run _ _ _ _ _ Hch).
  set (thc' := if m_bDetached thc then thc else with_status AwaitingJoin thc) in *.
  assert (Hd : m_bDetached thc' = m_bDetached thc) by (unfold thc'; destruct (m_bDetached thc) eqn:E; exact E).
  destruct (kill_tail m cur next thn thc' b tn) as (s' & Hrun & Ht & Hq & Hcu & Hi & Hm & Hin & Hln & Hlk); try done.
  - by rewrite Em1, Hthr, lookup_insert_ne.
  - by rewrite Em1, Hthr, lookup_insert_eq.
  - rewrite Em4, (inv_map s H). apply elem_of_dom. eauto.
  - rewrite Em2. by apply (queued_elsewhere s qs next).
  - exists s'. split; [exact Hrun|]. rewrite Hd in *.
    assert (Hts : forall t, threads s' !! t = if bool_decide (t = cur) then threads s !! t ≫= ended
      else if bool_decide (t = next) then with_status Running <$> threads s !! t else threads s !! t).
    { intros t. rewrite Ht, Em1, Hthr. unfold ended, thc'. destruct (decide (t = cur)) as [->|Hd1].
      - rewrite bool_decide_eq_true_2, Hthc by done. simpl.
        destruct (m_bDetached thc); [by rewrite lookup_delete_eq|]. by rewrite lookup_insert_ne, lookup_insert_eq by done.
      - rewrite bool_decide_eq_false_2 by done. destruct (m_bDetached thc); rewrite ?lookup_delete_ne by done;
          (destruct (decide (t = next)) as [->|Hd2];
            [rewrite lookup_insert_eq, bool_decide_eq_true_2, Hthn by done; done
            |rewrite !lookup_insert_ne, bool_decide_eq_false_2 by done; done]). }
    split; try done; try congruence.
    + rewrite Hm, Em4, (inv_map s H). apply set_eq. intros t. rewrite elem_of_dom, Hts.
      assert (t ∈ dom (threads s) <-> is_Some (threads s !! t)) as Hdom by apply elem_of_dom.
      case_bool_decide as E1.
      * subst t. rewrite Hthc. unfold ended. simpl. destruct (m_bDetached thc).
        -- split; [set_solver|by intros []].
        -- rewrite Hdom, Hthc. split; eauto.
      * transitivity (is_Some (threads s !! t)); [|case_bool_decide; [by rewrite fmap_is_Some|done]].
        rewrite <- Hdom. destruct (m_bDetached thc); set_solver.
    + exists thn. by rewrite Hin.
    + intros l Hl. fold cur in Hl. destruct (decide (l = ThreadLock next)) as [->|?]; [by right|].
      rewrite Hlk, Hlo by done. destruct (decide (l = ConcurrencyLock cur)) as [->|?]; [by right|left; by apply Hl1].
Qed.

Lemma killed_inv next qs s s' :
  Inv s -> Popped s next qs -> Some (currentThread s) <> m_pIdleThread s -> next <> currentThread s ->
  (exists thn, threads s !! next = Some thn /\ m_Status thn <> AwaitingJoin) ->
  Killed next qs s s' -> Inv s'.
Proof.
  intros H Hpop Hni Hne (thn & Hthn & Hnn) [Ht Hq Hc Hi Hm Hint Hl].
  destruct (inv_cur s H) as (thc & Hthc & Hrc). set (cur := currentThread s) in *.
  assert (Hlook : forall t th', threads s' !! t = Some th' -> exists th, threads s !! t = Some th /\
      m_Priority th' = m_Priority th /\ m_pWaiter th' = m_pWaiter th /\ m_bSaved th' = m_bSaved th /\
      (m_Status th' = if bool_decide (t = cur) then AwaitingJoin else if bool_decide (t = next) then Running else m_Status th)).
  { intros t th'. rewrite Ht. case_bool_decide as E1.
    - subst t. rewrite Hthc. simpl. unfold ended. destruct (m_bDetached thc); [done|]. intros [= <-]. by exists thc.
    - case_bool_decide as E2.
      + intros E. apply fmap_Some in E as (th & Hth & ->). by exists th.
      + intros E. by exists th'. }
  assert (Hoth : forall t, t <> cur -> t <> next -> threads s' !! t = threads s !! t)
    by (intros t H1 H2; by rewrite Ht, !bool_decide_eq_false_2).
  assert (Hn' : threads s' !! next = Some (with_status Running thn))
    by (rewrite Ht, bool_decide_eq_false_2, bool_decide_eq_true_2, Hthn by done; done).
  split.
  - rewrite Hq. apply Hpop.
  - rewrite Hc. eauto.
  - intros i E. rewrite Hi in E. destruct (inv_idle s H i E) as (th & Hth & Hr).
    destruct (decide (i = next)) as [->|Hd]; [eauto|]. exists th. rewrite Hoth; [done|congruence|done].
  - intros p q t Eq Hin. rewrite Hq in Eq. destruct (pop_in _ _ _ Hpop p q t Eq Hin) as (Hd & q0 & Eq0 & Hin0).
    rewrite Hoth; [by eapply (inv_queue s H)| |done]. intros ->. by apply (cur_not_queued s H p q0 Eq0).
  - intros p q Eq. rewrite Hq in Eq. by eapply (pop_nodup _ _ _ Hpop).
  - intros t th' Hth' Hr. destruct (Hlook t th' Hth') as (th & Hth & Hp & _ & _ & Hs). rewrite Hs in Hr.
    case_bool_decide; [done|]. case_bool_decide; [done|]. rewrite Hp, Hq.
    destruct (inv_ready s H t th Hth Hr) as (q0 & Eq0 & Hin0). by eapply (pop_out _ _ _ Hpop).
  - intros t th' Hth' Hr. destruct (Hlook t th' Hth') as (th & Hth & _ & _ & _ & Hs). rewrite Hs in Hr.
    case_bool_decide; [done|]. rewrite Hc, Hi. case_bool_decide; [by left|].
    destruct (inv_running s H t th Hth Hr) as [?|?]; [done|by right].
  - intros t th' Hth'. destruct (Hlook t th' Hth') as (th & Hth & _ & _ & _ & Hs).
    destruct (inv_locks s H t th Hth) as [Ha Hb]. split.
    + intros Hns. rewrite Hs in Hns. case_bool_decide as E1; [done|].
      destruct (Hl (ThreadLock t)) as [->|?]; [congruence| |done]. apply Ha. case_bool_decide as E2; [|done]. subst t. congruence.
    + by destruct (Hl (ConcurrencyLock t)) as [->|?].
  - intros t th' Hth' Hns Hd. rewrite Hc in Hd. destruct (Hlook t th' Hth') as (th & Hth & _ & _ & -> & Hs). rewrite Hs in Hns.
    case_bool_decide; [done|]. rewrite bool_decide_eq_false_2 in Hns by done. by apply (inv_saved s H t th Hth).
  - intros t th' Hth'. destruct (Hlook t th' Hth') as (th & Hth & -> & _). by eapply (inv_prio s H).
  - intros t th' Hth'. destruct (Hlook t th' Hth') as (th & Hth & _ & -> & _). by eapply (inv_waiter s H).
  - exact Hm.
Qed.

(** ** Detaching *)

Lemma detach_run s t th :
  Inv s -> threads s !! t = Some th -> m_Status th <> AwaitingJoin ->
  exists s', detach t s = Some (true, s') /\
    SameUpToLocks (with_threads <[t := with_detached true th]> s) s' /\ interrupts s' = interrupts s.
Proof.
  intros H Hth Haw. destruct (inv_locks s H t th Hth) as [_ Hf]. unfold detach.
  rewrite (ebind_run _ _ _ _ _ (tfield_run _ _ _ _ Hth)), bool_decide_eq_false_2 by done.
  rewrite (ebind_run _ _ _ _ _ (acquire_run _ _ Hf)). set (m := with_lock _ _ _).
  assert (Hm : threads m !! t = Some th) by done.
  rewrite (ebind_run _ _ _ _ _ (tfield_run _ _ _ _ Hm)), (inv_waiter s H t th Hth).
  rewrite (ebind_run _ _ _ _ _ (tmodify_run _ _ _ m Hm)). set (m' := with_threads _ m).
  rewrite (ebind_run _ _ m' tt _ (release_run _ _ (currentThread s) m' eq_refl (lock_of_eq _ _ _))).
  eexists. split; [reflexivity|]. split; [|done]. split; try done. intros l.
  change (lock_of l (with_lock (ConcurrencyLock t) (unheld (interrupts s)) m') = lock_of l s \/
          free (lock_of l (with_lock (ConcurrencyLock t) (unheld (interrupts s)) m'))).
  destruct (decide (l = ConcurrencyLock t)) as [->|Hne]; [right; by rewrite lock_of_eq|left].
  rewrite lock_of_ne by done. change (lock_of l m = lock_of l s). unfold m. by rewrite lock_of_ne.
Qed.

(** A change of a thread that keeps its status, priority, waiter and context. *)
Lemma same_fields_inv s t th th' :
  Inv s -> threads s !! t = Some th -> m_Status th' = m_Status th -> m_Priority th' = m_Priority th ->
  m_pWaiter th' = m_pWaiter th -> m_bSaved th' = m_bSaved th -> Inv (with_threads <[t := th']> s).
Proof.
  intros H Hth E1 E2 E3 E4.
  assert (Hto : forall u thu, threads s !! u = Some thu -> exists thu', threads (with_threads <[t := th']> s) !! u = Some thu' /\
    m_Status thu' = m_Status thu /\ m_Priority thu' = m_Priority thu).
  { intros u thu Hu. simpl. destruct (decide (u = t)) as [->|Hd]; [rewrite lookup_insert_eq|rewrite lookup_insert_ne by done; eauto].
    exists th'. split; [done|]. by replace thu with th by congruence. }
  assert (Hfrom : forall u thu, threads (with_threads <[t := th']> s) !! u = Some thu -> exists thu', threads s !! u = Some thu' /\
    m_Status thu = m_Status thu' /\ m_Priority thu = m_Priority thu' /\ m_pWaiter thu = m_pWaiter thu' /\ m_bSaved thu = m_bSaved thu').
  { intros u thu Hu. simpl in Hu. destruct (decide (u = t)) as [->|Hd].
    - rewrite lookup_insert_eq in Hu. injection Hu as <-. eauto 10.
    - rewrite lookup_insert_ne in Hu by done. eauto 10. }
  destruct H as [H1 H2 H3 H4 H5 H6 H7 H8 H9 H10 H11 H12]. split; try done.
  - destruct H2 as (thc & Hc & Hr). destruct (Hto _ _ Hc) as (x & ? & ? & _). exists x. split; [done|congruence].
  - intros i Hi. destruct (H3 i Hi) as (thi & Hc & Hr). destruct (Hto _ _ Hc) as (x & ? & ? & _). exists x. split; [done|congruence].
  - intros p q u Hq Hu. destruct (H4 p q u Hq Hu) as (x & Hx & ? & ?). destruct (Hto _ _ Hx) as (x' & ? & ? & ?).
    exists x'. split; [done|]. split; congruence.
  - intros u x Hx Hr. destruct (Hfrom u x Hx) as (x' & Hx' & Es & Ep & _). rewrite Ep. apply (H6 u x'); [done|congruence].
  - intros u x Hx Hr. destruct (Hfrom u x Hx) as (x' & Hx' & Es & _). apply (H7 u x'); [done|congruence].
  - intros u x Hx. destruct (Hfrom u x Hx) as (x' & Hx' & -> & _). exact (H8 u x' Hx').
  - intros u x Hx. destruct (Hfrom u x Hx) as (x' & Hx' & -> & _ & _ & ->). exact (H9 u x' Hx').
  - intros u x Hx. destruct (Hfrom u x Hx) as (x' & Hx' & _ & -> & _). exact (H10 u x' Hx').
  - intros u x Hx. destruct (Hfrom u x Hx) as (x' & Hx' & _ & _ & -> & _). exact (H11 u x' Hx').
  - simpl. rewrite H12. symmetry. apply dom_insert_lookup_L. eauto.
Qed.

(** ** Steps of the processor *)

Inductive label : Set :=
| Tick
| Block (st : Status)
| Wake (t : tid)
| Spawn (t : tid)
| Exit
| Detach (t : tid).

Definition exec (l : label) : Op unit :=
  match l with
  | Tick => timer
  | Block st => schedule st None None
  | Wake t => wake t
  | Spawn t => new_thread t
  | Exit => killCurrentThread
  | Detach t => ebind (detach t) (fun _ => eret tt)
  end.

(** The steps the rest of the kernel takes: [Sleeping], [Suspended] and
    [Zombie] are the states a thread blocks in; a thread that is woken sleeps
    or is suspended; the idle thread does not exit, and a thread only leaves
    the processor when another can take it. *)
Definition enabled (l : label) (s : Cpu) : Prop :=
  match l with
  | Tick => True
  | Block st => (st = Sleeping \/ st = Suspended \/ st = Zombie) /\
                (m_pIdleThread s <> None \/ exists q, q ∈ m_pReadyQueues s /\ q <> [])
  | Wake t => exists th, threads s !! t = Some th /\ (m_Status th = Sleeping \/ m_Status th = Suspended)
  | Spawn t => threads s !! t = None
  | Exit => Some (currentThread s) <> m_pIdleThread s /\
            (m_pIdleThread s <> None \/ exists q, q ∈ m_pReadyQueues s /\ q <> [])
  | Detach t => exists th, threads s !! t = Some th /\ m_Status th <> AwaitingJoin
  end.

(** Who runs next when the current thread leaves. *)
Lemma next_exists s :
  m_pIdleThread s <> None \/ (exists q, q ∈ m_pReadyQueues s /\ q <> []) ->
  (exists i t q, front (m_pReadyQueues s) i t q) \/
  (Forall (fun q => q = []) (m_pReadyQueues s) /\ exists i, m_pIdleThread s = Some i).
Proof.
  intros Hn. destruct (front_or_idle (m_pReadyQueues s)) as [?|Hall]; [by left|]. right. split; [done|].
  destruct Hn as [Hi|(q & Hq & Hne)]; [destruct (m_pIdleThread s); [eauto|done]|].
  rewrite Forall_forall in Hall. by rewrite (Hall q Hq) in Hne.
Qed.

Lemma passes_none s : passes None s.
Proof. by intros l [=]. Qed.

(** A block, or a tick when somebody is ready, is a switch. *)
Lemma leave_run s st :
  Inv s -> st <> Running -> st <> AwaitingJoin ->
  (exists i t q, front (m_pReadyQueues s) i t q) \/
  (Forall (fun q => q = []) (m_pReadyQueues s) /\ st <> Ready /\ exists i, m_pIdleThread s = Some i) ->
  exists s' next qs, schedule st None None s = Some (tt, s') /\ Inv s' /\
    Switched st None (interrupts s) (currentThread s) next (with_queues qs s) s' /\
    ((exists i q, front (m_pReadyQueues s) i next q /\ qs = <[i := q]> (m_pReadyQueues s)) \/
     (Forall (fun q => q = []) (m_pReadyQueues s) /\ m_pIdleThread s = Some next /\ qs = m_pReadyQueues s)).
Proof.
  intros H Hs1 Hs2 [(i & t & q & Hf)|(Hall & Hr & i & Hi)].
  - destruct (schedule_to_front s st None i t q H (passes_none s) Hf) as (s' & Hrun & Hsw).
    destruct (front_facts s H i t q Hf) as (Hne & Hni & _ & th & Hth & Hrdy & _).
    exists s', t, (<[i := q]> (m_pReadyQueues s)). split; [done|]. split; [|split; [done|left; eauto]].
    apply (switch_inv s s' H st None (interrupts s) t (<[i := q]> (m_pReadyQueues s))); try done.
    + by apply popped_front.
    + exists th. split; [done|congruence].
  - destruct (schedule_to_idle s st None i H (passes_none s) Hall Hr Hi) as (s' & Hrun & Hsw).
    assert (E : with_queues (m_pReadyQueues s) s = s) by by destruct s.
    exists s', i, (m_pReadyQueues s). rewrite E. split; [done|]. split; [|split; [done|by right]].
    destruct (inv_idle s H i Hi) as (th & Hth & Hrun').
    apply (switch_inv s s' H st None (interrupts s) i (m_pReadyQueues s)); try done.
    + by apply popped_idle.
    + exists th. split; [done|congruence].
    + by rewrite E.
Qed.

Lemma exit_step s :
  Inv s -> enabled Exit s -> exists s' next qs, killCurrentThread s = Some (tt, s') /\ Inv s' /\ Killed next qs s s' /\
    ((exists i q, front (m_pReadyQueues s) i next q /\ qs = <[i := q]> (m_pReadyQueues s)) \/
     (Forall (fun q => q = []) (m_pReadyQueues s) /\ m_pIdleThread s = Some next /\ qs = m_pReadyQueues s)).
Proof.
  intros H [Hni Hn].
  assert (Hc : exists next qs, (exists i q, front (m_pReadyQueues s) i next q /\ qs = <[i := q]> (m_pReadyQueues s)) \/
     (Forall (fun q => q = []) (m_pReadyQueues s) /\ m_pIdleThread s = Some next /\ qs = m_pReadyQueues s)).
  { destruct (next_exists s Hn) as [(i & t & q & Hf)|(Hall & i & Hi)].
    - exists t, (<[i := q]> (m_pReadyQueues s)). left. eauto.
    - exists i, (m_pReadyQueues s). by right. }
  destruct Hc as (next & qs & Hc). destruct (kill_run s next qs H Hni Hc) as (s' & Hrun & Hk).
  exists s', next, qs. split; [done|]. split; [|done].
  assert (Hpop : Popped s next qs /\ next <> currentThread s /\ exists thn, threads s !! next = Some thn /\ m_Status thn <> AwaitingJoin).
  { destruct Hc as [(i & q & Hf & ->)|(_ & Hid & ->)].
    - split; [by apply popped_front|]. destruct (front_facts s H i next q Hf) as (? & _ & _ & th & ? & Hr & _). split; [done|].
      exists th. split; [done|congruence].
    - split; [by apply popped_idle|]. destruct (inv_idle s H next Hid) as (th & Hth & Hr). split; [congruence|].
      exists th. split; [done|congruence]. }
  destruct Hpop as (? & ? & ?). by apply (killed_inv next qs s).
Qed.

(** Every enabled step runs to its end and keeps the invariant. *)
Lemma step_runs l s : Inv s -> enabled l s -> exists s', exec l s = Some (tt, s') /\ Inv s'.
Proof.
  intros H Hen. destruct l as [|st|t|t| |t]; cbn [exec enabled] in *.
  - destruct (front_or_idle (m_pReadyQueues s)) as [Hf|Hall].
    + destruct (leave_run s Ready H) as (s' & _ & _ & ? & ? & _); [done|done|by left|]. eauto.
    + destruct (schedule_stays s None H Hall) as (s' & Hrun & Hun). exists s'. split; [done|].
      eapply same_inv; [by apply unchanged_same|done].
  - destruct Hen as [Hst Hn]. destruct (leave_run s st H) as (s' & _ & _ & ? & ? & _); [naive_solver|naive_solver| |eauto].
    destruct (next_exists s Hn) as [?|[? ?]]; [by left|right]. split; [done|]. split; [naive_solver|done].
  - destruct Hen as (th & Hth & Hs). assert (m_Status th <> Ready /\ m_Status th <> Running /\ m_Status th <> AwaitingJoin) as (? & ? & ?)
      by (destruct Hs as [-> | ->]; done).
    destruct (wake_run s t th H Hth) as (s' & Hrun & Hw & _); [done|done|]. exists s'. split; [done|].
    eapply same_inv; [exact Hw|by apply ready_inv].
  - destruct (new_thread_run s t H Hen) as (s' & Hrun & Hsw). exists s'. split; [done|].
    apply (switch_inv (with_new t s) s' (new_inv s t H Hen) Ready None (interrupts s) t (m_pReadyQueues s)); try done.
    + by apply popped_new.
    + eexists. split; [apply lookup_insert_eq|done].
    + intros E. destruct (inv_cur s H) as (th & Hth & _). simpl in E. congruence.
  - destruct (exit_step s H Hen) as (s' & _ & _ & ? & ? & _). eauto.
  - destruct Hen as (th & Hth & Hs). destruct (detach_run s t th H Hth Hs) as (s' & Hrun & Hsame & _).
    exists s'. rewrite (ebind_run _ _ _ _ _ Hrun). split; [done|]. eapply same_inv; [exact Hsame|].
    by apply (same_fields_inv s t th).
Qed.
