(* ===== verification/SchedLive.v ===== *)
(** * Runs of the processor: bounded waiting and lost wake-ups

    Sequences of scheduler steps from a booted processor: what holds in every
    state they reach, how long a ready thread waits, and two runs in which a
    thread is lost. *)
From Stdlib Require Import ZArith Lia List Bool.
From stdpp Require Import base gmap list fin_maps.
From S2P Require Import Prelude Cpu Sched SchedInv SchedSteps.
Import ListNotations.
#[local] Set Warnings "-clear-no-such-hyp".

(** [reaches s ls s']: the steps [ls], each enabled where it is taken, lead
    from [s] to [s']. *)
Inductive reaches : Cpu -> list label -> Cpu -> Prop :=
| reaches_nil s : reaches s [] s
| reaches_cons s l s1 ls s2 :
    enabled l s -> exec l s = Some (tt, s1) -> reaches s1 ls s2 -> reaches s (l :: ls) s2.

(** Steps in which the processor chooses the next thread. *)
Definition choosing (l : label) : bool :=
  match l with Tick | Block _ | Exit => true | Wake _ | Spawn _ | Detach _ => false end.

Definition choices (ls : list label) : nat := length (List.filter choosing ls).

(** The processor as [PerProcessorScheduler::initialise] finds it: thread [t]
    runs, it is the idle thread, nothing is queued. *)
Definition boot (t : tid) : Cpu :=
  mkCpu {[t := mkThread Running DEFAULT_PRIORITY false None None]} ∅ {[t]} (replicate MAX_PRIORITIES []) t (Some t) true.

Lemma boot_inv t : Inv (boot t).
Proof.
  assert (Hq : forall p q, m_pReadyQueues (boot t) !! p = Some q -> q = []).
  { intros p q Hp. simpl in Hp. change ([] :: _) with (replicate 8 (@nil tid)) in Hp. by apply lookup_replicate_1 in Hp as [-> _]. }
  assert (Ht : forall u th, threads (boot t) !! u = Some th -> u = t /\ th = mkThread Running DEFAULT_PRIORITY false None None).
  { intros u th Hu. simpl in Hu. by apply lookup_singleton_Some in Hu as [<- <-]. }
  split.
  - done.
  - eexists. split; [apply lookup_singleton_eq|done].
  - intros i [= <-]. eexists. split; [apply lookup_singleton_eq|done].
  - intros p q u Hp Hu. rewrite (Hq p q Hp) in Hu. set_solver.
  - intros p q Hp. rewrite (Hq p q Hp). constructor.
  - intros u th Hu. by destruct (Ht u th Hu) as [-> ->].
  - intros u th Hu. destruct (Ht u th Hu) as [-> ->]. by left.
  - intros u th Hu. by split.
  - intros u th Hu. destruct (Ht u th Hu) as [-> ->]. simpl. done.
  - intros u th Hu. destruct (Ht u th Hu) as [-> ->]. unfold DEFAULT_PRIORITY, MAX_PRIORITIES. simpl. lia.
  - intros u th Hu. by destruct (Ht u th Hu) as [-> ->].
  - simpl. by rewrite dom_singleton_L.
Qed.

(** No thread has a priority above [p]. *)
Definition at_most (p : nat) (s : Cpu) : Prop := forall t th, threads s !! t = Some th -> (p <= m_Priority th)%nat.

(** The front of the ready queues is the head of the queue of the highest
    priority in use. *)
Lemma front_at s p i u q q' :
  Inv s -> at_most p s -> front (m_pReadyQueues s) i u q -> m_pReadyQueues s !! p = Some q' -> q' <> [] -> i = p.
Proof.
  intros H Hp [Hi Hj] Hq Hne. destruct (inv_queue s H i (u :: q) u Hi ltac:(set_solver)) as (th & Hth & _ & Hpr).
  pose proof (Hp u th Hth). destruct (Nat.lt_trichotomy i p) as [?|[?|?]]; [lia|done|].
  specialize (Hj p ltac:(lia)). congruence.
Qed.

Lemma not_all_empty qs p (q : list tid) : qs !! p = Some q -> q <> [] -> ~ Forall (fun q => q = []) qs.
Proof. intros Hq Hne Hall. rewrite Forall_lookup in Hall. by apply Hne, (Hall p). Qed.

Lemma requeue_tail st t th qs p q : qs !! p = Some q -> exists r, requeue st t th qs !! p = Some (q ++ r).
Proof.
  intros Hq. rewrite requeue_lookup, Hq. case_bool_decide; [eauto|]. exists []. by rewrite app_nil_r.
Qed.

(** The queue of priority [p] after a choice: its head is gone and something
    may have joined its end. *)
Lemma popped_queue s p q1 t q2 next qs :
  Inv s -> at_most p s -> m_pReadyQueues s !! p = Some (q1 ++ t :: q2) ->
  (exists i q, front (m_pReadyQueues s) i next q /\ qs = <[i := q]> (m_pReadyQueues s)) \/
  (Forall (fun q => q = []) (m_pReadyQueues s) /\ m_pIdleThread s = Some next /\ qs = m_pReadyQueues s) ->
  (q1 = [] /\ next = t) \/ exists u q1', q1 = u :: q1' /\ qs !! p = Some (q1' ++ t :: q2).
Proof.
  intros H Hp Hq Hc. assert (Hne : q1 ++ t :: q2 <> []) by by destruct q1.
  destruct Hc as [(i & q & Hf & ->)|(Hall & _)]; [|by destruct (not_all_empty _ p _ Hq Hne)].
  pose proof (front_at s p i next q _ H Hp Hf Hq Hne) as ->. destruct Hf as [Hi _]. rewrite Hq in Hi.
  destruct q1 as [|u q1]; injection Hi as <- <-; [by left|right]. exists u, q1. split; [done|].
  apply list_lookup_insert_eq. by eapply lookup_lt_Some.
Qed.

Lemma switched_tail st pLock bw cur next s s' p q :
  Switched st pLock bw cur next s s' -> m_pReadyQueues s !! p = Some q ->
  exists r, m_pReadyQueues s' !! p = Some (q ++ r).
Proof.
  intros Hsw Hq. rewrite (sw_queues _ _ _ _ _ _ _ Hsw).
  assert (exists r, m_pReadyQueues s !! p = Some (q ++ r)) by (exists []; by rewrite app_nil_r).
  destruct (threads s !! cur); [|done]. destruct (is_idle _ _); [done|]. by apply requeue_tail.
Qed.

Lemma switched_at_most st pLock bw cur next s s' p :
  Switched st pLock bw cur next s s' -> at_most p s -> at_most p s'.
Proof.
  intros Hsw Hp t th' Ht. rewrite (sw_threads _ _ _ _ _ _ _ Hsw) in Ht. apply fmap_Some in Ht as (th & Hth & ->).
  specialize (Hp t th Hth). unfold switched_thread. repeat case_bool_decide; simpl; try done; by destruct (is_idle _ _).
Qed.

(** What a step does to a thread waiting in the queue of priority [p]. *)
Lemma step_position l s s1 p q1 t q2 :
  Inv s -> at_most p s -> (p <= DEFAULT_PRIORITY)%nat -> m_pReadyQueues s !! p = Some (q1 ++ t :: q2) ->
  enabled l s -> exec l s = Some (tt, s1) ->
  at_most p s1 /\
  if choosing l then (q1 = [] /\ currentThread s1 = t) \/ (exists u q1' r, q1 = u :: q1' /\ m_pReadyQueues s1 !! p = Some (q1' ++ t :: r))
  else exists r, m_pReadyQueues s1 !! p = Some (q1 ++ t :: r).
Proof.
  intros H Hp Hd Hq Hen Hex. assert (Hne : q1 ++ t :: q2 <> []) by by destruct q1.
  assert (Hleave : forall st, st <> Running -> st <> AwaitingJoin -> schedule st None None s = Some (tt, s1) ->
    at_most p s1 /\ ((q1 = [] /\ currentThread s1 = t) \/ (exists u q1' r, q1 = u :: q1' /\ m_pReadyQueues s1 !! p = Some (q1' ++ t :: r)))).
  { intros st Hs1 Hs2 Hrun. destruct (leave_run s st H Hs1 Hs2) as (s' & next & qs & Hrun' & _ & Hsw & Hc).
    { destruct (front_or_idle (m_pReadyQueues s)) as [?|Hall]; [by left|]. by destruct (not_all_empty _ p _ Hq Hne). }
    assert (s1 = s') as -> by congruence.
    split; [eapply switched_at_most; [exact Hsw|done]|]. rewrite (sw_cur _ _ _ _ _ _ _ Hsw).
    destruct (popped_queue s p q1 t q2 next qs H Hp Hq Hc) as [?|(u & q1' & -> & Hqs)]; [by left|right].
    destruct (switched_tail _ _ _ _ _ _ _ p _ Hsw Hqs) as [r Hr]. exists u, q1', (q2 ++ r). split; [done|].
    rewrite Hr. by rewrite <- app_assoc. }
  destruct l as [|st|u|u| |u]; cbn [exec choosing enabled] in *.
  - by apply (Hleave Ready).
  - apply (Hleave st); [| |done]; by destruct Hen as [[-> | [-> | ->]] _].
  - destruct Hen as (th & Hth & Hs). destruct (wake_run s u th H Hth) as (s' & Hrun & Hw & _); [by destruct Hs as [-> | ->]..|].
    assert (s1 = s') as -> by congruence. split.
    + intros v thv Hv. rewrite (sm_threads _ _ Hw) in Hv. simpl in Hv. destruct (decide (u = v)) as [<-|?].
      * rewrite lookup_insert_eq in Hv. injection Hv as <-. simpl. by apply (Hp u).
      * rewrite lookup_insert_ne in Hv by done. by apply (Hp v).
    + rewrite (sm_queues _ _ Hw). simpl. rewrite lookup_enqueue, Hq. case_bool_decide; [|eauto].
      exists (q2 ++ [u]). simpl. by rewrite <- app_assoc.
  - destruct (new_thread_run s u H Hen) as (s' & Hrun & Hsw). assert (s1 = s') as -> by congruence. split.
    + eapply switched_at_most; [exact Hsw|]. intros v thv Hv. simpl in Hv. destruct (decide (u = v)) as [<-|?].
      * rewrite lookup_insert_eq in Hv. by injection Hv as <-.
      * rewrite lookup_insert_ne in Hv by done. by apply (Hp v).
    + destruct (switched_tail _ _ _ _ _ _ _ p _ Hsw Hq) as [r Hr]. exists (q2 ++ r). rewrite Hr. by rewrite <- app_assoc.
  - destruct (exit_step s H Hen) as (s' & next & qs & Hrun & _ & Hk & Hc). assert (s1 = s') as -> by congruence. split.
    + intros v thv Hv. rewrite (kl_threads _ _ _ _ Hk) in Hv. case_bool_decide.
      * apply bind_Some in Hv as (th & Hth & He). unfold ended in He. destruct (m_bDetached th); [done|]. injection He as <-. exact (Hp v th Hth).
      * case_bool_decide; [|by apply (Hp v)]. apply fmap_Some in Hv as (th & Hth & ->). exact (Hp v th Hth).
    + rewrite (kl_cur _ _ _ _ Hk), (kl_queues _ _ _ _ Hk).
      destruct (popped_queue s p q1 t q2 next qs H Hp Hq Hc) as [?|(v & q1' & -> & Hqs)]; [by left|right]. eauto.
  - destruct Hen as (th & Hth & Hs). destruct (detach_run s u th H Hth Hs) as (s' & Hrun & Hw & _).
    rewrite (ebind_run _ _ _ _ _ Hrun) in Hex. injection Hex as ->. split.
    + intros v thv Hv. rewrite (sm_threads _ _ Hw) in Hv. simpl in Hv. destruct (decide (u = v)) as [<-|?].
      * rewrite lookup_insert_eq in Hv. injection Hv as <-. exact (Hp u th Hth).
      * rewrite lookup_insert_ne in Hv by done. by apply (Hp v).
    + rewrite (sm_queues _ _ Hw). eauto.
Qed.

Lemma step_inv l s s1 : Inv s -> enabled l s -> exec l s = Some (tt, s1) -> Inv s1.
Proof. intros H Hen Hex. destruct (step_runs l s H Hen) as (s' & Hrun & H'). congruence. Qed.

(** C1. The scheduler keeps its invariant [Inv] on every sequence of the steps of [label]: a
    tick of the timer, the current thread's leaving the ready state without a lock passed
    along, its exit (both where another thread or the idle thread can run), and waking,
    creating and detaching a thread ([join] and [schedule] with a thread to switch to are
    not among them).  So in every state they
    reach exactly the current thread runs (the idle thread excepted, whose status never
    changes), every ready thread waits in the queue of its priority, once, nobody else
    waits there, and the locks of every thread are free, but for the [ThreadLock] of one
    that has exited; and no enabled step faults or panics: every lock it takes is free
    and every thread it resumes has a context. *)
Theorem scheduler_safe s ls s' :
  Inv s -> reaches s ls s' ->
  Inv s' /\ forall l, enabled l s' -> exists s'', exec l s' = Some (tt, s'').
Proof.
  intros H Hr. assert (H' : Inv s') by (induction Hr; eauto using step_inv).
  split; [done|]. intros l Hen. destruct (step_runs l s' H' Hen) as (s'' & ? & _). eauto.
Qed.

(** C2. Bounded waiting: a ready thread of the highest priority in use that has
    [k] threads before it in its queue is running after at most [k + 1] choices
    of the scheduler, whatever ticks, blocks, wake-ups, creations and exits
    happen in what order. *)
Theorem ready_thread_runs s ls s' p q1 t q2 :
  Inv s -> at_most p s -> (p <= DEFAULT_PRIORITY)%nat -> m_pReadyQueues s !! p = Some (q1 ++ t :: q2) ->
  reaches s ls s' -> (length q1 < choices ls)%nat ->
  exists ls1 ls2 s1, ls = ls1 ++ ls2 /\ reaches s ls1 s1 /\ currentThread s1 = t /\
    (choices ls1 <= length q1 + 1)%nat.
Proof.
  intros H Hp Hd Hq Hr. revert p q1 q2 H Hp Hd Hq.
  induction Hr as [s|s l s1 ls s2 Hen Hex Hr IH]; intros p q1 q2 H Hp Hd Hq Hk; [unfold choices in Hk; simpl in Hk; lia|].
  destruct (step_position l s s1 p q1 t q2 H Hp Hd Hq Hen Hex) as [Hp1 Hpos].
  pose proof (step_inv l s s1 H Hen Hex) as H1.
  assert (Hch : choices (l :: ls) = ((if choosing l then 1 else 0) + choices ls)%nat)
    by (unfold choices; simpl; by destruct (choosing l)).
  assert (Hext : forall ls1 ls2 s1', ls = ls1 ++ ls2 -> reaches s1 ls1 s1' -> currentThread s1' = t ->
    (choices (l :: ls1) <= length q1 + 1)%nat ->
    exists ls1 ls2 s1, l :: ls = ls1 ++ ls2 /\ reaches s ls1 s1 /\ currentThread s1 = t /\ (choices ls1 <= length q1 + 1)%nat).
  { intros ls1 ls2 s1' -> Hr1 Hc1 Hn. exists (l :: ls1), ls2, s1'. split; [done|]. split; [by econstructor|done]. }
  assert (Hch' : forall ls1, choices (l :: ls1) = ((if choosing l then 1 else 0) + choices ls1)%nat)
    by (intros ls1; unfold choices; simpl; by destruct (choosing l)).
  destruct (choosing l).
  - destruct Hpos as [[-> Hc]|(u & q1' & r & -> & Hq1)].
    + apply (Hext [] ls s1); [done|constructor|done|]. rewrite Hch'. unfold choices. simpl. lia.
    + destruct (IH p q1' r H1 Hp1 Hd Hq1) as (ls1 & ls2 & s1' & Els & Hr1 & Hc1 & Hn); [simpl in Hk; lia|].
      apply (Hext ls1 ls2 s1'); [done..|]. rewrite Hch'. simpl. lia.
  - destruct Hpos as [r Hq1]. destruct (IH p q1 r H1 Hp1 Hd Hq1) as (ls1 & ls2 & s1' & Els & Hr1 & Hc1 & Hn); [lia|].
    apply (Hext ls1 ls2 s1'); [done..|]. rewrite Hch'. lia.
Qed.

(** C3. What [schedule] does on a processor in its invariant, for any new status, with a lock
    of an object passed along or none.  A thread that was named and has not exited runs next,
    and leaves the queues as they are.  When none was named, the head of the first queue that
    is not empty runs next; the thread that stops gets the new status, saves
    the interrupt state (that of [pLock], if one was passed, which is dropped)
    and joins the end of the queue of its priority when it stays ready; the
    next thread goes on with the interrupt state it had saved.  When nothing is
    ready a ready thread goes on undisturbed, otherwise the idle thread runs;
    without one the kernel panics. *)
Theorem schedule_correct s st pLock :
  Inv s -> passes pLock s ->
  (forall t th, threads s !! t = Some th -> m_Status th <> AwaitingJoin ->
     exists s', schedule st (Some t) pLock s = Some (tt, s') /\
       Switched st pLock (saved_interrupts pLock s (interrupts s)) (currentThread s) t s s') /\
  (forall i t q, front (m_pReadyQueues s) i t q ->
     exists s', schedule st None pLock s = Some (tt, s') /\
       Switched st pLock (saved_interrupts pLock s (interrupts s)) (currentThread s) t
         (with_queues (<[i := q]> (m_pReadyQueues s)) s) s') /\
  (Forall (fun q => q = []) (m_pReadyQueues s) ->
     match st, m_pIdleThread s with
     | Ready, _ => exists s', schedule st None pLock s = Some (tt, s') /\ Unchanged s s'
     | _, Some i => exists s', schedule st None pLock s = Some (tt, s') /\
                      Switched st pLock (saved_interrupts pLock s (interrupts s)) (currentThread s) i s s'
     | _, None => schedule st None pLock s = None
     end).
Proof.
  intros H Hpl. split; [intros t th; by apply schedule_to_named|].
  split; [intros i t q; by apply schedule_to_front|]. intros Hall.
  destruct st; [by apply schedule_stays|..]; (destruct (m_pIdleThread s) as [i|] eqn:Hi;
    [by apply schedule_to_idle|by apply schedule_panics]).
Qed.

(** ** Witnesses *)

Local Open Scope positive_scope.

(** The processor after a step, and after the creation of threads 2, 3 and 4:
    thread 4 runs, 2 and 3 wait. *)
Definition after (l : label) (s : Cpu) : Cpu := match exec l s with Some (_, s') => s' | None => s end.

Definition one : Cpu := after (Spawn 2) (boot 1).
Definition two : Cpu := after (Spawn 3) one.
Definition three : Cpu := after (Spawn 4) two.

Lemma after_inv l s : Inv s -> enabled l s -> exec l s = Some (tt, after l s) /\ Inv (after l s).
Proof.
  intros H Hen. destruct (step_runs l s H Hen) as (s' & Hrun & H'). unfold after. by rewrite Hrun.
Qed.

Lemma three_inv : Inv three.
Proof.
  assert (H1 : Inv one) by (apply after_inv; [apply boot_inv|by vm_compute]).
  assert (H2 : Inv two) by (apply after_inv; [done|by vm_compute]).
  apply after_inv; [done|by vm_compute].
Qed.

Lemma scheduler_safe_witness :
  reaches (boot 1) [Spawn 2; Spawn 3; Spawn 4] three /\ Inv three /\
  exists s', exec (Block Sleeping) three = Some (tt, s').
Proof.
  assert (Hr : reaches (boot 1) [Spawn 2; Spawn 3; Spawn 4] three).
  { apply (reaches_cons _ _ one); [by vm_compute..|]. apply (reaches_cons _ _ two); [by vm_compute..|].
    apply (reaches_cons _ _ three); [by vm_compute..|]. constructor. }
  destruct (scheduler_safe _ _ _ (boot_inv 1) Hr) as [H1 H2]. split; [exact Hr|]. split; [exact H1|].
  apply (H2 (Block Sleeping)). split; [by left|left; by vm_compute].
Defined.

Lemma schedule_correct_witness :
  exists s', schedule Ready None None three = Some (tt, s') /\ currentThread s' = 2%positive /\
    m_pReadyQueues s' !! 1%nat = Some [3; 4]%positive.
Proof.
  destruct (schedule_correct three Ready None three_inv (passes_none _)) as (_ & H & _).
  destruct (H 1%nat 2%positive [3%positive]) as (s' & Hrun & Hsw).
  { split; [by vm_compute|]. intros [|[|j]] Hj; [by vm_compute|lia..]. }
  exists s'. split; [exact Hrun|]. split; [exact (sw_cur _ _ _ _ _ _ _ Hsw)|].
  rewrite (sw_queues _ _ _ _ _ _ _ Hsw). by vm_compute.
Defined.

Lemma ready_thread_runs_witness :
  exists s', reaches three [Tick; Tick] s' /\
  exists ls1 ls2 s1, [Tick; Tick] = (ls1 ++ ls2)%list /\ reaches three ls1 s1 /\ currentThread s1 = 3%positive /\
    (choices ls1 <= 2)%nat.
Proof.
  destruct (step_runs Tick three three_inv I) as (s1 & E1 & H1). destruct (step_runs Tick s1 H1 I) as (s2 & E2 & H2).
  assert (Hr : reaches three [Tick; Tick] s2)
    by (eapply (reaches_cons _ Tick); [done|exact E1|]; eapply (reaches_cons _ Tick); [done|exact E2|constructor]).
  exists s2. split; [exact Hr|].
  apply (ready_thread_runs three [Tick; Tick] s2 1%nat [2%positive] 3%positive [] three_inv); [|done|by vm_compute|exact Hr|by vm_compute].
  intros t th Ht. revert t th Ht.
  assert (Hall : map_Forall (fun _ th => (1 <= m_Priority th)%nat) (threads three)); [|exact Hall].
  apply (bool_decide_eq_true_1 _). by vm_compute.
Defined.

(** ** Runs that lose a thread *)

(** Who runs, the status of threads 2 and 3, and the default queue. *)
Definition view (r : option (unit * Cpu)) : option (tid * option Status * option Status * option (list tid)) :=
  match r with
  | Some (_, s) => Some (currentThread s, m_Status <$> threads s !! 2%positive, m_Status <$> threads s !! 3%positive,
                         m_pReadyQueues s !! DEFAULT_PRIORITY)
  | None => None
  end.

(** [Thread::join] sleeps without looking whether the thread exited after it
    registered: thread 2 registers as the waiter of thread 3 and is preempted;
    thread 3 exits and finds its waiter ready; thread 2 then sleeps, and nobody
    is left to wake it. *)
Example join_lost_wakeup :
  view ((new_thread 2 ;; new_thread 3 ;; timer ;; join_begin 3 ;; timer ;; killCurrentThread ;; sleep None)%err (boot 1))
  = Some (1%positive, Some Sleeping, Some AwaitingJoin, Some []).
Proof. by vm_compute. Qed.

(** [setStatus] does not take a thread out of the ready queue: a thread made a
    zombie while it waits there (as [Process::~Process] does) and shut down
    runs again. *)
Example zombie_runs :
  view ((new_thread 2 ;; new_thread 3 ;; setStatus Zombie 2 ;; shutdown 2 ;; timer)%err (boot 1))
  = Some (2%positive, Some Running, Some Ready, Some [3%positive]).
Proof. by vm_compute. Qed.

(** [schedule] with a thread to switch to (as [posix_kill] does) leaves that
    thread in the ready queue; when it then sleeps, [getNext] drops it and does
    not look at the rest of the queue: the idle thread runs although thread 3
    is ready. *)
Example ready_thread_skipped :
  view ((new_thread 2 ;; new_thread 3 ;; schedule Ready (Some 2%positive) None ;; sleep None)%err (boot 1))
  = Some (1%positive, Some Sleeping, Some Ready, Some [3%positive]).
Proof. by vm_compute. Qed.
