(* ===== verification/Semaphore.v ===== *)
(** * Semaphore

    [kernel/core/process/Semaphore.cc] as an interleaving of atomic actions of
    the threads that use one semaphore: a load or a compare-and-swap of
    [m_Counter], taking or dropping [m_BeingModified], an update of [m_Queue]
    under that lock, falling asleep, and waking a sleeper.  [smp] tells whether
    other threads run while one holds the lock: on one processor they do not,
    as a spinlock disables interrupts.  [evts] tells whether a thread may find
    an event pending when it goes to sleep.  [ssize_t] has [w] bits. *)
From Stdlib Require Import ZArith Lia List Bool.
From stdpp Require Import base gmap list fin_maps.
From S2P Require Import Prelude Cpu Sched.
Import ListNotations.
Local Open Scope Z_scope.

(** The places [tryAcquire] is called from: before the loop ([k] more tries to
    come), in the loop, and with the lock held. *)
Inductive site : Set := First (k : nat) | Loop | Locked.

(** Where a thread is.  [n] is the number of items it asks for. *)
Inductive pc : Set :=
| Outside
| Load (k : site) (n : Z)
| Cas (k : site) (n v : Z)
| WantLock (n : Z)
| Push (n : Z)
| Enqueued (n : Z)
| Handling (n : Z)
| Falling (n : Z)
| Asleep (n : Z)
| Woken (n : Z) (interrupted : bool)
| Unlocking (n : Z)
| Removing (n : Z)
| Returned (b : bool)
| Rel (n : Z)
| RelCheck
| RelLock
| RelWake (l : list tid).

Record Semaphore := mkSemaphore {
  m_Counter : Z;
  m_BeingModified : option tid;
  m_Queue : list tid;
  pcs : gmap tid pc
}.

Definition pc_of (t : tid) (s : Semaphore) : pc := default Outside (pcs s !! t).

Definition goto (t : tid) (p : pc) (s : Semaphore) : Semaphore :=
  mkSemaphore (m_Counter s) (m_BeingModified s) (m_Queue s) (<[t := p]> (pcs s)).
Definition with_counter (c : Z) (s : Semaphore) : Semaphore :=
  mkSemaphore c (m_BeingModified s) (m_Queue s) (pcs s).
Definition with_holder (h : option tid) (s : Semaphore) : Semaphore :=
  mkSemaphore (m_Counter s) h (m_Queue s) (pcs s).
Definition with_queue (q : list tid) (s : Semaphore) : Semaphore :=
  mkSemaphore (m_Counter s) (m_BeingModified s) q (pcs s).

Definition new_semaphore (nInitialValue : Z) : Semaphore := mkSemaphore nInitialValue None [] ∅.

(** What a thread outside may call, that it goes on, that it finds an event
    pending, and that its timeout expires. *)
Inductive action : Set := CallAcquire (n : Z) | CallRelease (n : Z) | Go | Pending | Timeout.

Definition is_asleep (p : pc) : bool := match p with Asleep _ => true | _ => false end.

Section Semantics.
Variable w : Z.
Variables smp evts : bool.

(** [tryAcquire] returned false, or true. *)
Definition failed (k : site) (n : Z) : pc :=
  match k with
  | First O => Load Loop n
  | First (S k') => Load (First k') n
  | Loop => WantLock n
  | Locked => Push n
  end.

Definition succeeded (k : site) (n : Z) : pc :=
  match k with First _ => Returned true | Loop => Removing n | Locked => Unlocking n end.

(** An action that needs [m_BeingModified] to be free. *)
Definition if_free (s : Semaphore) (r : Semaphore) : option Semaphore :=
  match m_BeingModified s with None => Some r | Some _ => None end.

(** [SetStatus(Ready)] of a thread [release] took from the queue. *)
Definition wake_up (t : tid) (s : Semaphore) : Semaphore :=
  match pc_of t s with Asleep n => goto t (Woken n false) s | _ => s end.

(** The next action of [t]; on one processor nothing happens outside the
    thread that holds the lock. *)
Definition may_run (t : tid) (s : Semaphore) : bool :=
  smp || match m_BeingModified s with None => true | Some h => same_tid h t end.

Definition act (t : tid) (a : action) (s : Semaphore) : option Semaphore :=
  match pc_of t s, a with
  | Outside, CallAcquire n => Some (goto t (Load (First (if smp then 9 else 0)) n) s)
  | Outside, CallRelease n => Some (goto t (Rel n) s)
  | Load k n, Go =>
      let value := m_Counter s in
      Some (goto t (if swrap w (value - n) <? 0 then failed k n else Cas k n value) s)
  | Cas k n v, Go =>
      if m_Counter s =? v then Some (goto t (succeeded k n) (with_counter (swrap w (v - n)) s))
      else Some (goto t (failed k n) s)
  | WantLock n, Go => if_free s (goto t (Load Locked n) (with_holder (Some t) s))
  | Push n, Go => Some (goto t (Enqueued n) (with_queue (m_Queue s ++ [t]) s))
  | Enqueued n, Go => Some (goto t (Asleep n) (with_holder None s))
  | Enqueued n, Pending => if evts then Some (goto t (Handling n) (with_holder None s)) else None
  | Handling n, Go => if_free s (goto t (Falling n) (with_holder (Some t) s))
  | Falling n, Go => Some (goto t (Asleep n) (with_holder None s))
  | Asleep n, Timeout => Some (goto t (Woken n true) s)
  | Woken n i, Go =>
      if_free s (goto t (if i then Returned false else Load Loop n) (with_queue (erase_first t (m_Queue s)) s))
  | Unlocking n, Go => Some (goto t (Removing n) (with_holder None s))
  | Removing n, Go => if_free s (goto t (Returned true) (with_queue (erase_first t (m_Queue s)) s))
  | Returned _, Go => Some (goto t Outside s)
  | Rel n, Go => Some (goto t RelCheck (with_counter (swrap w (m_Counter s + n)) s))
  | RelCheck, Go => Some (goto t (match m_Queue s with [] => Outside | _ => RelLock end) s)
  | RelLock, Go =>
      let sleeping := fun u => is_asleep (pc_of u s) in
      if_free s (goto t (RelWake (List.filter sleeping (m_Queue s)))
                   (with_queue (List.filter (fun u => negb (sleeping u)) (m_Queue s)) s))
  | RelWake [], Go => Some (goto t Outside s)
  | RelWake (u :: l), Go => Some (wake_up u (goto t (RelWake l) s))
  | _, _ => None
  end.

Definition step (t : tid) (a : action) (s : Semaphore) : option Semaphore :=
  if may_run t s then act t a s else None.

(** A schedule: who acts, and how. *)
Fixpoint run (tr : list (tid * action)) (s : Semaphore) : option Semaphore :=
  match tr with
  | [] => Some s
  | (t, a) :: tr' => match step t a s with Some s' => run tr' s' | None => None end
  end.

End Semantics.

(** ** Accounting *)

(** The request a thread is working on. *)
Definition amount (p : pc) : option Z :=
  match p with
  | Load _ n | Cas _ n _ | WantLock n | Push n | Enqueued n | Handling n | Falling n | Asleep n | Woken n _
  | Unlocking n | Removing n => Some n
  | _ => None
  end.

(** Items that a step of [t] from [s] to [s'] grants: those of a call that returns true. *)
Definition grants (t : tid) (s s' : Semaphore) : Z :=
  match amount (pc_of t s), pc_of t s' with Some n, Returned true => n | _, _ => 0 end.

(** Items of the calls whose [tryAcquire] has succeeded and that have yet to return. *)
Definition claimed (p : pc) : Z := match p with Unlocking n | Removing n => n | _ => 0 end.
Definition claims (m : gmap tid pc) : Z := map_fold (fun _ p acc => claimed p + acc) 0 m.
Definition in_flight (s : Semaphore) : Z := claims (pcs s).

(** Items an action returns to the counter. *)
Definition supplies (t : tid) (a : action) (s : Semaphore) : Z :=
  match pc_of t s, a with Rel n, Go => n | _, _ => 0 end.

(** Calls ask for, and return, at least one item. *)
Definition legal (w : Z) (a : action) : Prop :=
  match a with CallAcquire n => 0 < n < 2 ^ (w - 1) | CallRelease n => 0 < n | _ => True end.

(** The states of a semaphore that began with [c0] items, with the items that calls
    were granted and that were returned so far; the total stays within [ssize_t]. *)
Inductive reach (w : Z) (smp evts : bool) (c0 : Z) : Semaphore -> Z -> Z -> Prop :=
| reach_new : reach w smp evts c0 (new_semaphore c0) 0 0
| reach_step s g r t a s' :
    reach w smp evts c0 s g r -> legal w a -> step w smp evts t a s = Some s' ->
    c0 + (r + supplies t a s) < 2 ^ (w - 1) ->
    reach w smp evts c0 s' (g + grants t s s') (r + supplies t a s).

Lemma pc_of_goto t p s u : pc_of u (goto t p s) = if decide (u = t) then p else pc_of u s.
Proof.
  unfold pc_of, goto. simpl. destruct (decide (u = t)) as [->|Hne]; [by rewrite lookup_insert_eq|].
  by rewrite lookup_insert_ne.
Qed.

Lemma pc_of_wake u t s :
  pc_of u (wake_up t s) = match pc_of u s with
                          | Asleep n => if decide (u = t) then Woken n false else Asleep n
                          | p => p
                          end.
Proof.
  unfold wake_up. destruct (pc_of t s) eqn:Et; try (destruct (pc_of u s) eqn:Eu; try done; destruct (decide (u = t)); congruence).
  rewrite pc_of_goto. destruct (decide (u = t)) as [->|]; [by rewrite Et|]. by destruct (pc_of u s).
Qed.

Lemma wake_up_rest t s :
  m_Counter (wake_up t s) = m_Counter s /\ m_BeingModified (wake_up t s) = m_BeingModified s /\
  m_Queue (wake_up t s) = m_Queue s.
Proof. unfold wake_up. by destruct (pc_of t s). Qed.

(** Requests are positive, what is about to be returned is, and a value that
    passed the test covers its request. *)
Definition pc_ok (w : Z) (p : pc) : Prop :=
  (forall n, amount p = Some n -> 0 < n < 2 ^ (w - 1)) /\
  match p with Cas _ n v => 0 <= v - n /\ v < 2 ^ (w - 1) | Rel n => 0 < n | _ => True end.

Lemma swrap_in w z : 0 < w -> - 2 ^ (w - 1) <= z < 2 ^ (w - 1) -> swrap w z = z.
Proof.
  intros Hw Hz. assert (E : 2 ^ w = 2 * 2 ^ (w - 1)) by (rewrite <- Z.pow_succ_r by lia; f_equal; lia).
  unfold swrap, signed, wrap. rewrite E. destruct (Z.le_gt_cases 0 z).
  - rewrite Z.mod_small by lia. destruct (Z.ltb_spec z (2 ^ (w - 1))); lia.
  - replace (z mod (2 * 2 ^ (w - 1))) with (z + 2 * 2 ^ (w - 1)).
    + destruct (Z.ltb_spec (z + 2 * 2 ^ (w - 1)) (2 ^ (w - 1))); lia.
    + rewrite <- (Z_mod_plus_full z 1), Z.mod_small; lia.
Qed.

(** What a step takes from the counter. *)
Definition takes (t : tid) (a : action) (s : Semaphore) : Z :=
  match pc_of t s, a with Cas _ n v, Go => if m_Counter s =? v then n else 0 | _, _ => 0 end.

Lemma in_flight_goto t p s : in_flight (goto t p s) = in_flight s - claimed (pc_of t s) + claimed p.
Proof.
  assert (Hsum : claims (<[t := p]> (pcs s)) = claimed p + claims (base.delete t (pcs s))).
  { unfold claims. rewrite <- insert_delete_eq. apply (map_fold_insert_L (fun _ p acc => claimed p + acc)); [intros; lia|apply lookup_delete_eq]. }
  unfold in_flight, pc_of. cbn [goto pcs]. rewrite Hsum. destruct (pcs s !! t) as [q|] eqn:E; cbn [default].
  - unfold claims. rewrite (map_fold_delete_L (fun _ p acc => claimed p + acc) 0 t q (pcs s)) by (done || (intros; lia)). simpl. lia.
  - rewrite delete_id by done. simpl. lia.
Qed.

Lemma in_flight_same s s' : pcs s' = pcs s -> in_flight s' = in_flight s.
Proof. unfold in_flight. by intros ->. Qed.

Lemma in_flight_wake t s : in_flight (wake_up t s) = in_flight s.
Proof. unfold wake_up. destruct (pc_of t s) eqn:E; try done. rewrite in_flight_goto, E. simpl. lia. Qed.

(** What is taken is granted at once or in flight. *)
Lemma takes_grants w smp evts t a s s' : act w smp evts t a s = Some s' ->
  takes t a s = grants t s s' + in_flight s' - in_flight s.
Proof.
  intros Hact. unfold act, takes, grants in *.
  destruct (pc_of t s) as [|k n|k n v|n|n|n|n|n|n|n i|n|n|b|n| | |[|u l]] eqn:Ep, a; try done; simpl in *.
  all: unfold if_free in Hact; try (destruct (m_BeingModified s); [done|]).
  all: try (destruct evts; [|done]).
  all: try (destruct (m_Counter s =? v)).
  all: injection Hact as <-.
  all: rewrite ?in_flight_wake, in_flight_goto, ?(in_flight_same s), ?pc_of_wake, ?pc_of_goto, ?decide_True by done.
  all: try (change (pc_of t (with_counter _ s)) with (pc_of t s)).
  all: try (change (pc_of t (with_holder _ s)) with (pc_of t s)).
  all: try (change (pc_of t (with_queue _ s)) with (pc_of t s)).
  all: rewrite ?Ep; simpl.
  all: try lia.
  all: repeat match goal with
    | |- context [if ?c then _ else _] => destruct c; simpl
    | |- context [failed ?k _] => destruct k as [[|]| |]; simpl
    | |- context [succeeded ?k _] => destruct k; simpl
    | |- context [match ?q with [] => _ | _ => _ end] => destruct q; simpl
    end; lia.
Qed.

(** What holds of the claim of every thread and is kept by addition holds of the sum. *)
Lemma claims_ind (P : Z -> Prop) s : P 0 -> (forall x y, P x -> P y -> P (x + y)) ->
  (forall t, P (claimed (pc_of t s))) -> P (in_flight s).
Proof.
  intros H0 Hadd Hall. unfold in_flight, claims.
  assert (H : forall t p, pcs s !! t = Some p -> P (claimed p)) by (intros t p Ht; specialize (Hall t); unfold pc_of in Hall; by rewrite Ht in Hall).
  revert H. apply (map_fold_weak_ind (fun z m => (forall t p, m !! t = Some p -> P (claimed p)) -> P z)); [done|].
  intros i x m r Hi IH H. apply Hadd; [apply (H i); apply lookup_insert_eq|]. apply IH. intros t p Ht. apply (H t).
  rewrite lookup_insert_ne; [done|]. intros ->. congruence.
Qed.

Lemma in_flight_nonneg w s : (forall u, pc_ok w (pc_of u s)) -> 0 <= in_flight s.
Proof.
  intros H. apply claims_ind; [lia|lia|]. intros t. destruct (H t) as [Ha _].
  destruct (pc_of t s); simpl in *; try lia; specialize (Ha n eq_refl); lia.
Qed.

Lemma in_flight_zero s : (forall t, claimed (pc_of t s) = 0) -> in_flight s = 0.
Proof. intros H. apply claims_ind; [done|lia|done]. Qed.

(** Steps that neither touch the counter nor a request keep the bookkeeping. *)
Lemma step_amounts w smp evts t a s s' :
  0 < w -> 0 <= m_Counter s < 2 ^ (w - 1) -> (forall u, pc_ok w (pc_of u s)) -> legal w a ->
  m_Counter s + supplies t a s < 2 ^ (w - 1) ->
  act w smp evts t a s = Some s' ->
  (forall u, pc_ok w (pc_of u s')) /\
  m_Counter s' = m_Counter s + supplies t a s - takes t a s /\ 0 <= m_Counter s'.
Proof.
  intros Hw Hc Hpc Hl Hs Hact. pose proof (Hpc t) as [Ham Hok]. unfold act, supplies, takes in *.
  assert (Hgo : forall p s0, pcs s0 = pcs s -> pc_ok w p -> forall u, pc_ok w (pc_of u (goto t p s0))).
  { intros p s0 E Hp u. rewrite pc_of_goto. destruct (decide (u = t)); [done|]. unfold pc_of. rewrite E. apply Hpc. }
  assert (Hfail : forall k n, 0 < n < 2 ^ (w - 1) -> pc_ok w (failed k n)).
  { intros k n Hn. destruct k as [[|k']| |]; (split; [by intros ? [= <-]|done]). }
  destruct (pc_of t s) as [|k n|k n v|n|n|n|n|n|n|n i|n|n|b|n| | |[|u l]] eqn:Ep, a; try done; simpl in *.
  all: try specialize (Ham n eq_refl).
  all: unfold if_free in Hact; try (destruct (m_BeingModified s); [done|]).
  all: try (destruct evts; [|done]).
  all: try (injection Hact as <-).
  all: try (split; [apply Hgo; [done|]; try (split; [by intros ? [= <-]|done]); try (split; [done|done])|simpl; lia]).
  - (* Load *) rewrite swrap_in by lia. destruct (Z.ltb_spec (m_Counter s - n) 0); [by apply Hfail|].
    split; [by intros ? [= <-]|lia].
  - (* Cas *) destruct Hok as [H1 H2]. destruct (Z.eqb_spec (m_Counter s) v) as [Ev|]; injection Hact as <-.
    + split; [apply Hgo; [done|]|].
      * destruct k; (split; [by intros ? [= <-]|done]).
      * simpl. rewrite swrap_in by lia. lia.
    + split; [apply Hgo; [done|by apply Hfail]|simpl; lia].
  - (* Woken *) destruct i; (split; [by intros ? [= <-]|done]).
  - (* Rel *) split; [apply Hgo; done|]. simpl. rewrite swrap_in by lia. lia.
  - (* RelCheck *) by destruct (m_Queue s).
  - (* waking *) destruct (wake_up_rest u (goto t (RelWake l) s)) as (-> & _). split; [|simpl; lia].
    intros v. rewrite pc_of_wake, pc_of_goto. destruct (decide (v = t)); [done|].
    specialize (Hpc v). destruct (pc_of v s); try done. destruct (decide (v = u)); [|done].
    split; [|done]. intros m [= <-]. by apply Hpc.
Qed.

(** What holds of the counter in every reachable state. *)
Record Counted (w c0 : Z) (s : Semaphore) (g r : Z) : Prop := mkCounted {
  ct_eq : m_Counter s = c0 + r - g - in_flight s;
  ct_range : 0 <= m_Counter s < 2 ^ (w - 1);
  ct_granted : 0 <= g;
  ct_pcs : forall u, pc_ok w (pc_of u s)
}.

Lemma step_act w smp evts t a s s' :
  step w smp evts t a s = Some s' -> may_run smp t s = true /\ act w smp evts t a s = Some s'.
Proof. unfold step. by destruct (may_run smp t s). Qed.

Lemma supplies_nonneg w t a s : pc_ok w (pc_of t s) -> 0 <= supplies t a s.
Proof. intros [_ H]. unfold supplies. destruct (pc_of t s), a; lia. Qed.

Lemma grants_nonneg w t s s' : pc_ok w (pc_of t s) -> 0 <= grants t s s'.
Proof.
  intros [H _]. unfold grants. destruct (amount (pc_of t s)) as [n|]; [|lia]. specialize (H n eq_refl).
  destruct (pc_of t s') as [| | | | | | | | | | | |[]| | | |]; lia.
Qed.

Lemma reach_counted w smp evts c0 s g r :
  0 < w -> 0 <= c0 < 2 ^ (w - 1) -> reach w smp evts c0 s g r -> Counted w c0 s g r.
Proof.
  intros Hw H0. induction 1 as [|s g r t a s' _ [E Hr Hg Hp] Hl Hst Hb].
  - split; [change (in_flight (new_semaphore c0)) with 0; simpl; lia|simpl; lia|lia|]. intros u. unfold pc_of. simpl. rewrite lookup_empty. by split.
  - destruct (step_act _ _ _ _ _ _ _ Hst) as [_ Hact]. pose proof (supplies_nonneg w t a s (Hp t)).
    pose proof (grants_nonneg w t s s' (Hp t)). pose proof (in_flight_nonneg w s Hp).
    destruct (step_amounts w smp evts t a s s') as (Hp' & E' & Hn'); [done..|lia|done|].
    pose proof (in_flight_nonneg w s' Hp'). rewrite (takes_grants _ _ _ _ _ _ _ Hact) in E'.
    split; [lia|lia|lia|done].
Qed.

(** ** One processor *)

Definition holds (p : pc) : bool :=
  match p with Load Locked _ | Cas Locked _ _ | Push _ | Enqueued _ | Falling _ | Unlocking _ => true | _ => false end.

(** A release in progress that has still to wake [t], or has it on its list. *)
Definition carries (p : pc) (t : tid) : Prop := match p with RelWake l => t ∈ l | _ => False end.
Definition will_wake (p : pc) (t : tid) : Prop :=
  match p with RelCheck | RelLock => True | _ => carries p t end.

Record UpInv (s : Semaphore) : Prop := mkUpInv {
  up_holds : forall t, holds (pc_of t s) = true -> m_BeingModified s = Some t;
  up_holder : forall t, m_BeingModified s = Some t -> holds (pc_of t s) = true;
  up_cas : forall t n v, pc_of t s = Cas Locked n v -> m_Counter s = v;
  up_push : forall t n, pc_of t s = Push n \/ pc_of t s = Enqueued n -> m_Counter s < n;
  up_enqueued : forall t n, pc_of t s = Enqueued n -> t ∈ m_Queue s;
  up_events : forall t n, pc_of t s <> Handling n /\ pc_of t s <> Falling n;
  up_queued : forall t n, pc_of t s = Asleep n -> t ∈ m_Queue s \/ exists u, carries (pc_of u s) t;
  up_asleep : forall t n, pc_of t s = Asleep n -> m_Counter s < n \/ exists u, will_wake (pc_of u s) t
}.

(** The thread that acts goes to [p]; the counter, the holder and the queue may
    change. *)
Lemma up_goto s t p c h q :
  UpInv s -> may_run false t s = true ->
  (h = if holds p then Some t else None) ->
  (forall n v, p = Cas Locked n v -> c = v) ->
  (forall n, p = Push n \/ p = Enqueued n -> c < n) ->
  (forall n, p = Enqueued n -> t ∈ q) ->
  (forall n, p <> Handling n /\ p <> Falling n) ->
  (forall n, p = Asleep n -> t ∈ q /\ c < n) ->
  (forall u n, u <> t -> pc_of u s = Asleep n -> u ∈ m_Queue s \/ carries (pc_of t s) u -> u ∈ q \/ carries p u) ->
  (forall u n, u <> t -> pc_of u s = Asleep n -> m_Counter s < n \/ will_wake (pc_of t s) u ->
     c < n \/ will_wake p u \/ exists u0, u0 <> t /\ will_wake (pc_of u0 s) u) ->
  UpInv (mkSemaphore c h q (<[t := p]> (pcs s))).
Proof.
  intros [H1 H2 H3 H4 H5 H6 H7 H8] Hrun Hh Hcas Hpush Henq Hev Has Hq Hc.
  assert (Hpc : forall u, pc_of u (mkSemaphore c h q (<[t := p]> (pcs s))) = if decide (u = t) then p else pc_of u s)
    by (intros u; exact (pc_of_goto t p (mkSemaphore c h q (pcs s)) u)).
  assert (Hoth : forall u, u <> t -> holds (pc_of u s) = false).
  { intros u Hne. destruct (holds (pc_of u s)) eqn:E; [|done]. apply H1 in E. unfold may_run in Hrun. rewrite E in Hrun.
    by rewrite same_tid_ne in Hrun. }
  split; simpl.
  - intros u. rewrite Hpc. destruct (decide (u = t)) as [->|Hne]; intros Hp; [by rewrite Hp in Hh|]. by rewrite Hoth in Hp.
  - intros u. rewrite Hpc. destruct (holds p) eqn:Ep; subst h; [intros [= <-]|done]. by rewrite decide_True.
  - intros u n v. rewrite Hpc. destruct (decide (u = t)); [apply Hcas|]. intros E. pose proof (Hoth u ltac:(done)) as Hh'. by rewrite E in Hh'.
  - intros u n. rewrite Hpc. destruct (decide (u = t)); [apply Hpush|]. intros E. pose proof (Hoth u ltac:(done)) as Hh'. by destruct E as [E|E]; rewrite E in Hh'.
  - intros u n. rewrite Hpc. destruct (decide (u = t)) as [->|]; [apply Henq|]. intros E. pose proof (Hoth u ltac:(done)) as Hh'. by rewrite E in Hh'.
  - intros u n. rewrite Hpc. destruct (decide (u = t)); [apply Hev|apply H6].
  - intros u n. rewrite Hpc. destruct (decide (u = t)) as [->|Hne]; [intros E; left; by apply (Has n)|]. intros E.
    destruct (H7 u n E) as [Hin|[u0 Hu0]].
    + destruct (Hq u n Hne E (or_introl Hin)) as [?|?]; [by left|right]. exists t. by rewrite Hpc, decide_True.
    + destruct (decide (u0 = t)) as [->|Hd].
      * destruct (Hq u n Hne E (or_intror Hu0)) as [?|?]; [by left|right]. exists t. by rewrite Hpc, decide_True.
      * right. exists u0. by rewrite Hpc, decide_False.
  - intros u n. rewrite Hpc. destruct (decide (u = t)) as [->|Hne]; [intros E; left; by apply (Has n)|]. intros E.
    assert (Hcase : c < n \/ will_wake p u \/ exists u0, u0 <> t /\ will_wake (pc_of u0 s) u).
    { destruct (H8 u n E) as [Hin|[u0 Hu0]]; [by apply (Hc u n Hne E); left|].
      destruct (decide (u0 = t)) as [->|Hd]; [by apply (Hc u n Hne E); right|right; right; eauto]. }
    destruct Hcase as [?|[?|(u0 & Hd & Hu0)]]; [by left|right; exists t; by rewrite Hpc, decide_True|].
    right. exists u0. by rewrite Hpc, decide_False.
Qed.

Lemma erase_other t u q : u <> t -> u ∈ q -> u ∈ erase_first t q.
Proof.
  intros Hne. induction q as [|v q IH]; [done|]. simpl. intros Hin. apply elem_of_cons in Hin as [->|Hin].
  - rewrite same_tid_ne by done. by left.
  - destruct (same_tid v t); [done|]. right. by apply IH.
Qed.

Lemma up_none s t :
  UpInv s -> may_run false t s = true -> holds (pc_of t s) = false -> m_BeingModified s = None.
Proof.
  intros H Hrun Hh. unfold may_run in Hrun. destruct (m_BeingModified s) as [h|] eqn:E; [|done].
  unfold same_tid in Hrun. apply bool_decide_eq_true in Hrun as ->.
  rewrite (up_holder s H t E) in Hh. done.
Qed.

(** The thread that acts is not a release in progress. *)
Lemma not_waker p u : (forall v, ~ will_wake p v) -> ~ will_wake p u /\ ~ carries p u.
Proof. intros H. split; [apply H|]. intros Hc. apply (H u). by destruct p. Qed.

Ltac quiet :=
  match goal with
  | Ep : pc_of ?t ?s = _ |- forall u n, u <> ?t -> _ =>
      intros ?u ?n ?Hne _; rewrite Ep; simpl; intuition (auto using erase_other || lia)
  end.

(** Apply [up_goto] and discharge what the program points alone decide. *)
Ltac up :=
  unfold goto, with_counter, with_holder, with_queue; simpl;
  match goal with Ep : pc_of ?t ?s = _ |- _ => apply (up_goto s t) end;
  [done|done|simpl; auto|try (by intros ? ? [=])|try (by intros ? [[=]|[=]])|try (by intros ? [=])
  |try done|try (by intros ? [=])|try quiet|try quiet].

(** A release takes the next thread from its list and wakes it. *)
Lemma up_wake s t u l :
  UpInv s -> may_run false t s = true -> pc_of t s = RelWake (u :: l) -> m_BeingModified s = None ->
  UpInv (wake_up u (goto t (RelWake l) s)).
Proof.
  intros H Hrun Ep Hn.
  assert (Hdone : forall s1, UpInv s1 -> may_run false t s1 = true -> pc_of t s1 = RelWake (u :: l) -> m_BeingModified s1 = None ->
            is_asleep (pc_of u s1) = false -> UpInv (goto t (RelWake l) s1)).
  { clear. intros s1 H Hrun Ep Hn Hu.
    assert (Hl : forall v n, pc_of v s1 = Asleep n -> v ∈ u :: l -> v ∈ l).
    { intros v n Ev Hin. apply elem_of_cons in Hin as [->|?]; [by rewrite Ev in Hu|done]. }
    up; intros v n Hne Ev; rewrite Ep; simpl; intros [?|Hin]; eauto. }
  unfold wake_up. rewrite pc_of_goto. destruct (decide (u = t)) as [->|Hne]; [apply Hdone; try done; by rewrite Ep|].
  destruct (pc_of u s) eqn:Eu; try (apply Hdone; try done; by rewrite Eu).
  replace (goto u (Woken n false) (goto t (RelWake l) s)) with (goto t (RelWake l) (goto u (Woken n false) s))
    by (unfold goto; simpl; by rewrite insert_insert_ne).
  assert (Hrun' : may_run false u s = true) by (unfold may_run; by rewrite Hn).
  apply Hdone.
  - clear Ep Hdone. up.
  - unfold may_run. simpl. by rewrite Hn.
  - rewrite pc_of_goto, decide_False by done. done.
  - done.
  - rewrite pc_of_goto, decide_True by done. done.
Qed.

Lemma up_step w t a s s' :
  0 < w -> 0 <= m_Counter s < 2 ^ (w - 1) -> (forall u, pc_ok w (pc_of u s)) ->
  m_Counter s + supplies t a s < 2 ^ (w - 1) ->
  UpInv s -> step w false false t a s = Some s' -> UpInv s'.
Proof.
  intros Hw Hc Hpc Hs H Hst. apply step_act in Hst as [Hrun Hact]. pose proof (Hpc t) as [Ham Hok].
  assert (Hnone : holds (pc_of t s) = false -> m_BeingModified s = None) by (by apply up_none).
  assert (Hself : holds (pc_of t s) = true -> m_BeingModified s = Some t) by apply (up_holds s H).
  assert (Hev : forall n, pc_of t s <> Handling n /\ pc_of t s <> Falling n) by apply (up_events s H).
  unfold act, supplies in *.
  destruct (pc_of t s) as [|k n|k n v|n|n|n|n|n|n|n i|n|n|b|n| | |[|u l]] eqn:Ep, a; try done; simpl in *.
  all: try specialize (Ham n eq_refl).
  all: unfold if_free in Hact; rewrite ?Hnone in Hact by done.
  all: try (injection Hact as <-).
  all: try (by destruct (Hev n)).
  - up.
  - up.
  - rewrite swrap_in by lia. destruct (Z.ltb_spec (m_Counter s - n) 0).
    + destruct k as [[|k]| |]; simpl in *; up. intros n0 [[= <-]|[=]]. lia.
    + destruct k as [k| |]; simpl in *; up.
  - destruct (Z.eqb_spec (m_Counter s) v) as [Ev|Hne]; injection Hact as <-.
    + destruct Hok as [Hok1 Hok2]. rewrite swrap_in by lia. destruct k as [k| |]; simpl in *; up.
    + destruct k as [[|k]| |]; simpl in *; [up..|]. by rewrite (up_cas s H t n v) in Hne.
  - up.
  - assert (Hlt : m_Counter s < n) by (apply (up_push s H t); by left). up.
    + by intros n0 [[=]|[= <-]].
    + intros n0 _. apply elem_of_app. right. by left.
    + intros v n0 Hne _ [Hin|Hin]; [left; apply elem_of_app; by left|by rewrite Ep in Hin].
  - assert (Hlt : m_Counter s < n) by (apply (up_push s H t); by right).
    pose proof (up_enqueued s H t n Ep). up. by intros n0 [= <-].
  - up.
  - destruct i; up.
  - up.
  - up.
  - up.
  - rewrite swrap_in by lia. up.
  - destruct (m_Queue s) as [|v q] eqn:Eq.
    + up. intros v n Hne Ev [?|_]; [by left|]. destruct (up_queued s H v n Ev) as [Hin|[u0 Hu0]]; [rewrite Eq in Hin; set_solver|].
      right. right. exists u0. split; [intros ->; by rewrite Ep in Hu0|]. by destruct (pc_of u0 s).
    + up.
  - assert (Hin : forall u n, pc_of u s = Asleep n -> u ∈ m_Queue s ->
              u ∈ List.filter (fun u => is_asleep (pc_of u s)) (m_Queue s)).
    { intros u n Eu Hin. apply list_elem_of_In, filter_In. rewrite Eu. split; [by apply list_elem_of_In|done]. }
    up.
    + intros u n Hne Eu [?|Hc']; [right; by eapply Hin|by rewrite Ep in Hc'].
    + intros u n Hne Eu [?|_]; [by left|]. destruct (up_queued s H u n Eu) as [Hq|[u0 Hu0]]; [right; left; by eapply Hin|].
      right. right. exists u0. split; [intros ->; by rewrite Ep in Hu0|]. by destruct (pc_of u0 s).
  - up; intros u n Hne Eu; rewrite Ep; simpl; intros [?|Hin]; [by left|set_solver|by left|set_solver].
  - apply up_wake; [done|done|done|by apply Hnone].
Qed.

(** ** Correctness *)

(** C4. A semaphore never gives out more than it has: in every state that any
    interleaving of any threads reaches, on one processor or several, the
    counter is the initial value plus what was returned minus what the calls of [acquire]
    that returned true asked for, and minus what the calls asked for whose [tryAcquire]
    has succeeded and that are about to return true; it is not negative.  So what
    the successful calls got was there: initially, or returned since. *)
Theorem semaphore_conserves w smp evts c0 s g r :
  0 < w -> 0 <= c0 < 2 ^ (w - 1) -> reach w smp evts c0 s g r ->
  m_Counter s = c0 + r - g - in_flight s /\ 0 <= m_Counter s /\ 0 <= in_flight s /\ 0 <= g <= c0 + r /\
  ((forall t, claimed (pc_of t s) = 0) -> m_Counter s = c0 + r - g).
Proof.
  intros Hw H0 Hr. destruct (reach_counted w smp evts c0 s g r Hw H0 Hr) as [E Hc Hg Hp].
  pose proof (in_flight_nonneg w s Hp). split_and!; try lia. intros Hq. rewrite E, (in_flight_zero s Hq). lia.
Qed.

Lemma reach_up w c0 s g r :
  0 < w -> 0 <= c0 < 2 ^ (w - 1) -> reach w false false c0 s g r -> UpInv s.
Proof.
  intros Hw H0 Hr. induction Hr as [|s g r t a s' Hr IH Hl Hst Hb].
  - assert (E : forall t, pc_of t (new_semaphore c0) = Outside) by (intros t; unfold pc_of; simpl; by rewrite lookup_empty).
    split; try (intros t n; rewrite E); try (intros t n v; rewrite E); try (intros t; rewrite E); try done.
    by intros [?|?].
  - destruct (reach_counted w false false c0 s g r Hw H0 Hr) as [E Hc Hg Hp].
    pose proof (in_flight_nonneg w s Hp). eapply up_step; [exact Hw|exact Hc|exact Hp| |exact IH|exact Hst]. lia.
Qed.

(** A thread inside a call that is not asleep can go on, unless it waits for
    the lock; the holder of the lock always can. *)
Lemma go_enabled w s t :
  UpInv s -> may_run false t s = true -> (exists u, will_wake (pc_of t s) u) \/ holds (pc_of t s) = true ->
  (m_BeingModified s = None \/ holds (pc_of t s) = true) ->
  exists s', step w false false t Go s = Some s'.
Proof.
  intros H Hrun Hp Hl. unfold step. rewrite Hrun. unfold act, if_free.
  destruct (pc_of t s) as [|k n|k n v|n|n|n|n|n|n|n i|n|n|b|n| | |[|u l]] eqn:Ep; try (by destruct Hp as [[? []]|[=]]); eauto.
  - destruct (_ =? _); eauto.
  - destruct Hl as [->|[=]]. eauto.
Qed.

(** C5. No lost wake-up on one processor, while no events are delivered: when a
    thread sleeps although the counter covers its request, a release in
    progress has yet to wake it; that release can go on unless a thread holds
    the lock, and then that thread can.  In particular, once no release is in
    progress every sleeper asks for more than there is. *)
Theorem semaphore_no_lost_wakeup w c0 s g r t n :
  0 < w -> 0 <= c0 < 2 ^ (w - 1) -> reach w false false c0 s g r ->
  pc_of t s = Asleep n -> n <= m_Counter s ->
  exists u, will_wake (pc_of u s) t /\
    exists v s', (v = u \/ m_BeingModified s = Some v) /\ step w false false v Go s = Some s'.
Proof.
  intros Hw H0 Hr Ht Hn. pose proof (reach_up w c0 s g r Hw H0 Hr) as H.
  destruct (up_asleep s H t n Ht) as [?|[u Hu]]; [lia|]. exists u. split; [done|].
  destruct (m_BeingModified s) as [h|] eqn:Eh.
  - destruct (go_enabled w s h H) as [s' Hs'].
    + unfold may_run. rewrite Eh. apply same_tid_refl.
    + right. by apply (up_holder s H).
    + right. by apply (up_holder s H).
    + exists h, s'. split; [by right|done].
  - destruct (go_enabled w s u H) as [s' Hs'].
    + unfold may_run. by rewrite Eh.
    + left. eauto.
    + by left.
    + exists u, s'. split; [by left|done].
Qed.

(** ** Witnesses *)

Local Open Scope positive_scope.

Fixpoint goes (t : tid) (n : nat) : list (tid * action) :=
  match n with O => [] | S n' => (t, Go) :: goes t n' end.

(** Executing a schedule gives reachable states. *)
Fixpoint tally (w : Z) (smp evts : bool) (tr : list (tid * action)) (s : Semaphore) (g r : Z) :
    option (Semaphore * Z * Z) :=
  match tr with
  | [] => Some (s, g, r)
  | (t, a) :: tr' =>
      match step w smp evts t a s with
      | Some s' => tally w smp evts tr' s' (g + grants t s s') (r + supplies t a s)
      | None => None
      end
  end%Z.

Definition legalb (w : Z) (a : action) : bool :=
  match a with CallAcquire n => (0 <? n) && (n <? 2 ^ (w - 1)) | CallRelease n => 0 <? n | _ => true end%Z.

Fixpoint within (w : Z) (smp evts : bool) (c0 : Z) (tr : list (tid * action)) (s : Semaphore) (r : Z) : bool :=
  match tr with
  | [] => true
  | (t, a) :: tr' =>
      legalb w a && (c0 + (r + supplies t a s) <? 2 ^ (w - 1)) &&
      match step w smp evts t a s with
      | Some s' => within w smp evts c0 tr' s' (r + supplies t a s)
      | None => true
      end
  end%Z.

Lemma tally_reach w smp evts c0 tr : forall s g r s' g' r',
  reach w smp evts c0 s g r -> within w smp evts c0 tr s r = true ->
  tally w smp evts tr s g r = Some (s', g', r') -> reach w smp evts c0 s' g' r'.
Proof.
  induction tr as [|[t a] tr IH]; intros s g r s' g' r' Hr Hw; simpl; [by intros [= <- <- <-]|].
  simpl in Hw. destruct (step w smp evts t a s) as [s1|] eqn:E; [|done].
  apply andb_true_iff in Hw as [Hl Hw]. apply andb_true_iff in Hl as [Hl Hb].
  apply IH; [|done]. eapply reach_step; [done| |done|by apply Z.ltb_lt].
  destruct a; try done; simpl in *; lia.
Qed.

(** Thread 1 sleeps for two items; thread 2 returns two and has taken the queue. *)
Definition waking_run : list (tid * action) :=
  (1, CallAcquire 2%Z) :: goes 1 6 ++ (2, CallRelease 2%Z) :: goes 2 3.

Definition waking : Semaphore := mkSemaphore 2 None [] (<[2 := RelWake [1]]> (<[1 := Asleep 2]> ∅)).

Lemma waking_reached : reach 32 false false 0 waking 0 2.
Proof.
  apply (tally_reach 32 false false 0 waking_run (new_semaphore 0) 0 0); [constructor|by vm_compute|by vm_compute].
Qed.

Lemma semaphore_conserves_witness : m_Counter waking = (0 + 2 - 0 - in_flight waking)%Z /\ (0 <= 0 <= 0 + 2)%Z.
Proof.
  destruct (semaphore_conserves 32 false false 0 waking 0 2) as (H1 & _ & _ & H2 & _); [lia|by vm_compute|exact waking_reached|].
  split; [exact H1|exact H2].
Defined.

Lemma semaphore_no_lost_wakeup_witness :
  exists u, will_wake (pc_of u waking) 1 /\
    exists v s', (v = u \/ m_BeingModified waking = Some v) /\ step 32 false false v Go waking = Some s'.
Proof.
  apply (semaphore_no_lost_wakeup 32 0 waking 0 2 1 2); [lia|by vm_compute|exact waking_reached|by vm_compute|by vm_compute].
Defined.

(** ** Lost wake-ups *)

Definition asleep_with (t : tid) (r : option Semaphore) : option (pc * Z * list tid * pc) :=
  match r with Some s => Some (pc_of t s, m_Counter s, m_Queue s, pc_of 2 s) | None => None end.

(** Two processors: [release] adds to the counter and reads the length of the
    queue between the last [tryAcquire] of thread 1 and its [pushBack]. *)
Example smp_lost_wakeup :
  asleep_with 1 (run 32 true false
    ((1, CallAcquire 1%Z) :: goes 1 13 ++ (2, CallRelease 1%Z) :: goes 2 2 ++ goes 1 2) (new_semaphore 0))
  = Some (Asleep 1, 1%Z, [1], Outside).
Proof. by vm_compute. Qed.

(** Two processors: [tryAcquire] reports failure when its compare-and-swap
    loses to another acquisition, although an item is left; thread 1 sleeps
    with the counter at 1. *)
Example smp_cas_lost :
  asleep_with 1 (run 32 true false
    ((1, CallAcquire 1%Z) :: goes 1 12 ++ (2, CallRelease 2%Z) :: goes 2 2 ++ goes 1 1 ++
     (2, CallAcquire 1%Z) :: goes 2 3 ++ goes 1 3) (new_semaphore 0))
  = Some (Asleep 1, 1%Z, [1], Outside).
Proof. by vm_compute. Qed.

(** One processor: when an event is pending [sleep] drops the lock after thread
    1 has queued itself, handles the event, and goes to sleep without looking
    at the counter again; a release in between finds thread 1 awake. *)
Example event_lost_wakeup :
  asleep_with 1 (run 32 false true
    ((1, CallAcquire 1%Z) :: goes 1 5 ++ (1, Pending) :: (2, CallRelease 1%Z) :: goes 2 4 ++ goes 1 2) (new_semaphore 0))
  = Some (Asleep 1, 1%Z, [1], Outside).
Proof. by vm_compute. Qed.
