(* ===== verification/Hoare.v ===== *)
(** * Postconditions of computations with faults

    [hoare F m Q s]: run in [s], [m] ends in a result and a state that satisfy [Q],
    or faults and [F] holds; [F] is [False] where a fault is to be excluded and
    [True] where only what happens without one matters. *)
From Stdlib Require Import ZArith Lia List Bool.
From stdpp Require Import base tactics.
From S2P Require Import Prelude.
Local Open Scope err_scope.

Section Hoare.
Context {S : Type} (F : Prop).

Definition hoare {A} (m : StateE S A) (Q : A -> S -> Prop) (s : S) : Prop :=
  match m s with Some (a, s') => Q a s' | None => F end.

Lemma hoare_ret {A} (a : A) (Q : A -> S -> Prop) s : Q a s -> hoare (eret a) Q s.
Proof. done. Qed.

Lemma hoare_bind {A B} (m : StateE S A) (k : A -> StateE S B) Q s :
  hoare m (fun a s' => hoare (k a) Q s') s -> hoare (ebind m k) Q s.
Proof. unfold hoare, ebind. by destruct (m s) as [[]|]. Qed.

Lemma hoare_gets {A} (f : S -> A) (Q : A -> S -> Prop) s : Q (f s) s -> hoare (egets f) Q s.
Proof. done. Qed.

Lemma hoare_modify f (Q : unit -> S -> Prop) s : Q tt (f s) -> hoare (emodify f) Q s.
Proof. done. Qed.

Lemma hoare_fail {A} (Q : A -> S -> Prop) s : F -> hoare efail Q s.
Proof. done. Qed.

Lemma hoare_lift {A} (o : option A) (Q : A -> S -> Prop) s :
  match o with Some a => Q a s | None => F end -> hoare (elift o) Q s.
Proof. unfold hoare, elift. by destruct o. Qed.

Lemma hoare_if {A} (b : bool) (m1 m2 : StateE S A) Q s :
  (b = true -> hoare m1 Q s) -> (b = false -> hoare m2 Q s) -> hoare (if b then m1 else m2) Q s.
Proof. destruct b; auto. Qed.

Lemma hoare_when b m (Q : unit -> S -> Prop) s :
  (b = true -> hoare m Q s) -> (b = false -> Q tt s) -> hoare (ewhen b m) Q s.
Proof. destruct b; unfold ewhen; [auto|]. intros _ H. by apply hoare_ret, H. Qed.

Lemma hoare_mono {A} (m : StateE S A) (Q Q' : A -> S -> Prop) s :
  hoare m Q s -> (forall a s', Q a s' -> Q' a s') -> hoare m Q' s.
Proof. unfold hoare. destruct (m s) as [[]|]; auto. Qed.

Lemma hoare_and {A} (m : StateE S A) (Q Q' : A -> S -> Prop) s :
  hoare m Q s -> hoare m Q' s -> hoare m (fun a s' => Q a s' /\ Q' a s') s.
Proof. unfold hoare. destruct (m s) as [[]|]; auto. Qed.

(** ** Computations that keep an invariant *)

Definition keeps {A} (I : S -> Prop) (m : StateE S A) : Prop := forall s, I s -> hoare m (fun _ s' => I s') s.

Lemma keeps_ret {A} I (a : A) : keeps I (eret a).
Proof. by intros s. Qed.

Lemma keeps_gets {A} I (f : S -> A) : keeps I (egets f).
Proof. by intros s. Qed.

Lemma keeps_fail {A} I : F -> keeps I (efail : StateE S A).
Proof. by intros HF s _. Qed.

Lemma keeps_modify (I : S -> Prop) f : (forall s, I s -> I (f s)) -> keeps I (emodify f).
Proof. intros H s Hs. by apply hoare_modify, H. Qed.

Lemma keeps_bind {A B} I (m : StateE S A) (k : A -> StateE S B) :
  keeps I m -> (forall a, keeps I (k a)) -> keeps I (ebind m k).
Proof. intros Hm Hk s Hs. eapply hoare_bind, hoare_mono; [by apply Hm|]. intros a s' Hs'. by apply Hk. Qed.

Lemma keeps_if {A} I (b : bool) (m1 m2 : StateE S A) : keeps I m1 -> keeps I m2 -> keeps I (if b then m1 else m2).
Proof. by destruct b. Qed.

Lemma keeps_when I b m : keeps I m -> keeps I (ewhen b m).
Proof. destruct b; unfold ewhen; [auto|]. intros _. apply keeps_ret. Qed.

Lemma keeps_hoare {A} (I : S -> Prop) (m : StateE S A) Q s :
  keeps I m -> I s -> (forall a s', I s' -> Q a s') -> hoare m Q s.
Proof. intros Hk Hs HQ. eapply hoare_mono; [by apply Hk|]. intros a s' Hs'. by apply HQ. Qed.
End Hoare.

(** What a total postcondition says of the computation. *)
Lemma hoare_total {S A} (m : StateE S A) Q s : hoare False m Q s <-> exists a s', m s = Some (a, s') /\ Q a s'.
Proof.
  unfold hoare. destruct (m s) as [[a s']|]; split; try done; [by eauto|by intros (? & ? & [= <- <-] & ?)|].
  by intros (? & ? & ? & _).
Qed.

Lemma hoare_partial {S A} (m : StateE S A) Q s a s' : hoare True m Q s -> m s = Some (a, s') -> Q a s'.
Proof. unfold hoare. intros H E. by rewrite E in H. Qed.

Lemma hoare_and_partial {S A} F (m : StateE S A) (Q Q' : A -> S -> Prop) s :
  hoare F m Q s -> hoare True m Q' s -> hoare F m (fun a s' => Q a s' /\ Q' a s') s.
Proof. unfold hoare. by destruct (m s) as [[]|]. Qed.

(** Case analysis on the decisions of a computation. *)
Ltac hoare_step :=
  lazymatch goal with
  | |- hoare _ (ebind _ _) _ _ => apply hoare_bind
  | |- hoare _ (eret _) _ _ => apply hoare_ret
  | |- hoare _ (egets _) _ _ => apply hoare_gets
  | |- hoare _ (emodify _) _ _ => apply hoare_modify
  | |- hoare _ (elift _) _ _ => apply hoare_lift
  | |- hoare _ (ewhen _ _) _ _ => apply hoare_when; intros ?
  | |- hoare _ (if ?b then _ else _) _ _ => first [apply hoare_if; intros ? | destruct b eqn:?]
  | |- hoare _ (let '(_, _) := ?p in _) _ _ => destruct p
  | |- hoare _ (match ?x with _ => _ end) _ _ => destruct x eqn:?
  end.

Ltac keeps_step :=
  lazymatch goal with
  | |- keeps _ _ (ebind _ _) => apply keeps_bind; [|intros ?]
  | |- keeps _ _ (eret _) => apply keeps_ret
  | |- keeps _ _ (egets _) => apply keeps_gets
  | |- keeps _ _ (ewhen _ _) => apply keeps_when
  | |- keeps _ _ (if ?b then _ else _) => first [apply keeps_if | destruct b]
  | |- keeps _ _ (let '(_, _) := ?p in _) => destruct p
  | |- keeps _ _ (match ?x with _ => _ end) => destruct x
  end.

Create HintDb keeps.
#[export] Hint Resolve keeps_ret keeps_gets : keeps.

Ltac keeps := repeat first [solve [eauto with keeps nocore] | keeps_step].
