(* ===== verification/Counting.v ===== *)
(** * Counting semaphores as their clients see them

    What a [Semaphore] promises to the ring buffer, the unlikely lock and the
    memory pool: a counter, from which [acquire] and [tryAcquire] take when it
    covers the request and to which [release] gives ([Semaphore.semaphore_conserves]).
    With it, the bookkeeping of threads that hold items. *)
From Stdlib Require Import ZArith Lia List Bool.
From stdpp Require Import base list.
Import ListNotations.
Local Open Scope nat_scope.

Class CountingSemaphore (S : Type) := {
  sem_new : nat -> S;
  sem_value : S -> nat;
  sem_take : nat -> S -> option S;
  sem_give : nat -> S -> S;
  sem_new_value n : sem_value (sem_new n) = n;
  sem_take_value n s s' : sem_take n s = Some s' -> sem_value s = n + sem_value s';
  sem_take_covered n s : n <= sem_value s -> is_Some (sem_take n s);
  sem_give_value n s : sem_value (sem_give n s) = sem_value s + n
}.

(** The plain counter. *)
#[export] Instance nat_semaphore : CountingSemaphore nat.
Proof.
  refine {| sem_new := fun n => n; sem_value := fun s => s; sem_give := fun n s => s + n;
            sem_take := fun n s => if n <=? s then Some (s - n) else None |}; intros.
  - done.
  - destruct (Nat.leb_spec n s); [|done]. injection H as <-. lia.
  - destruct (Nat.leb_spec n s); [eauto|lia].
  - done.
Defined.

(** ** What the threads hold, all together *)

Definition total {A} (f : A -> nat) (l : list A) : nat := sum_list_with f l.

Lemma total_insert {A} (f : A -> nat) l i p q : l !! i = Some p -> total f (<[i := q]> l) + f p = total f l + f q.
Proof.
  unfold total. revert i. induction l as [|r l IH]; intros [|i] Hi; try done; simpl in *.
  - injection Hi as ->. lia.
  - specialize (IH i Hi). lia.
Qed.

(** One of them holds no more than all. *)
Lemma total_lookup {A} (f : A -> nat) l i p : l !! i = Some p -> f p <= total f l.
Proof.
  unfold total. revert i. induction l as [|r l IH]; intros [|i] Hi; try done; simpl in *.
  - injection Hi as ->. lia.
  - specialize (IH i Hi). lia.
Qed.

Lemma total_lookup2 {A} (f : A -> nat) l i j p q :
  l !! i = Some p -> l !! j = Some q -> i <> j -> f p + f q <= total f l.
Proof.
  unfold total. revert i j. induction l as [|r l IH]; intros [|i] [|j] Hi Hj Hij; try done; simpl in *.
  - injection Hi as ->. pose proof (total_lookup f l j q Hj). unfold total in *. lia.
  - injection Hj as ->. pose proof (total_lookup f l i p Hi). unfold total in *. lia.
  - specialize (IH i j Hi Hj ltac:(lia)). lia.
Qed.

Lemma total_zero {A} (f : A -> nat) l : Forall (fun p => f p = 0) l -> total f l = 0.
Proof. induction 1 as [|p l E _ IH]; unfold total in *; simpl; [done|]. lia. Qed.
