(* ===== verification/HashTable.v ===== *)
(** * Hash tables

    [src/system/include/utilities/HashTable.h]: buckets are an array that the first
    insertion creates, chains are lists of keys and values.  Values are pointers
    that are not null.  A fault is an access outside the array of buckets or the
    second deletion of a bucket. *)
From Stdlib Require Import ZArith Lia List Bool.
From stdpp Require Import base list.
From S2P Require Import Prelude.
Import ListNotations.
Local Open Scope Z_scope.

(** What a key must offer. *)
Class Hashable (K : Type) := { hash : K -> Z; key_eq : K -> K -> bool }.

Section HashTable.
Context {K V : Type} `{Hashable K}.

Record HashTable := mkHashTable { m_Buckets : option (list (list (K * V))); m_MaxBucket : Z }.

Definition new_table (numbuckets : Z) : HashTable := mkHashTable None numbuckets.

Definition initialise (numbuckets : Z) (t : HashTable) : HashTable :=
  match m_Buckets t with Some _ => t | None => mkHashTable None numbuckets end.

(** The walk along a chain. *)
Fixpoint chain_lookup (b : list (K * V)) (k : K) : option V :=
  match b with
  | [] => None
  | (k', v) :: b' => if negb (key_eq k' k) then chain_lookup b' k else Some v
  end.

(** [m_Buckets[hash]]. *)
Definition bucket (bs : list (list (K * V))) (h : Z) : option (list (K * V)) := bs !! Z.to_nat h.

Definition lookup (t : HashTable) (k : K) : option (option V) :=
  match m_Buckets t with
  | None => Some None
  | Some bs =>
      if m_MaxBucket t <? hash k then Some None
      else b ← bucket bs (hash k); Some (chain_lookup b k)
  end.

Definition insert (t : HashTable) (k : K) (v : V) : option HashTable :=
  r ← lookup t k;
  match r with
  | Some _ => Some t
  | None =>
      match m_Buckets t, m_MaxBucket t with
      | None, 0 => Some t
      | _, _ =>
          let bs := match m_Buckets t with Some bs => bs | None => replicate (Z.to_nat (m_MaxBucket t)) [] end in
          if m_MaxBucket t <? hash k then Some (mkHashTable (Some bs) (m_MaxBucket t))
          else
            b ← bucket bs (hash k);
            Some (mkHashTable (Some (<[Z.to_nat (hash k) := b ++ [(k, v)]]> bs)) (m_MaxBucket t))
      end
  end.

(** The bucket that is found behind the first one is deleted twice. *)
Definition remove (t : HashTable) (k : K) : option HashTable :=
  r ← lookup t k;
  match r, m_Buckets t with
  | None, _ | _, None => Some t
  | Some _, Some bs =>
      if m_MaxBucket t <? hash k then Some t
      else
        b ← bucket bs (hash k);
        match b with
        | (k', _) :: b' =>
            if key_eq k' k then Some (mkHashTable (Some (<[Z.to_nat (hash k) := b']> bs)) (m_MaxBucket t))
            else None
        | [] => None
        end
  end.

(** A value is a pointer to a record: the record that a key points to becomes [v]. *)
Fixpoint chain_set (b : list (K * V)) (k : K) (v : V) : list (K * V) :=
  match b with
  | [] => []
  | (k', v') :: b' => if key_eq k' k then (k', v) :: b' else (k', v') :: chain_set b' k v
  end.

Definition set_value (t : HashTable) (k : K) (v : V) : HashTable :=
  match m_Buckets t with
  | Some bs => mkHashTable (Some (alter (fun b => chain_set b k v) (Z.to_nat (hash k)) bs)) (m_MaxBucket t)
  | None => t
  end.

(** ** What a table holds *)

(** The keys are in the buckets of their hashes, each once. *)
Record table_ok (t : HashTable) : Prop := {
  ok_max : 0 <= m_MaxBucket t;
  ok_length bs : m_Buckets t = Some bs -> length bs = Z.to_nat (m_MaxBucket t);
  ok_bucket bs i b : m_Buckets t = Some bs -> bs !! i = Some b -> Forall (fun kv => hash (fst kv) = Z.of_nat i) b;
  ok_once bs i b : m_Buckets t = Some bs -> bs !! i = Some b -> NoDup (map fst b)
}.

Definition contents (t : HashTable) (k : K) : option V :=
  bs ← m_Buckets t; b ← bs !! Z.to_nat (hash k); chain_lookup b k.

(** A key the table has a bucket for. *)
Definition fits (t : HashTable) (k : K) : Prop := hash k < m_MaxBucket t.

Section Laws.
Context (key_eq_spec : forall k k', reflect (k = k') (key_eq k k')).

Lemma table_bucket t bs k : 0 <= hash k -> table_ok t -> m_Buckets t = Some bs -> fits t k ->
  exists b, bucket bs (hash k) = Some b /\ bs !! Z.to_nat (hash k) = Some b /\ contents t k = chain_lookup b k.
Proof using.
  intros Hg Ht Hb Hk. pose proof (ok_length t Ht bs Hb). unfold fits in Hk.
  destruct (lookup_lt_is_Some_2 bs (Z.to_nat (hash k))) as [b Hl]; [lia|].
  exists b. split; [exact Hl|]. split; [exact Hl|]. unfold contents. by rewrite Hb; cbn; rewrite Hl.
Qed.

Lemma contents_outside t k : 0 <= hash k -> table_ok t -> ~ fits t k -> contents t k = None.
Proof using.
  intros Hg Ht Hk. unfold contents. destruct (m_Buckets t) as [bs|] eqn:Hb; [|done]. cbn.
  pose proof (ok_length t Ht bs Hb). unfold fits in Hk. by rewrite lookup_ge_None_2 by lia.
Qed.

Lemma table_lookup_run t k : 0 <= hash k -> table_ok t -> hash k <> m_MaxBucket t -> lookup t k = Some (contents t k).
Proof using.
  intros Hg Ht Hk. unfold lookup. destruct (m_Buckets t) as [bs|] eqn:Hb; [|unfold contents; by rewrite Hb].
  destruct (Z.ltb_spec (m_MaxBucket t) (hash k)); [rewrite contents_outside; [done..|unfold fits; lia]|].
  destruct (table_bucket t bs k Hg Ht Hb) as (b & H1 & _ & H2); [unfold fits; lia|]. rewrite H1; cbn. by rewrite H2.
Qed.

Lemma chain_lookup_None b k : chain_lookup b k = None -> ~ In k (map fst b).
Proof using key_eq_spec.
  induction b as [|[k' v] b IH]; cbn; [by intros _ []|]. destruct (key_eq_spec k' k) as [->|]; cbn; [done|].
  intros Hn [?|?]; [done|]. by apply IH.
Qed.

Lemma chain_lookup_app b k k' v : chain_lookup b k = None ->
  chain_lookup (b ++ [(k, v)]) k' = if key_eq k k' then Some v else chain_lookup b k'.
Proof using key_eq_spec.
  induction b as [|[k1 v1] b IH]; cbn; [by destruct (key_eq k k')|].
  destruct (key_eq_spec k1 k) as [->|Hne]; cbn; [done|]. intros Hn.
  destruct (key_eq_spec k1 k') as [->|]; cbn; [|by apply IH]. by destruct (key_eq_spec k k') as [->|].
Qed.

(** A table with one bucket changed. *)
Lemma table_change t bs i b b' : table_ok t -> m_Buckets t = Some bs -> bs !! i = Some b ->
  Forall (fun kv => hash (fst kv) = Z.of_nat i) b' -> NoDup (map fst b') ->
  let t' := mkHashTable (Some (<[i := b']> bs)) (m_MaxBucket t) in
  table_ok t' /\ forall k, contents t' k = if decide (Z.to_nat (hash k) = i) then chain_lookup b' k else contents t k.
Proof.
  intros Ht Hb Hi Hh Hn t'. split.
  - split; [apply Ht|..]; cbn; intros bs'.
    + intros [= <-]. rewrite length_insert. by apply (ok_length t Ht).
    + intros j b1 [= <-] Hj. apply list_lookup_insert_Some in Hj as [(<- & <- & _)|[_ Hj]]; [done|by apply (ok_bucket t Ht bs)].
    + intros j b1 [= <-] Hj. apply list_lookup_insert_Some in Hj as [(<- & <- & _)|[_ Hj]]; [done|by apply (ok_once t Ht bs j)].
  - intros k. unfold contents. cbn. rewrite Hb; cbn. destruct (decide _) as [<-|].
    + rewrite list_lookup_insert_eq; [done|]. by eapply lookup_lt_Some.
    + by rewrite list_lookup_insert_ne.
Qed.

Lemma table_created n : 0 <= n -> table_ok (mkHashTable (Some (replicate (Z.to_nat n) [])) n).
Proof.
  intros Hn. split; cbn; [done|..]; intros bs.
  - intros [= <-]. by rewrite length_replicate.
  - intros i b [= <-] [-> _]%lookup_replicate. constructor.
  - intros i b [= <-] [-> _]%lookup_replicate. constructor.
Qed.

Lemma table_ok_new n : 0 <= n -> table_ok (new_table n) /\ forall k, contents (new_table n) k = None.
Proof. done. Qed.

(** The insertion of a key that is in the table already changes nothing. *)
Lemma insert_known t k v w : 0 <= hash k -> table_ok t -> hash k <> m_MaxBucket t -> contents t k = Some w -> insert t k v = Some t.
Proof using. intros Hg Ht Hk Hw. unfold insert. rewrite table_lookup_run by done. cbn. by rewrite Hw. Qed.

(** The table insertion works on, once it has buckets. *)
Lemma insert_buckets t k v : 0 <= hash k -> table_ok t -> hash k <> m_MaxBucket t -> 0 < m_MaxBucket t -> contents t k = None ->
  exists bs, let t1 := mkHashTable (Some bs) (m_MaxBucket t) in
    table_ok t1 /\ (forall k', contents t1 k' = contents t k') /\
    insert t k v = if m_MaxBucket t <? hash k then Some t1
      else b ← bucket bs (hash k);
           Some (mkHashTable (Some (<[Z.to_nat (hash k) := b ++ [(k, v)]]> bs)) (m_MaxBucket t)).
Proof using.
  intros Hg Ht Hk Hm Hc.
  exists (match m_Buckets t with Some bs => bs | None => replicate (Z.to_nat (m_MaxBucket t)) [] end). cbn zeta.
  assert (insert t k v = let bs := match m_Buckets t with Some bs => bs | None => replicate (Z.to_nat (m_MaxBucket t)) [] end in
    if m_MaxBucket t <? hash k then Some (mkHashTable (Some bs) (m_MaxBucket t))
    else b ← bucket bs (hash k); Some (mkHashTable (Some (<[Z.to_nat (hash k) := b ++ [(k, v)]]> bs)) (m_MaxBucket t))) as ->.
  { unfold insert. rewrite table_lookup_run by done. cbn. rewrite Hc.
    destruct (m_Buckets t); [done|]. by destruct (m_MaxBucket t); [lia|..]. }
  destruct t as [[bs|] n]; cbn in *; (split; [|split; [|done]]); [done|done|by apply table_created; lia|].
  intros k'. unfold contents. cbn. destruct (replicate _ _ !! _) eqn:He; [|done].
  apply lookup_replicate in He as [-> _]. done.
Qed.

Lemma insert_fits t k v : 0 <= hash k -> table_ok t -> fits t k -> contents t k = None ->
  exists t', insert t k v = Some t' /\ table_ok t' /\ m_MaxBucket t' = m_MaxBucket t /\
    forall k', contents t' k' = if key_eq k k' then Some v else contents t k'.
Proof using key_eq_spec.
  unfold fits. intros Hg Ht Hk Hc.
  destruct (insert_buckets t k v Hg Ht) as (bs & H1 & H2 & ->); [lia..|done|]. rewrite (proj2 (Z.ltb_ge _ _)) by lia.
  destruct (table_bucket _ bs k Hg H1 eq_refl Hk) as (b & -> & Hl & Hb). cbn.
  assert (chain_lookup b k = None) as Hn by by rewrite <- Hb, H2.
  destruct (table_change _ bs (Z.to_nat (hash k)) b (b ++ [(k, v)]) H1 eq_refl Hl) as [Ho Hi].
  - apply Forall_app; split; [by apply (ok_bucket _ H1 bs)|]. constructor; [cbn; lia|done].
  - rewrite map_app. apply NoDup_app. split; [by apply (ok_once _ H1 bs (Z.to_nat (hash k)))|].
    split; [|by apply NoDup_singleton]. intros x Hx Hx'%list_elem_of_singleton. subst x.
    apply (chain_lookup_None b k Hn). by apply list_elem_of_In.
  - eexists; split; [done|]. split; [exact Ho|]. split; [done|]. intros k'. rewrite Hi, <- H2.
    destruct (decide _) as [He|Hne].
    + rewrite chain_lookup_app by done. destruct (key_eq_spec k k'); [done|].
      unfold contents. cbn. by rewrite He, Hl.
    + by destruct (key_eq_spec k k') as [->|].
Qed.

(** A hash past the end of the array is ignored. *)
Lemma insert_outside t k v : 0 <= hash k -> table_ok t -> m_MaxBucket t < hash k ->
  exists t', insert t k v = Some t' /\ table_ok t' /\ m_MaxBucket t' = m_MaxBucket t /\
    forall k', contents t' k' = contents t k'.
Proof using.
  intros Hg Ht Hk. pose proof (ok_max t Ht). assert (contents t k = None) as Hc by (apply contents_outside; [done..|unfold fits; lia]).
  destruct (decide (m_MaxBucket t = 0)) as [Hz|].
  - exists t. split; [|done]. unfold insert. rewrite table_lookup_run by (done || lia). cbn. rewrite Hc.
    destruct t as [[bs|] n]; simpl in *; subst; [|done]. by destruct (Z.ltb_spec 0 (hash k)); [|lia].
  - destruct (insert_buckets t k v Hg Ht) as (bs & H1 & H2 & ->); [lia..|done|].
    rewrite (proj2 (Z.ltb_lt _ _)) by lia. eexists; split; [done|]. done.
Qed.

(** A record that is written to. *)
Lemma chain_set_keys b k v : map fst (chain_set b k v) = map fst b.
Proof. induction b as [|[k' v'] b IH]; cbn; [done|]. destruct (key_eq k' k); cbn; by rewrite ?IH. Qed.

Lemma chain_set_lookup b k v k' : is_Some (chain_lookup b k) ->
  chain_lookup (chain_set b k v) k' = if key_eq k k' then Some v else chain_lookup b k'.
Proof using key_eq_spec.
  induction b as [|[k1 v1] b IH]; cbn; [by intros []|]. destruct (key_eq_spec k1 k) as [->|]; cbn.
  - intros _. by destruct (key_eq_spec k k').
  - intros Hs. rewrite IH by done. destruct (key_eq_spec k1 k') as [->|]; cbn; [|done]. by destruct (key_eq_spec k k') as [->|].
Qed.

Lemma set_value_ok t k v : 0 <= hash k -> table_ok t -> is_Some (contents t k) ->
  table_ok (set_value t k v) /\ m_MaxBucket (set_value t k v) = m_MaxBucket t /\
  forall k', contents (set_value t k v) k' = if key_eq k k' then Some v else contents t k'.
Proof using key_eq_spec.
  intros Hg Ht Hs. unfold contents in Hs at 1. unfold set_value. destruct (m_Buckets t) as [bs|] eqn:Hm; cbn in Hs; [|by destruct Hs].
  destruct (bs !! Z.to_nat (hash k)) as [b|] eqn:Hb; cbn in Hs; [|by destruct Hs].
  assert (alter (fun b => chain_set b k v) (Z.to_nat (hash k)) bs = <[Z.to_nat (hash k) := chain_set b k v]> bs) as ->.
  { apply list_eq. intros i. destruct (decide (i = Z.to_nat (hash k))) as [->|Hne].
    - rewrite list_lookup_alter_eq, Hb, list_lookup_insert_eq; [done|]. by eapply lookup_lt_Some.
    - by rewrite list_lookup_alter_ne, list_lookup_insert_ne. }
  destruct (table_change t bs _ b (chain_set b k v) Ht Hm Hb) as [Ho Hc].
  - pose proof (ok_bucket t Ht bs _ b Hm Hb) as Hf. apply (proj1 (Forall_map fst (fun k => hash k = _) _)).
    rewrite chain_set_keys. by apply Forall_map.
  - rewrite chain_set_keys. by apply (ok_once t Ht bs (Z.to_nat (hash k))).
  - split; [exact Ho|]. split; [done|]. intros k'. rewrite Hc. destruct (decide _) as [He|Hne].
    + rewrite chain_set_lookup by done. destruct (key_eq_spec k k'); [done|]. unfold contents. rewrite Hm; cbn. by rewrite He, Hb.
    + by destruct (key_eq_spec k k') as [<-|].
Qed.

(** A key that is the first of its chain, or not in the table. *)
Definition leading (t : HashTable) (k : K) : Prop :=
  contents t k = None \/ exists v b, (bs ← m_Buckets t; bs !! Z.to_nat (hash k)) = Some ((k, v) :: b).

Lemma remove_unknown t k : 0 <= hash k -> table_ok t -> hash k <> m_MaxBucket t -> contents t k = None -> remove t k = Some t.
Proof using. intros Hg Ht Hk Hc. unfold remove. rewrite table_lookup_run by done. cbn. by rewrite Hc. Qed.

Lemma remove_leading t k : 0 <= hash k -> table_ok t -> hash k <> m_MaxBucket t -> leading t k ->
  exists t', remove t k = Some t' /\ table_ok t' /\ m_MaxBucket t' = m_MaxBucket t /\
    forall k', contents t' k' = if key_eq k k' then None else contents t k'.
Proof using key_eq_spec.
  intros Hg Ht Hk [Hc|(v & b & Hb)].
  { exists t. split; [by apply remove_unknown|]. split; [done|]. split; [done|]. intros k'. by destruct (key_eq_spec k k') as [<-|]. }
  destruct (m_Buckets t) as [bs|] eqn:Hm; cbn in Hb; [|done].
  pose proof (ok_length t Ht bs Hm). pose proof (lookup_lt_Some _ _ _ Hb) as Hlt.
  assert (contents t k = Some v) as Hc.
  { unfold contents. rewrite Hm; cbn; rewrite Hb; cbn. by destruct (key_eq_spec k k). }
  pose proof (ok_bucket t Ht bs _ _ Hm Hb) as Hh. pose proof (ok_once t Ht bs _ _ Hm Hb) as Ho.
  apply Forall_cons_1 in Hh as [_ Hh]. cbn in Ho. apply NoDup_cons in Ho as [Hn Ho].
  destruct (table_change t bs _ _ b Ht Hm Hb Hh Ho) as [Ho' Hi].
  eexists; split; [|split; [exact Ho'|split; [done|]]].
  - unfold remove. rewrite table_lookup_run by done. cbn. rewrite Hc, Hm. rewrite (proj2 (Z.ltb_ge _ _)) by lia.
    unfold bucket. rewrite Hb. cbn. by destruct (key_eq_spec k k).
  - intros k'. rewrite Hi. destruct (decide _) as [He|Hne].
    + unfold contents at 1. rewrite Hm; cbn; rewrite He, Hb; cbn. destruct (key_eq_spec k k') as [<-|]; [|done].
      destruct (chain_lookup b k) eqn:Hl; [|done]. destruct Hn. apply list_elem_of_In. revert Hl. clear -key_eq_spec.
      induction b as [|[k1 v1] b IH]; cbn; [done|]. destruct (key_eq_spec k1 k) as [->|]; cbn; [by left|right; by apply IH].
    + by destruct (key_eq_spec k k') as [<-|].
Qed.

Lemma leading_dec t k : {leading t k} + {~ leading t k}.
Proof using key_eq_spec.
  unfold leading. destruct (contents t k) as [v|]; [|by left; left].
  destruct (bs ← m_Buckets t; bs !! Z.to_nat (hash k)) as [[|[k1 v1] b]|].
  - right. intros [?|(? & ? & ?)]; done.
  - destruct (key_eq_spec k1 k) as [->|]; [by left; right; eauto|]. right. intros [?|(? & ? & ?)]; congruence.
  - right. intros [?|(? & ? & ?)]; done.
Qed.

(** A key behind another one of its bucket cannot be removed. *)
Lemma remove_behind t k v : 0 <= hash k -> table_ok t -> hash k <> m_MaxBucket t -> contents t k = Some v -> ~ leading t k -> remove t k = None.
Proof using key_eq_spec.
  intros Hg Ht Hk Hc Hl. unfold remove. rewrite table_lookup_run by done. cbn. rewrite Hc.
  destruct (m_Buckets t) as [bs|] eqn:Hm; [|by unfold contents in Hc; rewrite Hm in Hc].
  destruct (Z.ltb_spec (m_MaxBucket t) (hash k)).
  { rewrite contents_outside in Hc; [done..|unfold fits; lia]. }
  unfold contents in Hc. rewrite Hm in Hc; cbn in Hc. unfold bucket.
  destruct (bs !! _) as [[|[k1 v1] b]|] eqn:Hb; cbn in *; try done.
  destruct (key_eq_spec k1 k) as [->|]; [|done]. destruct Hl. right. exists v1, b. by rewrite Hm.
Qed.
End Laws.
End HashTable.

Arguments HashTable : clear implicits.

(** ** A table is a partial map *)

(** C21. With a hash other than the number of buckets, [lookup] gives what the table holds, or
    nothing; [insert] adds a key with a bucket that is new, and leaves the table's content as
    it is for a key that is known or has no bucket; [remove] takes a key that is first in its
    bucket, or not known, out of the table, and frees a bucket twice for any other. *)
Theorem table_refines_map {K V} `{Hashable K} (key_eq_spec : forall k k' : K, reflect (k = k') (key_eq k k')) (t : HashTable K V) k v :
  0 <= hash k -> table_ok t -> hash k <> m_MaxBucket t ->
  lookup t k = Some (contents t k) /\
  (exists t', insert t k v = Some t' /\ table_ok t' /\ m_MaxBucket t' = m_MaxBucket t /\
    forall k', contents t' k' =
      if key_eq k k' && (hash k <? m_MaxBucket t) then Some (default v (contents t k)) else contents t k') /\
  match remove t k with
  | None => is_Some (contents t k) /\ ~ leading t k
  | Some t' => leading t k /\ table_ok t' /\ m_MaxBucket t' = m_MaxBucket t /\
     forall k', contents t' k' = if key_eq k k' then None else contents t k'
  end.
Proof.
  intros Hg Ht Hk. split; [by apply table_lookup_run|]. split.
  - destruct (Z.ltb_spec (hash k) (m_MaxBucket t)) as [Hl|Hl].
    + destruct (contents t k) as [w|] eqn:Hc.
      * exists t. rewrite (insert_known t k v w) by done. repeat split; try apply Ht. intros k'.
        by destruct (key_eq_spec k k') as [<-|].
      * destruct (insert_fits key_eq_spec t k v) as (t' & ? & ? & ? & Hi); [done..|].
        exists t'. split_and!; [done..|]. intros k'. rewrite Hi. cbn. by destruct (key_eq k k').
    + destruct (insert_outside t k v) as (t' & ? & ? & ? & Hi); [done..|lia|].
      exists t'. split_and!; [done..|]. intros k'. by rewrite andb_false_r.
  - destruct (leading_dec key_eq_spec t k) as [Hl|Hl].
    + destruct (remove_leading key_eq_spec t k) as (t' & -> & ? & ? & ?); done.
    + destruct (contents t k) as [w|] eqn:Hc; [|by destruct Hl; left].
      by rewrite (remove_behind key_eq_spec t k w).
Qed.

(** ** Runs *)

(** Numbers as keys, with their remainder by 4 as hash. *)
#[local] Instance by_remainder : Hashable Z := { hash k := k mod 4; key_eq := Z.eqb }.

Definition table_runs : option (HashTable Z nat) :=
  t ← insert (new_table 4) 1 10%nat; t ← insert t 5 50%nat; t ← insert t 2 20%nat; remove t 2.

Lemma table_refines_map_witness :
  exists t, table_runs = Some t /\ table_ok t /\ lookup t 5 = Some (Some 50%nat) /\ remove t 5 = None /\
    exists t', insert t 3 30%nat = Some t' /\ contents t' 3 = Some 30%nat.
Proof.
  exists (mkHashTable (Some [[]; [(1, 10%nat); (5, 50%nat)]; []; []]) 4). split; [reflexivity|].
  match goal with |- table_ok ?t /\ _ => assert (table_ok t) as Ht end.
  { split; cbn; [lia|by intros ? [= <-]|..].
    - intros bs i b [= <-] Hi. destruct i as [|[|[|[|]]]]; cbn in Hi; simplify_eq; repeat constructor.
    - intros bs i b [= <-] Hi. destruct i as [|[|[|[|]]]]; cbn in Hi; simplify_eq;
        apply (bool_decide_unpack _); vm_compute; exact I. }
  split; [exact Ht|]. split; [reflexivity|]. split; [reflexivity|].
  match type of Ht with table_ok ?t =>
    destruct (@table_refines_map _ nat by_remainder Z.eqb_spec t 3 30%nat) as (_ & (t' & Hi & _ & _ & Hc) & _);
      [vm_compute; discriminate|exact Ht|vm_compute; discriminate|]
  end.
  exists t'. split; [exact Hi|]. rewrite Hc. reflexivity.
Defined.

(** A hash equal to the number of buckets passes the test, and is one past the array. *)
Example hash_one_past : insert (mkHashTable (Some [[]; []; []]) 3) 7 70%nat = None.
Proof. reflexivity. Qed.

(** The second key of a bucket cannot be removed. *)
Example removed_twice : (t ← insert (new_table 4) 1 10%nat; t ← insert t 5 50%nat; remove t 5) = None.
Proof. reflexivity. Qed.
