(* ===== verification/PageFlags.v ===== *)
(** * Page flags of the x64 processor

    [VirtualAddressSpace.h] names what may be asked of a page; the entries of the tables
    ([x64/VirtualAddressSpace.cc]) have bits of their own.  [toFlags] and [fromFlags]
    convert; [PML4_INDEX] and the other macros cut an address into indices. *)
From Stdlib Require Import ZArith Lia List Bool.
From stdpp Require Import base tactics.
From S2P Require Import Prelude.
Local Open Scope Z_scope.

(** ** Flags of the interface *)
Definition KernelMode : Z := 0x01.
Definition Write : Z := 0x02.
Definition Execute : Z := 0x04.
Definition WriteThrough : Z := 0x08.
Definition CacheDisable : Z := 0x10.
Definition CopyOnWrite : Z := 0x20.
Definition Swapped : Z := 0x40.
Definition Shared : Z := 0x200.
Definition WriteCombine : Z := 0x400.
Definition Accessed : Z := 0x800.
Definition Dirty : Z := 0x1000.
Definition ClearDirty : Z := 0x2000.

(** ** Flags of the entries *)
Definition PAGE_PRESENT : Z := 0x01.
Definition PAGE_WRITE : Z := 0x02.
Definition PAGE_USER : Z := 0x04.
Definition PAGE_WRITE_COMBINE : Z := 0x08.
Definition PAGE_CACHE_DISABLE : Z := 0x10.
Definition PAGE_ACCESSED : Z := 0x20.
Definition PAGE_DIRTY : Z := 0x40.
Definition PAGE_2MB : Z := 0x80.
Definition PAGE_PAT : Z := 0x80.
Definition PAGE_GLOBAL : Z := 0x100.
Definition PAGE_SWAPPED : Z := 0x200.
Definition PAGE_COPY_ON_WRITE : Z := 0x400.
Definition PAGE_SHARED : Z := 0x800.
Definition PAGE_NX : Z := 0x8000000000000000.
Definition PAGE_WRITE_THROUGH : Z := Z.lor PAGE_PAT PAGE_WRITE_COMBINE.

(** [(x & f) == f]. *)
Definition has (x f : Z) : bool := Z.land x f =? f.

(** ** Indices and parts of entries *)
Definition PML4_INDEX (x : Z) : Z := Z.land (Z.shiftr x 39) 0x1FF.
Definition PAGE_DIRECTORY_POINTER_INDEX (x : Z) : Z := Z.land (Z.shiftr x 30) 0x1FF.
Definition PAGE_DIRECTORY_INDEX (x : Z) : Z := Z.land (Z.shiftr x 21) 0x1FF.
Definition PAGE_TABLE_INDEX (x : Z) : Z := Z.land (Z.shiftr x 12) 0x1FF.

Definition FLAG_MASK : Z := 0x8000000000000FFF.
Definition PAGE_GET_FLAGS (x : Z) : Z := Z.land x FLAG_MASK.
(** The new value of an entry. *)
Definition PAGE_SET_FLAGS (x f : Z) : Z := Z.lor (Z.ldiff x FLAG_MASK) f.
Definition PAGE_GET_PHYSICAL_ADDRESS (x : Z) : Z := Z.ldiff x FLAG_MASK.

(** ** Conversion *)

(** [if (c) F |= f;]. *)
Definition add_if (c : bool) (f F : Z) : Z := if c then Z.lor F f else F.

Definition toFlags (flags : Z) (bFinal : bool) : Z :=
  let F := if has flags KernelMode then PAGE_GLOBAL else PAGE_USER in
  let F := add_if (has flags Write) PAGE_WRITE F in
  let F := add_if (has flags WriteCombine) PAGE_WRITE_COMBINE F in
  let F := add_if (has flags CacheDisable) PAGE_CACHE_DISABLE F in
  let F := add_if (negb (has flags Execute)) PAGE_NX F in
  let F := Z.lor F (if has flags Swapped then PAGE_SWAPPED else PAGE_PRESENT) in
  let F := add_if (has flags CopyOnWrite) PAGE_COPY_ON_WRITE F in
  let F := add_if (has flags Shared) PAGE_SHARED F in
  if bFinal then
    let F := add_if (has flags WriteThrough) PAGE_WRITE_THROUGH F in
    let F := add_if (has flags Accessed) PAGE_ACCESSED F in
    let F := add_if (has flags Dirty) PAGE_DIRTY F in
    if has flags ClearDirty then Z.ldiff F PAGE_DIRTY else F
  else F.

Definition fromFlags (F : Z) (bFinal : bool) : Z :=
  let flags := add_if (negb (has F PAGE_USER)) KernelMode 0 in
  let flags := add_if (has F PAGE_WRITE) Write flags in
  let flags := add_if (has F PAGE_WRITE_COMBINE) WriteCombine flags in
  let flags := add_if (has F PAGE_CACHE_DISABLE) CacheDisable flags in
  let flags := add_if (negb (has F PAGE_NX)) Execute flags in
  let flags := add_if (has F PAGE_SWAPPED) Swapped flags in
  let flags := add_if (has F PAGE_COPY_ON_WRITE) CopyOnWrite flags in
  let flags := add_if (has F PAGE_SHARED) Shared flags in
  if bFinal then
    let flags := add_if (has F PAGE_WRITE_THROUGH) WriteThrough flags in
    let flags := add_if (has F PAGE_ACCESSED) Accessed flags in
    add_if (has F PAGE_DIRTY) Dirty flags
  else flags.

(** ** What the conversion keeps *)

(** The flags as an entry can hold them: write-through implies write-combine, to clear
    the dirty flag is to do without it, and the flags of other processors are dropped. *)
Definition held (flags : Z) : Z :=
  let flags := Z.land flags 0x3E7F in
  let flags := add_if (has flags WriteThrough) WriteCombine flags in
  if has flags ClearDirty then Z.ldiff flags (Z.lor ClearDirty Dirty) else flags.

(** The flags of an entry that [toFlags] can give. *)
Definition entry_flags (F : Z) : bool :=
  (PAGE_GET_FLAGS F =? F) && negb (Bool.eqb (has F PAGE_PRESENT) (has F PAGE_SWAPPED)) &&
  negb (Bool.eqb (has F PAGE_GLOBAL) (has F PAGE_USER)) && implb (has F PAGE_PAT) (has F PAGE_WRITE_COMBINE).

Lemma testbit_add_if c f F i : Z.testbit (add_if c f F) i = Z.testbit F i || (c && Z.testbit f i).
Proof. unfold add_if. destruct c; [by rewrite Z.lor_spec|by rewrite orb_false_r]. Qed.

Lemma testbit_choice (c : bool) f g i : Z.testbit (if c then f else g) i = (c && Z.testbit f i) || (negb c && Z.testbit g i).
Proof. by destruct c, (Z.testbit f i), (Z.testbit g i). Qed.

Lemma has_bit x f k : 0 <= k -> f = 2 ^ k -> has x f = Z.testbit x k.
Proof.
  intros Hk ->. unfold has. destruct (Z.testbit x k) eqn:E.
  - apply Z.eqb_eq, Z.bits_inj'. intros i Hi. rewrite Z.land_spec, Z.pow2_bits_eqb by lia.
    destruct (Z.eqb_spec k i) as [<-|]; [by rewrite E|by rewrite andb_false_r].
  - apply Z.eqb_neq. intros H. apply (f_equal (fun z => Z.testbit z k)) in H.
    rewrite Z.land_spec, E, Z.pow2_bits_true in H by lia. done.
Qed.

(** The single bits. *)
Ltac one_bit :=
  repeat match goal with
  | |- context [has ?x ?f] => let k := eval vm_compute in (Z.log2 f) in rewrite (has_bit x f k) by (lia || reflexivity)
  end.

Lemma has_write_through x : has x PAGE_WRITE_THROUGH = Z.testbit x 7 && Z.testbit x 3.
Proof.
  unfold has. destruct (Z.testbit x 7 && Z.testbit x 3) eqn:E.
  - apply andb_prop in E as [E7 E3]. apply Z.eqb_eq, Z.bits_inj'. intros i Hi. rewrite Z.land_spec.
    change PAGE_WRITE_THROUGH with (Z.lor (2 ^ 7) (2 ^ 3)). rewrite Z.lor_spec, !Z.pow2_bits_eqb by lia.
    destruct (Z.eqb_spec 7 i) as [<-|]; [by rewrite E7|]. destruct (Z.eqb_spec 3 i) as [<-|]; [by rewrite E3|by rewrite andb_false_r].
  - apply Z.eqb_neq. intros H. assert (forall k, Z.testbit PAGE_WRITE_THROUGH k = true -> Z.testbit x k = true) as Hk.
    { intros k Hk. rewrite <- H, Z.land_spec in Hk. now destruct (Z.testbit x k). }
    by rewrite (Hk 7 eq_refl), (Hk 3 eq_refl) in E.
Qed.

(** The bits of a converted value at a position. *)
Ltac split_bits := repeat first [rewrite testbit_add_if | rewrite testbit_choice | rewrite Z.lor_spec | rewrite Z.ldiff_spec | rewrite Z.land_spec].
Ltac constant_bits := repeat match goal with
  | |- context [Z.testbit ?f ?i] => let b := eval vm_compute in (Z.testbit f i) in match b with true => idtac | false => idtac end; change (Z.testbit f i) with b
  end.
Ltac by_cases := cbn [andb orb negb]; rewrite ?andb_false_r, ?andb_true_r, ?orb_false_r, ?orb_false_l; repeat match goal with |- context [Z.testbit ?x ?i] => destruct (Z.testbit x i) end; reflexivity.

Lemma testbit_small f i n : 0 <= f < 2 ^ n -> n <= i -> Z.testbit f i = false.
Proof.
  intros Hf Hi. destruct (Z.eq_dec f 0) as [->|Hne]; [apply Z.bits_0|]. apply Z.bits_above_log2; [lia|].
  apply Z.log2_lt_pow2; [lia|]. apply Z.lt_le_trans with (2 ^ n); [lia|]. apply Z.pow_le_mono_r; lia.
Qed.

(** No constant has a bit at [i]. *)
Ltac no_bits i n := repeat match goal with |- context [Z.testbit ?f i] => rewrite (testbit_small f i n) by first [lia | split; [discriminate|reflexivity]] end;
  rewrite ?andb_false_r.

(** A position below [n] is one of the numbers. *)
Lemma position n i : 0 <= i < Z.of_nat n -> In i (List.map Z.of_nat (seq 0 n)).
Proof. intros Hi. apply in_map_iff. exists (Z.to_nat i). split; [lia|]. apply in_seq. lia. Qed.

(** The bits of an entry, from those of the flags. *)
Lemma toFlags_bits flags :
  let t := Z.testbit (toFlags flags true) in
  let f := Z.testbit flags in
  t 0 = negb (f 6) /\ t 1 = f 1 /\ t 2 = negb (f 0) /\ t 3 = f 10 || f 3 /\ t 4 = f 4 /\ t 5 = f 11 /\ t 6 = f 12 && negb (f 13) /\
  t 7 = f 3 /\ t 8 = f 0 /\ t 9 = f 6 /\ t 10 = f 5 /\ t 11 = f 9 /\ t 63 = negb (f 2).
Proof. cbv zeta. unfold toFlags. cbv zeta. split_bits. one_bit. constant_bits. repeat split; by_cases. Qed.

(** The bits of the flags read back, from those of the entry. *)
Lemma fromFlags_bits F :
  let g := Z.testbit (fromFlags F true) in
  let t := Z.testbit F in
  g 0 = negb (t 2) /\ g 1 = t 1 /\ g 2 = negb (t 63) /\ g 3 = t 7 && t 3 /\ g 4 = t 4 /\ g 5 = t 10 /\ g 6 = t 9 /\
  g 7 = false /\ g 8 = false /\ g 9 = t 11 /\ g 10 = t 3 /\ g 11 = t 5 /\ g 12 = t 6 /\ g 13 = false.
Proof.
  cbv zeta. unfold fromFlags. cbv zeta. rewrite has_write_through. split_bits. one_bit. constant_bits. repeat split; by_cases.
Qed.

Lemma held_bits flags :
  let h := Z.testbit (held flags) in
  let f := Z.testbit flags in
  h 0 = f 0 /\ h 1 = f 1 /\ h 2 = f 2 /\ h 3 = f 3 /\ h 4 = f 4 /\ h 5 = f 5 /\ h 6 = f 6 /\ h 7 = false /\ h 8 = false /\
  h 9 = f 9 /\ h 10 = f 10 || f 3 /\ h 11 = f 11 /\ h 12 = f 12 && negb (f 13) /\ h 13 = false.
Proof. cbv zeta. unfold held. cbv zeta. split_bits. one_bit. split_bits. constant_bits. repeat split; by_cases. Qed.

Lemma toFlags_high flags i : 12 <= i -> i <> 63 -> Z.testbit (toFlags flags true) i = false.
Proof.
  intros Hi Hn. unfold toFlags. cbv zeta. split_bits. change PAGE_NX with (2 ^ 63). rewrite Z.pow2_bits_eqb, (proj2 (Z.eqb_neq 63 i)) by lia.
  no_bits i 12. reflexivity.
Qed.

Lemma fromFlags_high F i : 14 <= i -> Z.testbit (fromFlags F true) i = false.
Proof. intros Hi. unfold fromFlags. cbv zeta. split_bits. no_bits i 14. reflexivity. Qed.

Lemma held_high flags i : 14 <= i -> Z.testbit (held flags) i = false.
Proof. intros Hi. unfold held. cbv zeta. split_bits. no_bits i 14. reflexivity. Qed.

(** Two values without bits above [n] are equal when they agree on the [n] lowest ones. *)
Lemma same_bits n x y : (forall i, Z.of_nat n <= i -> Z.testbit x i = Z.testbit y i) ->
  Forall (fun i => Z.testbit x i = Z.testbit y i) (List.map Z.of_nat (seq 0 n)) -> x = y.
Proof.
  intros Hhigh Hlow. apply Z.bits_inj'. intros i Hi. destruct (Z_lt_le_dec i (Z.of_nat n)); [|by apply Hhigh].
  rewrite List.Forall_forall in Hlow. apply Hlow, position. lia.
Qed.

(** Equality of two values whose bits are known, position by position. *)
Ltac each_position := match goal with |- Forall _ ?l => let l' := eval vm_compute in l in change l with l' end; rewrite !List.Forall_cons_iff.
Ltac known_bits := repeat match goal with H : Z.testbit ?x ?i = _ |- context [Z.testbit ?x ?i] => rewrite H end.

Lemma flags_back flags : fromFlags (toFlags flags true) true = held flags.
Proof.
  apply (same_bits 14); [intros i Hi; by rewrite fromFlags_high, held_high|].
  pose proof (toFlags_bits flags) as HT. pose proof (fromFlags_bits (toFlags flags true)) as HG. pose proof (held_bits flags) as HH.
  cbv zeta in HT, HG, HH. destruct_and!. each_position. repeat split; [..|apply List.Forall_nil]; known_bits; by_cases.
Qed.

Ltac entry_cases := repeat match goal with |- context [Z.testbit ?x ?i] => destruct (Z.testbit x i) end; cbn; congruence.

(** What an entry is, bit by bit. *)
Lemma entry_flags_bits F :
  entry_flags F = (PAGE_GET_FLAGS F =? F) && negb (Bool.eqb (Z.testbit F 0) (Z.testbit F 9)) &&
    negb (Bool.eqb (Z.testbit F 8) (Z.testbit F 2)) && implb (Z.testbit F 7) (Z.testbit F 3).
Proof. unfold entry_flags. by one_bit. Qed.

Lemma mask_bit i : 0 <= i -> Z.testbit FLAG_MASK i = (i <? 12) || (i =? 63).
Proof.
  intros Hi. unfold FLAG_MASK. change 0x8000000000000FFF with (Z.lor (Z.ones 12) (2 ^ 63)).
  rewrite Z.lor_spec, Z.testbit_ones_nonneg, Z.pow2_bits_eqb by lia. by rewrite (Z.eqb_sym 63).
Qed.

Lemma entry_high F i : PAGE_GET_FLAGS F = F -> 12 <= i -> i <> 63 -> Z.testbit F i = false.
Proof.
  intros <- Hi Hn. unfold PAGE_GET_FLAGS. rewrite Z.land_spec, mask_bit by lia.
  rewrite (proj2 (Z.ltb_ge i 12)), (proj2 (Z.eqb_neq i 63)) by done. apply andb_false_r.
Qed.

(** Nothing of an entry lies outside its flags. *)
Lemma toFlags_masked flags : PAGE_GET_FLAGS (toFlags flags true) = toFlags flags true.
Proof.
  apply Z.bits_inj'. intros i Hi. unfold PAGE_GET_FLAGS. rewrite Z.land_spec, mask_bit by done.
  destruct (Z.ltb_spec i 12); [apply andb_true_r|]. destruct (Z.eqb_spec i 63); [apply andb_true_r|]. by rewrite toFlags_high.
Qed.

Lemma toFlags_entry flags : entry_flags (toFlags flags true) = true.
Proof.
  rewrite entry_flags_bits. pose proof (toFlags_bits flags) as HT. cbv zeta in HT. destruct_and!. known_bits.
  rewrite toFlags_masked, Z.eqb_refl. by_cases.
Qed.

Lemma entry_back F : entry_flags F = true -> toFlags (fromFlags F true) true = F.
Proof.
  rewrite entry_flags_bits. intros HF.
  apply andb_prop in HF as [HF H7]. apply andb_prop in HF as [HF H8]. apply andb_prop in HF as [HF%Z.eqb_eq H0].
  pose proof (toFlags_bits (fromFlags F true)) as HT. pose proof (fromFlags_bits F) as HG. cbv zeta in HT, HG. destruct_and!.
  apply Z.bits_inj'. intros i Hi. destruct (Z.eq_dec i 63) as [->|Hn]; [known_bits; by_cases|].
  destruct (Z_lt_le_dec i 12) as [Hlt|Hge]; [|by rewrite toFlags_high, (entry_high F) by done].
  revert i Hi Hlt Hn. enough (Forall (fun i => Z.testbit (toFlags (fromFlags F true) true) i = Z.testbit F i) (List.map Z.of_nat (seq 0 12))) as Hall.
  { intros i Hi Hlt _. rewrite List.Forall_forall in Hall. apply Hall, position. lia. }
  each_position. repeat split; [..|apply List.Forall_nil]; known_bits; revert H0 H8 H7; entry_cases.
Qed.

(** C20.  The flags a page is mapped with are the flags that are read back from its entry,
    up to those an entry does not hold; and the flags of an entry survive the conversion to
    those of the interface and back, which is how [clone] copies them. *)
Theorem flags_roundtrip :
  (forall flags, entry_flags (toFlags flags true) = true /\ fromFlags (toFlags flags true) true = held flags) /\
  (forall F, entry_flags F = true -> toFlags (fromFlags F true) true = F).
Proof.
  split; [|exact entry_back]. intros flags. split; [apply toFlags_entry|apply flags_back].
Qed.

(** Write-through sets the bit of write-combine, which reads back as well. *)
Example write_through_combines : fromFlags (toFlags WriteThrough true) true = Z.lor WriteThrough WriteCombine.
Proof. reflexivity. Qed.

(** A page that is written to, present and used by programs. *)
Lemma flags_roundtrip_witness : toFlags (fromFlags 0x8000000000000067 true) true = 0x8000000000000067.
Proof. apply (proj2 flags_roundtrip). reflexivity. Defined.
