(* ===== verification/Paging.v ===== *)
(** * Physical pages and address spaces of the x64 processor

    [x86_common/PhysicalMemoryManager.cc] keeps the free pages on a stack that lies in virtual
    memory, [x64/VirtualAddressSpace.cc] the tables the processor translates addresses with,
    and each calls the other: tables are made of pages, and the stack of pages grows by
    mapping pages.  [memory] holds the words of 64 bits of physical memory at their
    addresses; [physicalAddress] shows all of it, so that a table is read and written at its
    physical address.  Locks are the list of those that are held; to take one that is held
    never ends.  [None] is a panic, a fault of the processor or such a wait. *)
From Stdlib Require Import ZArith Lia List Bool.
From stdpp Require Import base tactics list gmap.
From S2P Require Import Prelude HashTable PageFlags.
Import ListNotations.
Local Open Scope Z_scope.
Local Open Scope err_scope.

(** [PageHashable]: a page as a key of the table of pinned pages. *)
#[export] Instance PageHashable : Hashable Z := { hash p := p / 4096; key_eq := Z.eqb }.

(** ** Places *)
Definition KERNEL_SPACE_START : Z := 0xFFFFFFF000000000.
Definition USERSPACE_VIRTUAL_START : Z := 0x400000.
Definition USERSPACE_VIRTUAL_HEAP : Z := 0x50000000.
Definition USERSPACE_VIRTUAL_STACK_SIZE : Z := 0x100000.
Definition USERSPACE_DYNAMIC_START : Z := 0x100000000.
Definition USERSPACE_VIRTUAL_STACK : Z := 0x00007FFFFFFFF000.
Definition KERNEL_VIRTUAL_HEAP : Z := 0xFFFFFFFF00000000.
Definition KERNEL_VIRTUAL_HEAP_SIZE : Z := 0x40000000.
Definition KERNEL_VIRTUAL_ADDRESS : Z := 0xFFFFFFFF7FF00000.
Definition KERNEL_VIRTUAL_PAGESTACK_4GB : Z := 0xFFFFFFFF7FC00000.
Definition KERNEL_VIRTUAL_PAGESTACK_ABV4GB1 : Z := 0xFFFFFFFE00000000.
Definition KERNEL_VIRTUAL_PAGESTACK_ABV4GB2 : Z := 0xFFFFFFF000000000.
Definition KERNEL_STACK_SIZE : Z := 0x8000.

Definition getPageSize : Z := 4096.

(** Constraints on pages. *)
Definition below4GB : Z := 24.
Definition below64GB : Z := 32.

(** ** State *)

Inductive Lock := ManagerLock | RegionLock | SpaceLock (s : nat).

#[export] Instance Lock_eq_dec : EqDecision Lock.
Proof. solve_decision. Defined.

(** The kernel's space has the number 0. *)
Record X64VirtualAddressSpace := mkSpace {
  m_PhysicalPML4 : Z; m_pStackTop : Z; m_freeStacks : list Z; m_Heap : Z; m_HeapEnd : Z }.

Record Machine := mkMachine {
  memory : mem; locks : list Lock;
  m_StackMax : Z -> Z; m_StackSize : Z -> Z; m_FreePages : Z; g_FreePages : Z; g_AllocedPages : Z;
  m_PageMetadata : HashTable Z Z;
  bDidHitWatermark : bool; bHandlingPressure : bool; m_Handlers : list (list Z);
  spaces : gmap nat X64VirtualAddressSpace; next_space : nat;
  processes : list nat; m_Initialised : Z;
  flushed : list Z }.

Definition Op (A : Type) : Type := StateE Machine A.

Definition put_memory (x : mem) (m : Machine) : Machine :=
  mkMachine x (locks m) (m_StackMax m) (m_StackSize m) (m_FreePages m) (g_FreePages m) (g_AllocedPages m) (m_PageMetadata m)
    (bDidHitWatermark m) (bHandlingPressure m) (m_Handlers m) (spaces m) (next_space m) (processes m) (m_Initialised m) (flushed m).
Definition put_locks (x : list Lock) (m : Machine) : Machine :=
  mkMachine (memory m) x (m_StackMax m) (m_StackSize m) (m_FreePages m) (g_FreePages m) (g_AllocedPages m) (m_PageMetadata m)
    (bDidHitWatermark m) (bHandlingPressure m) (m_Handlers m) (spaces m) (next_space m) (processes m) (m_Initialised m) (flushed m).
Definition put_max (i x : Z) (m : Machine) : Machine :=
  mkMachine (memory m) (locks m) (upd (m_StackMax m) i x) (m_StackSize m) (m_FreePages m) (g_FreePages m) (g_AllocedPages m) (m_PageMetadata m)
    (bDidHitWatermark m) (bHandlingPressure m) (m_Handlers m) (spaces m) (next_space m) (processes m) (m_Initialised m) (flushed m).
Definition put_size (i x : Z) (m : Machine) : Machine :=
  mkMachine (memory m) (locks m) (m_StackMax m) (upd (m_StackSize m) i x) (m_FreePages m) (g_FreePages m) (g_AllocedPages m) (m_PageMetadata m)
    (bDidHitWatermark m) (bHandlingPressure m) (m_Handlers m) (spaces m) (next_space m) (processes m) (m_Initialised m) (flushed m).
(** The counters of free and of allocated pages. *)
Definition put_counts (f g a : Z) (m : Machine) : Machine :=
  mkMachine (memory m) (locks m) (m_StackMax m) (m_StackSize m) f g a (m_PageMetadata m)
    (bDidHitWatermark m) (bHandlingPressure m) (m_Handlers m) (spaces m) (next_space m) (processes m) (m_Initialised m) (flushed m).
Definition put_metadata (x : HashTable Z Z) (m : Machine) : Machine :=
  mkMachine (memory m) (locks m) (m_StackMax m) (m_StackSize m) (m_FreePages m) (g_FreePages m) (g_AllocedPages m) x
    (bDidHitWatermark m) (bHandlingPressure m) (m_Handlers m) (spaces m) (next_space m) (processes m) (m_Initialised m) (flushed m).
(** [bDidHitWatermark] and [bHandlingPressure]. *)
Definition put_pressure (hit handling : bool) (m : Machine) : Machine :=
  mkMachine (memory m) (locks m) (m_StackMax m) (m_StackSize m) (m_FreePages m) (g_FreePages m) (g_AllocedPages m) (m_PageMetadata m)
    hit handling (m_Handlers m) (spaces m) (next_space m) (processes m) (m_Initialised m) (flushed m).
Definition put_handlers (x : list (list Z)) (m : Machine) : Machine :=
  mkMachine (memory m) (locks m) (m_StackMax m) (m_StackSize m) (m_FreePages m) (g_FreePages m) (g_AllocedPages m) (m_PageMetadata m)
    (bDidHitWatermark m) (bHandlingPressure m) x (spaces m) (next_space m) (processes m) (m_Initialised m) (flushed m).
Definition put_spaces (x : gmap nat X64VirtualAddressSpace) (n : nat) (m : Machine) : Machine :=
  mkMachine (memory m) (locks m) (m_StackMax m) (m_StackSize m) (m_FreePages m) (g_FreePages m) (g_AllocedPages m) (m_PageMetadata m)
    (bDidHitWatermark m) (bHandlingPressure m) (m_Handlers m) x n (processes m) (m_Initialised m) (flushed m).
Definition put_flushed (x : list Z) (m : Machine) : Machine :=
  mkMachine (memory m) (locks m) (m_StackMax m) (m_StackSize m) (m_FreePages m) (g_FreePages m) (g_AllocedPages m) (m_PageMetadata m)
    (bDidHitWatermark m) (bHandlingPressure m) (m_Handlers m) (spaces m) (next_space m) (processes m) (m_Initialised m) x.

(** ** Locks, memory, spaces *)

Definition acquire (l : Lock) : Op unit :=
  fun m => if decide (l ∈ locks m) then None else Some (tt, put_locks (l :: locks m) m).

Definition release (l : Lock) : Op unit := emodify (fun m => put_locks (filter (fun l' => l' <> l) (locks m)) m).

(** [LockGuard]. *)
Definition guarded {A} (l : Lock) (f : Op A) : Op A := acquire l;; a <- f;; release l;; eret a.

(** The address of an entry; [*entry] and [*entry = v]. *)
Definition TABLE_ENTRY (table index : Z) : Z := table + 8 * index.
Definition load (a : Z) : Op Z := egets (fun m => memory m a).
Definition store (a v : Z) : Op unit := emodify (fun m => put_memory (upd (memory m) a v) m).

(** [memset] to 0 and [memcpy] of words. *)
Definition clear_words (a n : Z) (w : mem) : mem := fun x => if in_range a n x then 0 else w x.
Definition copy_words (dst src n : Z) (w : mem) : mem := fun x => if in_range dst n x then w (x - dst + src) else w x.
Definition memset0 (a n : Z) : Op unit := emodify (fun m => put_memory (clear_words a n (memory m)) m).

(** The half of a word at an address that is a multiple of 4. *)
Definition load32 (w : mem) (a : Z) : Z := wrap 32 (Z.shiftr (w (a - a mod 8)) (8 * (a mod 8))).
Definition store32 (w : mem) (a v : Z) : mem :=
  let b := a - a mod 8 in let s := 8 * (a mod 8) in
  upd w b (Z.lor (Z.ldiff (w b) (Z.shiftl (Z.ones 32) s)) (Z.shiftl (wrap 32 v) s)).

Definition space (s : nat) : Op X64VirtualAddressSpace :=
  fun m => match spaces m !! s with Some v => Some (v, m) | None => None end.
Definition put_space (s : nat) (v : X64VirtualAddressSpace) : Op unit :=
  emodify (fun m => put_spaces (<[s := v]> (spaces m)) (next_space m) m).

(** [Processor::invalidate]. *)
Definition invalidate (va : Z) : Op unit := emodify (fun m => put_flushed (va :: flushed m) m).

(** [adjust_pointer]. *)
Definition adjust_pointer (p offset : Z) : Z := wrap 64 (p + offset).

(** Loops: the body for each value in turn; the second ends when the body gives [true]. *)
Fixpoint for_each {A} (l : list A) (f : A -> Op unit) : Op unit :=
  match l with [] => eret tt | a :: l' => f a;; for_each l' f end.

Fixpoint for_until {A} (l : list A) (f : A -> Op bool) : Op unit :=
  match l with
  | [] => eret tt
  | a :: l' => stop <- f a;; if (stop : bool) then eret tt else for_until l' f
  end.

(** ** Walks through the tables *)

(** The address of the entry of a page that is mapped or swapped out, [None] for [false]. *)
Definition getPageTableEntry (w : mem) (pml4 va : Z) : option Z :=
  let pml4Entry := TABLE_ENTRY pml4 (PML4_INDEX va) in
  if negb (has (w pml4Entry) PAGE_PRESENT) then None
  else
    let pageDirectoryPointerEntry :=
      TABLE_ENTRY (PAGE_GET_PHYSICAL_ADDRESS (w pml4Entry)) (PAGE_DIRECTORY_POINTER_INDEX va) in
    if negb (has (w pageDirectoryPointerEntry) PAGE_PRESENT) then None
    else
      let pageDirectoryEntry :=
        TABLE_ENTRY (PAGE_GET_PHYSICAL_ADDRESS (w pageDirectoryPointerEntry)) (PAGE_DIRECTORY_INDEX va) in
      if negb (has (w pageDirectoryEntry) PAGE_PRESENT) then None
      else if has (w pageDirectoryEntry) PAGE_2MB then None
      else
        let pageTableEntry := TABLE_ENTRY (PAGE_GET_PHYSICAL_ADDRESS (w pageDirectoryEntry)) (PAGE_TABLE_INDEX va) in
        if negb (has (w pageTableEntry) PAGE_PRESENT) && negb (has (w pageTableEntry) PAGE_SWAPPED) then None
        else Some pageTableEntry.

Definition walk_mapped (w : mem) (pml4 va : Z) : bool :=
  let pml4Entry := TABLE_ENTRY pml4 (PML4_INDEX va) in
  if negb (has (w pml4Entry) PAGE_PRESENT) then false
  else
    let pageDirectoryPointerEntry :=
      TABLE_ENTRY (PAGE_GET_PHYSICAL_ADDRESS (w pml4Entry)) (PAGE_DIRECTORY_POINTER_INDEX va) in
    if negb (has (w pageDirectoryPointerEntry) PAGE_PRESENT) then false
    else
      let pageDirectoryEntry :=
        TABLE_ENTRY (PAGE_GET_PHYSICAL_ADDRESS (w pageDirectoryPointerEntry)) (PAGE_DIRECTORY_INDEX va) in
      if negb (has (w pageDirectoryEntry) PAGE_PRESENT) then false
      else if has (w pageDirectoryEntry) PAGE_2MB then true
      else
        let pageTableEntry := TABLE_ENTRY (PAGE_GET_PHYSICAL_ADDRESS (w pageDirectoryEntry)) (PAGE_TABLE_INDEX va) in
        has (w pageTableEntry) PAGE_PRESENT.

Definition isMapped (s : nat) (va : Z) : Op bool :=
  guarded (SpaceLock s) (v <- space s;; egets (fun m => walk_mapped (memory m) (m_PhysicalPML4 v) va)).

Definition isAddressValid (va : Z) : bool := (va <? 0x0008000000000000) || (0xFFF8000000000000 <=? va).
Definition getEndOfHeap : Z := KERNEL_VIRTUAL_HEAP + KERNEL_VIRTUAL_HEAP_SIZE.
Definition memIsInHeap (p : Z) : bool :=
  if p <? KERNEL_VIRTUAL_HEAP then false else if getEndOfHeap <=? p then false else true.

(** ** The stack of free pages *)

(** The flags of an entry for a table: [PAGE_WRITE] and [PAGE_USER] are left to the pages. *)
Definition TABLE_MASK : Z := Z.lor (Z.lor PAGE_GLOBAL PAGE_NX) (Z.lor PAGE_SWAPPED PAGE_COPY_ON_WRITE).
Definition table_flags (flags : Z) : Z := Z.lor (Z.ldiff flags TABLE_MASK) (Z.lor PAGE_WRITE PAGE_USER).

(** The other branch: an entry that is present is opened to programs if the flags ask for it. *)
Definition allow_user (tableEntry flags : Z) : Op unit :=
  e <- load tableEntry;;
  ewhen (negb (has e PAGE_USER) && negb (Z.land flags PAGE_USER =? 0)) (store tableEntry (Z.lor e PAGE_USER)).

Definition conditionalTableEntryMapping (tableEntry physAddress flags : Z) : Op bool :=
  let flags := toFlags flags true in
  e <- load tableEntry;;
  if negb (has e PAGE_PRESENT) then
    store tableEntry (Z.lor physAddress (table_flags flags));;
    memset0 physAddress getPageSize;;
    eret true
  else
    allow_user tableEntry flags;;
    eret false.

(** The page becomes the first table, or the page itself, that the address lacks. *)
Definition mapPageStructures (s : nat) (physAddress va flags : Z) : Op bool :=
  guarded (SpaceLock s) (
    v <- space s;;
    let Flags := toFlags flags false in
    let pml4Entry := TABLE_ENTRY (m_PhysicalPML4 v) (PML4_INDEX va) in
    b <- conditionalTableEntryMapping pml4Entry physAddress Flags;;
    if (b : bool) then eret true else
    e <- load pml4Entry;;
    let pageDirectoryPointerEntry := TABLE_ENTRY (PAGE_GET_PHYSICAL_ADDRESS e) (PAGE_DIRECTORY_POINTER_INDEX va) in
    b <- conditionalTableEntryMapping pageDirectoryPointerEntry physAddress Flags;;
    if (b : bool) then eret true else
    e <- load pageDirectoryPointerEntry;;
    let pageDirectoryEntry := TABLE_ENTRY (PAGE_GET_PHYSICAL_ADDRESS e) (PAGE_DIRECTORY_INDEX va) in
    b <- conditionalTableEntryMapping pageDirectoryEntry physAddress Flags;;
    if (b : bool) then eret true else
    e <- load pageDirectoryEntry;;
    let pageTableEntry := TABLE_ENTRY (PAGE_GET_PHYSICAL_ADDRESS e) (PAGE_TABLE_INDEX va) in
    e <- load pageTableEntry;;
    if negb (has e PAGE_PRESENT) then store pageTableEntry (Z.lor physAddress flags);; eret true
    else eret false).

(** [m_Stack]. *)
Definition m_Stack (index : Z) : Z :=
  if index =? 0 then KERNEL_VIRTUAL_PAGESTACK_4GB
  else if index =? 1 then KERNEL_VIRTUAL_PAGESTACK_ABV4GB1 else KERNEL_VIRTUAL_PAGESTACK_ABV4GB2.

(** The physical address behind an address of the stack, whose pages have entries in the
    kernel's tables. *)
Definition stack_word (va : Z) : Op Z :=
  k <- space 0;;
  fun m =>
    match getPageTableEntry (memory m) (m_PhysicalPML4 k) va with
    | Some e => if has (memory m e) PAGE_PRESENT then Some (PAGE_GET_PHYSICAL_ADDRESS (memory m e) + va mod getPageSize, m) else None
    | None => None
    end.

Definition load_stack32 (va : Z) : Op Z := a <- stack_word va;; egets (fun m => load32 (memory m) a).
Definition store_stack32 (va v : Z) : Op unit := a <- stack_word va;; emodify (fun m => put_memory (store32 (memory m) a v) m).
Definition load_stack64 (va : Z) : Op Z := a <- stack_word va;; load a.
Definition store_stack64 (va v : Z) : Op unit := a <- stack_word va;; store a v.

Definition stack_full (m : Machine) (index : Z) : bool := m_StackMax m index =? m_StackSize m index.

Definition stack_index (constraints : Z) (m : Machine) : Z :=
  let index := if constraints =? below4GB then 0 else if constraints =? below64GB then 1 else 2 in
  let index := if (index =? 2) && stack_full m 2 then 1 else index in
  if (index =? 1) && stack_full m 1 then 0 else index.

(** [PageStack::allocate]. *)
Definition stack_allocate (constraints : Z) : Op Z :=
  index <- egets (stack_index constraints);;
  usable <- egets (fun m => negb (stack_full m index) && negb (m_StackSize m index =? 0));;
  result <-
    (if (usable : bool) then
       size <- egets (fun m => m_StackSize m index);;
       if index =? 0 then
         emodify (put_size 0 (size - 4));;
         load_stack32 (m_Stack 0 + 4 * ((size - 4) / 4))
       else
         emodify (put_size index (size - 8));;
         load_stack64 (m_Stack index + 8 * ((size - 8) / 8))
     else eret 0);;
  ewhen (negb (result =? 0))
    (emodify (fun m =>
       put_counts (if m_FreePages m =? 0 then 0 else m_FreePages m - 1)
         (if g_FreePages m =? 0 then 0 else g_FreePages m - 1) (g_AllocedPages m + 1) m));;
  eret result.

(** ** Memory pressure *)
Definition MAX_MEMPRESSURE_PRIORITY : Z := 16.
Definition getHighWatermark : Z := 16.

Section Handlers.
(** [MemoryPressureHandler::compact] of a handler: a virtual method. *)
Context (handler_compact : Z -> Op bool).

Fixpoint compact_list (hs : list Z) : Op bool :=
  match hs with
  | [] => eret false
  | h :: hs' => b <- handler_compact h;; if (b : bool) then eret true else compact_list hs'
  end.

(** The lists of the handlers in the order of their priorities. *)
Fixpoint compact_lists (ls : list (list Z)) : Op bool :=
  match ls with
  | [] => eret false
  | l :: ls' => b <- compact_list l;; if (b : bool) then eret true else compact_lists ls'
  end.

Definition compact : Op bool := ls <- egets m_Handlers;; compact_lists ls.

Definition registerHandler (prio h : Z) : Op unit :=
  let prio := if MAX_MEMPRESSURE_PRIORITY <=? prio then MAX_MEMPRESSURE_PRIORITY - 1 else prio in
  emodify (fun m => put_handlers (alter (fun l => l ++ [h]) (Z.to_nat prio) (m_Handlers m)) m).

Definition removeHandler (h : Z) : Op unit :=
  emodify (fun m => put_handlers (List.map (filter (fun h' => h' <> h)) (m_Handlers m)) m).

(** ** Single pages *)

Definition allocatePage : Op Z :=
  acquire ManagerLock;;
  handling <- egets bHandlingPressure;;
  ewhen (negb handling)
    (pages <- egets m_FreePages;;
     if pages <? getHighWatermark then
       emodify (fun m => put_pressure (bDidHitWatermark m) true m);;
       _ <- compact;;
       emodify (fun m => put_pressure true false m)
     else
       hit <- egets bDidHitWatermark;;
       ewhen hit (emodify (fun m => put_pressure false (bHandlingPressure m) m)));;
  ptr <- stack_allocate 0;;
  if ptr =? 0 then efail
  else
    release ManagerLock;;
    eret ptr.

Definition conditionalTableEntryAllocation (tableEntry flags : Z) : Op bool :=
  let flags := toFlags flags false in
  e <- load tableEntry;;
  if negb (has e PAGE_PRESENT) then
    page <- allocatePage;;
    if page =? 0 then eret false
    else
      store tableEntry (Z.lor page (table_flags flags));;
      memset0 page getPageSize;;
      eret true
  else
    allow_user tableEntry flags;;
    eret true.

Definition mapPageStructuresAbove4GB (s : nat) (physAddress va flags : Z) : Op bool :=
  guarded (SpaceLock s) (
    v <- space s;;
    let Flags := toFlags flags false in
    let pml4Entry := TABLE_ENTRY (m_PhysicalPML4 v) (PML4_INDEX va) in
    b <- conditionalTableEntryAllocation pml4Entry Flags;;
    if (b : bool) then eret true else
    e <- load pml4Entry;;
    let pageDirectoryPointerEntry := TABLE_ENTRY (PAGE_GET_PHYSICAL_ADDRESS e) (PAGE_DIRECTORY_POINTER_INDEX va) in
    b <- conditionalTableEntryAllocation pageDirectoryPointerEntry Flags;;
    if (b : bool) then eret true else
    e <- load pageDirectoryPointerEntry;;
    let pageDirectoryEntry := TABLE_ENTRY (PAGE_GET_PHYSICAL_ADDRESS e) (PAGE_DIRECTORY_INDEX va) in
    b <- conditionalTableEntryAllocation pageDirectoryEntry Flags;;
    if (b : bool) then eret true else
    e <- load pageDirectoryEntry;;
    let pageTableEntry := TABLE_ENTRY (PAGE_GET_PHYSICAL_ADDRESS e) (PAGE_TABLE_INDEX va) in
    e <- load pageTableEntry;;
    if negb (has e PAGE_PRESENT) then store pageTableEntry (Z.lor physAddress flags);; eret true
    else eret false).

(** The rest of [PageStack::free], once there is room for a page. *)
Definition push_page (index physicalAddress : Z) : Op unit :=
  size <- egets (fun m => m_StackSize m index);;
  (if index =? 0 then
     store_stack32 (m_Stack 0 + 4 * (size / 4)) physicalAddress;;
     emodify (put_size 0 (size + 4))
   else
     store_stack64 (m_Stack index + 8 * (size / 8)) physicalAddress;;
     emodify (put_size index (size + 8)));;
  emodify (fun m =>
    put_counts (m_FreePages m + 1) (g_FreePages m + 1)
      (if 0 <? g_AllocedPages m then g_AllocedPages m - 1 else g_AllocedPages m) m).

(** [PageStack::free]: a page may become a part of the stack itself. *)
Definition stack_free (physicalAddress : Z) : Op unit :=
  let index := if physicalAddress <? 0x100000000 then 0 else if physicalAddress <? 0x1000000000 then 1 else 2 in
  full <- egets (fun m => stack_full m index);;
  if (full : bool) then
    top <- egets (fun m => m_StackMax m index);;
    let va := adjust_pointer (m_Stack index) top in
    used <- (if index =? 0 then mapPageStructures 0 physicalAddress va (Z.lor KernelMode Write)
             else mapPageStructuresAbove4GB 0 physicalAddress va (Z.lor KernelMode Write));;
    if (used : bool) then eret tt
    else
      emodify (put_max index (top + getPageSize));;
      push_page index physicalAddress
  else push_page index physicalAddress.

Definition freePageUnlocked (page : Z) : Op unit :=
  locked <- egets (fun m => bool_decide (ManagerLock ∈ locks m));;
  if negb locked then efail
  else
    t <- egets m_PageMetadata;;
    p <- elift (lookup t page);;
    match p with
    | Some refcount =>
        let refcount := wrap 64 (refcount - 1) in
        emodify (fun m => put_metadata (set_value (m_PageMetadata m) page refcount) m);;
        if negb (refcount =? 0) then eret tt
        else
          t <- egets m_PageMetadata;;
          t' <- elift (remove t page);;
          emodify (put_metadata t');;
          stack_free page
    | None => stack_free page
    end.

Definition freePage (page : Z) : Op unit := guarded ManagerLock (freePageUnlocked page).

Definition pin (page : Z) : Op unit :=
  guarded ManagerLock (
    t <- egets m_PageMetadata;;
    p <- elift (lookup t page);;
    match p with
    | Some refcount => emodify (put_metadata (set_value t page (wrap 64 (refcount + 1))))
    | None => t' <- elift (insert t page 1);; emodify (put_metadata t')
    end).
End Handlers.
