(* ===== verification/PagingWords.v ===== *)
(** * Entries, tables and walks

    Arithmetic of the words in the tables of [Paging], the walk through them as steps from a
    table to a table, and what an address space shows: the word that a page is mapped with. *)
From Stdlib Require Import ZArith Lia List Bool.
From stdpp Require Import base tactics list gmap.
From S2P Require Import Prelude HashTable PageFlags Paging.
Import ListNotations.
Local Open Scope Z_scope.

(** ** Pages and flags in a word *)

Definition is_page (p : Z) : Prop := p mod 4096 = 0 /\ 0 < p < 2 ^ 63.
Definition is_flags (F : Z) : Prop := Z.land F FLAG_MASK = F.

Lemma mask_bits i : 0 <= i -> Z.testbit FLAG_MASK i = (i <? 12) || (i =? 63).
Proof.
  intros Hi. change FLAG_MASK with (Z.lor (Z.ones 12) (2 ^ 63)).
  rewrite Z.lor_spec, Z.testbit_ones_nonneg, Z.pow2_bits_eqb by lia. by rewrite (Z.eqb_sym 63).
Qed.

Lemma page_mask p : is_page p -> Z.land p FLAG_MASK = 0.
Proof.
  intros [Hp Hr]. apply Z.bits_inj_iff'. intros i Hi. rewrite Z.land_spec, mask_bits, Z.bits_0 by done.
  destruct (Z.ltb_spec i 12).
  - assert (Z.testbit p i = false) as ->; [|done]. rewrite <- (Z.mod_pow2_bits_low p 12 i) by lia.
    change (2 ^ 12) with 4096. by rewrite Hp, Z.bits_0.
  - destruct (Z.eqb_spec i 63) as [->|]; [|by rewrite andb_false_r].
    rewrite (in_word_testbit_high 63 p 63); [done|unfold in_word; lia..].
Qed.

Lemma mask_flags f p : is_flags f -> Z.land p FLAG_MASK = 0 -> Z.land p f = 0.
Proof. intros Hf Hp. by rewrite <- Hf, (Z.land_comm f), Z.land_assoc, Hp, Z.land_0_l. Qed.

Lemma entry_has p F f : is_page p -> is_flags f -> has (Z.lor p F) f = has F f.
Proof. intros Hp Hf. unfold has. by rewrite Z.land_lor_distr_l, (mask_flags f p Hf (page_mask p Hp)), Z.lor_0_l. Qed.

Lemma entry_page p F : is_page p -> is_flags F -> PAGE_GET_PHYSICAL_ADDRESS (Z.lor p F) = p.
Proof.
  intros Hp HF. unfold PAGE_GET_PHYSICAL_ADDRESS. pose proof (page_mask p Hp) as Hm.
  apply Z.bits_inj_iff'. intros i Hi. rewrite Z.ldiff_spec, Z.lor_spec.
  apply (f_equal (fun z => Z.testbit z i)) in Hm, HF. rewrite Z.land_spec in Hm, HF. rewrite Z.bits_0 in Hm.
  destruct (Z.testbit p i), (Z.testbit F i), (Z.testbit FLAG_MASK i); done.
Qed.

Lemma entry_flags_of p F : is_page p -> is_flags F -> PAGE_GET_FLAGS (Z.lor p F) = F.
Proof.
  intros Hp HF. unfold PAGE_GET_FLAGS. by rewrite Z.land_lor_distr_l, (page_mask p Hp), HF, Z.lor_0_l.
Qed.

Lemma set_flags_has e F f : is_flags f -> has (PAGE_SET_FLAGS e F) f = has F f.
Proof.
  intros Hf. unfold PAGE_SET_FLAGS, has. rewrite Z.land_lor_distr_l.
  rewrite (mask_flags f (Z.ldiff e FLAG_MASK) Hf); [by rewrite Z.lor_0_l|].
  apply Z.bits_inj_iff'. intros i Hi. rewrite Z.land_spec, Z.ldiff_spec, Z.bits_0.
  by destruct (Z.testbit e i), (Z.testbit FLAG_MASK i).
Qed.

Lemma set_flags_page e F : is_flags F -> PAGE_GET_PHYSICAL_ADDRESS (PAGE_SET_FLAGS e F) = PAGE_GET_PHYSICAL_ADDRESS e.
Proof.
  intros HF. unfold PAGE_GET_PHYSICAL_ADDRESS, PAGE_SET_FLAGS. apply Z.bits_inj_iff'. intros i Hi.
  rewrite !Z.ldiff_spec, Z.lor_spec, Z.ldiff_spec.
  apply (f_equal (fun z => Z.testbit z i)) in HF. rewrite Z.land_spec in HF.
  by destruct (Z.testbit e i), (Z.testbit F i), (Z.testbit FLAG_MASK i).
Qed.

Lemma set_flags_flags e F : is_flags F -> PAGE_GET_FLAGS (PAGE_SET_FLAGS e F) = F.
Proof.
  intros HF. unfold PAGE_GET_FLAGS, PAGE_SET_FLAGS. apply Z.bits_inj_iff'. intros i Hi.
  rewrite !Z.land_spec, Z.lor_spec, Z.ldiff_spec.
  apply (f_equal (fun z => Z.testbit z i)) in HF. rewrite Z.land_spec in HF.
  by destruct (Z.testbit e i), (Z.testbit F i), (Z.testbit FLAG_MASK i).
Qed.

(** To set a bit changes neither the page nor the other bits. *)
Lemma or_has e f f' : Z.land f f' = 0 -> has (Z.lor e f) f' = has e f'.
Proof. intros Hf. unfold has. by rewrite Z.land_lor_distr_l, Hf, Z.lor_0_r. Qed.

Lemma or_page e f : is_flags f -> PAGE_GET_PHYSICAL_ADDRESS (Z.lor e f) = PAGE_GET_PHYSICAL_ADDRESS e.
Proof.
  intros HF. unfold PAGE_GET_PHYSICAL_ADDRESS. apply Z.bits_inj_iff'. intros i Hi. rewrite !Z.ldiff_spec, Z.lor_spec.
  apply (f_equal (fun z => Z.testbit z i)) in HF. rewrite Z.land_spec in HF.
  by destruct (Z.testbit e i), (Z.testbit f i), (Z.testbit FLAG_MASK i).
Qed.

Lemma toFlags_flags flags b : is_flags (toFlags flags b).
Proof.
  unfold is_flags, toFlags, add_if.
  destruct (has flags KernelMode), (has flags Write), (has flags WriteCombine), (has flags CacheDisable), (has flags Execute),
    (has flags Swapped), (has flags CopyOnWrite), (has flags Shared); destruct b; try reflexivity;
    destruct (has flags WriteThrough), (has flags Accessed), (has flags Dirty), (has flags ClearDirty); reflexivity.
Qed.

(** An entry for a table is present unless a swapped page was asked for. *)
Lemma table_flags_of flags : has flags Swapped = false ->
  is_flags (table_flags (toFlags flags false)) /\ has (table_flags (toFlags flags false)) PAGE_PRESENT = true /\
  has (table_flags (toFlags flags false)) PAGE_2MB = false.
Proof.
  intros Hs. unfold is_flags, toFlags, add_if. rewrite Hs.
  destruct (has flags KernelMode), (has flags Write), (has flags WriteCombine), (has flags CacheDisable), (has flags Execute),
    (has flags CopyOnWrite), (has flags Shared); split_and!; reflexivity.
Qed.

(** ** Addresses of entries *)

Lemma entry_inj t t' i i' : t mod 4096 = 0 -> t' mod 4096 = 0 -> 0 <= i < 512 -> 0 <= i' < 512 ->
  TABLE_ENTRY t i = TABLE_ENTRY t' i' -> t = t' /\ i = i'.
Proof. unfold TABLE_ENTRY. intros. zlia. Qed.

Lemma index_range x n : 0 <= Z.land (Z.shiftr x n) 0x1FF < 512.
Proof. change 0x1FF with (Z.ones 9). rewrite Z.land_ones by lia. apply Z.mod_pos_bound. lia. Qed.

Lemma pml4_range va : 0 <= PML4_INDEX va < 512. Proof. apply index_range. Qed.
Lemma pdpt_range va : 0 <= PAGE_DIRECTORY_POINTER_INDEX va < 512. Proof. apply index_range. Qed.
Lemma pd_range va : 0 <= PAGE_DIRECTORY_INDEX va < 512. Proof. apply index_range. Qed.
Lemma pt_range va : 0 <= PAGE_TABLE_INDEX va < 512. Proof. apply index_range. Qed.
Create HintDb paging.
#[export] Hint Resolve pml4_range pdpt_range pd_range pt_range : paging.

(** The programs' half below, and the last entry of the kernel's half. *)
Definition user_va (va : Z) : Prop := 0 <= va < 2 ^ 47.
Definition kernel_va (va : Z) : Prop := 2 ^ 64 - 2 ^ 39 <= va < 2 ^ 64.

Definition indices (va : Z) : list Z :=
  [PML4_INDEX va; PAGE_DIRECTORY_POINTER_INDEX va; PAGE_DIRECTORY_INDEX va; PAGE_TABLE_INDEX va].

Lemma indices_div va :
  indices va = [va / 2 ^ 39 mod 512; va / 2 ^ 30 mod 512; va / 2 ^ 21 mod 512; va / 2 ^ 12 mod 512].
Proof.
  unfold indices, PML4_INDEX, PAGE_DIRECTORY_POINTER_INDEX, PAGE_DIRECTORY_INDEX, PAGE_TABLE_INDEX.
  change 0x1FF with (Z.ones 9). by rewrite !Z.land_ones, !Z.shiftr_div_pow2 by lia.
Qed.

Lemma user_index va : user_va va -> PML4_INDEX va < 256.
Proof. pose proof (indices_div va) as [= -> _ _ _]. unfold user_va. change (2 ^ 39) with 549755813888. intros. zlia. Qed.

Lemma kernel_index va : kernel_va va -> PML4_INDEX va = 511.
Proof. pose proof (indices_div va) as [= -> _ _ _]. unfold kernel_va. change (2 ^ 39) with 549755813888. intros. zlia. Qed.

Lemma indices_inj va va' : user_va va \/ kernel_va va -> user_va va' \/ kernel_va va' ->
  indices va = indices va' <-> va / 4096 = va' / 4096.
Proof.
  intros Hv Hv'. rewrite !indices_div. unfold user_va, kernel_va in *.
  change (2 ^ 39) with (2 ^ 12 * 134217728). change (2 ^ 30) with (2 ^ 12 * 262144). change (2 ^ 21) with (2 ^ 12 * 512).
  change (2 ^ 12) with 4096. rewrite <- !Z.div_div by lia.
  assert (forall x, 0 <= x < 2 ^ 47 \/ 2 ^ 64 - 4096 * 134217728 <= x < 2 ^ 64 ->
    let y := x / 4096 in 0 <= y < 2 ^ 35 \/ 2 ^ 52 - 134217728 <= y < 2 ^ 52) as H by (intros x Hx y; subst y; zlia).
  change (2 ^ 39) with (4096 * 134217728) in *.
  apply H in Hv, Hv'. clear H. cbv zeta in *. revert Hv Hv'. generalize (va / 4096) (va' / 4096). intros y y' Hy Hy'.
  split; [|by intros ->]. intros [= H1 H2 H3 H4]. zlia.
Qed.

(** ** Walks *)

(** The table below an entry of a table of a level. *)
Definition child (w : mem) (level : nat) (t i : Z) : option Z :=
  let e := w (TABLE_ENTRY t i) in
  if has e PAGE_PRESENT && negb ((level =? 2)%nat && has e PAGE_2MB) then Some (PAGE_GET_PHYSICAL_ADDRESS e) else None.

Definition page_table (w : mem) (pml4 va : Z) : option Z :=
  t1 ← child w 0 pml4 (PML4_INDEX va);
  t2 ← child w 1 t1 (PAGE_DIRECTORY_POINTER_INDEX va);
  child w 2 t2 (PAGE_DIRECTORY_INDEX va).

(** The word of a page of 4KB, 0 if there is none. *)
Definition walk_word (w : mem) (pml4 va : Z) : Z :=
  match page_table w pml4 va with Some t => w (TABLE_ENTRY t (PAGE_TABLE_INDEX va)) | None => 0 end.

(** An address in a page of 2MB. *)
Definition walk_big (w : mem) (pml4 va : Z) : bool :=
  match (t1 ← child w 0 pml4 (PML4_INDEX va); child w 1 t1 (PAGE_DIRECTORY_POINTER_INDEX va)) with
  | Some t2 => let e := w (TABLE_ENTRY t2 (PAGE_DIRECTORY_INDEX va)) in has e PAGE_PRESENT && has e PAGE_2MB
  | None => false
  end.

(** What a space shows. *)
Definition view (m : Machine) (s : nat) (va : Z) : Z :=
  match spaces m !! s with Some v => walk_word (memory m) (m_PhysicalPML4 v) va | None => 0 end.
Definition big_page (m : Machine) (s : nat) (va : Z) : bool :=
  match spaces m !! s with Some v => walk_big (memory m) (m_PhysicalPML4 v) va | None => false end.

(** A word of a page that can be asked for: mapped or swapped out. *)
Definition known (e : Z) : bool := has e PAGE_PRESENT || has e PAGE_SWAPPED.

Lemma child_present w l t i : l <> 2%nat ->
  child w l t i = if has (w (TABLE_ENTRY t i)) PAGE_PRESENT then Some (PAGE_GET_PHYSICAL_ADDRESS (w (TABLE_ENTRY t i))) else None.
Proof. intros Hl. unfold child. destruct (Nat.eqb_spec l 2); [done|]. by rewrite andb_true_r. Qed.

(** The walk of the code is the one through the tables. *)
Lemma getPageTableEntry_walk w pml4 va :
  getPageTableEntry w pml4 va =
    t ← page_table w pml4 va;
    if known (w (TABLE_ENTRY t (PAGE_TABLE_INDEX va))) then Some (TABLE_ENTRY t (PAGE_TABLE_INDEX va)) else None.
Proof.
  unfold getPageTableEntry, page_table, known. rewrite child_present by done.
  destruct (has _ PAGE_PRESENT) eqn:H1; [|done]. cbn - [child TABLE_ENTRY]. rewrite child_present by done.
  destruct (has (w (TABLE_ENTRY (PAGE_GET_PHYSICAL_ADDRESS _) (PAGE_DIRECTORY_POINTER_INDEX va))) PAGE_PRESENT) eqn:H2; [|done].
  cbn - [child TABLE_ENTRY]. unfold child. cbn [Nat.eqb andb].
  destruct (has (w (TABLE_ENTRY (PAGE_GET_PHYSICAL_ADDRESS _) (PAGE_DIRECTORY_INDEX va))) PAGE_PRESENT) eqn:H3; [|done].
  destruct (has _ PAGE_2MB); [done|]. cbn - [TABLE_ENTRY].
  by destruct (has (w (TABLE_ENTRY (PAGE_GET_PHYSICAL_ADDRESS _) (PAGE_TABLE_INDEX va))) PAGE_PRESENT), (has _ PAGE_SWAPPED).
Qed.

Lemma getPageTableEntry_word w pml4 va e :
  getPageTableEntry w pml4 va = Some e -> w e = walk_word w pml4 va /\ known (walk_word w pml4 va) = true.
Proof.
  rewrite getPageTableEntry_walk. unfold walk_word. destruct (page_table w pml4 va) as [t|]; [|done]. cbn.
  destruct (known _) eqn:Hk; [|done]. by intros [= <-].
Qed.

Lemma walk_mapped_word w pml4 va : walk_big w pml4 va = false ->
  walk_mapped w pml4 va = has (walk_word w pml4 va) PAGE_PRESENT.
Proof.
  unfold walk_big, walk_mapped, walk_word, page_table. rewrite child_present by done.
  destruct (has _ PAGE_PRESENT) eqn:H1; [|done]. cbn - [child TABLE_ENTRY]. rewrite child_present by done.
  destruct (has (w (TABLE_ENTRY (PAGE_GET_PHYSICAL_ADDRESS _) (PAGE_DIRECTORY_POINTER_INDEX va))) PAGE_PRESENT) eqn:H2; [|done].
  cbn - [child TABLE_ENTRY]. unfold child. cbn [Nat.eqb andb].
  destruct (has (w (TABLE_ENTRY (PAGE_GET_PHYSICAL_ADDRESS _) (PAGE_DIRECTORY_INDEX va))) PAGE_PRESENT) eqn:H3; [|done].
  by cbn - [TABLE_ENTRY]; intros ->.
Qed.

(** A walk reads the entries of three tables. *)
Lemma page_table_ext w w' pml4 va :
  child w 0 pml4 (PML4_INDEX va) = child w' 0 pml4 (PML4_INDEX va) ->
  (forall t1, child w 0 pml4 (PML4_INDEX va) = Some t1 ->
    child w 1 t1 (PAGE_DIRECTORY_POINTER_INDEX va) = child w' 1 t1 (PAGE_DIRECTORY_POINTER_INDEX va)) ->
  (forall t1 t2, child w 0 pml4 (PML4_INDEX va) = Some t1 -> child w 1 t1 (PAGE_DIRECTORY_POINTER_INDEX va) = Some t2 ->
    child w 2 t2 (PAGE_DIRECTORY_INDEX va) = child w' 2 t2 (PAGE_DIRECTORY_INDEX va)) ->
  page_table w pml4 va = page_table w' pml4 va.
Proof.
  intros H1 H2 H3. unfold page_table. rewrite <- H1. destruct (child w 0 pml4 _) as [t1|] eqn:E1; [|done]. cbn.
  rewrite <- (H2 t1) by done. destruct (child w 1 t1 _) as [t2|] eqn:E2; [|done]. cbn. by apply (H3 t1).
Qed.
