(* ===== verification/PagingInv.v ===== *)
(** * The tables and the stack of pages fit together

    Who owns a page: nobody that the two components know ([Used]: the page was handed out),
    the stack of free pages ([Free]), the stack as a part of itself ([Window n]: the page
    behind the [n]th page of the stack), or an address space ([Table s path]: the table that
    the indices [path] lead to from the root of the space [s]; tables of the kernel's half
    are those of space 0).  [tables_ok] and [stack_ok] say that memory agrees. *)
From Stdlib Require Import ZArith Lia List Bool.
From stdpp Require Import base tactics list gmap.
From S2P Require Import Prelude HashTable PageFlags Paging PagingWords.
Import ListNotations.
Local Open Scope Z_scope.

Inductive Owner := Used | Free | Window (n : Z) | Table (s : nat) (path : list Z).

#[export] Instance Owner_eq_dec : EqDecision Owner.
Proof. solve_decision. Defined.

Definition owners : Type := Z -> Owner.
Definition give (own : owners) (p : Z) (o : Owner) : owners := fun q => if q =? p then o else own q.

Lemma give_eq own p o : give own p o p = o.
Proof. unfold give. by rewrite Z.eqb_refl. Qed.

Lemma give_ne own p o q : q <> p -> give own p o q = own q.
Proof. unfold give. by destruct (Z.eqb_spec q p). Qed.

(** An entry that leads to a table that the invariant knows. *)
Definition inner (s : nat) (path : list Z) (i : Z) : Prop :=
  0 <= i < 512 /\ (length path < 3)%nat /\ (path = [] -> i < 256 \/ (s = 0%nat /\ i = 511)).

Definition valid_va (va : Z) : Prop := user_va va \/ kernel_va va.

(** The space whose tables an address is translated with. *)
Definition root_of (s : nat) (va : Z) : nat := if va <? 2 ^ 47 then s else 0%nat.

Record tables_ok (own : owners) (m : Machine) : Prop := {
  t_page p : own p <> Used -> is_page p;
  t_root s v : spaces m !! s = Some v -> own (m_PhysicalPML4 v) = Table s [];
  t_fresh s v : spaces m !! s = Some v -> (s < next_space m)%nat;
  t_entry t s path i p : own t = Table s path -> inner s path i -> child (memory m) (length path) t i = Some p ->
    own p = Table s (path ++ [i]);
  t_kernel : exists K, own K = Table 0 [511] /\
    forall s v, spaces m !! s = Some v -> child (memory m) 0 (m_PhysicalPML4 v) 511 = Some K;
  t_space : is_Some (spaces m !! 0%nat);
  t_procs p : In p (processes m) -> is_Some (spaces m !! p)
}.

(** ** Walks *)

Section Walks.
Context (own : owners) (m : Machine) (Hm : tables_ok own m) (s : nat) (v : X64VirtualAddressSpace) (Hs : spaces m !! s = Some v).
Context (va : Z) (Hva : valid_va va).
Local Notation w := (memory m).
Local Notation i1 := (PML4_INDEX va).
Local Notation i2 := (PAGE_DIRECTORY_POINTER_INDEX va).
Local Notation i3 := (PAGE_DIRECTORY_INDEX va).

Lemma walk_1 t1 : child w 0 (m_PhysicalPML4 v) i1 = Some t1 -> own t1 = Table (root_of s va) [i1].
Proof using Hm Hs Hva.
  intros H1. unfold root_of. destruct Hva as [Hu|Hk].
  - rewrite (proj2 (Z.ltb_lt _ _)) by (unfold user_va in Hu; lia).
    apply (t_entry own m Hm (m_PhysicalPML4 v) s [] i1 t1); [by apply (t_root own m Hm)| |done].
    split; [apply pml4_range|]. split; [cbn; lia|]. left. by apply user_index.
  - rewrite (proj2 (Z.ltb_ge _ _)) by (unfold kernel_va in Hk; lia).
    destruct (t_kernel own m Hm) as (K & HK & HC). rewrite (kernel_index va Hk) in *.
    rewrite (HC s v Hs) in H1. by injection H1 as <-.
Qed.

Lemma walk_2 t1 t2 : child w 0 (m_PhysicalPML4 v) i1 = Some t1 -> child w 1 t1 i2 = Some t2 ->
  own t2 = Table (root_of s va) [i1; i2].
Proof using Hm Hs Hva.
  intros H1%walk_1 H2. apply (t_entry own m Hm t1 _ [i1] i2 t2 H1); [|done].
  split; [apply pdpt_range|]. by split; [cbn; lia|].
Qed.

Lemma walk_3 t1 t2 t3 : child w 0 (m_PhysicalPML4 v) i1 = Some t1 -> child w 1 t1 i2 = Some t2 ->
  child w 2 t2 i3 = Some t3 -> own t3 = Table (root_of s va) [i1; i2; i3].
Proof using Hm Hs Hva.
  intros H1 H2 H3. apply (t_entry own m Hm t2 _ [i1; i2] i3 t3); [by apply (walk_2 t1)| |done].
  split; [apply pd_range|]. by split; [cbn; lia|].
Qed.

Lemma page_table_steps t3 : page_table w (m_PhysicalPML4 v) va = Some t3 ->
  exists t1 t2, child w 0 (m_PhysicalPML4 v) i1 = Some t1 /\ child w 1 t1 i2 = Some t2 /\ child w 2 t2 i3 = Some t3.
Proof using.
  unfold page_table. destruct (child w 0 _ i1) as [t1|]; [|done]. cbn. destruct (child w 1 t1 i2) as [t2|] eqn:H2; [|done].
  cbn. intros H3. by exists t1, t2.
Qed.

Lemma page_table_own t3 : page_table w (m_PhysicalPML4 v) va = Some t3 -> own t3 = Table (root_of s va) [i1; i2; i3].
Proof using Hm Hs Hva. intros (t1 & t2 & H1 & H2 & H3)%page_table_steps. by apply (walk_3 t1 t2). Qed.
End Walks.

Lemma owned_page own m t s path : tables_ok own m -> own t = Table s path -> t mod 4096 = 0.
Proof. intros Hm Ht. apply (t_page own m Hm). by rewrite Ht. Qed.

(** Addresses of the kernel's half show the same in every space. *)
Lemma page_table_shared own m s s' v v' va : tables_ok own m -> spaces m !! s = Some v -> spaces m !! s' = Some v' ->
  kernel_va va -> page_table (memory m) (m_PhysicalPML4 v) va = page_table (memory m) (m_PhysicalPML4 v') va.
Proof.
  intros Hm Hs Hs' Hk. destruct (t_kernel own m Hm) as (K & _ & HC). unfold page_table.
  by rewrite (kernel_index va Hk), (HC s v Hs), (HC s' v' Hs').
Qed.

(** ** Changes of memory *)

(** An entry of a page of 2MB. *)
Definition big_entry (w : mem) (t i : Z) : bool := has (w (TABLE_ENTRY t i)) PAGE_PRESENT && has (w (TABLE_ENTRY t i)) PAGE_2MB.

Definition same_inner (own : owners) (w w' : mem) : Prop :=
  forall t s path i, own t = Table s path -> (length path < 3)%nat -> 0 <= i < 512 ->
    child w' (length path) t i = child w (length path) t i /\
    (length path = 2%nat -> big_entry w' t i = big_entry w t i).

Definition same_leaves (own : owners) (w w' : mem) : Prop :=
  forall t s path i, own t = Table s path -> length path = 3%nat -> 0 <= i < 512 -> w' (TABLE_ENTRY t i) = w (TABLE_ENTRY t i).

Lemma walk_same own m v s va w' : tables_ok own m -> spaces m !! s = Some v -> valid_va va ->
  same_inner own (memory m) w' ->
  page_table w' (m_PhysicalPML4 v) va = page_table (memory m) (m_PhysicalPML4 v) va /\
  walk_big w' (m_PhysicalPML4 v) va = walk_big (memory m) (m_PhysicalPML4 v) va.
Proof.
  intros Hm Hs Hva Hi. pose proof (t_root own m Hm s v Hs) as Hr.
  assert (child w' 0 (m_PhysicalPML4 v) (PML4_INDEX va) = child (memory m) 0 (m_PhysicalPML4 v) (PML4_INDEX va)) as E1.
  { apply (Hi _ _ _ _ Hr); [cbn; lia|apply pml4_range]. }
  assert (forall t1, child (memory m) 0 (m_PhysicalPML4 v) (PML4_INDEX va) = Some t1 ->
    child w' 1 t1 (PAGE_DIRECTORY_POINTER_INDEX va) = child (memory m) 1 t1 (PAGE_DIRECTORY_POINTER_INDEX va)) as E2.
  { intros t1 H1. pose proof (walk_1 own m Hm s v Hs va Hva t1 H1) as Ho. apply (Hi _ _ _ _ Ho); [cbn; lia|apply pdpt_range]. }
  assert (forall t1 t2, child (memory m) 0 (m_PhysicalPML4 v) (PML4_INDEX va) = Some t1 ->
    child (memory m) 1 t1 (PAGE_DIRECTORY_POINTER_INDEX va) = Some t2 ->
    child w' 2 t2 (PAGE_DIRECTORY_INDEX va) = child (memory m) 2 t2 (PAGE_DIRECTORY_INDEX va) /\
    big_entry w' t2 (PAGE_DIRECTORY_INDEX va) = big_entry (memory m) t2 (PAGE_DIRECTORY_INDEX va)) as E3.
  { intros t1 t2 H1 H2. pose proof (walk_2 own m Hm s v Hs va Hva t1 t2 H1 H2) as Ho.
    destruct (Hi _ _ _ (PAGE_DIRECTORY_INDEX va) Ho) as [? Hb]; [cbn; lia|apply pd_range|]. split; [done|]. by apply Hb. }
  split.
  - symmetry. apply page_table_ext; [done|..]; [intros t1 H1; symmetry; by apply E2|].
    intros t1 t2 H1 H2. symmetry. by apply (E3 t1).
  - unfold walk_big. rewrite E1. destruct (child (memory m) 0 _ _) as [t1|] eqn:H1; [|done]. cbn - [child].
    rewrite E2 by done. destruct (child (memory m) 1 _ _) as [t2|] eqn:H2; [|done]. by apply (E3 t1 t2).
Qed.

(** Nothing that the spaces show changes. *)
Lemma tables_same own m w' : tables_ok own m -> same_inner own (memory m) w' -> same_leaves own (memory m) w' ->
  tables_ok own (put_memory w' m) /\
  (forall s va, valid_va va -> view (put_memory w' m) s va = view m s va /\ big_page (put_memory w' m) s va = big_page m s va).
Proof.
  intros Hm Hi Hl. split.
  - split; cbn; try apply Hm.
    + intros t s path i p Ht Hin Hc. apply (t_entry own m Hm t s path i p Ht Hin).
      rewrite <- Hc. symmetry. by apply (Hi t s path i Ht); apply Hin.
    + destruct (t_kernel own m Hm) as (K & HK & HC). exists K. split; [done|]. intros s v Hs. rewrite <- (HC s v Hs).
      apply (Hi (m_PhysicalPML4 v) s []); [by apply (t_root own m Hm)|cbn; lia|lia].
  - intros s va Hva. unfold view, big_page. cbn. destruct (spaces m !! s) as [v|] eqn:Hs; [|done].
    destruct (walk_same own m v s va w' Hm Hs Hva Hi) as [Hp Hb]. split; [|done].
    unfold walk_word. rewrite Hp. destruct (page_table (memory m) _ va) as [t|] eqn:Ht; [|done].
    apply (Hl t _ _ _ (page_table_own own m Hm s v Hs va Hva t Ht)); [done|apply pt_range].
Qed.

(** *** An entry that is opened to programs *)

Lemma upd_entry w t i e t' i' : t mod 4096 = 0 -> t' mod 4096 = 0 -> 0 <= i < 512 -> 0 <= i' < 512 ->
  upd w (TABLE_ENTRY t i) e (TABLE_ENTRY t' i') = if decide (t' = t /\ i' = i) then e else w (TABLE_ENTRY t' i').
Proof.
  intros. unfold upd. destruct (Z.eqb_spec (TABLE_ENTRY t' i') (TABLE_ENTRY t i)) as [He|He].
  - apply entry_inj in He as [-> ->]; [|done..]. by rewrite decide_True.
  - rewrite decide_False; [done|]. by intros [-> ->].
Qed.

Lemma same_user own m t s path i : tables_ok own m -> own t = Table s path -> (length path < 3)%nat -> 0 <= i < 512 ->
  let w' := upd (memory m) (TABLE_ENTRY t i) (Z.lor (memory m (TABLE_ENTRY t i)) PAGE_USER) in
  same_inner own (memory m) w' /\ same_leaves own (memory m) w'.
Proof.
  intros Hm Ht Hl Hi w'. split.
  - intros t' s' path' i' Ht' Hl' Hi'. unfold child, big_entry, w'.
    rewrite upd_entry by (done || by eapply owned_page).
    destruct (decide _) as [[-> ->]|]; [|done]. by rewrite !or_has, or_page.
  - intros t' s' path' i' Ht' Hl' Hi'. unfold w'. rewrite upd_entry by (done || by eapply owned_page).
    rewrite decide_False; [done|]. intros [-> ->]. rewrite Ht in Ht'. injection Ht' as <- <-. lia.
Qed.

(** *** The word of a page *)

Definition same_slot (s : nat) (va : Z) (s' : nat) (va' : Z) : Prop := root_of s' va' = root_of s va /\ va' / 4096 = va / 4096.

#[export] Instance same_slot_dec s va s' va' : Decision (same_slot s va s' va').
Proof. unfold same_slot. apply _. Defined.

Lemma root_user s va : user_va va -> root_of s va = s.
Proof. unfold root_of, user_va. intros. by rewrite (proj2 (Z.ltb_lt _ _)) by lia. Qed.

Lemma root_kernel s va : kernel_va va -> root_of s va = 0%nat.
Proof. unfold root_of, kernel_va. intros. by rewrite (proj2 (Z.ltb_ge _ _)) by lia. Qed.

Lemma same_table own m s v va t s' v' va' : tables_ok own m ->
  spaces m !! s = Some v -> spaces m !! s' = Some v' -> valid_va va -> valid_va va' ->
  page_table (memory m) (m_PhysicalPML4 v) va = Some t -> same_slot s va s' va' ->
  page_table (memory m) (m_PhysicalPML4 v') va' = Some t /\ PAGE_TABLE_INDEX va' = PAGE_TABLE_INDEX va.
Proof.
  intros Hm Hs Hs' Hva Hva' Ht [Hr Hd].
  assert (indices va' = indices va) as Hi by (by apply indices_inj). unfold indices in Hi. injection Hi as I1 I2 I3 I4.
  split; [|done].
  assert (page_table (memory m) (m_PhysicalPML4 v') va' = page_table (memory m) (m_PhysicalPML4 v') va) as ->
    by (unfold page_table; by rewrite I1, I2, I3).
  destruct Hva as [Hu|Hk].
  - assert (user_va va') as Hu' by (unfold user_va in *; zlia).
    rewrite !root_user in Hr by done. subst s'. rewrite Hs in Hs'. by injection Hs' as <-.
  - rewrite <- Ht. by apply (page_table_shared own m s' s).
Qed.

Lemma table_slot own m s v va t s' v' va' : tables_ok own m ->
  spaces m !! s = Some v -> spaces m !! s' = Some v' -> valid_va va -> valid_va va' ->
  page_table (memory m) (m_PhysicalPML4 v) va = Some t -> page_table (memory m) (m_PhysicalPML4 v') va' = Some t ->
  PAGE_TABLE_INDEX va' = PAGE_TABLE_INDEX va -> same_slot s va s' va'.
Proof.
  intros Hm Hs Hs' Hva Hva' Ht Ht' I4.
  apply (page_table_own own m Hm s v Hs va Hva) in Ht. apply (page_table_own own m Hm s' v' Hs' va' Hva') in Ht'.
  rewrite Ht in Ht'. injection Ht' as Hr I1 I2 I3. split; [done|]. apply indices_inj; [done..|].
  unfold indices. by rewrite I1, I2, I3, I4.
Qed.

Lemma leaf_write own m s v va t e : tables_ok own m -> spaces m !! s = Some v -> valid_va va ->
  page_table (memory m) (m_PhysicalPML4 v) va = Some t ->
  let m' := put_memory (upd (memory m) (TABLE_ENTRY t (PAGE_TABLE_INDEX va)) e) m in
  tables_ok own m' /\
  (forall s' va', is_Some (spaces m !! s') -> valid_va va' ->
    view m' s' va' = (if decide (same_slot s va s' va') then e else view m s' va') /\
    big_page m' s' va' = big_page m s' va') /\ same_inner own (memory m) (memory m').
Proof.
  intros Hm Hs Hva Ht m'. pose proof (page_table_own own m Hm s v Hs va Hva t Ht) as Ho.
  assert (same_inner own (memory m) (memory m')) as Hi.
  { intros t' s' path' i' Ht' Hl' Hi'. unfold child, big_entry. cbn.
    rewrite upd_entry by (apply pt_range || done || by eapply owned_page). rewrite decide_False; [done|].
    intros [-> _]. rewrite Ho in Ht'. injection Ht' as <- <-. cbn in Hl'. lia. }
  split; [|split; [|exact Hi]].
  - split; cbn; try apply Hm.
    + intros t' s' path i p Ht' Hin Hc. apply (t_entry own m Hm t' s' path i p Ht' Hin).
      rewrite <- Hc. symmetry. by apply (Hi t' s' path i Ht'); apply Hin.
    + destruct (t_kernel own m Hm) as (K & HK & HC). exists K. split; [done|]. intros s' v' Hs'. rewrite <- (HC s' v' Hs').
      apply (Hi (m_PhysicalPML4 v') s' []); [by apply (t_root own m Hm)|cbn; lia|lia].
  - intros s' va' [v' Hs'] Hva'. unfold view, big_page. cbn. rewrite Hs'.
    destruct (walk_same own m v' s' va' (memory m') Hm Hs' Hva' Hi) as [Hp Hb]. split; [|done].
    unfold walk_word. cbn in Hp. rewrite Hp. destruct (page_table (memory m) (m_PhysicalPML4 v') va') as [t'|] eqn:Ht'.
    + pose proof (page_table_own own m Hm s' v' Hs' va' Hva' t' Ht') as Ho'.
      rewrite upd_entry by (apply pt_range || done || by eapply owned_page).
      destruct (decide (same_slot s va s' va')) as [Hsame|Hne].
      * destruct (same_table own m s v va t s' v' va') as [Ht'' Hx]; [done..|]. rewrite Ht' in Ht''. injection Ht'' as ->.
        by rewrite decide_True.
      * rewrite decide_False; [done|]. intros [-> Hx]. apply Hne. by eapply table_slot.
    + rewrite decide_False; [done|]. intros Hsame.
      destruct (same_table own m s v va t s' v' va') as [Ht'' Hx]; [done..|]. congruence.
Qed.

(** *** A new table *)

Lemma clear_out p w a : a < p \/ p + 4096 <= a -> clear_words p 4096 w a = w a.
Proof. intros. unfold clear_words. destruct (in_range_spec p 4096 a); [lia|done]. Qed.

Lemma clear_entry p w t i : p mod 4096 = 0 -> t mod 4096 = 0 -> 0 <= i < 512 ->
  clear_words p 4096 w (TABLE_ENTRY t i) = if decide (t = p) then 0 else w (TABLE_ENTRY t i).
Proof.
  intros Hp Ht Hi. destruct (decide (t = p)) as [->|Hne].
  - unfold clear_words. destruct (in_range_spec p 4096 (TABLE_ENTRY p i)); [done|]. unfold TABLE_ENTRY in *. lia.
  - apply clear_out. unfold TABLE_ENTRY. zlia.
Qed.

Lemma child_zero w l t i : w (TABLE_ENTRY t i) = 0 -> child w l t i = None.
Proof. intros H. unfold child. by rewrite H. Qed.

Section Link.
Context (own : owners) (m : Machine) (Hm : tables_ok own m).
Context (t : Z) (s0 : nat) (path : list Z) (i : Z) (Ht : own t = Table s0 path) (Hin : inner s0 path i).
Context (Habsent : has (memory m (TABLE_ENTRY t i)) PAGE_PRESENT = false).
Context (p F : Z) (Hp : is_page p) (Hused : own p = Used) (HF : is_flags F).
Context (Hpres : has F PAGE_PRESENT = true) (Hsmall : has F PAGE_2MB = false).

Local Notation w := (memory m).
Local Notation w' := (clear_words p 4096 (upd (memory m) (TABLE_ENTRY t i) (Z.lor p F))).
Local Notation own' := (give own p (Table s0 (path ++ [i]))).

Lemma linked_word t' s' path' i' : own t' = Table s' path' -> 0 <= i' < 512 ->
  w' (TABLE_ENTRY t' i') = if decide (t' = t /\ i' = i) then Z.lor p F else w (TABLE_ENTRY t' i').
Proof using Hm Ht Hin Hp Hused.
  intros Ht' Hi'. rewrite clear_entry; [|apply Hp|by eapply owned_page|done]. rewrite decide_False by congruence.
  apply upd_entry; [by eapply owned_page..|apply Hin|done].
Qed.

Lemma linked_new j : 0 <= j < 512 -> w' (TABLE_ENTRY p j) = 0.
Proof using Hp. intros Hj. rewrite clear_entry; [by rewrite decide_True|apply Hp..|done]. Qed.

Lemma linked_child l t' s' path' i' : own t' = Table s' path' -> 0 <= i' < 512 ->
  child w' l t' i' = if decide (t' = t /\ i' = i) then Some p else child w l t' i'.
Proof using Hm Ht Hin Hp Hused HF Hpres Hsmall.
  intros Ht' Hi'. unfold child. rewrite (linked_word t' s' path' i' Ht' Hi'). destruct (decide _); [|done].
  rewrite !entry_has, Hpres, Hsmall, entry_page by done. by rewrite andb_false_r.
Qed.

Lemma absent_child l : child w l t i = None.
Proof using Habsent. unfold child. by rewrite Habsent. Qed.

Lemma linked_entry t' s' path' i' q : own' t' = Table s' path' -> inner s' path' i' -> child w' (length path') t' i' = Some q ->
  own' q = Table s' (path' ++ [i']).
Proof using Hm Ht Hin Hp Hused HF Hpres Hsmall.
  intros Ht' Hin' Hc. destruct (Z.eq_dec t' p) as [->|Hne].
  - rewrite child_zero in Hc; [done|]. apply linked_new, Hin'.
  - rewrite give_ne in Ht' by done. rewrite (linked_child _ t' s' path' i' Ht') in Hc by apply Hin'.
    destruct (decide _) as [[-> ->]|].
    + injection Hc as <-. rewrite give_eq. rewrite Ht in Ht'. by injection Ht' as <- <-.
    + pose proof (t_entry own m Hm t' s' path' i' q Ht' Hin' Hc) as Hq. rewrite give_ne; [done|]. congruence.
Qed.

Lemma linked_walk s v va : spaces m !! s = Some v -> valid_va va ->
  walk_word w' (m_PhysicalPML4 v) va = walk_word w (m_PhysicalPML4 v) va /\
  walk_big w' (m_PhysicalPML4 v) va = walk_big w (m_PhysicalPML4 v) va.
Proof using Hm Ht Hin Habsent Hp Hused HF Hpres Hsmall.
  intros Hs Hva. pose proof (t_root own m Hm s v Hs) as Hr.
  pose proof (linked_child 0 _ _ _ (PML4_INDEX va) Hr (pml4_range va)) as E1. unfold walk_word, page_table, walk_big.
  rewrite E1. destruct (decide _) as [[-> H1]|_].
  { rewrite H1, absent_child. cbn - [child w'].
    rewrite child_zero by apply linked_new, pdpt_range. done. }
  destruct (child w 0 _ _) as [t1|] eqn:C1; [|done]. cbn - [child].
  pose proof (walk_1 own m Hm s v Hs va Hva t1 C1) as O1.
  rewrite (linked_child 1 _ _ _ (PAGE_DIRECTORY_POINTER_INDEX va) O1 (pdpt_range va)). destruct (decide _) as [[-> H2]|_].
  { rewrite H2, absent_child. cbn - [child].
    rewrite child_zero by apply linked_new, pd_range. split; [done|]. by rewrite linked_new by apply pd_range. }
  destruct (child w 1 _ _) as [t2|] eqn:C2; [|done]. cbn - [child].
  pose proof (walk_2 own m Hm s v Hs va Hva t1 t2 C1 C2) as O2.
  rewrite (linked_child 2 _ _ _ (PAGE_DIRECTORY_INDEX va) O2 (pd_range va)).
  rewrite (linked_word _ _ _ (PAGE_DIRECTORY_INDEX va) O2 (pd_range va)). destruct (decide _) as [[-> H3]|_].
  { rewrite H3, absent_child, Habsent. cbn. rewrite linked_new by apply pt_range.
    rewrite !entry_has, Hsmall by done. by rewrite andb_false_r. }
  split; [|done]. destruct (child w 2 _ _) as [t3|] eqn:C3; [|done].
  pose proof (walk_3 own m Hm s v Hs va Hva t1 t2 t3 C1 C2 C3) as O3.
  rewrite (linked_word _ _ _ (PAGE_TABLE_INDEX va) O3 (pt_range va)). rewrite decide_False; [done|].
  intros [-> _]. rewrite Ht in O3. injection O3 as _ ->. destruct Hin as (_ & Hl & _). cbn in Hl. lia.
Qed.

Lemma link_table :
  let m' := put_memory w' m in
  tables_ok own' m' /\
  (forall s va, valid_va va -> view m' s va = view m s va /\ big_page m' s va = big_page m s va).
Proof using Hm Ht Hin Habsent Hp Hused HF Hpres Hsmall.
  cbn zeta. split.
  - split; try apply Hm.
    + intros q Hq. destruct (Z.eq_dec q p) as [->|Hne]; [done|]. rewrite give_ne in Hq by done. by apply (t_page own m Hm).
    + cbn. intros s v Hs. pose proof (t_root own m Hm s v Hs) as Hr. rewrite give_ne; [done|]. congruence.
    + intros t' s' path' i' q. apply linked_entry.
    + destruct (t_kernel own m Hm) as (K & HK & HC). exists K. split; [rewrite give_ne; [done|congruence]|].
      intros s v Hs. pose proof (t_root own m Hm s v Hs) as Hr. cbn - [child w'].
      rewrite (linked_child 0 _ _ _ 511 Hr) by lia. specialize (HC s v Hs).
      destruct (decide _) as [[Ht' Hi']|]; [|done]. by rewrite Ht', Hi', absent_child in HC.
  - intros s va Hva. unfold view, big_page. cbn - [w']. destruct (spaces m !! s) as [v|] eqn:Hs; [|done].
    by apply (linked_walk s v va).
Qed.
End Link.
