(* ===== verification/PageStack.v ===== *)
(** * The stack of free pages

    The list of free pages that the words of the stack spell, and [PageStack::allocate],
    [allocatePage], [pin] on it.  The pages of the stack are those that the kernel's tables
    show at [KERNEL_VIRTUAL_PAGESTACK_4GB]; the window ends where the kernel's image begins. *)
From Stdlib Require Import ZArith Lia List Bool.
From stdpp Require Import base tactics list gmap.
From S2P Require Import Prelude Hoare HashTable PageFlags Paging PagingWords PagingInv.
Import ListNotations.
Local Open Scope Z_scope.
Local Open Scope err_scope.

(** The address of the [k]th page of the window, and how many there are. *)
Definition window (k : Z) : Z := KERNEL_VIRTUAL_PAGESTACK_4GB + 4096 * k.
Definition window_pages : Z := (KERNEL_VIRTUAL_ADDRESS - KERNEL_VIRTUAL_PAGESTACK_4GB) / 4096.

Lemma window_pages_768 : window_pages = 768. Proof. reflexivity. Qed.

(** The physical address of the [i]th entry. *)
Definition stack_at (m : Machine) (i : Z) : Z := PAGE_GET_PHYSICAL_ADDRESS (view m 0 (window (i / 1024))) + 4 * (i mod 1024).

Record stack_ok (own : owners) (fl : list Z) (m : Machine) : Prop := {
  s_above i : i = 1 \/ i = 2 -> m_StackMax m i = 0 /\ m_StackSize m i = 0;
  s_size : m_StackSize m 0 = 4 * Z.of_nat (length fl);
  s_count : m_FreePages m = Z.of_nat (length fl);
  s_max : exists n, m_StackMax m 0 = 4096 * n /\ 0 <= n <= 768 /\ Z.of_nat (length fl) <= 1024 * n /\
    forall k, 0 <= k < n -> has (view m 0 (window k)) PAGE_PRESENT = true;
  s_window k : 0 <= k < 768 -> has (view m 0 (window k)) PAGE_PRESENT = true ->
    own (PAGE_GET_PHYSICAL_ADDRESS (view m 0 (window k))) = Window k;
  s_small k : 0 <= k < 768 -> big_page m 0 (window k) = false;
  s_entry i p : fl !! i = Some p -> load32 (memory m) (stack_at m (Z.of_nat i)) = p /\ p < 2 ^ 32 /\ own p = Free;
  s_nodup : NoDup fl;
  s_all p : own p = Free -> p ∈ fl
}.

(** Pinned pages are pages that were handed out. *)
Record meta_ok (own : owners) (m : Machine) : Prop := {
  p_table : table_ok (m_PageMetadata m);
  p_pin p r : contents (m_PageMetadata m) p = Some r -> is_page p /\ own p = Used /\ 0 < r < 2 ^ 64
}.

Record consistent (own : owners) (fl : list Z) (m : Machine) : Prop := {
  k_tables : tables_ok own m;
  k_stack : stack_ok own fl m;
  k_meta : meta_ok own m
}.

Lemma window_valid k : 0 <= k < 768 -> kernel_va (window k).
Proof. unfold kernel_va, window, KERNEL_VIRTUAL_PAGESTACK_4GB. lia. Qed.

Lemma page_hash_ge (p : Z) : is_page p -> 0 <= hash p.
Proof. intros [_ ?]. apply Z.div_pos; lia. Qed.

(** ** Half words *)

Lemma load32_ext w w' a : w (a - a mod 8) = w' (a - a mod 8) -> load32 w a = load32 w' a.
Proof. unfold load32. by intros ->. Qed.

Lemma quarter a : a mod 4 = 0 -> a mod 8 = 0 \/ a mod 8 = 4.
Proof. intros. zlia. Qed.

Lemma testbit_wrap32 z i : 0 <= i -> Z.testbit (wrap 32 z) i = (i <? 32) && Z.testbit z i.
Proof.
  intros Hi. unfold wrap. destruct (Z.ltb_spec i 32); cbn; [by rewrite Z.mod_pow2_bits_low|by rewrite Z.mod_pow2_bits_high].
Qed.

Lemma load_store32 w a v : a mod 4 = 0 -> 0 <= v < 2 ^ 32 -> load32 (store32 w a v) a = v.
Proof.
  intros Ha Hv. unfold load32, store32. rewrite upd_eq. apply Z.bits_inj_iff'. intros i Hi.
  rewrite testbit_wrap32, Z.shiftr_spec, Z.lor_spec, Z.ldiff_spec by done.
  assert (0 <= 8 * (a mod 8)) as Hs by zlia. rewrite !Z.shiftl_spec, testbit_wrap32, Z.testbit_ones_nonneg by lia.
  replace (i + 8 * (a mod 8) - 8 * (a mod 8)) with i by lia.
  destruct (Z.ltb_spec i 32); cbn.
  - rewrite andb_false_r. cbn. done.
  - symmetry. by apply (in_word_testbit_high 32); unfold in_word; lia.
Qed.

Lemma load_store32_ne w a b v : a mod 4 = 0 -> b mod 4 = 0 -> a <> b -> load32 (store32 w a v) b = load32 w b.
Proof.
  intros Ha Hb Hne. unfold load32, store32.
  destruct (Z.eq_dec (b - b mod 8) (a - a mod 8)) as [He|He]; [|by rewrite upd_ne].
  rewrite He, upd_eq. apply Z.bits_inj_iff'. intros i Hi.
  rewrite !testbit_wrap32, !Z.shiftr_spec, Z.lor_spec, Z.ldiff_spec by done.
  destruct (Z.ltb_spec i 32); [|done]. cbn [andb].
  destruct (quarter a Ha) as [E|E], (quarter b Hb) as [E'|E']; rewrite E, E' in *; [lia| | |lia].
  - rewrite !Z.shiftl_spec, testbit_wrap32, Z.testbit_ones_nonneg by lia.
    replace (i + 8 * 4 - 8 * 0 <? 32) with false by (symmetry; apply Z.ltb_ge; lia). cbn. by rewrite andb_true_r, orb_false_r.
  - rewrite !Z.shiftl_spec by lia. rewrite !(Z.testbit_neg_r _ (i + 8 * 0 - 8 * 4)) by lia. cbn. by rewrite andb_true_r, orb_false_r.
Qed.

(** An entry of the stack lies in a word of its page. *)
Lemma half_word p j : p mod 4096 = 0 -> 0 <= j < 1024 ->
  (p + 4 * j) mod 4 = 0 /\ (p + 4 * j) - (p + 4 * j) mod 8 = TABLE_ENTRY p (j / 2) /\ 0 <= j / 2 < 512.
Proof. unfold TABLE_ENTRY. intros. split_and!; zlia. Qed.

(** ** The words of the stack *)

Lemma walk_indices w pml4 va va' : indices va = indices va' ->
  getPageTableEntry w pml4 va = getPageTableEntry w pml4 va' /\ walk_word w pml4 va = walk_word w pml4 va' /\
  walk_big w pml4 va = walk_big w pml4 va'.
Proof.
  unfold indices. intros [= H1 H2 H3 H4]. unfold getPageTableEntry, walk_word, walk_big, page_table.
  by rewrite H1, H2, H3, H4.
Qed.

Lemma known_present e : has e PAGE_PRESENT = true -> known e = true.
Proof. unfold known. by intros ->. Qed.

Lemma walk_known w pml4 va : known (walk_word w pml4 va) = true ->
  exists e, getPageTableEntry w pml4 va = Some e /\ w e = walk_word w pml4 va.
Proof.
  rewrite getPageTableEntry_walk. unfold walk_word. destruct (page_table w pml4 va) as [t|]; [|done]. cbn.
  intros ->. by eexists.
Qed.

(** The entry [i] of the stack is reached through its page of the window. *)
Lemma stack_word_run m n i : is_Some (spaces m !! 0%nat) -> 0 <= n <= 768 ->
  (forall k, 0 <= k < n -> has (view m 0 (window k)) PAGE_PRESENT = true) -> 0 <= i < 1024 * n ->
  stack_word (m_Stack 0 + 4 * i) m = Some (stack_at m i, m).
Proof.
  intros [v Hv] Hn Hp Hi. unfold stack_word, stack_at. unfold ebind, space. rewrite Hv.
  assert (0 <= i / 1024 < n) as Hk by (split; [apply Z.div_pos; lia|apply Z.div_lt_upper_bound; lia]).
  specialize (Hp _ Hk). unfold view in Hp |- *. rewrite Hv in Hp |- *.
  assert (indices (m_Stack 0 + 4 * i) = indices (window (i / 1024))) as Hi'.
  { assert (kernel_va (window (i / 1024))) as Hw by (apply window_valid; lia).
    assert (kernel_va (m_Stack 0 + 4 * i)) as Hs.
    { change (m_Stack 0) with KERNEL_VIRTUAL_PAGESTACK_4GB. unfold kernel_va, KERNEL_VIRTUAL_PAGESTACK_4GB. lia. }
    apply indices_inj; [by right..|]. unfold window. change (m_Stack 0) with KERNEL_VIRTUAL_PAGESTACK_4GB.
    unfold KERNEL_VIRTUAL_PAGESTACK_4GB. zlia. }
  destruct (walk_indices (memory m) (m_PhysicalPML4 v) _ _ Hi') as (-> & _).
  destruct (walk_known _ _ _ (known_present _ Hp)) as (e & -> & ->). rewrite Hp.
  do 3 f_equal. change (m_Stack 0) with KERNEL_VIRTUAL_PAGESTACK_4GB. unfold KERNEL_VIRTUAL_PAGESTACK_4GB, getPageSize. zlia.
Qed.

Lemma stack_at_page own fl m i : consistent own fl m -> 0 <= i < 1024 * 768 ->
  has (view m 0 (window (i / 1024))) PAGE_PRESENT = true ->
  let p := PAGE_GET_PHYSICAL_ADDRESS (view m 0 (window (i / 1024))) in
  own p = Window (i / 1024) /\ is_page p /\ stack_at m i mod 4 = 0 /\
  stack_at m i - stack_at m i mod 8 = TABLE_ENTRY p (i mod 1024 / 2) /\ 0 <= i mod 1024 / 2 < 512.
Proof.
  intros [Ht Hs _] Hi Hp p.
  assert (0 <= i / 1024 < 768) as Hk by (split; [apply Z.div_pos; lia|apply Z.div_lt_upper_bound; lia]).
  pose proof (s_window own fl m Hs _ Hk Hp) as Ho. fold p in Ho. split; [done|].
  assert (is_page p) as Hpp by (apply (t_page own m Ht); by rewrite Ho). split; [done|].
  apply half_word; [apply Hpp|]. apply Z.mod_pos_bound. lia.
Qed.

Lemma last_free own fl p m : consistent own (fl ++ [p]) m -> is_page p /\ p < 2 ^ 32 /\ own p = Free.
Proof.
  intros Hc. assert ((fl ++ [p]) !! length fl = Some p) as Hl by (by rewrite lookup_app_r, Nat.sub_diag by lia).
  destruct (s_entry _ _ _ (k_stack _ _ _ Hc) _ p Hl) as (_ & ? & Ho). split_and!; [|done..].
  apply (t_page own m (k_tables _ _ _ Hc)). by rewrite Ho.
Qed.

(** *** What leaves the stack as it is *)

Definition same_windows (m m' : Machine) : Prop :=
  forall k, 0 <= k < 768 -> view m' 0 (window k) = view m 0 (window k) /\ big_page m' 0 (window k) = big_page m 0 (window k).

Lemma same_stack_at m m' i : same_windows m m' -> 0 <= i < 1024 * 768 -> stack_at m' i = stack_at m i.
Proof.
  intros Hw Hi. unfold stack_at.
  assert (0 <= i / 1024 < 768) as Hk by (split; [apply Z.div_pos; lia|apply Z.div_lt_upper_bound; lia]).
  by rewrite (proj1 (Hw _ Hk)).
Qed.

Lemma stack_bound own fl m i p : stack_ok own fl m -> fl !! i = Some p ->
  0 <= Z.of_nat i < 1024 * 768 /\ has (view m 0 (window (Z.of_nat i / 1024))) PAGE_PRESENT = true.
Proof.
  intros Hs Hi%lookup_lt_Some. destruct (s_max own fl m Hs) as (n & _ & Hn & Hl & Hp). split; [lia|].
  apply Hp. split; [apply Z.div_pos; lia|apply Z.div_lt_upper_bound; lia].
Qed.

Lemma stack_frame own own' fl m m' : consistent own fl m ->
  m_StackMax m' = m_StackMax m -> m_StackSize m' = m_StackSize m -> m_FreePages m' = m_FreePages m ->
  same_windows m m' ->
  (forall q k j, own q = Window k -> 0 <= j < 512 -> memory m' (TABLE_ENTRY q j) = memory m (TABLE_ENTRY q j)) ->
  (forall q k, own q = Window k -> own' q = Window k) -> (forall q, own q = Free <-> own' q = Free) ->
  stack_ok own' fl m'.
Proof.
  intros Hc E1 E2 E3 Hw Hmem Hwin Hfree. pose proof (k_stack own fl m Hc) as Hs. split; rewrite ?E1, ?E2, ?E3.
  - apply Hs.
  - apply Hs.
  - apply Hs.
  - destruct (s_max own fl m Hs) as (n & ? & Hn & ? & Hp). exists n. split; [done|]. split; [done|]. split; [done|].
    intros k Hk. rewrite (proj1 (Hw k ltac:(lia))). by apply Hp.
  - intros k Hk. rewrite (proj1 (Hw k Hk)). intros Hp. by apply Hwin, (s_window own fl m Hs).
  - intros k Hk. rewrite (proj2 (Hw k Hk)). by apply (s_small own fl m Hs).
  - intros i p Hi. destruct (s_entry own fl m Hs i p Hi) as (He & Hb & Ho).
    destruct (stack_bound own fl m i p Hs Hi) as [Hr Hp]. split_and!; [|done|by apply Hfree].
    rewrite <- He, (same_stack_at m m') by done. apply load32_ext.
    destruct (stack_at_page own fl m _ Hc Hr Hp) as (HW & _ & _ & -> & Hj). by apply (Hmem _ _ _ HW).
  - apply Hs.
  - intros p Hp. apply (s_all own fl m Hs). by apply Hfree.
Qed.

(** ** Taking a page from the stack *)

Lemma stack_index_0 own fl m c : stack_ok own fl m -> stack_index c m = 0.
Proof.
  intros Hs. unfold stack_index, stack_full.
  destruct (s_above own fl m Hs 1) as [-> ->]; [by left|]. destruct (s_above own fl m Hs 2) as [-> ->]; [by right|].
  by destruct (c =? below4GB), (c =? below64GB).
Qed.

(** The machine without the last page of the list. *)
Definition popped (n g a : Z) (m : Machine) : Machine := put_counts n g a (put_size 0 (4 * n) m).

Lemma stack_allocate_run own fl p m c : consistent own (fl ++ [p]) m -> stack_full m 0 = false ->
  exists g a, stack_allocate c m = Some (p, popped (Z.of_nat (length fl)) g a m).
Proof.
  intros Hc Hfull. pose proof (k_stack _ _ _ Hc) as Hs. unfold stack_allocate.
  assert ((fl ++ [p]) !! length fl = Some p) as Hl by (by rewrite lookup_app_r, Nat.sub_diag by lia).
  destruct (s_entry _ _ _ Hs _ p Hl) as (He & Hb & Ho).
  assert (0 < p) as Hp by (apply (t_page own m (k_tables _ _ _ Hc)); by rewrite Ho).
  pose proof (s_size _ _ _ Hs) as Hsz. rewrite length_app in Hsz. cbn in Hsz.
  rewrite (ebind_run _ _ m 0 m) by (unfold egets; by rewrite (stack_index_0 _ _ _ c Hs)).
  rewrite (ebind_run _ _ m true m).
  2:{ unfold egets. rewrite Hfull. destruct (Z.eqb_spec (m_StackSize m 0) 0); [lia|done]. }
  set (m1 := put_size 0 (4 * Z.of_nat (length fl)) m).
  rewrite (ebind_run _ _ m p m1).
  2:{ cbv iota. rewrite (ebind_run _ _ m (m_StackSize m 0) m) by done. rewrite Z.eqb_refl, Hsz.
      replace (4 * Z.of_nat (length fl + 1) - 4) with (4 * Z.of_nat (length fl)) by lia.
      rewrite (ebind_run _ _ m tt m1) by done. replace (4 * Z.of_nat (length fl) / 4) with (Z.of_nat (length fl)) by zlia.
      unfold load_stack32. destruct (s_max _ _ _ Hs) as (n & _ & Hn & Hlen & Hw). rewrite length_app in Hlen. cbn in Hlen.
      rewrite (ebind_run _ _ m1 (stack_at m (Z.of_nat (length fl))) m1).
      - unfold egets. cbn. by rewrite He.
      - apply (stack_word_run m1 n); [apply (t_space _ _ (k_tables _ _ _ Hc))|done|exact Hw|lia]. }
  destruct (Z.eqb_spec p 0); [lia|]. cbn [negb ewhen].
  eexists _, _. unfold ebind, emodify, eret. do 2 f_equal. unfold m1. cbn [m_FreePages put_size].
  unfold popped. f_equal. rewrite (s_count _ _ _ Hs), length_app. cbn [length].
  destruct (Z.eqb_spec (Z.of_nat (length fl + 1)) 0); lia.
Qed.

Lemma stack_allocate_none own fl m c : consistent own fl m -> fl = [] \/ stack_full m 0 = true ->
  stack_allocate c m = Some (0, m).
Proof.
  intros Hc Hf. pose proof (k_stack _ _ _ Hc) as Hs. unfold stack_allocate.
  rewrite (ebind_run _ _ m 0 m) by (unfold egets; by rewrite (stack_index_0 _ _ _ c Hs)).
  rewrite (ebind_run _ _ m false m); [done|]. unfold egets. do 2 f_equal.
  destruct Hf as [-> | ->]; [|done]. rewrite (s_size _ _ _ Hs). cbn. by rewrite andb_false_r.
Qed.

Lemma popped_consistent own fl p g a m : consistent own (fl ++ [p]) m ->
  consistent (give own p Used) fl (popped (Z.of_nat (length fl)) g a m).
Proof.
  intros Hc. pose proof (k_stack _ _ _ Hc) as Hs. pose proof (k_tables _ _ _ Hc) as Ht.
  assert ((fl ++ [p]) !! length fl = Some p) as Hl by (by rewrite lookup_app_r, Nat.sub_diag by lia).
  destruct (s_entry _ _ _ Hs _ p Hl) as (_ & _ & Ho).
  pose proof (s_nodup _ _ _ Hs) as Hnd. apply NoDup_app in Hnd as (Hnd & Hnp & _).
  assert (forall q, own q <> Free -> give own p Used q = own q) as Hg by (intros q Hq; apply give_ne; congruence).
  split.
  - split; try apply Ht.
    + intros q Hq. apply (t_page own m Ht). revert Hq. unfold give. by destruct (q =? p).
    + intros s v Hv. cbn in Hv. pose proof (t_root own m Ht s v Hv) as Hr. rewrite Hg by congruence. exact Hr.
    + intros t s path i q Hq Hin Hch.
      assert (own t = Table s path) as Hq' by (revert Hq; unfold give; by destruct (t =? p)).
      pose proof (t_entry own m Ht t s path i q Hq' Hin Hch) as Hr. rewrite Hg by congruence. exact Hr.
    + destruct (t_kernel own m Ht) as (K & HK & HC). exists K. rewrite Hg by congruence. done.
  - destruct (s_max _ _ _ Hs) as (n & Hmax & Hn & Hlen & Hw). rewrite length_app in Hlen. cbn in Hlen.
    split; cbn [popped m_StackMax m_StackSize m_FreePages put_counts put_size memory].
    + intros i Hi. rewrite upd_ne by lia. by apply (s_above _ _ _ Hs).
    + by rewrite upd_eq.
    + done.
    + exists n. split_and!; [done|lia..|]. exact Hw.
    + intros k Hk Hp. pose proof (s_window _ _ _ Hs k Hk Hp) as Hr. change (view (popped _ _ _ _) _ _) with (view m 0 (window k)).
      rewrite Hg by congruence. exact Hr.
    + apply (s_small _ _ _ Hs).
    + intros i q Hi. assert ((fl ++ [p]) !! i = Some q) as Hi' by (by apply lookup_app_l_Some).
      destruct (s_entry _ _ _ Hs i q Hi') as (? & ? & Hq). split_and!; [done..|].
      rewrite give_ne; [done|]. intros ->. apply (Hnp p); [by eapply list_elem_of_lookup_2|by apply list_elem_of_singleton].
    + done.
    + intros q Hq. unfold give in Hq. destruct (Z.eqb_spec q p); [done|].
      apply (s_all _ _ _ Hs) in Hq. apply elem_of_app in Hq as [?|?%list_elem_of_singleton]; done.
  - pose proof (k_meta _ _ _ Hc) as Hm. split; [apply Hm|]. intros q r Hq. cbn in Hq.
    destruct (p_pin _ _ Hm q r Hq) as (? & Hu & ?). split_and!; [done| |lia..]. by rewrite Hg by congruence.
Qed.

(** ** Locks and flags on the side *)

Definition same_pages (m m' : Machine) : Prop :=
  memory m' = memory m /\ m_StackMax m' = m_StackMax m /\ m_StackSize m' = m_StackSize m /\ m_FreePages m' = m_FreePages m /\
  m_PageMetadata m' = m_PageMetadata m /\ spaces m' = spaces m /\ next_space m' = next_space m /\ processes m' = processes m.

Lemma consistent_same own fl m m' : consistent own fl m -> same_pages m m' -> consistent own fl m'.
Proof.
  destruct m, m'. unfold same_pages. cbn. intros [Ht Hs Hm] (-> & -> & -> & -> & -> & -> & -> & ->).
  split; [split; apply Ht|split; apply Hs|split; apply Hm].
Qed.

Lemma view_same m m' s va : memory m' = memory m -> spaces m' = spaces m ->
  view m' s va = view m s va /\ big_page m' s va = big_page m s va.
Proof. unfold view, big_page. by intros -> ->. Qed.

Lemma filter_lock (l : Lock) (ls : list Lock) : l ∉ ls -> filter (fun l' => l' <> l) (l :: ls) = ls.
Proof.
  intros Hl. rewrite filter_cons_False by (by intros []).
  induction ls as [|l1 ls IH]; [done|]. rewrite filter_cons_True by (intros ->; apply Hl; by left).
  f_equal. apply IH. intros ?. apply Hl. by right.
Qed.

Lemma guarded_run {A} l (f : Op A) m a m' : l ∉ locks m -> f (put_locks (l :: locks m) m) = Some (a, m') ->
  locks m' = l :: locks m -> guarded l f m = Some (a, put_locks (locks m) m').
Proof.
  intros Hl Hf Hm. unfold guarded, ebind, acquire. rewrite decide_False by done. rewrite Hf.
  unfold release, emodify, eret. by rewrite Hm, filter_lock.
Qed.

Lemma hoare_guarded {A} F l (f : Op A) m (Q : A -> Machine -> Prop) : l ∉ locks m ->
  hoare F f (fun a m' => locks m' = l :: locks m /\ Q a (put_locks (locks m) m')) (put_locks (l :: locks m) m) ->
  hoare F (guarded l f) Q m.
Proof.
  intros Hl. unfold hoare. destruct (f _) as [[a m']|] eqn:Hf.
  - intros [Hm HQ]. by rewrite (guarded_run l f m a m' Hl Hf Hm).
  - unfold guarded, ebind, acquire. rewrite decide_False by done. by rewrite Hf.
Qed.

Section Idle.
Context (handler_compact : Z -> Op bool).
(** The handlers have nothing to release. *)
Context (idle : forall h m, handler_compact h m = Some (false, m)).

Lemma compact_idle m : compact handler_compact m = Some (false, m).
Proof using idle.
  unfold compact. rewrite (ebind_run _ _ m (m_Handlers m) m) by done.
  assert (forall l, compact_list handler_compact l m = Some (false, m)) as Hl.
  { induction l as [|h l IH]; [done|]. cbn. unfold ebind. by rewrite idle. }
  induction (m_Handlers m) as [|l ls IH]; [done|]. cbn. unfold ebind. by rewrite Hl.
Qed.

(** The machine after the watermark was looked at. *)
Definition watermark (m : Machine) : Machine :=
  if bHandlingPressure m then m
  else if m_FreePages m <? getHighWatermark then put_pressure true false m
  else put_pressure false false m.

Lemma watermark_same m : same_pages m (watermark m) /\ locks (watermark m) = locks m /\ stack_full (watermark m) 0 = stack_full m 0 /\
  m_Initialised (watermark m) = m_Initialised m.
Proof using. unfold watermark. by destruct (bHandlingPressure m), (m_FreePages m <? getHighWatermark). Qed.

Lemma allocatePage_eq m : ManagerLock ∉ locks m ->
  allocatePage handler_compact m =
    match stack_allocate 0 (watermark (put_locks (ManagerLock :: locks m) m)) with
    | Some (p, m') => if p =? 0 then None else (release ManagerLock;; eret p) m'
    | None => None
    end.
Proof using idle.
  intros Hl. unfold allocatePage. unfold acquire at 1. unfold ebind at 1. rewrite decide_False by done.
  set (m0 := put_locks _ m). rewrite (ebind_run _ _ m0 (bHandlingPressure m0) m0) by done.
  rewrite (ebind_run _ _ m0 tt (watermark m0)).
  - unfold ebind at 1. destruct (stack_allocate 0 _) as [[p m']|]; [|done]. by destruct (p =? 0).
  - unfold watermark. destruct (bHandlingPressure m0) eqn:Hh; [done|]. cbn [negb ewhen].
    rewrite (ebind_run _ _ m0 (m_FreePages m0) m0) by done. destruct (m_FreePages m0 <? getHighWatermark).
    + unfold ebind, emodify. by rewrite compact_idle.
    + unfold ebind, egets. destruct (bDidHitWatermark m0) eqn:Hd; cbn; unfold emodify, eret.
      * by rewrite Hh.
      * do 2 f_equal. destruct m0. cbn in *. by subst.
Qed.

(** What [allocatePage] changes besides the stack. *)
Definition taken (n g a : Z) (m : Machine) : Machine :=
  put_locks (locks m) (popped n g a (watermark (put_locks (ManagerLock :: locks m) m))).

Lemma allocatePage_run own fl p m : consistent own (fl ++ [p]) m -> ManagerLock ∉ locks m -> stack_full m 0 = false ->
  exists g a, allocatePage handler_compact m = Some (p, taken (Z.of_nat (length fl)) g a m).
Proof using idle.
  intros Hc Hl Hf. rewrite allocatePage_eq by done. set (m0 := put_locks (ManagerLock :: locks m) m).
  destruct (watermark_same m0) as (Hw & Hlw & Hfw & _).
  assert (consistent own (fl ++ [p]) (watermark m0)) as Hc'.
  { apply (consistent_same _ _ m0); [|done]. apply (consistent_same _ _ m); done. }
  destruct (stack_allocate_run own fl p (watermark m0) 0 Hc') as (g & a & ->); [by rewrite Hfw|].
  assert (0 < p) as Hp.
  { assert ((fl ++ [p]) !! length fl = Some p) as Hl' by (by rewrite lookup_app_r, Nat.sub_diag by lia).
    destruct (s_entry _ _ _ (k_stack _ _ _ Hc) _ p Hl') as (_ & _ & Ho). apply (t_page own m (k_tables _ _ _ Hc)). by rewrite Ho. }
  destruct (Z.eqb_spec p 0); [lia|]. exists g, a. unfold ebind, release, emodify, eret, taken. fold m0.
  assert (locks (popped (Z.of_nat (length fl)) g a (watermark m0)) = ManagerLock :: locks m) as ->.
  { change (locks (popped _ _ _ ?x)) with (locks x). by rewrite Hlw. }
  by rewrite filter_lock.
Qed.

Lemma allocatePage_none own fl m : consistent own fl m -> ManagerLock ∉ locks m -> fl = [] \/ stack_full m 0 = true ->
  allocatePage handler_compact m = None.
Proof using idle.
  intros Hc Hl Hf. rewrite allocatePage_eq by done. set (m0 := put_locks (ManagerLock :: locks m) m).
  destruct (watermark_same m0) as (Hw & Hlw & Hfw & _).
  rewrite (stack_allocate_none own fl); [done| |by rewrite Hfw].
  apply (consistent_same _ _ m0); [|done]. by apply (consistent_same _ _ m).
Qed.

Lemma taken_consistent own fl p g a m : consistent own (fl ++ [p]) m ->
  consistent (give own p Used) fl (taken (Z.of_nat (length fl)) g a m).
Proof using.
  intros Hc. unfold taken. set (m0 := put_locks (ManagerLock :: locks m) m). destruct (watermark_same m0) as (Hw & _).
  apply (consistent_same _ _ (popped (Z.of_nat (length fl)) g a (watermark m0))); [|done].
  apply popped_consistent. apply (consistent_same _ _ m0); [|done]. by apply (consistent_same _ _ m).
Qed.

Lemma taken_fields n g a m : let m' := taken n g a m in
  memory m' = memory m /\ spaces m' = spaces m /\ next_space m' = next_space m /\ processes m' = processes m /\
  locks m' = locks m /\ m_Initialised m' = m_Initialised m /\ m_PageMetadata m' = m_PageMetadata m /\
  m_StackMax m' = m_StackMax m /\ m_StackSize m' 0 = 4 * n.
Proof using.
  cbn zeta. unfold taken. set (m0 := put_locks (ManagerLock :: locks m) m).
  destruct (watermark_same m0) as ((H1 & H2 & H3 & H4 & H5 & H6 & H7 & H8) & Hl & _ & Hi).
  cbn. rewrite H1, H2, H5, H6, H7, H8, Hi. by split_and!; rewrite ?upd_eq.
Qed.
End Idle.
