(* ===== verification/AddressSpace.v ===== *)
(** * Operations on the address spaces of the x64 processor

    [x64/VirtualAddressSpace.cc] and the common [VirtualAddressSpace.cc], on the machine of
    [Paging]. *)
From Stdlib Require Import ZArith Lia List Bool.
From stdpp Require Import base tactics list list_numbers gmap.
From S2P Require Import Prelude HashTable PageFlags Paging.
Import ListNotations.
Local Open Scope Z_scope.
Local Open Scope err_scope.

Section AddressSpace.
(** [MemoryPressureHandler::compact] of a handler: a virtual method. *)
Context (handler_compact : Z -> Op bool).

(** ** Mappings *)

(** An entry of the kernel's half is copied to the spaces of all processes. *)
Definition propagate (pml4Index entry : Z) : Op unit :=
  ps <- egets processes;;
  for_each ps (fun p => v <- space p;; store (TABLE_ENTRY (m_PhysicalPML4 v) pml4Index) entry).

Definition map_page (s : nat) (physAddress va flags : Z) : Op bool :=
  v <- space s;;
  let Flags := toFlags flags true in
  let pml4Index := PML4_INDEX va in
  let pml4Entry := TABLE_ENTRY (m_PhysicalPML4 v) pml4Index in
  e <- load pml4Entry;;
  let pdWasPresent := negb (has e PAGE_PRESENT) in
  b <- conditionalTableEntryAllocation handler_compact pml4Entry flags;;
  if negb b then eret false else
  initialised <- egets m_Initialised;;
  ewhen (negb pdWasPresent && (initialised =? 2) && (KERNEL_VIRTUAL_HEAP <=? va))
    (thisPml4Entry <- load pml4Entry;; propagate pml4Index thisPml4Entry);;
  e <- load pml4Entry;;
  let pageDirectoryPointerEntry := TABLE_ENTRY (PAGE_GET_PHYSICAL_ADDRESS e) (PAGE_DIRECTORY_POINTER_INDEX va) in
  b <- conditionalTableEntryAllocation handler_compact pageDirectoryPointerEntry flags;;
  if negb b then eret false else
  e <- load pageDirectoryPointerEntry;;
  let pageDirectoryEntry := TABLE_ENTRY (PAGE_GET_PHYSICAL_ADDRESS e) (PAGE_DIRECTORY_INDEX va) in
  b <- conditionalTableEntryAllocation handler_compact pageDirectoryEntry flags;;
  if negb b then eret false else
  e <- load pageDirectoryEntry;;
  let pageTableEntry := TABLE_ENTRY (PAGE_GET_PHYSICAL_ADDRESS e) (PAGE_TABLE_INDEX va) in
  e <- load pageTableEntry;;
  if has e PAGE_PRESENT then eret false
  else
    store pageTableEntry (Z.lor physAddress Flags);;
    invalidate va;;
    eret true.

Definition map (s : nat) (physAddress va flags : Z) : Op bool :=
  guarded (SpaceLock s) (map_page s physAddress va flags).

(** The entry of a mapping, a panic if there is none. *)
Definition mapping_entry (s : nat) (va : Z) : Op Z :=
  v <- space s;;
  fun m => match getPageTableEntry (memory m) (m_PhysicalPML4 v) va with Some e => Some (e, m) | None => None end.

(** The physical address and the flags. *)
Definition getMapping (s : nat) (va : Z) : Op (Z * Z) :=
  entry <- mapping_entry s va;;
  e <- load entry;;
  eret (PAGE_GET_PHYSICAL_ADDRESS e, fromFlags (PAGE_GET_FLAGS e) true).

Definition setFlags (s : nat) (va newFlags : Z) : Op unit :=
  guarded (SpaceLock s) (
    entry <- mapping_entry s va;;
    e <- load entry;;
    store entry (PAGE_SET_FLAGS e (toFlags newFlags true));;
    invalidate va).

Definition unmap (s : nat) (va : Z) : Op unit :=
  guarded (SpaceLock s) (
    entry <- mapping_entry s va;;
    store entry 0;;
    invalidate va).

(** ** Creation and destruction *)

(** [create]: a space of its own below, the kernel's entries above. *)
Definition create : Op nat :=
  page <- allocatePage handler_compact;;
  memset0 page 0x800;;
  k <- space 0;;
  emodify (fun m => put_memory (copy_words (page + 0x800) (m_PhysicalPML4 k + 0x800) 0x800 (memory m)) m);;
  n <- egets next_space;;
  emodify (fun m => put_spaces (<[n := mkSpace page USERSPACE_VIRTUAL_STACK [] USERSPACE_VIRTUAL_HEAP USERSPACE_VIRTUAL_HEAP]> (spaces m)) (S n) m);;
  eret n.

Definition destroy (s : nat) : Op unit :=
  v <- space s;;
  freePage handler_compact (m_PhysicalPML4 v);;
  emodify (fun m => put_spaces (delete s (spaces m)) (next_space m) m).

(** ** Clones *)

(** The address of a page from its indices: [((i & 0x100)?(~0ULL << 48):0ULL) | ...]. *)
Definition page_address (i j k l : Z) : Z :=
  Z.lor (Z.lor (Z.lor (Z.lor (if Z.land i 0x100 =? 0 then 0 else 0xFFFF000000000000) (Z.shiftl i 39)) (Z.shiftl j 30))
    (Z.shiftl k 21)) (Z.shiftl l 12).

(** A page of the space that is cloned. *)
Definition clone_page (c : nat) (ptEntry va : Z) : Op unit :=
  e <- load ptEntry;;
  ewhen (has e PAGE_PRESENT) (
    let flags := PAGE_GET_FLAGS e in
    let physicalAddress := PAGE_GET_PHYSICAL_ADDRESS e in
    if negb (Z.land flags PAGE_SHARED =? 0) then
      pin physicalAddress;;
      _ <- map c physicalAddress va (fromFlags flags true);;
      eret tt
    else
      let bWasCopyOnWrite := negb (Z.land flags PAGE_COPY_ON_WRITE =? 0) in
      let flags := if negb (Z.land flags PAGE_WRITE =? 0) then Z.lor flags PAGE_COPY_ON_WRITE else flags in
      let flags := Z.ldiff flags PAGE_WRITE in
      _ <- map c physicalAddress va (fromFlags flags true);;
      e <- load ptEntry;;
      store ptEntry (PAGE_SET_FLAGS e flags);;
      invalidate va;;
      ewhen (negb bWasCopyOnWrite) (pin physicalAddress);;
      pin physicalAddress).

(** A loop over the entries of a table that are present. *)
Definition for_entries (table : Z) (n : Z) (f : Z -> Z -> Z -> Op unit) : Op unit :=
  for_each (seqZ 0 n) (fun i =>
    e <- load (TABLE_ENTRY table i);;
    ewhen (has e PAGE_PRESENT) (f i (TABLE_ENTRY table i) (PAGE_GET_PHYSICAL_ADDRESS e))).

Definition clone_pages (c : nat) (pml4 : Z) : Op unit :=
  for_entries pml4 256 (fun i _ pdpt =>
    for_entries pdpt 512 (fun j _ pd =>
      for_entries pd 512 (fun k pdEntry pt =>
        e <- load pdEntry;;
        ewhen (negb (has e PAGE_2MB))
          (for_each (seqZ 0 512) (fun l => clone_page c (TABLE_ENTRY pt l) (page_address i j k l)))))).

Definition clone (s : nat) : Op nat :=
  guarded (SpaceLock s) (
    c <- create;;
    v <- space s;;
    clone_pages c (m_PhysicalPML4 v);;
    v <- space s;;
    ewhen (m_pStackTop v <? KERNEL_SPACE_START)
      (w <- space c;; put_space c (mkSpace (m_PhysicalPML4 w) (m_pStackTop v) (m_freeStacks w ++ m_freeStacks v) (m_Heap w) (m_HeapEnd w)));;
    ewhen (m_Heap v <? KERNEL_SPACE_START)
      (w <- space c;; put_space c (mkSpace (m_PhysicalPML4 w) (m_pStackTop w) (m_freeStacks w) (m_Heap v) (m_HeapEnd v)));;
    eret c).

(** A page of the space that loses its programs. *)
Definition revert_page (ptEntry va : Z) : Op unit :=
  e <- load ptEntry;;
  ewhen (has e PAGE_PRESENT) (
    ewhen (Z.land (PAGE_GET_FLAGS e) (Z.lor PAGE_SHARED PAGE_SWAPPED) =? 0) (freePage handler_compact (PAGE_GET_PHYSICAL_ADDRESS e));;
    store ptEntry 0;;
    invalidate va).

(** The table of an entry goes back to the free pages. *)
Definition remove_table (entry : Z) : Op unit :=
  e <- load entry;;
  freePage handler_compact (PAGE_GET_PHYSICAL_ADDRESS e);;
  store entry 0.

(** The body of the loop over a page directory: [true] ends the loop. *)
Definition revert_region (i j : Z) (pd k : Z) : Op bool :=
  let pdEntry := TABLE_ENTRY pd k in
  e <- load pdEntry;;
  if negb (has e PAGE_PRESENT) then eret false
  else
    let regionVirtualAddress := page_address i j k 0 in
    if regionVirtualAddress <? USERSPACE_VIRTUAL_START then eret false
    else if KERNEL_SPACE_START <? regionVirtualAddress then eret true
    else if has e PAGE_2MB then eret false
    else
      for_each (seqZ 0 512) (fun l =>
        revert_page (TABLE_ENTRY (PAGE_GET_PHYSICAL_ADDRESS e) l) (Z.lor regionVirtualAddress (Z.shiftl l 12)));;
      remove_table pdEntry;;
      eret false.

Definition revertToKernelAddressSpace (s : nat) : Op unit :=
  guarded (SpaceLock s) (
    v <- space s;;
    for_entries (m_PhysicalPML4 v) 256 (fun i pml4Entry pdpt =>
      for_entries pdpt 512 (fun j pdptEntry pd =>
        for_until (seqZ 0 512) (revert_region i j pd);;
        remove_table pdptEntry);;
      remove_table pml4Entry)).

(** ** Stacks *)

(** [-(sSize + pageSz)] below the top, or a stack that was freed. *)
Definition take_stack (s : nat) (sSize : Z) : Op Z :=
  guarded (SpaceLock s) (
    v <- space s;;
    match rev (m_freeStacks v) with
    | pStack :: rest =>
        put_space s (mkSpace (m_PhysicalPML4 v) (m_pStackTop v) (rev rest) (m_Heap v) (m_HeapEnd v));;
        eret pStack
    | [] =>
        put_space s (mkSpace (m_PhysicalPML4 v) (adjust_pointer (m_pStackTop v) (- (sSize + getPageSize)))
          (m_freeStacks v) (m_Heap v) (m_HeapEnd v));;
        eret (m_pStackTop v)
    end).

(** The addresses from [a] in steps of a page that are below [b]. *)
Definition pages_between (a b : Z) : list Z :=
  List.map (fun i => a + getPageSize * i) (seqZ 0 ((b - a + (getPageSize - 1)) / getPageSize)).

Definition doAllocateStack (s : nat) (sSize : Z) : Op Z :=
  let bMapAll := (s =? 0)%nat in
  let flags := if bMapAll then KernelMode else 0 in
  pStack <- take_stack s sSize;;
  let firstPage := wrap 64 (pStack - getPageSize) in
  phys <- allocatePage handler_compact;;
  ewhen (negb bMapAll) (pin phys);;
  _ <- map s phys firstPage (Z.lor flags Write);;
  let stackBottom := wrap 64 (pStack - sSize) in
  for_each (pages_between stackBottom firstPage) (fun addr =>
    if negb bMapAll then
      pin phys;;
      _ <- map s phys addr (Z.lor flags CopyOnWrite);;
      eret tt
    else
      phys <- allocatePage handler_compact;;
      _ <- map s phys addr (Z.lor flags Write);;
      eret tt);;
  eret pStack.

Definition allocateStack (s : nat) (stackSz : Z) : Op Z :=
  doAllocateStack s (if stackSz =? 0 then (if (s =? 0)%nat then KERNEL_STACK_SIZE else USERSPACE_VIRTUAL_STACK_SIZE) else stackSz).

(** The loop of [freeStack]; the fuel bounds the pages of a stack. *)
Fixpoint free_pages_below (fuel : nat) (s : nat) (stackTop : Z) : Op unit :=
  match fuel with
  | O => efail
  | S fuel =>
      let stackTop := wrap 64 (stackTop - getPageSize) in
      b <- isMapped s stackTop;;
      if negb b then eret tt
      else
        pf <- getMapping s stackTop;;
        unmap s stackTop;;
        freePage handler_compact (fst pf);;
        free_pages_below fuel s stackTop
  end.

Definition freeStack (fuel : nat) (s : nat) (pStack : Z) : Op unit :=
  free_pages_below fuel s pStack;;
  guarded (SpaceLock s) (
    v <- space s;;
    put_space s (mkSpace (m_PhysicalPML4 v) (m_pStackTop v) (m_freeStacks v ++ [pStack]) (m_Heap v) (m_HeapEnd v))).

(** ** The heap of a program *)

Definition put_heap_end (s : nat) (e : Z) : Op unit :=
  v <- space s;; put_space s (mkSpace (m_PhysicalPML4 v) (m_pStackTop v) (m_freeStacks v) (m_Heap v) e).

Fixpoint rollbackHeapExpansion (s : nat) (va : Z) (pageCount : nat) : Op unit :=
  match pageCount with
  | O => eret tt
  | S n =>
      pf <- getMapping s va;;
      freePage handler_compact (fst pf);;
      unmap s va;;
      rollbackHeapExpansion s (adjust_pointer va getPageSize) n
  end.

(** The loops of [expandHeap] over the pages; the number of passes is known before. *)
Fixpoint shrink_loop (s : nat) (n : nat) : Op unit :=
  match n with
  | O => eret tt
  | S n =>
      v <- space s;;
      let unmapAddr := m_HeapEnd v in
      b <- isMapped s unmapAddr;;
      ewhen b (pf <- getMapping s unmapAddr;; unmap s unmapAddr;; freePage handler_compact (fst pf));;
      put_heap_end s (adjust_pointer (m_HeapEnd v) (- getPageSize));;
      shrink_loop s n
  end.

(** [true] unless there was no page; [i] counts the pages so far. *)
Fixpoint grow_loop (s : nat) (flags : Z) (i n : nat) : Op bool :=
  match n with
  | O => eret true
  | S n =>
      page <- allocatePage handler_compact;;
      v <- space s;;
      if page =? 0 then
        let e := adjust_pointer (m_HeapEnd v) (- (Z.of_nat i * getPageSize)) in
        put_heap_end s e;;
        rollbackHeapExpansion s e i;;
        eret false
      else
        b <- map s page (m_HeapEnd v) flags;;
        (if negb b then freePage handler_compact page else memset0 page getPageSize);;
        put_heap_end s (adjust_pointer (m_HeapEnd v) getPageSize);;
        grow_loop s flags (S i) n
  end.

(** The old end, or 0. *)
Definition expandHeap (s : nat) (incr flags : Z) : Op Z :=
  v <- space s;;
  let Heap := m_HeapEnd v in
  let newHeapEnd := adjust_pointer Heap incr in
  let start := Heap - Heap mod getPageSize in
  put_heap_end s start;;
  if KERNEL_VIRTUAL_HEAP <=? newHeapEnd then efail
  else if USERSPACE_DYNAMIC_START <=? newHeapEnd then eret 0
  else if incr <? 0 then
    shrink_loop s (length (pages_between newHeapEnd start));;
    v <- space s;;
    put_heap_end s newHeapEnd;;
    eret (m_HeapEnd v)
  else
    b <- grow_loop s flags 0 (length (pages_between start newHeapEnd));;
    if negb b then eret 0
    else
      put_heap_end s newHeapEnd;;
      eret Heap.
End AddressSpace.
