(* ===== verification/PagingMap.v ===== *)
(** * Mapping pages

    [map], [getMapping], [setFlags], [unmap] and [isMapped] are operations on a function from
    pages to words: what a space shows at an address is changed there and nowhere else, and
    tables, the stack of free pages and the pinned pages stay consistent. *)
From Stdlib Require Import ZArith Lia List Bool.
From stdpp Require Import base tactics list gmap.
From S2P Require Import Prelude Hoare HashTable PageFlags Paging PagingWords PagingInv PageStack AddressSpace.
Import ListNotations.
Local Open Scope Z_scope.
Local Open Scope err_scope.

(** ** Tables are added *)

Record grows (own : owners) (m : Machine) (own' : owners) (m' : Machine) : Prop := {
  g_spaces : spaces m' = spaces m;
  g_next : next_space m' = next_space m;
  g_locks : locks m' = locks m;
  g_procs : processes m' = processes m;
  g_init : m_Initialised m' = m_Initialised m;
  g_meta : m_PageMetadata m' = m_PageMetadata m;
  g_view s va : valid_va va -> view m' s va = view m s va /\ big_page m' s va = big_page m s va;
  g_child t s path i q : own t = Table s path -> (length path < 3)%nat -> 0 <= i < 512 ->
    child (memory m) (length path) t i = Some q -> child (memory m') (length path) t i = Some q;
  g_same q : own q <> Free -> own' q = own q
}.

Lemma grows_refl own m : grows own m own m.
Proof. by split. Qed.

Lemma grows_trans own m own1 m1 own2 m2 : grows own m own1 m1 -> grows own1 m1 own2 m2 -> grows own m own2 m2.
Proof.
  intros H1 H2. split.
  - by rewrite (g_spaces _ _ _ _ H2), (g_spaces _ _ _ _ H1).
  - by rewrite (g_next _ _ _ _ H2), (g_next _ _ _ _ H1).
  - by rewrite (g_locks _ _ _ _ H2), (g_locks _ _ _ _ H1).
  - by rewrite (g_procs _ _ _ _ H2), (g_procs _ _ _ _ H1).
  - by rewrite (g_init _ _ _ _ H2), (g_init _ _ _ _ H1).
  - by rewrite (g_meta _ _ _ _ H2), (g_meta _ _ _ _ H1).
  - intros s va Hv. destruct (g_view _ _ _ _ H2 s va Hv) as [-> ->]. by apply (g_view _ _ _ _ H1).
  - intros t s path i q Ht Hl Hi Hc. apply (g_child _ _ _ _ H2 t s path i q); [|done..|by apply (g_child _ _ _ _ H1 t s path)].
    rewrite (g_same _ _ _ _ H1); congruence.
  - intros q Hq. assert (own1 q = own q) as E by (by apply (g_same _ _ _ _ H1)). rewrite <- E.
    apply (g_same _ _ _ _ H2). by rewrite E.
Qed.

(** [n] pages can be taken. *)
Definition stocked (n : nat) (fl : list Z) (m : Machine) : Prop := (n <= length fl)%nat /\ stack_full m 0 = false.

(** A change of memory that leaves the stack. *)
Lemma consistent_memory own fl m w' : consistent own fl m -> tables_ok own (put_memory w' m) -> same_windows m (put_memory w' m) ->
  (forall q k j, own q = Window k -> 0 <= j < 512 -> w' (TABLE_ENTRY q j) = memory m (TABLE_ENTRY q j)) ->
  consistent own fl (put_memory w' m).
Proof.
  intros Hc Ht Hw Hq. split; [done| |].
  - by apply (stack_frame own own fl m).
  - split; apply (k_meta _ _ _ Hc).
Qed.

Lemma windows_valid m m' : (forall s va, valid_va va -> view m' s va = view m s va /\ big_page m' s va = big_page m s va) ->
  same_windows m m'.
Proof. intros H k Hk. apply H. right. by apply window_valid. Qed.

(** Entries are written in tables. *)
Lemma window_word own fl m t s path i e q k j : consistent own fl m -> own t = Table s path -> own q = Window k ->
  0 <= i < 512 -> 0 <= j < 512 -> upd (memory m) (TABLE_ENTRY t i) e (TABLE_ENTRY q j) = memory m (TABLE_ENTRY q j).
Proof.
  intros Hc Ht Hq Hi Hj. pose proof (k_tables _ _ _ Hc) as Hm.
  rewrite upd_entry; [|by eapply owned_page|apply (t_page own m Hm); by rewrite Hq|done..].
  rewrite decide_False; [done|]. intros [-> _]. congruence.
Qed.

Section Idle.
Context (handler_compact : Z -> Op bool).
(** The handlers have nothing to release. *)
Context (idle : forall h m, handler_compact h m = Some (false, m)).

Lemma allow_user_run own fl m t s path i flags : consistent own fl m -> own t = Table s path -> (length path < 3)%nat ->
  0 <= i < 512 ->
  exists m', allow_user (TABLE_ENTRY t i) flags m = Some (tt, m') /\ consistent own fl m' /\ grows own m own m' /\
    stack_full m' 0 = stack_full m 0 /\
    has (memory m' (TABLE_ENTRY t i)) PAGE_PRESENT = has (memory m (TABLE_ENTRY t i)) PAGE_PRESENT.
Proof using.
  intros Hc Ht Hl Hi. unfold allow_user. rewrite (ebind_run _ _ m (memory m (TABLE_ENTRY t i)) m) by done.
  set (e := memory m (TABLE_ENTRY t i)). destruct (negb _ && negb _); cbn [ewhen].
  2:{ exists m. split_and!; [done..|apply grows_refl|done|done]. }
  eexists. split; [reflexivity|].
  destruct (same_user own m t s path i (k_tables _ _ _ Hc) Ht Hl Hi) as [Hsi Hsl]. fold e in Hsi, Hsl.
  destruct (tables_same own m _ (k_tables _ _ _ Hc) Hsi Hsl) as [Hm' Hv].
  split_and!; [| |done|].
  - apply consistent_memory; [done|done|by apply windows_valid|]. intros q k j Hq Hj. by apply (window_word own fl m t s path i _ q k).
  - split; try done. intros t' s' path' i' q Ht' Hl' Hi' Hch. cbn. rewrite <- Hch. by apply (Hsi t' s' path' i' Ht' Hl' Hi').
  - cbn. rewrite upd_eq. by rewrite or_has.
Qed.

(** A page that was handed out becomes a table. *)
Lemma link_consistent own fl m t s path i p F : consistent own fl m -> own t = Table s path -> inner s path i ->
  has (memory m (TABLE_ENTRY t i)) PAGE_PRESENT = false -> is_page p -> own p = Used -> contents (m_PageMetadata m) p = None ->
  is_flags F -> has F PAGE_PRESENT = true -> has F PAGE_2MB = false ->
  let m' := put_memory (clear_words p 4096 (upd (memory m) (TABLE_ENTRY t i) (Z.lor p F))) m in
  let own' := give own p (Table s (path ++ [i])) in
  consistent own' fl m' /\ has (memory m' (TABLE_ENTRY t i)) PAGE_PRESENT = true /\
  (forall s va, valid_va va -> view m' s va = view m s va /\ big_page m' s va = big_page m s va) /\
  (forall t' s' path' i' q, own t' = Table s' path' -> 0 <= i' < 512 ->
    child (memory m) (length path') t' i' = Some q -> child (memory m') (length path') t' i' = Some q).
Proof using.
  intros Hc Ht Hin Habs Hp Hu Hpin HF HFp HF2 m' own'. pose proof (k_tables _ _ _ Hc) as Hm.
  destruct (link_table own m Hm t s path i Ht Hin Habs p F Hp Hu HF HFp HF2) as [Hm' Hv]. fold m' own' in Hm', Hv.
  split_and!; [split; [done|..]| |done|].
  - apply (stack_frame own own' fl m); [done..|by apply windows_valid| | |].
    + intros q k j Hq Hj. cbn. assert (q mod 4096 = 0) as Hqm by (apply (t_page own m Hm); by rewrite Hq).
      rewrite clear_entry by (done || apply Hp). rewrite decide_False by congruence.
      by apply (window_word own fl m t s path i _ q k); [..|apply Hin|].
    + intros q k Hq. unfold own'. rewrite give_ne; [done|congruence].
    + intros q. unfold own', give. destruct (Z.eqb_spec q p) as [->|]; [by rewrite Hu|done].
  - pose proof (k_meta _ _ _ Hc) as Hme. split; [apply Hme|]. intros q r Hq. cbn in Hq.
    destruct (p_pin _ _ Hme q r Hq) as (? & Hqu & ?). split_and!; [done| |lia..]. unfold own'. rewrite give_ne; congruence.
  - cbn. rewrite (linked_word own m Hm t s path i Ht Hin p F Hp Hu t s path i Ht) by apply Hin.
    by rewrite decide_True, entry_has.
  - intros t' s' path' i' q Ht' Hi' Hch. cbn.
    rewrite (linked_child own m Hm t s path i Ht Hin p F Hp Hu HF HFp HF2 _ t' s' path' i' Ht' Hi').
    destruct (decide _) as [[-> ->]|]; [|done]. by rewrite (absent_child m t i Habs) in Hch.
Qed.

(** A page is taken for a table that is missing. *)
Lemma new_table_run own fl p m t s path i flags : consistent own (fl ++ [p]) m -> own t = Table s path -> inner s path i ->
  has (memory m (TABLE_ENTRY t i)) PAGE_PRESENT = false -> has flags Swapped = false -> ManagerLock ∉ locks m ->
  stack_full m 0 = false ->
  exists own' m', conditionalTableEntryAllocation handler_compact (TABLE_ENTRY t i) flags m = Some (true, m') /\
    consistent own' fl m' /\ grows own m own' m' /\ has (memory m' (TABLE_ENTRY t i)) PAGE_PRESENT = true /\
    stack_full m' 0 = false.
Proof using idle.
  intros Hc Ht Hin Habs Hsw Hlock Hf.
  destruct (allocatePage_run handler_compact idle own fl p m Hc Hlock Hf) as (g & a & Ha).
  set (n := Z.of_nat (length fl)) in *. set (m1 := taken n g a m) in *.
  destruct (taken_fields n g a m) as (E1 & E2 & E3 & E4 & E5 & E6 & E7 & E8 & E9). fold m1 in E1, E2, E3, E4, E5, E6, E7, E8, E9.
  pose proof (taken_consistent own fl p g a m Hc) as Hc1. fold n m1 in Hc1.
  destruct (last_free own fl p m Hc) as (Hp & _ & Ho). set (own1 := give own p Used) in *.
  assert (forall q, own q <> Free -> own1 q = own q) as Hsame1 by (intros q Hq; unfold own1; rewrite give_ne; congruence).
  assert (contents (m_PageMetadata m1) p = None) as Hpin.
  { rewrite E7. destruct (contents _ p) as [r|] eqn:Hr; [|done]. destruct (p_pin _ _ (k_meta _ _ _ Hc) p r Hr) as (_ & ? & _). congruence. }
  destruct (table_flags_of flags Hsw) as (HF & HFp & HF2).
  destruct (link_consistent own1 fl m1 t s path i p (table_flags (toFlags flags false)) Hc1) as (Hc2 & Hp2 & Hv2 & Hch2);
    [by rewrite Hsame1; congruence|done|by rewrite E1|done|apply give_eq|done..|].
  set (m2 := put_memory _ m1) in *. set (own2 := give own1 p _) in *. exists own2, m2. split_and!; [|done| |done|].
  - unfold conditionalTableEntryAllocation. rewrite (ebind_run _ _ m (memory m (TABLE_ENTRY t i)) m) by done.
    rewrite Habs. cbn [negb]. rewrite (ebind_run _ _ _ _ _ Ha). destruct (Z.eqb_spec p 0); [destruct Hp; lia|]. reflexivity.
  - split; try done.
    + intros s' va Hva. destruct (Hv2 s' va Hva) as [-> ->]. by apply view_same.
    + intros t' s' path' i' q Ht' Hl' Hi' Hch. apply (Hch2 t' s' path'); [by rewrite Hsame1; congruence|done|by rewrite E1].
    + intros q Hq. unfold own2. rewrite give_ne by congruence. by apply Hsame1.
  - change (stack_full m2 0) with (m_StackMax m1 0 =? m_StackSize m1 0). rewrite E8, E9.
    destruct (s_max _ _ _ (k_stack _ _ _ Hc)) as (k & -> & ? & Hx & _).
    rewrite length_app in Hx. cbn in Hx. apply Z.eqb_neq. lia.
Qed.

Lemma table_alloc F n own fl m t s path i flags : consistent own fl m -> own t = Table s path -> (length path < 3)%nat ->
  0 <= i < 512 -> (has (memory m (TABLE_ENTRY t i)) PAGE_PRESENT = false -> inner s path i) ->
  has flags Swapped = false -> ManagerLock ∉ locks m -> F \/ stocked (S n) fl m ->
  hoare F (conditionalTableEntryAllocation handler_compact (TABLE_ENTRY t i) flags) (fun b m' =>
    b = true /\ has (memory m' (TABLE_ENTRY t i)) PAGE_PRESENT = true /\
    exists own' fl', consistent own' fl' m' /\ grows own m own' m' /\ (F \/ stocked n fl' m')) m.
Proof using idle.
  intros Hc Ht Hl Hi Hin Hsw Hlock Hst. destruct (has (memory m (TABLE_ENTRY t i)) PAGE_PRESENT) eqn:Hp.
  - unfold conditionalTableEntryAllocation. apply hoare_bind, hoare_gets. rewrite Hp. cbn [negb].
    destruct (allow_user_run own fl m t s path i (toFlags flags false) Hc Ht Hl Hi) as (m' & Hr & Hc' & Hg & Hf & Hp').
    apply hoare_bind. unfold hoare at 1. rewrite Hr. apply hoare_ret. split; [done|]. split; [congruence|].
    exists own, fl. split_and!; [done..|]. destruct Hst as [?|[? ?]]; [by left|right]. split; [lia|congruence].
  - specialize (Hin eq_refl). destruct (decide (fl = [] \/ stack_full m 0 = true)) as [Hempty|Hne].
    { unfold conditionalTableEntryAllocation. apply hoare_bind, hoare_gets. rewrite Hp. cbn [negb]. apply hoare_bind.
      unfold hoare at 1. rewrite (allocatePage_none handler_compact idle own fl) by done.
      destruct Hst as [?|[Hlen Hfull]]; [done|]. destruct Hempty as [->|Hf]; [cbn in Hlen; lia|congruence]. }
    destruct (exists_last (l := fl)) as (fl1 & p & ->); [by intros ->; apply Hne; left|].
    destruct (new_table_run own fl1 p m t s path i flags) as (own' & m' & Hr & Hc' & Hg & Hp' & Hf'); [done..| |].
    { destruct (stack_full m 0); [by destruct Hne; right|done]. }
    unfold hoare. rewrite Hr. split_and!; [done..|]. exists own', fl1. split_and!; [done..|].
    destruct Hst as [?|[Hlen _]]; [by left|right]. rewrite length_app in Hlen. cbn in Hlen. split; [lia|done].
Qed.

(** ** The kernel's entry in all spaces *)

Lemma same_root own m s v K e : tables_ok own m -> spaces m !! s = Some v ->
  child (memory m) 0 (m_PhysicalPML4 v) 511 = Some K -> has e PAGE_PRESENT = true -> PAGE_GET_PHYSICAL_ADDRESS e = K ->
  let w' := upd (memory m) (TABLE_ENTRY (m_PhysicalPML4 v) 511) e in
  same_inner own (memory m) w' /\ same_leaves own (memory m) w'.
Proof using.
  intros Hm Hs Hk Hp Hpa w'. pose proof (t_root own m Hm s v Hs) as Hr. split.
  - intros t' s' path' i' Ht' Hl' Hi'. unfold big_entry. split.
    + destruct (decide (t' = m_PhysicalPML4 v /\ i' = 511)) as [[-> ->]|Hne].
      * rewrite Hr in Ht'. injection Ht' as <- <-. cbn [length]. rewrite Hk. unfold child, w'. rewrite upd_eq, Hp, Hpa. done.
      * unfold child, w'. rewrite upd_entry by (done || lia || by eapply owned_page). by rewrite decide_False.
    + intros H2. unfold w'. rewrite upd_entry by (done || lia || by eapply owned_page). rewrite decide_False; [done|].
      intros [-> _]. rewrite Hr in Ht'. injection Ht' as <- <-. done.
  - intros t' s' path' i' Ht' Hl' Hi'. unfold w'. rewrite upd_entry by (done || lia || by eapply owned_page).
    rewrite decide_False; [done|]. intros [-> _]. rewrite Hr in Ht'. by injection Ht' as <- <-.
Qed.

Lemma propagate_each own fl m ps K e : consistent own fl m -> (forall p, In p ps -> is_Some (spaces m !! p)) ->
  own K = Table 0 [511] -> (forall s v, spaces m !! s = Some v -> child (memory m) 0 (m_PhysicalPML4 v) 511 = Some K) ->
  has e PAGE_PRESENT = true -> PAGE_GET_PHYSICAL_ADDRESS e = K ->
  exists m', for_each ps (fun p => v <- space p;; store (TABLE_ENTRY (m_PhysicalPML4 v) 511) e) m = Some (tt, m') /\
    consistent own fl m' /\ grows own m own m' /\ stack_full m' 0 = stack_full m 0.
Proof using.
  intros Hc Hps HK HC He Hpa. revert m Hc Hps HC. induction ps as [|p ps IH]; intros m Hc Hps HC.
  { exists m. split_and!; [done..|apply grows_refl|done]. }
  destruct (Hps p) as [v Hv]; [by left|]. cbn [for_each].
  destruct (same_root own m p v K e (k_tables _ _ _ Hc) Hv (HC p v Hv) He Hpa) as [Hsi Hsl].
  set (w' := upd (memory m) (TABLE_ENTRY (m_PhysicalPML4 v) 511) e) in *.
  destruct (tables_same own m _ (k_tables _ _ _ Hc) Hsi Hsl) as [Hm' Hvw].
  rewrite (ebind_run _ _ m tt (put_memory w' m)).
  2:{ rewrite (ebind_run _ _ m v m); [done|]. unfold space. by rewrite Hv. }
  assert (consistent own fl (put_memory w' m)) as Hc'.
  { apply consistent_memory; [done|done|by apply windows_valid|]. intros q k j Hq Hj.
    apply (window_word own fl m (m_PhysicalPML4 v) p [] 511 e q k); [done|by apply (t_root own m (k_tables _ _ _ Hc))|done|lia|done]. }
  assert (grows own m own (put_memory w' m)) as Hg.
  { split; try done. intros t' s' path' i' q Ht' Hl' Hi' Hch. cbn. rewrite <- Hch. by apply (Hsi t' s' path' i' Ht' Hl' Hi'). }
  destruct (IH (put_memory w' m) Hc') as (m' & Hr & Hcm & Hgm & Hfm).
  - intros q Hq. apply Hps. by right.
  - intros s v' Hs. apply (g_child _ _ _ _ Hg (m_PhysicalPML4 v') s []); [by apply (t_root own m (k_tables _ _ _ Hc) s v')|cbn; lia|lia|by apply (HC s v')].
  - exists m'. split_and!; [done..|by eapply grows_trans|done].
Qed.

Lemma propagate_run own fl m s v : consistent own fl m -> spaces m !! s = Some v ->
  exists m', propagate 511 (memory m (TABLE_ENTRY (m_PhysicalPML4 v) 511)) m = Some (tt, m') /\
    consistent own fl m' /\ grows own m own m' /\ stack_full m' 0 = stack_full m 0.
Proof using.
  intros Hc Hs. pose proof (k_tables _ _ _ Hc) as Ht. destruct (t_kernel own m Ht) as (K & HK & HC).
  unfold propagate. rewrite (ebind_run _ _ m (processes m) m) by done.
  pose proof (HC s v Hs) as Hch. rewrite child_present in Hch by done. destruct (has _ PAGE_PRESENT) eqn:Hp; [|done]. injection Hch as Hpa.
  apply (propagate_each own fl m (processes m) K); try done. apply Ht.
Qed.

(** ** Mapping *)

Lemma hoare_space F s v m Q : spaces m !! s = Some v -> Q v m -> hoare F (space s) Q m.
Proof using. intros Hs HQ. unfold hoare, space. by rewrite Hs. Qed.

Lemma present_child w l t i : l <> 2%nat -> has (w (TABLE_ENTRY t i)) PAGE_PRESENT = true ->
  child w l t i = Some (PAGE_GET_PHYSICAL_ADDRESS (w (TABLE_ENTRY t i))).
Proof using. intros Hl Hp. by rewrite child_present, Hp. Qed.

Lemma child_page w l t i p : child w l t i = Some p -> PAGE_GET_PHYSICAL_ADDRESS (w (TABLE_ENTRY t i)) = p.
Proof using. unfold child. destruct (_ && _); [|done]. intros [= <-]. done. Qed.

(** *** Levels of a walk *)

Definition level_index (l : nat) (va : Z) : Z :=
  match l with O => PML4_INDEX va | 1%nat => PAGE_DIRECTORY_POINTER_INDEX va | _ => PAGE_DIRECTORY_INDEX va end.

(** The table that a walk has come to after [l] steps. *)
Fixpoint walk_to (w : mem) (pml4 va : Z) (l : nat) : option Z :=
  match l with O => Some pml4 | S l => t ← walk_to w pml4 va l; child w l t (level_index l va) end.

Lemma walk_to_3 w pml4 va : walk_to w pml4 va 3 = page_table w pml4 va.
Proof using. cbn. unfold page_table. destruct (child w 0 pml4 _) as [t1|]; [|done]. cbn. by destruct (child w 1 t1 _). Qed.

Lemma level_range l va : 0 <= level_index l va < 512.
Proof using. destruct l as [|[|l]]; cbn; auto with paging. Qed.

Lemma level_own own m s v va l t : tables_ok own m -> spaces m !! s = Some v -> valid_va va -> (l <= 3)%nat ->
  walk_to (memory m) (m_PhysicalPML4 v) va l = Some t ->
  own t = Table (match l with O => s | _ => root_of s va end) (take l (indices va)).
Proof using.
  intros Hm Hs Hva Hl Hw. destruct l as [|[|[|[|l]]]]; [..|lia]; cbn in Hw.
  - injection Hw as <-. by apply (t_root own m Hm).
  - by apply (walk_1 own m Hm s v).
  - destruct (child (memory m) 0 _ _) as [t1|] eqn:H1; [|done]. by apply (walk_2 own m Hm s v Hs va Hva t1).
  - destruct (child (memory m) 0 _ _) as [t1|] eqn:H1; [|done]. cbn in Hw. destruct (child (memory m) 1 _ _) as [t2|] eqn:H2; [|done].
    by apply (walk_3 own m Hm s v Hs va Hva t1 t2).
Qed.

Lemma take_indices l va : (l <= 3)%nat -> length (take l (indices va)) = l.
Proof using. intros Hl. rewrite length_take. cbn. lia. Qed.

Lemma level_grows own m own' m' s v va l t : tables_ok own m -> spaces m !! s = Some v -> valid_va va -> (l <= 3)%nat ->
  grows own m own' m' -> walk_to (memory m) (m_PhysicalPML4 v) va l = Some t ->
  walk_to (memory m') (m_PhysicalPML4 v) va l = Some t.
Proof using.
  intros Hm Hs Hva Hl Hg. revert t. induction l as [|l IH]; intros t; [done|]. cbn.
  destruct (walk_to (memory m) _ va l) as [t0|] eqn:Hw; [|done]. rewrite (IH ltac:(lia) t0 eq_refl). cbn.
  pose proof (level_own own m s v va l t0 Hm Hs Hva ltac:(lia) Hw) as Ho. intros Hc.
  pose proof (take_indices l va ltac:(lia)) as Hlen. rewrite <- Hlen in Hc at 1. rewrite <- Hlen at 1.
  by apply (g_child _ _ _ _ Hg t0 _ _ _ _ Ho); [lia|apply level_range|].
Qed.

(** An entry that is missing on the way is one of a table that may get it. *)
Lemma level_inner own m s v va l t : tables_ok own m -> spaces m !! s = Some v -> valid_va va -> (l < 3)%nat ->
  walk_to (memory m) (m_PhysicalPML4 v) va l = Some t ->
  has (memory m (TABLE_ENTRY t (level_index l va))) PAGE_PRESENT = false ->
  inner (match l with O => s | _ => root_of s va end) (take l (indices va)) (level_index l va).
Proof using.
  intros Hm Hs Hva Hl Hw Ha. split; [apply level_range|]. split; [rewrite take_indices; lia|].
  destruct l as [|l]; [|by rewrite <- length_zero_iff_nil, take_indices by lia]. intros _. cbn in *. injection Hw as <-.
  destruct Hva as [Hu|Hk]; [left; by apply user_index|].
  destruct (t_kernel own m Hm) as (K & _ & HC). specialize (HC s v Hs).
  rewrite (kernel_index va Hk) in Ha. by rewrite child_present, Ha in HC by done.
Qed.

Lemma level_next w pml4 va l t : walk_to w pml4 va l = Some t -> has (w (TABLE_ENTRY t (level_index l va))) PAGE_PRESENT = true ->
  (l = 2%nat -> walk_big w pml4 va = false) ->
  walk_to w pml4 va (S l) = Some (PAGE_GET_PHYSICAL_ADDRESS (w (TABLE_ENTRY t (level_index l va)))).
Proof using.
  intros Hw Hp Hb. cbn. rewrite Hw. cbn. unfold child. rewrite Hp. destruct (Nat.eqb_spec l 2) as [->|]; [|done].
  specialize (Hb eq_refl). unfold walk_big in Hb. change (level_index 2 va) with (PAGE_DIRECTORY_INDEX va) in *. cbn in Hw.
  destruct (child w 0 pml4 _) as [t1|]; [|done]. cbn in Hw, Hb. rewrite Hw, Hp in Hb. cbn in Hb. by rewrite Hb.
Qed.

(** The table for the next level is there, or made. *)
Lemma alloc_level F n own fl m s v va l t flags : consistent own fl m -> spaces m !! s = Some v -> valid_va va -> (l < 3)%nat ->
  big_page m s va = false -> has flags Swapped = false -> ManagerLock ∉ locks m -> F \/ stocked (S n) fl m ->
  walk_to (memory m) (m_PhysicalPML4 v) va l = Some t ->
  forall (k : Op bool) Q,
  (forall own' fl' m', consistent own' fl' m' -> grows own m own' m' -> F \/ stocked n fl' m' ->
     walk_to (memory m') (m_PhysicalPML4 v) va (S l) =
       Some (PAGE_GET_PHYSICAL_ADDRESS (memory m' (TABLE_ENTRY t (level_index l va)))) -> hoare F k Q m') ->
  hoare F (b <- conditionalTableEntryAllocation handler_compact (TABLE_ENTRY t (level_index l va)) flags;;
           if negb b then eret false else k) Q m.
Proof using idle.
  intros Hc Hs Hva Hl Hbig Hsw Hlock Hst Hw k Q Hk. pose proof (k_tables _ _ _ Hc) as Hm.
  pose proof (level_own own m s v va l t Hm Hs Hva ltac:(lia) Hw) as Ho. apply hoare_bind.
  eapply hoare_mono.
  { apply (table_alloc F n own fl m t _ _ (level_index l va) flags Hc Ho); [rewrite take_indices; lia|apply level_range| |done..].
    by eapply level_inner. }
  intros b m' (-> & Hp & own' & fl' & Hc' & Hg & Hst'). apply (Hk own' fl'); [done..|].
  apply level_next; [by eapply level_grows; eauto; lia|done|]. intros _.
  destruct (g_view _ _ _ _ Hg s va Hva) as [_ Hb]. rewrite Hbig in Hb. unfold big_page in Hb.
  by rewrite (g_spaces _ _ _ _ Hg), Hs in Hb.
Qed.

Definition in_window (va : Z) : Prop := KERNEL_VIRTUAL_PAGESTACK_4GB <= va < KERNEL_VIRTUAL_ADDRESS.

(** A mapping outside the window does not touch the stack of pages. *)
Lemma leaf_consistent own fl m s v va t e : consistent own fl m -> spaces m !! s = Some v -> valid_va va -> ~ in_window va ->
  page_table (memory m) (m_PhysicalPML4 v) va = Some t ->
  consistent own fl (put_memory (upd (memory m) (TABLE_ENTRY t (PAGE_TABLE_INDEX va)) e) m).
Proof using.
  intros Hc Hs Hva Hnw Ht. pose proof (k_tables _ _ _ Hc) as Hm.
  destruct (leaf_write own m s v va t e Hm Hs Hva Ht) as (Hm' & Hv & _).
  apply consistent_memory; [done|exact Hm'| |].
  - intros k Hk. assert (kernel_va (window k)) as Hw by (by apply window_valid).
    destruct (Hv 0%nat (window k) (t_space own m Hm)) as [-> ->]; [by right|]. rewrite decide_False; [done|].
    intros [_ Hd]. apply Hnw. unfold in_window, window, KERNEL_VIRTUAL_PAGESTACK_4GB, KERNEL_VIRTUAL_ADDRESS in *.
    clear - Hk Hd. zlia.
  - intros q k j Hq Hj. pose proof (page_table_own own m Hm s v Hs va Hva t Ht) as Ho.
    apply (window_word own fl m t _ _ _ e q k j Hc Ho Hq); [apply pt_range|done].
Qed.

(** The tables that are there stay. *)
Definition children_kept (own : owners) (m m' : Machine) : Prop :=
  forall t s path i q, own t = Table s path -> (length path < 3)%nat -> 0 <= i < 512 ->
    child (memory m) (length path) t i = Some q -> child (memory m') (length path) t i = Some q.

Lemma same_inner_kept own m m' : same_inner own (memory m) (memory m') -> children_kept own m m'.
Proof using. intros Hs t s path i q Ht Hl Hi Hc. rewrite <- Hc. by apply (Hs t s path i Ht Hl Hi). Qed.

(** The space [s] shows [e] at [va] now, and the rest is as it was. *)
Record shows (own : owners) (m : Machine) (s : nat) (va e : Z) (own' : owners) (m' : Machine) : Prop := {
  w_spaces : spaces m' = spaces m;
  w_next : next_space m' = next_space m;
  w_locks : locks m' = locks m;
  w_procs : processes m' = processes m;
  w_meta : m_PageMetadata m' = m_PageMetadata m;
  w_own q : own q <> Free -> own' q = own q;
  w_kept : children_kept own m m';
  w_view s' va' : is_Some (spaces m !! s') -> valid_va va' ->
    view m' s' va' = (if decide (same_slot s va s' va') then e else view m s' va') /\ big_page m' s' va' = big_page m s' va'
}.

Lemma same_slot_refl s va : same_slot s va s va. Proof using. done. Qed.

Lemma view_slot own m s va s' va' : tables_ok own m -> is_Some (spaces m !! s) -> is_Some (spaces m !! s') -> valid_va va -> valid_va va' ->
  same_slot s va s' va' -> view m s' va' = view m s va.
Proof using.
  intros Hm [v Hs] [v' Hs'] Hva Hva' Hsl. unfold view, walk_word. rewrite Hs, Hs'.
  destruct (page_table (memory m) (m_PhysicalPML4 v) va) as [t|] eqn:Ht.
  - by destruct (same_table own m s v va t s' v' va') as [-> ->].
  - destruct (page_table (memory m) (m_PhysicalPML4 v') va') as [t|] eqn:Ht'; [|done].
    assert (same_slot s' va' s va) as Hsl' by (by destruct Hsl).
    destruct (same_table own m s' v' va' t s v va) as [E _]; [done..|]. congruence.
Qed.

Lemma grows_shows own fl m own' m' s va : consistent own fl m -> grows own m own' m' -> is_Some (spaces m !! s) -> valid_va va ->
  shows own m s va (view m s va) own' m'.
Proof using.
  intros Hc Hg Hs Hva. split; try apply Hg; [exact (g_child _ _ _ _ Hg)|]. intros s' va' Hs' Hva'. destruct (g_view _ _ _ _ Hg s' va' Hva') as [-> ->].
  split; [|done]. destruct (decide _); [|done]. by apply (view_slot own m s va s' va' (k_tables _ _ _ Hc)).
Qed.

(** The entry of a page below the tables that lead to it. *)
Lemma leaf_run F own fl m own' fl' m' s v physAddress va flags : consistent own fl m -> spaces m !! s = Some v -> valid_va va ->
  ~ in_window va -> consistent own' fl' m' -> grows own m own' m' ->
  forall t, walk_to (memory m') (m_PhysicalPML4 v) va 3 = Some t ->
  hoare F (e <- load (TABLE_ENTRY t (PAGE_TABLE_INDEX va));;
           if has e PAGE_PRESENT then eret false
           else store (TABLE_ENTRY t (PAGE_TABLE_INDEX va)) (Z.lor physAddress (toFlags flags true));; invalidate va;; eret true)
    (fun b m2 => b = negb (has (view m s va) PAGE_PRESENT) /\
      exists own' fl', consistent own' fl' m2 /\
        shows own m s va (if b then Z.lor physAddress (toFlags flags true) else view m s va) own' m2) m'.
Proof using.
  intros Hc Hs Hva Hnw Hc' Hg t Ht. rewrite walk_to_3 in Ht.
  assert (spaces m' !! s = Some v) as Hs' by (by rewrite (g_spaces _ _ _ _ Hg)).
  assert (view m' s va = memory m' (TABLE_ENTRY t (PAGE_TABLE_INDEX va))) as Hw.
  { unfold view, walk_word. by rewrite Hs', Ht. }
  destruct (g_view _ _ _ _ Hg s va Hva) as [Hvw _]. apply hoare_bind, hoare_gets. rewrite <- Hw, Hvw.
  destruct (has (view m s va) PAGE_PRESENT) eqn:Hpre; cbn [negb].
  - apply hoare_ret. split; [done|]. exists own', fl'. split; [done|]. by apply (grows_shows own fl m).
  - apply hoare_bind, hoare_modify, hoare_bind, hoare_modify, hoare_ret. split; [done|]. exists own', fl'.
    pose proof (leaf_consistent own' fl' m' s v va t (Z.lor physAddress (toFlags flags true)) Hc' Hs' Hva Hnw Ht) as Hc2.
    destruct (leaf_write own' m' s v va t (Z.lor physAddress (toFlags flags true)) (k_tables _ _ _ Hc') Hs' Hva Ht) as (_ & Hv2 & Hi2).
    split; [by apply (consistent_same _ _ _ _ Hc2)|].
    split; try apply Hg.
    { intros t1 s1 path1 i1 q1 Ht1 Hl1 Hi1 Hch. apply (same_inner_kept own' m' _ Hi2 t1 s1 path1 i1 q1); [|done..|].
      - rewrite (g_same _ _ _ _ Hg); congruence.
      - by apply (g_child _ _ _ _ Hg t1 s1 path1). }
    intros s1 va1 Hs1 Hva1. destruct (Hv2 s1 va1) as [H1 H2]; [by rewrite (g_spaces _ _ _ _ Hg)|done|].
    destruct (g_view _ _ _ _ Hg s1 va1 Hva1) as [H3 H4]. rewrite H3 in H1. rewrite H4 in H2. split; [exact H1|exact H2].
Qed.

Lemma propagate_when F own fl m s v va (c : Machine -> bool) : consistent own fl m -> spaces m !! s = Some v -> valid_va va ->
  (c m = true -> KERNEL_VIRTUAL_HEAP <= va) ->
  hoare F (ewhen (c m) (e <- load (TABLE_ENTRY (m_PhysicalPML4 v) (PML4_INDEX va));; propagate (PML4_INDEX va) e))
    (fun _ m' => consistent own fl m' /\ grows own m own m' /\ stack_full m' 0 = stack_full m 0) m.
Proof using.
  intros Hc Hs Hva Hcond. apply hoare_when; [|intros _; split_and!; [done|apply grows_refl|done]].
  intros Ht%Hcond. apply hoare_bind, hoare_gets. assert (PML4_INDEX va = 511) as ->.
  { apply kernel_index. destruct Hva as [Hu|]; [|done]. unfold user_va, KERNEL_VIRTUAL_HEAP in *. lia. }
  destruct (propagate_run own fl m s v Hc Hs) as (m' & Hpr & H). unfold hoare. by rewrite Hpr.
Qed.

Lemma map_page_run F own fl m s v physAddress va flags : consistent own fl m -> spaces m !! s = Some v -> valid_va va ->
  ~ in_window va -> big_page m s va = false -> has flags Swapped = false -> ManagerLock ∉ locks m -> F \/ stocked 3 fl m ->
  hoare F (map_page handler_compact s physAddress va flags) (fun b m' =>
    b = negb (has (view m s va) PAGE_PRESENT) /\
    exists own' fl', consistent own' fl' m' /\
      shows own m s va (if b then Z.lor physAddress (toFlags flags true) else view m s va) own' m') m.
Proof using idle.
  intros Hc Hs Hva Hnw Hbig Hsw Hlock Hst. unfold map_page.
  apply hoare_bind, (hoare_space _ _ v); [done|]. apply hoare_bind, hoare_gets.
  apply (alloc_level F 2 own fl m s v va 0 _ flags Hc Hs Hva); [lia|done..|].
  intros own1 fl1 m1 Hc1 Hg1 Hst1 Hw1. apply hoare_bind, hoare_gets.
  assert (spaces m1 !! s = Some v) as Hs1 by (by rewrite (g_spaces _ _ _ _ Hg1)).
  apply hoare_bind. eapply hoare_mono.
  { apply (propagate_when F own1 fl1 m1 s v va (fun m1 => _ && (m_Initialised m1 =? 2) && (KERNEL_VIRTUAL_HEAP <=? va))); [done..|].
    intros [_ H%Z.leb_le]%andb_prop. done. }
  intros [] m2 (Hc2 & Hg2 & Hf2). apply hoare_bind, hoare_gets.
  pose proof (grows_trans _ _ _ _ _ _ Hg1 Hg2) as Hg12.
  pose proof (level_grows own1 m1 own1 m2 s v va 1 _ (k_tables _ _ _ Hc1) Hs1 Hva ltac:(lia) Hg2 Hw1) as Hw2.
  pose proof (child_page _ 0 _ _ _ Hw2) as Ht1. cbn [level_index] in Ht1. rewrite Ht1.
  apply (alloc_level F 1 own1 fl1 m2 s v va 1); [done| |done|lia| |done| | |done|].
  { by rewrite (g_spaces _ _ _ _ Hg12). }
  { by rewrite (proj2 (g_view _ _ _ _ Hg12 s va Hva)). }
  { by rewrite (g_locks _ _ _ _ Hg12). }
  { destruct Hst1 as [?|[? ?]]; [by left|right]; split; [done|congruence]. }
  intros own3 fl3 m3 Hc3 Hg3 Hst3 Hw3. apply hoare_bind, hoare_gets.
  pose proof (grows_trans _ _ _ _ _ _ Hg12 Hg3) as Hg13.
  apply (alloc_level F 0 own3 fl3 m3 s v va 2); [done| |done|lia| |done| |done..|].
  { by rewrite (g_spaces _ _ _ _ Hg13). }
  { by rewrite (proj2 (g_view _ _ _ _ Hg13 s va Hva)). }
  { by rewrite (g_locks _ _ _ _ Hg13). }
  intros own4 fl4 m4 Hc4 Hg4 Hst4 Hw4. apply hoare_bind, hoare_gets.
  apply (leaf_run F own fl m own4 fl4 m4 s v); [done..|by eapply grows_trans|exact Hw4].
Qed.

(** ** The other operations *)

Lemma put_locks_same m : put_locks (locks m) m = m.
Proof using. by destruct m. Qed.

Lemma locked_consistent own fl m ls : consistent own fl m -> consistent own fl (put_locks ls m).
Proof using. intros Hc. by apply (consistent_same _ _ m). Qed.

Lemma isMapped_run m s v va : spaces m !! s = Some v -> SpaceLock s ∉ locks m -> big_page m s va = false ->
  isMapped s va m = Some (has (view m s va) PAGE_PRESENT, m).
Proof using.
  intros Hs Hl Hb. unfold big_page in Hb. rewrite Hs in Hb. unfold isMapped.
  rewrite (guarded_run _ _ m (has (view m s va) PAGE_PRESENT) (put_locks (SpaceLock s :: locks m) m)); [|done| |done].
  - change (put_locks (locks m) (put_locks _ m)) with (put_locks (locks m) m). by rewrite put_locks_same.
  - rewrite (ebind_run _ _ _ v (put_locks (SpaceLock s :: locks m) m)) by (unfold space; cbn; by rewrite Hs).
    unfold egets. cbn. rewrite walk_mapped_word by done. unfold view. by rewrite Hs.
Qed.

Lemma mapping_entry_run own m s v va : tables_ok own m -> spaces m !! s = Some v ->
  mapping_entry s va m =
    if known (view m s va) then
      t ← page_table (memory m) (m_PhysicalPML4 v) va; Some (TABLE_ENTRY t (PAGE_TABLE_INDEX va), m)
    else None.
Proof using.
  intros Hm Hs. unfold mapping_entry, view. rewrite Hs. rewrite (ebind_run _ _ m v m) by (unfold space; by rewrite Hs).
  rewrite getPageTableEntry_walk. unfold walk_word. destruct (page_table (memory m) _ va) as [t|]; [|done]. cbn.
  by destruct (known _).
Qed.

(** An entry that is known, and a write to it. *)
Lemma known_table m s v va : spaces m !! s = Some v -> known (view m s va) = true ->
  exists t, page_table (memory m) (m_PhysicalPML4 v) va = Some t /\ memory m (TABLE_ENTRY t (PAGE_TABLE_INDEX va)) = view m s va.
Proof using.
  intros Hs. unfold view, walk_word. rewrite Hs. destruct (page_table _ _ va) as [t|]; [|done]. by exists t.
Qed.

Lemma entry_write own fl m s v va t e : consistent own fl m -> spaces m !! s = Some v -> valid_va va -> ~ in_window va ->
  page_table (memory m) (m_PhysicalPML4 v) va = Some t ->
  let m' := put_flushed (va :: flushed m) (put_memory (upd (memory m) (TABLE_ENTRY t (PAGE_TABLE_INDEX va)) e) m) in
  consistent own fl m' /\ shows own m s va e own m' /\ flushed m' = va :: flushed m.
Proof using.
  intros Hc Hs Hva Hnw Ht m'. split; [|split; [|done]].
  - pose proof (leaf_consistent own fl m s v va t e Hc Hs Hva Hnw Ht) as Hc'. by apply (consistent_same _ _ _ _ Hc').
  - destruct (leaf_write own m s v va t e (k_tables _ _ _ Hc) Hs Hva Ht) as (_ & Hv2 & Hi2).
    split; try done. by apply (same_inner_kept own m _ Hi2).
Qed.

Lemma getMapping_run own fl m s v va : consistent own fl m -> spaces m !! s = Some v ->
  getMapping s va m = if known (view m s va) then
      Some ((PAGE_GET_PHYSICAL_ADDRESS (view m s va), fromFlags (PAGE_GET_FLAGS (view m s va)) true), m) else None.
Proof using.
  intros Hc Hs. unfold getMapping. unfold ebind at 1. rewrite (mapping_entry_run own m s v va) by (done || apply Hc).
  destruct (known (view m s va)) eqn:Hk; [|done].
  destruct (known_table m s v va Hs Hk) as (t & -> & <-). reflexivity.
Qed.

(** [setFlags] and [unmap] have this form. *)
Lemma change_entry_run own fl m s v va (g : Z -> Z) (f : Op unit) : consistent own fl m -> spaces m !! s = Some v -> valid_va va ->
  ~ in_window va -> SpaceLock s ∉ locks m ->
  (forall m', f m' = (entry <- mapping_entry s va;; e <- load entry;; store entry (g e);; invalidate va) m') ->
  if known (view m s va) then
    exists m', guarded (SpaceLock s) f m = Some (tt, m') /\ consistent own fl m' /\ shows own m s va (g (view m s va)) own m' /\
      flushed m' = va :: flushed m
  else guarded (SpaceLock s) f m = None.
Proof using.
  intros Hc Hs Hva Hnw Hl Hf. set (m0 := put_locks (SpaceLock s :: locks m) m).
  assert (f m0 = if known (view m s va) then
    t ← page_table (memory m) (m_PhysicalPML4 v) va;
    Some (tt, put_flushed (va :: flushed m0) (put_memory (upd (memory m0) (TABLE_ENTRY t (PAGE_TABLE_INDEX va)) (g (view m s va))) m0))
    else None) as E.
  { rewrite Hf. unfold ebind at 1. rewrite (mapping_entry_run own m0 s v va); [|apply (locked_consistent _ _ m _ Hc)|done].
    change (view m0 s va) with (view m s va). destruct (known (view m s va)) eqn:Hk; [|done].
    destruct (known_table m s v va Hs Hk) as (t & E1 & E2). change (memory m0) with (memory m). rewrite E1. cbn [mbind option_bind].
    rewrite <- E2. reflexivity. }
  destruct (known (view m s va)) eqn:Hk.
  - destruct (known_table m s v va Hs Hk) as (t & E1 & E2). rewrite E1 in E. cbn [mbind option_bind] in E.
    destruct (entry_write own fl m s v va t (g (view m s va)) Hc Hs Hva Hnw E1) as (H1 & H2 & H3).
    eexists. split; [by apply (guarded_run _ _ _ _ _ Hl E)|]. split; [by apply (consistent_same _ _ _ _ H1)|]. by split.
  - unfold guarded, ebind at 1, acquire. rewrite decide_False by done. unfold ebind at 1. fold m0. by rewrite E.
Qed.

Lemma map_run F own fl m s v physAddress va flags : consistent own fl m -> spaces m !! s = Some v -> valid_va va ->
  ~ in_window va -> big_page m s va = false -> has flags Swapped = false -> SpaceLock s ∉ locks m -> ManagerLock ∉ locks m ->
  F \/ stocked 3 fl m ->
  hoare F (map handler_compact s physAddress va flags) (fun b m' =>
    b = negb (has (view m s va) PAGE_PRESENT) /\
    exists own' fl', consistent own' fl' m' /\
      shows own m s va (if b then Z.lor physAddress (toFlags flags true) else view m s va) own' m') m.
Proof using idle.
  intros Hc Hs Hva Hnw Hbig Hsw Hl Hlock Hst. unfold map. apply hoare_guarded; [done|].
  set (m0 := put_locks (SpaceLock s :: locks m) m).
  eapply hoare_mono.
  { apply (map_page_run F own fl m0 s v physAddress va flags); [by apply locked_consistent|done..| |done].
    cbn. intros [?|?]%elem_of_cons; done. }
  intros b m' (Hb & own' & fl' & Hc' & Hsh). split; [by rewrite (w_locks _ _ _ _ _ _ _ Hsh)|].
  split; [exact Hb|]. exists own', fl'. split; [by apply locked_consistent|]. split; try apply Hsh. done.
Qed.
End Idle.

(** ** The claim *)

