(* ===== verification/PageFree.v ===== *)
(** * Pages that are freed and pinned

    [PageStack::free], [freePage] and [pin]: a page that is freed goes on the stack, or becomes
    a table or a page of the stack itself; a page that is pinned stays. *)
From Stdlib Require Import ZArith Lia List Bool.
From stdpp Require Import base tactics list gmap.
From S2P Require Import Prelude Hoare HashTable PageFlags Paging PagingWords PagingInv PageStack AddressSpace PagingMap.
Import ListNotations.
Local Open Scope Z_scope.
Local Open Scope err_scope.

(** ** Owners that change beside the tables *)

Lemma tables_relabel own own' m : tables_ok own m -> (forall q, own' q <> Used -> is_page q) ->
  (forall q s path, own q = Table s path <-> own' q = Table s path) -> tables_ok own' m.
Proof.
  intros Ht Hp He. split; try apply Ht; [done|..].
  - intros s v Hs. by apply He, (t_root own m Ht).
  - intros t s path i p Hq%He Hin Hc. by apply He, (t_entry own m Ht t s path i p).
  - destruct (t_kernel own m Ht) as (K & HK & HC). exists K. split; [by apply He|done].
Qed.

Lemma give_table own p o q s path : own p = Used -> (forall s path, o <> Table s path) ->
  own q = Table s path <-> give own p o q = Table s path.
Proof.
  intros Hp Ho. unfold give. destruct (Z.eqb_spec q p) as [->|]; [|done]. split; [congruence|]. intros E. by destruct (Ho s path).
Qed.

Lemma give_page own m p o : tables_ok own m -> is_page p -> forall q, give own p o q <> Used -> is_page q.
Proof.
  intros Ht Hp q. unfold give. destruct (Z.eqb_spec q p) as [->|]; [done|]. apply (t_page own m Ht).
Qed.

(** A word of a page of the stack is none of a table. *)
Lemma same_window own m q k j x : tables_ok own m -> own q = Window k -> 0 <= j < 512 ->
  same_inner own (memory m) (upd (memory m) (TABLE_ENTRY q j) x) /\ same_leaves own (memory m) (upd (memory m) (TABLE_ENTRY q j) x).
Proof.
  intros Hm Hq Hj. assert (q mod 4096 = 0) as Hqm by (apply (t_page own m Hm); by rewrite Hq).
  assert (forall t s path i, own t = Table s path -> 0 <= i < 512 ->
    upd (memory m) (TABLE_ENTRY q j) x (TABLE_ENTRY t i) = memory m (TABLE_ENTRY t i)) as E.
  { intros t s path i Ht Hi. rewrite upd_entry by (done || by eapply owned_page). rewrite decide_False; [done|]. intros [-> _]. congruence. }
  split; intros t s path i Ht Hl Hi; unfold child, big_entry; by rewrite (E t s path i Ht Hi).
Qed.

(** What freeing a page leaves as it is. *)
Record freed (own : owners) (p : Z) (m : Machine) (own' : owners) (m' : Machine) : Prop := {
  f_spaces : spaces m' = spaces m;
  f_next : next_space m' = next_space m;
  f_locks : locks m' = locks m;
  f_procs : processes m' = processes m;
  f_meta : m_PageMetadata m' = m_PageMetadata m;
  f_max : m_StackMax m 0 <= m_StackMax m' 0 <= m_StackMax m 0 + 4096;
  f_view s va : is_Some (spaces m !! s) -> valid_va va -> ~ in_window va -> view m' s va = view m s va /\ big_page m' s va = big_page m s va;
  f_own q : q <> p -> own' q = own q
}.

Lemma meta_give own p o m m' : meta_ok own m -> m_PageMetadata m' = m_PageMetadata m -> contents (m_PageMetadata m) p = None ->
  meta_ok (give own p o) m'.
Proof.
  intros Hm He Hp. split; rewrite He; [apply Hm|]. intros q r Hq. destruct (p_pin own m Hm q r Hq) as (? & ? & ?).
  split_and!; [done| |lia..]. rewrite give_ne; [done|]. congruence.
Qed.

(** ** Room on the stack *)

Section Push.
Context (own : owners) (fl : list Z) (m : Machine) (Hc : consistent own fl m).
Context (p : Z) (Hp : is_page p) (Hlow : p < 2 ^ 32) (Hused : own p = Used) (Hfree : contents (m_PageMetadata m) p = None).
Context (Hroom : stack_full m 0 = false).

Local Notation i := (Z.of_nat (length fl)).

Lemma push_room : 0 <= i < 1024 * 768 /\ (exists n, m_StackMax m 0 = 4096 * n /\ 0 <= n <= 768 /\ 0 <= i < 1024 * n /\
  forall k, 0 <= k < n -> has (view m 0 (window k)) PAGE_PRESENT = true).
Proof using Hc Hroom.
  pose proof (k_stack _ _ _ Hc) as Hs. destruct (s_max _ _ _ Hs) as (n & Hm & Hn & Hl & Hw).
  unfold stack_full in Hroom. apply Z.eqb_neq in Hroom. rewrite Hm, (s_size _ _ _ Hs) in Hroom.
  split; [lia|]. exists n. split_and!; [done|lia..|done].
Qed.

Lemma push_present : has (view m 0 (window (i / 1024))) PAGE_PRESENT = true.
Proof using Hc Hroom.
  destruct push_room as (_ & n & _ & Hn & Hi & Hw). apply Hw.
  split; [apply Z.div_pos; lia|apply Z.div_lt_upper_bound; lia].
Qed.

Definition pushed (f g a : Z) : Machine :=
  put_counts f g a (put_size 0 (4 * (i + 1)) (put_memory (store32 (memory m) (stack_at m i) p) m)).

Lemma push_run : exists g a, push_page 0 p m = Some (tt, pushed (i + 1) g a).
Proof using Hc Hroom.
  pose proof (k_stack _ _ _ Hc) as Hs. destruct push_room as (_ & n & _ & Hn & Hi & Hw).
  unfold push_page. rewrite (ebind_run _ _ m (4 * i) m) by (unfold egets; by rewrite (s_size _ _ _ Hs)).
  rewrite Z.eqb_refl. set (m1 := put_memory (store32 (memory m) (stack_at m i) p) m).
  rewrite (ebind_run _ _ m tt (put_size 0 (4 * (i + 1)) m1)).
  2:{ rewrite (ebind_run _ _ m tt m1).
      - unfold emodify. do 3 f_equal. lia.
      - replace (4 * i / 4) with i by zlia. unfold store_stack32.
        rewrite (ebind_run _ _ m (stack_at m i) m); [done|].
        apply (stack_word_run m n); [apply (t_space _ _ (k_tables _ _ _ Hc))|done|done|done]. }
  unfold emodify. unfold pushed. fold m1. change (m_FreePages (put_size 0 (4 * (i + 1)) m1)) with (m_FreePages m).
  rewrite (s_count _ _ _ Hs). by eexists _, _.
Qed.

Lemma pushed_consistent f g a : f = i + 1 ->
  consistent (give own p Free) (fl ++ [p]) (pushed f g a) /\ freed own p m (give own p Free) (pushed f g a).
Proof using Hc Hp Hlow Hused Hfree Hroom.
  intros ->. destruct push_room as (Hir & n & Hm & Hn & Hi & Hw). pose proof (k_stack _ _ _ Hc) as Hs. pose proof (k_tables _ _ _ Hc) as Ht.
  destruct (stack_at_page own fl m i Hc Hir push_present) as (Hown & Hpage & Hq & Hword & Hj).
  set (q := PAGE_GET_PHYSICAL_ADDRESS _) in *. set (j := i mod 1024 / 2) in *.
  assert (exists x, store32 (memory m) (stack_at m i) p = upd (memory m) (TABLE_ENTRY q j) x) as [x Hx].
  { unfold store32. rewrite Hword. by eexists. }
  destruct (same_window own m q _ j x Ht Hown Hj) as [Hsi Hsl].
  destruct (tables_same own m _ Ht Hsi Hsl) as [Ht' Hv].
  assert (forall k, view (pushed (i + 1) g a) 0 (window k) = view (put_memory (upd (memory m) (TABLE_ENTRY q j) x) m) 0 (window k)) as Hvw.
  { intros k. unfold view, pushed. cbn. by rewrite Hx. }
  assert (same_windows m (pushed (i + 1) g a)) as Hsw.
  { intros k Hk. destruct (Hv 0%nat (window k)) as [E1 E2]; [right; by apply window_valid|]. unfold view, big_page in *. cbn in *. by rewrite Hx. }
  split; [split|].
  - apply (tables_relabel own); [|by eapply give_page|intros; by apply give_table].
    split; try apply Ht.
    + cbn. rewrite Hx. apply (t_entry _ _ Ht').
    + cbn. rewrite Hx. apply (t_kernel _ _ Ht').
  - split; cbn [pushed m_StackMax m_StackSize m_FreePages put_counts put_size put_memory].
    + intros k Hk. rewrite upd_ne by lia. by apply (s_above _ _ _ Hs).
    + rewrite upd_eq, length_app. cbn. lia.
    + rewrite length_app. cbn. lia.
    + exists n. rewrite length_app. cbn [length]. split_and!; [done|lia..|]. intros k Hk. rewrite (proj1 (Hsw k ltac:(lia))). by apply Hw.
    + intros k Hk. rewrite (proj1 (Hsw k Hk)). intros Hpr. pose proof (s_window _ _ _ Hs k Hk Hpr) as E. rewrite give_ne; [done|congruence].
    + intros k Hk. rewrite (proj2 (Hsw k Hk)). by apply (s_small _ _ _ Hs).
    + intros k r Hk.
      assert (0 <= Z.of_nat k < 1024 * 768) as Hkr.
      { apply lookup_lt_Some in Hk. rewrite length_app in Hk. cbn in Hk. lia. }
      change (memory (put_counts _ _ _ _)) with (store32 (memory m) (stack_at m i) p).
      change (stack_at (put_counts _ _ _ _) ?z) with (stack_at (pushed (i + 1) g a) z).
      rewrite (same_stack_at m (pushed (i + 1) g a)) by done.
      apply lookup_app_Some in Hk as [Hk|[Hk1 Hk2]].
      * destruct (s_entry _ _ _ Hs k r Hk) as (He & Hr & Ho). split_and!; [|done|rewrite give_ne; congruence].
        rewrite <- He. destruct (stack_bound own fl m k r Hs Hk) as [Hr1 Hr2].
        destruct (stack_at_page own fl m _ Hc Hr1 Hr2) as (Ho' & Hp' & Hq' & _ & _).
        apply load_store32_ne; [done..|]. intros E.
        assert (k < length fl)%nat as Hkl by by eapply lookup_lt_Some.
        assert (i / 1024 = Z.of_nat k / 1024) as Ed.
        { assert (q = PAGE_GET_PHYSICAL_ADDRESS (view m 0 (window (Z.of_nat k / 1024)))) as Eq.
          { unfold stack_at in E. fold q in E. destruct Hp' as [Hp' _]. destruct Hpage as [Hpage _].
            revert E Hp' Hpage. generalize (PAGE_GET_PHYSICAL_ADDRESS (view m 0 (window (Z.of_nat k / 1024)))). clear. intros z E H1 H2. zlia. }
          rewrite Eq, Ho' in Hown. by injection Hown. }
        unfold stack_at in E. rewrite Ed in E. zlia.
      * apply list_lookup_singleton_Some in Hk2 as [Hk2 <-]. assert (k = length fl) as -> by lia.
        split_and!; [|done|apply give_eq]. apply load_store32; [done|]. destruct Hp. lia.
    + apply NoDup_app. split; [apply Hs|]. split; [|apply NoDup_singleton]. intros r Hr ->%list_elem_of_singleton.
      apply list_elem_of_lookup_1 in Hr as [k Hk]. destruct (s_entry _ _ _ Hs k p Hk) as (_ & _ & E). congruence.
    + intros r Hr. apply elem_of_app. unfold give in Hr. destruct (Z.eqb_spec r p) as [Erp|]; [right; rewrite Erp; by apply list_elem_of_singleton|].
      left. by apply (s_all _ _ _ Hs).
  - by apply (meta_give own p Free m); [apply (k_meta _ _ _ Hc)|..].
  - split; try done; [cbn; lia| |intros r Hr; by apply give_ne].
    intros s va _ Hva _. destruct (Hv s va Hva) as [E1 E2]. unfold view, big_page in *. cbn in *. by rewrite Hx.
Qed.
End Push.

(** ** A page for the stack itself *)

Definition stack_flags : Z := Z.lor KernelMode Write.
Definition stack_table_flags : Z := table_flags (toFlags (toFlags stack_flags false) true).

Lemma mapping_present p m a : has (memory m a) PAGE_PRESENT = true ->
  conditionalTableEntryMapping a p (toFlags stack_flags false) m = Some (false, m).
Proof.
  intros Hp. unfold conditionalTableEntryMapping. rewrite (ebind_run _ _ m (memory m a) m) by done. rewrite Hp. cbn [negb].
  unfold allow_user. rewrite (ebind_run _ _ m tt m); [done|]. rewrite (ebind_run _ _ m (memory m a) m) by done.
  change (Z.land (toFlags (toFlags stack_flags false) true) PAGE_USER) with 0. by rewrite andb_false_r.
Qed.

Lemma mapping_absent p m a : has (memory m a) PAGE_PRESENT = false ->
  conditionalTableEntryMapping a p (toFlags stack_flags false) m =
    Some (true, put_memory (clear_words p 4096 (upd (memory m) a (Z.lor p stack_table_flags))) m).
Proof.
  intros Hp. unfold conditionalTableEntryMapping. rewrite (ebind_run _ _ m (memory m a) m) by done. by rewrite Hp.
Qed.

Section Grow.
Context (own : owners) (fl : list Z) (m : Machine) (Hc : consistent own fl m).
Context (p : Z) (Hp : is_page p) (Hused : own p = Used) (Hfree : contents (m_PageMetadata m) p = None).
Context (v : X64VirtualAddressSpace) (Hv : spaces m !! 0%nat = Some v) (k : Z) (Hk : 0 <= k < 768).

Local Notation pml4 := (m_PhysicalPML4 v).
Local Notation walk := (walk_to (memory m) pml4 (window k)).

Lemma window_va : valid_va (window k).
Proof using Hk. right. by apply window_valid. Qed.

(** A table of the walk to the window that is missing. *)
Lemma grow_table l t : (l < 3)%nat -> walk l = Some t ->
  has (memory m (TABLE_ENTRY t (level_index l (window k)))) PAGE_PRESENT = false ->
  exists m', conditionalTableEntryMapping (TABLE_ENTRY t (level_index l (window k))) p (toFlags stack_flags false) m = Some (true, m') /\
    exists o, o <> Used /\ o <> Free /\ consistent (give own p o) fl m' /\ freed own p m (give own p o) m'.
Proof using Hc Hp Hused Hfree Hv Hk.
  intros Hl Hw Ha. pose proof (k_tables _ _ _ Hc) as Ht. eexists. split; [by apply mapping_absent|].
  pose proof (level_own own m 0 v (window k) l t Ht Hv window_va ltac:(lia) Hw) as Ho.
  pose proof (level_inner own m 0 v (window k) l t Ht Hv window_va Hl Hw Ha) as Hin.
  destruct (link_consistent own fl m t _ _ _ p stack_table_flags Hc Ho Hin Ha Hp Hused Hfree) as (H1 & _ & H3 & _); [done..|].
  eexists. split; [|split; [|split; [exact H1|]]]; [done|done|]. split; try done; [cbn; lia| |intros q Hq; by apply give_ne].
  intros s va _ Hva _. by apply H3.
Qed.

(** The page of the window itself. *)
Lemma grow_page t : walk 3 = Some t -> has (memory m (TABLE_ENTRY t (PAGE_TABLE_INDEX (window k)))) PAGE_PRESENT = false ->
  let m' := put_memory (upd (memory m) (TABLE_ENTRY t (PAGE_TABLE_INDEX (window k))) (Z.lor p stack_flags)) m in
  consistent (give own p (Window k)) fl m' /\ freed own p m (give own p (Window k)) m'.
Proof using Hc Hp Hused Hfree Hv Hk.
  intros Hw Ha m'. rewrite walk_to_3 in Hw. pose proof (k_tables _ _ _ Hc) as Ht. pose proof (k_stack _ _ _ Hc) as Hs.
  destruct (leaf_write own m 0 v (window k) t (Z.lor p stack_flags) Ht Hv window_va Hw) as (Ht' & Hvw & _). fold m' in Ht', Hvw.
  assert (forall q, 0 <= q < 768 -> view m' 0 (window q) = (if decide (q = k) then Z.lor p stack_flags else view m 0 (window q)) /\
    big_page m' 0 (window q) = big_page m 0 (window q)) as Hwin.
  { intros q Hq. destruct (Hvw 0%nat (window q) (t_space own m Ht)) as [-> ->]; [right; by apply window_valid|]. split; [|done].
    destruct (decide (q = k)) as [->|Hne]; [by rewrite decide_True|]. rewrite decide_False; [done|]. intros [_ E].
    apply Hne. revert E. unfold window, KERNEL_VIRTUAL_PAGESTACK_4GB. clear. intros. zlia. }
  assert (view m 0 (window k) = memory m (TABLE_ENTRY t (PAGE_TABLE_INDEX (window k)))) as Hvk.
  { unfold view, walk_word. by rewrite Hv, Hw. }
  assert (forall q, q <> k -> own (PAGE_GET_PHYSICAL_ADDRESS (view m 0 (window q))) = Window q -> True) as _ by done.
  assert (forall q j, own q = Window j -> q <> p) as Hqp by congruence.
  assert (forall i r, fl !! i = Some r -> Z.of_nat i / 1024 <> k) as Hik.
  { intros i r Hi E. destruct (stack_bound own fl m i r Hs Hi) as [_ Hpr]. rewrite E, Hvk in Hpr. congruence. }
  split; [split|].
  - apply (tables_relabel own); [done|by eapply give_page|intros; by apply give_table].
  - destruct (s_max _ _ _ Hs) as (n & Hm & Hn & Hl & Hpr). split; try apply Hs.
    + exists n. split_and!; [done|lia..|]. intros q Hq. rewrite (proj1 (Hwin q ltac:(lia))).
      destruct (decide (q = k)); [by rewrite entry_has|]. by apply Hpr.
    + intros q Hq. rewrite (proj1 (Hwin q Hq)). destruct (decide (q = k)) as [->|Hne].
      * intros _. by rewrite entry_page, give_eq.
      * intros Hqpr. pose proof (s_window _ _ _ Hs q Hq Hqpr) as E. rewrite give_ne; [done|congruence].
    + intros q Hq. rewrite (proj2 (Hwin q Hq)). by apply (s_small _ _ _ Hs).
    + intros i r Hi. destruct (s_entry _ _ _ Hs i r Hi) as (He & Hr & Ho). destruct (stack_bound own fl m i r Hs Hi) as [Hb Hbp].
      split_and!; [|done|rewrite give_ne; congruence]. rewrite <- He.
      assert (stack_at m' (Z.of_nat i) = stack_at m (Z.of_nat i)) as ->.
      { unfold stack_at. 
        rewrite (proj1 (Hwin (Z.of_nat i / 1024) ltac:(split; [apply Z.div_pos; lia|apply Z.div_lt_upper_bound; lia]))).
        rewrite decide_False; [done|]. by apply (Hik i r). }
      apply load32_ext. destruct (stack_at_page own fl m _ Hc Hb Hbp) as (HW & _ & _ & -> & Hj). cbn.
      pose proof (page_table_own own m Ht 0 v Hv (window k) window_va t Hw) as Hot.
      refine (window_word own fl m t _ _ _ _ _ _ _ Hc Hot HW _ Hj). apply pt_range.
    + intros r Hr. unfold give in Hr. destruct (Z.eqb_spec r p); [done|]. by apply (s_all _ _ _ Hs).
  - by apply (meta_give own p _ m); [apply (k_meta _ _ _ Hc)|..].
  - split; try done; [cbn; lia| |intros q Hq; by apply give_ne]. intros s va Hsp Hva Hnw.
    destruct (Hvw s va Hsp Hva) as [-> ->]. rewrite decide_False; [done|]. intros [_ E]. apply Hnw.
    unfold in_window, window, KERNEL_VIRTUAL_PAGESTACK_4GB, KERNEL_VIRTUAL_ADDRESS in *. clear - E Hk. zlia.
Qed.

(** One of the three tables, or the page, or it is there already. *)
Definition grown (b : bool) (m' : Machine) : Prop :=
  if b then exists o, o <> Used /\ o <> Free /\ consistent (give own p o) fl m' /\ freed own p m (give own p o) m'
  else m' = m /\ has (view m 0 (window k)) PAGE_PRESENT = true.

Lemma grow_step l t (f : Op bool) : (l < 3)%nat -> walk l = Some t ->
  (forall t', walk (S l) = Some t' -> PAGE_GET_PHYSICAL_ADDRESS (memory m (TABLE_ENTRY t (level_index l (window k)))) = t' ->
    hoare False f grown m) ->
  hoare False (b <- conditionalTableEntryMapping (TABLE_ENTRY t (level_index l (window k))) p (toFlags stack_flags false);;
         if (b : bool) then eret true else f) grown m.
Proof using Hc Hp Hused Hfree Hv Hk.
  intros Hl Hw Hf. destruct (has (memory m (TABLE_ENTRY t (level_index l (window k)))) PAGE_PRESENT) eqn:Ha.
  - unfold hoare, ebind. rewrite mapping_present by done. eapply Hf; [|done].
    apply level_next; [done..|]. intros _. pose proof (s_small _ _ _ (k_stack _ _ _ Hc) k Hk) as E.
    unfold big_page in E. by rewrite Hv in E.
  - destruct (grow_table l t Hl Hw Ha) as (m' & Hr & Hx). unfold hoare, ebind. rewrite Hr. exact Hx.
Qed.
End Grow.

(** [mapPageStructures] at the end of the stack. *)
Lemma stack_grow_run own fl m p k : consistent own fl m -> is_page p -> own p = Used -> contents (m_PageMetadata m) p = None ->
  0 <= k < 768 -> SpaceLock 0 ∉ locks m ->
  hoare False (mapPageStructures 0 p (window k) stack_flags) (grown own fl m p k) m.
Proof.
  intros Hc Hp Hu Hf Hk Hl. destruct (t_space own m (k_tables _ _ _ Hc)) as [v Hv]. unfold mapPageStructures.
  apply hoare_guarded; [done|]. set (m0 := put_locks (SpaceLock 0 :: locks m) m).
  assert (consistent own fl m0) as Hc0 by by apply locked_consistent.
  apply (hoare_mono _ _ (grown own fl m0 p k)).
  2:{ intros b m' Hg. destruct b; cbn in Hg.
      - destruct Hg as (o & Ho1 & Ho2 & Hc' & Hfr). split; [by rewrite (f_locks _ _ _ _ _ Hfr)|].
        exists o. split; [done|]. split; [done|]. split; [by apply locked_consistent|]. split; try apply Hfr. done.
      - destruct Hg as [-> Hpr]. split; [done|]. split; [by destruct m|done]. }
  apply hoare_bind, (hoare_space _ _ v); [done|]. cbv zeta.
  apply (grow_step own fl m0 Hc0 p Hp Hu Hf v Hv k Hk 0); [lia|done|]. intros t1 Hw1 Ht1. apply hoare_bind, hoare_gets.
  cbn [level_index] in Ht1. rewrite Ht1.
  apply (grow_step own fl m0 Hc0 p Hp Hu Hf v Hv k Hk 1); [lia|done|]. intros t2 Hw2 Ht2. apply hoare_bind, hoare_gets.
  cbn [level_index] in Ht2. rewrite Ht2.
  apply (grow_step own fl m0 Hc0 p Hp Hu Hf v Hv k Hk 2); [lia|done|]. intros t3 Hw3 Ht3. apply hoare_bind, hoare_gets.
  cbn [level_index] in Ht3. rewrite Ht3. apply hoare_bind, hoare_gets.
  destruct (has (memory m0 (TABLE_ENTRY t3 (PAGE_TABLE_INDEX (window k)))) PAGE_PRESENT) eqn:Ha; cbn [negb].
  - apply hoare_ret. split; [done|]. change (memory m0) with (memory m) in *. change (view m0) with (view m).
    unfold view, walk_word. rewrite Hv. rewrite walk_to_3 in Hw3. by rewrite Hw3.
  - apply hoare_bind, hoare_modify, hoare_ret.
    destruct (grow_page own fl m0 Hc0 p Hp Hu Hf v Hv k Hk t3 Hw3 Ha) as [H1 H2]. exists (Window k). by split_and!.
Qed.

(** ** [PageStack::free] *)

(** Where a page that is freed goes: into the stack's own tables and pages, or on the stack. *)
Definition returned (own : owners) (fl : list Z) (p : Z) (m m' : Machine) : Prop :=
  exists o fl', o <> Used /\ (if decide (o = Free) then fl' = fl ++ [p] else fl' = fl) /\
    consistent (give own p o) fl' m' /\ freed own p m (give own p o) m'.

(** The window has room for another page. *)
Definition has_room (m : Machine) : Prop := stack_full m 0 = false \/ m_StackMax m 0 < 4096 * window_pages.

Lemma push_returned own fl m p : consistent own fl m -> is_page p -> p < 2 ^ 32 -> own p = Used ->
  contents (m_PageMetadata m) p = None -> stack_full m 0 = false ->
  hoare False (push_page 0 p) (fun _ m' => returned own fl p m m' /\ m_StackMax m' = m_StackMax m) m.
Proof.
  intros Hc Hp Hlow Hu Hpin Hroom. destruct (push_run own fl m Hc p Hroom) as (g & a & Hr). unfold hoare. rewrite Hr.
  destruct (pushed_consistent own fl m Hc p Hp Hlow Hu Hpin Hroom _ g a eq_refl) as [H1 H2].
  split; [|done]. exists Free, (fl ++ [p]). by rewrite decide_True.
Qed.

Lemma put_max_consistent own fl m k : consistent own fl m -> m_StackMax m 0 = 4096 * k -> stack_full m 0 = true ->
  0 <= k < 768 -> has (view m 0 (window k)) PAGE_PRESENT = true ->
  consistent own fl (put_max 0 (4096 * k + 4096) m) /\ stack_full (put_max 0 (4096 * k + 4096) m) 0 = false.
Proof.
  intros Hc Hm Hf Hk Hpr. pose proof (k_stack _ _ _ Hc) as Hs. unfold stack_full in Hf. apply Z.eqb_eq in Hf.
  rewrite Hm, (s_size _ _ _ Hs) in Hf. split.
  - split; [split; apply (k_tables _ _ _ Hc)| |split; apply (k_meta _ _ _ Hc)].
    split; cbn [put_max m_StackMax m_StackSize m_FreePages memory]; try apply Hs.
    + intros i Hi. rewrite upd_ne by lia. by apply (s_above _ _ _ Hs).
    + exists (k + 1). rewrite upd_eq. split_and!; [lia..|]. intros j Hj.
      change (view (put_max _ _ m)) with (view m). destruct (Z.eq_dec j k) as [->|Hjk]; [done|].
      destruct (s_max _ _ _ Hs) as (n' & Hn & ? & ? & Hw). apply Hw. lia.
  - change ((4096 * k + 4096 =? m_StackSize m 0) = false). rewrite (s_size _ _ _ Hs). apply Z.eqb_neq. lia.
Qed.

Lemma low_index p : p < 2 ^ 32 -> (if p <? 0x100000000 then 0 else if p <? 0x1000000000 then 1 else 2) = 0.
Proof. intros. by rewrite (proj2 (Z.ltb_lt _ _)) by lia. Qed.

Section Free.
Context (handler_compact : Z -> Op bool).

Lemma stack_free_run own fl m p : consistent own fl m -> is_page p -> p < 2 ^ 32 -> own p = Used ->
  contents (m_PageMetadata m) p = None -> SpaceLock 0 ∉ locks m -> has_room m ->
  hoare False (stack_free handler_compact p) (fun _ m' => returned own fl p m m') m.
Proof using.
  intros Hc Hp Hlow Hu Hpin Hl Hroom. unfold stack_free. rewrite low_index by done.
  apply hoare_bind, hoare_gets. destruct (stack_full m 0) eqn:Hf.
  2:{ eapply hoare_mono; [by apply push_returned|]. by intros _ m' [? _]. }
  destruct (s_max _ _ _ (k_stack _ _ _ Hc)) as (k & Hm & Hk & _ & _).
  assert (0 <= k < 768) as Hk'. { destruct Hroom as [?|Hx]; [congruence|]. rewrite window_pages_768 in Hx. lia. }
  apply hoare_bind, hoare_gets. rewrite Hm.
  assert (adjust_pointer (m_Stack 0) (4096 * k) = window k) as ->.
  { unfold adjust_pointer, window. change (m_Stack 0) with KERNEL_VIRTUAL_PAGESTACK_4GB. apply wrap_small.
    unfold in_word, KERNEL_VIRTUAL_PAGESTACK_4GB. lia. }
  apply hoare_bind. rewrite Z.eqb_refl. eapply hoare_mono; [by apply (stack_grow_run own fl m p k)|].
  intros b m1 Hg. destruct b; cbn in Hg.
  - apply hoare_ret. destruct Hg as (o & Ho1 & Ho2 & Hc' & Hfr). exists o, fl. by rewrite decide_False.
  - destruct Hg as [-> Hpr]. apply hoare_bind, hoare_modify.
    destruct (put_max_consistent own fl m k Hc Hm Hf Hk' Hpr) as [Hc1 Hf1].
    eapply hoare_mono; [by apply (push_returned own fl _ p Hc1)|].
    intros _ m' [(o & fl' & Ho & Hfl & Hc' & Hfr) Hmax]. exists o, fl'. split_and!; [done..|].
    split; try apply Hfr. rewrite Hmax. cbn. rewrite Hm. lia.
Qed.

(** A page above 4GB never comes to a stack: [mapPageStructuresAbove4GB] says at the first
    table that is there that the page was used. *)
Lemma high_page_lost own fl m p : consistent own fl m -> 2 ^ 32 <= p -> SpaceLock 0 ∉ locks m ->
  stack_free handler_compact p m = Some (tt, m).
Proof using.
  intros Hc Hp Hl. unfold stack_free. rewrite (proj2 (Z.ltb_ge _ _)) by lia.
  set (index := if p <? 0x1000000000 then 1 else 2).
  assert (index = 1 \/ index = 2) as Hi by (unfold index; destruct (p <? _); auto).
  destruct (s_above _ _ _ (k_stack _ _ _ Hc) index Hi) as [Hmx Hsz].
  rewrite (ebind_run _ _ m true m) by (unfold egets, stack_full; by rewrite Hmx, Hsz).
  rewrite (ebind_run _ _ m 0 m) by (unfold egets; by rewrite Hmx).
  destruct (Z.eqb_spec index 0); [lia|]. rewrite (ebind_run _ _ m true m); [done|].
  set (va := adjust_pointer (m_Stack index) 0).
  assert (PML4_INDEX va = 511) as Hva by (unfold va; destruct Hi as [-> | ->]; reflexivity).
  destruct (t_space own m (k_tables _ _ _ Hc)) as [v Hv].
  destruct (t_kernel own m (k_tables _ _ _ Hc)) as (K & _ & HC). specialize (HC 0%nat v Hv).
  unfold mapPageStructuresAbove4GB. set (m0 := put_locks (SpaceLock 0 :: locks m) m).
  assert (has (memory m (TABLE_ENTRY (m_PhysicalPML4 v) 511)) PAGE_PRESENT = true) as Hpr.
  { rewrite child_present in HC by done. by destruct (has _ PAGE_PRESENT). }
  rewrite (guarded_run _ _ m true m0 Hl); [|clear Hl|done].
  { change (put_locks (locks m) m0) with (put_locks (locks m) m). by rewrite put_locks_same. }
  rewrite (ebind_run _ _ m0 v m0) by (unfold space; cbn; by rewrite Hv). rewrite Hva.
  rewrite (ebind_run _ _ m0 true m0); [done|]. unfold conditionalTableEntryAllocation.
  rewrite (ebind_run _ _ m0 (memory m (TABLE_ENTRY (m_PhysicalPML4 v) 511)) m0) by done. rewrite Hpr. cbn [negb].
  rewrite (ebind_run _ _ m0 tt m0); [done|]. unfold allow_user.
  rewrite (ebind_run _ _ m0 (memory m (TABLE_ENTRY (m_PhysicalPML4 v) 511)) m0) by done.
  change (Z.land (toFlags (toFlags (Z.lor KernelMode Write) false) false) PAGE_USER) with 0. by rewrite andb_false_r.
Qed.
End Free.

(** ** Pinned pages *)

(** How often a page is pinned. *)
Definition refcount (m : Machine) (p : Z) : Z := default 0 (contents (m_PageMetadata m) p).

Lemma hash_page p : is_page p -> 0 <= hash p.
Proof. apply page_hash_ge. Qed.

Definition page_eq_spec : forall p q : Z, reflect (p = q) (key_eq p q) := Z.eqb_spec.

Lemma meta_consistent own fl m t : consistent own fl m -> table_ok t ->
  (forall p r, contents t p = Some r -> is_page p /\ own p = Used /\ 0 < r < 2 ^ 64) ->
  consistent own fl (put_metadata t m).
Proof.
  intros Hc Ht Hp. split; [split; apply (k_tables _ _ _ Hc)|split; apply (k_stack _ _ _ Hc)|by split].
Qed.

Lemma refcount_range own fl m p : consistent own fl m -> 0 <= refcount m p < 2 ^ 64.
Proof.
  intros Hc. unfold refcount. destruct (contents _ p) as [r|] eqn:Hr; cbn; [|lia].
  destruct (p_pin _ _ (k_meta _ _ _ Hc) p r Hr) as (_ & _ & ?). lia.
Qed.

Lemma pin_run own fl m p : consistent own fl m -> ManagerLock ∉ locks m -> is_page p -> own p = Used ->
  p / 4096 < m_MaxBucket (m_PageMetadata m) -> refcount m p + 1 < 2 ^ 64 ->
  exists m', pin p m = Some (tt, m') /\ consistent own fl m' /\ (exists t, m' = put_metadata t m) /\
    m_MaxBucket (m_PageMetadata m') = m_MaxBucket (m_PageMetadata m) /\
    forall q, refcount m' q = if p =? q then refcount m p + 1 else refcount m q.
Proof.
  intros Hc Hl Hp Hu Hfit Hr. pose proof (k_meta _ _ _ Hc) as [Hto Hpin]. pose proof (hash_page p Hp) as Hg.
  assert (exists t, table_ok t /\ m_MaxBucket t = m_MaxBucket (m_PageMetadata m) /\
    (forall q, contents t q = if p =? q then Some (refcount m p + 1) else contents (m_PageMetadata m) q) /\
    pin p m = Some (tt, put_metadata t m)) as (t & Ht & Hmx & Hct & Hrun).
  { set (m0 := put_locks (ManagerLock :: locks m) m).
    assert (exists t, table_ok t /\ m_MaxBucket t = m_MaxBucket (m_PageMetadata m) /\
      (forall q, contents t q = if p =? q then Some (refcount m p + 1) else contents (m_PageMetadata m) q) /\
      (match contents (m_PageMetadata m) p with
       | Some r => emodify (put_metadata (set_value (m_PageMetadata m) p (wrap 64 (r + 1))))
       | None => t' <- elift (insert (m_PageMetadata m) p 1);; emodify (put_metadata t')
       end) m0 = Some (tt, put_metadata t m0)) as (t & ? & ? & ? & Hrun).
    { unfold refcount in *. destruct (contents (m_PageMetadata m) p) as [r|] eqn:Hcp; cbn in Hr |- *.
      - destruct (Hpin p r Hcp) as (_ & _ & Hr').
        destruct (set_value_ok page_eq_spec (m_PageMetadata m) p (wrap 64 (r + 1)) Hg Hto) as (? & ? & Hc'); [by rewrite Hcp|].
        eexists. split_and!; [done..| |reflexivity]. intros q. rewrite Hc'. cbn. rewrite wrap_small by (unfold in_word; lia). done.
      - destruct (insert_fits page_eq_spec (m_PageMetadata m) p 1 Hg Hto) as (t & Hi & ? & ? & Hc'); [done|done|].
        exists t. split_and!; [done..|]. unfold ebind, elift. by rewrite Hi. }
    exists t. split_and!; [done..|]. unfold pin.
    rewrite (guarded_run _ _ m tt (put_metadata t m0) Hl); [by destruct m| |done].
    rewrite (ebind_run _ _ m0 (m_PageMetadata m) m0) by done.
    rewrite (ebind_run _ _ m0 (contents (m_PageMetadata m) p) m0).
    2:{ unfold elift. rewrite table_lookup_run; [done..|cbn; lia]. }
    exact Hrun. }
  exists (put_metadata t m). split; [done|]. split; [|split; [by eexists|split; [done|]]].
  - apply meta_consistent; [done..|]. intros q r. rewrite Hct. destruct (Z.eqb_spec p q) as [<-|]; [|apply Hpin].
    intros [= <-]. pose proof (refcount_range own fl m p Hc). split_and!; [done|done|lia..].
  - intros q. unfold refcount at 1. cbn. rewrite Hct. by destruct (p =? q).
Qed.

(** A pinned page is alone in its bucket. *)
Lemma pinned_leading (t : HashTable Z Z) p : table_ok t -> (forall q r, contents t q = Some r -> is_page q) -> is_page p ->
  leading t p.
Proof.
  intros Hto Hpin Hp. unfold leading. destruct (contents t p) as [r|] eqn:Hc; [|by left]. right.
  pose proof Hc as Hc'. unfold contents in Hc'. destruct (m_Buckets t) as [bs|] eqn:Hb; cbn [mbind option_bind] in *; [|done].
  destruct (bs !! Z.to_nat (hash p)) as [[|[q r'] b]|] eqn:Hl; cbn [mbind option_bind] in Hc'; try done.
  pose proof (ok_bucket _ Hto bs _ _ Hb Hl) as Hf. apply Forall_cons_1 in Hf as [Hf _]. cbn [fst] in Hf.
  assert (contents t q = Some r') as Hq.
  { unfold contents. rewrite Hb. cbn [mbind option_bind]. rewrite Hf, Nat2Z.id, Hl. cbn. by rewrite Z.eqb_refl. }
  pose proof (Hpin q r' Hq) as Hqp. rewrite Z2Nat.id in Hf by by apply hash_page. cbn in Hf.
  assert (q = p) as -> by (destruct Hqp as [? _], Hp as [? _]; zlia). by eexists _, _.
Qed.

Section FreePage.
Context (handler_compact : Z -> Op bool).

Lemma returned_meta own fl m p t : consistent own fl m -> is_page p -> own p = Used -> p < 2 ^ 32 -> SpaceLock 0 ∉ locks m -> has_room m ->
  table_ok t -> contents t p = None -> (forall q r, contents t q = Some r -> contents (m_PageMetadata m) q = Some r) ->
  hoare False (stack_free handler_compact p) (fun _ m' => returned own fl p (put_metadata t m) m') (put_metadata t m).
Proof using.
  intros Hc Hp Hu Hlow Hl Hroom Ht Hn Hq. apply stack_free_run; try done. apply meta_consistent; [done..|].
  intros q r Hr%Hq. by apply (p_pin _ _ (k_meta _ _ _ Hc)).
Qed.

(** [freePage] once the lock is held. *)
Lemma freePageUnlocked_run own fl m p : consistent own fl m -> ManagerLock ∈ locks m -> SpaceLock 0 ∉ locks m ->
  is_page p -> own p = Used -> p < 2 ^ 32 -> p / 4096 <> m_MaxBucket (m_PageMetadata m) -> has_room m ->
  hoare False (freePageUnlocked handler_compact p) (fun _ m' =>
    exists t, m_MaxBucket t = m_MaxBucket (m_PageMetadata m) /\
      (forall q, default 0 (contents t q) = if p =? q then Z.max 0 (refcount m p - 1) else refcount m q) /\
      if 1 <? refcount m p then consistent own fl m' /\ m' = put_metadata t m else returned own fl p (put_metadata t m) m') m.
Proof using.
  intros Hc Hlock Hl0 Hp Hu Hlow Hmax Hroom. pose proof (k_meta _ _ _ Hc) as [Hto Hpin]. pose proof (hash_page p Hp) as Hg.
  unfold freePageUnlocked. apply hoare_bind, hoare_gets. rewrite bool_decide_eq_true_2 by done. cbn [negb].
  apply hoare_bind, hoare_gets, hoare_bind, hoare_lift. rewrite table_lookup_run by done.
  unfold refcount. destruct (contents (m_PageMetadata m) p) as [r|] eqn:Hcp; cbn [from_option id].
  - destruct (Hpin p r Hcp) as (_ & _ & Hr). rewrite (wrap_small 64 (r - 1)) by (unfold in_word; lia).
    destruct (set_value_ok page_eq_spec (m_PageMetadata m) p (r - 1) Hg Hto) as (Ht1 & Hm1 & Hc1); [by rewrite Hcp|].
    set (t1 := set_value (m_PageMetadata m) p (r - 1)) in *. apply hoare_bind, hoare_modify. fold t1.
    destruct (Z.eqb_spec (r - 1) 0) as [H1|H1]; cbn [negb].
    + assert (r = 1) as -> by lia. change (1 <? 1) with false. cbv iota. change (1 - 1) with 0 in *.
      apply hoare_bind, hoare_gets, hoare_bind, hoare_lift. cbn [m_PageMetadata put_metadata].
      destruct (remove_leading page_eq_spec t1 p Hg Ht1) as (t2 & Hr2 & Ht2 & Hm2 & Hc2).
      { cbn. by rewrite Hm1. }
      { apply pinned_leading; [done| |done]. intros q r. rewrite Hc1. destruct (page_eq_spec p q) as [<-|]; [done|]. apply Hpin. }
      rewrite Hr2. apply hoare_bind, hoare_modify.
      change (put_metadata t2 (put_metadata t1 m)) with (put_metadata t2 m).
      assert (forall q, contents t2 q = if p =? q then None else contents (m_PageMetadata m) q) as Hct.
      { intros q. rewrite Hc2, Hc1. cbn. by destruct (p =? q). }
      eapply hoare_mono; [apply (returned_meta own fl m p t2); try done|].
      * by rewrite Hct, Z.eqb_refl.
      * intros q r. rewrite Hct. by destruct (p =? q).
      * cbv beta. intros _ m' Hret. exists t2. split; [congruence|]. split; [|done]. intros q. rewrite Hct. by destruct (p =? q).
    + apply hoare_ret. exists t1. split; [done|]. rewrite (proj2 (Z.ltb_lt 1 r)) by lia. split.
      * intros q. rewrite Hc1. cbn. destruct (p =? q); cbn; [lia|done].
      * split; [|done]. apply meta_consistent; [done..|]. intros q r'. rewrite Hc1. destruct (page_eq_spec p q) as [<-|]; [|apply Hpin].
        intros [= <-]. split_and!; [done|done|lia..].
  - change (1 <? 0) with false. cbv iota.
    assert (m = put_metadata (m_PageMetadata m) m) as Em by (by destruct m).
    eapply hoare_mono; [by apply stack_free_run|]. cbv beta. intros _ m' Hret. exists (m_PageMetadata m). split; [done|]. split; [|by rewrite <- Em].
    intros q. unfold refcount. destruct (Z.eqb_spec p q) as [<-|]; [|done]. by rewrite Hcp.
Qed.

Lemma freed_locks own p m own' m' ls : freed own p m own' m' -> freed own p (put_locks ls m) own' (put_locks ls m').
Proof using. intros H. split; try apply H. done. Qed.

Lemma freePage_run own fl m p : consistent own fl m -> ManagerLock ∉ locks m -> SpaceLock 0 ∉ locks m ->
  is_page p -> own p = Used -> p < 2 ^ 32 -> p / 4096 <> m_MaxBucket (m_PageMetadata m) -> has_room m ->
  hoare False (freePage handler_compact p) (fun _ m' =>
    exists t, m_MaxBucket t = m_MaxBucket (m_PageMetadata m) /\
      (forall q, default 0 (contents t q) = if p =? q then Z.max 0 (refcount m p - 1) else refcount m q) /\
      if 1 <? refcount m p then consistent own fl m' /\ m' = put_metadata t m else returned own fl p (put_metadata t m) m') m.
Proof using.
  intros Hc Hlock Hl0 Hp Hu Hlow Hmax Hroom. unfold freePage. apply hoare_guarded; [done|].
  set (m0 := put_locks (ManagerLock :: locks m) m).
  eapply hoare_mono.
  { apply (freePageUnlocked_run own fl m0 p); try done; [by apply locked_consistent|by left|].
    intros [?|?]%elem_of_cons; done. }
  cbv beta. intros _ m' (t & Hmx & Hct & Hx). change (refcount m0) with (refcount m) in *.
  destruct (1 <? refcount m p) eqn:E.
  - destruct Hx as [Hc' ->]. split; [done|]. exists t. cbv beta. rewrite ?E. split; [done|]. split; [done|].
    split; [by apply locked_consistent|]. by destruct m.
  - destruct Hx as (o & fl' & Ho & Hfl & Hc' & Hfr). split; [by rewrite (f_locks _ _ _ _ _ Hfr)|].
    exists t. cbv beta. rewrite ?E. split; [done|]. split; [done|]. exists o, fl'. split_and!; [done..|by apply locked_consistent|].
    apply (freed_locks _ _ _ _ _ (locks m)) in Hfr. change (put_locks (locks m) (put_metadata t m0)) with (put_locks (locks m) (put_metadata t m)) in Hfr.
    by destruct m.
Qed.
End FreePage.

(** ** A stack that is filled *)

Lemma fill_run handler_compact own fl m ps : consistent own fl m -> SpaceLock 0 ∉ locks m -> NoDup ps ->
  (forall p, In p ps -> is_page p /\ p < 2 ^ 32 /\ own p = Used /\ contents (m_PageMetadata m) p = None) ->
  m_StackMax m 0 + 4096 * Z.of_nat (length ps) <= 4096 * window_pages ->
  hoare False (for_each ps (stack_free handler_compact)) (fun _ m' =>
    exists own' fl', consistent own' fl' m' /\ locks m' = locks m /\ spaces m' = spaces m /\ m_PageMetadata m' = m_PageMetadata m /\
      forall q, ~ In q ps -> own' q = own q) m.
Proof.
  revert own fl m. induction ps as [|p ps IH]; intros own fl m Hc Hl Hnd Hps Hmax; [by exists own, fl|].
  cbn [for_each]. apply hoare_bind. destruct (Hps p) as (Hp & Hlow & Hu & Hpin); [by left|].
  apply NoDup_cons in Hnd as [Hnp Hnd]. cbn [length] in Hmax.
  eapply hoare_mono; [apply (stack_free_run handler_compact own fl m p Hc Hp Hlow Hu Hpin Hl); right; lia|].
  cbv beta. intros _ m1 (o & fl1 & _ & _ & Hc1 & Hf). pose proof (f_max _ _ _ _ _ Hf). 
  eapply hoare_mono.
  { apply (IH _ _ m1 Hc1); [by rewrite (f_locks _ _ _ _ _ Hf)|done| |lia]. intros q Hq.
    destruct (Hps q) as (? & ? & ? & ?); [by right|]. rewrite (f_meta _ _ _ _ _ Hf).
    rewrite give_ne; [done|]. intros ->. by apply Hnp, list_elem_of_In. }
  cbv beta. intros _ m2 (own2 & fl2 & Hc2 & E1 & E2 & E3 & E4). exists own2, fl2.
  rewrite E1, E2, E3, (f_locks _ _ _ _ _ Hf), (f_spaces _ _ _ _ _ Hf), (f_meta _ _ _ _ _ Hf). split_and!; [done..|].
  intros q Hq. rewrite E4; [|intros ?; apply Hq; by right]. apply give_ne. intros ->. apply Hq. by left.
Qed.

(** ** The claim *)

