(* ===== verification/PageClone.v ===== *)
(** * Clones of address spaces

    [create] makes a space whose lower half is empty; [clone] gives it all pages of the
    programs' half, shared pages as they are and the others for copy-on-write on both sides. *)
From Stdlib Require Import ZArith Lia List Bool.
From stdpp Require Import base tactics list list_numbers gmap.
From S2P Require Import Prelude Hoare HashTable PageFlags Paging PagingWords PagingInv PageStack AddressSpace PagingMap PageFree.
Import ListNotations.
Local Open Scope Z_scope.
Local Open Scope err_scope.

(** ** Creation *)

Definition root_words (p k : Z) (w : mem) : mem := copy_words (p + 0x800) (k + 0x800) 0x800 (clear_words p 0x800 w).

Lemma root_word p k w q j : p mod 4096 = 0 -> k mod 4096 = 0 -> q mod 4096 = 0 -> p <> k -> 0 <= j < 512 ->
  root_words p k w (TABLE_ENTRY q j) =
    if decide (q = p) then (if j <? 256 then 0 else w (TABLE_ENTRY k j)) else w (TABLE_ENTRY q j).
Proof.
  intros Hp Hk Hq Hne Hj. unfold root_words, copy_words, clear_words, TABLE_ENTRY. destruct (decide (q = p)) as [->|Hqp].
  - destruct (Z.ltb_spec j 256).
    + destruct (in_range_spec (p + 2048) 2048 (p + 8 * j)); [lia|]. by destruct (in_range_spec p 2048 (p + 8 * j)); [|lia].
    + destruct (in_range_spec (p + 2048) 2048 (p + 8 * j)); [|lia].
      replace (p + 8 * j - (p + 2048) + (k + 2048)) with (k + 8 * j) by lia.
      destruct (in_range_spec p 2048 (k + 8 * j)); [zlia|done].
  - destruct (in_range_spec (p + 2048) 2048 (q + 8 * j)); [zlia|]. destruct (in_range_spec p 2048 (q + 8 * j)); [zlia|done].
Qed.

Section Create.
Context (own : owners) (fl : list Z) (m : Machine) (Hc : consistent own fl m).
Context (p : Z) (Hp : is_page p) (Hused : own p = Used) (Hpin : contents (m_PageMetadata m) p = None).
Context (v : X64VirtualAddressSpace) (Hv : spaces m !! 0%nat = Some v).

Local Notation k := (m_PhysicalPML4 v).
Local Notation c := (next_space m).
Definition new_space : X64VirtualAddressSpace := mkSpace p USERSPACE_VIRTUAL_STACK [] USERSPACE_VIRTUAL_HEAP USERSPACE_VIRTUAL_HEAP.
Definition created : Machine :=
  put_spaces (<[c := new_space]> (spaces m)) (S c) (put_memory (root_words p k (memory m)) m).
Local Notation own' := (give own p (Table c [])).

Lemma new_fresh : spaces m !! c = None /\ c <> 0%nat.
Proof using Hc Hv.
  split.
  - destruct (spaces m !! c) eqn:E; [|done]. apply (t_fresh own m (k_tables _ _ _ Hc)) in E. lia.
  - apply (t_fresh own m (k_tables _ _ _ Hc)) in Hv. lia.
Qed.

Lemma created_word q j : own q <> Used -> 0 <= j < 512 -> root_words p k (memory m) (TABLE_ENTRY q j) = memory m (TABLE_ENTRY q j).
Proof using Hc Hp Hused Hv.
  intros Hq Hj. pose proof (k_tables _ _ _ Hc) as Ht. pose proof (t_root own m Ht 0%nat v Hv) as Hk.
  rewrite root_word; [by rewrite decide_False by congruence|apply Hp|by eapply owned_page|by apply (t_page own m Ht)|congruence|done].
Qed.

Lemma created_root j : 0 <= j < 512 -> root_words p k (memory m) (TABLE_ENTRY p j) = if j <? 256 then 0 else memory m (TABLE_ENTRY k j).
Proof using Hc Hp Hused Hv.
  intros Hj. pose proof (k_tables _ _ _ Hc) as Ht. pose proof (t_root own m Ht 0%nat v Hv) as Hk.
  rewrite root_word; [by rewrite decide_True|apply Hp|by eapply owned_page|apply Hp|congruence|done].
Qed.

Lemma created_same : same_inner own (memory m) (root_words p k (memory m)) /\ same_leaves own (memory m) (root_words p k (memory m)).
Proof using Hc Hp Hused Hv.
  split; intros t s path i Ht Hl Hi; unfold child, big_entry; by rewrite (created_word t i) by (congruence || done).
Qed.

Lemma created_views : (forall s va, is_Some (spaces m !! s) -> valid_va va -> view created s va = view m s va /\ big_page created s va = big_page m s va) /\
  (forall va, user_va va -> view created c va = 0 /\ big_page created c va = false) /\
  (forall va, kernel_va va -> view created c va = view m 0 va /\ big_page created c va = big_page m 0 va).
Proof using Hc Hp Hused Hv.
  pose proof (k_tables _ _ _ Hc) as Ht. destruct created_same as [Hi Hl]. destruct (tables_same own m _ Ht Hi Hl) as [_ Hvw].
  destruct new_fresh as [Hnone Hc0].
  assert (forall s va, is_Some (spaces m !! s) -> valid_va va -> view created s va = view m s va /\ big_page created s va = big_page m s va) as H1.
  { intros s va [vs Hs] Hva. destruct (Hvw s va Hva) as [<- <-]. unfold view, big_page, created. cbn.
    rewrite lookup_insert_ne by congruence. by rewrite Hs. }
  split; [exact H1|]. split; intros va Hva.
  - unfold view, big_page, walk_word, walk_big, page_table, created. cbn. rewrite lookup_insert_eq. cbn [m_PhysicalPML4 new_space].
    rewrite child_zero; [done|]. rewrite created_root by apply pml4_range. by rewrite (proj2 (Z.ltb_lt _ _)) by by apply user_index.
  - destruct (H1 0%nat va) as [<- <-]; [by eexists|by right|].
    unfold view, big_page, walk_word, walk_big, page_table, created. cbn. rewrite lookup_insert_eq, lookup_insert_ne by done. rewrite Hv.
    cbn [m_PhysicalPML4 new_space]. rewrite (kernel_index va Hva).
    assert (child (root_words p k (memory m)) 0 p 511 = child (root_words p k (memory m)) 0 k 511) as ->; [|done].
    unfold child. rewrite created_root by lia. rewrite (created_word k); [done| |lia]. by rewrite (t_root own m Ht 0%nat v Hv).
Qed.

Lemma created_consistent : consistent own' fl created /\ children_kept own m created.
Proof using Hc Hp Hused Hpin Hv.
  pose proof (k_tables _ _ _ Hc) as Ht. destruct created_same as [Hi Hl]. destruct (tables_same own m _ Ht Hi Hl) as [Ht1 Hvw].
  destruct new_fresh as [Hnone Hc0]. destruct created_views as [Hv1 _].
  assert (forall q, own q <> Used -> own' q = own q) as Hs by (intros q Hq; rewrite give_ne; congruence).
  split; [split|].
  - split.
    + by eapply give_page.
    + intros s vs. cbn. destruct (decide (s = c)) as [->|Hne].
      * rewrite lookup_insert_eq. intros [= <-]. apply give_eq.
      * rewrite lookup_insert_ne by done. intros Hvs. pose proof (t_root own m Ht s vs Hvs) as Hr. rewrite Hs; congruence.
    + intros s vs. cbn. destruct (decide (s = c)) as [->|Hne]; [lia|]. rewrite lookup_insert_ne by done.
      intros Hvs. apply (t_fresh own m Ht) in Hvs. lia.
    + intros t s path i q Hq Hin Hch. cbn in Hch. destruct (Z.eq_dec t p) as [->|Hne].
      * rewrite give_eq in Hq. injection Hq as <- <-. destruct Hin as (Hi' & _ & Hin). destruct (Hin eq_refl) as [Hlow|[Hx _]]; [|done].
        rewrite child_zero in Hch; [done|]. rewrite created_root by done. by rewrite (proj2 (Z.ltb_lt _ _)).
      * rewrite give_ne in Hq by done. pose proof (t_entry _ _ Ht1 t s path i q Hq Hin Hch) as E. rewrite Hs; congruence.
    + destruct (t_kernel _ _ Ht1) as (K & HK & HC). cbn in HC. exists K. split; [rewrite Hs; congruence|]. intros s vs. cbn.
      destruct (decide (s = c)) as [->|Hne]; [rewrite lookup_insert_eq; intros [= <-]|rewrite lookup_insert_ne by done; apply HC].
      cbn [m_PhysicalPML4 new_space]. rewrite <- (HC 0%nat v Hv). unfold child. rewrite created_root by lia.
      rewrite (created_word k); [done| |lia]. by rewrite (t_root own m Ht 0%nat v Hv).
    + cbn. rewrite lookup_insert_ne by done. by eexists.
    + intros q Hq%(t_procs own m Ht). cbn. destruct (decide (q = c)) as [->|]; [by rewrite lookup_insert_eq|by rewrite lookup_insert_ne].
  - apply (stack_frame own own' fl m); [done..| | | |].
    + intros j Hj. apply Hv1; [by eexists|right; by apply window_valid].
    + intros q j i Hq Hj. cbn. apply created_word; [congruence|done].
    + intros q j Hq. rewrite Hs; congruence.
    + intros q. unfold give. destruct (Z.eqb_spec q p) as [->|]; [by rewrite Hused|done].
  - by apply (meta_give own p _ m); [apply (k_meta _ _ _ Hc)|..].
  - by apply (same_inner_kept own m created).
Qed.
End Create.

(** What is kept when a space is added. *)
Record extends (own : owners) (m : Machine) (c : nat) (own' : owners) (m' : Machine) : Prop := {
  x_new : c = next_space m /\ spaces m !! c = None /\ c <> 0%nat;
  x_locks : locks m' = locks m;
  x_meta : m_PageMetadata m' = m_PageMetadata m;
  x_space : exists p, spaces m' = <[c := new_space p]> (spaces m);
  x_view s va : is_Some (spaces m !! s) -> valid_va va -> view m' s va = view m s va /\ big_page m' s va = big_page m s va;
  x_user va : user_va va -> view m' c va = 0 /\ big_page m' c va = false;
  x_kernel va : kernel_va va -> view m' c va = view m 0 va /\ big_page m' c va = big_page m 0 va;
  x_own q : own q <> Free -> own' q = own q;
  x_kept : children_kept own m m'
}.

Section Idle.
Context (handler_compact : Z -> Op bool).
(** The handlers have nothing to release. *)
Context (idle : forall h m, handler_compact h m = Some (false, m)).

Lemma create_run F own fl m : consistent own fl m -> ManagerLock ∉ locks m -> F \/ stocked 1 fl m ->
  hoare F (create handler_compact) (fun c m' => exists own' fl', consistent own' fl' m' /\ extends own m c own' m') m.
Proof using idle.
  intros Hc Hl Hst. unfold create. apply hoare_bind.
  destruct (decide (fl = [] \/ stack_full m 0 = true)) as [Hempty|Hne].
  { unfold hoare at 1. rewrite (allocatePage_none handler_compact idle own fl) by done.
    destruct Hst as [?|[Hlen Hf]]; [done|]. destruct Hempty as [-> | Hf']; [cbn in Hlen; lia|congruence]. }
  destruct (exists_last (l := fl)) as (fl1 & p & ->); [by intros ->; apply Hne; left|].
  assert (stack_full m 0 = false) as Hf by (destruct (stack_full m 0); [by destruct Hne; right|done]).
  destruct (allocatePage_run handler_compact idle own fl1 p m Hc Hl Hf) as (g & a & Ha). unfold hoare at 1. rewrite Ha.
  set (n := Z.of_nat (length fl1)) in *. set (m1 := taken n g a m) in *.
  destruct (taken_fields n g a m) as (E1 & E2 & E3 & E4 & E5 & E6 & E7 & E8 & E9). fold m1 in E1, E2, E3, E4, E5, E6, E7, E8, E9.
  pose proof (taken_consistent own fl1 p g a m Hc) as Hc1. fold n m1 in Hc1. destruct (last_free own fl1 p m Hc) as (Hp & _ & Ho).
  set (own1 := give own p Used) in *. assert (own1 p = Used) as Hu by apply give_eq.
  assert (contents (m_PageMetadata m1) p = None) as Hpin.
  { rewrite E7. destruct (contents _ p) as [r|] eqn:Hr; [|done]. destruct (p_pin _ _ (k_meta _ _ _ Hc) p r Hr) as (_ & ? & _). congruence. }
  destruct (t_space own1 m1 (k_tables _ _ _ Hc1)) as [v Hv].
  apply hoare_bind, hoare_modify, hoare_bind, (hoare_space _ _ v); [exact Hv|].
  apply hoare_bind, hoare_modify, hoare_bind, hoare_gets, hoare_bind, hoare_modify, hoare_ret.
  match goal with |- exists _ _, consistent _ _ ?x /\ _ => change x with (created m1 p v) end.
  match goal with |- context [extends own m ?x] => change x with (next_space m1) end.
  destruct (created_consistent own1 fl1 m1 Hc1 p Hp Hu Hpin v Hv) as [Hc2 Hk2].
  destruct (created_views own1 fl1 m1 Hc1 p Hp Hu v Hv) as (V1 & V2 & V3).
  destruct (new_fresh own1 fl1 m1 Hc1 v Hv) as [Hn1 Hn2].
  exists (give own1 p (Table (next_space m1) [])), fl1. split; [exact Hc2|]. rewrite E3 in *. rewrite E2 in Hn1. split.
  - by split_and!.
  - done.
  - done.
  - exists p. unfold created. cbn [spaces put_spaces]. by rewrite E2, E3.
  - intros s va Hs Hva. destruct (V1 s va) as [-> ->]; [by rewrite E2|done|]. by apply view_same.
  - apply V2.
  - intros va Hva. destruct (V3 va Hva) as [-> ->]. by apply view_same.
  - intros q Hq. unfold own1. rewrite !give_ne; congruence.
  - intros t s path i q Ht Hlen Hi Hch. apply (Hk2 t s path); [unfold own1; rewrite give_ne; congruence|done|done|by rewrite E1].
Qed.
End Idle.
