(* ===== verification/PagingRuns.v ===== *)
(** * Runs of the paging components

    A small machine: the kernel's root and one table of its half, and pages that fill the stack. *)
From Stdlib Require Import ZArith Lia List Bool.
From stdpp Require Import base tactics list list_numbers gmap.
From S2P Require Import Prelude Hoare HashTable PageFlags Paging PagingWords PagingInv PageStack AddressSpace PagingMap PageFree.
Import ListNotations.
Local Open Scope Z_scope.
Local Open Scope err_scope.

(** A handler that has nothing to release. *)
Definition no_handler (h : Z) : Op bool := eret false.

Definition boot : Machine :=
  mkMachine (upd (fun _ => 0) (0x1000 + 8 * 511) 0x2003) [] (fun _ => 0) (fun _ => 0) 0 0 0 (new_table 0x1100) false false
    (replicate 16 []) {[0%nat := mkSpace 0x1000 (2 ^ 64 - 0x9000) [] KERNEL_VIRTUAL_HEAP KERNEL_VIRTUAL_HEAP]} 1 [] 0 [].

Definition boot_own : owners := give (give (fun _ => Used) 0x1000 (Table 0 [])) 0x2000 (Table 0 [511]).

Lemma boot_spaces s v : spaces boot !! s = Some v -> s = 0%nat /\ m_PhysicalPML4 v = 0x1000.
Proof. cbn. intros [<- <-]%lookup_singleton_Some. done. Qed.

Lemma boot_owner q o : boot_own q = o -> o <> Used -> q = 0x1000 /\ o = Table 0 [] \/ q = 0x2000 /\ o = Table 0 [511].
Proof.
  unfold boot_own, give. destruct (Z.eqb_spec q 0x2000) as [->|]; [intros <- _; by right|].
  destruct (Z.eqb_spec q 0x1000) as [->|]; [intros <- _; by left|]. by intros <-.
Qed.

Lemma boot_word a : memory boot a <> 0 -> a = 0x1000 + 8 * 511.
Proof. cbn. unfold upd. destruct (Z.eqb_spec a (4096 + 8 * 511)); done. Qed.

Lemma boot_child l t i p : child (memory boot) l t i = Some p -> TABLE_ENTRY t i = 0x1000 + 8 * 511 /\ p = 0x2000.
Proof.
  intros Hc. assert (TABLE_ENTRY t i = 0x1000 + 8 * 511) as E.
  { apply boot_word. intros E. by rewrite child_zero in Hc. }
  split; [done|]. apply child_page in Hc as <-. by rewrite E.
Qed.

Lemma boot_view k : 0 <= k < 768 -> view boot 0 (window k) = 0 /\ big_page boot 0 (window k) = false.
Proof.
  intros Hk. assert (PML4_INDEX (window k) = 511) as E by by apply kernel_index, window_valid.
  assert (forall t, 0x2000 = t -> forall i, 0 <= i < 512 -> child (memory boot) 1 t i = None) as H1.
  { intros t <- i Hi. apply child_zero. cbn. apply upd_ne. unfold TABLE_ENTRY. lia. }
  assert (spaces boot !! 0%nat = Some (mkSpace 0x1000 (2 ^ 64 - 0x9000) [] KERNEL_VIRTUAL_HEAP KERNEL_VIRTUAL_HEAP)) as Hs by reflexivity.
  unfold view, big_page. rewrite Hs. unfold walk_word, walk_big, page_table. rewrite E. cbn [m_PhysicalPML4].
  change (child (memory boot) 0 0x1000 511) with (Some 0x2000). cbn [mbind option_bind].
  by rewrite (H1 _ eq_refl _ (pdpt_range _)).
Qed.

Lemma boot_consistent : consistent boot_own [] boot.
Proof.
  split; split.
  - intros p Hp. destruct (boot_owner p _ eq_refl Hp) as [[-> _]|[-> _]]; by split.
  - intros s v [-> E]%boot_spaces. by rewrite E.
  - intros s v [-> _]%boot_spaces. cbn. lia.
  - intros t s path i p Ht Hin Hc. destruct (boot_owner t _ Ht) as [[-> E]|[-> E]]; [done|..];
      injection E as -> ->; apply boot_child in Hc as [Hi ->]; unfold TABLE_ENTRY in Hi; destruct Hin as [? _]; [|lia].
    by assert (i = 511) as -> by lia.
  - exists 0x2000. split; [done|]. by intros s v [-> ->]%boot_spaces.
  - by eexists.
  - done.
  - done.
  - done.
  - done.
  - exists 0. split_and!; [done..|]. intros k Hk. lia.
  - intros k Hk. by rewrite (proj1 (boot_view k Hk)).
  - intros k Hk. by apply boot_view.
  - done.
  - apply NoDup_nil_2.
  - intros p Hp. destruct (boot_owner p _ Hp) as [[_ ?]|[_ ?]]; done.
  - by apply table_ok_new.
  - done.
Qed.

(** 40 pages above 16MB. *)
Definition boot_pages : list Z := List.map (fun i => 0x1000000 + 4096 * i) (seqZ 0 40).

Definition fill : Op unit := for_each boot_pages (stack_free no_handler).

Lemma boot_page p : In p boot_pages -> is_page p /\ p < 2 ^ 32 /\ boot_own p = Used /\ contents (m_PageMetadata boot) p = None.
Proof.
  intros (i & <- & Hi)%in_map_iff. apply list_elem_of_In, elem_of_seqZ in Hi. unfold is_page.
  split_and!; [zlia|lia..| |done]. unfold boot_own. rewrite !give_ne by lia. done.
Qed.

Lemma boot_nodup : NoDup boot_pages.
Proof. apply (bool_decide_unpack _). vm_compute. exact I. Qed.

(** The machine after that. *)
Lemma filled : exists own fl m, fill boot = Some (tt, m) /\ consistent own fl m /\ locks m = [] /\ spaces m = spaces boot /\
  m_PageMetadata m = new_table 0x1100 /\ forall q, ~ In q boot_pages -> own q = boot_own q.
Proof.
  assert (hoare False fill (fun _ m' => exists own' fl', consistent own' fl' m' /\ locks m' = [] /\ spaces m' = spaces boot /\
    m_PageMetadata m' = new_table 0x1100 /\ forall q, ~ In q boot_pages -> own' q = boot_own q) boot) as H.
  { unfold fill. eapply hoare_mono.
    { apply (fill_run no_handler boot_own [] boot boot_pages boot_consistent); [by intros ?%elem_of_nil|apply boot_nodup|apply boot_page|].
      vm_compute. discriminate. }
    cbv beta. intros _ m (own & fl & Hc & H1 & H2 & H3 & H4). exists own, fl. by split_and!. }
  destruct (proj1 (hoare_total _ _ _) H) as ([] & m & Hr & own & fl & Hx). exists own, fl, m. exact (conj Hr Hx).
Qed.

(** What a program checks of the machine after [fill]. *)
Lemma fill_fact (f : Machine -> bool) m : fill boot = Some (tt, m) ->
  match fill boot with Some (_, m) => f m | None => false end = true -> f m = true.
Proof. by intros ->. Qed.

Definition region : Z := 0xFFFFFFFF90000000.

Definition fill_facts (m : Machine) : bool :=
  (view m 0 region =? 0) && negb (big_page m 0 region) && negb (stack_full m 0) && (m_StackSize m 0 =? 4 * 37).

Lemma fill_checked : match fill boot with Some (_, m) => fill_facts m | None => false end = true.
Proof. vm_compute. reflexivity. Qed.

Lemma no_handler_idle h m : no_handler h m = Some (false, m).
Proof. done. Qed.

Lemma filled_stack : exists own fl m, fill boot = Some (tt, m) /\ consistent own fl m /\ locks m = [] /\ spaces m = spaces boot /\
  m_PageMetadata m = new_table 0x1100 /\ (forall q, ~ In q boot_pages -> own q = boot_own q) /\
  view m 0 region = 0 /\ big_page m 0 region = false /\ stack_full m 0 = false /\ length fl = 37%nat.
Proof.
  destruct filled as (own & fl & m & Hr & Hc & Hl & Hs & Hm & Ho). exists own, fl, m.
  pose proof (fill_fact fill_facts m Hr fill_checked) as Hf. unfold fill_facts in Hf.
  apply andb_prop in Hf as [Hf H4%Z.eqb_eq]. apply andb_prop in Hf as [Hf H3%negb_true_iff].
  apply andb_prop in Hf as [H1%Z.eqb_eq H2%negb_true_iff]. rewrite (s_size _ _ _ (k_stack _ _ _ Hc)) in H4.
  split_and!; [done..|lia].
Qed.

Lemma region_valid : valid_va region /\ ~ in_window region.
Proof.
  unfold valid_va, kernel_va, region, in_window, KERNEL_VIRTUAL_PAGESTACK_4GB, KERNEL_VIRTUAL_ADDRESS. split; [right|]; lia.
Qed.



(** ** What goes wrong *)

Definition result {A} (f : Op A) : option A := match (fill;; f) boot with Some (a, _) => Some a | None => None end.

(** A page that is mapped as swapped out into a table that is missing is lost: the entries for
    the tables are not present. *)
Example swapped_mapping_lost :
  result (b <- map no_handler 0 0x1080000 region Swapped;; e <- egets (fun m => view m 0 region);; eret (b, e)) = Some (true, 0).
Proof. vm_compute. reflexivity. Qed.

(** Where the kernel has a page of 2MB, [isMapped] says yes, [getMapping] panics, and [map]
    takes the page for a table and writes to it. *)
Definition big_region : Op unit :=
  _ <- map no_handler 0 0x1080000 region Write;;
  k <- space 0;;
  m <- egets memory;;
  match walk_to m (m_PhysicalPML4 k) region 2 with
  | Some t => store (TABLE_ENTRY t (PAGE_DIRECTORY_INDEX region)) (Z.lor 0x4000000 0x83)
  | None => efail
  end.

Example big_page_mapped : result (big_region;; isMapped 0 region) = Some true.
Proof. vm_compute. reflexivity. Qed.

Example big_page_panics : result (big_region;; getMapping 0 region) = None.
Proof. vm_compute. reflexivity. Qed.

Example big_page_overwritten :
  result (big_region;; b <- map no_handler 0 0x1081000 region Write;;
          e <- load (TABLE_ENTRY 0x4000000 (PAGE_TABLE_INDEX region));; eret (b, e)) = Some (true, 0x8000000001081007).
Proof. vm_compute. reflexivity. Qed.

(** The window of the stack ends at the kernel's image: after 3GB of pages the next page of the
    stack is the image itself, which is mapped already, so that nothing stops the stack. *)
Example window_meets_kernel : window window_pages = KERNEL_VIRTUAL_ADDRESS.
Proof. reflexivity. Qed.

(** [map] takes the lock of a space, then that of the manager; [freePage] takes that of the
    manager, then that of the kernel's space when the stack must grow: with the space's lock
    held, as by [map] on another processor, it waits. *)
Example free_waits_for_map : (acquire (SpaceLock 0);; freePage no_handler 0x1000000) boot = None.
Proof. vm_compute. reflexivity. Qed.

(** A stack of pages that fills its last page is taken for an empty one. *)
Example full_stack_panics :
  match (for_each (List.map (fun i => 0x1000000 + 4096 * i) (seqZ 0 1027)) (stack_free no_handler)) boot with
  | Some (_, m) => m_FreePages m = 1024 /\ allocatePage no_handler m = None
  | None => False
  end.
Proof. vm_compute. split; reflexivity. Qed.

(** A heap that cannot grow to the size asked for loses the end of its last page: the next
    expansion gives it out again. *)
Example heap_end_lost :
  result (s <- create no_handler;; put_heap_end s 0x50000800;;
          a <- expandHeap no_handler s 0x100000000 Write;; b <- expandHeap no_handler s 0x100 Write;; eret (a, b))
  = Some (0, 0x50000000).
Proof. vm_compute. reflexivity. Qed.

(** A clone counts a reference to a shared page that [revertToKernelAddressSpace] never gives back. *)
Example shared_page_pinned :
  result (s <- create no_handler;; p <- allocatePage no_handler;; _ <- map no_handler s p 0x400000 (Z.lor Write Shared);;
          c <- clone no_handler s;; revertToKernelAddressSpace no_handler c;; egets (fun m => refcount m p)) = Some 1.
Proof. vm_compute. reflexivity. Qed.

(** The page at the top of a new stack has a reference of its own, and its entry is not
    copy-on-write, so that a clone counts two more: one is left when both stacks are gone. *)
Example stack_page_leaks :
  result (s <- create no_handler;; t <- allocateStack no_handler s 0x2000;;
          e <- getMapping s (t - 4096);; c <- clone no_handler s;;
          freeStack no_handler 4 c t;; freeStack no_handler 4 s t;; egets (fun m => refcount m (fst e))) = Some 1.
Proof. vm_compute. reflexivity. Qed.
