(* ===== verification/UnlikelyLock.v ===== *)
(** * UnlikelyLock

    [src/system/kernel/utilities/UnlikelyLock.cc]: a lock that many threads may
    be inside of, until one acquires it for itself.  Threads interleave at the
    calls of its semaphore, which is a counting semaphore as its clients see it
    ([Counting]); [tryAcquire] may also fail when it loses a race. *)
From Stdlib Require Import ZArith Lia List Bool.
From stdpp Require Import base gmap list.
From S2P Require Import Prelude Counting.
Import ListNotations.
Local Open Scope N_scope.
#[local] Set Warnings "-clear-no-such-hyp".

(** The numbers are too large for unary notation. *)
Definition UNLIKELY_LOCK_MAX_READERS : N := 9999.
Definition max_units : nat := N.to_nat (UNLIKELY_LOCK_MAX_READERS + 1).

Local Open Scope nat_scope.

Section UnlikelyLock.
Context {S : Type} `{CountingSemaphore S}.

(** Where a thread is: outside, inside after [enter], in the loop of
    [acquire], or the owner after it. *)
Inductive pc := Outside | Inside | Acquiring | Owner.

#[global] Instance pc_eq_dec : EqDecision pc.
Proof. solve_decision. Defined.

Record UnlikelyLock := mkLock { m_Semaphore : S; pcs : list pc }.

Definition new_lock (k : nat) : UnlikelyLock := mkLock (sem_new max_units) (replicate k Outside).

(** The calls, and the steps within [acquire]: a try that is granted, and one that is
    interrupted, after which the thread yields and tries again. *)
Inductive call := Enter | EnterLosesRace | Leave | Acquire | Granted | Interrupted | Release.

Definition goto (i : nat) (p : pc) (s : S) (l : UnlikelyLock) : UnlikelyLock := mkLock s (<[i := p]> (pcs l)).

(** A call, with its result where it has one. *)
Definition step (i : nat) (a : call) (l : UnlikelyLock) : option (option bool * UnlikelyLock) :=
  p ← pcs l !! i;
  match p, a with
  | Outside, Enter =>
      match sem_take 1 (m_Semaphore l) with
      | Some s => Some (Some true, goto i Inside s l)
      | None => Some (Some false, l)
      end
  | Outside, EnterLosesRace => Some (Some false, l)
  | Inside, Leave => Some (None, goto i Outside (sem_give 1 (m_Semaphore l)) l)
  | Outside, Acquire => Some (None, goto i Acquiring (m_Semaphore l) l)
  | Acquiring, Granted =>
      s ← sem_take max_units (m_Semaphore l); Some (Some true, goto i Owner s l)
  | Acquiring, Interrupted => Some (None, l)
  | Owner, Release => Some (None, goto i Outside (sem_give max_units (m_Semaphore l)) l)
  | _, _ => None
  end.

Fixpoint run (tr : list (nat * call)) (l : UnlikelyLock) : option UnlikelyLock :=
  match tr with
  | [] => Some l
  | (i, a) :: tr' => match step i a l with Some (_, l') => run tr' l' | None => None end
  end.

(** ** The units of the semaphore *)

Definition units (p : pc) : nat := match p with Inside => 1 | Owner => max_units | _ => 0 end.

(** Every unit is in the semaphore or with a thread. *)
Definition Inv (l : UnlikelyLock) : Prop := sem_value (m_Semaphore l) + total units (pcs l) = max_units.

Lemma max_units_pos : 0 < max_units.
Proof. unfold max_units, UNLIKELY_LOCK_MAX_READERS. lia. Qed.

Opaque max_units.

Lemma new_lock_inv k : Inv (new_lock k).
Proof.
  unfold Inv, new_lock. simpl. rewrite sem_new_value, total_zero; [lia|]. by apply Forall_replicate.
Qed.

Lemma unlikely_step_inv i a l o l' : Inv l -> step i a l = Some (o, l') -> Inv l'.
Proof using All.
  unfold Inv, step. intros Hi Hst. destruct (pcs l !! i) as [p|] eqn:Hp; [|done]. simpl in Hst.
  destruct p, a; try done; try (by injection Hst as <- <-);
    repeat match type of Hst with
      | context [sem_take ?n ?s] => destruct (sem_take n s) as [s'|] eqn:Et; [apply sem_take_value in Et | ]; simpl in Hst
      end; try done; injection Hst as <- <-; simpl;
    try match goal with |- context [<[i := ?q]> _] => pose proof (total_insert units _ _ _ q Hp) end;
    simpl in *; rewrite ?sem_give_value; lia.
Qed.

Lemma unlikely_run_inv tr l l' : Inv l -> run tr l = Some l' -> Inv l'.
Proof using All.
  revert l. induction tr as [|[i a] tr IH]; intros l Hl; simpl; [by intros [= <-]|].
  destruct (step i a l) as [[o l1]|] eqn:E; [|done]. apply IH. by eapply unlikely_step_inv.
Qed.

Lemma total_units l :
  total units l = length (filter (fun p => p = Inside) l) + max_units * length (filter (fun p => p = Owner) l).
Proof.
  unfold total. induction l as [|[] l IH]; simpl; [lia | | | |]; rewrite !filter_cons;
    repeat case_decide; try done; simpl; lia.
Qed.

Lemma quiet_units l : Forall (fun p => p = Outside \/ p = Acquiring) l <-> total units l = 0.
Proof.
  pose proof max_units_pos. unfold total. induction l as [|p l IH]; simpl; [done|]. rewrite Forall_cons.
  split; [intros [[-> | ->] ?%IH]; simpl; lia|]. intros Hz. split; [|apply IH; lia].
  destruct p; simpl in Hz; [by left | lia | by right | lia].
Qed.

Lemma owners_units l : Forall (fun p => p <> Owner) l <-> length (filter (fun p => p = Owner) l) = 0.
Proof.
  induction l as [|p l IH]; simpl; [done|]. rewrite Forall_cons, filter_cons. case_decide; simpl; [naive_solver lia|].
  rewrite <- IH. naive_solver.
Qed.

(** C37. The unlikely lock excludes: whatever any number of threads do, while one
    is the owner no other is inside or the owner; at most as many are inside as
    the lock has units; [acquire] is granted exactly when nobody is inside or the
    owner; [enter] returns false while there is an owner; and while nobody owns the lock or
    waits for it, [enter], unless its try loses a race, returns true exactly
    when the number inside is not yet at its limit. *)
Theorem unlikely_lock_excludes k tr l :
  run tr (new_lock k) = Some l ->
  (forall i j p, pcs l !! i = Some Owner -> pcs l !! j = Some p -> i <> j -> p = Outside \/ p = Acquiring) /\
  length (filter (fun p => p = Inside) (pcs l)) <= max_units /\
  (forall i, pcs l !! i = Some Acquiring ->
     (exists l', step i Granted l = Some (Some true, l') /\ pcs l' !! i = Some Owner) <->
     Forall (fun p => p = Outside \/ p = Acquiring) (pcs l)) /\
  (forall i, pcs l !! i = Some Outside ->
     exists b l', step i Enter l = Some (Some b, l') /\ (b = false -> l' = l) /\
       (Owner ∈ pcs l -> b = false) /\
       (Forall (fun p => p = Outside \/ p = Inside) (pcs l) ->
          (b = true <-> length (filter (fun p => p = Inside) (pcs l)) < max_units))).
Proof using All.
  intros Hrun. pose proof (unlikely_run_inv tr _ _ (new_lock_inv k) Hrun) as Hinv. unfold Inv in Hinv.
  pose proof max_units_pos as Hm. pose proof (total_units (pcs l)) as Ht. split_and!.
  - intros i j p Hi Hj Hij. pose proof (total_lookup2 units _ _ _ _ _ Hi Hj Hij) as Hu.
    destruct p; simpl in Hu; [by left | lia | by right | lia].
  - lia.
  - intros i Hi. split.
    + intros (l' & Hst & _). unfold step in Hst. rewrite Hi in Hst. simpl in Hst.
      destruct (sem_take max_units (m_Semaphore l)) as [s|] eqn:Et; [|done]. apply sem_take_value in Et.
      apply quiet_units. lia.
    + intros Hq%quiet_units. destruct (sem_take_covered max_units (m_Semaphore l)) as [s Et]; [lia|].
      eexists. split; [unfold step; rewrite Hi; simpl; by rewrite Et|]. simpl.
      apply list_lookup_insert_eq. by eapply lookup_lt_Some.
  - intros i Hi. unfold step. rewrite Hi. simpl. pose proof (owners_units (pcs l)) as Ho.
    destruct (sem_take 1 (m_Semaphore l)) as [s|] eqn:Et.
    + apply sem_take_value in Et. eexists true, _. split; [done|]. split; [done|].
      assert (Hz : length (filter (fun p => p = Owner) (pcs l)) = 0) by nia.
      split; [|split; [lia|done]]. intros Hown. apply Ho in Hz. rewrite Forall_forall in Hz. by destruct (Hz Owner).
    + exists false, l. split; [done|]. split; [done|]. split; [done|]. intros Hquiet. split; [done|]. intros Hlt. exfalso.
      assert (Hno : length (filter (fun p => p = Owner) (pcs l)) = 0).
      { apply Ho. eapply Forall_impl; [exact Hquiet|]. by intros p [-> | ->]. }
      destruct (sem_take_covered 1 (m_Semaphore l)) as [s Es]; [rewrite Hno in Ht; lia | congruence].
Qed.

End UnlikelyLock.

(** Three threads: two go in, the third waits for both and then owns the lock. *)
Definition three : list (nat * call) :=
  [(0, Enter); (1, Enter); (2, Acquire); (2, Interrupted); (0, Leave); (1, Leave); (2, Granted)].

Lemma unlikely_lock_excludes_witness :
  exists l, run three (new_lock (S := nat) 3) = Some l /\ pcs l !! 2 = Some Owner /\ pcs l !! 0 = Some Outside /\
    exists b l', step 0 Enter l = Some (Some b, l').
Proof.
  assert (H : is_Some (run three (new_lock (S := nat) 3))) by (vm_compute; eauto).
  destruct (run three (new_lock (S := nat) 3)) as [l|] eqn:E; [|by destruct H].
  assert (E2 : pcs l = [Outside; Outside; Owner]).
  { apply (f_equal (option_map pcs)) in E. vm_compute in E. by injection E. }
  exists l. rewrite E2. split; [done|]. split; [done|]. split; [done|].
  destruct (unlikely_lock_excludes (S := nat) 3 three l E) as (_ & _ & _ & H4).
  destruct (H4 0 ltac:(by rewrite E2)) as (b & l' & Hs & _). by exists b, l'.
Defined.

(** The documentation promises that once a thread asks for the lock, the others
    can never enter again; but a thread that waits in [acquire] keeps nobody out. *)
Example waiting_keeps_nobody_out :
  option_map pcs (run [(0, Enter); (1, Acquire); (1, Interrupted); (2, Enter); (0, Leave); (1, Interrupted); (0, Enter)]
    (new_lock (S := nat) 3)) = Some [Inside; Acquiring; Inside].
Proof. vm_compute. reflexivity. Qed.
