(* ===== verification/MemoryPool.v ===== *)
(** * MemoryPool

    [src/system/kernel/utilities/MemoryPool.cc]: buffers of one size out of a
    region of memory, found with an [ExtensibleBitmap] and counted with a
    semaphore.  Threads interleave at the calls of the semaphore and at the
    critical sections of [m_BitmapLock]; the semaphore is what [Counting]
    says, the bitmap is the one of [Bitmap], and pointers have 32 bits as there.
    [intr] tells whether the wait of [allocate] may be interrupted; its result
    is ignored. *)
From Stdlib Require Import ZArith Lia List Bool.
From stdpp Require Import base gmap list.
From S2P Require Import Prelude Bitmap Counting.
Import ListNotations.
Local Open Scope Z_scope.
#[local] Set Warnings "-clear-no-such-hyp".

Section MemoryPool.
Context {S : Type} `{CountingSemaphore S} (intr : bool).

(** Where a thread is: in [allocate] after its unit was taken, in [free] before
    the unit is given back. *)
Inductive pc := Idle | Acquired | Freed.

(** [live] records the buffers handed out and not yet freed; it is not part of
    the code's state. *)
Record MemoryPool := mkPool {
  m_BlockSemaphore : S;
  m_BufferSize : Z;
  virtualAddress : Z;
  pool_size : Z;
  m_bInitialised : bool;
  m_AllocBitmap : ExtensibleBitmap;
  pcs : list pc;
  live : list Z
}.

Definition new_pool (k : nat) : MemoryPool :=
  mkPool (sem_new 0) 1024 0 0 false empty_bitmap (replicate k Idle) [].

(** ** [initialise]

    [region] is what [PhysicalMemoryManager::allocateRegion] gives: the address
    of a region of [poolSize] pages, or none. *)
Definition page_size : Z := 4096.

Fixpoint next_power (fuel : nat) (powerOf2 bufferSize : Z) : option Z :=
  match fuel with
  | O => None
  | Datatypes.S fuel' =>
      if powerOf2 <? bufferSize then next_power fuel' (wrap 32 (2 * powerOf2)) bufferSize else Some powerOf2
  end.

Definition rounded (bufferSize : Z) : option Z :=
  if Z.land bufferSize (bufferSize - 1) =? 0 then next_power 33 1 bufferSize else Some bufferSize.

Definition initialise (region : option Z) (poolSize bufferSize : Z) (p : MemoryPool) : option (bool * MemoryPool) :=
  if m_bInitialised p then Some (true, p)
  else if (poolSize =? 0) || (bufferSize =? 0) || (wrap 32 (poolSize * page_size) <? bufferSize) then Some (false, p)
  else
    bufferSize ← rounded bufferSize;
    match region with
    | None => Some (false, mkPool (m_BlockSemaphore p) bufferSize (virtualAddress p) (pool_size p) false
                                  (m_AllocBitmap p) (pcs p) (live p))
    | Some a =>
        let nBuffers := wrap 32 (poolSize * 0x1000) / bufferSize in
        Some (true, mkPool (sem_give (Z.to_nat nBuffers) (m_BlockSemaphore p)) bufferSize a
                           (wrap 32 (poolSize * page_size)) true (m_AllocBitmap p) (pcs p) (live p))
    end.

(** The destructor. *)
Definition destroy (p : MemoryPool) : MemoryPool :=
  mkPool (if (sem_value (m_BlockSemaphore p) =? 0)%nat then sem_give 1 (m_BlockSemaphore p) else m_BlockSemaphore p)
         (m_BufferSize p) (virtualAddress p) (pool_size p) false (m_AllocBitmap p) (pcs p) (live p).

(** ** Allocation and release *)

Definition goto (i : nat) (q : pc) (s : S) (p : MemoryPool) : MemoryPool :=
  mkPool s (m_BufferSize p) (virtualAddress p) (pool_size p) (m_bInitialised p) (m_AllocBitmap p) (<[i := q]> (pcs p)) (live p).

Definition put_bitmap (b : ExtensibleBitmap) (l : list Z) (p : MemoryPool) : MemoryPool :=
  mkPool (m_BlockSemaphore p) (m_BufferSize p) (virtualAddress p) (pool_size p) (m_bInitialised p) b (pcs p) l.

(** The buffer, or 0 after the message that there is none. *)
Definition allocateDoer (fuel : nat) (p : MemoryPool) : option (Z * MemoryPool) :=
  let nBuffers := pool_size p / m_BufferSize p in
  match getFirstClear 32 fuel (m_AllocBitmap p) with
  | None => None
  | Some (n, b) =>
      if nBuffers <=? n then Some (0, put_bitmap b (live p) p)
      else
        match set 32 fuel n b with
        | None => None
        | Some (_, b') =>
            let a := wrap 32 (virtualAddress p + n * 0x1000) in Some (a, put_bitmap b' (a :: live p) p)
        end
  end.

(** The critical section of [free]. *)
Definition free_bit (buffer : Z) (p : MemoryPool) : option MemoryPool :=
  let n := wrap 32 (buffer - virtualAddress p) / m_BufferSize p in
  match clear 32 n (m_AllocBitmap p) with
  | None => None
  | Some (_, b) => Some (put_bitmap b (filter (fun a => a <> buffer) (live p)) p)
  end.

Inductive call := Allocate | AllocateNow | Interrupted | Free (buffer : Z) | Go.

(** A step of the thread [i], with the result of a call that ends. *)
Definition step (fuel : nat) (i : nat) (c : call) (p : MemoryPool) : option (option Z * MemoryPool) :=
  q ← pcs p !! i;
  match q, c with
  | Idle, Allocate =>
      if m_bInitialised p then s ← sem_take 1 (m_BlockSemaphore p); Some (None, goto i Acquired s p) else Some (Some 0, p)
  | Idle, AllocateNow =>
      if m_bInitialised p then
        match sem_take 1 (m_BlockSemaphore p) with
        | Some s => Some (None, goto i Acquired s p)
        | None => Some (Some 0, p)
        end
      else Some (Some 0, p)
  | Idle, Interrupted =>
      if intr && m_bInitialised p then Some (None, goto i Acquired (m_BlockSemaphore p) p) else None
  | Acquired, Go =>
      '(a, p') ← allocateDoer fuel p; Some (Some a, goto i Idle (m_BlockSemaphore p') p')
  | Idle, Free buffer =>
      if m_bInitialised p then p' ← free_bit buffer p; Some (None, goto i Freed (m_BlockSemaphore p') p')
      else Some (None, p)
  | Freed, Go => Some (None, goto i Idle (sem_give 1 (m_BlockSemaphore p)) p)
  | _, _ => None
  end.

(** Clients free buffers they have, and a blocked [allocate] takes no step. *)
Definition enabled (i : nat) (c : call) (p : MemoryPool) : Prop :=
  match pcs p !! i, c with
  | Some Idle, Allocate => m_bInitialised p = true -> (0 < sem_value (m_BlockSemaphore p))%nat
  | Some Idle, Free buffer => buffer ∈ live p
  | Some Idle, Interrupted => intr = true /\ m_bInitialised p = true
  | Some Idle, AllocateNow => True
  | Some Acquired, Go | Some Freed, Go => True
  | _, _ => False
  end.

(** [eventually f r]: with enough fuel, [f] gives [r]. *)
Definition eventually {A} (f : nat -> option A) (r : A) : Prop :=
  exists N, forall fuel, (N <= fuel)%nat -> f fuel = Some r.

Inductive reaches (p : MemoryPool) : MemoryPool -> Prop :=
  | reaches_refl : reaches p p
  | reaches_step p1 i c o p2 : reaches p p1 -> enabled i c p1 -> eventually (fun fuel => step fuel i c p1) (o, p2) ->
      reaches p p2.

(** The steps of calls that come one after the other: no allocation takes a unit while another
    one is between its own and [allocateDoer]. *)
Definition orderly (i : nat) (c : call) (p : MemoryPool) : Prop :=
  enabled i c p /\
  match c with Allocate | AllocateNow => Forall (fun q => q <> Acquired) (pcs p) | _ => True end.

Inductive reaches_orderly (p : MemoryPool) : MemoryPool -> Prop :=
  | orderly_refl : reaches_orderly p p
  | orderly_step p1 i c o p2 : reaches_orderly p p1 -> orderly i c p1 -> eventually (fun fuel => step fuel i c p1) (o, p2) ->
      reaches_orderly p p2.

Lemma orderly_reaches p p' : reaches_orderly p p' -> reaches p p'.
Proof. induction 1 as [|p1 i c o p2 _ IH [He _] Hst]; [constructor|]. by eapply reaches_step. Qed.

(** ** Pools whose buffers are pages *)

Context (base nB : Z) (Hbase : 0 <= base) (HnB : 0 < nB <= 2 ^ 19) (Hend : base + nB * 4096 <= 2 ^ 32).

Definition slot (n : Z) : Z := base + n * 4096.

(** The units a thread holds for itself. *)
Definition units (q : pc) : nat := match q with Idle => 0 | _ => 1 end.

Record Inv (p : MemoryPool) : Prop := {
  inv_shape : m_BufferSize p = 4096 /\ virtualAddress p = base /\ pool_size p = nB * 4096 /\ m_bInitialised p = true;
  inv_bits : exists X, represents (m_AllocBitmap p) X /\ forall n, 0 <= n -> n ∈ X <-> slot n ∈ live p;
  inv_nodup : NoDup (live p);
  inv_slots : forall a, a ∈ live p -> exists n, 0 <= n < nB /\ a = slot n;
  inv_units : (sem_value (m_BlockSemaphore p) + total units (pcs p) + length (live p))%nat = Z.to_nat nB
}.

Lemma slot_inj m n : slot m = slot n -> m = n.
Proof. unfold slot. lia. Qed.

Lemma slot_back n : 0 <= n < nB -> wrap 32 (slot n) = slot n /\ wrap 32 (slot n - base) / 4096 = n.
Proof.
  intros Hn. unfold slot. assert (Hw : 0 <= base + n * 4096 < 2 ^ 32) by nia. split; [by apply wrap_small|].
  replace (base + n * 4096 - base) with (n * 4096) by lia. rewrite wrap_small by (split; nia). apply Z.div_mul. lia.
Qed.

(** As many buffers as the pool has cannot all be in use while a unit is out. *)
Lemma free_slot l c : NoDup l -> (length l < Z.to_nat nB)%nat -> 0 <= c ->
  (forall i, 0 <= i < c -> slot i ∈ l) -> c < nB.
Proof.
  intros Hnd Hl Hc Hall. destruct (Z.ltb_spec c nB) as [|Hge]; [done|]. exfalso.
  set (all := map (fun k => slot (Z.of_nat k)) (seq 0 (Z.to_nat nB))).
  assert (Ha : length all = Z.to_nat nB) by (unfold all; by rewrite length_map, length_seq).
  assert (length all <= length l)%nat; [|lia]. apply NoDup_incl_length.
  - apply NoDup_ListNoDup. unfold all. apply NoDup_fmap_2; [|apply NoDup_seq]. intros x y E%slot_inj. lia.
  - intros a Hin. unfold all in Hin. apply in_map_iff in Hin as (k & <- & Hk%in_seq).
    apply list_elem_of_In, Hall. lia.
Qed.

Lemma clearable_held b X n : represents b X -> n ∈ X -> clearable b n.
Proof.
  intros [_ HX] Hn -> Hnone. specialize (HX 32 ltac:(lia)). unfold holds in HX.
  rewrite bool_decide_eq_true_2 in HX by done. rewrite Hnone in HX. simpl in HX. done.
Qed.

Lemma length_filter_ne a l : NoDup l -> a ∈ l -> (length (filter (fun x : Z => x <> a) l) + 1 = length l)%nat.
Proof.
  induction 1 as [|x l Hx Hnd IH]; intros Ha; [by apply not_elem_of_nil in Ha|]. rewrite filter_cons.
  apply elem_of_cons in Ha as [->|Ha].
  - rewrite decide_False by (intros H'; by apply H'). simpl. f_equal.
    assert (E : filter (fun y : Z => y <> x) l = l); [|rewrite E; lia].
    clear IH. induction l as [|y l IHl]; [done|]. rewrite not_elem_of_cons in Hx. inversion_clear Hnd.
    rewrite filter_cons, decide_True by naive_solver. f_equal. apply IHl; [naive_solver|done].
  - rewrite decide_True by (intros ->; done). simpl. specialize (IH Ha). lia.
Qed.

(** What a thread does to the units when it goes from [q] to [q']. *)
Lemma units_insert p i q q' : pcs p !! i = Some q ->
  (total units (<[i := q']> (pcs p)) + units q = total units (pcs p) + units q')%nat.
Proof. apply total_insert. Qed.

Lemma allocate_run p i : Inv p -> pcs p !! i = Some Acquired ->
  exists n p', eventually (fun fuel => step fuel i Go p) (Some (slot n), p') /\ Inv p' /\
    0 <= n < nB /\ (slot n ∉ live p) /\ live p' = slot n :: live p.
Proof.
  intros [(Hbs & Hva & Hps & Hin) (X & HX & Hbits) Hnd Hsl Hu] Hi.
  destruct (first_clear_represents _ _ HX) as (c & b1 & Hrun1 & HX1 & Hc & HcX & Hbelow).
  pose proof (units_insert p i _ Idle Hi) as Hins. simpl in Hins.
  assert (HcB : c < nB).
  { apply (free_slot (live p)); [done | lia | done |]. intros k Hk. apply Hbits; [lia|]. by apply Hbelow. }
  destruct (set_represents b1 X c HX1) as (b2 & Hrun2 & HX2 & _); [lia|].
  destruct (slot_back c ltac:(lia)) as [Hw _].
  exists c, (goto i Idle (m_BlockSemaphore p) (put_bitmap b2 (slot c :: live p) p)). split; [|split; [|split_and!; try done]].
  - exists (Nat.max (loop_fuel (m_AllocBitmap p)) (loop_fuel b1)). intros fuel Hf. unfold step. rewrite Hi. simpl. unfold allocateDoer.
    rewrite (Hrun1 fuel) by lia. rewrite Hps, Hbs, Z.div_mul by lia. rewrite (proj2 (Z.leb_gt _ _)) by lia.
    rewrite (Hrun2 fuel) by lia. simpl. rewrite Hva. change (base + c * 4096) with (slot c). by rewrite Hw.
  - split; simpl; [done | | | |].
    + exists ({[c]} ∪ X). split; [done|]. intros n Hn. rewrite elem_of_union, elem_of_singleton, elem_of_cons, Hbits by done.
      split; [intros [->|?]; auto | intros [E|?]; [left; by apply slot_inj | by right]].
    + constructor; [|done]. by rewrite <- Hbits.
    + intros a [->|Ha]%elem_of_cons; [by exists c | by apply Hsl].
    + lia.
  - by rewrite <- Hbits.
Qed.

Lemma pool_free_run p i a : Inv p -> pcs p !! i = Some Idle -> a ∈ live p ->
  exists p', (forall fuel, step fuel i (Free a) p = Some (None, p')) /\ Inv p' /\
    live p' = filter (fun x => x <> a) (live p).
Proof.
  intros [(Hbs & Hva & Hps & Hin) (X & HX & Hbits) Hnd Hsl Hu] Hi Ha.
  pose proof (units_insert p i _ Freed Hi) as Hins. simpl in Hins. destruct (Hsl a Ha) as (n & Hn & ->).
  destruct (slot_back n Hn) as [_ Hb]. assert (HnX : n ∈ X) by (apply Hbits; [lia|done]).
  destruct (clear_represents _ X n HX) as (b & Hrun & HXb); [lia | by eapply clearable_held |].
  eexists. split; [|split].
  - intros fuel. unfold step. rewrite Hi. simpl. rewrite Hin. unfold free_bit. rewrite Hva, Hbs, Hb, Hrun. simpl. reflexivity.
  - pose proof (length_filter_ne _ _ Hnd Ha) as Hlen. split; simpl; [done | | | | lia].
    + exists (X ∖ {[n]}). split; [done|]. intros k Hk. rewrite elem_of_difference, elem_of_singleton, list_elem_of_filter, Hbits by done.
      split; intros [H1 H2]; split; try done; [intros E; by apply H2, slot_inj | intros ->; by apply H1].
    + by apply NoDup_filter.
    + intros x [_ Hx]%list_elem_of_filter. by apply Hsl.
  - done.
Qed.

(** The steps that touch only the semaphore. *)
Lemma pool_goto_inv p i q q' s : Inv p -> pcs p !! i = Some q ->
  (sem_value s + units q' = sem_value (m_BlockSemaphore p) + units q)%nat -> Inv (goto i q' s p).
Proof.
  intros [H1 H2 H3 H4 H5] Hi Hs. pose proof (units_insert p i _ q' Hi) as Hins. split; simpl; try done. lia.
Qed.

Lemma eventually_unique {A} (f : nat -> option A) r1 r2 : eventually f r1 -> eventually f r2 -> r1 = r2.
Proof. intros [N1 H1] [N2 H2]. specialize (H1 (Nat.max N1 N2) ltac:(lia)). specialize (H2 (Nat.max N1 N2) ltac:(lia)). congruence. Qed.

Lemma eventually_always {A} (f : nat -> option A) r : (forall fuel, f fuel = Some r) -> eventually f r.
Proof. by exists 0%nat. Qed.

Lemma enabled_step p i c : intr = false -> Inv p -> enabled i c p ->
  exists o p', eventually (fun fuel => step fuel i c p) (o, p') /\ Inv p'.
Proof using All.
  intros Hintr Hinv He. pose proof Hinv as [(_ & _ & _ & Hin) _ _ _ _]. unfold enabled in He.
  destruct (pcs p !! i) as [q|] eqn:Hi; [|done].
  destruct q, c as [| | |a|]; try done.
  - specialize (He Hin). destruct (sem_take_covered 1 (m_BlockSemaphore p)) as [s Es]; [lia|].
    eexists _, _. split; [apply eventually_always; intros fuel; unfold step; rewrite Hi; simpl; rewrite Hin, Es; simpl; reflexivity|].
    apply (pool_goto_inv p i Idle); [done..|]. apply sem_take_value in Es. simpl. lia.
  - destruct (sem_take 1 (m_BlockSemaphore p)) as [s|] eqn:Es.
    + eexists _, _. split; [apply eventually_always; intros fuel; unfold step; rewrite Hi; simpl; rewrite Hin, Es; reflexivity|].
      apply (pool_goto_inv p i Idle); [done..|]. apply sem_take_value in Es. simpl. lia.
    + eexists _, _. split; [apply eventually_always; intros fuel; unfold step; rewrite Hi; simpl; rewrite Hin, Es; reflexivity|done].
  - destruct He as [He _]. congruence.
  - destruct (pool_free_run p i a Hinv Hi He) as (p' & Hrun & Hinv' & _). exists None, p'.
    split; [by apply eventually_always | done].
  - destruct (allocate_run p i Hinv Hi) as (n & p' & Hrun & Hinv' & _). by exists (Some (slot n)), p'.
  - eexists _, _. split; [apply eventually_always; intros fuel; unfold step; rewrite Hi; reflexivity|].
    apply (pool_goto_inv p i Freed); [done..|]. rewrite sem_give_value. simpl. lia.
Qed.

Lemma rounded_page : rounded 4096 = Some 4096.
Proof. vm_compute. reflexivity. Qed.

(** Whatever the threads do, in any order and without interruption. *)
Lemma pool_any_order k :
  intr = false ->
  exists p0, initialise (Some base) nB 4096 (new_pool k) = Some (true, p0) /\
  forall p, reaches p0 p ->
    (forall i c, enabled i c p -> exists o p', eventually (fun fuel => step fuel i c p) (o, p')) /\
    (forall i, pcs p !! i = Some Acquired ->
       exists n p', eventually (fun fuel => step fuel i Go p) (Some (slot n), p') /\
         0 <= n < nB /\ (slot n ∉ live p) /\ live p' = slot n :: live p) /\
    NoDup (live p) /\ (forall a, a ∈ live p -> exists n, 0 <= n < nB /\ a = slot n) /\
    (sem_value (m_BlockSemaphore p) + total units (pcs p) + length (live p))%nat = Z.to_nat nB.
Proof using All.
  intros Hintr.
  assert (Hw : wrap 32 (nB * page_size) = nB * 4096) by (apply wrap_small; unfold page_size; split; nia).
  eexists. split.
  { unfold initialise. rewrite rounded_page, Hw. simpl. destruct (Z.eqb_spec nB 0); [lia|]. simpl.
    destruct (Z.ltb_spec (nB * 4096) 4096); [lia|]. reflexivity. }
  match goal with |- forall p, reaches ?x p -> _ => set (p0 := x) end.
  assert (H0 : Inv p0).
  { subst p0. split; simpl; try done.
    - exists ∅. split; [apply empty_represents|]. intros n _. split; [set_solver | by intros ?%not_elem_of_nil].
    - constructor.
    - by intros a ?%not_elem_of_nil.
    - rewrite sem_give_value, sem_new_value, total_zero by by apply Forall_replicate.
      change (nB * 4096) with (nB * page_size). rewrite Hw, Z.div_mul by lia. lia. }
  intros p Hp. assert (Hinv : Inv p).
  { induction Hp as [|p1 i c o p2 _ IH He Hst]; [done|].
    destruct (enabled_step p1 i c Hintr IH He) as (o' & p' & Hst' & Hinv').
    by pose proof (eventually_unique _ _ _ Hst Hst') as [= -> ->]. }
  split_and!.
  - intros i c He. destruct (enabled_step p i c Hintr Hinv He) as (o & p' & Hst & _). by exists o, p'.
  - intros i Hi. destruct (allocate_run p i Hinv Hi) as (n & p' & Hrun & _ & Hrest). by exists n, p'.
  - apply Hinv.
  - apply Hinv.
  - apply Hinv.
Qed.

(** C38. A pool whose buffers are pages works: from its initialisation on, whatever the
    threads do (freeing only what they were given, without interrupted waits, and with no
    allocation that takes its unit between the unit and the buffer of another one),
    every step that is enabled completes without a fault; an allocation that got its unit
    returns a page of the region that nobody has, never the 0 of the message that
    there are no buffers; all the buffers in use are different pages of the
    region; and the semaphore, the calls in progress and the buffers in use
    always add up to the number of pages. *)
Theorem memory_pool_correct k :
  intr = false ->
  exists p0, initialise (Some base) nB 4096 (new_pool k) = Some (true, p0) /\
  forall p, reaches_orderly p0 p ->
    (forall i c, orderly i c p -> exists o p', eventually (fun fuel => step fuel i c p) (o, p')) /\
    (forall i, pcs p !! i = Some Acquired ->
       exists n p', eventually (fun fuel => step fuel i Go p) (Some (slot n), p') /\
         0 <= n < nB /\ (slot n ∉ live p) /\ live p' = slot n :: live p) /\
    NoDup (live p) /\ (forall a, a ∈ live p -> exists n, 0 <= n < nB /\ a = slot n) /\
    (sem_value (m_BlockSemaphore p) + total units (pcs p) + length (live p))%nat = Z.to_nat nB.
Proof using All.
  intros Hintr. destruct (pool_any_order k Hintr) as (p0 & H0 & Hall). exists p0. split; [exact H0|].
  intros p Hp. destruct (Hall p (orderly_reaches _ _ Hp)) as (H1 & H2). split; [|exact H2].
  intros i c [He _]. by apply H1.
Qed.

End MemoryPool.

(** ** Runs of one thread *)

Fixpoint run {S : Type} `{CountingSemaphore S} (fuel : nat) (tr : list call) (p : MemoryPool) : option (list Z * MemoryPool) :=
  match tr with
  | [] => Some ([], p)
  | c :: tr' =>
      '(o, p') ← step (S := S) false fuel 0 c p; '(l, p2) ← run fuel tr' p';
      Some (match o with Some a => a :: l | None => l end, p2)
  end.

(** A pool at address 65536, with the given number of pages and size of the
    buffers, and the results of the allocations. *)
Definition pool_run (pages bufferSize : Z) (tr : list call) : option (list Z * MemoryPool) :=
  '(_, p) ← initialise (S := nat) (Some 65536) pages bufferSize (new_pool 1); run 40 tr p.

Definition alloc (n : nat) : list call := concat (replicate n [Allocate; Go]).

Lemma memory_pool_correct_witness :
  exists p0, initialise (Some 65536) 4 4096 (new_pool (S := nat) 2) = Some (true, p0) /\
    NoDup (live p0) /\ m_BlockSemaphore p0 = 4%nat.
Proof.
  destruct (memory_pool_correct (S := nat) false 65536 4 ltac:(lia) ltac:(lia) ltac:(lia) 2 eq_refl)
    as (p0 & H0 & Hall).
  exists p0. split; [done|]. destruct (Hall p0 (orderly_refl _ p0)) as (_ & _ & Hnd & _ & _). split; [done|].
  apply (f_equal (option_map (fun r => m_BlockSemaphore (snd r)))) in H0. vm_compute in H0. by injection H0.
Defined.

(** ** What the code gets wrong

    The address of a buffer is its number times the size of a page, while [free]
    divides by the size of a buffer.  With the default size of 1024 bytes the second
    buffer of a pool of one page lies outside the pool, *)
Example buffer_outside_pool : fst <$> pool_run 1 1024 (alloc 2) = Some [65536; 65536 + 4096].
Proof. vm_compute. reflexivity. Qed.

(** freeing the second of five buffers frees the fifth instead, which is then
    handed out twice, *)
Example buffer_twice :
  (fun r => (fst r, live (snd r))) <$> pool_run 8 1024 (alloc 5 ++ [Free (65536 + 4096); Go] ++ alloc 1) =
  Some ([65536; 69632; 73728; 77824; 81920; 81920], [81920; 81920; 77824; 73728; 65536]).
Proof. vm_compute. reflexivity. Qed.

(** and buffers larger than a page overlap. *)
Example buffers_overlap : fst <$> pool_run 4 8192 (alloc 2) = Some [65536; 65536 + 4096].
Proof. vm_compute. reflexivity. Qed.

(** The size is documented to be rounded to the next power of two; the test is
    the wrong way round, and only the powers of two are. *)
Example not_rounded : rounded 1600 = Some 1600 /\ rounded 2048 = Some 2048.
Proof. vm_compute. auto. Qed.
