(* ===== verification/RingBuffer.v ===== *)
(** * RingBuffer<T>

    [include/utilities/RingBuffer.h]: a bounded queue guarded by two counting
    semaphores.  Threads interleave at the calls of the semaphores and at the
    beginning and the end of the calls of the list; a semaphore is what [Semaphore]
    promises, a counter from which [acquire] takes when it covers the request.  The list
    has no lock: a call of it that begins while another thread is in one is a data race,
    after which nothing is known, and [step] has no result.  [intr] tells whether a blocked
    [acquire] may be interrupted, in which case it returns false and the ring
    buffer goes on as if it had returned true. *)
From Stdlib Require Import ZArith Lia List Bool.
From stdpp Require Import base gmap list.
From S2P Require Import Prelude Counting.
Import ListNotations.
Local Open Scope nat_scope.

Section Ring.
Context {S : Type} `{CountingSemaphore S} {T : Type} (zero : T) (intr : bool).

(** Where a thread is: in [write] with the objects to write, the number it
    acquired for, in [read] with the number still to read and what it has. *)
Inductive pc : Type :=
| Idle
| WAcquire (objs : list T)
| WPush (objs : list T) (n : nat)
| WPushing (obj : T) (objs : list T) (n : nat)
| WRelease (n : nat)
| RAcquire (n : nat)
| RPop (left n : nat) (got : list T)
| RPopping (left n : nat) (got : list T)
| RRelease (n : nat) (got : list T)
| Notify
| WaitRead
| WaitWrite.

(** [written] and [taken] record the objects that entered and left the ring;
    they are not part of the code's state. *)
Record RingBuffer := mkRing {
  m_RingSize : nat;
  m_ReadSem : S;
  m_WriteSem : S;
  m_Ring : list T;
  m_MonitorTargets : list (positive * positive);
  sent : list (positive * positive);
  pcs : list pc;
  written : list T;
  taken : list T
}.

(** A ring buffer used by [k] threads. *)
Definition new_ring (ringSize k : nat) : RingBuffer :=
  mkRing ringSize (sem_new 0) (sem_new ringSize) [] [] [] (replicate k Idle) [] [].

Definition goto (i : nat) (p : pc) (s : RingBuffer) : RingBuffer :=
  mkRing (m_RingSize s) (m_ReadSem s) (m_WriteSem s) (m_Ring s) (m_MonitorTargets s) (sent s)
         (<[i := p]> (pcs s)) (written s) (taken s).
Definition with_sems (r w : S) (s : RingBuffer) : RingBuffer :=
  mkRing (m_RingSize s) r w (m_Ring s) (m_MonitorTargets s) (sent s) (pcs s) (written s) (taken s).
Definition pushBack (x : T) (s : RingBuffer) : RingBuffer :=
  mkRing (m_RingSize s) (m_ReadSem s) (m_WriteSem s) (m_Ring s ++ [x]) (m_MonitorTargets s) (sent s) (pcs s)
         (written s ++ [x]) (taken s).
(** [popFront] of an empty list returns 0. *)
Definition popFront (s : RingBuffer) : T * RingBuffer :=
  match m_Ring s with
  | [] => (zero, s)
  | x :: l => (x, mkRing (m_RingSize s) (m_ReadSem s) (m_WriteSem s) l (m_MonitorTargets s) (sent s) (pcs s)
                         (written s) (taken s ++ [x]))
  end.
(** [monitor] and [notifyMonitors], under the lock. *)
Definition monitor (t e : positive) (s : RingBuffer) : RingBuffer :=
  mkRing (m_RingSize s) (m_ReadSem s) (m_WriteSem s) (m_Ring s) (m_MonitorTargets s ++ [(t, e)]) (sent s) (pcs s)
         (written s) (taken s).
Definition notifyMonitors (s : RingBuffer) : RingBuffer :=
  mkRing (m_RingSize s) (m_ReadSem s) (m_WriteSem s) (m_Ring s) [] (sent s ++ m_MonitorTargets s) (pcs s)
         (written s) (taken s).

Definition dataReady (s : RingBuffer) : bool := 0 <? sem_value (m_ReadSem s).
Definition canWrite (s : RingBuffer) : bool := 0 <? sem_value (m_WriteSem s).

Inductive action : Type :=
| Write (obj : T)
| WriteN (objs : list T)
| Read
| ReadN (n : nat)
| WaitFor (writing : bool)
| Monitor (t e : positive)
| Go
| Interrupted.

(** Whether a thread is in a call of the list. *)
Definition in_list (p : pc) : bool := match p with WPushing _ _ _ | RPopping _ _ _ => true | _ => false end.

(** A call of the list begins. *)
Definition enter_list (i : nat) (p : pc) (s : RingBuffer) : option RingBuffer :=
  if existsb in_list (pcs s) then None else Some (goto i p s).

(** An [acquire] of [n] items in the thread [i]. *)
Definition acquired (n : nat) (sem : S) (k : S -> RingBuffer) : option RingBuffer := option_map k (sem_take n sem).

Definition step (i : nat) (a : action) (s : RingBuffer) : option RingBuffer :=
  p ← pcs s !! i;
  match p, a with
  | Idle, Write x => Some (goto i (WAcquire [x]) s)
  | Idle, WriteN l => Some (goto i (WAcquire (firstn (if m_RingSize s <? length l then m_RingSize s else length l) l)) s)
  | Idle, Read => Some (goto i (RAcquire 1) s)
  | Idle, ReadN n => Some (goto i (RAcquire (if m_RingSize s <? n then m_RingSize s else n)) s)
  | Idle, WaitFor b => Some (goto i (if b then WaitWrite else WaitRead) s)
  | Idle, Monitor t e => Some (monitor t e s)
  | WAcquire l, Go => acquired (length l) (m_WriteSem s) (fun w => goto i (WPush l (length l)) (with_sems (m_ReadSem s) w s))
  | WAcquire l, Interrupted => if intr then Some (goto i (WPush l (length l)) s) else None
  | WPush (x :: l) n, Go => enter_list i (WPushing x l n) s
  | WPushing x l n, Go => Some (goto i (WPush l n) (pushBack x s))
  | WPush [] n, Go => Some (goto i (WRelease n) s)
  | WRelease n, Go => Some (goto i Notify (with_sems (sem_give n (m_ReadSem s)) (m_WriteSem s) s))
  | RAcquire n, Go => acquired n (m_ReadSem s) (fun r => goto i (RPop n n []) (with_sems r (m_WriteSem s) s))
  | RAcquire n, Interrupted => if intr then Some (goto i (RPop n n []) s) else None
  | RPop (Datatypes.S k) n got, Go => enter_list i (RPopping k n got) s
  | RPopping k n got, Go => let (x, s') := popFront s in Some (goto i (RPop k n (got ++ [x])) s')
  | RPop O n got, Go => Some (goto i (RRelease n got) s)
  | RRelease n got, Go => Some (goto i Notify (with_sems (m_ReadSem s) (sem_give n (m_WriteSem s)) s))
  | Notify, Go => Some (goto i Idle (notifyMonitors s))
  | WaitRead, Go => acquired 1 (m_ReadSem s) (fun r => goto i Idle (with_sems (sem_give 1 r) (m_WriteSem s) s))
  | WaitWrite, Go => acquired 1 (m_WriteSem s) (fun w => goto i Idle (with_sems (m_ReadSem s) (sem_give 1 w) s))
  | WaitRead, Interrupted | WaitWrite, Interrupted => if intr then Some (goto i Idle s) else None
  | _, _ => None
  end.

Fixpoint run (tr : list (nat * action)) (s : RingBuffer) : option RingBuffer :=
  match tr with
  | [] => Some s
  | (i, a) :: tr' => match step i a s with Some s' => run tr' s' | None => None end
  end.

(** ** Slots and objects in flight *)

Definition wheld (p : pc) : nat := match p with WPush l _ => length l | WPushing _ l _ => Datatypes.S (length l) | _ => 0 end.
Definition wdone (p : pc) : nat :=
  match p with WPush l n => n - length l | WPushing _ l n => n - Datatypes.S (length l) | WRelease n => n | _ => 0 end.
Definition rheld (p : pc) : nat := match p with RPop k _ _ => k | RPopping k _ _ => Datatypes.S k | _ => 0 end.
Definition rdone (p : pc) : nat := match p with RPop k n _ => n - k | RPopping k n _ => n - Datatypes.S k | RRelease n _ => n | _ => 0 end.
Definition pc_ok (p : pc) : Prop :=
  match p with
  | WPush l n => length l <= n
  | WPushing _ l n => Datatypes.S (length l) <= n
  | RPop k n _ => k <= n
  | RPopping k n _ => Datatypes.S k <= n
  | _ => True
  end.

Lemma total_idle f l : f Idle = 0 -> Forall (fun p => p = Idle) l -> total f l = 0.
Proof. intros Hf. induction 1 as [|p l -> _ IH]; unfold total in *; simpl; [done|]. lia. Qed.

(** Every slot is free, held by a writer, filled, or about to be freed by a
    reader; every object in the ring is announced, about to be announced, or
    claimed by a reader; objects leave in the order they came. *)
Record Inv (size : nat) (s : RingBuffer) : Prop := mkInv {
  inv_size : m_RingSize s = size;
  inv_slots : sem_value (m_WriteSem s) + total wheld (pcs s) + length (m_Ring s) + total rdone (pcs s) = size;
  inv_objects : sem_value (m_ReadSem s) + total rheld (pcs s) + total wdone (pcs s) = length (m_Ring s);
  inv_order : taken s ++ m_Ring s = written s;
  inv_pcs : Forall pc_ok (pcs s)
}.

Lemma new_ring_inv size k : Inv size (new_ring size k).
Proof.
  assert (Hidle : Forall (fun p => p = Idle) (replicate k Idle)) by by apply Forall_replicate.
  split; unfold new_ring; simpl; try done.
  - rewrite sem_new_value, !total_idle by done. lia.
  - rewrite sem_new_value, !total_idle by done. lia.
  - apply Forall_replicate. done.
Qed.

(** The bookkeeping of a thread that goes from [p] to [q]. *)
Lemma goto_inv size s i p q r w ring mt sn wr tk :
  Inv size s -> pcs s !! i = Some p -> pc_ok q ->
  sem_value w + wheld q + length ring + rdone q = sem_value (m_WriteSem s) + wheld p + length (m_Ring s) + rdone p ->
  sem_value r + rheld q + wdone q + length (m_Ring s) = sem_value (m_ReadSem s) + rheld p + wdone p + length ring ->
  tk ++ ring = wr ->
  Inv size (mkRing (m_RingSize s) r w ring mt sn (<[i := q]> (pcs s)) wr tk).
Proof.
  intros [H1 H2 H3 H4 H5] Hi Hq Hs Ho Ht.
  pose proof (total_insert wheld _ _ _ q Hi). pose proof (total_insert wdone _ _ _ q Hi).
  pose proof (total_insert rheld _ _ _ q Hi). pose proof (total_insert rdone _ _ _ q Hi).
  split; simpl; [done|lia|lia|done|]. by apply Forall_insert.
Qed.

Lemma ring_step_inv size i a s s' : intr = false -> Inv size s -> step i a s = Some s' -> Inv size s'.
Proof using All.
  intros Hintr Hinv Hst. pose proof Hinv as [H1 H2 H3 H4 H5]. unfold step in Hst.
  destruct (pcs s !! i) as [p|] eqn:Hi; [|done]. simpl in Hst.
  assert (Hp : pc_ok p) by (rewrite Forall_lookup in H5; by eapply H5).
  pose proof (total_insert rheld _ _ _ Idle Hi) as Hr. simpl in Hr. unfold acquired in Hst.
  destruct p as [|l|[|x l] n|x l n|n|n|[|k] n got|k n got|n got| | |], a; try done; rewrite ?Hintr in Hst; try done.
  all: unfold enter_list in Hst; try (destruct (existsb in_list (pcs s)); [done|]).
  all: try (injection Hst as <-; eapply (goto_inv size s i); [done|exact Hi|done|simpl in *; lia|simpl in *; lia|done]).
  - injection Hst as <-. eapply (goto_inv size s i); [done|exact Hi|by destruct writing|destruct writing; simpl; lia..|done].
  - injection Hst as <-. by split.
  - destruct (sem_take _ _) as [w|] eqn:Et; [|done]. injection Hst as <-. apply sem_take_value in Et.
    eapply (goto_inv size s i); [done|exact Hi|simpl; lia|simpl; lia..|done].
  - injection Hst as <-. simpl in Hp. eapply (goto_inv size s i); [done|exact Hi|simpl; lia|simpl; rewrite length_app; simpl; lia..|].
    simpl. by rewrite app_assoc, H4.
  - injection Hst as <-. eapply (goto_inv size s i); [done|exact Hi|done|simpl; rewrite ?sem_give_value; lia..|done].
  - destruct (sem_take _ _) as [r|] eqn:Et; [|done]. injection Hst as <-. apply sem_take_value in Et.
    eapply (goto_inv size s i); [done|exact Hi|simpl; lia|simpl; lia..|done].
  - unfold popFront in Hst. destruct (m_Ring s) as [|y l] eqn:Er; [simpl in *; lia|]. injection Hst as <-. simpl in Hp.
    eapply (goto_inv size s i); [done|exact Hi|simpl; lia|rewrite Er; simpl; lia..|]. simpl. rewrite <- app_assoc. simpl. congruence.
  - injection Hst as <-. eapply (goto_inv size s i); [done|exact Hi|done|simpl; rewrite ?sem_give_value; lia..|done].
  - destruct (sem_take _ _) as [r|] eqn:Et; [|done]. injection Hst as <-. apply sem_take_value in Et.
    eapply (goto_inv size s i); [done|exact Hi|done|simpl; rewrite ?sem_give_value; lia..|done].
  - destruct (sem_take _ _) as [w|] eqn:Et; [|done]. injection Hst as <-. apply sem_take_value in Et.
    eapply (goto_inv size s i); [done|exact Hi|done|simpl; rewrite ?sem_give_value; lia..|done].
Qed.

Lemma run_inv size tr s s' : intr = false -> Inv size s -> run tr s = Some s' -> Inv size s'.
Proof using All.
  intros Hintr. revert s. induction tr as [|[i a] tr IH]; intros s Hs; simpl; [by intros [= <-]|].
  destruct (step i a s) as [s1|] eqn:E; [|done]. apply IH. by eapply ring_step_inv.
Qed.

(** Two threads at the list, in the list or about to enter it, hold two slots or objects. *)
Definition at_list (p : pc) : bool :=
  match p with WPush (_ :: _) _ | WPushing _ _ _ | RPop (Datatypes.S _) _ _ | RPopping _ _ _ => true | _ => false end.

Lemma alone_in_one i j p q s : Inv 1 s -> pcs s !! i = Some p -> pcs s !! j = Some q ->
  at_list p = true -> in_list q = true -> i = j.
Proof.
  intros [H1 H2 H3 H4 H5] Hi Hj Hp Hq. destruct (decide (i = j)) as [|Hij]; [done|exfalso].
  pose proof (total_lookup2 wheld _ _ _ _ _ Hi Hj Hij) as Hw. pose proof (total_lookup2 rheld _ _ _ _ _ Hi Hj Hij) as Hr.
  destruct p as [| |[|? ?] ?| | | |[|?] ? ?| | | | |], q; simpl in *; try done; lia.
Qed.

(** C36. Used through semaphores that keep their promise, by any number of
    threads in any interleaving in which no wait is interrupted and no two threads are in
    the list at the same time, the ring buffer never
    holds more than its size, a reader that takes an object finds one, objects
    are read in the order they were written, [dataReady] and [canWrite] promise
    an object and a free slot, and when no call is in progress the two
    semaphores count exactly the objects and the free slots.  In a ring buffer of
    one slot the semaphores keep the threads apart: a call of the list never meets another. *)
Theorem ring_buffer_correct size k tr s :
  intr = false -> run tr (new_ring size k) = Some s ->
  length (m_Ring s) <= size /\
  taken s ++ m_Ring s = written s /\
  (forall i j n got, pcs s !! i = Some (RPopping j n got) -> m_Ring s <> []) /\
  (dataReady s = true -> m_Ring s <> []) /\
  (canWrite s = true -> length (m_Ring s) < size) /\
  (Forall (fun p => p = Idle) (pcs s) ->
     sem_value (m_ReadSem s) = length (m_Ring s) /\ sem_value (m_WriteSem s) = size - length (m_Ring s)) /\
  (size = 1 -> forall i p, pcs s !! i = Some p -> at_list p = true -> exists s', step i Go s = Some s').
Proof.
  intros Hintr Hrun. pose proof (run_inv size tr _ s Hintr (new_ring_inv size k) Hrun) as Hinv.
  pose proof Hinv as [H1 H2 H3 H4 H5].
  unfold dataReady, canWrite. split; [lia|]. split; [done|]. split; [|split; [|split; [|split]]].
  - intros i j n got Hi E. pose proof (total_insert rheld _ _ _ Idle Hi) as Hr. rewrite E in H3. simpl in *. lia.
  - intros Hd E. apply Nat.ltb_lt in Hd. rewrite E in H3. simpl in H3. lia.
  - intros Hd. apply Nat.ltb_lt in Hd. lia.
  - intros Hidle. rewrite !total_idle in H2, H3 by done. lia.
  - intros -> i p Hi Hp.
    assert (Hfree : in_list p = false -> existsb in_list (pcs s) = false).
    { intros Hn. apply not_true_iff_false. intros (q & Hq & Hl)%existsb_exists.
      apply list_elem_of_In, list_elem_of_lookup in Hq as [j Hj].
      pose proof (alone_in_one i j p q s Hinv Hi Hj Hp Hl) as ->. congruence. }
    unfold step. rewrite Hi. simpl.
    destruct p as [| |[|? ?] ?| | | |[|?] ? ?| | | | |]; simpl in Hp; try done; unfold enter_list; rewrite ?Hfree by done; eauto.
    destruct (popFront s). eauto.
Qed.

End Ring.

(** ** [cullMonitorTargets]

    The iterator is a position in the list; the second component of the result
    tells whether the lock was released. *)
Fixpoint cull_loop (fuel : nat) (t : positive) (l : list (positive * positive)) (pos : nat) : option (list (positive * positive) * bool) :=
  match fuel with
  | O => None
  | Datatypes.S fuel' =>
      match l !! pos with
      | None => Some (l, true)
      | Some (u, _) =>
          if bool_decide (u = t) then
            match delete pos l with
            | [] => Some ([], false)
            | l' => cull_loop fuel' t l' 1
            end
          else cull_loop fuel' t l (Datatypes.S pos)
      end
  end.

Definition cullMonitorTargets (t : positive) (l : list (positive * positive)) : option (list (positive * positive) * bool) :=
  cull_loop (Datatypes.S (length l) * Datatypes.S (length l)) t l 0.

(** ** Witnesses *)

(** Two writers and a reader of a ring of two; the second writer waits. *)
Definition two_writers : list (nat * action) :=
  [(0, Write 7%Z); (0, Go); (1, WriteN [8%Z]); (1, Go); (0, Go); (0, Go); (1, Go); (1, Go); (1, Go); (1, Go); (0, Go); (0, Go);
   (2, ReadN 1); (2, Go)].

Lemma ring_buffer_correct_witness :
  exists s, run 0%Z false two_writers (new_ring (S := nat) 2 3) = Some s /\ length (m_Ring s) <= 2 /\
    taken s ++ m_Ring s = written s.
Proof.
  eexists. split; [vm_compute; reflexivity|].
  match goal with |- length (m_Ring ?s) <= _ /\ _ =>
    destruct (ring_buffer_correct (S := nat) 0%Z false 2 3 two_writers s eq_refl) as (H1 & H2 & _); [vm_compute; reflexivity|] end.
  split; [exact H1|exact H2].
Defined.

(** ** What the code gets wrong *)

(** The result of [acquire] is ignored: a writer whose wait is interrupted
    writes into a full buffer, and a reader takes 0 from an empty one. *)
Example interrupted_write_overflows :
  option_map (fun s => (m_RingSize s, m_Ring s))
    (run 0%Z true [(0, Write 7%Z); (0, Go); (0, Go); (0, Go); (0, Go); (0, Go); (0, Go); (0, Write 8%Z); (0, Interrupted);
                   (0, Go); (0, Go)]
       (new_ring (S := nat) 1 1)) = Some (1, [7%Z; 8%Z]).
Proof. reflexivity. Qed.

Example interrupted_read_returns_zero :
  option_map (fun s => pcs s)
    (run 0%Z true [(0, Read); (0, Interrupted); (0, Go); (0, Go)] (new_ring (S := nat) 1 1)) = Some [RPop 0 1 [0%Z]].
Proof. reflexivity. Qed.

(** In a ring of two slots two writers are in the list at the same time. *)
Example writers_race :
  is_Some (run 0%Z false [(0, Write 7%Z); (0, Go); (1, Write 8%Z); (1, Go); (0, Go)] (new_ring (S := nat) 2 2)) /\
  run 0%Z false [(0, Write 7%Z); (0, Go); (1, Write 8%Z); (1, Go); (0, Go); (1, Go)] (new_ring (S := nat) 2 2) = None.
Proof. split; [by eexists|reflexivity]. Qed.

(** [cullMonitorTargets] does not release its lock when the list becomes empty,
    and passes over the element after the one it erased. *)
Example cull_keeps_lock : cullMonitorTargets 1 [(1, 5)%positive] = Some ([], false).
Proof. reflexivity. Qed.

Example cull_skips : cullMonitorTargets 1 [(1, 5); (1, 6)]%positive = Some ([(1, 6)]%positive, true).
Proof. reflexivity. Qed.
