(* ===== verification/RangeList.v ===== *)
(** * Lists of address ranges: src/src/system/include/utilities/RangeList.h

    The allocator of address ranges the kernel uses for virtual regions, I/O
    ports and dynamic memory.  [RangeList] is the list of free ranges; every
    operation of the class is a function from the list to the list.  The
    abstract state is the multiset of free addresses: [cover l a] counts the
    ranges of [l] that hold [a]. *)
From Stdlib Require Import ZArith Lia List Bool Permutation.
From S2P Require Import Prelude.
Import ListNotations.
Local Open Scope Z_scope.

(** [RangeList<T>::Range], its fields as values of the unsigned type [T]. *)
Record Range : Set := mkRange { address : Z; length_ : Z }.

(** The class: its list of ranges and the order it allocates in. *)
Record RangeList : Set := mkRangeList { m_List : list Range; m_bReverse : bool }.

Section Ops.
(** The width in bits of the integer type [T]. *)
Variable w : Z.
Local Open Scope word_scope.

(** The first loop of [free]: a range that ends at [addr] is deleted and the
    range to push is extended to its start. *)
Definition free_left (l : list Range) (addr len : Z) : Range * list Range :=
  match extract (fun cur => (address cur +[w] length_ cur) =? addr) l with
  | Some (cur, l') => (mkRange (address cur) (len +[w] length_ cur), l')
  | None => (mkRange addr len, l)
  end.

(** The second loop: a range that starts at the end of the range to push. *)
Definition free_right (l : list Range) (addr len : Z) : Range * list Range :=
  match extract (fun cur => address cur =? (addr +[w] len)) l with
  | Some (cur, l') => (mkRange addr (len +[w] length_ cur), l')
  | None => (mkRange addr len, l)
  end.

Definition free (rl : RangeList) (addr len : Z) : RangeList :=
  let (r1, l1) := free_left (m_List rl) addr len in
  let (r2, l2) := free_right l1 (address r1) (length_ r1) in
  mkRangeList (l2 ++ [r2]) (m_bReverse rl).

(** One pass of the forward loop of [allocate]. *)
Fixpoint allocate_fwd (l : list Range) (len : Z) : option (Z * list Range) :=
  match l with
  | [] => None
  | cur :: l' =>
      if len <=? length_ cur then
        let cur' := mkRange (address cur +[w] len) (length_ cur -[w] len) in
        Some (address cur, if length_ cur' =? 0 then l' else cur' :: l')
      else match allocate_fwd l' len with
           | Some (a, l'') => Some (a, cur :: l'')
           | None => None
           end
  end.

(** The reverse loop runs from the last range to the first and takes the top
    of the range it finds. *)
Fixpoint allocate_rev (l : list Range) (len : Z) : option (Z * list Range) :=
  match l with
  | [] => None
  | cur :: l' =>
      match allocate_rev l' len with
      | Some (a, l'') => Some (a, cur :: l'')
      | None =>
          if len <=? length_ cur then
            let offset := length_ cur -[w] len in
            let cur' := mkRange (address cur) (length_ cur -[w] len) in
            Some (address cur +[w] offset, if length_ cur' =? 0 then l' else cur' :: l')
          else None
      end
  end.

(** [allocate]: the address and the new list, or [None] for [false]. *)
Definition allocate (rl : RangeList) (len : Z) : option (Z * RangeList) :=
  match (if m_bReverse rl then allocate_rev else allocate_fwd) (m_List rl) len with
  | Some (a, l) => Some (a, mkRangeList l (m_bReverse rl))
  | None => None
  end.

(** The loop of [allocateSpecific]: the new list with the ranges it changed in
    place, and the range to push at the back. *)
Fixpoint specific (l : list Range) (addr len : Z) : option (list Range * list Range) :=
  match l with
  | [] => None
  | cur :: l' =>
      if (address cur =? addr) && (length_ cur =? len) then Some (l', [])
      else if (address cur =? addr) && (len <? length_ cur) then
        Some (mkRange (address cur +[w] len) (length_ cur -[w] len) :: l', [])
      else if (address cur <? addr) &&
              ((address cur +[w] length_ cur) =? (addr +[w] len)) then
        Some (mkRange (address cur) (length_ cur -[w] len) :: l', [])
      else if (address cur <? addr) &&
              ((addr +[w] len) <? (address cur +[w] length_ cur)) then
        Some (mkRange (address cur) (addr -[w] address cur) :: l',
              [mkRange (addr +[w] len)
                 (wrap w (address cur + length_ cur - addr - len))])
      else match specific l' addr len with
           | Some (l'', new) => Some (cur :: l'', new)
           | None => None
           end
  end.

Definition allocateSpecific (rl : RangeList) (addr len : Z) : option RangeList :=
  match specific (m_List rl) addr len with
  | Some (l', new) => Some (mkRangeList (l' ++ new) (m_bReverse rl))
  | None => None
  end.

Definition getRange (rl : RangeList) (index : nat) : Range :=
  if (List.length (m_List rl) <=? index)%nat then mkRange 0 0
  else nth index (m_List rl) (mkRange 0 0).

Definition size (rl : RangeList) : nat := List.length (m_List rl).

Definition clear (rl : RangeList) : RangeList := mkRangeList [] (m_bReverse rl).

(** The copy constructor pushes a copy of each range in order. *)
Definition copy (other : RangeList) : RangeList :=
  mkRangeList (map (fun r => mkRange (address r) (length_ r)) (m_List other))
    (m_bReverse other).

End Ops.

(** ** The abstract state *)

Definition contains (r : Range) (a : Z) : bool := in_range (address r) (length_ r) a.

(** How many ranges of the list hold the address. *)
Fixpoint cover (l : list Range) (a : Z) : nat :=
  match l with
  | [] => 0
  | r :: l' => Nat.b2n (contains r a) + cover l' a
  end.

(** The set of free addresses. *)
Definition is_free (rl : RangeList) (a : Z) : bool := negb (Nat.eqb (cover (m_List rl) a) 0).

Lemma cover_app l1 l2 a : cover (l1 ++ l2) a = (cover l1 a + cover l2 a)%nat.
Proof. induction l1; simpl; lia. Qed.

Lemma cover_mid l1 r l2 a :
  cover (l1 ++ r :: l2) a = (Nat.b2n (contains r a) + cover (l1 ++ l2) a)%nat.
Proof. rewrite !cover_app. simpl. lia. Qed.

Lemma cover_In l r a : In r l -> contains r a = true -> (1 <= cover l a)%nat.
Proof.
  intros [l1 [l2 ->]]%in_split Hc. rewrite cover_mid, Hc. simpl. lia.
Qed.

Lemma cover_pos l a : (1 <= cover l a)%nat -> exists r, In r l /\ contains r a = true.
Proof.
  induction l as [|r l IH]; simpl; [lia|]. intros H.
  destruct (contains r a) eqn:Hc; [eauto|].
  destruct IH as (r' & ? & ?); [simpl in H; lia|]. eauto.
Qed.

Lemma is_free_spec rl a :
  is_free rl a = true <-> exists r, In r (m_List rl) /\ contains r a = true.
Proof.
  unfold is_free. rewrite negb_true_iff, Nat.eqb_neq. split.
  - intros H. apply cover_pos. lia.
  - intros (r & Hin & Hc). pose proof (cover_In _ _ _ Hin Hc). lia.
Qed.

Create Rewrite HintDb ranges.
#[export] Hint Rewrite cover_app cover_mid : ranges.

Section Correctness.
Context (w : Z).

(** A range the list may hold: not empty, and its end does not wrap. *)
Definition range_ok (r : Range) : Prop :=
  0 <= address r /\ 0 < length_ r /\ address r + length_ r < 2 ^ w.

(** No range starts where another ends. *)
Definition coalesced (l : list Range) : Prop :=
  forall r1 r2, In r1 l -> In r2 l -> address r1 + length_ r1 <> address r2.

Record inv (rl : RangeList) : Prop := {
  inv_ok : Forall range_ok (m_List rl);
  inv_disjoint : forall a, (cover (m_List rl) a <= 1)%nat;
  inv_coalesced : coalesced (m_List rl)
}.

Lemma range_end_wrap r : range_ok r -> wrap w (address r + length_ r) = address r + length_ r.
Proof. intros (?&?&?). apply wrap_small. unfold in_word. lia. Qed.

Lemma Forall_mid (P : Range -> Prop) l1 r l2 :
  Forall P (l1 ++ r :: l2) <-> P r /\ Forall P (l1 ++ l2).
Proof. rewrite !Forall_app, Forall_cons_iff. tauto. Qed.

Lemma In_mid (A : Type) (x y : A) l1 l2 : In x (l1 ++ y :: l2) <-> x = y \/ In x (l1 ++ l2).
Proof. rewrite !in_app_iff. simpl. intuition congruence. Qed.

Lemma contains_mk p n a : contains (mkRange p n) a = in_range p n a.
Proof. reflexivity. Qed.

(** What each loop of [free] does: it moves addresses from the list to the
    range to push, and only drops ranges of the list. *)
Definition moves (l : list Range) (r : Range) (r' : Range) (l' : list Range) : Prop :=
  Forall range_ok l' /\ range_ok r' /\ incl l' l /\
  (forall a, cover (r' :: l') a = cover (r :: l) a).

(** A range that touches the range to push is taken out and joined to it. *)
Lemma moves_join l1 cur l2 r r' :
  Forall range_ok (l1 ++ cur :: l2) -> range_ok r' ->
  (forall a, Nat.b2n (contains r' a) = Nat.b2n (contains r a) + Nat.b2n (contains cur a))%nat ->
  moves (l1 ++ cur :: l2) r r' (l1 ++ l2).
Proof.
  intros [Hc Hok]%Forall_mid Hr Hj. split; [easy|]. split; [easy|]. split.
  - intros x Hx. apply In_mid. auto.
  - intros a. simpl. rewrite cover_mid, Hj. lia.
Qed.

Lemma free_left_spec l addr len r' l' :
  Forall range_ok l -> range_ok (mkRange addr len) -> free_left w l addr len = (r', l') ->
  moves l (mkRange addr len) r' l' /\
  address r' + length_ r' = addr + len /\
  (coalesced l -> forall r, In r l' -> address r + length_ r <> address r').
Proof.
  intros Hok (Ha & Hl & He). simpl in Ha, Hl, He. unfold free_left.
  destruct (extract _ l) as [[cur l1]|] eqn:E1; intros [= <- <-].
  - apply extract_Some in E1 as (p1 & p2 & -> & -> & Hp & _).
    assert (range_ok cur) as Hcur by (apply Forall_mid in Hok; easy).
    rewrite range_end_wrap, Z.eqb_eq in Hp by easy. destruct Hcur as (?&?&?).
    rewrite wrap_small by (unfold in_word; lia). simpl. split; [|split; [lia|]].
    + apply moves_join; [exact Hok| |].
      * repeat split; simpl; lia.
      * intros a. unfold contains. simpl. rcase; simpl; lia.
    + intros Hco r Hr. apply Hco; apply In_mid; auto.
  - apply extract_None in E1. split; [repeat split; auto using incl_refl; easy|]. split; [easy|].
    intros _ r Hr. rewrite Forall_forall in E1, Hok. specialize (E1 r Hr).
    rewrite range_end_wrap in E1 by auto. now apply Z.eqb_neq in E1.
Qed.

Lemma free_right_spec l addr len r' l' :
  Forall range_ok l -> range_ok (mkRange addr len) -> free_right w l addr len = (r', l') ->
  moves l (mkRange addr len) r' l' /\ address r' = addr /\
  (coalesced l -> forall r, In r l' -> address r' + length_ r' <> address r).
Proof.
  intros Hok (Ha & Hl & He). simpl in Ha, Hl, He. unfold free_right.
  destruct (extract _ l) as [[cur l1]|] eqn:E1; intros [= <- <-];
    rewrite (wrap_small w (addr + len)) in E1 by (unfold in_word; lia).
  - apply extract_Some in E1 as (p1 & p2 & -> & -> & Hp & _).
    assert (range_ok cur) as Hcur by (apply Forall_mid in Hok; easy).
    rewrite Z.eqb_eq in Hp. destruct Hcur as (?&?&?).
    rewrite wrap_small by (unfold in_word; lia). simpl. split; [|split; [lia|]].
    + apply moves_join; [exact Hok| |].
      * repeat split; simpl; lia.
      * intros a. unfold contains. simpl. rcase; simpl; lia.
    + intros Hco r Hr. rewrite Z.add_assoc, <- Hp. apply Hco; apply In_mid; auto.
  - apply extract_None in E1. split; [repeat split; auto using incl_refl; easy|]. split; [easy|].
    intros _ r Hr. rewrite Forall_forall in E1. specialize (E1 r Hr).
    simpl. apply Z.eqb_neq in E1. lia.
Qed.

(** [free] adds exactly the freed addresses, once each. *)
Lemma free_cover rl addr len :
  Forall range_ok (m_List rl) -> range_ok (mkRange addr len) ->
  Forall range_ok (m_List (free w rl addr len)) /\
  (forall a, cover (m_List (free w rl addr len)) a =
             cover (m_List rl) a + Nat.b2n (in_range addr len a))%nat.
Proof.
  intros Hok Hr. unfold free.
  destruct (free_left w _ addr len) as [r1 l1] eqn:E1.
  destruct (free_left_spec _ _ _ _ _ Hok Hr E1) as ((Hok1 & Hr1 & _ & Hc1) & _ & _).
  destruct (free_right w l1 _ _) as [r2 l2] eqn:E2. destruct r1 as [a1 n1]. simpl in E2.
  destruct (free_right_spec _ _ _ _ _ Hok1 Hr1 E2) as ((Hok2 & Hr2 & _ & Hc2) & _ & _).
  simpl in *. split.
  - apply Forall_app. auto.
  - intros a. specialize (Hc1 a). specialize (Hc2 a). rewrite !contains_mk in *.
    rewrite cover_app. simpl. lia.
Qed.

Lemma free_coalesced rl addr len :
  Forall range_ok (m_List rl) -> range_ok (mkRange addr len) ->
  coalesced (m_List rl) -> coalesced (m_List (free w rl addr len)).
Proof.
  intros Hok Hr Hco. unfold free.
  destruct (free_left w _ addr len) as [r1 l1] eqn:E1.
  destruct (free_left_spec _ _ _ _ _ Hok Hr E1) as ((Hok1 & Hr1 & Hi1 & _) & _ & Hl).
  destruct (free_right w l1 _ _) as [r2 l2] eqn:E2. destruct r1 as [a1 n1]. simpl in E2.
  destruct (free_right_spec _ _ _ _ _ Hok1 Hr1 E2) as ((_ & (_ & Hn & _) & Hi2 & _) & Ha & Hrt).
  assert (coalesced l1) as Hco1 by (unfold coalesced in *; auto).
  intros x y. simpl. rewrite !in_app_iff. simpl.
  intros [Hx|[<-|[]]] [Hy|[<-|[]]]; [auto| | |lia].
  - rewrite Ha. apply Hl; auto.
  - apply Hrt; auto.
Qed.
(** What an allocation does to the list: one range [cur] is replaced by the
    ranges [new] of what is left of it. *)
Definition carved (l l' : list Range) (a0 n : Z) : Prop :=
  exists l1 cur l2 new,
    l = l1 ++ cur :: l2 /\ Permutation l' (new ++ l1 ++ l2) /\ Forall range_ok new /\
    (forall r, In r new -> address cur <= address r /\
                           address r + length_ r <= address cur + length_ cur) /\
    coalesced new /\
    (forall a, cover new a + Nat.b2n (in_range a0 n a) = Nat.b2n (contains cur a))%nat.

Lemma carved_cons l l' a0 n r : carved l l' a0 n -> carved (r :: l) (r :: l') a0 n.
Proof.
  intros (l1 & cur & l2 & new & -> & Hp & Hok & Hin & Hco & Hc).
  exists (r :: l1), cur, l2, new. repeat split; try easy; try apply (Hin _ H).
  rewrite Hp. simpl. apply Permutation_middle.
Qed.

Lemma cover_perm l l' a : Permutation l l' -> cover l a = cover l' a.
Proof. induction 1; simpl; lia. Qed.

Lemma carved_cover l l' a0 n :
  carved l l' a0 n ->
  forall a, cover l a = (cover l' a + Nat.b2n (in_range a0 n a))%nat.
Proof.
  intros (l1 & cur & l2 & new & -> & Hp & _ & _ & _ & Hc) a.
  rewrite (cover_perm _ _ a Hp), cover_mid, <- Hc, !cover_app. lia.
Qed.

Lemma carved_ok l l' a0 n : Forall range_ok l -> carved l l' a0 n -> Forall range_ok l'.
Proof.
  intros Hok (l1 & cur & l2 & new & -> & Hp & Hn & _). rewrite Hp.
  apply Forall_app. split; [exact Hn|]. now apply Forall_mid in Hok.
Qed.

(** Two ranges of a disjoint list share no address. *)
Lemma disjoint_mid l1 cur l2 r a :
  (forall a, cover (l1 ++ cur :: l2) a <= 1)%nat -> In r (l1 ++ l2) ->
  contains cur a = true -> contains r a = true -> False.
Proof.
  intros Hd Hr Hc Hra. specialize (Hd a). rewrite cover_mid, Hc in Hd.
  pose proof (cover_In _ _ _ Hr Hra). simpl in Hd. lia.
Qed.

Lemma contains_spec r a :
  contains r a = true <-> address r <= a < address r + length_ r.
Proof. unfold contains. rcase; split; intros; easy. Qed.

Lemma carved_coalesced l l' a0 n :
  Forall range_ok l -> (forall a, cover l a <= 1)%nat -> coalesced l ->
  carved l l' a0 n -> coalesced l'.
Proof.
  intros Hok Hd Hco (l1 & cur & l2 & new & -> & Hp & Hnok & Hin & Hnco & _).
  assert (forall r, In r l' -> In r new \/ In r (l1 ++ l2)) as Hmem.
  { intros r Hr. rewrite Hp in Hr. now apply in_app_iff in Hr. }
  rewrite Forall_forall in Hok, Hnok.
  assert (range_ok cur) as (?&?&?) by (apply Hok, In_mid; auto).
  assert (forall r, In r (l1 ++ l2) -> range_ok r) as Hok' by (intros; apply Hok, In_mid; auto).
  intros x y Hx Hy Heq. destruct (Hmem x Hx) as [Hx'|Hx'], (Hmem y Hy) as [Hy'|Hy'].
  - exact (Hnco x y Hx' Hy' Heq).
  - destruct (Hin x Hx'), (Hnok x Hx') as (?&?&?), (Hok' y Hy') as (?&?&?).
    destruct (Z.eq_dec (address x + length_ x) (address cur + length_ cur)) as [E|E].
    + apply (Hco cur y); [apply In_mid; auto..|lia].
    + apply (disjoint_mid _ _ _ y (address y) Hd Hy'); apply contains_spec; lia.
  - destruct (Hin y Hy'), (Hnok y Hy') as (?&?&?), (Hok' x Hx') as (?&?&?).
    destruct (Z.eq_dec (address y) (address cur)) as [E|E].
    + apply (Hco x cur); [apply In_mid; auto..|lia].
    + apply (disjoint_mid _ _ _ x (address x + length_ x - 1) Hd Hx'); apply contains_spec; lia.
  - apply (Hco x y); [apply In_mid; auto..|exact Heq].
Qed.

Lemma carved_inv l l' b a0 n :
  inv (mkRangeList l b) -> carved l l' a0 n -> inv (mkRangeList l' b).
Proof.
  intros [Hok Hd Hco] Hc. simpl in *. constructor; simpl.
  - eauto using carved_ok.
  - intros a. specialize (Hd a). pose proof (carved_cover _ _ _ _ Hc a). lia.
  - eauto using carved_coalesced.
Qed.

(** A range cut at its start or at its end. *)
Lemma carved_here l1 cur l2 new a0 n :
  Forall range_ok new ->
  (forall r, In r new -> address cur <= address r /\
                         address r + length_ r <= address cur + length_ cur) ->
  coalesced new ->
  (forall a, cover new a + Nat.b2n (in_range a0 n a) = Nat.b2n (contains cur a))%nat ->
  forall l', Permutation l' (new ++ l1 ++ l2) -> carved (l1 ++ cur :: l2) l' a0 n.
Proof. intros. exists l1, cur, l2, new. repeat (split; [easy|]). easy. Qed.

Lemma coalesced_one r : range_ok r -> coalesced [r].
Proof. intros (?&?&?) x y [<-|[]] [<-|[]]. lia. Qed.

Ltac carve new :=
  match goal with
  | |- carved (?cur :: ?l) _ _ _ =>
      apply (carved_here [] cur l new); simpl;
      [ repeat constructor; simpl; lia
      | simpl; intros ? Hr;
        repeat match type of Hr with _ \/ _ => destruct Hr as [<-|Hr] end;
        try destruct Hr; simpl; lia
      | first [ apply coalesced_one; repeat split; simpl; lia | idtac ]
      | intros ?; unfold contains; simpl; rcase; simpl; lia
      | auto ]
  end.

Lemma allocate_fwd_Some l n a0 l' :
  Forall range_ok l -> 0 <= n -> allocate_fwd w l n = Some (a0, l') -> carved l l' a0 n.
Proof.
  intros Hok Hn. revert a0 l'. induction Hok as [|cur l (?&?&?) Hok IH]; intros a0 l'; simpl;
    [discriminate|].
  destruct (Z.leb_spec n (length_ cur)).
  - rewrite !wrap_small by (unfold in_word; lia).
    destruct (Z.eqb_spec (length_ cur - n) 0); intros [= <- <-].
    + carve (@nil Range). intros ? ? [].
    + carve [mkRange (address cur + n) (length_ cur - n)].
  - destruct (allocate_fwd w l n) as [[a1 l1]|]; [|discriminate].
    intros [= <- <-]. apply carved_cons. auto.
Qed.

Lemma allocate_rev_Some l n a0 l' :
  Forall range_ok l -> 0 <= n -> allocate_rev w l n = Some (a0, l') -> carved l l' a0 n.
Proof.
  intros Hok Hn. revert a0 l'. induction Hok as [|cur l (?&?&?) Hok IH]; intros a0 l'; simpl;
    [discriminate|].
  destruct (allocate_rev w l n) as [[a1 l1]|].
  { intros [= <- <-]. apply carved_cons. auto. }
  destruct (Z.leb_spec n (length_ cur)); [|discriminate].
  rewrite (wrap_small w (length_ cur - n)) by (unfold in_word; lia).
  rewrite !wrap_small by (unfold in_word; lia).
  destruct (Z.eqb_spec (length_ cur - n) 0); intros [= <- <-].
  + carve (@nil Range). intros ? ? [].
  + carve [mkRange (address cur) (length_ cur - n)].
Qed.

Lemma allocate_fwd_None l n :
  allocate_fwd w l n = None <-> Forall (fun r => length_ r < n) l.
Proof.
  induction l as [|cur l IH]; simpl; [split; constructor|].
  rewrite Forall_cons_iff, <- IH. destruct (Z.leb_spec n (length_ cur)).
  - split; [discriminate|lia].
  - destruct (allocate_fwd w l n) as [[]|]; intuition congruence.
Qed.

Lemma allocate_rev_None l n :
  allocate_rev w l n = None <-> Forall (fun r => length_ r < n) l.
Proof.
  induction l as [|cur l IH]; simpl; [split; constructor|].
  rewrite Forall_cons_iff, <- IH.
  destruct (allocate_rev w l n) as [[]|]; [intuition congruence|].
  destruct (Z.leb_spec n (length_ cur)); [|intuition congruence].
  split; [discriminate|lia].
Qed.

Lemma specific_Some l addr n l' new :
  Forall range_ok l -> 0 <= addr -> 0 < n -> addr + n < 2 ^ w ->
  specific w l addr n = Some (l', new) -> carved l (l' ++ new) addr n.
Proof.
  intros Hok Ha Hn He. revert l' new.
  induction Hok as [|cur l (?&?&?) Hok IH]; intros l' new; simpl; [discriminate|].
  rewrite (wrap_small w (address cur + length_ cur)) by (unfold in_word; lia).
  rewrite (wrap_small w (addr + n)) by (unfold in_word; lia).
  destruct (_ && (length_ cur =? n)) eqn:C1.
  { intros [= <- <-]. apply andb_true_iff in C1 as [?%Z.eqb_eq ?%Z.eqb_eq].
    rewrite app_nil_r. carve (@nil Range). intros ? ? []. }
  destruct (_ && (n <? _)) eqn:C2.
  { intros [= <- <-]. apply andb_true_iff in C2 as [?%Z.eqb_eq ?%Z.ltb_lt].
    rewrite !wrap_small, app_nil_r by (unfold in_word; lia).
    carve [mkRange (address cur + n) (length_ cur - n)]. }
  destruct (_ && (_ =? addr + n)) eqn:C3.
  { intros [= <- <-]. apply andb_true_iff in C3 as [?%Z.ltb_lt ?%Z.eqb_eq].
    rewrite !wrap_small, app_nil_r by (unfold in_word; lia).
    carve [mkRange (address cur) (length_ cur - n)]. }
  destruct (_ && (addr + n <? _)) eqn:C4.
  { intros [= <- <-]. apply andb_true_iff in C4 as [?%Z.ltb_lt ?%Z.ltb_lt].
    rewrite !wrap_small by (unfold in_word; lia).
    set (r1 := mkRange (address cur) (addr - address cur)).
    set (r2 := mkRange (addr + n) (address cur + length_ cur - addr - n)).
    apply (carved_here [] cur l [r1; r2]); simpl.
    - repeat constructor; simpl; lia.
    - intros ? [<-|[<-|[]]]; simpl; lia.
    - intros ? ? [<-|[<-|[]]] [<-|[<-|[]]]; simpl; lia.
    - intros a. subst r1 r2. unfold contains. simpl. rcase; simpl; lia.
    - constructor. rewrite Permutation_app_comm. reflexivity. }
  destruct (specific w l addr n) as [[l2 n2]|]; [|discriminate].
  intros [= <- <-]. apply carved_cons. auto.
Qed.

(** [allocateSpecific] fails exactly when no range holds the whole interval. *)
Lemma specific_None l addr n :
  Forall range_ok l -> 0 <= addr -> 0 < n -> addr + n < 2 ^ w ->
  specific w l addr n = None <->
  Forall (fun r => ~ (address r <= addr /\ addr + n <= address r + length_ r)) l.
Proof.
  intros Hok Ha Hn He. induction Hok as [|cur l (?&?&?) Hok IH]; simpl; [split; constructor|].
  rewrite (wrap_small w (address cur + length_ cur)) by (unfold in_word; lia).
  rewrite (wrap_small w (addr + n)) by (unfold in_word; lia).
  rewrite Forall_cons_iff, <- IH. clear IH.
  zcmp; simpl; try (split; [discriminate|intros [? _]; exfalso; lia]);
    (destruct (specific w l addr n) as [[]|];
     split; [discriminate|intros [_ ?]; discriminate|intros _; split; [lia|easy]|easy]).
Qed.

(** In a coalesced list an interval of free addresses lies in one range. *)
Lemma interval_one_range l addr n :
  Forall range_ok l -> (forall a, cover l a <= 1)%nat -> coalesced l -> 0 < n ->
  (forall a, addr <= a < addr + n -> (1 <= cover l a)%nat) ->
  exists r, In r l /\ address r <= addr /\ addr + n <= address r + length_ r.
Proof.
  intros Hok Hd Hco Hn Hall. destruct (cover_pos l addr) as (r & Hr & Hc); [apply Hall; lia|].
  apply contains_spec in Hc. exists r. split; [exact Hr|]. split; [lia|].
  destruct (Z.le_gt_cases (addr + n) (address r + length_ r)) as [|Hlt]; [easy|exfalso].
  destruct (cover_pos l (address r + length_ r)) as (r2 & Hr2 & Hc2); [apply Hall; lia|].
  apply contains_spec in Hc2.
  destruct (Z.eq_dec (address r2) (address r + length_ r)) as [E|E];
    [now apply (Hco r r2)|].
  rewrite Forall_forall in Hok. destruct (Hok r Hr) as (?&?&?).
  apply in_split in Hr as (l1 & l2 & ->). apply In_mid in Hr2 as [->|Hr2]; [lia|].
  apply (disjoint_mid _ _ _ r2 (address r + length_ r - 1) Hd Hr2); apply contains_spec; lia.
Qed.
(** A run of [n] free addresses from [addr] on. *)
Definition free_run (rl : RangeList) (addr n : Z) : Prop :=
  forall a, addr <= a < addr + n -> is_free rl a = true.

Lemma free_run_cover rl addr n :
  free_run rl addr n <-> (forall a, addr <= a < addr + n -> (1 <= cover (m_List rl) a)%nat).
Proof.
  unfold free_run, is_free.
  split; intros H a Ha; specialize (H a Ha); rewrite ?negb_true_iff, ?Nat.eqb_neq in *; lia.
Qed.

Lemma free_run_one_range rl addr n :
  inv rl -> 0 < n -> free_run rl addr n ->
  exists r, In r (m_List rl) /\ address r <= addr /\ addr + n <= address r + length_ r.
Proof.
  intros [Hok Hd Hco] Hn Hrun. apply interval_one_range; auto.
  now apply free_run_cover.
Qed.

Lemma range_free_run rl r addr n :
  In r (m_List rl) -> address r <= addr -> addr + n <= address r + length_ r ->
  free_run rl addr n.
Proof.
  intros Hr H1 H2 a Ha. apply is_free_spec. exists r. split; [easy|]. apply contains_spec. lia.
Qed.

Lemma allocate_Some rl n a0 rl' :
  inv rl -> 0 <= n -> allocate w rl n = Some (a0, rl') ->
  carved (m_List rl) (m_List rl') a0 n /\ m_bReverse rl' = m_bReverse rl.
Proof.
  intros [Hok _ _] Hn. unfold allocate. destruct (m_bReverse rl).
  - destruct (allocate_rev w _ n) as [[]|] eqn:E; [|discriminate]. intros [= <- <-].
    split; [eapply allocate_rev_Some; eauto|easy].
  - destruct (allocate_fwd w _ n) as [[]|] eqn:E; [|discriminate]. intros [= <- <-].
    split; [eapply allocate_fwd_Some; eauto|easy].
Qed.

Lemma allocate_None rl n :
  allocate w rl n = None <-> Forall (fun r => length_ r < n) (m_List rl).
Proof.
  unfold allocate. destruct (m_bReverse rl).
  - rewrite <- allocate_rev_None. destruct (allocate_rev w _ n) as [[]|]; easy.
  - rewrite <- allocate_fwd_None. destruct (allocate_fwd w _ n) as [[]|]; easy.
Qed.

Lemma allocateSpecific_Some rl addr n rl' :
  inv rl -> 0 <= addr -> 0 < n -> addr + n < 2 ^ w ->
  allocateSpecific w rl addr n = Some rl' ->
  carved (m_List rl) (m_List rl') addr n /\ m_bReverse rl' = m_bReverse rl.
Proof.
  intros [Hok _ _] ? ? ?. unfold allocateSpecific.
  destruct (specific w _ addr n) as [[l' new]|] eqn:E; [|discriminate].
  intros [= <-]. split; [|easy]. simpl. eapply specific_Some; eauto.
Qed.

(** [free] in a state of the invariant, for addresses that are not free yet. *)
Lemma free_inv rl addr n :
  inv rl -> range_ok (mkRange addr n) ->
  (forall a, addr <= a < addr + n -> is_free rl a = false) ->
  inv (free w rl addr n).
Proof.
  intros [Hok Hd Hco] Hr Hnew. destruct (free_cover _ _ _ Hok Hr) as [Hok' Hc].
  constructor; auto using free_coalesced.
  intros a. rewrite Hc. specialize (Hd a). destruct (in_range_spec addr n a) as [Ha|Ha].
  - specialize (Hnew a Ha). unfold is_free in Hnew. apply negb_false_iff, Nat.eqb_eq in Hnew.
    simpl. lia.
  - simpl. lia.
Qed.
End Correctness.

(** ** The allocator over its lifetime

    A run of the allocator: the list of free ranges together with the ranges
    its clients hold.  A client may only free a range it was given. *)

Section Lifetime.
Context (w : Z).

Record AllocState : Type := mkState { st_free : RangeList; st_owned : list Range }.

Inductive step : AllocState -> AllocState -> Prop :=
| step_allocate fr owned n a fr' :
    0 < n -> allocate w fr n = Some (a, fr') ->
    step (mkState fr owned) (mkState fr' (mkRange a n :: owned))
| step_allocateSpecific fr owned a n fr' :
    0 <= a -> 0 < n -> a + n < 2 ^ w ->
    allocateSpecific w fr a n = Some fr' ->
    step (mkState fr owned) (mkState fr' (mkRange a n :: owned))
| step_free fr owned1 a n owned2 :
    step (mkState fr (owned1 ++ mkRange a n :: owned2))
         (mkState (free w fr a n) (owned1 ++ owned2)).

Inductive reachable (s0 : AllocState) : AllocState -> Prop :=
| reach_here : reachable s0 s0
| reach_step s s' : reachable s0 s -> step s s' -> reachable s0 s'.

(** What holds of every state: the free list keeps its invariant, what the
    clients hold are real ranges, and nothing is held twice. *)
Record lifetime_inv (total : Z -> nat) (s : AllocState) : Prop := {
  li_free : inv w (st_free s);
  li_owned : Forall (range_ok w) (st_owned s);
  li_total : forall a, (cover (m_List (st_free s)) a + cover (st_owned s) a = total a)%nat;
  li_once : forall a, (total a <= 1)%nat
}.

Lemma carved_range_ok l l' a0 n :
  Forall (range_ok w) l -> 0 < n -> carved w l l' a0 n -> range_ok w (mkRange a0 n).
Proof.
  intros Hok Hn (l1 & cur & l2 & new & -> & _ & _ & _ & _ & Hc).
  apply Forall_mid in Hok as [(?&?&?) _].
  assert (forall a, in_range a0 n a = true -> contains cur a = true) as Hsub.
  { intros a Ha. specialize (Hc a). rewrite Ha in Hc. destruct (contains cur a); simpl in *; lia. }
  pose proof (Hsub a0) as G1. pose proof (Hsub (a0 + n - 1)) as G2.
  rewrite contains_spec in G1, G2. unfold in_range in *. repeat split; simpl; lia.
Qed.

Lemma lifetime_take total fr fr' owned a n :
  lifetime_inv total (mkState fr owned) -> 0 < n ->
  carved w (m_List fr) (m_List fr') a n -> m_bReverse fr' = m_bReverse fr ->
  lifetime_inv total (mkState fr' (mkRange a n :: owned)).
Proof.
  intros [Hf Ho Ht Hl] Hn Hc Hb. destruct fr as [l b], fr' as [l' b']. simpl in *. subst b'.
  constructor; simpl.
  - eapply carved_inv; eauto.
  - constructor; [|exact Ho]. exact (carved_range_ok l l' a n (inv_ok _ _ Hf) Hn Hc).
  - intros x. rewrite <- Ht, (carved_cover _ _ _ _ _ Hc x). unfold contains. simpl. lia.
  - exact Hl.
Qed.

Lemma lifetime_step total s s' : lifetime_inv total s -> step s s' -> lifetime_inv total s'.
Proof.
  intros Hinv Hs. destruct Hs as [fr owned n a fr' Hn E|fr owned a n fr' Ha Hn He E|fr o1 a n o2].
  - destruct (allocate_Some w fr n a fr') as [Hc Hb]; [apply Hinv|lia|exact E|].
    eapply lifetime_take; eauto.
  - destruct (allocateSpecific_Some w fr a n fr') as [Hc Hb]; [apply Hinv|easy..|].
    eapply lifetime_take; eauto.
  - destruct Hinv as [Hf Ho Ht Hl]. simpl in *. apply Forall_mid in Ho as [Hr Ho].
    assert (forall x, a <= x < a + n -> is_free fr x = false) as Hnew.
    { intros x Hx. unfold is_free. apply negb_false_iff, Nat.eqb_eq.
      specialize (Ht x). specialize (Hl x). rewrite cover_mid, contains_mk in Ht.
      destruct (in_range_spec a n x); simpl in Ht; lia. }
    constructor; simpl.
    + now apply free_inv.
    + exact Ho.
    + intros x. destruct Hf. destruct (free_cover w fr a n) as [_ ->]; [easy..|].
      rewrite <- Ht, cover_mid, contains_mk. lia.
    + exact Hl.
Qed.

Lemma lifetime_reachable total s0 s :
  lifetime_inv total s0 -> reachable s0 s -> lifetime_inv total s.
Proof. intros H0 Hr. induction Hr; eauto using lifetime_step. Qed.
End Lifetime.

(** ** Properties *)

(** C16. Whatever sequence of [allocate], [allocateSpecific] and [free] the
    clients run, starting from a well-formed list of free ranges, each address
    stays accounted for exactly once: free, or in exactly one range a client
    holds; and the list stays free of empty, overlapping and mergeable ranges. *)
Theorem allocator_conserves_addresses (w : Z) (fr : RangeList) (s : AllocState)
    (Hinv : inv w fr) (Hrun : reachable w (mkState fr []) s) :
  inv w (st_free s) /\
  (forall a, cover (m_List (st_free s)) a + cover (st_owned s) a = cover (m_List fr) a /\
             cover (st_owned s) a <= 1)%nat.
Proof.
  destruct (lifetime_reachable w (cover (m_List fr)) (mkState fr []) s) as [Hf Ho Ht Hl].
  - constructor; simpl; auto with arith. apply Hinv.
  - exact Hrun.
  - split; [exact Hf|]. intros a. specialize (Ht a). specialize (Hl a). lia.
Qed.

(** C17. [allocate] hands out a run of addresses that were all free, takes
    exactly those out of the free set, and fails only when no run of [n] free
    addresses exists anywhere. *)
Theorem allocate_sound_complete (w n : Z) (rl : RangeList) (Hinv : inv w rl) (Hn : 0 < n) :
  match allocate w rl n with
  | Some (a0, rl') =>
      inv w rl' /\ free_run rl a0 n /\
      (forall a, is_free rl' a = is_free rl a && negb (in_range a0 n a))
  | None => forall a0, ~ free_run rl a0 n
  end.
Proof.
  destruct (allocate w rl n) as [[a0 rl']|] eqn:E.
  - destruct (allocate_Some w rl n a0 rl' Hinv) as [Hc Hb]; [lia|exact E|].
    pose proof (carved_cover _ _ _ _ _ Hc) as Hcov.
    assert (inv w rl') as Hinv'.
    { destruct rl as [l b], rl' as [l' b']. simpl in *. subst. eapply carved_inv; eauto. }
    split; [exact Hinv'|]. split.
    + apply free_run_cover. intros a Ha. rewrite Hcov.
      destruct (in_range_spec a0 n a); simpl; lia.
    + intros a. unfold is_free. pose proof (inv_disjoint _ _ Hinv a) as Hd. rewrite Hcov in *.
      destruct (in_range a0 n a), (cover (m_List rl') a) as [|[]]; simpl in *; lia || easy.
  - apply allocate_None in E. intros a0 Hrun.
    destruct (free_run_one_range w rl a0 n Hinv Hn Hrun) as (r & Hr & H1 & H2).
    rewrite Forall_forall in E. specialize (E r Hr). lia.
Qed.

(** C18. [allocateSpecific] succeeds exactly when the whole interval is free, and
    then takes exactly that interval. *)
Theorem allocateSpecific_exact (w addr n : Z) (rl : RangeList) (Hinv : inv w rl)
    (Ha : 0 <= addr) (Hn : 0 < n) (He : addr + n < 2 ^ w) :
  match allocateSpecific w rl addr n with
  | Some rl' =>
      inv w rl' /\ free_run rl addr n /\
      (forall a, is_free rl' a = is_free rl a && negb (in_range addr n a))
  | None => ~ free_run rl addr n
  end.
Proof.
  destruct (allocateSpecific w rl addr n) as [rl'|] eqn:E.
  - destruct (allocateSpecific_Some w rl addr n rl' Hinv) as [Hc Hb]; [easy..|].
    pose proof (carved_cover _ _ _ _ _ Hc) as Hcov.
    assert (inv w rl') as Hinv'.
    { destruct rl as [l b], rl' as [l' b']. simpl in *. subst. eapply carved_inv; eauto. }
    split; [exact Hinv'|]. split.
    + apply free_run_cover. intros a Hin. rewrite Hcov.
      destruct (in_range_spec addr n a); simpl; lia.
    + intros a. unfold is_free. pose proof (inv_disjoint _ _ Hinv a) as Hd. rewrite Hcov in *.
      destruct (in_range addr n a), (cover (m_List rl') a) as [|[]]; simpl in *; lia || easy.
  - intros Hrun. destruct (free_run_one_range w rl addr n Hinv Hn Hrun) as (r & Hr & H1 & H2).
    unfold allocateSpecific in E. destruct (specific w _ addr n) as [[]|] eqn:E'; [discriminate|].
    apply specific_None in E'; [|apply Hinv|easy..].
    rewrite Forall_forall in E'. now apply (E' r Hr).
Qed.

(** C19. [free] gives back exactly the freed interval and merges it: in the new
    list no range starts where another ends, and none is empty or overlaps. *)
Theorem free_merges (w addr n : Z) (rl : RangeList) (Hinv : inv w rl)
    (Hr : range_ok w (mkRange addr n))
    (Hheld : forall a, addr <= a < addr + n -> is_free rl a = false) :
  inv w (free w rl addr n) /\
  (forall a, is_free (free w rl addr n) a = is_free rl a || in_range addr n a) /\
  (forall r, In r (m_List (free w rl addr n)) ->
     address r <= addr < address r + length_ r -> addr + n <= address r + length_ r).
Proof.
  pose proof (free_inv w rl addr n Hinv Hr Hheld) as Hinv'.
  destruct (free_cover w rl addr n) as [_ Hc]; [apply Hinv|exact Hr|].
  split; [exact Hinv'|]. split.
  - intros a. unfold is_free. rewrite Hc.
    destruct (in_range addr n a), (cover (m_List rl) a); reflexivity.
  - intros r Hin Hcr. destruct (interval_one_range w (m_List (free w rl addr n)) addr n)
      as (r' & Hr' & H1 & H2); [apply Hinv'..|apply Hr| |].
    + intros a Ha. rewrite Hc. destruct (in_range_spec addr n a); simpl; lia.
    + apply in_split in Hin as (l1 & l2 & E). pose proof (inv_disjoint _ _ Hinv') as Hd.
      rewrite E in Hd, Hr'. apply In_mid in Hr' as [->|Hr']; [exact H2|exfalso].
      destruct Hr as (_ & Hpos & _). simpl in Hpos.
      apply (disjoint_mid _ _ _ r' addr Hd Hr'); apply contains_spec; lia.
Qed.

(** ** Witnesses *)

Definition sample : RangeList := mkRangeList [mkRange 4096 8192; mkRange 65536 4096] false.

Lemma sample_inv : inv 32 sample.
Proof.
  constructor.
  - repeat constructor; simpl; lia.
  - intros a. simpl. unfold contains. simpl. rcase; simpl; lia.
  - intros x y [<-|[<-|[]]] [<-|[<-|[]]]; simpl; lia.
Qed.

Lemma allocator_conserves_addresses_witness :
  exists s, reachable 32 (mkState sample []) s /\ inv 32 (st_free s).
Proof.
  exists (mkState (mkRangeList [mkRange 8192 4096; mkRange 65536 4096] false) [mkRange 4096 4096]).
  assert (reachable 32 (mkState sample [])
    (mkState (mkRangeList [mkRange 8192 4096; mkRange 65536 4096] false) [mkRange 4096 4096])) as Hr.
  { eapply reach_step; [apply reach_here|]. apply step_allocate; [lia|reflexivity]. }
  split; [exact Hr|]. apply (allocator_conserves_addresses 32 sample _ sample_inv Hr).
Defined.

Lemma allocate_sound_complete_witness :
  allocate 32 sample 10000 = None /\ (forall a0, ~ free_run sample a0 10000).
Proof.
  split; [reflexivity|].
  exact (allocate_sound_complete 32 10000 sample sample_inv ltac:(lia)).
Defined.

Lemma allocateSpecific_exact_witness :
  allocateSpecific 32 sample 8192 8192 = None /\ ~ free_run sample 8192 8192.
Proof.
  split; [reflexivity|].
  exact (allocateSpecific_exact 32 8192 8192 sample sample_inv
           ltac:(lia) ltac:(lia) ltac:(lia)).
Defined.

Lemma free_merges_witness :
  free 32 sample 12288 4096 = mkRangeList [mkRange 65536 4096; mkRange 4096 12288] false /\
  inv 32 (free 32 sample 12288 4096).
Proof.
  split; [reflexivity|]. apply (free_merges 32 12288 4096 sample sample_inv).
  - repeat split; simpl; lia.
  - intros a Ha. unfold is_free. simpl. unfold contains. simpl. rcase; simpl; lia || reflexivity.
Defined.
