(* ===== verification/CMem.v ===== *)
(** * The kernel's memory routines: src/src/system/kernel/core/lib/memory.c

    [memset], [memcpy], [memmove], [memcmp] and their wide variants as the x86
    builds compile them.  A routine is a function from memory to memory; the
    string instructions of the inline assembly are [rep_stos] and [copy_fwd],
    the block loads and stores of the SSE loops are [copy_block].  [None] is a
    general-protection fault (an aligned SSE access at an unaligned address) or
    fuel running out; the theorems show neither happens. *)
From Stdlib Require Import ZArith Lia List Bool.
From S2P Require Import Prelude.
Local Open Scope Z_scope.

Definition SSE_ALIGN_SIZE : Z := 0x10.
Definition SSE_ALIGN_MASK : Z := 0xF.
Definition SSE_THRESHOLD : Z := 524288.

(** ** The instructions the routines are made of *)

(** Store the low [k] bytes of [v], least significant first. *)
Fixpoint store_le (m : mem) (a : Z) (k : nat) (v : Z) : mem :=
  match k with
  | O => m
  | S k' => store_le (upd m a (Z.land v 255)) (a + 1) k' (Z.shiftr v 8)
  end.

(** [rep stos]: [count] stores of [k] bytes going up. *)
Fixpoint rep_stos (k : nat) (count : nat) (m : mem) (p v : Z) : mem :=
  match count with
  | O => m
  | S count' => rep_stos k count' (store_le m p k v) (p + Z.of_nat k) v
  end.

(** Load [k] bytes at [s], then store them at [d]. *)
Definition copy_block (m : mem) (d s k : Z) : mem :=
  fun a => if in_range d k a then m (s + (a - d)) else m a.

(** [count] block copies going up ([rep movs], [*p1++ = *p2++]). *)
Fixpoint copy_fwd (m : mem) (d s k : Z) (count : nat) : mem :=
  match count with
  | O => m
  | S count' => copy_fwd (copy_block m d s k) (d + k) (s + k) k count'
  end.

(** [count] block copies going down ([*--dest = *--src]). *)
Fixpoint copy_bwd (m : mem) (d s k : Z) (count : nat) : mem :=
  match count with
  | O => m
  | S count' => copy_bwd (copy_block m (d - k) (s - k) k) (d - k) (s - k) k count'
  end.

Section Routines.
(** [BITS_64] / [X64]: whether the build is 64-bit. *)
Variable bits64 : bool.

(** [sizeof(size_t)] and [NATURAL_MASK]. *)
Definition sizeof_size_t : Z := if bits64 then 8 else 4.
Definition NATURAL_MASK : Z := sizeof_size_t - 1.

(** How many bytes the byte branch of [memset_nonzero] stores. *)
Definition memset_nbytes (n : Z) : Z :=
  let q := 8 - n mod 8 in
  let d := 4 - n mod 4 in
  let w := 2 - n mod 2 in
  if 8 <? n then
    if bits64 && (q <? d) && (q <? w) then q
    else if d <? w then d
    else if w <? d then w
    else n
  else n.

(** The [while(n)] loop of [memset_nonzero]. *)
Fixpoint memset_loop (fuel : nat) (m : mem) (p c n : Z) : option mem :=
  match fuel with
  | O => None
  | S fuel' =>
      if n =? 0 then Some m
      else if bits64 && (n mod 8 =? 0) then
        let word := Z.lor (Z.shiftl c 56) (Z.lor (Z.shiftl c 48) (Z.lor (Z.shiftl c 40)
                   (Z.lor (Z.shiftl c 32) (Z.lor (Z.shiftl c 24) (Z.lor (Z.shiftl c 16)
                   (Z.lor (Z.shiftl c 8) c)))))) in
        memset_loop fuel' (rep_stos 8 (Z.to_nat (n / 8)) m p word) p c 0
      else if n mod 4 =? 0 then
        let word := wrap 32 (Z.lor (Z.shiftl c 24) (Z.lor (Z.shiftl c 16)
                   (Z.lor (Z.shiftl c 8) c))) in
        memset_loop fuel' (rep_stos 4 (Z.to_nat (n / 4)) m p word) p c 0
      else if n mod 2 =? 0 then
        let word := wrap 16 (Z.lor (Z.shiftl c 8) c) in
        memset_loop fuel' (rep_stos 2 (Z.to_nat (n / 2)) m p word) p c 0
      else
        let nBytes := memset_nbytes n in
        memset_loop fuel' (rep_stos 1 (Z.to_nat nBytes) m p c) (p + nBytes) c (n - nBytes)
  end.

(** [memset_nonzero]; [c] is an [int]. *)
Definition memset_nonzero (m : mem) (buf c n : Z) : option mem :=
  if n =? 0 then Some m
  else
    let c := Z.land c 0xFF in
    if n =? 1 then Some (upd m buf c)
    else memset_loop (Z.to_nat n + 1) m buf c n.

(** With [USE_SSE] 0, [memset] is [memset_nonzero]. *)
Definition memset (m : mem) (buf c n : Z) : option mem := memset_nonzero m buf c n.

(** The wide variants store 16, 32 and 64-bit values. *)
Definition wmemset (m : mem) (buf c n : Z) : mem :=
  if n =? 0 then m else rep_stos 2 (Z.to_nat n) m buf c.

Definition dmemset (m : mem) (buf c n : Z) : mem :=
  if n =? 0 then m else rep_stos 4 (Z.to_nat n) m buf c.

Definition qmemset (m : mem) (buf c len : Z) : mem := rep_stos 8 (Z.to_nat len) m buf c.

(** *** SSE block copies *)

Definition aligned16 (p : Z) : bool := Z.land p SSE_ALIGN_MASK =? 0.

(** [movdqa] loads and [movntdq] stores fault at unaligned addresses. *)
Definition sse2_aligned_memcpy (m : mem) (s1 s2 n : Z) : option mem :=
  if n =? 0 then Some m
  else
    let i := Z.shiftr n 7 in
    if (i =? 0) || (aligned16 s1 && aligned16 s2)
    then Some (copy_fwd m s1 s2 128 (Z.to_nat i)) else None.

(** [movdqu] loads, [movntdq] stores. *)
Definition sse2_src_unaligned_memcpy (m : mem) (s1 s2 n : Z) : option mem :=
  if n =? 0 then Some m
  else
    let i := Z.shiftr n 7 in
    if (i =? 0) || aligned16 s1
    then Some (copy_fwd m s1 s2 128 (Z.to_nat i)) else None.

(** [movdqu] both ways. *)
Definition sse2_unaligned_memcpy (m : mem) (s1 s2 n : Z) : option mem :=
  if n =? 0 then Some m
  else Some (copy_fwd m s1 s2 128 (Z.to_nat (Z.shiftr n 7))).

(** The path of [memcpy] below the SSE threshold. *)
Definition memcpy_small (m : mem) (p1 p2 n : Z) : mem :=
  if n <? sizeof_size_t then copy_fwd m p1 p2 1 (Z.to_nat n)
  else
    let offset := Z.land (sizeof_size_t - Z.land p1 NATURAL_MASK) NATURAL_MASK in
    let m := copy_fwd m p1 p2 1 (Z.to_nat offset) in
    let p1 := p1 + offset in
    let p2 := p2 + offset in
    let n := n - offset in
    let blocks := Z.shiftr n (if bits64 then 3 else 2) in
    let m := copy_fwd m p1 p2 sizeof_size_t (Z.to_nat blocks) in
    let p1 := p1 + sizeof_size_t * blocks in
    let p2 := p2 + sizeof_size_t * blocks in
    copy_fwd m p1 p2 1 (Z.to_nat (Z.land n NATURAL_MASK)).

(** [memcpy]: [cr0] is the control register, [can_sse] the static flag, whose
    new value is returned with the memory.  The SSE path ends with a call of
    [memcpy] on the last [n & 127] bytes. *)
Fixpoint memcpy_fuel (fuel : nat) (cr0 : Z) (can_sse : bool) (m : mem) (s1 s2 n : Z)
    : option (bool * mem) :=
  match fuel with
  | O => None
  | S fuel' =>
      if n =? 0 then Some (can_sse, m)
      else
        let can_sse := can_sse || negb (Z.testbit cr0 2) in
        if can_sse && (SSE_THRESHOLD <? n) then
          let p1Align := Z.land s1 SSE_ALIGN_MASK in
          let p2Align := Z.land s2 SSE_ALIGN_MASK in
          let '(p1, p2, n', res) :=
            if (p1Align =? 0) && (p2Align =? 0)
            then (s1, s2, n, sse2_aligned_memcpy m s1 s2 n)
            else
              let distance := SSE_ALIGN_SIZE - p1Align in
              let step := if distance <=? 15 then distance else 0 in
              let m1 := copy_fwd m s1 s2 1 (Z.to_nat step) in
              (s1 + step, s2 + step, n - step,
               sse2_src_unaligned_memcpy m1 (s1 + step) (s2 + step) (n - step)) in
          match res with
          | None => None
          | Some m2 =>
              let count := Z.ldiff n' 127 in
              memcpy_fuel fuel' cr0 can_sse m2 (p1 + count) (p2 + count) (Z.land n' 127)
          end
        else Some (can_sse, memcpy_small m s1 s2 n)
  end.

Definition memcpy := memcpy_fuel 2.

Definition memcpy_gcc (m : mem) (s1 s2 n : Z) : mem := copy_fwd m s1 s2 1 (Z.to_nat n).

(** The first loop of [memmove]'s downward copy: it runs while
    [(dest8 - 1) % 4 != 0 && n != 0]. *)
Fixpoint memmove_align (m : mem) (dest8 src8 : Z) (n : nat) : mem * Z * Z * nat :=
  match n with
  | O => (m, dest8, src8, O)
  | S n' =>
      if (dest8 - 1) mod 4 =? 0 then (m, dest8, src8, n)
      else memmove_align (copy_block m (dest8 - 1) (src8 - 1) 1) (dest8 - 1) (src8 - 1) n'
  end.

(** The branch of [memmove] for [s1 > s2]. *)
Definition memmove_down (m : mem) (s1 s2 n : Z) : mem :=
  let '(m, dest8, src8, n) := memmove_align m (s1 + n) (s2 + n) (Z.to_nat n) in
  let words := (n / 4)%nat in
  let m := copy_bwd m dest8 src8 4 words in
  copy_bwd m (dest8 - 4 * Z.of_nat words) (src8 - 4 * Z.of_nat words) 1 (n mod 4)%nat.

Definition memmove (cr0 : Z) (can_sse : bool) (m : mem) (s1 s2 n : Z) : option (bool * mem) :=
  if s1 <=? s2 then memcpy cr0 can_sse m s1 s2 n
  else Some (can_sse, memmove_down m s1 s2 n).

(** [memcmp] compares plain [char]s, signed on x86. *)
Fixpoint memcmp_loop (m : mem) (a b : Z) (len : nat) : Z :=
  match len with
  | O => 0
  | S len' =>
      if signed 8 (m a) <? signed 8 (m b) then -1
      else if signed 8 (m b) <? signed 8 (m a) then 1
      else memcmp_loop m (a + 1) (b + 1) len'
  end.

Definition memcmp (m : mem) (p1 p2 len : Z) : Z := memcmp_loop m p1 p2 (Z.to_nat len).
End Routines.

(** ** What the instructions do *)

(** [m'] is [m] with the [n] bytes at [d] replaced by those at [s]. *)
Definition copied (m m' : mem) (d s n : Z) : Prop :=
  forall a, m' a = if in_range d n a then m (s + (a - d)) else m a.

(** Copying upwards reads each byte before it is overwritten. *)
Definition up_safe (d s n : Z) : Prop := d <= s \/ s + n <= d.

Lemma copied_0 m d s : copied m m d s 0.
Proof. intros a. rcase; [lia|reflexivity]. Qed.

Lemma copy_fwd_copied m d s k c :
  0 <= k -> up_safe d s (k * Z.of_nat c) -> copied m (copy_fwd m d s k c) d s (k * Z.of_nat c).
Proof.
  intros Hk. revert m d s. induction c as [|c IH]; intros m d s Hs.
  - replace (k * Z.of_nat 0) with 0 by lia. apply copied_0.
  - intros a. simpl copy_fwd. unfold up_safe in Hs. rewrite IH by (unfold up_safe; nia).
    unfold copy_block. rcase; try nia; f_equal; nia.
Qed.

(** A partial copy continued by another one. *)
Lemma copied_fwd m0 m d s i k c :
  0 <= i -> 0 <= k -> copied m0 m d s i -> up_safe d s (i + k * Z.of_nat c) ->
  copied m0 (copy_fwd m (d + i) (s + i) k c) d s (i + k * Z.of_nat c).
Proof.
  intros Hi Hk Hc Hs a. unfold up_safe in *.
  rewrite copy_fwd_copied by (unfold up_safe; nia). rewrite !Hc.
  rcase; try nia; f_equal; nia.
Qed.

Lemma copied_bytes m0 m d s i c :
  0 <= i -> 0 <= c -> copied m0 m d s i -> up_safe d s (i + c) ->
  copied m0 (copy_fwd m (d + i) (s + i) 1 (Z.to_nat c)) d s (i + c).
Proof.
  intros Hi Hc H Hs. replace c with (1 * Z.of_nat (Z.to_nat c)) at 2 by lia.
  apply copied_fwd; try easy; try lia. now replace (1 * Z.of_nat (Z.to_nat c)) with c by lia.
Qed.

Lemma copied_bytes_start m d s n :
  0 <= n -> up_safe d s n -> copied m (copy_fwd m d s 1 (Z.to_nat n)) d s n.
Proof.
  intros Hn Hs. pose proof (copied_bytes m m d s 0 n) as H.
  rewrite !Z.add_0_r, !Z.add_0_l in H. apply H; [lia..|apply copied_0|exact Hs].
Qed.

Lemma copy_bwd_copied m d s k c :
  0 <= k -> s <= d ->
  copied m (copy_bwd m d s k c) (d - k * Z.of_nat c) (s - k * Z.of_nat c) (k * Z.of_nat c).
Proof.
  intros Hk. revert m d s. induction c as [|c IH]; intros m d s Hs.
  - replace (k * Z.of_nat 0) with 0 by lia. apply copied_0.
  - intros a. simpl copy_bwd. rewrite IH by lia.
    unfold copy_block. rcase; try nia; f_equal; nia.
Qed.

(** A downward copy that has done the last [i] bytes, continued. *)
Lemma copied_bwd m0 m d s i k c :
  0 <= i -> 0 <= k -> s <= d -> copied m0 m (d - i) (s - i) i ->
  copied m0 (copy_bwd m (d - i) (s - i) k c)
    (d - (i + k * Z.of_nat c)) (s - (i + k * Z.of_nat c)) (i + k * Z.of_nat c).
Proof.
  intros Hi Hk Hs Hc a. rewrite copy_bwd_copied by lia. rewrite !Hc.
  rcase; try nia; f_equal; nia.
Qed.

(** [m'] is [m] with the [n] bytes at [p] set to [c]. *)
Definition filled (m m' : mem) (p n c : Z) : Prop :=
  forall a, m' a = if in_range p n a then c else m a.

(** The low [k] bytes of [v] are all [c]. *)
Fixpoint all_bytes (k : nat) (v c : Z) : bool :=
  match k with
  | O => true
  | S k' => (Z.land v 255 =? c) && all_bytes k' (Z.shiftr v 8) c
  end.

Lemma store_le_filled m a k v c :
  all_bytes k v c = true -> filled m (store_le m a k v) a (Z.of_nat k) c.
Proof.
  revert m a v. induction k as [|k IH]; intros m a v; simpl.
  - intros _ b. rcase; [lia|reflexivity].
  - intros [E%Z.eqb_eq H]%andb_true_iff b. rewrite (IH _ _ _ H), E.
    rcase; try lia; try reflexivity.
    + replace b with a by lia. now rewrite upd_eq.
    + rewrite upd_ne by lia. reflexivity.
Qed.

Lemma filled_app m0 m m' p i n c :
  0 <= i -> 0 <= n -> filled m0 m p i c -> filled m m' (p + i) n c -> filled m0 m' p (i + n) c.
Proof. intros Hi Hn H1 H2 a. rewrite H2, H1. rcase; lia || reflexivity. Qed.

Lemma rep_stos_filled k count m p v c :
  all_bytes k v c = true ->
  filled m (rep_stos k count m p v) p (Z.of_nat count * Z.of_nat k) c.
Proof.
  intros Hv. revert m p. induction count as [|n IH]; intros m p; simpl rep_stos.
  - intros a. rcase; [lia|reflexivity].
  - replace (Z.of_nat (S n) * Z.of_nat k) with (Z.of_nat k + Z.of_nat n * Z.of_nat k) by lia.
    apply (filled_app m (store_le m p k v)); [lia|nia|apply store_le_filled; exact Hv|apply IH].
Qed.

(** The words [memset_nonzero] builds have the byte in every position. *)
Lemma memset_word64 c :
  0 <= c < 256 ->
  all_bytes 8 (Z.lor (Z.shiftl c 56) (Z.lor (Z.shiftl c 48) (Z.lor (Z.shiftl c 40)
              (Z.lor (Z.shiftl c 32) (Z.lor (Z.shiftl c 24) (Z.lor (Z.shiftl c 16)
              (Z.lor (Z.shiftl c 8) c))))))) c = true.
Proof. intros H. byte_cases c H. Qed.

Lemma memset_word32 c :
  0 <= c < 256 ->
  all_bytes 4 (wrap 32 (Z.lor (Z.shiftl c 24) (Z.lor (Z.shiftl c 16)
                       (Z.lor (Z.shiftl c 8) c)))) c = true.
Proof. intros H. byte_cases c H. Qed.

Lemma memset_word16 c :
  0 <= c < 256 -> all_bytes 2 (wrap 16 (Z.lor (Z.shiftl c 8) c)) c = true.
Proof. intros H. byte_cases c H. Qed.

Lemma memset_word8 c : 0 <= c < 256 -> all_bytes 1 c c = true.
Proof. intros H. byte_cases c H. Qed.

Section MemsetCorrect.
Context (bits64 : bool).

(** The byte branch makes progress and stays in bounds. *)
Lemma memset_nbytes_bounds n : 1 <= n -> 1 <= memset_nbytes bits64 n <= n.
Proof.
  intros Hn. unfold memset_nbytes.
  pose proof (Z.mod_pos_bound n 8 ltac:(lia)). pose proof (Z.mod_pos_bound n 4 ltac:(lia)).
  pose proof (Z.mod_pos_bound n 2 ltac:(lia)).
  set (q := 8 - _). set (d := 4 - _). set (w := 2 - _). cbv zeta.
  destruct (Z.ltb_spec 8 n); [|lia].
  destruct (bits64 && _ && _); [lia|]. zcmp; lia.
Qed.

Lemma filled_empty m p c n : n <= 0 -> filled m m p n c.
Proof. intros Hn a. rcase; [lia|reflexivity]. Qed.

Lemma rep_stos_words k m p v c n :
  (0 < k)%nat -> 0 <= n -> n mod Z.of_nat k = 0 -> all_bytes k v c = true ->
  filled m (rep_stos k (Z.to_nat (n / Z.of_nat k)) m p v) p n c.
Proof.
  intros Hk Hn Hm Hv. replace n with (Z.of_nat (Z.to_nat (n / Z.of_nat k)) * Z.of_nat k) at 2.
  - apply rep_stos_filled. exact Hv.
  - rewrite Z2Nat.id by (apply Z.div_pos; lia). apply Z.div_exact in Hm; lia.
Qed.

Lemma memset_loop_filled fuel m p c n :
  0 <= c < 256 -> 0 <= n -> (Z.to_nat n < fuel)%nat ->
  exists m', memset_loop bits64 fuel m p c n = Some m' /\ filled m m' p n c.
Proof.
  intros Hc. revert m p n. induction fuel as [|fuel IH]; intros m p n Hn Hf; [lia|].
  simpl. destruct (Z.eqb_spec n 0) as [->|Hn0].
  { exists m. split; [reflexivity|]. apply filled_empty. lia. }
  assert (forall m1, filled m m1 p n c ->
            exists m', memset_loop bits64 fuel m1 p c 0 = Some m' /\ filled m m' p n c) as Hfin.
  { intros m1 H1. destruct (IH m1 p 0) as (m' & -> & H2); [lia..|]. exists m'.
    split; [reflexivity|]. intros a. rewrite H2, H1. rcase; lia || reflexivity. }
  destruct (bits64 && _) eqn:E8.
  { apply andb_true_iff in E8 as [_ E8%Z.eqb_eq]. apply Hfin.
    apply (rep_stos_words 8); [lia|lia|exact E8|now apply memset_word64]. }
  destruct (Z.eqb_spec (n mod 4) 0) as [E4|_].
  { apply Hfin. apply (rep_stos_words 4); [lia|lia|exact E4|now apply memset_word32]. }
  destruct (Z.eqb_spec (n mod 2) 0) as [E2|_].
  { apply Hfin. apply (rep_stos_words 2); [lia|lia|exact E2|now apply memset_word16]. }
  pose proof (memset_nbytes_bounds n ltac:(lia)) as Hb. set (nb := memset_nbytes bits64 n) in *.
  set (m1 := rep_stos 1 (Z.to_nat nb) m p c).
  assert (filled m m1 p nb c) as H1.
  { subst m1. rewrite <- (Z.div_1_r nb) at 1.
    apply (rep_stos_words 1); [lia|lia|apply Z.mod_1_r|now apply memset_word8]. }
  destruct (IH m1 (p + nb) (n - nb)) as (m' & -> & H2); [lia..|].
  exists m'. split; [reflexivity|]. replace n with (nb + (n - nb)) by lia.
  eapply filled_app; [lia|lia|exact H1|exact H2].
Qed.
End MemsetCorrect.

Section MemcpyCorrect.
Context (bits64 : bool).

Lemma sizeof_size_t_pow : sizeof_size_t bits64 = 2 ^ (if bits64 then 3 else 2).
Proof. now destruct bits64. Qed.

Lemma land_natural_mask z : Z.land z (NATURAL_MASK bits64) = z mod sizeof_size_t bits64.
Proof.
  unfold NATURAL_MASK, sizeof_size_t.
  destruct bits64; [exact (Z.land_ones z 3 ltac:(lia))|exact (Z.land_ones z 2 ltac:(lia))].
Qed.

Lemma memcpy_small_copied m d s n :
  0 <= n -> up_safe d s n -> copied m (memcpy_small bits64 m d s n) d s n.
Proof.
  intros Hn Hs. unfold memcpy_small. rewrite !land_natural_mask, sizeof_size_t_pow.
  set (e := if bits64 then 3 else 2). assert (0 <= e <= 3) as He by (subst e; destruct bits64; lia).
  assert (0 < 2 ^ e) as Hp by (apply Z.pow_pos_nonneg; lia).
  rewrite Z.shiftr_div_pow2 by lia. destruct (Z.ltb_spec n (2 ^ e)) as [Hlt|Hge].
  { now apply copied_bytes_start. }
  set (off := (2 ^ e - d mod 2 ^ e) mod 2 ^ e).
  assert (0 <= off < 2 ^ e) as Hoff by (apply Z.mod_pos_bound; lia).
  set (rest := n - off). set (blocks := rest / 2 ^ e).
  assert (rest = 2 ^ e * blocks + rest mod 2 ^ e) as Hrest by (apply Z.div_mod; lia).
  assert (0 <= rest mod 2 ^ e < 2 ^ e) as Htail by (apply Z.mod_pos_bound; lia).
  assert (0 <= blocks) as Hb by (apply Z.div_pos; lia).
  assert (off + rest = n) as Er by (subst rest; ring). clearbody blocks rest off.
  assert (copied m (copy_fwd m d s 1 (Z.to_nat off)) d s off) as H1.
  { apply copied_bytes_start; [lia|]. unfold up_safe in *. lia. }
  set (m1 := copy_fwd m d s 1 (Z.to_nat off)) in *.
  assert (copied m (copy_fwd m1 (d + off) (s + off) (2 ^ e) (Z.to_nat blocks)) d s
            (off + 2 ^ e * blocks)) as H2.
  { rewrite <- (Z2Nat.id blocks) at 2 by lia. apply copied_fwd; [lia..|exact H1|].
    unfold up_safe in *. rewrite Z2Nat.id by lia. lia. }
  set (m2 := copy_fwd m1 _ _ _ _) in *. rewrite <- !Z.add_assoc.
  assert (n = (off + 2 ^ e * blocks) + rest mod 2 ^ e) as En
    by (rewrite <- Z.add_assoc, <- Hrest; easy).
  assert (up_safe d s (off + 2 ^ e * blocks + rest mod 2 ^ e)) as Hs' by now rewrite <- En.
  assert (0 <= off + 2 ^ e * blocks) as Hi by nia.
  pose proof (copied_bytes _ _ _ _ _ _ Hi (proj1 Htail) H2 Hs') as H3.
  now rewrite <- En in H3.
Qed.

Lemma aligned16_step d :
  aligned16 (d + (if SSE_ALIGN_SIZE - Z.land d SSE_ALIGN_MASK <=? 15
                  then SSE_ALIGN_SIZE - Z.land d SSE_ALIGN_MASK else 0)) = true.
Proof.
  unfold aligned16, SSE_ALIGN_SIZE, SSE_ALIGN_MASK. change 15 with (Z.ones 4).
  rewrite !Z.land_ones by lia. change (2 ^ 4) with 16. change 0x10 with 16.
  apply Z.eqb_eq. change (Z.ones 4) with 15. zcmp; zlia.
Qed.

(** One pass of the 128-byte loops, from a partial copy. *)
Lemma copied_blocks m0 m d s i n :
  0 <= i -> 0 <= n -> copied m0 m d s i -> up_safe d s (i + n) ->
  copied m0 (copy_fwd m (d + i) (s + i) 128 (Z.to_nat (Z.shiftr n 7))) d s
    (i + Z.ldiff n 127).
Proof.
  intros Hi Hn H Hs. rewrite Z.shiftr_div_pow2 by lia.
  change 127 with (Z.ones 7). rewrite Z.ldiff_ones_r by lia.
  rewrite Z.shiftl_mul_pow2, Z.shiftr_div_pow2 by lia. change (2 ^ 7) with 128.
  assert (0 <= n / 128) by (apply Z.div_pos; lia).
  replace (i + n / 128 * 128) with (i + 128 * Z.of_nat (Z.to_nat (n / 128)))
    by (rewrite Z2Nat.id by lia; ring).
  apply copied_fwd; [lia..|exact H|]. unfold up_safe in *. rewrite Z2Nat.id by lia.
  pose proof (Z.mul_div_le n 128 ltac:(lia)). lia.
Qed.

Lemma ldiff_127 n : 0 <= n -> Z.ldiff n 127 + Z.land n 127 = n /\ 0 <= Z.land n 127 < 128.
Proof.
  intros Hn. change 127 with (Z.ones 7).
  rewrite Z.ldiff_ones_r, Z.land_ones, Z.shiftl_mul_pow2, Z.shiftr_div_pow2 by lia.
  change (2 ^ 7) with 128. split; zlia.
Qed.

Lemma sse2_aligned_ok m d s n :
  aligned16 d = true -> aligned16 s = true -> n <> 0 ->
  sse2_aligned_memcpy m d s n = Some (copy_fwd m d s 128 (Z.to_nat (Z.shiftr n 7))).
Proof.
  intros Hd Hs Hn. unfold sse2_aligned_memcpy.
  now rewrite Hd, Hs, orb_true_r, (proj2 (Z.eqb_neq n 0) Hn).
Qed.

Lemma sse2_src_unaligned_ok m d s n :
  aligned16 d = true -> n <> 0 ->
  sse2_src_unaligned_memcpy m d s n = Some (copy_fwd m d s 128 (Z.to_nat (Z.shiftr n 7))).
Proof.
  intros Hd Hn. unfold sse2_src_unaligned_memcpy.
  now rewrite Hd, orb_true_r, (proj2 (Z.eqb_neq n 0) Hn).
Qed.

(** A call below the threshold takes the small path. *)
Lemma memcpy_below fuel cr0 can_sse m d s n :
  0 <= n <= SSE_THRESHOLD -> up_safe d s n ->
  exists cs m', memcpy_fuel bits64 (S fuel) cr0 can_sse m d s n = Some (cs, m') /\
                copied m m' d s n.
Proof.
  intros Hn Hs. simpl. destruct (Z.eqb_spec n 0) as [->|Hn0].
  { exists can_sse, m. split; [reflexivity|apply copied_0]. }
  destruct (Z.ltb_spec SSE_THRESHOLD n); [lia|]. rewrite andb_false_r.
  do 2 eexists. split; [reflexivity|]. now apply memcpy_small_copied.
Qed.

(** The tail call after the block loop completes the copy. *)
Lemma memcpy_tail cr0 cs m m2 d s i n :
  0 <= i -> 0 <= n -> up_safe d s (i + n) -> copied m m2 d s (i + Z.ldiff n 127) ->
  exists cs' m', memcpy_fuel bits64 1 cr0 cs m2 (d + i + Z.ldiff n 127)
                   (s + i + Z.ldiff n 127) (Z.land n 127) = Some (cs', m') /\
                 copied m m' d s (i + n).
Proof.
  intros Hi Hn Hs H. destruct (ldiff_127 n Hn) as [En Hl]. set (k := Z.ldiff n 127) in *.
  assert (0 <= k) by (apply Z.ldiff_nonneg; lia).
  destruct (memcpy_below 0 cr0 cs m2 (d + i + k) (s + i + k) (Z.land n 127)) as (c & m' & E & Hc).
  { unfold SSE_THRESHOLD. lia. }
  { unfold up_safe in *. lia. }
  exists c, m'. split; [exact E|]. intros a. rewrite Hc, !H.
  destruct Hs; rcase; try lia; f_equal; lia.
Qed.

Lemma memcpy_copied cr0 can_sse m d s n :
  0 <= n -> up_safe d s n ->
  exists cs m', memcpy bits64 cr0 can_sse m d s n = Some (cs, m') /\ copied m m' d s n.
Proof.
  intros Hn Hs. destruct (Z.le_gt_cases n SSE_THRESHOLD) as [Hle|Hgt].
  { now apply memcpy_below. }
  assert (0 < SSE_THRESHOLD) as Hth by reflexivity.
  unfold memcpy. assert (exists one, one = 1%nat) as [one Eone] by eauto.
  replace 2%nat with (S one) by now subst. cbn [memcpy_fuel]. subst one.
  destruct (Z.eqb_spec n 0); [lia|].
  destruct (Z.ltb_spec SSE_THRESHOLD n) as [_|]; [|lia]. rewrite andb_true_r.
  set (cs := can_sse || _). destruct cs.
  2: { do 2 eexists. split; [reflexivity|]. now apply memcpy_small_copied. }
  destruct (_ && _) eqn:Eal.
  - apply andb_true_iff in Eal as [Ed Es]. rewrite sse2_aligned_ok by (easy || lia).
    destruct (memcpy_tail cr0 true m (copy_fwd m d s 128 (Z.to_nat (Z.shiftr n 7))) d s 0 n)
      as (c & m' & E & Hc); [lia|lia|exact Hs| |].
    + pose proof (copied_blocks m m d s 0 n) as H. rewrite !Z.add_0_r in H.
      apply H; [lia..|apply copied_0|exact Hs].
    + rewrite !Z.add_0_r in E. rewrite E. eauto.
  - set (step := if SSE_ALIGN_SIZE - Z.land d SSE_ALIGN_MASK <=? 15
                 then SSE_ALIGN_SIZE - Z.land d SSE_ALIGN_MASK else 0).
    assert (0 <= step <= 15) as Hst.
    { subst step. pose proof (Z.land_nonneg d SSE_ALIGN_MASK) as [_ Hnn].
      pose proof (Z.land_ones d 4 ltac:(lia)) as El. change (Z.ones 4) with 15 in El.
      unfold SSE_ALIGN_SIZE, SSE_ALIGN_MASK in *. rewrite El.
      pose proof (Z.mod_pos_bound d 16 ltac:(lia)). change (2 ^ 4) with 16. zcmp; lia. }
    assert (aligned16 (d + step) = true) as Hal by apply aligned16_step.
    clearbody step. assert (SSE_THRESHOLD = 524288) as Eth by reflexivity.
    rewrite sse2_src_unaligned_ok by (exact Hal || lia).
    assert (copied m (copy_fwd m d s 1 (Z.to_nat step)) d s step) as H1.
    { apply copied_bytes_start; [lia|]. unfold up_safe in *. lia. }
    assert (up_safe d s (step + (n - step))) as Hs' by now rewrite Zplus_minus.
    pose proof (copied_blocks _ _ _ _ _ (n - step) (proj1 Hst) ltac:(lia) H1 Hs') as H2.
    destruct (memcpy_tail cr0 true m _ d s step (n - step) (proj1 Hst) ltac:(lia) Hs' H2)
      as (c & m' & E & Hc).
    rewrite E, Zplus_minus in *. eauto.
Qed.
End MemcpyCorrect.

(** ** [memmove] and [memcmp] *)

Lemma memmove_align_spec m d s n m' d' s' n' :
  s <= d -> memmove_align m (d + Z.of_nat n) (s + Z.of_nat n) n = (m', d', s', n') ->
  (n' <= n)%nat /\ d' = d + Z.of_nat n' /\ s' = s + Z.of_nat n' /\
  copied m m' d' s' (Z.of_nat n - Z.of_nat n') /\ (n' = O \/ d' mod 4 = 1).
Proof.
  intros Hs. revert m. induction n as [|n IH]; intros m; cbn [memmove_align].
  - intros [=]; subst. repeat split; auto. apply copied_0.
  - destruct (Z.eqb_spec ((d + Z.of_nat (S n) - 1) mod 4) 0) as [E|E].
    + intros [=]; subst. do 3 (split; [lia|]). split; [|right; zlia].
      rewrite Z.sub_diag. apply copied_0.
    + replace (d + Z.of_nat (S n) - 1) with (d + Z.of_nat n) by lia.
      replace (s + Z.of_nat (S n) - 1) with (s + Z.of_nat n) by lia.
      intros H. destruct (IH _ H) as (Hn & -> & -> & Hc & Hal).
      do 3 (split; [lia|]). split; [|exact Hal].
      intros a. rewrite Hc. unfold copy_block. rcase; try lia; f_equal; lia.
Qed.

Lemma memmove_down_copied m d s n :
  0 <= n -> s <= d -> copied m (memmove_down m d s n) d s n.
Proof.
  intros Hn Hs. unfold memmove_down.
  destruct (memmove_align _ _ _ _) as [[[m1 d1] s1] n1] eqn:E.
  rewrite <- (Z2Nat.id n) in E at 1 2 by lia. set (k := Z.to_nat n) in *.
  destruct (memmove_align_spec _ _ _ _ _ _ _ _ Hs E) as (Hk & -> & -> & H1 & _).
  pose proof (Nat.div_mod_eq n1 4) as Hdm.
  set (i := Z.of_nat k - Z.of_nat n1) in *.
  replace (d + Z.of_nat n1) with (d + n - i) in * by lia.
  replace (s + Z.of_nat n1) with (s + n - i) in * by lia.
  pose proof (copied_bwd m m1 (d + n) (s + n) i 4 (n1 / 4) ltac:(lia) ltac:(lia) ltac:(lia) H1) as H2.
  set (j := i + 4 * Z.of_nat (n1 / 4)) in *.
  replace (d + n - i - 4 * Z.of_nat (n1 / 4)) with (d + n - j) by lia.
  replace (s + n - i - 4 * Z.of_nat (n1 / 4)) with (s + n - j) by lia.
  pose proof (copied_bwd m _ (d + n) (s + n) j 1 (n1 mod 4) ltac:(lia) ltac:(lia) ltac:(lia) H2) as H3.
  replace (j + 1 * Z.of_nat (n1 mod 4)) with n in H3 by lia.
  now replace (d + n - n) with d in H3 by lia; replace (s + n - n) with s in H3 by lia.
Qed.

(** Every cell holds a byte. *)
Definition byte_mem (m : mem) : Prop := forall a, 0 <= m a < 256.

Lemma signed8_inj x y : 0 <= x < 256 -> 0 <= y < 256 -> signed 8 x = signed 8 y -> x = y.
Proof. unfold signed. intros. zcmp; lia. Qed.

Lemma memcmp_loop_spec m a b n :
  byte_mem m ->
  (memcmp_loop m a b n = 0 /\ (forall i, 0 <= i < Z.of_nat n -> m (a + i) = m (b + i))) \/
  exists i, 0 <= i < Z.of_nat n /\ (forall j, 0 <= j < i -> m (a + j) = m (b + j)) /\
    (memcmp_loop m a b n = -1 /\ signed 8 (m (a + i)) < signed 8 (m (b + i)) \/
     memcmp_loop m a b n = 1 /\ signed 8 (m (b + i)) < signed 8 (m (a + i))).
Proof.
  intros Hm. revert a b. induction n as [|n IH]; intros a b; simpl memcmp_loop.
  { left. split; [reflexivity|lia]. }
  destruct (Z.ltb_spec (signed 8 (m a)) (signed 8 (m b))).
  { right. exists 0. rewrite !Z.add_0_r. repeat split; lia. }
  destruct (Z.ltb_spec (signed 8 (m b)) (signed 8 (m a))).
  { right. exists 0. rewrite !Z.add_0_r. repeat split; lia. }
  assert (m a = m b) as Hab by (apply signed8_inj; auto; lia).
  assert (forall i, (forall j, 0 <= j < i -> m (a + 1 + j) = m (b + 1 + j)) ->
                    forall j, 0 <= j < i + 1 -> m (a + j) = m (b + j)) as Hshift.
  { intros i Hi j Hj. destruct (Z.eq_dec j 0) as [->|]; [now rewrite !Z.add_0_r|].
    replace (a + j) with (a + 1 + (j - 1)) by lia.
    replace (b + j) with (b + 1 + (j - 1)) by lia. apply Hi. lia. }
  destruct (IH (a + 1) (b + 1)) as [[-> Heq]|(i & Hi & Heq & Hc)].
  - left. split; [reflexivity|]. intros i Hi. apply (Hshift (Z.of_nat n)); [exact Heq|lia].
  - right. exists (i + 1). split; [lia|]. split; [now apply Hshift|].
    now rewrite <- !Z.add_assoc, !(Z.add_comm 1) in Hc.
Qed.

(** ** Properties *)

(** [memmove] moves the block whatever the overlap: it returns without a
    fault, every destination byte holds the byte the source held before the
    call, and no other byte changes. *)
Theorem memmove_correct (bits64 : bool) (cr0 : Z) (can_sse : bool) (m : mem) (s1 s2 n : Z)
    (Hn : 0 <= n) :
  exists cs m', memmove bits64 cr0 can_sse m s1 s2 n = Some (cs, m') /\ copied m m' s1 s2 n.
Proof.
  unfold memmove. destruct (Z.leb_spec s1 s2).
  - apply memcpy_copied; [exact Hn|]. left. lia.
  - do 2 eexists. split; [reflexivity|]. apply memmove_down_copied; lia.
Qed.

(** [memcpy] copies exactly the block, on both builds, with or without SSE,
    at any alignment and length, when source and destination do not overlap or
    the destination is below; it never makes an unaligned aligned-SSE access. *)
Theorem memcpy_correct (bits64 : bool) (cr0 : Z) (can_sse : bool) (m : mem) (s1 s2 n : Z)
    (Hn : 0 <= n) (Hover : s1 <= s2 \/ s2 + n <= s1) :
  exists cs m', memcpy bits64 cr0 can_sse m s1 s2 n = Some (cs, m') /\ copied m m' s1 s2 n.
Proof. now apply memcpy_copied. Qed.

(** [memset] terminates and sets exactly the [n] bytes at [buf] to the low
    byte of [c], whatever mix of 1, 2, 4 and 8-byte stores it uses. *)
Theorem memset_correct (bits64 : bool) (m : mem) (buf c n : Z) (Hn : 0 <= n) :
  exists m', memset bits64 m buf c n = Some m' /\ filled m m' buf n (Z.land c 255).
Proof.
  unfold memset, memset_nonzero. destruct (Z.eqb_spec n 0) as [->|].
  { exists m. split; [reflexivity|]. apply filled_empty. lia. }
  destruct (Z.eqb_spec n 1) as [->|].
  { eexists. split; [reflexivity|]. intros a. unfold upd. rcase; zcmp; lia || reflexivity. }
  apply memset_loop_filled; [apply land_255_range|lia|lia].
Qed.

(** [memcmp] is 0 exactly when the blocks are equal; otherwise its sign is
    that of the first difference, compared as signed [char]s. *)
Theorem memcmp_first_difference (m : mem) (p1 p2 len : Z) (Hm : byte_mem m) (Hl : 0 <= len) :
  (memcmp m p1 p2 len = 0 /\ (forall i, 0 <= i < len -> m (p1 + i) = m (p2 + i))) \/
  exists i, 0 <= i < len /\ (forall j, 0 <= j < i -> m (p1 + j) = m (p2 + j)) /\
    (memcmp m p1 p2 len = -1 /\ signed 8 (m (p1 + i)) < signed 8 (m (p2 + i)) \/
     memcmp m p1 p2 len = 1 /\ signed 8 (m (p2 + i)) < signed 8 (m (p1 + i))).
Proof.
  unfold memcmp. pose proof (memcmp_loop_spec m p1 p2 (Z.to_nat len) Hm) as H.
  now rewrite (Z2Nat.id len Hl) in H.
Qed.

(** Bytes above 0x7f order before the others, against the C standard. *)
Lemma memcmp_high_bytes_order_first (m : mem) (p q : Z) :
  m p = 0x80 -> m q = 0x01 -> memcmp m p q 1 = -1.
Proof. unfold memcmp. simpl. now intros -> ->. Qed.

(** The alignment loop of [memmove] leaves the destination one past a multiple
    of four, so none of the 32-bit stores that follow is aligned. *)
Lemma memmove_words_unaligned m d s n m' d' s' n' :
  s <= d -> memmove_align m (d + Z.of_nat n) (s + Z.of_nat n) n = (m', d', s', n') ->
  n' <> O -> (d' - 4) mod 4 = 1.
Proof.
  intros Hs E Hn. destruct (memmove_align_spec _ _ _ _ _ _ _ _ Hs E) as (_ & _ & _ & _ & [?|H]);
    [contradiction|zlia].
Qed.

(** ** Witnesses *)

Definition ramp : mem := fun a => Z.land a 255.

Lemma memmove_correct_witness :
  (exists cs m', memmove true 0 false ramp 1003 1000 20 = Some (cs, m') /\
                 copied ramp m' 1003 1000 20) /\
  memmove_down ramp 1003 1000 20 1010 = ramp 1007.
Proof. split; [apply (memmove_correct true 0 false ramp 1003 1000 20); lia|reflexivity]. Defined.

Lemma memcpy_correct_witness :
  (exists cs m', memcpy false 0 false ramp 0x100000 0x800003 600001 = Some (cs, m') /\
                 copied ramp m' 0x100000 0x800003 600001) /\
  memcpy_small true ramp 0x100003 0x800005 37 0x100010 = ramp 0x800012.
Proof.
  split; [|reflexivity].
  apply (memcpy_correct false 0 false ramp 0x100000 0x800003 600001); [lia|left; lia].
Defined.

Lemma memset_correct_witness :
  (exists m', memset true ramp 4097 0x1ab 23 = Some m' /\ filled ramp m' 4097 23 0xab) /\
  match memset true ramp 4097 0x1ab 23 with Some m' => m' 4119 = 0xab | None => False end.
Proof. split; [apply (memset_correct true ramp 4097 0x1ab 23); lia|reflexivity]. Defined.

Lemma ramp_byte_mem : byte_mem ramp.
Proof. intros a. apply land_255_range. Qed.

Lemma memcmp_first_difference_witness :
  memcmp ramp 100 100 10 = 0 /\
  ((memcmp ramp 5 6 3 = 0 /\ (forall i, 0 <= i < 3 -> ramp (5 + i) = ramp (6 + i))) \/
   exists i, 0 <= i < 3 /\ (forall j, 0 <= j < i -> ramp (5 + j) = ramp (6 + j)) /\
     (memcmp ramp 5 6 3 = -1 /\ signed 8 (ramp (5 + i)) < signed 8 (ramp (6 + i)) \/
      memcmp ramp 5 6 3 = 1 /\ signed 8 (ramp (6 + i)) < signed 8 (ramp (5 + i)))).
Proof.
  split; [reflexivity|]. apply (memcmp_first_difference ramp 5 6 3); [exact ramp_byte_mem|lia].
Defined.
