(* ===== verification/CString.v ===== *)
(** * The kernel's string routines: src/src/system/kernel/core/lib/string.c

    Strings are in memory, NUL-terminated; every loop that looks for the NUL has
    a fuel argument and returns [None] when it runs out, which the theorems
    exclude: fuel above the length of the string is enough.  A [char] is signed,
    as on x86: a byte [b] is read as [signed 8 b]. *)
From Stdlib Require Import ZArith Lia List Bool.
From S2P Require Import Prelude.
Import ListNotations.
Local Open Scope Z_scope.

Fixpoint strlen_loop (fuel : nat) (m : mem) (src i : Z) : option Z :=
  match fuel with
  | O => None
  | S fuel' => if m src =? 0 then Some i else strlen_loop fuel' m (src + 1) (i + 1)
  end.

Definition strlen (fuel : nat) (m : mem) (src : Z) : option Z := strlen_loop fuel m src 0.

Fixpoint strcpy_loop (fuel : nat) (m : mem) (dest src n : Z) : option (Z * mem) :=
  match fuel with
  | O => None
  | S fuel' =>
      if m src =? 0 then Some (n, upd m dest 0)
      else strcpy_loop fuel' (upd m dest (m src)) (dest + 1) (src + 1) (n + 1)
  end.

Definition strcpy (fuel : nat) (m : mem) (dest src : Z) := strcpy_loop fuel m dest src 0.

Fixpoint strncpy_loop (fuel : nat) (m : mem) (dest src len n : Z) : option (Z * mem) :=
  match fuel with
  | O => None
  | S fuel' =>
      if negb (m src =? 0) && negb (len =? 0)
      then strncpy_loop fuel' (upd m dest (m src)) (dest + 1) (src + 1) (len - 1) (n + 1)
      else Some (n, upd m dest 0)
  end.

Definition strncpy (fuel : nat) (m : mem) (dest src len : Z) := strncpy_loop fuel m dest src len 0.

(** The test after the loops of [strcmp] and [strncmp]. *)
Definition one_ended (c1 c2 : Z) : bool :=
  ((c1 =? 0) && negb (c2 =? 0)) || (negb (c1 =? 0) && (c2 =? 0)).

Fixpoint strcmp_loop (fuel : nat) (m : mem) (p1 p2 : Z) : option Z :=
  match fuel with
  | O => None
  | S fuel' =>
      if negb (m p1 =? 0) && negb (m p2 =? 0) then
        if negb (m p1 =? m p2) then Some 1 else strcmp_loop fuel' m (p1 + 1) (p2 + 1)
      else Some (if one_ended (m p1) (m p2) then 1 else 0)
  end.

Definition strcmp := strcmp_loop.

Fixpoint strncmp_loop (fuel : nat) (m : mem) (p1 p2 n : Z) : option Z :=
  match fuel with
  | O => None
  | S fuel' =>
      if negb (m p1 =? 0) && negb (m p2 =? 0) && negb (n =? 0) then
        if negb (m p1 =? m p2) then Some 1 else strncmp_loop fuel' m (p1 + 1) (p2 + 1) (n - 1)
      else Some (if negb (n =? 0) && one_ended (m p1) (m p2) then 1 else 0)
  end.

Definition strncmp := strncmp_loop.

(** [while (src[si]) dest[di++] = src[si++]; dest[di] = 0]. *)
Fixpoint strcat_loop (fuel : nat) (m : mem) (dest src di si : Z) : option mem :=
  match fuel with
  | O => None
  | S fuel' =>
      if m (src + si) =? 0 then Some (upd m (dest + di) 0)
      else strcat_loop fuel' (upd m (dest + di) (m (src + si))) dest src (di + 1) (si + 1)
  end.

Definition strcat (fuel : nat) (m : mem) (dest src : Z) : option mem :=
  match strlen fuel m dest with
  | None => None
  | Some di => strcat_loop fuel m dest src di 0
  end.

Fixpoint strncat_loop (fuel : nat) (m : mem) (dest src di si n : Z) : option mem :=
  match fuel with
  | O => None
  | S fuel' =>
      if negb (m (src + si) =? 0) && negb (n =? 0)
      then strncat_loop fuel' (upd m (dest + di) (m (src + si))) dest src (di + 1) (si + 1) (n - 1)
      else Some (upd m (dest + di) 0)
  end.

Definition strncat (fuel : nat) (m : mem) (dest src n : Z) : option mem :=
  match strlen fuel m dest with
  | None => None
  | Some di => strncat_loop fuel m dest src di 0 n
  end.

(** Character classes, on a signed [char]. *)
Definition isspace (c : Z) : bool := (c =? 32) || (c =? 10) || (c =? 13) || (c =? 9).
Definition isupper (c : Z) : bool := (65 <=? c) && (c <=? 90).
Definition islower (c : Z) : bool := (97 <=? c) && (c <=? 122).
Definition isdigit (c : Z) : bool := (48 <=? c) && (c <=? 57).
Definition isalpha (c : Z) : bool := isupper c || islower c || isdigit c.

(** [for (i = strlen(str); i >= 0; i--)]; [0] is the null pointer. *)
Fixpoint strrchr_loop (m : mem) (str target : Z) (i : nat) : Z :=
  if signed 8 (m (str + Z.of_nat i)) =? target then str + Z.of_nat i
  else match i with
       | O => 0
       | S i' => strrchr_loop m str target i'
       end.

Definition strrchr (fuel : nat) (m : mem) (str target : Z) : option Z :=
  match strlen fuel m str with
  | None => None
  | Some i => Some (strrchr_loop m str target (Z.to_nat i))
  end.

(** [for (i = 0; i < strlen(str); i++)], with [left] the iterations to go. *)
Fixpoint strchr_loop (m : mem) (str target i : Z) (left : nat) : Z :=
  match left with
  | O => 0
  | S left' =>
      if signed 8 (m (str + i)) =? target then str + i
      else strchr_loop m str target (i + 1) left'
  end.

Definition strchr (fuel : nat) (m : mem) (str target : Z) : option Z :=
  match strlen fuel m str with
  | None => None
  | Some len => Some (strchr_loop m str target 0 (Z.to_nat len))
  end.

Section Strtoul.
(** The width in bits of [unsigned long]. *)
Variable w : Z.

Definition ULONG_MAX : Z := wrap w (-1).

(** The [char] at [s]. *)
Definition rd (m : mem) (s : Z) : Z := signed 8 (m s).

(** [do { c = *s++; } while (isspace(c))]: the character and the new [s]. *)
Fixpoint skip_spaces (fuel : nat) (m : mem) (s : Z) : option (Z * Z) :=
  match fuel with
  | O => None
  | S fuel' => let c := rd m s in if isspace c then skip_spaces fuel' m (s + 1) else Some (c, s + 1)
  end.

(** The sign: [neg], the next character and [s]. *)
Definition read_sign (m : mem) (c s : Z) : bool * Z * Z :=
  if c =? 45 then (true, rd m s, s + 1)
  else if c =? 43 then (false, rd m s, s + 1)
  else (false, c, s).

(** The [0x] prefix and the default bases. *)
Definition read_base (m : mem) (c s base : Z) : Z * Z * Z :=
  let '(c, s, base) :=
    if ((base =? 0) || (base =? 16)) && (c =? 48) && ((rd m s =? 120) || (rd m s =? 88))
    then (rd m (s + 1), s + 2, 16) else (c, s, base) in
  if base =? 0 then (c, s, if c =? 48 then 8 else 10) else (c, s, base).

(** [c] as a digit, or [None] for the first [break]. *)
Definition digit_of (c : Z) : option Z :=
  if isdigit c then Some (c - 48)
  else if isalpha c then Some (c - (if isupper c then 65 - 10 else 97 - 10))
  else None.

(** The digit loop: [acc], [any] and [s] at the end. *)
Fixpoint strtoul_loop (fuel : nat) (m : mem) (c s base acc any : Z) : option (Z * Z * Z) :=
  match fuel with
  | O => None
  | S fuel' =>
      let cutoff := ULONG_MAX / base in
      let cutlim := ULONG_MAX mod base in
      match digit_of c with
      | None => Some (acc, any, s)
      | Some d =>
          if base <=? d then Some (acc, any, s)
          else if (any <? 0) || (cutoff <? acc) || ((acc =? cutoff) && (cutlim <? d))
          then strtoul_loop fuel' m (rd m s) (s + 1) base acc (-1)
          else strtoul_loop fuel' m (rd m s) (s + 1) base
                 (wrap w (wrap w (acc * base) + d)) 1
      end
  end.

(** The value and the pointer stored through [endptr]. *)
Definition strtoul (fuel : nat) (m : mem) (nptr base : Z) : option (Z * Z) :=
  match skip_spaces fuel m nptr with
  | None => None
  | Some (c, s) =>
      let '(neg, c, s) := read_sign m c s in
      let '(c, s, base) := read_base m c s base in
      match strtoul_loop fuel m c s base 0 0 with
      | None => None
      | Some (acc, any, s) =>
          Some (if any <? 0 then ULONG_MAX else if (neg : bool) then wrap w (- acc) else acc,
                if any =? 0 then nptr else s - 1)
      end
  end.
End Strtoul.

(** ** Strings in memory *)

(** The string [s] (its bytes, without the NUL) is at [p]. *)
Fixpoint cstr (m : mem) (p : Z) (s : list Z) : Prop :=
  match s with
  | [] => m p = 0
  | c :: s' => m p = c /\ c <> 0 /\ cstr m (p + 1) s'
  end.

(** What the copying routines write: the bytes of [l], then a NUL. *)
Fixpoint puts (m : mem) (d : Z) (l : list Z) : mem :=
  match l with
  | [] => upd m d 0
  | c :: l' => puts (upd m d c) (d + 1) l'
  end.

Abbreviation len s := (Z.of_nat (length s)).

Lemma puts_outside m d l a : ~ (d <= a <= d + len l) -> puts m d l a = m a.
Proof.
  revert m d. induction l as [|c l IH]; intros m d Ha; simpl length in Ha; simpl puts.
  - apply upd_ne. lia.
  - rewrite IH by lia. apply upd_ne. lia.
Qed.

Lemma puts_cstr m d l : Forall (fun c => c <> 0) l -> cstr (puts m d l) d l.
Proof.
  intros H. revert m d. induction H as [|c l Hc H IH]; intros m d; simpl.
  - apply upd_eq.
  - rewrite puts_outside, upd_eq by lia. auto.
Qed.

Lemma cstr_nonzero m p s : cstr m p s -> Forall (fun c => c <> 0) s.
Proof. revert p. induction s as [|c s IH]; intros p; simpl; [constructor|]. intros (_&?&?). eauto. Qed.

Lemma cstr_tail m p l1 l2 : cstr m p (l1 ++ l2) -> cstr m (p + len l1) l2.
Proof.
  revert p. induction l1 as [|c l1 IH]; intros p; cbn [app cstr length].
  - now rewrite Z.add_0_r.
  - intros (_ & _ & H). specialize (IH _ H).
    now replace (p + Z.of_nat (S (length l1))) with (p + 1 + len l1) by lia.
Qed.

Lemma cstr_frame m m' p s :
  (forall a, p <= a <= p + len s -> m' a = m a) -> cstr m p s -> cstr m' p s.
Proof.
  revert p. induction s as [|c s IH]; intros p Hf; simpl length in Hf; simpl.
  - rewrite Hf by lia. auto.
  - intros (H1 & H2 & H3). rewrite Hf by lia. repeat split; auto.
    apply IH; [|exact H3]. intros a Ha. apply Hf. lia.
Qed.

Lemma cstr_upd m p s a v : ~ (p <= a <= p + len s) -> cstr m p s -> cstr (upd m a v) p s.
Proof. intros Ha. apply cstr_frame. intros b Hb. apply upd_ne. lia. Qed.

(** A copy upwards is safe when no source byte is overwritten before it is read. *)
Definition str_safe (d s n : Z) : Prop := d <= s \/ s + n < d.

Lemma strlen_loop_cstr fuel m p s i :
  cstr m p s -> (length s < fuel)%nat -> strlen_loop fuel m p i = Some (i + len s).
Proof.
  revert fuel p i. induction s as [|c s IH]; intros [|fuel] p i; simpl length; try lia;
    cbn [cstr strlen_loop].
  - intros -> _. simpl. f_equal. lia.
  - intros (E & Hc & Hs) Hf. rewrite E, (proj2 (Z.eqb_neq c 0) Hc), IH by (easy || lia).
    f_equal. lia.
Qed.

Lemma strlen_cstr fuel m p s : cstr m p s -> (length s < fuel)%nat -> strlen fuel m p = Some (len s).
Proof. apply strlen_loop_cstr. Qed.

Lemma str_safe_step d s c l m v :
  str_safe d s (len (c :: l)) -> cstr m (s + 1) l ->
  cstr (upd m d v) (s + 1) l /\ str_safe (d + 1) (s + 1) (len l).
Proof.
  intros Hs Hl. unfold str_safe in *. simpl length in Hs.
  split; [apply cstr_upd; [lia|exact Hl]|lia].
Qed.

Lemma strcpy_loop_puts fuel m d s l n :
  cstr m s l -> str_safe d s (len l) -> (length l < fuel)%nat ->
  strcpy_loop fuel m d s n = Some (n + len l, puts m d l).
Proof.
  revert fuel m d s n. induction l as [|c l IH]; intros [|fuel] m d s n; simpl length; try lia;
    cbn [cstr strcpy_loop].
  - intros -> _ _. simpl. do 2 f_equal. lia.
  - intros (E & Hc & Hl) Hs Hf. rewrite E, (proj2 (Z.eqb_neq c 0) Hc).
    destruct (str_safe_step d s c l m c Hs Hl) as [H1 H2].
    rewrite IH by (easy || lia). simpl puts. do 2 f_equal. lia.
Qed.

Lemma strncpy_loop_puts fuel m d s l n k :
  cstr m s l -> str_safe d s (len l) -> (length l < fuel)%nat ->
  strncpy_loop fuel m d s (Z.of_nat k) n =
    Some (n + len (firstn k l), puts m d (firstn k l)).
Proof.
  revert fuel m d s n k. induction l as [|c l IH]; intros [|fuel] m d s n k; simpl length; try lia;
    cbn [cstr strncpy_loop].
  - intros -> _ _. rewrite firstn_nil. simpl. do 2 f_equal. lia.
  - intros (E & Hc & Hl) Hs Hf. rewrite E, (proj2 (Z.eqb_neq c 0) Hc).
    destruct k as [|k]; [simpl; do 2 f_equal; lia|].
    rewrite (proj2 (Z.eqb_neq (Z.of_nat (S k)) 0)) by lia. cbn [andb negb].
    replace (Z.of_nat (S k) - 1) with (Z.of_nat k) by lia.
    destruct (str_safe_step d s c l m c Hs Hl) as [H1 H2].
    rewrite IH by (easy || lia). cbn [firstn puts length]. do 2 f_equal. lia.
Qed.

Lemma strcat_loop_puts fuel m dest src l di si :
  cstr m (src + si) l -> str_safe (dest + di) (src + si) (len l) -> (length l < fuel)%nat ->
  strcat_loop fuel m dest src di si = Some (puts m (dest + di) l).
Proof.
  revert fuel m di si. induction l as [|c l IH]; intros [|fuel] m di si; simpl length; try lia;
    cbn [cstr strcat_loop].
  - intros -> _ _. reflexivity.
  - intros (E & Hc & Hl) Hs Hf. rewrite E, (proj2 (Z.eqb_neq c 0) Hc).
    destruct (str_safe_step _ _ c l m c Hs Hl) as [H1 H2].
    rewrite <- Z.add_assoc in H1. rewrite <- !Z.add_assoc in H2.
    rewrite IH by (easy || lia). cbn [puts]. now rewrite Z.add_assoc.
Qed.

Lemma strncat_loop_puts fuel m dest src l di si k :
  cstr m (src + si) l -> str_safe (dest + di) (src + si) (len l) -> (length l < fuel)%nat ->
  strncat_loop fuel m dest src di si (Z.of_nat k) = Some (puts m (dest + di) (firstn k l)).
Proof.
  revert fuel m di si k. induction l as [|c l IH]; intros [|fuel] m di si k; simpl length; try lia;
    cbn [cstr strncat_loop].
  - intros -> _ _. now rewrite firstn_nil.
  - intros (E & Hc & Hl) Hs Hf. rewrite E, (proj2 (Z.eqb_neq c 0) Hc).
    destruct k as [|k]; [reflexivity|].
    rewrite (proj2 (Z.eqb_neq (Z.of_nat (S k)) 0)) by lia. cbn [andb negb].
    replace (Z.of_nat (S k) - 1) with (Z.of_nat k) by lia.
    destruct (str_safe_step _ _ c l m c Hs Hl) as [H1 H2].
    rewrite <- Z.add_assoc in H1. rewrite <- !Z.add_assoc in H2.
    rewrite IH by (easy || lia). cbn [firstn puts]. now rewrite Z.add_assoc.
Qed.

(** Comparison of two strings as the routines report it. *)
Definition differ (l1 l2 : list Z) : Z := if list_eq_dec Z.eq_dec l1 l2 then 0 else 1.

Lemma differ_cons c l1 l2 : differ (c :: l1) (c :: l2) = differ l1 l2.
Proof. unfold differ. repeat destruct list_eq_dec; congruence. Qed.

Lemma differ_ne l1 l2 : l1 <> l2 -> differ l1 l2 = 1.
Proof. unfold differ. now destruct list_eq_dec. Qed.

Lemma strcmp_loop_differ fuel m p1 p2 l1 l2 :
  cstr m p1 l1 -> cstr m p2 l2 -> (length l1 < fuel)%nat ->
  strcmp_loop fuel m p1 p2 = Some (differ l1 l2).
Proof.
  revert fuel p1 p2 l2. induction l1 as [|c1 l1 IH]; intros [|fuel] p1 p2 l2; simpl length; try lia;
    destruct l2 as [|c2 l2]; cbn [cstr strcmp_loop].
  - intros -> -> _. reflexivity.
  - intros -> (-> & H2 & _) _. unfold one_ended. rewrite (proj2 (Z.eqb_neq c2 0) H2). reflexivity.
  - intros (-> & H1 & _) -> _. unfold one_ended. rewrite (proj2 (Z.eqb_neq c1 0) H1). reflexivity.
  - intros (-> & H1 & H1') (-> & H2 & H2') Hf.
    rewrite (proj2 (Z.eqb_neq c1 0) H1), (proj2 (Z.eqb_neq c2 0) H2). cbn [negb andb].
    destruct (Z.eqb_spec c1 c2) as [->|Hne]; cbn [negb].
    + rewrite differ_cons. apply IH; (easy || lia).
    + rewrite differ_ne; congruence.
Qed.

Lemma strncmp_loop_differ fuel m p1 p2 l1 l2 k :
  cstr m p1 l1 -> cstr m p2 l2 -> (length l1 < fuel)%nat ->
  strncmp_loop fuel m p1 p2 (Z.of_nat k) = Some (differ (firstn k l1) (firstn k l2)).
Proof.
  revert fuel p1 p2 l2 k.
  induction l1 as [|c1 l1 IH]; intros [|fuel] p1 p2 l2 k; simpl length; try lia;
    (destruct k as [|k]; [intros; cbn [strncmp_loop]; rewrite andb_false_r; reflexivity|]);
    destruct l2 as [|c2 l2]; cbn [cstr strncmp_loop];
    rewrite ?(proj2 (Z.eqb_neq (Z.of_nat (S k)) 0)) by lia.
  - intros -> -> _. reflexivity.
  - intros -> (-> & H2 & _) _. unfold one_ended. rewrite (proj2 (Z.eqb_neq c2 0) H2). reflexivity.
  - intros (-> & H1 & _) -> _. unfold one_ended. rewrite (proj2 (Z.eqb_neq c1 0) H1). reflexivity.
  - intros (-> & H1 & H1') (-> & H2 & H2') Hf.
    rewrite (proj2 (Z.eqb_neq c1 0) H1), (proj2 (Z.eqb_neq c2 0) H2). cbn [negb andb firstn].
    destruct (Z.eqb_spec c1 c2) as [->|Hne]; cbn [negb].
    + rewrite differ_cons. replace (Z.of_nat (S k) - 1) with (Z.of_nat k) by lia.
      apply IH; (easy || lia).
    + rewrite differ_ne; congruence.
Qed.

(** ** [strtoul] *)

Section StrtoulCorrect.
Context (w : Z) (Hw : 8 <= w).

Lemma ULONG_MAX_eq : ULONG_MAX w = 2 ^ w - 1.
Proof.
  unfold ULONG_MAX, wrap. assert (2 ^ 8 <= 2 ^ w) by (apply Z.pow_le_mono_r; lia).
  rewrite <- (Z.mod_unique (-1) (2 ^ w) (-1) (2 ^ w - 1)); lia.
Qed.

(** The digits of [ds] are at [p], and then a character that is none. *)
Fixpoint digits_at (m : mem) (p base : Z) (ds : list Z) : Prop :=
  match ds with
  | [] => match digit_of (rd m p) with None => True | Some d => base <= d end
  | d :: ds' => digit_of (rd m p) = Some d /\ 0 <= d < base /\ digits_at m (p + 1) base ds'
  end.

(** The number a list of digits denotes, continued from [acc]. *)
Definition value (base acc : Z) (ds : list Z) : Z := fold_left (fun a d => a * base + d) ds acc.

Lemma value_ge base acc ds :
  1 <= base -> 0 <= acc -> Forall (fun d => 0 <= d) ds -> acc <= value base acc ds.
Proof.
  intros Hb. revert acc. induction ds as [|d ds IH]; intros acc Ha Hd; [cbn; lia|].
  inversion Hd; subst. unfold value in *. simpl.
  specialize (IH (acc * base + d) ltac:(nia) ltac:(assumption)). nia.
Qed.

Lemma digits_at_nonneg m p base ds : digits_at m p base ds -> Forall (fun d => 0 <= d) ds.
Proof.
  revert p. induction ds as [|d ds IH]; intros p; simpl; [constructor|].
  intros (_ & ? & ?). constructor; [lia|eauto].
Qed.

(** The cutoff test is the test for overflow of one more digit. *)
Lemma cutoff_test base acc d M :
  1 < base -> 0 <= d < base -> 0 <= acc ->
  (M / base <? acc) || ((acc =? M / base) && (M mod base <? d)) = (M <? acc * base + d).
Proof.
  intros Hb Hd Ha. pose proof (Z.div_mod M base ltac:(lia)).
  pose proof (Z.mod_pos_bound M base ltac:(lia)).
  zcmp; simpl; try reflexivity; exfalso; nia.
Qed.

(** After an overflow the loop only reads on. *)
Lemma strtoul_loop_overflowed fuel m p base ds acc :
  digits_at m p base ds -> (length ds < fuel)%nat ->
  strtoul_loop w fuel m (rd m p) (p + 1) base acc (-1) = Some (acc, -1, p + len ds + 1).
Proof.
  revert fuel p acc. induction ds as [|d ds IH]; intros [|fuel] p acc; simpl length; try lia;
    cbn [digits_at strtoul_loop].
  - destruct (digit_of (rd m p)) as [d|]; intros Hd _;
      [rewrite (proj2 (Z.leb_le base d) Hd)|]; do 2 f_equal; lia.
  - intros (-> & Hd & Hr) Hf. rewrite (proj2 (Z.leb_gt base d)) by lia. cbn [orb Z.ltb Z.compare].
    rewrite IH by (easy || lia). do 2 f_equal. lia.
Qed.

Lemma strtoul_loop_value fuel m p base ds acc any :
  1 < base -> 0 <= acc <= ULONG_MAX w -> 0 <= any ->
  digits_at m p base ds -> (length ds < fuel)%nat ->
  exists acc' any',
    strtoul_loop w fuel m (rd m p) (p + 1) base acc any = Some (acc', any', p + len ds + 1) /\
    if ULONG_MAX w <? value base acc ds then any' = -1
    else acc' = value base acc ds /\ any' = match ds with [] => any | _ => 1 end.
Proof.
  intros Hb. pose proof ULONG_MAX_eq as HM.
  revert fuel p acc any. induction ds as [|d ds IH]; intros [|fuel] p acc any Ha Hany;
    simpl length; try lia; cbn [digits_at strtoul_loop].
  - intros Hd _. exists acc, any. unfold value; simpl.
    destruct (Z.ltb_spec (ULONG_MAX w) acc); [lia|]. split; [|easy].
    destruct (digit_of (rd m p)) as [d|];
      [rewrite (proj2 (Z.leb_le base d) Hd)|]; do 2 f_equal; lia.
  - intros (-> & Hd & Hr) Hf. rewrite (proj2 (Z.leb_gt base d)) by lia.
    rewrite (proj2 (Z.ltb_ge any 0)) by lia. cbn [orb].
    rewrite cutoff_test by lia. pose proof (digits_at_nonneg _ _ _ _ Hr) as Hnn.
    change (value base acc (d :: ds)) with (value base (acc * base + d) ds).
    destruct (Z.ltb_spec (ULONG_MAX w) (acc * base + d)) as [Hov|Hok].
    + exists acc, (-1). split.
      * rewrite strtoul_loop_overflowed with (ds := ds) by (easy || lia). do 2 f_equal. lia.
      * pose proof (value_ge base (acc * base + d) ds ltac:(lia) ltac:(nia) Hnn).
        destruct (Z.ltb_spec (ULONG_MAX w) (value base (acc * base + d) ds)); [easy|lia].
    + rewrite (wrap_small w (acc * base)) by (unfold in_word; nia).
      rewrite (wrap_small w (acc * base + d)) by (unfold in_word; nia).
      destruct (IH fuel (p + 1) (acc * base + d) 1) as (acc' & any' & -> & H);
        [nia|lia|exact Hr|lia|].
      exists acc', any'. split; [do 2 f_equal; lia|].
      destruct (ULONG_MAX w <? _); [exact H|]. destruct H as [-> ->]. split; [easy|]. now destruct ds.
Qed.

(** [k] white-space characters at [p], then another character. *)
Fixpoint spaces_at (m : mem) (p : Z) (k : nat) : Prop :=
  match k with
  | O => isspace (rd m p) = false
  | S k' => isspace (rd m p) = true /\ spaces_at m (p + 1) k'
  end.

Lemma skip_spaces_at fuel m p k :
  spaces_at m p k -> (k < fuel)%nat ->
  skip_spaces fuel m p = Some (rd m (p + Z.of_nat k), p + Z.of_nat k + 1).
Proof.
  revert fuel p. induction k as [|k IH]; intros [|fuel] p; try lia; cbn [spaces_at skip_spaces].
  - intros -> _. now rewrite Z.add_0_r.
  - intros [-> Hs] Hf. rewrite IH by (easy || lia). do 2 f_equal; [f_equal|]; lia.
Qed.

(** The sign at [p], and where the digits start. *)
Definition sign_at (m : mem) (p : Z) (sg : option bool) : Prop :=
  match sg with
  | None => rd m p <> 45 /\ rd m p <> 43
  | Some true => rd m p = 45
  | Some false => rd m p = 43
  end.

Definition sign_len (sg : option bool) : Z := match sg with Some _ => 1 | None => 0 end.
Definition sign_neg (sg : option bool) : bool := match sg with Some true => true | _ => false end.

Lemma read_sign_at m p sg :
  sign_at m p sg ->
  read_sign m (rd m p) (p + 1) =
    (sign_neg sg, rd m (p + sign_len sg), p + sign_len sg + 1).
Proof.
  unfold read_sign. destruct sg as [[]|]; simpl.
  - intros ->. reflexivity.
  - intros ->. reflexivity.
  - intros [H1%Z.eqb_neq H2%Z.eqb_neq]. now rewrite H1, H2, Z.add_0_r.
Qed.

Definition hex_prefix (m : mem) (q : Z) : bool :=
  (rd m q =? 48) && ((rd m (q + 1) =? 120) || (rd m (q + 1) =? 88)).

Lemma read_base_given m q base :
  1 < base -> (base = 16 -> hex_prefix m q = false) ->
  read_base m (rd m q) (q + 1) base = (rd m q, q + 1, base).
Proof.
  intros Hb Hp. unfold read_base. rewrite (proj2 (Z.eqb_neq base 0)) by lia. cbn [orb].
  destruct (Z.eqb_spec base 16) as [E|]; [|cbn [andb]; now rewrite (proj2 (Z.eqb_neq base 0)) by lia].
  specialize (Hp E). unfold hex_prefix in Hp. cbn [andb]. rewrite Hp.
  now rewrite (proj2 (Z.eqb_neq base 0)) by lia.
Qed.

Lemma read_base_hex m q base :
  base = 0 \/ base = 16 -> hex_prefix m q = true ->
  read_base m (rd m q) (q + 1) base = (rd m (q + 2), q + 2 + 1, 16).
Proof.
  unfold hex_prefix, read_base. intros Hb [H1 H2]%andb_true_iff. rewrite H1, H2.
  replace ((base =? 0) || (base =? 16)) with true by (destruct Hb; subst; reflexivity).
  cbn [andb]. change (16 =? 0) with false. cbv iota beta zeta. do 2 f_equal; [f_equal|]; lia.
Qed.

(** Base 0: octal after a [0], decimal otherwise. *)
Lemma read_base_auto m q :
  hex_prefix m q = false ->
  read_base m (rd m q) (q + 1) 0 = (rd m q, q + 1, if rd m q =? 48 then 8 else 10).
Proof. unfold hex_prefix, read_base. intros H. cbn [Z.eqb orb andb]. now rewrite H. Qed.

(** The base the digits are read in, and where they start. *)
Definition base_at (m : mem) (q base q' base' : Z) : Prop :=
  if ((base =? 0) || (base =? 16)) && hex_prefix m q then q' = q + 2 /\ base' = 16
  else q' = q /\ base' = if base =? 0 then (if rd m q =? 48 then 8 else 10) else base.

Lemma read_base_at m q base q' base' :
  base = 0 \/ 1 < base -> base_at m q base q' base' ->
  read_base m (rd m q) (q + 1) base = (rd m q', q' + 1, base').
Proof.
  unfold base_at. intros Hb. destruct (_ && hex_prefix m q) eqn:E; intros [-> ->].
  - apply andb_true_iff in E as [E1 E2]. apply read_base_hex; [|exact E2].
    apply orb_true_iff in E1 as [?%Z.eqb_eq|?%Z.eqb_eq]; auto.
  - destruct (Z.eqb_spec base 0) as [->|]; [now apply read_base_auto|].
    apply read_base_given; [lia|]. intros ->. exact E.
Qed.

Lemma strtoul_value fuel m p base k sg q' base' ds :
  base = 0 \/ 1 < base -> 1 < base' ->
  spaces_at m p k -> sign_at m (p + Z.of_nat k) sg ->
  base_at m (p + Z.of_nat k + sign_len sg) base q' base' ->
  digits_at m q' base' ds -> (k < fuel)%nat -> (length ds < fuel)%nat ->
  strtoul w fuel m p base =
    Some (if ULONG_MAX w <? value base' 0 ds then ULONG_MAX w
          else if sign_neg sg then wrap w (- value base' 0 ds) else value base' 0 ds,
          match ds with [] => p | _ => q' + len ds end).
Proof.
  intros Hb Hb' Hsp Hsg Hba Hds Hk Hf. unfold strtoul.
  rewrite (skip_spaces_at _ _ _ _ Hsp Hk), (read_sign_at _ _ _ Hsg).
  cbv beta iota. rewrite (read_base_at _ _ _ _ _ Hb Hba).
  pose proof ULONG_MAX_eq as HM. assert (2 ^ 8 <= 2 ^ w) by (apply Z.pow_le_mono_r; lia).
  destruct (strtoul_loop_value fuel m q' base' ds 0 0 Hb' ltac:(lia) ltac:(lia) Hds Hf)
    as (acc & any & -> & H1).
  assert (q' + len ds + 1 - 1 = q' + len ds) as Eq by lia. rewrite Eq.
  destruct (Z.ltb_spec (ULONG_MAX w) (value base' 0 ds)) as [Hov|Hok].
  - subst any. destruct ds; [cbn in Hov; lia|reflexivity].
  - destruct H1 as [-> ->]. destruct ds; reflexivity.
Qed.
End StrtoulCorrect.

(** ** Properties *)

(** [strcpy] and [strncpy] return the number of bytes copied and write
    exactly the string (its first [n] bytes) and a NUL after it, nothing else;
    [strncpy] always writes the NUL, so [n + 1] bytes when the source is longer. *)
Theorem string_copy_correct (fuel : nat) (m : mem) (dest src : Z) (l : list Z) (n : nat)
    (Hl : cstr m src l) (Hsafe : str_safe dest src (len l)) (Hfuel : (length l < fuel)%nat) :
  exists m1 m2,
    strcpy fuel m dest src = Some (len l, m1) /\
    cstr m1 dest l /\ (forall a, ~ (dest <= a <= dest + len l) -> m1 a = m a) /\
    strncpy fuel m dest src (Z.of_nat n) = Some (len (firstn n l), m2) /\
    cstr m2 dest (firstn n l) /\
    (forall a, ~ (dest <= a <= dest + len (firstn n l)) -> m2 a = m a).
Proof.
  pose proof (cstr_nonzero _ _ _ Hl) as Hnz.
  exists (puts m dest l), (puts m dest (firstn n l)).
  split; [exact (strcpy_loop_puts fuel m dest src l 0 Hl Hsafe Hfuel)|]. split; [now apply puts_cstr|].
  split; [apply puts_outside|]. split; [exact (strncpy_loop_puts fuel m dest src l 0 n Hl Hsafe Hfuel)|].
  split; [|apply puts_outside].
  apply puts_cstr. rewrite <- (firstn_skipn n l) in Hnz. now apply Forall_app in Hnz.
Qed.

(** [strcat] and [strncat] append the source (its first [n] bytes) at the
    NUL of the destination, and write nothing below it or past the new NUL. *)
Theorem string_append_correct (fuel : nat) (m : mem) (dest src : Z) (d l : list Z) (n : nat)
    (Hd : cstr m dest d) (Hl : cstr m src l)
    (Hsafe : str_safe (dest + len d) src (len l))
    (Hfd : (length d < fuel)%nat) (Hfl : (length l < fuel)%nat) :
  exists m1 m2,
    strcat fuel m dest src = Some m1 /\ cstr m1 (dest + len d) l /\
    strncat fuel m dest src (Z.of_nat n) = Some m2 /\ cstr m2 (dest + len d) (firstn n l) /\
    (forall a, ~ (dest + len d <= a <= dest + len d + len l) -> m1 a = m a /\ m2 a = m a).
Proof.
  pose proof (cstr_nonzero _ _ _ Hl) as Hnz.
  exists (puts m (dest + len d) l), (puts m (dest + len d) (firstn n l)).
  unfold strcat, strncat. rewrite (strlen_cstr _ _ _ _ Hd Hfd).
  rewrite <- (Z.add_0_r src) in Hl, Hsafe.
  split; [now apply strcat_loop_puts|]. split; [now apply puts_cstr|].
  split; [now apply strncat_loop_puts|]. split.
  - apply puts_cstr. rewrite <- (firstn_skipn n l) in Hnz. now apply Forall_app in Hnz.
  - intros a Ha. split; apply puts_outside; [exact Ha|].
    rewrite length_firstn. lia.
Qed.

(** [strcmp] is 0 for equal strings and 1 for all others (it does not
    order them); [strncmp] likewise on the first [n] bytes. *)
Theorem string_compare_correct (fuel : nat) (m : mem) (p1 p2 : Z) (l1 l2 : list Z) (n : nat)
    (H1 : cstr m p1 l1) (H2 : cstr m p2 l2) (Hfuel : (length l1 < fuel)%nat) :
  strcmp fuel m p1 p2 = Some (if list_eq_dec Z.eq_dec l1 l2 then 0 else 1) /\
  strncmp fuel m p1 p2 (Z.of_nat n) =
    Some (if list_eq_dec Z.eq_dec (firstn n l1) (firstn n l2) then 0 else 1).
Proof.
  split; [now apply strcmp_loop_differ|now apply strncmp_loop_differ].
Qed.

(** [strtoul] skips white space, reads the sign and the base prefix, and
    returns the number the digits denote, saturated at [ULONG_MAX] instead of
    wrapping, negated modulo 2^w after a minus sign; [endptr] is the first
    character that is no digit, or the start of the text when there is none. *)
Theorem strtoul_correct (w : Z) (fuel : nat) (m : mem) (p base : Z) (k : nat)
    (sg : option bool) (q' base' : Z) (ds : list Z)
    (Hw : 8 <= w) (Hbase : base = 0 \/ 1 < base) (Hbase' : 1 < base')
    (Hspaces : spaces_at m p k) (Hsign : sign_at m (p + Z.of_nat k) sg)
    (Hprefix : base_at m (p + Z.of_nat k + sign_len sg) base q' base')
    (Hdigits : digits_at m q' base' ds)
    (Hfuel : (k < fuel /\ length ds < fuel)%nat) :
  strtoul w fuel m p base =
    Some (if ULONG_MAX w <? value base' 0 ds then ULONG_MAX w
          else if sign_neg sg then wrap w (- value base' 0 ds) else value base' 0 ds,
          match ds with [] => p | _ => q' + len ds end).
Proof. destruct Hfuel. now apply strtoul_value with (k := k). Qed.

(** Searching: [strchr] finds the first occurrence before the NUL and never the
    NUL itself; [strrchr] the last, the NUL included. *)
Lemma strchr_loop_spec m str target i left :
  let r := strchr_loop m str target i left in
  (r = 0 /\ (forall j, i <= j < i + Z.of_nat left -> signed 8 (m (str + j)) <> target)) \/
  (exists j, i <= j < i + Z.of_nat left /\ r = str + j /\ signed 8 (m (str + j)) = target /\
     (forall j', i <= j' < j -> signed 8 (m (str + j')) <> target)).
Proof.
  revert i. induction left as [|n IH]; intros i; cbn [strchr_loop]; cbv zeta.
  - left. split; [reflexivity|lia].
  - destruct (Z.eqb_spec (signed 8 (m (str + i))) target) as [E|E].
    + right. exists i. repeat split; try easy; lia.
    + destruct (IH (i + 1)) as [[-> H]|(j & Hj & -> & Ht & Hf)].
      * left. split; [reflexivity|]. intros j Hj.
        destruct (Z.eq_dec j i) as [->|]; [exact E|apply H; lia].
      * right. exists j. repeat split; try easy; try lia. intros j' Hj'.
        destruct (Z.eq_dec j' i) as [->|]; [exact E|apply Hf; lia].
Qed.

(** ** Witnesses *)

(** Text in memory: the bytes of [l] from [p] on, zeros elsewhere. *)
Definition text (p : Z) (l : list Z) : mem :=
  fun a => if in_range p (len l) a then nth (Z.to_nat (a - p)) l 0 else 0.

Definition two_texts (p : Z) (l : list Z) (q : Z) (l' : list Z) : mem :=
  fun a => if in_range q (len l') a then text q l' a else text p l a.

Definition abc : mem := two_texts 100 [97; 98; 99] 200 [97; 98; 100].

Lemma string_copy_correct_witness :
  exists m1 m2, strcpy 9 abc 300 100 = Some (3, m1) /\ strncpy 9 abc 300 100 2 = Some (2, m2) /\
                cstr m2 300 [97; 98].
Proof.
  destruct (string_copy_correct 9 abc 300 100 [97; 98; 99] 2) as (m1 & m2 & H1 & _ & _ & H2 & H3 & _).
  - repeat split; discriminate.
  - right. simpl. lia.
  - simpl. lia.
  - exists m1, m2. auto.
Defined.

Lemma string_append_correct_witness :
  exists m1 m2, strcat 9 abc 100 200 = Some m1 /\ strncat 9 abc 100 200 1 = Some m2 /\
                cstr m1 103 [97; 98; 100].
Proof.
  destruct (string_append_correct 9 abc 100 200 [97; 98; 99] [97; 98; 100] 1)
    as (m1 & m2 & H1 & H2 & H3 & _); [repeat split; discriminate|repeat split; discriminate|left; simpl; lia|simpl; lia|simpl; lia|].
  exists m1, m2. auto.
Defined.

Lemma string_compare_correct_witness :
  strcmp 9 abc 100 200 = Some 1 /\ strncmp 9 abc 100 200 2 = Some 0.
Proof.
  apply (string_compare_correct 9 abc 100 200 [97; 98; 99] [97; 98; 100] 2);
    [repeat split; discriminate..|simpl; lia].
Defined.

(** The text [" -0x1F;"]. *)
Definition hex_text : mem := text 64 [32; 45; 48; 120; 49; 70; 59].

Lemma strtoul_correct_witness :
  strtoul 32 9 hex_text 64 0 = Some (2 ^ 32 - 31, 70) /\ 1 < 16.
Proof.
  split; [|lia].
  apply (strtoul_correct 32 9 hex_text 64 0 1 (Some true) 68 16 [1; 15]);
    try (simpl; lia); try (repeat split; simpl; lia || reflexivity).
Defined.
