(* ===== verification/Printf.v ===== *)
(** * Formatted output: src/src/system/kernel/core/lib/vsprintf.c

    [number] and [vsprintf].  What the code writes through [*str++] is the list
    of bytes it emits; the format is the list of its bytes before the NUL, and
    the variable arguments are a list of machine words.  The output buffer is
    taken not to overlap the format or the string arguments. *)
From Stdlib Require Import ZArith Lia List Bool.
From S2P Require Import Prelude CString.
Import ListNotations.
Local Open Scope Z_scope.

Definition ZEROPAD : Z := 1.
Definition SIGN : Z := 2.
Definition PLUS : Z := 4.
Definition SPACE : Z := 8.
Definition LEFT : Z := 16.
Definition SPECIAL : Z := 32.
Definition SMALL : Z := 64.

(** [type & f] as a condition. *)
Definition has (type f : Z) : bool := negb (Z.land type f =? 0).

Definition is_digit (c : Z) : bool := (48 <=? c) && (c <=? 57).

(** [digits[d]] in the upper-case or the lower-case table. *)
Definition digits (small : bool) (d : Z) : Z :=
  if d <? 10 then 48 + d else (if small then 97 else 65) + (d - 10).

(** [while (num != 0) tmp[i++] = digits[do_div(num, base)]]: [do_div] is the
    unsigned 32-bit [divl].  The result is [tmp], least significant first. *)
Fixpoint number_loop (fuel : nat) (small : bool) (num base : Z) : list Z :=
  match fuel with
  | O => []
  | S fuel' =>
      if num =? 0 then []
      else digits small (num mod base) :: number_loop fuel' small (num / base) base
  end.

(** [while (size-- > 0) *str++ = c]: the bytes, and [size] afterwards. *)
Definition pad (size c : Z) : list Z := repeat c (Z.to_nat size).
Definition after_pad (size : Z) : Z := Z.min size 0 - 1.

(** The digits of [num], an [int] read as unsigned by [divl]. *)
Definition number_tmp (small : bool) (num base : Z) : list Z :=
  if num =? 0 then [48] else number_loop 32 small (wrap 32 num) base.

(** The sign character, 0 for none. *)
Definition number_sign (type num : Z) : Z :=
  if has type SIGN && (num <? 0) then 45
  else if has type PLUS then 43 else if has type SPACE then 32 else 0.

(** The [0] or [0x] of the alternate form. *)
Definition number_prefix (type base : Z) (small : bool) : list Z :=
  if has type SPECIAL
  then (if base =? 8 then [48] else if base =? 16 then [48; digits small 33] else [])
  else [].

(** The width left once sign and prefix are accounted for. *)
Definition number_size (type base sign size : Z) : Z :=
  let size := if sign =? 0 then size else size - 1 in
  if has type SPECIAL
  then (if base =? 16 then size - 2 else if base =? 8 then size - 1 else size)
  else size.

(** The second half of [number], from [if (i>precision) precision=i] on: all
    its writes in order. *)
Definition number_emit (type : Z) (sign : Z) (prefix tmp : list Z) (size precision : Z) : list Z :=
  let c := if has type ZEROPAD then 48 else 32 in
  let i := Z.of_nat (length tmp) in
  let precision := if precision <? i then i else precision in
  let size := size - precision in
  let spaced := negb (has type (ZEROPAD + LEFT)) in
  let out1 := if spaced then pad size 32 else [] in
  let size := if spaced then after_pad size else size in
  let out2 := if sign =? 0 then [] else [sign] in
  let out4 := if has type LEFT then [] else pad size c in
  let size := if has type LEFT then size else after_pad size in
  let out5 := pad (precision - i) 48 in
  let out7 := pad size 32 in
  out1 ++ out2 ++ prefix ++ out4 ++ out5 ++ rev tmp ++ out7.

(** [number]: what it emits, or [None] for the null pointer it returns when the
    base is out of range.  [num] is an [int]. *)
Definition number (num base size precision type : Z) : option (list Z) :=
  let small := has type SMALL in
  let type := if has type LEFT then Z.ldiff type ZEROPAD else type in
  if (base <? 2) || (36 <? base) then None
  else
    let sign := number_sign type num in
    let num := if has type SIGN && (num <? 0) then swrap 32 (- num) else num in
    Some (number_emit type sign (number_prefix type base small) (number_tmp small num base)
            (number_size type base sign size) precision).

(** [skip_atoi]: the number, as an [int], and the rest of the format. *)
Fixpoint skip_atoi (fmt : list Z) (i : Z) : Z * list Z :=
  match fmt with
  | c :: fmt' =>
      if is_digit c then skip_atoi fmt' (swrap 32 (i * 10 + c - 48)) else (i, fmt)
  | [] => (i, [])
  end.

(** The [repeat:] loop over the flags; [fmt] is already past the percent sign. *)
Fixpoint read_flags (fmt : list Z) (flags : Z) : Z * list Z :=
  match fmt with
  | c :: fmt' =>
      if c =? 45 then read_flags fmt' (Z.lor flags LEFT)
      else if c =? 43 then read_flags fmt' (Z.lor flags PLUS)
      else if c =? 32 then read_flags fmt' (Z.lor flags SPACE)
      else if c =? 35 then read_flags fmt' (Z.lor flags SPECIAL)
      else if c =? 48 then read_flags fmt' (Z.lor flags ZEROPAD)
      else (flags, fmt)
  | [] => (flags, [])
  end.

(** [*fmt], the NUL at the end. *)
Definition peek (fmt : list Z) : Z := hd 0 fmt.

(** [va_arg]: [None] when there is no argument left. *)
Definition va_arg (args : list Z) : option (Z * list Z) :=
  match args with a :: args' => Some (a, args') | [] => None end.

(** The field width: the width, the flags, the format and the arguments.  After
    a star the format is not advanced. *)
Definition read_width (fmt args : list Z) (flags : Z) : option (Z * Z * list Z * list Z) :=
  if is_digit (peek fmt) then
    let (i, fmt') := skip_atoi fmt 0 in Some (i, flags, fmt', args)
  else if peek fmt =? 42 then
    match va_arg args with
    | None => None
    | Some (a, args') =>
        let width := swrap 32 a in
        if width <? 0 then Some (swrap 32 (- width), Z.lor flags LEFT, fmt, args')
        else Some (width, flags, fmt, args')
    end
  else Some (-1, flags, fmt, args).

(** The precision, likewise. *)
Definition read_precision (fmt args : list Z) : option (Z * list Z * list Z) :=
  if peek fmt =? 46 then
    let fmt := tl fmt in
    if is_digit (peek fmt) then
      let (i, fmt') := skip_atoi fmt 0 in Some (if i <? 0 then 0 else i, fmt', args)
    else if peek fmt =? 42 then
      match va_arg args with
      | None => None
      | Some (a, args') => let p := swrap 32 a in Some (if p <? 0 then 0 else p, fmt, args')
      end
    else Some (0, fmt, args)
  else Some (-1, fmt, args).

(** The qualifier is skipped; nothing later looks at it. *)
Definition read_qualifier (fmt : list Z) : list Z :=
  if (peek fmt =? 104) || (peek fmt =? 108) || (peek fmt =? 76) then tl fmt else fmt.

(** The bytes of a string argument. *)
Definition read_bytes (m : mem) (s len : Z) : list Z :=
  map (fun i => m (s + Z.of_nat i)) (seq 0 (Z.to_nat len)).

(** What one conversion does: the bytes it emits, the arguments left, and the
    [%n] store of [written], the number of bytes emitted before it. *)
Definition convert (fuel : nat) (m : mem) (conv : Z) (flags width precision : Z)
    (args : list Z) (written : Z) : option (list Z * list Z * list (Z * Z)) :=
  let numeric base flags width :=
    match va_arg args with
    | None => None
    | Some (a, args') =>
        match number (swrap 32 a) base width precision flags with
        | None => None
        | Some out => Some (out, args', [])
        end
    end in
  if conv =? 99 then
    match va_arg args with
    | None => None
    | Some (a, args') =>
        let spaces := pad (width - 1) 32 in
        Some (if has flags LEFT then Z.land a 255 :: spaces else spaces ++ [Z.land a 255],
              args', [])
    end
  else if conv =? 115 then
    match va_arg args with
    | None => None
    | Some (s, args') =>
        match strlen fuel m s with
        | None => None
        | Some len =>
            let len := if precision <? 0 then len else if precision <? len then precision else len in
            let spaces := pad (width - len) 32 in
            let str := read_bytes m s len in
            Some (if has flags LEFT then str ++ spaces else spaces ++ str, args', [])
        end
    end
  else if conv =? 111 then numeric 8 flags width
  else if conv =? 112 then
    if width =? -1 then numeric 16 (Z.lor flags ZEROPAD) 8 else numeric 16 flags width
  else if conv =? 120 then numeric 16 (Z.lor flags SMALL) width
  else if conv =? 88 then numeric 16 flags width
  else if (conv =? 100) || (conv =? 105) then numeric 10 (Z.lor flags SIGN) width
  else if conv =? 117 then numeric 10 flags width
  else if conv =? 110 then
    match va_arg args with
    | None => None
    | Some (ip, args') => Some ([], args', [(ip, written)])
    end
  else Some ((if conv =? 37 then [] else [37]) ++ (if conv =? 0 then [] else [conv]), args, []).

(** The loop over the format: bytes emitted so far, arguments left, stores. *)
Fixpoint vsprintf_loop (fuel : nat) (m : mem) (fmt args out : list Z) (stores : list (Z * Z))
    : option (list Z * list (Z * Z)) :=
  match fuel with
  | O => None
  | S fuel' =>
      match fmt with
      | [] => Some (out, stores)
      | c :: fmt' =>
          if negb (c =? 37) then vsprintf_loop fuel' m fmt' args (out ++ [c]) stores
          else
            let (flags, fmt) := read_flags fmt' 0 in
            match read_width fmt args flags with
            | None => None
            | Some (width, flags, fmt, args) =>
                match read_precision fmt args with
                | None => None
                | Some (precision, fmt, args) =>
                    let fmt := read_qualifier fmt in
                    match convert fuel m (peek fmt) flags width precision args
                            (Z.of_nat (length out)) with
                    | None => None
                    | Some (out', args', stores') =>
                        vsprintf_loop fuel' m (tl fmt) args' (out ++ out') (stores ++ stores')
                    end
                end
            end
      end
  end.

(** [vsprintf]: the number of bytes written, the memory with the text and its
    NUL, and the [%n] stores. *)
Definition vsprintf (fuel : nat) (m : mem) (buf : Z) (fmt args : list Z)
    : option (Z * mem * list (Z * Z)) :=
  match vsprintf_loop fuel m fmt args [] [] with
  | None => None
  | Some (out, stores) => Some (Z.of_nat (length out), puts m buf out, stores)
  end.

(** [sprintf] of string.c calls [vsprintf]. *)
Definition sprintf (fuel : nat) (m : mem) (buf : Z) (fmt : list Z) (args : list Z) :=
  vsprintf fuel m buf fmt args.

(** ** The digits *)

Lemma number_loop_length fuel small num base :
  (length (number_loop fuel small num base) <= fuel)%nat.
Proof.
  revert num. induction fuel as [|fuel IH]; intros num; simpl; [lia|].
  destruct (num =? 0); simpl; [lia|]. specialize (IH (num / base)). lia.
Qed.

(** [tmp] has room for 36 digits; at most 32 are written. *)
Lemma number_tmp_fits small num base : (length (number_tmp small num base) <= 32)%nat.
Proof.
  unfold number_tmp. destruct (num =? 0); [simpl; lia|]. apply number_loop_length.
Qed.

(** The values of the digits [number_loop] writes. *)
Fixpoint digit_values (fuel : nat) (num base : Z) : list Z :=
  match fuel with
  | O => []
  | S fuel' => if num =? 0 then [] else num mod base :: digit_values fuel' (num / base) base
  end.

Lemma number_loop_values fuel small num base :
  number_loop fuel small num base = map (digits small) (digit_values fuel num base).
Proof.
  revert num. induction fuel as [|fuel IH]; intros num; simpl; [reflexivity|].
  destruct (num =? 0); simpl; [reflexivity|]. now rewrite IH.
Qed.

Lemma value_app base acc l1 l2 : value base acc (l1 ++ l2) = value base (value base acc l1) l2.
Proof. apply fold_left_app. Qed.

Lemma digit_values_value fuel num base :
  2 <= base -> 0 <= num < 2 ^ Z.of_nat fuel ->
  value base 0 (rev (digit_values fuel num base)) = num.
Proof.
  intros Hb. revert num. induction fuel as [|fuel IH]; intros num Hn; simpl digit_values.
  - cbn in *. lia.
  - destruct (Z.eqb_spec num 0) as [->|]; [reflexivity|]. simpl rev. rewrite value_app, IH.
    + cbn. pose proof (Z.div_mod num base). lia.
    + split; [apply Z.div_pos; lia|]. apply Z.div_lt_upper_bound; [lia|].
      rewrite Nat2Z.inj_succ, Z.pow_succ_r in Hn by lia. nia.
Qed.

Lemma digit_values_range fuel num base :
  0 < base -> Forall (fun d => 0 <= d < base) (digit_values fuel num base).
Proof.
  intros Hb. revert num. induction fuel as [|fuel IH]; intros num; simpl; [constructor|].
  destruct (num =? 0); constructor; [now apply Z.mod_pos_bound|apply IH].
Qed.

(** Each digit character reads back as its value, and is no space or sign. *)
Definition digit_char_ok (small : bool) (d : Z) : bool :=
  let c := signed 8 (digits small d) in
  match digit_of c with Some d' => d' =? d | None => false end &&
  negb (isspace c) && negb (c =? 45) && negb (c =? 43) && negb (digits small d =? 0) &&
  ((16 <=? d) || (negb (c =? 120) && negb (c =? 88))).

Lemma digit_char small d : 0 <= d < 36 -> digit_char_ok small d = true.
Proof.
  intros H. destruct small.
  - exact (all_below_spec 36 (digit_char_ok true) d eq_refl H).
  - exact (all_below_spec 36 (digit_char_ok false) d eq_refl H).
Qed.

Record digit_char_facts (small : bool) (d c : Z) : Prop := {
  dcf_value : digit_of c = Some d;
  dcf_space : isspace c = false;
  dcf_minus : c <> 45;
  dcf_plus : c <> 43;
  dcf_hex : d < 16 -> (c =? 120) || (c =? 88) = false
}.

Lemma digit_facts small d :
  0 <= d < 36 -> digit_char_facts small d (signed 8 (digits small d)).
Proof.
  intros H. pose proof (digit_char small d H) as Hd. unfold digit_char_ok in Hd.
  rewrite !andb_true_iff in Hd. destruct Hd as [[[[[H1 H2] H3] H4] _] H6]. constructor.
  - destruct (digit_of _) as [d'|]; [|discriminate]. now apply Z.eqb_eq in H1 as ->.
  - now apply negb_true_iff in H2.
  - now apply negb_true_iff, Z.eqb_neq in H3.
  - now apply negb_true_iff, Z.eqb_neq in H4.
  - intros Hlt. destruct (Z.leb_spec 16 d); [lia|]. cbn [orb] in H6.
    now rewrite <- negb_orb, negb_true_iff in H6.
Qed.

(** Digits in memory, followed by the NUL, are what [strtoul] expects. *)
Lemma digits_in_memory m p base small ds :
  base <= 36 -> Forall (fun d => 0 <= d < base) ds -> cstr m p (map (digits small) ds) ->
  digits_at m p base ds.
Proof.
  intros Hb Hds. revert p. induction Hds as [|d ds Hd Hds IH]; intros p; cbn [map cstr digits_at].
  - unfold rd. intros ->. reflexivity.
  - intros (E & _ & Hr). unfold rd at 1. rewrite E.
    destruct (digit_facts small d ltac:(lia)) as [-> _ _ _ _]. auto.
Qed.

Lemma digits_hex_prefix m p small d ds :
  d < 16 -> 0 <= d -> Forall (fun d => 0 <= d < 16) ds -> cstr m p (map (digits small) (d :: ds)) ->
  hex_prefix m p = false.
Proof.
  intros Hd Hd0 Hds. cbn [map cstr]. intros (_ & _ & Hr). unfold hex_prefix.
  apply andb_false_iff. right. unfold rd. destruct Hds as [|d2 ds Hd2 Hds]; cbn [map cstr] in Hr.
  - rewrite Hr. reflexivity.
  - destruct Hr as (-> & _). apply (dcf_hex small d2); [apply digit_facts|]; lia.
Qed.

(** The digits of a number as [number] prints them. *)
Definition number_digits (num base : Z) : list Z :=
  if num =? 0 then [0] else rev (digit_values 32 (wrap 32 num) base).

Lemma number_tmp_digits small num base :
  rev (number_tmp small num base) = map (digits small) (number_digits num base).
Proof.
  unfold number_tmp, number_digits. destruct (num =? 0); [reflexivity|].
  now rewrite number_loop_values, map_rev.
Qed.

Lemma number_digits_range num base :
  2 <= base -> Forall (fun d => 0 <= d < base) (number_digits num base).
Proof.
  intros Hb. unfold number_digits. destruct (num =? 0); [repeat constructor; lia|].
  apply Forall_rev, digit_values_range. lia.
Qed.

Lemma number_digits_value num base :
  2 <= base -> value base 0 (number_digits num base) = if num =? 0 then 0 else wrap 32 num.
Proof.
  intros Hb. unfold number_digits. destruct (num =? 0); [reflexivity|].
  apply digit_values_value; [exact Hb|]. apply wrap_range. lia.
Qed.

Lemma rev_digit_values fuel num base : num <> 0 -> rev (digit_values (S fuel) num base) <> [].
Proof.
  intros Hn. cbn [digit_values]. rewrite (proj2 (Z.eqb_neq num 0) Hn). cbn [rev].
  intros [_ E]%app_eq_nil. discriminate.
Qed.

Lemma number_digits_nonempty num base :
  swrap 32 num = num -> number_digits num base <> [].
Proof.
  unfold number_digits. destruct (Z.eqb_spec num 0) as [|Hne]; [easy|]. intros Hs.
  assert (wrap 32 num <> 0) as Hw.
  { intros E. unfold swrap in Hs. rewrite E in Hs.
    change (signed 32 0) with 0 in Hs. lia. }
  now apply rev_digit_values.
Qed.

(** The layout of a number: padding on one side only, or zeros after the sign. *)
Lemma number_emit_layout type sign prefix tmp size precision :
  (has type LEFT = true -> has type ZEROPAD = false) ->
  let i := Z.of_nat (length tmp) in
  let p := Z.max precision i in
  let fill := size - p in
  number_emit type sign prefix tmp size precision =
    (if has type LEFT || has type ZEROPAD then [] else pad fill 32) ++
    (if sign =? 0 then [] else [sign]) ++ prefix ++
    (if has type ZEROPAD then pad fill 48 else []) ++
    pad (p - i) 48 ++ rev tmp ++
    (if has type LEFT then pad fill 32 else []).
Proof.
  intros Hlz i p fill. unfold number_emit. fold i.
  assert ((if precision <? i then i else precision) = p) as -> by (subst p; zcmp; lia).
  fold fill. clearbody p i fill.
  assert (has type (ZEROPAD + LEFT) = has type LEFT || has type ZEROPAD) as ->.
  { unfold has, ZEROPAD, LEFT. change (1 + 16) with (Z.lor 1 16). rewrite Z.land_lor_distr_r.
    destruct (Z.eqb_spec (Z.lor (Z.land type 1) (Z.land type 16)) 0) as [E|E].
    - apply Z.lor_eq_0_iff in E as [-> ->]. reflexivity.
    - destruct (Z.eqb_spec (Z.land type 16) 0) as [E1|]; [|reflexivity].
      destruct (Z.eqb_spec (Z.land type 1) 0) as [E2|]; [|reflexivity].
      rewrite E1, E2 in E. now cbn in E. }
  unfold pad, after_pad. destruct (has type LEFT) eqn:EL; cbn [orb negb].
  - rewrite Hlz by reflexivity. cbn [app]. reflexivity.
  - assert (Z.to_nat (Z.min fill 0 - 1) = O) as E1 by lia.
    assert (Z.to_nat (Z.min (Z.min fill 0 - 1) 0 - 1) = O) as E2 by lia.
    destruct (has type ZEROPAD); cbn [negb orb]; rewrite ?E1, ?E2;
      cbn [repeat app]; now rewrite ?app_nil_r.
Qed.

Lemma length_pad size c : Z.of_nat (length (pad size c)) = Z.max 0 size.
Proof. unfold pad. rewrite repeat_length. lia. Qed.

(** What [number] prints with no flags, width or precision. *)
Lemma number_plain num base :
  2 <= base <= 36 ->
  number num base (-1) (-1) 0 = Some (map (digits false) (number_digits num base)).
Proof.
  intros Hb. rewrite <- number_tmp_digits. unfold number.
  destruct (Z.ltb_spec base 2), (Z.ltb_spec 36 base); try lia.
  change (has 0 LEFT) with false. change (has 0 SMALL) with false. cbv iota beta zeta. cbn [orb].
  change (has 0 SIGN) with false. cbn [andb]. f_equal.
  rewrite number_emit_layout by discriminate.
  change (has 0 LEFT) with false. change (has 0 ZEROPAD) with false.
  change (number_sign 0 num) with 0. change (number_prefix 0 base false) with (@nil Z).
  change (number_size 0 base 0 (-1)) with (-1). cbn [Z.eqb orb app].
  set (i := Z.of_nat _). unfold pad. replace (Z.to_nat (-1 - Z.max (-1) i)) with O by lia.
  replace (Z.to_nat (Z.max (-1) i - i)) with O by lia. cbn [repeat app]. now rewrite app_nil_r.
Qed.

(** [type &= ~ZEROPAD] leaves the other flags. *)
Lemma has_ldiff type f : Z.land ZEROPAD f = 0 -> has (Z.ldiff type ZEROPAD) f = has type f.
Proof.
  intros Hf. unfold has. do 2 f_equal. apply Z.bits_inj'. intros n Hn.
  assert (Z.testbit (Z.land ZEROPAD f) n = false) as Hb by (rewrite Hf; apply Z.bits_0).
  rewrite Z.land_spec in *. rewrite Z.ldiff_spec, Z.land_spec.
  destruct (Z.testbit type n), (Z.testbit ZEROPAD n), (Z.testbit f n); cbn in *; congruence.
Qed.

Lemma has_ldiff_self type : has (Z.ldiff type ZEROPAD) ZEROPAD = false.
Proof.
  unfold has. rewrite Z.land_comm. apply negb_false_iff, Z.eqb_eq, Z.bits_inj'. intros n Hn.
  rewrite Z.land_spec, Z.ldiff_spec, Z.bits_0. now destruct (Z.testbit type n), (Z.testbit ZEROPAD n).
Qed.

(** The flags [number] works with after LEFT has cancelled ZEROPAD. *)
Definition flags_used (type : Z) : Z := if has type LEFT then Z.ldiff type ZEROPAD else type.

Lemma flags_used_has type f : Z.land ZEROPAD f = 0 -> has (flags_used type) f = has type f.
Proof. intros Hf. unfold flags_used. destruct (has type LEFT); [now apply has_ldiff|reflexivity]. Qed.

Lemma flags_used_zeropad type :
  has (flags_used type) ZEROPAD = has type ZEROPAD && negb (has type LEFT).
Proof.
  unfold flags_used. destruct (has type LEFT); cbn [negb].
  - now rewrite has_ldiff_self, andb_false_r.
  - now rewrite andb_true_r.
Qed.

(** Sign and prefix are taken off the width. *)
Lemma number_size_eq type base sign size small :
  number_size type base sign size =
    size - Z.of_nat (length (if sign =? 0 then [] else [sign]) +
                     length (number_prefix type base small)).
Proof.
  unfold number_size, number_prefix. destruct (Z.eqb_spec sign 0), (has type SPECIAL); cbn [length];
    try destruct (Z.eqb_spec base 16); try destruct (Z.eqb_spec base 8); cbn [length]; lia.
Qed.

Lemma number_prefix_used type base small :
  number_prefix (flags_used type) base small = number_prefix type base small.
Proof. unfold number_prefix. now rewrite (flags_used_has type SPECIAL). Qed.

Lemma number_sign_used type num : number_sign (flags_used type) num = number_sign type num.
Proof.
  unfold number_sign.
  now rewrite (flags_used_has type SIGN), (flags_used_has type PLUS), (flags_used_has type SPACE).
Qed.

Lemma Forall_pad size c : Forall (eq c) (pad size c).
Proof. apply Forall_forall. intros x Hx. symmetry. exact (repeat_spec _ _ _ Hx). Qed.

(** ** Properties *)

(** [number] never cuts the number short and pads it to the field width
    exactly: the text is the sign, the prefix and the digits, with at least
    [precision] digits, and its length is the larger of [size] and what those
    take; the padding is spaces on the right under LEFT, zeros after the prefix
    under ZEROPAD, and spaces on the left otherwise.  The digit buffer
    [tmp[36]] is never overrun. *)
Theorem number_layout (num base size precision type : Z) (Hbase : 2 <= base <= 36) :
  exists left zeros right,
    let small := has type SMALL in
    let num' := if has type SIGN && (num <? 0) then swrap 32 (- num) else num in
    let tmp := number_tmp small num' base in
    let sign := number_sign type num in
    let signs := if sign =? 0 then [] else [sign] in
    let prefix := number_prefix type base small in
    let out := left ++ signs ++ prefix ++ zeros ++ rev tmp ++ right in
    number num base size precision type = Some out /\
    (length tmp <= 36)%nat /\
    Forall (eq 32) left /\ Forall (eq 48) zeros /\ Forall (eq 32) right /\
    (has type LEFT = true \/ has type ZEROPAD = true -> left = []) /\
    (has type LEFT = false -> right = []) /\
    Z.of_nat (length out) =
      Z.max size (Z.of_nat (length signs + length prefix) +
                  Z.max precision (Z.of_nat (length tmp))).
Proof.
  set (small := has type SMALL). set (num' := if _ && (num <? 0) then _ else num).
  set (tmp := number_tmp small num' base).
  set (sign := number_sign type num). set (signs := if sign =? 0 then [] else [sign]).
  set (prefix := number_prefix type base small).
  set (i := Z.of_nat (length tmp)). set (p := Z.max precision i).
  set (fill := size - Z.of_nat (length signs + length prefix) - p).
  exists (if has type LEFT || has type ZEROPAD then [] else pad fill 32),
    ((if has type ZEROPAD && negb (has type LEFT) then pad fill 48 else []) ++ pad (p - i) 48),
    (if has type LEFT then pad fill 32 else []).
  cbv zeta. split; [|split; [|split; [|split; [|split; [|split; [|split]]]]]].
  - unfold number. destruct (Z.ltb_spec base 2), (Z.ltb_spec 36 base); try lia. cbn [orb].
    fold small. change (if has type LEFT then Z.ldiff type ZEROPAD else type) with (flags_used type).
    rewrite number_sign_used, number_prefix_used, (flags_used_has type SIGN) by reflexivity.
    fold num' tmp sign prefix. f_equal.
    rewrite number_emit_layout
      by (rewrite (flags_used_has type LEFT), flags_used_zeropad by reflexivity; intros ->;
          now rewrite andb_false_r).
    rewrite (number_size_eq _ _ _ _ small), number_prefix_used.
    rewrite (flags_used_has type LEFT), flags_used_zeropad by reflexivity.
    fold prefix signs i p fill.
    rewrite <- !app_assoc. destruct (has type LEFT), (has type ZEROPAD); reflexivity.
  - subst tmp. pose proof (number_tmp_fits small num' base). lia.
  - destruct (has type LEFT || _); [constructor|apply Forall_pad].
  - apply Forall_app. split; [|apply Forall_pad].
    destruct (has type ZEROPAD && _); [apply Forall_pad|constructor].
  - destruct (has type LEFT); [apply Forall_pad|constructor].
  - now intros [->| ->]; rewrite ?orb_true_r.
  - now intros ->.
  - rewrite !length_app, length_rev, !Nat2Z.inj_add, length_pad. fold i.
    assert (fill = size - Z.of_nat (length signs + length prefix) - p) as Ef by reflexivity.
    assert (p = Z.max precision i) as Ep by reflexivity.
    assert (i = Z.of_nat (length tmp)) as Ei by reflexivity.
    subst tmp signs sign prefix. clearbody fill p i.
    destruct (has type LEFT), (has type ZEROPAD); cbn [orb andb negb];
      rewrite ?length_pad; cbn [length]; lia.
Qed.

(** C39. Reading back a number that [number] printed with no flags gives the
    number: [strtoul] in the same base returns it, as the unsigned value of the
    [int], and stops at the NUL. *)
Theorem number_strtoul_roundtrip (w : Z) (fuel : nat) (m : mem) (p num base : Z) (out : list Z)
    (Hw : 32 <= w) (Hbase : 2 <= base <= 36) (Hint : swrap 32 num = num)
    (Hout : number num base (-1) (-1) 0 = Some out) (Hmem : cstr m p out)
    (Hfuel : (32 < fuel)%nat) :
  strtoul w fuel m p base = Some (wrap 32 num, p + Z.of_nat (length out)).
Proof.
  rewrite number_plain in Hout by lia. injection Hout as <-.
  pose proof (number_digits_range num base ltac:(lia)) as Hr.
  pose proof (number_digits_value num base ltac:(lia)) as Hv.
  pose proof (number_digits_nonempty num base Hint) as Hne.
  assert (length (number_digits num base) <= 32)%nat as Hlen.
  { pose proof (number_tmp_fits false num base) as H. rewrite <- length_rev, number_tmp_digits in H.
    now rewrite length_map in H. }
  set (ds := number_digits num base) in *.
  destruct ds as [|d ds'] eqn:Eds; [contradiction|]. rewrite <- Eds in *.
  assert (0 <= d < base) as Hd by (rewrite Eds in Hr; now inversion Hr).
  assert (rd m p = signed 8 (digits false d)) as Hc.
  { rewrite Eds in Hmem. destruct Hmem as (E & _). unfold rd. now rewrite E. }
  destruct (digit_facts false d ltac:(lia)) as [_ Hsp Hmi Hpl _].
  rewrite (strtoul_correct w fuel m p base 0 None p base ds); try lia.
  - rewrite Hv, ULONG_MAX_eq by lia. rewrite length_map. cbn [sign_neg].
    assert (2 ^ 32 <= 2 ^ w) by (apply Z.pow_le_mono_r; lia).
    destruct (wrap_range 32 num ltac:(lia)). destruct (Z.eqb_spec num 0) as [->|].
    + destruct (Z.ltb_spec (2 ^ w - 1) 0); [lia|]. now rewrite Eds.
    + destruct (Z.ltb_spec (2 ^ w - 1) (wrap 32 num)); [lia|]. now rewrite Eds.
  - cbn [spaces_at]. now rewrite Hc.
  - cbn [sign_at Z.of_nat]. rewrite Z.add_0_r, Hc. auto.
  - unfold base_at. cbn [sign_len Z.of_nat]. rewrite !Z.add_0_r.
    rewrite (proj2 (Z.eqb_neq base 0)) by lia. cbn [orb].
    destruct (Z.eqb_spec base 16) as [->|]; cbn [andb]; [|auto].
    rewrite Eds in Hmem, Hr. inversion Hr; subst.
    rewrite (digits_hex_prefix m p false d ds') by (lia || easy). auto.
  - apply (digits_in_memory m p base false); [lia|exact Hr|exact Hmem].
Qed.

(** Text without a percent sign is emitted unchanged. *)
Lemma vsprintf_loop_plain fuel m txt fmt args out stores :
  Forall (fun c => c <> 37) txt -> (length txt <= fuel)%nat ->
  vsprintf_loop fuel m (txt ++ fmt) args out stores =
  vsprintf_loop (fuel - length txt) m fmt args (out ++ txt) stores.
Proof.
  intros H. revert fuel out. induction H as [|c txt Hc H IH]; intros fuel out Hf; simpl length in *.
  - now rewrite app_nil_r, Nat.sub_0_r.
  - destruct fuel as [|fuel]; [lia|]. cbn [app vsprintf_loop].
    rewrite (proj2 (Z.eqb_neq c 37) Hc). cbn [negb]. rewrite IH by lia.
    now rewrite <- app_assoc.
Qed.

(** [vsprintf] on a format with one [%u] between literal texts writes the
    first text, the decimal digits of the argument, the second text and a NUL,
    and returns how many bytes precede the NUL; whatever stands at [buf] after
    the first text reads back, through [strtoul], as the argument modulo 2^32. *)
Theorem vsprintf_unsigned (w : Z) (fuel : nat) (m : mem) (buf a : Z) (pre : list Z)
    (Hw : 32 <= w) (Hpre : Forall (fun c => c <> 37 /\ c <> 0) pre)
    (Hfuel : (length pre + 33 < fuel)%nat) :
  exists ds m',
    vsprintf fuel m buf (pre ++ [37; 117]) [a] =
      Some (Z.of_nat (length pre + length ds), m', []) /\
    cstr m' buf (pre ++ ds) /\
    strtoul w fuel m' (buf + Z.of_nat (length pre)) 10 =
      Some (wrap 32 a, buf + Z.of_nat (length pre) + Z.of_nat (length ds)).
Proof.
  set (ds := map (digits false) (number_digits (swrap 32 a) 10)).
  exists ds, (puts m buf (pre ++ ds)).
  assert (Forall (fun c => c <> 37) pre) as Hpre' by (eapply Forall_impl; [|exact Hpre]; now intros c []).
  assert (Forall (fun c => c <> 0) (pre ++ ds)) as Hnz.
  { apply Forall_app. split; [eapply Forall_impl; [|exact Hpre]; now intros c []|].
    apply Forall_map, (Forall_impl (P := fun d => 0 <= d < 10)); [|now apply number_digits_range].
    intros d Hd. unfold digits. zcmp; lia. }
  split; [|split].
  - unfold vsprintf. rewrite vsprintf_loop_plain by (easy || lia).
    destruct (fuel - length pre)%nat as [|[|f]] eqn:Ef; [lia..|].
    cbn [vsprintf_loop Z.eqb Pos.eqb negb read_flags read_width read_precision read_qualifier
         peek hd tl is_digit Z.leb Z.compare Pos.compare Pos.compare_cont andb orb convert va_arg].
    rewrite number_plain by lia. fold ds. cbn [app]. now rewrite length_app.
  - now apply puts_cstr.
  - rewrite (number_strtoul_roundtrip w fuel _ _ (swrap 32 a) 10 ds);
      [|lia|lia|now apply swrap_idem|now apply number_plain| |lia].
    + now rewrite wrap_swrap.
    + eapply cstr_tail. now apply puts_cstr.
Qed.

(** A width or precision given by a star is read but the star is not skipped:
    the directive ends there and prints a percent sign and the star. *)
Lemma star_width_not_skipped (m : mem) :
  vsprintf_loop 9 m [37; 42; 100] [5; 42] [] [] = Some ([37; 42; 100], []).
Proof. reflexivity. Qed.

(** [%lx] and [%p] print the low 32 bits of a longer argument. *)
Lemma long_hex_truncated (m : mem) :
  vsprintf_loop 9 m [37; 108; 120] [0x123456789] [] [] =
    Some ([50; 51; 52; 53; 54; 55; 56; 57], []).
Proof. reflexivity. Qed.

(** ** Witnesses *)

Lemma number_layout_witness :
  number 255 16 8 (-1) (ZEROPAD + SPECIAL + SMALL) = Some [48; 120; 48; 48; 48; 48; 102; 102] /\
  exists left zeros right,
    number 255 16 8 (-1) 97 =
      Some (left ++ [] ++ [48; 120] ++ zeros ++ [102; 102] ++ right).
Proof.
  split; [reflexivity|].
  destruct (number_layout 255 16 8 (-1) 97) as (l & z & r & H & _); [lia|].
  exists l, z, r. exact H.
Defined.

Lemma number_strtoul_roundtrip_witness :
  number (-1) 10 (-1) (-1) 0 = Some [52; 50; 57; 52; 57; 54; 55; 50; 57; 53] /\
  strtoul 32 40 (text 64 [52; 50; 57; 52; 57; 54; 55; 50; 57; 53]) 64 10 = Some (2 ^ 32 - 1, 74).
Proof.
  split; [reflexivity|].
  apply (number_strtoul_roundtrip 32 40 _ 64 (-1) 10 [52; 50; 57; 52; 57; 54; 55; 50; 57; 53]);
    [lia|lia|reflexivity|reflexivity|repeat split; discriminate|lia].
Defined.

Lemma vsprintf_unsigned_witness :
  exists (ds : list Z) m', vsprintf 60 (fun _ => 0) 100 [110; 61; 37; 117] [2014] =
                  Some (Z.of_nat (2 + length ds), m', []) /\
                strtoul 64 60 m' 102 10 = Some (2014, 102 + Z.of_nat (length ds)).
Proof.
  destruct (vsprintf_unsigned 64 60 (fun _ => 0) 100 2014 [110; 61]) as (ds & m' & H1 & _ & H2);
    [lia|repeat constructor; discriminate|simpl; lia|].
  exists ds, m'. split; [exact H1|exact H2].
Defined.
