(* ===== verification/TcpBuffer.v ===== *)
(** * The byte streams of TCP endpoints: TcpBuffer

    [TcpBuffer] of [src/modules/system/network-stack/TcpMisc.h] and [TcpMisc.cc]:
    an array of bytes with a position to read from, a position to write to and
    the number of bytes held.  A fault is an access outside the array or to a
    freed array, or the second acquisition of the lock, which no thread would
    return from.  Sizes are natural numbers: the bytes passed to [write] are in
    memory, so [nBytes + m_DataSize] does not reach [2^64]. *)
From Stdlib Require Import ZArith Lia List Bool.
From stdpp Require Import base list.
From S2P Require Import Prelude.
Import ListNotations.
Local Open Scope nat_scope.
Local Open Scope err_scope.

(** What [m_Buffer] points to. *)
Inductive Array := Null | Freed | Bytes (l : list Z).

Record TcpBuffer := mkTcpBuffer {
  m_Buffer : Array; m_BufferSize : nat; m_DataSize : nat; m_Reader : nat; m_Writer : nat; m_Lock : bool
}.

Definition Op (A : Type) : Type := StateE TcpBuffer A.

Definition put_lock (b : bool) (s : TcpBuffer) : TcpBuffer :=
  mkTcpBuffer (m_Buffer s) (m_BufferSize s) (m_DataSize s) (m_Reader s) (m_Writer s) b.

Definition put_array (a : Array) (s : TcpBuffer) : TcpBuffer :=
  mkTcpBuffer a (m_BufferSize s) (m_DataSize s) (m_Reader s) (m_Writer s) (m_Lock s).

Definition put_size (n : nat) (s : TcpBuffer) : TcpBuffer :=
  mkTcpBuffer (m_Buffer s) n (m_DataSize s) (m_Reader s) (m_Writer s) (m_Lock s).

Definition put_data (n : nat) (s : TcpBuffer) : TcpBuffer :=
  mkTcpBuffer (m_Buffer s) (m_BufferSize s) n (m_Reader s) (m_Writer s) (m_Lock s).

Definition put_reader (n : nat) (s : TcpBuffer) : TcpBuffer :=
  mkTcpBuffer (m_Buffer s) (m_BufferSize s) (m_DataSize s) n (m_Writer s) (m_Lock s).

Definition put_writer (n : nat) (s : TcpBuffer) : TcpBuffer :=
  mkTcpBuffer (m_Buffer s) (m_BufferSize s) (m_DataSize s) (m_Reader s) n (m_Lock s).

(** [LockGuard<Mutex> guard(m_Lock)] around [m]. *)
Definition locked {A} (m : Op A) : Op A :=
  b <- egets m_Lock ;;
  if b then efail else emodify (put_lock true) ;; r <- m ;; emodify (put_lock false) ;; eret r.

(** [memcpy] of [src] into the array at [off], and of [n] bytes out of it. *)
Definition copy_in (off : nat) (src : list Z) : Op unit :=
  a <- egets m_Buffer ;;
  match a with
  | Bytes l => if off + length src <=? length l
               then emodify (put_array (Bytes (take off l ++ src ++ drop (off + length src) l))) else efail
  | _ => efail
  end.

Definition copy_out (off n : nat) : Op (list Z) :=
  a <- egets m_Buffer ;;
  match a with
  | Bytes l => if off + n <=? length l then eret (take n (drop off l)) else efail
  | _ => efail
  end.

Definition is_null (a : Array) : bool := match a with Null => true | _ => false end.

(** ** Operations *)

Definition write_locked (buffer : list Z) : Op nat :=
  s <- egets id ;;
  let size := m_BufferSize s in
  if is_null (m_Buffer s) || (size =? 0) then eret 0
  else if size <=? m_DataSize s then eret 0
  else
    let nBytes := if size <? length buffer + m_DataSize s then size - m_DataSize s else length buffer in
    let nBytes := if size <? nBytes then size else nBytes in
    if nBytes =? 0 then eret 0
    else if m_Writer s + nBytes <? size then
      copy_in (m_Writer s) (take nBytes buffer) ;;
      emodify (put_writer (m_Writer s + nBytes)) ;;
      emodify (put_data (m_DataSize s + nBytes)) ;;
      eret nBytes
    else
      let numNormalBytes := size - m_Writer s in
      let numOverlapBytes := (m_Writer s + nBytes) mod size in
      let numOverlapBytes :=
        if (m_Reader s <=? numOverlapBytes) && negb (m_Reader s =? 0) then m_Reader s - 1
        else if (m_Reader s =? 0) && (m_DataSize s =? 0) then 0 else numOverlapBytes in
      copy_in (m_Writer s) (take numNormalBytes buffer) ;;
      copy_in 0 (take numOverlapBytes buffer) ;;
      ewhen (negb (numOverlapBytes =? 0)) (emodify (put_writer numOverlapBytes)) ;;
      emodify (put_data (m_DataSize s + (numNormalBytes + numOverlapBytes))) ;;
      eret (numNormalBytes + numOverlapBytes).

Definition write (buffer : list Z) : Op nat := locked (write_locked buffer).

(** What [read] leaves in the caller's buffer; its length is what it returns. *)
Definition read_locked (nBytes : nat) (bDoNotMove : bool) : Op (list Z) :=
  s <- egets id ;;
  let size := m_BufferSize s in
  if is_null (m_Buffer s) || (size =? 0) then eret []
  else
    let nBytes := if size <? nBytes then size else nBytes in
    let nBytes := if m_DataSize s <? nBytes then m_DataSize s else nBytes in
    if nBytes =? 0 then eret []
    else if m_Reader s + nBytes <? size then
      if (m_Writer s =? 0) && (m_Reader s =? 0) then eret []
      else if (m_Writer s =? m_Reader s) && (m_DataSize s =? 0) then eret []
      else
        r <- copy_out (m_Reader s) nBytes ;;
        ewhen (negb bDoNotMove)
          (emodify (put_reader (m_Reader s + nBytes)) ;; emodify (put_data (m_DataSize s - nBytes))) ;;
        eret r
    else
      let numNormalBytes := size - m_Reader s in
      let numOverlapBytes := (m_Reader s + nBytes) mod size in
      let numOverlapBytes :=
        if (m_Writer s <=? numOverlapBytes) && negb (m_Writer s =? 0) then m_Writer s - 1
        else if m_Writer s =? 0 then 0 else numOverlapBytes in
      r1 <- copy_out (m_Reader s) numNormalBytes ;;
      r2 <- copy_out 0 numOverlapBytes ;;
      ewhen (negb (numOverlapBytes =? 0)) (emodify (put_reader numOverlapBytes)) ;;
      emodify (put_data (if m_DataSize s <? numNormalBytes + numOverlapBytes then 0
                         else m_DataSize s - (numNormalBytes + numOverlapBytes))) ;;
      eret (r1 ++ r2).

Definition read (nBytes : nat) (bDoNotMove : bool) : Op (list Z) := locked (read_locked nBytes bDoNotMove).

(** The bytes of a new array are not initialised. *)
Definition setSize (garbage : nat -> Z) (newBufferSize : nat) : Op unit := locked (
  a <- egets m_Buffer ;;
  (if is_null a then eret tt else match a with Freed => efail | _ => emodify (put_array Freed) end) ;;
  if newBufferSize =? 0 then eret tt
  else
    emodify (put_size newBufferSize) ;;
    emodify (put_array (Bytes (map garbage (seq 0 (newBufferSize + 1)))))).

Definition getDataSize (s : TcpBuffer) : nat := m_DataSize s.
Definition getSize : Op nat := locked (egets m_BufferSize).
Definition getRemainingSize (s : TcpBuffer) : nat := m_BufferSize s - m_DataSize s.

(** Constructor and destructor. *)
Definition default_size : nat := Z.to_nat 32768.

Definition construct (garbage : nat -> Z) : option TcpBuffer :=
  snd <$> setSize garbage default_size (mkTcpBuffer Null 0 0 0 0 false).

Definition destroy (garbage : nat -> Z) : Op unit := locked (setSize garbage 0).

(** ** Sequences of calls, and a queue to compare with *)

Inductive Call := Write (buffer : list Z) | Read (nBytes : nat) (bDoNotMove : bool).

Inductive Result := Wrote (n : nat) | Got (l : list Z).

Definition call (c : Call) : Op Result :=
  match c with
  | Write b => n <- write b ;; eret (Wrote n)
  | Read n p => l <- read n p ;; eret (Got l)
  end.

Fixpoint calls (cs : list Call) : Op (list Result) :=
  match cs with
  | [] => eret []
  | c :: cs' => r <- call c ;; rs <- calls cs' ;; eret (r :: rs)
  end.

Definition queue_call (c : Call) (q : list Z) : Result * list Z :=
  match c with
  | Write b => (Wrote (length b), q ++ b)
  | Read n p => (Got (take n q), if p then q else drop n q)
  end.

Fixpoint queue_calls (cs : list Call) (q : list Z) : list Result * list Z :=
  match cs with
  | [] => ([], q)
  | c :: cs' =>
      let (r, q1) := queue_call c q in let (rs, q2) := queue_calls cs' q1 in (r :: rs, q2)
  end.

(** The bytes that calls write, all together. *)
Definition bytes (c : Call) : nat := match c with Write b => length b | _ => 0 end.
Definition written (cs : list Call) : nat := sum_list_with bytes cs.

(** No more comes back than was asked for. *)
Definition answers (c : Call) (r : Result) : Prop :=
  match c, r with
  | Write b, Wrote n => n <= length b
  | Read n _, Got l => length l <= n
  | _, _ => False
  end.

(** ** Invariants *)

Definition in_bounds (s : TcpBuffer) : Prop :=
  exists l, m_Buffer s = Bytes l /\ length l = m_BufferSize s + 1 /\ m_Lock s = false /\
    m_Reader s < m_BufferSize s /\ m_Writer s < m_BufferSize s /\ m_DataSize s <= m_BufferSize s.

(** As long as no position has reached the end of the array, the bytes between
    them are the queue. *)
Definition holds (s : TcpBuffer) (q : list Z) : Prop :=
  exists l, m_Buffer s = Bytes l /\ length l = m_BufferSize s + 1 /\ m_Lock s = false /\
    m_Writer s < m_BufferSize s /\ m_DataSize s = length q /\ m_Reader s + length q = m_Writer s /\
    take (length q) (drop (m_Reader s) l) = q.

Lemma copy_in_run s l off src : m_Buffer s = Bytes l -> off + length src <= length l ->
  copy_in off src s = Some (tt, put_array (Bytes (take off l ++ src ++ drop (off + length src) l)) s).
Proof.
  intros Hl Hn. unfold copy_in. cbn. rewrite Hl. by rewrite (proj2 (Nat.leb_le _ _) Hn).
Qed.

Lemma copy_out_run s l off n : m_Buffer s = Bytes l -> off + n <= length l ->
  copy_out off n s = Some (take n (drop off l), s).
Proof.
  intros Hl Hn. unfold copy_out. cbn. rewrite Hl. by rewrite (proj2 (Nat.leb_le _ _) Hn).
Qed.

Lemma stream_lock_run {A} (m : Op A) s r s' : m_Lock s = false -> m (put_lock true s) = Some (r, s') ->
  locked m s = Some (r, put_lock false s').
Proof.
  intros Hl Hm. unfold locked. cbn. unfold ebind at 1; cbn. rewrite Hl. cbn. unfold ebind, emodify.
  by rewrite Hm.
Qed.

Lemma splice_length (l src : list Z) off : off + length src <= length l ->
  length (take off l ++ src ++ drop (off + length src) l) = length l.
Proof. intros. rewrite !length_app, length_take, length_drop. lia. Qed.

(** Where the positions of a wrapping access end. *)
Lemma mod_wraps_once a n : n <= a -> a < 2 * n -> a mod n = a - n.
Proof. intros. symmetry. apply (Nat.mod_unique _ _ 1); lia. Qed.

Ltac ncmp :=
  repeat match goal with
    | |- context [?a <=? ?b] => destruct (Nat.leb_spec a b)
    | |- context [?a <? ?b] => destruct (Nat.ltb_spec a b)
    | |- context [?a =? ?b] => destruct (Nat.eqb_spec a b)
    end.

(** ** Bounds *)

(** What is left of the wrapped part of an access. *)
Lemma overlap_bound a r size (b : bool) : r < size -> size <= a -> a < 2 * size ->
  (if (r <=? a mod size) && negb (r =? 0) then r - 1 else if b then 0 else a mod size) <= a - size.
Proof. intros. rewrite (mod_wraps_once a) by lia. destruct b; ncmp; cbn [andb negb]; lia. Qed.

Lemma write_locked_bounds b a size d r w : length a = size + 1 -> r < size -> w < size -> d <= size ->
  exists n a' d' w', write_locked b (mkTcpBuffer (Bytes a) size d r w true) =
      Some (n, mkTcpBuffer (Bytes a') size d' r w' true) /\
    length a' = size + 1 /\ w' < size /\ d' <= size /\ n <= length b.
Proof.
  intros Ha Hr Hw Hd. unfold write_locked, ebind at 1, egets at 1, id. cbv beta iota zeta.
  cbn [m_Buffer m_BufferSize m_DataSize m_Reader m_Writer is_null orb].
  destruct (Nat.eqb_spec size 0); [lia|]. destruct (Nat.leb_spec size d); [repeat eexists; eauto; lia|].
  set (n0 := if size <? length b + d then size - d else length b).
  set (n1 := if size <? n0 then size else n0).
  assert (Hn0 : n0 <= length b /\ n0 <= size - d) by (subst n0; ncmp; lia). clearbody n0.
  assert (Hn : n1 <= length b /\ n1 <= size - d) by (subst n1; ncmp; lia). clearbody n1. clear Hn0 n0.
  destruct (Nat.eqb_spec n1 0); [repeat eexists; eauto; lia|].
  destruct (Nat.ltb_spec (w + n1) size).
  - estep ltac:(apply copy_in_run; [done|]; rewrite length_take; lia).
    cbn. repeat eexists; eauto; try lia. rewrite splice_length; [done|rewrite length_take; lia].
  - pose proof (overlap_bound (w + n1) r size ((r =? 0) && (d =? 0))  ltac:(lia) ltac:(lia) ltac:(lia)) as Ho.
    set (o := if _ && _ then _ else _) in *. clearbody o.
    estep ltac:(apply copy_in_run; [done|]; rewrite length_take; lia).
    estep ltac:(apply copy_in_run; [done|]; rewrite ?length_app, ?length_drop, ?length_take; lia).
    destruct (Nat.eqb_spec o 0); cbn - [Nat.sub take drop]; repeat eexists; eauto; try lia.
    all: cbn [put_writer put_array m_Writer]; rewrite ?length_app, ?length_drop, ?length_take, ?length_app, ?length_drop, ?length_take; lia.
Qed.

Lemma read_locked_bounds k p a size d r w : length a = size + 1 -> r < size -> w < size -> d <= size ->
  exists l d' r', read_locked k p (mkTcpBuffer (Bytes a) size d r w true) =
      Some (l, mkTcpBuffer (Bytes a) size d' r' w true) /\
    r' < size /\ d' <= size /\ length l <= k.
Proof.
  intros Ha Hr Hw Hd. unfold read_locked, ebind at 1, egets at 1, id. cbv beta iota zeta.
  cbn [m_Buffer m_BufferSize m_DataSize m_Reader m_Writer is_null orb].
  destruct (Nat.eqb_spec size 0); [lia|].
  set (n0 := if size <? k then size else k). set (n1 := if d <? n0 then d else n0).
  assert (Hn0 : n0 <= k) by (subst n0; ncmp; lia). clearbody n0.
  assert (Hn : n1 <= k /\ n1 <= d) by (subst n1; ncmp; lia). clearbody n1. clear Hn0 n0.
  destruct (Nat.eqb_spec n1 0); [repeat eexists; eauto; cbn; lia|].
  destruct (Nat.ltb_spec (r + n1) size).
  - destruct (_ && _); [repeat eexists; eauto; cbn; lia|]. destruct (_ && _); [repeat eexists; eauto; cbn; lia|].
    estep ltac:(apply copy_out_run; [done|]; lia).
    destruct p; cbn - [Nat.sub take drop]; repeat eexists; eauto; try lia; rewrite length_take; lia.
  - pose proof (overlap_bound (r + n1) w size (w =? 0) Hw ltac:(lia) ltac:(lia)) as Ho.
    set (o := if _ && _ then _ else _) in *. clearbody o.
    estep ltac:(apply copy_out_run; [done|]; lia).
    estep ltac:(apply copy_out_run; [done|]; lia).
    destruct (Nat.eqb_spec o 0); cbn - [Nat.sub take drop Nat.ltb]; repeat eexists; eauto; try lia.
    all: cbn [put_reader put_data m_Reader m_DataSize]; rewrite ?length_app, ?length_take, ?length_drop; ncmp; lia.
Qed.

Lemma call_bounds c s : in_bounds s -> exists r s', call c s = Some (r, s') /\ in_bounds s' /\ answers c r.
Proof.
  intros (l & Hl & Hlen & Hk & Hr & Hw & Hd). destruct s as [a size d r w k]; cbn in *; subst a k.
  destruct c as [b|n p]; cbn [call].
  - destruct (write_locked_bounds b l size d r w) as (n & a' & d' & w' & H & ? & ? & ? & ?); [done..|].
    estep ltac:(apply stream_lock_run; [done | exact H]). repeat eexists; eauto.
  - destruct (read_locked_bounds n p l size d r w) as (a' & d' & r' & H & ? & ? & ?); [done..|].
    estep ltac:(apply stream_lock_run; [done | exact H]). repeat eexists; eauto.
Qed.

(** ** The queue *)

Lemma holds_write s q b : holds s q -> m_Writer s + length b < m_BufferSize s ->
  exists s', write b s = Some (length b, s') /\ holds s' (q ++ b) /\
    m_Writer s' = m_Writer s + length b /\ m_BufferSize s' = m_BufferSize s.
Proof.
  intros (l & Hl & Hlen & Hk & Hw & Hd & Hrw & Hq) Hb. destruct s as [a size d r w k]; cbn [m_Buffer m_BufferSize m_DataSize m_Reader m_Writer m_Lock] in *; subst a k d.
  assert (exists s1, write_locked b (mkTcpBuffer (Bytes l) size (length q) r w true) = Some (length b, put_lock true s1) /\
    holds s1 (q ++ b) /\ m_Writer s1 = w + length b /\ m_BufferSize s1 = size) as (s1 & H & Hs & ? & ?).
  - unfold write_locked, ebind at 1, egets at 1, id. cbv beta iota zeta.
    cbn [m_Buffer m_BufferSize m_DataSize m_Reader m_Writer is_null orb].
    rewrite (proj2 (Nat.eqb_neq size 0)), (proj2 (Nat.leb_gt _ _)), (proj2 (Nat.ltb_ge size (length b + length q))) by lia.
    rewrite (proj2 (Nat.ltb_ge size (length b))) by lia.
    destruct (Nat.eqb_spec (length b) 0) as [H0|].
    { apply length_zero_iff_nil in H0 as ->. rewrite app_nil_r. exists (mkTcpBuffer (Bytes l) size (length q) r w false).
      split; [done|]. split; [|cbn; lia]. exists l. cbn. split_and!; done || lia. }
    rewrite (proj2 (Nat.ltb_lt _ _)) by lia. rewrite firstn_all.
    estep ltac:(apply copy_in_run; [done|]; lia).
    exists (mkTcpBuffer (Bytes (take w l ++ b ++ drop (w + length b) l)) size (length q + length b) r (w + length b) false).
    split; [reflexivity|]. split; [|done]. eexists. cbn - [take drop Nat.add]. split; [done|]. rewrite splice_length, length_app by lia.
    split_and!; try done; try lia.
    rewrite drop_app_le by (rewrite length_take; lia). subst w. rewrite <- take_drop_commute, Hq.
    rewrite app_assoc, take_app_le by (rewrite length_app; lia). by rewrite <- length_app, firstn_all.
  - exists (put_lock false s1). split.
    { unfold write, read. erewrite stream_lock_run; [|done|exact H]. by destruct s1. } destruct s1; cbn in *. split; [|done].
    destruct Hs as (l1 & ? & ? & ? & ?). by exists l1.
Qed.

Lemma holds_read s q n p : holds s q ->
  exists s', read n p s = Some (take n q, s') /\ holds s' (if p then q else drop n q) /\
    m_Writer s' = m_Writer s /\ m_BufferSize s' = m_BufferSize s.
Proof.
  intros (l & Hl & Hlen & Hk & Hw & Hd & Hrw & Hq). destruct s as [a size d r w k]; cbn [m_Buffer m_BufferSize m_DataSize m_Reader m_Writer m_Lock] in *; subst a k d.
  assert (exists s1, read_locked n p (mkTcpBuffer (Bytes l) size (length q) r w true) = Some (take n q, put_lock true s1) /\
    holds s1 (if p then q else drop n q) /\ m_Writer s1 = w /\ m_BufferSize s1 = size) as (s1 & H & Hs & ? & ?).
  - unfold read_locked, ebind at 1, egets at 1, id. cbv beta iota zeta.
    cbn [m_Buffer m_BufferSize m_DataSize m_Reader m_Writer is_null orb].
    rewrite (proj2 (Nat.eqb_neq size 0)) by lia.
    set (n0 := if size <? n then size else n). set (n1 := if length q <? n0 then length q else n0).
    assert (Hn : n1 = min n (length q)) by (subst n1 n0; destruct (Nat.ltb_spec size n); ncmp; lia).
    assert (Ht : take n q = take n1 q) by (rewrite Hn; destruct (Nat.min_spec n (length q)) as [[? ->]|[? ->]];
      [done|]; by rewrite firstn_all, firstn_all2).
    assert (Hdr : drop n q = drop n1 q) by (rewrite Hn; destruct (Nat.min_spec n (length q)) as [[? ->]|[? ->]];
      [done|]; by rewrite skipn_all, skipn_all2).
    rewrite Ht, Hdr. clearbody n1. clear n0 Ht Hdr.
    destruct (Nat.eqb_spec n1 0) as [->|].
    { exists (mkTcpBuffer (Bytes l) size (length q) r w false). cbn [drop take]. split; [done|]. split; [|cbn; lia].
      exists l. destruct p; cbn; split_and!; done || lia. }
    rewrite (proj2 (Nat.ltb_lt _ size)) by lia.
    rewrite (proj2 (Nat.eqb_neq w 0)), (proj2 (Nat.eqb_neq w r)) by lia. cbn [andb].
    estep ltac:(apply copy_out_run; [done|]; lia).
    assert (take n1 (drop r l) = take n1 q) as -> by (rewrite <- Hq, take_take; f_equal; lia).
    exists (mkTcpBuffer (Bytes l) size (if p then length q else length q - n1) (if p then r else r + n1) w false).
    split; [by destruct p|]. split; [|done]. exists l. destruct p; cbn - [take drop Nat.sub Nat.add].
    + split_and!; done || lia.
    + rewrite length_drop. split_and!; try done; try lia. rewrite <- Hq at 2.
      rewrite skipn_firstn_comm. by rewrite drop_drop.
  - exists (put_lock false s1). split.
    { unfold write, read. erewrite stream_lock_run; [|done|exact H]. by destruct s1. } destruct s1; cbn in *. split; [|done].
    destruct Hs as (l1 & ? & ? & ? & ?). by exists l1.
Qed.

Lemma holds_calls cs : forall s q, holds s q -> m_Writer s + written cs < m_BufferSize s ->
  exists s', calls cs s = Some (fst (queue_calls cs q), s') /\ holds s' (snd (queue_calls cs q)).
Proof.
  induction cs as [|c cs IH]; intros s q Hs Hb; [by exists s|]. unfold written in *. cbn [sum_list_with] in Hb.
  destruct c as [b|n p]; cbn [calls call bytes queue_calls queue_call] in *.
  - destruct (holds_write s q b Hs) as (s1 & H1 & H2 & H3 & H4); [lia|].
    destruct (IH s1 (q ++ b) H2) as (s2 & H5 & H6); [lia|].
    destruct (queue_calls cs (q ++ b)) as [rs q2]; cbn [fst snd] in *. exists s2. split; [|done].
    rewrite ebind_assoc. estep ltac:(exact H1). cbn. by estep ltac:(exact H5).
  - destruct (holds_read s q n p Hs) as (s1 & H1 & H2 & H3 & H4).
    destruct (IH s1 _ H2) as (s2 & H5 & H6); [lia|].
    destruct (queue_calls cs _) as [rs q2]; cbn [fst snd] in *. exists s2. split; [|done].
    rewrite ebind_assoc. estep ltac:(exact H1). cbn. by estep ltac:(exact H5).
Qed.

Lemma bounds_calls cs : forall s, in_bounds s ->
  exists rs s', calls cs s = Some (rs, s') /\ in_bounds s' /\ Forall2 answers cs rs.
Proof.
  induction cs as [|c cs IH]; intros s Hs; [by exists [], s|].
  destruct (call_bounds c s Hs) as (r & s1 & H1 & H2 & H3). destruct (IH s1 H2) as (rs & s2 & H4 & H5 & H6).
  exists (r :: rs), s2. cbn [calls]. estep ltac:(exact H1). estep ltac:(exact H4). split_and!; [done..|by constructor].
Qed.

Lemma construct_run garbage : exists s, construct garbage = Some s /\ in_bounds s /\ holds s [] /\
  m_Writer s = 0 /\ m_BufferSize s = default_size.
Proof.
  unfold construct, setSize. generalize (eq_refl default_size). generalize default_size at 2 3 4 5.
  intros n Hn. assert (n <> 0) by (rewrite <- Hn; unfold default_size; lia).
  unfold locked, ebind, egets, emodify. cbn - [default_size]. rewrite (proj2 (Nat.eqb_neq n 0)) by done.
  exists (mkTcpBuffer (Bytes (map garbage (seq 0 (n + 1)))) n 0 0 0 false). split; [reflexivity|].
  assert (Hl : length (map garbage (seq 0 (n + 1))) = n + 1) by (by rewrite length_map, length_seq).
  split_and!; try done; eexists; cbn [m_Buffer m_BufferSize m_DataSize m_Reader m_Writer m_Lock length];
    split_and!; done || lia.
Qed.

(** C10. No call of [read] or [write] blocks, leaves the array or returns more than
    was asked for, in whatever order they come; and as long as the bytes written
    since the construction are fewer than the array has (32768), the calls behave
    like those of a queue: each byte is read once, in order, and peeking removes
    nothing. *)
Theorem buffer_is_queue garbage cs : exists s, construct garbage = Some s /\
  (exists rs s', calls cs s = Some (rs, s') /\ in_bounds s' /\ Forall2 answers cs rs) /\
  (written cs < default_size ->
   exists s', calls cs s = Some (fst (queue_calls cs []), s') /\ holds s' (snd (queue_calls cs []))).
Proof.
  destruct (construct_run garbage) as (s & Hs & Hb & Hq & Hw & Hsz). exists s. split; [done|]. split.
  - by apply bounds_calls.
  - intros. apply holds_calls; [done|]. rewrite Hw, Hsz. lia.
Qed.

Lemma buffer_is_queue_witness :
  let cs := [Write [1; 2; 3]%Z; Read 2 true; Read 2 false; Write [4]%Z; Read 9 false; Read 1 false] in
  let one (_ : nat) := 0%Z in
  written cs < default_size /\ exists s s', construct one = Some s /\
    calls cs s = Some ([Wrote 3; Got [1; 2]; Got [1; 2]; Wrote 1; Got [3; 4]; Got []]%Z, s').
Proof.
  intros cs one. assert (H : written cs < default_size) by (unfold default_size; cbn; lia). split; [exact H|].
  destruct (buffer_is_queue one cs) as (s & Hs & _ & Hq). destruct (Hq H) as (s' & Hc & _).
  exists s, s'. split; [exact Hs|exact Hc].
Defined.

(** ** Where it is not a queue: an array of 8 bytes *)

Definition run8 (cs : list Call) : option (list Result) :=
  '(_, s) ← setSize (fun _ => 0%Z) 8 (mkTcpBuffer Null 0 0 0 0 false);
  fst <$> calls cs s.

(** The part that wraps around is copied from the beginning of the argument. *)
Example wrap_copies_start :
  run8 [Write [1; 2; 3; 4; 5; 6]%Z; Read 4 false; Write [7; 8; 9; 10]%Z; Read 5 false] =
  Some [Wrote 6; Got [1; 2; 3; 4]; Wrote 4; Got [5; 6; 7; 8; 7]]%Z.
Proof. vm_compute. reflexivity. Qed.

(** A write up to the end of the array leaves [m_Writer]: the next one overwrites. *)
Example end_overwrites :
  run8 [Write [1; 2; 3; 4; 5; 6]%Z; Write [7; 8]%Z; Read 4 false; Write [9]%Z; Read 3 false] =
  Some [Wrote 6; Wrote 2; Got [1; 2; 3; 4]; Wrote 1; Got [5; 6; 9]]%Z.
Proof. vm_compute. reflexivity. Qed.

(** After one write of the whole array nothing can be read but all at once. *)
Example full_array_unread :
  run8 [Write [1; 2; 3; 4; 5; 6; 7; 8]%Z; Read 4 false] = Some [Wrote 8; Got []]%Z.
Proof. vm_compute. reflexivity. Qed.

(** A read up to the end leaves [m_Reader]: the bytes come again. *)
Example end_repeats :
  run8 [Write [1; 2; 3; 4; 5; 6]%Z; Read 4 false; Write [7; 8; 9]%Z; Read 4 false; Read 1 false] =
  Some [Wrote 6; Got [1; 2; 3; 4]; Wrote 3; Got [5; 6; 7; 8]; Got [5]]%Z.
Proof. vm_compute. reflexivity. Qed.

(** Peeking at data that wraps around removes it. *)
Example peek_consumes :
  run8 [Write [1; 2; 3; 4; 5; 6]%Z; Read 4 false; Write [7; 8; 9; 10]%Z; Read 5 true; Read 5 true] =
  Some [Wrote 6; Got [1; 2; 3; 4]; Wrote 4; Got [5; 6; 7; 8; 7]; Got [8]]%Z.
Proof. vm_compute. reflexivity. Qed.

(** The destructor holds the lock that [setSize] waits for. *)
Example destroy_deadlocks s : destroy (fun _ => 0%Z) s = None.
Proof. unfold destroy, locked, ebind, egets, emodify. by destruct (m_Lock s). Qed.
