(* ===== verification/TcpTree.v ===== *)
(** * The tables of connections: Tree<StateBlockHandle,void*>

    The specialised tree of [src/modules/system/network-stack/TcpMisc.h] and
    [TcpMisc.cc], with the comparisons of [StateBlockHandle].  A tree is a value:
    nodes with the height they have stored; the walk back to the root along
    parent pointers is the return from the recursion.  [None] is a rotation
    around a null pointer, or the end of the fuel. *)
From Stdlib Require Import ZArith Lia List Bool Permutation.
From stdpp Require Import base list.
From S2P Require Import Prelude.
Import ListNotations.
Local Open Scope Z_scope.

(** ** Handles *)

Record StateBlockHandle := mkHandle { localPort : Z; remotePort : Z; remoteHost : Z; listen : bool }.

#[export] Instance StateBlockHandle_eq_dec : EqDecision StateBlockHandle.
Proof. solve_decision. Defined.

(** [operator ==] of the first one. *)
Definition handle_eq (h a : StateBlockHandle) : bool :=
  if listen a then if listen h then localPort h =? localPort a else false
  else (localPort h =? localPort a) && (remoteHost h =? remoteHost a) && (remotePort h =? remotePort a).

(** [operator >]: the function returns before it compares anything. *)
Definition handle_gt (h a : StateBlockHandle) : bool := true.

(** ** Trees *)

Inductive tree (V : Type) :=
| Leaf
| Node (l : tree V) (k : StateBlockHandle) (v : V) (h : nat) (r : tree V).
Arguments Leaf {V}.
Arguments Node {V}.

Section Tree.
Context {V : Type}.
Implicit Types t l r : tree V.

Definition stored t : nat := match t with Leaf => 0 | Node _ _ _ h _ => h end.

(** [height] stores what it returns. *)
Definition height t : nat * tree V :=
  match t with
  | Leaf => (0%nat, Leaf)
  | Node l k v _ r => let h := S (Nat.max (stored l) (stored r)) in (h, Node l k v h r)
  end.

Definition balanceFactor t : Z * tree V :=
  match t with
  | Leaf => (0, Leaf)
  | Node l k v h r =>
      let (hr, r) := height r in let (hl, l) := height l in (Z.of_nat hr - Z.of_nat hl, Node l k v h r)
  end.

Definition rotateLeft t : option (tree V) :=
  match t with
  | Node l k v h (Node yl yk yv yh yr) => Some (Node (Node l k v h yl) yk yv yh yr)
  | _ => None
  end.

Definition rotateRight t : option (tree V) :=
  match t with
  | Node (Node yl yk yv yh yr) k v h r => Some (Node yl yk yv yh (Node yr k v h r))
  | _ => None
  end.

Definition rebalanceNode t : option (tree V) :=
  let (balance, t) := balanceFactor t in
  match t with
  | Leaf => None
  | Node l k v h r =>
      if balance <? -1 then
        let (b, l) := balanceFactor l in
        if 0 <? b then l ← rotateLeft l; rotateRight (Node l k v h r) else rotateRight (Node l k v h r)
      else if 1 <? balance then
        let (b, r) := balanceFactor r in
        if b <? 0 then r ← rotateRight r; rotateLeft (Node l k v h r) else rotateLeft (Node l k v h r)
      else Some t
  end.

(** One node of the way up.  After a rotation the parent of the node is the new
    root of its subtree, which comes next. *)
Definition ascents : nat := 8.

Fixpoint ascend (fuel : nat) t : option (tree V) :=
  match fuel with
  | O => None
  | S fuel' =>
      let (b, t) := balanceFactor t in
      if (b <? -1) || (1 <? b) then t ← rebalanceNode t; ascend fuel' t else Some t
  end.

Fixpoint lookup t (key : StateBlockHandle) : option V :=
  match t with
  | Leaf => None
  | Node l k v _ r => if handle_eq k key then Some v else if handle_gt key k then lookup r key else lookup l key
  end.

Fixpoint insert_node t (key : StateBlockHandle) (value : V) : option (tree V) :=
  match t with
  | Leaf => Some (Node Leaf key value 0 Leaf)
  | Node l k v h r =>
      if handle_gt key k then r ← insert_node r key value; ascend ascents (Node l k v h r)
      else l ← insert_node l key value; ascend ascents (Node l k v h r)
  end.

Definition insert t (key : StateBlockHandle) (value : V) : option (tree V) :=
  match lookup t key with Some _ => Some t | None => insert_node t key value end.

(** Rotations take the node to be removed to the bottom. *)
Fixpoint sink (fuel : nat) l (k : StateBlockHandle) (v : V) (h : nat) r : option (tree V) :=
  match fuel with
  | O => None
  | S fuel' =>
      match l, r with
      | Leaf, Leaf => Some Leaf
      | _, _ =>
          let (hl, l) := height l in let (hr, r) := height r in
          if (hl =? 0)%nat then
            match r with
            | Node yl yk yv yh yr => n ← sink fuel' l k v h yl; ascend ascents (Node n yk yv yh yr)
            | Leaf => None
            end
          else if (hr =? 0)%nat then
            match l with
            | Node yl yk yv yh yr => n ← sink fuel' yr k v h r; ascend ascents (Node yl yk yv yh n)
            | Leaf => None
            end
          else
            match l, r with
            | Node yl yk yv yh yr, Node zl zk zv zh zr =>
                n ← sink fuel' yr k v h zl;
                if (hl <=? hr)%nat
                then (z ← ascend ascents (Node n zk zv zh zr); ascend ascents (Node yl yk yv yh z))
                else (y ← ascend ascents (Node yl yk yv yh n); ascend ascents (Node y zk zv zh zr))
            | _, _ => None
            end
      end
  end.

Fixpoint size t : nat := match t with Leaf => 0 | Node l _ _ _ r => S (size l + size r) end.

(** [remove] turns left where [lookup] turns right. *)
Fixpoint remove_finds t (key : StateBlockHandle) : bool :=
  match t with
  | Leaf => false
  | Node l k _ _ r => handle_eq k key || (if handle_gt k key then remove_finds l key else remove_finds r key)
  end.

Fixpoint remove_node t (key : StateBlockHandle) : option (tree V) :=
  match t with
  | Leaf => None
  | Node l k v h r =>
      if handle_eq k key then sink (size t) l k v h r
      else if handle_gt k key then l ← remove_node l key; ascend ascents (Node l k v h r)
      else r ← remove_node r key; ascend ascents (Node l k v h r)
  end.

Definition remove t (key : StateBlockHandle) : option (tree V) :=
  if remove_finds t key then remove_node t key else Some t.

(** ** What the trees hold *)

Fixpoint entries t : list (StateBlockHandle * V) :=
  match t with Leaf => [] | Node l k v _ r => entries l ++ (k, v) :: entries r end.

(** The path that [lookup] follows. *)
Fixpoint spine t : list (StateBlockHandle * V) :=
  match t with Leaf => [] | Node _ k v _ r => (k, v) :: spine r end.

Fixpoint depth t : nat := match t with Leaf => 0 | Node l _ _ _ r => S (Nat.max (depth l) (depth r)) end.

(** Balanced, with the right heights stored below the root. *)
Fixpoint good t : Prop :=
  match t with
  | Leaf => True
  | Node l _ _ _ r =>
      stored l = depth l /\ good l /\ stored r = depth r /\ good r /\ depth l <= S (depth r) /\ depth r <= S (depth l)
  end%nat.

(** The depths of the two subtrees of every node differ by one at most. *)
Fixpoint balanced t : Prop :=
  match t with
  | Leaf => True
  | Node l _ _ _ r => (depth l <= S (depth r))%nat /\ (depth r <= S (depth l))%nat /\ balanced l /\ balanced r
  end.

Lemma good_balanced t : good t -> balanced t.
Proof. induction t as [|l IHl k v h r IHr]; [done|]. cbn [good balanced]. naive_solver. Qed.

Definition right_heavy t : Prop :=
  match t with Leaf => False | Node l _ _ _ r => depth r = S (depth l) end.

Lemma handle_eq_refl k : handle_eq k k = true.
Proof. unfold handle_eq. destruct (listen k); by rewrite ?Z.eqb_refl. Qed.

Lemma height_good t : good t -> exists t', height t = (depth t, t') /\ stored t' = depth t' /\ good t' /\
  depth t' = depth t /\ entries t' = entries t /\ spine t' = spine t /\ (right_heavy t -> right_heavy t') /\
  (match t with Leaf => t' = Leaf | Node l k v h r => t' = Node l k v (depth t) r end).
Proof.
  destruct t as [|l k v h r]; [by exists Leaf|]. intros (Hl & Gl & Hr & Gr & ? & ?).
  exists (Node l k v (depth (Node l k v h r)) r). cbn [height depth stored]. rewrite Hl, Hr. done.
Qed.

Lemma height_again t : good t -> stored t = depth t -> height t = (depth t, t).
Proof. destruct t as [|l k v h r]; [done|]. intros (Hl & _ & Hr & _) [= ->]. cbn [height]. by rewrite Hl, Hr. Qed.

Lemma balanceFactor_good l k v h r : good l -> good r -> exists l' r',
  balanceFactor (Node l k v h r) = (Z.of_nat (depth r) - Z.of_nat (depth l), Node l' k v h r') /\
  stored l' = depth l' /\ good l' /\ depth l' = depth l /\ entries l' = entries l /\
  stored r' = depth r' /\ good r' /\ depth r' = depth r /\ entries r' = entries r /\ spine r' = spine r /\
  (right_heavy r -> right_heavy r') /\
  balanceFactor (Node l' k v h r') = (Z.of_nat (depth r) - Z.of_nat (depth l), Node l' k v h r').
Proof.
  intros Gl Gr. destruct (height_good l Gl) as (l' & El & Sl & Gl' & Dl & ? & ? & ? & _).
  destruct (height_good r Gr) as (r' & Er & Sr & Gr' & Dr & ? & ? & ? & _).
  exists l', r'. cbn [balanceFactor]. rewrite El, Er, (height_again l'), (height_again r'), Dl, Dr by done.
  split_and!; done || congruence.
Qed.

Lemma ascend_balanced fuel l k v h r : good l -> good r -> (depth l <= S (depth r))%nat -> (depth r <= S (depth l))%nat ->
  exists t, ascend (S fuel) (Node l k v h r) = Some t /\ good t /\ depth t = depth (Node l k v h r) /\
    entries t = entries (Node l k v h r) /\ spine t = spine (Node l k v h r) /\
    (depth r = S (depth l) -> right_heavy t).
Proof.
  intros Gl Gr H1 H2.
  destruct (balanceFactor_good l k v h r Gl Gr) as (l' & r' & Hb & ? & ? & Hl & El & ? & ? & Hr & Er & Sr & _ & _).
  exists (Node l' k v h r'). cbn [ascend]. rewrite Hb.
  rewrite (proj2 (Z.ltb_ge _ _)), (proj2 (Z.ltb_ge _ _)) by lia. cbn [orb good right_heavy depth entries spine].
  rewrite Hl, Hr, El, Er, Sr. split_and!; try done; lia.
Qed.

Lemma ascend_rotates fuel l k v h r : good l -> good r -> right_heavy r -> depth r = S (S (depth l)) ->
  exists t, ascend (S (S fuel)) (Node l k v h r) = Some t /\ good t /\ depth t = depth r /\
    entries t = entries l ++ (k, v) :: entries r /\ spine t = spine r.
Proof.
  intros Gl Gr Hh Hd.
  destruct (balanceFactor_good l k v h r Gl Gr) as (l' & r' & Hb & ? & Gl' & Hl & El & ? & Gr' & Hr & Er & Sr & Hh' & Hb').
  specialize (Hh' Hh). destruct r' as [|yl yk yv yh yr]; [done|]. cbn [right_heavy] in Hh'.
  destruct Gr' as (? & Gyl & ? & Gyr & _). cbn [depth] in Hr.
  destruct (balanceFactor_good yl yk yv yh yr Gyl Gyr) as (yl' & yr' & Hy & ? & ? & Dyl & Eyl & ? & ? & Dyr & Eyr & Syr & _ & _).
  destruct (ascend_balanced fuel (Node l' k v h yl') yk yv yh yr') as (t & Ha & ? & Ht & Et & St & _).
  { cbn [good]. split_and!; done || lia. } { done. } { cbn [depth]. lia. } { cbn [depth]. lia. }
  exists t. rewrite <- Ha. cbn [ascend]. rewrite Hb. split; [|cbn [depth entries spine] in *; split_and!; [done|lia| |]].
  - rewrite (proj2 (Z.ltb_ge _ _)), (proj2 (Z.ltb_lt _ _)) by lia. cbn [orb]. unfold rebalanceNode. rewrite Hb'.
    rewrite (proj2 (Z.ltb_ge _ _)), (proj2 (Z.ltb_lt _ _)) by lia. rewrite Hy.
    rewrite (proj2 (Z.ltb_ge _ _)) by lia. done.
  - rewrite Et, <- Er, El, Eyl, Eyr. by rewrite <- app_assoc.
  - by rewrite St, <- Sr, Syr.
Qed.

Lemma insert_node_good t key v : good t -> exists t', insert_node t key v = Some t' /\ good t' /\
  Permutation (entries t') ((key, v) :: entries t) /\
  (exists pre, spine t' = pre ++ [(key, v)] /\ incl pre (spine t)) /\
  (depth t' = depth t \/ (depth t' = S (depth t) /\ (t = Leaf \/ right_heavy t'))).
Proof.
  induction t as [|l _ k w h r IH]; intros G; cbn [insert_node].
  { eexists. split; [done|]. split_and!; [cbn; split_and!; try done; lia|done|exists []; split; [done|intros ? []]|right; split; [done|by left]]. }
  destruct G as (Hl & Gl & Hr & Gr & H1 & H2). destruct (IH Gr) as (r' & -> & Gr' & Hp & (pre & Hs & Hi) & Hd).
  cbn [handle_gt mbind option_bind].
  assert (Hperm : Permutation (entries l ++ (k, w) :: entries r') ((key, v) :: entries l ++ (k, w) :: entries r)).
  { rewrite Hp. etransitivity; [apply Permutation_app_head, perm_swap|]. symmetry. apply Permutation_middle. }
  destruct (Nat.leb_spec (depth r') (S (depth l))).
  - destruct (ascend_balanced 7 l k w h r') as (t' & Ha & ? & Dt & Et & St & Hh); [done|done|lia|lia|].
    exists t'. split; [exact Ha|]. split; [done|]. rewrite Et, St, Dt. cbn [entries spine depth]. rewrite Hs.
    split_and!; [done| |].
    + exists ((k, w) :: pre). split; [done|]. intros x [->|Hx]; [by left|right; by apply Hi].
    + destruct Hd as [->|[Hd _]]; [by left|]. rewrite Hd in *.
      destruct (Nat.eq_dec (depth r) (depth l)); [|left; lia]. right. split; [lia|]. right. apply Hh. lia.
  - destruct Hd as [?|[Hd Hh]]; [lia|]. destruct Hh as [->|Hh]; [cbn [depth] in *; lia|].
    destruct (ascend_rotates 6 l k w h r') as (t' & Ha & ? & Dt & Et & St); [done..|lia|].
    exists t'. split; [exact Ha|]. split; [done|]. rewrite Et, St, Dt. cbn [depth]. split_and!; [done| |left; lia].
    exists pre. split; [done|]. intros x Hx. right. by apply Hi.
Qed.

Lemma lookup_spine t key : lookup t key = snd <$> List.find (fun e => handle_eq (fst e) key) (spine t).
Proof.
  induction t as [|l _ k v h r IH]; [done|]. cbn [lookup spine List.find fst handle_gt].
  destruct (handle_eq k key); [done|exact IH].
Qed.

Lemma spine_entries t e : In e (spine t) -> In e (entries t).
Proof.
  induction t as [|l _ k v h r IH]; [done|]. cbn [spine entries]. intros [->|H]; apply in_or_app; right; [by left|right; by apply IH].
Qed.

Lemma lookup_sound t key v : lookup t key = Some v -> exists k, handle_eq k key = true /\ In (k, v) (entries t).
Proof.
  rewrite lookup_spine. destruct (List.find _ _) as [[k w]|] eqn:E; [|done]. intros [= ->].
  apply List.find_some in E as [E1 E2]. exists k. split; [done|by apply spine_entries].
Qed.

(** A table that was filled by [insert] alone. *)
Inductive filled : list (StateBlockHandle * V) -> tree V -> Prop :=
| filled_empty : filled [] Leaf
| filled_insert es t k v t' : filled es t -> lookup t k = None -> insert t k v = Some t' -> filled ((k, v) :: es) t'.

Lemma filled_good es t : filled es t -> good t /\ Permutation (entries t) es.
Proof.
  induction 1 as [|es t k v t' _ [G Hp] Hn Hi]; [done|]. unfold insert in Hi. rewrite Hn in Hi.
  destruct (insert_node_good t k v G) as (t1 & H1 & ? & Hq & _). rewrite Hi in H1. injection H1 as <-.
  split; [done|]. by rewrite Hq, Hp.
Qed.

(** C9. A new handle can always be inserted in a table of connections filled by
    insertions: no rotation fails, the table holds exactly what was inserted and is
    balanced, and the new handle is found with its own connection; what a look-up finds was
    inserted under an equal handle.  With at most two connections a look-up
    of the handle of either finds one.  (The comparison of handles is the code's, which sends every
    search to the right.) *)
Theorem handle_table_insert es t : filled es t ->
  balanced t /\
  (forall k v, lookup t k = None -> exists t', insert t k v = Some t' /\
     Permutation (entries t') ((k, v) :: es) /\ balanced t' /\ lookup t' k = Some v) /\
  (forall k v, lookup t k = Some v -> exists k', handle_eq k' k = true /\ In (k', v) es) /\
  ((length es <= 2)%nat -> forall k v, In (k, v) es -> exists v', lookup t k = Some v').
Proof.
  intros Hf. destruct (filled_good es t Hf) as [G Hp]. split; [by apply good_balanced|]. split_and!.
  - intros k v Hn. unfold insert. rewrite Hn.
    destruct (insert_node_good t k v G) as (t' & H1 & G' & Hq & (pre & Hs & Hi) & _).
    exists t'. split; [done|]. split; [by rewrite Hq, Hp|]. split; [by apply good_balanced|]. rewrite lookup_spine, Hs.
    rewrite lookup_spine in Hn. destruct (List.find _ (pre ++ _)) as [[k' v']|] eqn:E.
    + apply List.find_some in E as [E1 E2]. apply in_app_or in E1 as [E1|[[= <- <-]|[]]]; [|done].
      destruct (List.find _ (spine t)) eqn:E3; [done|].
      pose proof (List.find_none _ _ E3 _ (Hi _ E1)) as E4. congruence.
    + pose proof (List.find_none _ _ E (k, v) ltac:(apply in_or_app; right; by left)) as Hk.
      cbn [fst] in Hk. by rewrite handle_eq_refl in Hk.
  - intros k v Hk. destruct (lookup_sound t k v Hk) as (k' & ? & Hin). exists k'. split; [done|].
    eapply Permutation_in; [exact Hp|exact Hin].
  - intros Hl k v Hin. inversion Hf as [|l1 t1 k1 v1 ? Hf1 Hn1 Hi1]; subst; [done|].
    inversion Hf1 as [|l2 t2 k2 v2 ? Hf2 Hn2 Hi2]; subst.
    + injection Hi1 as <-. destruct Hin as [[= -> ->]|[]]. cbn [lookup]. rewrite handle_eq_refl. eauto.
    + destruct l2; [|cbn in Hl; lia]. inversion Hf2; subst. injection Hi2 as <-.
      unfold insert in Hi1. rewrite Hn1 in Hi1. injection Hi1 as <-. cbn [lookup handle_gt].
      destruct Hin as [[= -> ->]|[[= -> ->]|[]]]; rewrite ?handle_eq_refl; [|eauto].
      destruct (handle_eq k2 k); eauto.
Qed.
End Tree.

Definition connection (p : Z) : StateBlockHandle := mkHandle 80 p 0x0a000002 false.

Definition filled_with (ps : list Z) : option (tree Z) :=
  foldl (fun t p => t ← t; insert t (connection p) p) (Some Leaf) ps.

Lemma handle_table_insert_witness : exists t : tree Z,
  filled [(connection 2, 2); (connection 1, 1)] t /\
  exists t', insert t (connection 3) 3 = Some t' /\ lookup t' (connection 3) = Some 3.
Proof.
  assert (filled [(connection 1, 1)] (Node Leaf (connection 1) 1 0 Leaf)) as H1
    by (apply (filled_insert [] Leaf); [constructor|reflexivity..]).
  eexists. assert (filled [(connection 2, 2); (connection 1, 1)] _) as H2
    by (eapply filled_insert; [exact H1|reflexivity|vm_compute; reflexivity]).
  split; [exact H2|]. destruct (handle_table_insert _ _ H2) as (_ & H3 & _).
  destruct (H3 (connection 3) 3 eq_refl) as (t' & Hi & _ & _ & Hl). exists t'. split; [exact Hi|exact Hl].
Defined.

(** The third connection makes the first one unreachable. *)
Example third_hides_first :
  (t ← filled_with [1; 2; 3]; mret (lookup t (connection 1), entries t)) =
  Some (None, [(connection 1, 1); (connection 2, 2); (connection 3, 3)]).
Proof. vm_compute. reflexivity. Qed.

(** The second of two connections is not removed. *)
Example second_not_removed :
  (t ← filled_with [1; 2]; t ← remove t (connection 2); mret (lookup t (connection 2))) = Some (Some 2).
Proof. vm_compute. reflexivity. Qed.
