(* ===== verification/Tcp.v ===== *)
(** * TCP connections: StateBlock and TcpEndpoint

    [src/modules/system/network-stack]: the state block of a connection
    ([TcpStateBlock.h]), what an endpoint does for it ([TcpEndpoint.cc]), and the
    part of [TcpManager::receive] ([TcpManagerReceive.cc]) that works on one
    block.  An operation runs on the block, the endpoints and the packets handed
    to the network so far.  [None] is a dereference of null, a copy past the end
    of an array, or a loop that does not end.

    [route] says whether [Tcp::send] finds a card and transmits a packet; the
    sockets that are told of a change are not modelled; new memory holds
    [garbage] and is never exhausted. *)
From Stdlib Require Import ZArith Lia List Bool.
From stdpp Require Import base gmap list.
From S2P Require Import Prelude TcpBuffer TcpTree.
Import ListNotations.
Local Open Scope Z_scope.
Local Open Scope err_scope.

(** ** Data *)

Inductive TcpState :=
| IGNORED | LISTEN | SYN_SENT | SYN_RECEIVED | ESTABLISHED | FIN_WAIT_1 | FIN_WAIT_2
| CLOSE_WAIT | CLOSING | LAST_ACK | TIME_WAIT | CLOSED | UNKNOWN.

#[export] Instance TcpState_eq_dec : EqDecision TcpState.
Proof. solve_decision. Defined.

Definition FIN : Z := 1.
Definition SYN : Z := 2.
Definition RST : Z := 4.
Definition PSH : Z := 8.
Definition ACK : Z := 16.

Definition flag (f flags : Z) : bool := negb (Z.land flags f =? 0).

(** The [uint32_t] members of a state block. *)
Inductive Var :=
| iss | snd_nxt | snd_una | snd_wnd | snd_up | snd_wl1 | snd_wl2
| rcv_nxt | rcv_wnd | rcv_up | irs
| seg_seq | seg_ack | seg_len | seg_wnd | seg_up | seg_prc
| fin_seq | tcp_mss | numEndpointPackets.

#[export] Instance Var_eq_dec : EqDecision Var.
Proof. solve_decision. Defined.

Record Segment := mkSegment {
  sg_seq : Z; sg_ack : Z; sg_len : Z; sg_wnd : Z; sg_up : Z; sg_flags : Z;
  sg_payload : option (list Z); sg_nBytes : Z
}.

Record StateBlock := mkStateBlock {
  currentState : TcpState;
  sb_localPort : Z; sb_remotePort : Z; sb_remoteHost : Z;
  var : Var -> Z;
  fin_ack : bool;
  waitState : Z;
  endpoint : option nat;
  connId : Z;
  retransmitQueue : list Segment;
  waitingForTimeout : bool; didTimeout : bool; timeoutWait : Z;
  m_Nanoseconds : Z; m_Seconds : Z; m_Timeout : Z
}.

Definition new_block : StateBlock :=
  mkStateBlock CLOSED 0 0 0 (fun x => if decide (x = tcp_mss) then 536 else 0) false 0 None 0 []
               false false 0 0 0 10.

Record TcpEndpoint := mkTcpEndpoint {
  m_ConnId : Z; ep_localPort : Z; ep_remotePort : Z; ep_remoteHost : Z;
  m_IncomingConnections : list nat; m_IncomingConnectionCount : Z;
  m_DataStream : TcpBuffer; m_ShadowDataStream : TcpBuffer
}.

(** What [Tcp::send] is given. *)
Record Packet := mkPacket {
  dest : Z; srcPort : Z; destPort : Z; seqNumber : Z; ackNumber : Z; flags : Z; window : Z; data : list Z
}.

(** A segment that arrives: [options] are the bytes from the twentieth on, of the
    header, the payload and what lies behind them in the buffer. *)
Record Arrival := mkArrival {
  from : Z; sourcePort : Z; toPort : Z;
  seqnum : Z; acknum : Z; offset : Z; hflags : Z; winsize : Z; urgptr : Z;
  options : nat -> Z; payload : list Z
}.

Record Conn := mkConn {
  block : StateBlock; endpoints : gmap nat TcpEndpoint; nextPointer : nat; sent : list Packet
}.

Definition Op (A : Type) : Type := StateE Conn A.

(** ** Members *)

Definition on_block (f : StateBlock -> StateBlock) (c : Conn) : Conn :=
  mkConn (f (block c)) (endpoints c) (nextPointer c) (sent c).

Definition put_state (v : TcpState) (b : StateBlock) : StateBlock :=
  mkStateBlock v (sb_localPort b) (sb_remotePort b) (sb_remoteHost b) (var b) (fin_ack b) (waitState b) (endpoint b)
    (connId b) (retransmitQueue b) (waitingForTimeout b) (didTimeout b) (timeoutWait b)
    (m_Nanoseconds b) (m_Seconds b) (m_Timeout b).

Definition put_var (x : Var) (v : Z) (b : StateBlock) : StateBlock :=
  mkStateBlock (currentState b) (sb_localPort b) (sb_remotePort b) (sb_remoteHost b)
    (fun y => if decide (y = x) then wrap 32 v else var b y) (fin_ack b) (waitState b) (endpoint b)
    (connId b) (retransmitQueue b) (waitingForTimeout b) (didTimeout b) (timeoutWait b)
    (m_Nanoseconds b) (m_Seconds b) (m_Timeout b).

Definition put_fin_ack (v : bool) (b : StateBlock) : StateBlock :=
  mkStateBlock (currentState b) (sb_localPort b) (sb_remotePort b) (sb_remoteHost b) (var b) v (waitState b) (endpoint b)
    (connId b) (retransmitQueue b) (waitingForTimeout b) (didTimeout b) (timeoutWait b)
    (m_Nanoseconds b) (m_Seconds b) (m_Timeout b).

Definition put_wait (v : Z) (b : StateBlock) : StateBlock :=
  mkStateBlock (currentState b) (sb_localPort b) (sb_remotePort b) (sb_remoteHost b) (var b) (fin_ack b) v (endpoint b)
    (connId b) (retransmitQueue b) (waitingForTimeout b) (didTimeout b) (timeoutWait b)
    (m_Nanoseconds b) (m_Seconds b) (m_Timeout b).

Definition put_endpoint (v : option nat) (b : StateBlock) : StateBlock :=
  mkStateBlock (currentState b) (sb_localPort b) (sb_remotePort b) (sb_remoteHost b) (var b) (fin_ack b) (waitState b) v
    (connId b) (retransmitQueue b) (waitingForTimeout b) (didTimeout b) (timeoutWait b)
    (m_Nanoseconds b) (m_Seconds b) (m_Timeout b).

Definition put_queue (v : list Segment) (b : StateBlock) : StateBlock :=
  mkStateBlock (currentState b) (sb_localPort b) (sb_remotePort b) (sb_remoteHost b) (var b) (fin_ack b) (waitState b)
    (endpoint b) (connId b) v (waitingForTimeout b) (didTimeout b) (timeoutWait b)
    (m_Nanoseconds b) (m_Seconds b) (m_Timeout b).

Definition put_waiting (v : bool) (b : StateBlock) : StateBlock :=
  mkStateBlock (currentState b) (sb_localPort b) (sb_remotePort b) (sb_remoteHost b) (var b) (fin_ack b) (waitState b)
    (endpoint b) (connId b) (retransmitQueue b) v (didTimeout b) (timeoutWait b)
    (m_Nanoseconds b) (m_Seconds b) (m_Timeout b).

(** The members of the timer. *)
Definition put_timer (did : bool) (wait ns s t : Z) (b : StateBlock) : StateBlock :=
  mkStateBlock (currentState b) (sb_localPort b) (sb_remotePort b) (sb_remoteHost b) (var b) (fin_ack b) (waitState b)
    (endpoint b) (connId b) (retransmitQueue b) (waitingForTimeout b) did wait ns s t.

Definition get (x : Var) : Op Z := b <- egets block ;; eret (var b x).
Definition set (x : Var) (v : Z) : Op unit := emodify (on_block (put_var x v)).
Definition state : Op TcpState := b <- egets block ;; eret (currentState b).
Definition set_state (v : TcpState) : Op unit := emodify (on_block (put_state v)).
Definition is_state (v : TcpState) : Op bool := s <- state ;; eret (bool_decide (s = v)).

(** [stateBlock->endpoint->...]. *)
Definition the_endpoint : Op (nat * TcpEndpoint) :=
  c <- egets id ;;
  match endpoint (block c) with
  | None => efail
  | Some p => e <- elift (endpoints c !! p) ;; eret (p, e)
  end.

Definition put_ep (p : nat) (e : TcpEndpoint) (c : Conn) : Conn :=
  mkConn (block c) (<[p := e]> (endpoints c)) (nextPointer c) (sent c).

Section Tcp.
Context (route : Packet -> bool) (garbage : nat -> Z).

(** ** The network *)

Definition Tcp_send (dest src dst seq ack fl wnd : Z) (bytes : list Z) : Op bool :=
  let p := mkPacket dest src dst (wrap 32 seq) (wrap 32 ack) (wrap 8 fl) (wrap 16 wnd) bytes in
  if route p
  then emodify (fun c => mkConn (block c) (endpoints c) (nextPointer c) (sent c ++ [p])) ;; eret true
  else eret false.

(** ** Endpoints *)

(** A call of a method of one of the streams of an endpoint. *)
Definition on_stream {A} (e : TcpEndpoint) (shadow : bool) (m : TcpBuffer.Op A) : Op (A * TcpEndpoint) :=
  r <- elift (m (if shadow then m_ShadowDataStream e else m_DataStream e)) ;;
  let (a, s) := r : A * TcpBuffer in
  eret (a, mkTcpEndpoint (m_ConnId e) (ep_localPort e) (ep_remotePort e) (ep_remoteHost e)
             (m_IncomingConnections e) (m_IncomingConnectionCount e)
             (if shadow then m_DataStream e else s) (if shadow then s else m_ShadowDataStream e)).

Definition remaining (e : TcpEndpoint) : Z := Z.of_nat (getRemainingSize (m_ShadowDataStream e)).

(** [depositPayload], the payload being null or given with its length. *)
Definition deposit (e : TcpEndpoint) (payload : option (list Z)) (push : bool) : Op (Z * TcpEndpoint) :=
  let nBytes := match payload with Some l => Z.of_nat (length l) | None => 0 end in
  if 0xFFFF <? nBytes then eret (0, e)
  else
    r <- (match payload with
          | Some l => if nBytes =? 0 then eret (0%nat, e) else on_stream e true (TcpBuffer.write l)
          | None => eret (0%nat, e)
          end) ;;
    let (ret, e) := r : nat * TcpEndpoint in
    let sz := getDataSize (m_ShadowDataStream e) in
    if push && negb (sz =? 0)%nat then
      r <- on_stream e true getSize ;;
      let (size, e) := r : nat * TcpEndpoint in
      if (size <? sz)%nat then eret (0, e)
      else
        r <- on_stream e true (TcpBuffer.read sz false) ;;
        let (buff, e) := r : list Z * TcpEndpoint in
        r <- on_stream e false (TcpBuffer.write buff) ;;
        eret (Z.of_nat ret, snd r)
    else eret (Z.of_nat ret, e).

Definition depositPayload (payload : option (list Z)) (push : bool) : Op Z :=
  pe <- the_endpoint ;;
  let (p, e) := pe : nat * TcpEndpoint in
  r <- deposit e payload push ;;
  emodify (put_ep p (snd r)) ;; eret (fst r).

(** [new TcpEndpoint(connId, remoteIp, local, remote)]. *)
Definition new_endpoint (id host local remote : Z) : Op nat :=
  s <- elift (construct garbage) ;;
  c <- egets (fun c => c) ;;
  let e := mkTcpEndpoint id local remote host [] 0 s s in
  emodify (fun c => mkConn (block c) (<[nextPointer c := e]> (endpoints c)) (S (nextPointer c)) (sent c)) ;;
  eret (nextPointer c).

Definition addIncomingConnection (parent conn : nat) : Op unit :=
  c <- egets (fun c => c) ;;
  e <- elift (endpoints c !! parent) ;;
  emodify (put_ep parent (mkTcpEndpoint (m_ConnId e) (ep_localPort e) (ep_remotePort e) (ep_remoteHost e)
    (m_IncomingConnections e ++ [conn]) (m_IncomingConnectionCount e + 1) (m_DataStream e) (m_ShadowDataStream e))).

(** ** StateBlock *)

Definition resetTimer (timeout : Z) : Op unit :=
  emodify (on_block (fun b => put_timer false (timeoutWait b) 0 0 timeout b)).

(** The queue after an acknowledgement of [segAck]; [None] is the copy of a payload
    into an array that is too small. *)
Fixpoint ack_queue (segAck : Z) (q : list Segment) : option (list Segment) :=
  match q with
  | [] => Some []
  | seg :: q' =>
      if wrap 32 (sg_seq seg + sg_len seg) <=? segAck then ack_queue segAck q'
      else if sg_seq seg <=? segAck then
        let nBytesAcked := segAck - sg_seq seg in
        let len := wrap 32 (sg_len seg - nBytesAcked) in
        payload ← match sg_payload seg with
                  | Some l => if sg_nBytes seg =? 0 then Some (Some l)
                              else if len <? sg_nBytes seg then None else Some (Some l)
                  | None => Some None
                  end;
        Some (mkSegment (wrap 32 (sg_seq seg + nBytesAcked)) (sg_ack seg) len (sg_wnd seg) (sg_up seg)
                        (sg_flags seg) payload (sg_nBytes seg) :: q')
      else ack_queue segAck q'
  end.

Definition ackSegment : Op unit :=
  segAck <- get seg_ack ;;
  b <- egets block ;;
  q <- elift (ack_queue segAck (retransmitQueue b)) ;;
  emodify (on_block (put_queue q)).

(** [sendSegment] of one segment. *)
Definition send_one (seg : Segment) : Op bool :=
  b <- egets block ;;
  Tcp_send (sb_remoteHost b) (sb_localPort b) (sb_remotePort b) (sg_seq seg)
    (if flag ACK (sg_flags seg) then sg_ack seg else 0) (sg_flags seg) (sg_wnd seg)
    (match sg_payload seg with Some l => take (Z.to_nat (sg_nBytes seg)) l | None => [] end).

(** The loop of [sendSegment(flags, nBytes, payload, addToRetransmitQueue)] from
    [offset] on; [nBytes] is the length of [bytes]. *)
Fixpoint send_loop (fuel : nat) (fl : Z) (bytes : list Z) (offset : Z) (addToRetransmitQueue : bool) : Op unit :=
  match fuel with
  | O => efail
  | S fuel' =>
      let nBytes := Z.of_nat (length bytes) in
      if offset <? (if nBytes =? 0 then 1 else nBytes) then
        mss <- get tcp_mss ;;
        let last := nBytes <=? offset + mss in
        let segmentSize := if last then nBytes - offset else mss in
        let fl := if last && negb (nBytes =? 0) then Z.lor fl PSH else fl in
        nxt <- get snd_nxt ;;
        set seg_seq nxt ;;
        set snd_nxt (nxt + segmentSize) ;;
        pe <- the_endpoint ;;
        set snd_wnd (remaining (snd pe)) ;;
        wnd <- get snd_wnd ;; seq <- get seg_seq ;; ack <- get rcv_nxt ;;
        let seg := mkSegment seq ack (wrap 32 segmentSize) wnd 0 fl
                     (if nBytes =? 0 then None else Some (take (Z.to_nat segmentSize) (drop (Z.to_nat offset) bytes)))
                     (wrap 32 segmentSize) in
        _ <- send_one seg ;;
        ewhen addToRetransmitQueue
          (emodify (on_block (fun b =>
             put_queue (retransmitQueue b ++ [if flag ACK fl then seg
               else mkSegment seq 0 (sg_len seg) wnd 0 fl (sg_payload seg) (sg_nBytes seg)]) b))) ;;
        send_loop fuel' fl bytes (offset + mss) addToRetransmitQueue
      else eret tt
  end.

Definition sendSegment (fl : Z) (bytes : list Z) (addToRetransmitQueue : bool) : Op unit :=
  send_loop (length bytes + 2) fl bytes 0 addToRetransmitQueue.

(** [timer]; the result says whether the thread that frees the block is started. *)
Definition timer (delta : Z) : Op bool :=
  b <- egets block ;;
  if negb (waitingForTimeout b) then eret false
  else if m_Timeout b <=? m_Seconds b then eret false
  else
    let ns := wrap 64 (m_Nanoseconds b + delta) in
    let '(ns, s) := if 1000000000 <=? ns then (ns - 1000000000, m_Seconds b + 1) else (ns, m_Seconds b) in
    emodify (on_block (fun b => put_timer (didTimeout b) (timeoutWait b) ns s (m_Timeout b) b)) ;;
    if s <? m_Timeout b then eret false
    else
      emodify (on_block (fun b => put_waiting false (put_timer true (timeoutWait b + 1) ns s (m_Timeout b) b))) ;;
      match retransmitQueue b with
      | seg :: _ => _ <- send_one seg ;; resetTimer 10 ;; eret false
      | [] =>
          if decide (currentState b = TIME_WAIT) then set_state CLOSED ;; eret true else eret false
      end.

(** ** A segment arrives *)

(** The loop over the options. *)
Fixpoint parse_options (fuel : nat) (opts : nat -> Z) (headerLength offset : nat) (mss : Z) : option Z :=
  match fuel with
  | O => None
  | S fuel' =>
      let at_ k := opts (offset - 20 + k)%nat in
      if negb (at_ 0%nat =? 0) && (offset <? headerLength)%nat then
        let len := if at_ 0%nat =? 1 then 1 else at_ 1%nat in
        let mss := if at_ 0%nat =? 2 then at_ 2%nat * 256 + at_ 3%nat else mss in
        parse_options fuel' opts headerLength (offset + Z.to_nat len) mss
      else Some mss
  end.

Definition read_mss (a : Arrival) (mss : Z) : option Z :=
  let headerLength := Z.to_nat (offset a * 4) in
  if flag SYN (hflags a) && (20 <? headerLength)%nat
  then parse_options (S headerLength) (options a) headerLength 20 mss else Some mss.

(** Fill in the current segment, parse the options. *)
Definition fill_segment (a : Arrival) : Op Z :=
  set seg_seq (seqnum a) ;; set seg_ack (acknum a) ;; set seg_len (Z.of_nat (length (payload a))) ;;
  set seg_wnd (winsize a) ;; set seg_up (urgptr a) ;; set seg_prc 0 ;;
  w <- get seg_wnd ;; set rcv_wnd w ;;
  b <- egets block ;;
  match endpoint b with
  | Some _ => pe <- the_endpoint ;; set snd_wnd (remaining (snd pe))
  | None => eret tt
  end ;;
  mss <- get tcp_mss ;; mss <- elift (read_mss a mss) ;;
  emodify (on_block (put_fin_ack false)) ;;
  eret mss.

(** [Tcp::send(from, handle.localPort, handle.remotePort, ...)]. *)
Definition reply (a : Arrival) (seq ack fl wnd : Z) : Op bool :=
  Tcp_send (from a) (toPort a) (sourcePort a) seq ack fl wnd [].

(** An acknowledgement with the expected sequence number. *)
Definition reply_ack (a : Arrival) (fl : Z) : Op bool :=
  seq <- get snd_nxt ;; ack <- get rcv_nxt ;; wnd <- get snd_wnd ;; reply a seq ack fl wnd.

Definition closed_case (a : Arrival) : Op unit :=
  if flag RST (hflags a) then eret tt
  else
    _ <- (if flag ACK (hflags a) then reply a (acknum a) 0 RST 0
          else reply a 0 (seqnum a + 1) (Z.lor RST ACK) 0) ;;
    eret tt.

Definition syn_sent_case (a : Arrival) (mss : Z) : Op unit :=
  b <- egets block ;;
  let v := var b in
  let rst := flag RST (hflags a) in let ack := flag ACK (hflags a) in let syn := flag SYN (hflags a) in
  if ack && ((v seg_ack <=? v iss) || (v snd_nxt <? v seg_ack)) && negb rst
  then _ <- reply a (v seg_ack) 0 RST 0 ;; eret tt
  else if ack && negb ((v snd_una <=? v seg_ack) && (v seg_ack <=? v snd_nxt)) then eret tt
  else if rst && ack then set_state CLOSED
  else if syn && ack then
    set rcv_nxt (v seg_seq + 1) ;; set irs (v seg_seq) ;; set snd_una (v seg_ack) ;;
    una <- get snd_una ;;
    if v iss <? una then
      set_state ESTABLISHED ;; set tcp_mss mss ;; _ <- reply_ack a ACK ;; eret tt
    else
      set_state SYN_RECEIVED ;;
      nxt <- get rcv_nxt ;; _ <- reply a (v iss) nxt (Z.lor SYN ACK) (v snd_wnd) ;; eret tt
  else eret tt.

(** The four tests of RFC 793, page 69, as the code has them. *)
Definition acceptable (v : Var -> Z) : bool :=
  let limit := wrap 32 (v rcv_nxt + v rcv_wnd) in
  let inside x := (v rcv_nxt <=? x) && (x <? limit) in
  if v seg_len =? 0 then if v rcv_wnd =? 0 then v seg_seq =? v rcv_nxt else inside (v seg_seq)
  else if v rcv_wnd =? 0 then false
  else inside (v seg_seq) || inside (wrap 32 (v seg_seq + v seg_len - 1)).

(** The cases ESTABLISHED to CLOSING of the acknowledgement; the result is
    [alreadyAck]. *)
Definition acknowledged (a : Arrival) : Op bool :=
  una <- get snd_una ;; ack <- get seg_ack ;;
  if ack <? una then eret false
  else
    st <- state ;;
    (if bool_decide (st = ESTABLISHED) && flag FIN (hflags a) then set_state CLOSE_WAIT else eret tt) ;;
    (if bool_decide (st = FIN_WAIT_1) && (Z.land (hflags a) (Z.lor FIN ACK) =? FIN) then set_state CLOSING else eret tt) ;;
    nxt <- get snd_nxt ;;
    ewhen ((una <? ack) && (ack <=? nxt)) (set snd_una ack) ;;
    resetTimer 10 ;;
    una <- get snd_una ;;
    ewhen (nxt <=? una) (emodify (on_block (put_waiting false))) ;;
    if nxt <? ack then
      seq <- get seg_seq ;; wnd <- get snd_wnd ;; reply a nxt seq ACK wnd
    else
      b <- egets block ;;
      let v := var b in
      ewhen ((v snd_una <? v seg_ack) && (v seg_ack <=? v snd_nxt) &&
             ((v snd_wl1 <? v seg_seq) || ((v snd_wl1 =? v seg_seq) && (v snd_wl2 <=? v seg_ack))))
        (set snd_wnd (v seg_wnd) ;; set snd_wl1 (v seg_seq) ;; set snd_wl2 (v seg_ack)) ;;
      (if v fin_seq <=? v seg_ack then
         match currentState b with
         | FIN_WAIT_1 | FIN_WAIT_2 => set_state FIN_WAIT_2 ;; emodify (on_block (put_fin_ack true))
         | CLOSING | LAST_ACK => set_state CLOSED ;; emodify (on_block (put_fin_ack true))
         | _ => eret tt
         end
       else eret tt) ;;
      eret false.

(** How a case ends: with the rest of the function, at the end of the switch, or
    with a return. *)
Inductive Flow := Go (alreadyAck : bool) | Break | Return.

(** The switch for segments with ACK. *)
Definition ack_case (a : Arrival) : Op Flow :=
  ackSegment ;;
  st <- state ;;
  r <- match st with
       | SYN_RECEIVED =>
           b <- egets block ;;
           let v := var b in
           if negb ((v snd_una <=? v seg_ack) && (v seg_ack <=? v snd_nxt))
           then _ <- reply a (v seg_ack) 0 RST 0 ;; eret (Go false)
           else
             match endpoint b with
             | None => eret Return
             | Some parent =>
                 e <- new_endpoint (connId b) (from a) (sb_localPort b) (sb_remotePort b) ;;
                 emodify (on_block (put_endpoint (Some e))) ;;
                 set_state ESTABLISHED ;;
                 addIncomingConnection parent e ;;
                 already <- acknowledged a ;; eret (Go already)
             end
       | ESTABLISHED | FIN_WAIT_1 | FIN_WAIT_2 | CLOSE_WAIT | CLOSING =>
           already <- acknowledged a ;; eret (Go already)
       | LAST_ACK =>
           fin <- get fin_seq ;; ack <- get seg_ack ;;
           ewhen (wrap 32 (fin + 1) =? ack) (set_state CLOSED ;; emodify (on_block (put_fin_ack true))) ;;
           eret (Go false)
       | TIME_WAIT => resetTimer 120 ;; emodify (on_block (put_waiting true)) ;; eret (Go false)
       | _ => eret (Go false)
       end ;;
  match r with
  | Go already => closed <- is_state CLOSED ;; eret (if closed : bool then Break else Go already)
  | _ => eret r
  end.

(** The payload; the result is [alreadyAck]. *)
Definition payload_case (a : Arrival) (already : bool) : Op bool :=
  b <- egets block ;;
  let v := var b in
  match currentState b with
  | ESTABLISHED | FIN_WAIT_1 | FIN_WAIT_2 =>
      if negb (v seg_seq =? v rcv_nxt) then ok <- reply_ack a ACK ;; eret (ok || already)
      else if v seg_len =? 0 then eret already
      else
        already <- match endpoint b with
        | None => eret already
        | Some _ =>
            pe <- the_endpoint ;;
            ewhen (remaining (snd pe) <? v seg_len) (set seg_len (remaining (snd pe))) ;;
            len <- get seg_len ;;
            winChange <- depositPayload (Some (take (Z.to_nat len) (payload a))) (flag PSH (hflags a)) ;;
            set rcv_nxt (v rcv_nxt + winChange) ;;
            wnd <- get rcv_wnd ;;
            let winChange := if wnd <? winChange then wnd else winChange in
            w <- get snd_wnd ;; set snd_wnd (w - winChange) ;;
            ok <- reply_ack a ACK ;; eret (ok || already)
        end ;;
        n <- get numEndpointPackets ;; set numEndpointPackets (n + 1) ;;
        eret already
  | _ => eret already
  end.

Definition wait_2msl : Op unit := resetTimer 120 ;; emodify (on_block (put_waiting true)).

Definition fin_case (a : Arrival) (already : bool) : Op unit :=
  st <- state ;;
  match st with
  | CLOSED | LISTEN | SYN_SENT | TIME_WAIT => eret tt
  | _ =>
      b <- egets block ;;
      match endpoint b with
      | Some _ => _ <- depositPayload None true ;; eret tt
      | None => eret tt
      end ;;
      seq <- get seg_seq ;; set rcv_nxt (seq + 1) ;;
      (if already then eret tt else _ <- reply_ack a ACK ;; eret tt) ;;
      match st with
      | SYN_RECEIVED | ESTABLISHED => set_state CLOSE_WAIT
      | FIN_WAIT_1 =>
          b <- egets block ;;
          if fin_ack b then set_state TIME_WAIT ;; wait_2msl else set_state CLOSING
      | FIN_WAIT_2 => set_state TIME_WAIT ;; wait_2msl
      | _ => eret tt
      end
  end.

(** The states from SYN_RECEIVED to LAST_ACK; the result says whether the function
    goes on behind the switch. *)
Definition synchronized_case (a : Arrival) : Op bool :=
  b <- egets block ;;
  if flag SYN (hflags a) then _ <- reply_ack a (Z.lor ACK RST) ;; eret true
  else if negb (acceptable (var b)) then _ <- reply_ack a ACK ;; eret true
  else if flag RST (hflags a) then set_state CLOSED ;; eret true
  else
    flow <- (if flag ACK (hflags a) then ack_case a else eret (Go false)) ;;
    match flow with
    | Return => eret false
    | Break => eret true
    | Go already =>
        already <- payload_case a already ;;
        ewhen (flag FIN (hflags a)) (fin_case a already) ;;
        eret true
    end.

(** After the switch: tell the endpoint and who waits for a change. *)
Definition state_changed (oldState : TcpState) : Op unit :=
  st <- state ;;
  if decide (oldState = st) then eret tt
  else _ <- the_endpoint ;; emodify (on_block (fun b => put_wait (waitState b + 1) b)).

(** [receive] from the moment it has the block; a segment for LISTEN is left to
    the manager. *)
Definition segment_arrives (a : Arrival) : Op (bool * Z) :=
  mss <- fill_segment a ;;
  oldState <- state ;;
  go <- match oldState with
        | CLOSED => closed_case a ;; eret false
        | SYN_SENT => syn_sent_case a mss ;; eret true
        | SYN_RECEIVED | ESTABLISHED | FIN_WAIT_1 | FIN_WAIT_2 | CLOSE_WAIT | CLOSING | LAST_ACK => synchronized_case a
        | TIME_WAIT => wait_2msl ;; eret true
        | _ => eret true
        end ;;
  ewhen go (state_changed oldState) ;;
  eret (go, mss).

(** ** What the user asks of a connection *)

(** The body of [Shutdown], and of [Disconnect] for these states. *)
Definition close_sending : Op unit :=
  st <- state ;;
  let finish s :=
    nxt <- get snd_nxt ;; set fin_seq nxt ;; set_state s ;; set seg_wnd 0 ;;
    sendSegment (Z.lor FIN ACK) [] true ;;
    nxt <- get snd_nxt ;; set snd_nxt (nxt + 1) in
  match st with
  | ESTABLISHED => finish FIN_WAIT_1
  | CLOSE_WAIT => finish LAST_ACK
  | _ => eret tt
  end.

(** The body of [TcpManager::send]. *)
Definition send_data (bytes : list Z) (push : bool) : Op Z :=
  st <- state ;;
  match bytes, st with
  | [], _ => eret (-1)
  | _, ESTABLISHED | _, CLOSE_WAIT =>
      sendSegment (if push then Z.lor ACK PSH else ACK) bytes true ;; eret (Z.of_nat (length bytes))
  | _, _ => eret (-1)
  end.

(** The read of [TcpEndpoint::recv] when data is ready. *)
Definition recv (maxSize : nat) (bPeek : bool) : Op (list Z) :=
  pe <- the_endpoint ;;
  let (p, e) := pe : nat * TcpEndpoint in
  r <- on_stream e false (TcpBuffer.read maxSize bPeek) ;;
  emodify (put_ep p (snd r)) ;; eret (fst r).

End Tcp.
