(* ===== verification/TcpManager.v ===== *)
(** * The TCP manager: connections, ports and the entry point for segments

    [src/modules/system/network-stack/TcpManager.h], [TcpManager.cc] and the rest
    of [TcpManagerReceive.cc]: state blocks behind pointers, the tables of
    connections, the mutex.  [None] is also the second acquisition of the mutex by
    the thread that has it and the use of a block that was deleted.  The ports in use
    are kept in two [ExtensibleBitmap]s, of 32 bits a word.  The map from connection ids
    is the finite map of the AVL tree. *)
From Stdlib Require Import ZArith Lia List Bool.
From stdpp Require Import base gmap list.
From S2P Require Import Prelude Bitmap TcpBuffer TcpTree Tcp.
Import ListNotations.
Local Open Scope Z_scope.
Local Open Scope err_scope.

Definition BASE_EPHEMERAL_PORT : Z := 32768.

Record TcpManager := mkTcpManager {
  m_NextTcpSequence : Z; m_NextConnId : Z;
  m_StateBlocks : tree nat; m_ListeningStateBlocks : tree nat;
  m_CurrentConnections : gmap Z StateBlockHandle;
  m_ListenPorts : ExtensibleBitmap; m_EphemeralPorts : ExtensibleBitmap;
  m_TcpMutex : bool;
  m_ManagerNanoseconds : Z;
  blocks : gmap nat StateBlock;
  all_endpoints : gmap nat TcpEndpoint; next_pointer : nat; network : list Packet
}.

(** The loop of the constructor, [m_EphemeralPorts.set(n)] for every [n] below [k], and
    what it leaves for [BASE_EPHEMERAL_PORT] (proved in [TcpRuns]). *)
Definition set_port (n : Z) : Bitmap.Op unit := fun b => Bitmap.set 32 (loop_fuel b) n b.

Fixpoint mark_ports (k : nat) : Bitmap.Op unit :=
  match k with O => eret tt | S k' => mark_ports k' ;; set_port (Z.of_nat k') end.

Definition marked_ports : ExtensibleBitmap :=
  mkBitmap 0xFFFFFFFF (Some (replicate 4092 0xFF ++ replicate 4 0)) 4096 32735 0 32768 32767 0.

Definition new_manager : TcpManager :=
  mkTcpManager 1 1 Leaf Leaf ∅ empty_bitmap marked_ports false 0 ∅ ∅ 1 [].

Definition MOp (A : Type) : Type := StateE TcpManager A.

Definition put_tables (sb lb : tree nat) (cc : gmap Z StateBlockHandle) (bs : gmap nat StateBlock) (m : TcpManager) :=
  mkTcpManager (m_NextTcpSequence m) (m_NextConnId m) sb lb cc (m_ListenPorts m) (m_EphemeralPorts m)
    (m_TcpMutex m) (m_ManagerNanoseconds m) bs (all_endpoints m) (next_pointer m) (network m).

Definition put_numbers (s c : Z) (lp ep : ExtensibleBitmap) (ns : Z) (m : TcpManager) :=
  mkTcpManager s c (m_StateBlocks m) (m_ListeningStateBlocks m) (m_CurrentConnections m) lp ep
    (m_TcpMutex m) ns (blocks m) (all_endpoints m) (next_pointer m) (network m).

Definition put_mutex (b : bool) (m : TcpManager) :=
  mkTcpManager (m_NextTcpSequence m) (m_NextConnId m) (m_StateBlocks m) (m_ListeningStateBlocks m)
    (m_CurrentConnections m) (m_ListenPorts m) (m_EphemeralPorts m) b (m_ManagerNanoseconds m)
    (blocks m) (all_endpoints m) (next_pointer m) (network m).

Definition put_blocks (bs : gmap nat StateBlock) (m : TcpManager) : TcpManager :=
  put_tables (m_StateBlocks m) (m_ListeningStateBlocks m) (m_CurrentConnections m) bs m.

Definition the : MOp TcpManager := egets (fun m => m).

(** [LockGuard<Mutex> guard(m_TcpMutex)]. *)
Definition acquire : MOp unit := m <- the ;; if m_TcpMutex m then efail else emodify (put_mutex true).
Definition release : MOp unit := emodify (put_mutex false).
Definition guarded {A} (x : MOp A) : MOp A := acquire ;; a <- x ;; release ;; eret a.

(** An operation on a block, [b], the endpoints and the network. *)
Definition on_conn {A} (b : StateBlock) (x : Op A) : MOp (A * StateBlock) :=
  fun m =>
    match x (mkConn b (all_endpoints m) (next_pointer m) (network m)) with
    | None => None
    | Some (a, c) =>
        Some ((a, block c),
              mkTcpManager (m_NextTcpSequence m) (m_NextConnId m) (m_StateBlocks m) (m_ListeningStateBlocks m)
                (m_CurrentConnections m) (m_ListenPorts m) (m_EphemeralPorts m) (m_TcpMutex m)
                (m_ManagerNanoseconds m) (blocks m) (endpoints c) (nextPointer c) (sent c))
    end.

Definition on_pointer {A} (p : nat) (x : Op A) : MOp A :=
  m <- the ;; b <- elift (blocks m !! p) ;;
  r <- on_conn b x ;;
  m <- the ;; emodify (put_blocks (<[p := snd r]> (blocks m))) ;; eret (fst r).

(** [new StateBlock], with its members filled in. *)
Definition add_block (b : StateBlock) : MOp nat :=
  m <- the ;;
  emodify (fun m => mkTcpManager (m_NextTcpSequence m) (m_NextConnId m) (m_StateBlocks m) (m_ListeningStateBlocks m)
    (m_CurrentConnections m) (m_ListenPorts m) (m_EphemeralPorts m) (m_TcpMutex m) (m_ManagerNanoseconds m)
    (<[next_pointer m := b]> (blocks m)) (all_endpoints m) (S (next_pointer m)) (network m)) ;;
  eret (next_pointer m).

(** ** Numbers *)

Definition getNextSequenceNumber : MOp Z :=
  m <- the ;;
  emodify (put_numbers (wrap 32 (m_NextTcpSequence m + 64000)) (m_NextConnId m) (m_ListenPorts m) (m_EphemeralPorts m)
             (m_ManagerNanoseconds m)) ;;
  eret (m_NextTcpSequence m).

Fixpoint free_id (fuel : nat) (cc : gmap Z StateBlockHandle) (ret : Z) : option Z :=
  match fuel with
  | O => None
  | S fuel' => match cc !! ret with Some _ => free_id fuel' cc (ret + 1) | None => Some ret end
  end.

Definition getConnId : MOp Z :=
  m <- the ;;
  ret <- elift (free_id (S (base.size (m_CurrentConnections m))) (m_CurrentConnections m) (m_NextConnId m)) ;;
  emodify (put_numbers (m_NextTcpSequence m) (ret + 1) (m_ListenPorts m) (m_EphemeralPorts m) (m_ManagerNanoseconds m)) ;;
  eret ret.

(** An operation on one of the bitmaps. *)
Definition on_ephemeral {A} (x : Bitmap.Op A) : MOp A :=
  m <- the ;; r <- elift (x (m_EphemeralPorts m)) ;;
  emodify (put_numbers (m_NextTcpSequence m) (m_NextConnId m) (m_ListenPorts m) (snd r) (m_ManagerNanoseconds m)) ;;
  eret (fst r).

Definition on_listening {A} (x : Bitmap.Op A) : MOp A :=
  m <- the ;; r <- elift (x (m_ListenPorts m)) ;;
  emodify (put_numbers (m_NextTcpSequence m) (m_NextConnId m) (snd r) (m_EphemeralPorts m) (m_ManagerNanoseconds m)) ;;
  eret (fst r).

Definition allocatePort : MOp Z := guarded (
  bit <- on_ephemeral (fun b => Bitmap.getFirstClear 32 (loop_fuel b) b) ;;
  if 0xFFFF <? bit then eret 0 else on_ephemeral (set_port bit) ;; eret bit).

(** The manager's own timer: the sequence numbers move on every half second. *)
Definition manager_timer (delta : Z) : MOp unit :=
  m <- the ;;
  let ns := wrap 64 (m_ManagerNanoseconds m + delta) in
  if 500000000 <? ns
  then emodify (put_numbers (wrap 32 (m_NextTcpSequence m + 64000)) (m_NextConnId m) (m_ListenPorts m)
                  (m_EphemeralPorts m) 0)
  else emodify (put_numbers (m_NextTcpSequence m) (m_NextConnId m) (m_ListenPorts m) (m_EphemeralPorts m) ns).

(** ** Tables *)

Definition insert_block (h : StateBlockHandle) (p : nat) : MOp unit :=
  m <- the ;; t <- elift (TcpTree.insert (m_StateBlocks m) h p) ;;
  emodify (put_tables t (m_ListeningStateBlocks m) (m_CurrentConnections m) (blocks m)).

Definition insert_listening (h : StateBlockHandle) (p : nat) : MOp unit :=
  m <- the ;; t <- elift (TcpTree.insert (m_ListeningStateBlocks m) h p) ;;
  emodify (put_tables (m_StateBlocks m) t (m_CurrentConnections m) (blocks m)).

(** The dictionary leaves a key that it has. *)
Definition insert_connection (id : Z) (h : StateBlockHandle) : MOp unit :=
  m <- the ;;
  match m_CurrentConnections m !! id with
  | Some _ => eret tt
  | None => emodify (put_tables (m_StateBlocks m) (m_ListeningStateBlocks m) (<[id := h]> (m_CurrentConnections m)) (blocks m))
  end.

Definition removeConn (id : Z) : MOp unit := guarded (
  m <- the ;;
  match m_CurrentConnections m !! id with
  | None => eret tt
  | Some h =>
      match TcpTree.lookup (if listen h then m_ListeningStateBlocks m else m_StateBlocks m) h with
      | None => eret tt
      | Some p =>
          b <- elift (blocks m !! p) ;;
          if negb (bool_decide (currentState b = CLOSED)) then eret tt
          else
            (if listen h
             then t <- elift (TcpTree.remove (m_ListeningStateBlocks m) h) ;;
                  emodify (put_tables (m_StateBlocks m) t (m_CurrentConnections m) (blocks m))
             else t <- elift (TcpTree.remove (m_StateBlocks m) h) ;;
                  emodify (put_tables t (m_ListeningStateBlocks m) (m_CurrentConnections m) (blocks m))) ;;
            m <- the ;;
            emodify (put_tables (m_StateBlocks m) (m_ListeningStateBlocks m) (base.delete id (m_CurrentConnections m))
                       (base.delete p (blocks m)))
      end
  end).

(** The block of a connection id in the first of the tables. *)
Definition block_of (id : Z) : MOp (option nat) :=
  m <- the ;;
  eret (h ← m_CurrentConnections m !! id; TcpTree.lookup (m_StateBlocks m) h).

Definition getState (id : Z) : MOp TcpState := guarded (
  m <- the ;;
  match m_CurrentConnections m !! id with
  | None => eret UNKNOWN
  | Some h =>
      match TcpTree.lookup (m_ListeningStateBlocks m) h with
      | Some p => b <- elift (blocks m !! p) ;; eret (currentState b)
      | None =>
          match TcpTree.lookup (m_StateBlocks m) h with
          | Some p => b <- elift (blocks m !! p) ;; eret (currentState b)
          | None => eret UNKNOWN
          end
      end
  end).

Section TcpManager.
Context (route : Packet -> bool) (garbage : nat -> Z).

(** The packets that were queued for a connection. *)
Definition getNumQueuedPackets (id : Z) : MOp Z := guarded (
  p <- block_of id ;;
  match p with None => eret 0 | Some p => on_pointer p (get numEndpointPackets) end).

Definition removeQueuedPackets (id n : Z) : MOp unit := guarded (
  p <- block_of id ;;
  match p with
  | None => eret tt
  | Some p => on_pointer p (k <- get numEndpointPackets ;; set numEndpointPackets (k - n))
  end).

(** ** Opening *)

Definition with_addresses (lp rp host id : Z) (st : TcpState) (e : option nat) (v : Var -> Z) : StateBlock :=
  mkStateBlock st lp rp host v false 0 e id [] false false 0 0 0 10.

Definition set_vars (l : list (Var * Z)) (v : Var -> Z) : Var -> Z :=
  fold_left (fun v xe y => if decide (y = fst xe) then wrap 32 (snd xe) else v y) l v.

(** The arguments [e] and [pCard] are not null. *)
Definition Listen (e : nat) (port : Z) : MOp Z :=
  if port =? 0 then eret 0
  else
    let handle := mkHandle port 0 0 true in
    m <- guarded the ;;
    match TcpTree.lookup (m_StateBlocks m) handle with
    | Some _ => eret 0
    | None =>
        id <- getConnId ;;
        p <- add_block (with_addresses port 0 0 id LISTEN (Some e) (var new_block)) ;;
        ok <- guarded (
          b <- (if BASE_EPHEMERAL_PORT <=? port then on_ephemeral (Bitmap.test 32 port) else eret false) ;;
          if b : bool then eret false
          else
            b <- on_listening (Bitmap.test 32 port) ;;
            if b : bool then eret false else on_listening (set_port port) ;; eret true) ;;
        if ok : bool then
          guarded (insert_listening handle p ;; insert_connection id handle) ;; eret id
        else m <- the ;; emodify (put_blocks (base.delete p (blocks m))) ;; eret 0
    end.

(** [Connect] up to the wait for the handshake, and what it returns after that. *)
Definition Connect (host port localPort : Z) (e : nat) : MOp Z :=
  let handle := mkHandle localPort port host false in
  m <- guarded the ;;
  match TcpTree.lookup (m_StateBlocks m) handle with
  | Some _ => eret 0
  | None =>
      id <- getConnId ;;
      seq <- getNextSequenceNumber ;;
      m <- the ;;
      ep <- elift (all_endpoints m !! e) ;;
      let v := set_vars [(iss, seq); (snd_nxt, seq + 1); (snd_una, seq);
                         (snd_wnd, Z.of_nat (m_BufferSize (m_ShadowDataStream ep))); (tcp_mss, 1460)] (var new_block) in
      p <- add_block (with_addresses localPort port host id SYN_SENT (Some e) v) ;;
      guarded (insert_block handle p ;; insert_connection id handle) ;;
      _ <- on_pointer p (seq <- get iss ;; wnd <- get snd_wnd ;;
                         Tcp_send route host localPort port seq 0 SYN wnd []) ;;
      eret id
  end.

Definition connect_result (id : Z) (p : nat) (timedOut : bool) : MOp Z :=
  m <- the ;; b <- elift (blocks m !! p) ;;
  eret (if negb (bool_decide (currentState b = ESTABLISHED)) || timedOut then 0 else id).

(** ** Closing and sending *)

Definition Shutdown (id : Z) (bOnlyStopReceive : bool) : MOp unit := guarded (
  p <- block_of id ;;
  match p with
  | None => eret tt
  | Some p => if bOnlyStopReceive then eret tt else on_pointer p (close_sending route)
  end).

Definition Disconnect (id : Z) : MOp unit := guarded (
  p <- block_of id ;;
  match p with
  | None => eret tt
  | Some p =>
      st <- on_pointer p state ;;
      match st with
      | ESTABLISHED | CLOSE_WAIT => on_pointer p (close_sending route)
      | LISTEN => on_pointer p (set_state CLOSED) ;; removeConn id
      | SYN_SENT => on_pointer p (sendSegment route RST [] true ;; set_state CLOSED) ;; removeConn id
      | _ => eret tt
      end
  end).

(** [send]; the payload is not null. *)
Definition send (id : Z) (bytes : list Z) (push : bool) : MOp Z := guarded (
  p <- block_of id ;;
  match p with
  | None => eret (-1)
  | Some p => on_pointer p (send_data route bytes push)
  end).

(** The timer of a block; the thread it may start runs [stateBlockFree]. *)
Definition block_timer (p : nat) (delta : Z) : MOp bool := on_pointer p (timer route delta).

Definition stateBlockFree (p : nat) : MOp unit :=
  m <- the ;; b <- elift (blocks m !! p) ;; removeConn (connId b).

(** ** A segment arrives *)

(** The case LISTEN; [seq], [ack] and [wnd] are of the segment. *)
Definition listen_case (a : Arrival) (p : nat) (mss : Z) : MOp unit :=
  m <- the ;; b <- elift (blocks m !! p) ;;
  let v := var b in
  if flag RST (hflags a) then eret tt
  else if flag ACK (hflags a) then
    _ <- on_pointer p (reply route a (v seg_ack) 0 RST 0) ;; eret tt
  else if flag SYN (hflags a) then
    id <- getConnId ;;
    seq <- getNextSequenceNumber ;;
    let v' := set_vars [(iss, seq); (snd_nxt, seq + 1); (snd_una, seq); (snd_wnd, 16384);
                        (irs, v seg_seq); (rcv_nxt, v seg_seq + 1); (rcv_wnd, v seg_wnd);
                        (tcp_mss, mss); (seg_seq, v seg_seq + 1)] (var new_block) in
    q <- add_block (with_addresses (toPort a) (sourcePort a) (from a) id SYN_RECEIVED (endpoint b) v') ;;
    let handle := mkHandle (toPort a) (sourcePort a) (from a) false in
    insert_block handle q ;; insert_connection id handle ;;
    _ <- on_pointer q (seq <- get iss ;; ack <- get rcv_nxt ;; wnd <- get snd_wnd ;;
                       Tcp_send route (from a) (toPort a) (sourcePort a) seq ack (Z.lor SYN ACK) wnd []) ;;
    eret tt
  else eret tt.

Definition receive (a : Arrival) : MOp unit := guarded (
  m <- the ;;
  let handle := mkHandle (toPort a) (sourcePort a) (from a) false in
  let p := match TcpTree.lookup (m_StateBlocks m) handle with
           | Some p => Some p
           | None => TcpTree.lookup (m_ListeningStateBlocks m) (mkHandle (toPort a) (sourcePort a) (from a) true)
           end in
  match p with
  | None => _ <- on_conn new_block (segment_arrives route garbage a) ;; eret tt
  | Some p =>
      oldState <- on_pointer p state ;;
      r <- on_pointer p (segment_arrives route garbage a) ;;
      let (go, mss) := r : bool * Z in
      if decide (oldState = LISTEN) then listen_case a p mss
      else
        m <- the ;; b <- elift (blocks m !! p) ;;
        if (go : bool) && bool_decide (currentState b = CLOSED) &&
           (bool_decide (oldState = LAST_ACK) || bool_decide (oldState = CLOSING))
        then release ;; removeConn (connId b) ;; acquire
        else eret tt
  end).

(** ** Endpoints of applications *)

(** [getEndpoint] with a card, or a new endpoint for [connect]. *)
Definition getEndpoint (localPort : Z) : MOp (option nat) :=
  port <- (if localPort =? 0 then allocatePort else eret localPort) ;;
  if port =? 0 then eret None
  else r <- on_conn new_block (new_endpoint garbage 0 0 port 0) ;; eret (Some (fst r)).

Definition ep_at (e : nat) : MOp TcpEndpoint := m <- the ;; elift (all_endpoints m !! e).

Definition put_ep_at (e : nat) (ep : TcpEndpoint) : MOp unit :=
  emodify (fun m => mkTcpManager (m_NextTcpSequence m) (m_NextConnId m) (m_StateBlocks m) (m_ListeningStateBlocks m)
    (m_CurrentConnections m) (m_ListenPorts m) (m_EphemeralPorts m) (m_TcpMutex m) (m_ManagerNanoseconds m)
    (blocks m) (<[e := ep]> (all_endpoints m)) (next_pointer m) (network m)).

(** An endpoint with other addresses, another connection and other connections that
    wait for [accept]. *)
Definition endpoint_with (id lp rp host : Z) (cs : list nat) (n : Z) (ep : TcpEndpoint) : TcpEndpoint :=
  mkTcpEndpoint id lp rp host cs n (m_DataStream ep) (m_ShadowDataStream ep).

(** [TcpEndpoint::accept]: [None] where it waits for [m_IncomingConnectionCount]. *)
Definition accept (e : nat) : MOp (option (option nat)) :=
  ep <- ep_at e ;;
  st <- getState (m_ConnId ep) ;;
  if negb (bool_decide (st = LISTEN)) then eret (Some None)
  else if m_IncomingConnectionCount ep <=? 0 then eret None
  else
    put_ep_at e (endpoint_with (m_ConnId ep) (ep_localPort ep) (ep_remotePort ep) (ep_remoteHost ep)
                   (tail (m_IncomingConnections ep)) (m_IncomingConnectionCount ep - 1) ep) ;;
    eret (Some (head (m_IncomingConnections ep))).

Definition listen (e : nat) : MOp unit :=
  ep <- ep_at e ;;
  put_ep_at e (endpoint_with (m_ConnId ep) (ep_localPort ep) (ep_remotePort ep) (ep_remoteHost ep)
                 [] (m_IncomingConnectionCount ep) ep) ;;
  id <- Listen e (ep_localPort ep) ;;
  ep <- ep_at e ;;
  put_ep_at e (endpoint_with id (ep_localPort ep) (ep_remotePort ep) (ep_remoteHost ep)
                 (m_IncomingConnections ep) (m_IncomingConnectionCount ep) ep).

(** [TcpEndpoint::connect] that does not block. *)
Definition connect (e : nat) (host port : Z) : MOp bool :=
  ep <- ep_at e ;;
  lp <- (if ep_localPort ep =? 0 then allocatePort else eret (ep_localPort ep)) ;;
  put_ep_at e (endpoint_with (m_ConnId ep) lp port host (m_IncomingConnections ep) (m_IncomingConnectionCount ep) ep) ;;
  if lp =? 0 then eret false
  else
    id <- Connect host port lp e ;;
    ep <- ep_at e ;;
    put_ep_at e (endpoint_with id lp port host (m_IncomingConnections ep) (m_IncomingConnectionCount ep) ep) ;;
    eret (negb (id =? 0)).

Definition close (e : nat) : MOp unit := ep <- ep_at e ;; Disconnect (m_ConnId ep).
Definition send_to (e : nat) (bytes : list Z) : MOp Z := ep <- ep_at e ;; send (m_ConnId ep) bytes false.

Inductive ShutdownType := ShutReceiving | ShutSending | ShutBoth.

Definition shutdown (e : nat) (what : ShutdownType) : MOp bool :=
  ep <- ep_at e ;; Shutdown (m_ConnId ep) (match what with ShutReceiving => true | _ => false end) ;; eret true.

(** [dataReady] that does not block. *)
Definition dataReady (e : nat) : MOp bool :=
  ep <- ep_at e ;;
  st <- getState (m_ConnId ep) ;;
  eret (if bool_decide (st = LISTEN) then (0 <? length (m_IncomingConnections ep))%nat
        else negb (getDataSize (m_DataStream ep) =? 0)%nat).

Definition state_number (st : TcpState) : Z :=
  match st with
  | IGNORED => 0 | LISTEN => 1 | SYN_SENT => 2 | SYN_RECEIVED => 3 | ESTABLISHED => 4 | FIN_WAIT_1 => 5
  | FIN_WAIT_2 => 6 | CLOSE_WAIT => 7 | CLOSING => 8 | LAST_ACK => 9 | TIME_WAIT => 10 | CLOSED => 11 | UNKNOWN => 12
  end.

(** [recv] into a buffer that is not null, without blocking: bytes, or the value
    that is returned. *)
Definition recv_from (e : nat) (maxSize : nat) (bPeek : bool) : MOp (list Z + Z) :=
  if (maxSize =? 0)%nat && negb bPeek then eret (inr (-1))
  else
    ready <- dataReady e ;;
    ep <- ep_at e ;;
    if ready : bool then
      r <- on_conn new_block (on_stream ep false (TcpBuffer.read maxSize bPeek)) ;;
      put_ep_at e (snd (fst r)) ;; eret (inl (fst (fst r)))
    else
      st <- getState (m_ConnId ep) ;;
      eret (inr (if state_number FIN_WAIT_2 <? state_number st then 0 else -1)).

End TcpManager.
