(* ===== verification/TcpInv.v ===== *)
(** * Well-formed connections

    What a state block, its endpoints and the packets sent hold at any time: every
    member fits its type, the streams are in bounds, the endpoint exists.  The
    operations of [Tcp] keep it and do not fault. *)
From Stdlib Require Import ZArith Lia List Bool.
From stdpp Require Import base gmap list.
From S2P Require Import Prelude Hoare TcpBuffer TcpTree Tcp.
Import ListNotations.
Local Open Scope Z_scope.
Local Open Scope err_scope.

(** [decide] of two members of a state block. *)
Ltac vars := repeat first [rewrite decide_True by done | rewrite decide_False by done].

Definition segment_ok (s : Segment) : Prop :=
  in_word 32 (sg_seq s) /\ in_word 32 (sg_ack s) /\ in_word 32 (sg_len s) /\ in_word 32 (sg_wnd s).

Record block_ok (b : StateBlock) : Prop := {
  ok_local : in_word 16 (sb_localPort b);
  ok_remote : in_word 16 (sb_remotePort b);
  ok_vars x : in_word 32 (var b x);
  ok_queue : Forall segment_ok (retransmitQueue b)
}.

Definition endpoint_ok (e : TcpEndpoint) : Prop := in_bounds (m_DataStream e) /\ in_bounds (m_ShadowDataStream e).

Definition packet_ok (p : Packet) : Prop :=
  in_word 16 (srcPort p) /\ in_word 16 (destPort p) /\ in_word 32 (seqNumber p) /\ in_word 32 (ackNumber p) /\
  in_word 8 (flags p) /\ in_word 16 (window p).

Definition arrival_ok (a : Arrival) : Prop :=
  in_word 16 (sourcePort a) /\ in_word 16 (toPort a) /\ in_word 32 (seqnum a) /\ in_word 32 (acknum a).

Record typed (c : Conn) : Prop := {
  typed_block : block_ok (block c);
  typed_endpoints p e : endpoints c !! p = Some e -> endpoint_ok e /\ (p < nextPointer c)%nat;
  typed_endpoint : exists p e, endpoint (block c) = Some p /\ endpoints c !! p = Some e;
  typed_sent : Forall packet_ok (sent c)
}.

(** A change of the block that keeps what [typed] says of it. *)
Definition mild (f : StateBlock -> StateBlock) : Prop :=
  forall b, block_ok b -> block_ok (f b) /\ endpoint (f b) = endpoint b.

Lemma typed_on_block f c : mild f -> typed c -> typed (on_block f c).
Proof.
  intros Hf [Hb He Hp Hs]. destruct (Hf _ Hb) as [Hb' He']. split; try done.
  destruct Hp as (p & e & Hp & ?). exists p, e. split; [|done]. cbn. by rewrite He'.
Qed.

Lemma mild_put_var x v : mild (put_var x v).
Proof.
  intros b [? ? Hv ?]. split; [|done]. split; try done. intros y. cbn.
  destruct (decide (y = x)); [by apply wrap_range|apply Hv].
Qed.

Lemma mild_put_state v : mild (put_state v).
Proof. by intros b []. Qed.

Lemma mild_put_fin_ack v : mild (put_fin_ack v).
Proof. by intros b []. Qed.

Lemma mild_put_wait v : mild (fun b => put_wait (v b) b).
Proof. by intros b []. Qed.

Lemma mild_put_waiting v : mild (put_waiting v).
Proof. by intros b []. Qed.

Lemma mild_put_timer did wait ns s t : mild (fun b => put_timer did (wait b) ns s t b).
Proof. by intros b []. Qed.

Lemma mild_put_queue q : Forall segment_ok q -> mild (put_queue q).
Proof. by intros Hq b []. Qed.

Lemma mild_comp f g : mild f -> mild g -> mild (fun b => f (g b)).
Proof. intros Hf Hg b Hb. destruct (Hg _ Hb) as [H1 H2]. destruct (Hf _ H1) as [H3 H4]. split; [done|by rewrite H4]. Qed.

#[export] Hint Resolve mild_put_var mild_put_state mild_put_fin_ack mild_put_wait mild_put_waiting mild_put_timer : keeps.

(** ** Streams *)

Definition on_stream_ok {A} (m : TcpBuffer.Op A) : Prop :=
  forall s, in_bounds s -> exists a s', m s = Some (a, s') /\ in_bounds s'.

Lemma write_ok b : on_stream_ok (TcpBuffer.write b).
Proof.
  intros s Hs. destruct (call_bounds (Write b) s Hs) as (r & s' & H & ? & _).
  unfold call, ebind in H. destruct (TcpBuffer.write b s) as [[n s1]|]; [|done]. injection H as <- <-. eauto.
Qed.

Lemma read_ok n p : on_stream_ok (TcpBuffer.read n p).
Proof.
  intros s Hs. destruct (call_bounds (Read n p) s Hs) as (r & s' & H & ? & _).
  unfold call, ebind in H. destruct (TcpBuffer.read n p s) as [[l s1]|]; [|done]. injection H as <- <-. eauto.
Qed.

Lemma getSize_ok : on_stream_ok getSize.
Proof.
  intros s (l & H1 & H2 & Hk & H4). exists (m_BufferSize s), (put_lock false s). split; [|by exists l].
  unfold getSize, locked, ebind, egets, emodify. rewrite Hk. by destruct s.
Qed.

Section Inv.
Context (route : Packet -> bool) (garbage : nat -> Z).

Lemma stream_ok {A} e shadow (m : TcpBuffer.Op A) c : on_stream_ok m -> endpoint_ok e ->
  hoare False (on_stream e shadow m) (fun r c' => c' = c /\ endpoint_ok (snd r)) c.
Proof.
  intros Hm [Hd Hs]. unfold on_stream. repeat hoare_step.
  destruct shadow; [destruct (Hm _ Hs) as (a & s' & -> & ?)|destruct (Hm _ Hd) as (a & s' & -> & ?)]; cbn;
    repeat hoare_step; done.
Qed.

Lemma deposit_ok e payload push c : endpoint_ok e ->
  hoare False (deposit e payload push) (fun r c' => c' = c /\ endpoint_ok (snd r)) c.
Proof.
  intros He. unfold deposit. cbv zeta. hoare_step; [by hoare_step|]. hoare_step.
  apply (hoare_mono _ _ (fun r c' => c' = c /\ endpoint_ok (snd r))).
  { destruct payload; [hoare_step; [by hoare_step|]|by hoare_step]. apply stream_ok; [apply write_ok|done]. }
  intros [n e1] ? [-> He1]. cbn [snd] in He1. hoare_step; [|by hoare_step]. hoare_step.
  eapply hoare_mono; [apply (stream_ok _ _ _ _ getSize_ok He1)|]. intros [sz e2] ? [-> He2]. cbn [snd] in He2.
  hoare_step; [by hoare_step|]. hoare_step.
  eapply hoare_mono; [apply (stream_ok _ _ _ _ (read_ok _ _) He2)|]. intros [buff e3] ? [-> He3]. cbn [snd] in He3.
  hoare_step. eapply hoare_mono; [apply (stream_ok _ _ _ _ (write_ok _) He3)|]. intros r ? [-> He4]. by hoare_step.
Qed.

(** ** Operations on a well-formed connection *)

Lemma the_endpoint_ok c : typed c ->
  hoare False the_endpoint (fun pe c' => c' = c /\ endpoint (block c) = Some (fst pe) /\ endpoints c !! fst pe = Some (snd pe)) c.
Proof.
  intros Hc. destruct (typed_endpoint c Hc) as (p & e & Hp & He). unfold the_endpoint. repeat hoare_step.
  all: unfold id in *; rewrite Hp in *; simplify_eq. rewrite He. by repeat hoare_step.
Qed.

Lemma keeps_the_endpoint : keeps False typed the_endpoint.
Proof. intros c Hc. eapply hoare_mono; [by apply the_endpoint_ok|]. by intros ? ? [-> _]. Qed.

Lemma keeps_get x : keeps False typed (get x).
Proof. unfold get. keeps. Qed.

Lemma keeps_on_block f : mild f -> keeps False typed (emodify (on_block f)).
Proof. intros Hf. apply keeps_modify. intros c. by apply typed_on_block. Qed.

Lemma keeps_set x v : keeps False typed (set x v).
Proof. apply keeps_on_block, mild_put_var. Qed.

Lemma keeps_state : keeps False typed state.
Proof. unfold state. keeps. Qed.

Lemma keeps_set_state v : keeps False typed (set_state v).
Proof. apply keeps_on_block, mild_put_state. Qed.

Lemma keeps_resetTimer t : keeps False typed (resetTimer t).
Proof. apply keeps_on_block, mild_put_timer. Qed.

Hint Resolve keeps_the_endpoint keeps_get keeps_on_block keeps_set keeps_state keeps_set_state keeps_resetTimer : keeps.

Lemma keeps_wait_2msl : keeps False typed wait_2msl.
Proof. unfold wait_2msl. keeps. Qed.

Lemma keeps_Tcp_send host src dst seq ack fl wnd l : in_word 16 src -> in_word 16 dst ->
  keeps False typed (Tcp_send route host src dst seq ack fl wnd l).
Proof.
  intros Hs Hd. unfold Tcp_send. keeps. apply keeps_modify. intros c [Hb He Hp Hn]. split; try done.
  cbn. apply Forall_app; split; [done|]. constructor; [|constructor]. by split_and!; try apply wrap_range.
Qed.

Lemma typed_put_ep p e e' c : endpoints c !! p = Some e -> endpoint_ok e' -> typed c -> typed (put_ep p e' c).
Proof.
  intros Hp He [Hb Hes (q & e1 & Hq & Hq1) Hn]. destruct (Hes p e Hp) as [_ Hlt]. split; try done; cbn.
  - intros p' e2. destruct (decide (p' = p)) as [->|Hne]; [rewrite lookup_insert_eq; by intros [= <-]|].
    rewrite lookup_insert_ne by done. apply Hes.
  - destruct (decide (q = p)) as [->|]; [exists p, e'; by rewrite lookup_insert_eq|].
    exists q, e1. by rewrite lookup_insert_ne.
Qed.

Lemma keeps_depositPayload l push : keeps False typed (depositPayload l push).
Proof.
  intros c Hc. unfold depositPayload. hoare_step.
  eapply hoare_mono; [by apply the_endpoint_ok|]. intros [p e] ? (-> & _ & Hp). cbn [fst snd] in Hp.
  hoare_step. eapply hoare_mono; [apply deposit_ok, (typed_endpoints c Hc p e Hp)|]. intros r ? [-> He].
  repeat hoare_step. by apply (typed_put_ep p e).
Qed.

Lemma keeps_ackSegment c : typed c -> is_Some (ack_queue (var (block c) seg_ack) (retransmitQueue (block c))) ->
  hoare False ackSegment (fun _ c' => typed c') c.
Proof.
  intros Hc [q Hq]. unfold ackSegment, get. repeat hoare_step. rewrite Hq. repeat hoare_step.
  apply typed_on_block; [|done]. apply mild_put_queue.
  assert (Hv : in_word 32 (var (block c) seg_ack)) by apply (ok_vars _ (typed_block _ Hc)).
  pose proof (ok_queue _ (typed_block _ Hc)) as Hok. revert Hv Hok Hq.
  generalize (var (block c) seg_ack) (retransmitQueue (block c)). intros sa l Hv. revert q.
  induction l as [|g l IH]; intros q Hok Hq; [by injection Hq as <-|]. inversion Hok as [|? ? Hg Hl]; subst.
  cbn [ack_queue] in Hq. destruct (_ <=? sa); [by apply IH|]. destruct (_ <=? sa); [|by apply IH].
  destruct (match sg_payload g with Some _ => _ | None => _ end); [|done]. cbn in Hq. injection Hq as <-.
  constructor; [|done]. destruct Hg as (? & ? & ? & ?). by split_and!; try apply wrap_range.
Qed.

(** A new endpoint, as the connection that a parent waits for. *)
Lemma new_endpoint_ok id host local remote c : typed c ->
  hoare False (new_endpoint garbage id host local remote)
    (fun e c' => typed c' /\ block c' = block c /\ (exists x, endpoints c' !! e = Some x) /\
                 forall p x, endpoints c !! p = Some x -> endpoints c' !! p = Some x) c.
Proof.
  intros Hc. destruct (construct_run garbage) as (s & Hs & Hb & _). unfold new_endpoint. repeat hoare_step.
  rewrite Hs. repeat hoare_step. cbn. set (e := mkTcpEndpoint _ _ _ _ _ _ _ _).
  assert (Hfresh : forall p x, endpoints c !! p = Some x -> <[nextPointer c := e]> (endpoints c) !! p = Some x).
  { intros p x Hp. rewrite lookup_insert_ne; [done|]. destruct (typed_endpoints c Hc p x Hp). lia. }
  split_and!; [|done|exists e; by rewrite lookup_insert_eq|done]. destruct Hc as [Hbl Hes (q & e1 & Hq & Hq1) Hn].
  split; try done; cbn.
  - intros p x. destruct (decide (p = nextPointer c)) as [->|]; [rewrite lookup_insert_eq; intros [= <-]; split; [done|lia]|].
    rewrite lookup_insert_ne by done. intros Hp. destruct (Hes p x Hp). split; [done|lia].
  - exists q, e1. split; [done|]. by apply Hfresh.
Qed.

Lemma typed_new_endpoint p x c : endpoints c !! p = Some x -> typed c -> typed (on_block (put_endpoint (Some p)) c).
Proof. intros Hp [[] He _ Hs]. split; try done. by exists p, x. Qed.

Lemma addIncoming_ok parent e c x : typed c -> endpoints c !! parent = Some x ->
  hoare False (addIncomingConnection parent e) (fun _ c' => typed c') c.
Proof.
  intros Hc Hp. unfold addIncomingConnection. repeat hoare_step. rewrite Hp. repeat hoare_step.
  apply (typed_put_ep parent x); [done| |done]. apply (typed_endpoints c Hc _ _ Hp).
Qed.

(** ** Segments *)

Section Arrival.
Context (a : Arrival) (Ha : arrival_ok a).

Hint Resolve keeps_depositPayload keeps_wait_2msl : keeps.

Lemma keeps_reply seq ack fl wnd : keeps False typed (reply route a seq ack fl wnd).
Proof using Ha. destruct Ha as (? & ? & _). by apply keeps_Tcp_send. Qed.

Hint Resolve keeps_reply : keeps.

Lemma keeps_reply_ack fl : keeps False typed (reply_ack route a fl).
Proof using Ha. unfold reply_ack. keeps. Qed.

Hint Resolve keeps_reply_ack : keeps.

Lemma keeps_closed_case : keeps False typed (closed_case route a).
Proof using Ha. unfold closed_case. keeps. Qed.

Lemma keeps_syn_sent_case mss : keeps False typed (syn_sent_case route a mss).
Proof using Ha. unfold syn_sent_case. cbv zeta. keeps. Qed.

Lemma keeps_acknowledged : keeps False typed (acknowledged route a).
Proof using Ha. unfold acknowledged. cbv zeta. keeps. Qed.

Lemma keeps_payload_case already : keeps False typed (payload_case route a already).
Proof using Ha. unfold payload_case. cbv zeta. keeps. Qed.

Lemma keeps_fin_case already : keeps False typed (fin_case route a already).
Proof using Ha. unfold fin_case. keeps. Qed.

Hint Resolve keeps_closed_case keeps_syn_sent_case keeps_acknowledged keeps_payload_case keeps_fin_case : keeps.

Definition acks_fit (c : Conn) : Prop := is_Some (ack_queue (var (block c) seg_ack) (retransmitQueue (block c))).

Lemma established_ok parent x c (b : StateBlock) : typed c -> endpoints c !! parent = Some x ->
  hoare False (e <- new_endpoint garbage (connId b) (from a) (sb_localPort b) (sb_remotePort b) ;;
               emodify (on_block (put_endpoint (Some e))) ;; set_state ESTABLISHED ;;
               addIncomingConnection parent e ;; already <- acknowledged route a ;; eret (Go already))
    (fun _ c' => typed c') c.
Proof using Ha.
  intros Hc Hp. hoare_step. eapply hoare_mono; [by apply new_endpoint_ok|]. intros e c1 (Hc1 & _ & (y & Hy) & Hkeep).
  cbv beta. unfold set_state. repeat hoare_step. set (c2 := on_block _ _).
  assert (Hc2 : typed c2) by (apply typed_on_block; [apply mild_put_state|by apply (typed_new_endpoint _ y)]).
  eapply hoare_mono; [apply (addIncoming_ok parent e c2 x Hc2), Hkeep, Hp|]. intros ? c3 Hc3. cbv beta.
  apply (keeps_hoare _ typed); [keeps|done|done].
Qed.

Lemma ack_case_ok c : typed c -> acks_fit c -> hoare False (ack_case route garbage a) (fun _ c' => typed c') c.
Proof using Ha.
  intros Hc0 Hq. unfold ack_case. hoare_step. eapply hoare_mono; [by apply keeps_ackSegment|]. intros ? c1 Hc. cbv beta.
  assert (Hrest : forall r : Flow, keeps False typed
    (match r with Go already => closed <- is_state CLOSED ;; eret (if closed : bool then Break else Go already) | _ => eret r end))
    by (intros r; unfold is_state; keeps).
  hoare_step. unfold state at 1. do 4 hoare_step. apply hoare_mono with (Q := fun _ c' => typed c');
    [|intros r c' Hc'; by apply (keeps_hoare _ typed)].
  destruct (currentState (block c1)) eqn:Est; try (apply (keeps_hoare _ typed); [solve [cbv zeta; keeps]|done|done]).
  repeat hoare_step; [eapply hoare_mono; [by apply keeps_reply|]; intros; by repeat hoare_step| |done].
  destruct (typed_endpoint c1 Hc) as (p & x & Hp & Hx). simplify_eq. by apply (established_ok _ x).
Qed.

Lemma synchronized_case_ok c : typed c -> acks_fit c ->
  hoare False (synchronized_case route garbage a) (fun _ c' => typed c') c.
Proof using Ha.
  intros Hc Hq. unfold synchronized_case. hoare_step. hoare_step.
  do 3 (hoare_step; [apply (keeps_hoare _ typed); [keeps|done|done]|]). hoare_step.
  apply hoare_mono with (Q := fun _ c' => typed c').
  - hoare_step; [by apply ack_case_ok|by hoare_step].
  - intros [already| |] c1 Hc1; [apply (keeps_hoare _ typed); [keeps|done|done]|by hoare_step..].
Qed.

(** What [fill_segment] does to the block, [w] being the room of the endpoint. *)
Definition filled (w : Z) (b : StateBlock) : StateBlock :=
  put_fin_ack false (put_var snd_wnd w (put_var rcv_wnd (wrap 32 (winsize a)) (put_var seg_prc 0 (put_var seg_up (urgptr a)
    (put_var seg_wnd (winsize a) (put_var seg_len (Z.of_nat (length (payload a))) (put_var seg_ack (acknum a)
      (put_var seg_seq (seqnum a) b)))))))).

Lemma mild_filled w : mild (filled w).
Proof.
  unfold filled. repeat first [apply (mild_comp _ _ (mild_put_fin_ack _))|apply (mild_comp _ _ (mild_put_var _ _))].
  by intros b.
Qed.

Lemma fill_segment_run F c p e mss : endpoint (block c) = Some p -> endpoints c !! p = Some e ->
  read_mss a (var (block c) tcp_mss) = Some mss ->
  hoare F (fill_segment a) (fun r c' => r = mss /\ c' = on_block (filled (remaining e)) c) c.
Proof.
  intros Hp He Hm. unfold fill_segment, set, get, the_endpoint. repeat hoare_step.
  all: cbn in *; rewrite ?Hp in *; simplify_eq. rewrite He. repeat hoare_step.
  cbn [block on_block var put_var]. vars. rewrite Hm. repeat hoare_step. done.
Qed.

Lemma fill_segment_partial c p e : endpoint (block c) = Some p -> endpoints c !! p = Some e ->
  hoare True (fill_segment a) (fun _ c' => c' = on_block (filled (remaining e)) c) c.
Proof.
  intros Hp He. unfold fill_segment, set, get, the_endpoint. repeat hoare_step.
  all: cbn in *; rewrite ?Hp in *; simplify_eq. rewrite He. repeat hoare_step.
  destruct (read_mss _ _); [|done]. by repeat hoare_step.
Qed.

Lemma filled_var w b x : (forall y, in_word 32 (var b y)) ->
  var (filled w b) x =
    match x with
    | seg_seq => wrap 32 (seqnum a) | seg_ack => wrap 32 (acknum a)
    | seg_len => wrap 32 (Z.of_nat (length (payload a)))
    | seg_wnd | rcv_wnd => wrap 32 (winsize a) | seg_up => wrap 32 (urgptr a) | seg_prc => 0
    | snd_wnd => wrap 32 w
    | _ => var b x
    end.
Proof. intros _. unfold filled. cbn [var put_fin_ack put_var]. destruct x; vars; rewrite ?wrap_idem; done. Qed.

Lemma state_changed_ok st c : typed c -> hoare False (state_changed st) (fun _ c' => typed c') c.
Proof. intros Hc. apply (keeps_hoare _ typed); [unfold state_changed; keeps|done|done]. Qed.

(** A segment that arrives is handled without a fault, whatever it is: if its
    options end and it acknowledges whole segments of the queue. *)
Lemma segment_arrives_ok c : typed c -> is_Some (read_mss a (var (block c) tcp_mss)) ->
  is_Some (ack_queue (acknum a) (retransmitQueue (block c))) ->
  hoare False (segment_arrives route garbage a) (fun _ c' => typed c') c.
Proof using Ha.
  intros Hc [mss Hm] Hq. destruct (typed_endpoint c Hc) as (p & e & Hp & He).
  unfold segment_arrives. hoare_step. eapply hoare_mono; [by apply (fill_segment_run _ c p e mss)|].
  intros r c1 [-> ->]. cbv beta. set (c1 := on_block _ c).
  assert (Hc1 : typed c1).
  { by apply typed_on_block; [apply mild_filled|]. }
  assert (Hq1 : acks_fit c1).
  { unfold acks_fit, c1, filled. cbn [block on_block var put_var put_fin_ack retransmitQueue]. vars.
    rewrite wrap_small; [done|apply Ha]. }
  hoare_step. unfold state at 1. do 4 hoare_step. apply hoare_mono with (Q := fun _ c' => typed c').
  - destruct (currentState (block c1)); first [by apply synchronized_case_ok | apply (keeps_hoare _ typed); [solve [keeps]|done|done]].
  - intros go c2 Hc2. hoare_step. apply hoare_mono with (Q := fun _ c' => typed c'); [|intros; by hoare_step].
    hoare_step; [by apply state_changed_ok|done].
Qed.
End Arrival.

(** ** The user and the timer *)

Hint Resolve keeps_depositPayload keeps_wait_2msl : keeps.

Lemma keeps_send_one seg : keeps False typed (send_one route seg).
Proof.
  intros c Hc. unfold send_one. repeat hoare_step. destruct (typed_block c Hc).
  by apply keeps_Tcp_send.
Qed.

Hint Resolve keeps_send_one : keeps.

Lemma keeps_timer delta : keeps False typed (timer route delta).
Proof.
  unfold timer. cbv zeta. keeps; apply keeps_on_block; by intros b' [].
Qed.

Lemma keeps_recv n p : keeps False typed (recv n p).
Proof.
  intros c Hc. unfold recv. hoare_step. eapply hoare_mono; [by apply the_endpoint_ok|].
  intros [q e] ? (-> & _ & Hq). cbn [fst snd] in Hq. hoare_step.
  eapply hoare_mono; [apply (stream_ok _ _ _ _ (read_ok n p)), (typed_endpoints c Hc q e Hq)|].
  intros r ? [-> He]. repeat hoare_step. by apply (typed_put_ep q e).
Qed.

(** One turn of the loop of [sendSegment] at [off]. *)
Definition last_turn (v : Var -> Z) (bytes : list Z) (off : Z) : bool := Z.of_nat (length bytes) <=? off + v tcp_mss.

Definition turn_size (v : Var -> Z) (bytes : list Z) (off : Z) : Z :=
  if last_turn v bytes off then Z.of_nat (length bytes) - off else v tcp_mss.

Definition turn_flags (v : Var -> Z) (fl : Z) (bytes : list Z) (off : Z) : Z :=
  if last_turn v bytes off && negb (Z.of_nat (length bytes) =? 0) then Z.lor fl PSH else fl.

Definition turn_segment (v : Var -> Z) (wnd fl : Z) (bytes : list Z) (off : Z) : Segment :=
  let size := turn_size v bytes off in let fl := turn_flags v fl bytes off in
  mkSegment (wrap 32 (v snd_nxt)) (v rcv_nxt) (wrap 32 size) (wrap 32 wnd) 0 fl
    (if Z.of_nat (length bytes) =? 0 then None else Some (take (Z.to_nat size) (drop (Z.to_nat off) bytes)))
    (wrap 32 size).

Definition queued (s : Segment) : Segment :=
  if flag ACK (sg_flags s) then s
  else mkSegment (sg_seq s) 0 (sg_len s) (sg_wnd s) 0 (sg_flags s) (sg_payload s) (sg_nBytes s).

Definition segment_packet (b : StateBlock) (s : Segment) : Packet :=
  mkPacket (sb_remoteHost b) (sb_localPort b) (sb_remotePort b) (wrap 32 (sg_seq s))
    (wrap 32 (if flag ACK (sg_flags s) then sg_ack s else 0)) (wrap 8 (sg_flags s)) (wrap 16 (sg_wnd s))
    (match sg_payload s with Some l => take (Z.to_nat (sg_nBytes s)) l | None => [] end).

Definition turn (e : TcpEndpoint) (fl : Z) (bytes : list Z) (off : Z) (queue : bool) (c : Conn) : Conn :=
  let b := block c in
  let v := var b in
  let s := turn_segment v (remaining e) fl bytes off in
  let b' := put_var snd_wnd (remaining e) (put_var snd_nxt (v snd_nxt + turn_size v bytes off)
              (put_var seg_seq (v snd_nxt) b)) in
  let p := segment_packet b s in
  mkConn (if queue then put_queue (retransmitQueue b ++ [queued s]) b' else b') (endpoints c) (nextPointer c)
    (if route p then sent c ++ [p] else sent c).

Lemma send_one_run seg c : send_one route seg c =
  let p := segment_packet (block c) seg in
  Some (route p, mkConn (block c) (endpoints c) (nextPointer c) (if route p then sent c ++ [p] else sent c)).
Proof.
  unfold send_one, Tcp_send, ebind at 1, egets, segment_packet. cbv zeta. destruct c as [b es n s]. cbn [block].
  by destruct (route _).
Qed.

Lemma the_endpoint_run p e c : endpoint (block c) = Some p -> endpoints c !! p = Some e ->
  the_endpoint c = Some ((p, e), c).
Proof. intros Hp He. unfold the_endpoint, ebind, egets, id. rewrite Hp. unfold elift. by rewrite He. Qed.

Lemma send_loop_turn fuel fl bytes off queue c p e :
  endpoint (block c) = Some p -> endpoints c !! p = Some e ->
  send_loop route (S fuel) fl bytes off queue c =
    if off <? Z.max 1 (Z.of_nat (length bytes))
    then send_loop route fuel (turn_flags (var (block c)) fl bytes off) bytes (off + var (block c) tcp_mss) queue
           (turn e fl bytes off queue c)
    else Some (tt, c).
Proof.
  intros Hp He. cbn [send_loop].
  replace (if Z.of_nat (length bytes) =? 0 then 1 else Z.of_nat (length bytes)) with (Z.max 1 (Z.of_nat (length bytes)))
    by (destruct (Z.eqb_spec (Z.of_nat (length bytes)) 0); lia).
  destruct (off <? _); [|done]. cbv zeta.
  do 4 estep ltac:(reflexivity).
  estep ltac:(by apply (the_endpoint_run p e)).
  do 4 estep ltac:(reflexivity). estep ltac:(apply send_one_run).
  unfold turn, turn_segment, turn_flags, turn_size, last_turn, queued, segment_packet.
  destruct queue; [estep ltac:(reflexivity)|estep ltac:(reflexivity)]; cbn [block on_block var put_var sb_remoteHost sb_localPort
    sb_remotePort endpoints nextPointer sent sg_seq sg_ack sg_len sg_wnd sg_flags sg_payload sg_nBytes]; vars.
  all: f_equal.
Qed.

Lemma typed_turn e fl bytes off queue c p : endpoint (block c) = Some p -> typed c -> typed (turn e fl bytes off queue c).
Proof.
  intros Hp [Hb He (p' & e' & Hp' & He') Hs]. unfold turn. cbv zeta. set (s := turn_segment _ _ _ _ _).
  assert (Hseg : segment_ok s) by (unfold s; split_and!; cbn; try apply wrap_range; try lia; apply Hb).
  assert (Hqs : segment_ok (queued s)).
  { unfold queued. destruct (flag _ _); [done|]. destruct Hseg as (? & ? & ? & ?). by split_and!. }
  assert (Hpk : packet_ok (segment_packet (block c) s)) by (destruct Hb; split_and!; cbn; try apply wrap_range; done || lia).
  set (b1 := put_var snd_wnd _ _).
  assert (Hb1 : block_ok b1 /\ endpoint b1 = endpoint (block c))
    by (unfold b1; apply (mild_comp _ _ (mild_put_var _ _) (mild_comp _ _ (mild_put_var _ _) (mild_put_var _ _))); done).
  destruct Hb1 as [Hb1 He1].
  split; [|done| |]; cbn [block endpoints sent].
  - destruct queue; [|done]. apply mild_put_queue; [|done]. apply Forall_app; split; [|by constructor].
    apply (ok_queue _ Hb).
  - exists p', e'. split; [|done]. destruct queue; cbn; by rewrite ?He1.
  - destruct (route _); [|done]. apply Forall_app; split; [done|by constructor].
Qed.

Lemma turn_block e fl bytes off queue c :
  endpoint (block (turn e fl bytes off queue c)) = endpoint (block c) /\
  endpoints (turn e fl bytes off queue c) = endpoints c /\
  currentState (block (turn e fl bytes off queue c)) = currentState (block c) /\
  (forall x, x <> snd_wnd -> x <> snd_nxt -> x <> seg_seq ->
     var (block (turn e fl bytes off queue c)) x = var (block c) x).
Proof.
  unfold turn. cbv zeta. split_and!; [by destruct queue|done|by destruct queue|].
  intros x ? ? ?. destruct queue; cbn; by rewrite !decide_False.
Qed.

Lemma send_loop_ok fuel : forall fl bytes off queue c, typed c -> 1 <= var (block c) tcp_mss ->
  (0 < fuel)%nat -> Z.max 1 (Z.of_nat (length bytes)) - off < Z.of_nat fuel ->
  hoare False (send_loop route fuel fl bytes off queue) (fun _ c' => typed c') c.
Proof.
  induction fuel as [|fuel IH]; intros fl bytes off queue c Hc Hm H0 Hf; [lia|].
  destruct (typed_endpoint c Hc) as (p & e & Hp & He). unfold hoare. rewrite (send_loop_turn _ _ _ _ _ _ p e Hp He).
  destruct (Z.ltb_spec off (Z.max 1 (Z.of_nat (length bytes)))); [|done].
  destruct (turn_block e fl bytes off queue c) as (_ & _ & _ & Hv).
  apply IH; [by apply (typed_turn _ _ _ _ _ _ p)|by rewrite Hv|lia|lia].
Qed.

Lemma sendSegment_ok fl bytes queue c : typed c -> 1 <= var (block c) tcp_mss ->
  hoare False (sendSegment route fl bytes queue) (fun _ c' => typed c') c.
Proof. intros Hc Hm. apply send_loop_ok; [done|done|lia|lia]. Qed.

Lemma close_sending_ok c : typed c -> 1 <= var (block c) tcp_mss ->
  hoare False (close_sending route) (fun _ c' => typed c') c.
Proof.
  intros Hc Hm. unfold close_sending. cbv zeta. hoare_step. unfold state. do 3 hoare_step.
  assert (Hfin : forall s, hoare False
    (nxt <- get snd_nxt ;; set fin_seq nxt ;; set_state s ;; set seg_wnd 0 ;;
     sendSegment route (Z.lor FIN ACK) [] true ;; nxt <- get snd_nxt ;; set snd_nxt (nxt + 1)) (fun _ c' => typed c') c).
  { intros s. unfold get at 1, set at 1 2, set_state. repeat hoare_step. set (c1 := on_block _ _).
    eapply hoare_mono; [apply sendSegment_ok|].
    - repeat (apply typed_on_block; [eauto with keeps|]). done.
    - cbn. vars. done.
    - intros ? c2 Hc2. cbv beta. apply (keeps_hoare _ typed); [keeps|done|done]. }
  destruct (currentState (block c)); first [apply Hfin|by apply hoare_ret].
Qed.

Lemma send_data_ok bytes push c : typed c -> 1 <= var (block c) tcp_mss ->
  hoare False (send_data route bytes push) (fun _ c' => typed c') c.
Proof.
  intros Hc Hm. unfold send_data. hoare_step. unfold state. do 3 hoare_step.
  assert (Hs : forall z, hoare False (sendSegment route (if push then Z.lor ACK PSH else ACK) bytes true ;; eret z : Op Z)
    (fun _ c' => typed c') c).
  { intros z. hoare_step. eapply hoare_mono; [by apply sendSegment_ok|]. done. }
  destruct bytes; [by hoare_step|]. destruct (currentState (block c)); first [apply Hs|by apply hoare_ret].
Qed.
End Inv.

(** ** The claim *)

(** [m] ends without a fault in a well-formed connection. *)
Definition stays_typed {A} (m : Op A) (c : Conn) : Prop := exists r c', m c = Some (r, c') /\ typed c'.

(** C6. Well-formed connections stay well-formed: in a state where every member of
    the state block fits its type, its queue holds such segments, its endpoint
    exists, the streams are in bounds and every packet sent has fields of their
    widths, no operation dereferences null, leaves an array, blocks or runs for
    ever, and each ends in such a state again.  For a segment: if its options come
    to an end and it acknowledges whole segments of the retransmission queue; for
    sending: if the maximum segment size is not 0. *)
Theorem connection_stays_typed route garbage c : typed c ->
  (forall a, arrival_ok a -> is_Some (read_mss a (var (block c) tcp_mss)) ->
     is_Some (ack_queue (acknum a) (retransmitQueue (block c))) ->
     stays_typed (segment_arrives route garbage a) c) /\
  (1 <= var (block c) tcp_mss ->
     (forall bytes push, stays_typed (send_data route bytes push) c) /\ stays_typed (close_sending route) c) /\
  (forall n peek, stays_typed (recv n peek) c) /\
  (forall delta, stays_typed (timer route delta) c).
Proof.
  intros Hc. unfold stays_typed. split_and!.
  - intros a Ha Hm Hq. by apply hoare_total, segment_arrives_ok.
  - intros Hm. split; [intros|]; apply hoare_total; [by apply send_data_ok|by apply close_sending_ok].
  - intros n peek. by apply hoare_total, keeps_recv.
  - intros delta. by apply hoare_total, keeps_timer.
Qed.

(** A connection between port 80 and port 40000 of another host. *)
Definition sample_vars (x : Var) : Z :=
  match x with
  | snd_una | snd_nxt | fin_seq => 1000 | rcv_nxt => 5000 | iss => 999 | irs => 4999
  | snd_wnd | rcv_wnd => 32768 | tcp_mss => 1460 | _ => 0
  end.

Definition sample (st : TcpState) (s : TcpBuffer) : Conn :=
  mkConn (mkStateBlock st 80 40000 7 sample_vars false 0 (Some 1%nat) 1 [] false false 0 0 0 10)
    {[1%nat := mkTcpEndpoint 1 80 40000 7 [] 0 s s]} 2 [].

Lemma typed_sample st s : in_bounds s -> typed (sample st s).
Proof.
  intros Hs. split; cbn.
  - split; cbn; try (split; done); [|constructor]. intros []; done.
  - intros p e. rewrite lookup_singleton_Some. intros [<- <-]. split; [done|lia].
  - eexists _, _. split; [done|]. apply lookup_singleton_eq.
  - constructor.
Qed.

(** The segments that it may get, next in order, with the given flags. *)
Definition next_segment (fl : Z) (bytes : list Z) : Arrival :=
  mkArrival 7 40000 80 5000 1000 5 fl 8192 0 (fun _ => 0) bytes.

Definition always (_ : Packet) : bool := true.
Definition zeros (_ : nat) : Z := 0.

Lemma connection_stays_typed_witness : exists s, typed (sample ESTABLISHED s) /\
  stays_typed (segment_arrives always zeros (next_segment (Z.lor ACK PSH) [1; 2; 3])) (sample ESTABLISHED s) /\
  stays_typed (send_data always [4; 5] true) (sample ESTABLISHED s).
Proof.
  destruct (construct_run zeros) as (s & _ & Hs & _). exists s. pose proof (typed_sample ESTABLISHED s Hs) as Hc.
  split; [exact Hc|]. destruct (connection_stays_typed always zeros _ Hc) as (H1 & H2 & _). split.
  - apply H1; [repeat split; vm_compute; done|by eexists|by eexists].
  - apply H2. vm_compute. done.
Defined.
