(* ===== verification/TcpStates.v ===== *)
(** * The state machine of a connection

    The states that a segment leads to, as a function of the state, the flags and
    the numbers, and that [segment_arrives] implements it. *)
From Stdlib Require Import ZArith Lia List Bool.
From stdpp Require Import base gmap list.
From S2P Require Import Prelude Hoare TcpBuffer TcpTree Tcp TcpInv.
Import ListNotations.
Local Open Scope Z_scope.
Local Open Scope err_scope.

(** The members once the segment is filled in. *)
Definition arrived (a : Arrival) (v : Var -> Z) (x : Var) : Z :=
  match x with
  | seg_seq => seqnum a
  | seg_ack => acknum a
  | seg_len => wrap 32 (Z.of_nat (length (payload a)))
  | rcv_wnd => wrap 32 (winsize a)
  | _ => v x
  end.

Definition in_flight (v : Var -> Z) : bool := (v snd_una <=? v seg_ack) && (v seg_ack <=? v snd_nxt).

(** The state after the acknowledgement, and after the FIN. *)
Definition after_ack (f : Z) (v : Var -> Z) (st : TcpState) : TcpState :=
  if flag ACK f then
    match st with
    | SYN_RECEIVED => if in_flight v then ESTABLISHED else SYN_RECEIVED
    | FIN_WAIT_1 => if in_flight v && (v fin_seq <=? v seg_ack) then FIN_WAIT_2 else FIN_WAIT_1
    | CLOSING => if in_flight v && (v fin_seq <=? v seg_ack) then CLOSED else CLOSING
    | LAST_ACK => if wrap 32 (v fin_seq + 1) =? v seg_ack then CLOSED else LAST_ACK
    | _ => st
    end
  else st.

Definition after_fin (f : Z) (st : TcpState) : TcpState :=
  if flag FIN f then
    match st with
    | SYN_RECEIVED | ESTABLISHED => CLOSE_WAIT
    | FIN_WAIT_1 => CLOSING
    | FIN_WAIT_2 => TIME_WAIT
    | _ => st
    end
  else st.

Definition next_state (f : Z) (v : Var -> Z) (st : TcpState) : TcpState :=
  match st with
  | SYN_SENT =>
      if flag ACK f && in_flight v then
        if flag RST f then CLOSED else if flag SYN f && (v iss <? v seg_ack) then ESTABLISHED else SYN_SENT
      else SYN_SENT
  | SYN_RECEIVED | ESTABLISHED | FIN_WAIT_1 | FIN_WAIT_2 | CLOSE_WAIT | CLOSING | LAST_ACK =>
      if flag SYN f || negb (acceptable v) then st
      else if flag RST f then CLOSED
      else after_fin f (after_ack f v st)
  | _ => st
  end.

(** What the state machine keeps in the block. *)
Definition obs (b : StateBlock) : TcpState * bool := (currentState b, fin_ack b).

Section States.
Context (route : Packet -> bool) (garbage : nat -> Z) (a : Arrival).

Definition same (b : StateBlock) (c : Conn) : Prop := block c = b.

Lemma same_Tcp_send b host src dst seq ack fl wnd l : keeps True (same b) (Tcp_send route host src dst seq ack fl wnd l).
Proof. unfold Tcp_send. keeps. apply keeps_modify. by intros []. Qed.

Lemma same_lift {A} b (o : option A) : keeps True (same b) (elift o : Op A).
Proof. intros c Hc. apply hoare_lift. by destruct o. Qed.

Lemma same_fail {A} b : keeps True (same b) (efail : Op A).
Proof. by apply keeps_fail. Qed.

Hint Resolve same_Tcp_send same_lift same_fail : keeps.

Lemma same_the_endpoint b : keeps True (same b) the_endpoint.
Proof. unfold the_endpoint. keeps. Qed.

Lemma same_on_stream {A} b e sh (m : TcpBuffer.Op A) : keeps True (same b) (on_stream e sh m).
Proof. unfold on_stream. keeps. Qed.

Hint Resolve same_the_endpoint same_on_stream : keeps.

Lemma same_depositPayload b l push : keeps True (same b) (depositPayload l push).
Proof. unfold depositPayload, deposit. cbv zeta. keeps. all: apply keeps_modify; by intros []. Qed.

(** The rest of the operations keeps what is observed. *)
Definition seen (o : TcpState * bool) (c : Conn) : Prop := obs (block c) = o.

Lemma seen_same {A} (m : Op A) o : (forall b, keeps True (same b) m) -> keeps True (seen o) m.
Proof. intros H c Hc. eapply hoare_mono; [by apply (H (block c))|]. intros ? c' Hb. unfold seen. by rewrite Hb. Qed.

Lemma seen_on_block f o : (forall b, obs (f b) = obs b) -> keeps True (seen o) (emodify (on_block f)).
Proof. intros H. apply keeps_modify. intros c Hc. unfold seen. cbn. by rewrite H. Qed.

Lemma seen_get x o : keeps True (seen o) (get x).
Proof. by intros c Hc. Qed.

Lemma seen_set x v o : keeps True (seen o) (set x v).
Proof. by apply seen_on_block. Qed.

Lemma seen_reply seq ack fl wnd o : keeps True (seen o) (reply route a seq ack fl wnd).
Proof. apply seen_same. intros b. apply same_Tcp_send. Qed.

Lemma seen_depositPayload l push o : keeps True (seen o) (depositPayload l push).
Proof. apply seen_same. intros b. apply same_depositPayload. Qed.

Lemma seen_the_endpoint o : keeps True (seen o) the_endpoint.
Proof. apply seen_same, same_the_endpoint. Qed.

Lemma seen_wait_2msl o : keeps True (seen o) wait_2msl.
Proof. unfold wait_2msl, resetTimer. keeps; by apply seen_on_block. Qed.

Hint Resolve seen_get seen_set seen_reply seen_depositPayload seen_the_endpoint seen_wait_2msl : keeps.

Lemma seen_reply_ack fl o : keeps True (seen o) (reply_ack route a fl).
Proof. unfold reply_ack. keeps. Qed.

Hint Resolve seen_reply_ack : keeps.

Lemma seen_payload_case already o : keeps True (seen o) (payload_case route a already).
Proof. unfold payload_case. cbv zeta. keeps. Qed.

Lemma seen_closed_case o : keeps True (seen o) (closed_case route a).
Proof. unfold closed_case. keeps. Qed.

Lemma seen_state_changed st o : keeps True (seen o) (state_changed st).
Proof. intros c Hc. unfold state_changed, state. repeat hoare_step; [done|]. apply seen_the_endpoint in Hc.
  eapply hoare_mono; [exact Hc|]. intros ? c' Hc'. by repeat hoare_step. Qed.

(** *** The acknowledgement *)

Definition acknowledged_obs (f : Z) (v : Var -> Z) (o : TcpState * bool) : TcpState * bool :=
  if v seg_ack <? v snd_una then o
  else
    let st := if bool_decide (fst o = ESTABLISHED) && flag FIN f then CLOSE_WAIT else fst o in
    if v snd_nxt <? v seg_ack then (st, snd o)
    else if v fin_seq <=? v seg_ack then
      match st with
      | FIN_WAIT_1 | FIN_WAIT_2 => (FIN_WAIT_2, true)
      | CLOSING | LAST_ACK => (CLOSED, true)
      | _ => (st, snd o)
      end
    else (st, snd o).

Lemma fin_without_ack f : flag ACK f = true -> (Z.land f (Z.lor FIN ACK) =? FIN) = false.
Proof.
  intros H. apply Z.eqb_neq. intros E. assert (Z.testbit (Z.land f (Z.lor FIN ACK)) 4 = Z.testbit FIN 4) as E4 by by rewrite E.
  rewrite Z.land_spec in E4. change (Z.testbit (Z.lor FIN ACK) 4) with true in E4.
  change (Z.testbit FIN 4) with false in E4. rewrite andb_true_r in E4. unfold flag in H. apply negb_true_iff, Z.eqb_neq in H.
  apply H. apply Z.bits_inj'. intros n Hn. rewrite Z.land_spec, Z.bits_0.
  destruct (Z.eq_dec n 4) as [->|Hne]; [by rewrite E4|]. apply andb_false_iff. right.
  change ACK with (2 ^ 4). by apply Z.pow2_bits_false.
Qed.

(** The numbers that decide, besides what is observed. *)
Definition track (o : TcpState * bool) (v : Var -> Z) (c : Conn) : Prop :=
  obs (block c) = o /\ var (block c) snd_nxt = v snd_nxt /\ var (block c) seg_ack = v seg_ack /\
  var (block c) fin_seq = v fin_seq.

Lemma track_on_block f o v : (forall b, obs (f b) = obs b /\ var (f b) snd_nxt = var b snd_nxt /\
  var (f b) seg_ack = var b seg_ack /\ var (f b) fin_seq = var b fin_seq) -> keeps True (track o v) (emodify (on_block f)).
Proof. intros H. apply keeps_modify. intros c (? & ? & ? & ?). destruct (H (block c)) as (? & ? & ? & ?). split_and!; cbn; congruence. Qed.

Lemma track_set x z o v : x <> snd_nxt -> x <> seg_ack -> x <> fin_seq -> keeps True (track o v) (set x z).
Proof. intros. apply track_on_block. intros b. cbn. by rewrite !decide_False. Qed.

Lemma track_seen o v c : track o v c -> seen o c.
Proof. by intros []. Qed.

Lemma acknowledged_seen c : flag ACK (hflags a) = true ->
  hoare True (acknowledged route a) (fun _ c' => seen (acknowledged_obs (hflags a) (var (block c)) (obs (block c))) c') c.
Proof.
  intros Hack. unfold acknowledged, acknowledged_obs, get, state. cbv zeta. pose proof (fin_without_ack _ Hack) as Hno.
  set (v := var (block c)). do 8 hoare_step. fold v. hoare_step; rewrite H; [by hoare_step|]. do 4 hoare_step.
  cbn [obs fst snd]. set (st := if bool_decide _ && _ then CLOSE_WAIT else _).
  hoare_step. apply hoare_mono with (Q := fun _ => track (st, fin_ack (block c)) v).
  { unfold st, set_state. hoare_step; rewrite H0; by hoare_step. }
  intros ? c1 Hc1. cbv beta in *. hoare_step. rewrite Hno, andb_false_r. hoare_step. do 4 hoare_step.
  destruct Hc1 as (Ho & Hn & Hk & Hf). rewrite Hn.
  assert (Hc1 : track (st, fin_ack (block c)) v c1) by done.
  hoare_step. eapply hoare_mono; [apply (keeps_when _ _ _ _ (track_set snd_una _ _ _ ltac:(done) ltac:(done) ltac:(done)) _ Hc1)|].
  clear c1 Ho Hn Hk Hf Hc1. intros ? c1 Hc1. cbv beta in *. hoare_step.
  eapply hoare_mono; [apply track_on_block; [done|exact Hc1]|]. clear c1 Hc1. intros ? c1 Hc1. cbv beta in *. do 4 hoare_step.
  hoare_step. eapply hoare_mono; [apply keeps_when; [apply track_on_block; done|exact Hc1]|].
  clear c1 Hc1. intros ? c1 Hc1. cbv beta in *. destruct (v snd_nxt <? v seg_ack).
  { apply (keeps_hoare _ (seen (st, fin_ack (block c)))); [keeps|by eapply track_seen|done]. }
  do 2 hoare_step. destruct Hc1 as (Ho & Hn & Hk & Hf). rewrite Hk, Hf, Hn.
  assert (Hc1 : track (st, fin_ack (block c)) v c1) by done.
  hoare_step. apply track_seen in Hc1.
  eapply hoare_mono with (Q := fun _ => seen (st, fin_ack (block c))).
  { hoare_step; [|done]. apply (keeps_hoare _ (seen (st, fin_ack (block c)))); [keeps|done|done]. }
  intros ? c2 Hc2. cbv beta in *. hoare_step. eapply hoare_mono with (Q := fun _ => seen _); [|intros; by hoare_step].
  assert (currentState (block c1) = st) as -> by (by injection Ho). injection Ho as _ Hfa.
  destruct (v fin_seq <=? v seg_ack); [|by hoare_step].
  destruct st; unfold set_state; repeat hoare_step; try done.
Qed.

Definition ack_obs (f : Z) (v : Var -> Z) (o : TcpState * bool) : TcpState * bool :=
  match fst o with
  | SYN_RECEIVED => if in_flight v then acknowledged_obs f v (ESTABLISHED, snd o) else o
  | ESTABLISHED | FIN_WAIT_1 | FIN_WAIT_2 | CLOSE_WAIT | CLOSING => acknowledged_obs f v o
  | LAST_ACK => if wrap 32 (v fin_seq + 1) =? v seg_ack then (CLOSED, true) else o
  | _ => o
  end.

Definition fin_obs (o : TcpState * bool) : TcpState * bool :=
  match fst o with
  | SYN_RECEIVED | ESTABLISHED => (CLOSE_WAIT, snd o)
  | FIN_WAIT_1 => (if snd o then TIME_WAIT else CLOSING, snd o)
  | FIN_WAIT_2 => (TIME_WAIT, snd o)
  | _ => o
  end.

(** [block c'] has the observations, the numbers and an endpoint as those of [b]. *)
Lemma same_new_endpoint b id host local remote : keeps True (same b) (new_endpoint garbage id host local remote).
Proof. unfold new_endpoint. keeps; first [apply same_lift | by apply keeps_modify]. Qed.

Lemma same_addIncoming b parent e : keeps True (same b) (addIncomingConnection parent e).
Proof. unfold addIncomingConnection. keeps; first [apply same_lift | by apply keeps_modify]. Qed.

(** The end of [ack_case], once the switch has led to [o]. *)
Definition flow_ok (o : TcpState * bool) (r : Flow) (c : Conn) : Prop :=
  seen o c /\ match r with Go _ => fst o <> CLOSED | Break => fst o = CLOSED | Return => False end.

Lemma ack_rest o (r : Flow) c : seen o c -> r <> Return -> r <> Break ->
  hoare True (match r with Go already => closed <- is_state CLOSED ;; eret (if closed : bool then Break else Go already) | _ => eret r end)
    (flow_ok o) c.
Proof.
  intros Ho Hr Hb. destruct r; [|done..]. unfold is_state, state. repeat hoare_step. unfold flow_ok. unfold seen, obs in *.
  subst o. cbn [fst]. by destruct (bool_decide_reflect (currentState (block c) = CLOSED)).
Qed.

Lemma ack_case_seen c : flag ACK (hflags a) = true -> endpoint (block c) <> None ->
  hoare True (ack_case route garbage a) (flow_ok (ack_obs (hflags a) (var (block c)) (obs (block c)))) c.
Proof.
  intros Hack He. unfold ack_case, ackSegment, get at 1. do 8 hoare_step. hoare_step.
  destruct (ack_queue _ _) as [q|]; [|done]. hoare_step. set (c1 := on_block _ c).
  change (var (block c)) with (var (block c1)). change (obs (block c)) with (obs (block c1)).
  change (endpoint (block c)) with (endpoint (block c1)) in He. clearbody c1. clear q c. unfold state at 1. do 4 hoare_step.
  hoare_step. eapply hoare_mono with
    (Q := fun r c' => seen (ack_obs (hflags a) (var (block c1)) (obs (block c1))) c' /\ r <> Return /\ r <> Break);
    [|intros r c' (? & ? & ?); by apply ack_rest].
  assert (Hacked : forall o, ack_obs (hflags a) (var (block c1)) (obs (block c1)) = acknowledged_obs (hflags a) (var (block c1)) o ->
    forall c', var (block c') = var (block c1) -> obs (block c') = o ->
    hoare True (already <- acknowledged route a ;; eret (Go already))
      (fun r c' => seen (ack_obs (hflags a) (var (block c1)) (obs (block c1))) c' /\ r <> Return /\ r <> Break) c').
  { intros o Ho c' Hv Hb. hoare_step. eapply hoare_mono; [by apply acknowledged_seen|]. intros already c2 Hc2. cbv beta in *.
    hoare_step. split; [|done]. by rewrite Ho, <- Hv, <- Hb. }
  unfold ack_obs in *. cbn [obs fst snd] in *. destruct (currentState (block c1)) eqn:Est; try by (hoare_step; unfold seen, obs; rewrite Est).
  all: try by eapply Hacked; [done|done|unfold obs; by rewrite Est].
  - do 2 hoare_step. fold (in_flight (var (block c1))). destruct (in_flight (var (block c1))); cbn [negb].
    2: { hoare_step. eapply hoare_mono; [apply (seen_reply _ _ _ _ (obs (block c1))); done|].
      intros ? c2 Hc2. cbv beta in *. hoare_step. by split. }
    destruct (endpoint (block c1)) as [parent|]; [|done].
    hoare_step. eapply hoare_mono; [by apply (same_new_endpoint (block c1))|]. intros e c2 Hc2. cbv beta in *.
    unfold set_state. do 4 hoare_step. hoare_step.
    eapply hoare_mono; [by apply (same_addIncoming (put_state ESTABLISHED (put_endpoint (Some e) (block c1)))); unfold same in *; cbn; rewrite Hc2|].
    intros ? c3 Hc3. cbv beta in *. eapply Hacked; [done|by rewrite Hc3|by rewrite Hc3].
  - unfold get, set_state. do 8 hoare_step. hoare_step.
    destruct (_ =? _); unfold ewhen; repeat hoare_step; [done|]. split; [|done]. unfold seen, obs. by rewrite Est.
  - unfold resetTimer. repeat hoare_step. split; [|done]. unfold seen, obs. cbn. by rewrite Est.
Qed.

Lemma fin_case_seen already c : hoare True (fin_case route a already) (fun _ => seen (fin_obs (obs (block c)))) c.
Proof.
  unfold fin_case, state. do 4 hoare_step. unfold fin_obs. cbn [obs fst snd].
  destruct (currentState (block c)) eqn:Est; try (hoare_step; unfold seen, obs; by rewrite Est).
  all: do 2 hoare_step; hoare_step;
    (eapply hoare_mono with (Q := fun _ => seen (obs (block c))); [apply (keeps_hoare _ (seen (obs (block c)))); [keeps|done|done]|]);
    intros ? c1 Hc1; cbv beta in *; hoare_step; unfold get at 1; do 3 hoare_step; hoare_step;
    (eapply hoare_mono; [apply (seen_set _ _ _ _ Hc1)|]); clear Hc1; intros ? c2 Hc2; cbv beta in *; hoare_step;
    (eapply hoare_mono with (Q := fun _ => seen (obs (block c))); [apply (keeps_hoare _ (seen (obs (block c)))); [keeps|done|done]|]);
    intros ? c3 Hc3; cbv beta in *; unfold set_state, wait_2msl, resetTimer; unfold seen, obs in Hc3; injection Hc3 as Hs Hf;
    repeat hoare_step; unfold seen, obs; cbn; rewrite ?Hs, <- ?Hf, ?Est; try done.
  all: by match goal with H : fin_ack _ = _ |- _ => rewrite H end.
Qed.

(** The pure part: the observations after the acknowledgement and the FIN are the
    states of [next_state]. *)
Lemma states_of_obs f v st : fst (let o := if flag ACK f then ack_obs f v (st, false) else (st, false) in
    if decide (fst o = CLOSED) then o else if flag FIN f then fin_obs o else o) =
  (if decide (st = CLOSED) then CLOSED else after_fin f (after_ack f v st)).
Proof.
  unfold after_ack, after_fin, ack_obs, acknowledged_obs, in_flight. cbn [fst snd].
  destruct (flag ACK f).
  2: { cbn [fst]. destruct st; cbn; by destruct (flag FIN f). }
  rewrite (Z.ltb_antisym (v snd_una)), (Z.ltb_antisym (v seg_ack)).
  destruct (v snd_una <=? v seg_ack), (v seg_ack <=? v snd_nxt), (v fin_seq <=? v seg_ack), (flag FIN f) eqn:E, st;
    cbn; rewrite ?E; try done; by destruct (wrap 32 (v fin_seq + 1) =? v seg_ack).
Qed.

Definition synchronized (st : TcpState) : bool :=
  match st with
  | SYN_RECEIVED | ESTABLISHED | FIN_WAIT_1 | FIN_WAIT_2 | CLOSE_WAIT | CLOSING | LAST_ACK => true
  | _ => false
  end.

Lemma synchronized_seen c : synchronized (currentState (block c)) = true -> fin_ack (block c) = false ->
  endpoint (block c) <> None ->
  hoare True (synchronized_case route garbage a)
    (fun _ c' => currentState (block c') = next_state (hflags a) (var (block c)) (currentState (block c))) c.
Proof.
  intros Hs Hf He. set (st := currentState (block c)) in *.
  assert (Hn : next_state (hflags a) (var (block c)) st =
    if flag SYN (hflags a) || negb (acceptable (var (block c))) then st
    else if flag RST (hflags a) then CLOSED else after_fin (hflags a) (after_ack (hflags a) (var (block c)) st))
    by (by destruct st). rewrite Hn. clear Hn.
  assert (Ho : obs (block c) = (st, false)) by (unfold obs; by rewrite Hf).
  assert (Hseen : forall m : Op bool, keeps True (seen (st, false)) m ->
    hoare True (_ <- m ;; eret true) (fun (_ : bool) c' => currentState (block c') = st) c).
  { intros m Hm. hoare_step. eapply hoare_mono; [by apply Hm|]. intros ? c1 Hc1. cbv beta in *. hoare_step. by injection Hc1. }
  unfold synchronized_case. do 2 hoare_step.
  destruct (flag SYN (hflags a)); cbn [orb]; [apply Hseen; keeps|].
  destruct (acceptable (var (block c))); cbn [negb]; [|apply Hseen; keeps].
  destruct (flag RST (hflags a)); [by unfold set_state; repeat hoare_step|].
  pose proof (states_of_obs (hflags a) (var (block c)) st) as Hp.
  assert (st <> CLOSED) as Hc by (by intros E; rewrite E in Hs). rewrite (decide_False (P := st = CLOSED)) in Hp by done.
  hoare_step. set (o := if flag ACK (hflags a) then _ else _) in Hp.
  eapply hoare_mono with (Q := flow_ok o).
  { subst o. destruct (flag ACK (hflags a)) eqn:Hack.
    - rewrite <- Ho. by apply ack_case_seen.
    - hoare_step. by split. }
  intros r c1 [Hc1 Hr]. destruct r as [already| |]; [| |done].
  - rewrite decide_False in Hp by done. hoare_step. eapply hoare_mono; [by apply seen_payload_case|].
    intros ? c2 Hc2. cbv beta in *. hoare_step. unfold ewhen. destruct (flag FIN (hflags a)).
    + eapply hoare_mono; [apply fin_case_seen|]. intros ? c3 Hc3. cbv beta in *. hoare_step.
      rewrite Hc2 in Hc3. rewrite <- Hp. unfold seen in Hc3. by rewrite <- Hc3.
    + repeat hoare_step. rewrite <- Hp. unfold seen in Hc2. by rewrite <- Hc2.
  - rewrite decide_True in Hp by done. hoare_step. rewrite <- Hp. unfold seen in Hc1. by rewrite <- Hc1.
Qed.

Lemma syn_sent_seen mss c : currentState (block c) = SYN_SENT -> (forall x, in_word 32 (var (block c) x)) ->
  hoare True (syn_sent_case route a mss)
    (fun _ c' => currentState (block c') = next_state (hflags a) (var (block c)) SYN_SENT) c.
Proof.
  intros Hs Hw. unfold syn_sent_case, next_state, in_flight. do 2 hoare_step. cbv zeta. set (v := var (block c)).
  assert (Hseen : forall (m : Op unit) st o, keeps True (seen (st, o)) m -> forall c', seen (st, o) c' ->
    hoare True m (fun _ c' => currentState (block c') = st) c').
  { intros m st o Hm c' Hc'. eapply hoare_mono; [by apply Hm|]. intros ? c1 Hc1. cbv beta in *. by injection Hc1. }
  assert (Hwr : forall x, wrap 32 (v x) = v x) by (intros x; apply wrap_small, Hw).
  assert (Ho : seen (SYN_SENT, fin_ack (block c)) c) by (unfold seen, obs; by rewrite Hs).
  destruct (flag ACK (hflags a)); cbn [andb]; [|by rewrite ?andb_false_r; cbn; repeat hoare_step].
  destruct (_ && negb (flag RST (hflags a))) eqn:E1.
  { destruct (flag RST (hflags a)); [by rewrite andb_false_r in E1|]. rewrite andb_true_r in E1.
    eapply hoare_mono; [eapply Hseen; [keeps|done]|]. intros ? c1 ->.
    destruct (_ && _) eqn:E2; [|done]. destruct (flag SYN (hflags a)); [|done]. cbn [andb].
    destruct (Z.ltb_spec (v iss) (v seg_ack)); [|done]. apply andb_true_iff in E2 as [_ E2].
    apply orb_true_iff in E1 as [E1|E1]; lia. }
  destruct ((v snd_una <=? v seg_ack) && (v seg_ack <=? v snd_nxt)); cbn [negb]; [|by hoare_step].
  destruct (flag RST (hflags a)); cbn [andb negb]; [by unfold set_state; hoare_step|].
  rewrite andb_true_r in E1. apply orb_false_iff in E1 as [E1 _].
  destruct (flag SYN (hflags a)); cbn [andb]; [|by hoare_step].
  unfold set at 1 2 3, get at 1, set_state. repeat (lazymatch goal with |- hoare _ (if _ then _ else _) _ _ => fail | _ => hoare_step end).
  cbn [block on_block var put_var]. vars. rewrite Hwr, (Z.ltb_antisym (v seg_ack)), E1. cbn [negb].
  do 2 hoare_step. eapply (Hseen _ ESTABLISHED (fin_ack (block c))); [keeps|done].
Qed.

Lemma next_state_arrived w b f st : arrival_ok a -> (forall x, in_word 32 (var b x)) ->
  next_state f (var (filled a w b)) st = next_state f (arrived a (var b)) st.
Proof.
  intros (_ & _ & Hs & Hk) Hw. unfold next_state, after_ack, in_flight, acceptable.
  rewrite !filled_var by done. cbn [arrived]. by rewrite (wrap_small 32 (seqnum a) Hs), (wrap_small 32 (acknum a) Hk).
Qed.

(** [segment_arrives] once the segment is filled in. *)
Lemma dispatch_seen mss c : (forall x, in_word 32 (var (block c) x)) -> fin_ack (block c) = false ->
  endpoint (block c) <> None ->
  hoare True (oldState <- state ;;
      go <- match oldState with
        | CLOSED => closed_case route a ;; eret false
        | SYN_SENT => syn_sent_case route a mss ;; eret true
        | SYN_RECEIVED | ESTABLISHED | FIN_WAIT_1 | FIN_WAIT_2 | CLOSE_WAIT | CLOSING | LAST_ACK => synchronized_case route garbage a
        | TIME_WAIT => wait_2msl ;; eret true
        | _ => eret true
        end ;;
      ewhen go (state_changed oldState) ;; eret (go, mss))
    (fun _ c' => currentState (block c') = next_state (hflags a) (var (block c)) (currentState (block c))) c.
Proof.
  intros Hw Hf Hep. unfold state at 1. do 4 hoare_step. hoare_step.
  apply hoare_mono with (Q := fun _ c' =>
    currentState (block c') = next_state (hflags a) (var (block c)) (currentState (block c))).
  - pose proof (synchronized_seen c) as Hsy. pose proof (syn_sent_seen mss c) as Hss.
    destruct (currentState (block c)) eqn:Est; try by apply Hsy.
    1,2,6: by hoare_step.
    + hoare_step. eapply hoare_mono; [by apply Hss|]. intros. by hoare_step.
    + hoare_step. unfold wait_2msl, resetTimer. repeat hoare_step. exact Est.
    + hoare_step. eapply hoare_mono; [by apply (seen_closed_case (obs (block c)))|]. intros ? c2 Hc2. hoare_step.
      cbv beta in *. injection Hc2 as -> _. by rewrite Est.
  - intros go c2 Hc2. hoare_step. apply hoare_mono with (Q := fun _ c' => currentState (block c') = currentState (block c2));
      [|intros ? c3 Hc3; hoare_step; by rewrite Hc3].
    unfold ewhen. destruct go; [|by hoare_step].
    eapply hoare_mono; [by apply (seen_state_changed _ (obs (block c2)))|]. intros ? c3 Hc3. by injection Hc3.
Qed.

Lemma segment_arrives_seen c : arrival_ok a -> typed c ->
  hoare True (segment_arrives route garbage a)
    (fun _ c' => currentState (block c') = next_state (hflags a) (arrived a (var (block c))) (currentState (block c))) c.
Proof.
  intros Ha Hc. destruct (typed_endpoint c Hc) as (p & e & Hp & He). unfold segment_arrives. hoare_step.
  eapply hoare_mono; [by apply (fill_segment_partial _ _ p e)|]. intros mss c1 Hc1. cbv beta in *.
  assert (Hw : forall x, in_word 32 (var (block c) x)) by apply (ok_vars _ (typed_block c Hc)).
  rewrite <- (next_state_arrived (remaining e)) by done.
  assert (currentState (block c) = currentState (block c1)) as -> by (by rewrite Hc1).
  assert (var (filled a (remaining e) (block c)) = var (block c1)) as -> by (by rewrite Hc1).
  apply dispatch_seen; rewrite Hc1; [|done|].
  - intros x. apply (mild_filled a (remaining e) (block c)), typed_block, Hc.
  - change (endpoint (block c) <> None). by rewrite Hp.
Qed.

Lemma send_loop_state fuel : forall fl bytes off queue c p e, endpoint (block c) = Some p -> endpoints c !! p = Some e ->
  hoare True (send_loop route fuel fl bytes off queue)
    (fun _ c' => currentState (block c') = currentState (block c)) c.
Proof.
  induction fuel as [|fuel IH]; intros fl bytes off queue c p e Hp He; [done|]. unfold hoare.
  rewrite (send_loop_turn _ _ _ _ _ _ _ p e Hp He). destruct (_ <? _); [|done].
  destruct (turn_block route e fl bytes off queue c) as (H1 & H2 & H3 & _). rewrite <- H3.
  apply (IH _ _ _ _ _ p e); by rewrite ?H1, ?H2.
Qed.

(** *** The user and the timer *)

Definition close_state (st : TcpState) : TcpState :=
  match st with ESTABLISHED => FIN_WAIT_1 | CLOSE_WAIT => LAST_ACK | _ => st end.

Lemma close_sending_seen c : typed c ->
  hoare True (close_sending route) (fun _ c' => currentState (block c') = close_state (currentState (block c))) c.
Proof.
  intros Hc. destruct (typed_endpoint c Hc) as (p & e & Hp & He). unfold close_sending. cbv zeta.
  hoare_step. unfold state. do 3 hoare_step.
  assert (Hfin : forall s, hoare True
    (nxt <- get snd_nxt ;; set fin_seq nxt ;; set_state s ;; set seg_wnd 0 ;;
     sendSegment route (Z.lor FIN ACK) [] true ;; nxt <- get snd_nxt ;; set snd_nxt (nxt + 1))
     (fun _ c' => currentState (block c') = s) c).
  { intros s. unfold get at 1, set at 1 2, set_state. repeat hoare_step. set (c1 := on_block _ _).
    eapply hoare_mono; [apply (send_loop_state _ _ _ _ _ c1 p e); done|]. intros ? c2 Hc2. cbv beta in *.
    change (currentState (block c1)) with s in Hc2.
    eapply hoare_mono with (Q := fun _ => seen (obs (block c2))); [apply (keeps_hoare _ (seen (obs (block c2)))); [keeps|done|done]|].
    intros ? c3 Hc3. cbv beta in *. injection Hc3 as -> _. done. }
  destruct (currentState (block c)) eqn:Est; cbn [close_state]; try apply Hfin; hoare_step; by rewrite Est.
Qed.

Lemma send_data_seen bytes push c : typed c ->
  hoare True (send_data route bytes push) (fun _ c' => currentState (block c') = currentState (block c)) c.
Proof.
  intros Hc. destruct (typed_endpoint c Hc) as (p & e & Hp & He). unfold send_data, state. do 4 hoare_step.
  assert (Hs : forall z, hoare True (sendSegment route (if push then Z.lor ACK PSH else ACK) bytes true ;; eret z : Op Z)
    (fun _ c' => currentState (block c') = currentState (block c)) c).
  { intros z. hoare_step. eapply hoare_mono; [by apply (send_loop_state _ _ _ _ _ c p e)|]. intros ? c1 Hc1. by hoare_step. }
  destruct bytes; [by hoare_step|]. destruct (currentState (block c)) eqn:Est; first [apply Hs|hoare_step; exact Est].
Qed.

Lemma timer_seen delta c :
  hoare True (timer route delta)
    (fun freed c' => currentState (block c') = (if freed : bool then CLOSED else currentState (block c)) /\
                     (freed = true -> currentState (block c) = TIME_WAIT)) c.
Proof.
  unfold timer, set_state, resetTimer, send_one, Tcp_send. cbv zeta. repeat hoare_step; try done.
Qed.
End States.

(** C7. The state machine of a connection is [next_state]: for a well-formed
    connection, any segment and any end of the call without a fault, the state
    after [receive] is the one that [next_state] gives for the state before it, the
    flags and the numbers of the segment; closing the sending side, sending and the
    timer change the state only from ESTABLISHED to FIN_WAIT_1, from CLOSE_WAIT to
    LAST_ACK and, when the thread that frees the block is started, from TIME_WAIT
    to CLOSED. *)
Theorem state_machine route garbage c : typed c ->
  (forall a r c', arrival_ok a -> segment_arrives route garbage a c = Some (r, c') ->
     currentState (block c') = next_state (hflags a) (arrived a (var (block c))) (currentState (block c))) /\
  (forall r c', close_sending route c = Some (r, c') ->
     currentState (block c') = close_state (currentState (block c))) /\
  (forall bytes push r c', send_data route bytes push c = Some (r, c') ->
     currentState (block c') = currentState (block c)) /\
  (forall delta freed c', timer route delta c = Some (freed, c') ->
     if freed : bool then currentState (block c) = TIME_WAIT /\ currentState (block c') = CLOSED
     else currentState (block c') = currentState (block c)).
Proof.
  intros Hc. split_and!.
  - intros a r c' Ha H. exact (hoare_partial _ _ _ _ _ (segment_arrives_seen route garbage a c Ha Hc) H).
  - intros r c' H. exact (hoare_partial _ _ _ _ _ (close_sending_seen route c Hc) H).
  - intros bytes push r c' H. exact (hoare_partial _ _ _ _ _ (send_data_seen route bytes push c Hc) H).
  - intros delta freed c' Ht. destruct (hoare_partial _ _ _ _ _ (timer_seen route delta c) Ht) as [H1 H2].
    destruct freed; [split; [by apply H2|done]|done].
Qed.

Lemma state_machine_witness : exists s r c', typed (sample ESTABLISHED s) /\
  segment_arrives always zeros (next_segment (Z.lor ACK FIN) []) (sample ESTABLISHED s) = Some (r, c') /\
  currentState (block c') = CLOSE_WAIT.
Proof.
  destruct (construct_run zeros) as (s & _ & Hs & _). pose proof (typed_sample ESTABLISHED s Hs) as Hc.
  assert (Ha : arrival_ok (next_segment (Z.lor ACK FIN) [])) by (repeat split; vm_compute; done).
  destruct (proj1 (hoare_total _ _ _) (segment_arrives_ok always zeros _ Ha _ Hc ltac:(by eexists) ltac:(by eexists)))
    as (r & c' & Hr & _).
  exists s, r, c'. split; [exact Hc|]. split; [exact Hr|].
  destruct (state_machine always zeros _ Hc) as [H _]. rewrite (H _ _ _ Ha Hr). vm_compute. reflexivity.
Defined.
