(* ===== verification/TcpData.v ===== *)
(** * Data over a connection

    What a segment with data does to the streams of an endpoint, what [send_data]
    hands to the network, and both together: the bytes that one side sends are the
    bytes that the other side reads. *)
From Stdlib Require Import ZArith Lia List Bool.
From stdpp Require Import base gmap list.
From S2P Require Import Prelude Hoare TcpBuffer TcpTree Tcp TcpInv TcpStates.
Import ListNotations.
Local Open Scope Z_scope.
Local Open Scope err_scope.

(** ** Streams *)

(** The endpoint with another stream. *)
Definition with_stream (e : TcpEndpoint) (shadow : bool) (s : TcpBuffer) : TcpEndpoint :=
  mkTcpEndpoint (m_ConnId e) (ep_localPort e) (ep_remotePort e) (ep_remoteHost e)
    (m_IncomingConnections e) (m_IncomingConnectionCount e)
    (if shadow then m_DataStream e else s) (if shadow then s else m_ShadowDataStream e).

Lemma on_stream_run {A} e (shadow : bool) (m : TcpBuffer.Op A) a s c :
  m (if shadow then m_ShadowDataStream e else m_DataStream e) = Some (a, s) ->
  on_stream e shadow m c = Some ((a, with_stream e shadow s), c).
Proof. intros H. unfold on_stream, ebind at 1. unfold elift. by rewrite H. Qed.

(** [qs] is what the shadow stream holds, [qd] what the application can read; both
    have room for [room] bytes more. *)
Record streams (e : TcpEndpoint) (qs qd : list Z) (room : nat) : Prop := {
  shadow_holds : holds (m_ShadowDataStream e) qs;
  data_holds : holds (m_DataStream e) qd;
  shadow_room : (m_Writer (m_ShadowDataStream e) + room < m_BufferSize (m_ShadowDataStream e))%nat;
  data_room : (m_Writer (m_DataStream e) + length qs + room < m_BufferSize (m_DataStream e))%nat
}.

Lemma getSize_run s q : holds s q -> getSize s = Some (m_BufferSize s, s).
Proof. intros (l & _ & _ & Hk & _). unfold getSize, locked, ebind, egets, emodify. rewrite Hk. destruct s; cbn in *. by subst. Qed.

Lemma holds_size s q : holds s q -> (length q <= m_Writer s < m_BufferSize s)%nat /\ m_DataSize s = length q.
Proof. intros (l & _ & _ & _ & ? & ? & ? & _). lia. Qed.

Lemma streams_remaining e qs qd room : streams e qs qd room ->
  Z.of_nat room < remaining e /\ remaining e = Z.of_nat (m_BufferSize (m_ShadowDataStream e)) - Z.of_nat (length qs).
Proof.
  intros [Hs _ Hr _]. destruct (holds_size _ _ Hs) as [? Hd]. unfold remaining, getRemainingSize. rewrite Hd. lia.
Qed.

(** A deposit of some bytes. *)
Lemma deposit_run e qs qd room l (push : bool) c : streams e qs qd (length l + room) -> l <> [] ->
  Z.of_nat (length l) <= 0xFFFF ->
  exists e', deposit e (Some l) push c = Some ((Z.of_nat (length l), e'), c) /\
    if push then streams e' [] (qd ++ qs ++ l) room else streams e' (qs ++ l) qd room.
Proof.
  intros [Hs Hd Hrs Hrd] Hl Hlen. unfold deposit. cbv zeta.
  destruct (Z.ltb_spec 0xFFFF (Z.of_nat (length l))); [lia|].
  destruct (Z.eqb_spec (Z.of_nat (length l)) 0); [destruct l; [done|cbn in *; lia]|].
  destruct (holds_write _ _ l Hs ltac:(lia)) as (s1 & H1 & Hs1 & Hw1 & Hz1).
  estep ltac:(apply on_stream_run; exact H1). cbn [fst snd]. unfold getDataSize.
  change (m_ShadowDataStream (with_stream e true s1)) with s1.
  destruct (holds_size _ _ Hs1) as [Hb1 Hd1]. rewrite Hd1, length_app in *.
  destruct push.
  - rewrite (proj2 (Nat.eqb_neq _ 0)) by (destruct l; [done|cbn; lia]). cbn [negb andb].
    estep ltac:(apply (on_stream_run _ true); by apply (getSize_run s1 (qs ++ l))).
    cbv beta iota zeta. rewrite (proj2 (Nat.ltb_ge _ _)) by lia.
    destruct (holds_read s1 _ (length qs + length l) false Hs1) as (s2 & H2 & Hs2 & Hw2 & Hz2).
    rewrite <- length_app, firstn_all in H2. rewrite <- length_app, skipn_all in Hs2.
    rewrite <- length_app. estep ltac:(apply (on_stream_run _ true); exact H2).
    destruct (holds_write _ _ (qs ++ l) Hd) as (s3 & H3 & Hs3 & Hw3 & Hz3); [rewrite length_app; lia|].
    estep ltac:(apply (on_stream_run _ false); exact H3).
    eexists. split; [reflexivity|]. rewrite length_app in Hw3. split; cbn [m_DataStream m_ShadowDataStream with_stream snd]; try done.
    + rewrite Hw2, Hw1, Hz2, Hz1. lia.
    + rewrite Hw3, Hz3. cbn [length]. lia.
  - cbn [andb]. eexists. split; [reflexivity|]. split; cbn [m_DataStream m_ShadowDataStream with_stream]; try done.
    + lia.
    + rewrite length_app. lia.
Qed.

(** ** A segment with data *)

(** The numbers a segment is judged by, and what else of the connection matters. *)
Record facts (c : Conn) (p : nat) (e : TcpEndpoint) (K N len wnd : Z) : Prop := {
  f_state : currentState (block c) = ESTABLISHED;
  f_endpoint : endpoint (block c) = Some p;
  f_stream : endpoints c !! p = Some e;
  f_queue : retransmitQueue (block c) = [];
  f_una : var (block c) snd_una = K;
  f_nxt : var (block c) snd_nxt = K;
  f_rcv : var (block c) rcv_nxt = N;
  f_seq : var (block c) seg_seq = N;
  f_ack : var (block c) seg_ack = K;
  f_len : var (block c) seg_len = len;
  f_wnd : var (block c) rcv_wnd = wnd
}.

Ltac steps := repeat (lazymatch goal with
  | |- hoare _ (if _ then _ else _) _ _ => fail
  | |- hoare _ (match _ with _ => _ end) _ _ => fail
  | |- hoare _ (ewhen _ _) _ _ => fail
  | _ => hoare_step
  end).

Section Data.
Context (a : Arrival) (push : bool) (garbage : nat -> Z).
Context (Hflags : hflags a = if push then Z.lor ACK PSH else ACK).

Lemma ack_quiet c p e K N len wnd : facts c p e K N len wnd ->
  hoare True (ack_case always garbage a)
    (fun r c' => r = Go false /\ facts c' p e K N len wnd /\ sent c' = sent c /\ nextPointer c' = nextPointer c /\
       sb_localPort (block c') = sb_localPort (block c) /\ var (block c') snd_wnd = var (block c) snd_wnd) c.
Proof using Hflags.
  intros []. unfold ack_case, ackSegment, get at 1, acknowledged, state, get, resetTimer. cbv zeta. steps.
  rewrite f_queue0. cbn [ack_queue]. steps. cbn [block on_block put_queue currentState]. rewrite f_state0. steps.
  cbn [block on_block put_queue put_timer put_waiting var currentState]. rewrite f_ack0, f_una0.
  rewrite Z.ltb_irrefl. steps. cbn [block on_block put_queue currentState]. rewrite f_state0.
  replace (bool_decide (ESTABLISHED = ESTABLISHED) && flag FIN (hflags a)) with false
    by (rewrite Hflags; by destruct push).
  steps. change (bool_decide (ESTABLISHED = FIN_WAIT_1)) with false. cbn [andb]. steps.
  cbn [ewhen]. steps.
  cbn [block on_block put_queue put_timer put_waiting var]. rewrite f_nxt0, f_una0, Z.leb_refl. unfold ewhen at 1. steps.
  cbn [ewhen]. rewrite Z.ltb_irrefl. steps. cbn [block on_block put_queue put_timer put_waiting var currentState].
  rewrite f_una0, f_ack0, Z.ltb_irrefl. cbn [andb ewhen]. steps. rewrite f_state0.
  hoare_step; steps; cbn [block on_block put_queue put_timer put_waiting currentState]; unfold is_state, state; steps;
    cbn [block on_block put_queue put_timer put_waiting currentState]; rewrite f_state0.
  all: change (bool_decide (ESTABLISHED = CLOSED)) with false; steps.
  all: split; [done|]; split; [by split|done].
Qed.

(** The acknowledgement that a segment gets. *)
Definition acks (K N : Z) (p : Packet) : Prop :=
  dest p = from a /\ srcPort p = toPort a /\ destPort p = sourcePort a /\
  seqNumber p = K /\ ackNumber p = N /\ flags p = ACK /\ data p = [].

Lemma payload_in_order c p e K N wnd qs qd room : let l := payload a in let len := Z.of_nat (length l) in
  facts c p e K N len wnd -> streams e qs qd (length l + room) -> l <> [] -> len <= 0xFFFF ->
  in_word 32 K -> 0 <= N -> N + len < 2 ^ 32 ->
  hoare True (payload_case always a false)
    (fun _ c' => currentState (block c') = ESTABLISHED /\ endpoint (block c') = Some p /\
       retransmitQueue (block c') = [] /\ var (block c') snd_una = K /\ var (block c') snd_nxt = K /\
       var (block c') rcv_nxt = N + len /\
       (exists e', endpoints c' !! p = Some e' /\
          if push then streams e' [] (qd ++ qs ++ l) room else streams e' (qs ++ l) qd room) /\
       exists q, sent c' = sent c ++ [q] /\ acks K (N + len) q) c.
Proof using Hflags.
  intros l len [] Hst Hl Hlen HK HN HNl. destruct (streams_remaining _ _ _ _ Hst) as [Hrem _].
  destruct (deposit_run e qs qd room l push c Hst Hl Hlen) as (e' & _ & Hst').
  assert (Hlen0 : 0 < len) by (unfold len; destruct l; [done|cbn; lia]).
  unfold payload_case, depositPayload. cbv zeta. steps. rewrite f_state0, f_seq0, f_rcv0, Z.eqb_refl, f_len0. cbn [negb].
  rewrite (proj2 (Z.eqb_neq len 0)) by lia. rewrite f_endpoint0. steps.
  unfold hoare at 1. rewrite (the_endpoint_run p e) by done. steps. cbn [snd fst].
  rewrite (proj2 (Z.ltb_ge (remaining e) len)) by lia. cbn [ewhen]. unfold get, set. steps. rewrite f_len0.
  unfold hoare at 1. rewrite (the_endpoint_run p e) by done. cbv beta iota. steps.
  replace (take (Z.to_nat len) (payload a)) with l by (unfold len; by rewrite Nat2Z.id, firstn_all).
  replace (flag PSH (hflags a)) with push by (rewrite Hflags; by destruct push).
  destruct (deposit_run e qs qd room l push c Hst Hl Hlen) as (e1 & He1 & Hst1).
  unfold hoare at 1. rewrite He1. cbv beta iota. steps. cbn [fst snd].
  unfold reply_ack, get, reply, Tcp_send, always. steps. cbv zeta. steps.
  cbn [block on_block put_ep put_var var currentState endpoint endpoints retransmitQueue sent]. vars.
  split_and!; try done.
  - change (Z.of_nat (length (payload a))) with len. rewrite wrap_small; [done|]. unfold in_word. lia.
  - exists e1. split; [apply lookup_insert_eq|done].
  - eexists. split; [reflexivity|]. unfold acks. cbn [dest srcPort destPort seqNumber ackNumber flags data].
    split_and!; try done; [rewrite f_nxt0; by apply wrap_small|]. change (Z.of_nat (length (payload a))) with len.
    rewrite wrap_idem. apply wrap_small. unfold in_word. lia.
Qed.
End Data.

(** A connection that waits for byte [N] and has sent nothing beyond [K] that is not
    acknowledged. *)
Record receiving (c : Conn) (p : nat) (K N : Z) (qs qd : list Z) (room : nat) : Prop := {
  r_typed : typed c;
  r_state : currentState (block c) = ESTABLISHED;
  r_endpoint : endpoint (block c) = Some p;
  r_queue : retransmitQueue (block c) = [];
  r_una : var (block c) snd_una = K;
  r_nxt : var (block c) snd_nxt = K;
  r_rcv : var (block c) rcv_nxt = N;
  r_streams : exists e, endpoints c !! p = Some e /\ streams e qs qd room
}.

(** A segment with data, the next one in order. *)
Record in_order (a : Arrival) (push : bool) (K N : Z) : Prop := {
  o_ok : arrival_ok a;
  o_flags : hflags a = if push then Z.lor ACK PSH else ACK;
  o_seq : seqnum a = N;
  o_ack : acknum a = K;
  o_data : payload a <> [];
  o_len : Z.of_nat (length (payload a)) <= 0xFFFF;
  o_next : N + Z.of_nat (length (payload a)) < 2 ^ 32;
  o_wnd : 0 < winsize a;
  o_limit : N + winsize a < 2 ^ 32
}.

Lemma facts_filled a push c p e K N qs qd room : receiving c p K N qs qd room -> in_order a push K N ->
  endpoints c !! p = Some e ->
  facts (on_block (filled a (remaining e)) c) p e K N (Z.of_nat (length (payload a))) (winsize a).
Proof.
  intros [[[]]] [] He. destruct o_ok0 as (_ & _ & Hs & Ha).
  split; try done; cbn [block on_block]; rewrite ?filled_var by done; cbv beta iota;
    rewrite ?wrap_small; try done; try lia; rewrite ?o_seq0, ?o_ack0 in *; unfold in_word in *; try done; lia.
Qed.

Lemma acceptable_next (v : Var -> Z) N wnd : v rcv_nxt = N -> v seg_seq = N -> v rcv_wnd = wnd -> v seg_len <> 0 ->
  0 < wnd -> 0 <= N -> N + wnd < 2 ^ 32 -> acceptable v = true.
Proof.
  intros H1 H2 H3 H4 Hw HN Hl. unfold acceptable. cbv zeta. rewrite H1, H2, H3, (wrap_small 32 (N + wnd)) by (unfold in_word; lia).
  rewrite (proj2 (Z.eqb_neq (v seg_len) 0)), (proj2 (Z.eqb_neq wnd 0)) by lia.
  by rewrite Z.leb_refl, (proj2 (Z.ltb_lt N (N + wnd))) by lia.
Qed.

(** What a segment received in [c] leaves, apart from a typed
    connection. *)
Definition received (a : Arrival) (push : bool) (p : nat) (K M : Z) (qs qd : list Z) (room : nat) (c c' : Conn) : Prop :=
  currentState (block c') = ESTABLISHED /\ endpoint (block c') = Some p /\
  retransmitQueue (block c') = [] /\ var (block c') snd_una = K /\ var (block c') snd_nxt = K /\
  var (block c') rcv_nxt = M /\
  (exists e', endpoints c' !! p = Some e' /\
     if push then streams e' [] (qd ++ qs ++ payload a) room else streams e' (qs ++ payload a) qd room) /\
  exists q, sent c' = sent c ++ [q] /\ acks a K M q.

(** What the segment leaves: the streams have its bytes, the next number is behind
    them and one acknowledgement is sent. *)
Lemma in_order_run garbage a push c p K N qs qd room :
  receiving c p K N qs qd (length (payload a) + room) -> in_order a push K N ->
  exists r c', segment_arrives always garbage a c = Some (r, c') /\
    receiving c' p K (N + Z.of_nat (length (payload a)))
      (if push then [] else qs ++ payload a) (if push then qd ++ qs ++ payload a else qd) room /\
    exists q, sent c' = sent c ++ [q] /\ acks a K (N + Z.of_nat (length (payload a))) q.
Proof.
  intros Hr Ho. pose proof Hr as [Ht Hst Hp Hq Hu Hn Hv (e & He & Hs)]. pose proof Ho as [].
  assert (HK : in_word 32 K) by (rewrite <- Hu; apply (ok_vars _ (typed_block _ Ht))).
  assert (HN : in_word 32 N) by (rewrite <- Hv; apply (ok_vars _ (typed_block _ Ht))).
  apply hoare_total. set (M := N + _). eapply hoare_mono.
  { apply hoare_and_partial with (Q' := fun _ c' => received a push p K M qs qd room c c'); [apply segment_arrives_ok; try done|].
    - unfold read_mss. rewrite o_flags0. destruct push; by eexists.
    - rewrite Hq. by eexists.
    - unfold segment_arrives. hoare_step. eapply hoare_mono; [by apply (fill_segment_partial a c p e)|].
      intros mss c1 ->. cbv beta. pose proof (facts_filled a push c p e K N _ _ _ Hr Ho He) as Hf.
      assert (Hsent : sent (on_block (filled a (remaining e)) c) = sent c) by done.
      revert Hf Hsent. generalize (on_block (filled a (remaining e)) c). intros c1 Hf Hsent.
      unfold state. steps. rewrite (f_state _ _ _ _ _ _ _ Hf). steps.
      unfold synchronized_case. steps. replace (flag SYN (hflags a)) with false by (rewrite o_flags0; by destruct push).
      rewrite (acceptable_next _ N (winsize a)); [|apply Hf..|rewrite (f_len _ _ _ _ _ _ _ Hf); destruct (payload a); done|done|apply HN|done].
      replace (flag RST (hflags a)) with false by (rewrite o_flags0; by destruct push).
      replace (flag ACK (hflags a)) with true by (rewrite o_flags0; by destruct push). cbn [negb]. steps.
      eapply hoare_mono; [by apply (ack_quiet _ push garbage o_flags0 _ _ _ _ _ _ _ Hf)|].
      intros ? c2 (-> & Hf2 & Hs2 & _). cbv beta iota. steps.
      eapply hoare_mono; [by apply (payload_in_order _ push o_flags0 _ _ _ _ _ _ _ _ _ Hf2 Hs); try done; apply HN|].
      intros already c3 (H1 & H2 & H3 & H4 & H5 & H6 & (e' & He' & Hse) & q & Hsq & Hacks). cbv beta. steps.
      replace (flag FIN (hflags a)) with false by (rewrite o_flags0; by destruct push). unfold ewhen at 1. steps.
      unfold ewhen, state_changed, state. steps. rewrite H1, decide_True by done. steps.
      split_and!; try done; [by exists e'|]. exists q. split; [|done]. by rewrite Hsq, Hs2, Hsent. }
  intros r c' (Ht' & H1 & H2 & H3 & H4 & H5 & H6 & (e' & He' & Hse) & Hsent). cbv beta. split; [|done].
  split; try done. exists e'. split; [done|]. by destruct push.
Qed.

(** ** From one side to the other *)

(** A packet of host [h] as the other side gets it, and the arrival of some. *)
Definition as_arrival (h : Z) (q : Packet) : Arrival :=
  mkArrival h (srcPort q) (destPort q) (seqNumber q) (ackNumber q) 5 (flags q) (window q) 0 (fun _ => 0) (data q).

Fixpoint deliver (garbage : nat -> Z) (h : Z) (qs : list Packet) : Op unit :=
  match qs with
  | [] => eret tt
  | q :: qs' => _ <- segment_arrives always garbage (as_arrival h q) ;; deliver garbage h qs'
  end.

(** A connection that can send: [N] is the number of its next byte, [K] the one that
    it waits for, [W] the window that it announces. *)
Record sending (c : Conn) (p : nat) (K N W : Z) : Prop := {
  s_typed : typed c;
  s_endpoint : endpoint (block c) = Some p;
  s_nxt : var (block c) snd_nxt = N;
  s_rcv : var (block c) rcv_nxt = K;
  s_queue : Forall (fun g => wrap 32 (sg_seq g + sg_len g) <= N) (retransmitQueue (block c));
  s_mss : 1 <= var (block c) tcp_mss;
  s_window : exists e, endpoints c !! p = Some e /\ wrap 16 (wrap 32 (remaining e)) = W
}.

Lemma sending_turn e fl bytes off c p K N W : sending c p K N W -> endpoints c !! p = Some e ->
  0 <= turn_size (var (block c)) bytes off -> N + turn_size (var (block c)) bytes off < 2 ^ 32 ->
  sending (turn always e fl bytes off true c) p K (N + turn_size (var (block c)) bytes off) W.
Proof.
  intros [Ht Hp Hn Hr Hq Hm (e' & He & Hw)] He' H0 Hlt. destruct (turn_block always e fl bytes off true c) as (H1 & H2 & _ & Hv).
  assert (HN : in_word 32 N) by (rewrite <- Hn; apply (ok_vars _ (typed_block _ Ht))). unfold in_word in HN.
  split; [by apply (typed_turn always e fl bytes off true c p)|by rewrite H1| |by rewrite Hv| |by rewrite Hv|exists e'; by rewrite H2].
  - unfold turn. cbn [block put_queue put_var var]. vars. rewrite Hn. apply wrap_small. unfold in_word; lia.
  - unfold turn. cbn [block put_queue put_var retransmitQueue]. apply Forall_app. split; [eapply Forall_impl; [exact Hq|]; cbv beta; lia|].
    constructor; [|done]. unfold queued, turn_segment. destruct (flag _ _); cbn [sg_seq sg_len]; rewrite Hn, (wrap_small 32 N), (wrap_small 32 (turn_size _ _ _)), wrap_small; unfold in_word; lia.
Qed.

(** The packet of a turn of the loop of [sendSegment] *)
Lemma turn_packet e bytes off c p K N W (push : bool) : sending c p K N W -> endpoints c !! p = Some e ->
  0 <= off < Z.of_nat (length bytes) -> Z.of_nat (length bytes) <= 0xFFFF ->
  let v := var (block c) in
  let fl := turn_flags v (if push then Z.lor ACK PSH else ACK) bytes off in
  segment_packet (block c) (turn_segment v (remaining e) (if push then Z.lor ACK PSH else ACK) bytes off) =
    mkPacket (sb_remoteHost (block c)) (sb_localPort (block c)) (sb_remotePort (block c)) N K
      (if push || last_turn v bytes off then Z.lor ACK PSH else ACK) W
      (take (Z.to_nat (turn_size v bytes off)) (drop (Z.to_nat off) bytes)).
Proof.
  intros [Ht Hp Hn Hr Hq Hm (e' & He & Hw)] He' Ho Hl v fl. simplify_eq.
  assert (Hsz : 0 <= turn_size v bytes off <= 0xFFFF).
  { unfold turn_size, last_turn. fold v in Hm. destruct (Z.leb_spec (Z.of_nat (length bytes)) (off + v tcp_mss)); lia. }
  pose proof (ok_vars _ (typed_block _ Ht)) as Hv.
  unfold segment_packet, turn_segment. cbn [sg_seq sg_ack sg_len sg_wnd sg_flags sg_payload sg_nBytes].
  assert (Hfl : turn_flags v (if push then Z.lor ACK PSH else ACK) bytes off =
                if push || last_turn v bytes off then Z.lor ACK PSH else ACK).
  { unfold turn_flags. rewrite (proj2 (Z.eqb_neq (Z.of_nat (length bytes)) 0)) by lia.
    by destruct push, (last_turn v bytes off). }
  rewrite Hfl, wrap_idem, (proj2 (Z.eqb_neq (Z.of_nat (length bytes)) 0)) by lia.
  replace (flag ACK (if push || last_turn v bytes off then _ else ACK)) with true by (by destruct (push || _)).
  rewrite (wrap_small 32 (turn_size v bytes off)) by (unfold in_word; lia).
  rewrite take_take, Nat.min_id, !wrap_small by apply Hv.
  f_equal. by destruct (push || _).
Qed.

(** The last packet sent acknowledges what is before [M]. *)
Definition acked (M : Z) (c : Conn) : Prop := exists q, last (sent c) = Some q /\ ackNumber q = M.

(** A turn of the loop and the arrival of its packet. *)
Lemma turn_delivered garbage h (push : bool) bytes off c p e K N W r pr qs qd room :
  let v := var (block c) in let s := turn_size v bytes off in
  let last := push || last_turn v bytes off in
  let l := take (Z.to_nat s) (drop (Z.to_nat off) bytes) in
  let c1 := turn always e (if push then Z.lor ACK PSH else ACK) bytes off true c in
  sending c p K N W -> endpoints c !! p = Some e ->
  receiving r pr K N qs qd (length bytes - Z.to_nat off + room) ->
  0 <= off < Z.of_nat (length bytes) -> Z.of_nat (length bytes) <= 0xFFFF -> 0 < W ->
  0 < s <= Z.of_nat (length bytes) - off -> N + s < 2 ^ 32 -> N + W < 2 ^ 32 ->
  exists q r1, sending c1 p K (N + s) W /\ sent c1 = sent c ++ [q] /\ deliver garbage h [q] r = Some (tt, r1) /\
    receiving r1 pr K (N + s) (if last then [] else qs ++ l) (if last then qd ++ qs ++ l else qd)
      (length bytes - Z.to_nat (off + s) + room) /\
    length (sent r1) = S (length (sent r)) /\ acked (N + s) r1.
Proof.
  intros v s last l c1 Hc He Hr Ho Hl HW Hs HN HNW. pose proof Hc as [Ht Hp Hn Hk _ Hm _].
  pose proof (sending_turn e (if push then Z.lor ACK PSH else ACK) bytes off c p K N W Hc He ltac:(fold v s; lia) ltac:(fold v s; lia)) as Hc1.
  pose proof (turn_packet e bytes off c p K N W push Hc He Ho Hl) as Hpk. cbv zeta in Hpk.
  fold v s l last in Hpk. fold v s c1 in Hc1. set (q := mkPacket _ _ _ _ _ _ _ _) in Hpk.
  assert (Hlen : length l = Z.to_nat s) by (unfold l; rewrite length_take, length_drop; lia).
  assert (Hord : in_order (as_arrival h q) last K N).
  { pose proof (ok_vars _ (typed_block _ Ht)) as Hv. split; try done; change (payload (as_arrival h q)) with l; rewrite ?Hlen; try lia.
    - split_and!; cbn; [apply (typed_block _ Ht)..|rewrite <- Hn; apply Hv|rewrite <- Hk; apply Hv].
    - intros Hnil. rewrite Hnil in Hlen. cbn in Hlen. lia. }
  destruct (in_order_run garbage _ _ r pr K N qs qd (length bytes - Z.to_nat (off + s) + room) ltac:(
    replace (length (payload (as_arrival h q)) + _)%nat with (length bytes - Z.to_nat off + room)%nat; [exact Hr|];
    change (payload (as_arrival h q)) with l; rewrite Hlen; lia) Hord) as (x & r1 & Hr1 & Hrec & qa & Hqa & Hack).
  change (payload (as_arrival h q)) with l in Hrec. rewrite Hlen, Z2Nat.id in Hrec by lia.
  exists q, r1. split_and!; try done.
  - unfold c1, turn. cbn [sent always]. fold v. by rewrite Hpk.
  - cbn [deliver]. by estep ltac:(exact Hr1).
  - rewrite Hqa, length_app. cbn. lia.
  - exists qa. rewrite Hqa, last_snoc. split; [done|]. destruct Hack as (_ & _ & _ & _ & -> & _).
    change (payload (as_arrival h q)) with l. lia.
Qed.

Lemma deliver_cons garbage h q ps r r1 : deliver garbage h [q] r = Some (tt, r1) ->
  deliver garbage h (q :: ps) r = deliver garbage h ps r1.
Proof.
  cbn [deliver]. unfold ebind. destruct (segment_arrives _ _ _ r) as [[x r2]|]; [|done]. by intros [= <-].
Qed.

(** The packets of the rest of the loop, one per turn. *)
Lemma transfer garbage h (push : bool) bytes : forall fuel off c p K N W r pr qs qd room,
  sending c p K N W -> receiving r pr K N qs qd (length bytes - Z.to_nat off + room) ->
  0 <= off < Z.of_nat (length bytes) -> Z.of_nat (length bytes) <= 0xFFFF -> 0 < W ->
  N + (Z.of_nat (length bytes) - off) + W < 2 ^ 32 ->
  Z.of_nat (length bytes) - off < Z.of_nat fuel ->
  exists c' ps r', let M := N + (Z.of_nat (length bytes) - off) in
    send_loop always fuel (if push then Z.lor ACK PSH else ACK) bytes off true c = Some (tt, c') /\
    sent c' = sent c ++ ps /\ sending c' p K M W /\
    deliver garbage h ps r = Some (tt, r') /\
    receiving r' pr K M [] (qd ++ qs ++ drop (Z.to_nat off) bytes) room /\
    length (sent r') = (length (sent r) + length ps)%nat /\ acked M r'.
Proof.
  induction fuel as [|fuel IH]; intros off c p K N W r pr qs qd room Hc Hr Ho Hl HW HNW Hf; [lia|].
  pose proof Hc as [_ Hp _ _ _ Hm (e & He & _)].
  rewrite (send_loop_turn always _ _ _ _ _ c p e Hp He), (proj2 (Z.ltb_lt off _)) by lia.
  set (s := turn_size (var (block c)) bytes off).
  assert (Hs : 0 < s <= Z.of_nat (length bytes) - off /\
    if last_turn (var (block c)) bytes off then s = Z.of_nat (length bytes) - off /\ Z.of_nat (length bytes) <= off + var (block c) tcp_mss
    else s = var (block c) tcp_mss /\ off + s < Z.of_nat (length bytes)).
  { unfold s, turn_size, last_turn. destruct (Z.leb_spec (Z.of_nat (length bytes)) (off + var (block c) tcp_mss)); lia. }
  destruct Hs as [Hs Hlast].
  destruct (turn_delivered garbage h push bytes off c p e K N W r pr qs qd room Hc He Hr Ho Hl HW Hs) as (q & r1 & Hc1 & Hsent & Hr1 & Hrec & Hq & Hack);
    [fold s; lia|lia|]. fold s in Hc1, Hrec, Hack.
  assert (Hbytes : take (Z.to_nat s) (drop (Z.to_nat off) bytes) ++ drop (Z.to_nat (off + s)) bytes = drop (Z.to_nat off) bytes)
    by (rewrite Z2Nat.inj_add, <- drop_drop by lia; apply take_drop).
  set (l := take _ _) in *. unfold turn_flags. destruct (last_turn (var (block c)) bytes off) eqn:Elast; destruct Hlast as [Hs1 Hend].
  - replace (off + s) with (Z.of_nat (length bytes)) in Hbytes, Hrec by lia.
    rewrite Nat2Z.id, skipn_all, app_nil_r in Hbytes. rewrite orb_true_r, Hbytes, Nat2Z.id, Nat.sub_diag in Hrec.
    destruct fuel as [|fuel]; [lia|].
    eexists _, [q], r1. cbv zeta. rewrite <- Hs1 in *.
    rewrite (send_loop_turn always _ _ _ _ _ _ p e), (proj2 (Z.ltb_ge _ _)) by (done || lia).
    split_and!; try done. cbn. lia.
  - rewrite <- Hs1. cbn [andb]. rewrite orb_false_r in Hrec.
    destruct (IH (off + s) _ p K (N + s) W r1 pr _ _ room Hc1 Hrec) as (c2 & ps & r2 & H1 & H2 & H3 & H4 & H5 & H6 & H7); try lia.
    exists c2, (q :: ps), r2. cbv zeta in *. rewrite (deliver_cons _ _ _ _ _ r1 Hr1).
    replace (N + (Z.of_nat (length bytes) - off)) with (N + s + (Z.of_nat (length bytes) - (off + s))) by lia.
    split_and!; try done.
    + by rewrite H2, Hsent, <- app_assoc.
    + rewrite <- Hbytes. destruct push; [by rewrite app_nil_l, <- !app_assoc in H5|by rewrite <- app_assoc in H5].
    + cbn. lia.
Qed.

Lemma ack_queue_covered M q : Forall (fun g => wrap 32 (sg_seq g + sg_len g) <= M) q -> ack_queue M q = Some [].
Proof. induction 1 as [|g q Hg _ IH]; [done|]. cbn [ack_queue]. by rewrite (proj2 (Z.leb_le _ _) Hg). Qed.

Lemma recv_run c p K N qs qd room n peek : receiving c p K N qs qd room ->
  exists c', recv n peek c = Some (take n qd, c').
Proof.
  intros [_ _ Hp _ _ _ _ (e & He & Hs)]. destruct (holds_read _ _ n peek (data_holds _ _ _ _ Hs)) as (s & Hr & _).
  unfold recv. eexists. estep ltac:(by apply (the_endpoint_run p e)). cbv beta iota.
  estep ltac:(apply (on_stream_run e false); exact Hr). reflexivity.
Qed.

(** ** The claim *)

(** C8. What one side sends the other side reads: for two connections that agree on
    the next byte [N] of the one and [K] of the other, and that have no more than
    65535 bytes, room for them, a window that is not 0 and no wrap-around of the
    numbers before them, [send] cuts the bytes into segments of at most the maximum
    segment size and ends; if its packets arrive in order, the other side can read
    all it held before and these bytes, in order, waits for the byte behind them and
    has sent one acknowledgement per packet; and that acknowledgement empties the
    retransmission queue of the sender. *)
Theorem stream_transfer garbage h (push : bool) bytes c p K N W r pr qs qd room :
  currentState (block c) = ESTABLISHED \/ currentState (block c) = CLOSE_WAIT ->
  sending c p K N W -> receiving r pr K N qs qd (length bytes + room) ->
  bytes <> [] -> Z.of_nat (length bytes) <= 0xFFFF -> 0 < W -> N + Z.of_nat (length bytes) + W < 2 ^ 32 ->
  exists c' ps r', let M := N + Z.of_nat (length bytes) in
    send_data always bytes push c = Some (Z.of_nat (length bytes), c') /\
    sent c' = sent c ++ ps /\ sending c' p K M W /\ ack_queue M (retransmitQueue (block c')) = Some [] /\
    deliver garbage h ps r = Some (tt, r') /\
    receiving r' pr K M [] (qd ++ qs ++ bytes) room /\ length (sent r') = (length (sent r) + length ps)%nat /\ acked M r' /\
    exists r2, recv (length (qd ++ qs ++ bytes)) false r' = Some (qd ++ qs ++ bytes, r2).
Proof.
  intros Hst Hc Hr Hb Hl HW HN.
  destruct (transfer garbage h push bytes (length bytes + 2) 0 c p K N W r pr qs qd room Hc) as (c' & ps & r' & H1 & H2 & H3 & H4 & H5 & H6 & H7);
    [by rewrite Nat.sub_0_r|destruct bytes; [done|cbn [length]; lia]|lia..|].
  cbv zeta in *. rewrite Z.sub_0_r in *. cbn [drop Z.to_nat] in H5.
  destruct (recv_run _ _ _ _ _ _ _ (length (qd ++ qs ++ bytes)) false H5) as (r2 & Hrecv). rewrite firstn_all in Hrecv.
  exists c', ps, r'. split_and!; try done; [|apply ack_queue_covered, (s_queue _ _ _ _ _ H3)|by exists r2].
  unfold send_data. estep ltac:(reflexivity). destruct bytes as [|b bytes]; [done|].
  destruct Hst as [-> | ->]; by estep ltac:(exact H1).
Qed.

(** The other side of [sample]. *)
Definition peer (s : TcpBuffer) : Conn :=
  mkConn (mkStateBlock ESTABLISHED 40000 80 9
            (fun x => match x with snd_una | snd_nxt => 5000 | rcv_nxt => 1000 | tcp_mss => 536 | _ => 0 end)
            false 0 (Some 1%nat) 1 [] false false 0 0 0 10)
    {[1%nat := mkTcpEndpoint 1 40000 80 9 [] 0 s s]} 2 [].

Lemma typed_peer s : in_bounds s -> typed (peer s).
Proof.
  intros Hs. split; cbn.
  - split; cbn; try (split; done); [|constructor]. intros []; done.
  - intros p e. rewrite lookup_singleton_Some. intros [<- <-]. split; [done|lia].
  - eexists _, _. split; [done|]. apply lookup_singleton_eq.
  - constructor.
Qed.

Lemma stream_transfer_witness : exists s c' ps r' r2,
  sending (sample ESTABLISHED s) 1 5000 1000 32768 /\
  send_data always [1; 2; 3] true (sample ESTABLISHED s) = Some (3, c') /\
  deliver zeros 9 ps (peer s) = Some (tt, r') /\ recv 3 false r' = Some ([1; 2; 3], r2).
Proof.
  destruct (construct_run zeros) as (s & _ & Hs & Hh & Hw & Hz). pose proof (typed_sample ESTABLISHED s Hs) as Hc.
  pose proof (holds_size _ _ Hh) as [_ Hd]. cbn in Hd.
  assert (Hsend : sending (sample ESTABLISHED s) 1 5000 1000 32768).
  { split; try done. eexists. split; [apply lookup_singleton_eq|]. unfold remaining, getRemainingSize. cbn [m_ShadowDataStream].
    rewrite Hd, Hz. vm_compute. reflexivity. }
  assert (Hrec : receiving (peer s) 1 5000 1000 [] [] (3 + 0)).
  { split; try done; [by apply typed_peer|]. eexists. split; [apply lookup_singleton_eq|].
    split; try done; cbn [m_DataStream m_ShadowDataStream length]; rewrite Hw, Hz; apply Nat.ltb_lt; vm_compute; reflexivity. }
  destruct (stream_transfer zeros 9 true [1; 2; 3] (sample ESTABLISHED s) _ _ _ _ _ _ [] [] 0 (or_introl eq_refl) Hsend Hrec) as
    (c' & ps & r' & H1 & _ & _ & _ & H2 & _ & _ & _ & r2 & H3); [done|vm_compute; done|done|vm_compute; done|].
  exists s, c', ps, r', r2. split; [exact Hsend|]. split; [exact H1|]. split; [exact H2|exact H3].
Defined.
