(* ===== verification/TcpRuns.v ===== *)
(** * Runs of the TCP manager

    The ephemeral ports and the connection ids, two hosts that open a connection,
    exchange data and close it, and what goes wrong where the code does not do what
    it means to. *)
From Stdlib Require Import ZArith Lia List Bool.
From stdpp Require Import base gmap list.
From S2P Require Import Prelude Bitmap TcpBuffer TcpTree Tcp TcpManager TcpInv TcpData.
Import ListNotations.
Local Open Scope Z_scope.
Local Open Scope err_scope.

(** ** The ports of a new manager *)

(** The bytes of an array of which the first [m] bits are set. *)
Definition ones_below (m : Z) (sz : nat) : list Z := map (fun j => Z.ones (Z.max 0 (Z.min 8 (m - 8 * Z.of_nat j)))) (seq 0 sz).

(** The bitmap after [32 + m] rounds of the constructor's loop, but for two of its members. *)
Definition array_size (m : Z) : nat := Z.to_nat (8 * ((m - 1) / 64 + 1)).
Definition marked (m : Z) (sz : nat) (fc ls : Z) : ExtensibleBitmap :=
  mkBitmap 0xFFFFFFFF (Some (ones_below m sz)) (Z.of_nat sz) (m - 1) 0 fc ls 0.

Lemma lookup_ones_below m sz j : (j < sz)%nat -> ones_below m sz !! j = Some (Z.ones (Z.max 0 (Z.min 8 (m - 8 * Z.of_nat j)))).
Proof. intros Hj. unfold ones_below. by rewrite list_lookup_fmap, lookup_seq_lt by done. Qed.

Lemma length_ones_below m sz : length (ones_below m sz) = sz.
Proof. unfold ones_below. by rewrite length_map, length_seq. Qed.

Lemma ones_below_grow m sz k : 0 <= m <= 8 * Z.of_nat sz -> ones_below m sz ++ replicate k 0 = ones_below m (sz + k).
Proof.
  intros Hm. unfold ones_below. rewrite seq_app, map_app. f_equal. symmetry. apply list_eq. intros i.
  rewrite list_lookup_fmap. destruct (decide (i < k)%nat) as [Hi|Hi].
  - rewrite lookup_seq_lt, lookup_replicate_2 by done. cbn [fmap option_fmap option_map]. f_equal.
    by rewrite Z.max_l by lia.
  - rewrite lookup_seq_ge, (lookup_ge_None_2 (replicate k 0)) by (rewrite ?length_replicate; lia). done.
Qed.

Lemma ones_lor n : 0 <= n -> Z.lor (Z.ones n) (2 ^ n) = Z.ones (n + 1).
Proof.
  intros Hn. apply Z.bits_inj'. intros i Hi. rewrite Z.lor_spec, Z.pow2_bits_eqb by lia.
  destruct (Z.eqb_spec n i) as [->|]; [by rewrite orb_true_r, (Z.ones_spec_low (i + 1)) by lia|]. rewrite orb_false_r.
  destruct (Z.ltb_spec i n); [by rewrite !Z.ones_spec_low by lia|by rewrite !Z.ones_spec_high by lia].
Qed.

Lemma ones_below_set m sz : 0 <= m < 8 * Z.of_nat sz ->
  <[Z.to_nat (m / 8) := wrap 8 (Z.lor (Z.ones (m mod 8)) (2 ^ (m mod 8)))]> (ones_below m sz) = ones_below (m + 1) sz.
Proof.
  intros Hm. pose proof (Z.mod_pos_bound m 8). rewrite ones_lor by lia. rewrite wrap_small.
  2:{ rewrite Z.ones_equiv. pose proof (Z.pow_le_mono_r 2 (m mod 8 + 1) 8). pose proof (Z.pow_pos_nonneg 2 (m mod 8 + 1)). unfold in_word. lia. }
  apply list_eq. intros j. destruct (decide (j < sz)%nat) as [Hj|Hj].
  2:{ rewrite !lookup_ge_None_2 by (rewrite ?length_insert, ?length_ones_below; lia). done. }
  rewrite lookup_ones_below by done. destruct (decide (j = Z.to_nat (m / 8))) as [->|Hne].
  - rewrite list_lookup_insert_eq by by rewrite length_ones_below. do 2 f_equal. zlia.
  - rewrite list_lookup_insert_ne, lookup_ones_below by done. do 2 f_equal. zlia.
Qed.

Lemma grow_marked m fc ls : 0 < m -> Bitmap.grow m (marked m (array_size m) fc ls) = Some (tt, marked m (array_size (m + 1)) fc ls).
Proof.
  intros Hm. unfold Bitmap.grow, ebind, egets, ewhen. cbn [marked m_DynamicMapSize m_pDynamicMap].
  assert (E : (Z.of_nat (array_size m) = 8 * ((m - 1) / 64 + 1))) by (unfold array_size; rewrite Z2Nat.id; zlia).
  assert (E' : (Z.of_nat (array_size (m + 1)) = 8 * (m / 64 + 1))).
  { unfold array_size. replace (m + 1 - 1) with m by lia. rewrite Z2Nat.id; zlia. }
  destruct (Z.leb_spec (Z.of_nat (array_size m)) (m / 8)) as [H|H].
  - rewrite (proj2 (Z.eqb_neq _ 0)) by zlia. unfold put_map, emodify. cbn. unfold marked.
    assert (Es : array_size (m + 1) = (array_size m + Z.to_nat (m / 8 + 8 - Z.of_nat (array_size m)))%nat) by zlia.
    rewrite ones_below_grow by zlia. rewrite Es. repeat f_equal; zlia.
  - unfold eret. replace (array_size (m + 1)) with (array_size m) by zlia. done.
Qed.

Lemma set_bit_marked m fc ls : 0 < m -> Bitmap.set_bit 32 (32 + m) (marked m (array_size m) fc ls) = Some (tt, marked (m + 1) (array_size (m + 1)) fc ls).
Proof.
  intros Hm. unfold Bitmap.set_bit. rewrite (proj2 (Z.ltb_ge _ 32)) by lia. replace (32 + m - 32) with m by lia.
  estep ltac:(by apply grow_marked). set (sz := array_size (m + 1)).
  assert (Hsz : 0 <= m < 8 * Z.of_nat sz).
  { subst sz. unfold array_size. replace (m + 1 - 1) with m by lia. rewrite Z2Nat.id; zlia. }
  assert (Hl : ones_below m sz !! Z.to_nat (m / 8) = Some (Z.ones (m mod 8))).
  { rewrite lookup_ones_below by zlia. do 2 f_equal. zlia. }
  estep ltac:(by apply (map_read_run _ (ones_below m sz))).
  estep ltac:(by rewrite (map_write_run (marked m sz fc ls) (ones_below m sz) _ _ _ eq_refl Hl)).
  rewrite ones_below_set by done. unfold ebind, egets, ewhen. cbn. rewrite (proj2 (Z.ltb_lt _ _)) by lia.
  unfold put_max, emodify, marked. cbn. repeat f_equal. lia.
Qed.

Lemma set_port_marked m : 0 < m < 2 ^ 30 -> set_port (32 + m) (marked m (array_size m) (32 + m) (31 + m)) =
  Some (tt, marked (m + 1) (array_size (m + 1)) (33 + m) (32 + m)).
Proof.
  intros Hm. unfold set_port, Bitmap.set, ebind, egets, ewhen. cbn [marked m_nFirstSetBit].
  rewrite (proj2 (Z.ltb_ge _ _)) by lia. unfold eret. cbn [m_nLastSetBit marked]. rewrite (proj2 (Z.ltb_lt _ _)) by lia.
  cbn [put_last_set emodify m_nFirstClearBit marked]. rewrite Z.eqb_refl.
  assert (Hf : loop_fuel (marked m (array_size m) (32 + m) (31 + m)) = S (Z.to_nat (33 + m))) by (unfold loop_fuel; cbn; lia).
  rewrite Hf. cbn [skip_set]. unfold ebind, egets. cbn [m_nFirstClearBit put_first_clear emodify].
  assert (Hw : wrap 32 (32 + m + 1) = 33 + m).
  { rewrite wrap_small; [lia|]. unfold in_word. change (2 ^ 32) with (4 * 2 ^ 30). change (2 ^ 30) with 1073741824 in *. lia. }
  rewrite Hw. unfold Bitmap.test, ebind, egets, eret. rewrite (proj2 (Z.ltb_ge (33 + m) 32)) by lia.
  cbn [marked m_StaticMap m_pDynamicMap m_DynamicMapSize m_nMaxBit m_nFirstSetBit m_nFirstClearBit m_nLastSetBit m_nLastClearBit].
  rewrite (proj2 (Z.ltb_lt (m - 1) (33 + m - 32))) by lia. cbn [orb]. apply (set_bit_marked m (33 + m) (32 + m)). lia.
Qed.

Lemma mark_ports_marked n : (33 <= n)%nat -> Z.of_nat n < 2 ^ 30 ->
  mark_ports n empty_bitmap = Some (tt, let m := Z.of_nat n - 32 in marked m (array_size m) (32 + m) (31 + m)).
Proof.
  intros Hn. induction Hn as [|n Hn IH]; intros Hlt; [vm_compute; reflexivity|].
  cbn [mark_ports]. rewrite (ebind_run _ _ _ _ _ (IH ltac:(lia))). cbv zeta.
  replace (Z.of_nat n) with (32 + (Z.of_nat n - 32)) at 1 by lia. rewrite set_port_marked by lia.
  replace (Z.of_nat (S n) - 32) with (Z.of_nat n - 32 + 1) by lia.
  replace (33 + (Z.of_nat n - 32)) with (32 + (Z.of_nat n - 32 + 1)) by lia.
  by replace (31 + (Z.of_nat n - 32 + 1)) with (32 + (Z.of_nat n - 32)) by lia.
Qed.

Lemma mark_ports_start : mark_ports (Z.to_nat BASE_EPHEMERAL_PORT) empty_bitmap = Some (tt, marked_ports).
Proof.
  rewrite mark_ports_marked; [|apply Nat.leb_le; vm_compute; reflexivity|unfold BASE_EPHEMERAL_PORT; lia].
  rewrite Z2Nat.id by done. vm_compute. reflexivity.
Qed.

Lemma mark_ports_represents n : Z.of_nat n <= 2 ^ 31 ->
  exists b X, mark_ports n empty_bitmap = Some (tt, b) /\ represents b X /\ forall i, 0 <= i -> i ∈ X <-> i < Z.of_nat n.
Proof.
  induction n as [|n IH]; intros Hn.
  - exists empty_bitmap, ∅. split; [done|]. split; [apply empty_represents|]. intros i Hi. split; [set_solver|lia].
  - destruct (IH ltac:(lia)) as (b & X & Hrun & HX & Hi). destruct (set_represents b X (Z.of_nat n) HX) as (b' & Hset & HX' & _); [lia|].
    exists b', ({[Z.of_nat n]} ∪ X). cbn [mark_ports]. rewrite (ebind_run _ _ _ _ _ Hrun). unfold set_port. rewrite Hset by done.
    split; [done|]. split; [done|]. intros i H0. rewrite elem_of_union, elem_of_singleton, Hi by done. lia.
Qed.

Lemma start_represents : exists X, represents (m_EphemeralPorts new_manager) X /\ forall i, 0 <= i -> i ∈ X <-> i < BASE_EPHEMERAL_PORT.
Proof.
  destruct (mark_ports_represents (Z.to_nat BASE_EPHEMERAL_PORT)) as (b & X & Hrun & HX & Hi); [by vm_compute|].
  rewrite mark_ports_start in Hrun. injection Hrun as <-. exists X. split; [exact HX|]. by rewrite Z2Nat.id in Hi by done.
Qed.

(** ** Ephemeral ports *)

Fixpoint allocate_ports (n : nat) : MOp (list Z) :=
  match n with
  | O => eret []
  | S n' => p <- allocatePort ;; ps <- allocate_ports n' ;; eret (p :: ps)
  end.

Definition with_ports (b : ExtensibleBitmap) (m : TcpManager) : TcpManager :=
  put_numbers (m_NextTcpSequence m) (m_NextConnId m) (m_ListenPorts m) b (m_ManagerNanoseconds m) m.

Lemma allocatePort_run m X : m_TcpMutex m = false -> represents (m_EphemeralPorts m) X ->
  exists c b', allocatePort m = Some ((if 0xFFFF <? c then 0 else c), with_ports b' m) /\
    0 <= c /\ (c ∉ X) /\ (forall i, 0 <= i < c -> i ∈ X) /\ represents b' (if 0xFFFF <? c then X else {[c]} ∪ X).
Proof.
  intros Hm HX. destruct (first_clear_represents _ X HX) as (c & b1 & Hfirst & HX1 & H0 & Hc & Hall).
  specialize (Hfirst _ (le_n _)). exists c.
  destruct (Z.ltb_spec 0xFFFF c) as [Hlt|Hge].
  - exists b1. split; [|done]. destruct m; cbn in *; subst.
    unfold allocatePort, guarded, acquire, on_ephemeral, ebind, the, egets, release, emodify, elift. cbn - [loop_fuel].
    rewrite Hfirst. cbn. by rewrite (proj2 (Z.ltb_lt _ _)) by lia.
  - destruct (set_represents b1 X c HX1) as (b2 & Hset & HX2 & _); [lia|]. specialize (Hset _ (le_n _)).
    exists b2. split; [|done]. destruct m; cbn in *; subst.
    unfold allocatePort, guarded, acquire, on_ephemeral, set_port, ebind, the, egets, release, emodify, elift. cbn - [loop_fuel].
    rewrite Hfirst. cbn - [loop_fuel]. rewrite (proj2 (Z.ltb_ge _ _)) by lia. cbn - [loop_fuel]. by rewrite Hset.
Qed.

(** What the [i]-th call answers when the ports from [k] on are free. *)
Definition port_number (k i : Z) : Z := if k + i <=? 0xFFFF then k + i else 0.

Lemma allocate_ports_run n : forall m X k, m_TcpMutex m = false -> represents (m_EphemeralPorts m) X -> 0 <= k <= 65536 ->
  (forall i, 0 <= i -> i ∈ X <-> i < k) ->
  exists b, allocate_ports n m = Some (map (fun i => port_number k (Z.of_nat i)) (seq 0 n), with_ports b m).
Proof.
  induction n as [|n IH]; intros m X k Hm HX Hk Hi; [exists (m_EphemeralPorts m); by destruct m|]. cbn [allocate_ports].
  destruct (allocatePort_run m X Hm HX) as (c & b & Hrun & H0 & Hc & Hall & Hb).
  assert (c = k) as -> by (rewrite (Hi c H0) in Hc; destruct (Z.lt_trichotomy c k) as [?|[?|?]]; [lia|done|];
    specialize (Hall k ltac:(lia)); apply Hi in Hall; lia).
  estep ltac:(exact Hrun).
  destruct (IH (with_ports b m) (if 0xFFFF <? k then X else {[k]} ∪ X) (if 0xFFFF <? k then k else k + 1)) as (b' & Hrest); [done|done| | |].
  { destruct (0xFFFF <? k) eqn:E; lia. }
  { destruct (Z.ltb_spec 0xFFFF k); [done|]. intros i Hpos. rewrite elem_of_union, elem_of_singleton, Hi by done. lia. }
  estep ltac:(exact Hrest). exists b'. unfold eret. f_equal. f_equal. cbn [seq map].
  f_equal; [unfold port_number; rewrite Z.add_0_r, Z.leb_antisym; by destruct (0xFFFF <? k)|].
  rewrite <- seq_shift, map_map. apply map_ext. intros i. unfold port_number.
  destruct (Z.ltb_spec 0xFFFF k); [rewrite !(proj2 (Z.leb_gt _ _)) by lia; done|].
  replace (k + 1 + Z.of_nat i) with (k + Z.of_nat (S i)) by lia. done.
Qed.

(** C11. A port that [allocatePort] gives away was not in use, is the lowest free one
    and is in use from then on, and when no port up to 65535 is free the answer is 0
    and the set of ports in use does not change; nothing else of the manager does.  The
    loop of the constructor marks the ports below 32768, so the ports a new manager
    gives away are 32768, 32769, ..., each once, up to 65535, and after these every
    answer is 0. *)
Theorem ephemeral_ports :
  (forall m X, m_TcpMutex m = false -> represents (m_EphemeralPorts m) X ->
     exists port b, allocatePort m = Some (port, with_ports b m) /\
     ((port = 0 /\ represents b X /\ forall i, 0 <= i <= 0xFFFF -> i ∈ X) \/
      (in_word 16 port /\ (port ∉ X) /\ (forall i, 0 <= i < port -> i ∈ X) /\ represents b ({[port]} ∪ X)))) /\
  mark_ports (Z.to_nat BASE_EPHEMERAL_PORT) empty_bitmap = Some (tt, m_EphemeralPorts new_manager) /\
  (exists X, represents (m_EphemeralPorts new_manager) X /\ forall i, 0 <= i -> i ∈ X <-> i < BASE_EPHEMERAL_PORT) /\
  (forall n, exists b, allocate_ports n new_manager =
     Some (map (fun i => if Z.of_nat i <? 32768 then BASE_EPHEMERAL_PORT + Z.of_nat i else 0) (seq 0 n), with_ports b new_manager)).
Proof.
  split; [|split; [exact mark_ports_start|split; [exact start_represents|]]].
  - intros m X Hm HX. destruct (allocatePort_run m X Hm HX) as (c & b & Hrun & H0 & Hc & Hall & Hb).
    exists (if 0xFFFF <? c then 0 else c), b. split; [exact Hrun|]. destruct (Z.ltb_spec 0xFFFF c).
    + left. split; [done|]. split; [done|]. intros i Hi. apply Hall. lia.
    + right. split; [unfold in_word; lia|]. by split_and!.
  - intros n. destruct start_represents as (X & HX & Hi).
    destruct (allocate_ports_run n new_manager X BASE_EPHEMERAL_PORT) as (b & Hrun); [done|done|unfold BASE_EPHEMERAL_PORT; lia|done|].
    exists b. rewrite Hrun. do 2 f_equal. apply map_ext. intros i. unfold port_number, BASE_EPHEMERAL_PORT.
    destruct (Z.ltb_spec (Z.of_nat i) 32768); [rewrite (proj2 (Z.leb_le _ _)) by lia | rewrite (proj2 (Z.leb_gt _ _)) by lia]; done.
Qed.

Lemma ephemeral_ports_witness : exists b X p m', m_TcpMutex new_manager = false /\ represents (m_EphemeralPorts new_manager) X /\
  allocate_ports 2 new_manager = Some ([32768; 32769], with_ports b new_manager) /\
  allocatePort new_manager = Some (p, m').
Proof.
  destruct (proj2 (proj2 (proj2 ephemeral_ports)) 2%nat) as (b & H).
  destruct (proj1 (proj2 (proj2 ephemeral_ports))) as (X & HX & _).
  destruct (proj1 ephemeral_ports new_manager X eq_refl HX) as (p & b' & Hp & _).
  exists b, X, p, (with_ports b' new_manager). split; [reflexivity|]. split; [exact HX|]. split; [exact H|exact Hp].
Defined.

(** ** Two hosts *)

(** The client has the address 9, the server 7; [toServer] and [toClient] count the
    packets that have been delivered. *)
Record World := mkWorld { client : TcpManager; server : TcpManager; toServer : nat; toClient : nat }.

Fixpoint receive_all (h : Z) (ps : list Packet) : MOp unit :=
  match ps with
  | [] => eret tt
  | p :: ps' => receive always zeros (as_arrival h p) ;; receive_all h ps'
  end.

(** Every packet on the way arrives, those of the client first, [n] times. *)
Fixpoint exchange (n : nat) (w : World) : option World :=
  match n with
  | O => Some w
  | S n' =>
      r ← receive_all 9 (drop (toServer w) (network (client w))) (server w);
      q ← receive_all 7 (drop (toClient w) (network (snd r))) (client w);
      exchange n' (mkWorld (snd q) (snd r) (length (network (client w))) (length (network (snd r))))
  end.

Definition at_client {A} (x : MOp A) (w : World) : option (A * World) :=
  r ← x (client w); Some (fst r, mkWorld (snd r) (server w) (toServer w) (toClient w)).

Definition at_server {A} (x : MOp A) (w : World) : option (A * World) :=
  r ← x (server w); Some (fst r, mkWorld (client w) (snd r) (toServer w) (toClient w)).

(** Port 80 is open on the server, and the client connects to it. *)
Definition opened : option World :=
  r ← at_server (e <- getEndpoint zeros 80 ;; match e with Some e => listen e | None => efail end)
        (mkWorld new_manager new_manager 0 0);
  r ← at_client (e <- getEndpoint zeros 0 ;; match e with Some e => connect always e 7 80 | None => efail end) (snd r);
  exchange 3 (snd r).

Definition states (w : World) : list (nat * TcpState) * list (nat * TcpState) :=
  let f m := map (fun pb : nat * StateBlock => (fst pb, currentState (snd pb))) (map_to_list (blocks m)) in
  (f (client w), f (server w)).

Example handshake : states <$> opened = Some ([(2%nat, ESTABLISHED)], [(2%nat, LISTEN); (3%nat, ESTABLISHED)]).
Proof. vm_compute. reflexivity. Qed.

(** The client sends three bytes on its connection 1, and the endpoint that [accept]
    gives the server reads them. *)
Definition talked : option ((list Z + Z) * World) :=
  w ← opened;
  r ← at_client (send_to always 1 [71; 69; 84]) w;
  w ← exchange 2 (snd r);
  r ← at_server (accept 1) w;
  e ← fst r; e ← e;
  at_server (recv_from e 10 false) (snd r).

Example bytes_arrive : fst <$> talked = Some (inl [71; 69; 84]).
Proof. vm_compute. reflexivity. Qed.

(** Both sides shut down: the client waits for old segments, the server's block is
    gone. *)
Example teardown :
  (r ← talked; w ← at_client (shutdown always 1 ShutBoth) (snd r); w ← exchange 2 (snd w);
   w ← at_server (Shutdown always 2 false) w; w ← exchange 3 (snd w); Some (states w)) =
  Some ([(2%nat, TIME_WAIT)], [(2%nat, LISTEN)]).
Proof. vm_compute. reflexivity. Qed.

(** ** What goes wrong *)

(** An option of length 0 keeps the loop over the options at its place. *)
Lemma option_of_length_0 fuel : forall mss,
  parse_options fuel (fun k => if (k =? 0)%nat then 5 else 0) 24 20 mss = None.
Proof. induction fuel as [|fuel IH]; intros mss; [done|]. cbn [parse_options]. apply IH. Qed.

(** A peer that says its maximum segment size is 0 keeps [sendSegment] at its
    place. *)
Lemma mss_of_0 garbage fuel : forall fl bytes queue c p e, endpoint (block c) = Some p -> endpoints c !! p = Some e ->
  var (block c) tcp_mss = 0 -> send_loop garbage fuel fl bytes 0 queue c = None.
Proof.
  induction fuel as [|fuel IH]; intros fl bytes queue c p e Hp He Hm; [done|].
  rewrite (send_loop_turn _ _ _ _ _ _ _ p e Hp He), (proj2 (Z.ltb_lt _ _)), Hm by lia.
  destruct (turn_block garbage e fl bytes 0 queue c) as (H1 & H2 & _ & H4).
  apply (IH _ _ _ _ p e); [by rewrite H1|by rewrite H2|by rewrite H4].
Qed.

(** An acknowledgement of part of a segment copies all its bytes into a smaller
    array, one below the first segment drops the queue. *)
Definition three : Segment := mkSegment 1000 5000 3 8192 0 ACK (Some [1; 2; 3]) 3.

Example partial_ack_overflows : ack_queue 1001 [three] = None.
Proof. reflexivity. Qed.

Example old_ack_drops_queue : ack_queue 999 [three] = Some [].
Proof. reflexivity. Qed.

(** Nothing is sent again: the timer of a block runs in TIME_WAIT only. *)
Example never_sent_again :
  (w ← opened; r ← at_client (send always 1 [71; 69; 84] true) w;
   q ← at_client (block_timer always 2 (60 * 10 ^ 9)) (snd r);
   Some (fst q, length (network (client (snd r))), length (network (client (snd q))))) = Some (false, 3%nat, 3%nat).
Proof. vm_compute. reflexivity. Qed.

(** The bytes of a segment with FIN are lost, and the number behind them is not
    theirs. *)
Example fin_drops_payload :
  (w ← opened; b ← blocks (server w) !! 3%nat;
   let a := mkArrival 9 32768 80 (var b rcv_nxt) (var b snd_nxt) 5 (Z.lor FIN ACK) 8192 0 (fun _ => 0) [1; 2; 3] in
   r ← at_server (receive always zeros a) w; b' ← blocks (server (snd r)) !! 3%nat;
   p ← endpoint b'; e ← all_endpoints (server (snd r)) !! p;
   Some (var b' rcv_nxt - var b rcv_nxt, getDataSize (m_DataStream e), getDataSize (m_ShadowDataStream e))) =
  Some (1, 0%nat, 0%nat).
Proof. vm_compute. reflexivity. Qed.

(** A repeated acknowledgement of the bytes before a FIN counts as one of the FIN. *)
Example fin_acked_too_early :
  (w ← opened; w ← at_client (Shutdown always 1 false) w; b ← blocks (client (snd w)) !! 2%nat;
   let a := mkArrival 7 80 32768 (var b rcv_nxt) (var b fin_seq) 5 ACK 8192 0 (fun _ => 0) [] in
   r ← at_client (receive always zeros a) (snd w); b' ← blocks (client (snd r)) !! 2%nat;
   Some (currentState b', var b' snd_nxt - var b' snd_una)) = Some (FIN_WAIT_2, 1).
Proof. vm_compute. reflexivity. Qed.

(** [Disconnect] takes the mutex twice before the handshake is over, and does
    nothing to a port that listens. *)
Definition connecting : option (bool * World) :=
  at_client (e <- getEndpoint zeros 0 ;; match e with Some e => connect always e 7 80 | None => efail end)
    (mkWorld new_manager new_manager 0 0).

Example disconnect_blocks : (fst <$> connecting) = Some true /\ (r ← connecting; at_client (close always 1) (snd r)) = None.
Proof. split; vm_compute; reflexivity. Qed.

Example listening_stays :
  (w ← opened; r ← at_server (close always 1) w; Some (states (snd r))) = (states <$> opened).
Proof. vm_compute. reflexivity. Qed.
