(* ===== verification/X86Flags.v ===== *)
(** * The flags register of the x86 emulator

    [x86_common/x86emu/x86emu/regs.h] and the macros at the top of
    [prim_ops.c]: the flag masks, the macros that read and write
    [M.x86.R_FLG], [PARITY] and [XOR2].  A primitive operation that touches
    only the flags is a computation of the state monad over the value of
    [R_FLG].  The second half proves what the macros compute: how a flag reads
    after each update, the parity table, and the carry and borrow chains of the
    note at the top of [prim_ops.c]. *)
From Stdlib Require Import ZArith Lia List Bool Btauto.
From S2P Require Import Prelude.
Import ListNotations.
Local Open Scope Z_scope.

(** ** The macros of regs.h *)

Definition F_CF := 0x0001.
Definition F_PF := 0x0004.
Definition F_AF := 0x0010.
Definition F_ZF := 0x0040.
Definition F_SF := 0x0080.
Definition F_TF := 0x0100.
Definition F_IF := 0x0200.
Definition F_DF := 0x0400.
Definition F_OF := 0x0800.

(** C's reading of an integer as a condition. *)
Definition nz (z : Z) : bool := negb (z =? 0).

Definition flag_of (FLG F : Z) : bool := nz (Z.land FLG F).

(** A computation on the flags register. *)
Definition Flags (A : Type) : Type := State Z A.

Definition ACCESS_FLAG (F : Z) : Flags bool := fun FLG => (flag_of FLG F, FLG).
Definition SET_FLAG (F : Z) : Flags unit := fun FLG => (tt, Z.lor FLG F).
Definition CLEAR_FLAG (F : Z) : Flags unit := fun FLG => (tt, Z.ldiff FLG F).
Definition TOGGLE_FLAG (F : Z) : Flags unit := fun FLG => (tt, Z.lxor FLG F).
Definition CONDITIONAL_SET_FLAG (COND : bool) (F : Z) : Flags unit :=
  if COND then SET_FLAG F else CLEAR_FLAG F.

(** ** The macros of prim_ops.c *)

Definition u8 (z : Z) : Z := wrap 8 z.
Definition u16 (z : Z) : Z := wrap 16 z.
Definition u32 (z : Z) : Z := wrap 32 z.

(** [~z] in an expression whose type is [u32]. *)
Definition not32 (z : Z) : Z := u32 (Z.lnot z).

Definition x86emu_parity_tab : list Z :=
  [0x96696996; 0x69969669; 0x69969669; 0x96696996;
   0x69969669; 0x96696996; 0x96696996; 0x69969669].

Definition PARITY (x : Z) : bool :=
  Z.land (Z.shiftr (nth (Z.to_nat (x / 32)) x86emu_parity_tab 0) (x mod 32)) 1 =? 0.

Definition XOR2 (x : Z) : Z := Z.land (Z.lxor x (Z.shiftr x 1)) 0x1.

(** ** Reading the flags after an update *)

Definition upd_flag (c : bool) (F FLG : Z) : Z := if c then Z.lor FLG F else Z.ldiff FLG F.

Lemma CONDITIONAL_SET_FLAG_eq c F FLG : CONDITIONAL_SET_FLAG c F FLG = (tt, upd_flag c F FLG).
Proof. now destruct c. Qed.

Lemma SET_FLAG_eq F FLG : SET_FLAG F FLG = (tt, upd_flag true F FLG).
Proof. reflexivity. Qed.

Lemma CLEAR_FLAG_eq F FLG : CLEAR_FLAG F FLG = (tt, upd_flag false F FLG).
Proof. reflexivity. Qed.

Lemma flag_upd_same c F FLG : (F =? 0) = false -> flag_of (upd_flag c F FLG) F = c.
Proof.
  intros HF%Z.eqb_neq. unfold flag_of, nz, upd_flag. destruct c.
  - rewrite Z.land_comm, Z.lor_comm, Z.land_comm.
    replace (Z.land (Z.lor F FLG) F) with F.
    + apply negb_true_iff. now apply Z.eqb_neq.
    + apply Z.bits_inj'. intros i _. rewrite Z.land_spec, Z.lor_spec. btauto.
  - replace (Z.land (Z.ldiff FLG F) F) with 0; [reflexivity|].
    apply Z.bits_inj'. intros i _. rewrite Z.land_spec, Z.ldiff_spec, Z.bits_0. btauto.
Qed.

Lemma flag_upd_other c F G FLG :
  Z.land F G = 0 -> flag_of (upd_flag c F FLG) G = flag_of FLG G.
Proof.
  intros HFG. unfold flag_of. f_equal. unfold upd_flag.
  assert (Hi : forall i, Z.testbit F i && Z.testbit G i = false)
    by (intros i; now rewrite <- Z.land_spec, HFG, Z.bits_0).
  destruct c; apply Z.bits_inj'; intros i _; specialize (Hi i);
    rewrite !Z.land_spec, ?Z.lor_spec, ?Z.ldiff_spec;
    destruct (Z.testbit F i), (Z.testbit G i), (Z.testbit FLG i); easy.
Qed.

(** The flags an arithmetic or logic operation may change. *)
Definition STATUS := Z.lor F_CF (Z.lor F_PF (Z.lor F_AF (Z.lor F_ZF (Z.lor F_SF F_OF)))).

(** [FLG'] differs from [FLG] in the flags of [m] only. *)
Definition frame_flags (m FLG FLG' : Z) : Prop := Z.ldiff FLG' m = Z.ldiff FLG m.

Lemma frame_flags_refl m FLG : frame_flags m FLG FLG.
Proof. reflexivity. Qed.

Lemma frame_flags_upd m c F FLG FLG' :
  Z.ldiff F m = 0 -> frame_flags m FLG FLG' -> frame_flags m FLG (upd_flag c F FLG').
Proof.
  unfold frame_flags. intros HF <-. unfold upd_flag.
  assert (Hi : forall i, Z.testbit F i && negb (Z.testbit m i) = false)
    by (intros i; now rewrite <- Z.ldiff_spec, HF, Z.bits_0).
  destruct c; apply Z.bits_inj'; intros i _; specialize (Hi i);
    rewrite !Z.ldiff_spec, ?Z.lor_spec, ?Z.ldiff_spec;
    destruct (Z.testbit F i), (Z.testbit m i), (Z.testbit FLG' i); easy.
Qed.

Lemma frame_flags_trans m f g h : frame_flags m f g -> frame_flags m g h -> frame_flags m f h.
Proof. unfold frame_flags. congruence. Qed.

(** A flag outside the frame keeps its value. *)
Lemma frame_flag_of m f g F : Z.land F m = 0 -> frame_flags m f g -> flag_of g F = flag_of f F.
Proof.
  unfold frame_flags, flag_of. intros HF Heq. f_equal.
  assert (HFg : forall x, Z.land x F = Z.land (Z.ldiff x m) F).
  { intros x. apply Z.bits_inj'. intros i _. rewrite !Z.land_spec, Z.ldiff_spec.
    assert (Z.testbit F i && Z.testbit m i = false)
      by (now rewrite <- Z.land_spec, HF, Z.bits_0).
    destruct (Z.testbit F i), (Z.testbit m i), (Z.testbit x i); easy. }
  now rewrite (HFg g), (HFg f), Heq.
Qed.

Create Rewrite HintDb flags.
#[export] Hint Rewrite CONDITIONAL_SET_FLAG_eq SET_FLAG_eq CLEAR_FLAG_eq : flags.
#[export] Hint Rewrite flag_upd_same flag_upd_other using reflexivity : flags.
#[export] Hint Resolve frame_flags_refl : word.
#[export] Hint Extern 2 (frame_flags _ _ (upd_flag _ _ _)) =>
  apply frame_flags_upd; [reflexivity|] : word.

(** ** Bits tested through masks *)

Lemma land_pow2 x i : 0 <= i -> Z.land x (2 ^ i) = if Z.testbit x i then 2 ^ i else 0.
Proof.
  intros Hi. apply Z.bits_inj'. intros j Hj. rewrite Z.land_spec, Z.pow2_bits_eqb by lia.
  destruct (Z.eqb_spec i j) as [->|Hne].
  - rewrite andb_true_r. destruct (Z.testbit x j); [now rewrite Z.pow2_bits_true|now rewrite Z.bits_0].
  - rewrite andb_false_r. destruct (Z.testbit x i); [now rewrite Z.pow2_bits_false|now rewrite Z.bits_0].
Qed.

Lemma nz_land_pow2 x i : 0 <= i -> nz (Z.land x (2 ^ i)) = Z.testbit x i.
Proof.
  intros Hi. unfold nz. rewrite land_pow2 by easy. pose proof (Z.pow_pos_nonneg 2 i).
  destruct (Z.testbit x i); [|reflexivity]. apply negb_true_iff, Z.eqb_neq. lia.
Qed.

Lemma nz_XOR2 x : nz (XOR2 x) = xorb (Z.testbit x 0) (Z.testbit x 1).
Proof.
  unfold XOR2. change 1 with (2 ^ 0) at 2. rewrite nz_land_pow2, Z.lxor_spec, Z.shiftr_spec by lia.
  reflexivity.
Qed.

Lemma nz_neq z : nz z = negb (z =? 0).
Proof. reflexivity. Qed.

(** The top bit of a [w]-bit value is its sign. *)
Lemma testbit_top w z : 0 < w -> in_word w z -> Z.testbit z (w - 1) = (2 ^ (w - 1) <=? z).
Proof.
  intros Hw Hz. rewrite Z.testbit_eqb by lia.
  assert (Hp : 2 ^ w = 2 * 2 ^ (w - 1)) by (rewrite <- Z.pow_succ_r by lia; f_equal; lia).
  assert (0 < 2 ^ (w - 1)) by (apply Z.pow_pos_nonneg; lia).
  unfold in_word in Hz. rewrite Hp in Hz. set (p := 2 ^ (w - 1)) in *. clearbody p.
  assert (z / p = 0 \/ z / p = 1) as [E|E].
  { assert (0 <= z / p < 2); [|lia]. split; [apply Z.div_pos; lia|].
    apply Z.div_lt_upper_bound; lia. }
  - rewrite E. apply Z.div_small_iff in E; [|lia]. simpl.
    symmetry. apply Z.leb_gt. lia.
  - rewrite E. simpl. symmetry. apply Z.leb_le.
    destruct (Z_lt_le_dec z p); [|lia]. rewrite Z.div_small in E; lia.
Qed.

Lemma nz_land_mask x m i : (0 <=? i) && (m =? 2 ^ i) = true -> nz (Z.land x m) = Z.testbit x i.
Proof. rewrite andb_true_iff, Z.leb_le, Z.eqb_eq. intros [Hi ->]. now apply nz_land_pow2. Qed.

(** Turn every mask test of the goal into the bit it tests. *)
Ltac mask_bits :=
  repeat match goal with
    | |- context [nz (Z.land ?x ?m)] =>
        let i := eval vm_compute in (Z.log2 m) in
        rewrite (nz_land_mask x m i eq_refl)
    end.

(** ** Parity *)

Definition even_parity (b : Z) : bool :=
  Nat.even (length (filter (Z.testbit b) [0; 1; 2; 3; 4; 5; 6; 7])).

(** The table is the parity of the eight bits it is indexed by. *)
Lemma PARITY_even x : 0 <= x < 256 -> PARITY x = even_parity x.
Proof.
  intros Hx. apply eqb_prop. byte_cases x Hx.
Qed.

Lemma PARITY_low x : PARITY (Z.land x 0xff) = even_parity (x mod 256).
Proof.
  rewrite PARITY_even by apply land_255_range. f_equal.
  change 0xff with (Z.ones 8). now rewrite Z.land_ones by lia.
Qed.

(** ** The carry and borrow chains *)

Lemma testbit_u32 z i : 0 <= i < 32 -> Z.testbit (u32 z) i = Z.testbit z i.
Proof. intros Hi. unfold u32. rewrite testbit_wrap by lia. now rewrite (proj2 (Z.ltb_lt i 32)). Qed.

Lemma testbit_not32 z i : 0 <= i < 32 -> Z.testbit (not32 z) i = negb (Z.testbit z i).
Proof. intros Hi. unfold not32. rewrite testbit_u32 by easy. now rewrite Z.lnot_spec by lia. Qed.

(** Narrowing an intermediate [u32]. *)
Lemma land_low x m w : (0 <=? w) && (w <=? 32) && (m =? Z.ones w) = true -> Z.land (u32 x) m = wrap w x.
Proof.
  rewrite !andb_true_iff, !Z.leb_le, Z.eqb_eq. intros [[H0 H32] ->].
  rewrite <- wrap_land by easy. apply Z.bits_inj'. intros i Hi. rewrite testbit_wrap by easy.
  destruct (Z.ltb_spec i w); [rewrite testbit_u32 by lia|]; now rewrite testbit_wrap, ?(proj2 (Z.ltb_lt i w)), ?(proj2 (Z.ltb_ge i w)) by easy.
Qed.

Lemma narrow_u32 w x : 0 <= w <= 32 -> wrap w (u32 x) = wrap w x.
Proof.
  intros Hw. rewrite wrap_land by easy. apply land_low.
  now rewrite !andb_true_iff, !Z.leb_le, Z.eqb_eq.
Qed.

(** [~d & s | ~r & (d | s)] and its dual are the carries between the bit
    columns: bit [i] is the carry into column [i + 1]. *)
Definition chain (d s r i : Z) : bool :=
  xorb (xorb (Z.testbit d (i + 1)) (Z.testbit s (i + 1))) (Z.testbit r (i + 1)).

Lemma carry_chain d s (c : bool) i :
  0 <= i < 32 ->
  Z.testbit (Z.lor (Z.land s d) (Z.land (not32 (u32 (d + s + Z.b2z c))) (Z.lor s d))) i =
  chain d s (d + s + Z.b2z c) i.
Proof.
  intros Hi. destruct (Z.add_carry_bits d s c) as (k & Hr & Hk & _).
  rewrite Z.lor_spec, !Z.land_spec, testbit_not32, testbit_u32, Z.lor_spec by easy.
  unfold chain. rewrite Hr, !Z.lxor_spec.
  replace (Z.testbit k (i + 1)) with (Z.testbit (k / 2) i)
    by (rewrite <- Z.div2_div, Z.div2_spec, Z.shiftr_spec by lia; reflexivity).
  rewrite Hk, !Z.lor_spec, !Z.land_spec, !Z.lor_spec.
  destruct (Z.testbit d i), (Z.testbit s i), (Z.testbit k i),
    (Z.testbit d (i + 1)), (Z.testbit s (i + 1)); reflexivity.
Qed.

Lemma borrow_chain d s (c : bool) i :
  0 <= i < 32 ->
  Z.testbit (Z.lor (Z.land (u32 (d - s - Z.b2z c)) (Z.lor (not32 d) s)) (Z.land (not32 d) s)) i =
  chain d s (d - s - Z.b2z c) i.
Proof.
  intros Hi. destruct (Z.add_carry_bits d (Z.lnot s) (negb c)) as (k & Hr & Hk & _).
  replace (d + Z.lnot s + Z.b2z (negb c)) with (d - s - Z.b2z c) in Hr
    by (unfold Z.lnot; destruct c; simpl Z.b2z; lia).
  rewrite Z.lor_spec, !Z.land_spec, Z.lor_spec, testbit_not32, testbit_u32 by easy.
  unfold chain. rewrite Hr, !Z.lxor_spec, !Z.lnot_spec by lia.
  replace (Z.testbit k (i + 1)) with (Z.testbit (k / 2) i)
    by (rewrite <- Z.div2_div, Z.div2_spec, Z.shiftr_spec by lia; reflexivity).
  rewrite Hk, !Z.lor_spec, !Z.land_spec, !Z.lor_spec, !Z.lnot_spec by lia.
  destruct (Z.testbit d i), (Z.testbit s i), (Z.testbit k i),
    (Z.testbit d (i + 1)), (Z.testbit s (i + 1)); reflexivity.
Qed.

(** ** The columns that set flags *)

Lemma pow2_step w : 0 < w -> 2 ^ w = 2 * 2 ^ (w - 1) /\ 0 < 2 ^ (w - 1).
Proof.
  intros Hw. split; [rewrite <- Z.pow_succ_r by lia; f_equal; lia|apply Z.pow_pos_nonneg; lia].
Qed.

(** The bit above the word, for a value less than a word out of range. *)
Lemma testbit_over w r :
  0 <= w -> - 2 ^ w <= r < 2 * 2 ^ w -> Z.testbit r w = ((2 ^ w <=? r) || (r <? 0)).
Proof.
  intros Hw Hr. assert (0 < 2 ^ w) by (apply Z.pow_pos_nonneg; lia).
  rewrite Z.testbit_eqb by lia. set (p := 2 ^ w) in *. clearbody p.
  destruct (Z.ltb_spec r 0); [|destruct (Z.leb_spec p r)]; simpl.
  - replace (r / p) with (-1); [now rewrite orb_true_r|].
    apply Z.div_unique with (r + p); lia.
  - replace (r / p) with 1; [reflexivity|]. apply Z.div_unique with (r - p); lia.
  - now rewrite Z.div_small by lia.
Qed.

Lemma testbit_word_top w d : 0 < w -> in_word w d -> Z.testbit d w = false.
Proof. intros Hw Hd. apply (in_word_testbit_high w); [easy|lia|lia]. Qed.

Lemma wrap_cases w r :
  0 <= w -> - 2 ^ w <= r < 2 * 2 ^ w ->
  wrap w r = if r <? 0 then r + 2 ^ w else if 2 ^ w <=? r then r - 2 ^ w else r.
Proof.
  intros Hw Hr. assert (0 < 2 ^ w) by (apply Z.pow_pos_nonneg; lia). unfold wrap.
  zcmp; symmetry; first
    [ lia
    | apply Z.mod_unique with (-1); lia
    | apply Z.mod_unique with 1; lia
    | apply Z.mod_unique with 0; lia ].
Qed.

Lemma testbit_sign w r : 0 < w -> Z.testbit r (w - 1) = (2 ^ (w - 1) <=? wrap w r).
Proof.
  intros Hw. rewrite <- testbit_top by (first [lia | apply wrap_range; lia]).
  rewrite testbit_wrap by lia. now rewrite (proj2 (Z.ltb_lt (w - 1) w)) by lia.
Qed.

(** Column [w - 1] is the carry (borrow) out of the word. *)
Lemma chain_out w d s r :
  0 < w -> in_word w d -> in_word w s -> - 2 ^ w <= r < 2 * 2 ^ w ->
  chain d s r (w - 1) = ((2 ^ w <=? r) || (r <? 0)).
Proof.
  intros Hw Hd Hs Hr. unfold chain. replace (w - 1 + 1) with w by lia.
  rewrite !(testbit_word_top w) by easy. rewrite testbit_over by lia. now destruct (_ || _).
Qed.

(** The exclusive or of the two top columns is signed overflow. *)
Lemma chain_overflow_add w d s (c : bool) :
  1 < w -> in_word w d -> in_word w s ->
  let r := d + s + Z.b2z c in
  xorb (chain d s r (w - 2)) (chain d s r (w - 1)) =
  negb (signed w (wrap w r) =? signed w d + signed w s + Z.b2z c).
Proof.
  intros Hw Hd Hs r. unfold in_word in *. destruct (pow2_step w) as [E Hp]; [lia|].
  assert (Hc : 0 <= Z.b2z c <= 1) by (destruct c; simpl; lia).
  rewrite chain_out by (unfold in_word; lia). unfold chain.
  replace (w - 2 + 1) with (w - 1) by lia. rewrite !testbit_sign by lia.
  rewrite !(wrap_small w d), !(wrap_small w s) by easy.
  rewrite wrap_cases by lia. unfold signed. rewrite E in *.
  set (p := 2 ^ (w - 1)) in *. clearbody p. subst r. zcmp; simpl; lia.
Qed.

Lemma chain_overflow_sub w d s (c : bool) :
  1 < w -> in_word w d -> in_word w s ->
  let r := d - s - Z.b2z c in
  xorb (chain d s r (w - 2)) (chain d s r (w - 1)) =
  negb (signed w (wrap w r) =? signed w d - signed w s - Z.b2z c).
Proof.
  intros Hw Hd Hs r. unfold in_word in *. destruct (pow2_step w) as [E Hp]; [lia|].
  assert (Hc : 0 <= Z.b2z c <= 1) by (destruct c; simpl; lia).
  rewrite chain_out by (unfold in_word; lia). unfold chain.
  replace (w - 2 + 1) with (w - 1) by lia. rewrite !testbit_sign by lia.
  rewrite !(wrap_small w d), !(wrap_small w s) by easy.
  rewrite wrap_cases by lia. unfold signed. rewrite E in *.
  set (p := 2 ^ (w - 1)) in *. clearbody p. subst r. zcmp; simpl; lia.
Qed.

(** Column 3 is the carry (borrow) out of the low nibble. *)
Lemma testbit_4 z : Z.testbit z 4 = (16 <=? z mod 32).
Proof. rewrite (testbit_sign 5) by lia. reflexivity. Qed.

Lemma chain_nibble_add d s (c : bool) :
  chain d s (d + s + Z.b2z c) 3 = (16 <=? d mod 16 + s mod 16 + Z.b2z c).
Proof.
  unfold chain. change (3 + 1) with 4. rewrite !testbit_4.
  assert (Hc : 0 <= Z.b2z c <= 1) by (destruct c; simpl; lia).
  set (k := Z.b2z c) in *. clearbody k. zcmp; simpl; zlia.
Qed.

Lemma chain_nibble_sub d s (c : bool) :
  chain d s (d - s - Z.b2z c) 3 = (d mod 16 <? s mod 16 + Z.b2z c).
Proof.
  unfold chain. change (3 + 1) with 4. rewrite !testbit_4.
  assert (Hc : 0 <= Z.b2z c <= 1) by (destruct c; simpl; lia).
  set (k := Z.b2z c) in *. clearbody k. zcmp; simpl; zlia.
Qed.

(** ** Flag specifications *)

(** The flags that describe a [w]-bit result. *)
Record result_flags (w r FLG : Z) : Prop := {
  rf_ZF : flag_of FLG F_ZF = (r =? 0);
  rf_SF : flag_of FLG F_SF = (2 ^ (w - 1) <=? r);
  rf_PF : flag_of FLG F_PF = even_parity (r mod 256)
}.
