(* ===== verification/X86Alu.v ===== *)
(** * Arithmetic and logic of the x86 emulator

    [x86_common/x86emu/prim_ops.c], first part: the decimal adjustments, the
    additions, subtractions and comparisons, increment, decrement and negation,
    and the bitwise operations, in the three operand widths.  Each definition
    is the function of the same name: operands of the declared unsigned type,
    the intermediate [u32 res], the flag updates in the order of the code.

    The theorems state each instruction against its arithmetic meaning for the
    three widths at once: the result modulo the width, carry, signed overflow,
    nibble carry, zero, sign and parity, and that no other flag changes. *)
From Stdlib Require Import ZArith Lia List Bool Btauto.
From S2P Require Import Prelude X86Flags.
Import ListNotations.
Local Open Scope Z_scope.
Local Open Scope state_scope.

(** ** Decimal adjustment *)

Definition aaa_word (d : Z) : Flags Z :=
  af <- ACCESS_FLAG F_AF ;;
  d <- (if (0x9 <? Z.land d 0xf) || af then
          let d := u16 (d + 0x6) in
          let d := u16 (d + 0x100) in
          SET_FLAG F_AF ;; SET_FLAG F_CF ;; ret d
        else
          CLEAR_FLAG F_CF ;; CLEAR_FLAG F_AF ;; ret d) ;;
  let res := u16 (Z.land d 0xFF0F) in
  CLEAR_FLAG F_SF ;;
  CONDITIONAL_SET_FLAG (res =? 0) F_ZF ;;
  CONDITIONAL_SET_FLAG (PARITY (Z.land res 0xff)) F_PF ;;
  ret res.

Definition aas_word (d : Z) : Flags Z :=
  af <- ACCESS_FLAG F_AF ;;
  d <- (if (0x9 <? Z.land d 0xf) || af then
          let d := u16 (d - 0x6) in
          let d := u16 (d - 0x100) in
          SET_FLAG F_AF ;; SET_FLAG F_CF ;; ret d
        else
          CLEAR_FLAG F_CF ;; CLEAR_FLAG F_AF ;; ret d) ;;
  let res := u16 (Z.land d 0xFF0F) in
  CLEAR_FLAG F_SF ;;
  CONDITIONAL_SET_FLAG (res =? 0) F_ZF ;;
  CONDITIONAL_SET_FLAG (PARITY (Z.land res 0xff)) F_PF ;;
  ret res.

Definition aad_word (d : Z) : Flags Z :=
  let hb := u8 (Z.land (Z.shiftr d 8) 0xff) in
  let lb := u8 (Z.land d 0xff) in
  let l := u16 (Z.land (lb + 10 * hb) 0xFF) in
  CLEAR_FLAG F_CF ;;
  CLEAR_FLAG F_AF ;;
  CLEAR_FLAG F_OF ;;
  CONDITIONAL_SET_FLAG (nz (Z.land l 0x80)) F_SF ;;
  CONDITIONAL_SET_FLAG (l =? 0) F_ZF ;;
  CONDITIONAL_SET_FLAG (PARITY (Z.land l 0xff)) F_PF ;;
  ret l.

Definition aam_word (d : Z) : Flags Z :=
  let h := u16 (d / 10) in
  let l := u16 (d mod 10) in
  let l := Z.lor l (u16 (Z.shiftl h 8)) in
  CLEAR_FLAG F_CF ;;
  CLEAR_FLAG F_AF ;;
  CLEAR_FLAG F_OF ;;
  CONDITIONAL_SET_FLAG (nz (Z.land l 0x80)) F_SF ;;
  CONDITIONAL_SET_FLAG (l =? 0) F_ZF ;;
  CONDITIONAL_SET_FLAG (PARITY (Z.land l 0xff)) F_PF ;;
  ret l.

Definition daa_byte (d : Z) : Flags Z :=
  let res := d in
  af <- ACCESS_FLAG F_AF ;;
  res <- (if (9 <? Z.land d 0xf) || af then SET_FLAG F_AF ;; ret (u32 (res + 6))
          else ret res) ;;
  cf <- ACCESS_FLAG F_CF ;;
  res <- (if (0x9F <? res) || cf then SET_FLAG F_CF ;; ret (u32 (res + 0x60))
          else ret res) ;;
  CONDITIONAL_SET_FLAG (nz (Z.land res 0x80)) F_SF ;;
  CONDITIONAL_SET_FLAG (Z.land res 0xFF =? 0) F_ZF ;;
  CONDITIONAL_SET_FLAG (PARITY (Z.land res 0xff)) F_PF ;;
  ret (u8 res).

Definition das_byte (d : Z) : Flags Z :=
  af <- ACCESS_FLAG F_AF ;;
  d <- (if (9 <? Z.land d 0xf) || af then SET_FLAG F_AF ;; ret (u8 (d - 6))
        else ret d) ;;
  cf <- ACCESS_FLAG F_CF ;;
  d <- (if (0x9F <? d) || cf then SET_FLAG F_CF ;; ret (u8 (d - 0x60))
        else ret d) ;;
  CONDITIONAL_SET_FLAG (nz (Z.land d 0x80)) F_SF ;;
  CONDITIONAL_SET_FLAG (d =? 0) F_ZF ;;
  CONDITIONAL_SET_FLAG (PARITY (Z.land d 0xff)) F_PF ;;
  ret d.

(** ** Addition *)

Definition adc_byte (d s : Z) : Flags Z :=
  cf <- ACCESS_FLAG F_CF ;;
  let res := if cf then u32 (1 + d + s) else u32 (d + s) in
  CONDITIONAL_SET_FLAG (nz (Z.land res 0x100)) F_CF ;;
  CONDITIONAL_SET_FLAG (Z.land res 0xff =? 0) F_ZF ;;
  CONDITIONAL_SET_FLAG (nz (Z.land res 0x80)) F_SF ;;
  CONDITIONAL_SET_FLAG (PARITY (Z.land res 0xff)) F_PF ;;
  let cc := Z.lor (Z.land s d) (Z.land (not32 res) (Z.lor s d)) in
  CONDITIONAL_SET_FLAG (nz (XOR2 (Z.shiftr cc 6))) F_OF ;;
  CONDITIONAL_SET_FLAG (nz (Z.land cc 0x8)) F_AF ;;
  ret (u8 res).

Definition adc_word (d s : Z) : Flags Z :=
  cf <- ACCESS_FLAG F_CF ;;
  let res := if cf then u32 (1 + d + s) else u32 (d + s) in
  CONDITIONAL_SET_FLAG (nz (Z.land res 0x10000)) F_CF ;;
  CONDITIONAL_SET_FLAG (Z.land res 0xffff =? 0) F_ZF ;;
  CONDITIONAL_SET_FLAG (nz (Z.land res 0x8000)) F_SF ;;
  CONDITIONAL_SET_FLAG (PARITY (Z.land res 0xff)) F_PF ;;
  let cc := Z.lor (Z.land s d) (Z.land (not32 res) (Z.lor s d)) in
  CONDITIONAL_SET_FLAG (nz (XOR2 (Z.shiftr cc 14))) F_OF ;;
  CONDITIONAL_SET_FLAG (nz (Z.land cc 0x8)) F_AF ;;
  ret (u16 res).

Definition adc_long (d s : Z) : Flags Z :=
  cf <- ACCESS_FLAG F_CF ;;
  let lo := if cf then u32 (1 + Z.land d 0xFFFF + Z.land s 0xFFFF)
            else u32 (Z.land d 0xFFFF + Z.land s 0xFFFF) in
  let res := if cf then u32 (1 + d + s) else u32 (d + s) in
  let hi := u32 (Z.shiftr lo 16 + Z.shiftr d 16 + Z.shiftr s 16) in
  CONDITIONAL_SET_FLAG (nz (Z.land hi 0x10000)) F_CF ;;
  CONDITIONAL_SET_FLAG (Z.land res 0xffffffff =? 0) F_ZF ;;
  CONDITIONAL_SET_FLAG (nz (Z.land res 0x80000000)) F_SF ;;
  CONDITIONAL_SET_FLAG (PARITY (Z.land res 0xff)) F_PF ;;
  let cc := Z.lor (Z.land s d) (Z.land (not32 res) (Z.lor s d)) in
  CONDITIONAL_SET_FLAG (nz (XOR2 (Z.shiftr cc 30))) F_OF ;;
  CONDITIONAL_SET_FLAG (nz (Z.land cc 0x8)) F_AF ;;
  ret res.

Definition add_byte (d s : Z) : Flags Z :=
  let res := u32 (d + s) in
  CONDITIONAL_SET_FLAG (nz (Z.land res 0x100)) F_CF ;;
  CONDITIONAL_SET_FLAG (Z.land res 0xff =? 0) F_ZF ;;
  CONDITIONAL_SET_FLAG (nz (Z.land res 0x80)) F_SF ;;
  CONDITIONAL_SET_FLAG (PARITY (Z.land res 0xff)) F_PF ;;
  let cc := Z.lor (Z.land s d) (Z.land (not32 res) (Z.lor s d)) in
  CONDITIONAL_SET_FLAG (nz (XOR2 (Z.shiftr cc 6))) F_OF ;;
  CONDITIONAL_SET_FLAG (nz (Z.land cc 0x8)) F_AF ;;
  ret (u8 res).

Definition add_word (d s : Z) : Flags Z :=
  let res := u32 (d + s) in
  CONDITIONAL_SET_FLAG (nz (Z.land res 0x10000)) F_CF ;;
  CONDITIONAL_SET_FLAG (Z.land res 0xffff =? 0) F_ZF ;;
  CONDITIONAL_SET_FLAG (nz (Z.land res 0x8000)) F_SF ;;
  CONDITIONAL_SET_FLAG (PARITY (Z.land res 0xff)) F_PF ;;
  let cc := Z.lor (Z.land s d) (Z.land (not32 res) (Z.lor s d)) in
  CONDITIONAL_SET_FLAG (nz (XOR2 (Z.shiftr cc 14))) F_OF ;;
  CONDITIONAL_SET_FLAG (nz (Z.land cc 0x8)) F_AF ;;
  ret (u16 res).

Definition add_long (d s : Z) : Flags Z :=
  let lo := u32 (Z.land d 0xFFFF + Z.land s 0xFFFF) in
  let res := u32 (d + s) in
  let hi := u32 (Z.shiftr lo 16 + Z.shiftr d 16 + Z.shiftr s 16) in
  CONDITIONAL_SET_FLAG (nz (Z.land hi 0x10000)) F_CF ;;
  CONDITIONAL_SET_FLAG (Z.land res 0xffffffff =? 0) F_ZF ;;
  CONDITIONAL_SET_FLAG (nz (Z.land res 0x80000000)) F_SF ;;
  CONDITIONAL_SET_FLAG (PARITY (Z.land res 0xff)) F_PF ;;
  let cc := Z.lor (Z.land s d) (Z.land (not32 res) (Z.lor s d)) in
  CONDITIONAL_SET_FLAG (nz (XOR2 (Z.shiftr cc 30))) F_OF ;;
  CONDITIONAL_SET_FLAG (nz (Z.land cc 0x8)) F_AF ;;
  ret res.

Definition inc_byte (d : Z) : Flags Z :=
  let res := u32 (d + 1) in
  CONDITIONAL_SET_FLAG (Z.land res 0xff =? 0) F_ZF ;;
  CONDITIONAL_SET_FLAG (nz (Z.land res 0x80)) F_SF ;;
  CONDITIONAL_SET_FLAG (PARITY (Z.land res 0xff)) F_PF ;;
  let cc := Z.land (Z.lor (Z.land 1 d) (not32 res)) (Z.lor 1 d) in
  CONDITIONAL_SET_FLAG (nz (XOR2 (Z.shiftr cc 6))) F_OF ;;
  CONDITIONAL_SET_FLAG (nz (Z.land cc 0x8)) F_AF ;;
  ret (u8 res).

Definition inc_word (d : Z) : Flags Z :=
  let res := u32 (d + 1) in
  CONDITIONAL_SET_FLAG (Z.land res 0xffff =? 0) F_ZF ;;
  CONDITIONAL_SET_FLAG (nz (Z.land res 0x8000)) F_SF ;;
  CONDITIONAL_SET_FLAG (PARITY (Z.land res 0xff)) F_PF ;;
  let cc := Z.lor (Z.land 1 d) (Z.land (not32 res) (Z.lor 1 d)) in
  CONDITIONAL_SET_FLAG (nz (XOR2 (Z.shiftr cc 14))) F_OF ;;
  CONDITIONAL_SET_FLAG (nz (Z.land cc 0x8)) F_AF ;;
  ret (u16 res).

Definition inc_long (d : Z) : Flags Z :=
  let res := u32 (d + 1) in
  CONDITIONAL_SET_FLAG (Z.land res 0xffffffff =? 0) F_ZF ;;
  CONDITIONAL_SET_FLAG (nz (Z.land res 0x80000000)) F_SF ;;
  CONDITIONAL_SET_FLAG (PARITY (Z.land res 0xff)) F_PF ;;
  let cc := Z.lor (Z.land 1 d) (Z.land (not32 res) (Z.lor 1 d)) in
  CONDITIONAL_SET_FLAG (nz (XOR2 (Z.shiftr cc 30))) F_OF ;;
  CONDITIONAL_SET_FLAG (nz (Z.land cc 0x8)) F_AF ;;
  ret res.

(** ** Subtraction *)

Definition sbb_byte (d s : Z) : Flags Z :=
  cf <- ACCESS_FLAG F_CF ;;
  let res := if cf then u32 (d - s - 1) else u32 (d - s) in
  CONDITIONAL_SET_FLAG (nz (Z.land res 0x80)) F_SF ;;
  CONDITIONAL_SET_FLAG (Z.land res 0xff =? 0) F_ZF ;;
  CONDITIONAL_SET_FLAG (PARITY (Z.land res 0xff)) F_PF ;;
  let bc := Z.lor (Z.land res (Z.lor (not32 d) s)) (Z.land (not32 d) s) in
  CONDITIONAL_SET_FLAG (nz (Z.land bc 0x80)) F_CF ;;
  CONDITIONAL_SET_FLAG (nz (XOR2 (Z.shiftr bc 6))) F_OF ;;
  CONDITIONAL_SET_FLAG (nz (Z.land bc 0x8)) F_AF ;;
  ret (u8 res).

Definition sbb_word (d s : Z) : Flags Z :=
  cf <- ACCESS_FLAG F_CF ;;
  let res := if cf then u32 (d - s - 1) else u32 (d - s) in
  CONDITIONAL_SET_FLAG (nz (Z.land res 0x8000)) F_SF ;;
  CONDITIONAL_SET_FLAG (Z.land res 0xffff =? 0) F_ZF ;;
  CONDITIONAL_SET_FLAG (PARITY (Z.land res 0xff)) F_PF ;;
  let bc := Z.lor (Z.land res (Z.lor (not32 d) s)) (Z.land (not32 d) s) in
  CONDITIONAL_SET_FLAG (nz (Z.land bc 0x8000)) F_CF ;;
  CONDITIONAL_SET_FLAG (nz (XOR2 (Z.shiftr bc 14))) F_OF ;;
  CONDITIONAL_SET_FLAG (nz (Z.land bc 0x8)) F_AF ;;
  ret (u16 res).

Definition sbb_long (d s : Z) : Flags Z :=
  cf <- ACCESS_FLAG F_CF ;;
  let res := if cf then u32 (d - s - 1) else u32 (d - s) in
  CONDITIONAL_SET_FLAG (nz (Z.land res 0x80000000)) F_SF ;;
  CONDITIONAL_SET_FLAG (Z.land res 0xffffffff =? 0) F_ZF ;;
  CONDITIONAL_SET_FLAG (PARITY (Z.land res 0xff)) F_PF ;;
  let bc := Z.lor (Z.land res (Z.lor (not32 d) s)) (Z.land (not32 d) s) in
  CONDITIONAL_SET_FLAG (nz (Z.land bc 0x80000000)) F_CF ;;
  CONDITIONAL_SET_FLAG (nz (XOR2 (Z.shiftr bc 30))) F_OF ;;
  CONDITIONAL_SET_FLAG (nz (Z.land bc 0x8)) F_AF ;;
  ret res.

Definition sub_byte (d s : Z) : Flags Z :=
  let res := u32 (d - s) in
  CONDITIONAL_SET_FLAG (nz (Z.land res 0x80)) F_SF ;;
  CONDITIONAL_SET_FLAG (Z.land res 0xff =? 0) F_ZF ;;
  CONDITIONAL_SET_FLAG (PARITY (Z.land res 0xff)) F_PF ;;
  let bc := Z.lor (Z.land res (Z.lor (not32 d) s)) (Z.land (not32 d) s) in
  CONDITIONAL_SET_FLAG (nz (Z.land bc 0x80)) F_CF ;;
  CONDITIONAL_SET_FLAG (nz (XOR2 (Z.shiftr bc 6))) F_OF ;;
  CONDITIONAL_SET_FLAG (nz (Z.land bc 0x8)) F_AF ;;
  ret (u8 res).

Definition sub_word (d s : Z) : Flags Z :=
  let res := u32 (d - s) in
  CONDITIONAL_SET_FLAG (nz (Z.land res 0x8000)) F_SF ;;
  CONDITIONAL_SET_FLAG (Z.land res 0xffff =? 0) F_ZF ;;
  CONDITIONAL_SET_FLAG (PARITY (Z.land res 0xff)) F_PF ;;
  let bc := Z.lor (Z.land res (Z.lor (not32 d) s)) (Z.land (not32 d) s) in
  CONDITIONAL_SET_FLAG (nz (Z.land bc 0x8000)) F_CF ;;
  CONDITIONAL_SET_FLAG (nz (XOR2 (Z.shiftr bc 14))) F_OF ;;
  CONDITIONAL_SET_FLAG (nz (Z.land bc 0x8)) F_AF ;;
  ret (u16 res).

Definition sub_long (d s : Z) : Flags Z :=
  let res := u32 (d - s) in
  CONDITIONAL_SET_FLAG (nz (Z.land res 0x80000000)) F_SF ;;
  CONDITIONAL_SET_FLAG (Z.land res 0xffffffff =? 0) F_ZF ;;
  CONDITIONAL_SET_FLAG (PARITY (Z.land res 0xff)) F_PF ;;
  let bc := Z.lor (Z.land res (Z.lor (not32 d) s)) (Z.land (not32 d) s) in
  CONDITIONAL_SET_FLAG (nz (Z.land bc 0x80000000)) F_CF ;;
  CONDITIONAL_SET_FLAG (nz (XOR2 (Z.shiftr bc 30))) F_OF ;;
  CONDITIONAL_SET_FLAG (nz (Z.land bc 0x8)) F_AF ;;
  ret res.

Definition cmp_byte (d s : Z) : Flags Z :=
  let res := u32 (d - s) in
  CLEAR_FLAG F_CF ;;
  CONDITIONAL_SET_FLAG (nz (Z.land res 0x80)) F_SF ;;
  CONDITIONAL_SET_FLAG (Z.land res 0xff =? 0) F_ZF ;;
  CONDITIONAL_SET_FLAG (PARITY (Z.land res 0xff)) F_PF ;;
  let bc := Z.lor (Z.land res (Z.lor (not32 d) s)) (Z.land (not32 d) s) in
  CONDITIONAL_SET_FLAG (nz (Z.land bc 0x80)) F_CF ;;
  CONDITIONAL_SET_FLAG (nz (XOR2 (Z.shiftr bc 6))) F_OF ;;
  CONDITIONAL_SET_FLAG (nz (Z.land bc 0x8)) F_AF ;;
  ret d.

Definition cmp_word (d s : Z) : Flags Z :=
  let res := u32 (d - s) in
  CONDITIONAL_SET_FLAG (nz (Z.land res 0x8000)) F_SF ;;
  CONDITIONAL_SET_FLAG (Z.land res 0xffff =? 0) F_ZF ;;
  CONDITIONAL_SET_FLAG (PARITY (Z.land res 0xff)) F_PF ;;
  let bc := Z.lor (Z.land res (Z.lor (not32 d) s)) (Z.land (not32 d) s) in
  CONDITIONAL_SET_FLAG (nz (Z.land bc 0x8000)) F_CF ;;
  CONDITIONAL_SET_FLAG (nz (XOR2 (Z.shiftr bc 14))) F_OF ;;
  CONDITIONAL_SET_FLAG (nz (Z.land bc 0x8)) F_AF ;;
  ret d.

Definition cmp_long (d s : Z) : Flags Z :=
  let res := u32 (d - s) in
  CONDITIONAL_SET_FLAG (nz (Z.land res 0x80000000)) F_SF ;;
  CONDITIONAL_SET_FLAG (Z.land res 0xffffffff =? 0) F_ZF ;;
  CONDITIONAL_SET_FLAG (PARITY (Z.land res 0xff)) F_PF ;;
  let bc := Z.lor (Z.land res (Z.lor (not32 d) s)) (Z.land (not32 d) s) in
  CONDITIONAL_SET_FLAG (nz (Z.land bc 0x80000000)) F_CF ;;
  CONDITIONAL_SET_FLAG (nz (XOR2 (Z.shiftr bc 30))) F_OF ;;
  CONDITIONAL_SET_FLAG (nz (Z.land bc 0x8)) F_AF ;;
  ret d.

Definition dec_byte (d : Z) : Flags Z :=
  let res := u32 (d - 1) in
  CONDITIONAL_SET_FLAG (nz (Z.land res 0x80)) F_SF ;;
  CONDITIONAL_SET_FLAG (Z.land res 0xff =? 0) F_ZF ;;
  CONDITIONAL_SET_FLAG (PARITY (Z.land res 0xff)) F_PF ;;
  let bc := Z.lor (Z.land res (Z.lor (not32 d) 1)) (Z.land (not32 d) 1) in
  CONDITIONAL_SET_FLAG (nz (XOR2 (Z.shiftr bc 6))) F_OF ;;
  CONDITIONAL_SET_FLAG (nz (Z.land bc 0x8)) F_AF ;;
  ret (u8 res).

Definition dec_word (d : Z) : Flags Z :=
  let res := u32 (d - 1) in
  CONDITIONAL_SET_FLAG (nz (Z.land res 0x8000)) F_SF ;;
  CONDITIONAL_SET_FLAG (Z.land res 0xffff =? 0) F_ZF ;;
  CONDITIONAL_SET_FLAG (PARITY (Z.land res 0xff)) F_PF ;;
  let bc := Z.lor (Z.land res (Z.lor (not32 d) 1)) (Z.land (not32 d) 1) in
  CONDITIONAL_SET_FLAG (nz (XOR2 (Z.shiftr bc 14))) F_OF ;;
  CONDITIONAL_SET_FLAG (nz (Z.land bc 0x8)) F_AF ;;
  ret (u16 res).

Definition dec_long (d : Z) : Flags Z :=
  let res := u32 (d - 1) in
  CONDITIONAL_SET_FLAG (nz (Z.land res 0x80000000)) F_SF ;;
  CONDITIONAL_SET_FLAG (Z.land res 0xffffffff =? 0) F_ZF ;;
  CONDITIONAL_SET_FLAG (PARITY (Z.land res 0xff)) F_PF ;;
  let bc := Z.lor (Z.land res (Z.lor (not32 d) 1)) (Z.land (not32 d) 1) in
  CONDITIONAL_SET_FLAG (nz (XOR2 (Z.shiftr bc 30))) F_OF ;;
  CONDITIONAL_SET_FLAG (nz (Z.land bc 0x8)) F_AF ;;
  ret res.

Definition neg_byte (s : Z) : Flags Z :=
  CONDITIONAL_SET_FLAG (negb (s =? 0)) F_CF ;;
  let res := u8 (- s) in
  CONDITIONAL_SET_FLAG (Z.land res 0xff =? 0) F_ZF ;;
  CONDITIONAL_SET_FLAG (nz (Z.land res 0x80)) F_SF ;;
  CONDITIONAL_SET_FLAG (PARITY res) F_PF ;;
  let bc := Z.lor res s in
  CONDITIONAL_SET_FLAG (nz (XOR2 (Z.shiftr bc 6))) F_OF ;;
  CONDITIONAL_SET_FLAG (nz (Z.land bc 0x8)) F_AF ;;
  ret res.

Definition neg_word (s : Z) : Flags Z :=
  CONDITIONAL_SET_FLAG (negb (s =? 0)) F_CF ;;
  let res := u16 (- s) in
  CONDITIONAL_SET_FLAG (Z.land res 0xffff =? 0) F_ZF ;;
  CONDITIONAL_SET_FLAG (nz (Z.land res 0x8000)) F_SF ;;
  CONDITIONAL_SET_FLAG (PARITY (Z.land res 0xff)) F_PF ;;
  let bc := Z.lor res s in
  CONDITIONAL_SET_FLAG (nz (XOR2 (Z.shiftr bc 14))) F_OF ;;
  CONDITIONAL_SET_FLAG (nz (Z.land bc 0x8)) F_AF ;;
  ret res.

Definition neg_long (s : Z) : Flags Z :=
  CONDITIONAL_SET_FLAG (negb (s =? 0)) F_CF ;;
  let res := u32 (- s) in
  CONDITIONAL_SET_FLAG (Z.land res 0xffffffff =? 0) F_ZF ;;
  CONDITIONAL_SET_FLAG (nz (Z.land res 0x80000000)) F_SF ;;
  CONDITIONAL_SET_FLAG (PARITY (Z.land res 0xff)) F_PF ;;
  let bc := Z.lor res s in
  CONDITIONAL_SET_FLAG (nz (XOR2 (Z.shiftr bc 30))) F_OF ;;
  CONDITIONAL_SET_FLAG (nz (Z.land bc 0x8)) F_AF ;;
  ret res.

(** ** Logic *)

Definition and_byte (d s : Z) : Flags Z :=
  let res := Z.land d s in
  CLEAR_FLAG F_OF ;;
  CLEAR_FLAG F_CF ;;
  CLEAR_FLAG F_AF ;;
  CONDITIONAL_SET_FLAG (nz (Z.land res 0x80)) F_SF ;;
  CONDITIONAL_SET_FLAG (res =? 0) F_ZF ;;
  CONDITIONAL_SET_FLAG (PARITY res) F_PF ;;
  ret res.

Definition and_word (d s : Z) : Flags Z :=
  let res := Z.land d s in
  CLEAR_FLAG F_OF ;;
  CLEAR_FLAG F_CF ;;
  CLEAR_FLAG F_AF ;;
  CONDITIONAL_SET_FLAG (nz (Z.land res 0x8000)) F_SF ;;
  CONDITIONAL_SET_FLAG (res =? 0) F_ZF ;;
  CONDITIONAL_SET_FLAG (PARITY (Z.land res 0xff)) F_PF ;;
  ret res.

Definition and_long (d s : Z) : Flags Z :=
  let res := Z.land d s in
  CLEAR_FLAG F_OF ;;
  CLEAR_FLAG F_CF ;;
  CLEAR_FLAG F_AF ;;
  CONDITIONAL_SET_FLAG (nz (Z.land res 0x80000000)) F_SF ;;
  CONDITIONAL_SET_FLAG (res =? 0) F_ZF ;;
  CONDITIONAL_SET_FLAG (PARITY (Z.land res 0xff)) F_PF ;;
  ret res.

Definition or_byte (d s : Z) : Flags Z :=
  let res := Z.lor d s in
  CLEAR_FLAG F_OF ;;
  CLEAR_FLAG F_CF ;;
  CLEAR_FLAG F_AF ;;
  CONDITIONAL_SET_FLAG (nz (Z.land res 0x80)) F_SF ;;
  CONDITIONAL_SET_FLAG (res =? 0) F_ZF ;;
  CONDITIONAL_SET_FLAG (PARITY res) F_PF ;;
  ret res.

Definition or_word (d s : Z) : Flags Z :=
  let res := Z.lor d s in
  CLEAR_FLAG F_OF ;;
  CLEAR_FLAG F_CF ;;
  CLEAR_FLAG F_AF ;;
  CONDITIONAL_SET_FLAG (nz (Z.land res 0x8000)) F_SF ;;
  CONDITIONAL_SET_FLAG (res =? 0) F_ZF ;;
  CONDITIONAL_SET_FLAG (PARITY (Z.land res 0xff)) F_PF ;;
  ret res.

Definition or_long (d s : Z) : Flags Z :=
  let res := Z.lor d s in
  CLEAR_FLAG F_OF ;;
  CLEAR_FLAG F_CF ;;
  CLEAR_FLAG F_AF ;;
  CONDITIONAL_SET_FLAG (nz (Z.land res 0x80000000)) F_SF ;;
  CONDITIONAL_SET_FLAG (res =? 0) F_ZF ;;
  CONDITIONAL_SET_FLAG (PARITY (Z.land res 0xff)) F_PF ;;
  ret res.

Definition xor_byte (d s : Z) : Flags Z :=
  let res := Z.lxor d s in
  CLEAR_FLAG F_OF ;;
  CONDITIONAL_SET_FLAG (nz (Z.land res 0x80)) F_SF ;;
  CONDITIONAL_SET_FLAG (res =? 0) F_ZF ;;
  CONDITIONAL_SET_FLAG (PARITY res) F_PF ;;
  CLEAR_FLAG F_CF ;;
  CLEAR_FLAG F_AF ;;
  ret res.

Definition xor_word (d s : Z) : Flags Z :=
  let res := Z.lxor d s in
  CLEAR_FLAG F_OF ;;
  CONDITIONAL_SET_FLAG (nz (Z.land res 0x8000)) F_SF ;;
  CONDITIONAL_SET_FLAG (res =? 0) F_ZF ;;
  CONDITIONAL_SET_FLAG (PARITY (Z.land res 0xff)) F_PF ;;
  CLEAR_FLAG F_CF ;;
  CLEAR_FLAG F_AF ;;
  ret res.

Definition xor_long (d s : Z) : Flags Z :=
  let res := Z.lxor d s in
  CLEAR_FLAG F_OF ;;
  CONDITIONAL_SET_FLAG (nz (Z.land res 0x80000000)) F_SF ;;
  CONDITIONAL_SET_FLAG (res =? 0) F_ZF ;;
  CONDITIONAL_SET_FLAG (PARITY (Z.land res 0xff)) F_PF ;;
  CLEAR_FLAG F_CF ;;
  CLEAR_FLAG F_AF ;;
  ret res.

Definition test_byte (d s : Z) : Flags unit :=
  let res := Z.land d s in
  CLEAR_FLAG F_OF ;;
  CONDITIONAL_SET_FLAG (nz (Z.land res 0x80)) F_SF ;;
  CONDITIONAL_SET_FLAG (res =? 0) F_ZF ;;
  CONDITIONAL_SET_FLAG (PARITY (Z.land res 0xff)) F_PF ;;
  CLEAR_FLAG F_CF.

Definition test_word (d s : Z) : Flags unit :=
  let res := Z.land d s in
  CLEAR_FLAG F_OF ;;
  CONDITIONAL_SET_FLAG (nz (Z.land res 0x8000)) F_SF ;;
  CONDITIONAL_SET_FLAG (res =? 0) F_ZF ;;
  CONDITIONAL_SET_FLAG (PARITY (Z.land res 0xff)) F_PF ;;
  CLEAR_FLAG F_CF.

Definition test_long (d s : Z) : Flags unit :=
  let res := Z.land d s in
  CLEAR_FLAG F_OF ;;
  CONDITIONAL_SET_FLAG (nz (Z.land res 0x80000000)) F_SF ;;
  CONDITIONAL_SET_FLAG (res =? 0) F_ZF ;;
  CONDITIONAL_SET_FLAG (PARITY (Z.land res 0xff)) F_PF ;;
  CLEAR_FLAG F_CF.

Definition not_byte (s : Z) : Z := u8 (Z.lnot s).

Definition not_word (s : Z) : Z := u16 (Z.lnot s).

Definition not_long (s : Z) : Z := u32 (Z.lnot s).
(** ** The three widths *)

Inductive width := Byte | Word | Long.

Definition bits (w : width) : Z := match w with Byte => 8 | Word => 16 | Long => 32 end.

Definition by_width {A} (b wd l : A) (w : width) : A :=
  match w with Byte => b | Word => wd | Long => l end.

Definition op_add := by_width add_byte add_word add_long.
Definition op_adc := by_width adc_byte adc_word adc_long.
Definition op_inc := by_width inc_byte inc_word inc_long.
Definition op_sub := by_width sub_byte sub_word sub_long.
Definition op_sbb := by_width sbb_byte sbb_word sbb_long.
Definition op_cmp := by_width cmp_byte cmp_word cmp_long.
Definition op_dec := by_width dec_byte dec_word dec_long.
Definition op_neg := by_width neg_byte neg_word neg_long.
Definition op_and := by_width and_byte and_word and_long.
Definition op_or := by_width or_byte or_word or_long.
Definition op_xor := by_width xor_byte xor_word xor_long.
Definition op_test := by_width test_byte test_word test_long.
Definition op_not := by_width not_byte not_word not_long.

(** ** Running a flag computation *)

Lemma run_cond {A} c F (k : unit -> Flags A) FLG :
  bind (CONDITIONAL_SET_FLAG c F) k FLG = k tt (upd_flag c F FLG).
Proof. now apply bind_run, CONDITIONAL_SET_FLAG_eq. Qed.

Lemma run_set {A} F (k : unit -> Flags A) FLG : bind (SET_FLAG F) k FLG = k tt (upd_flag true F FLG).
Proof. reflexivity. Qed.

Lemma run_clear {A} F (k : unit -> Flags A) FLG : bind (CLEAR_FLAG F) k FLG = k tt (upd_flag false F FLG).
Proof. reflexivity. Qed.

Lemma run_access {A} F (k : bool -> Flags A) FLG : bind (ACCESS_FLAG F) k FLG = k (flag_of FLG F) FLG.
Proof. reflexivity. Qed.

Lemma run_ret {A} (a : A) (FLG : Z) : ret a FLG = (a, FLG).
Proof. reflexivity. Qed.

Ltac run :=
  cbv zeta beta;
  repeat (first [ rewrite run_cond | rewrite run_set | rewrite run_clear | rewrite run_access
                | rewrite run_ret | rewrite bind_ret_l
                | rewrite bind_assoc | rewrite bind_if | rewrite CLEAR_FLAG_eq | rewrite SET_FLAG_eq
                | rewrite CONDITIONAL_SET_FLAG_eq ]; cbv zeta beta).

(** ** What the flags of a sum and of a difference mean *)

Record sum_flags (w d s : Z) (c : bool) (FLG : Z) : Prop := {
  sum_result : result_flags w (wrap w (d + s + Z.b2z c)) FLG;
  sum_OF : flag_of FLG F_OF =
    negb (signed w (wrap w (d + s + Z.b2z c)) =? signed w d + signed w s + Z.b2z c);
  sum_AF : flag_of FLG F_AF = (16 <=? d mod 16 + s mod 16 + Z.b2z c)
}.

Record diff_flags (w d s : Z) (c : bool) (FLG : Z) : Prop := {
  diff_result : result_flags w (wrap w (d - s - Z.b2z c)) FLG;
  diff_OF : flag_of FLG F_OF =
    negb (signed w (wrap w (d - s - Z.b2z c)) =? signed w d - signed w s - Z.b2z c);
  diff_AF : flag_of FLG F_AF = (d mod 16 <? s mod 16 + Z.b2z c)
}.

Lemma nz_XOR2_shiftr x n :
  0 <= n -> nz (XOR2 (Z.shiftr x n)) = xorb (Z.testbit x n) (Z.testbit x (n + 1)).
Proof. intros Hn. rewrite nz_XOR2, !Z.shiftr_spec by easy. now rewrite !(Z.add_comm _ n), Z.add_0_r. Qed.

Lemma bits_bounds w : 8 <= bits w <= 32.
Proof. destruct w; simpl; lia. Qed.

Lemma parity_u32 w r : PARITY (Z.land (u32 r) 0xff) = even_parity (wrap (bits w) r mod 256).
Proof.
  rewrite PARITY_low. f_equal. change 256 with (2 ^ 8). fold (wrap 8 (u32 r)).
  fold (wrap 8 (wrap (bits w) r)). rewrite narrow_u32 by lia.
  pose proof (bits_bounds w). rewrite !wrap_land by lia. rewrite <- Z.land_assoc. f_equal.
  now destruct w.
Qed.

(** The result flags of an operation that computes [u32 r]. *)
Lemma result_flags_intro w r FLG :
  flag_of FLG F_ZF = (Z.land (u32 r) (Z.ones (bits w)) =? 0) ->
  flag_of FLG F_SF = Z.testbit (u32 r) (bits w - 1) ->
  flag_of FLG F_PF = PARITY (Z.land (u32 r) 0xff) ->
  result_flags (bits w) (wrap (bits w) r) FLG.
Proof.
  pose proof (bits_bounds w) as Hw. intros HZ HS HP. split.
  - rewrite HZ, (land_low _ _ (bits w)); [easy|]. rewrite !andb_true_iff, !Z.leb_le, Z.eqb_eq. lia.
  - now rewrite HS, testbit_u32, testbit_sign by lia.
  - now rewrite HP, (parity_u32 w).
Qed.

Lemma sum_flags_intro w d s c FLG :
  in_word (bits w) d -> in_word (bits w) s ->
  let r := d + s + Z.b2z c in
  let cc := Z.lor (Z.land s d) (Z.land (not32 (u32 r)) (Z.lor s d)) in
  flag_of FLG F_ZF = (Z.land (u32 r) (Z.ones (bits w)) =? 0) ->
  flag_of FLG F_SF = Z.testbit (u32 r) (bits w - 1) ->
  flag_of FLG F_PF = PARITY (Z.land (u32 r) 0xff) ->
  flag_of FLG F_OF = xorb (Z.testbit cc (bits w - 2)) (Z.testbit cc (bits w - 1)) ->
  flag_of FLG F_AF = Z.testbit cc 3 ->
  sum_flags (bits w) d s c FLG.
Proof.
  pose proof (bits_bounds w) as Hw. intros Hd Hs r cc HZ HS HP HO HA. split.
  - now apply result_flags_intro.
  - rewrite HO. unfold cc, r. rewrite !carry_chain by lia. apply chain_overflow_add; [lia|easy|easy].
  - rewrite HA. unfold cc, r. rewrite carry_chain by lia. apply chain_nibble_add.
Qed.

Lemma diff_flags_intro w d s c FLG :
  in_word (bits w) d -> in_word (bits w) s ->
  let r := d - s - Z.b2z c in
  let bc := Z.lor (Z.land (u32 r) (Z.lor (not32 d) s)) (Z.land (not32 d) s) in
  flag_of FLG F_ZF = (Z.land (u32 r) (Z.ones (bits w)) =? 0) ->
  flag_of FLG F_SF = Z.testbit (u32 r) (bits w - 1) ->
  flag_of FLG F_PF = PARITY (Z.land (u32 r) 0xff) ->
  flag_of FLG F_OF = xorb (Z.testbit bc (bits w - 2)) (Z.testbit bc (bits w - 1)) ->
  flag_of FLG F_AF = Z.testbit bc 3 ->
  diff_flags (bits w) d s c FLG.
Proof.
  pose proof (bits_bounds w) as Hw. intros Hd Hs r bc HZ HS HP HO HA. split.
  - now apply result_flags_intro.
  - rewrite HO. unfold bc, r. rewrite !borrow_chain by lia. apply chain_overflow_sub; [lia|easy|easy].
  - rewrite HA. unfold bc, r. rewrite borrow_chain by lia. apply chain_nibble_sub.
Qed.

(** The carry out of the low half, as [add_long] and [adc_long] compute it. *)
Lemma carry_long d s (c : bool) :
  in_word 32 d -> in_word 32 s ->
  Z.testbit (u32 (Z.shiftr (u32 (Z.land d 0xFFFF + Z.land s 0xFFFF + Z.b2z c)) 16
                  + Z.shiftr d 16 + Z.shiftr s 16)) 16 =
  (2 ^ 32 <=? d + s + Z.b2z c).
Proof.
  unfold in_word. intros Hd Hs. change 0xFFFF with (Z.ones 16).
  rewrite testbit_u32, !Z.land_ones, !Z.shiftr_div_pow2 by lia. unfold u32, wrap.
  assert (Hc : 0 <= Z.b2z c <= 1) by (destruct c; simpl; lia).
  set (k := Z.b2z c) in *. clearbody k. change (2 ^ 32) with 4294967296 in *. change (2 ^ 16) with 65536.
  rewrite (Z.mod_small (d mod 65536 + s mod 65536 + k)) by zlia.
  rewrite testbit_over by zlia. change (2 ^ 16) with 65536.
  destruct (Z.ltb_spec ((d mod 65536 + s mod 65536 + k) / 65536 + d / 65536 + s / 65536) 0); [zlia|].
  rewrite orb_false_r. zcmp; zlia.
Qed.

Lemma carry_short w d s (c : bool) :
  w = 8 \/ w = 16 -> in_word w d -> in_word w s ->
  Z.testbit (u32 (d + s + Z.b2z c)) w = (2 ^ w <=? d + s + Z.b2z c).
Proof.
  unfold in_word. intros Hw Hd Hs.
  assert (Hc : 0 <= Z.b2z c <= 1) by (destruct c; simpl; lia).
  assert (Hp : 2 ^ w = 256 \/ 2 ^ w = 65536) by (now destruct Hw as [-> | ->]; auto).
  rewrite testbit_u32, testbit_over by lia.
  destruct (Z.ltb_spec (d + s + Z.b2z c) 0); [lia|]. apply orb_false_r.
Qed.

(** ** Outcomes *)

(** The outcome of adding with carry-in [c]. *)
Record added (w d s : Z) (c : bool) (FLG : Z) (out : Z * Z) : Prop := {
  added_result : fst out = wrap w (d + s + Z.b2z c);
  added_CF : flag_of (snd out) F_CF = (2 ^ w <=? d + s + Z.b2z c);
  added_flags : sum_flags w d s c (snd out);
  added_frame : frame_flags STATUS FLG (snd out)
}.

(** The outcome of subtracting with borrow-in [c], whose result is [r]. *)
Record subtracted (w d s : Z) (c : bool) (r FLG : Z) (out : Z * Z) : Prop := {
  subtracted_result : fst out = r;
  subtracted_CF : flag_of (snd out) F_CF = (d - s - Z.b2z c <? 0);
  subtracted_flags : diff_flags w d s c (snd out);
  subtracted_frame : frame_flags STATUS FLG (snd out)
}.

(** Close the goals about single flags and the frame after [run]. *)
Ltac flags_done :=
  cbn [fst snd bits];
  match goal with
  | |- frame_flags _ _ _ => auto 20 with word
  | _ => autorewrite with flags; rewrite ?nz_XOR2_shiftr by lia; mask_bits; try reflexivity
  end.

Lemma borrow_out w d s (c : bool) :
  in_word w d -> in_word w s -> 0 < w -> chain d s (d - s - Z.b2z c) (w - 1) = (d - s - Z.b2z c <? 0).
Proof.
  unfold in_word. intros Hd Hs Hw. assert (Hc : 0 <= Z.b2z c <= 1) by (destruct c; simpl; lia).
  rewrite chain_out by (unfold in_word; lia). zcmp; simpl; lia.
Qed.

(** Write the operand of every [u32] as a sum or difference with a carry-in. *)
Ltac carry_in :=
  repeat match goal with
    | |- context [u32 (1 + ?a + ?b)] =>
        replace (1 + a + b) with (a + b + Z.b2z true) by (unfold Z.b2z; lia)
    | |- context [u32 (?a - ?b - 1)] => change (u32 (a - b - 1)) with (u32 (a - b - Z.b2z true))
    | |- context [u32 (Z.land ?a ?m + Z.land ?b ?m)] =>
        replace (Z.land a m + Z.land b m) with (Z.land a m + Z.land b m + Z.b2z false) by (unfold Z.b2z; lia)
    | |- context [u32 (?d + ?b)] => is_var d;
        replace (u32 (d + b)) with (u32 (d + b + Z.b2z false)) by (f_equal; unfold Z.b2z; lia)
    | |- context [u32 (?d - ?b)] => is_var d;
        replace (u32 (d - b)) with (u32 (d - b - Z.b2z false)) by (f_equal; unfold Z.b2z; lia)
    end.

Ltac sum_done w :=
  constructor;
  [ cbn [fst bits]; first [reflexivity | apply narrow_u32; lia]
  | cbn [snd bits]; autorewrite with flags; mask_bits;
    first [apply carry_short; auto | apply carry_long; easy]
  | apply (sum_flags_intro w); [easy|easy|flags_done..]
  | flags_done ].

Ltac diff_done w :=
  constructor;
  [ cbn [fst bits]; first [reflexivity | apply narrow_u32; lia]
  | cbn [snd bits]; autorewrite with flags; mask_bits;
    rewrite borrow_chain by lia; refine (borrow_out (bits w) _ _ _ _ _ _); easy
  | apply (diff_flags_intro w); [easy|easy|flags_done..]
  | flags_done ].

Lemma run_adc w d s FLG :
  in_word (bits w) d -> in_word (bits w) s ->
  added (bits w) d s (flag_of FLG F_CF) FLG (op_adc w d s FLG).
Proof.
  intros Hd Hs.
  destruct w; unfold op_adc, by_width, adc_byte, adc_word, adc_long; run;
    destruct (flag_of FLG F_CF); carry_in.
  - sum_done Byte.
  - sum_done Byte.
  - sum_done Word.
  - sum_done Word.
  - sum_done Long.
  - sum_done Long.
Qed.

Lemma run_add w d s FLG :
  in_word (bits w) d -> in_word (bits w) s ->
  added (bits w) d s false FLG (op_add w d s FLG).
Proof.
  intros Hd Hs.
  destruct w; unfold op_add, by_width, add_byte, add_word, add_long; run; carry_in.
  - sum_done Byte.
  - sum_done Word.
  - sum_done Long.
Qed.

Lemma run_sbb w d s FLG :
  in_word (bits w) d -> in_word (bits w) s ->
  let c := flag_of FLG F_CF in
  subtracted (bits w) d s c (wrap (bits w) (d - s - Z.b2z c)) FLG (op_sbb w d s FLG).
Proof.
  intros Hd Hs.
  destruct w; unfold op_sbb, by_width, sbb_byte, sbb_word, sbb_long; run;
    destruct (flag_of FLG F_CF); carry_in.
  - diff_done Byte.
  - diff_done Byte.
  - diff_done Word.
  - diff_done Word.
  - diff_done Long.
  - diff_done Long.
Qed.

Lemma run_sub w d s FLG :
  in_word (bits w) d -> in_word (bits w) s ->
  subtracted (bits w) d s false (wrap (bits w) (d - s)) FLG (op_sub w d s FLG).
Proof.
  intros Hd Hs. rewrite <- (Z.sub_0_r (d - s)). change (d - s - 0) with (d - s - Z.b2z false).
  destruct w; unfold op_sub, by_width, sub_byte, sub_word, sub_long; run; carry_in.
  - diff_done Byte.
  - diff_done Word.
  - diff_done Long.
Qed.

Lemma run_cmp w d s FLG :
  in_word (bits w) d -> in_word (bits w) s ->
  subtracted (bits w) d s false d FLG (op_cmp w d s FLG).
Proof.
  intros Hd Hs.
  destruct w; unfold op_cmp, by_width, cmp_byte, cmp_word, cmp_long; run; carry_in.
  - diff_done Byte.
  - diff_done Word.
  - diff_done Long.
Qed.

(** [inc_byte] groups the carry chain differently from its siblings. *)
Lemma inc_chain d x : Z.land (Z.lor (Z.land 1 d) x) (Z.lor 1 d) = Z.lor (Z.land 1 d) (Z.land x (Z.lor 1 d)).
Proof.
  apply Z.bits_inj'. intros i _.
  rewrite ?Z.land_spec, ?Z.lor_spec, ?Z.land_spec, ?Z.lor_spec. btauto.
Qed.

Lemma word_one w : in_word (bits w) 1.
Proof. destruct w; unfold in_word; simpl; lia. Qed.

Lemma run_inc w d FLG :
  in_word (bits w) d ->
  let out := op_inc w d FLG in
  fst out = wrap (bits w) (d + 1) /\ sum_flags (bits w) d 1 false (snd out) /\
  frame_flags (Z.ldiff STATUS F_CF) FLG (snd out).
Proof.
  intros Hd. pose proof (word_one w) as H1.
  destruct w; unfold op_inc, by_width, inc_byte, inc_word, inc_long; run; rewrite ?inc_chain; carry_in;
    (split; [cbn [fst bits]; unfold Z.b2z; rewrite Z.add_0_r; first [reflexivity | apply narrow_u32; lia]|]).
  - split; [apply (sum_flags_intro Byte); [easy|easy|flags_done..]|flags_done].
  - split; [apply (sum_flags_intro Word); [easy|easy|flags_done..]|flags_done].
  - split; [apply (sum_flags_intro Long); [easy|easy|flags_done..]|flags_done].
Qed.

Lemma run_dec w d FLG :
  in_word (bits w) d ->
  let out := op_dec w d FLG in
  fst out = wrap (bits w) (d - 1) /\ diff_flags (bits w) d 1 false (snd out) /\
  frame_flags (Z.ldiff STATUS F_CF) FLG (snd out).
Proof.
  intros Hd. pose proof (word_one w) as H1.
  destruct w; unfold op_dec, by_width, dec_byte, dec_word, dec_long; run; carry_in;
    (split; [cbn [fst bits]; unfold Z.b2z; rewrite Z.sub_0_r; first [reflexivity | apply narrow_u32; lia]|]).
  - split; [apply (diff_flags_intro Byte); [easy|easy|flags_done..]|flags_done].
  - split; [apply (diff_flags_intro Word); [easy|easy|flags_done..]|flags_done].
  - split; [apply (diff_flags_intro Long); [easy|easy|flags_done..]|flags_done].
Qed.

(** The borrow chain of [0 - s] below the top of the word is [(0 - s) | s]. *)
Lemma neg_chain w s i :
  in_word w s -> 0 <= i < w -> w <= 32 ->
  Z.testbit (Z.lor (wrap w (- s)) s) i =
  Z.testbit (Z.lor (Z.land (u32 (0 - s - Z.b2z false)) (Z.lor (not32 0) s)) (Z.land (not32 0) s)) i.
Proof.
  intros Hs Hi Hw. rewrite !Z.lor_spec, !Z.land_spec, Z.lor_spec, testbit_not32, testbit_u32, testbit_wrap, Z.bits_0 by lia.
  rewrite (proj2 (Z.ltb_lt i w)) by lia. unfold Z.b2z. replace (0 - s - 0) with (- s) by lia.
  now destruct (Z.testbit (- s) i), (Z.testbit s i).
Qed.

Lemma land_mask_id w r : 0 <= w -> in_word w r -> Z.land r (Z.ones w) = r.
Proof. intros Hw Hr. rewrite Z.land_ones by easy. now apply Z.mod_small. Qed.

Lemma result_flags_word w r FLG :
  in_word (bits w) r ->
  flag_of FLG F_ZF = (r =? 0) ->
  flag_of FLG F_SF = Z.testbit r (bits w - 1) ->
  flag_of FLG F_PF = PARITY (Z.land r 0xff) ->
  result_flags (bits w) r FLG.
Proof.
  pose proof (bits_bounds w) as Hw. intros Hr HZ HS HP. split; [easy| |].
  - rewrite HS. apply testbit_top; [lia|easy].
  - now rewrite HP, PARITY_low.
Qed.

Lemma run_neg w s FLG :
  in_word (bits w) s ->
  subtracted (bits w) 0 s false (wrap (bits w) (0 - s)) FLG (op_neg w s FLG).
Proof.
  intros Hs. pose proof (bits_bounds w) as Hw.
  assert (H0 : in_word (bits w) 0) by (unfold in_word in *; lia).
  assert (HR : in_word (bits w) (wrap (bits w) (- s))) by (apply wrap_range; lia).
  assert (Hc : negb (s =? 0) = (0 - s - Z.b2z false <? 0)).
  { unfold in_word in Hs. change (Z.b2z false) with 0. zcmp; simpl; lia. }
  assert (Hneg : 0 - s - Z.b2z false = - s) by (unfold Z.b2z; lia).
  assert (HO : xorb (Z.testbit (Z.lor (wrap (bits w) (- s)) s) (bits w - 2))
                    (Z.testbit (Z.lor (wrap (bits w) (- s)) s) (bits w - 1)) =
    negb (signed (bits w) (wrap (bits w) (- s)) =? 0 - signed (bits w) s - Z.b2z false)).
  { rewrite !(neg_chain (bits w)), !borrow_chain by lia || easy.
    rewrite chain_overflow_sub by lia || easy.
    rewrite Hneg. now destruct w. }
  assert (HA : Z.testbit (Z.lor (wrap (bits w) (- s)) s) 3 = (0 mod 16 <? s mod 16 + Z.b2z false)).
  { rewrite (neg_chain (bits w)), borrow_chain by lia || easy. apply chain_nibble_sub. }
  assert (HP : Z.land (wrap (bits w) (- s)) (Z.ones (bits w)) = wrap (bits w) (- s))
    by (apply land_mask_id; [lia|easy]).
  destruct w; unfold op_neg, by_width, neg_byte, neg_word, neg_long; run; cbn [bits] in *;
    (constructor;
     [ reflexivity
     | cbn [snd]; now autorewrite with flags
     | constructor;
       [ rewrite Hneg
       | cbn [snd]; autorewrite with flags; rewrite nz_XOR2_shiftr by lia;
         rewrite Hneg; exact HO
       | cbn [snd]; autorewrite with flags; mask_bits; exact HA ]
     | flags_done ]).
  - change (Z.ones 8) with 0xff in HP. apply (result_flags_word Byte); [easy|flags_done..].
    + now rewrite (HP : Z.land (u8 (- s)) 0xff = _).
    + now rewrite HP.
  - change (Z.ones 16) with 0xffff in HP. apply (result_flags_word Word); [easy|flags_done..].
    now rewrite (HP : Z.land (u16 (- s)) 0xffff = _).
  - change (Z.ones 32) with 0xffffffff in HP. apply (result_flags_word Long); [easy|flags_done..].
    now rewrite (HP : Z.land (u32 (- s)) 0xffffffff = _).
Qed.

(** Logic operations: the result [r], cleared carry and overflow, and the flags of [r]. *)
Record logical (w r m FLG : Z) (FLG' : Z) : Prop := {
  logical_flags : result_flags w r FLG';
  logical_CF : flag_of FLG' F_CF = false;
  logical_OF : flag_of FLG' F_OF = false;
  logical_frame : frame_flags m FLG FLG'
}.

Lemma bitop_range w (f : bool -> bool -> bool) d s r :
  0 <= w -> f false false = false -> 0 <= r ->
  (forall i, Z.testbit r i = f (Z.testbit d i) (Z.testbit s i)) ->
  in_word w d -> in_word w s -> in_word w r.
Proof.
  intros Hw Hf H0 Hr Hd Hs. replace r with (wrap w r); [now apply wrap_range|].
  apply Z.bits_inj'. intros i Hi. rewrite testbit_wrap by easy.
  destruct (Z.ltb_spec i w); [easy|]. rewrite Hr, !(in_word_testbit_high w) by easy. now rewrite Hf.
Qed.

Lemma land_range w d s : 0 <= w -> in_word w d -> in_word w s -> in_word w (Z.land d s).
Proof.
  intros Hw Hd Hs. apply (bitop_range w andb d s); auto.
  - apply Z.land_nonneg. unfold in_word in *; lia.
  - intros i. apply Z.land_spec.
Qed.

Lemma lor_range w d s : 0 <= w -> in_word w d -> in_word w s -> in_word w (Z.lor d s).
Proof.
  intros Hw Hd Hs. apply (bitop_range w orb d s); auto.
  - apply Z.lor_nonneg. unfold in_word in *; lia.
  - intros i. apply Z.lor_spec.
Qed.

Lemma lxor_range w d s : 0 <= w -> in_word w d -> in_word w s -> in_word w (Z.lxor d s).
Proof.
  intros Hw Hd Hs. apply (bitop_range w xorb d s); auto.
  - apply Z.lxor_nonneg. unfold in_word in *; lia.
  - intros i. apply Z.lxor_spec.
Qed.

Ltac logic_done w :=
  cbn [fst snd bits] in *;
  repeat match goal with |- _ /\ _ => split end;
  [ try reflexivity .. | constructor; [apply (result_flags_word w); [easy|..]|..] ];
  flags_done; try (change 0xff with (Z.ones 8); now rewrite land_mask_id).

(** The outcome of a bitwise operation with result [r]. *)
Definition bitwise (w r FLG : Z) (out : Z * Z) : Prop :=
  fst out = r /\ flag_of (snd out) F_AF = false /\ logical w r STATUS FLG (snd out).

Lemma run_and w d s FLG :
  in_word (bits w) d -> in_word (bits w) s ->
  bitwise (bits w) (Z.land d s) FLG (op_and w d s FLG).
Proof.
  intros Hd Hs. pose proof (land_range (bits w) d s) as Hr. unfold bitwise.
  destruct w; unfold op_and, by_width, and_byte, and_word, and_long; run;
    (specialize (Hr ltac:(easy) Hd Hs)).
  - logic_done Byte.
  - logic_done Word.
  - logic_done Long.
Qed.

Lemma run_or w d s FLG :
  in_word (bits w) d -> in_word (bits w) s ->
  bitwise (bits w) (Z.lor d s) FLG (op_or w d s FLG).
Proof.
  intros Hd Hs. pose proof (lor_range (bits w) d s) as Hr. unfold bitwise.
  destruct w; unfold op_or, by_width, or_byte, or_word, or_long; run;
    (specialize (Hr ltac:(easy) Hd Hs)).
  - logic_done Byte.
  - logic_done Word.
  - logic_done Long.
Qed.

Lemma run_xor w d s FLG :
  in_word (bits w) d -> in_word (bits w) s ->
  bitwise (bits w) (Z.lxor d s) FLG (op_xor w d s FLG).
Proof.
  intros Hd Hs. pose proof (lxor_range (bits w) d s) as Hr. unfold bitwise.
  destruct w; unfold op_xor, by_width, xor_byte, xor_word, xor_long; run;
    (specialize (Hr ltac:(easy) Hd Hs)).
  - logic_done Byte.
  - logic_done Word.
  - logic_done Long.
Qed.

Lemma run_test w d s FLG :
  in_word (bits w) d -> in_word (bits w) s ->
  logical (bits w) (Z.land d s) (Z.ldiff STATUS F_AF) FLG (snd (op_test w d s FLG)).
Proof.
  intros Hd Hs. pose proof (land_range (bits w) d s) as Hr.
  destruct w; unfold op_test, by_width, test_byte, test_word, test_long; run;
    (specialize (Hr ltac:(easy) Hd Hs)).
  - logic_done Byte.
  - logic_done Word.
  - logic_done Long.
Qed.

(** ** Decimal adjustment depends on AF and CF only *)

(** The result and the carry of each adjustment, from AF and CF. *)
Definition daa_core (d : Z) (af cf : bool) : Z * bool :=
  let res := if (9 <? Z.land d 15) || af then u32 (d + 6) else d in
  let adjust := (159 <? res) || cf in
  (u8 (if adjust then u32 (res + 96) else res), adjust).

Definition das_core (d : Z) (af cf : bool) : Z * bool :=
  let d := if (9 <? Z.land d 15) || af then u8 (d - 6) else d in
  let adjust := (159 <? d) || cf in
  (if adjust then u8 (d - 96) else d, adjust).

Definition aaa_core (d : Z) (af : bool) : Z * bool :=
  let adjust := (9 <? Z.land d 15) || af in
  (u16 (Z.land (if adjust then u16 (u16 (d + 6) + 256) else d) 65295), adjust).

Definition aas_core (d : Z) (af : bool) : Z * bool :=
  let adjust := (9 <? Z.land d 15) || af in
  (u16 (Z.land (if adjust then u16 (u16 (d - 6) - 256) else d) 65295), adjust).

Definition computes (out : Z * Z) (core : Z * bool) : Prop :=
  fst out = fst core /\ flag_of (snd out) F_CF = snd core.

(** Take the branches of an adjustment one after the other. *)
Ltac decimal_done :=
  run; autorewrite with flags;
  repeat match goal with |- context [if ?b then _ else _] => destruct b eqn:? end;
  split; cbn [fst snd]; autorewrite with flags; try reflexivity;
  match goal with H : _ || _ = false |- _ => now apply orb_false_iff in H end.

Lemma decimal_computes d f :
  let af := flag_of f F_AF in
  let cf := flag_of f F_CF in
  computes (daa_byte d f) (daa_core d af cf) /\ computes (das_byte d f) (das_core d af cf) /\
  computes (aaa_word d f) (aaa_core d af) /\ computes (aas_word d f) (aas_core d af).
Proof.
  cbv zeta. unfold daa_byte, daa_core, das_byte, das_core, aaa_word, aaa_core, aas_word, aas_core.
  split; [decimal_done|]. split; [decimal_done|]. split; decimal_done.
Qed.

(** Packed decimal. *)
Definition bcd (n : Z) : Z := 16 * (n / 10) + n mod 10.

(** The adjustments after the sum or difference of any two decimal operands
    with any carry-in, by evaluation. *)
Definition core_ok (core : Z * bool) (r : Z) (c : bool) : bool := (fst core =? r) && eqb (snd core) c.

Definition daa_ok (a b : Z) (c : bool) : bool :=
  let n := a + b + Z.b2z c in
  let sum := bcd a + bcd b + Z.b2z c in
  core_ok (daa_core (wrap 8 sum) (16 <=? bcd a mod 16 + bcd b mod 16 + Z.b2z c) (256 <=? sum))
    (bcd (n mod 100)) (100 <=? n).

Definition das_ok (a b : Z) (c : bool) : bool :=
  let n := a - b - Z.b2z c in
  let diff := bcd a - bcd b - Z.b2z c in
  core_ok (das_core (wrap 8 diff) (bcd a mod 16 <? bcd b mod 16 + Z.b2z c) (diff <? 0))
    (bcd (n mod 100)) (n <? 0).

(** One digit: the sum or difference is a number from -10 to 19. *)
Definition aaa_ok (h n : Z) : bool :=
  core_ok (aaa_core (256 * h + wrap 8 n) (16 <=? n)) (256 * ((h + n / 10) mod 256) + n mod 10) (10 <=? n).

Definition aas_ok (h n : Z) : bool :=
  core_ok (aas_core (256 * h + wrap 8 n) (n <? 0)) (256 * ((h + n / 10) mod 256) + n mod 10) (n <? 0).

Lemma packed_ok a b c : 0 <= a < 100 -> 0 <= b < 100 -> daa_ok a b c && das_ok a b c = true.
Proof.
  intros Ha Hb.
  refine (all_below_spec 100 (fun b => daa_ok a b c && das_ok a b c) b _ Hb).
  refine (all_below_spec 100 (fun a => all_below 100 (fun b => daa_ok a b c && das_ok a b c)) a _ Ha).
  destruct c; vm_compute; reflexivity.
Qed.

Lemma unpacked_ok h n :
  0 <= h < 256 -> (0 <= n < 20 -> aaa_ok h n = true) /\ (-10 <= n < 10 -> aas_ok h n = true).
Proof.
  intros Hh.
  assert (H : forall k, 0 <= k < 20 -> aaa_ok h k && aas_ok h (k - 10) = true).
  { intros k Hk. refine (all_below_spec 20 (fun k => aaa_ok h k && aas_ok h (k - 10)) k _ Hk).
    refine (all_below_spec 256 (fun h => all_below 20 (fun k => aaa_ok h k && aas_ok h (k - 10))) h _ Hh).
    vm_compute. reflexivity. }
  split; intros Hn.
  - exact (proj1 (proj1 (andb_true_iff _ _) (H n Hn))).
  - specialize (H (n + 10) ltac:(lia)). rewrite Z.add_simpl_r in H.
    exact (proj2 (proj1 (andb_true_iff _ _) H)).
Qed.

Lemma after_adc d s FLG :
  in_word (bits Byte) d -> in_word (bits Byte) s ->
  let c := Z.b2z (flag_of FLG F_CF) in
  let (r, f) := op_adc Byte d s FLG in
  r = wrap 8 (d + s + c) /\
  flag_of f F_AF = (16 <=? d mod 16 + s mod 16 + c) /\ flag_of f F_CF = (256 <=? d + s + c).
Proof.
  intros Hd Hs c. destruct (run_adc Byte d s FLG Hd Hs) as [Hr HC [_ _ HA] _].
  destruct (op_adc Byte d s FLG) as [r f]. now cbn [fst snd] in *.
Qed.

Lemma after_sbb d s FLG :
  in_word (bits Byte) d -> in_word (bits Byte) s ->
  let c := Z.b2z (flag_of FLG F_CF) in
  let (r, f) := op_sbb Byte d s FLG in
  r = wrap 8 (d - s - c) /\
  flag_of f F_AF = (d mod 16 <? s mod 16 + c) /\ flag_of f F_CF = (d - s - c <? 0).
Proof.
  intros Hd Hs c. destruct (run_sbb Byte d s FLG Hd Hs) as [Hr HC [_ _ HA] _].
  destruct (op_sbb Byte d s FLG) as [r f]. now cbn [fst snd] in *.
Qed.

(** The same for digits, whose sum and difference decide AF and CF. *)
Lemma after_digit_adc a b FLG :
  0 <= a < 10 -> 0 <= b < 10 ->
  let n := a + b + Z.b2z (flag_of FLG F_CF) in
  let (r, f) := op_adc Byte a b FLG in
  r = wrap 8 n /\ flag_of f F_AF = (16 <=? n) /\ flag_of f F_CF = (256 <=? n).
Proof.
  intros Ha Hb n. pose proof (after_adc a b FLG) as H. destruct (op_adc Byte a b FLG).
  rewrite !Z.mod_small in H by lia. apply H; unfold in_word; simpl; lia.
Qed.

Lemma after_digit_sbb a b FLG :
  0 <= a < 10 -> 0 <= b < 10 ->
  let n := a - b - Z.b2z (flag_of FLG F_CF) in
  let (r, f) := op_sbb Byte a b FLG in
  r = wrap 8 n /\ flag_of f F_AF = (n <? 0) /\ flag_of f F_CF = (n <? 0).
Proof.
  intros Ha Hb n. pose proof (after_sbb a b FLG) as H. destruct (op_sbb Byte a b FLG).
  cbv zeta in H. rewrite !Z.mod_small in H by lia.
  replace (a <? b + Z.b2z (flag_of FLG F_CF)) with (n <? 0) in H by (unfold n; zcmp; lia).
  apply H; unfold in_word; simpl; lia.
Qed.

Lemma core_ok_computes out core r c :
  computes out core -> core_ok core r c = true -> fst out = r /\ flag_of (snd out) F_CF = c.
Proof.
  intros [Hr Hc]. unfold core_ok. rewrite andb_true_iff, Z.eqb_eq, eqb_true_iff.
  intros [<- <-]. easy.
Qed.

(** Apply the evaluated check [ok] to an adjustment after ADC or SBB. *)
Ltac decimal_case after d s FLG ok :=
  generalize (after d s FLG ltac:(auto) ltac:(auto)); cbv zeta;
  let r := fresh "r" in let f := fresh "f" in let HA := fresh in let HC := fresh in
  match goal with |- (let (_, _) := ?o in _) -> _ => destruct o as [r f] end;
  intros (-> & HA & HC);
  refine (core_ok_computes _ _ _ _ _ ok); first [rewrite <- HA, <- HC; apply decimal_computes | rewrite <- HA; apply decimal_computes].

Lemma aad_aam d FLG : 0 <= d < 256 -> (let (x, f) := aam_word d FLG in fst (aad_word x f)) = d.
Proof.
  intros Hd. unfold aam_word. run. unfold aad_word. run. cbn [fst].
  apply Z.eqb_eq. byte_cases d Hd.
Qed.

(** ** Properties *)

(** ADD and ADC, in the three widths: the result is the sum modulo the
    width, CF the carry out, OF signed overflow, AF the carry out of the low
    nibble, ZF, SF and PF describe the result, and no other flag changes; ADC
    adds the carry flag it found. *)
Theorem addition_correct w d s FLG :
  in_word (bits w) d -> in_word (bits w) s ->
  added (bits w) d s false FLG (op_add w d s FLG) /\
  added (bits w) d s (flag_of FLG F_CF) FLG (op_adc w d s FLG).
Proof. intros Hd Hs. split; [now apply run_add|now apply run_adc]. Qed.

(** SUB, SBB, CMP and NEG: the result is the difference modulo the width
    (CMP returns its first operand), CF the borrow, OF signed overflow, AF the
    borrow out of the low nibble, and no other flag changes; SBB subtracts the
    carry flag it found and NEG is subtraction from zero. *)
Theorem subtraction_correct w d s FLG :
  in_word (bits w) d -> in_word (bits w) s ->
  let c := flag_of FLG F_CF in
  subtracted (bits w) d s false (wrap (bits w) (d - s)) FLG (op_sub w d s FLG) /\
  subtracted (bits w) d s c (wrap (bits w) (d - s - Z.b2z c)) FLG (op_sbb w d s FLG) /\
  subtracted (bits w) d s false d FLG (op_cmp w d s FLG) /\
  subtracted (bits w) 0 s false (wrap (bits w) (0 - s)) FLG (op_neg w s FLG).
Proof.
  intros Hd Hs. split; [now apply run_sub|]. split; [now apply run_sbb|].
  split; [now apply run_cmp|now apply run_neg].
Qed.

(** What a conditional jump reads after CMP: CF is unsigned less-than, ZF
    equality, and SF different from OF is signed less-than, for all operands,
    those whose difference overflows included. *)
Theorem comparison_orders w d s FLG :
  in_word (bits w) d -> in_word (bits w) s ->
  let FLG' := snd (op_cmp w d s FLG) in
  flag_of FLG' F_CF = (d <? s) /\
  flag_of FLG' F_ZF = (d =? s) /\
  xorb (flag_of FLG' F_SF) (flag_of FLG' F_OF) = (signed (bits w) d <? signed (bits w) s).
Proof.
  intros Hd Hs. destruct (run_cmp w d s FLG Hd Hs) as [_ HC [[HZ HS _] HO _] _]. cbv zeta.
  rewrite HC, HZ, HS, HO. pose proof (bits_bounds w) as Hw. unfold in_word in *.
  destruct (pow2_step (bits w)) as [E Hp]; [lia|].
  change (Z.b2z false) with 0. rewrite !Z.sub_0_r, wrap_cases by lia. unfold signed. rewrite E in *.
  set (p := 2 ^ (bits w - 1)) in *. clearbody p. repeat split; zprune; simpl; lia.
Qed.

(** INC and DEC: the sum and difference with one, with the flags of an
    addition or subtraction, except that CF keeps its value. *)
Theorem inc_dec_keep_carry w d FLG :
  in_word (bits w) d ->
  (let out := op_inc w d FLG in
   fst out = wrap (bits w) (d + 1) /\ sum_flags (bits w) d 1 false (snd out) /\
   frame_flags (Z.ldiff STATUS F_CF) FLG (snd out)) /\
  (let out := op_dec w d FLG in
   fst out = wrap (bits w) (d - 1) /\ diff_flags (bits w) d 1 false (snd out) /\
   frame_flags (Z.ldiff STATUS F_CF) FLG (snd out)) /\
  flag_of (snd (op_inc w d FLG)) F_CF = flag_of FLG F_CF /\
  flag_of (snd (op_dec w d FLG)) F_CF = flag_of FLG F_CF.
Proof.
  intros Hd. pose proof (run_inc w d FLG Hd) as (Hi & Hif & Hframe).
  pose proof (run_dec w d FLG Hd) as (He & Hef & Hframe').
  split; [easy|]. split; [easy|].
  split; now apply (frame_flag_of (Z.ldiff STATUS F_CF)).
Qed.

(** AND, OR, XOR, TEST and NOT: the bitwise result; CF and OF are cleared
    (AF too, except by TEST), ZF, SF and PF describe the result, and no other
    flag changes; NOT is the complement within the width. *)
Theorem bitwise_correct w d s FLG :
  in_word (bits w) d -> in_word (bits w) s ->
  bitwise (bits w) (Z.land d s) FLG (op_and w d s FLG) /\
  bitwise (bits w) (Z.lor d s) FLG (op_or w d s FLG) /\
  bitwise (bits w) (Z.lxor d s) FLG (op_xor w d s FLG) /\
  logical (bits w) (Z.land d s) (Z.ldiff STATUS F_AF) FLG (snd (op_test w d s FLG)) /\
  op_not w d = 2 ^ bits w - 1 - d.
Proof.
  intros Hd Hs. split; [now apply run_and|]. split; [now apply run_or|].
  split; [now apply run_xor|]. split; [now apply run_test|].
  unfold in_word in Hd.
  destruct w; unfold op_not, by_width, not_byte, not_word, not_long, u8, u16, u32, Z.lnot;
    cbn [bits] in *; rewrite wrap_cases by lia; zcmp; lia.
Qed.

(** Decimal adjustment.  DAA after ADC of two packed decimal bytes and DAS
    after SBB give the packed decimal sum and difference modulo 100, with the
    decimal carry in CF, for every carry-in; AAA and AAS do the same for one
    unpacked digit, carrying into AH; AAD undoes AAM on every byte. *)
Theorem decimal_adjust_correct a b h FLG :
  0 <= a < 100 -> 0 <= b < 100 -> 0 <= h < 256 ->
  let c := flag_of FLG F_CF in
  (let (r, f) := op_adc Byte (bcd a) (bcd b) FLG in
   let n := a + b + Z.b2z c in
   fst (daa_byte r f) = bcd (n mod 100) /\ flag_of (snd (daa_byte r f)) F_CF = (100 <=? n)) /\
  (let (r, f) := op_sbb Byte (bcd a) (bcd b) FLG in
   let n := a - b - Z.b2z c in
   fst (das_byte r f) = bcd (n mod 100) /\ flag_of (snd (das_byte r f)) F_CF = (n <? 0)) /\
  (a < 10 -> b < 10 ->
   (let (r, f) := op_adc Byte a b FLG in
    let n := a + b + Z.b2z c in
    fst (aaa_word (256 * h + r) f) = 256 * ((h + n / 10) mod 256) + n mod 10 /\
    flag_of (snd (aaa_word (256 * h + r) f)) F_CF = (10 <=? n)) /\
   (let (r, f) := op_sbb Byte a b FLG in
    let n := a - b - Z.b2z c in
    fst (aas_word (256 * h + r) f) = 256 * ((h + n / 10) mod 256) + n mod 10 /\
    flag_of (snd (aas_word (256 * h + r) f)) F_CF = (n <? 0))) /\
  (let (x, f) := aam_word h FLG in fst (aad_word x f) = h).
Proof.
  intros Ha Hb Hh c.
  assert (Hbcd : forall n, 0 <= n < 100 -> in_word (bits Byte) (bcd n))
    by (intros n Hn; unfold in_word, bcd; change (2 ^ bits Byte) with 256; zlia).
  subst c. pose proof (packed_ok a b (flag_of FLG F_CF) Ha Hb) as [Hdaa Hdas]%andb_true_iff.
  split; [|split; [|split]].
  - decimal_case after_adc (bcd a) (bcd b) FLG Hdaa.
  - decimal_case after_sbb (bcd a) (bcd b) FLG Hdas.
  - intros Ha' Hb'. assert (0 <= a < 10) by lia. assert (0 <= b < 10) by lia.
    assert (Hc : 0 <= Z.b2z (flag_of FLG F_CF) <= 1) by (destruct (flag_of FLG F_CF); simpl; lia).
    split.
    + pose proof (proj1 (unpacked_ok h (a + b + Z.b2z (flag_of FLG F_CF)) Hh) ltac:(lia)) as Hok.
      decimal_case after_digit_adc a b FLG Hok.
    + pose proof (proj2 (unpacked_ok h (a - b - Z.b2z (flag_of FLG F_CF)) Hh) ltac:(lia)) as Hok.
      decimal_case after_digit_sbb a b FLG Hok.
  - pose proof (aad_aam h FLG Hh). now destruct (aam_word h FLG).
Qed.

(** ** Witnesses *)

Lemma addition_correct_witness :
  op_adc Word 0x7FFF 0x0001 F_CF = (0x8001, Z.lor F_SF (Z.lor F_AF F_OF)) /\
  added 16 0x7FFF 0x0001 true F_CF (op_adc Word 0x7FFF 0x0001 F_CF).
Proof.
  split; [reflexivity|].
  apply (addition_correct Word 0x7FFF 0x0001 F_CF); unfold in_word; simpl; lia.
Defined.

Lemma subtraction_correct_witness :
  op_sub Long 3 5 0 = (0xFFFFFFFE, Z.lor F_CF (Z.lor F_SF F_AF)) /\
  subtracted 32 3 5 false 0xFFFFFFFE 0 (op_sub Long 3 5 0).
Proof.
  split; [reflexivity|].
  apply (subtraction_correct Long 3 5 0); unfold in_word; simpl; lia.
Defined.

(** -128 < 1 although the difference overflows. *)
Lemma comparison_orders_witness :
  let FLG' := snd (op_cmp Byte 0x80 0x01 0) in
  flag_of FLG' F_SF = false /\ flag_of FLG' F_OF = true /\
  xorb (flag_of FLG' F_SF) (flag_of FLG' F_OF) = (-128 <? 1).
Proof.
  split; [reflexivity|]. split; [reflexivity|].
  apply (comparison_orders Byte 0x80 0x01 0); unfold in_word; simpl; lia.
Defined.

Lemma inc_dec_keep_carry_witness :
  fst (op_inc Byte 0xFF F_CF) = 0 /\ flag_of (snd (op_inc Byte 0xFF F_CF)) F_CF = true.
Proof.
  split; [reflexivity|].
  rewrite (proj1 (proj2 (proj2 (inc_dec_keep_carry Byte 0xFF F_CF ltac:(unfold in_word; simpl; lia))))).
  reflexivity.
Defined.

Lemma bitwise_correct_witness : bitwise 8 0x80 F_CF (op_and Byte 0xF0 0x8F F_CF).
Proof. apply (bitwise_correct Byte 0xF0 0x8F F_CF); unfold in_word; simpl; lia. Defined.

Lemma decimal_adjust_correct_witness :
  op_adc Byte 0x58 0x46 F_CF = (0x9F, Z.lor F_PF (Z.lor F_SF F_OF)) /\
  (let (r, f) := op_adc Byte (bcd 58) (bcd 46) F_CF in
   fst (daa_byte r f) = 0x05 /\ flag_of (snd (daa_byte r f)) F_CF = true).
Proof.
  split; [reflexivity|].
  exact (proj1 (decimal_adjust_correct 58 46 0 F_CF ltac:(lia) ltac:(lia) ltac:(lia))).
Defined.
