(* ===== verification/X86Shift.v ===== *)
(** * Shifts and rotations of the x86 emulator

    [x86_common/x86emu/prim_ops.c], second part: RCL, RCR, ROL, ROR, SHL, SHR,
    SAR in the three operand widths and SHLD, SHRD in two.  [d] is the operand,
    [s] the distance, a [u8] that the emulator does not reduce before the call.

    The rotations are proved as permutations of the bits (of the bits and the
    carry, for RCL and RCR), the shifts as multiplication and division by a
    power of two.  C leaves a shift by 32 or more undefined; the theorems keep
    to the distances below that where the code shifts by the distance itself. *)
From Stdlib Require Import ZArith Lia List Bool Btauto.
From S2P Require Import Prelude X86Flags X86Alu.
Import ListNotations.
Local Open Scope Z_scope.
Local Open Scope state_scope.

(** ** Rotations through the carry *)

Definition rcl_byte (d s : Z) : Flags Z :=
  let res := d in
  let cnt := s mod 9 in
  if negb (cnt =? 0) then
    let cf := Z.land (Z.shiftr d (8 - cnt)) 0x1 in
    let res := Z.land (u32 (Z.shiftl d cnt)) 0xff in
    let mask := u32 (Z.shiftl 1 (cnt - 1) - 1) in
    let res := Z.lor res (Z.land (Z.shiftr d (9 - cnt)) mask) in
    c <- ACCESS_FLAG F_CF ;;
    let res := if c : bool then Z.lor res (Z.shiftl 1 (cnt - 1)) else res in
    CONDITIONAL_SET_FLAG (nz cf) F_CF ;;
    CONDITIONAL_SET_FLAG ((cnt =? 1) && nz (XOR2 (cf + Z.land (Z.shiftr res 6) 0x2))) F_OF ;;
    ret (u8 res)
  else ret (u8 res).

Definition rcl_word (d s : Z) : Flags Z :=
  let res := d in
  let cnt := s mod 17 in
  if negb (cnt =? 0) then
    let cf := Z.land (Z.shiftr d (16 - cnt)) 0x1 in
    let res := Z.land (u32 (Z.shiftl d cnt)) 0xffff in
    let mask := u32 (Z.shiftl 1 (cnt - 1) - 1) in
    let res := Z.lor res (Z.land (Z.shiftr d (17 - cnt)) mask) in
    c <- ACCESS_FLAG F_CF ;;
    let res := if c : bool then Z.lor res (Z.shiftl 1 (cnt - 1)) else res in
    CONDITIONAL_SET_FLAG (nz cf) F_CF ;;
    CONDITIONAL_SET_FLAG ((cnt =? 1) && nz (XOR2 (cf + Z.land (Z.shiftr res 14) 0x2))) F_OF ;;
    ret (u16 res)
  else ret (u16 res).

Definition rcl_long (d s : Z) : Flags Z :=
  let res := d in
  let cnt := s mod 33 in
  if negb (cnt =? 0) then
    let cf := Z.land (Z.shiftr d (32 - cnt)) 0x1 in
    let res := Z.land (u32 (Z.shiftl d cnt)) 0xffffffff in
    let mask := u32 (Z.shiftl 1 (cnt - 1) - 1) in
    let res := Z.lor res (Z.land (Z.shiftr d (33 - cnt)) mask) in
    c <- ACCESS_FLAG F_CF ;;
    let res := if c : bool then Z.lor res (Z.shiftl 1 (cnt - 1)) else res in
    CONDITIONAL_SET_FLAG (nz cf) F_CF ;;
    CONDITIONAL_SET_FLAG ((cnt =? 1) && nz (XOR2 (cf + Z.land (Z.shiftr res 30) 0x2))) F_OF ;;
    ret res
  else ret res.

Definition rcr_byte (d s : Z) : Flags Z :=
  let res := d in
  let cnt := s mod 9 in
  if negb (cnt =? 0) then
    c <- ACCESS_FLAG F_CF ;;
    let cf := if cnt =? 1 then Z.land d 0x1 else Z.land (Z.shiftr d (cnt - 1)) 0x1 in
    let ocf := if cnt =? 1 then Z.b2z c else 0 in
    let mask := u32 (Z.shiftl 1 (8 - cnt) - 1) in
    let res := Z.land (Z.shiftr d cnt) mask in
    let res := Z.lor res (u32 (Z.shiftl d (9 - cnt))) in
    let res := if c : bool then Z.lor res (Z.shiftl 1 (8 - cnt)) else res in
    CONDITIONAL_SET_FLAG (nz cf) F_CF ;;
    (if cnt =? 1
     then CONDITIONAL_SET_FLAG (nz (XOR2 (ocf + Z.land (Z.shiftr d 6) 0x2))) F_OF
     else ret tt) ;;
    ret (u8 res)
  else ret (u8 res).

Definition rcr_word (d s : Z) : Flags Z :=
  let res := d in
  let cnt := s mod 17 in
  if negb (cnt =? 0) then
    c <- ACCESS_FLAG F_CF ;;
    let cf := if cnt =? 1 then Z.land d 0x1 else Z.land (Z.shiftr d (cnt - 1)) 0x1 in
    let ocf := if cnt =? 1 then Z.b2z c else 0 in
    let mask := u32 (Z.shiftl 1 (16 - cnt) - 1) in
    let res := Z.land (Z.shiftr d cnt) mask in
    let res := Z.lor res (u32 (Z.shiftl d (17 - cnt))) in
    let res := if c : bool then Z.lor res (Z.shiftl 1 (16 - cnt)) else res in
    CONDITIONAL_SET_FLAG (nz cf) F_CF ;;
    (if cnt =? 1
     then CONDITIONAL_SET_FLAG (nz (XOR2 (ocf + Z.land (Z.shiftr d 14) 0x2))) F_OF
     else ret tt) ;;
    ret (u16 res)
  else ret (u16 res).

Definition rcr_long (d s : Z) : Flags Z :=
  let res := d in
  let cnt := s mod 33 in
  if negb (cnt =? 0) then
    c <- ACCESS_FLAG F_CF ;;
    let cf := if cnt =? 1 then Z.land d 0x1 else Z.land (Z.shiftr d (cnt - 1)) 0x1 in
    let ocf := if cnt =? 1 then Z.b2z c else 0 in
    let mask := u32 (Z.shiftl 1 (32 - cnt) - 1) in
    let res := Z.land (Z.shiftr d cnt) mask in
    let res := if negb (cnt =? 1) then Z.lor res (u32 (Z.shiftl d (33 - cnt))) else res in
    let res := if c : bool then Z.lor res (Z.shiftl 1 (32 - cnt)) else res in
    CONDITIONAL_SET_FLAG (nz cf) F_CF ;;
    (if cnt =? 1
     then CONDITIONAL_SET_FLAG (nz (XOR2 (ocf + Z.land (Z.shiftr d 30) 0x2))) F_OF
     else ret tt) ;;
    ret res
  else ret res.

(** ** Rotations *)

Definition rol_byte (d s : Z) : Flags Z :=
  let cnt := s mod 8 in
  res <- (if negb (cnt =? 0) then
            let res := u32 (Z.shiftl d cnt) in
            let mask := u32 (Z.shiftl 1 cnt - 1) in
            let res := Z.lor res (Z.land (Z.shiftr d (8 - cnt)) mask) in
            CONDITIONAL_SET_FLAG (nz (Z.land res 0x1)) F_CF ;;
            CONDITIONAL_SET_FLAG ((s =? 1) && nz (XOR2 (Z.land res 0x1 + Z.land (Z.shiftr res 6) 0x2))) F_OF ;;
            ret res
          else ret d) ;;
  (if negb (s =? 0) then CONDITIONAL_SET_FLAG (nz (Z.land res 0x1)) F_CF else ret tt) ;;
  ret (u8 res).

Definition rol_word (d s : Z) : Flags Z :=
  let cnt := s mod 16 in
  res <- (if negb (cnt =? 0) then
            let res := u32 (Z.shiftl d cnt) in
            let mask := u32 (Z.shiftl 1 cnt - 1) in
            let res := Z.lor res (Z.land (Z.shiftr d (16 - cnt)) mask) in
            CONDITIONAL_SET_FLAG (nz (Z.land res 0x1)) F_CF ;;
            CONDITIONAL_SET_FLAG ((s =? 1) && nz (XOR2 (Z.land res 0x1 + Z.land (Z.shiftr res 14) 0x2))) F_OF ;;
            ret res
          else ret d) ;;
  (if negb (s =? 0) then CONDITIONAL_SET_FLAG (nz (Z.land res 0x1)) F_CF else ret tt) ;;
  ret (u16 res).

Definition rol_long (d s : Z) : Flags Z :=
  let cnt := s mod 32 in
  res <- (if negb (cnt =? 0) then
            let res := u32 (Z.shiftl d cnt) in
            let mask := u32 (Z.shiftl 1 cnt - 1) in
            let res := Z.lor res (Z.land (Z.shiftr d (32 - cnt)) mask) in
            CONDITIONAL_SET_FLAG (nz (Z.land res 0x1)) F_CF ;;
            CONDITIONAL_SET_FLAG ((s =? 1) && nz (XOR2 (Z.land res 0x1 + Z.land (Z.shiftr res 30) 0x2))) F_OF ;;
            ret res
          else ret d) ;;
  (if negb (s =? 0) then CONDITIONAL_SET_FLAG (nz (Z.land res 0x1)) F_CF else ret tt) ;;
  ret res.

Definition ror_byte (d s : Z) : Flags Z :=
  let res := d in
  let cnt := s mod 8 in
  if negb (cnt =? 0) then
    let res := u32 (Z.shiftl d (8 - cnt)) in
    let mask := u32 (Z.shiftl 1 (8 - cnt) - 1) in
    let res := Z.lor res (Z.land (Z.shiftr d cnt) mask) in
    CONDITIONAL_SET_FLAG (nz (Z.land res 0x80)) F_CF ;;
    CONDITIONAL_SET_FLAG ((s =? 1) && nz (XOR2 (Z.shiftr res 6))) F_OF ;;
    ret (u8 res)
  else if negb (s =? 0) then
    CONDITIONAL_SET_FLAG (nz (Z.land res 0x80)) F_CF ;;
    ret (u8 res)
  else ret (u8 res).

Definition ror_word (d s : Z) : Flags Z :=
  let res := d in
  let cnt := s mod 16 in
  if negb (cnt =? 0) then
    let res := u32 (Z.shiftl d (16 - cnt)) in
    let mask := u32 (Z.shiftl 1 (16 - cnt) - 1) in
    let res := Z.lor res (Z.land (Z.shiftr d cnt) mask) in
    CONDITIONAL_SET_FLAG (nz (Z.land res 0x8000)) F_CF ;;
    CONDITIONAL_SET_FLAG ((s =? 1) && nz (XOR2 (Z.shiftr res 14))) F_OF ;;
    ret (u16 res)
  else if negb (s =? 0) then
    CONDITIONAL_SET_FLAG (nz (Z.land res 0x8000)) F_CF ;;
    ret (u16 res)
  else ret (u16 res).

Definition ror_long (d s : Z) : Flags Z :=
  let res := d in
  let cnt := s mod 32 in
  if negb (cnt =? 0) then
    let res := u32 (Z.shiftl d (32 - cnt)) in
    let mask := u32 (Z.shiftl 1 (32 - cnt) - 1) in
    let res := Z.lor res (Z.land (Z.shiftr d cnt) mask) in
    CONDITIONAL_SET_FLAG (nz (Z.land res 0x80000000)) F_CF ;;
    CONDITIONAL_SET_FLAG ((s =? 1) && nz (XOR2 (Z.shiftr res 30))) F_OF ;;
    ret res
  else if negb (s =? 0) then
    CONDITIONAL_SET_FLAG (nz (Z.land res 0x80000000)) F_CF ;;
    ret res
  else ret res.

(** ** Shifts *)

Definition shl_byte (d s : Z) : Flags Z :=
  if s <? 8 then
    let cnt := s mod 8 in
    res <- (if 0 <? cnt then
              let res := u32 (Z.shiftl d cnt) in
              let cf := Z.land d (Z.shiftl 1 (8 - cnt)) in
              CONDITIONAL_SET_FLAG (nz cf) F_CF ;;
              CONDITIONAL_SET_FLAG (Z.land res 0xff =? 0) F_ZF ;;
              CONDITIONAL_SET_FLAG (nz (Z.land res 0x80)) F_SF ;;
              CONDITIONAL_SET_FLAG (PARITY (Z.land res 0xff)) F_PF ;;
              ret res
            else ret d) ;;
    (if cnt =? 1 then
       cf <- ACCESS_FLAG F_CF ;;
       CONDITIONAL_SET_FLAG (xorb (Z.land res 0x80 =? 0x80) cf) F_OF
     else CLEAR_FLAG F_OF) ;;
    ret (u8 res)
  else
    let res := 0 in
    CONDITIONAL_SET_FLAG (nz (Z.land (u32 (Z.shiftl d (s - 1))) 0x80)) F_CF ;;
    CLEAR_FLAG F_OF ;;
    CLEAR_FLAG F_SF ;;
    SET_FLAG F_PF ;;
    SET_FLAG F_ZF ;;
    ret (u8 res).

Definition shl_word (d s : Z) : Flags Z :=
  if s <? 16 then
    let cnt := s mod 16 in
    res <- (if 0 <? cnt then
              let res := u32 (Z.shiftl d cnt) in
              let cf := Z.land d (Z.shiftl 1 (16 - cnt)) in
              CONDITIONAL_SET_FLAG (nz cf) F_CF ;;
              CONDITIONAL_SET_FLAG (Z.land res 0xffff =? 0) F_ZF ;;
              CONDITIONAL_SET_FLAG (nz (Z.land res 0x8000)) F_SF ;;
              CONDITIONAL_SET_FLAG (PARITY (Z.land res 0xff)) F_PF ;;
              ret res
            else ret d) ;;
    (if cnt =? 1 then
       cf <- ACCESS_FLAG F_CF ;;
       CONDITIONAL_SET_FLAG (xorb (Z.land res 0x8000 =? 0x8000) cf) F_OF
     else CLEAR_FLAG F_OF) ;;
    ret (u16 res)
  else
    let res := 0 in
    CONDITIONAL_SET_FLAG (nz (Z.land (u32 (Z.shiftl d (s - 1))) 0x8000)) F_CF ;;
    CLEAR_FLAG F_OF ;;
    CLEAR_FLAG F_SF ;;
    SET_FLAG F_PF ;;
    SET_FLAG F_ZF ;;
    ret (u16 res).

Definition shl_long (d s : Z) : Flags Z :=
  if s <? 32 then
    let cnt := s mod 32 in
    res <- (if 0 <? cnt then
              let res := u32 (Z.shiftl d cnt) in
              let cf := Z.land d (Z.shiftl 1 (32 - cnt)) in
              CONDITIONAL_SET_FLAG (nz cf) F_CF ;;
              CONDITIONAL_SET_FLAG (Z.land res 0xffffffff =? 0) F_ZF ;;
              CONDITIONAL_SET_FLAG (nz (Z.land res 0x80000000)) F_SF ;;
              CONDITIONAL_SET_FLAG (PARITY (Z.land res 0xff)) F_PF ;;
              ret res
            else ret d) ;;
    (if cnt =? 1 then
       cf <- ACCESS_FLAG F_CF ;;
       CONDITIONAL_SET_FLAG (xorb (Z.land res 0x80000000 =? 0x80000000) cf) F_OF
     else CLEAR_FLAG F_OF) ;;
    ret res
  else
    let res := 0 in
    CONDITIONAL_SET_FLAG (nz (Z.land (u32 (Z.shiftl d (s - 1))) 0x80000000)) F_CF ;;
    CLEAR_FLAG F_OF ;;
    CLEAR_FLAG F_SF ;;
    SET_FLAG F_PF ;;
    SET_FLAG F_ZF ;;
    ret res.

Definition shr_byte (d s : Z) : Flags Z :=
  if s <? 8 then
    let cnt := s mod 8 in
    res <- (if 0 <? cnt then
              let cf := Z.land d (Z.shiftl 1 (cnt - 1)) in
              let res := Z.shiftr d cnt in
              CONDITIONAL_SET_FLAG (nz cf) F_CF ;;
              CONDITIONAL_SET_FLAG (Z.land res 0xff =? 0) F_ZF ;;
              CONDITIONAL_SET_FLAG (nz (Z.land res 0x80)) F_SF ;;
              CONDITIONAL_SET_FLAG (PARITY (Z.land res 0xff)) F_PF ;;
              ret res
            else ret d) ;;
    (if cnt =? 1
     then CONDITIONAL_SET_FLAG (nz (XOR2 (Z.shiftr res 6))) F_OF
     else CLEAR_FLAG F_OF) ;;
    ret (u8 res)
  else
    let res := 0 in
    CONDITIONAL_SET_FLAG (nz (Z.land (Z.shiftr d (s - 1)) 0x1)) F_CF ;;
    CLEAR_FLAG F_OF ;;
    CLEAR_FLAG F_SF ;;
    SET_FLAG F_PF ;;
    SET_FLAG F_ZF ;;
    ret (u8 res).

Definition shr_word (d s : Z) : Flags Z :=
  if s <? 16 then
    let cnt := s mod 16 in
    res <- (if 0 <? cnt then
              let cf := Z.land d (Z.shiftl 1 (cnt - 1)) in
              let res := Z.shiftr d cnt in
              CONDITIONAL_SET_FLAG (nz cf) F_CF ;;
              CONDITIONAL_SET_FLAG (Z.land res 0xffff =? 0) F_ZF ;;
              CONDITIONAL_SET_FLAG (nz (Z.land res 0x8000)) F_SF ;;
              CONDITIONAL_SET_FLAG (PARITY (Z.land res 0xff)) F_PF ;;
              ret res
            else ret d) ;;
    (if cnt =? 1
     then CONDITIONAL_SET_FLAG (nz (XOR2 (Z.shiftr res 14))) F_OF
     else CLEAR_FLAG F_OF) ;;
    ret (u16 res)
  else
    let res := 0 in
    CLEAR_FLAG F_CF ;;
    CLEAR_FLAG F_OF ;;
    SET_FLAG F_ZF ;;
    CLEAR_FLAG F_SF ;;
    CLEAR_FLAG F_PF ;;
    ret (u16 res).

Definition shr_long (d s : Z) : Flags Z :=
  if s <? 32 then
    let cnt := s mod 32 in
    res <- (if 0 <? cnt then
              let cf := Z.land d (Z.shiftl 1 (cnt - 1)) in
              let res := Z.shiftr d cnt in
              CONDITIONAL_SET_FLAG (nz cf) F_CF ;;
              CONDITIONAL_SET_FLAG (Z.land res 0xffffffff =? 0) F_ZF ;;
              CONDITIONAL_SET_FLAG (nz (Z.land res 0x80000000)) F_SF ;;
              CONDITIONAL_SET_FLAG (PARITY (Z.land res 0xff)) F_PF ;;
              ret res
            else ret d) ;;
    (if cnt =? 1
     then CONDITIONAL_SET_FLAG (nz (XOR2 (Z.shiftr res 30))) F_OF
     else CLEAR_FLAG F_OF) ;;
    ret res
  else
    let res := 0 in
    CLEAR_FLAG F_CF ;;
    CLEAR_FLAG F_OF ;;
    SET_FLAG F_ZF ;;
    CLEAR_FLAG F_SF ;;
    CLEAR_FLAG F_PF ;;
    ret res.

Definition sar_byte (d s : Z) : Flags Z :=
  let res := d in
  let sf := Z.land d 0x80 in
  let cnt := s mod 8 in
  if (0 <? cnt) && (cnt <? 8) then
    let mask := u32 (Z.shiftl 1 (8 - cnt) - 1) in
    let cf := Z.land d (Z.shiftl 1 (cnt - 1)) in
    let res := Z.land (Z.shiftr d cnt) mask in
    CONDITIONAL_SET_FLAG (nz cf) F_CF ;;
    let res := if nz sf then Z.lor res (not32 mask) else res in
    CONDITIONAL_SET_FLAG (Z.land res 0xff =? 0) F_ZF ;;
    CONDITIONAL_SET_FLAG (PARITY (Z.land res 0xff)) F_PF ;;
    CONDITIONAL_SET_FLAG (nz (Z.land res 0x80)) F_SF ;;
    ret (u8 res)
  else if 8 <=? cnt then
    if nz sf then
      let res := 0xff in
      SET_FLAG F_CF ;;
      CLEAR_FLAG F_ZF ;;
      SET_FLAG F_SF ;;
      SET_FLAG F_PF ;;
      ret (u8 res)
    else
      let res := 0 in
      CLEAR_FLAG F_CF ;;
      SET_FLAG F_ZF ;;
      CLEAR_FLAG F_SF ;;
      CLEAR_FLAG F_PF ;;
      ret (u8 res)
  else ret (u8 res).

Definition sar_word (d s : Z) : Flags Z :=
  let res := d in
  let sf := Z.land d 0x8000 in
  let cnt := s mod 16 in
  if (0 <? cnt) && (cnt <? 16) then
    let mask := u32 (Z.shiftl 1 (16 - cnt) - 1) in
    let cf := Z.land d (Z.shiftl 1 (cnt - 1)) in
    let res := Z.land (Z.shiftr d cnt) mask in
    CONDITIONAL_SET_FLAG (nz cf) F_CF ;;
    let res := if nz sf then Z.lor res (not32 mask) else res in
    CONDITIONAL_SET_FLAG (Z.land res 0xffff =? 0) F_ZF ;;
    CONDITIONAL_SET_FLAG (nz (Z.land res 0x8000)) F_SF ;;
    CONDITIONAL_SET_FLAG (PARITY (Z.land res 0xff)) F_PF ;;
    ret (u16 res)
  else if 16 <=? cnt then
    if nz sf then
      let res := 0xffff in
      SET_FLAG F_CF ;;
      CLEAR_FLAG F_ZF ;;
      SET_FLAG F_SF ;;
      SET_FLAG F_PF ;;
      ret (u16 res)
    else
      let res := 0 in
      CLEAR_FLAG F_CF ;;
      SET_FLAG F_ZF ;;
      CLEAR_FLAG F_SF ;;
      CLEAR_FLAG F_PF ;;
      ret (u16 res)
  else ret (u16 res).

Definition sar_long (d s : Z) : Flags Z :=
  let res := d in
  let sf := Z.land d 0x80000000 in
  let cnt := s mod 32 in
  if (0 <? cnt) && (cnt <? 32) then
    let mask := u32 (Z.shiftl 1 (32 - cnt) - 1) in
    let cf := Z.land d (Z.shiftl 1 (cnt - 1)) in
    let res := Z.land (Z.shiftr d cnt) mask in
    CONDITIONAL_SET_FLAG (nz cf) F_CF ;;
    let res := if nz sf then Z.lor res (not32 mask) else res in
    CONDITIONAL_SET_FLAG (Z.land res 0xffffffff =? 0) F_ZF ;;
    CONDITIONAL_SET_FLAG (nz (Z.land res 0x80000000)) F_SF ;;
    CONDITIONAL_SET_FLAG (PARITY (Z.land res 0xff)) F_PF ;;
    ret res
  else if 32 <=? cnt then
    if nz sf then
      let res := 0xffffffff in
      SET_FLAG F_CF ;;
      CLEAR_FLAG F_ZF ;;
      SET_FLAG F_SF ;;
      SET_FLAG F_PF ;;
      ret res
    else
      let res := 0 in
      CLEAR_FLAG F_CF ;;
      SET_FLAG F_ZF ;;
      CLEAR_FLAG F_SF ;;
      CLEAR_FLAG F_PF ;;
      ret res
  else ret res.

(** ** Double shifts *)

Definition shld_word (d fill s : Z) : Flags Z :=
  if s <? 16 then
    let cnt := s mod 16 in
    res <- (if 0 <? cnt then
              let res := Z.lor (u32 (Z.shiftl d cnt)) (Z.shiftr fill (16 - cnt)) in
              let cf := Z.land d (Z.shiftl 1 (16 - cnt)) in
              CONDITIONAL_SET_FLAG (nz cf) F_CF ;;
              CONDITIONAL_SET_FLAG (Z.land res 0xffff =? 0) F_ZF ;;
              CONDITIONAL_SET_FLAG (nz (Z.land res 0x8000)) F_SF ;;
              CONDITIONAL_SET_FLAG (PARITY (Z.land res 0xff)) F_PF ;;
              ret res
            else ret d) ;;
    (if cnt =? 1 then
       cf <- ACCESS_FLAG F_CF ;;
       CONDITIONAL_SET_FLAG (xorb (Z.land res 0x8000 =? 0x8000) cf) F_OF
     else CLEAR_FLAG F_OF) ;;
    ret (u16 res)
  else
    let res := 0 in
    CONDITIONAL_SET_FLAG (nz (Z.land (u32 (Z.shiftl d (s - 1))) 0x8000)) F_CF ;;
    CLEAR_FLAG F_OF ;;
    CLEAR_FLAG F_SF ;;
    SET_FLAG F_PF ;;
    SET_FLAG F_ZF ;;
    ret (u16 res).

Definition shld_long (d fill s : Z) : Flags Z :=
  if s <? 32 then
    let cnt := s mod 32 in
    res <- (if 0 <? cnt then
              let res := Z.lor (u32 (Z.shiftl d cnt)) (Z.shiftr fill (32 - cnt)) in
              let cf := Z.land d (Z.shiftl 1 (32 - cnt)) in
              CONDITIONAL_SET_FLAG (nz cf) F_CF ;;
              CONDITIONAL_SET_FLAG (Z.land res 0xffffffff =? 0) F_ZF ;;
              CONDITIONAL_SET_FLAG (nz (Z.land res 0x80000000)) F_SF ;;
              CONDITIONAL_SET_FLAG (PARITY (Z.land res 0xff)) F_PF ;;
              ret res
            else ret d) ;;
    (if cnt =? 1 then
       cf <- ACCESS_FLAG F_CF ;;
       CONDITIONAL_SET_FLAG (xorb (Z.land res 0x80000000 =? 0x80000000) cf) F_OF
     else CLEAR_FLAG F_OF) ;;
    ret res
  else
    let res := 0 in
    CONDITIONAL_SET_FLAG (nz (Z.land (u32 (Z.shiftl d (s - 1))) 0x80000000)) F_CF ;;
    CLEAR_FLAG F_OF ;;
    CLEAR_FLAG F_SF ;;
    SET_FLAG F_PF ;;
    SET_FLAG F_ZF ;;
    ret res.

Definition shrd_word (d fill s : Z) : Flags Z :=
  if s <? 16 then
    let cnt := s mod 16 in
    res <- (if 0 <? cnt then
              let cf := Z.land d (Z.shiftl 1 (cnt - 1)) in
              let res := Z.lor (Z.shiftr d cnt) (u32 (Z.shiftl fill (16 - cnt))) in
              CONDITIONAL_SET_FLAG (nz cf) F_CF ;;
              CONDITIONAL_SET_FLAG (Z.land res 0xffff =? 0) F_ZF ;;
              CONDITIONAL_SET_FLAG (nz (Z.land res 0x8000)) F_SF ;;
              CONDITIONAL_SET_FLAG (PARITY (Z.land res 0xff)) F_PF ;;
              ret res
            else ret d) ;;
    (if cnt =? 1
     then CONDITIONAL_SET_FLAG (nz (XOR2 (Z.shiftr res 14))) F_OF
     else CLEAR_FLAG F_OF) ;;
    ret (u16 res)
  else
    let res := 0 in
    CLEAR_FLAG F_CF ;;
    CLEAR_FLAG F_OF ;;
    SET_FLAG F_ZF ;;
    CLEAR_FLAG F_SF ;;
    CLEAR_FLAG F_PF ;;
    ret (u16 res).

Definition shrd_long (d fill s : Z) : Flags Z :=
  if s <? 32 then
    let cnt := s mod 32 in
    res <- (if 0 <? cnt then
              let cf := Z.land d (Z.shiftl 1 (cnt - 1)) in
              let res := Z.lor (Z.shiftr d cnt) (u32 (Z.shiftl fill (32 - cnt))) in
              CONDITIONAL_SET_FLAG (nz cf) F_CF ;;
              CONDITIONAL_SET_FLAG (Z.land res 0xffffffff =? 0) F_ZF ;;
              CONDITIONAL_SET_FLAG (nz (Z.land res 0x80000000)) F_SF ;;
              CONDITIONAL_SET_FLAG (PARITY (Z.land res 0xff)) F_PF ;;
              ret res
            else ret d) ;;
    (if cnt =? 1
     then CONDITIONAL_SET_FLAG (nz (XOR2 (Z.shiftr res 30))) F_OF
     else CLEAR_FLAG F_OF) ;;
    ret res
  else
    let res := 0 in
    CLEAR_FLAG F_CF ;;
    CLEAR_FLAG F_OF ;;
    SET_FLAG F_ZF ;;
    CLEAR_FLAG F_SF ;;
    CLEAR_FLAG F_PF ;;
    ret res.
Definition op_rcl := by_width rcl_byte rcl_word rcl_long.
Definition op_rcr := by_width rcr_byte rcr_word rcr_long.
Definition op_rol := by_width rol_byte rol_word rol_long.
Definition op_ror := by_width ror_byte ror_word ror_long.
Definition op_shl := by_width shl_byte shl_word shl_long.
Definition op_shr := by_width shr_byte shr_word shr_long.
Definition op_sar := by_width sar_byte sar_word sar_long.
(** The double shifts have no byte form. *)
Definition op_shld := by_width (fun _ _ _ => ret 0) shld_word shld_long.
Definition op_shrd := by_width (fun _ _ _ => ret 0) shrd_word shrd_long.

(** ** Bits of shifted words *)

Lemma testbit_mask n i : 0 <= n <= 32 -> 0 <= i -> Z.testbit (u32 (Z.shiftl 1 n - 1)) i = (i <? n).
Proof.
  intros Hn Hi. rewrite Z.shiftl_1_l. unfold u32.
  replace (2 ^ n - 1) with (Z.ones n) by (rewrite Z.ones_equiv; lia).
  rewrite testbit_wrap, Z.testbit_ones by lia. zcmp; simpl; lia.
Qed.

Lemma testbit_pow n i : 0 <= n -> Z.testbit (Z.shiftl 1 n) i = (n =? i).
Proof. intros Hn. rewrite Z.shiftl_1_l. now apply Z.pow2_bits_eqb. Qed.

(** Case analysis on a bit of a combination of shifts, masks and words. *)
Ltac bit_simpl :=
  repeat (first
    [ rewrite Z.lor_spec | rewrite Z.land_spec
    | rewrite testbit_mask by lia | rewrite testbit_u32 by lia
    | rewrite testbit_pow by lia | rewrite Z.testbit_ones by lia
    | rewrite Z.shiftl_spec by lia | rewrite Z.shiftr_spec by lia ]).

Lemma testbit_out w d i : in_word w d -> 0 <= w -> i < 0 \/ w <= i -> Z.testbit d i = false.
Proof.
  intros Hd Hw [Hi|Hi]; [now apply Z.testbit_neg_r|now apply (in_word_testbit_high w)].
Qed.

Lemma mod_once a w : 0 < w -> - w <= a < 2 * w ->
  a mod w = if a <? 0 then a + w else if w <=? a then a - w else a.
Proof.
  intros Hw Ha. zprune; symmetry; first
    [ apply Z.mod_unique with (-1); lia | apply Z.mod_unique with 1; lia | apply Z.mod_unique with 0; lia ].
Qed.

(** Finish a bit equation whose sides read [d] at indices that [lia] identifies
    or that fall outside the word. *)
Ltac bit_done Hd :=
  rewrite ?andb_false_r, ?andb_true_r, ?orb_false_r;
  repeat match goal with
    | |- context [Z.testbit ?d ?i] => rewrite (testbit_out _ d i Hd) by lia
    end;
  rewrite ?andb_false_r, ?andb_true_r, ?orb_false_r; cbn [orb andb];
  first [reflexivity | f_equal; lia].

Lemma rol_bits w d cnt i :
  in_word w d -> 0 < cnt < w -> w <= 32 -> 0 <= i < w ->
  Z.testbit (Z.lor (u32 (Z.shiftl d cnt)) (Z.land (Z.shiftr d (w - cnt)) (u32 (Z.shiftl 1 cnt - 1)))) i =
  Z.testbit d ((i - cnt) mod w).
Proof. intros Hd Hc Hw Hi. bit_simpl. rewrite mod_once by lia. zprune; bit_done Hd. Qed.

Lemma ror_bits w d cnt i :
  in_word w d -> 0 < cnt < w -> w <= 32 -> 0 <= i < w ->
  Z.testbit (Z.lor (u32 (Z.shiftl d (w - cnt))) (Z.land (Z.shiftr d cnt) (u32 (Z.shiftl 1 (w - cnt) - 1)))) i =
  Z.testbit d ((i + cnt) mod w).
Proof. intros Hd Hc Hw Hi. bit_simpl. rewrite mod_once by lia. zprune; bit_done Hd. Qed.

(** Bit [i] of the [w + 1]-bit ring made of [d] below the carry [c]. *)
Definition ring (w d : Z) (c : bool) (i : Z) : bool := if i =? w then c else Z.testbit d i.

(** The combination RCL computes, with the carry or'd in. *)
Lemma rcl_bits w m d (c : bool) cnt i :
  in_word w d -> 0 < cnt <= w -> cnt < 32 -> w <= 32 -> m = Z.ones w -> 0 <= i < w ->
  let res := Z.lor (Z.land (u32 (Z.shiftl d cnt)) m)
                   (Z.land (Z.shiftr d (w + 1 - cnt)) (u32 (Z.shiftl 1 (cnt - 1) - 1))) in
  Z.testbit (if c then Z.lor res (Z.shiftl 1 (cnt - 1)) else res) i =
  ring w d c ((i - cnt) mod (w + 1)).
Proof.
  intros Hd Hc H32 Hw -> Hi. cbv zeta. unfold ring. rewrite mod_once by lia.
  destruct c; bit_simpl; zprune; bit_done Hd.
Qed.

Lemma rcr_bits w d (c : bool) cnt i :
  in_word w d -> 0 < cnt <= w -> w <= 32 -> 0 <= i < w ->
  let res := Z.land (Z.shiftr d cnt) (u32 (Z.shiftl 1 (w - cnt) - 1)) in
  let res := if (w <? 32) || negb (cnt =? 1) then Z.lor res (u32 (Z.shiftl d (w + 1 - cnt))) else res in
  Z.testbit (if c then Z.lor res (Z.shiftl 1 (w - cnt)) else res) i =
  ring w d c ((i + cnt) mod (w + 1)).
Proof.
  intros Hd Hc Hw Hi. cbv zeta. unfold ring. rewrite mod_once by lia.
  destruct c, ((w <? 32) || negb (cnt =? 1)) eqn:E; bit_simpl; zprune; bit_done Hd.
Qed.

(** ** Rotations *)

(** The flags a rotation may change. *)
Definition ROTATE := Z.lor F_CF F_OF.

(** The result is [d] with its bits moved by [f]. *)
Definition permuted (w d : Z) (f : Z -> Z) (r : Z) : Prop :=
  in_word w r /\ forall i, 0 <= i < w -> Z.testbit r i = Z.testbit d (f i mod w).

Lemma permuted_wrap w d f r :
  0 <= w -> (forall i, 0 <= i < w -> Z.testbit r i = Z.testbit d (f i mod w)) -> permuted w d f (wrap w r).
Proof.
  intros Hw H. split; [now apply wrap_range|]. intros i Hi.
  rewrite testbit_wrap, (proj2 (Z.ltb_lt i w)) by lia. now apply H.
Qed.

Lemma permuted_id w d f : 0 < w -> in_word w d -> (forall i, 0 <= i < w -> f i mod w = i) -> permuted w d f d.
Proof. intros Hw Hd Hf. split; [easy|]. intros i Hi. now rewrite Hf. Qed.

Lemma mod_shift_l i s w : 0 < w -> (i - s) mod w = (i - s mod w) mod w.
Proof. intros Hw. now rewrite Zminus_mod_idemp_r. Qed.

Lemma mod_shift_r i s w : 0 < w -> (i + s) mod w = (i + s mod w) mod w.
Proof. intros Hw. now rewrite Z.add_mod_idemp_r by lia. Qed.

Lemma land_1 x : Z.land x 1 = Z.b2z (Z.testbit x 0).
Proof. change 1 with (Z.ones 1). rewrite Z.land_ones, Z.bit0_odd by lia. apply Zmod_odd. Qed.

(** The overflow formula of the rotations by one. *)
Lemma nz_XOR2_sum (a : bool) y n :
  0 <= n -> nz (XOR2 (Z.b2z a + Z.land (Z.shiftr y n) 2)) = xorb a (Z.testbit y (n + 1)).
Proof.
  intros Hn. rewrite nz_XOR2. change 2 with (2 ^ 1).
  rewrite land_pow2, Z.shiftr_spec, (Z.add_comm 1) by lia.
  now destruct a, (Z.testbit y (n + 1)).
Qed.

Lemma land_word_r w a b : 0 <= w -> in_word w b -> in_word w (Z.land a b).
Proof.
  intros Hw Hb. replace (Z.land a b) with (wrap w (Z.land a b)); [now apply wrap_range|].
  apply Z.bits_inj'. intros i Hi. rewrite testbit_wrap, Z.land_spec by easy.
  destruct (Z.ltb_spec i w); [easy|]. now rewrite (in_word_testbit_high w b), andb_false_r.
Qed.

Lemma lor_u32_word a b c : in_word 32 (Z.lor (u32 a) (Z.land b (u32 c))).
Proof. apply lor_range; [lia|now apply wrap_range|]. apply land_word_r; [lia|now apply wrap_range]. Qed.

Record rotated (w d s : Z) (f : Z -> Z) (cf : Z -> bool) (ovf : Z -> bool) (FLG : Z) (out : Z * Z) : Prop := {
  rotated_bits : permuted w d f (fst out);
  rotated_CF : flag_of (snd out) F_CF = if s =? 0 then flag_of FLG F_CF else cf (fst out);
  rotated_OF : s = 1 -> flag_of (snd out) F_OF = ovf (fst out);
  rotated_frame : frame_flags ROTATE FLG (snd out)
}.

Lemma nz_b2z b : nz (Z.b2z b) = b.
Proof. now destruct b. Qed.

(** Goals about the flags of a rotation after [run]; [E0 : s <> 0]. *)
Ltac rot_flag :=
  cbn [fst snd bits];
  match goal with
  | |- frame_flags _ _ _ => auto 20 with word
  | |- _ = 1 -> _ => intros ->
  | _ => idtac
  end;
  autorewrite with flags;
  repeat match goal with E0 : ?s <> 0 |- context [?s =? 0] => rewrite (proj2 (Z.eqb_neq s 0) E0) end;
  rewrite ?land_1, ?nz_b2z, ?nz_XOR2_sum, ?nz_XOR2_shiftr by lia; mask_bits; try reflexivity.

Lemma run_rol w d s FLG :
  in_word (bits w) d -> 0 <= s ->
  rotated (bits w) d s (fun i => i - s) (fun r => Z.testbit r 0)
    (fun r => xorb (Z.testbit r 0) (Z.testbit r (bits w - 1))) FLG (op_rol w d s FLG).
Proof.
  intros Hd Hs. pose proof (bits_bounds w) as Hw.
  assert (Hid : s mod bits w = 0 -> permuted (bits w) d (fun i => i - s) d).
  { intros E. apply permuted_id; [lia|easy|]. intros i Hi.
    rewrite mod_shift_l, E, Z.sub_0_r by lia. now apply Z.mod_small. }
  set (x := Z.lor (u32 (Z.shiftl d (s mod bits w)))
       (Z.land (Z.shiftr d (bits w - s mod bits w)) (u32 (Z.shiftl 1 (s mod bits w) - 1)))).
  assert (Hrot : s mod bits w <> 0 -> permuted (bits w) d (fun i => i - s) (wrap (bits w) x)).
  { intros E. apply permuted_wrap; [lia|]. intros i Hi. rewrite mod_shift_l by lia.
    pose proof (Z.mod_pos_bound s (bits w)). now apply rol_bits; try lia. }
  assert (Hx : forall i, 0 <= i < bits w -> Z.testbit x i = Z.testbit (wrap (bits w) x) i)
    by (intros i Hi; now rewrite testbit_wrap, (proj2 (Z.ltb_lt i (bits w))) by lia).
  assert (Hw1 : s = 1 -> s mod bits w <> 0) by (intros ->; now destruct w).
  assert (H32 : wrap 32 x = x) by apply wrap_small, lor_u32_word.
  destruct w; unfold op_rol, by_width, rol_byte, rol_word, rol_long; run; cbn [bits] in *; fold x;
    unfold u8, u16; rewrite ?(wrap_small _ d Hd);
    match goal with |- context [s mod ?n =? 0] => destruct (Z.eqb_spec (s mod n) 0) as [E|E] end;
    cbn [negb]; run;
    (destruct (Z.eqb_spec s 0) as [->|E0];
     [ first [now destruct E | split; [exact (Hid E)|rot_flag|lia|rot_flag]]
     | cbn [negb]; run ]).
  1, 3, 5: split; [exact (Hid E)| |intros E1; now destruct (Hw1 E1)|]; rot_flag.
  all: clearbody x; rewrite ?H32 in Hrot, Hx;
    (split; [exact (Hrot E)| | |]; rot_flag); rewrite !Hx by lia; reflexivity.
Qed.

Lemma run_ror w d s FLG :
  in_word (bits w) d -> 0 <= s ->
  rotated (bits w) d s (fun i => i + s) (fun r => Z.testbit r (bits w - 1))
    (fun r => xorb (Z.testbit r (bits w - 2)) (Z.testbit r (bits w - 1))) FLG (op_ror w d s FLG).
Proof.
  intros Hd Hs. pose proof (bits_bounds w) as Hw.
  assert (Hid : s mod bits w = 0 -> permuted (bits w) d (fun i => i + s) d).
  { intros E. apply permuted_id; [lia|easy|]. intros i Hi.
    rewrite mod_shift_r, E, Z.add_0_r by lia. now apply Z.mod_small. }
  set (x := Z.lor (u32 (Z.shiftl d (bits w - s mod bits w)))
       (Z.land (Z.shiftr d (s mod bits w)) (u32 (Z.shiftl 1 (bits w - s mod bits w) - 1)))).
  assert (Hrot : s mod bits w <> 0 -> permuted (bits w) d (fun i => i + s) (wrap (bits w) x)).
  { intros E. apply permuted_wrap; [lia|]. intros i Hi. rewrite mod_shift_r by lia.
    pose proof (Z.mod_pos_bound s (bits w)). now apply ror_bits; try lia. }
  assert (Hx : forall i, 0 <= i < bits w -> Z.testbit x i = Z.testbit (wrap (bits w) x) i)
    by (intros i Hi; now rewrite testbit_wrap, (proj2 (Z.ltb_lt i (bits w))) by lia).
  assert (Hw1 : s = 1 -> s mod bits w <> 0) by (intros ->; now destruct w).
  assert (H32 : wrap 32 x = x) by apply wrap_small, lor_u32_word.
  destruct w; unfold op_ror, by_width, ror_byte, ror_word, ror_long; run; cbn [bits] in *; fold x;
    unfold u8, u16; rewrite ?(wrap_small _ d Hd);
    match goal with |- context [s mod ?n =? 0] => destruct (Z.eqb_spec (s mod n) 0) as [E|E] end;
    cbn [negb]; run;
    (destruct (Z.eqb_spec s 0) as [->|E0];
     [ first [now destruct E | split; [exact (Hid E)|rot_flag|lia|rot_flag]]
     | cbn [negb]; run ]).
  1, 3, 5: split; [exact (Hid E)| |intros E1; now destruct (Hw1 E1)|]; rot_flag.
  all: clearbody x; rewrite ?H32 in Hrot, Hx;
    (split; [exact (Hrot E)| | |]; rot_flag); rewrite !Hx by lia; reflexivity.
Qed.

(** ** Rotations through the carry *)

(** The outcome of a rotation through the carry: the [w + 1]-bit ring of the
    result and the carry is the old ring moved by [f]. *)
Record ring_rotated (w d s : Z) (f : Z -> Z) (FLG : Z) (out : Z * Z) : Prop := {
  ring_range : in_word w (fst out);
  ring_bits : forall i, 0 <= i <= w ->
    ring w (fst out) (flag_of (snd out) F_CF) i = ring w d (flag_of FLG F_CF) (f i mod (w + 1));
  ring_frame : frame_flags ROTATE FLG (snd out)
}.

Lemma ring_bit w d c i : i <> w -> ring w d c i = Z.testbit d i.
Proof. intros Hi. unfold ring. now rewrite (proj2 (Z.eqb_neq i w)). Qed.

Lemma ring_carry w d c : ring w d c w = c.
Proof. unfold ring. now rewrite Z.eqb_refl. Qed.

Lemma ring_rotated_id w d s f FLG :
  0 < w -> in_word w d -> (forall i, 0 <= i <= w -> f i mod (w + 1) = i) -> ring_rotated w d s f FLG (d, FLG).
Proof.
  intros Hw Hd Hf. split; cbn [fst snd]; [easy| |apply frame_flags_refl].
  intros i Hi. now rewrite Hf.
Qed.

Lemma ring_rotated_wrap w d s f x FLG FLG' :
  0 < w -> (forall i, 0 <= i < w -> Z.testbit x i = ring w d (flag_of FLG F_CF) (f i mod (w + 1))) ->
  flag_of FLG' F_CF = ring w d (flag_of FLG F_CF) (f w mod (w + 1)) ->
  frame_flags ROTATE FLG FLG' ->
  ring_rotated w d s f FLG (wrap w x, FLG').
Proof.
  intros Hw Hx HC Hf. split; cbn [fst snd]; [apply wrap_range; lia| |easy].
  intros i Hi. destruct (Z.eq_dec i w) as [->|Hne].
  - now rewrite ring_carry.
  - rewrite ring_bit, testbit_wrap, (proj2 (Z.ltb_lt i w)) by lia. apply Hx. lia.
Qed.

Lemma pow_word n : 0 <= n < 32 -> in_word 32 (Z.shiftl 1 n).
Proof.
  intros Hn. rewrite Z.shiftl_1_l. unfold in_word. split; [apply Z.pow_nonneg; lia|].
  apply Z.pow_lt_mono_r; lia.
Qed.

Ltac word_range :=
  repeat match goal with
    | |- in_word _ (if ?b then _ else _) => destruct b
    | |- in_word _ (Z.lor _ _) => apply lor_range; [lia| |]
    | |- in_word 32 (Z.shiftl 1 _) => apply pow_word; lia
    | |- in_word 32 (Z.land _ (u32 _)) => apply land_word_r; [lia|]
    | |- in_word 32 (Z.land (u32 _) _) => rewrite Z.land_comm
    | |- in_word 32 (u32 _) => apply wrap_range; lia
    end.

Lemma run_rcl w d s FLG :
  in_word (bits w) d -> 0 <= s -> s mod (bits w + 1) < 32 ->
  ring_rotated (bits w) d s (fun i => i - s) FLG (op_rcl w d s FLG).
Proof.
  intros Hd Hs Hs32. pose proof (bits_bounds w) as Hw.
  pose proof (Z.mod_pos_bound s (bits w + 1) ltac:(lia)) as Hc.
  assert (Hid : s mod (bits w + 1) = 0 -> forall i, 0 <= i <= bits w -> (i - s) mod (bits w + 1) = i).
  { intros E i Hi. rewrite mod_shift_l, E, Z.sub_0_r by lia. apply Z.mod_small. lia. }
  assert (Hout : (bits w - s) mod (bits w + 1) = bits w - s mod (bits w + 1)).
  { rewrite mod_shift_l by lia. apply Z.mod_small. lia. }
  set (m := Z.ones (bits w)).
  set (cnt := s mod (bits w + 1)) in *.
  assert (Hx : cnt <> 0 -> forall i, 0 <= i < bits w -> _)
    by (intros E i Hi; exact (rcl_bits (bits w) m d (flag_of FLG F_CF) cnt i Hd ltac:(lia) Hs32 ltac:(lia) eq_refl Hi)).
  assert (Hmod : forall i, (i - cnt) mod (bits w + 1) = (i - s) mod (bits w + 1))
    by (intros i; symmetry; apply mod_shift_l; lia).
  destruct w; unfold op_rcl, by_width, rcl_byte, rcl_word, rcl_long; cbv zeta; cbn [bits] in *;
    match goal with |- context [s mod ?n] => change (s mod n) with cnt end;
    (destruct (Z.eqb_spec cnt 0) as [E|E]; cbn [negb]; run;
     [ unfold u8, u16; rewrite ?(wrap_small _ d Hd); apply ring_rotated_id; [lia|easy|exact (Hid E)] |]).
  3: match goal with |- ring_rotated _ _ _ _ _ (?x, _) =>
       rewrite <- (wrap_small 32 x) by (clear -Hc E Hs32; clearbody cnt; word_range) end.
  all: (apply ring_rotated_wrap; [lia| | |rot_flag];
    [ intros i Hi; rewrite <- Hmod; exact (Hx E i Hi)
    | rot_flag; rewrite Hout, ring_bit, Z.shiftr_spec by lia; f_equal; lia ]).
Qed.

Lemma run_rcr w d s FLG :
  in_word (bits w) d -> 0 <= s -> s mod (bits w + 1) < 32 ->
  ring_rotated (bits w) d s (fun i => i + s) FLG (op_rcr w d s FLG).
Proof.
  intros Hd Hs Hs32. pose proof (bits_bounds w) as Hw.
  pose proof (Z.mod_pos_bound s (bits w + 1) ltac:(lia)) as Hc.
  assert (Hid : s mod (bits w + 1) = 0 -> forall i, 0 <= i <= bits w -> (i + s) mod (bits w + 1) = i).
  { intros E i Hi. rewrite mod_shift_r, E, Z.add_0_r by lia. apply Z.mod_small. lia. }
  assert (Hout : s mod (bits w + 1) <> 0 ->
    (bits w + s) mod (bits w + 1) = s mod (bits w + 1) - 1).
  { intros E. rewrite mod_shift_r by lia. rewrite mod_once by lia. zprune; lia. }
  set (cnt := s mod (bits w + 1)) in *.
  assert (Hx : cnt <> 0 -> forall i, 0 <= i < bits w -> _)
    by (intros E i Hi; exact (rcr_bits (bits w) d (flag_of FLG F_CF) cnt i Hd ltac:(lia) ltac:(lia) Hi)).
  assert (Hmod : forall i, (i + cnt) mod (bits w + 1) = (i + s) mod (bits w + 1))
    by (intros i; symmetry; apply mod_shift_r; lia).
  assert (Hcf : cnt <> 0 -> nz (if cnt =? 1 then Z.land d 1 else Z.land (Z.shiftr d (cnt - 1)) 1) =
                 Z.testbit d (cnt - 1)).
  { intros E. destruct (Z.eqb_spec cnt 1) as [E1|E1]; rewrite land_1, nz_b2z.
    - f_equal. lia.
    - rewrite Z.shiftr_spec by lia. f_equal. }
  destruct w; unfold op_rcr, by_width, rcr_byte, rcr_word, rcr_long; cbv zeta; cbn [bits] in *;
    match goal with |- context [s mod ?n] => change (s mod n) with cnt end;
    (destruct (Z.eqb_spec cnt 0) as [E|E]; cbn [negb]; run;
     [ unfold u8, u16; rewrite ?(wrap_small _ d Hd); apply ring_rotated_id; [lia|easy|exact (Hid E)] |]).
  all: destruct (cnt =? 1) eqn:E1; cbn [negb] in *; run;
    try match goal with |- ring_rotated 32 _ _ _ _ (?x, _) =>
      rewrite <- (wrap_small 32 x) by (clear -Hd Hc E Hs32 E1; clearbody cnt; word_range) end;
    (apply ring_rotated_wrap; [lia| | |rot_flag];
    [ intros i Hi; rewrite <- Hmod; specialize (Hx E i Hi); rewrite ?E1 in Hx; exact Hx
    | rot_flag; rewrite Hout, ring_bit by lia; rewrite <- Hcf by easy; now rewrite ?land_1, ?nz_b2z ]).
Qed.

(** ** Shifts *)

(** The flags a shift may change. *)
Definition SHIFT := Z.ldiff STATUS F_AF.

Record shifted (w s r : Z) (cf ovf : bool) (FLG : Z) (out : Z * Z) : Prop := {
  shifted_result : fst out = r;
  shifted_CF : s <> 0 -> flag_of (snd out) F_CF = cf;
  shifted_OF : s <> 0 -> flag_of (snd out) F_OF = ovf;
  shifted_flags : s <> 0 -> result_flags w r (snd out);
  shifted_frame : frame_flags (if s =? 0 then F_OF else SHIFT) FLG (snd out)
}.

Lemma eqb_land_mask x m i : (0 <=? i) && (m =? 2 ^ i) = true -> (Z.land x m =? m) = Z.testbit x i.
Proof.
  rewrite andb_true_iff, Z.leb_le, Z.eqb_eq. intros [Hi ->]. rewrite land_pow2 by easy.
  pose proof (Z.pow_pos_nonneg 2 i). destruct (Z.testbit x i); [apply Z.eqb_refl|apply Z.eqb_neq; lia].
Qed.

Lemma nz_land_shiftl x n : 0 <= n -> nz (Z.land x (Z.shiftl 1 n)) = Z.testbit x n.
Proof. intros Hn. rewrite Z.shiftl_1_l. now apply nz_land_pow2. Qed.

(** Split the conditions on the distance. *)
Ltac shift_cases s n :=
  destruct (Z.ltb_spec s n); [rewrite (Z.mod_small s n) by lia|];
  [destruct (Z.ltb_spec 0 s); destruct (Z.eqb_spec s 1); try lia|].

Ltac eq_bits :=
  repeat match goal with
    | |- context [Z.land ?x ?m =? ?m] =>
        let i := eval vm_compute in (Z.log2 m) in rewrite (eqb_land_mask x m i eq_refl)
    end.

Ltac shift_flags :=
  cbn [fst snd bits];
  match goal with
  | |- frame_flags _ _ _ => zprune; auto 20 with word
  | |- _ <> 0 -> _ => intros ?
  | _ => idtac
  end;
  try lia; autorewrite with flags; rewrite ?nz_land_shiftl by lia; rewrite ?nz_XOR2_shiftr by lia;
  eq_bits; mask_bits; bit_simpl; cbn [andb]; try reflexivity;
  try (repeat (f_equal; try lia)).

Lemma wrap_shiftl_high w d s : 0 <= w <= s -> wrap w (Z.shiftl d s) = 0.
Proof.
  intros Hw. apply Z.bits_inj'. intros i Hi. rewrite testbit_wrap, Z.shiftl_spec, Z.bits_0 by lia.
  destruct (Z.ltb_spec i w); [|easy]. rewrite Z.testbit_neg_r by lia. reflexivity.
Qed.

Ltac shift_result Hd :=
  cbn [fst]; unfold u8, u16;
  first [ rewrite Z.shiftl_0_r, (wrap_small _ _ Hd) by easy; first [reflexivity | now apply wrap_small]
        | rewrite wrap_shiftl_high by lia; reflexivity
        | rewrite narrow_u32 by lia; reflexivity
        | reflexivity ].

Ltac shift_rf w :=
  intros ?;
  first [ lia
        | rewrite wrap_shiftl_high by lia; apply (result_flags_word w 0); [unfold in_word; simpl; lia|flags_done..]
        | apply (result_flags_intro w); flags_done ].

Ltac shift_goals w Hd := split; [shift_result Hd|shift_flags|shift_flags|shift_rf w|shift_flags].

Lemma run_shl w d s FLG :
  in_word (bits w) d -> 0 <= s <= 32 ->
  shifted (bits w) s (wrap (bits w) (d * 2 ^ s))
    (Z.testbit d (bits w - s))
    ((s =? 1) && xorb (Z.testbit d (bits w - 2)) (Z.testbit d (bits w - 1))) FLG
    (op_shl w d s FLG).
Proof.
  intros Hd Hs. pose proof (bits_bounds w) as Hw. rewrite <- Z.shiftl_mul_pow2 by lia.
  destruct w; unfold op_shl, by_width, shl_byte, shl_word, shl_long; cbn [bits] in *;
    match goal with |- context [s <? ?n] => shift_cases s n end; run; try subst s;
    try (replace s with 0 in * by lia).
  1, 2, 3, 4: shift_goals Byte Hd.
  1, 2, 3, 4: shift_goals Word Hd.
  1, 2, 3, 4: shift_goals Long Hd.
Qed.

Lemma shiftr_range w d s : 0 <= s -> in_word w d -> in_word w (Z.shiftr d s).
Proof.
  unfold in_word. intros Hs Hd. rewrite Z.shiftr_div_pow2 by easy.
  assert (0 < 2 ^ s) by (apply Z.pow_pos_nonneg; lia).
  split; [apply Z.div_pos; lia|]. apply Z.le_lt_trans with d; [|lia]. apply Z.div_le_upper_bound; nia.
Qed.

(** [Hr]: the result [r] is in range. *)
Ltac right_rf w Hr :=
  intros ?; try lia;
  let Hm := fresh in pose proof (land_mask_id (bits w) _ (ltac:(easy) : 0 <= bits w) Hr) as Hm;
  cbn [bits] in Hm; let m := eval vm_compute in (Z.ones (bits w)) in change (Z.ones _) with m in Hm;
  apply (result_flags_word w); [exact Hr|flags_done; now rewrite Hm|flags_done..].

Ltac right_of Hd :=
  shift_flags;
  try match goal with |- xorb _ (Z.testbit ?d ?i) = _ =>
    rewrite (testbit_out _ d i Hd), xorb_false_r by lia; reflexivity end.

Ltac right_result Hr := cbn [fst]; unfold u8, u16; first [reflexivity | now apply wrap_small].

Lemma run_shr w d s FLG :
  in_word (bits w) d -> 0 <= s < bits w ->
  shifted (bits w) s (d / 2 ^ s)
    (Z.testbit d (s - 1))
    ((s =? 1) && Z.testbit d (bits w - 1)) FLG
    (op_shr w d s FLG).
Proof.
  intros Hd Hs. pose proof (bits_bounds w) as Hw. rewrite <- Z.shiftr_div_pow2 by lia.
  pose proof (shiftr_range (bits w) d s ltac:(lia) Hd) as Hr.
  destruct w; unfold op_shr, by_width, shr_byte, shr_word, shr_long; cbn [bits] in *;
    match goal with |- context [s <? ?n] => shift_cases s n end; try lia; run; try subst s;
    try (replace s with 0 in * by lia).
  all: split; [right_result Hr|shift_flags|right_of Hd| |shift_flags].
  1, 2, 3: right_rf Byte Hr.
  1, 2, 3: right_rf Word Hr.
  1, 2, 3: right_rf Long Hr.
Qed.

(** The whole operand shifted out. *)
Lemma run_shr_out w d s FLG :
  bits w <= s ->
  let out := op_shr w d s FLG in
  fst out = 0 /\ flag_of (snd out) F_ZF = true /\ flag_of (snd out) F_SF = false /\
  flag_of (snd out) F_OF = false /\ frame_flags SHIFT FLG (snd out).
Proof.
  intros Hs.
  destruct w; unfold op_shr, by_width, shr_byte, shr_word, shr_long; cbn [bits] in *;
    match goal with |- context [s <? ?n] => destruct (Z.ltb_spec s n); [lia|] end; run;
    (split; [reflexivity|]; split; [flags_done|]; split; [flags_done|]; split; flags_done).
Qed.

(** ** Arithmetic shift *)

Lemma testbit_signed w d j :
  0 < w -> in_word w d -> 0 <= j -> Z.testbit (signed w d) j = Z.testbit d (Z.min j (w - 1)).
Proof.
  intros Hw Hd Hj. destruct (pow2_step w Hw) as [E Hp]. unfold in_word in Hd. pose proof (testbit_top w d Hw Hd) as Ht.
  destruct (Z.ltb_spec j w).
  - rewrite Z.min_l by lia.
    assert (Hs : wrap w (signed w d) = d).
    { unfold signed. destruct (_ <? _); [now apply wrap_small|]. rewrite wrap_cases by lia. zprune; lia. }
    rewrite <- Hs at 2. rewrite testbit_wrap by lia. now rewrite (proj2 (Z.ltb_lt j w)).
  - rewrite Z.min_r, Ht by lia. unfold signed.
    destruct (Z.ltb_spec d (2 ^ (w - 1))) as [Hlt|Hge];
      [rewrite (proj2 (Z.leb_gt _ _) Hlt) | rewrite (proj2 (Z.leb_le _ _) Hge)].
    + apply (in_word_testbit_high w); [easy|lia|lia].
    + rewrite Z.testbit_eqb by lia. replace ((d - 2 ^ w) / 2 ^ j) with (-1); [reflexivity|].
      assert (2 ^ w <= 2 ^ j) by (apply Z.pow_le_mono_r; lia).
      apply Z.div_unique with (d - 2 ^ w + 2 ^ j); lia.
Qed.

Lemma sar_bits w d n i :
  in_word w d -> 0 < n < w -> w <= 32 -> 0 <= i < w ->
  let mask := u32 (Z.shiftl 1 (w - n) - 1) in
  let res := Z.land (Z.shiftr d n) mask in
  Z.testbit (if Z.testbit d (w - 1) then Z.lor res (not32 mask) else res) i =
  Z.testbit d (Z.min (i + n) (w - 1)).
Proof.
  intros Hd Hn Hw Hi. cbv zeta. destruct (Z.testbit d (w - 1)) eqn:E; bit_simpl;
    rewrite ?testbit_not32 by lia; bit_simpl;
    (destruct (Z.ltb_spec i (w - n)); cbn [negb]; rewrite ?orb_true_r, ?orb_false_r, ?andb_true_r, ?andb_false_r;
     [rewrite Z.min_l by lia; reflexivity | rewrite Z.min_r by lia; easy]).
Qed.

(** What [sar_*] computes before narrowing. *)
Definition sar_res (w d n : Z) : Z :=
  let mask := u32 (Z.shiftl 1 (w - n) - 1) in
  let res := Z.land (Z.shiftr d n) mask in
  if Z.testbit d (w - 1) then Z.lor res (not32 mask) else res.

Lemma sar_res_word w d n : u32 (sar_res w d n) = sar_res w d n.
Proof.
  apply wrap_small. unfold sar_res, not32. cbv zeta. word_range.
Qed.

Lemma sar_res_eq w d n :
  in_word w d -> 0 < n < w -> w <= 32 -> wrap w (sar_res w d n) = wrap w (signed w d / 2 ^ n).
Proof.
  intros Hd Hn Hw. apply Z.bits_inj'. intros i Hi. rewrite !testbit_wrap by lia.
  destruct (Z.ltb_spec i w); [cbn [andb]|reflexivity].
  rewrite <- Z.shiftr_div_pow2, Z.shiftr_spec, testbit_signed by (easy || lia).
  now apply sar_bits.
Qed.

Lemma signed_wrap w d : 0 < w -> in_word w d -> wrap w (signed w d) = d.
Proof.
  intros Hw Hd. pose proof Hd as [Hd0 Hd1]. unfold signed.
  destruct (_ <? _); [now apply wrap_small|]. rewrite wrap_cases by lia. zprune; lia.
Qed.

Ltac sar_done w x Hx H32 :=
  match type of H32 with _ = ?e => set (x := e) in * end; clearbody x; cbn [fst snd];
  rewrite <- Hx; unfold u8, u16;
  (split; [first [reflexivity | symmetry; exact H32]|]; split; [lia|]; split; [intros _; split|]);
  [ shift_flags
  | first [apply (result_flags_intro w x); rewrite H32; flags_done
          | rewrite <- H32 at 1; apply (result_flags_intro w x); rewrite H32; flags_done ]
  | flags_done ].

Lemma run_sar w d s FLG :
  in_word (bits w) d -> 0 <= s ->
  let n := s mod bits w in
  let out := op_sar w d s FLG in
  fst out = wrap (bits w) (signed (bits w) d / 2 ^ n) /\
  (n = 0 -> snd out = FLG) /\
  (n <> 0 -> flag_of (snd out) F_CF = Z.testbit d (n - 1) /\ result_flags (bits w) (fst out) (snd out)) /\
  frame_flags (Z.ldiff SHIFT F_OF) FLG (snd out).
Proof.
  intros Hd Hs. pose proof (bits_bounds w) as Hw. cbv zeta.
  pose proof (Z.mod_pos_bound s (bits w) ltac:(lia)) as Hn. set (n := s mod bits w) in *.
  pose proof (signed_wrap (bits w) d ltac:(lia) Hd) as H0.
  pose proof (fun H => sar_res_eq (bits w) d n Hd H ltac:(lia)) as Hx.
  pose proof (sar_res_word (bits w) d n) as H32. unfold sar_res in Hx, H32. cbv zeta in Hx, H32.
  destruct w; unfold op_sar, by_width, sar_byte, sar_word, sar_long; cbv zeta; cbn [bits] in *;
    match goal with |- context [s mod ?k] => change (s mod k) with n end; clearbody n; mask_bits;
    match goal with |- context [n <? ?k] =>
      destruct (Z.ltb_spec 0 n); [rewrite (proj2 (Z.ltb_lt n k)) by lia | replace n with 0 in * by lia] end.
  2, 4, 6: cbn [andb Z.leb Z.compare]; run; cbn [fst snd]; unfold u8, u16; rewrite Z.div_1_r, H0;
    (split; [first [reflexivity | now apply wrap_small] |split; [reflexivity|split; [lia|apply frame_flags_refl]]]).
  all: cbn [andb]; specialize (Hx ltac:(lia)); run.
  - change (8 - 1) with 7 in *. sar_done Byte x Hx H32.
  - change (16 - 1) with 15 in *. sar_done Word x Hx H32.
  - change (32 - 1) with 31 in *. sar_done Long x Hx H32.
Qed.

(** ** Double shifts *)

Lemma concat_lor w a b : 0 <= w -> in_word w b -> a * 2 ^ w + b = Z.lor (Z.shiftl a w) b.
Proof.
  intros Hw Hb. rewrite <- Z.shiftl_mul_pow2 by easy.
  rewrite Z.add_nocarry_lxor, Z.lxor_lor; [easy| |];
    apply Z.bits_inj'; intros i Hi; rewrite Z.land_spec, Z.shiftl_spec, Z.bits_0 by easy;
    (destruct (Z.ltb_spec i w); [now rewrite Z.testbit_neg_r by lia|];
     now rewrite (in_word_testbit_high w b), andb_false_r by (easy || lia)).
Qed.

Lemma shld_eq w d fill s :
  in_word w d -> in_word w fill -> 0 <= s < w -> w <= 32 ->
  wrap w (Z.lor (u32 (Z.shiftl d s)) (Z.shiftr fill (w - s))) = wrap w ((d * 2 ^ w + fill) * 2 ^ s / 2 ^ w).
Proof.
  intros Hd Hf Hs Hw. rewrite concat_lor by (easy || lia).
  rewrite <- Z.shiftl_mul_pow2, <- Z.shiftr_div_pow2 by lia.
  apply Z.bits_inj'. intros i Hi. rewrite !testbit_wrap by lia.
  destruct (Z.ltb_spec i w); [cbn [andb]|reflexivity]. bit_simpl.
  replace (i + w - s - w) with (i - s) by lia. do 2 f_equal. lia.
Qed.

Lemma shrd_eq w d fill s :
  in_word w d -> in_word w fill -> 0 < s < w -> w <= 32 ->
  wrap w (Z.lor (Z.shiftr d s) (u32 (Z.shiftl fill (w - s)))) = wrap w ((fill * 2 ^ w + d) / 2 ^ s).
Proof.
  intros Hd Hf Hs Hw. rewrite concat_lor by (easy || lia). rewrite <- Z.shiftr_div_pow2 by lia.
  apply Z.bits_inj'. intros i Hi. rewrite !testbit_wrap by lia.
  destruct (Z.ltb_spec i w); [cbn [andb]|reflexivity]. bit_simpl.
  rewrite orb_comm. do 2 f_equal. lia.
Qed.

(** A distance of zero. *)
Lemma concat_high w d fill :
  in_word w d -> in_word w fill -> wrap w ((d * 2 ^ w + fill) * 2 ^ 0 / 2 ^ w) = d.
Proof.
  unfold in_word. intros Hd Hf. rewrite Z.mul_1_r, Z.div_add_l, (Z.div_small fill), Z.add_0_r by lia.
  now apply wrap_small.
Qed.

Lemma concat_low w d fill : in_word w d -> wrap w ((fill * 2 ^ w + d) / 2 ^ 0) = d.
Proof.
  intros Hd. rewrite Z.div_1_r. unfold wrap. rewrite Z.add_comm, Z_mod_plus_full. now apply wrap_small.
Qed.

Lemma word_32 w x : w <= 32 -> in_word w x -> in_word 32 x.
Proof. unfold in_word. intros Hw Hx. assert (2 ^ w <= 2 ^ 32) by (apply Z.pow_le_mono_r; lia). lia. Qed.

(** Goals of a double shift that computes [x] with [Hx : wrap w x = r]. *)
Ltac double_done w x Hx H32 :=
  clearbody x; rewrite <- Hx; unfold u8, u16;
  split;
  [ cbn [fst]; first [reflexivity | symmetry; exact H32]
  | shift_flags
  | intros _; cbn [fst snd]; autorewrite with flags;
    rewrite ?nz_land_shiftl, ?nz_XOR2_shiftr by lia; eq_bits; rewrite ?testbit_wrap by lia; reflexivity
  | intros _; apply (result_flags_intro w x); rewrite H32; flags_done
  | shift_flags ].

Lemma run_shld w d fill s FLG :
  w <> Byte -> in_word (bits w) d -> in_word (bits w) fill -> 0 <= s < bits w ->
  let r := wrap (bits w) ((d * 2 ^ bits w + fill) * 2 ^ s / 2 ^ bits w) in
  shifted (bits w) s r (Z.testbit d (bits w - s))
    ((s =? 1) && xorb (Z.testbit r (bits w - 1)) (Z.testbit d (bits w - 1))) FLG
    (op_shld w d fill s FLG).
Proof.
  intros Hb Hd Hf Hs. pose proof (bits_bounds w) as Hw. cbv zeta.
  pose proof (shld_eq (bits w) d fill s Hd Hf Hs ltac:(lia)) as Hx.
  assert (H32 : u32 (Z.lor (u32 (Z.shiftl d s)) (Z.shiftr fill (bits w - s))) =
                Z.lor (u32 (Z.shiftl d s)) (Z.shiftr fill (bits w - s))).
  { apply wrap_small, lor_range; [lia|now apply wrap_range|].
    apply shiftr_range; [lia|]. apply (word_32 (bits w)); [lia|easy]. }
  destruct w; [easy| |]; unfold op_shld, by_width, shld_word, shld_long; cbn [bits] in *;
    match goal with |- context [s <? ?n] => shift_cases s n end; try lia; run; try subst s;
    try (replace s with 0 in * by lia).
  3, 6: rewrite concat_high by easy; split; [right_result Hd|shift_flags|shift_flags|lia|shift_flags].
  all: match type of H32 with _ = ?e => set (x := e) in * end.
  1, 2: double_done Word x Hx H32.
  all: double_done Long x Hx H32.
Qed.

Lemma run_shrd w d fill s FLG :
  w <> Byte -> in_word (bits w) d -> in_word (bits w) fill -> 0 <= s < bits w ->
  let r := wrap (bits w) ((fill * 2 ^ bits w + d) / 2 ^ s) in
  shifted (bits w) s r (Z.testbit d (s - 1))
    ((s =? 1) && xorb (Z.testbit r (bits w - 2)) (Z.testbit r (bits w - 1))) FLG
    (op_shrd w d fill s FLG).
Proof.
  intros Hb Hd Hf Hs. pose proof (bits_bounds w) as Hw. cbv zeta.
  pose proof (fun H => shrd_eq (bits w) d fill s Hd Hf H ltac:(lia)) as Hx.
  assert (H32 : u32 (Z.lor (Z.shiftr d s) (u32 (Z.shiftl fill (bits w - s)))) =
                Z.lor (Z.shiftr d s) (u32 (Z.shiftl fill (bits w - s)))).
  { apply wrap_small, lor_range; [lia| |now apply wrap_range].
    apply shiftr_range; [lia|]. apply (word_32 (bits w)); [lia|easy]. }
  destruct w; [easy| |]; unfold op_shrd, by_width, shrd_word, shrd_long; cbn [bits] in *;
    match goal with |- context [s <? ?n] => shift_cases s n end; try lia; run; try subst s;
    try (replace s with 0 in * by lia).
  3, 6: rewrite concat_low by easy; split; [right_result Hd|shift_flags|shift_flags|lia|shift_flags].
  all: specialize (Hx ltac:(lia)); match type of H32 with _ = ?e => set (x := e) in * end.
  1, 2: double_done Word x Hx H32.
  all: double_done Long x Hx H32.
Qed.

(** ** Properties *)

Lemma permuted_inverse w d f g r r' :
  0 < w -> in_word w d ->
  (forall i, 0 <= i < w -> f (g i mod w) mod w = i) ->
  permuted w d f r -> permuted w r g r' -> r' = d.
Proof.
  intros Hw Hd Hfg [Hr Hf] [Hr' Hg]. apply Z.bits_inj'. intros i Hi.
  destruct (Z.ltb_spec i w) as [H|H].
  - rewrite Hg, Hf, Hfg by (try apply Z.mod_pos_bound; lia). reflexivity.
  - now rewrite !(in_word_testbit_high w) by (easy || lia).
Qed.

(** ROL and ROR, in the three widths and for every distance: bit [i] of the
    result is bit [i - s] (ROR: [i + s]) of the operand, indices modulo the
    width; for a distance other than 0 CF is the bit that crossed the end of
    the word, for a distance of 1 OF is the exclusive or the manual gives, and
    no other flag changes.  Each undoes the other. *)
Theorem rotate_correct w d s FLG FLG' :
  in_word (bits w) d -> 0 <= s ->
  rotated (bits w) d s (fun i => i - s) (fun r => Z.testbit r 0)
    (fun r => xorb (Z.testbit r 0) (Z.testbit r (bits w - 1))) FLG (op_rol w d s FLG) /\
  rotated (bits w) d s (fun i => i + s) (fun r => Z.testbit r (bits w - 1))
    (fun r => xorb (Z.testbit r (bits w - 2)) (Z.testbit r (bits w - 1))) FLG (op_ror w d s FLG) /\
  fst (op_ror w (fst (op_rol w d s FLG)) s FLG') = d /\
  fst (op_rol w (fst (op_ror w d s FLG)) s FLG') = d.
Proof.
  intros Hd Hs. pose proof (bits_bounds w) as Hw.
  pose proof (run_rol w d s FLG Hd Hs) as Hl. pose proof (run_ror w d s FLG Hd Hs) as Hr.
  split; [easy|]. split; [easy|]. destruct Hl as [Hl _ _ _], Hr as [Hr _ _ _]. split.
  - eapply permuted_inverse; [..|exact Hl|apply run_ror; [apply Hl|easy]]; [lia|easy|].
    intros i Hi. cbv beta. rewrite Zminus_mod_idemp_l, Z.add_simpl_r. apply Z.mod_small. lia.
  - eapply permuted_inverse; [..|exact Hr|apply run_rol; [apply Hr|easy]]; [lia|easy|].
    intros i Hi. cbv beta. rewrite Z.add_mod_idemp_l, Z.sub_add by lia. apply Z.mod_small. lia.
Qed.

Lemma ring_inverse w d s f g FLG out out' :
  0 < w -> in_word w d ->
  (forall i, 0 <= i <= w -> f (g i mod (w + 1)) mod (w + 1) = i) ->
  ring_rotated w d s f FLG out -> ring_rotated w (fst out) s g (snd out) out' ->
  fst out' = d /\ flag_of (snd out') F_CF = flag_of FLG F_CF.
Proof.
  intros Hw Hd Hfg [Hr Hf _] [Hr' Hg _].
  assert (H : forall i, 0 <= i <= w -> ring w (fst out') (flag_of (snd out') F_CF) i = ring w d (flag_of FLG F_CF) i).
  { intros i Hi. pose proof (Z.mod_pos_bound (g i) (w + 1)). rewrite Hg, Hf, Hfg by lia. reflexivity. }
  split.
  - apply Z.bits_inj'. intros i Hi. destruct (Z.ltb_spec i w).
    + specialize (H i ltac:(lia)). now rewrite !ring_bit in H by lia.
    + now rewrite !(in_word_testbit_high w) by (easy || lia).
  - specialize (H w ltac:(lia)). now rewrite !ring_carry in H.
Qed.

(** RCL and RCR rotate the ring of [w + 1] bits made of the operand and the
    carry flag: its bit [i] becomes bit [i - s] ([i + s]) modulo [w + 1], the
    new carry included, and only CF and OF change.  RCR after RCL (and the
    other way) restores operand and carry.  The distance modulo [w + 1] is
    below 32, since C leaves the shift by 32 in [rcl_long] and [rcr_long]
    undefined. *)
Theorem rotate_carry_correct w d s FLG :
  in_word (bits w) d -> 0 <= s -> s mod (bits w + 1) < 32 ->
  let l := op_rcl w d s FLG in
  let r := op_rcr w d s FLG in
  ring_rotated (bits w) d s (fun i => i - s) FLG l /\
  ring_rotated (bits w) d s (fun i => i + s) FLG r /\
  (fst (op_rcr w (fst l) s (snd l)) = d /\ flag_of (snd (op_rcr w (fst l) s (snd l))) F_CF = flag_of FLG F_CF) /\
  (fst (op_rcl w (fst r) s (snd r)) = d /\ flag_of (snd (op_rcl w (fst r) s (snd r))) F_CF = flag_of FLG F_CF).
Proof.
  intros Hd Hs H32 l r. pose proof (bits_bounds w) as Hw.
  pose proof (run_rcl w d s FLG Hd Hs H32) as Hl. pose proof (run_rcr w d s FLG Hd Hs H32) as Hr.
  split; [easy|]. split; [easy|]. split.
  - eapply ring_inverse; [..|exact Hl|apply run_rcr; [apply Hl|easy|easy]]; [lia|easy|].
    intros i Hi. cbv beta. rewrite Zminus_mod_idemp_l, Z.add_simpl_r. apply Z.mod_small. lia.
  - eapply ring_inverse; [..|exact Hr|apply run_rcl; [apply Hr|easy|easy]]; [lia|easy|].
    intros i Hi. cbv beta. rewrite Z.add_mod_idemp_l, Z.sub_add by lia. apply Z.mod_small. lia.
Qed.

(** SHL multiplies by [2 ^ s] modulo the width, SHR divides by [2 ^ s] and
    SAR divides the signed value rounding down.  For a distance other than 0,
    CF is the last bit shifted out, ZF, SF and PF describe the result, and AF
    and the control flags never change; SHR by the width or more gives 0.  SAR
    takes the distance modulo the width, the others do not. *)
Theorem shift_correct w d s FLG :
  in_word (bits w) d -> 0 <= s <= 32 ->
  shifted (bits w) s (wrap (bits w) (d * 2 ^ s)) (Z.testbit d (bits w - s))
    ((s =? 1) && xorb (Z.testbit d (bits w - 2)) (Z.testbit d (bits w - 1))) FLG (op_shl w d s FLG) /\
  (s < bits w ->
   shifted (bits w) s (d / 2 ^ s) (Z.testbit d (s - 1)) ((s =? 1) && Z.testbit d (bits w - 1)) FLG
     (op_shr w d s FLG)) /\
  (bits w <= s -> fst (op_shr w d s FLG) = 0 /\ flag_of (snd (op_shr w d s FLG)) F_ZF = true) /\
  (let n := s mod bits w in
   let out := op_sar w d s FLG in
   fst out = wrap (bits w) (signed (bits w) d / 2 ^ n) /\
   (n <> 0 -> flag_of (snd out) F_CF = Z.testbit d (n - 1) /\ result_flags (bits w) (fst out) (snd out)) /\
   frame_flags (Z.ldiff SHIFT F_OF) FLG (snd out)).
Proof.
  intros Hd Hs. split; [now apply run_shl|]. split; [intros H; apply run_shr; [easy|lia]|]. split.
  - intros H. destruct (run_shr_out w d s FLG H) as (H0 & HZ & _). easy.
  - destruct (run_sar w d s FLG Hd ltac:(lia)) as (Hr & _ & Hf & Hframe). easy.
Qed.

(** SHLD and SHRD shift the double word made of the operand and the fill,
    and keep the half that holds the operand: SHLD the high half of
    [d : fill] shifted left, SHRD the low half of [fill : d] shifted right;
    CF is the last bit shifted out of the operand. *)
Theorem double_shift_correct w d fill s FLG :
  w <> Byte -> in_word (bits w) d -> in_word (bits w) fill -> 0 <= s < bits w ->
  (let r := wrap (bits w) ((d * 2 ^ bits w + fill) * 2 ^ s / 2 ^ bits w) in
   shifted (bits w) s r (Z.testbit d (bits w - s))
     ((s =? 1) && xorb (Z.testbit r (bits w - 1)) (Z.testbit d (bits w - 1))) FLG (op_shld w d fill s FLG)) /\
  (let r := wrap (bits w) ((fill * 2 ^ bits w + d) / 2 ^ s) in
   shifted (bits w) s r (Z.testbit d (s - 1))
     ((s =? 1) && xorb (Z.testbit r (bits w - 2)) (Z.testbit r (bits w - 1))) FLG (op_shrd w d fill s FLG)).
Proof. intros Hb Hd Hf Hs. split; [now apply run_shld|now apply run_shrd]. Qed.

(** ** Departures from the processor *)

(** The distance of SAR is reduced modulo the operand width before the test for
    a distance of the width or more, which therefore never holds: an 8-bit
    SAR by 8 returns the operand and not its sign. *)
Lemma sar_byte_8_is_identity : op_sar Byte 0x80 8 0 = (0x80, 0).
Proof. reflexivity. Qed.

(** A word shifted out entirely by SHR has even parity, and PF is cleared. *)
Lemma shr_word_out_parity : op_shr Word 0xFFFF 16 F_PF = (0, F_ZF) /\ op_shr Byte 0xFF 8 0 = (0, Z.lor F_CF (Z.lor F_PF F_ZF)).
Proof. split; reflexivity. Qed.

(** ** Witnesses *)

Lemma rotate_correct_witness :
  fst (op_rol Byte 0x96 3 0) = 0xB4 /\ fst (op_ror Byte (fst (op_rol Byte 0x96 3 0)) 3 F_CF) = 0x96.
Proof.
  split; [reflexivity|]. apply (rotate_correct Byte 0x96 3 0 F_CF); [unfold in_word; simpl|]; lia.
Defined.

Lemma rotate_carry_correct_witness :
  let l := op_rcl Word 0x8001 5 F_CF in
  fst l = 0x0038 /\ fst (op_rcr Word (fst l) 5 (snd l)) = 0x8001.
Proof.
  split; [reflexivity|].
  exact (proj1 (proj1 (proj2 (proj2 (rotate_carry_correct Word 0x8001 5 F_CF
    ltac:(unfold in_word; simpl; lia) ltac:(lia) ltac:(vm_compute; reflexivity)))))).
Defined.

Lemma shift_correct_witness :
  fst (op_shl Long 0xC0000001 1 0) = 0x80000002 /\
  shifted 32 1 0x80000002 true false 0 (op_shl Long 0xC0000001 1 0).
Proof.
  split; [reflexivity|].
  exact (proj1 (shift_correct Long 0xC0000001 1 0 ltac:(unfold in_word; simpl; lia) ltac:(lia))).
Defined.

Lemma double_shift_correct_witness :
  fst (op_shld Word 0x1234 0xABCD 4 0) = 0x234A /\
  shifted 16 4 0x234A true false 0 (op_shld Word 0x1234 0xABCD 4 0).
Proof.
  split; [reflexivity|].
  exact (proj1 (double_shift_correct Word 0x1234 0xABCD 4 0 ltac:(easy)
    ltac:(unfold in_word; simpl; lia) ltac:(unfold in_word; simpl; lia) ltac:(simpl; lia))).
Defined.
