(* ===== verification/X86Machine.v ===== *)
(** * The machine of the x86 emulator

    [x86_common/x86emu/x86emu/regs.h] (the register file and its overlapping
    8-, 16- and 32-bit names), the memory and port functions the emulator calls
    through pointers ([X86EMU_setupMemFuncs], [X86EMU_setupPioFuncs] in
    [sys.c]) as the interface [Sys], and the functions [Bios.cc] installs
    ([rdb] to [wrl]) as an instance of it.  The port instructions of [Bios.cc]
    are inline assembly; what they reach, the hardware, is a parameter. *)
From Stdlib Require Import ZArith Lia List Bool.
From S2P Require Import Prelude X86Flags.
Import ListNotations.
Local Open Scope Z_scope.
Local Open Scope state_scope.

(** ** Registers *)

(** The registers kept in an [i386_general_register]: EAX to EDX, then those of
    [i386_special_regs]. *)
Inductive greg := rA | rB | rC | rD | rSP | rBP | rSI | rDI | rIP.

Inductive sreg := CS | DS | SS | ES | FS | GS.

Scheme Equality for greg.
Scheme Equality for sreg.

Record X86EMU_regs := {
  gen : greg -> Z;
  seg : sreg -> Z;
  R_FLG : Z;
  mode : Z;
  intr : Z;
  intno : Z;
  debug : Z
}.

(** The 16-bit and the two 8-bit members of the union [i386_general_register],
    read and written. *)
Definition x_of (e : Z) : Z := u16 e.
Definition l_of (e : Z) : Z := u8 e.
Definition h_of (e : Z) : Z := u8 (Z.shiftr e 8).
Definition x_set (e v : Z) : Z := Z.lor (Z.ldiff e 0xFFFF) (u16 v).
Definition l_set (e v : Z) : Z := Z.lor (Z.ldiff e 0xFF) (u8 v).
Definition h_set (e v : Z) : Z := Z.lor (Z.ldiff e 0xFF00) (Z.shiftl (u8 v) 8).

(** ** The interface to memory and ports *)

Class Sys (W : Type) := {
  sys_rdb : Z -> W -> Z;
  sys_rdw : Z -> W -> Z;
  sys_rdl : Z -> W -> Z;
  sys_wrb : Z -> Z -> W -> W;
  sys_wrw : Z -> Z -> W -> W;
  sys_wrl : Z -> Z -> W -> W;
  sys_inb : Z -> W -> Z * W;
  sys_inw : Z -> W -> Z * W;
  sys_inl : Z -> W -> Z * W;
  sys_outb : Z -> Z -> W -> W;
  sys_outw : Z -> Z -> W -> W;
  sys_outl : Z -> Z -> W -> W
}.

(** Little-endian composition of the bytes at [a]. *)
Definition le16 (b : Z -> Z) (a : Z) : Z := b a + 2 ^ 8 * b (a + 1).
Definition le32 (b : Z -> Z) (a : Z) : Z := le16 b a + 2 ^ 16 * le16 b (a + 2).

(** What the emulator relies on: the memory is bytes, read and written little
    end first. *)
Class SysMemory (W : Type) `{Sys W} := {
  byte_at : W -> Z -> Z;
  byte_at_range : forall w a, in_word 8 (byte_at w a);
  rdb_bytes : forall a w, sys_rdb a w = byte_at w a;
  rdw_bytes : forall a w, sys_rdw a w = le16 (byte_at w) a;
  rdl_bytes : forall a w, sys_rdl a w = le32 (byte_at w) a;
  wrb_bytes : forall a v w b, byte_at (sys_wrb a v w) b =
    if b =? a then wrap 8 v else byte_at w b;
  wrw_bytes : forall a v w b, byte_at (sys_wrw a v w) b =
    if in_range a 2 b then wrap 8 (Z.shiftr v (8 * (b - a))) else byte_at w b;
  wrl_bytes : forall a v w b, byte_at (sys_wrl a v w) b =
    if in_range a 4 b then wrap 8 (Z.shiftr v (8 * (b - a))) else byte_at w b
}.

(** ** The functions of Bios.cc *)

Section Bios.

(** The devices behind the ports. *)
Context {P : Type}.
Variables (port_in : Z -> Z -> P -> Z * P) (port_out : Z -> Z -> Z -> P -> P).

Record bios_world := { ram : mem; ports : P }.

(** The bytes of a [u16] or [u32] access through a pointer. *)
Definition ram_byte (m : mem) (a : Z) : Z := u8 (m a).

Definition rdb (addr : Z) (w : bios_world) : Z := ram_byte (ram w) addr.
Definition rdw (addr : Z) (w : bios_world) : Z := le16 (ram_byte (ram w)) addr.
Definition rdl (addr : Z) (w : bios_world) : Z := le32 (ram_byte (ram w)) addr.

Definition store_bytes (n addr val : Z) (w : bios_world) : bios_world :=
  {| ram := fun b => if in_range addr n b then u8 (Z.shiftr val (8 * (b - addr))) else ram w b;
     ports := ports w |}.

Definition wrb (addr val : Z) (w : bios_world) : bios_world := store_bytes 1 addr val w.
Definition wrw (addr val : Z) (w : bios_world) : bios_world := store_bytes 2 addr val w.
Definition wrl (addr val : Z) (w : bios_world) : bios_world := store_bytes 4 addr val w.

Definition port_read (n addr : Z) (w : bios_world) : Z * bios_world :=
  let (v, p) := port_in n addr (ports w) in (v, {| ram := ram w; ports := p |}).

Definition port_write (n addr val : Z) (w : bios_world) : bios_world :=
  {| ram := ram w; ports := port_out n addr val (ports w) |}.

#[global] Instance bios_sys : Sys bios_world := {
  sys_rdb := rdb; sys_rdw := rdw; sys_rdl := rdl;
  sys_wrb := wrb; sys_wrw := wrw; sys_wrl := wrl;
  sys_inb := port_read 1; sys_inw := port_read 2; sys_inl := port_read 4;
  sys_outb := port_write 1; sys_outw := port_write 2; sys_outl := port_write 4
}.

Lemma store_bytes_byte n addr val w b :
  ram_byte (ram (store_bytes n addr val w)) b =
  if in_range addr n b then wrap 8 (Z.shiftr val (8 * (b - addr))) else ram_byte (ram w) b.
Proof. unfold ram_byte, store_bytes, u8; cbn [ram]. destruct (in_range addr n b); [apply wrap_idem|reflexivity]. Qed.

#[global, refine] Instance bios_memory : SysMemory bios_world := {
  byte_at := fun w => ram_byte (ram w)
}.
Proof.
  - intros w a. now apply wrap_range.
  - reflexivity.
  - reflexivity.
  - reflexivity.
  - intros a v w b. unfold sys_wrb; cbn [bios_sys]. unfold wrb. rewrite store_bytes_byte.
    destruct (in_range_spec a 1 b); destruct (Z.eqb_spec b a); try lia. subst. now rewrite Z.sub_diag, Z.mul_0_r, Z.shiftr_0_r.
  - intros a v w b. apply store_bytes_byte.
  - intros a v w b. apply store_bytes_byte.
Defined.

End Bios.

(** ** The emulator state *)

Record Emu (W : Type) := { x86 : X86EMU_regs; world : W }.
Arguments x86 {W} _.
Arguments world {W} _.
Arguments Build_Emu {W} _ _.

Definition upd_gen (m : X86EMU_regs) (r : greg) (v : Z) : X86EMU_regs :=
  {| gen := fun r' => if greg_beq r' r then v else gen m r'; seg := seg m; R_FLG := R_FLG m;
     mode := mode m; intr := intr m; intno := intno m; debug := debug m |}.
Definition upd_seg (m : X86EMU_regs) (r : sreg) (v : Z) : X86EMU_regs :=
  {| gen := gen m; seg := fun r' => if sreg_beq r' r then v else seg m r'; R_FLG := R_FLG m;
     mode := mode m; intr := intr m; intno := intno m; debug := debug m |}.
Definition upd_FLG (m : X86EMU_regs) (v : Z) : X86EMU_regs :=
  {| gen := gen m; seg := seg m; R_FLG := v; mode := mode m; intr := intr m; intno := intno m;
     debug := debug m |}.
Definition upd_mode (m : X86EMU_regs) (v : Z) : X86EMU_regs :=
  {| gen := gen m; seg := seg m; R_FLG := R_FLG m; mode := v; intr := intr m; intno := intno m;
     debug := debug m |}.
Definition upd_intr (m : X86EMU_regs) (i n : Z) : X86EMU_regs :=
  {| gen := gen m; seg := seg m; R_FLG := R_FLG m; mode := mode m; intr := i; intno := n;
     debug := debug m |}.
Definition upd_debug (m : X86EMU_regs) (v : Z) : X86EMU_regs :=
  {| gen := gen m; seg := seg m; R_FLG := R_FLG m; mode := mode m; intr := intr m; intno := intno m;
     debug := v |}.

(** A computation on the emulator state. *)
Definition Run (W A : Type) : Type := State (Emu W) A.

Section Access.
Context {W : Type} {sys : Sys W}.
Local Abbreviation X := (Run W).

Definition get {A} (f : X86EMU_regs -> A) : X A := fun s => (f (x86 s), s).
Definition put (f : X86EMU_regs -> X86EMU_regs) : X unit :=
  fun s => (tt, {| x86 := f (x86 s); world := world s |}).

(** A flag operation of [prim_ops.c], run on [M.x86.R_FLG]. *)
Definition on_flags {A} (m : Flags A) : X A :=
  fun s => let (a, FLG) := m (R_FLG (x86 s)) in
           (a, {| x86 := upd_FLG (x86 s) FLG; world := world s |}).

(** [M.x86.R_EAX], [R_AX], [R_AL], [R_AH] and their like. *)
Definition e_reg (r : greg) : X Z := get (fun m => gen m r).
Definition x_reg (r : greg) : X Z := get (fun m => x_of (gen m r)).
Definition l_reg (r : greg) : X Z := get (fun m => l_of (gen m r)).
Definition h_reg (r : greg) : X Z := get (fun m => h_of (gen m r)).
Definition s_reg (r : sreg) : X Z := get (fun m => seg m r).
Definition set_e (r : greg) (v : Z) : X unit := put (fun m => upd_gen m r (u32 v)).
Definition set_x (r : greg) (v : Z) : X unit := put (fun m => upd_gen m r (x_set (gen m r) v)).
Definition set_l (r : greg) (v : Z) : X unit := put (fun m => upd_gen m r (l_set (gen m r) v)).
Definition set_h (r : greg) (v : Z) : X unit := put (fun m => upd_gen m r (h_set (gen m r) v)).
Definition set_s (r : sreg) (v : Z) : X unit := put (fun m => upd_seg m r (u16 v)).

Definition set_mode (f : Z -> Z) : X unit := put (fun m => upd_mode m (f (mode m))).

Definition load (f : Z -> W -> Z) (addr : Z) : X Z := fun s => (f (u32 addr) (world s), s).
Definition store (f : Z -> Z -> W -> W) (addr val : Z) : X unit :=
  fun s => (tt, {| x86 := x86 s; world := f (u32 addr) val (world s) |}).
Definition input (f : Z -> W -> Z * W) (port : Z) : X Z :=
  fun s => let (v, w) := f port (world s) in (v, {| x86 := x86 s; world := w |}).
Definition output (f : Z -> Z -> W -> W) (port val : Z) : X unit :=
  fun s => (tt, {| x86 := x86 s; world := f port val (world s) |}).

End Access.
