(* ===== verification/X86Decode.v ===== *)
(** * Instruction fetch, addressing and interrupts of the x86 emulator

    [x86_common/x86emu/decode.c], [push_word] to [pop_long] of [prim_ops.c],
    [X86EMU_prepareForInt] of [sys.c] and [x86emuOp_iret] of [ops.c], over the
    interface of [X86Machine].  The tracing macros ([DECODE_PRINTF], [DB],
    [TRACE_AND_STEP] and their like) expand to nothing in the kernel's build and
    have no counterpart. *)
From Stdlib Require Import ZArith Lia List Bool.
From S2P Require Import Prelude X86Flags X86Machine.
Import ListNotations.
Local Open Scope Z_scope.
Local Open Scope state_scope.

Definition SYSMODE_SEG_DS_SS := 0x00000001.
Definition SYSMODE_SEGOVR_CS := 0x00000002.
Definition SYSMODE_SEGOVR_DS := 0x00000004.
Definition SYSMODE_SEGOVR_ES := 0x00000008.
Definition SYSMODE_SEGOVR_FS := 0x00000010.
Definition SYSMODE_SEGOVR_GS := 0x00000020.
Definition SYSMODE_SEGOVR_SS := 0x00000040.
Definition SYSMODE_PREFIX_REPE := 0x00000080.
Definition SYSMODE_PREFIX_REPNE := 0x00000100.
Definition SYSMODE_PREFIX_DATA := 0x00000200.
Definition SYSMODE_PREFIX_ADDR := 0x00000400.
Definition SYSMODE_SEGMASK := 0x7f.
Definition SYSMODE_CLRMASK := 0x67f.

Definition INTR_SYNCH := 0x1.
Definition INTR_ASYNCH := 0x2.
Definition INTR_HALTED := 0x4.

Definition DEBUG_EXIT := 0x010000.

Section Decode.
Context {W : Type} {sys : Sys W}.
Local Abbreviation X := (Run W).

(** [_X86EMU_intrTab]: the handlers the embedding program installs. *)
Variable intrTab : Z -> option (Z -> X unit).

Definition X86EMU_halt_sys : X unit := put (fun m => upd_intr m (Z.lor (intr m) INTR_HALTED) (intno m)).
Definition HALT_SYS : X unit := X86EMU_halt_sys.

Definition x86emu_intr_raise (intrnum : Z) : X unit :=
  put (fun m => upd_intr m (Z.lor (intr m) INTR_SYNCH) (u8 intrnum)).

(** ** The stack *)

Definition mem_access_word (addr : Z) : X Z := load sys_rdw addr.

Definition push_word (w : Z) : X unit :=
  sp <- x_reg rSP ;; set_x rSP (sp - 2) ;;
  ss <- s_reg SS ;; sp <- x_reg rSP ;; store sys_wrw (Z.shiftl ss 4 + sp) (u16 w).

Definition push_long (w : Z) : X unit :=
  sp <- x_reg rSP ;; set_x rSP (sp - 4) ;;
  ss <- s_reg SS ;; sp <- x_reg rSP ;; store sys_wrl (Z.shiftl ss 4 + sp) (u32 w).

Definition pop_word : X Z :=
  ss <- s_reg SS ;; sp <- x_reg rSP ;; res <- load sys_rdw (Z.shiftl ss 4 + sp) ;;
  sp <- x_reg rSP ;; set_x rSP (sp + 2) ;; ret res.

Definition pop_long : X Z :=
  ss <- s_reg SS ;; sp <- x_reg rSP ;; res <- load sys_rdl (Z.shiftl ss 4 + sp) ;;
  sp <- x_reg rSP ;; set_x rSP (sp + 4) ;; ret res.

(** ** Interrupts *)

Definition X86EMU_prepareForInt (num : Z) : X unit :=
  f <- get R_FLG ;; push_word (u16 f) ;;
  on_flags (CLEAR_FLAG F_IF) ;;
  on_flags (CLEAR_FLAG F_TF) ;;
  cs <- s_reg CS ;; push_word cs ;;
  v <- mem_access_word (num * 4 + 2) ;; set_s CS v ;;
  ip <- x_reg rIP ;; push_word ip ;;
  v <- mem_access_word (num * 4) ;; set_x rIP v ;;
  put (fun m => upd_intr m 0 (intno m)).

Definition x86emu_intr_handle : X unit :=
  i <- get intr ;;
  if nz (Z.land i INTR_SYNCH) then
    n <- get intno ;;
    match intrTab n with
    | Some f => f n
    | None =>
        f <- get R_FLG ;; push_word (u16 f) ;;
        on_flags (CLEAR_FLAG F_IF) ;;
        on_flags (CLEAR_FLAG F_TF) ;;
        cs <- s_reg CS ;; push_word cs ;;
        v <- mem_access_word (n * 4 + 2) ;; set_s CS v ;;
        ip <- x_reg rIP ;; push_word ip ;;
        v <- mem_access_word (n * 4) ;; set_x rIP v ;;
        put (fun m => upd_intr m 0 (intno m))
    end
  else ret tt.

Definition DECODE_CLEAR_SEGOVR : X unit := set_mode (fun m => Z.ldiff m SYSMODE_CLRMASK).

Definition x86emuOp_iret (op1 : Z) : X unit :=
  v <- pop_word ;; set_x rIP v ;;
  v <- pop_word ;; set_s CS v ;;
  v <- pop_word ;; put (fun m => upd_FLG m v) ;;
  DECODE_CLEAR_SEGOVR.

(** ** Instruction fetch *)

Definition fetch_byte_imm : X Z :=
  cs <- s_reg CS ;; ip <- x_reg rIP ;; set_x rIP (ip + 1) ;; load sys_rdb (Z.shiftl cs 4 + ip).

Definition fetch_word_imm : X Z :=
  cs <- s_reg CS ;; ip <- x_reg rIP ;; fetched <- load sys_rdw (Z.shiftl cs 4 + ip) ;;
  ip <- x_reg rIP ;; set_x rIP (ip + 2) ;; ret fetched.

Definition fetch_long_imm : X Z :=
  cs <- s_reg CS ;; ip <- x_reg rIP ;; fetched <- load sys_rdl (Z.shiftl cs 4 + ip) ;;
  ip <- x_reg rIP ;; set_x rIP (ip + 4) ;; ret fetched.

Definition fetch_decode_modrm : X (Z * Z * Z) :=
  fetched <- fetch_byte_imm ;;
  ret (Z.land (Z.shiftr fetched 6) 0x03, Z.land (Z.shiftr fetched 3) 0x07, Z.land fetched 0x07).

(** ** Data access *)

Definition get_data_segment : X Z :=
  md <- get mode ;;
  match Z.land md SYSMODE_SEGMASK with
  | 0x00 | 0x04 | 0x05 => s_reg DS
  | 0x01 => s_reg SS
  | 0x02 | 0x03 => s_reg CS
  | 0x08 | 0x09 => s_reg ES
  | 0x10 | 0x11 => s_reg FS
  | 0x20 | 0x21 => s_reg GS
  | 0x40 | 0x41 => s_reg SS
  | _ => HALT_SYS ;; ret 0
  end.

Definition fetch_data_byte (offset : Z) : X Z :=
  sg <- get_data_segment ;; load sys_rdb (Z.shiftl sg 4 + offset).
Definition fetch_data_word (offset : Z) : X Z :=
  sg <- get_data_segment ;; load sys_rdw (Z.shiftl sg 4 + offset).
Definition fetch_data_long (offset : Z) : X Z :=
  sg <- get_data_segment ;; load sys_rdl (Z.shiftl sg 4 + offset).

Definition fetch_data_byte_abs (segment offset : Z) : X Z := load sys_rdb (Z.shiftl segment 4 + offset).
Definition fetch_data_word_abs (segment offset : Z) : X Z := load sys_rdw (Z.shiftl segment 4 + offset).
Definition fetch_data_long_abs (segment offset : Z) : X Z := load sys_rdl (Z.shiftl segment 4 + offset).

Definition store_data_byte (offset val : Z) : X unit :=
  sg <- get_data_segment ;; store sys_wrb (Z.shiftl sg 4 + offset) (u8 val).
Definition store_data_word (offset val : Z) : X unit :=
  sg <- get_data_segment ;; store sys_wrw (Z.shiftl sg 4 + offset) (u16 val).
Definition store_data_long (offset val : Z) : X unit :=
  sg <- get_data_segment ;; store sys_wrl (Z.shiftl sg 4 + offset) (u32 val).

Definition store_data_byte_abs (segment offset val : Z) : X unit :=
  store sys_wrb (Z.shiftl segment 4 + offset) (u8 val).
Definition store_data_word_abs (segment offset val : Z) : X unit :=
  store sys_wrw (Z.shiftl segment 4 + offset) (u16 val).
Definition store_data_long_abs (segment offset val : Z) : X unit :=
  store sys_wrl (Z.shiftl segment 4 + offset) (u32 val).

(** ** Register operands *)

(** The pointers [decode_rm_byte_register] returns. *)
Inductive breg := Lo (r : greg) | Hi (r : greg).

(** [HALT_SYS] and a null pointer: the callers of the source dereference the
    result without a test, so [None] is a fault. *)
Definition decode_rm_byte_register (reg : Z) : X (option breg) :=
  match reg with
  | 0 => ret (Some (Lo rA))
  | 1 => ret (Some (Lo rC))
  | 2 => ret (Some (Lo rD))
  | 3 => ret (Some (Lo rB))
  | 4 => ret (Some (Hi rA))
  | 5 => ret (Some (Hi rC))
  | 6 => ret (Some (Hi rD))
  | 7 => ret (Some (Hi rB))
  | _ => HALT_SYS ;; ret None
  end.

Definition decode_rm_word_register (reg : Z) : X (option greg) :=
  match reg with
  | 0 => ret (Some rA)
  | 1 => ret (Some rC)
  | 2 => ret (Some rD)
  | 3 => ret (Some rB)
  | 4 => ret (Some rSP)
  | 5 => ret (Some rBP)
  | 6 => ret (Some rSI)
  | 7 => ret (Some rDI)
  | _ => HALT_SYS ;; ret None
  end.

Definition decode_rm_long_register (reg : Z) : X (option greg) :=
  match reg with
  | 0 => ret (Some rA)
  | 1 => ret (Some rC)
  | 2 => ret (Some rD)
  | 3 => ret (Some rB)
  | 4 => ret (Some rSP)
  | 5 => ret (Some rBP)
  | 6 => ret (Some rSI)
  | 7 => ret (Some rDI)
  | _ => HALT_SYS ;; ret None
  end.

Definition decode_rm_seg_register (reg : Z) : X (option sreg) :=
  match reg with
  | 0 => ret (Some ES)
  | 1 => ret (Some CS)
  | 2 => ret (Some SS)
  | 3 => ret (Some DS)
  | 4 => ret (Some FS)
  | 5 => ret (Some GS)
  | _ => HALT_SYS ;; ret None
  end.

(** ** Memory operands *)

Definition stack_segment : X unit := set_mode (fun m => Z.lor m SYSMODE_SEG_DS_SS).

Definition decode_sib_address (sib md : Z) : X Z :=
  base <- match Z.land sib 0x07 with
          | 0 => e_reg rA
          | 1 => e_reg rC
          | 2 => e_reg rD
          | 3 => e_reg rB
          | 4 => base <- e_reg rSP ;; stack_segment ;; ret base
          | 5 => if md =? 0 then fetch_long_imm
                 else base <- e_reg rSP ;; stack_segment ;; ret base
          | 6 => e_reg rSI
          | 7 => e_reg rDI
          | _ => ret 0
          end ;;
  i <- match Z.land (Z.shiftr sib 3) 0x07 with
       | 0 => e_reg rA
       | 1 => e_reg rC
       | 2 => e_reg rD
       | 3 => e_reg rB
       | 4 => ret 0
       | 5 => e_reg rBP
       | 6 => e_reg rSI
       | 7 => e_reg rDI
       | _ => ret 0
       end ;;
  let scale := Z.shiftl 1 (Z.land (Z.shiftr sib 6) 0x03) in
  ret (u32 (base + u32 (i * scale))).

(** [a + b + displacement] of the 16-bit modes. *)
Definition x_sum (a b : greg) (displacement : Z) : X Z :=
  va <- x_reg a ;; vb <- x_reg b ;; ret (Z.land (u32 (va + vb + displacement)) 0xffff).
Definition x_off (a : greg) (displacement : Z) : X Z :=
  va <- x_reg a ;; ret (Z.land (u32 (va + displacement)) 0xffff).
(** [reg + displacement] of the 32-bit modes. *)
Definition e_off (a : greg) (displacement : Z) : X Z :=
  va <- e_reg a ;; ret (u32 (va + displacement)).

Definition decode_rm00_address (rm : Z) : X Z :=
  md <- get mode ;;
  if nz (Z.land md SYSMODE_PREFIX_ADDR) then
    match rm with
    | 0 => e_reg rA
    | 1 => e_reg rC
    | 2 => e_reg rD
    | 3 => e_reg rB
    | 4 => sib <- fetch_byte_imm ;; decode_sib_address sib 0
    | 5 => offset <- fetch_long_imm ;; ret offset
    | 6 => e_reg rSI
    | 7 => e_reg rDI
    | _ => HALT_SYS ;; ret 0
    end
  else
    match rm with
    | 0 => x_sum rB rSI 0
    | 1 => x_sum rB rDI 0
    | 2 => stack_segment ;; x_sum rBP rSI 0
    | 3 => stack_segment ;; x_sum rBP rDI 0
    | 4 => x_reg rSI
    | 5 => x_reg rDI
    | 6 => offset <- fetch_word_imm ;; ret offset
    | 7 => x_reg rB
    | _ => HALT_SYS ;; ret 0
    end.

Definition decode_rm01_address (rm : Z) : X Z :=
  md <- get mode ;;
  displacement <- (if negb (nz (Z.land md SYSMODE_PREFIX_ADDR) && (rm =? 4))
                   then d <- fetch_byte_imm ;; ret (signed 8 d) else ret 0) ;;
  if nz (Z.land md SYSMODE_PREFIX_ADDR) then
    match rm with
    | 0 => e_off rA displacement
    | 1 => e_off rC displacement
    | 2 => e_off rD displacement
    | 3 => e_off rB displacement
    | 4 => sib <- fetch_byte_imm ;; d <- fetch_byte_imm ;;
           let displacement := signed 8 d in
           a <- decode_sib_address sib 1 ;; ret (u32 (a + displacement))
    | 5 => e_off rBP displacement
    | 6 => e_off rSI displacement
    | 7 => e_off rDI displacement
    | _ => HALT_SYS ;; ret 0
    end
  else
    match rm with
    | 0 => x_sum rB rSI displacement
    | 1 => x_sum rB rDI displacement
    | 2 => stack_segment ;; x_sum rBP rSI displacement
    | 3 => stack_segment ;; x_sum rBP rDI displacement
    | 4 => x_off rSI displacement
    | 5 => x_off rDI displacement
    | 6 => stack_segment ;; x_off rBP displacement
    | 7 => x_off rB displacement
    | _ => HALT_SYS ;; ret 0
    end.

Definition decode_rm10_address (rm : Z) : X Z :=
  md <- get mode ;;
  displacement <- (if negb (nz (Z.land md SYSMODE_PREFIX_ADDR)) then fetch_word_imm
                   else if negb (rm =? 4) then fetch_long_imm else ret 0) ;;
  if nz (Z.land md SYSMODE_PREFIX_ADDR) then
    match rm with
    | 0 => e_off rA displacement
    | 1 => e_off rC displacement
    | 2 => stack_segment ;; e_off rD displacement
    | 3 => e_off rB displacement
    | 4 => sib <- fetch_byte_imm ;; displacement <- fetch_long_imm ;;
           a <- decode_sib_address sib 2 ;; ret (u32 (a + displacement))
    | 5 => e_off rBP displacement
    | 6 => e_off rSI displacement
    | 7 => e_off rDI displacement
    | _ => HALT_SYS ;; ret 0
    end
  else
    match rm with
    | 0 => x_sum rB rSI displacement
    | 1 => x_sum rB rDI displacement
    | 2 => stack_segment ;; x_sum rBP rSI displacement
    | 3 => stack_segment ;; x_sum rBP rDI displacement
    | 4 => x_off rSI displacement
    | 5 => x_off rDI displacement
    | 6 => stack_segment ;; x_off rBP displacement
    | 7 => x_off rB displacement
    | _ => HALT_SYS ;; ret 0
    end.

End Decode.

(** ** Overlapping registers *)

Lemma ldiff_low e n : 0 <= n -> Z.ldiff e (Z.ones n) = e - e mod 2 ^ n.
Proof.
  intros Hn. rewrite Z.ldiff_ones_r, Z.shiftl_mul_pow2, Z.shiftr_div_pow2 by easy.
  pose proof (Z.div_mod e (2 ^ n)). pose proof (Z.pow_nonzero 2 n). lia.
Qed.

Lemma x_of_x_set e v : x_of (x_set e v) = u16 v.
Proof.
  unfold x_of, x_set. apply Z.bits_inj'. intros i Hi. unfold u16. rewrite !testbit_wrap by lia.
  destruct (Z.ltb_spec i 16); [|reflexivity]. cbn [andb].
  rewrite Z.lor_spec, Z.ldiff_spec, testbit_wrap by lia. change 0xFFFF with (Z.ones 16).
  rewrite Z.testbit_ones by lia. destruct (Z.ltb_spec i 16); [|lia].
  destruct (Z.leb_spec 0 i); [|lia]. cbn [andb negb]. now rewrite andb_false_r.
Qed.

Lemma x_set_x_set e v v' : x_set (x_set e v) v' = x_set e v'.
Proof.
  unfold x_set. apply Z.bits_inj'. intros i Hi. unfold u16.
  rewrite !Z.lor_spec, !Z.ldiff_spec, Z.lor_spec, Z.ldiff_spec, !testbit_wrap by lia.
  change 0xFFFF with (Z.ones 16). rewrite Z.testbit_ones by lia.
  destruct (Z.ltb_spec i 16), (Z.leb_spec 0 i); try lia; cbn [andb negb orb];
    now rewrite ?andb_true_r, ?andb_false_r, ?orb_false_r.
Qed.

Lemma x_set_x_of e v : v mod 2 ^ 16 = e mod 2 ^ 16 -> x_set e v = e.
Proof.
  intros E. unfold x_set, u16, wrap. rewrite E. apply Z.bits_inj'. intros i Hi.
  fold (wrap 16 e). rewrite Z.lor_spec, Z.ldiff_spec, testbit_wrap by lia.
  change 0xFFFF with (Z.ones 16). rewrite Z.testbit_ones by lia.
  destruct (Z.ltb_spec i 16), (Z.leb_spec 0 i); try lia; cbn [andb negb orb];
    now rewrite ?andb_true_r, ?andb_false_r, ?orb_false_r.
Qed.

(** ** Reading back what was written *)

Section Memory.
Context {W : Type} {sys : Sys W} {laws : SysMemory W}.

Lemma le16_bytes b a v : (forall k, 0 <= k < 2 -> b (a + k) = wrap 8 (Z.shiftr v (8 * k))) -> le16 b a = u16 v.
Proof.
  intros H. unfold le16. rewrite <- (Z.add_0_r a) at 1. rewrite !H by lia.
  change (8 * 0) with 0. change (8 * 1) with 8. rewrite Z.shiftr_0_r, Z.shiftr_div_pow2 by lia.
  unfold u16, wrap. change (2 ^ 8) with 256. change (2 ^ 16) with 65536. zlia.
Qed.

Lemma rdw_wrw_same a v w : sys_rdw a (sys_wrw a v w) = u16 v.
Proof.
  rewrite rdw_bytes. apply le16_bytes. intros k Hk. rewrite wrw_bytes.
  rcase; [|lia]. do 2 f_equal. lia.
Qed.

Lemma rdw_wrw_other a b v w : a + 2 <= b \/ b + 2 <= a -> sys_rdw a (sys_wrw b v w) = sys_rdw a w.
Proof. intros H. rewrite !rdw_bytes. unfold le16. rewrite !wrw_bytes. rcase; lia || reflexivity. Qed.

Lemma rdl_wrl_same a v w : in_word 32 v -> sys_rdl a (sys_wrl a v w) = v.
Proof.
  intros Hv. rewrite rdl_bytes. unfold le32.
  rewrite (le16_bytes _ a v), (le16_bytes _ (a + 2) (Z.shiftr v 16)).
  - rewrite Z.shiftr_div_pow2 by lia. unfold in_word in Hv. unfold u16, wrap.
    change (2 ^ 32) with 4294967296 in Hv. change (2 ^ 16) with 65536. zlia.
  - intros k Hk. rewrite wrl_bytes, Z.shiftr_shiftr by lia. rcase; [|lia]. do 2 f_equal. lia.
  - intros k Hk. rewrite wrl_bytes. rcase; [|lia]. do 2 f_equal. lia.
Qed.

Lemma rdb_wrb_same a v w : sys_rdb a (sys_wrb a v w) = wrap 8 v.
Proof. now rewrite rdb_bytes, wrb_bytes, Z.eqb_refl. Qed.

(** ** The stack *)

(** The linear address of [SS:off]. *)
Definition linear (sg off : Z) : Z := u32 (Z.shiftl sg 4 + off).

Definition sp_of (s : Emu W) : Z := x_of (gen (x86 s) rSP).

Lemma push_word_run w s :
  push_word w s =
  (tt, {| x86 := upd_gen (x86 s) rSP (x_set (gen (x86 s) rSP) (sp_of s - 2));
          world := sys_wrw (linear (seg (x86 s) SS) (u16 (sp_of s - 2))) (u16 w) (world s) |}).
Proof. unfold push_word, bind, x_reg, set_x, s_reg, get, put, store. cbn. now rewrite x_of_x_set. Qed.

Lemma pop_word_run s :
  pop_word s =
  (sys_rdw (linear (seg (x86 s) SS) (sp_of s)) (world s),
   {| x86 := upd_gen (x86 s) rSP (x_set (gen (x86 s) rSP) (sp_of s + 2)); world := world s |}).
Proof. reflexivity. Qed.

Lemma push_long_run w s :
  push_long w s =
  (tt, {| x86 := upd_gen (x86 s) rSP (x_set (gen (x86 s) rSP) (sp_of s - 4));
          world := sys_wrl (linear (seg (x86 s) SS) (u16 (sp_of s - 4))) (u32 w) (world s) |}).
Proof. unfold push_long, bind, x_reg, set_x, s_reg, get, put, store. cbn. now rewrite x_of_x_set. Qed.

Lemma pop_long_run s :
  pop_long s =
  (sys_rdl (linear (seg (x86 s) SS) (sp_of s)) (world s),
   {| x86 := upd_gen (x86 s) rSP (x_set (gen (x86 s) rSP) (sp_of s + 4)); world := world s |}).
Proof. reflexivity. Qed.

(** The same registers, as values. *)
Record same_regs (m m' : X86EMU_regs) : Prop := {
  same_gen : forall r, gen m r = gen m' r;
  same_seg : forall r, seg m r = seg m' r;
  same_FLG : R_FLG m = R_FLG m';
  same_mode : mode m = mode m';
  same_intr : intr m = intr m' /\ intno m = intno m' /\ debug m = debug m'
}.

(** Moving the stack pointer down and up again. *)
Lemma sp_down_up e n : x_set (x_set e (x_of e - n)) (u16 (x_of e - n) + n) = e.
Proof.
  rewrite x_set_x_set. apply x_set_x_of. unfold u16, x_of, wrap.
  rewrite Z.add_mod_idemp_l, Z.sub_add by lia. apply Zmod_mod.
Qed.

Lemma u16_add a b c : u16 (u16 (a + b) + c) = u16 (a + (b + c)).
Proof. unfold u16. now rewrite wrap_add_idemp_l, Z.add_assoc. Qed.

Lemma u16_sub a b c : u16 (u16 (a - b) - c) = u16 (a - (b + c)).
Proof. unfold u16, wrap. rewrite Zminus_mod_idemp_l. f_equal. lia. Qed.

Lemma x_of_u16 e : u16 (x_of e) = x_of e.
Proof. apply wrap_idem. Qed.

Lemma x_set_u16 e v : x_set e (u16 v) = x_set e v.
Proof. unfold x_set, u16. now rewrite wrap_idem. Qed.

Lemma on_flags_clear F (s : Emu W) :
  on_flags (CLEAR_FLAG F) s = (tt, {| x86 := upd_FLG (x86 s) (Z.ldiff (R_FLG (x86 s)) F); world := world s |}).
Proof. reflexivity. Qed.

Ltac xcbn :=
  cbn [fst snd x86 world gen seg R_FLG mode intr intno debug
       get put set_x set_s set_e set_mode s_reg x_reg e_reg on_flags load store
       upd_gen upd_seg upd_FLG upd_mode upd_intr upd_debug greg_beq sreg_beq].

(** Run a computation built from the machine's operations, keeping the memory
    accesses and the stack operations as they are. *)
Ltac xrun :=
  unfold bind, ret;
  repeat (xcbn; first [rewrite push_word_run | rewrite pop_word_run | rewrite on_flags_clear]);
  unfold sp_of; xcbn.

(** What [iret] leaves: the three words it pops, and the stack pointer. *)
Lemma iret_run op1 s :
  let m := x86 s in
  let m' := x86 (snd (x86emuOp_iret op1 s)) in
  let a k := linear (seg m SS) (u16 (x_of (gen m rSP) + k)) in
  (forall r, gen m' r =
     if greg_beq r rIP then x_set (gen m rIP) (sys_rdw (a 0) (world s))
     else if greg_beq r rSP then x_set (gen m rSP) (x_of (gen m rSP) + 6) else gen m r) /\
  (forall r, seg m' r = if sreg_beq r CS then u16 (sys_rdw (a 2) (world s)) else seg m r) /\
  R_FLG m' = sys_rdw (a 4) (world s) /\
  world (snd (x86emuOp_iret op1 s)) = world s.
Proof.
  cbv zeta. unfold x86emuOp_iret, DECODE_CLEAR_SEGOVR. xrun.
  rewrite Z.add_0_r, x_of_u16, !x_of_x_set, !x_set_x_set, !u16_add.
  split; [|split; [intros r; destruct r|split]; reflexivity].
  intros r; destruct r; cbn [greg_beq]; try reflexivity.
  rewrite <- x_set_u16, u16_add. now rewrite x_set_u16.
Qed.

(** The stack and the code pointer [X86EMU_prepareForInt] leaves. *)
Lemma prepare_run num s :
  let m := x86 s in
  let s' := snd (X86EMU_prepareForInt num s) in
  let a k := linear (seg m SS) (u16 (x_of (gen m rSP) - k)) in
  let w2 := sys_wrw (a 4) (u16 (seg m CS)) (sys_wrw (a 2) (u16 (u16 (R_FLG m))) (world s)) in
  world s' = sys_wrw (a 6) (u16 (x_of (gen m rIP))) w2 /\
  (forall r, gen (x86 s') r =
     if greg_beq r rIP then x_set (gen m rIP) (sys_rdw (u32 (num * 4)) (world s'))
     else if greg_beq r rSP then x_set (gen m rSP) (x_of (gen m rSP) - 6) else gen m r) /\
  (forall r, seg (x86 s') r = if sreg_beq r CS then u16 (sys_rdw (u32 (num * 4 + 2)) w2) else seg m r) /\
  R_FLG (x86 s') = upd_flag false F_TF (upd_flag false F_IF (R_FLG m)).
Proof.
  cbv zeta. unfold X86EMU_prepareForInt, mem_access_word, load. xrun.
  rewrite !x_of_x_set, !x_set_x_set, !u16_sub.
  split; [reflexivity|]. split; [|split; [intros r; destruct r|]; reflexivity].
  intros r; destruct r; cbn [greg_beq]; try reflexivity.
  rewrite <- x_set_u16, u16_sub. now rewrite x_set_u16.
Qed.

(** Two stack words at different offsets do not overlap. *)
Lemma linear_apart sg sp j k :
  in_word 16 sg -> 2 <= j - k <= 6 ->
  let a := linear sg (u16 (sp - k)) in
  let b := linear sg (u16 (sp - j)) in
  a + 2 <= b \/ b + 2 <= a.
Proof.
  unfold in_word, linear, u16, u32, wrap. intros Hs Hjk. rewrite Z.shiftl_mul_pow2 by lia.
  change (2 ^ 4) with 16. change (2 ^ 16) with 65536 in *. change (2 ^ 32) with 4294967296.
  rewrite !(Z.mod_small (sg * 16 + _)) by zlia. zlia.
Qed.

Lemma u16_word z : in_word 16 (u16 z).
Proof. now apply wrap_range. Qed.

Lemma u16_id z : in_word 16 z -> u16 z = z.
Proof. apply wrap_small. Qed.

(** Three words on the stack, read back. *)
Lemma stack_words sg sp f c i (w : W) :
  in_word 16 sg ->
  let a k := linear sg (u16 (sp - k)) in
  let w' := sys_wrw (a 6) i (sys_wrw (a 4) c (sys_wrw (a 2) f w)) in
  sys_rdw (a 6) w' = u16 i /\ sys_rdw (a 4) w' = u16 c /\ sys_rdw (a 2) w' = u16 f.
Proof.
  intros Hsg. cbv zeta. split; [apply rdw_wrw_same|]. split.
  - rewrite rdw_wrw_other by (apply linear_apart; [easy|lia]). apply rdw_wrw_same.
  - rewrite rdw_wrw_other by (apply linear_apart; [easy|lia]).
    rewrite rdw_wrw_other by (apply linear_apart; [easy|lia]). apply rdw_wrw_same.
Qed.

Lemma u16_back a b c : u16 (u16 (a - b) + c) = u16 (a - (b - c)).
Proof. unfold u16, wrap. rewrite Z.add_mod_idemp_l by lia. f_equal. lia. Qed.

(** A software interrupt and its return.  [X86EMU_prepareForInt] enters the
    handler its vector names, with IF and TF clear, when the three words it
    pushes do not overlap the vector; [iret] from there restores every general
    and segment register, the instruction pointer and the stack pointer
    included, and the low 16 bits of the flags, for every stack pointer,
    wrap-around at the segment's ends included. *)
Theorem interrupt_return num op1 s :
  (forall r, in_word 16 (seg (x86 s) r)) ->
  let s1 := snd (X86EMU_prepareForInt num s) in
  let s2 := snd (x86emuOp_iret op1 s1) in
  ((forall k, let a := linear (seg (x86 s) SS) (u16 (x_of (gen (x86 s) rSP) - k)) in
     (forall v, v = u32 (num * 4) \/ v = u32 (num * 4 + 2) -> v + 2 <= a \/ a + 2 <= v)) ->
   x_of (gen (x86 s1) rIP) = u16 (sys_rdw (u32 (num * 4)) (world s)) /\
   seg (x86 s1) CS = u16 (sys_rdw (u32 (num * 4 + 2)) (world s))) /\
  flag_of (R_FLG (x86 s1)) F_IF = false /\ flag_of (R_FLG (x86 s1)) F_TF = false /\
  (forall r, gen (x86 s2) r = gen (x86 s) r) /\ (forall r, seg (x86 s2) r = seg (x86 s) r) /\
  R_FLG (x86 s2) = u16 (R_FLG (x86 s)).
Proof.
  intros Hseg s1 s2. pose proof (prepare_run num s) as (Hw & Hg & Hs & HF).
  pose proof (iret_run op1 s1) as (Hg' & Hs' & HF' & _).
  fold s1 in Hw, Hg, Hs, HF. fold s2 in Hg', Hs', HF'. cbv zeta in *.
  split.
  { intros Hv. rewrite Hg, Hs, Hw. cbn [greg_beq sreg_beq]. rewrite x_of_x_set.
    now rewrite !rdw_wrw_other by (apply Hv; auto). }
  pose proof (stack_words (seg (x86 s) SS) (x_of (gen (x86 s) rSP)) (u16 (u16 (R_FLG (x86 s))))
    (u16 (seg (x86 s) CS)) (u16 (x_of (gen (x86 s) rIP))) (world s) (Hseg SS)) as (Hi & Hc & Hf).
  rewrite <- Hw in Hi, Hc, Hf.
  rewrite (Hs SS), (Hg rSP) in *. cbn [greg_beq sreg_beq] in *.
  rewrite x_of_x_set in *. rewrite !u16_back in *.
  change (6 - 0) with 6 in *. change (6 - 2) with 4 in *. change (6 - 4) with 2 in *.
  rewrite Hi in Hg'. rewrite Hc in Hs'. rewrite Hf in HF'.
  split; [rewrite HF; now autorewrite with flags|].
  split; [rewrite HF; now autorewrite with flags|].
  split; [|split].
  - intros r. rewrite Hg', !Hg. destruct r; cbn [greg_beq]; try reflexivity.
    + rewrite <- x_set_u16, u16_back, x_set_u16, x_set_x_set, Z.sub_diag, Z.sub_0_r.
      apply x_set_x_of, wrap_idem.
    + rewrite x_set_x_set, !x_of_u16. apply x_set_x_of, wrap_idem.
  - intros r. rewrite Hs', Hs. destruct r; cbn [sreg_beq]; try reflexivity.
    now rewrite !u16_id by (apply Hseg || apply u16_word).
  - rewrite HF'. now rewrite !(u16_id (u16 _)) by apply u16_word.
Qed.

(** Pop undoes push, for words and longs and every stack pointer, the
    wrap-around at 0 included: the value comes back, the registers are restored,
    and only the bytes of the pushed value have changed in memory. *)
Theorem stack_roundtrip w s :
  let s1 := snd (push_word w s) in
  let l1 := snd (push_long w s) in
  (fst (pop_word s1) = u16 w /\ same_regs (x86 (snd (pop_word s1))) (x86 s) /\
   world (snd (pop_word s1)) = world s1 /\
   forall b, in_range (linear (seg (x86 s) SS) (u16 (sp_of s - 2))) 2 b = false ->
     byte_at (world s1) b = byte_at (world s) b) /\
  (fst (pop_long l1) = u32 w /\ same_regs (x86 (snd (pop_long l1))) (x86 s) /\
   world (snd (pop_long l1)) = world l1 /\
   forall b, in_range (linear (seg (x86 s) SS) (u16 (sp_of s - 4))) 4 b = false ->
     byte_at (world l1) b = byte_at (world s) b).
Proof.
  cbv zeta. rewrite push_word_run, push_long_run, pop_word_run, pop_long_run. unfold sp_of. xcbn.
  rewrite !x_of_x_set, !sp_down_up. split; (split; [|split; [|split]]).
  - rewrite rdw_wrw_same. apply u16_id, u16_word.
  - split; xcbn; auto. intros r. destruct r; reflexivity.
  - reflexivity.
  - intros b Hb. now rewrite wrw_bytes, Hb.
  - apply rdl_wrl_same. now apply wrap_range.
  - split; xcbn; auto. intros r. destruct r; reflexivity.
  - reflexivity.
  - intros b Hb. now rewrite wrl_bytes, Hb.
Qed.

(** ** Instruction fetch *)

(** The state after [n] bytes of the instruction stream were consumed. *)
Definition advance (n : Z) (s : Emu W) : Emu W :=
  {| x86 := upd_gen (x86 s) rIP (x_set (gen (x86 s) rIP) (x_of (gen (x86 s) rIP) + n)); world := world s |}.

Definition code_at (s : Emu W) : Z := linear (seg (x86 s) CS) (x_of (gen (x86 s) rIP)).

Lemma fetch_byte_run s : fetch_byte_imm s = (byte_at (world s) (code_at s), advance 1 s).
Proof. unfold fetch_byte_imm, bind, load. xcbn. now rewrite rdb_bytes. Qed.

Lemma fetch_word_run s : fetch_word_imm s = (le16 (byte_at (world s)) (code_at s), advance 2 s).
Proof. unfold fetch_word_imm, bind, ret, load. xcbn. now rewrite rdw_bytes. Qed.

Lemma fetch_long_run s : fetch_long_imm s = (le32 (byte_at (world s)) (code_at s), advance 4 s).
Proof. unfold fetch_long_imm, bind, ret, load. xcbn. now rewrite rdl_bytes. Qed.

Lemma modrm_fields b :
  in_word 8 b ->
  let md := Z.land (Z.shiftr b 6) 0x03 in
  let reg := Z.land (Z.shiftr b 3) 0x07 in
  let rm := Z.land b 0x07 in
  b = 64 * md + 8 * reg + rm /\ 0 <= md < 4 /\ 0 <= reg < 8 /\ 0 <= rm < 8.
Proof.
  intros Hb. change (2 ^ 8) with 256 in *.
  assert (H : (b =? 64 * Z.land (Z.shiftr b 6) 0x03 + 8 * Z.land (Z.shiftr b 3) 0x07 + Z.land b 0x07) &&
    (Z.land (Z.shiftr b 6) 0x03 <? 4) && (Z.land (Z.shiftr b 3) 0x07 <? 8) && (Z.land b 0x07 <? 8) &&
    (0 <=? Z.land (Z.shiftr b 6) 0x03) && (0 <=? Z.land (Z.shiftr b 3) 0x07) && (0 <=? Z.land b 0x07) = true)
    by (byte_cases b Hb).
  rewrite !andb_true_iff, !Z.leb_le, !Z.ltb_lt, Z.eqb_eq in H. cbv zeta. lia.
Qed.

(** Instruction fetch reads exactly the bytes at CS:IP, little end first,
    and advances IP by their number within 16 bits; the modrm fields recombine
    to the byte fetched. *)
Theorem fetch_correct s :
  fetch_byte_imm s = (byte_at (world s) (code_at s), advance 1 s) /\
  fetch_word_imm s = (le16 (byte_at (world s)) (code_at s), advance 2 s) /\
  fetch_long_imm s = (le32 (byte_at (world s)) (code_at s), advance 4 s) /\
  let '(md, reg, rm) := fst (fetch_decode_modrm s) in
  snd (fetch_decode_modrm s) = advance 1 s /\
  byte_at (world s) (code_at s) = 64 * md + 8 * reg + rm /\ 0 <= md < 4 /\ 0 <= reg < 8 /\ 0 <= rm < 8.
Proof.
  split; [apply fetch_byte_run|]. split; [apply fetch_word_run|]. split; [apply fetch_long_run|].
  unfold fetch_decode_modrm, bind, ret. rewrite fetch_byte_run. cbn [fst snd].
  split; [reflexivity|]. apply modrm_fields, byte_at_range.
Qed.

(** ** Memory operands of the 16-bit modes *)

(** The base of the address, by the rm field (6 is BP except with mod 0). *)
Definition base16 (m : X86EMU_regs) (rm : Z) : Z :=
  let r g := x_of (gen m g) in
  match rm with
  | 0 => r rB + r rSI
  | 1 => r rB + r rDI
  | 2 => r rBP + r rSI
  | 3 => r rBP + r rDI
  | 4 => r rSI
  | 5 => r rDI
  | 6 => r rBP
  | _ => r rB
  end.

Definition uses_bp (rm : Z) : bool := (rm =? 2) || (rm =? 3) || (rm =? 6).

(** The stack segment is selected when BP is part of the address. *)
Definition select (bp : bool) (s : Emu W) : Emu W :=
  {| x86 := upd_mode (x86 s) (if bp then Z.lor (mode (x86 s)) SYSMODE_SEG_DS_SS else mode (x86 s));
     world := world s |}.

Lemma land_ffff z : Z.land (u32 z) 0xffff = wrap 16 z.
Proof. now apply land_low. Qed.

Ltac rm_cases rm :=
  assert (rm = 0 \/ rm = 1 \/ rm = 2 \/ rm = 3 \/ rm = 4 \/ rm = 5 \/ rm = 6 \/ rm = 7) as
    [-> | [-> | [-> | [-> | [-> | [-> | [-> | ->]]]]]]] by lia.

Lemma decode16 s rm d n :
  0 <= rm < 8 ->
  (match rm with
   | 0 => x_sum rB rSI d
   | 1 => x_sum rB rDI d
   | 2 => stack_segment ;; x_sum rBP rSI d
   | 3 => stack_segment ;; x_sum rBP rDI d
   | 4 => x_off rSI d
   | 5 => x_off rDI d
   | 6 => stack_segment ;; x_off rBP d
   | 7 => x_off rB d
   | _ => HALT_SYS ;; ret 0
   end) (advance n s) = (wrap 16 (base16 (x86 s) rm + d), select (uses_bp rm) (advance n s)).
Proof.
  intros Hrm. destruct s as [m w]. destruct m.
  rm_cases rm; cbv [x_sum x_off bind ret stack_segment]; xcbn; rewrite land_ffff; reflexivity.
Qed.

Lemma no_mask e : x_of e = wrap 16 (x_of e).
Proof. symmetry. apply wrap_idem. Qed.

(** Memory operands of the 16-bit addressing modes: for every rm field and
    each mod, the address is the base registers' sum plus the displacement
    modulo [2 ^ 16] (a byte displacement sign-extended), exactly the
    displacement bytes are consumed, and the stack segment is selected exactly
    when BP takes part. *)
Theorem effective_address_16 s rm :
  0 <= rm < 8 -> nz (Z.land (mode (x86 s)) SYSMODE_PREFIX_ADDR) = false ->
  let byte := byte_at (world s) (code_at s) in
  let word := le16 (byte_at (world s)) (code_at s) in
  (rm <> 6 -> decode_rm00_address rm s = (wrap 16 (base16 (x86 s) rm), select (uses_bp rm) s)) /\
  decode_rm00_address 6 s = (word, advance 2 s) /\
  decode_rm01_address rm s =
    (wrap 16 (base16 (x86 s) rm + signed 8 byte), select (uses_bp rm) (advance 1 s)) /\
  decode_rm10_address rm s =
    (wrap 16 (base16 (x86 s) rm + word), select (uses_bp rm) (advance 2 s)).
Proof.
  intros Hrm Hm byte word. split; [|split; [|split]].
  - intros H6. unfold decode_rm00_address. unfold bind at 1. xcbn. rewrite Hm.
    destruct s as [m w]. destruct m.
    rm_cases rm; try lia; cbv [x_sum bind ret stack_segment]; xcbn;
      rewrite ?land_ffff, ?Z.add_0_r; try reflexivity; unfold base16; rewrite <- no_mask; reflexivity.
  - unfold decode_rm00_address, bind. xcbn. rewrite Hm, fetch_word_run. reflexivity.
  - unfold decode_rm01_address. unfold bind at 1. xcbn. rewrite Hm. cbn [andb negb].
    unfold bind at 1 2. rewrite fetch_byte_run. unfold ret at 1. now apply decode16.
  - unfold decode_rm10_address. unfold bind at 1. xcbn. rewrite Hm. cbn [negb].
    unfold bind at 1. rewrite fetch_word_run. now apply decode16.
Qed.

(** ** Data segments *)

(** The segment the override bits name, when they name at most one. *)
Definition segment_of (md : Z) : option sreg :=
  match Z.land md SYSMODE_SEGMASK with
  | 0x00 | 0x04 | 0x05 => Some DS
  | 0x02 | 0x03 => Some CS
  | 0x08 | 0x09 => Some ES
  | 0x10 | 0x11 => Some FS
  | 0x20 | 0x21 => Some GS
  | 0x01 | 0x40 | 0x41 => Some SS
  | _ => None
  end.

Lemma segment_run (s : Emu W) r :
  segment_of (mode (x86 s)) = Some r -> get_data_segment s = (seg (x86 s) r, s).
Proof.
  unfold segment_of, get_data_segment, bind. xcbn.
  set (k := Z.land (mode (x86 s)) SYSMODE_SEGMASK). clearbody k.
  intros H.
  repeat (match goal with H : context [match ?p with _ => _ end] |- _ => destruct p end;
          try discriminate; try (injection H as <-; reflexivity)).
Qed.

Lemma segment_halt (s : Emu W) :
  segment_of (mode (x86 s)) = None ->
  fst (get_data_segment s) = 0 /\ nz (Z.land (intr (x86 (snd (get_data_segment s)))) INTR_HALTED) = true.
Proof.
  assert (Hh : nz (Z.land (Z.lor (intr (x86 s)) INTR_HALTED) INTR_HALTED) = true)
    by exact (flag_upd_same true INTR_HALTED (intr (x86 s)) eq_refl).
  unfold segment_of, get_data_segment, bind. xcbn.
  set (k := Z.land (mode (x86 s)) SYSMODE_SEGMASK). clearbody k.
  intros H.
  repeat (match goal with H : context [match ?p with _ => _ end] |- _ => destruct p end;
          try discriminate; try (split; [reflexivity|exact Hh])).
Qed.

(** Data access through a segment.  With at most one override bit, a value
    stored at an offset is fetched back from it, through the segment the
    override (or the BP rule) selects, no register changes and no other byte of
    memory does; with more than one override bit the emulator halts. *)
Theorem data_access (s : Emu W) off v :
  (forall r, segment_of (mode (x86 s)) = Some r ->
   let a := linear (seg (x86 s) r) off in
   (let s' := snd (store_data_byte off v s) in
    fetch_data_byte off s' = (u8 v, s') /\ x86 s' = x86 s /\
    forall b, in_range a 1 b = false -> byte_at (world s') b = byte_at (world s) b) /\
   (let s' := snd (store_data_word off v s) in
    fetch_data_word off s' = (u16 v, s') /\ x86 s' = x86 s /\
    forall b, in_range a 2 b = false -> byte_at (world s') b = byte_at (world s) b) /\
   (let s' := snd (store_data_long off v s) in
    fetch_data_long off s' = (u32 v, s') /\ x86 s' = x86 s /\
    forall b, in_range a 4 b = false -> byte_at (world s') b = byte_at (world s) b)) /\
  (segment_of (mode (x86 s)) = None ->
   nz (Z.land (intr (x86 (snd (fetch_data_byte off s)))) INTR_HALTED) = true).
Proof.
  split.
  - intros r Hr a. unfold store_data_byte, store_data_word, store_data_long,
      fetch_data_byte, fetch_data_word, fetch_data_long, bind, load, store.
    rewrite (segment_run s r Hr). cbn [snd].
    split; [|split]; (rewrite (segment_run _ r) by exact Hr); cbn [x86 world];
      fold (linear (seg (x86 s) r) off); fold a; (split; [|split; [reflexivity|intros b Hb]]).
    + rewrite rdb_wrb_same. unfold u8. now rewrite wrap_idem.
    + rewrite wrb_bytes. destruct (Z.eqb_spec b a); [|reflexivity]. subst.
      unfold in_range in Hb. rewrite Z.leb_refl in Hb. cbn [andb] in Hb. lia.
    + now rewrite rdw_wrw_same, u16_id by apply u16_word.
    + now rewrite wrw_bytes, Hb.
    + rewrite rdl_wrl_same by (now apply wrap_range). reflexivity.
    + now rewrite wrl_bytes, Hb.
  - intros Hn. destruct (segment_halt s Hn) as [_ Hh]. unfold fetch_data_byte, bind, load.
    now destruct (get_data_segment s).
Qed.
End Memory.

(** ** The kernel's instance *)

(** The port functions of [sys.c] that touch no hardware. *)
Definition p_in (n addr : Z) (p : unit) : Z * unit := (0, p).
Definition p_out (n addr val : Z) (p : unit) : unit := p.

#[local] Existing Instance bios_sys.

(** The machine [Bios::Bios] sets up: a stack at 0:7F00 and 256 HLT
    instructions at 0:7C00. *)
Definition bios_init {P} (low : mem) (p : P) : Emu bios_world :=
  {| x86 := {| gen := fun r => match r with rSP => 0x7F00 | rIP => 0x7C00 | _ => 0 end;
               seg := fun _ => 0; R_FLG := 0; mode := 0; intr := 0; intno := 0; debug := 0 |};
     world := {| ram := fun a => if in_range 0x7C00 0x100 a then 0xF4 else low a; ports := p |} |}.

Abbreviation bios := (bios_sys p_in p_out).
Abbreviation bios_laws := (bios_memory p_in p_out).

(** A vector table that sends interrupt 10h to F000:1234. *)
Definition low_memory : mem := fun a =>
  if a =? 0x40 then 0x34 else if a =? 0x41 then 0x12 else if a =? 0x43 then 0xF0 else 0.

Definition boot : Emu bios_world := bios_init low_memory tt.

Lemma boot_seg r : in_word 16 (seg (x86 boot) r).
Proof. unfold in_word. simpl. lia. Qed.

Lemma stack_roundtrip_witness :
  fst (@pop_word _ bios (snd (@push_word _ bios 0xBEEF boot))) = 0xBEEF.
Proof. exact (proj1 (proj1 (@stack_roundtrip _ bios bios_laws 0xBEEF boot))). Defined.

Lemma interrupt_return_witness :
  x_of (gen (x86 (snd (@X86EMU_prepareForInt _ bios 0x10 boot))) rIP) = 0x1234 /\
  gen (x86 (snd (@x86emuOp_iret _ bios 0xCF (snd (@X86EMU_prepareForInt _ bios 0x10 boot))))) rIP = 0x7C00.
Proof.
  split; [reflexivity|].
  exact (proj1 (proj2 (proj2 (proj2 (@interrupt_return _ bios bios_laws 0x10 0xCF boot boot_seg)))) rIP).
Defined.

Lemma fetch_correct_witness : fst (@fetch_byte_imm _ bios boot) = 0xF4.
Proof. rewrite (proj1 (@fetch_correct _ bios bios_laws boot)). reflexivity. Defined.

Lemma effective_address_16_witness :
  @decode_rm01_address _ bios 6 boot = (wrap 16 (0 - 12), @select bios_world true (advance 1 boot)).
Proof.
  rewrite (proj1 (proj2 (proj2 (@effective_address_16 _ bios bios_laws boot 6 ltac:(lia) eq_refl)))).
  reflexivity.
Defined.

Lemma data_access_witness :
  fst (@fetch_data_word _ bios 0x500 (snd (@store_data_word _ bios 0x500 0x1234 boot))) = 0x1234.
Proof.
  rewrite (proj1 (proj1 (proj2 (proj1 (@data_access _ bios bios_laws boot 0x500 0x1234) DS eq_refl)))).
  reflexivity.
Defined.

(** ** Departures from the processor *)

(** With mod other than 0, the SIB base 5 is EBP; the emulator reads ESP. *)
Lemma sib_base_5_reads_esp :
  fst (@decode_sib_address _ bios 0x25 1 boot) = gen (x86 boot) rSP.
Proof. reflexivity. Qed.

(** The 32-bit mode [EDX + disp32] selects the stack segment and
    [EBP + disp32] does not. *)
Lemma rm10_stack_segment :
  let s := {| x86 := upd_mode (x86 boot) SYSMODE_PREFIX_ADDR; world := world boot |} in
  nz (Z.land (mode (x86 (snd (@decode_rm10_address _ bios 2 s)))) SYSMODE_SEG_DS_SS) = true /\
  nz (Z.land (mode (x86 (snd (@decode_rm10_address _ bios 5 s)))) SYSMODE_SEG_DS_SS) = false.
Proof. split; reflexivity. Qed.
