(* ===== verification/X86MulDiv.v ===== *)
(** * Multiplication, division and string I/O of the x86 emulator

    [x86_common/x86emu/prim_ops.c], third part: [imul_*], [mul_*], [idiv_*],
    [div_*], which work on the accumulator, and the string port instructions
    [ins] and [outs].  The build has 64-bit integers ([__HAS_LONG_LONG__]), so
    the long forms are those of that branch.  A signed overflow of a product or of a
    negation, which C leaves undefined, wraps around; the one of a division traps
    on the processors the code is for, and is a fault here. *)
From Stdlib Require Import ZArith Lia List Bool.
From S2P Require Import Prelude X86Flags X86Machine X86Decode.
Import ListNotations.
Local Open Scope Z_scope.
Local Open Scope state_scope.

Section MulDiv.
Context {W : Type} {sys : Sys W}.
Local Abbreviation X := (Run W).

Definition clear_cf_of : X unit := on_flags (CLEAR_FLAG F_CF) ;; on_flags (CLEAR_FLAG F_OF).
Definition set_cf_of : X unit := on_flags (SET_FLAG F_CF) ;; on_flags (SET_FLAG F_OF).

(** ** Multiplication *)

Definition imul_byte (s : Z) : X unit :=
  al <- l_reg rA ;;
  let res := swrap 16 (signed 8 al * signed 8 s) in
  set_x rA res ;;
  al <- l_reg rA ;; ah <- h_reg rA ;;
  if ((Z.land al 0x80 =? 0) && (ah =? 0x00)) || (negb (Z.land al 0x80 =? 0) && (ah =? 0xFF))
  then clear_cf_of else set_cf_of.

Definition imul_word (s : Z) : X unit :=
  ax <- x_reg rA ;;
  let res := signed 16 ax * signed 16 s in
  set_x rA res ;;
  set_x rD (Z.shiftr res 16) ;;
  ax <- x_reg rA ;; dx <- x_reg rD ;;
  if ((Z.land ax 0x8000 =? 0) && (dx =? 0x00)) || (negb (Z.land ax 0x8000 =? 0) && (dx =? 0xFF))
  then clear_cf_of else set_cf_of.

(** The low and the high half [imul_long_direct] stores through its pointers. *)
Definition imul_long_direct (d s : Z) : Z * Z :=
  let res := swrap 32 (signed 32 d * signed 32 s) in
  (u32 res, u32 (Z.shiftr res 32)).

Definition imul_long (s : Z) : X unit :=
  eax <- e_reg rA ;;
  let (lo, hi) := imul_long_direct eax s in
  set_e rA lo ;; set_e rD hi ;;
  eax <- e_reg rA ;; edx <- e_reg rD ;;
  if ((Z.land eax 0x80000000 =? 0) && (edx =? 0x00)) || (negb (Z.land eax 0x80000000 =? 0) && (edx =? 0xFF))
  then clear_cf_of else set_cf_of.

Definition mul_byte (s : Z) : X unit :=
  al <- l_reg rA ;;
  let res := u16 (al * s) in
  set_x rA res ;;
  ah <- h_reg rA ;;
  if ah =? 0 then clear_cf_of else set_cf_of.

Definition mul_word (s : Z) : X unit :=
  ax <- x_reg rA ;;
  let res := u32 (ax * s) in
  set_x rA res ;;
  set_x rD (Z.shiftr res 16) ;;
  dx <- x_reg rD ;;
  if dx =? 0 then clear_cf_of else set_cf_of.

(** The operands are cast to [u32] before they are multiplied. *)
Definition mul_long (s : Z) : X unit :=
  eax <- e_reg rA ;;
  let res := u32 (u32 eax * u32 s) in
  set_e rA res ;;
  set_e rD (Z.shiftr res 32) ;;
  edx <- e_reg rD ;;
  if edx =? 0 then clear_cf_of else set_cf_of.

(** ** Division *)

(** [__builtin_abs], whose argument is converted to [int]. *)
Definition builtin_abs (z : Z) : Z :=
  let i := swrap 32 z in if i <? 0 then swrap 32 (- i) else i.

Definition idiv_byte (s : Z) : X unit :=
  ax <- x_reg rA ;;
  let dvd := signed 16 ax in
  if s =? 0 then x86emu_intr_raise 0
  else
    let div := Z.quot dvd (signed 8 s) in
    let md := Z.rem dvd (signed 8 s) in
    if 0x7f <? builtin_abs div then x86emu_intr_raise 0
    else set_l rA div ;; set_h rA md.

(** A statement that cannot trap. *)
Definition total {A} (f : X A) : StateE (Emu W) A := fun s => Some (f s).

(** [a / b] and [a % b] on signed integers of [w] bits. *)
Definition signed_divide (w a b : Z) : option (Z * Z) :=
  if (b =? 0) || ((a =? - 2 ^ (w - 1)) && (b =? -1)) then None else Some (Z.quot a b, Z.rem a b).

Definition idiv_word (s : Z) : StateE (Emu W) unit := (
  dx <- total (x_reg rD) ;; ax <- total (x_reg rA) ;;
  let dvd := swrap 32 (Z.lor (Z.shiftl dx 16) ax) in
  if s =? 0 then total (x86emu_intr_raise 0)
  else
    qr <- elift (signed_divide 32 dvd (signed 16 s)) ;;
    let (div, md) := qr : Z * Z in
    total (
      if 0x7fff <? builtin_abs div then x86emu_intr_raise 0
      else
        on_flags (CLEAR_FLAG F_CF) ;; on_flags (CLEAR_FLAG F_SF) ;;
        on_flags (CONDITIONAL_SET_FLAG (div =? 0) F_ZF) ;;
        on_flags (CONDITIONAL_SET_FLAG (PARITY (Z.land md 0xff)) F_PF) ;;
        set_x rA div ;; set_x rD md)%state)%err.

Definition idiv_long (s : Z) : StateE (Emu W) unit := (
  edx <- total (e_reg rD) ;; eax <- total (e_reg rA) ;;
  let dvd := swrap 64 (Z.lor (Z.shiftl edx 32) eax) in
  if s =? 0 then total (x86emu_intr_raise 0)
  else
    qr <- elift (signed_divide 64 dvd (signed 32 s)) ;;
    let (div, md) := qr : Z * Z in
    total (
      if 0x7fffffff <? builtin_abs div then x86emu_intr_raise 0
      else
        on_flags (CLEAR_FLAG F_CF) ;; on_flags (CLEAR_FLAG F_AF) ;; on_flags (CLEAR_FLAG F_SF) ;;
        on_flags (SET_FLAG F_ZF) ;;
        on_flags (CONDITIONAL_SET_FLAG (PARITY (Z.land md 0xff)) F_PF) ;;
        set_e rA div ;; set_e rD md)%state)%err.

Definition div_byte (s : Z) : X unit :=
  dvd <- x_reg rA ;;
  if s =? 0 then x86emu_intr_raise 0
  else
    let div := dvd / s in
    let md := dvd mod s in
    if 0xff <? builtin_abs div then x86emu_intr_raise 0
    else set_l rA div ;; set_h rA md.

Definition div_word (s : Z) : X unit :=
  dx <- x_reg rD ;; ax <- x_reg rA ;;
  let dvd := Z.lor (u32 (Z.shiftl dx 16)) ax in
  if s =? 0 then x86emu_intr_raise 0
  else
    let div := dvd / s in
    let md := dvd mod s in
    if 0xffff <? builtin_abs div then x86emu_intr_raise 0
    else
      on_flags (CLEAR_FLAG F_CF) ;; on_flags (CLEAR_FLAG F_SF) ;;
      on_flags (CONDITIONAL_SET_FLAG (div =? 0) F_ZF) ;;
      on_flags (CONDITIONAL_SET_FLAG (PARITY (Z.land md 0xff)) F_PF) ;;
      set_x rA div ;; set_x rD md.

Definition div_long (s : Z) : X unit :=
  edx <- e_reg rD ;; eax <- e_reg rA ;;
  let dvd := Z.lor (Z.shiftl edx 32) eax in
  if s =? 0 then x86emu_intr_raise 0
  else
    let div := dvd / s in
    let md := dvd mod s in
    if 0xffffffff <? u32 (builtin_abs div) then x86emu_intr_raise 0
    else
      on_flags (CLEAR_FLAG F_CF) ;; on_flags (CLEAR_FLAG F_AF) ;; on_flags (CLEAR_FLAG F_SF) ;;
      on_flags (SET_FLAG F_ZF) ;;
      on_flags (CONDITIONAL_SET_FLAG (PARITY (Z.land md 0xff)) F_PF) ;;
      set_e rA div ;; set_e rD md.

(** ** String input and output *)

(** [while (count--) body]. *)
Fixpoint times (count : nat) (body : X unit) : X unit :=
  match count with O => ret tt | S n => body ;; times n body end.

(** One transfer of [ins] and the step of DI. *)
Definition ins_transfer (rd : Z -> W -> Z * W) (st : Z -> Z -> Z -> X unit) (inc : Z) : X unit :=
  es <- s_reg ES ;; di <- x_reg rDI ;; dx <- x_reg rD ;; v <- input rd dx ;; st es di v ;;
  di <- x_reg rDI ;; set_x rDI (di + inc).

(** One transfer of [outs] and the step of SI. *)
Definition outs_transfer (wr : Z -> Z -> W -> W) (ld : Z -> Z -> X Z) (inc : Z) : X unit :=
  es <- s_reg ES ;; si <- x_reg rSI ;; v <- ld es si ;; dx <- x_reg rD ;; output wr dx v ;;
  si <- x_reg rSI ;; set_x rSI (si + inc).

Definition SYSMODE_REP := Z.lor SYSMODE_PREFIX_REPE SYSMODE_PREFIX_REPNE.

(** The end of the repeated forms: CX is cleared and the prefix dropped. *)
Definition rep_done : X unit :=
  set_x rC 0 ;;
  md <- get mode ;;
  (if nz (Z.land md SYSMODE_PREFIX_DATA) then set_e rC 0 else ret tt) ;;
  set_mode (fun m => Z.ldiff m SYSMODE_REP).

Definition rep_count : X nat :=
  md <- get mode ;; ecx <- e_reg rC ;; cx <- x_reg rC ;;
  ret (Z.to_nat (if nz (Z.land md SYSMODE_PREFIX_DATA) then ecx else cx)).

Definition ins (size : Z) : X unit :=
  DF <- on_flags (ACCESS_FLAG F_DF) ;;
  let inc := if DF : bool then - size else size in
  let byte := ins_transfer sys_inb store_data_byte_abs inc in
  let word := ins_transfer sys_inw store_data_word_abs inc in
  let long := ins_transfer sys_inl store_data_long_abs inc in
  md <- get mode ;;
  if nz (Z.land md SYSMODE_REP) then
    count <- rep_count ;;
    match size with
    | 1 => times count byte
    | 2 => times count word
    | 4 => times (Nat.min count 1) long
    | _ => ret tt
    end ;;
    rep_done
  else
    match size with
    | 1 => byte
    | 2 => word
    | 4 => long
    | _ => di <- x_reg rDI ;; set_x rDI (di + inc)
    end.

Definition outs (size : Z) : X unit :=
  DF <- on_flags (ACCESS_FLAG F_DF) ;;
  let inc := if DF : bool then - size else size in
  let byte := outs_transfer sys_outb fetch_data_byte_abs inc in
  let word := outs_transfer sys_outw fetch_data_word_abs inc in
  let long := outs_transfer sys_outl fetch_data_long_abs inc in
  md <- get mode ;;
  if nz (Z.land md SYSMODE_REP) then
    count <- rep_count ;;
    match size with
    | 1 => times count byte
    | 2 => times count word
    | 4 => times (Nat.min count 1) long
    | _ => ret tt
    end ;;
    rep_done
  else
    match size with
    | 1 => byte
    | 2 => word
    | 4 => long
    | _ => si <- x_reg rSI ;; set_x rSI (si + inc)
    end.
End MulDiv.

(** ** Byte registers *)

Lemma testbit_ff00 i : 0 <= i -> Z.testbit 0xFF00 i = (8 <=? i) && (i <? 16).
Proof.
  intros Hi. change 0xFF00 with (Z.shiftl (Z.ones 8) 8). rewrite Z.shiftl_spec by easy.
  destruct (Z.leb_spec 8 i).
  - rewrite Z.testbit_ones by lia. zcmp; simpl; lia.
  - now rewrite Z.testbit_neg_r by lia.
Qed.

Ltac reg_bits :=
  unfold x_of, l_of, h_of, x_set, l_set, h_set, u16, u8;
  apply Z.bits_inj'; intros i Hi;
  rewrite ?testbit_wrap, ?Z.lor_spec, ?Z.shiftr_spec, ?testbit_wrap, ?Z.lor_spec, ?Z.ldiff_spec, ?Z.shiftl_spec,
    ?testbit_wrap, ?testbit_ff00 by lia;
  change 0xFF with (Z.ones 8); change 0xFFFF with (Z.ones 16);
  rewrite ?Z.testbit_ones by lia;
  repeat match goal with |- context [?a <? ?b] => destruct (Z.ltb_spec a b); try lia
                       | |- context [?a <=? ?b] => destruct (Z.leb_spec a b); try lia end;
  cbn [andb orb negb]; rewrite ?andb_true_r, ?andb_false_r, ?orb_false_r, ?orb_true_r; try reflexivity.

Lemma l_of_l_set e v : l_of (l_set e v) = u8 v.
Proof. reg_bits. Qed.

Lemma h_of_l_set e v : h_of (l_set e v) = h_of e.
Proof. reg_bits. Qed.

Lemma l_of_h_set e v : l_of (h_set e v) = l_of e.
Proof. reg_bits. rewrite (Z.testbit_neg_r v) by lia. apply orb_false_r. Qed.

Lemma h_of_h_set e v : h_of (h_set e v) = u8 v.
Proof. reg_bits. now replace (i + 8 - 8) with i by lia. Qed.

Lemma l_of_x_set e v : l_of (x_set e v) = u8 v.
Proof. reg_bits. Qed.

Lemma h_of_x_set e v : h_of (x_set e v) = u8 (Z.shiftr v 8).
Proof. reg_bits. Qed.

Create Rewrite HintDb regs.
Hint Rewrite l_of_l_set h_of_l_set l_of_h_set h_of_h_set l_of_x_set h_of_x_set x_of_x_set : regs.

Section Properties.
Context {W : Type} {sys : Sys W}.

Lemma on_flags_set F (s : Emu W) :
  on_flags (SET_FLAG F) s = (tt, {| x86 := upd_FLG (x86 s) (upd_flag true F (R_FLG (x86 s))); world := world s |}).
Proof. reflexivity. Qed.

Lemma on_flags_clr F (s : Emu W) :
  on_flags (CLEAR_FLAG F) s = (tt, {| x86 := upd_FLG (x86 s) (upd_flag false F (R_FLG (x86 s))); world := world s |}).
Proof. reflexivity. Qed.

Lemma on_flags_cond c F (s : Emu W) :
  on_flags (CONDITIONAL_SET_FLAG c F) s =
  (tt, {| x86 := upd_FLG (x86 s) (upd_flag c F (R_FLG (x86 s))); world := world s |}).
Proof. now destruct c. Qed.

Tactic Notation "mcbn" :=
  cbn [fst snd x86 world gen seg R_FLG mode intr intno debug
       get put set_x set_s set_e set_l set_h set_mode s_reg x_reg e_reg l_reg h_reg
       upd_gen upd_seg upd_FLG upd_mode upd_intr upd_debug greg_beq sreg_beq].
Tactic Notation "mcbn" "in" hyp(H) :=
  cbn [fst snd x86 world gen seg R_FLG mode intr intno debug
       get put set_x set_s set_e set_l set_h set_mode s_reg x_reg e_reg l_reg h_reg
       upd_gen upd_seg upd_FLG upd_mode upd_intr upd_debug greg_beq sreg_beq] in H.

Ltac mrun :=
  unfold clear_cf_of, set_cf_of, x86emu_intr_raise, bind, ret;
  repeat (mcbn; first [ rewrite on_flags_set | rewrite on_flags_clr | rewrite on_flags_cond ]);
  mcbn.

(** The outcome of a one-operand multiplication: [c] is what both CF and OF
    tell; the accumulator pair, the other flags of prim_ops.c aside, nothing
    else changes. *)
Record multiplied (s s' : Emu W) (c : bool) : Prop := {
  multiplied_CF : flag_of (R_FLG (x86 s')) F_CF = c;
  multiplied_OF : flag_of (R_FLG (x86 s')) F_OF = c;
  multiplied_frame : frame_flags (Z.lor F_CF F_OF) (R_FLG (x86 s)) (R_FLG (x86 s'));
  multiplied_gen : forall r, r <> rA -> r <> rD -> gen (x86 s') r = gen (x86 s) r;
  multiplied_seg : forall r, seg (x86 s') r = seg (x86 s) r;
  multiplied_world : world s' = world s
}.

Lemma multiplied_if (b c : bool) (s : Emu W) (m : X86EMU_regs) :
  b = negb c ->
  (forall r, r <> rA -> r <> rD -> gen m r = gen (x86 s) r) ->
  (forall r, seg m r = seg (x86 s) r) ->
  R_FLG m = R_FLG (x86 s) ->
  let s' := snd ((if b then clear_cf_of else set_cf_of) {| x86 := m; world := world s |}) in
  multiplied s s' c /\ forall r, gen (x86 s') r = gen m r.
Proof.
  intros -> Hg Hs HF. destruct c; cbn [negb]; mrun; (split; [|reflexivity]);
    split; mcbn; rewrite ?HF; autorewrite with flags; auto 10 with word.
Qed.

Lemma l_of_range e : in_word 8 (l_of e).
Proof. now apply wrap_range. Qed.
Lemma h_of_range e : in_word 8 (h_of e).
Proof. now apply wrap_range. Qed.
Lemma x_of_range e : in_word 16 (x_of e).
Proof. now apply wrap_range. Qed.

Lemma mul_byte_run v (s : Emu W) :
  in_word 8 v ->
  let p := l_of (gen (x86 s) rA) * v in
  let s' := snd (mul_byte v s) in
  x_of (gen (x86 s') rA) = p /\ multiplied s s' (2 ^ 8 <=? p).
Proof.
  intros Hv p s'. pose proof (l_of_range (gen (x86 s) rA)) as Ha. unfold in_word in *.
  assert (Hp : 0 <= p < 2 ^ 16) by (unfold p; simpl; nia).
  subst s'. unfold mul_byte. unfold bind. mcbn. fold p. cbv zeta. mcbn.
  match goal with |- context [{| x86 := ?m; world := _ |}] =>
    destruct (multiplied_if (h_of (x_set (gen (x86 s) rA) (u16 p)) =? 0) (2 ^ 8 <=? p) s m) as [H E] end.
  - autorewrite with regs. rewrite (u16_id p Hp).
    unfold u8. rewrite wrap_small by (rewrite Z.shiftr_div_pow2 by lia; unfold in_word; change (2 ^ 8) with 256; change (2 ^ 16) with 65536 in *; zlia).
    rewrite Z.shiftr_div_pow2 by lia. change (2 ^ 8) with 256. zcmp; zlia.
  - intros r HA _. mcbn. destruct r; easy.
  - reflexivity.
  - reflexivity.
  - split; [|exact H]. etransitivity; [apply f_equal; exact (E rA)|]. mcbn. rewrite x_of_x_set. rewrite !u16_id; auto using u16_word.
Qed.

(** The double word DX:AX. *)
Definition dx_ax (m : X86EMU_regs) : Z := x_of (gen m rD) * 2 ^ 16 + x_of (gen m rA).

Lemma mul_word_run v (s : Emu W) :
  in_word 16 v ->
  let p := x_of (gen (x86 s) rA) * v in
  let s' := snd (mul_word v s) in
  dx_ax (x86 s') = p /\ multiplied s s' (2 ^ 16 <=? p).
Proof.
  intros Hv p s'. pose proof (x_of_range (gen (x86 s) rA)) as Ha. unfold in_word in *.
  assert (Hp : 0 <= p < 2 ^ 32) by (unfold p; change (2 ^ 32) with (2 ^ 16 * 2 ^ 16); nia).
  assert (Hhi : u16 (Z.shiftr p 16) = p / 2 ^ 16).
  { rewrite Z.shiftr_div_pow2 by lia. apply u16_id. unfold in_word. change (2 ^ 16) with 65536 in *.
    change (2 ^ 32) with 4294967296 in Hp. zlia. }
  subst s'. unfold mul_word. unfold bind. mcbn. fold p. cbv zeta. mcbn. rewrite (wrap_small 32 p Hp : u32 p = p).
  match goal with |- context [{| x86 := ?m; world := _ |}] =>
    destruct (multiplied_if (x_of (gen m rD) =? 0) (2 ^ 16 <=? p) s m) as [H E] end.
  - mcbn. autorewrite with regs. rewrite Hhi. change (2 ^ 16) with 65536. zcmp; zlia.
  - intros r HA HD. mcbn. destruct r; easy.
  - reflexivity.
  - reflexivity.
  - split; [|exact H]. unfold dx_ax.
    etransitivity; [apply f_equal2; [apply f_equal2; [apply f_equal; exact (E rD)|reflexivity]|apply f_equal; exact (E rA)]|].
    mcbn. autorewrite with regs.
    rewrite Hhi. unfold u16, wrap. change (2 ^ 16) with 65536. zlia.
Qed.
Lemma signed_range w z : 0 < w -> in_word w z -> - 2 ^ (w - 1) <= signed w z < 2 ^ (w - 1).
Proof.
  unfold in_word, signed. intros Hw Hz.
  assert (2 ^ w = 2 * 2 ^ (w - 1)) by (rewrite <- Z.pow_succ_r by lia; f_equal; lia). zcmp; lia.
Qed.

(** A value in the signed range, read back from its word. *)
Lemma signed_wrap_id w z : 0 < w -> - 2 ^ (w - 1) <= z < 2 ^ (w - 1) -> signed w (wrap w z) = z.
Proof.
  intros Hw Hz. assert (2 ^ w = 2 * 2 ^ (w - 1)) by (rewrite <- Z.pow_succ_r by lia; f_equal; lia).
  rewrite wrap_cases by lia. unfold signed. zcmp; lia.
Qed.

Lemma land_top_8 z : (Z.land (u8 z) 0x80 =? 0) = (u8 z <? 128).
Proof.
  change 0x80 with (2 ^ 7). rewrite land_pow2 by lia.
  rewrite (testbit_top 8) by (easy || now apply wrap_range). change (2 ^ (8 - 1)) with 128.
  change (2 ^ 7) with 128. zcmp; simpl; lia.
Qed.

Lemma imul_byte_run v (s : Emu W) :
  in_word 8 v ->
  let p := signed 8 (l_of (gen (x86 s) rA)) * signed 8 v in
  let s' := snd (imul_byte v s) in
  signed 16 (x_of (gen (x86 s') rA)) = p /\
  multiplied s s' (negb (p =? signed 8 (l_of (gen (x86 s') rA)))).
Proof.
  intros Hv p s'. pose proof (signed_range 8 _ ltac:(lia) (l_of_range (gen (x86 s) rA))) as Ha.
  pose proof (signed_range 8 v ltac:(lia) Hv) as Hv'. change (2 ^ (8 - 1)) with 128 in *.
  assert (Hp : -16256 <= p <= 16384) by (unfold p; nia).
  assert (Hsw : swrap 16 p = p) by (apply signed_wrap_id; [lia|change (2 ^ (16 - 1)) with 32768; lia]).
  subst s'. unfold imul_byte. unfold bind. mcbn. fold p. cbv zeta. rewrite Hsw. mcbn.
  match goal with |- context [{| x86 := ?m; world := _ |}] =>
    destruct (multiplied_if
      (((Z.land (l_of (gen m rA)) 0x80 =? 0) && (h_of (gen m rA) =? 0)) ||
       (negb (Z.land (l_of (gen m rA)) 0x80 =? 0) && (h_of (gen m rA) =? 0xFF)))
      (negb (p =? signed 8 (u8 p))) s m) as [H E] end.
  - mcbn. autorewrite with regs. rewrite land_top_8. clearbody p. unfold signed, u8, wrap.
    rewrite Z.shiftr_div_pow2 by lia. change (2 ^ 8) with 256. change (2 ^ (8 - 1)) with 128.
    rewrite negb_involutive. zprune; simpl; zlia.
  - intros r HA HD. mcbn. destruct r; easy.
  - reflexivity.
  - reflexivity.
  - assert (Hx : x_of (x_set (gen (x86 s) rA) p) = u16 p) by apply x_of_x_set.
    split; [|rewrite <- (l_of_x_set (gen (x86 s) rA) p) in H].
    + etransitivity; [apply f_equal, f_equal; exact (E rA)|]. mcbn. rewrite Hx.
      apply signed_wrap_id; [lia|]. change (2 ^ (16 - 1)) with 32768. lia.
    + eapply eq_rect; [exact H|]. do 4 f_equal. symmetry. exact (E rA).
Qed.

Lemma imul_word_run v (s : Emu W) :
  in_word 16 v ->
  let p := signed 16 (x_of (gen (x86 s) rA)) * signed 16 v in
  let s' := snd (imul_word v s) in
  signed 32 (dx_ax (x86 s')) = p.
Proof.
  intros Hv p s'. pose proof (signed_range 16 _ ltac:(lia) (x_of_range (gen (x86 s) rA))) as Ha.
  pose proof (signed_range 16 v ltac:(lia) Hv) as Hv'. change (2 ^ (16 - 1)) with 32768 in *.
  assert (Hp : - 2 ^ (32 - 1) <= p < 2 ^ (32 - 1)) by (unfold p; change (2 ^ (32 - 1)) with 2147483648; nia).
  subst s'. unfold imul_word. unfold bind. mcbn. fold p. cbv zeta. mcbn.
  match goal with |- context [{| x86 := ?m; world := _ |}] =>
    destruct (multiplied_if
      (((Z.land (x_of (gen m rA)) 0x8000 =? 0) && (x_of (gen m rD) =? 0)) ||
       (negb (Z.land (x_of (gen m rA)) 0x8000 =? 0) && (x_of (gen m rD) =? 0xFF)))
      (negb (((Z.land (x_of (gen m rA)) 0x8000 =? 0) && (x_of (gen m rD) =? 0)) ||
       (negb (Z.land (x_of (gen m rA)) 0x8000 =? 0) && (x_of (gen m rD) =? 0xFF)))) s m) as [_ E] end.
  - now rewrite negb_involutive.
  - intros r HA HD. mcbn. destruct r; easy.
  - reflexivity.
  - reflexivity.
  - etransitivity; [|apply (signed_wrap_id 32 p); [lia|exact Hp]]. unfold dx_ax. apply f_equal.
    etransitivity; [apply f_equal2; [apply f_equal2; [apply f_equal; exact (E rD)|reflexivity]|apply f_equal; exact (E rA)]|].
    mcbn. autorewrite with regs. rewrite Z.shiftr_div_pow2 by lia. clearbody p. unfold u16, wrap.
    change (2 ^ 16) with 65536. change (2 ^ 32) with 4294967296. zlia.
Qed.
(** ** Division *)

(** Divide error: interrupt 0 becomes pending and nothing else changes. *)
Definition raised (s : Emu W) : Emu W :=
  {| x86 := upd_intr (x86 s) (Z.lor (intr (x86 s)) INTR_SYNCH) 0; world := world s |}.

(** What a division that succeeds leaves unchanged. *)
Record divided (s s' : Emu W) : Prop := {
  divided_gen : forall r, r <> rA -> r <> rD -> gen (x86 s') r = gen (x86 s) r;
  divided_seg : forall r, seg (x86 s') r = seg (x86 s) r;
  divided_intr : intr (x86 s') = intr (x86 s);
  divided_frame : frame_flags STATUS (R_FLG (x86 s)) (R_FLG (x86 s'));
  divided_world : world s' = world s
}.

Lemma builtin_abs_eq z : - 2 ^ 31 < z < 2 ^ 31 -> builtin_abs z = Z.abs z.
Proof.
  intros Hz. unfold builtin_abs. change (2 ^ 31) with 2147483648 in Hz.
  assert (H : forall y, - 2147483648 <= y < 2147483648 -> swrap 32 y = y).
  { intros y Hy. apply signed_wrap_id; [lia|]. change (2 ^ (32 - 1)) with 2147483648. lia. }
  rewrite (H z) by lia. zcmp; rewrite ?H; lia.
Qed.

Ltac div_frame :=
  split; mcbn; auto 10 with word; let r := fresh "r" in intros r ? ?; destruct r; easy.

(** The quotient of the dividend [a] by [v] fits in [w] bits. *)
Definition quotient_fits (w a v : Z) : Prop := v <> 0 /\ a / v < 2 ^ w.

Lemma div_byte_run v (s : Emu W) :
  in_word 8 v ->
  let a := x_of (gen (x86 s) rA) in
  let s' := snd (div_byte v s) in
  (quotient_fits 8 a v ->
   l_of (gen (x86 s') rA) = a / v /\ h_of (gen (x86 s') rA) = a mod v /\ divided s s') /\
  (~ quotient_fits 8 a v -> s' = raised s).
Proof.
  intros Hv a s'. pose proof (x_of_range (gen (x86 s) rA)) as Ha. fold a in Ha.
  unfold in_word, quotient_fits in *. change (2 ^ 8) with 256 in *. change (2 ^ 16) with 65536 in Ha.
  subst s'. unfold div_byte. unfold bind. mcbn. fold a. cbv zeta. clearbody a.
  destruct (Z.eqb_spec v 0) as [->|H0]; [split; [lia|reflexivity]|].
  assert (Hq : 0 <= a / v < 65536).
  { split; [apply Z.div_pos; lia|]. apply Z.le_lt_trans with a; [|lia]. apply Z.div_le_upper_bound; nia. }
  pose proof (Z.mod_pos_bound a v ltac:(lia)) as Hm.
  rewrite builtin_abs_eq, Z.abs_eq by (change (2 ^ 31) with 2147483648; lia).
  destruct (Z.ltb_spec 255 (a / v)); [split; [lia|reflexivity]|split; [intros _|lia]].
  unfold bind. mcbn. autorewrite with regs.
  split; [unfold u8; apply wrap_small; unfold in_word; change (2 ^ 8) with 256; lia|].
  split; [unfold u8; apply wrap_small; unfold in_word; change (2 ^ 8) with 256; lia|]. div_frame.
Qed.

Lemma lor_halves dx ax : in_word 16 dx -> in_word 16 ax -> Z.lor (Z.shiftl dx 16) ax = dx * 2 ^ 16 + ax.
Proof.
  intros Hd Ha. rewrite <- Z.shiftl_mul_pow2 by lia. symmetry.
  rewrite Z.add_nocarry_lxor, Z.lxor_lor; [easy| |];
    apply Z.bits_inj'; intros i Hi; rewrite Z.land_spec, Z.shiftl_spec, Z.bits_0 by easy;
    (destruct (Z.ltb_spec i 16); [now rewrite Z.testbit_neg_r by lia|];
     now rewrite (in_word_testbit_high 16 ax), andb_false_r by (easy || lia)).
Qed.

Ltac drun :=
  unfold bind;
  repeat (mcbn; first [ rewrite on_flags_set | rewrite on_flags_clr | rewrite on_flags_cond ]);
  mcbn; autorewrite with regs.

Lemma div_word_run v (s : Emu W) :
  in_word 16 v ->
  let a := dx_ax (x86 s) in
  let s' := snd (div_word v s) in
  (quotient_fits 16 a v ->
   x_of (gen (x86 s') rA) = a / v /\ x_of (gen (x86 s') rD) = a mod v /\ divided s s') /\
  (~ quotient_fits 16 a v -> a / v < 2 ^ 31 -> s' = raised s).
Proof.
  intros Hv a s'. pose proof (x_of_range (gen (x86 s) rA)) as Ha. pose proof (x_of_range (gen (x86 s) rD)) as Hd.
  subst s'. unfold div_word. unfold bind. mcbn. cbv zeta.
  assert (E : Z.lor (u32 (Z.shiftl (x_of (gen (x86 s) rD)) 16)) (x_of (gen (x86 s) rA)) = a).
  { unfold a, dx_ax. rewrite <- lor_halves by easy. f_equal. apply wrap_small. unfold in_word in *.
    rewrite Z.shiftl_mul_pow2 by lia. change (2 ^ 16) with 65536 in *. change (2 ^ 32) with 4294967296. lia. }
  rewrite E. assert (Hr : 0 <= a < 4294967296)
    by (unfold a, dx_ax; unfold in_word in *; change (2 ^ 16) with 65536 in *; lia).
  clearbody a. unfold quotient_fits, in_word in *. change (2 ^ 16) with 65536 in *. change (2 ^ 31) with 2147483648.
  destruct (Z.eqb_spec v 0) as [->|H0]; [split; [lia|reflexivity]|].
  pose proof (Z.mod_pos_bound a v ltac:(lia)) as Hm.
  assert (Hq : 0 <= a / v) by (apply Z.div_pos; lia).
  split.
  - intros [_ Hf]. rewrite builtin_abs_eq, Z.abs_eq by (change (2 ^ 31) with 2147483648; lia).
    destruct (Z.ltb_spec 65535 (a / v)); [lia|]. drun.
    split; [apply u16_id; unfold in_word; change (2 ^ 16) with 65536; lia|].
    split; [apply u16_id; unfold in_word; change (2 ^ 16) with 65536; lia|]. div_frame.
  - intros Hf Hb. rewrite builtin_abs_eq, Z.abs_eq by (change (2 ^ 31) with 2147483648; lia).
    destruct (Z.ltb_spec 65535 (a / v)); [reflexivity|lia].
Qed.

(** The truncated quotient of the signed division is at most [2 ^ (w - 1) - 1]
    in absolute value: the code refuses the smallest negative quotient. *)
Definition signed_quotient_fits (w a v : Z) : Prop := v <> 0 /\ Z.abs (Z.quot a v) < 2 ^ (w - 1).

Lemma quot_abs_le a v : Z.abs (Z.quot a v) <= Z.abs a.
Proof.
  destruct (Z.eq_dec v 0) as [->|Hv]; [destruct a; simpl; lia|].
  rewrite <- Z.quot_abs by easy. apply Z.quot_le_upper_bound; [lia|]. nia.
Qed.

Lemma signed_zero w v : 0 < w -> in_word w v -> (signed w v = 0 <-> v = 0).
Proof.
  unfold in_word, signed. intros Hw Hv.
  assert (2 ^ w = 2 * 2 ^ (w - 1)) by (rewrite <- Z.pow_succ_r by lia; f_equal; lia). zcmp; lia.
Qed.

Lemma idiv_byte_run v (s : Emu W) :
  in_word 8 v ->
  let a := signed 16 (x_of (gen (x86 s) rA)) in
  let d := signed 8 v in
  let s' := snd (idiv_byte v s) in
  (signed_quotient_fits 8 a d ->
   signed 8 (l_of (gen (x86 s') rA)) = Z.quot a d /\ signed 8 (h_of (gen (x86 s') rA)) = Z.rem a d /\ divided s s') /\
  (~ signed_quotient_fits 8 a d -> s' = raised s).
Proof.
  intros Hv a d s'. pose proof (signed_range 16 _ ltac:(lia) (x_of_range (gen (x86 s) rA))) as Ha. fold a in Ha.
  pose proof (signed_range 8 v ltac:(lia) Hv) as Hd. fold d in Hd. pose proof (signed_zero 8 v ltac:(lia) Hv) as H0.
  fold d in H0. subst s'. unfold idiv_byte. unfold bind. mcbn. cbv zeta. fold a d.
  unfold signed_quotient_fits. change (2 ^ (8 - 1)) with 128 in *. change (2 ^ (16 - 1)) with 32768 in *.
  pose proof (quot_abs_le a d) as Hq. clearbody a. 
  destruct (Z.eqb_spec v 0) as [Hz|Hz]; [split; [lia|reflexivity]|]. clearbody d.
  assert (Hm : Z.abs (Z.rem a d) < Z.abs d) by (apply Z.rem_bound_abs; lia).
  rewrite builtin_abs_eq by (change (2 ^ 31) with 2147483648; lia).
  destruct (Z.ltb_spec 127 (Z.abs (Z.quot a d))); [split; [lia|reflexivity]|split; [intros _|lia]].
  drun. split; [apply signed_wrap_id; [lia|change (2 ^ (8 - 1)) with 128; lia]|].
  split; [apply signed_wrap_id; [lia|change (2 ^ (8 - 1)) with 128; lia]|]. div_frame.
Qed.

Lemma signed_divide_run w a b : b <> 0 -> - 2 ^ (w - 1) < a \/ b <> -1 -> signed_divide w a b = Some (Z.quot a b, Z.rem a b).
Proof.
  intros Hb Ha. unfold signed_divide. rewrite (proj2 (Z.eqb_neq b 0)) by easy. cbn [orb].
  destruct Ha; [rewrite (proj2 (Z.eqb_neq a _)) by lia; reflexivity|].
  now rewrite (proj2 (Z.eqb_neq b (-1))), andb_false_r by easy.
Qed.

(** The signed division has no result in [w] bits.  Between this and
    [signed_quotient_fits] lies the smallest number of [w] bits. *)
Definition signed_quotient_over (w a v : Z) : Prop := v = 0 \/ 2 ^ (w - 1) < Z.abs (Z.quot a v) \/ Z.quot a v = 2 ^ (w - 1).

Lemma over_not_fits w a v : signed_quotient_over w a v -> ~ signed_quotient_fits w a v.
Proof. unfold signed_quotient_over, signed_quotient_fits. lia. Qed.

(** The state a [total] statement ends in. *)
Ltac run_total :=
  unfold elift; mcbn;
  match goal with |- exists s', Some (?f ?s) = Some (tt, s') /\ _ => exists (snd (f s)); split; [now destruct (f s) as [[] ?]|] end.

Lemma idiv_word_run v (s : Emu W) :
  in_word 16 v ->
  let a := signed 32 (dx_ax (x86 s)) in
  let d := signed 16 v in
  - 2 ^ 31 < a ->
  exists s', idiv_word v s = Some (tt, s') /\
  (signed_quotient_fits 16 a d ->
   signed 16 (x_of (gen (x86 s') rA)) = Z.quot a d /\ signed 16 (x_of (gen (x86 s') rD)) = Z.rem a d /\ divided s s') /\
  (~ signed_quotient_fits 16 a d -> s' = raised s).
Proof.
  intros Hv a d Hlow. pose proof (x_of_range (gen (x86 s) rA)) as Hax. pose proof (x_of_range (gen (x86 s) rD)) as Hdx.
  assert (Hr : in_word 32 (dx_ax (x86 s))).
  { unfold dx_ax; unfold in_word in *; change (2 ^ 16) with 65536 in *; change (2 ^ 32) with 4294967296; lia. }
  pose proof (signed_range 32 _ ltac:(lia) Hr) as Ha. fold a in Ha.
  pose proof (signed_range 16 v ltac:(lia) Hv) as Hd. fold d in Hd. pose proof (signed_zero 16 v ltac:(lia) Hv) as H0.
  fold d in H0. unfold idiv_word, ebind, total. mcbn. cbv zeta.
  rewrite lor_halves by easy. fold (dx_ax (x86 s)). unfold swrap. rewrite (wrap_small 32 _ Hr). fold a d.
  unfold signed_quotient_fits. change (2 ^ (16 - 1)) with 32768 in *. change (2 ^ (32 - 1)) with 2147483648 in *.
  change (2 ^ 31) with 2147483648 in Hlow. pose proof (quot_abs_le a d) as Hq. clearbody a.
  destruct (Z.eqb_spec v 0) as [Hz|Hz]; [eexists; split; [reflexivity|]; split; [lia|reflexivity]|].
  rewrite signed_divide_run by (change (2 ^ (32 - 1)) with 2147483648; lia). clearbody d. cbn [elift].
  assert (Hm : Z.abs (Z.rem a d) < Z.abs d) by (apply Z.rem_bound_abs; lia).
  rewrite builtin_abs_eq by (change (2 ^ 31) with 2147483648; lia). run_total.
  destruct (Z.ltb_spec 32767 (Z.abs (Z.quot a d))); [split; [lia|reflexivity]|split; [intros _|lia]].
  drun. split; [apply signed_wrap_id; [lia|change (2 ^ (16 - 1)) with 32768; lia]|].
  split; [apply signed_wrap_id; [lia|change (2 ^ (16 - 1)) with 32768; lia]|]. div_frame.
Qed.

(** The dividend EDX:EAX. *)
Definition edx_eax (m : X86EMU_regs) : Z := Z.lor (Z.shiftl (gen m rD) 32) (gen m rA).

Lemma builtin_abs_word z : 0 <= u32 (builtin_abs z) <= 4294967295.
Proof. pose proof (wrap_range 32 (builtin_abs z) ltac:(lia)) as H. unfold in_word in H. unfold u32. lia. Qed.

Lemma div_long_run v (s : Emu W) :
  in_word 32 v -> 
  let a := edx_eax (x86 s) in
  let s' := snd (div_long v s) in
  (v <> 0 -> gen (x86 s') rA = u32 (a / v) /\ gen (x86 s') rD = a mod v /\ divided s s') /\
  (v = 0 -> s' = raised s).
Proof.
  intros Hv a s'. subst s'. unfold div_long. unfold bind. mcbn. cbv zeta. fold (edx_eax (x86 s)). fold a.
  clearbody a. unfold in_word in Hv.
  destruct (Z.eqb_spec v 0) as [->|H0]; [split; [lia|reflexivity]|split; [intros _|lia]].
  pose proof (Z.mod_pos_bound a v ltac:(lia)) as Hm. pose proof (builtin_abs_word (a / v)).
  destruct (Z.ltb_spec 4294967295 (u32 (builtin_abs (a / v)))); [lia|]. drun.
  split; [reflexivity|]. split; [apply wrap_small; unfold in_word; lia|]. div_frame.
Qed.

Lemma lor_long hi lo : in_word 32 hi -> in_word 32 lo -> in_word 64 (Z.lor (Z.shiftl hi 32) lo).
Proof.
  intros Hh Hl. unfold in_word in *. assert (E : Z.lor (Z.shiftl hi 32) lo = hi * 2 ^ 32 + lo).
  { rewrite <- Z.shiftl_mul_pow2 by lia. symmetry. rewrite Z.add_nocarry_lxor, Z.lxor_lor; [easy| |];
      apply Z.bits_inj'; intros i Hi; rewrite Z.land_spec, Z.shiftl_spec, Z.bits_0 by easy;
      (destruct (Z.ltb_spec i 32); [now rewrite Z.testbit_neg_r by lia|];
       now rewrite (in_word_testbit_high 32 lo), andb_false_r by (easy || lia)). }
  rewrite E. change (2 ^ 32) with 4294967296 in *. change (2 ^ 64) with 18446744073709551616. lia.
Qed.

Lemma idiv_long_run v (s : Emu W) :
  in_word 32 v -> in_word 32 (gen (x86 s) rA) -> in_word 32 (gen (x86 s) rD) ->
  let a := signed 64 (edx_eax (x86 s)) in
  let d := signed 32 v in
  - 2 ^ 63 < a ->
  exists s', idiv_long v s = Some (tt, s') /\
  (signed_quotient_fits 32 a d ->
   signed 32 (gen (x86 s') rA) = Z.quot a d /\ signed 32 (gen (x86 s') rD) = Z.rem a d /\ divided s s') /\
  (v = 0 -> s' = raised s).
Proof.
  intros Hv HA HD a d Hlow. pose proof (lor_long _ _ HD HA) as Hr. fold (edx_eax (x86 s)) in Hr.
  pose proof (signed_range 32 v ltac:(lia) Hv) as Hd. fold d in Hd. pose proof (signed_zero 32 v ltac:(lia) Hv) as H0.
  fold d in H0. unfold idiv_long, ebind, total. mcbn. cbv zeta.
  fold (edx_eax (x86 s)). unfold swrap. rewrite (wrap_small 64 _ Hr). fold a d.
  unfold signed_quotient_fits. change (2 ^ (32 - 1)) with 2147483648 in *. change (2 ^ 63) with 9223372036854775808 in *.
  clearbody a. destruct (Z.eqb_spec v 0) as [Hz|Hz]; [eexists; split; [reflexivity|]; split; [lia|reflexivity]|].
  rewrite signed_divide_run by (change (2 ^ (64 - 1)) with 9223372036854775808; lia). clearbody d. cbn [elift].
  assert (Hm : Z.abs (Z.rem a d) < Z.abs d) by (apply Z.rem_bound_abs; lia).
  run_total. split; [intros [_ Hq]|lia].
  rewrite builtin_abs_eq by (change (2 ^ 31) with 2147483648; lia).
  destruct (Z.ltb_spec 2147483647 (Z.abs (Z.quot a d))); [lia|].
  drun. split; [apply signed_wrap_id; [lia|change (2 ^ (32 - 1)) with 2147483648; lia]|].
  split; [apply signed_wrap_id; [lia|change (2 ^ (32 - 1)) with 2147483648; lia]|]. div_frame.
Qed.

Lemma mul_long_run v (s : Emu W) :
  in_word 32 (gen (x86 s) rA) -> in_word 32 v ->
  let s' := snd (mul_long v s) in
  gen (x86 s') rA = u32 (gen (x86 s) rA * v) /\ gen (x86 s') rD = 0 /\ multiplied s s' false.
Proof.
  intros Ha Hv s'. subst s'. unfold mul_long. unfold bind. mcbn. cbv zeta.
  rewrite (wrap_small 32 _ Ha : u32 _ = _), (wrap_small 32 v Hv : u32 _ = _).
  set (p := gen (x86 s) rA * v). clearbody p.
  assert (Hhi : u32 (Z.shiftr (u32 p) 32) = 0).
  { rewrite Z.shiftr_div_pow2 by lia. pose proof (wrap_range 32 p ltac:(lia)) as H.
    now rewrite Z.div_small. }
  rewrite Hhi. cbn [Z.eqb].
  match goal with |- context [{| x86 := ?m; world := _ |}] =>
    destruct (multiplied_if true false s m) as [H E] end; try reflexivity.
  - intros r HA HD. mcbn. destruct r; easy.
  - split; [etransitivity; [exact (E rA)|]; mcbn; apply wrap_idem|]. split; [exact (E rD)|exact H].
Qed.

(** MUL and IMUL on bytes and words: the accumulator pair holds the exact
    product (signed for IMUL), CF and OF tell whether it needs the high half,
    and no other flag, register or memory changes.  For [imul_word] only the
    product is stated and for [mul_long] the truncated one: see the end of the
    file. *)
Theorem multiply_correct v (s : Emu W) :
  (in_word 8 v ->
   (let p := l_of (gen (x86 s) rA) * v in
    let s' := snd (mul_byte v s) in
    x_of (gen (x86 s') rA) = p /\ multiplied s s' (2 ^ 8 <=? p)) /\
   (let p := signed 8 (l_of (gen (x86 s) rA)) * signed 8 v in
    let s' := snd (imul_byte v s) in
    signed 16 (x_of (gen (x86 s') rA)) = p /\ multiplied s s' (negb (p =? signed 8 (l_of (gen (x86 s') rA)))))) /\
  (in_word 16 v ->
   (let p := x_of (gen (x86 s) rA) * v in
    let s' := snd (mul_word v s) in
    dx_ax (x86 s') = p /\ multiplied s s' (2 ^ 16 <=? p)) /\
   signed 32 (dx_ax (x86 (snd (imul_word v s)))) = signed 16 (x_of (gen (x86 s) rA)) * signed 16 v) /\
  (in_word 32 (gen (x86 s) rA) -> in_word 32 v ->
   let s' := snd (mul_long v s) in
   gen (x86 s') rA = u32 (gen (x86 s) rA * v) /\ gen (x86 s') rD = 0 /\ multiplied s s' false).
Proof.
  split; [|split].
  - intros Hv. split; [now apply mul_byte_run|now apply imul_byte_run].
  - intros Hv. split; [now apply mul_word_run|now apply imul_word_run].
  - apply mul_long_run.
Qed.

(** C40. Division on bytes, words and longs.  When the divisor is not 0 and the quotient fits,
    the accumulator pair holds quotient and remainder and only status flags change; for a
    divisor of 0 interrupt 0 is raised and nothing else changes.  It is raised for a quotient
    that does not fit too in the byte forms and IDIV of a word, and in DIV of a word
    while the quotient is below 2^31; of the long forms with such a quotient nothing is
    stated.  For IDIV a quotient fits when its absolute value is below half the range:
    nothing is stated of the smallest number of the width as a quotient, nor of the
    smallest dividend of IDIV on words and longs. *)
Theorem divide_correct v (s : Emu W) :
  (in_word 8 v ->
   (let a := x_of (gen (x86 s) rA) in
    let s' := snd (div_byte v s) in
    (quotient_fits 8 a v ->
     l_of (gen (x86 s') rA) = a / v /\ h_of (gen (x86 s') rA) = a mod v /\ divided s s') /\
    (~ quotient_fits 8 a v -> s' = raised s)) /\
   (let a := signed 16 (x_of (gen (x86 s) rA)) in
    let d := signed 8 v in
    let s' := snd (idiv_byte v s) in
    (signed_quotient_fits 8 a d ->
     signed 8 (l_of (gen (x86 s') rA)) = Z.quot a d /\ signed 8 (h_of (gen (x86 s') rA)) = Z.rem a d /\ divided s s') /\
    (signed_quotient_over 8 a d -> s' = raised s))) /\
  (in_word 16 v ->
   (let a := dx_ax (x86 s) in
    let s' := snd (div_word v s) in
    (quotient_fits 16 a v ->
     x_of (gen (x86 s') rA) = a / v /\ x_of (gen (x86 s') rD) = a mod v /\ divided s s') /\
    (~ quotient_fits 16 a v -> a / v < 2 ^ 31 -> s' = raised s)) /\
   (let a := signed 32 (dx_ax (x86 s)) in
    let d := signed 16 v in
    - 2 ^ 31 < a ->
    exists s', idiv_word v s = Some (tt, s') /\
    (signed_quotient_fits 16 a d ->
     signed 16 (x_of (gen (x86 s') rA)) = Z.quot a d /\ signed 16 (x_of (gen (x86 s') rD)) = Z.rem a d /\ divided s s') /\
    (signed_quotient_over 16 a d -> s' = raised s))) /\
  (in_word 32 v -> in_word 32 (gen (x86 s) rA) -> in_word 32 (gen (x86 s) rD) ->
   (let a := edx_eax (x86 s) in
    let s' := snd (div_long v s) in
    (quotient_fits 32 a v -> gen (x86 s') rA = a / v /\ gen (x86 s') rD = a mod v /\ divided s s') /\
    (v = 0 -> s' = raised s)) /\
   (let a := signed 64 (edx_eax (x86 s)) in
    let d := signed 32 v in
    - 2 ^ 63 < a ->
    exists s', idiv_long v s = Some (tt, s') /\
    (signed_quotient_fits 32 a d ->
     signed 32 (gen (x86 s') rA) = Z.quot a d /\ signed 32 (gen (x86 s') rD) = Z.rem a d /\ divided s s') /\
    (v = 0 -> s' = raised s))).
Proof.
  split; [|split].
  - intros Hv. split; [now apply div_byte_run|]. destruct (idiv_byte_run v s Hv) as [H1 H2]. split; [exact H1|].
    intros Ho. apply H2. now apply over_not_fits.
  - intros Hv. split; [now apply div_word_run|]. intros a d Ha. destruct (idiv_word_run v s Hv Ha) as (s' & H & H1 & H2).
    exists s'. split; [exact H|]. split; [exact H1|]. intros Ho. apply H2. now apply over_not_fits.
  - intros Hv HA HD. split; [|now apply idiv_long_run]. destruct (div_long_run v s Hv) as [H1 H2]. split; [|exact H2].
    intros [H0 Hq]. destruct (H1 H0) as (E & H). split; [|exact H]. rewrite E. apply wrap_small. split; [|exact Hq].
    pose proof (lor_long _ _ HD HA) as [Hlo _]. apply Z.div_pos; [exact Hlo|]. unfold in_word in Hv. lia.
Qed.
End Properties.

(** ** String input *)

Section Strings.
Context {P : Type}.
Variables (port_in : Z -> Z -> P -> Z * P) (port_out : Z -> Z -> Z -> P -> P).
#[local] Instance ports_sys : Sys bios_world := bios_sys port_in port_out.

(** The values [n] successive byte reads of [port] return, and the device after them. *)
Fixpoint port_bytes (n : nat) (port : Z) (p : P) : list Z * P :=
  match n with
  | O => ([], p)
  | S n => let (v, p) := port_in 1 port p in
           let (l, p) := port_bytes n port p in (v :: l, p)
  end.

(** The [i]-th address of the destination. *)
Definition dest (s : Emu (bios_world (P := P))) (i : Z) : Z :=
  linear (seg (x86 s) ES) (u16 (x_of (gen (x86 s) rDI) + i)).

Lemma transfer_run (s : Emu bios_world) :
  let (v, p) := port_in 1 (x_of (gen (x86 s) rD)) (ports (world s)) in
  snd (ins_transfer sys_inb store_data_byte_abs 1 s) =
  {| x86 := upd_gen (x86 s) rDI (x_set (gen (x86 s) rDI) (x_of (gen (x86 s) rDI) + 1));
     world := {| ram := fun b => if in_range (dest s 0) 1 b then u8 (Z.shiftr (u8 v) (8 * (b - dest s 0))) else ram (world s) b;
                 ports := p |} |}.
Proof.
  unfold dest. rewrite Z.add_0_r, x_of_u16.
  destruct (port_in 1 _ _) as [v p] eqn:E. unfold ins_transfer, bind, input, store_data_byte_abs, store, ret.
  cbn [fst snd x86 world gen seg get put set_x s_reg x_reg]. cbn [sys_inb ports_sys bios_sys]. unfold port_read.
  rewrite E. reflexivity.
Qed.
Lemma dest_distinct (s : Emu bios_world) i j :
  in_word 16 (seg (x86 s) ES) -> 0 <= i < j -> j - i < 65536 -> dest s i <> dest s j.
Proof.
  unfold in_word, dest, linear, u16, u32, wrap. intros Hs Hij Hd. rewrite Z.shiftl_mul_pow2 by lia.
  change (2 ^ 4) with 16. change (2 ^ 16) with 65536 in *. change (2 ^ 32) with 4294967296.
  rewrite !(Z.mod_small (seg (x86 s) ES * 16 + _)) by zlia. zlia.
Qed.

(** The state after [n] byte transfers with DF clear. *)
Record filled_from (n : nat) (s s' : Emu (bios_world (P := P))) : Prop := {
  filled_ports : ports (world s') = snd (port_bytes n (x_of (gen (x86 s) rD)) (ports (world s)));
  filled_gen : forall r, gen (x86 s') r =
    if greg_beq r rDI then x_set (gen (x86 s) rDI) (x_of (gen (x86 s) rDI) + Z.of_nat n) else gen (x86 s) r;
  filled_seg : forall r, seg (x86 s') r = seg (x86 s) r;
  filled_rest : R_FLG (x86 s') = R_FLG (x86 s) /\ mode (x86 s') = mode (x86 s);
  filled_bytes : forall i, (i < n)%nat ->
    ram_byte (ram (world s')) (dest s (Z.of_nat i)) =
    u8 (nth i (fst (port_bytes n (x_of (gen (x86 s) rD)) (ports (world s)))) 0);
  filled_other : forall b, (forall i, (i < n)%nat -> b <> dest s (Z.of_nat i)) ->
    ram (world s') b = ram (world s) b
}.

Lemma times_fill n : forall s : Emu bios_world,
  in_word 16 (seg (x86 s) ES) -> Z.of_nat n <= 65536 ->
  filled_from n s (snd (times n (ins_transfer sys_inb store_data_byte_abs 1) s)).
Proof.
  induction n as [|n IH]; intros s Hes Hn.
  - cbn [times snd ret]. split; auto; try lia. intros r. destruct r; cbn [greg_beq]; try reflexivity.
    symmetry. rewrite Z.add_0_r. apply x_set_x_of, wrap_idem.
  - cbn [times port_bytes]. unfold bind at 1.
    pose proof (transfer_run s) as Ht. revert Ht.
    destruct (port_in 1 (x_of (gen (x86 s) rD)) (ports (world s))) as [v p] eqn:Ep. intros Ht.
    destruct (ins_transfer _ _ _ s) as [[] s1] eqn:E1. cbn [snd] in Ht.
    assert (Hd : forall i, dest s1 i = dest s (i + 1)).
    { intros i. subst s1. unfold dest. cbn [x86 seg gen upd_gen greg_beq]. rewrite x_of_x_set.
      f_equal. rewrite u16_add. f_equal. lia. }
    destruct (IH s1) as [Hp Hg Hs Hr Hb Ho]; [subst s1; exact Hes|lia|].
    assert (E : gen (x86 s1) rD = gen (x86 s) rD /\ ports (world s1) = p) by (subst s1; split; reflexivity).
    destruct E as [ED EP]. rewrite ED, EP in *.
    destruct (port_bytes n (x_of (gen (x86 s) rD)) p) as [l p'] eqn:El. cbn [fst snd] in *.
    split; cbn [fst snd port_bytes].
    + rewrite Ep, El. exact Hp.
    + intros r. rewrite Hg. subst s1. destruct r; cbn [greg_beq x86 gen upd_gen]; try reflexivity.
      rewrite x_of_x_set, x_set_x_set, <- x_set_u16, u16_add, x_set_u16. f_equal. lia.
    + intros r. rewrite Hs. now subst s1.
    + destruct Hr as [-> ->]. now subst s1.
    + rewrite Ep, El. intros [|i] Hi; cbn [nth fst].
      * unfold ram_byte. rewrite Ho.
        -- subst s1. cbn [world ram]. change (Z.of_nat 0) with 0. rcase; [|lia].
           rewrite Z.sub_diag, Z.mul_0_r, Z.shiftr_0_r. unfold u8. now rewrite !wrap_idem.
        -- intros j Hj. rewrite Hd. apply dest_distinct; [easy|lia|lia].
      * rewrite Nat2Z.inj_succ, <- Z.add_1_r, <- Hd. apply Hb. lia.
    + intros b Hne. rewrite Ho.
      * subst s1. cbn [world ram]. pose proof (Hne 0%nat ltac:(lia)). change (Z.of_nat 0) with 0 in *.
        rcase; [lia|reflexivity].
      * intros j Hj. rewrite Hd. specialize (Hne (S j) ltac:(lia)).
        now rewrite Nat2Z.inj_succ, <- Z.add_1_r in Hne.
Qed.

Lemma on_flags_access {W} F (s : Emu W) :
  on_flags (ACCESS_FLAG F) s = (flag_of (R_FLG (x86 s)) F, s).
Proof. destruct s as [[] w]. reflexivity. Qed.

Lemma rep_insb_unfold (s : Emu bios_world) :
  flag_of (R_FLG (x86 s)) F_DF = false ->
  nz (Z.land (mode (x86 s)) SYSMODE_REP) = true ->
  nz (Z.land (mode (x86 s)) SYSMODE_PREFIX_DATA) = false ->
  ins 1 s =
  rep_done (snd (times (Z.to_nat (x_of (gen (x86 s) rC))) (ins_transfer sys_inb store_data_byte_abs 1) s)).
Proof.
  intros HD Hrep Hdata. unfold ins, rep_count, bind, ret. rewrite on_flags_access, HD.
  unfold get, e_reg, x_reg. cbn [get fst snd]. rewrite Hrep. cbn [fst snd]. rewrite Hdata. now destruct (times _ _ s).
Qed.

(** The end of a repeated instruction without operand-size prefix. *)
Lemma rep_done_run {W} (s : Emu W) :
  nz (Z.land (mode (x86 s)) SYSMODE_PREFIX_DATA) = false ->
  let s' := snd (rep_done s) in
  x_of (gen (x86 s') rC) = 0 /\
  (forall r, r <> rC -> gen (x86 s') r = gen (x86 s) r) /\
  nz (Z.land (mode (x86 s')) SYSMODE_REP) = false /\
  world s' = world s.
Proof.
  intros Hdata. unfold rep_done, bind, ret, get, set_x, set_e, set_mode, put.
  cbn [fst snd x86 world mode gen upd_gen upd_mode]. rewrite Hdata.
  cbn [fst snd x86 world mode gen upd_gen upd_mode greg_beq].
  split; [apply x_of_x_set|]. split; [intros r Hr; now destruct r|]. split; [|reflexivity].
  unfold nz. apply negb_false_iff, Z.eqb_eq, Z.land_ldiff.
Qed.

(** REP INSB with DF clear and a count in CX of at most 65535: successive
    bytes read from port DX are stored from ES:DI on, DI wrapping within its
    segment; the device has been read exactly CX times, DI has advanced by CX,
    CX is 0, the REP prefix is consumed, and no other byte of memory changes. *)
Theorem rep_insb_correct (s : Emu bios_world) :
  (forall r, in_word 16 (seg (x86 s) r)) ->
  flag_of (R_FLG (x86 s)) F_DF = false ->
  nz (Z.land (mode (x86 s)) SYSMODE_REP) = true ->
  nz (Z.land (mode (x86 s)) SYSMODE_PREFIX_DATA) = false ->
  let n := x_of (gen (x86 s) rC) in
  let s' := snd (ins 1 s) in
  let bytes := port_bytes (Z.to_nat n) (x_of (gen (x86 s) rD)) (ports (world s)) in
  ports (world s') = snd bytes /\
  x_of (gen (x86 s') rDI) = u16 (x_of (gen (x86 s) rDI) + n) /\
  x_of (gen (x86 s') rC) = 0 /\
  nz (Z.land (mode (x86 s')) SYSMODE_REP) = false /\
  (forall i, 0 <= i < n -> ram_byte (ram (world s')) (dest s i) = u8 (nth (Z.to_nat i) (fst bytes) 0)) /\
  (forall b, (forall i, 0 <= i < n -> b <> dest s i) -> ram (world s') b = ram (world s) b).
Proof.
  intros Hseg HD Hrep Hdata n s' bytes.
  assert (Hn : 0 <= n < 65536) by (exact (x_of_range (gen (x86 s) rC))).
  pose proof (times_fill (Z.to_nat n) s (Hseg ES) ltac:(lia)) as [Hp Hg Hs [_ Hm] Hb Ho].
  assert (E : s' = snd (rep_done (snd (times (Z.to_nat n) (ins_transfer sys_inb store_data_byte_abs 1) s)))).
  { subst s'. now rewrite rep_insb_unfold. }
  set (t := snd (times _ _ s)) in *. destruct (rep_done_run t) as (Hc & Hg' & Hm' & Hw); [congruence|].
  rewrite <- E in *. rewrite Hw. repeat split.
  - exact Hp.
  - rewrite Hg', Hg by easy. cbn [greg_beq]. rewrite x_of_x_set, Z2Nat.id by lia. reflexivity.
  - exact Hc.
  - exact Hm'.
  - intros i Hi. rewrite <- (Z2Nat.id i) at 1 by lia. apply Hb. lia.
  - intros b Hne. apply Ho. intros i Hi. apply Hne. lia.
Qed.
End Strings.

(** ** Witnesses *)

(** [boot] with EAX, EDX and ECX set. *)
Definition loaded (eax edx ecx : Z) : Emu bios_world :=
  {| x86 := upd_gen (upd_gen (upd_gen (x86 boot) rA eax) rD edx) rC ecx; world := world boot |}.

Lemma multiply_correct_witness :
  x_of (gen (x86 (snd (@mul_byte _ 200 (loaded 3 0 0)))) rA) = 600 /\
  dx_ax (x86 (snd (@mul_word _ 60000 (loaded 60000 0 0)))) = 3600000000.
Proof.
  split.
  - exact (proj1 (proj1 (proj1 (@multiply_correct _ 200 (loaded 3 0 0)) ltac:(split; reflexivity || discriminate)))).
  - exact (proj1 (proj1 (proj1 (proj2 (@multiply_correct _ 60000 (loaded 60000 0 0))) ltac:(split; reflexivity || discriminate)))).
Defined.

Lemma divide_correct_witness :
  l_of (gen (x86 (snd (@div_byte _ 7 (loaded 100 0 0)))) rA) = 14 /\
  snd (@div_byte _ 0 (loaded 100 0 0)) = raised (loaded 100 0 0).
Proof.
  split.
  - exact (proj1 (proj1 (proj1 (proj1 (@divide_correct _ 7 (loaded 100 0 0))
      ltac:(split; reflexivity || discriminate))) ltac:(split; [discriminate|reflexivity]))).
  - exact (proj2 (proj1 (proj1 (@divide_correct _ 0 (loaded 100 0 0))
      ltac:(split; reflexivity || discriminate))) ltac:(intros [H _]; exact (H eq_refl))).
Defined.

(** A device that counts up. *)
Definition counter_in (n addr : Z) (p : Z) : Z * Z := (p, p + 1).
Definition counter_out (n addr val : Z) (p : Z) : Z := val.

(** [REP INSB] of four bytes from port 0x60. *)
Definition reading : Emu bios_world :=
  let s := bios_init low_memory 65 in
  {| x86 := upd_mode (upd_gen (upd_gen (upd_gen (x86 s) rC 4) rD 0x60) rDI 0x500) SYSMODE_PREFIX_REPE;
     world := world s |}.

Lemma rep_insb_correct_witness :
  let s' := snd (@ins _ (bios_sys counter_in counter_out) 1 reading) in
  ports (world s') = 69 /\ ram_byte (ram (world s')) 0x502 = 67.
Proof.
  destruct (@rep_insb_correct _ counter_in counter_out reading) as (Hp & _ & _ & _ & Hb & _).
  - intros r. split; reflexivity || discriminate.
  - reflexivity.
  - reflexivity.
  - reflexivity.
  - split; [exact Hp|]. exact (Hb 2 ltac:(split; reflexivity || discriminate)).
Defined.

(** ** Departures from the processor *)

(** -1 * 1 sets CF and OF, as DX is compared with 0xFF. *)
Lemma imul_word_minus_one :
  flag_of (R_FLG (x86 (snd (@imul_word _ 1 (loaded 0xFFFF 0 0))))) F_CF = true.
Proof. reflexivity. Qed.

(** DIV accepts 0xFFFFFFFF / 1, whose quotient does not fit AX. *)
Lemma div_word_no_trap :
  intr (x86 (snd (@div_word _ 1 (loaded 0xFFFF 0xFFFF 0)))) = 0.
Proof. reflexivity. Qed.

(** IDIV refuses -128 / 1, whose quotient fits AL. *)
Lemma idiv_byte_trap_minus_128 :
  intr (x86 (snd (@idiv_byte _ 1 (loaded 0xFF80 0 0)))) = INTR_SYNCH.
Proof. reflexivity. Qed.

(** REP INSD with a count of four reads its port once. *)
Lemma rep_insd_once :
  ports (world (snd (@ins _ (bios_sys counter_in counter_out) 4 reading))) = 66.
Proof. reflexivity. Qed.
