(* ===== verification/X86Ops.v ===== *)
(** * What the opcode handlers of the x86 emulator are written in

    The handlers of [ops.c], [ops2.c] and [fpu.c] work on [M.x86] through the functions of
    the other files.  A handler is a computation that may fault ([None]): a null pointer that
    [decode_rm_seg_register] returns is dereferenced, a table of functions is read outside its
    bounds, or the fuel of a loop runs out.  The static variable of [x86emuOp2_rdtsc] is a
    part of the state.  Printing for the debugger, which is compiled out, and the messages of
    [printk] are not modelled. *)
From Stdlib Require Import ZArith Lia List Bool.
From S2P Require Import Prelude X86Flags X86Machine X86Decode.
Import ListNotations.
Local Open Scope Z_scope.
Local Open Scope err_scope.

(** The flags that PUSHF stores, and the bit that is always set. *)
Definition F_MSK : Z :=
  Z.lor F_CF (Z.lor F_PF (Z.lor F_AF (Z.lor F_ZF (Z.lor F_SF (Z.lor F_TF (Z.lor F_IF (Z.lor F_DF F_OF))))))).
Definition F_ALWAYS_ON : Z := 0x0002.

(** The emulator and the static [counter] of [x86emuOp2_rdtsc]. *)
Record Host (W : Type) := mkHost { emu : Emu W; counter : Z }.
Arguments mkHost {W} _ _.
Arguments emu {W} _.
Arguments counter {W} _.

Definition Op (W A : Type) : Type := StateE (Host W) A.

Section Ops.
Context {W : Type} {sys : Sys W}.
Local Abbreviation Op := (Op W).

(** A function of the other files, and one that works on the flags only. *)
Definition run {A} (f : Run W A) : Op A := fun h => let (a, s) := f (emu h) in Some (a, mkHost s (counter h)).
Definition flags {A} (f : Flags A) : Op A := run (on_flags f).

(** A function that may trap. *)
Definition run_e {A} (f : StateE (Emu W) A) : Op A := fun h =>
  match f (emu h) with Some (a, s) => Some (a, mkHost s (counter h)) | None => None end.

(** [static u64 counter]. *)
Definition get_counter : Op Z := egets counter.
Definition set_counter (c : Z) : Op unit := emodify (fun h => mkHost (emu h) c).

(** [*p] of a pointer to a register, and [*p = v]. *)
Definition deref {A} (p : option A) : Op A := elift p.

Definition rd_8 (p : option breg) : Op Z := b <- deref p;; match b with Lo r => run (l_reg r) | Hi r => run (h_reg r) end.
Definition rd_16 (p : option greg) : Op Z := r <- deref p;; run (x_reg r).
Definition rd_32 (p : option greg) : Op Z := r <- deref p;; run (e_reg r).
Definition rd_s (p : option sreg) : Op Z := r <- deref p;; run (s_reg r).

Definition wr_8 (p : option breg) (v : Z) : Op unit := b <- deref p;; match b with Lo r => run (set_l r v) | Hi r => run (set_h r v) end.
Definition wr_16 (p : option greg) (v : Z) : Op unit := r <- deref p;; run (set_x r v).
Definition wr_32 (p : option greg) (v : Z) : Op unit := r <- deref p;; run (set_e r v).
Definition wr_s (p : option sreg) (v : Z) : Op unit := r <- deref p;; run (set_s r v).

(** [table[i]]. *)
Definition entry {A} (table : list A) (i : Z) : Op A := elift (if i <? 0 then None else nth_error table (Z.to_nat i)).

(** A loop: the body says whether it was left. *)
Fixpoint loop {A} (fuel : nat) (body : A -> Op (bool * A)) (a : A) : Op A :=
  match fuel with
  | O => efail
  | S n => r <- body a;; let '(stop, a') := r in if stop : bool then eret a' else loop n body a'
  end.
End Ops.

(** ** Covering a table by stretches *)

Lemma numbers_in (lo n : nat) (op : Z) : Z.of_nat lo <= op < Z.of_nat lo + Z.of_nat n -> In op (List.map Z.of_nat (seq lo n)).
Proof. intros H. apply in_map_iff. exists (Z.to_nat op). split; [lia|]. apply in_seq. lia. Qed.

Lemma stretch (P : Z -> Prop) (lo n : nat) op :
  Forall P (List.map Z.of_nat (seq lo n)) -> Z.of_nat lo <= op < Z.of_nat lo + Z.of_nat n -> P op.
Proof. intros H Hop. rewrite Forall_forall in H. apply H, numbers_in, Hop. Qed.
