(* ===== verification/X86OpsExt.v ===== *)
(** * Opcodes of two bytes and of the coprocessor

    The handlers of [ops2.c] with their table, and those of [fpu.c] as built without a
    coprocessor, which decode their operand and do nothing, each
    handler as a computation of [X86Ops], in the order of the source. *)
From Stdlib Require Import ZArith Lia List Bool.
From S2P Require Import Prelude X86Flags X86Alu X86Shift X86Machine X86Decode X86MulDiv X86Ops.
Import ListNotations.
Local Open Scope Z_scope.
Local Open Scope err_scope.

Section Handlers.
Context {W : Type} {sys : Sys W}.
Local Abbreviation Op := (Op W).

Definition x86emuOp2_illegal_op (op2 : Z) : Op unit :=
  run HALT_SYS.

Definition x86emuOp2_rdtsc (op2 : Z) : Op unit :=
  c <- get_counter;;
  set_counter (c + 0x10000);;
  c <- get_counter;;
  run (set_e rA (Z.land c 0xffffffff));;
  c <- get_counter;;
  run (set_e rD (Z.shiftr c 32));;
  run DECODE_CLEAR_SEGOVR.

Definition x86emuOp2_long_jump (op2 : Z) : Op unit :=
  let cond := false in
  cond <- (match op2 with
   | 0x80 => flags (ACCESS_FLAG F_OF)
   | 0x81 =>
       of_ <- flags (ACCESS_FLAG F_OF);;
       eret (negb of_)
   | 0x82 => flags (ACCESS_FLAG F_CF)
   | 0x83 =>
       cf_ <- flags (ACCESS_FLAG F_CF);;
       eret (negb cf_)
   | 0x84 => flags (ACCESS_FLAG F_ZF)
   | 0x85 =>
       zf_ <- flags (ACCESS_FLAG F_ZF);;
       eret (negb zf_)
   | 0x86 =>
       cf_ <- flags (ACCESS_FLAG F_CF);;
       zf_ <- flags (ACCESS_FLAG F_ZF);;
       eret (cf_ || zf_)
   | 0x87 =>
       cf_ <- flags (ACCESS_FLAG F_CF);;
       zf_ <- flags (ACCESS_FLAG F_ZF);;
       eret (negb (cf_ || zf_))
   | 0x88 => flags (ACCESS_FLAG F_SF)
   | 0x89 =>
       sf_ <- flags (ACCESS_FLAG F_SF);;
       eret (negb sf_)
   | 0x8a => flags (ACCESS_FLAG F_PF)
   | 0x8b =>
       pf_ <- flags (ACCESS_FLAG F_PF);;
       eret (negb pf_)
   | 0x8c =>
       sf_ <- flags (ACCESS_FLAG F_SF);;
       of_ <- flags (ACCESS_FLAG F_OF);;
       eret ((sf_ && negb of_) || (negb sf_ && of_))
   | 0x8d =>
       sf_ <- flags (ACCESS_FLAG F_SF);;
       of_ <- flags (ACCESS_FLAG F_OF);;
       eret (negb ((sf_ && negb of_) || (negb sf_ && of_)))
   | 0x8e =>
       sf_ <- flags (ACCESS_FLAG F_SF);;
       of_ <- flags (ACCESS_FLAG F_OF);;
       zf_ <- flags (ACCESS_FLAG F_ZF);;
       eret (((sf_ && negb of_) || (negb sf_ && of_)) || zf_)
   | 0x8f =>
       sf_ <- flags (ACCESS_FLAG F_SF);;
       of_ <- flags (ACCESS_FLAG F_OF);;
       zf_ <- flags (ACCESS_FLAG F_ZF);;
       eret (negb (((sf_ && negb of_) || (negb sf_ && of_)) || zf_))
   | _ => eret cond
   end);;
  w <- run fetch_word_imm;;
  let target := signed 16 w in
  ip <- run (x_reg rIP);;
  let target := target + (signed 16 ip) in
  (if cond then run (set_x rIP (u16 target)) else eret tt);;
  run DECODE_CLEAR_SEGOVR.

Definition x86emuOp2_set_byte (op2 : Z) : Op unit :=
  let cond := false in
  cond <- (match op2 with
   | 0x90 => flags (ACCESS_FLAG F_OF)
   | 0x91 =>
       of_ <- flags (ACCESS_FLAG F_OF);;
       eret (negb of_)
   | 0x92 => flags (ACCESS_FLAG F_CF)
   | 0x93 =>
       cf_ <- flags (ACCESS_FLAG F_CF);;
       eret (negb cf_)
   | 0x94 => flags (ACCESS_FLAG F_ZF)
   | 0x95 =>
       zf_ <- flags (ACCESS_FLAG F_ZF);;
       eret (negb zf_)
   | 0x96 =>
       cf_ <- flags (ACCESS_FLAG F_CF);;
       zf_ <- flags (ACCESS_FLAG F_ZF);;
       eret (cf_ || zf_)
   | 0x97 =>
       cf_ <- flags (ACCESS_FLAG F_CF);;
       zf_ <- flags (ACCESS_FLAG F_ZF);;
       eret (negb (cf_ || zf_))
   | 0x98 => flags (ACCESS_FLAG F_SF)
   | 0x99 =>
       sf_ <- flags (ACCESS_FLAG F_SF);;
       eret (negb sf_)
   | 0x9a => flags (ACCESS_FLAG F_PF)
   | 0x9b =>
       pf_ <- flags (ACCESS_FLAG F_PF);;
       eret (negb pf_)
   | 0x9c =>
       sf_ <- flags (ACCESS_FLAG F_SF);;
       of_ <- flags (ACCESS_FLAG F_OF);;
       eret ((sf_ && negb of_) || (negb sf_ && of_))
   | 0x9d =>
       sf_ <- flags (ACCESS_FLAG F_SF);;
       of_ <- flags (ACCESS_FLAG F_OF);;
       eret ((sf_ && negb of_) || (negb sf_ && of_))
   | 0x9e =>
       sf_ <- flags (ACCESS_FLAG F_SF);;
       of_ <- flags (ACCESS_FLAG F_OF);;
       zf_ <- flags (ACCESS_FLAG F_ZF);;
       eret (((sf_ && negb of_) || (negb sf_ && of_)) || zf_)
   | 0x9f =>
       sf_ <- flags (ACCESS_FLAG F_SF);;
       of_ <- flags (ACCESS_FLAG F_OF);;
       zf_ <- flags (ACCESS_FLAG F_ZF);;
       eret (negb (((sf_ && negb of_) || (negb sf_ && of_)) || zf_))
   | _ => eret cond
   end);;
  modrm <- run fetch_decode_modrm;;
  let '(md, rh, rl) := modrm in
  (match md with
   | 0 =>
       destoffset <- run (decode_rm00_address rl);;
       run (store_data_byte destoffset (u8 (if cond then 0x01 else 0x00)))
   | 1 =>
       destoffset <- run (decode_rm01_address rl);;
       run (store_data_byte destoffset (u8 (if cond then 0x01 else 0x00)))
   | 2 =>
       destoffset <- run (decode_rm10_address rl);;
       run (store_data_byte destoffset (u8 (if cond then 0x01 else 0x00)))
   | 3 =>
       destreg <- run (decode_rm_byte_register rl);;
       wr_8 destreg (u8 (if cond then 0x01 else 0x00))
   | _ => eret tt
   end);;
  run DECODE_CLEAR_SEGOVR.

Definition x86emuOp2_push_FS (op2 : Z) : Op unit :=
  fs <- run (s_reg FS);;
  run (push_word fs);;
  run DECODE_CLEAR_SEGOVR.

Definition x86emuOp2_pop_FS (op2 : Z) : Op unit :=
  w <- run pop_word;;
  run (set_s FS w);;
  run DECODE_CLEAR_SEGOVR.

Definition x86emuOp2_bt_R (op2 : Z) : Op unit :=
  modrm <- run fetch_decode_modrm;;
  let '(md, rh, rl) := modrm in
  (match md with
   | 0 =>
       m <- run (get mode);;
       if nz (Z.land m SYSMODE_PREFIX_DATA) then
         srcoffset <- run (decode_rm00_address rl);;
         shiftreg <- run (decode_rm_long_register rh);;
         sh <- rd_32 shiftreg;;
         let bit := signed 32 (Z.land sh 0x1f) in
         sh <- rd_32 shiftreg;;
         let disp := Z.shiftr (signed 16 (u16 sh)) 5 in
         srcval <- run (fetch_data_long (u32 (srcoffset + (u32 disp))));;
         flags (CONDITIONAL_SET_FLAG (nz (Z.land srcval (u32 (Z.shiftl 0x1 bit)))) F_CF)
       else
         srcoffset <- run (decode_rm00_address rl);;
         shiftreg <- run (decode_rm_word_register rh);;
         sh <- rd_16 shiftreg;;
         let bit := Z.land sh 0xf in
         sh <- rd_16 shiftreg;;
         let disp := Z.shiftr (signed 16 sh) 4 in
         srcval <- run (fetch_data_word (u32 (srcoffset + (u32 disp))));;
         flags (CONDITIONAL_SET_FLAG (nz (Z.land srcval (Z.shiftl 0x1 bit))) F_CF)
   | 1 =>
       m <- run (get mode);;
       if nz (Z.land m SYSMODE_PREFIX_DATA) then
         srcoffset <- run (decode_rm01_address rl);;
         shiftreg <- run (decode_rm_long_register rh);;
         sh <- rd_32 shiftreg;;
         let bit := signed 32 (Z.land sh 0x1f) in
         sh <- rd_32 shiftreg;;
         let disp := Z.shiftr (signed 16 (u16 sh)) 5 in
         srcval <- run (fetch_data_long (u32 (srcoffset + (u32 disp))));;
         flags (CONDITIONAL_SET_FLAG (nz (Z.land srcval (u32 (Z.shiftl 0x1 bit)))) F_CF)
       else
         srcoffset <- run (decode_rm01_address rl);;
         shiftreg <- run (decode_rm_word_register rh);;
         sh <- rd_16 shiftreg;;
         let bit := Z.land sh 0xf in
         sh <- rd_16 shiftreg;;
         let disp := Z.shiftr (signed 16 sh) 4 in
         srcval <- run (fetch_data_word (u32 (srcoffset + (u32 disp))));;
         flags (CONDITIONAL_SET_FLAG (nz (Z.land srcval (Z.shiftl 0x1 bit))) F_CF)
   | 2 =>
       m <- run (get mode);;
       if nz (Z.land m SYSMODE_PREFIX_DATA) then
         srcoffset <- run (decode_rm10_address rl);;
         shiftreg <- run (decode_rm_long_register rh);;
         sh <- rd_32 shiftreg;;
         let bit := signed 32 (Z.land sh 0x1f) in
         sh <- rd_32 shiftreg;;
         let disp := Z.shiftr (signed 16 (u16 sh)) 5 in
         srcval <- run (fetch_data_long (u32 (srcoffset + (u32 disp))));;
         flags (CONDITIONAL_SET_FLAG (nz (Z.land srcval (u32 (Z.shiftl 0x1 bit)))) F_CF)
       else
         srcoffset <- run (decode_rm10_address rl);;
         shiftreg <- run (decode_rm_word_register rh);;
         sh <- rd_16 shiftreg;;
         let bit := Z.land sh 0xf in
         sh <- rd_16 shiftreg;;
         let disp := Z.shiftr (signed 16 sh) 4 in
         srcval <- run (fetch_data_word (u32 (srcoffset + (u32 disp))));;
         flags (CONDITIONAL_SET_FLAG (nz (Z.land srcval (Z.shiftl 0x1 bit))) F_CF)
   | 3 =>
       m <- run (get mode);;
       if nz (Z.land m SYSMODE_PREFIX_DATA) then
         srcreg <- run (decode_rm_long_register rl);;
         shiftreg <- run (decode_rm_long_register rh);;
         sh <- rd_32 shiftreg;;
         let bit := signed 32 (Z.land sh 0x1f) in
         src <- rd_32 srcreg;;
         flags (CONDITIONAL_SET_FLAG (nz (Z.land src (u32 (Z.shiftl 0x1 bit)))) F_CF)
       else
         srcreg <- run (decode_rm_word_register rl);;
         shiftreg <- run (decode_rm_word_register rh);;
         sh <- rd_16 shiftreg;;
         let bit := Z.land sh 0xf in
         src <- rd_16 srcreg;;
         flags (CONDITIONAL_SET_FLAG (nz (Z.land src (Z.shiftl 0x1 bit))) F_CF)
   | _ => eret tt
   end);;
  run DECODE_CLEAR_SEGOVR.

Definition x86emuOp2_shld_IMM (op2 : Z) : Op unit :=
  modrm <- run fetch_decode_modrm;;
  let '(md, rh, rl) := modrm in
  (match md with
   | 0 =>
       m <- run (get mode);;
       if nz (Z.land m SYSMODE_PREFIX_DATA) then
         destoffset <- run (decode_rm00_address rl);;
         shiftreg <- run (decode_rm_long_register rh);;
         shift <- run fetch_byte_imm;;
         destval <- run (fetch_data_long destoffset);;
         sh <- rd_32 shiftreg;;
         destval <- flags (shld_long destval sh shift);;
         run (store_data_long destoffset destval)
       else
         destoffset <- run (decode_rm00_address rl);;
         shiftreg <- run (decode_rm_word_register rh);;
         shift <- run fetch_byte_imm;;
         destval <- run (fetch_data_word destoffset);;
         sh <- rd_16 shiftreg;;
         destval <- flags (shld_word destval sh shift);;
         run (store_data_word destoffset destval)
   | 1 =>
       m <- run (get mode);;
       if nz (Z.land m SYSMODE_PREFIX_DATA) then
         destoffset <- run (decode_rm01_address rl);;
         shiftreg <- run (decode_rm_long_register rh);;
         shift <- run fetch_byte_imm;;
         destval <- run (fetch_data_long destoffset);;
         sh <- rd_32 shiftreg;;
         destval <- flags (shld_long destval sh shift);;
         run (store_data_long destoffset destval)
       else
         destoffset <- run (decode_rm01_address rl);;
         shiftreg <- run (decode_rm_word_register rh);;
         shift <- run fetch_byte_imm;;
         destval <- run (fetch_data_word destoffset);;
         sh <- rd_16 shiftreg;;
         destval <- flags (shld_word destval sh shift);;
         run (store_data_word destoffset destval)
   | 2 =>
       m <- run (get mode);;
       if nz (Z.land m SYSMODE_PREFIX_DATA) then
         destoffset <- run (decode_rm10_address rl);;
         shiftreg <- run (decode_rm_long_register rh);;
         shift <- run fetch_byte_imm;;
         destval <- run (fetch_data_long destoffset);;
         sh <- rd_32 shiftreg;;
         destval <- flags (shld_long destval sh shift);;
         run (store_data_long destoffset destval)
       else
         destoffset <- run (decode_rm10_address rl);;
         shiftreg <- run (decode_rm_word_register rh);;
         shift <- run fetch_byte_imm;;
         destval <- run (fetch_data_word destoffset);;
         sh <- rd_16 shiftreg;;
         destval <- flags (shld_word destval sh shift);;
         run (store_data_word destoffset destval)
   | 3 =>
       m <- run (get mode);;
       if nz (Z.land m SYSMODE_PREFIX_DATA) then
         destreg <- run (decode_rm_long_register rl);;
         shiftreg <- run (decode_rm_long_register rh);;
         shift <- run fetch_byte_imm;;
         dst <- rd_32 destreg;;
         sh <- rd_32 shiftreg;;
         l <- flags (shld_long dst sh shift);;
         wr_32 destreg l
       else
         destreg <- run (decode_rm_word_register rl);;
         shiftreg <- run (decode_rm_word_register rh);;
         shift <- run fetch_byte_imm;;
         dst <- rd_16 destreg;;
         sh <- rd_16 shiftreg;;
         w <- flags (shld_word dst sh shift);;
         wr_16 destreg w
   | _ => eret tt
   end);;
  run DECODE_CLEAR_SEGOVR.

Definition x86emuOp2_shld_CL (op2 : Z) : Op unit :=
  modrm <- run fetch_decode_modrm;;
  let '(md, rh, rl) := modrm in
  (match md with
   | 0 =>
       m <- run (get mode);;
       if nz (Z.land m SYSMODE_PREFIX_DATA) then
         destoffset <- run (decode_rm00_address rl);;
         shiftreg <- run (decode_rm_long_register rh);;
         destval <- run (fetch_data_long destoffset);;
         sh <- rd_32 shiftreg;;
         cl <- run (l_reg rC);;
         destval <- flags (shld_long destval sh cl);;
         run (store_data_long destoffset destval)
       else
         destoffset <- run (decode_rm00_address rl);;
         shiftreg <- run (decode_rm_word_register rh);;
         destval <- run (fetch_data_word destoffset);;
         sh <- rd_16 shiftreg;;
         cl <- run (l_reg rC);;
         destval <- flags (shld_word destval sh cl);;
         run (store_data_word destoffset destval)
   | 1 =>
       m <- run (get mode);;
       if nz (Z.land m SYSMODE_PREFIX_DATA) then
         destoffset <- run (decode_rm01_address rl);;
         shiftreg <- run (decode_rm_long_register rh);;
         destval <- run (fetch_data_long destoffset);;
         sh <- rd_32 shiftreg;;
         cl <- run (l_reg rC);;
         destval <- flags (shld_long destval sh cl);;
         run (store_data_long destoffset destval)
       else
         destoffset <- run (decode_rm01_address rl);;
         shiftreg <- run (decode_rm_word_register rh);;
         destval <- run (fetch_data_word destoffset);;
         sh <- rd_16 shiftreg;;
         cl <- run (l_reg rC);;
         destval <- flags (shld_word destval sh cl);;
         run (store_data_word destoffset destval)
   | 2 =>
       m <- run (get mode);;
       if nz (Z.land m SYSMODE_PREFIX_DATA) then
         destoffset <- run (decode_rm10_address rl);;
         shiftreg <- run (decode_rm_long_register rh);;
         destval <- run (fetch_data_long destoffset);;
         sh <- rd_32 shiftreg;;
         cl <- run (l_reg rC);;
         destval <- flags (shld_long destval sh cl);;
         run (store_data_long destoffset destval)
       else
         destoffset <- run (decode_rm10_address rl);;
         shiftreg <- run (decode_rm_word_register rh);;
         destval <- run (fetch_data_word destoffset);;
         sh <- rd_16 shiftreg;;
         cl <- run (l_reg rC);;
         destval <- flags (shld_word destval sh cl);;
         run (store_data_word destoffset destval)
   | 3 =>
       m <- run (get mode);;
       if nz (Z.land m SYSMODE_PREFIX_DATA) then
         destreg <- run (decode_rm_long_register rl);;
         shiftreg <- run (decode_rm_long_register rh);;
         dst <- rd_32 destreg;;
         sh <- rd_32 shiftreg;;
         cl <- run (l_reg rC);;
         l <- flags (shld_long dst sh cl);;
         wr_32 destreg l
       else
         destreg <- run (decode_rm_word_register rl);;
         shiftreg <- run (decode_rm_word_register rh);;
         dst <- rd_16 destreg;;
         sh <- rd_16 shiftreg;;
         cl <- run (l_reg rC);;
         w <- flags (shld_word dst sh cl);;
         wr_16 destreg w
   | _ => eret tt
   end);;
  run DECODE_CLEAR_SEGOVR.

Definition x86emuOp2_push_GS (op2 : Z) : Op unit :=
  gs <- run (s_reg GS);;
  run (push_word gs);;
  run DECODE_CLEAR_SEGOVR.

Definition x86emuOp2_pop_GS (op2 : Z) : Op unit :=
  w <- run pop_word;;
  run (set_s GS w);;
  run DECODE_CLEAR_SEGOVR.

Definition x86emuOp2_bts_R (op2 : Z) : Op unit :=
  modrm <- run fetch_decode_modrm;;
  let '(md, rh, rl) := modrm in
  (match md with
   | 0 =>
       m <- run (get mode);;
       if nz (Z.land m SYSMODE_PREFIX_DATA) then
         srcoffset <- run (decode_rm00_address rl);;
         shiftreg <- run (decode_rm_long_register rh);;
         sh <- rd_32 shiftreg;;
         let bit := signed 32 (Z.land sh 0x1f) in
         sh <- rd_32 shiftreg;;
         let disp := Z.shiftr (signed 16 (u16 sh)) 5 in
         srcval <- run (fetch_data_long (u32 (srcoffset + (u32 disp))));;
         let mask := u32 (Z.shiftl 0x1 bit) in
         flags (CONDITIONAL_SET_FLAG (nz (Z.land srcval mask)) F_CF);;
         run (store_data_long (u32 (srcoffset + (u32 disp))) (Z.lor srcval mask))
       else
         srcoffset <- run (decode_rm00_address rl);;
         shiftreg <- run (decode_rm_word_register rh);;
         sh <- rd_16 shiftreg;;
         let bit := Z.land sh 0xf in
         sh <- rd_16 shiftreg;;
         let disp := Z.shiftr (signed 16 sh) 4 in
         srcval <- run (fetch_data_word (u32 (srcoffset + (u32 disp))));;
         let mask := u16 (Z.shiftl 0x1 bit) in
         flags (CONDITIONAL_SET_FLAG (nz (Z.land srcval mask)) F_CF);;
         run (store_data_word (u32 (srcoffset + (u32 disp))) (u16 (Z.lor srcval mask)))
   | 1 =>
       m <- run (get mode);;
       if nz (Z.land m SYSMODE_PREFIX_DATA) then
         srcoffset <- run (decode_rm01_address rl);;
         shiftreg <- run (decode_rm_long_register rh);;
         sh <- rd_32 shiftreg;;
         let bit := signed 32 (Z.land sh 0x1f) in
         sh <- rd_32 shiftreg;;
         let disp := Z.shiftr (signed 16 (u16 sh)) 5 in
         srcval <- run (fetch_data_long (u32 (srcoffset + (u32 disp))));;
         let mask := u32 (Z.shiftl 0x1 bit) in
         flags (CONDITIONAL_SET_FLAG (nz (Z.land srcval mask)) F_CF);;
         run (store_data_long (u32 (srcoffset + (u32 disp))) (Z.lor srcval mask))
       else
         srcoffset <- run (decode_rm01_address rl);;
         shiftreg <- run (decode_rm_word_register rh);;
         sh <- rd_16 shiftreg;;
         let bit := Z.land sh 0xf in
         sh <- rd_16 shiftreg;;
         let disp := Z.shiftr (signed 16 sh) 4 in
         srcval <- run (fetch_data_word (u32 (srcoffset + (u32 disp))));;
         let mask := u16 (Z.shiftl 0x1 bit) in
         flags (CONDITIONAL_SET_FLAG (nz (Z.land srcval mask)) F_CF);;
         run (store_data_word (u32 (srcoffset + (u32 disp))) (u16 (Z.lor srcval mask)))
   | 2 =>
       m <- run (get mode);;
       if nz (Z.land m SYSMODE_PREFIX_DATA) then
         srcoffset <- run (decode_rm10_address rl);;
         shiftreg <- run (decode_rm_long_register rh);;
         sh <- rd_32 shiftreg;;
         let bit := signed 32 (Z.land sh 0x1f) in
         sh <- rd_32 shiftreg;;
         let disp := Z.shiftr (signed 16 (u16 sh)) 5 in
         srcval <- run (fetch_data_long (u32 (srcoffset + (u32 disp))));;
         let mask := u32 (Z.shiftl 0x1 bit) in
         flags (CONDITIONAL_SET_FLAG (nz (Z.land srcval mask)) F_CF);;
         run (store_data_long (u32 (srcoffset + (u32 disp))) (Z.lor srcval mask))
       else
         srcoffset <- run (decode_rm10_address rl);;
         shiftreg <- run (decode_rm_word_register rh);;
         sh <- rd_16 shiftreg;;
         let bit := Z.land sh 0xf in
         sh <- rd_16 shiftreg;;
         let disp := Z.shiftr (signed 16 sh) 4 in
         srcval <- run (fetch_data_word (u32 (srcoffset + (u32 disp))));;
         let mask := u16 (Z.shiftl 0x1 bit) in
         flags (CONDITIONAL_SET_FLAG (nz (Z.land srcval mask)) F_CF);;
         run (store_data_word (u32 (srcoffset + (u32 disp))) (u16 (Z.lor srcval mask)))
   | 3 =>
       m <- run (get mode);;
       if nz (Z.land m SYSMODE_PREFIX_DATA) then
         srcreg <- run (decode_rm_long_register rl);;
         shiftreg <- run (decode_rm_long_register rh);;
         sh <- rd_32 shiftreg;;
         let bit := signed 32 (Z.land sh 0x1f) in
         let mask := u32 (Z.shiftl 0x1 bit) in
         src <- rd_32 srcreg;;
         flags (CONDITIONAL_SET_FLAG (nz (Z.land src mask)) F_CF);;
         src <- rd_32 srcreg;;
         wr_32 srcreg (Z.lor src mask)
       else
         srcreg <- run (decode_rm_word_register rl);;
         shiftreg <- run (decode_rm_word_register rh);;
         sh <- rd_16 shiftreg;;
         let bit := Z.land sh 0xf in
         let mask := u16 (Z.shiftl 0x1 bit) in
         src <- rd_16 srcreg;;
         flags (CONDITIONAL_SET_FLAG (nz (Z.land src mask)) F_CF);;
         src <- rd_16 srcreg;;
         wr_16 srcreg (u16 (Z.lor src mask))
   | _ => eret tt
   end);;
  run DECODE_CLEAR_SEGOVR.

Definition x86emuOp2_shrd_IMM (op2 : Z) : Op unit :=
  modrm <- run fetch_decode_modrm;;
  let '(md, rh, rl) := modrm in
  (match md with
   | 0 =>
       m <- run (get mode);;
       if nz (Z.land m SYSMODE_PREFIX_DATA) then
         destoffset <- run (decode_rm00_address rl);;
         shiftreg <- run (decode_rm_long_register rh);;
         shift <- run fetch_byte_imm;;
         destval <- run (fetch_data_long destoffset);;
         sh <- rd_32 shiftreg;;
         destval <- flags (shrd_long destval sh shift);;
         run (store_data_long destoffset destval)
       else
         destoffset <- run (decode_rm00_address rl);;
         shiftreg <- run (decode_rm_word_register rh);;
         shift <- run fetch_byte_imm;;
         destval <- run (fetch_data_word destoffset);;
         sh <- rd_16 shiftreg;;
         destval <- flags (shrd_word destval sh shift);;
         run (store_data_word destoffset destval)
   | 1 =>
       m <- run (get mode);;
       if nz (Z.land m SYSMODE_PREFIX_DATA) then
         destoffset <- run (decode_rm01_address rl);;
         shiftreg <- run (decode_rm_long_register rh);;
         shift <- run fetch_byte_imm;;
         destval <- run (fetch_data_long destoffset);;
         sh <- rd_32 shiftreg;;
         destval <- flags (shrd_long destval sh shift);;
         run (store_data_long destoffset destval)
       else
         destoffset <- run (decode_rm01_address rl);;
         shiftreg <- run (decode_rm_word_register rh);;
         shift <- run fetch_byte_imm;;
         destval <- run (fetch_data_word destoffset);;
         sh <- rd_16 shiftreg;;
         destval <- flags (shrd_word destval sh shift);;
         run (store_data_word destoffset destval)
   | 2 =>
       m <- run (get mode);;
       if nz (Z.land m SYSMODE_PREFIX_DATA) then
         destoffset <- run (decode_rm10_address rl);;
         shiftreg <- run (decode_rm_long_register rh);;
         shift <- run fetch_byte_imm;;
         destval <- run (fetch_data_long destoffset);;
         sh <- rd_32 shiftreg;;
         destval <- flags (shrd_long destval sh shift);;
         run (store_data_long destoffset destval)
       else
         destoffset <- run (decode_rm10_address rl);;
         shiftreg <- run (decode_rm_word_register rh);;
         shift <- run fetch_byte_imm;;
         destval <- run (fetch_data_word destoffset);;
         sh <- rd_16 shiftreg;;
         destval <- flags (shrd_word destval sh shift);;
         run (store_data_word destoffset destval)
   | 3 =>
       m <- run (get mode);;
       if nz (Z.land m SYSMODE_PREFIX_DATA) then
         destreg <- run (decode_rm_long_register rl);;
         shiftreg <- run (decode_rm_long_register rh);;
         shift <- run fetch_byte_imm;;
         dst <- rd_32 destreg;;
         sh <- rd_32 shiftreg;;
         l <- flags (shrd_long dst sh shift);;
         wr_32 destreg l
       else
         destreg <- run (decode_rm_word_register rl);;
         shiftreg <- run (decode_rm_word_register rh);;
         shift <- run fetch_byte_imm;;
         dst <- rd_16 destreg;;
         sh <- rd_16 shiftreg;;
         w <- flags (shrd_word dst sh shift);;
         wr_16 destreg w
   | _ => eret tt
   end);;
  run DECODE_CLEAR_SEGOVR.

Definition x86emuOp2_shrd_CL (op2 : Z) : Op unit :=
  modrm <- run fetch_decode_modrm;;
  let '(md, rh, rl) := modrm in
  (match md with
   | 0 =>
       m <- run (get mode);;
       if nz (Z.land m SYSMODE_PREFIX_DATA) then
         destoffset <- run (decode_rm00_address rl);;
         shiftreg <- run (decode_rm_long_register rh);;
         destval <- run (fetch_data_long destoffset);;
         sh <- rd_32 shiftreg;;
         cl <- run (l_reg rC);;
         destval <- flags (shrd_long destval sh cl);;
         run (store_data_long destoffset destval)
       else
         destoffset <- run (decode_rm00_address rl);;
         shiftreg <- run (decode_rm_word_register rh);;
         destval <- run (fetch_data_word destoffset);;
         sh <- rd_16 shiftreg;;
         cl <- run (l_reg rC);;
         destval <- flags (shrd_word destval sh cl);;
         run (store_data_word destoffset destval)
   | 1 =>
       m <- run (get mode);;
       if nz (Z.land m SYSMODE_PREFIX_DATA) then
         destoffset <- run (decode_rm01_address rl);;
         shiftreg <- run (decode_rm_long_register rh);;
         destval <- run (fetch_data_long destoffset);;
         sh <- rd_32 shiftreg;;
         cl <- run (l_reg rC);;
         destval <- flags (shrd_long destval sh cl);;
         run (store_data_long destoffset destval)
       else
         destoffset <- run (decode_rm01_address rl);;
         shiftreg <- run (decode_rm_word_register rh);;
         destval <- run (fetch_data_word destoffset);;
         sh <- rd_16 shiftreg;;
         cl <- run (l_reg rC);;
         destval <- flags (shrd_word destval sh cl);;
         run (store_data_word destoffset destval)
   | 2 =>
       m <- run (get mode);;
       if nz (Z.land m SYSMODE_PREFIX_DATA) then
         destoffset <- run (decode_rm10_address rl);;
         shiftreg <- run (decode_rm_long_register rh);;
         destval <- run (fetch_data_long destoffset);;
         sh <- rd_32 shiftreg;;
         cl <- run (l_reg rC);;
         destval <- flags (shrd_long destval sh cl);;
         run (store_data_long destoffset destval)
       else
         destoffset <- run (decode_rm10_address rl);;
         shiftreg <- run (decode_rm_word_register rh);;
         destval <- run (fetch_data_word destoffset);;
         sh <- rd_16 shiftreg;;
         cl <- run (l_reg rC);;
         destval <- flags (shrd_word destval sh cl);;
         run (store_data_word destoffset destval)
   | 3 =>
       m <- run (get mode);;
       if nz (Z.land m SYSMODE_PREFIX_DATA) then
         destreg <- run (decode_rm_long_register rl);;
         shiftreg <- run (decode_rm_long_register rh);;
         dst <- rd_32 destreg;;
         sh <- rd_32 shiftreg;;
         cl <- run (l_reg rC);;
         l <- flags (shrd_long dst sh cl);;
         wr_32 destreg l
       else
         destreg <- run (decode_rm_word_register rl);;
         shiftreg <- run (decode_rm_word_register rh);;
         dst <- rd_16 destreg;;
         sh <- rd_16 shiftreg;;
         cl <- run (l_reg rC);;
         w <- flags (shrd_word dst sh cl);;
         wr_16 destreg w
   | _ => eret tt
   end);;
  run DECODE_CLEAR_SEGOVR.

Definition x86emuOp2_imul_R_RM (op2 : Z) : Op unit :=
  modrm <- run fetch_decode_modrm;;
  let '(md, rh, rl) := modrm in
  (match md with
   | 0 =>
       m <- run (get mode);;
       if nz (Z.land m SYSMODE_PREFIX_DATA) then
         destreg <- run (decode_rm_long_register rh);;
         srcoffset <- run (decode_rm00_address rl);;
         srcval <- run (fetch_data_long srcoffset);;
         dst <- rd_32 destreg;;
         let '(res_lo, res_hi) := imul_long_direct dst srcval in
         (if negb (res_hi =? 0) then
            flags (SET_FLAG F_CF);;
            flags (SET_FLAG F_OF)
          else
            flags (CLEAR_FLAG F_CF);;
            flags (CLEAR_FLAG F_OF));;
         wr_32 destreg res_lo
       else
         destreg <- run (decode_rm_word_register rh);;
         srcoffset <- run (decode_rm00_address rl);;
         srcval <- run (fetch_data_word srcoffset);;
         dst <- rd_16 destreg;;
         let res := u32 ((signed 16 dst) * (signed 16 srcval)) in
         (if 0xffff <? res then
            flags (SET_FLAG F_CF);;
            flags (SET_FLAG F_OF)
          else
            flags (CLEAR_FLAG F_CF);;
            flags (CLEAR_FLAG F_OF));;
         wr_16 destreg (u16 res)
   | 1 =>
       m <- run (get mode);;
       if nz (Z.land m SYSMODE_PREFIX_DATA) then
         destreg <- run (decode_rm_long_register rh);;
         srcoffset <- run (decode_rm01_address rl);;
         srcval <- run (fetch_data_long srcoffset);;
         dst <- rd_32 destreg;;
         let '(res_lo, res_hi) := imul_long_direct dst srcval in
         (if negb (res_hi =? 0) then
            flags (SET_FLAG F_CF);;
            flags (SET_FLAG F_OF)
          else
            flags (CLEAR_FLAG F_CF);;
            flags (CLEAR_FLAG F_OF));;
         wr_32 destreg res_lo
       else
         destreg <- run (decode_rm_word_register rh);;
         srcoffset <- run (decode_rm01_address rl);;
         srcval <- run (fetch_data_word srcoffset);;
         dst <- rd_16 destreg;;
         let res := u32 ((signed 16 dst) * (signed 16 srcval)) in
         (if 0xffff <? res then
            flags (SET_FLAG F_CF);;
            flags (SET_FLAG F_OF)
          else
            flags (CLEAR_FLAG F_CF);;
            flags (CLEAR_FLAG F_OF));;
         wr_16 destreg (u16 res)
   | 2 =>
       m <- run (get mode);;
       if nz (Z.land m SYSMODE_PREFIX_DATA) then
         destreg <- run (decode_rm_long_register rh);;
         srcoffset <- run (decode_rm10_address rl);;
         srcval <- run (fetch_data_long srcoffset);;
         dst <- rd_32 destreg;;
         let '(res_lo, res_hi) := imul_long_direct dst srcval in
         (if negb (res_hi =? 0) then
            flags (SET_FLAG F_CF);;
            flags (SET_FLAG F_OF)
          else
            flags (CLEAR_FLAG F_CF);;
            flags (CLEAR_FLAG F_OF));;
         wr_32 destreg res_lo
       else
         destreg <- run (decode_rm_word_register rh);;
         srcoffset <- run (decode_rm10_address rl);;
         srcval <- run (fetch_data_word srcoffset);;
         dst <- rd_16 destreg;;
         let res := u32 ((signed 16 dst) * (signed 16 srcval)) in
         (if 0xffff <? res then
            flags (SET_FLAG F_CF);;
            flags (SET_FLAG F_OF)
          else
            flags (CLEAR_FLAG F_CF);;
            flags (CLEAR_FLAG F_OF));;
         wr_16 destreg (u16 res)
   | 3 =>
       m <- run (get mode);;
       if nz (Z.land m SYSMODE_PREFIX_DATA) then
         destreg <- run (decode_rm_long_register rh);;
         srcreg <- run (decode_rm_long_register rl);;
         dst <- rd_32 destreg;;
         src <- rd_32 srcreg;;
         let '(res_lo, res_hi) := imul_long_direct dst src in
         (if negb (res_hi =? 0) then
            flags (SET_FLAG F_CF);;
            flags (SET_FLAG F_OF)
          else
            flags (CLEAR_FLAG F_CF);;
            flags (CLEAR_FLAG F_OF));;
         wr_32 destreg res_lo
       else
         destreg <- run (decode_rm_word_register rh);;
         srcreg <- run (decode_rm_word_register rl);;
         dst <- rd_16 destreg;;
         src <- rd_16 srcreg;;
         let res := u32 ((signed 16 dst) * (signed 16 src)) in
         (if 0xffff <? res then
            flags (SET_FLAG F_CF);;
            flags (SET_FLAG F_OF)
          else
            flags (CLEAR_FLAG F_CF);;
            flags (CLEAR_FLAG F_OF));;
         wr_16 destreg (u16 res)
   | _ => eret tt
   end);;
  run DECODE_CLEAR_SEGOVR.

Definition x86emuOp2_lss_R_IMM (op2 : Z) : Op unit :=
  modrm <- run fetch_decode_modrm;;
  let '(md, rh, rl) := modrm in
  (match md with
   | 0 =>
       dstreg <- run (decode_rm_word_register rh);;
       srcoffset <- run (decode_rm00_address rl);;
       w <- run (fetch_data_word srcoffset);;
       wr_16 dstreg w;;
       w <- run (fetch_data_word (u32 (srcoffset + 2)));;
       run (set_s SS w)
   | 1 =>
       dstreg <- run (decode_rm_word_register rh);;
       srcoffset <- run (decode_rm01_address rl);;
       w <- run (fetch_data_word srcoffset);;
       wr_16 dstreg w;;
       w <- run (fetch_data_word (u32 (srcoffset + 2)));;
       run (set_s SS w)
   | 2 =>
       dstreg <- run (decode_rm_word_register rh);;
       srcoffset <- run (decode_rm10_address rl);;
       w <- run (fetch_data_word srcoffset);;
       wr_16 dstreg w;;
       w <- run (fetch_data_word (u32 (srcoffset + 2)));;
       run (set_s SS w)
   | 3 => eret tt
   | _ => eret tt
   end);;
  run DECODE_CLEAR_SEGOVR.

Definition x86emuOp2_btr_R (op2 : Z) : Op unit :=
  modrm <- run fetch_decode_modrm;;
  let '(md, rh, rl) := modrm in
  (match md with
   | 0 =>
       m <- run (get mode);;
       if nz (Z.land m SYSMODE_PREFIX_DATA) then
         srcoffset <- run (decode_rm00_address rl);;
         shiftreg <- run (decode_rm_long_register rh);;
         sh <- rd_32 shiftreg;;
         let bit := signed 32 (Z.land sh 0x1f) in
         sh <- rd_32 shiftreg;;
         let disp := Z.shiftr (signed 16 (u16 sh)) 5 in
         srcval <- run (fetch_data_long (u32 (srcoffset + (u32 disp))));;
         let mask := u32 (Z.shiftl 0x1 bit) in
         flags (CONDITIONAL_SET_FLAG (nz (Z.land srcval mask)) F_CF);;
         run (store_data_long (u32 (srcoffset + (u32 disp))) (Z.land srcval (not32 mask)))
       else
         srcoffset <- run (decode_rm00_address rl);;
         shiftreg <- run (decode_rm_word_register rh);;
         sh <- rd_16 shiftreg;;
         let bit := Z.land sh 0xf in
         sh <- rd_16 shiftreg;;
         let disp := Z.shiftr (signed 16 sh) 4 in
         srcval <- run (fetch_data_word (u32 (srcoffset + (u32 disp))));;
         let mask := u16 (Z.shiftl 0x1 bit) in
         flags (CONDITIONAL_SET_FLAG (nz (Z.land srcval mask)) F_CF);;
         run (store_data_word (u32 (srcoffset + (u32 disp))) (u16 (Z.land srcval (Z.lnot mask))))
   | 1 =>
       m <- run (get mode);;
       if nz (Z.land m SYSMODE_PREFIX_DATA) then
         srcoffset <- run (decode_rm01_address rl);;
         shiftreg <- run (decode_rm_long_register rh);;
         sh <- rd_32 shiftreg;;
         let bit := signed 32 (Z.land sh 0x1f) in
         sh <- rd_32 shiftreg;;
         let disp := Z.shiftr (signed 16 (u16 sh)) 5 in
         srcval <- run (fetch_data_long (u32 (srcoffset + (u32 disp))));;
         let mask := u32 (Z.shiftl 0x1 bit) in
         flags (CONDITIONAL_SET_FLAG (nz (Z.land srcval mask)) F_CF);;
         run (store_data_long (u32 (srcoffset + (u32 disp))) (Z.land srcval (not32 mask)))
       else
         srcoffset <- run (decode_rm01_address rl);;
         shiftreg <- run (decode_rm_word_register rh);;
         sh <- rd_16 shiftreg;;
         let bit := Z.land sh 0xf in
         sh <- rd_16 shiftreg;;
         let disp := Z.shiftr (signed 16 sh) 4 in
         srcval <- run (fetch_data_word (u32 (srcoffset + (u32 disp))));;
         let mask := u16 (Z.shiftl 0x1 bit) in
         flags (CONDITIONAL_SET_FLAG (nz (Z.land srcval mask)) F_CF);;
         run (store_data_word (u32 (srcoffset + (u32 disp))) (u16 (Z.land srcval (Z.lnot mask))))
   | 2 =>
       m <- run (get mode);;
       if nz (Z.land m SYSMODE_PREFIX_DATA) then
         srcoffset <- run (decode_rm10_address rl);;
         shiftreg <- run (decode_rm_long_register rh);;
         sh <- rd_32 shiftreg;;
         let bit := signed 32 (Z.land sh 0x1f) in
         sh <- rd_32 shiftreg;;
         let disp := Z.shiftr (signed 16 (u16 sh)) 5 in
         srcval <- run (fetch_data_long (u32 (srcoffset + (u32 disp))));;
         let mask := u32 (Z.shiftl 0x1 bit) in
         flags (CONDITIONAL_SET_FLAG (nz (Z.land srcval mask)) F_CF);;
         run (store_data_long (u32 (srcoffset + (u32 disp))) (Z.land srcval (not32 mask)))
       else
         srcoffset <- run (decode_rm10_address rl);;
         shiftreg <- run (decode_rm_word_register rh);;
         sh <- rd_16 shiftreg;;
         let bit := Z.land sh 0xf in
         sh <- rd_16 shiftreg;;
         let disp := Z.shiftr (signed 16 sh) 4 in
         srcval <- run (fetch_data_word (u32 (srcoffset + (u32 disp))));;
         let mask := u16 (Z.shiftl 0x1 bit) in
         flags (CONDITIONAL_SET_FLAG (nz (Z.land srcval mask)) F_CF);;
         run (store_data_word (u32 (srcoffset + (u32 disp))) (u16 (Z.land srcval (Z.lnot mask))))
   | 3 =>
       m <- run (get mode);;
       if nz (Z.land m SYSMODE_PREFIX_DATA) then
         srcreg <- run (decode_rm_long_register rl);;
         shiftreg <- run (decode_rm_long_register rh);;
         sh <- rd_32 shiftreg;;
         let bit := signed 32 (Z.land sh 0x1f) in
         let mask := u32 (Z.shiftl 0x1 bit) in
         src <- rd_32 srcreg;;
         flags (CONDITIONAL_SET_FLAG (nz (Z.land src mask)) F_CF);;
         src <- rd_32 srcreg;;
         wr_32 srcreg (Z.land src (not32 mask))
       else
         srcreg <- run (decode_rm_word_register rl);;
         shiftreg <- run (decode_rm_word_register rh);;
         sh <- rd_16 shiftreg;;
         let bit := Z.land sh 0xf in
         let mask := u16 (Z.shiftl 0x1 bit) in
         src <- rd_16 srcreg;;
         flags (CONDITIONAL_SET_FLAG (nz (Z.land src mask)) F_CF);;
         src <- rd_16 srcreg;;
         wr_16 srcreg (u16 (Z.land src (Z.lnot mask)))
   | _ => eret tt
   end);;
  run DECODE_CLEAR_SEGOVR.

Definition x86emuOp2_lfs_R_IMM (op2 : Z) : Op unit :=
  modrm <- run fetch_decode_modrm;;
  let '(md, rh, rl) := modrm in
  (match md with
   | 0 =>
       dstreg <- run (decode_rm_word_register rh);;
       srcoffset <- run (decode_rm00_address rl);;
       w <- run (fetch_data_word srcoffset);;
       wr_16 dstreg w;;
       w <- run (fetch_data_word (u32 (srcoffset + 2)));;
       run (set_s FS w)
   | 1 =>
       dstreg <- run (decode_rm_word_register rh);;
       srcoffset <- run (decode_rm01_address rl);;
       w <- run (fetch_data_word srcoffset);;
       wr_16 dstreg w;;
       w <- run (fetch_data_word (u32 (srcoffset + 2)));;
       run (set_s FS w)
   | 2 =>
       dstreg <- run (decode_rm_word_register rh);;
       srcoffset <- run (decode_rm10_address rl);;
       w <- run (fetch_data_word srcoffset);;
       wr_16 dstreg w;;
       w <- run (fetch_data_word (u32 (srcoffset + 2)));;
       run (set_s FS w)
   | 3 => eret tt
   | _ => eret tt
   end);;
  run DECODE_CLEAR_SEGOVR.

Definition x86emuOp2_lgs_R_IMM (op2 : Z) : Op unit :=
  modrm <- run fetch_decode_modrm;;
  let '(md, rh, rl) := modrm in
  (match md with
   | 0 =>
       dstreg <- run (decode_rm_word_register rh);;
       srcoffset <- run (decode_rm00_address rl);;
       w <- run (fetch_data_word srcoffset);;
       wr_16 dstreg w;;
       w <- run (fetch_data_word (u32 (srcoffset + 2)));;
       run (set_s GS w)
   | 1 =>
       dstreg <- run (decode_rm_word_register rh);;
       srcoffset <- run (decode_rm01_address rl);;
       w <- run (fetch_data_word srcoffset);;
       wr_16 dstreg w;;
       w <- run (fetch_data_word (u32 (srcoffset + 2)));;
       run (set_s GS w)
   | 2 =>
       dstreg <- run (decode_rm_word_register rh);;
       srcoffset <- run (decode_rm10_address rl);;
       w <- run (fetch_data_word srcoffset);;
       wr_16 dstreg w;;
       w <- run (fetch_data_word (u32 (srcoffset + 2)));;
       run (set_s GS w)
   | 3 => eret tt
   | _ => eret tt
   end);;
  run DECODE_CLEAR_SEGOVR.

Definition x86emuOp2_movzx_byte_R_RM (op2 : Z) : Op unit :=
  modrm <- run fetch_decode_modrm;;
  let '(md, rh, rl) := modrm in
  (match md with
   | 0 =>
       m <- run (get mode);;
       if nz (Z.land m SYSMODE_PREFIX_DATA) then
         destreg <- run (decode_rm_long_register rh);;
         srcoffset <- run (decode_rm00_address rl);;
         srcval <- run (fetch_data_byte srcoffset);;
         wr_32 destreg srcval
       else
         destreg <- run (decode_rm_word_register rh);;
         srcoffset <- run (decode_rm00_address rl);;
         srcval <- run (fetch_data_byte srcoffset);;
         wr_16 destreg srcval
   | 1 =>
       m <- run (get mode);;
       if nz (Z.land m SYSMODE_PREFIX_DATA) then
         destreg <- run (decode_rm_long_register rh);;
         srcoffset <- run (decode_rm01_address rl);;
         srcval <- run (fetch_data_byte srcoffset);;
         wr_32 destreg srcval
       else
         destreg <- run (decode_rm_word_register rh);;
         srcoffset <- run (decode_rm01_address rl);;
         srcval <- run (fetch_data_byte srcoffset);;
         wr_16 destreg srcval
   | 2 =>
       m <- run (get mode);;
       if nz (Z.land m SYSMODE_PREFIX_DATA) then
         destreg <- run (decode_rm_long_register rh);;
         srcoffset <- run (decode_rm10_address rl);;
         srcval <- run (fetch_data_byte srcoffset);;
         wr_32 destreg srcval
       else
         destreg <- run (decode_rm_word_register rh);;
         srcoffset <- run (decode_rm10_address rl);;
         srcval <- run (fetch_data_byte srcoffset);;
         wr_16 destreg srcval
   | 3 =>
       m <- run (get mode);;
       if nz (Z.land m SYSMODE_PREFIX_DATA) then
         destreg <- run (decode_rm_long_register rh);;
         srcreg <- run (decode_rm_byte_register rl);;
         src <- rd_8 srcreg;;
         wr_32 destreg src
       else
         destreg <- run (decode_rm_word_register rh);;
         srcreg <- run (decode_rm_byte_register rl);;
         src <- rd_8 srcreg;;
         wr_16 destreg src
   | _ => eret tt
   end);;
  run DECODE_CLEAR_SEGOVR.

Definition x86emuOp2_movzx_word_R_RM (op2 : Z) : Op unit :=
  modrm <- run fetch_decode_modrm;;
  let '(md, rh, rl) := modrm in
  (match md with
   | 0 =>
       destreg <- run (decode_rm_long_register rh);;
       srcoffset <- run (decode_rm00_address rl);;
       srcval <- run (fetch_data_word srcoffset);;
       wr_32 destreg srcval
   | 1 =>
       destreg <- run (decode_rm_long_register rh);;
       srcoffset <- run (decode_rm01_address rl);;
       srcval <- run (fetch_data_word srcoffset);;
       wr_32 destreg srcval
   | 2 =>
       destreg <- run (decode_rm_long_register rh);;
       srcoffset <- run (decode_rm10_address rl);;
       srcval <- run (fetch_data_word srcoffset);;
       wr_32 destreg srcval
   | 3 =>
       destreg <- run (decode_rm_long_register rh);;
       srcreg <- run (decode_rm_word_register rl);;
       src <- rd_16 srcreg;;
       wr_32 destreg src
   | _ => eret tt
   end);;
  run DECODE_CLEAR_SEGOVR.

Definition x86emuOp2_btX_I (op2 : Z) : Op unit :=
  modrm <- run fetch_decode_modrm;;
  let '(md, rh, rl) := modrm in
  (match rh with
   | 4 => eret tt
   | 5 => eret tt
   | 6 => eret tt
   | 7 => eret tt
   | _ => run HALT_SYS
   end);;
  (match md with
   | 0 =>
       m <- run (get mode);;
       if nz (Z.land m SYSMODE_PREFIX_DATA) then
         srcoffset <- run (decode_rm00_address rl);;
         shift <- run fetch_byte_imm;;
         let bit := Z.land shift 0x1f in
         srcval <- run (fetch_data_long srcoffset);;
         let mask := u32 (Z.shiftl 0x1 bit) in
         flags (CONDITIONAL_SET_FLAG (nz (Z.land srcval mask)) F_CF);;
         match rh with
         | 5 => run (store_data_long srcoffset (Z.lor srcval mask))
         | 6 => run (store_data_long srcoffset (Z.land srcval (not32 mask)))
         | 7 => run (store_data_long srcoffset (Z.lxor srcval mask))
         | _ => eret tt
         end
       else
         srcoffset <- run (decode_rm00_address rl);;
         shift <- run fetch_byte_imm;;
         let bit := Z.land shift 0xf in
         srcval <- run (fetch_data_word srcoffset);;
         let mask := u16 (Z.shiftl 0x1 bit) in
         flags (CONDITIONAL_SET_FLAG (nz (Z.land srcval mask)) F_CF);;
         match rh with
         | 5 => run (store_data_word srcoffset (u16 (Z.lor srcval mask)))
         | 6 => run (store_data_word srcoffset (u16 (Z.land srcval (Z.lnot mask))))
         | 7 => run (store_data_word srcoffset (u16 (Z.lxor srcval mask)))
         | _ => eret tt
         end
   | 1 =>
       m <- run (get mode);;
       if nz (Z.land m SYSMODE_PREFIX_DATA) then
         srcoffset <- run (decode_rm01_address rl);;
         shift <- run fetch_byte_imm;;
         let bit := Z.land shift 0x1f in
         srcval <- run (fetch_data_long srcoffset);;
         let mask := u32 (Z.shiftl 0x1 bit) in
         flags (CONDITIONAL_SET_FLAG (nz (Z.land srcval mask)) F_CF);;
         match rh with
         | 5 => run (store_data_long srcoffset (Z.lor srcval mask))
         | 6 => run (store_data_long srcoffset (Z.land srcval (not32 mask)))
         | 7 => run (store_data_long srcoffset (Z.lxor srcval mask))
         | _ => eret tt
         end
       else
         srcoffset <- run (decode_rm01_address rl);;
         shift <- run fetch_byte_imm;;
         let bit := Z.land shift 0xf in
         srcval <- run (fetch_data_word srcoffset);;
         let mask := u16 (Z.shiftl 0x1 bit) in
         flags (CONDITIONAL_SET_FLAG (nz (Z.land srcval mask)) F_CF);;
         match rh with
         | 5 => run (store_data_word srcoffset (u16 (Z.lor srcval mask)))
         | 6 => run (store_data_word srcoffset (u16 (Z.land srcval (Z.lnot mask))))
         | 7 => run (store_data_word srcoffset (u16 (Z.lxor srcval mask)))
         | _ => eret tt
         end
   | 2 =>
       m <- run (get mode);;
       if nz (Z.land m SYSMODE_PREFIX_DATA) then
         srcoffset <- run (decode_rm10_address rl);;
         shift <- run fetch_byte_imm;;
         let bit := Z.land shift 0x1f in
         srcval <- run (fetch_data_long srcoffset);;
         let mask := u32 (Z.shiftl 0x1 bit) in
         flags (CONDITIONAL_SET_FLAG (nz (Z.land srcval mask)) F_CF);;
         match rh with
         | 5 => run (store_data_long srcoffset (Z.lor srcval mask))
         | 6 => run (store_data_long srcoffset (Z.land srcval (not32 mask)))
         | 7 => run (store_data_long srcoffset (Z.lxor srcval mask))
         | _ => eret tt
         end
       else
         srcoffset <- run (decode_rm10_address rl);;
         shift <- run fetch_byte_imm;;
         let bit := Z.land shift 0xf in
         srcval <- run (fetch_data_word srcoffset);;
         let mask := u16 (Z.shiftl 0x1 bit) in
         flags (CONDITIONAL_SET_FLAG (nz (Z.land srcval mask)) F_CF);;
         match rh with
         | 5 => run (store_data_word srcoffset (u16 (Z.lor srcval mask)))
         | 6 => run (store_data_word srcoffset (u16 (Z.land srcval (Z.lnot mask))))
         | 7 => run (store_data_word srcoffset (u16 (Z.lxor srcval mask)))
         | _ => eret tt
         end
   | 3 =>
       m <- run (get mode);;
       if nz (Z.land m SYSMODE_PREFIX_DATA) then
         srcreg <- run (decode_rm_long_register rl);;
         shift <- run fetch_byte_imm;;
         let bit := Z.land shift 0x1f in
         let mask := u32 (Z.shiftl 0x1 bit) in
         src <- rd_32 srcreg;;
         flags (CONDITIONAL_SET_FLAG (nz (Z.land src mask)) F_CF);;
         match rh with
         | 5 =>
             src <- rd_32 srcreg;;
             wr_32 srcreg (Z.lor src mask)
         | 6 =>
             src <- rd_32 srcreg;;
             wr_32 srcreg (Z.land src (not32 mask))
         | 7 =>
             src <- rd_32 srcreg;;
             wr_32 srcreg (Z.lxor src mask)
         | _ => eret tt
         end
       else
         srcreg <- run (decode_rm_word_register rl);;
         shift <- run fetch_byte_imm;;
         let bit := Z.land shift 0xf in
         let mask := u16 (Z.shiftl 0x1 bit) in
         src <- rd_16 srcreg;;
         flags (CONDITIONAL_SET_FLAG (nz (Z.land src mask)) F_CF);;
         match rh with
         | 5 =>
             src <- rd_16 srcreg;;
             wr_16 srcreg (u16 (Z.lor src mask))
         | 6 =>
             src <- rd_16 srcreg;;
             wr_16 srcreg (u16 (Z.land src (Z.lnot mask)))
         | 7 =>
             src <- rd_16 srcreg;;
             wr_16 srcreg (u16 (Z.lxor src mask))
         | _ => eret tt
         end
   | _ => eret tt
   end);;
  run DECODE_CLEAR_SEGOVR.

Definition x86emuOp2_btc_R (op2 : Z) : Op unit :=
  modrm <- run fetch_decode_modrm;;
  let '(md, rh, rl) := modrm in
  (match md with
   | 0 =>
       m <- run (get mode);;
       if nz (Z.land m SYSMODE_PREFIX_DATA) then
         srcoffset <- run (decode_rm00_address rl);;
         shiftreg <- run (decode_rm_long_register rh);;
         sh <- rd_32 shiftreg;;
         let bit := signed 32 (Z.land sh 0x1f) in
         sh <- rd_32 shiftreg;;
         let disp := Z.shiftr (signed 16 (u16 sh)) 5 in
         srcval <- run (fetch_data_long (u32 (srcoffset + (u32 disp))));;
         let mask := u32 (Z.shiftl 0x1 bit) in
         flags (CONDITIONAL_SET_FLAG (nz (Z.land srcval mask)) F_CF);;
         run (store_data_long (u32 (srcoffset + (u32 disp))) (Z.lxor srcval mask))
       else
         srcoffset <- run (decode_rm00_address rl);;
         shiftreg <- run (decode_rm_word_register rh);;
         sh <- rd_16 shiftreg;;
         let bit := Z.land sh 0xf in
         sh <- rd_16 shiftreg;;
         let disp := Z.shiftr (signed 16 sh) 4 in
         srcval <- run (fetch_data_word (u32 (srcoffset + (u32 disp))));;
         let mask := u16 (Z.shiftl 0x1 bit) in
         flags (CONDITIONAL_SET_FLAG (nz (Z.land srcval mask)) F_CF);;
         run (store_data_word (u32 (srcoffset + (u32 disp))) (u16 (Z.lxor srcval mask)))
   | 1 =>
       m <- run (get mode);;
       if nz (Z.land m SYSMODE_PREFIX_DATA) then
         srcoffset <- run (decode_rm01_address rl);;
         shiftreg <- run (decode_rm_long_register rh);;
         sh <- rd_32 shiftreg;;
         let bit := signed 32 (Z.land sh 0x1f) in
         sh <- rd_32 shiftreg;;
         let disp := Z.shiftr (signed 16 (u16 sh)) 5 in
         srcval <- run (fetch_data_long (u32 (srcoffset + (u32 disp))));;
         let mask := u32 (Z.shiftl 0x1 bit) in
         flags (CONDITIONAL_SET_FLAG (nz (Z.land srcval mask)) F_CF);;
         run (store_data_long (u32 (srcoffset + (u32 disp))) (Z.lxor srcval mask))
       else
         srcoffset <- run (decode_rm01_address rl);;
         shiftreg <- run (decode_rm_word_register rh);;
         sh <- rd_16 shiftreg;;
         let bit := Z.land sh 0xf in
         sh <- rd_16 shiftreg;;
         let disp := Z.shiftr (signed 16 sh) 4 in
         srcval <- run (fetch_data_word (u32 (srcoffset + (u32 disp))));;
         let mask := u16 (Z.shiftl 0x1 bit) in
         flags (CONDITIONAL_SET_FLAG (nz (Z.land srcval mask)) F_CF);;
         run (store_data_word (u32 (srcoffset + (u32 disp))) (u16 (Z.lxor srcval mask)))
   | 2 =>
       m <- run (get mode);;
       if nz (Z.land m SYSMODE_PREFIX_DATA) then
         srcoffset <- run (decode_rm10_address rl);;
         shiftreg <- run (decode_rm_long_register rh);;
         sh <- rd_32 shiftreg;;
         let bit := signed 32 (Z.land sh 0x1f) in
         sh <- rd_32 shiftreg;;
         let disp := Z.shiftr (signed 16 (u16 sh)) 5 in
         srcval <- run (fetch_data_long (u32 (srcoffset + (u32 disp))));;
         let mask := u32 (Z.shiftl 0x1 bit) in
         flags (CONDITIONAL_SET_FLAG (nz (Z.land srcval mask)) F_CF);;
         run (store_data_long (u32 (srcoffset + (u32 disp))) (Z.lxor srcval mask))
       else
         srcoffset <- run (decode_rm10_address rl);;
         shiftreg <- run (decode_rm_word_register rh);;
         sh <- rd_16 shiftreg;;
         let bit := Z.land sh 0xf in
         sh <- rd_16 shiftreg;;
         let disp := Z.shiftr (signed 16 sh) 4 in
         srcval <- run (fetch_data_word (u32 (srcoffset + (u32 disp))));;
         let mask := u16 (Z.shiftl 0x1 bit) in
         flags (CONDITIONAL_SET_FLAG (nz (Z.land srcval mask)) F_CF);;
         run (store_data_word (u32 (srcoffset + (u32 disp))) (u16 (Z.lxor srcval mask)))
   | 3 =>
       m <- run (get mode);;
       if nz (Z.land m SYSMODE_PREFIX_DATA) then
         srcreg <- run (decode_rm_long_register rl);;
         shiftreg <- run (decode_rm_long_register rh);;
         sh <- rd_32 shiftreg;;
         let bit := signed 32 (Z.land sh 0x1f) in
         let mask := u32 (Z.shiftl 0x1 bit) in
         src <- rd_32 srcreg;;
         flags (CONDITIONAL_SET_FLAG (nz (Z.land src mask)) F_CF);;
         src <- rd_32 srcreg;;
         wr_32 srcreg (Z.lxor src mask)
       else
         srcreg <- run (decode_rm_word_register rl);;
         shiftreg <- run (decode_rm_word_register rh);;
         sh <- rd_16 shiftreg;;
         let bit := Z.land sh 0xf in
         let mask := u16 (Z.shiftl 0x1 bit) in
         src <- rd_16 srcreg;;
         flags (CONDITIONAL_SET_FLAG (nz (Z.land src mask)) F_CF);;
         src <- rd_16 srcreg;;
         wr_16 srcreg (u16 (Z.lxor src mask))
   | _ => eret tt
   end);;
  run DECODE_CLEAR_SEGOVR.

Definition x86emuOp2_bsf (op2 : Z) : Op unit :=
  modrm <- run fetch_decode_modrm;;
  let '(md, rh, rl) := modrm in
  (match md with
   | 0 =>
       m <- run (get mode);;
       if nz (Z.land m SYSMODE_PREFIX_DATA) then
         srcoffset <- run (decode_rm00_address rl);;
         dstreg <- run (decode_rm_long_register rh);;
         srcval <- run (fetch_data_long srcoffset);;
         flags (CONDITIONAL_SET_FLAG (srcval =? 0) F_ZF);;
         wr_32 dstreg 0;;
         loop 33 (fun _ =>
           dst <- rd_32 dstreg;;
           if dst <? 32 then
             dst <- rd_32 dstreg;;
             if nz (Z.land (Z.shiftr srcval dst) 1) then
               eret (true, tt)
             else
               dst <- rd_32 dstreg;;
               wr_32 dstreg (u32 (dst + 1));;
               eret (false, tt)
           else eret (true, tt)) tt
       else
         srcoffset <- run (decode_rm00_address rl);;
         dstreg <- run (decode_rm_word_register rh);;
         srcval <- run (fetch_data_word srcoffset);;
         flags (CONDITIONAL_SET_FLAG (srcval =? 0) F_ZF);;
         wr_16 dstreg 0;;
         loop 33 (fun _ =>
           dst <- rd_16 dstreg;;
           if dst <? 16 then
             dst <- rd_16 dstreg;;
             if nz (Z.land (Z.shiftr srcval dst) 1) then
               eret (true, tt)
             else
               dst <- rd_16 dstreg;;
               wr_16 dstreg (u16 (dst + 1));;
               eret (false, tt)
           else eret (true, tt)) tt
   | 1 =>
       m <- run (get mode);;
       if nz (Z.land m SYSMODE_PREFIX_DATA) then
         srcoffset <- run (decode_rm01_address rl);;
         dstreg <- run (decode_rm_long_register rh);;
         srcval <- run (fetch_data_long srcoffset);;
         flags (CONDITIONAL_SET_FLAG (srcval =? 0) F_ZF);;
         wr_32 dstreg 0;;
         loop 33 (fun _ =>
           dst <- rd_32 dstreg;;
           if dst <? 32 then
             dst <- rd_32 dstreg;;
             if nz (Z.land (Z.shiftr srcval dst) 1) then
               eret (true, tt)
             else
               dst <- rd_32 dstreg;;
               wr_32 dstreg (u32 (dst + 1));;
               eret (false, tt)
           else eret (true, tt)) tt
       else
         srcoffset <- run (decode_rm01_address rl);;
         dstreg <- run (decode_rm_word_register rh);;
         srcval <- run (fetch_data_word srcoffset);;
         flags (CONDITIONAL_SET_FLAG (srcval =? 0) F_ZF);;
         wr_16 dstreg 0;;
         loop 33 (fun _ =>
           dst <- rd_16 dstreg;;
           if dst <? 16 then
             dst <- rd_16 dstreg;;
             if nz (Z.land (Z.shiftr srcval dst) 1) then
               eret (true, tt)
             else
               dst <- rd_16 dstreg;;
               wr_16 dstreg (u16 (dst + 1));;
               eret (false, tt)
           else eret (true, tt)) tt
   | 2 =>
       m <- run (get mode);;
       if nz (Z.land m SYSMODE_PREFIX_DATA) then
         srcoffset <- run (decode_rm10_address rl);;
         dstreg <- run (decode_rm_long_register rh);;
         srcval <- run (fetch_data_long srcoffset);;
         flags (CONDITIONAL_SET_FLAG (srcval =? 0) F_ZF);;
         wr_32 dstreg 0;;
         loop 33 (fun _ =>
           dst <- rd_32 dstreg;;
           if dst <? 32 then
             dst <- rd_32 dstreg;;
             if nz (Z.land (Z.shiftr srcval dst) 1) then
               eret (true, tt)
             else
               dst <- rd_32 dstreg;;
               wr_32 dstreg (u32 (dst + 1));;
               eret (false, tt)
           else eret (true, tt)) tt
       else
         srcoffset <- run (decode_rm10_address rl);;
         dstreg <- run (decode_rm_word_register rh);;
         srcval <- run (fetch_data_word srcoffset);;
         flags (CONDITIONAL_SET_FLAG (srcval =? 0) F_ZF);;
         wr_16 dstreg 0;;
         loop 33 (fun _ =>
           dst <- rd_16 dstreg;;
           if dst <? 16 then
             dst <- rd_16 dstreg;;
             if nz (Z.land (Z.shiftr srcval dst) 1) then
               eret (true, tt)
             else
               dst <- rd_16 dstreg;;
               wr_16 dstreg (u16 (dst + 1));;
               eret (false, tt)
           else eret (true, tt)) tt
   | 3 =>
       m <- run (get mode);;
       if nz (Z.land m SYSMODE_PREFIX_DATA) then
         srcreg <- run (decode_rm_long_register rl);;
         srcval <- rd_32 srcreg;;
         dstreg <- run (decode_rm_long_register rh);;
         flags (CONDITIONAL_SET_FLAG (srcval =? 0) F_ZF);;
         wr_32 dstreg 0;;
         loop 33 (fun _ =>
           dst <- rd_32 dstreg;;
           if dst <? 32 then
             dst <- rd_32 dstreg;;
             if nz (Z.land (Z.shiftr srcval dst) 1) then
               eret (true, tt)
             else
               dst <- rd_32 dstreg;;
               wr_32 dstreg (u32 (dst + 1));;
               eret (false, tt)
           else eret (true, tt)) tt
       else
         srcreg <- run (decode_rm_word_register rl);;
         srcval <- rd_16 srcreg;;
         dstreg <- run (decode_rm_word_register rh);;
         flags (CONDITIONAL_SET_FLAG (srcval =? 0) F_ZF);;
         wr_16 dstreg 0;;
         loop 33 (fun _ =>
           dst <- rd_16 dstreg;;
           if dst <? 16 then
             dst <- rd_16 dstreg;;
             if nz (Z.land (Z.shiftr srcval dst) 1) then
               eret (true, tt)
             else
               dst <- rd_16 dstreg;;
               wr_16 dstreg (u16 (dst + 1));;
               eret (false, tt)
           else eret (true, tt)) tt
   | _ => eret tt
   end);;
  run DECODE_CLEAR_SEGOVR.

Definition x86emuOp2_bsr (op2 : Z) : Op unit :=
  modrm <- run fetch_decode_modrm;;
  let '(md, rh, rl) := modrm in
  (match md with
   | 0 =>
       m <- run (get mode);;
       if nz (Z.land m SYSMODE_PREFIX_DATA) then
         srcoffset <- run (decode_rm00_address rl);;
         dstreg <- run (decode_rm_long_register rh);;
         srcval <- run (fetch_data_long srcoffset);;
         flags (CONDITIONAL_SET_FLAG (srcval =? 0) F_ZF);;
         wr_32 dstreg 31;;
         loop 33 (fun _ =>
           dst <- rd_32 dstreg;;
           if 0 <? dst then
             dst <- rd_32 dstreg;;
             if nz (Z.land (Z.shiftr srcval dst) 1) then
               eret (true, tt)
             else
               dst <- rd_32 dstreg;;
               wr_32 dstreg (u32 (dst - 1));;
               eret (false, tt)
           else eret (true, tt)) tt
       else
         srcoffset <- run (decode_rm00_address rl);;
         dstreg <- run (decode_rm_word_register rh);;
         srcval <- run (fetch_data_word srcoffset);;
         flags (CONDITIONAL_SET_FLAG (srcval =? 0) F_ZF);;
         wr_16 dstreg 15;;
         loop 33 (fun _ =>
           dst <- rd_16 dstreg;;
           if 0 <? dst then
             dst <- rd_16 dstreg;;
             if nz (Z.land (Z.shiftr srcval dst) 1) then
               eret (true, tt)
             else
               dst <- rd_16 dstreg;;
               wr_16 dstreg (u16 (dst - 1));;
               eret (false, tt)
           else eret (true, tt)) tt
   | 1 =>
       m <- run (get mode);;
       if nz (Z.land m SYSMODE_PREFIX_DATA) then
         srcoffset <- run (decode_rm01_address rl);;
         dstreg <- run (decode_rm_long_register rh);;
         srcval <- run (fetch_data_long srcoffset);;
         flags (CONDITIONAL_SET_FLAG (srcval =? 0) F_ZF);;
         wr_32 dstreg 31;;
         loop 33 (fun _ =>
           dst <- rd_32 dstreg;;
           if 0 <? dst then
             dst <- rd_32 dstreg;;
             if nz (Z.land (Z.shiftr srcval dst) 1) then
               eret (true, tt)
             else
               dst <- rd_32 dstreg;;
               wr_32 dstreg (u32 (dst - 1));;
               eret (false, tt)
           else eret (true, tt)) tt
       else
         srcoffset <- run (decode_rm01_address rl);;
         dstreg <- run (decode_rm_word_register rh);;
         srcval <- run (fetch_data_word srcoffset);;
         flags (CONDITIONAL_SET_FLAG (srcval =? 0) F_ZF);;
         wr_16 dstreg 15;;
         loop 33 (fun _ =>
           dst <- rd_16 dstreg;;
           if 0 <? dst then
             dst <- rd_16 dstreg;;
             if nz (Z.land (Z.shiftr srcval dst) 1) then
               eret (true, tt)
             else
               dst <- rd_16 dstreg;;
               wr_16 dstreg (u16 (dst - 1));;
               eret (false, tt)
           else eret (true, tt)) tt
   | 2 =>
       m <- run (get mode);;
       if nz (Z.land m SYSMODE_PREFIX_DATA) then
         srcoffset <- run (decode_rm10_address rl);;
         dstreg <- run (decode_rm_long_register rh);;
         srcval <- run (fetch_data_long srcoffset);;
         flags (CONDITIONAL_SET_FLAG (srcval =? 0) F_ZF);;
         wr_32 dstreg 31;;
         loop 33 (fun _ =>
           dst <- rd_32 dstreg;;
           if 0 <? dst then
             dst <- rd_32 dstreg;;
             if nz (Z.land (Z.shiftr srcval dst) 1) then
               eret (true, tt)
             else
               dst <- rd_32 dstreg;;
               wr_32 dstreg (u32 (dst - 1));;
               eret (false, tt)
           else eret (true, tt)) tt
       else
         srcoffset <- run (decode_rm10_address rl);;
         dstreg <- run (decode_rm_word_register rh);;
         srcval <- run (fetch_data_word srcoffset);;
         flags (CONDITIONAL_SET_FLAG (srcval =? 0) F_ZF);;
         wr_16 dstreg 15;;
         loop 33 (fun _ =>
           dst <- rd_16 dstreg;;
           if 0 <? dst then
             dst <- rd_16 dstreg;;
             if nz (Z.land (Z.shiftr srcval dst) 1) then
               eret (true, tt)
             else
               dst <- rd_16 dstreg;;
               wr_16 dstreg (u16 (dst - 1));;
               eret (false, tt)
           else eret (true, tt)) tt
   | 3 =>
       m <- run (get mode);;
       if nz (Z.land m SYSMODE_PREFIX_DATA) then
         srcreg <- run (decode_rm_long_register rl);;
         srcval <- rd_32 srcreg;;
         dstreg <- run (decode_rm_long_register rh);;
         flags (CONDITIONAL_SET_FLAG (srcval =? 0) F_ZF);;
         wr_32 dstreg 31;;
         loop 33 (fun _ =>
           dst <- rd_32 dstreg;;
           if 0 <? dst then
             dst <- rd_32 dstreg;;
             if nz (Z.land (Z.shiftr srcval dst) 1) then
               eret (true, tt)
             else
               dst <- rd_32 dstreg;;
               wr_32 dstreg (u32 (dst - 1));;
               eret (false, tt)
           else eret (true, tt)) tt
       else
         srcreg <- run (decode_rm_word_register rl);;
         srcval <- rd_16 srcreg;;
         dstreg <- run (decode_rm_word_register rh);;
         flags (CONDITIONAL_SET_FLAG (srcval =? 0) F_ZF);;
         wr_16 dstreg 15;;
         loop 33 (fun _ =>
           dst <- rd_16 dstreg;;
           if 0 <? dst then
             dst <- rd_16 dstreg;;
             if nz (Z.land (Z.shiftr srcval dst) 1) then
               eret (true, tt)
             else
               dst <- rd_16 dstreg;;
               wr_16 dstreg (u16 (dst - 1));;
               eret (false, tt)
           else eret (true, tt)) tt
   | _ => eret tt
   end);;
  run DECODE_CLEAR_SEGOVR.

Definition x86emuOp2_movsx_byte_R_RM (op2 : Z) : Op unit :=
  modrm <- run fetch_decode_modrm;;
  let '(md, rh, rl) := modrm in
  (match md with
   | 0 =>
       m <- run (get mode);;
       if nz (Z.land m SYSMODE_PREFIX_DATA) then
         destreg <- run (decode_rm_long_register rh);;
         srcoffset <- run (decode_rm00_address rl);;
         b <- run (fetch_data_byte srcoffset);;
         let srcval := u32 (signed 8 b) in
         wr_32 destreg srcval
       else
         destreg <- run (decode_rm_word_register rh);;
         srcoffset <- run (decode_rm00_address rl);;
         b <- run (fetch_data_byte srcoffset);;
         let srcval := u16 (signed 8 b) in
         wr_16 destreg srcval
   | 1 =>
       m <- run (get mode);;
       if nz (Z.land m SYSMODE_PREFIX_DATA) then
         destreg <- run (decode_rm_long_register rh);;
         srcoffset <- run (decode_rm01_address rl);;
         b <- run (fetch_data_byte srcoffset);;
         let srcval := u32 (signed 8 b) in
         wr_32 destreg srcval
       else
         destreg <- run (decode_rm_word_register rh);;
         srcoffset <- run (decode_rm01_address rl);;
         b <- run (fetch_data_byte srcoffset);;
         let srcval := u16 (signed 8 b) in
         wr_16 destreg srcval
   | 2 =>
       m <- run (get mode);;
       if nz (Z.land m SYSMODE_PREFIX_DATA) then
         destreg <- run (decode_rm_long_register rh);;
         srcoffset <- run (decode_rm10_address rl);;
         b <- run (fetch_data_byte srcoffset);;
         let srcval := u32 (signed 8 b) in
         wr_32 destreg srcval
       else
         destreg <- run (decode_rm_word_register rh);;
         srcoffset <- run (decode_rm10_address rl);;
         b <- run (fetch_data_byte srcoffset);;
         let srcval := u16 (signed 8 b) in
         wr_16 destreg srcval
   | 3 =>
       m <- run (get mode);;
       if nz (Z.land m SYSMODE_PREFIX_DATA) then
         destreg <- run (decode_rm_long_register rh);;
         srcreg <- run (decode_rm_byte_register rl);;
         src <- rd_8 srcreg;;
         wr_32 destreg (u32 (signed 8 src))
       else
         destreg <- run (decode_rm_word_register rh);;
         srcreg <- run (decode_rm_byte_register rl);;
         src <- rd_8 srcreg;;
         wr_16 destreg (u16 (signed 8 src))
   | _ => eret tt
   end);;
  run DECODE_CLEAR_SEGOVR.

Definition x86emuOp2_movsx_word_R_RM (op2 : Z) : Op unit :=
  modrm <- run fetch_decode_modrm;;
  let '(md, rh, rl) := modrm in
  (match md with
   | 0 =>
       destreg <- run (decode_rm_long_register rh);;
       srcoffset <- run (decode_rm00_address rl);;
       w <- run (fetch_data_word srcoffset);;
       let srcval := u32 (signed 16 w) in
       wr_32 destreg srcval
   | 1 =>
       destreg <- run (decode_rm_long_register rh);;
       srcoffset <- run (decode_rm01_address rl);;
       w <- run (fetch_data_word srcoffset);;
       let srcval := u32 (signed 16 w) in
       wr_32 destreg srcval
   | 2 =>
       destreg <- run (decode_rm_long_register rh);;
       srcoffset <- run (decode_rm10_address rl);;
       w <- run (fetch_data_word srcoffset);;
       let srcval := u32 (signed 16 w) in
       wr_32 destreg srcval
   | 3 =>
       destreg <- run (decode_rm_long_register rh);;
       srcreg <- run (decode_rm_word_register rl);;
       src <- rd_16 srcreg;;
       wr_32 destreg (u32 (signed 16 src))
   | _ => eret tt
   end);;
  run DECODE_CLEAR_SEGOVR.

Definition x86emuOp_esc_coprocess_d8 (op1 : Z) : Op unit :=
  run DECODE_CLEAR_SEGOVR.

Definition x86emuOp_esc_coprocess_d9 (op1 : Z) : Op unit :=
  let destoffset := 0 in
  let stkelem := 0 in
  modrm <- run fetch_decode_modrm;;
  let '(md, rh, rl) := modrm in
  (match md with
   | 0 =>
       destoffset <- run (decode_rm00_address rl);;
       eret tt
   | 1 =>
       destoffset <- run (decode_rm01_address rl);;
       eret tt
   | 2 =>
       destoffset <- run (decode_rm10_address rl);;
       eret tt
   | 3 =>
       let stkelem := u8 rl in
       eret tt
   | _ => eret tt
   end);;
  run DECODE_CLEAR_SEGOVR.

Definition x86emuOp_esc_coprocess_da (op1 : Z) : Op unit :=
  let destoffset := 0 in
  let stkelem := 0 in
  modrm <- run fetch_decode_modrm;;
  let '(md, rh, rl) := modrm in
  (match md with
   | 0 =>
       destoffset <- run (decode_rm00_address rl);;
       eret tt
   | 1 =>
       destoffset <- run (decode_rm01_address rl);;
       eret tt
   | 2 =>
       destoffset <- run (decode_rm10_address rl);;
       eret tt
   | 3 =>
       let stkelem := u8 rl in
       eret tt
   | _ => eret tt
   end);;
  run DECODE_CLEAR_SEGOVR.

Definition x86emuOp_esc_coprocess_db (op1 : Z) : Op unit :=
  let destoffset := 0 in
  modrm <- run fetch_decode_modrm;;
  let '(md, rh, rl) := modrm in
  (match md with
   | 0 =>
       destoffset <- run (decode_rm00_address rl);;
       eret tt
   | 1 =>
       destoffset <- run (decode_rm01_address rl);;
       eret tt
   | 2 =>
       destoffset <- run (decode_rm10_address rl);;
       eret tt
   | 3 => eret tt
   | _ => eret tt
   end);;
  run DECODE_CLEAR_SEGOVR.

Definition x86emuOp_esc_coprocess_dc (op1 : Z) : Op unit :=
  let destoffset := 0 in
  let stkelem := 0 in
  modrm <- run fetch_decode_modrm;;
  let '(md, rh, rl) := modrm in
  (match md with
   | 0 =>
       destoffset <- run (decode_rm00_address rl);;
       eret tt
   | 1 =>
       destoffset <- run (decode_rm01_address rl);;
       eret tt
   | 2 =>
       destoffset <- run (decode_rm10_address rl);;
       eret tt
   | 3 =>
       let stkelem := u8 rl in
       eret tt
   | _ => eret tt
   end);;
  run DECODE_CLEAR_SEGOVR.

Definition x86emuOp_esc_coprocess_dd (op1 : Z) : Op unit :=
  let destoffset := 0 in
  let stkelem := 0 in
  modrm <- run fetch_decode_modrm;;
  let '(md, rh, rl) := modrm in
  (match md with
   | 0 =>
       destoffset <- run (decode_rm00_address rl);;
       eret tt
   | 1 =>
       destoffset <- run (decode_rm01_address rl);;
       eret tt
   | 2 =>
       destoffset <- run (decode_rm10_address rl);;
       eret tt
   | 3 =>
       let stkelem := u8 rl in
       eret tt
   | _ => eret tt
   end);;
  run DECODE_CLEAR_SEGOVR.

Definition x86emuOp_esc_coprocess_de (op1 : Z) : Op unit :=
  let destoffset := 0 in
  let stkelem := 0 in
  modrm <- run fetch_decode_modrm;;
  let '(md, rh, rl) := modrm in
  (match md with
   | 0 =>
       destoffset <- run (decode_rm00_address rl);;
       eret tt
   | 1 =>
       destoffset <- run (decode_rm01_address rl);;
       eret tt
   | 2 =>
       destoffset <- run (decode_rm10_address rl);;
       eret tt
   | 3 =>
       let stkelem := u8 rl in
       eret tt
   | _ => eret tt
   end);;
  run DECODE_CLEAR_SEGOVR.

Definition x86emuOp_esc_coprocess_df (op1 : Z) : Op unit :=
  let destoffset := 0 in
  let stkelem := 0 in
  modrm <- run fetch_decode_modrm;;
  let '(md, rh, rl) := modrm in
  (match md with
   | 0 =>
       destoffset <- run (decode_rm00_address rl);;
       eret tt
   | 1 =>
       destoffset <- run (decode_rm01_address rl);;
       eret tt
   | 2 =>
       destoffset <- run (decode_rm10_address rl);;
       eret tt
   | 3 =>
       let stkelem := u8 rl in
       eret tt
   | _ => eret tt
   end);;
  run DECODE_CLEAR_SEGOVR.

Definition x86emu_optab2 : list (Z -> Op unit) :=
  [
    x86emuOp2_illegal_op; x86emuOp2_illegal_op; x86emuOp2_illegal_op; x86emuOp2_illegal_op;
    x86emuOp2_illegal_op; x86emuOp2_illegal_op; x86emuOp2_illegal_op; x86emuOp2_illegal_op;
    x86emuOp2_illegal_op; x86emuOp2_illegal_op; x86emuOp2_illegal_op; x86emuOp2_illegal_op;
    x86emuOp2_illegal_op; x86emuOp2_illegal_op; x86emuOp2_illegal_op; x86emuOp2_illegal_op;
    x86emuOp2_illegal_op; x86emuOp2_illegal_op; x86emuOp2_illegal_op; x86emuOp2_illegal_op;
    x86emuOp2_illegal_op; x86emuOp2_illegal_op; x86emuOp2_illegal_op; x86emuOp2_illegal_op;
    x86emuOp2_illegal_op; x86emuOp2_illegal_op; x86emuOp2_illegal_op; x86emuOp2_illegal_op;
    x86emuOp2_illegal_op; x86emuOp2_illegal_op; x86emuOp2_illegal_op; x86emuOp2_illegal_op;
    x86emuOp2_illegal_op; x86emuOp2_illegal_op; x86emuOp2_illegal_op; x86emuOp2_illegal_op;
    x86emuOp2_illegal_op; x86emuOp2_illegal_op; x86emuOp2_illegal_op; x86emuOp2_illegal_op;
    x86emuOp2_illegal_op; x86emuOp2_illegal_op; x86emuOp2_illegal_op; x86emuOp2_illegal_op;
    x86emuOp2_illegal_op; x86emuOp2_illegal_op; x86emuOp2_illegal_op; x86emuOp2_illegal_op;
    x86emuOp2_illegal_op; x86emuOp2_rdtsc; x86emuOp2_illegal_op; x86emuOp2_illegal_op;
    x86emuOp2_illegal_op; x86emuOp2_illegal_op; x86emuOp2_illegal_op; x86emuOp2_illegal_op;
    x86emuOp2_illegal_op; x86emuOp2_illegal_op; x86emuOp2_illegal_op; x86emuOp2_illegal_op;
    x86emuOp2_illegal_op; x86emuOp2_illegal_op; x86emuOp2_illegal_op; x86emuOp2_illegal_op;
    x86emuOp2_illegal_op; x86emuOp2_illegal_op; x86emuOp2_illegal_op; x86emuOp2_illegal_op;
    x86emuOp2_illegal_op; x86emuOp2_illegal_op; x86emuOp2_illegal_op; x86emuOp2_illegal_op;
    x86emuOp2_illegal_op; x86emuOp2_illegal_op; x86emuOp2_illegal_op; x86emuOp2_illegal_op;
    x86emuOp2_illegal_op; x86emuOp2_illegal_op; x86emuOp2_illegal_op; x86emuOp2_illegal_op;
    x86emuOp2_illegal_op; x86emuOp2_illegal_op; x86emuOp2_illegal_op; x86emuOp2_illegal_op;
    x86emuOp2_illegal_op; x86emuOp2_illegal_op; x86emuOp2_illegal_op; x86emuOp2_illegal_op;
    x86emuOp2_illegal_op; x86emuOp2_illegal_op; x86emuOp2_illegal_op; x86emuOp2_illegal_op;
    x86emuOp2_illegal_op; x86emuOp2_illegal_op; x86emuOp2_illegal_op; x86emuOp2_illegal_op;
    x86emuOp2_illegal_op; x86emuOp2_illegal_op; x86emuOp2_illegal_op; x86emuOp2_illegal_op;
    x86emuOp2_illegal_op; x86emuOp2_illegal_op; x86emuOp2_illegal_op; x86emuOp2_illegal_op;
    x86emuOp2_illegal_op; x86emuOp2_illegal_op; x86emuOp2_illegal_op; x86emuOp2_illegal_op;
    x86emuOp2_illegal_op; x86emuOp2_illegal_op; x86emuOp2_illegal_op; x86emuOp2_illegal_op;
    x86emuOp2_illegal_op; x86emuOp2_illegal_op; x86emuOp2_illegal_op; x86emuOp2_illegal_op;
    x86emuOp2_illegal_op; x86emuOp2_illegal_op; x86emuOp2_illegal_op; x86emuOp2_illegal_op;
    x86emuOp2_illegal_op; x86emuOp2_illegal_op; x86emuOp2_illegal_op; x86emuOp2_illegal_op;
    x86emuOp2_illegal_op; x86emuOp2_illegal_op; x86emuOp2_illegal_op; x86emuOp2_illegal_op;
    x86emuOp2_long_jump; x86emuOp2_long_jump; x86emuOp2_long_jump; x86emuOp2_long_jump;
    x86emuOp2_long_jump; x86emuOp2_long_jump; x86emuOp2_long_jump; x86emuOp2_long_jump;
    x86emuOp2_long_jump; x86emuOp2_long_jump; x86emuOp2_long_jump; x86emuOp2_long_jump;
    x86emuOp2_long_jump; x86emuOp2_long_jump; x86emuOp2_long_jump; x86emuOp2_long_jump;
    x86emuOp2_set_byte; x86emuOp2_set_byte; x86emuOp2_set_byte; x86emuOp2_set_byte;
    x86emuOp2_set_byte; x86emuOp2_set_byte; x86emuOp2_set_byte; x86emuOp2_set_byte;
    x86emuOp2_set_byte; x86emuOp2_set_byte; x86emuOp2_set_byte; x86emuOp2_set_byte;
    x86emuOp2_set_byte; x86emuOp2_set_byte; x86emuOp2_set_byte; x86emuOp2_set_byte;
    x86emuOp2_push_FS; x86emuOp2_pop_FS; x86emuOp2_illegal_op; x86emuOp2_bt_R;
    x86emuOp2_shld_IMM; x86emuOp2_shld_CL; x86emuOp2_illegal_op; x86emuOp2_illegal_op;
    x86emuOp2_push_GS; x86emuOp2_pop_GS; x86emuOp2_illegal_op; x86emuOp2_bts_R;
    x86emuOp2_shrd_IMM; x86emuOp2_shrd_CL; x86emuOp2_illegal_op; x86emuOp2_imul_R_RM;
    x86emuOp2_illegal_op; x86emuOp2_illegal_op; x86emuOp2_lss_R_IMM; x86emuOp2_btr_R;
    x86emuOp2_lfs_R_IMM; x86emuOp2_lgs_R_IMM; x86emuOp2_movzx_byte_R_RM; x86emuOp2_movzx_word_R_RM;
    x86emuOp2_illegal_op; x86emuOp2_illegal_op; x86emuOp2_btX_I; x86emuOp2_btc_R;
    x86emuOp2_bsf; x86emuOp2_bsr; x86emuOp2_movsx_byte_R_RM; x86emuOp2_movsx_word_R_RM;
    x86emuOp2_illegal_op; x86emuOp2_illegal_op; x86emuOp2_illegal_op; x86emuOp2_illegal_op;
    x86emuOp2_illegal_op; x86emuOp2_illegal_op; x86emuOp2_illegal_op; x86emuOp2_illegal_op;
    x86emuOp2_illegal_op; x86emuOp2_illegal_op; x86emuOp2_illegal_op; x86emuOp2_illegal_op;
    x86emuOp2_illegal_op; x86emuOp2_illegal_op; x86emuOp2_illegal_op; x86emuOp2_illegal_op;
    x86emuOp2_illegal_op; x86emuOp2_illegal_op; x86emuOp2_illegal_op; x86emuOp2_illegal_op;
    x86emuOp2_illegal_op; x86emuOp2_illegal_op; x86emuOp2_illegal_op; x86emuOp2_illegal_op;
    x86emuOp2_illegal_op; x86emuOp2_illegal_op; x86emuOp2_illegal_op; x86emuOp2_illegal_op;
    x86emuOp2_illegal_op; x86emuOp2_illegal_op; x86emuOp2_illegal_op; x86emuOp2_illegal_op;
    x86emuOp2_illegal_op; x86emuOp2_illegal_op; x86emuOp2_illegal_op; x86emuOp2_illegal_op;
    x86emuOp2_illegal_op; x86emuOp2_illegal_op; x86emuOp2_illegal_op; x86emuOp2_illegal_op;
    x86emuOp2_illegal_op; x86emuOp2_illegal_op; x86emuOp2_illegal_op; x86emuOp2_illegal_op;
    x86emuOp2_illegal_op; x86emuOp2_illegal_op; x86emuOp2_illegal_op; x86emuOp2_illegal_op;
    x86emuOp2_illegal_op; x86emuOp2_illegal_op; x86emuOp2_illegal_op; x86emuOp2_illegal_op;
    x86emuOp2_illegal_op; x86emuOp2_illegal_op; x86emuOp2_illegal_op; x86emuOp2_illegal_op;
    x86emuOp2_illegal_op; x86emuOp2_illegal_op; x86emuOp2_illegal_op; x86emuOp2_illegal_op;
    x86emuOp2_illegal_op; x86emuOp2_illegal_op; x86emuOp2_illegal_op; x86emuOp2_illegal_op
  ].

End Handlers.
