(* ===== verification/X86OpsAlu.v ===== *)
(** * Opcodes 00 to 3F

    Arithmetic, logic, the segment registers and the prefixes of segments of [ops.c], each
    handler as a computation of [X86Ops], in the order of the source. *)
From Stdlib Require Import ZArith Lia List Bool.
From S2P Require Import Prelude X86Flags X86Alu X86Shift X86Machine X86Decode X86MulDiv X86Ops X86OpsExt.
Import ListNotations.
Local Open Scope Z_scope.
Local Open Scope err_scope.

Section Handlers.
Context {W : Type} {sys : Sys W}.
Local Abbreviation Op := (Op W).

Definition x86emuOp_illegal_op (op1 : Z) : Op unit :=
  sp <- run (x_reg rSP);;
  if negb (sp =? 0) then run HALT_SYS else run X86EMU_halt_sys.

Definition x86emuOp_add_byte_RM_R (op1 : Z) : Op unit :=
  modrm <- run fetch_decode_modrm;;
  let '(md, rh, rl) := modrm in
  (match md with
   | 0 =>
       destoffset <- run (decode_rm00_address rl);;
       destval <- run (fetch_data_byte destoffset);;
       srcreg <- run (decode_rm_byte_register rh);;
       src <- rd_8 srcreg;;
       destval <- flags (add_byte destval src);;
       run (store_data_byte destoffset destval)
   | 1 =>
       destoffset <- run (decode_rm01_address rl);;
       destval <- run (fetch_data_byte destoffset);;
       srcreg <- run (decode_rm_byte_register rh);;
       src <- rd_8 srcreg;;
       destval <- flags (add_byte destval src);;
       run (store_data_byte destoffset destval)
   | 2 =>
       destoffset <- run (decode_rm10_address rl);;
       destval <- run (fetch_data_byte destoffset);;
       srcreg <- run (decode_rm_byte_register rh);;
       src <- rd_8 srcreg;;
       destval <- flags (add_byte destval src);;
       run (store_data_byte destoffset destval)
   | 3 =>
       destreg <- run (decode_rm_byte_register rl);;
       srcreg <- run (decode_rm_byte_register rh);;
       dst <- rd_8 destreg;;
       src <- rd_8 srcreg;;
       b <- flags (add_byte dst src);;
       wr_8 destreg b
   | _ => eret tt
   end);;
  run DECODE_CLEAR_SEGOVR.

Definition x86emuOp_add_word_RM_R (op1 : Z) : Op unit :=
  modrm <- run fetch_decode_modrm;;
  let '(md, rh, rl) := modrm in
  (match md with
   | 0 =>
       m <- run (get mode);;
       if nz (Z.land m SYSMODE_PREFIX_DATA) then
         destoffset <- run (decode_rm00_address rl);;
         destval <- run (fetch_data_long destoffset);;
         srcreg <- run (decode_rm_long_register rh);;
         src <- rd_32 srcreg;;
         destval <- flags (add_long destval src);;
         run (store_data_long destoffset destval)
       else
         destoffset <- run (decode_rm00_address rl);;
         destval <- run (fetch_data_word destoffset);;
         srcreg <- run (decode_rm_word_register rh);;
         src <- rd_16 srcreg;;
         destval <- flags (add_word destval src);;
         run (store_data_word destoffset destval)
   | 1 =>
       m <- run (get mode);;
       if nz (Z.land m SYSMODE_PREFIX_DATA) then
         destoffset <- run (decode_rm01_address rl);;
         destval <- run (fetch_data_long destoffset);;
         srcreg <- run (decode_rm_long_register rh);;
         src <- rd_32 srcreg;;
         destval <- flags (add_long destval src);;
         run (store_data_long destoffset destval)
       else
         destoffset <- run (decode_rm01_address rl);;
         destval <- run (fetch_data_word destoffset);;
         srcreg <- run (decode_rm_word_register rh);;
         src <- rd_16 srcreg;;
         destval <- flags (add_word destval src);;
         run (store_data_word destoffset destval)
   | 2 =>
       m <- run (get mode);;
       if nz (Z.land m SYSMODE_PREFIX_DATA) then
         destoffset <- run (decode_rm10_address rl);;
         destval <- run (fetch_data_long destoffset);;
         srcreg <- run (decode_rm_long_register rh);;
         src <- rd_32 srcreg;;
         destval <- flags (add_long destval src);;
         run (store_data_long destoffset destval)
       else
         destoffset <- run (decode_rm10_address rl);;
         destval <- run (fetch_data_word destoffset);;
         srcreg <- run (decode_rm_word_register rh);;
         src <- rd_16 srcreg;;
         destval <- flags (add_word destval src);;
         run (store_data_word destoffset destval)
   | 3 =>
       m <- run (get mode);;
       if nz (Z.land m SYSMODE_PREFIX_DATA) then
         destreg <- run (decode_rm_long_register rl);;
         srcreg <- run (decode_rm_long_register rh);;
         dst <- rd_32 destreg;;
         src <- rd_32 srcreg;;
         l <- flags (add_long dst src);;
         wr_32 destreg l
       else
         destreg <- run (decode_rm_word_register rl);;
         srcreg <- run (decode_rm_word_register rh);;
         dst <- rd_16 destreg;;
         src <- rd_16 srcreg;;
         w <- flags (add_word dst src);;
         wr_16 destreg w
   | _ => eret tt
   end);;
  run DECODE_CLEAR_SEGOVR.

Definition x86emuOp_add_byte_R_RM (op1 : Z) : Op unit :=
  modrm <- run fetch_decode_modrm;;
  let '(md, rh, rl) := modrm in
  (match md with
   | 0 =>
       destreg <- run (decode_rm_byte_register rh);;
       srcoffset <- run (decode_rm00_address rl);;
       srcval <- run (fetch_data_byte srcoffset);;
       dst <- rd_8 destreg;;
       b <- flags (add_byte dst srcval);;
       wr_8 destreg b
   | 1 =>
       destreg <- run (decode_rm_byte_register rh);;
       srcoffset <- run (decode_rm01_address rl);;
       srcval <- run (fetch_data_byte srcoffset);;
       dst <- rd_8 destreg;;
       b <- flags (add_byte dst srcval);;
       wr_8 destreg b
   | 2 =>
       destreg <- run (decode_rm_byte_register rh);;
       srcoffset <- run (decode_rm10_address rl);;
       srcval <- run (fetch_data_byte srcoffset);;
       dst <- rd_8 destreg;;
       b <- flags (add_byte dst srcval);;
       wr_8 destreg b
   | 3 =>
       destreg <- run (decode_rm_byte_register rh);;
       srcreg <- run (decode_rm_byte_register rl);;
       dst <- rd_8 destreg;;
       src <- rd_8 srcreg;;
       b <- flags (add_byte dst src);;
       wr_8 destreg b
   | _ => eret tt
   end);;
  run DECODE_CLEAR_SEGOVR.

Definition x86emuOp_add_word_R_RM (op1 : Z) : Op unit :=
  modrm <- run fetch_decode_modrm;;
  let '(md, rh, rl) := modrm in
  (match md with
   | 0 =>
       m <- run (get mode);;
       if nz (Z.land m SYSMODE_PREFIX_DATA) then
         destreg <- run (decode_rm_long_register rh);;
         srcoffset <- run (decode_rm00_address rl);;
         srcval <- run (fetch_data_long srcoffset);;
         dst <- rd_32 destreg;;
         l <- flags (add_long dst srcval);;
         wr_32 destreg l
       else
         destreg <- run (decode_rm_word_register rh);;
         srcoffset <- run (decode_rm00_address rl);;
         srcval <- run (fetch_data_word srcoffset);;
         dst <- rd_16 destreg;;
         w <- flags (add_word dst srcval);;
         wr_16 destreg w
   | 1 =>
       m <- run (get mode);;
       if nz (Z.land m SYSMODE_PREFIX_DATA) then
         destreg <- run (decode_rm_long_register rh);;
         srcoffset <- run (decode_rm01_address rl);;
         srcval <- run (fetch_data_long srcoffset);;
         dst <- rd_32 destreg;;
         l <- flags (add_long dst srcval);;
         wr_32 destreg l
       else
         destreg <- run (decode_rm_word_register rh);;
         srcoffset <- run (decode_rm01_address rl);;
         srcval <- run (fetch_data_word srcoffset);;
         dst <- rd_16 destreg;;
         w <- flags (add_word dst srcval);;
         wr_16 destreg w
   | 2 =>
       m <- run (get mode);;
       if nz (Z.land m SYSMODE_PREFIX_DATA) then
         destreg <- run (decode_rm_long_register rh);;
         srcoffset <- run (decode_rm10_address rl);;
         srcval <- run (fetch_data_long srcoffset);;
         dst <- rd_32 destreg;;
         l <- flags (add_long dst srcval);;
         wr_32 destreg l
       else
         destreg <- run (decode_rm_word_register rh);;
         srcoffset <- run (decode_rm10_address rl);;
         srcval <- run (fetch_data_word srcoffset);;
         dst <- rd_16 destreg;;
         w <- flags (add_word dst srcval);;
         wr_16 destreg w
   | 3 =>
       m <- run (get mode);;
       if nz (Z.land m SYSMODE_PREFIX_DATA) then
         destreg <- run (decode_rm_long_register rh);;
         srcreg <- run (decode_rm_long_register rl);;
         dst <- rd_32 destreg;;
         src <- rd_32 srcreg;;
         l <- flags (add_long dst src);;
         wr_32 destreg l
       else
         destreg <- run (decode_rm_word_register rh);;
         srcreg <- run (decode_rm_word_register rl);;
         dst <- rd_16 destreg;;
         src <- rd_16 srcreg;;
         w <- flags (add_word dst src);;
         wr_16 destreg w
   | _ => eret tt
   end);;
  run DECODE_CLEAR_SEGOVR.

Definition x86emuOp_add_byte_AL_IMM (op1 : Z) : Op unit :=
  srcval <- run fetch_byte_imm;;
  al <- run (l_reg rA);;
  b <- flags (add_byte al srcval);;
  run (set_l rA b);;
  run DECODE_CLEAR_SEGOVR.

Definition x86emuOp_add_word_AX_IMM (op1 : Z) : Op unit :=
  m <- run (get mode);;
  srcval <- (if nz (Z.land m SYSMODE_PREFIX_DATA) then run fetch_long_imm else run fetch_word_imm);;
  m <- run (get mode);;
  (if nz (Z.land m SYSMODE_PREFIX_DATA) then
     eax <- run (e_reg rA);;
     l <- flags (add_long eax srcval);;
     run (set_e rA l)
   else
     ax <- run (x_reg rA);;
     w <- flags (add_word ax (u16 srcval));;
     run (set_x rA w));;
  run DECODE_CLEAR_SEGOVR.

Definition x86emuOp_push_ES (op1 : Z) : Op unit :=
  es <- run (s_reg ES);;
  run (push_word es);;
  run DECODE_CLEAR_SEGOVR.

Definition x86emuOp_pop_ES (op1 : Z) : Op unit :=
  w <- run pop_word;;
  run (set_s ES w);;
  run DECODE_CLEAR_SEGOVR.

Definition x86emuOp_or_byte_RM_R (op1 : Z) : Op unit :=
  modrm <- run fetch_decode_modrm;;
  let '(md, rh, rl) := modrm in
  (match md with
   | 0 =>
       destoffset <- run (decode_rm00_address rl);;
       destval <- run (fetch_data_byte destoffset);;
       srcreg <- run (decode_rm_byte_register rh);;
       src <- rd_8 srcreg;;
       destval <- flags (or_byte destval src);;
       run (store_data_byte destoffset destval)
   | 1 =>
       destoffset <- run (decode_rm01_address rl);;
       destval <- run (fetch_data_byte destoffset);;
       srcreg <- run (decode_rm_byte_register rh);;
       src <- rd_8 srcreg;;
       destval <- flags (or_byte destval src);;
       run (store_data_byte destoffset destval)
   | 2 =>
       destoffset <- run (decode_rm10_address rl);;
       destval <- run (fetch_data_byte destoffset);;
       srcreg <- run (decode_rm_byte_register rh);;
       src <- rd_8 srcreg;;
       destval <- flags (or_byte destval src);;
       run (store_data_byte destoffset destval)
   | 3 =>
       destreg <- run (decode_rm_byte_register rl);;
       srcreg <- run (decode_rm_byte_register rh);;
       dst <- rd_8 destreg;;
       src <- rd_8 srcreg;;
       b <- flags (or_byte dst src);;
       wr_8 destreg b
   | _ => eret tt
   end);;
  run DECODE_CLEAR_SEGOVR.

Definition x86emuOp_or_word_RM_R (op1 : Z) : Op unit :=
  modrm <- run fetch_decode_modrm;;
  let '(md, rh, rl) := modrm in
  (match md with
   | 0 =>
       m <- run (get mode);;
       if nz (Z.land m SYSMODE_PREFIX_DATA) then
         destoffset <- run (decode_rm00_address rl);;
         destval <- run (fetch_data_long destoffset);;
         srcreg <- run (decode_rm_long_register rh);;
         src <- rd_32 srcreg;;
         destval <- flags (or_long destval src);;
         run (store_data_long destoffset destval)
       else
         destoffset <- run (decode_rm00_address rl);;
         destval <- run (fetch_data_word destoffset);;
         srcreg <- run (decode_rm_word_register rh);;
         src <- rd_16 srcreg;;
         destval <- flags (or_word destval src);;
         run (store_data_word destoffset destval)
   | 1 =>
       m <- run (get mode);;
       if nz (Z.land m SYSMODE_PREFIX_DATA) then
         destoffset <- run (decode_rm01_address rl);;
         destval <- run (fetch_data_long destoffset);;
         srcreg <- run (decode_rm_long_register rh);;
         src <- rd_32 srcreg;;
         destval <- flags (or_long destval src);;
         run (store_data_long destoffset destval)
       else
         destoffset <- run (decode_rm01_address rl);;
         destval <- run (fetch_data_word destoffset);;
         srcreg <- run (decode_rm_word_register rh);;
         src <- rd_16 srcreg;;
         destval <- flags (or_word destval src);;
         run (store_data_word destoffset destval)
   | 2 =>
       m <- run (get mode);;
       if nz (Z.land m SYSMODE_PREFIX_DATA) then
         destoffset <- run (decode_rm10_address rl);;
         destval <- run (fetch_data_long destoffset);;
         srcreg <- run (decode_rm_long_register rh);;
         src <- rd_32 srcreg;;
         destval <- flags (or_long destval src);;
         run (store_data_long destoffset destval)
       else
         destoffset <- run (decode_rm10_address rl);;
         destval <- run (fetch_data_word destoffset);;
         srcreg <- run (decode_rm_word_register rh);;
         src <- rd_16 srcreg;;
         destval <- flags (or_word destval src);;
         run (store_data_word destoffset destval)
   | 3 =>
       m <- run (get mode);;
       if nz (Z.land m SYSMODE_PREFIX_DATA) then
         destreg <- run (decode_rm_long_register rl);;
         srcreg <- run (decode_rm_long_register rh);;
         dst <- rd_32 destreg;;
         src <- rd_32 srcreg;;
         l <- flags (or_long dst src);;
         wr_32 destreg l
       else
         destreg <- run (decode_rm_word_register rl);;
         srcreg <- run (decode_rm_word_register rh);;
         dst <- rd_16 destreg;;
         src <- rd_16 srcreg;;
         w <- flags (or_word dst src);;
         wr_16 destreg w
   | _ => eret tt
   end);;
  run DECODE_CLEAR_SEGOVR.

Definition x86emuOp_or_byte_R_RM (op1 : Z) : Op unit :=
  modrm <- run fetch_decode_modrm;;
  let '(md, rh, rl) := modrm in
  (match md with
   | 0 =>
       destreg <- run (decode_rm_byte_register rh);;
       srcoffset <- run (decode_rm00_address rl);;
       srcval <- run (fetch_data_byte srcoffset);;
       dst <- rd_8 destreg;;
       b <- flags (or_byte dst srcval);;
       wr_8 destreg b
   | 1 =>
       destreg <- run (decode_rm_byte_register rh);;
       srcoffset <- run (decode_rm01_address rl);;
       srcval <- run (fetch_data_byte srcoffset);;
       dst <- rd_8 destreg;;
       b <- flags (or_byte dst srcval);;
       wr_8 destreg b
   | 2 =>
       destreg <- run (decode_rm_byte_register rh);;
       srcoffset <- run (decode_rm10_address rl);;
       srcval <- run (fetch_data_byte srcoffset);;
       dst <- rd_8 destreg;;
       b <- flags (or_byte dst srcval);;
       wr_8 destreg b
   | 3 =>
       destreg <- run (decode_rm_byte_register rh);;
       srcreg <- run (decode_rm_byte_register rl);;
       dst <- rd_8 destreg;;
       src <- rd_8 srcreg;;
       b <- flags (or_byte dst src);;
       wr_8 destreg b
   | _ => eret tt
   end);;
  run DECODE_CLEAR_SEGOVR.

Definition x86emuOp_or_word_R_RM (op1 : Z) : Op unit :=
  modrm <- run fetch_decode_modrm;;
  let '(md, rh, rl) := modrm in
  (match md with
   | 0 =>
       m <- run (get mode);;
       if nz (Z.land m SYSMODE_PREFIX_DATA) then
         destreg <- run (decode_rm_long_register rh);;
         srcoffset <- run (decode_rm00_address rl);;
         srcval <- run (fetch_data_long srcoffset);;
         dst <- rd_32 destreg;;
         l <- flags (or_long dst srcval);;
         wr_32 destreg l
       else
         destreg <- run (decode_rm_word_register rh);;
         srcoffset <- run (decode_rm00_address rl);;
         srcval <- run (fetch_data_word srcoffset);;
         dst <- rd_16 destreg;;
         w <- flags (or_word dst srcval);;
         wr_16 destreg w
   | 1 =>
       m <- run (get mode);;
       if nz (Z.land m SYSMODE_PREFIX_DATA) then
         destreg <- run (decode_rm_long_register rh);;
         srcoffset <- run (decode_rm01_address rl);;
         srcval <- run (fetch_data_long srcoffset);;
         dst <- rd_32 destreg;;
         l <- flags (or_long dst srcval);;
         wr_32 destreg l
       else
         destreg <- run (decode_rm_word_register rh);;
         srcoffset <- run (decode_rm01_address rl);;
         srcval <- run (fetch_data_word srcoffset);;
         dst <- rd_16 destreg;;
         w <- flags (or_word dst srcval);;
         wr_16 destreg w
   | 2 =>
       m <- run (get mode);;
       if nz (Z.land m SYSMODE_PREFIX_DATA) then
         destreg <- run (decode_rm_long_register rh);;
         srcoffset <- run (decode_rm10_address rl);;
         srcval <- run (fetch_data_long srcoffset);;
         dst <- rd_32 destreg;;
         l <- flags (or_long dst srcval);;
         wr_32 destreg l
       else
         destreg <- run (decode_rm_word_register rh);;
         srcoffset <- run (decode_rm10_address rl);;
         srcval <- run (fetch_data_word srcoffset);;
         dst <- rd_16 destreg;;
         w <- flags (or_word dst srcval);;
         wr_16 destreg w
   | 3 =>
       m <- run (get mode);;
       if nz (Z.land m SYSMODE_PREFIX_DATA) then
         destreg <- run (decode_rm_long_register rh);;
         srcreg <- run (decode_rm_long_register rl);;
         dst <- rd_32 destreg;;
         src <- rd_32 srcreg;;
         l <- flags (or_long dst src);;
         wr_32 destreg l
       else
         destreg <- run (decode_rm_word_register rh);;
         srcreg <- run (decode_rm_word_register rl);;
         dst <- rd_16 destreg;;
         src <- rd_16 srcreg;;
         w <- flags (or_word dst src);;
         wr_16 destreg w
   | _ => eret tt
   end);;
  run DECODE_CLEAR_SEGOVR.

Definition x86emuOp_or_byte_AL_IMM (op1 : Z) : Op unit :=
  srcval <- run fetch_byte_imm;;
  al <- run (l_reg rA);;
  b <- flags (or_byte al srcval);;
  run (set_l rA b);;
  run DECODE_CLEAR_SEGOVR.

Definition x86emuOp_or_word_AX_IMM (op1 : Z) : Op unit :=
  m <- run (get mode);;
  srcval <- (if nz (Z.land m SYSMODE_PREFIX_DATA) then run fetch_long_imm else run fetch_word_imm);;
  m <- run (get mode);;
  (if nz (Z.land m SYSMODE_PREFIX_DATA) then
     eax <- run (e_reg rA);;
     l <- flags (or_long eax srcval);;
     run (set_e rA l)
   else
     ax <- run (x_reg rA);;
     w <- flags (or_word ax (u16 srcval));;
     run (set_x rA w));;
  run DECODE_CLEAR_SEGOVR.

Definition x86emuOp_push_CS (op1 : Z) : Op unit :=
  cs <- run (s_reg CS);;
  run (push_word cs);;
  run DECODE_CLEAR_SEGOVR.

Definition x86emuOp_two_byte (op1 : Z) : Op unit :=
  op2 <- run fetch_byte_imm;;
  h <- entry x86emu_optab2 op2;; h op2.

Definition x86emuOp_adc_byte_RM_R (op1 : Z) : Op unit :=
  modrm <- run fetch_decode_modrm;;
  let '(md, rh, rl) := modrm in
  (match md with
   | 0 =>
       destoffset <- run (decode_rm00_address rl);;
       destval <- run (fetch_data_byte destoffset);;
       srcreg <- run (decode_rm_byte_register rh);;
       src <- rd_8 srcreg;;
       destval <- flags (adc_byte destval src);;
       run (store_data_byte destoffset destval)
   | 1 =>
       destoffset <- run (decode_rm01_address rl);;
       destval <- run (fetch_data_byte destoffset);;
       srcreg <- run (decode_rm_byte_register rh);;
       src <- rd_8 srcreg;;
       destval <- flags (adc_byte destval src);;
       run (store_data_byte destoffset destval)
   | 2 =>
       destoffset <- run (decode_rm10_address rl);;
       destval <- run (fetch_data_byte destoffset);;
       srcreg <- run (decode_rm_byte_register rh);;
       src <- rd_8 srcreg;;
       destval <- flags (adc_byte destval src);;
       run (store_data_byte destoffset destval)
   | 3 =>
       destreg <- run (decode_rm_byte_register rl);;
       srcreg <- run (decode_rm_byte_register rh);;
       dst <- rd_8 destreg;;
       src <- rd_8 srcreg;;
       b <- flags (adc_byte dst src);;
       wr_8 destreg b
   | _ => eret tt
   end);;
  run DECODE_CLEAR_SEGOVR.

Definition x86emuOp_adc_word_RM_R (op1 : Z) : Op unit :=
  modrm <- run fetch_decode_modrm;;
  let '(md, rh, rl) := modrm in
  (match md with
   | 0 =>
       m <- run (get mode);;
       if nz (Z.land m SYSMODE_PREFIX_DATA) then
         destoffset <- run (decode_rm00_address rl);;
         destval <- run (fetch_data_long destoffset);;
         srcreg <- run (decode_rm_long_register rh);;
         src <- rd_32 srcreg;;
         destval <- flags (adc_long destval src);;
         run (store_data_long destoffset destval)
       else
         destoffset <- run (decode_rm00_address rl);;
         destval <- run (fetch_data_word destoffset);;
         srcreg <- run (decode_rm_word_register rh);;
         src <- rd_16 srcreg;;
         destval <- flags (adc_word destval src);;
         run (store_data_word destoffset destval)
   | 1 =>
       m <- run (get mode);;
       if nz (Z.land m SYSMODE_PREFIX_DATA) then
         destoffset <- run (decode_rm01_address rl);;
         destval <- run (fetch_data_long destoffset);;
         srcreg <- run (decode_rm_long_register rh);;
         src <- rd_32 srcreg;;
         destval <- flags (adc_long destval src);;
         run (store_data_long destoffset destval)
       else
         destoffset <- run (decode_rm01_address rl);;
         destval <- run (fetch_data_word destoffset);;
         srcreg <- run (decode_rm_word_register rh);;
         src <- rd_16 srcreg;;
         destval <- flags (adc_word destval src);;
         run (store_data_word destoffset destval)
   | 2 =>
       m <- run (get mode);;
       if nz (Z.land m SYSMODE_PREFIX_DATA) then
         destoffset <- run (decode_rm10_address rl);;
         destval <- run (fetch_data_long destoffset);;
         srcreg <- run (decode_rm_long_register rh);;
         src <- rd_32 srcreg;;
         destval <- flags (adc_long destval src);;
         run (store_data_long destoffset destval)
       else
         destoffset <- run (decode_rm10_address rl);;
         destval <- run (fetch_data_word destoffset);;
         srcreg <- run (decode_rm_word_register rh);;
         src <- rd_16 srcreg;;
         destval <- flags (adc_word destval src);;
         run (store_data_word destoffset destval)
   | 3 =>
       m <- run (get mode);;
       if nz (Z.land m SYSMODE_PREFIX_DATA) then
         destreg <- run (decode_rm_long_register rl);;
         srcreg <- run (decode_rm_long_register rh);;
         dst <- rd_32 destreg;;
         src <- rd_32 srcreg;;
         l <- flags (adc_long dst src);;
         wr_32 destreg l
       else
         destreg <- run (decode_rm_word_register rl);;
         srcreg <- run (decode_rm_word_register rh);;
         dst <- rd_16 destreg;;
         src <- rd_16 srcreg;;
         w <- flags (adc_word dst src);;
         wr_16 destreg w
   | _ => eret tt
   end);;
  run DECODE_CLEAR_SEGOVR.

Definition x86emuOp_adc_byte_R_RM (op1 : Z) : Op unit :=
  modrm <- run fetch_decode_modrm;;
  let '(md, rh, rl) := modrm in
  (match md with
   | 0 =>
       destreg <- run (decode_rm_byte_register rh);;
       srcoffset <- run (decode_rm00_address rl);;
       srcval <- run (fetch_data_byte srcoffset);;
       dst <- rd_8 destreg;;
       b <- flags (adc_byte dst srcval);;
       wr_8 destreg b
   | 1 =>
       destreg <- run (decode_rm_byte_register rh);;
       srcoffset <- run (decode_rm01_address rl);;
       srcval <- run (fetch_data_byte srcoffset);;
       dst <- rd_8 destreg;;
       b <- flags (adc_byte dst srcval);;
       wr_8 destreg b
   | 2 =>
       destreg <- run (decode_rm_byte_register rh);;
       srcoffset <- run (decode_rm10_address rl);;
       srcval <- run (fetch_data_byte srcoffset);;
       dst <- rd_8 destreg;;
       b <- flags (adc_byte dst srcval);;
       wr_8 destreg b
   | 3 =>
       destreg <- run (decode_rm_byte_register rh);;
       srcreg <- run (decode_rm_byte_register rl);;
       dst <- rd_8 destreg;;
       src <- rd_8 srcreg;;
       b <- flags (adc_byte dst src);;
       wr_8 destreg b
   | _ => eret tt
   end);;
  run DECODE_CLEAR_SEGOVR.

Definition x86emuOp_adc_word_R_RM (op1 : Z) : Op unit :=
  modrm <- run fetch_decode_modrm;;
  let '(md, rh, rl) := modrm in
  (match md with
   | 0 =>
       m <- run (get mode);;
       if nz (Z.land m SYSMODE_PREFIX_DATA) then
         destreg <- run (decode_rm_long_register rh);;
         srcoffset <- run (decode_rm00_address rl);;
         srcval <- run (fetch_data_long srcoffset);;
         dst <- rd_32 destreg;;
         l <- flags (adc_long dst srcval);;
         wr_32 destreg l
       else
         destreg <- run (decode_rm_word_register rh);;
         srcoffset <- run (decode_rm00_address rl);;
         srcval <- run (fetch_data_word srcoffset);;
         dst <- rd_16 destreg;;
         w <- flags (adc_word dst srcval);;
         wr_16 destreg w
   | 1 =>
       m <- run (get mode);;
       if nz (Z.land m SYSMODE_PREFIX_DATA) then
         destreg <- run (decode_rm_long_register rh);;
         srcoffset <- run (decode_rm01_address rl);;
         srcval <- run (fetch_data_long srcoffset);;
         dst <- rd_32 destreg;;
         l <- flags (adc_long dst srcval);;
         wr_32 destreg l
       else
         destreg <- run (decode_rm_word_register rh);;
         srcoffset <- run (decode_rm01_address rl);;
         srcval <- run (fetch_data_word srcoffset);;
         dst <- rd_16 destreg;;
         w <- flags (adc_word dst srcval);;
         wr_16 destreg w
   | 2 =>
       m <- run (get mode);;
       if nz (Z.land m SYSMODE_PREFIX_DATA) then
         destreg <- run (decode_rm_long_register rh);;
         srcoffset <- run (decode_rm10_address rl);;
         srcval <- run (fetch_data_long srcoffset);;
         dst <- rd_32 destreg;;
         l <- flags (adc_long dst srcval);;
         wr_32 destreg l
       else
         destreg <- run (decode_rm_word_register rh);;
         srcoffset <- run (decode_rm10_address rl);;
         srcval <- run (fetch_data_word srcoffset);;
         dst <- rd_16 destreg;;
         w <- flags (adc_word dst srcval);;
         wr_16 destreg w
   | 3 =>
       m <- run (get mode);;
       if nz (Z.land m SYSMODE_PREFIX_DATA) then
         destreg <- run (decode_rm_long_register rh);;
         srcreg <- run (decode_rm_long_register rl);;
         dst <- rd_32 destreg;;
         src <- rd_32 srcreg;;
         l <- flags (adc_long dst src);;
         wr_32 destreg l
       else
         destreg <- run (decode_rm_word_register rh);;
         srcreg <- run (decode_rm_word_register rl);;
         dst <- rd_16 destreg;;
         src <- rd_16 srcreg;;
         w <- flags (adc_word dst src);;
         wr_16 destreg w
   | _ => eret tt
   end);;
  run DECODE_CLEAR_SEGOVR.

Definition x86emuOp_adc_byte_AL_IMM (op1 : Z) : Op unit :=
  srcval <- run fetch_byte_imm;;
  al <- run (l_reg rA);;
  b <- flags (adc_byte al srcval);;
  run (set_l rA b);;
  run DECODE_CLEAR_SEGOVR.

Definition x86emuOp_adc_word_AX_IMM (op1 : Z) : Op unit :=
  m <- run (get mode);;
  srcval <- (if nz (Z.land m SYSMODE_PREFIX_DATA) then run fetch_long_imm else run fetch_word_imm);;
  m <- run (get mode);;
  (if nz (Z.land m SYSMODE_PREFIX_DATA) then
     eax <- run (e_reg rA);;
     l <- flags (adc_long eax srcval);;
     run (set_e rA l)
   else
     ax <- run (x_reg rA);;
     w <- flags (adc_word ax (u16 srcval));;
     run (set_x rA w));;
  run DECODE_CLEAR_SEGOVR.

Definition x86emuOp_push_SS (op1 : Z) : Op unit :=
  ss <- run (s_reg SS);;
  run (push_word ss);;
  run DECODE_CLEAR_SEGOVR.

Definition x86emuOp_pop_SS (op1 : Z) : Op unit :=
  w <- run pop_word;;
  run (set_s SS w);;
  run DECODE_CLEAR_SEGOVR.

Definition x86emuOp_sbb_byte_RM_R (op1 : Z) : Op unit :=
  modrm <- run fetch_decode_modrm;;
  let '(md, rh, rl) := modrm in
  (match md with
   | 0 =>
       destoffset <- run (decode_rm00_address rl);;
       destval <- run (fetch_data_byte destoffset);;
       srcreg <- run (decode_rm_byte_register rh);;
       src <- rd_8 srcreg;;
       destval <- flags (sbb_byte destval src);;
       run (store_data_byte destoffset destval)
   | 1 =>
       destoffset <- run (decode_rm01_address rl);;
       destval <- run (fetch_data_byte destoffset);;
       srcreg <- run (decode_rm_byte_register rh);;
       src <- rd_8 srcreg;;
       destval <- flags (sbb_byte destval src);;
       run (store_data_byte destoffset destval)
   | 2 =>
       destoffset <- run (decode_rm10_address rl);;
       destval <- run (fetch_data_byte destoffset);;
       srcreg <- run (decode_rm_byte_register rh);;
       src <- rd_8 srcreg;;
       destval <- flags (sbb_byte destval src);;
       run (store_data_byte destoffset destval)
   | 3 =>
       destreg <- run (decode_rm_byte_register rl);;
       srcreg <- run (decode_rm_byte_register rh);;
       dst <- rd_8 destreg;;
       src <- rd_8 srcreg;;
       b <- flags (sbb_byte dst src);;
       wr_8 destreg b
   | _ => eret tt
   end);;
  run DECODE_CLEAR_SEGOVR.

Definition x86emuOp_sbb_word_RM_R (op1 : Z) : Op unit :=
  modrm <- run fetch_decode_modrm;;
  let '(md, rh, rl) := modrm in
  (match md with
   | 0 =>
       m <- run (get mode);;
       if nz (Z.land m SYSMODE_PREFIX_DATA) then
         destoffset <- run (decode_rm00_address rl);;
         destval <- run (fetch_data_long destoffset);;
         srcreg <- run (decode_rm_long_register rh);;
         src <- rd_32 srcreg;;
         destval <- flags (sbb_long destval src);;
         run (store_data_long destoffset destval)
       else
         destoffset <- run (decode_rm00_address rl);;
         destval <- run (fetch_data_word destoffset);;
         srcreg <- run (decode_rm_word_register rh);;
         src <- rd_16 srcreg;;
         destval <- flags (sbb_word destval src);;
         run (store_data_word destoffset destval)
   | 1 =>
       m <- run (get mode);;
       if nz (Z.land m SYSMODE_PREFIX_DATA) then
         destoffset <- run (decode_rm01_address rl);;
         destval <- run (fetch_data_long destoffset);;
         srcreg <- run (decode_rm_long_register rh);;
         src <- rd_32 srcreg;;
         destval <- flags (sbb_long destval src);;
         run (store_data_long destoffset destval)
       else
         destoffset <- run (decode_rm01_address rl);;
         destval <- run (fetch_data_word destoffset);;
         srcreg <- run (decode_rm_word_register rh);;
         src <- rd_16 srcreg;;
         destval <- flags (sbb_word destval src);;
         run (store_data_word destoffset destval)
   | 2 =>
       m <- run (get mode);;
       if nz (Z.land m SYSMODE_PREFIX_DATA) then
         destoffset <- run (decode_rm10_address rl);;
         destval <- run (fetch_data_long destoffset);;
         srcreg <- run (decode_rm_long_register rh);;
         src <- rd_32 srcreg;;
         destval <- flags (sbb_long destval src);;
         run (store_data_long destoffset destval)
       else
         destoffset <- run (decode_rm10_address rl);;
         destval <- run (fetch_data_word destoffset);;
         srcreg <- run (decode_rm_word_register rh);;
         src <- rd_16 srcreg;;
         destval <- flags (sbb_word destval src);;
         run (store_data_word destoffset destval)
   | 3 =>
       m <- run (get mode);;
       if nz (Z.land m SYSMODE_PREFIX_DATA) then
         destreg <- run (decode_rm_long_register rl);;
         srcreg <- run (decode_rm_long_register rh);;
         dst <- rd_32 destreg;;
         src <- rd_32 srcreg;;
         l <- flags (sbb_long dst src);;
         wr_32 destreg l
       else
         destreg <- run (decode_rm_word_register rl);;
         srcreg <- run (decode_rm_word_register rh);;
         dst <- rd_16 destreg;;
         src <- rd_16 srcreg;;
         w <- flags (sbb_word dst src);;
         wr_16 destreg w
   | _ => eret tt
   end);;
  run DECODE_CLEAR_SEGOVR.

Definition x86emuOp_sbb_byte_R_RM (op1 : Z) : Op unit :=
  modrm <- run fetch_decode_modrm;;
  let '(md, rh, rl) := modrm in
  (match md with
   | 0 =>
       destreg <- run (decode_rm_byte_register rh);;
       srcoffset <- run (decode_rm00_address rl);;
       srcval <- run (fetch_data_byte srcoffset);;
       dst <- rd_8 destreg;;
       b <- flags (sbb_byte dst srcval);;
       wr_8 destreg b
   | 1 =>
       destreg <- run (decode_rm_byte_register rh);;
       srcoffset <- run (decode_rm01_address rl);;
       srcval <- run (fetch_data_byte srcoffset);;
       dst <- rd_8 destreg;;
       b <- flags (sbb_byte dst srcval);;
       wr_8 destreg b
   | 2 =>
       destreg <- run (decode_rm_byte_register rh);;
       srcoffset <- run (decode_rm10_address rl);;
       srcval <- run (fetch_data_byte srcoffset);;
       dst <- rd_8 destreg;;
       b <- flags (sbb_byte dst srcval);;
       wr_8 destreg b
   | 3 =>
       destreg <- run (decode_rm_byte_register rh);;
       srcreg <- run (decode_rm_byte_register rl);;
       dst <- rd_8 destreg;;
       src <- rd_8 srcreg;;
       b <- flags (sbb_byte dst src);;
       wr_8 destreg b
   | _ => eret tt
   end);;
  run DECODE_CLEAR_SEGOVR.

Definition x86emuOp_sbb_word_R_RM (op1 : Z) : Op unit :=
  modrm <- run fetch_decode_modrm;;
  let '(md, rh, rl) := modrm in
  (match md with
   | 0 =>
       m <- run (get mode);;
       if nz (Z.land m SYSMODE_PREFIX_DATA) then
         destreg <- run (decode_rm_long_register rh);;
         srcoffset <- run (decode_rm00_address rl);;
         srcval <- run (fetch_data_long srcoffset);;
         dst <- rd_32 destreg;;
         l <- flags (sbb_long dst srcval);;
         wr_32 destreg l
       else
         destreg <- run (decode_rm_word_register rh);;
         srcoffset <- run (decode_rm00_address rl);;
         srcval <- run (fetch_data_word srcoffset);;
         dst <- rd_16 destreg;;
         w <- flags (sbb_word dst srcval);;
         wr_16 destreg w
   | 1 =>
       m <- run (get mode);;
       if nz (Z.land m SYSMODE_PREFIX_DATA) then
         destreg <- run (decode_rm_long_register rh);;
         srcoffset <- run (decode_rm01_address rl);;
         srcval <- run (fetch_data_long srcoffset);;
         dst <- rd_32 destreg;;
         l <- flags (sbb_long dst srcval);;
         wr_32 destreg l
       else
         destreg <- run (decode_rm_word_register rh);;
         srcoffset <- run (decode_rm01_address rl);;
         srcval <- run (fetch_data_word srcoffset);;
         dst <- rd_16 destreg;;
         w <- flags (sbb_word dst srcval);;
         wr_16 destreg w
   | 2 =>
       m <- run (get mode);;
       if nz (Z.land m SYSMODE_PREFIX_DATA) then
         destreg <- run (decode_rm_long_register rh);;
         srcoffset <- run (decode_rm10_address rl);;
         srcval <- run (fetch_data_long srcoffset);;
         dst <- rd_32 destreg;;
         l <- flags (sbb_long dst srcval);;
         wr_32 destreg l
       else
         destreg <- run (decode_rm_word_register rh);;
         srcoffset <- run (decode_rm10_address rl);;
         srcval <- run (fetch_data_word srcoffset);;
         dst <- rd_16 destreg;;
         w <- flags (sbb_word dst srcval);;
         wr_16 destreg w
   | 3 =>
       m <- run (get mode);;
       if nz (Z.land m SYSMODE_PREFIX_DATA) then
         destreg <- run (decode_rm_long_register rh);;
         srcreg <- run (decode_rm_long_register rl);;
         dst <- rd_32 destreg;;
         src <- rd_32 srcreg;;
         l <- flags (sbb_long dst src);;
         wr_32 destreg l
       else
         destreg <- run (decode_rm_word_register rh);;
         srcreg <- run (decode_rm_word_register rl);;
         dst <- rd_16 destreg;;
         src <- rd_16 srcreg;;
         w <- flags (sbb_word dst src);;
         wr_16 destreg w
   | _ => eret tt
   end);;
  run DECODE_CLEAR_SEGOVR.

Definition x86emuOp_sbb_byte_AL_IMM (op1 : Z) : Op unit :=
  srcval <- run fetch_byte_imm;;
  al <- run (l_reg rA);;
  b <- flags (sbb_byte al srcval);;
  run (set_l rA b);;
  run DECODE_CLEAR_SEGOVR.

Definition x86emuOp_sbb_word_AX_IMM (op1 : Z) : Op unit :=
  m <- run (get mode);;
  srcval <- (if nz (Z.land m SYSMODE_PREFIX_DATA) then run fetch_long_imm else run fetch_word_imm);;
  m <- run (get mode);;
  (if nz (Z.land m SYSMODE_PREFIX_DATA) then
     eax <- run (e_reg rA);;
     l <- flags (sbb_long eax srcval);;
     run (set_e rA l)
   else
     ax <- run (x_reg rA);;
     w <- flags (sbb_word ax (u16 srcval));;
     run (set_x rA w));;
  run DECODE_CLEAR_SEGOVR.

Definition x86emuOp_push_DS (op1 : Z) : Op unit :=
  ds <- run (s_reg DS);;
  run (push_word ds);;
  run DECODE_CLEAR_SEGOVR.

Definition x86emuOp_pop_DS (op1 : Z) : Op unit :=
  w <- run pop_word;;
  run (set_s DS w);;
  run DECODE_CLEAR_SEGOVR.

Definition x86emuOp_and_byte_RM_R (op1 : Z) : Op unit :=
  modrm <- run fetch_decode_modrm;;
  let '(md, rh, rl) := modrm in
  (match md with
   | 0 =>
       destoffset <- run (decode_rm00_address rl);;
       destval <- run (fetch_data_byte destoffset);;
       srcreg <- run (decode_rm_byte_register rh);;
       src <- rd_8 srcreg;;
       destval <- flags (and_byte destval src);;
       run (store_data_byte destoffset destval)
   | 1 =>
       destoffset <- run (decode_rm01_address rl);;
       destval <- run (fetch_data_byte destoffset);;
       srcreg <- run (decode_rm_byte_register rh);;
       src <- rd_8 srcreg;;
       destval <- flags (and_byte destval src);;
       run (store_data_byte destoffset destval)
   | 2 =>
       destoffset <- run (decode_rm10_address rl);;
       destval <- run (fetch_data_byte destoffset);;
       srcreg <- run (decode_rm_byte_register rh);;
       src <- rd_8 srcreg;;
       destval <- flags (and_byte destval src);;
       run (store_data_byte destoffset destval)
   | 3 =>
       destreg <- run (decode_rm_byte_register rl);;
       srcreg <- run (decode_rm_byte_register rh);;
       dst <- rd_8 destreg;;
       src <- rd_8 srcreg;;
       b <- flags (and_byte dst src);;
       wr_8 destreg b
   | _ => eret tt
   end);;
  run DECODE_CLEAR_SEGOVR.

Definition x86emuOp_and_word_RM_R (op1 : Z) : Op unit :=
  modrm <- run fetch_decode_modrm;;
  let '(md, rh, rl) := modrm in
  (match md with
   | 0 =>
       m <- run (get mode);;
       if nz (Z.land m SYSMODE_PREFIX_DATA) then
         destoffset <- run (decode_rm00_address rl);;
         destval <- run (fetch_data_long destoffset);;
         srcreg <- run (decode_rm_long_register rh);;
         src <- rd_32 srcreg;;
         destval <- flags (and_long destval src);;
         run (store_data_long destoffset destval)
       else
         destoffset <- run (decode_rm00_address rl);;
         destval <- run (fetch_data_word destoffset);;
         srcreg <- run (decode_rm_word_register rh);;
         src <- rd_16 srcreg;;
         destval <- flags (and_word destval src);;
         run (store_data_word destoffset destval)
   | 1 =>
       m <- run (get mode);;
       if nz (Z.land m SYSMODE_PREFIX_DATA) then
         destoffset <- run (decode_rm01_address rl);;
         destval <- run (fetch_data_long destoffset);;
         srcreg <- run (decode_rm_long_register rh);;
         src <- rd_32 srcreg;;
         destval <- flags (and_long destval src);;
         run (store_data_long destoffset destval)
       else
         destoffset <- run (decode_rm01_address rl);;
         destval <- run (fetch_data_word destoffset);;
         srcreg <- run (decode_rm_word_register rh);;
         src <- rd_16 srcreg;;
         destval <- flags (and_word destval src);;
         run (store_data_word destoffset destval)
   | 2 =>
       m <- run (get mode);;
       if nz (Z.land m SYSMODE_PREFIX_DATA) then
         destoffset <- run (decode_rm10_address rl);;
         destval <- run (fetch_data_long destoffset);;
         srcreg <- run (decode_rm_long_register rh);;
         src <- rd_32 srcreg;;
         destval <- flags (and_long destval src);;
         run (store_data_long destoffset destval)
       else
         destoffset <- run (decode_rm10_address rl);;
         destval <- run (fetch_data_word destoffset);;
         srcreg <- run (decode_rm_word_register rh);;
         src <- rd_16 srcreg;;
         destval <- flags (and_word destval src);;
         run (store_data_word destoffset destval)
   | 3 =>
       m <- run (get mode);;
       if nz (Z.land m SYSMODE_PREFIX_DATA) then
         destreg <- run (decode_rm_long_register rl);;
         srcreg <- run (decode_rm_long_register rh);;
         dst <- rd_32 destreg;;
         src <- rd_32 srcreg;;
         l <- flags (and_long dst src);;
         wr_32 destreg l
       else
         destreg <- run (decode_rm_word_register rl);;
         srcreg <- run (decode_rm_word_register rh);;
         dst <- rd_16 destreg;;
         src <- rd_16 srcreg;;
         w <- flags (and_word dst src);;
         wr_16 destreg w
   | _ => eret tt
   end);;
  run DECODE_CLEAR_SEGOVR.

Definition x86emuOp_and_byte_R_RM (op1 : Z) : Op unit :=
  modrm <- run fetch_decode_modrm;;
  let '(md, rh, rl) := modrm in
  (match md with
   | 0 =>
       destreg <- run (decode_rm_byte_register rh);;
       srcoffset <- run (decode_rm00_address rl);;
       srcval <- run (fetch_data_byte srcoffset);;
       dst <- rd_8 destreg;;
       b <- flags (and_byte dst srcval);;
       wr_8 destreg b
   | 1 =>
       destreg <- run (decode_rm_byte_register rh);;
       srcoffset <- run (decode_rm01_address rl);;
       srcval <- run (fetch_data_byte srcoffset);;
       dst <- rd_8 destreg;;
       b <- flags (and_byte dst srcval);;
       wr_8 destreg b
   | 2 =>
       destreg <- run (decode_rm_byte_register rh);;
       srcoffset <- run (decode_rm10_address rl);;
       srcval <- run (fetch_data_byte srcoffset);;
       dst <- rd_8 destreg;;
       b <- flags (and_byte dst srcval);;
       wr_8 destreg b
   | 3 =>
       destreg <- run (decode_rm_byte_register rh);;
       srcreg <- run (decode_rm_byte_register rl);;
       dst <- rd_8 destreg;;
       src <- rd_8 srcreg;;
       b <- flags (and_byte dst src);;
       wr_8 destreg b
   | _ => eret tt
   end);;
  run DECODE_CLEAR_SEGOVR.

Definition x86emuOp_and_word_R_RM (op1 : Z) : Op unit :=
  modrm <- run fetch_decode_modrm;;
  let '(md, rh, rl) := modrm in
  (match md with
   | 0 =>
       m <- run (get mode);;
       if nz (Z.land m SYSMODE_PREFIX_DATA) then
         destreg <- run (decode_rm_long_register rh);;
         srcoffset <- run (decode_rm00_address rl);;
         srcval <- run (fetch_data_long srcoffset);;
         dst <- rd_32 destreg;;
         l <- flags (and_long dst srcval);;
         wr_32 destreg l
       else
         destreg <- run (decode_rm_word_register rh);;
         srcoffset <- run (decode_rm00_address rl);;
         srcval <- run (fetch_data_word srcoffset);;
         dst <- rd_16 destreg;;
         w <- flags (and_word dst srcval);;
         wr_16 destreg w
   | 1 =>
       m <- run (get mode);;
       if nz (Z.land m SYSMODE_PREFIX_DATA) then
         destreg <- run (decode_rm_long_register rh);;
         srcoffset <- run (decode_rm01_address rl);;
         srcval <- run (fetch_data_long srcoffset);;
         dst <- rd_32 destreg;;
         l <- flags (and_long dst srcval);;
         wr_32 destreg l
       else
         destreg <- run (decode_rm_word_register rh);;
         srcoffset <- run (decode_rm01_address rl);;
         srcval <- run (fetch_data_word srcoffset);;
         dst <- rd_16 destreg;;
         w <- flags (and_word dst srcval);;
         wr_16 destreg w
   | 2 =>
       m <- run (get mode);;
       if nz (Z.land m SYSMODE_PREFIX_DATA) then
         destreg <- run (decode_rm_long_register rh);;
         srcoffset <- run (decode_rm10_address rl);;
         srcval <- run (fetch_data_long srcoffset);;
         dst <- rd_32 destreg;;
         l <- flags (and_long dst srcval);;
         wr_32 destreg l
       else
         destreg <- run (decode_rm_word_register rh);;
         srcoffset <- run (decode_rm10_address rl);;
         srcval <- run (fetch_data_word srcoffset);;
         dst <- rd_16 destreg;;
         w <- flags (and_word dst srcval);;
         wr_16 destreg w
   | 3 =>
       m <- run (get mode);;
       if nz (Z.land m SYSMODE_PREFIX_DATA) then
         destreg <- run (decode_rm_long_register rh);;
         srcreg <- run (decode_rm_long_register rl);;
         dst <- rd_32 destreg;;
         src <- rd_32 srcreg;;
         l <- flags (and_long dst src);;
         wr_32 destreg l
       else
         destreg <- run (decode_rm_word_register rh);;
         srcreg <- run (decode_rm_word_register rl);;
         dst <- rd_16 destreg;;
         src <- rd_16 srcreg;;
         w <- flags (and_word dst src);;
         wr_16 destreg w
   | _ => eret tt
   end);;
  run DECODE_CLEAR_SEGOVR.

Definition x86emuOp_and_byte_AL_IMM (op1 : Z) : Op unit :=
  srcval <- run fetch_byte_imm;;
  al <- run (l_reg rA);;
  b <- flags (and_byte al srcval);;
  run (set_l rA b);;
  run DECODE_CLEAR_SEGOVR.

Definition x86emuOp_and_word_AX_IMM (op1 : Z) : Op unit :=
  m <- run (get mode);;
  srcval <- (if nz (Z.land m SYSMODE_PREFIX_DATA) then run fetch_long_imm else run fetch_word_imm);;
  m <- run (get mode);;
  (if nz (Z.land m SYSMODE_PREFIX_DATA) then
     eax <- run (e_reg rA);;
     l <- flags (and_long eax srcval);;
     run (set_e rA l)
   else
     ax <- run (x_reg rA);;
     w <- flags (and_word ax (u16 srcval));;
     run (set_x rA w));;
  run DECODE_CLEAR_SEGOVR.

Definition x86emuOp_segovr_ES (op1 : Z) : Op unit :=
  run (set_mode (fun m => Z.lor m SYSMODE_SEGOVR_ES)).

Definition x86emuOp_daa (op1 : Z) : Op unit :=
  al <- run (l_reg rA);;
  b <- flags (daa_byte al);;
  run (set_l rA b);;
  run DECODE_CLEAR_SEGOVR.

Definition x86emuOp_sub_byte_RM_R (op1 : Z) : Op unit :=
  modrm <- run fetch_decode_modrm;;
  let '(md, rh, rl) := modrm in
  (match md with
   | 0 =>
       destoffset <- run (decode_rm00_address rl);;
       destval <- run (fetch_data_byte destoffset);;
       srcreg <- run (decode_rm_byte_register rh);;
       src <- rd_8 srcreg;;
       destval <- flags (sub_byte destval src);;
       run (store_data_byte destoffset destval)
   | 1 =>
       destoffset <- run (decode_rm01_address rl);;
       destval <- run (fetch_data_byte destoffset);;
       srcreg <- run (decode_rm_byte_register rh);;
       src <- rd_8 srcreg;;
       destval <- flags (sub_byte destval src);;
       run (store_data_byte destoffset destval)
   | 2 =>
       destoffset <- run (decode_rm10_address rl);;
       destval <- run (fetch_data_byte destoffset);;
       srcreg <- run (decode_rm_byte_register rh);;
       src <- rd_8 srcreg;;
       destval <- flags (sub_byte destval src);;
       run (store_data_byte destoffset destval)
   | 3 =>
       destreg <- run (decode_rm_byte_register rl);;
       srcreg <- run (decode_rm_byte_register rh);;
       dst <- rd_8 destreg;;
       src <- rd_8 srcreg;;
       b <- flags (sub_byte dst src);;
       wr_8 destreg b
   | _ => eret tt
   end);;
  run DECODE_CLEAR_SEGOVR.

Definition x86emuOp_sub_word_RM_R (op1 : Z) : Op unit :=
  modrm <- run fetch_decode_modrm;;
  let '(md, rh, rl) := modrm in
  (match md with
   | 0 =>
       m <- run (get mode);;
       if nz (Z.land m SYSMODE_PREFIX_DATA) then
         destoffset <- run (decode_rm00_address rl);;
         destval <- run (fetch_data_long destoffset);;
         srcreg <- run (decode_rm_long_register rh);;
         src <- rd_32 srcreg;;
         destval <- flags (sub_long destval src);;
         run (store_data_long destoffset destval)
       else
         destoffset <- run (decode_rm00_address rl);;
         destval <- run (fetch_data_word destoffset);;
         srcreg <- run (decode_rm_word_register rh);;
         src <- rd_16 srcreg;;
         destval <- flags (sub_word destval src);;
         run (store_data_word destoffset destval)
   | 1 =>
       m <- run (get mode);;
       if nz (Z.land m SYSMODE_PREFIX_DATA) then
         destoffset <- run (decode_rm01_address rl);;
         destval <- run (fetch_data_long destoffset);;
         srcreg <- run (decode_rm_long_register rh);;
         src <- rd_32 srcreg;;
         destval <- flags (sub_long destval src);;
         run (store_data_long destoffset destval)
       else
         destoffset <- run (decode_rm01_address rl);;
         destval <- run (fetch_data_word destoffset);;
         srcreg <- run (decode_rm_word_register rh);;
         src <- rd_16 srcreg;;
         destval <- flags (sub_word destval src);;
         run (store_data_word destoffset destval)
   | 2 =>
       m <- run (get mode);;
       if nz (Z.land m SYSMODE_PREFIX_DATA) then
         destoffset <- run (decode_rm10_address rl);;
         destval <- run (fetch_data_long destoffset);;
         srcreg <- run (decode_rm_long_register rh);;
         src <- rd_32 srcreg;;
         destval <- flags (sub_long destval src);;
         run (store_data_long destoffset destval)
       else
         destoffset <- run (decode_rm10_address rl);;
         destval <- run (fetch_data_word destoffset);;
         srcreg <- run (decode_rm_word_register rh);;
         src <- rd_16 srcreg;;
         destval <- flags (sub_word destval src);;
         run (store_data_word destoffset destval)
   | 3 =>
       m <- run (get mode);;
       if nz (Z.land m SYSMODE_PREFIX_DATA) then
         destreg <- run (decode_rm_long_register rl);;
         srcreg <- run (decode_rm_long_register rh);;
         dst <- rd_32 destreg;;
         src <- rd_32 srcreg;;
         l <- flags (sub_long dst src);;
         wr_32 destreg l
       else
         destreg <- run (decode_rm_word_register rl);;
         srcreg <- run (decode_rm_word_register rh);;
         dst <- rd_16 destreg;;
         src <- rd_16 srcreg;;
         w <- flags (sub_word dst src);;
         wr_16 destreg w
   | _ => eret tt
   end);;
  run DECODE_CLEAR_SEGOVR.

Definition x86emuOp_sub_byte_R_RM (op1 : Z) : Op unit :=
  modrm <- run fetch_decode_modrm;;
  let '(md, rh, rl) := modrm in
  (match md with
   | 0 =>
       destreg <- run (decode_rm_byte_register rh);;
       srcoffset <- run (decode_rm00_address rl);;
       srcval <- run (fetch_data_byte srcoffset);;
       dst <- rd_8 destreg;;
       b <- flags (sub_byte dst srcval);;
       wr_8 destreg b
   | 1 =>
       destreg <- run (decode_rm_byte_register rh);;
       srcoffset <- run (decode_rm01_address rl);;
       srcval <- run (fetch_data_byte srcoffset);;
       dst <- rd_8 destreg;;
       b <- flags (sub_byte dst srcval);;
       wr_8 destreg b
   | 2 =>
       destreg <- run (decode_rm_byte_register rh);;
       srcoffset <- run (decode_rm10_address rl);;
       srcval <- run (fetch_data_byte srcoffset);;
       dst <- rd_8 destreg;;
       b <- flags (sub_byte dst srcval);;
       wr_8 destreg b
   | 3 =>
       destreg <- run (decode_rm_byte_register rh);;
       srcreg <- run (decode_rm_byte_register rl);;
       dst <- rd_8 destreg;;
       src <- rd_8 srcreg;;
       b <- flags (sub_byte dst src);;
       wr_8 destreg b
   | _ => eret tt
   end);;
  run DECODE_CLEAR_SEGOVR.

Definition x86emuOp_sub_word_R_RM (op1 : Z) : Op unit :=
  modrm <- run fetch_decode_modrm;;
  let '(md, rh, rl) := modrm in
  (match md with
   | 0 =>
       m <- run (get mode);;
       if nz (Z.land m SYSMODE_PREFIX_DATA) then
         destreg <- run (decode_rm_long_register rh);;
         srcoffset <- run (decode_rm00_address rl);;
         srcval <- run (fetch_data_long srcoffset);;
         dst <- rd_32 destreg;;
         l <- flags (sub_long dst srcval);;
         wr_32 destreg l
       else
         destreg <- run (decode_rm_word_register rh);;
         srcoffset <- run (decode_rm00_address rl);;
         srcval <- run (fetch_data_word srcoffset);;
         dst <- rd_16 destreg;;
         w <- flags (sub_word dst srcval);;
         wr_16 destreg w
   | 1 =>
       m <- run (get mode);;
       if nz (Z.land m SYSMODE_PREFIX_DATA) then
         destreg <- run (decode_rm_long_register rh);;
         srcoffset <- run (decode_rm01_address rl);;
         srcval <- run (fetch_data_long srcoffset);;
         dst <- rd_32 destreg;;
         l <- flags (sub_long dst srcval);;
         wr_32 destreg l
       else
         destreg <- run (decode_rm_word_register rh);;
         srcoffset <- run (decode_rm01_address rl);;
         srcval <- run (fetch_data_word srcoffset);;
         dst <- rd_16 destreg;;
         w <- flags (sub_word dst srcval);;
         wr_16 destreg w
   | 2 =>
       m <- run (get mode);;
       if nz (Z.land m SYSMODE_PREFIX_DATA) then
         destreg <- run (decode_rm_long_register rh);;
         srcoffset <- run (decode_rm10_address rl);;
         srcval <- run (fetch_data_long srcoffset);;
         dst <- rd_32 destreg;;
         l <- flags (sub_long dst srcval);;
         wr_32 destreg l
       else
         destreg <- run (decode_rm_word_register rh);;
         srcoffset <- run (decode_rm10_address rl);;
         srcval <- run (fetch_data_word srcoffset);;
         dst <- rd_16 destreg;;
         w <- flags (sub_word dst srcval);;
         wr_16 destreg w
   | 3 =>
       m <- run (get mode);;
       if nz (Z.land m SYSMODE_PREFIX_DATA) then
         destreg <- run (decode_rm_long_register rh);;
         srcreg <- run (decode_rm_long_register rl);;
         dst <- rd_32 destreg;;
         src <- rd_32 srcreg;;
         l <- flags (sub_long dst src);;
         wr_32 destreg l
       else
         destreg <- run (decode_rm_word_register rh);;
         srcreg <- run (decode_rm_word_register rl);;
         dst <- rd_16 destreg;;
         src <- rd_16 srcreg;;
         w <- flags (sub_word dst src);;
         wr_16 destreg w
   | _ => eret tt
   end);;
  run DECODE_CLEAR_SEGOVR.

Definition x86emuOp_sub_byte_AL_IMM (op1 : Z) : Op unit :=
  srcval <- run fetch_byte_imm;;
  al <- run (l_reg rA);;
  b <- flags (sub_byte al srcval);;
  run (set_l rA b);;
  run DECODE_CLEAR_SEGOVR.

Definition x86emuOp_sub_word_AX_IMM (op1 : Z) : Op unit :=
  m <- run (get mode);;
  srcval <- (if nz (Z.land m SYSMODE_PREFIX_DATA) then run fetch_long_imm else run fetch_word_imm);;
  m <- run (get mode);;
  (if nz (Z.land m SYSMODE_PREFIX_DATA) then
     eax <- run (e_reg rA);;
     l <- flags (sub_long eax srcval);;
     run (set_e rA l)
   else
     ax <- run (x_reg rA);;
     w <- flags (sub_word ax (u16 srcval));;
     run (set_x rA w));;
  run DECODE_CLEAR_SEGOVR.

Definition x86emuOp_segovr_CS (op1 : Z) : Op unit :=
  run (set_mode (fun m => Z.lor m SYSMODE_SEGOVR_CS)).

Definition x86emuOp_das (op1 : Z) : Op unit :=
  al <- run (l_reg rA);;
  b <- flags (das_byte al);;
  run (set_l rA b);;
  run DECODE_CLEAR_SEGOVR.

Definition x86emuOp_xor_byte_RM_R (op1 : Z) : Op unit :=
  modrm <- run fetch_decode_modrm;;
  let '(md, rh, rl) := modrm in
  (match md with
   | 0 =>
       destoffset <- run (decode_rm00_address rl);;
       destval <- run (fetch_data_byte destoffset);;
       srcreg <- run (decode_rm_byte_register rh);;
       src <- rd_8 srcreg;;
       destval <- flags (xor_byte destval src);;
       run (store_data_byte destoffset destval)
   | 1 =>
       destoffset <- run (decode_rm01_address rl);;
       destval <- run (fetch_data_byte destoffset);;
       srcreg <- run (decode_rm_byte_register rh);;
       src <- rd_8 srcreg;;
       destval <- flags (xor_byte destval src);;
       run (store_data_byte destoffset destval)
   | 2 =>
       destoffset <- run (decode_rm10_address rl);;
       destval <- run (fetch_data_byte destoffset);;
       srcreg <- run (decode_rm_byte_register rh);;
       src <- rd_8 srcreg;;
       destval <- flags (xor_byte destval src);;
       run (store_data_byte destoffset destval)
   | 3 =>
       destreg <- run (decode_rm_byte_register rl);;
       srcreg <- run (decode_rm_byte_register rh);;
       dst <- rd_8 destreg;;
       src <- rd_8 srcreg;;
       b <- flags (xor_byte dst src);;
       wr_8 destreg b
   | _ => eret tt
   end);;
  run DECODE_CLEAR_SEGOVR.

Definition x86emuOp_xor_word_RM_R (op1 : Z) : Op unit :=
  modrm <- run fetch_decode_modrm;;
  let '(md, rh, rl) := modrm in
  (match md with
   | 0 =>
       m <- run (get mode);;
       if nz (Z.land m SYSMODE_PREFIX_DATA) then
         destoffset <- run (decode_rm00_address rl);;
         destval <- run (fetch_data_long destoffset);;
         srcreg <- run (decode_rm_long_register rh);;
         src <- rd_32 srcreg;;
         destval <- flags (xor_long destval src);;
         run (store_data_long destoffset destval)
       else
         destoffset <- run (decode_rm00_address rl);;
         destval <- run (fetch_data_word destoffset);;
         srcreg <- run (decode_rm_word_register rh);;
         src <- rd_16 srcreg;;
         destval <- flags (xor_word destval src);;
         run (store_data_word destoffset destval)
   | 1 =>
       m <- run (get mode);;
       if nz (Z.land m SYSMODE_PREFIX_DATA) then
         destoffset <- run (decode_rm01_address rl);;
         destval <- run (fetch_data_long destoffset);;
         srcreg <- run (decode_rm_long_register rh);;
         src <- rd_32 srcreg;;
         destval <- flags (xor_long destval src);;
         run (store_data_long destoffset destval)
       else
         destoffset <- run (decode_rm01_address rl);;
         destval <- run (fetch_data_word destoffset);;
         srcreg <- run (decode_rm_word_register rh);;
         src <- rd_16 srcreg;;
         destval <- flags (xor_word destval src);;
         run (store_data_word destoffset destval)
   | 2 =>
       m <- run (get mode);;
       if nz (Z.land m SYSMODE_PREFIX_DATA) then
         destoffset <- run (decode_rm10_address rl);;
         destval <- run (fetch_data_long destoffset);;
         srcreg <- run (decode_rm_long_register rh);;
         src <- rd_32 srcreg;;
         destval <- flags (xor_long destval src);;
         run (store_data_long destoffset destval)
       else
         destoffset <- run (decode_rm10_address rl);;
         destval <- run (fetch_data_word destoffset);;
         srcreg <- run (decode_rm_word_register rh);;
         src <- rd_16 srcreg;;
         destval <- flags (xor_word destval src);;
         run (store_data_word destoffset destval)
   | 3 =>
       m <- run (get mode);;
       if nz (Z.land m SYSMODE_PREFIX_DATA) then
         destreg <- run (decode_rm_long_register rl);;
         srcreg <- run (decode_rm_long_register rh);;
         dst <- rd_32 destreg;;
         src <- rd_32 srcreg;;
         l <- flags (xor_long dst src);;
         wr_32 destreg l
       else
         destreg <- run (decode_rm_word_register rl);;
         srcreg <- run (decode_rm_word_register rh);;
         dst <- rd_16 destreg;;
         src <- rd_16 srcreg;;
         w <- flags (xor_word dst src);;
         wr_16 destreg w
   | _ => eret tt
   end);;
  run DECODE_CLEAR_SEGOVR.

Definition x86emuOp_xor_byte_R_RM (op1 : Z) : Op unit :=
  modrm <- run fetch_decode_modrm;;
  let '(md, rh, rl) := modrm in
  (match md with
   | 0 =>
       destreg <- run (decode_rm_byte_register rh);;
       srcoffset <- run (decode_rm00_address rl);;
       srcval <- run (fetch_data_byte srcoffset);;
       dst <- rd_8 destreg;;
       b <- flags (xor_byte dst srcval);;
       wr_8 destreg b
   | 1 =>
       destreg <- run (decode_rm_byte_register rh);;
       srcoffset <- run (decode_rm01_address rl);;
       srcval <- run (fetch_data_byte srcoffset);;
       dst <- rd_8 destreg;;
       b <- flags (xor_byte dst srcval);;
       wr_8 destreg b
   | 2 =>
       destreg <- run (decode_rm_byte_register rh);;
       srcoffset <- run (decode_rm10_address rl);;
       srcval <- run (fetch_data_byte srcoffset);;
       dst <- rd_8 destreg;;
       b <- flags (xor_byte dst srcval);;
       wr_8 destreg b
   | 3 =>
       destreg <- run (decode_rm_byte_register rh);;
       srcreg <- run (decode_rm_byte_register rl);;
       dst <- rd_8 destreg;;
       src <- rd_8 srcreg;;
       b <- flags (xor_byte dst src);;
       wr_8 destreg b
   | _ => eret tt
   end);;
  run DECODE_CLEAR_SEGOVR.

Definition x86emuOp_xor_word_R_RM (op1 : Z) : Op unit :=
  modrm <- run fetch_decode_modrm;;
  let '(md, rh, rl) := modrm in
  (match md with
   | 0 =>
       m <- run (get mode);;
       if nz (Z.land m SYSMODE_PREFIX_DATA) then
         destreg <- run (decode_rm_long_register rh);;
         srcoffset <- run (decode_rm00_address rl);;
         srcval <- run (fetch_data_long srcoffset);;
         dst <- rd_32 destreg;;
         l <- flags (xor_long dst srcval);;
         wr_32 destreg l
       else
         destreg <- run (decode_rm_word_register rh);;
         srcoffset <- run (decode_rm00_address rl);;
         srcval <- run (fetch_data_word srcoffset);;
         dst <- rd_16 destreg;;
         w <- flags (xor_word dst srcval);;
         wr_16 destreg w
   | 1 =>
       m <- run (get mode);;
       if nz (Z.land m SYSMODE_PREFIX_DATA) then
         destreg <- run (decode_rm_long_register rh);;
         srcoffset <- run (decode_rm01_address rl);;
         srcval <- run (fetch_data_long srcoffset);;
         dst <- rd_32 destreg;;
         l <- flags (xor_long dst srcval);;
         wr_32 destreg l
       else
         destreg <- run (decode_rm_word_register rh);;
         srcoffset <- run (decode_rm01_address rl);;
         srcval <- run (fetch_data_word srcoffset);;
         dst <- rd_16 destreg;;
         w <- flags (xor_word dst srcval);;
         wr_16 destreg w
   | 2 =>
       m <- run (get mode);;
       if nz (Z.land m SYSMODE_PREFIX_DATA) then
         destreg <- run (decode_rm_long_register rh);;
         srcoffset <- run (decode_rm10_address rl);;
         srcval <- run (fetch_data_long srcoffset);;
         dst <- rd_32 destreg;;
         l <- flags (xor_long dst srcval);;
         wr_32 destreg l
       else
         destreg <- run (decode_rm_word_register rh);;
         srcoffset <- run (decode_rm10_address rl);;
         srcval <- run (fetch_data_word srcoffset);;
         dst <- rd_16 destreg;;
         w <- flags (xor_word dst srcval);;
         wr_16 destreg w
   | 3 =>
       m <- run (get mode);;
       if nz (Z.land m SYSMODE_PREFIX_DATA) then
         destreg <- run (decode_rm_long_register rh);;
         srcreg <- run (decode_rm_long_register rl);;
         dst <- rd_32 destreg;;
         src <- rd_32 srcreg;;
         l <- flags (xor_long dst src);;
         wr_32 destreg l
       else
         destreg <- run (decode_rm_word_register rh);;
         srcreg <- run (decode_rm_word_register rl);;
         dst <- rd_16 destreg;;
         src <- rd_16 srcreg;;
         w <- flags (xor_word dst src);;
         wr_16 destreg w
   | _ => eret tt
   end);;
  run DECODE_CLEAR_SEGOVR.

Definition x86emuOp_xor_byte_AL_IMM (op1 : Z) : Op unit :=
  srcval <- run fetch_byte_imm;;
  al <- run (l_reg rA);;
  b <- flags (xor_byte al srcval);;
  run (set_l rA b);;
  run DECODE_CLEAR_SEGOVR.

Definition x86emuOp_xor_word_AX_IMM (op1 : Z) : Op unit :=
  m <- run (get mode);;
  srcval <- (if nz (Z.land m SYSMODE_PREFIX_DATA) then run fetch_long_imm else run fetch_word_imm);;
  m <- run (get mode);;
  (if nz (Z.land m SYSMODE_PREFIX_DATA) then
     eax <- run (e_reg rA);;
     l <- flags (xor_long eax srcval);;
     run (set_e rA l)
   else
     ax <- run (x_reg rA);;
     w <- flags (xor_word ax (u16 srcval));;
     run (set_x rA w));;
  run DECODE_CLEAR_SEGOVR.

Definition x86emuOp_segovr_SS (op1 : Z) : Op unit :=
  run (set_mode (fun m => Z.lor m SYSMODE_SEGOVR_SS)).

Definition x86emuOp_aaa (op1 : Z) : Op unit :=
  ax <- run (x_reg rA);;
  w <- flags (aaa_word ax);;
  run (set_x rA w);;
  run DECODE_CLEAR_SEGOVR.

Definition x86emuOp_cmp_byte_RM_R (op1 : Z) : Op unit :=
  modrm <- run fetch_decode_modrm;;
  let '(md, rh, rl) := modrm in
  (match md with
   | 0 =>
       destoffset <- run (decode_rm00_address rl);;
       destval <- run (fetch_data_byte destoffset);;
       srcreg <- run (decode_rm_byte_register rh);;
       src <- rd_8 srcreg;;
       _ <- flags (cmp_byte destval src);;
       eret tt
   | 1 =>
       destoffset <- run (decode_rm01_address rl);;
       destval <- run (fetch_data_byte destoffset);;
       srcreg <- run (decode_rm_byte_register rh);;
       src <- rd_8 srcreg;;
       _ <- flags (cmp_byte destval src);;
       eret tt
   | 2 =>
       destoffset <- run (decode_rm10_address rl);;
       destval <- run (fetch_data_byte destoffset);;
       srcreg <- run (decode_rm_byte_register rh);;
       src <- rd_8 srcreg;;
       _ <- flags (cmp_byte destval src);;
       eret tt
   | 3 =>
       destreg <- run (decode_rm_byte_register rl);;
       srcreg <- run (decode_rm_byte_register rh);;
       dst <- rd_8 destreg;;
       src <- rd_8 srcreg;;
       _ <- flags (cmp_byte dst src);;
       eret tt
   | _ => eret tt
   end);;
  run DECODE_CLEAR_SEGOVR.

Definition x86emuOp_cmp_word_RM_R (op1 : Z) : Op unit :=
  modrm <- run fetch_decode_modrm;;
  let '(md, rh, rl) := modrm in
  (match md with
   | 0 =>
       m <- run (get mode);;
       if nz (Z.land m SYSMODE_PREFIX_DATA) then
         destoffset <- run (decode_rm00_address rl);;
         destval <- run (fetch_data_long destoffset);;
         srcreg <- run (decode_rm_long_register rh);;
         src <- rd_32 srcreg;;
         _ <- flags (cmp_long destval src);;
         eret tt
       else
         destoffset <- run (decode_rm00_address rl);;
         destval <- run (fetch_data_word destoffset);;
         srcreg <- run (decode_rm_word_register rh);;
         src <- rd_16 srcreg;;
         _ <- flags (cmp_word destval src);;
         eret tt
   | 1 =>
       m <- run (get mode);;
       if nz (Z.land m SYSMODE_PREFIX_DATA) then
         destoffset <- run (decode_rm01_address rl);;
         destval <- run (fetch_data_long destoffset);;
         srcreg <- run (decode_rm_long_register rh);;
         src <- rd_32 srcreg;;
         _ <- flags (cmp_long destval src);;
         eret tt
       else
         destoffset <- run (decode_rm01_address rl);;
         destval <- run (fetch_data_word destoffset);;
         srcreg <- run (decode_rm_word_register rh);;
         src <- rd_16 srcreg;;
         _ <- flags (cmp_word destval src);;
         eret tt
   | 2 =>
       m <- run (get mode);;
       if nz (Z.land m SYSMODE_PREFIX_DATA) then
         destoffset <- run (decode_rm10_address rl);;
         destval <- run (fetch_data_long destoffset);;
         srcreg <- run (decode_rm_long_register rh);;
         src <- rd_32 srcreg;;
         _ <- flags (cmp_long destval src);;
         eret tt
       else
         destoffset <- run (decode_rm10_address rl);;
         destval <- run (fetch_data_word destoffset);;
         srcreg <- run (decode_rm_word_register rh);;
         src <- rd_16 srcreg;;
         _ <- flags (cmp_word destval src);;
         eret tt
   | 3 =>
       m <- run (get mode);;
       if nz (Z.land m SYSMODE_PREFIX_DATA) then
         destreg <- run (decode_rm_long_register rl);;
         srcreg <- run (decode_rm_long_register rh);;
         dst <- rd_32 destreg;;
         src <- rd_32 srcreg;;
         _ <- flags (cmp_long dst src);;
         eret tt
       else
         destreg <- run (decode_rm_word_register rl);;
         srcreg <- run (decode_rm_word_register rh);;
         dst <- rd_16 destreg;;
         src <- rd_16 srcreg;;
         _ <- flags (cmp_word dst src);;
         eret tt
   | _ => eret tt
   end);;
  run DECODE_CLEAR_SEGOVR.

Definition x86emuOp_cmp_byte_R_RM (op1 : Z) : Op unit :=
  modrm <- run fetch_decode_modrm;;
  let '(md, rh, rl) := modrm in
  (match md with
   | 0 =>
       destreg <- run (decode_rm_byte_register rh);;
       srcoffset <- run (decode_rm00_address rl);;
       srcval <- run (fetch_data_byte srcoffset);;
       dst <- rd_8 destreg;;
       _ <- flags (cmp_byte dst srcval);;
       eret tt
   | 1 =>
       destreg <- run (decode_rm_byte_register rh);;
       srcoffset <- run (decode_rm01_address rl);;
       srcval <- run (fetch_data_byte srcoffset);;
       dst <- rd_8 destreg;;
       _ <- flags (cmp_byte dst srcval);;
       eret tt
   | 2 =>
       destreg <- run (decode_rm_byte_register rh);;
       srcoffset <- run (decode_rm10_address rl);;
       srcval <- run (fetch_data_byte srcoffset);;
       dst <- rd_8 destreg;;
       _ <- flags (cmp_byte dst srcval);;
       eret tt
   | 3 =>
       destreg <- run (decode_rm_byte_register rh);;
       srcreg <- run (decode_rm_byte_register rl);;
       dst <- rd_8 destreg;;
       src <- rd_8 srcreg;;
       _ <- flags (cmp_byte dst src);;
       eret tt
   | _ => eret tt
   end);;
  run DECODE_CLEAR_SEGOVR.

Definition x86emuOp_cmp_word_R_RM (op1 : Z) : Op unit :=
  modrm <- run fetch_decode_modrm;;
  let '(md, rh, rl) := modrm in
  (match md with
   | 0 =>
       m <- run (get mode);;
       if nz (Z.land m SYSMODE_PREFIX_DATA) then
         destreg <- run (decode_rm_long_register rh);;
         srcoffset <- run (decode_rm00_address rl);;
         srcval <- run (fetch_data_long srcoffset);;
         dst <- rd_32 destreg;;
         _ <- flags (cmp_long dst srcval);;
         eret tt
       else
         destreg <- run (decode_rm_word_register rh);;
         srcoffset <- run (decode_rm00_address rl);;
         srcval <- run (fetch_data_word srcoffset);;
         dst <- rd_16 destreg;;
         _ <- flags (cmp_word dst srcval);;
         eret tt
   | 1 =>
       m <- run (get mode);;
       if nz (Z.land m SYSMODE_PREFIX_DATA) then
         destreg <- run (decode_rm_long_register rh);;
         srcoffset <- run (decode_rm01_address rl);;
         srcval <- run (fetch_data_long srcoffset);;
         dst <- rd_32 destreg;;
         _ <- flags (cmp_long dst srcval);;
         eret tt
       else
         destreg <- run (decode_rm_word_register rh);;
         srcoffset <- run (decode_rm01_address rl);;
         srcval <- run (fetch_data_word srcoffset);;
         dst <- rd_16 destreg;;
         _ <- flags (cmp_word dst srcval);;
         eret tt
   | 2 =>
       m <- run (get mode);;
       if nz (Z.land m SYSMODE_PREFIX_DATA) then
         destreg <- run (decode_rm_long_register rh);;
         srcoffset <- run (decode_rm10_address rl);;
         srcval <- run (fetch_data_long srcoffset);;
         dst <- rd_32 destreg;;
         _ <- flags (cmp_long dst srcval);;
         eret tt
       else
         destreg <- run (decode_rm_word_register rh);;
         srcoffset <- run (decode_rm10_address rl);;
         srcval <- run (fetch_data_word srcoffset);;
         dst <- rd_16 destreg;;
         _ <- flags (cmp_word dst srcval);;
         eret tt
   | 3 =>
       m <- run (get mode);;
       if nz (Z.land m SYSMODE_PREFIX_DATA) then
         destreg <- run (decode_rm_long_register rh);;
         srcreg <- run (decode_rm_long_register rl);;
         dst <- rd_32 destreg;;
         src <- rd_32 srcreg;;
         _ <- flags (cmp_long dst src);;
         eret tt
       else
         destreg <- run (decode_rm_word_register rh);;
         srcreg <- run (decode_rm_word_register rl);;
         dst <- rd_16 destreg;;
         src <- rd_16 srcreg;;
         _ <- flags (cmp_word dst src);;
         eret tt
   | _ => eret tt
   end);;
  run DECODE_CLEAR_SEGOVR.

Definition x86emuOp_cmp_byte_AL_IMM (op1 : Z) : Op unit :=
  srcval <- run fetch_byte_imm;;
  al <- run (l_reg rA);;
  _ <- flags (cmp_byte al srcval);;
  run DECODE_CLEAR_SEGOVR.

Definition x86emuOp_cmp_word_AX_IMM (op1 : Z) : Op unit :=
  m <- run (get mode);;
  srcval <- (if nz (Z.land m SYSMODE_PREFIX_DATA) then run fetch_long_imm else run fetch_word_imm);;
  m <- run (get mode);;
  (if nz (Z.land m SYSMODE_PREFIX_DATA) then
     eax <- run (e_reg rA);;
     _ <- flags (cmp_long eax srcval);;
     eret tt
   else
     ax <- run (x_reg rA);;
     _ <- flags (cmp_word ax (u16 srcval));;
     eret tt);;
  run DECODE_CLEAR_SEGOVR.

Definition x86emuOp_segovr_DS (op1 : Z) : Op unit :=
  run (set_mode (fun m => Z.lor m SYSMODE_SEGOVR_DS)).

Definition x86emuOp_aas (op1 : Z) : Op unit :=
  ax <- run (x_reg rA);;
  w <- flags (aas_word ax);;
  run (set_x rA w);;
  run DECODE_CLEAR_SEGOVR.

End Handlers.
