(* ===== verification/X86OpsReg.v ===== *)
(** * Opcodes 40 to 8F

    Registers and the stack, short jumps, operations with immediate operands and moves of
    [ops.c], each
    handler as a computation of [X86Ops], in the order of the source. *)
From Stdlib Require Import ZArith Lia List Bool.
From S2P Require Import Prelude X86Flags X86Alu X86Shift X86Machine X86Decode X86MulDiv X86Ops.
Import ListNotations.
Local Open Scope Z_scope.
Local Open Scope err_scope.

Section Handlers.
Context {W : Type} {sys : Sys W}.
Local Abbreviation Op := (Op W).

Definition x86emuOp_inc_AX (op1 : Z) : Op unit :=
  m <- run (get mode);;
  (if nz (Z.land m SYSMODE_PREFIX_DATA) then
     eax <- run (e_reg rA);;
     l <- flags (inc_long eax);;
     run (set_e rA l)
   else
     ax <- run (x_reg rA);;
     w <- flags (inc_word ax);;
     run (set_x rA w));;
  run DECODE_CLEAR_SEGOVR.

Definition x86emuOp_inc_CX (op1 : Z) : Op unit :=
  m <- run (get mode);;
  (if nz (Z.land m SYSMODE_PREFIX_DATA) then
     ecx <- run (e_reg rC);;
     l <- flags (inc_long ecx);;
     run (set_e rC l)
   else
     cx <- run (x_reg rC);;
     w <- flags (inc_word cx);;
     run (set_x rC w));;
  run DECODE_CLEAR_SEGOVR.

Definition x86emuOp_inc_DX (op1 : Z) : Op unit :=
  m <- run (get mode);;
  (if nz (Z.land m SYSMODE_PREFIX_DATA) then
     edx <- run (e_reg rD);;
     l <- flags (inc_long edx);;
     run (set_e rD l)
   else
     dx <- run (x_reg rD);;
     w <- flags (inc_word dx);;
     run (set_x rD w));;
  run DECODE_CLEAR_SEGOVR.

Definition x86emuOp_inc_BX (op1 : Z) : Op unit :=
  m <- run (get mode);;
  (if nz (Z.land m SYSMODE_PREFIX_DATA) then
     ebx <- run (e_reg rB);;
     l <- flags (inc_long ebx);;
     run (set_e rB l)
   else
     bx <- run (x_reg rB);;
     w <- flags (inc_word bx);;
     run (set_x rB w));;
  run DECODE_CLEAR_SEGOVR.

Definition x86emuOp_inc_SP (op1 : Z) : Op unit :=
  m <- run (get mode);;
  (if nz (Z.land m SYSMODE_PREFIX_DATA) then
     esp <- run (e_reg rSP);;
     l <- flags (inc_long esp);;
     run (set_e rSP l)
   else
     sp <- run (x_reg rSP);;
     w <- flags (inc_word sp);;
     run (set_x rSP w));;
  run DECODE_CLEAR_SEGOVR.

Definition x86emuOp_inc_BP (op1 : Z) : Op unit :=
  m <- run (get mode);;
  (if nz (Z.land m SYSMODE_PREFIX_DATA) then
     ebp <- run (e_reg rBP);;
     l <- flags (inc_long ebp);;
     run (set_e rBP l)
   else
     bp <- run (x_reg rBP);;
     w <- flags (inc_word bp);;
     run (set_x rBP w));;
  run DECODE_CLEAR_SEGOVR.

Definition x86emuOp_inc_SI (op1 : Z) : Op unit :=
  m <- run (get mode);;
  (if nz (Z.land m SYSMODE_PREFIX_DATA) then
     esi <- run (e_reg rSI);;
     l <- flags (inc_long esi);;
     run (set_e rSI l)
   else
     si <- run (x_reg rSI);;
     w <- flags (inc_word si);;
     run (set_x rSI w));;
  run DECODE_CLEAR_SEGOVR.

Definition x86emuOp_inc_DI (op1 : Z) : Op unit :=
  m <- run (get mode);;
  (if nz (Z.land m SYSMODE_PREFIX_DATA) then
     edi <- run (e_reg rDI);;
     l <- flags (inc_long edi);;
     run (set_e rDI l)
   else
     di <- run (x_reg rDI);;
     w <- flags (inc_word di);;
     run (set_x rDI w));;
  run DECODE_CLEAR_SEGOVR.

Definition x86emuOp_dec_AX (op1 : Z) : Op unit :=
  m <- run (get mode);;
  (if nz (Z.land m SYSMODE_PREFIX_DATA) then
     eax <- run (e_reg rA);;
     l <- flags (dec_long eax);;
     run (set_e rA l)
   else
     ax <- run (x_reg rA);;
     w <- flags (dec_word ax);;
     run (set_x rA w));;
  run DECODE_CLEAR_SEGOVR.

Definition x86emuOp_dec_CX (op1 : Z) : Op unit :=
  m <- run (get mode);;
  (if nz (Z.land m SYSMODE_PREFIX_DATA) then
     ecx <- run (e_reg rC);;
     l <- flags (dec_long ecx);;
     run (set_e rC l)
   else
     cx <- run (x_reg rC);;
     w <- flags (dec_word cx);;
     run (set_x rC w));;
  run DECODE_CLEAR_SEGOVR.

Definition x86emuOp_dec_DX (op1 : Z) : Op unit :=
  m <- run (get mode);;
  (if nz (Z.land m SYSMODE_PREFIX_DATA) then
     edx <- run (e_reg rD);;
     l <- flags (dec_long edx);;
     run (set_e rD l)
   else
     dx <- run (x_reg rD);;
     w <- flags (dec_word dx);;
     run (set_x rD w));;
  run DECODE_CLEAR_SEGOVR.

Definition x86emuOp_dec_BX (op1 : Z) : Op unit :=
  m <- run (get mode);;
  (if nz (Z.land m SYSMODE_PREFIX_DATA) then
     ebx <- run (e_reg rB);;
     l <- flags (dec_long ebx);;
     run (set_e rB l)
   else
     bx <- run (x_reg rB);;
     w <- flags (dec_word bx);;
     run (set_x rB w));;
  run DECODE_CLEAR_SEGOVR.

Definition x86emuOp_dec_SP (op1 : Z) : Op unit :=
  m <- run (get mode);;
  (if nz (Z.land m SYSMODE_PREFIX_DATA) then
     esp <- run (e_reg rSP);;
     l <- flags (dec_long esp);;
     run (set_e rSP l)
   else
     sp <- run (x_reg rSP);;
     w <- flags (dec_word sp);;
     run (set_x rSP w));;
  run DECODE_CLEAR_SEGOVR.

Definition x86emuOp_dec_BP (op1 : Z) : Op unit :=
  m <- run (get mode);;
  (if nz (Z.land m SYSMODE_PREFIX_DATA) then
     ebp <- run (e_reg rBP);;
     l <- flags (dec_long ebp);;
     run (set_e rBP l)
   else
     bp <- run (x_reg rBP);;
     w <- flags (dec_word bp);;
     run (set_x rBP w));;
  run DECODE_CLEAR_SEGOVR.

Definition x86emuOp_dec_SI (op1 : Z) : Op unit :=
  m <- run (get mode);;
  (if nz (Z.land m SYSMODE_PREFIX_DATA) then
     esi <- run (e_reg rSI);;
     l <- flags (dec_long esi);;
     run (set_e rSI l)
   else
     si <- run (x_reg rSI);;
     w <- flags (dec_word si);;
     run (set_x rSI w));;
  run DECODE_CLEAR_SEGOVR.

Definition x86emuOp_dec_DI (op1 : Z) : Op unit :=
  m <- run (get mode);;
  (if nz (Z.land m SYSMODE_PREFIX_DATA) then
     edi <- run (e_reg rDI);;
     l <- flags (dec_long edi);;
     run (set_e rDI l)
   else
     di <- run (x_reg rDI);;
     w <- flags (dec_word di);;
     run (set_x rDI w));;
  run DECODE_CLEAR_SEGOVR.

Definition x86emuOp_push_AX (op1 : Z) : Op unit :=
  m <- run (get mode);;
  (if nz (Z.land m SYSMODE_PREFIX_DATA) then
     eax <- run (e_reg rA);;
     run (push_long eax)
   else
     ax <- run (x_reg rA);;
     run (push_word ax));;
  run DECODE_CLEAR_SEGOVR.

Definition x86emuOp_push_CX (op1 : Z) : Op unit :=
  m <- run (get mode);;
  (if nz (Z.land m SYSMODE_PREFIX_DATA) then
     ecx <- run (e_reg rC);;
     run (push_long ecx)
   else
     cx <- run (x_reg rC);;
     run (push_word cx));;
  run DECODE_CLEAR_SEGOVR.

Definition x86emuOp_push_DX (op1 : Z) : Op unit :=
  m <- run (get mode);;
  (if nz (Z.land m SYSMODE_PREFIX_DATA) then
     edx <- run (e_reg rD);;
     run (push_long edx)
   else
     dx <- run (x_reg rD);;
     run (push_word dx));;
  run DECODE_CLEAR_SEGOVR.

Definition x86emuOp_push_BX (op1 : Z) : Op unit :=
  m <- run (get mode);;
  (if nz (Z.land m SYSMODE_PREFIX_DATA) then
     ebx <- run (e_reg rB);;
     run (push_long ebx)
   else
     bx <- run (x_reg rB);;
     run (push_word bx));;
  run DECODE_CLEAR_SEGOVR.

Definition x86emuOp_push_SP (op1 : Z) : Op unit :=
  m <- run (get mode);;
  (if nz (Z.land m SYSMODE_PREFIX_DATA) then
     esp <- run (e_reg rSP);;
     run (push_long esp)
   else
     sp <- run (x_reg rSP);;
     run (push_word sp));;
  run DECODE_CLEAR_SEGOVR.

Definition x86emuOp_push_BP (op1 : Z) : Op unit :=
  m <- run (get mode);;
  (if nz (Z.land m SYSMODE_PREFIX_DATA) then
     ebp <- run (e_reg rBP);;
     run (push_long ebp)
   else
     bp <- run (x_reg rBP);;
     run (push_word bp));;
  run DECODE_CLEAR_SEGOVR.

Definition x86emuOp_push_SI (op1 : Z) : Op unit :=
  m <- run (get mode);;
  (if nz (Z.land m SYSMODE_PREFIX_DATA) then
     esi <- run (e_reg rSI);;
     run (push_long esi)
   else
     si <- run (x_reg rSI);;
     run (push_word si));;
  run DECODE_CLEAR_SEGOVR.

Definition x86emuOp_push_DI (op1 : Z) : Op unit :=
  m <- run (get mode);;
  (if nz (Z.land m SYSMODE_PREFIX_DATA) then
     edi <- run (e_reg rDI);;
     run (push_long edi)
   else
     di <- run (x_reg rDI);;
     run (push_word di));;
  run DECODE_CLEAR_SEGOVR.

Definition x86emuOp_pop_AX (op1 : Z) : Op unit :=
  m <- run (get mode);;
  (if nz (Z.land m SYSMODE_PREFIX_DATA) then
     l <- run pop_long;;
     run (set_e rA l)
   else
     w <- run pop_word;;
     run (set_x rA w));;
  run DECODE_CLEAR_SEGOVR.

Definition x86emuOp_pop_CX (op1 : Z) : Op unit :=
  m <- run (get mode);;
  (if nz (Z.land m SYSMODE_PREFIX_DATA) then
     l <- run pop_long;;
     run (set_e rC l)
   else
     w <- run pop_word;;
     run (set_x rC w));;
  run DECODE_CLEAR_SEGOVR.

Definition x86emuOp_pop_DX (op1 : Z) : Op unit :=
  m <- run (get mode);;
  (if nz (Z.land m SYSMODE_PREFIX_DATA) then
     l <- run pop_long;;
     run (set_e rD l)
   else
     w <- run pop_word;;
     run (set_x rD w));;
  run DECODE_CLEAR_SEGOVR.

Definition x86emuOp_pop_BX (op1 : Z) : Op unit :=
  m <- run (get mode);;
  (if nz (Z.land m SYSMODE_PREFIX_DATA) then
     l <- run pop_long;;
     run (set_e rB l)
   else
     w <- run pop_word;;
     run (set_x rB w));;
  run DECODE_CLEAR_SEGOVR.

Definition x86emuOp_pop_SP (op1 : Z) : Op unit :=
  m <- run (get mode);;
  (if nz (Z.land m SYSMODE_PREFIX_DATA) then
     l <- run pop_long;;
     run (set_e rSP l)
   else
     w <- run pop_word;;
     run (set_x rSP w));;
  run DECODE_CLEAR_SEGOVR.

Definition x86emuOp_pop_BP (op1 : Z) : Op unit :=
  m <- run (get mode);;
  (if nz (Z.land m SYSMODE_PREFIX_DATA) then
     l <- run pop_long;;
     run (set_e rBP l)
   else
     w <- run pop_word;;
     run (set_x rBP w));;
  run DECODE_CLEAR_SEGOVR.

Definition x86emuOp_pop_SI (op1 : Z) : Op unit :=
  m <- run (get mode);;
  (if nz (Z.land m SYSMODE_PREFIX_DATA) then
     l <- run pop_long;;
     run (set_e rSI l)
   else
     w <- run pop_word;;
     run (set_x rSI w));;
  run DECODE_CLEAR_SEGOVR.

Definition x86emuOp_pop_DI (op1 : Z) : Op unit :=
  m <- run (get mode);;
  (if nz (Z.land m SYSMODE_PREFIX_DATA) then
     l <- run pop_long;;
     run (set_e rDI l)
   else
     w <- run pop_word;;
     run (set_x rDI w));;
  run DECODE_CLEAR_SEGOVR.

Definition x86emuOp_push_all (op1 : Z) : Op unit :=
  m <- run (get mode);;
  (if nz (Z.land m SYSMODE_PREFIX_DATA) then
     old_sp <- run (e_reg rSP);;
     eax <- run (e_reg rA);;
     run (push_long eax);;
     ecx <- run (e_reg rC);;
     run (push_long ecx);;
     edx <- run (e_reg rD);;
     run (push_long edx);;
     ebx <- run (e_reg rB);;
     run (push_long ebx);;
     run (push_long old_sp);;
     ebp <- run (e_reg rBP);;
     run (push_long ebp);;
     esi <- run (e_reg rSI);;
     run (push_long esi);;
     edi <- run (e_reg rDI);;
     run (push_long edi)
   else
     old_sp <- run (x_reg rSP);;
     ax <- run (x_reg rA);;
     run (push_word ax);;
     cx <- run (x_reg rC);;
     run (push_word cx);;
     dx <- run (x_reg rD);;
     run (push_word dx);;
     bx <- run (x_reg rB);;
     run (push_word bx);;
     run (push_word old_sp);;
     bp <- run (x_reg rBP);;
     run (push_word bp);;
     si <- run (x_reg rSI);;
     run (push_word si);;
     di <- run (x_reg rDI);;
     run (push_word di));;
  run DECODE_CLEAR_SEGOVR.

Definition x86emuOp_pop_all (op1 : Z) : Op unit :=
  m <- run (get mode);;
  (if nz (Z.land m SYSMODE_PREFIX_DATA) then
     l <- run pop_long;;
     run (set_e rDI l);;
     l <- run pop_long;;
     run (set_e rSI l);;
     l <- run pop_long;;
     run (set_e rBP l);;
     esp <- run (e_reg rSP);;
     run (set_e rSP (u32 (esp + 4)));;
     l <- run pop_long;;
     run (set_e rB l);;
     l <- run pop_long;;
     run (set_e rD l);;
     l <- run pop_long;;
     run (set_e rC l);;
     l <- run pop_long;;
     run (set_e rA l)
   else
     w <- run pop_word;;
     run (set_x rDI w);;
     w <- run pop_word;;
     run (set_x rSI w);;
     w <- run pop_word;;
     run (set_x rBP w);;
     sp <- run (x_reg rSP);;
     run (set_x rSP (sp + 2));;
     w <- run pop_word;;
     run (set_x rB w);;
     w <- run pop_word;;
     run (set_x rD w);;
     w <- run pop_word;;
     run (set_x rC w);;
     w <- run pop_word;;
     run (set_x rA w));;
  run DECODE_CLEAR_SEGOVR.

Definition x86emuOp_segovr_FS (op1 : Z) : Op unit :=
  run (set_mode (fun m => Z.lor m SYSMODE_SEGOVR_FS)).

Definition x86emuOp_segovr_GS (op1 : Z) : Op unit :=
  run (set_mode (fun m => Z.lor m SYSMODE_SEGOVR_GS)).

Definition x86emuOp_prefix_data (op1 : Z) : Op unit :=
  run (set_mode (fun m => Z.lor m SYSMODE_PREFIX_DATA)).

Definition x86emuOp_prefix_addr (op1 : Z) : Op unit :=
  run (set_mode (fun m => Z.lor m SYSMODE_PREFIX_ADDR)).

Definition x86emuOp_push_word_IMM (op1 : Z) : Op unit :=
  m <- run (get mode);;
  imm <- (if nz (Z.land m SYSMODE_PREFIX_DATA) then run fetch_long_imm else run fetch_word_imm);;
  m <- run (get mode);;
  (if nz (Z.land m SYSMODE_PREFIX_DATA) then run (push_long imm) else run (push_word (u16 imm)));;
  run DECODE_CLEAR_SEGOVR.

Definition x86emuOp_imul_word_IMM (op1 : Z) : Op unit :=
  modrm <- run fetch_decode_modrm;;
  let '(md, rh, rl) := modrm in
  (match md with
   | 0 =>
       m <- run (get mode);;
       if nz (Z.land m SYSMODE_PREFIX_DATA) then
         destreg <- run (decode_rm_long_register rh);;
         srcoffset <- run (decode_rm00_address rl);;
         srcval <- run (fetch_data_long srcoffset);;
         l <- run fetch_long_imm;;
         let imm := signed 32 l in
         let '(res_lo, res_hi) := imul_long_direct srcval (u32 imm) in
         (if negb (res_hi =? 0) then
            flags (SET_FLAG F_CF);;
            flags (SET_FLAG F_OF)
          else
            flags (CLEAR_FLAG F_CF);;
            flags (CLEAR_FLAG F_OF));;
         wr_32 destreg res_lo
       else
         destreg <- run (decode_rm_word_register rh);;
         srcoffset <- run (decode_rm00_address rl);;
         srcval <- run (fetch_data_word srcoffset);;
         w <- run fetch_word_imm;;
         let imm := signed 16 w in
         let res := u32 ((signed 16 srcval) * imm) in
         (if 0xffff <? res then
            flags (SET_FLAG F_CF);;
            flags (SET_FLAG F_OF)
          else
            flags (CLEAR_FLAG F_CF);;
            flags (CLEAR_FLAG F_OF));;
         wr_16 destreg (u16 res)
   | 1 =>
       m <- run (get mode);;
       if nz (Z.land m SYSMODE_PREFIX_DATA) then
         destreg <- run (decode_rm_long_register rh);;
         srcoffset <- run (decode_rm01_address rl);;
         srcval <- run (fetch_data_long srcoffset);;
         l <- run fetch_long_imm;;
         let imm := signed 32 l in
         let '(res_lo, res_hi) := imul_long_direct srcval (u32 imm) in
         (if negb (res_hi =? 0) then
            flags (SET_FLAG F_CF);;
            flags (SET_FLAG F_OF)
          else
            flags (CLEAR_FLAG F_CF);;
            flags (CLEAR_FLAG F_OF));;
         wr_32 destreg res_lo
       else
         destreg <- run (decode_rm_word_register rh);;
         srcoffset <- run (decode_rm01_address rl);;
         srcval <- run (fetch_data_word srcoffset);;
         w <- run fetch_word_imm;;
         let imm := signed 16 w in
         let res := u32 ((signed 16 srcval) * imm) in
         (if 0xffff <? res then
            flags (SET_FLAG F_CF);;
            flags (SET_FLAG F_OF)
          else
            flags (CLEAR_FLAG F_CF);;
            flags (CLEAR_FLAG F_OF));;
         wr_16 destreg (u16 res)
   | 2 =>
       m <- run (get mode);;
       if nz (Z.land m SYSMODE_PREFIX_DATA) then
         destreg <- run (decode_rm_long_register rh);;
         srcoffset <- run (decode_rm10_address rl);;
         srcval <- run (fetch_data_long srcoffset);;
         l <- run fetch_long_imm;;
         let imm := signed 32 l in
         let '(res_lo, res_hi) := imul_long_direct srcval (u32 imm) in
         (if negb (res_hi =? 0) then
            flags (SET_FLAG F_CF);;
            flags (SET_FLAG F_OF)
          else
            flags (CLEAR_FLAG F_CF);;
            flags (CLEAR_FLAG F_OF));;
         wr_32 destreg res_lo
       else
         destreg <- run (decode_rm_word_register rh);;
         srcoffset <- run (decode_rm10_address rl);;
         srcval <- run (fetch_data_word srcoffset);;
         w <- run fetch_word_imm;;
         let imm := signed 16 w in
         let res := u32 ((signed 16 srcval) * imm) in
         (if 0xffff <? res then
            flags (SET_FLAG F_CF);;
            flags (SET_FLAG F_OF)
          else
            flags (CLEAR_FLAG F_CF);;
            flags (CLEAR_FLAG F_OF));;
         wr_16 destreg (u16 res)
   | 3 =>
       m <- run (get mode);;
       if nz (Z.land m SYSMODE_PREFIX_DATA) then
         destreg <- run (decode_rm_long_register rh);;
         srcreg <- run (decode_rm_long_register rl);;
         l <- run fetch_long_imm;;
         let imm := signed 32 l in
         src <- rd_32 srcreg;;
         let '(res_lo, res_hi) := imul_long_direct src (u32 imm) in
         (if negb (res_hi =? 0) then
            flags (SET_FLAG F_CF);;
            flags (SET_FLAG F_OF)
          else
            flags (CLEAR_FLAG F_CF);;
            flags (CLEAR_FLAG F_OF));;
         wr_32 destreg res_lo
       else
         destreg <- run (decode_rm_word_register rh);;
         srcreg <- run (decode_rm_word_register rl);;
         w <- run fetch_word_imm;;
         let imm := signed 16 w in
         src <- rd_16 srcreg;;
         let res := u32 ((signed 16 src) * imm) in
         (if 0xffff <? res then
            flags (SET_FLAG F_CF);;
            flags (SET_FLAG F_OF)
          else
            flags (CLEAR_FLAG F_CF);;
            flags (CLEAR_FLAG F_OF));;
         wr_16 destreg (u16 res)
   | _ => eret tt
   end);;
  run DECODE_CLEAR_SEGOVR.

Definition x86emuOp_push_byte_IMM (op1 : Z) : Op unit :=
  b <- run fetch_byte_imm;;
  let imm := signed 8 b in
  m <- run (get mode);;
  (if nz (Z.land m SYSMODE_PREFIX_DATA) then run (push_long (u32 imm)) else run (push_word (u16 imm)));;
  run DECODE_CLEAR_SEGOVR.

Definition x86emuOp_imul_byte_IMM (op1 : Z) : Op unit :=
  modrm <- run fetch_decode_modrm;;
  let '(md, rh, rl) := modrm in
  (match md with
   | 0 =>
       m <- run (get mode);;
       if nz (Z.land m SYSMODE_PREFIX_DATA) then
         destreg <- run (decode_rm_long_register rh);;
         srcoffset <- run (decode_rm00_address rl);;
         srcval <- run (fetch_data_long srcoffset);;
         b <- run fetch_byte_imm;;
         let imm := signed 8 b in
         let '(res_lo, res_hi) := imul_long_direct srcval (u32 imm) in
         (if negb (res_hi =? 0) then
            flags (SET_FLAG F_CF);;
            flags (SET_FLAG F_OF)
          else
            flags (CLEAR_FLAG F_CF);;
            flags (CLEAR_FLAG F_OF));;
         wr_32 destreg res_lo
       else
         destreg <- run (decode_rm_word_register rh);;
         srcoffset <- run (decode_rm00_address rl);;
         srcval <- run (fetch_data_word srcoffset);;
         b <- run fetch_byte_imm;;
         let imm := signed 8 b in
         let res := u32 ((signed 16 srcval) * imm) in
         (if 0xffff <? res then
            flags (SET_FLAG F_CF);;
            flags (SET_FLAG F_OF)
          else
            flags (CLEAR_FLAG F_CF);;
            flags (CLEAR_FLAG F_OF));;
         wr_16 destreg (u16 res)
   | 1 =>
       m <- run (get mode);;
       if nz (Z.land m SYSMODE_PREFIX_DATA) then
         destreg <- run (decode_rm_long_register rh);;
         srcoffset <- run (decode_rm01_address rl);;
         srcval <- run (fetch_data_long srcoffset);;
         b <- run fetch_byte_imm;;
         let imm := signed 8 b in
         let '(res_lo, res_hi) := imul_long_direct srcval (u32 imm) in
         (if negb (res_hi =? 0) then
            flags (SET_FLAG F_CF);;
            flags (SET_FLAG F_OF)
          else
            flags (CLEAR_FLAG F_CF);;
            flags (CLEAR_FLAG F_OF));;
         wr_32 destreg res_lo
       else
         destreg <- run (decode_rm_word_register rh);;
         srcoffset <- run (decode_rm01_address rl);;
         srcval <- run (fetch_data_word srcoffset);;
         b <- run fetch_byte_imm;;
         let imm := signed 8 b in
         let res := u32 ((signed 16 srcval) * imm) in
         (if 0xffff <? res then
            flags (SET_FLAG F_CF);;
            flags (SET_FLAG F_OF)
          else
            flags (CLEAR_FLAG F_CF);;
            flags (CLEAR_FLAG F_OF));;
         wr_16 destreg (u16 res)
   | 2 =>
       m <- run (get mode);;
       if nz (Z.land m SYSMODE_PREFIX_DATA) then
         destreg <- run (decode_rm_long_register rh);;
         srcoffset <- run (decode_rm10_address rl);;
         srcval <- run (fetch_data_long srcoffset);;
         b <- run fetch_byte_imm;;
         let imm := signed 8 b in
         let '(res_lo, res_hi) := imul_long_direct srcval (u32 imm) in
         (if negb (res_hi =? 0) then
            flags (SET_FLAG F_CF);;
            flags (SET_FLAG F_OF)
          else
            flags (CLEAR_FLAG F_CF);;
            flags (CLEAR_FLAG F_OF));;
         wr_32 destreg res_lo
       else
         destreg <- run (decode_rm_word_register rh);;
         srcoffset <- run (decode_rm10_address rl);;
         srcval <- run (fetch_data_word srcoffset);;
         b <- run fetch_byte_imm;;
         let imm := signed 8 b in
         let res := u32 ((signed 16 srcval) * imm) in
         (if 0xffff <? res then
            flags (SET_FLAG F_CF);;
            flags (SET_FLAG F_OF)
          else
            flags (CLEAR_FLAG F_CF);;
            flags (CLEAR_FLAG F_OF));;
         wr_16 destreg (u16 res)
   | 3 =>
       m <- run (get mode);;
       if nz (Z.land m SYSMODE_PREFIX_DATA) then
         destreg <- run (decode_rm_long_register rh);;
         srcreg <- run (decode_rm_long_register rl);;
         b <- run fetch_byte_imm;;
         let imm := signed 8 b in
         src <- rd_32 srcreg;;
         let '(res_lo, res_hi) := imul_long_direct src (u32 imm) in
         (if negb (res_hi =? 0) then
            flags (SET_FLAG F_CF);;
            flags (SET_FLAG F_OF)
          else
            flags (CLEAR_FLAG F_CF);;
            flags (CLEAR_FLAG F_OF));;
         wr_32 destreg res_lo
       else
         destreg <- run (decode_rm_word_register rh);;
         srcreg <- run (decode_rm_word_register rl);;
         b <- run fetch_byte_imm;;
         let imm := signed 8 b in
         src <- rd_16 srcreg;;
         let res := u32 ((signed 16 src) * imm) in
         (if 0xffff <? res then
            flags (SET_FLAG F_CF);;
            flags (SET_FLAG F_OF)
          else
            flags (CLEAR_FLAG F_CF);;
            flags (CLEAR_FLAG F_OF));;
         wr_16 destreg (u16 res)
   | _ => eret tt
   end);;
  run DECODE_CLEAR_SEGOVR.

Definition x86emuOp_ins_byte (op1 : Z) : Op unit :=
  run (ins 1);;
  run DECODE_CLEAR_SEGOVR.

Definition x86emuOp_ins_word (op1 : Z) : Op unit :=
  m <- run (get mode);;
  (if nz (Z.land m SYSMODE_PREFIX_DATA) then run (ins 4) else run (ins 2));;
  run DECODE_CLEAR_SEGOVR.

Definition x86emuOp_outs_byte (op1 : Z) : Op unit :=
  run (outs 1);;
  run DECODE_CLEAR_SEGOVR.

Definition x86emuOp_outs_word (op1 : Z) : Op unit :=
  m <- run (get mode);;
  (if nz (Z.land m SYSMODE_PREFIX_DATA) then run (outs 4) else run (outs 2));;
  run DECODE_CLEAR_SEGOVR.

Definition x86emuOp_jump_near_O (op1 : Z) : Op unit :=
  b <- run fetch_byte_imm;;
  let offset := signed 8 b in
  ip <- run (x_reg rIP);;
  let target := u16 (ip + offset) in
  of_ <- flags (ACCESS_FLAG F_OF);;
  (if of_ then run (set_x rIP target) else eret tt);;
  run DECODE_CLEAR_SEGOVR.

Definition x86emuOp_jump_near_NO (op1 : Z) : Op unit :=
  b <- run fetch_byte_imm;;
  let offset := signed 8 b in
  ip <- run (x_reg rIP);;
  let target := u16 (ip + offset) in
  of_ <- flags (ACCESS_FLAG F_OF);;
  (if negb of_ then run (set_x rIP target) else eret tt);;
  run DECODE_CLEAR_SEGOVR.

Definition x86emuOp_jump_near_B (op1 : Z) : Op unit :=
  b <- run fetch_byte_imm;;
  let offset := signed 8 b in
  ip <- run (x_reg rIP);;
  let target := u16 (ip + offset) in
  cf_ <- flags (ACCESS_FLAG F_CF);;
  (if cf_ then run (set_x rIP target) else eret tt);;
  run DECODE_CLEAR_SEGOVR.

Definition x86emuOp_jump_near_NB (op1 : Z) : Op unit :=
  b <- run fetch_byte_imm;;
  let offset := signed 8 b in
  ip <- run (x_reg rIP);;
  let target := u16 (ip + offset) in
  cf_ <- flags (ACCESS_FLAG F_CF);;
  (if negb cf_ then run (set_x rIP target) else eret tt);;
  run DECODE_CLEAR_SEGOVR.

Definition x86emuOp_jump_near_Z (op1 : Z) : Op unit :=
  b <- run fetch_byte_imm;;
  let offset := signed 8 b in
  ip <- run (x_reg rIP);;
  let target := u16 (ip + offset) in
  zf_ <- flags (ACCESS_FLAG F_ZF);;
  (if zf_ then run (set_x rIP target) else eret tt);;
  run DECODE_CLEAR_SEGOVR.

Definition x86emuOp_jump_near_NZ (op1 : Z) : Op unit :=
  b <- run fetch_byte_imm;;
  let offset := signed 8 b in
  ip <- run (x_reg rIP);;
  let target := u16 (ip + offset) in
  zf_ <- flags (ACCESS_FLAG F_ZF);;
  (if negb zf_ then run (set_x rIP target) else eret tt);;
  run DECODE_CLEAR_SEGOVR.

Definition x86emuOp_jump_near_BE (op1 : Z) : Op unit :=
  b <- run fetch_byte_imm;;
  let offset := signed 8 b in
  ip <- run (x_reg rIP);;
  let target := u16 (ip + offset) in
  cf_ <- flags (ACCESS_FLAG F_CF);;
  zf_ <- flags (ACCESS_FLAG F_ZF);;
  (if cf_ || zf_ then run (set_x rIP target) else eret tt);;
  run DECODE_CLEAR_SEGOVR.

Definition x86emuOp_jump_near_NBE (op1 : Z) : Op unit :=
  b <- run fetch_byte_imm;;
  let offset := signed 8 b in
  ip <- run (x_reg rIP);;
  let target := u16 (ip + offset) in
  cf_ <- flags (ACCESS_FLAG F_CF);;
  zf_ <- flags (ACCESS_FLAG F_ZF);;
  (if negb (cf_ || zf_) then run (set_x rIP target) else eret tt);;
  run DECODE_CLEAR_SEGOVR.

Definition x86emuOp_jump_near_S (op1 : Z) : Op unit :=
  b <- run fetch_byte_imm;;
  let offset := signed 8 b in
  ip <- run (x_reg rIP);;
  let target := u16 (ip + offset) in
  sf_ <- flags (ACCESS_FLAG F_SF);;
  (if sf_ then run (set_x rIP target) else eret tt);;
  run DECODE_CLEAR_SEGOVR.

Definition x86emuOp_jump_near_NS (op1 : Z) : Op unit :=
  b <- run fetch_byte_imm;;
  let offset := signed 8 b in
  ip <- run (x_reg rIP);;
  let target := u16 (ip + offset) in
  sf_ <- flags (ACCESS_FLAG F_SF);;
  (if negb sf_ then run (set_x rIP target) else eret tt);;
  run DECODE_CLEAR_SEGOVR.

Definition x86emuOp_jump_near_P (op1 : Z) : Op unit :=
  b <- run fetch_byte_imm;;
  let offset := signed 8 b in
  ip <- run (x_reg rIP);;
  let target := u16 (ip + offset) in
  pf_ <- flags (ACCESS_FLAG F_PF);;
  (if pf_ then run (set_x rIP target) else eret tt);;
  run DECODE_CLEAR_SEGOVR.

Definition x86emuOp_jump_near_NP (op1 : Z) : Op unit :=
  b <- run fetch_byte_imm;;
  let offset := signed 8 b in
  ip <- run (x_reg rIP);;
  let target := u16 (ip + offset) in
  pf_ <- flags (ACCESS_FLAG F_PF);;
  (if negb pf_ then run (set_x rIP target) else eret tt);;
  run DECODE_CLEAR_SEGOVR.

Definition x86emuOp_jump_near_L (op1 : Z) : Op unit :=
  b <- run fetch_byte_imm;;
  let offset := signed 8 b in
  ip <- run (x_reg rIP);;
  let target := u16 (ip + offset) in
  sf <- flags (ACCESS_FLAG F_SF);;
  of_ <- flags (ACCESS_FLAG F_OF);;
  (if xorb sf of_ then run (set_x rIP target) else eret tt);;
  run DECODE_CLEAR_SEGOVR.

Definition x86emuOp_jump_near_NL (op1 : Z) : Op unit :=
  b <- run fetch_byte_imm;;
  let offset := signed 8 b in
  ip <- run (x_reg rIP);;
  let target := u16 (ip + offset) in
  sf <- flags (ACCESS_FLAG F_SF);;
  of_ <- flags (ACCESS_FLAG F_OF);;
  (if Bool.eqb sf of_ then run (set_x rIP target) else eret tt);;
  run DECODE_CLEAR_SEGOVR.

Definition x86emuOp_jump_near_LE (op1 : Z) : Op unit :=
  b <- run fetch_byte_imm;;
  let offset := signed 8 b in
  ip <- run (x_reg rIP);;
  let target := u16 (ip + offset) in
  sf <- flags (ACCESS_FLAG F_SF);;
  of_ <- flags (ACCESS_FLAG F_OF);;
  zf_ <- flags (ACCESS_FLAG F_ZF);;
  (if (xorb sf of_) || zf_ then run (set_x rIP target) else eret tt);;
  run DECODE_CLEAR_SEGOVR.

Definition x86emuOp_jump_near_NLE (op1 : Z) : Op unit :=
  b <- run fetch_byte_imm;;
  let offset := signed 8 b in
  ip <- run (x_reg rIP);;
  let target := u16 (ip + offset) in
  sf <- flags (ACCESS_FLAG F_SF);;
  of_ <- flags (ACCESS_FLAG F_OF);;
  zf_ <- flags (ACCESS_FLAG F_ZF);;
  (if (Bool.eqb sf of_) && (negb zf_) then run (set_x rIP target) else eret tt);;
  run DECODE_CLEAR_SEGOVR.

Definition opc80_byte_operation : list (Z -> Z -> Flags Z) :=
  [add_byte; or_byte; adc_byte; sbb_byte; and_byte; sub_byte; xor_byte; cmp_byte].

Definition x86emuOp_opc80_byte_RM_IMM (op1 : Z) : Op unit :=
  modrm <- run fetch_decode_modrm;;
  let '(md, rh, rl) := modrm in
  (match md with
   | 0 =>
       destoffset <- run (decode_rm00_address rl);;
       destval <- run (fetch_data_byte destoffset);;
       imm <- run fetch_byte_imm;;
       op <- entry opc80_byte_operation rh;;
       destval <- flags (op destval imm);;
       if negb (rh =? 7) then run (store_data_byte destoffset destval) else eret tt
   | 1 =>
       destoffset <- run (decode_rm01_address rl);;
       destval <- run (fetch_data_byte destoffset);;
       imm <- run fetch_byte_imm;;
       op <- entry opc80_byte_operation rh;;
       destval <- flags (op destval imm);;
       if negb (rh =? 7) then run (store_data_byte destoffset destval) else eret tt
   | 2 =>
       destoffset <- run (decode_rm10_address rl);;
       destval <- run (fetch_data_byte destoffset);;
       imm <- run fetch_byte_imm;;
       op <- entry opc80_byte_operation rh;;
       destval <- flags (op destval imm);;
       if negb (rh =? 7) then run (store_data_byte destoffset destval) else eret tt
   | 3 =>
       destreg <- run (decode_rm_byte_register rl);;
       imm <- run fetch_byte_imm;;
       dst <- rd_8 destreg;;
       op <- entry opc80_byte_operation rh;;
       destval <- flags (op dst imm);;
       if negb (rh =? 7) then wr_8 destreg destval else eret tt
   | _ => eret tt
   end);;
  run DECODE_CLEAR_SEGOVR.

Definition opc81_word_operation : list (Z -> Z -> Flags Z) :=
  [add_word; or_word; adc_word; sbb_word; and_word; sub_word; xor_word; cmp_word].

Definition opc81_long_operation : list (Z -> Z -> Flags Z) :=
  [add_long; or_long; adc_long; sbb_long; and_long; sub_long; xor_long; cmp_long].

Definition x86emuOp_opc81_word_RM_IMM (op1 : Z) : Op unit :=
  modrm <- run fetch_decode_modrm;;
  let '(md, rh, rl) := modrm in
  (match md with
   | 0 =>
       m <- run (get mode);;
       if nz (Z.land m SYSMODE_PREFIX_DATA) then
         destoffset <- run (decode_rm00_address rl);;
         destval <- run (fetch_data_long destoffset);;
         imm <- run fetch_long_imm;;
         op <- entry opc81_long_operation rh;;
         destval <- flags (op destval imm);;
         if negb (rh =? 7) then run (store_data_long destoffset destval) else eret tt
       else
         destoffset <- run (decode_rm00_address rl);;
         destval <- run (fetch_data_word destoffset);;
         imm <- run fetch_word_imm;;
         op <- entry opc81_word_operation rh;;
         destval <- flags (op destval imm);;
         if negb (rh =? 7) then run (store_data_word destoffset destval) else eret tt
   | 1 =>
       m <- run (get mode);;
       if nz (Z.land m SYSMODE_PREFIX_DATA) then
         destoffset <- run (decode_rm01_address rl);;
         destval <- run (fetch_data_long destoffset);;
         imm <- run fetch_long_imm;;
         op <- entry opc81_long_operation rh;;
         destval <- flags (op destval imm);;
         if negb (rh =? 7) then run (store_data_long destoffset destval) else eret tt
       else
         destoffset <- run (decode_rm01_address rl);;
         destval <- run (fetch_data_word destoffset);;
         imm <- run fetch_word_imm;;
         op <- entry opc81_word_operation rh;;
         destval <- flags (op destval imm);;
         if negb (rh =? 7) then run (store_data_word destoffset destval) else eret tt
   | 2 =>
       m <- run (get mode);;
       if nz (Z.land m SYSMODE_PREFIX_DATA) then
         destoffset <- run (decode_rm10_address rl);;
         destval <- run (fetch_data_long destoffset);;
         imm <- run fetch_long_imm;;
         op <- entry opc81_long_operation rh;;
         destval <- flags (op destval imm);;
         if negb (rh =? 7) then run (store_data_long destoffset destval) else eret tt
       else
         destoffset <- run (decode_rm10_address rl);;
         destval <- run (fetch_data_word destoffset);;
         imm <- run fetch_word_imm;;
         op <- entry opc81_word_operation rh;;
         destval <- flags (op destval imm);;
         if negb (rh =? 7) then run (store_data_word destoffset destval) else eret tt
   | 3 =>
       m <- run (get mode);;
       if nz (Z.land m SYSMODE_PREFIX_DATA) then
         destreg <- run (decode_rm_long_register rl);;
         imm <- run fetch_long_imm;;
         dst <- rd_32 destreg;;
         op <- entry opc81_long_operation rh;;
         destval <- flags (op dst imm);;
         if negb (rh =? 7) then wr_32 destreg destval else eret tt
       else
         destreg <- run (decode_rm_word_register rl);;
         imm <- run fetch_word_imm;;
         dst <- rd_16 destreg;;
         op <- entry opc81_word_operation rh;;
         destval <- flags (op dst imm);;
         if negb (rh =? 7) then wr_16 destreg destval else eret tt
   | _ => eret tt
   end);;
  run DECODE_CLEAR_SEGOVR.

Definition opc82_byte_operation : list (Z -> Z -> Flags Z) :=
  [add_byte; or_byte; adc_byte; sbb_byte; and_byte; sub_byte; xor_byte; cmp_byte].

Definition x86emuOp_opc82_byte_RM_IMM (op1 : Z) : Op unit :=
  modrm <- run fetch_decode_modrm;;
  let '(md, rh, rl) := modrm in
  (match md with
   | 0 =>
       destoffset <- run (decode_rm00_address rl);;
       destval <- run (fetch_data_byte destoffset);;
       imm <- run fetch_byte_imm;;
       op <- entry opc82_byte_operation rh;;
       destval <- flags (op destval imm);;
       if negb (rh =? 7) then run (store_data_byte destoffset destval) else eret tt
   | 1 =>
       destoffset <- run (decode_rm01_address rl);;
       destval <- run (fetch_data_byte destoffset);;
       imm <- run fetch_byte_imm;;
       op <- entry opc82_byte_operation rh;;
       destval <- flags (op destval imm);;
       if negb (rh =? 7) then run (store_data_byte destoffset destval) else eret tt
   | 2 =>
       destoffset <- run (decode_rm10_address rl);;
       destval <- run (fetch_data_byte destoffset);;
       imm <- run fetch_byte_imm;;
       op <- entry opc82_byte_operation rh;;
       destval <- flags (op destval imm);;
       if negb (rh =? 7) then run (store_data_byte destoffset destval) else eret tt
   | 3 =>
       destreg <- run (decode_rm_byte_register rl);;
       imm <- run fetch_byte_imm;;
       dst <- rd_8 destreg;;
       op <- entry opc82_byte_operation rh;;
       destval <- flags (op dst imm);;
       if negb (rh =? 7) then wr_8 destreg destval else eret tt
   | _ => eret tt
   end);;
  run DECODE_CLEAR_SEGOVR.

Definition opc83_word_operation : list (Z -> Z -> Flags Z) :=
  [add_word; or_word; adc_word; sbb_word; and_word; sub_word; xor_word; cmp_word].

Definition opc83_long_operation : list (Z -> Z -> Flags Z) :=
  [add_long; or_long; adc_long; sbb_long; and_long; sub_long; xor_long; cmp_long].

Definition x86emuOp_opc83_word_RM_IMM (op1 : Z) : Op unit :=
  modrm <- run fetch_decode_modrm;;
  let '(md, rh, rl) := modrm in
  (match md with
   | 0 =>
       m <- run (get mode);;
       if nz (Z.land m SYSMODE_PREFIX_DATA) then
         destoffset <- run (decode_rm00_address rl);;
         destval <- run (fetch_data_long destoffset);;
         b <- run fetch_byte_imm;;
         let imm := u32 (signed 8 b) in
         op <- entry opc83_long_operation rh;;
         destval <- flags (op destval imm);;
         if negb (rh =? 7) then run (store_data_long destoffset destval) else eret tt
       else
         destoffset <- run (decode_rm00_address rl);;
         destval <- run (fetch_data_word destoffset);;
         b <- run fetch_byte_imm;;
         let imm := u16 (signed 8 b) in
         op <- entry opc83_word_operation rh;;
         destval <- flags (op destval imm);;
         if negb (rh =? 7) then run (store_data_word destoffset destval) else eret tt
   | 1 =>
       m <- run (get mode);;
       if nz (Z.land m SYSMODE_PREFIX_DATA) then
         destoffset <- run (decode_rm01_address rl);;
         destval <- run (fetch_data_long destoffset);;
         b <- run fetch_byte_imm;;
         let imm := u32 (signed 8 b) in
         op <- entry opc83_long_operation rh;;
         destval <- flags (op destval imm);;
         if negb (rh =? 7) then run (store_data_long destoffset destval) else eret tt
       else
         destoffset <- run (decode_rm01_address rl);;
         destval <- run (fetch_data_word destoffset);;
         b <- run fetch_byte_imm;;
         let imm := u16 (signed 8 b) in
         op <- entry opc83_word_operation rh;;
         destval <- flags (op destval imm);;
         if negb (rh =? 7) then run (store_data_word destoffset destval) else eret tt
   | 2 =>
       m <- run (get mode);;
       if nz (Z.land m SYSMODE_PREFIX_DATA) then
         destoffset <- run (decode_rm10_address rl);;
         destval <- run (fetch_data_long destoffset);;
         b <- run fetch_byte_imm;;
         let imm := u32 (signed 8 b) in
         op <- entry opc83_long_operation rh;;
         destval <- flags (op destval imm);;
         if negb (rh =? 7) then run (store_data_long destoffset destval) else eret tt
       else
         destoffset <- run (decode_rm10_address rl);;
         destval <- run (fetch_data_word destoffset);;
         b <- run fetch_byte_imm;;
         let imm := u16 (signed 8 b) in
         op <- entry opc83_word_operation rh;;
         destval <- flags (op destval imm);;
         if negb (rh =? 7) then run (store_data_word destoffset destval) else eret tt
   | 3 =>
       m <- run (get mode);;
       if nz (Z.land m SYSMODE_PREFIX_DATA) then
         destreg <- run (decode_rm_long_register rl);;
         b <- run fetch_byte_imm;;
         let imm := u32 (signed 8 b) in
         dst <- rd_32 destreg;;
         op <- entry opc83_long_operation rh;;
         destval <- flags (op dst imm);;
         if negb (rh =? 7) then wr_32 destreg destval else eret tt
       else
         destreg <- run (decode_rm_word_register rl);;
         b <- run fetch_byte_imm;;
         let imm := u16 (signed 8 b) in
         dst <- rd_16 destreg;;
         op <- entry opc83_word_operation rh;;
         destval <- flags (op dst imm);;
         if negb (rh =? 7) then wr_16 destreg destval else eret tt
   | _ => eret tt
   end);;
  run DECODE_CLEAR_SEGOVR.

Definition x86emuOp_test_byte_RM_R (op1 : Z) : Op unit :=
  modrm <- run fetch_decode_modrm;;
  let '(md, rh, rl) := modrm in
  (match md with
   | 0 =>
       destoffset <- run (decode_rm00_address rl);;
       destval <- run (fetch_data_byte destoffset);;
       srcreg <- run (decode_rm_byte_register rh);;
       src <- rd_8 srcreg;;
       flags (test_byte destval src)
   | 1 =>
       destoffset <- run (decode_rm01_address rl);;
       destval <- run (fetch_data_byte destoffset);;
       srcreg <- run (decode_rm_byte_register rh);;
       src <- rd_8 srcreg;;
       flags (test_byte destval src)
   | 2 =>
       destoffset <- run (decode_rm10_address rl);;
       destval <- run (fetch_data_byte destoffset);;
       srcreg <- run (decode_rm_byte_register rh);;
       src <- rd_8 srcreg;;
       flags (test_byte destval src)
   | 3 =>
       destreg <- run (decode_rm_byte_register rl);;
       srcreg <- run (decode_rm_byte_register rh);;
       dst <- rd_8 destreg;;
       src <- rd_8 srcreg;;
       flags (test_byte dst src)
   | _ => eret tt
   end);;
  run DECODE_CLEAR_SEGOVR.

Definition x86emuOp_test_word_RM_R (op1 : Z) : Op unit :=
  modrm <- run fetch_decode_modrm;;
  let '(md, rh, rl) := modrm in
  (match md with
   | 0 =>
       m <- run (get mode);;
       if nz (Z.land m SYSMODE_PREFIX_DATA) then
         destoffset <- run (decode_rm00_address rl);;
         destval <- run (fetch_data_long destoffset);;
         srcreg <- run (decode_rm_long_register rh);;
         src <- rd_32 srcreg;;
         flags (test_long destval src)
       else
         destoffset <- run (decode_rm00_address rl);;
         destval <- run (fetch_data_word destoffset);;
         srcreg <- run (decode_rm_word_register rh);;
         src <- rd_16 srcreg;;
         flags (test_word destval src)
   | 1 =>
       m <- run (get mode);;
       if nz (Z.land m SYSMODE_PREFIX_DATA) then
         destoffset <- run (decode_rm01_address rl);;
         destval <- run (fetch_data_long destoffset);;
         srcreg <- run (decode_rm_long_register rh);;
         src <- rd_32 srcreg;;
         flags (test_long destval src)
       else
         destoffset <- run (decode_rm01_address rl);;
         destval <- run (fetch_data_word destoffset);;
         srcreg <- run (decode_rm_word_register rh);;
         src <- rd_16 srcreg;;
         flags (test_word destval src)
   | 2 =>
       m <- run (get mode);;
       if nz (Z.land m SYSMODE_PREFIX_DATA) then
         destoffset <- run (decode_rm10_address rl);;
         destval <- run (fetch_data_long destoffset);;
         srcreg <- run (decode_rm_long_register rh);;
         src <- rd_32 srcreg;;
         flags (test_long destval src)
       else
         destoffset <- run (decode_rm10_address rl);;
         destval <- run (fetch_data_word destoffset);;
         srcreg <- run (decode_rm_word_register rh);;
         src <- rd_16 srcreg;;
         flags (test_word destval src)
   | 3 =>
       m <- run (get mode);;
       if nz (Z.land m SYSMODE_PREFIX_DATA) then
         destreg <- run (decode_rm_long_register rl);;
         srcreg <- run (decode_rm_long_register rh);;
         dst <- rd_32 destreg;;
         src <- rd_32 srcreg;;
         flags (test_long dst src)
       else
         destreg <- run (decode_rm_word_register rl);;
         srcreg <- run (decode_rm_word_register rh);;
         dst <- rd_16 destreg;;
         src <- rd_16 srcreg;;
         flags (test_word dst src)
   | _ => eret tt
   end);;
  run DECODE_CLEAR_SEGOVR.

Definition x86emuOp_xchg_byte_RM_R (op1 : Z) : Op unit :=
  modrm <- run fetch_decode_modrm;;
  let '(md, rh, rl) := modrm in
  (match md with
   | 0 =>
       destoffset <- run (decode_rm00_address rl);;
       destval <- run (fetch_data_byte destoffset);;
       srcreg <- run (decode_rm_byte_register rh);;
       tmp <- rd_8 srcreg;;
       wr_8 srcreg destval;;
       let destval := tmp in
       run (store_data_byte destoffset destval)
   | 1 =>
       destoffset <- run (decode_rm01_address rl);;
       destval <- run (fetch_data_byte destoffset);;
       srcreg <- run (decode_rm_byte_register rh);;
       tmp <- rd_8 srcreg;;
       wr_8 srcreg destval;;
       let destval := tmp in
       run (store_data_byte destoffset destval)
   | 2 =>
       destoffset <- run (decode_rm10_address rl);;
       destval <- run (fetch_data_byte destoffset);;
       srcreg <- run (decode_rm_byte_register rh);;
       tmp <- rd_8 srcreg;;
       wr_8 srcreg destval;;
       let destval := tmp in
       run (store_data_byte destoffset destval)
   | 3 =>
       destreg <- run (decode_rm_byte_register rl);;
       srcreg <- run (decode_rm_byte_register rh);;
       tmp <- rd_8 srcreg;;
       dst <- rd_8 destreg;;
       wr_8 srcreg dst;;
       wr_8 destreg tmp
   | _ => eret tt
   end);;
  run DECODE_CLEAR_SEGOVR.

Definition x86emuOp_xchg_word_RM_R (op1 : Z) : Op unit :=
  modrm <- run fetch_decode_modrm;;
  let '(md, rh, rl) := modrm in
  (match md with
   | 0 =>
       m <- run (get mode);;
       if nz (Z.land m SYSMODE_PREFIX_DATA) then
         destoffset <- run (decode_rm00_address rl);;
         destval <- run (fetch_data_long destoffset);;
         srcreg <- run (decode_rm_long_register rh);;
         tmp <- rd_32 srcreg;;
         wr_32 srcreg destval;;
         let destval := tmp in
         run (store_data_long destoffset destval)
       else
         destoffset <- run (decode_rm00_address rl);;
         destval <- run (fetch_data_word destoffset);;
         srcreg <- run (decode_rm_word_register rh);;
         tmp <- rd_16 srcreg;;
         wr_16 srcreg destval;;
         let destval := tmp in
         run (store_data_word destoffset destval)
   | 1 =>
       m <- run (get mode);;
       if nz (Z.land m SYSMODE_PREFIX_DATA) then
         destoffset <- run (decode_rm01_address rl);;
         destval <- run (fetch_data_long destoffset);;
         srcreg <- run (decode_rm_long_register rh);;
         tmp <- rd_32 srcreg;;
         wr_32 srcreg destval;;
         let destval := tmp in
         run (store_data_long destoffset destval)
       else
         destoffset <- run (decode_rm01_address rl);;
         destval <- run (fetch_data_word destoffset);;
         srcreg <- run (decode_rm_word_register rh);;
         tmp <- rd_16 srcreg;;
         wr_16 srcreg destval;;
         let destval := tmp in
         run (store_data_word destoffset destval)
   | 2 =>
       m <- run (get mode);;
       if nz (Z.land m SYSMODE_PREFIX_DATA) then
         destoffset <- run (decode_rm10_address rl);;
         destval <- run (fetch_data_long destoffset);;
         srcreg <- run (decode_rm_long_register rh);;
         tmp <- rd_32 srcreg;;
         wr_32 srcreg destval;;
         let destval := tmp in
         run (store_data_long destoffset destval)
       else
         destoffset <- run (decode_rm10_address rl);;
         destval <- run (fetch_data_word destoffset);;
         srcreg <- run (decode_rm_word_register rh);;
         tmp <- rd_16 srcreg;;
         wr_16 srcreg destval;;
         let destval := tmp in
         run (store_data_word destoffset destval)
   | 3 =>
       m <- run (get mode);;
       if nz (Z.land m SYSMODE_PREFIX_DATA) then
         destreg <- run (decode_rm_long_register rl);;
         srcreg <- run (decode_rm_long_register rh);;
         tmp <- rd_32 srcreg;;
         dst <- rd_32 destreg;;
         wr_32 srcreg dst;;
         wr_32 destreg tmp
       else
         destreg <- run (decode_rm_word_register rl);;
         srcreg <- run (decode_rm_word_register rh);;
         tmp <- rd_16 srcreg;;
         dst <- rd_16 destreg;;
         wr_16 srcreg dst;;
         wr_16 destreg tmp
   | _ => eret tt
   end);;
  run DECODE_CLEAR_SEGOVR.

Definition x86emuOp_mov_byte_RM_R (op1 : Z) : Op unit :=
  modrm <- run fetch_decode_modrm;;
  let '(md, rh, rl) := modrm in
  (match md with
   | 0 =>
       destoffset <- run (decode_rm00_address rl);;
       srcreg <- run (decode_rm_byte_register rh);;
       src <- rd_8 srcreg;;
       run (store_data_byte destoffset src)
   | 1 =>
       destoffset <- run (decode_rm01_address rl);;
       srcreg <- run (decode_rm_byte_register rh);;
       src <- rd_8 srcreg;;
       run (store_data_byte destoffset src)
   | 2 =>
       destoffset <- run (decode_rm10_address rl);;
       srcreg <- run (decode_rm_byte_register rh);;
       src <- rd_8 srcreg;;
       run (store_data_byte destoffset src)
   | 3 =>
       destreg <- run (decode_rm_byte_register rl);;
       srcreg <- run (decode_rm_byte_register rh);;
       src <- rd_8 srcreg;;
       wr_8 destreg src
   | _ => eret tt
   end);;
  run DECODE_CLEAR_SEGOVR.

Definition x86emuOp_mov_word_RM_R (op1 : Z) : Op unit :=
  modrm <- run fetch_decode_modrm;;
  let '(md, rh, rl) := modrm in
  (match md with
   | 0 =>
       m <- run (get mode);;
       if nz (Z.land m SYSMODE_PREFIX_DATA) then
         destoffset <- run (decode_rm00_address rl);;
         srcreg <- run (decode_rm_long_register rh);;
         src <- rd_32 srcreg;;
         run (store_data_long destoffset src)
       else
         destoffset <- run (decode_rm00_address rl);;
         srcreg <- run (decode_rm_word_register rh);;
         src <- rd_16 srcreg;;
         run (store_data_word destoffset src)
   | 1 =>
       m <- run (get mode);;
       if nz (Z.land m SYSMODE_PREFIX_DATA) then
         destoffset <- run (decode_rm01_address rl);;
         srcreg <- run (decode_rm_long_register rh);;
         src <- rd_32 srcreg;;
         run (store_data_long destoffset src)
       else
         destoffset <- run (decode_rm01_address rl);;
         srcreg <- run (decode_rm_word_register rh);;
         src <- rd_16 srcreg;;
         run (store_data_word destoffset src)
   | 2 =>
       m <- run (get mode);;
       if nz (Z.land m SYSMODE_PREFIX_DATA) then
         destoffset <- run (decode_rm10_address rl);;
         srcreg <- run (decode_rm_long_register rh);;
         src <- rd_32 srcreg;;
         run (store_data_long destoffset src)
       else
         destoffset <- run (decode_rm10_address rl);;
         srcreg <- run (decode_rm_word_register rh);;
         src <- rd_16 srcreg;;
         run (store_data_word destoffset src)
   | 3 =>
       m <- run (get mode);;
       if nz (Z.land m SYSMODE_PREFIX_DATA) then
         destreg <- run (decode_rm_long_register rl);;
         srcreg <- run (decode_rm_long_register rh);;
         src <- rd_32 srcreg;;
         wr_32 destreg src
       else
         destreg <- run (decode_rm_word_register rl);;
         srcreg <- run (decode_rm_word_register rh);;
         src <- rd_16 srcreg;;
         wr_16 destreg src
   | _ => eret tt
   end);;
  run DECODE_CLEAR_SEGOVR.

Definition x86emuOp_mov_byte_R_RM (op1 : Z) : Op unit :=
  modrm <- run fetch_decode_modrm;;
  let '(md, rh, rl) := modrm in
  (match md with
   | 0 =>
       destreg <- run (decode_rm_byte_register rh);;
       srcoffset <- run (decode_rm00_address rl);;
       srcval <- run (fetch_data_byte srcoffset);;
       wr_8 destreg srcval
   | 1 =>
       destreg <- run (decode_rm_byte_register rh);;
       srcoffset <- run (decode_rm01_address rl);;
       srcval <- run (fetch_data_byte srcoffset);;
       wr_8 destreg srcval
   | 2 =>
       destreg <- run (decode_rm_byte_register rh);;
       srcoffset <- run (decode_rm10_address rl);;
       srcval <- run (fetch_data_byte srcoffset);;
       wr_8 destreg srcval
   | 3 =>
       destreg <- run (decode_rm_byte_register rh);;
       srcreg <- run (decode_rm_byte_register rl);;
       src <- rd_8 srcreg;;
       wr_8 destreg src
   | _ => eret tt
   end);;
  run DECODE_CLEAR_SEGOVR.

Definition x86emuOp_mov_word_R_RM (op1 : Z) : Op unit :=
  modrm <- run fetch_decode_modrm;;
  let '(md, rh, rl) := modrm in
  (match md with
   | 0 =>
       m <- run (get mode);;
       if nz (Z.land m SYSMODE_PREFIX_DATA) then
         destreg <- run (decode_rm_long_register rh);;
         srcoffset <- run (decode_rm00_address rl);;
         srcval <- run (fetch_data_long srcoffset);;
         wr_32 destreg srcval
       else
         destreg <- run (decode_rm_word_register rh);;
         srcoffset <- run (decode_rm00_address rl);;
         srcval <- run (fetch_data_word srcoffset);;
         wr_16 destreg srcval
   | 1 =>
       m <- run (get mode);;
       if nz (Z.land m SYSMODE_PREFIX_DATA) then
         destreg <- run (decode_rm_long_register rh);;
         srcoffset <- run (decode_rm01_address rl);;
         srcval <- run (fetch_data_long srcoffset);;
         wr_32 destreg srcval
       else
         destreg <- run (decode_rm_word_register rh);;
         srcoffset <- run (decode_rm01_address rl);;
         srcval <- run (fetch_data_word srcoffset);;
         wr_16 destreg srcval
   | 2 =>
       m <- run (get mode);;
       if nz (Z.land m SYSMODE_PREFIX_DATA) then
         destreg <- run (decode_rm_long_register rh);;
         srcoffset <- run (decode_rm10_address rl);;
         srcval <- run (fetch_data_long srcoffset);;
         wr_32 destreg srcval
       else
         destreg <- run (decode_rm_word_register rh);;
         srcoffset <- run (decode_rm10_address rl);;
         srcval <- run (fetch_data_word srcoffset);;
         wr_16 destreg srcval
   | 3 =>
       m <- run (get mode);;
       if nz (Z.land m SYSMODE_PREFIX_DATA) then
         destreg <- run (decode_rm_long_register rh);;
         srcreg <- run (decode_rm_long_register rl);;
         src <- rd_32 srcreg;;
         wr_32 destreg src
       else
         destreg <- run (decode_rm_word_register rh);;
         srcreg <- run (decode_rm_word_register rl);;
         src <- rd_16 srcreg;;
         wr_16 destreg src
   | _ => eret tt
   end);;
  run DECODE_CLEAR_SEGOVR.

Definition x86emuOp_mov_word_RM_SR (op1 : Z) : Op unit :=
  modrm <- run fetch_decode_modrm;;
  let '(md, rh, rl) := modrm in
  (match md with
   | 0 =>
       destoffset <- run (decode_rm00_address rl);;
       srcreg <- run (decode_rm_seg_register rh);;
       destval <- rd_s srcreg;;
       run (store_data_word destoffset destval)
   | 1 =>
       destoffset <- run (decode_rm01_address rl);;
       srcreg <- run (decode_rm_seg_register rh);;
       destval <- rd_s srcreg;;
       run (store_data_word destoffset destval)
   | 2 =>
       destoffset <- run (decode_rm10_address rl);;
       srcreg <- run (decode_rm_seg_register rh);;
       destval <- rd_s srcreg;;
       run (store_data_word destoffset destval)
   | 3 =>
       destreg <- run (decode_rm_word_register rl);;
       srcreg <- run (decode_rm_seg_register rh);;
       src <- rd_s srcreg;;
       wr_16 destreg src
   | _ => eret tt
   end);;
  run DECODE_CLEAR_SEGOVR.

Definition x86emuOp_lea_word_R_M (op1 : Z) : Op unit :=
  modrm <- run fetch_decode_modrm;;
  let '(md, rh, rl) := modrm in
  (match md with
   | 0 =>
       srcreg <- run (decode_rm_word_register rh);;
       destoffset <- run (decode_rm00_address rl);;
       wr_16 srcreg (u16 destoffset)
   | 1 =>
       srcreg <- run (decode_rm_word_register rh);;
       destoffset <- run (decode_rm01_address rl);;
       wr_16 srcreg (u16 destoffset)
   | 2 =>
       srcreg <- run (decode_rm_word_register rh);;
       destoffset <- run (decode_rm10_address rl);;
       wr_16 srcreg (u16 destoffset)
   | 3 => eret tt
   | _ => eret tt
   end);;
  run DECODE_CLEAR_SEGOVR.

Definition x86emuOp_mov_word_SR_RM (op1 : Z) : Op unit :=
  modrm <- run fetch_decode_modrm;;
  let '(md, rh, rl) := modrm in
  (match md with
   | 0 =>
       destreg <- run (decode_rm_seg_register rh);;
       srcoffset <- run (decode_rm00_address rl);;
       srcval <- run (fetch_data_word srcoffset);;
       wr_s destreg srcval
   | 1 =>
       destreg <- run (decode_rm_seg_register rh);;
       srcoffset <- run (decode_rm01_address rl);;
       srcval <- run (fetch_data_word srcoffset);;
       wr_s destreg srcval
   | 2 =>
       destreg <- run (decode_rm_seg_register rh);;
       srcoffset <- run (decode_rm10_address rl);;
       srcval <- run (fetch_data_word srcoffset);;
       wr_s destreg srcval
   | 3 =>
       destreg <- run (decode_rm_seg_register rh);;
       srcreg <- run (decode_rm_word_register rl);;
       src <- rd_16 srcreg;;
       wr_s destreg src
   | _ => eret tt
   end);;
  run DECODE_CLEAR_SEGOVR.

Definition x86emuOp_pop_RM (op1 : Z) : Op unit :=
  modrm <- run fetch_decode_modrm;;
  let '(md, rh, rl) := modrm in
  (if negb (rh =? 0) then run HALT_SYS else eret tt);;
  (match md with
   | 0 =>
       m <- run (get mode);;
       if nz (Z.land m SYSMODE_PREFIX_DATA) then
         destoffset <- run (decode_rm00_address rl);;
         destval <- run pop_long;;
         run (store_data_long destoffset destval)
       else
         destoffset <- run (decode_rm00_address rl);;
         destval <- run pop_word;;
         run (store_data_word destoffset destval)
   | 1 =>
       m <- run (get mode);;
       if nz (Z.land m SYSMODE_PREFIX_DATA) then
         destoffset <- run (decode_rm01_address rl);;
         destval <- run pop_long;;
         run (store_data_long destoffset destval)
       else
         destoffset <- run (decode_rm01_address rl);;
         destval <- run pop_word;;
         run (store_data_word destoffset destval)
   | 2 =>
       m <- run (get mode);;
       if nz (Z.land m SYSMODE_PREFIX_DATA) then
         destoffset <- run (decode_rm10_address rl);;
         destval <- run pop_long;;
         run (store_data_long destoffset destval)
       else
         destoffset <- run (decode_rm10_address rl);;
         destval <- run pop_word;;
         run (store_data_word destoffset destval)
   | 3 =>
       m <- run (get mode);;
       if nz (Z.land m SYSMODE_PREFIX_DATA) then
         destreg <- run (decode_rm_long_register rl);;
         l <- run pop_long;;
         wr_32 destreg l
       else
         destreg <- run (decode_rm_word_register rl);;
         w <- run pop_word;;
         wr_16 destreg w
   | _ => eret tt
   end);;
  run DECODE_CLEAR_SEGOVR.

End Handlers.
