(* ===== verification/X86OpsStr.v ===== *)
(** * Opcodes 90 to BF

    Exchanges, conversions, strings and moves of immediate operands of [ops.c], each
    handler as a computation of [X86Ops], in the order of the source. *)
From Stdlib Require Import ZArith Lia List Bool.
From S2P Require Import Prelude X86Flags X86Alu X86Shift X86Machine X86Decode X86MulDiv X86Ops.
Import ListNotations.
Local Open Scope Z_scope.
Local Open Scope err_scope.

Section Handlers.
Context {W : Type} {sys : Sys W}.
Local Abbreviation Op := (Op W).

Definition x86emuOp_nop (op1 : Z) : Op unit :=
  run DECODE_CLEAR_SEGOVR.

Definition x86emuOp_xchg_word_AX_CX (op1 : Z) : Op unit :=
  m <- run (get mode);;
  (if nz (Z.land m SYSMODE_PREFIX_DATA) then
     tmp <- run (e_reg rA);;
     ecx <- run (e_reg rC);;
     run (set_e rA ecx);;
     run (set_e rC tmp)
   else
     tmp <- run (x_reg rA);;
     cx <- run (x_reg rC);;
     run (set_x rA cx);;
     run (set_x rC (u16 tmp)));;
  run DECODE_CLEAR_SEGOVR.

Definition x86emuOp_xchg_word_AX_DX (op1 : Z) : Op unit :=
  m <- run (get mode);;
  (if nz (Z.land m SYSMODE_PREFIX_DATA) then
     tmp <- run (e_reg rA);;
     edx <- run (e_reg rD);;
     run (set_e rA edx);;
     run (set_e rD tmp)
   else
     tmp <- run (x_reg rA);;
     dx <- run (x_reg rD);;
     run (set_x rA dx);;
     run (set_x rD (u16 tmp)));;
  run DECODE_CLEAR_SEGOVR.

Definition x86emuOp_xchg_word_AX_BX (op1 : Z) : Op unit :=
  m <- run (get mode);;
  (if nz (Z.land m SYSMODE_PREFIX_DATA) then
     tmp <- run (e_reg rA);;
     ebx <- run (e_reg rB);;
     run (set_e rA ebx);;
     run (set_e rB tmp)
   else
     tmp <- run (x_reg rA);;
     bx <- run (x_reg rB);;
     run (set_x rA bx);;
     run (set_x rB (u16 tmp)));;
  run DECODE_CLEAR_SEGOVR.

Definition x86emuOp_xchg_word_AX_SP (op1 : Z) : Op unit :=
  m <- run (get mode);;
  (if nz (Z.land m SYSMODE_PREFIX_DATA) then
     tmp <- run (e_reg rA);;
     esp <- run (e_reg rSP);;
     run (set_e rA esp);;
     run (set_e rSP tmp)
   else
     tmp <- run (x_reg rA);;
     sp <- run (x_reg rSP);;
     run (set_x rA sp);;
     run (set_x rSP (u16 tmp)));;
  run DECODE_CLEAR_SEGOVR.

Definition x86emuOp_xchg_word_AX_BP (op1 : Z) : Op unit :=
  m <- run (get mode);;
  (if nz (Z.land m SYSMODE_PREFIX_DATA) then
     tmp <- run (e_reg rA);;
     ebp <- run (e_reg rBP);;
     run (set_e rA ebp);;
     run (set_e rBP tmp)
   else
     tmp <- run (x_reg rA);;
     bp <- run (x_reg rBP);;
     run (set_x rA bp);;
     run (set_x rBP (u16 tmp)));;
  run DECODE_CLEAR_SEGOVR.

Definition x86emuOp_xchg_word_AX_SI (op1 : Z) : Op unit :=
  m <- run (get mode);;
  (if nz (Z.land m SYSMODE_PREFIX_DATA) then
     tmp <- run (e_reg rA);;
     esi <- run (e_reg rSI);;
     run (set_e rA esi);;
     run (set_e rSI tmp)
   else
     tmp <- run (x_reg rA);;
     si <- run (x_reg rSI);;
     run (set_x rA si);;
     run (set_x rSI (u16 tmp)));;
  run DECODE_CLEAR_SEGOVR.

Definition x86emuOp_xchg_word_AX_DI (op1 : Z) : Op unit :=
  m <- run (get mode);;
  (if nz (Z.land m SYSMODE_PREFIX_DATA) then
     tmp <- run (e_reg rA);;
     edi <- run (e_reg rDI);;
     run (set_e rA edi);;
     run (set_e rDI tmp)
   else
     tmp <- run (x_reg rA);;
     di <- run (x_reg rDI);;
     run (set_x rA di);;
     run (set_x rDI (u16 tmp)));;
  run DECODE_CLEAR_SEGOVR.

Definition x86emuOp_cbw (op1 : Z) : Op unit :=
  m <- run (get mode);;
  (if nz (Z.land m SYSMODE_PREFIX_DATA) then
     ax <- run (x_reg rA);;
     if nz (Z.land ax 0x8000) then
       eax <- run (e_reg rA);;
       run (set_e rA (Z.lor eax 0xffff0000))
     else
       eax <- run (e_reg rA);;
       run (set_e rA (Z.land eax 0x0000ffff))
   else
     al <- run (l_reg rA);;
     if nz (Z.land al 0x80) then run (set_h rA 0xff) else run (set_h rA 0x0));;
  run DECODE_CLEAR_SEGOVR.

Definition x86emuOp_cwd (op1 : Z) : Op unit :=
  m <- run (get mode);;
  (if nz (Z.land m SYSMODE_PREFIX_DATA) then
     eax <- run (e_reg rA);;
     if nz (Z.land eax 0x80000000) then run (set_e rD 0xffffffff) else run (set_e rD 0x0)
   else
     ax <- run (x_reg rA);;
     if nz (Z.land ax 0x8000) then run (set_x rD 0xffff) else run (set_x rD 0x0));;
  run DECODE_CLEAR_SEGOVR.

Definition x86emuOp_call_far_IMM (op1 : Z) : Op unit :=
  faroff <- run fetch_word_imm;;
  farseg <- run fetch_word_imm;;
  cs <- run (s_reg CS);;
  run (push_word cs);;
  run (set_s CS farseg);;
  ip <- run (x_reg rIP);;
  run (push_word ip);;
  run (set_x rIP faroff);;
  run DECODE_CLEAR_SEGOVR.

Definition x86emuOp_wait (op1 : Z) : Op unit :=
  run DECODE_CLEAR_SEGOVR.

Definition x86emuOp_pushf_word (op1 : Z) : Op unit :=
  flg <- run (get R_FLG);;
  let flags_ := Z.lor (Z.land flg F_MSK) F_ALWAYS_ON in
  m <- run (get mode);;
  (if nz (Z.land m SYSMODE_PREFIX_DATA) then run (push_long flags_) else run (push_word (u16 flags_)));;
  run DECODE_CLEAR_SEGOVR.

Definition x86emuOp_popf_word (op1 : Z) : Op unit :=
  m <- run (get mode);;
  (if nz (Z.land m SYSMODE_PREFIX_DATA) then
     l <- run pop_long;;
     run (put (fun m => upd_FLG m l))
   else
     w <- run pop_word;;
     run (put (fun m => upd_FLG m w)));;
  run DECODE_CLEAR_SEGOVR.

Definition x86emuOp_sahf (op1 : Z) : Op unit :=
  flg <- run (get R_FLG);;
  run (put (fun m => upd_FLG m (Z.land flg 0xffffff00)));;
  flg <- run (get R_FLG);;
  ah <- run (h_reg rA);;
  run (put (fun m => upd_FLG m (Z.lor flg ah)));;
  run DECODE_CLEAR_SEGOVR.

Definition x86emuOp_lahf (op1 : Z) : Op unit :=
  flg <- run (get R_FLG);;
  run (set_h rA (u8 (Z.land flg 0xff)));;
  ah <- run (h_reg rA);;
  run (set_h rA (Z.lor ah 0x2));;
  run DECODE_CLEAR_SEGOVR.

Definition x86emuOp_mov_AL_M_IMM (op1 : Z) : Op unit :=
  offset <- run fetch_word_imm;;
  b <- run (fetch_data_byte offset);;
  run (set_l rA b);;
  run DECODE_CLEAR_SEGOVR.

Definition x86emuOp_mov_AX_M_IMM (op1 : Z) : Op unit :=
  offset <- run fetch_word_imm;;
  m <- run (get mode);;
  (if nz (Z.land m SYSMODE_PREFIX_DATA) then
     l <- run (fetch_data_long offset);;
     run (set_e rA l)
   else
     w <- run (fetch_data_word offset);;
     run (set_x rA w));;
  run DECODE_CLEAR_SEGOVR.

Definition x86emuOp_mov_M_AL_IMM (op1 : Z) : Op unit :=
  offset <- run fetch_word_imm;;
  al <- run (l_reg rA);;
  run (store_data_byte offset al);;
  run DECODE_CLEAR_SEGOVR.

Definition x86emuOp_mov_M_AX_IMM (op1 : Z) : Op unit :=
  offset <- run fetch_word_imm;;
  m <- run (get mode);;
  (if nz (Z.land m SYSMODE_PREFIX_DATA) then
     eax <- run (e_reg rA);;
     run (store_data_long offset eax)
   else
     ax <- run (x_reg rA);;
     run (store_data_word offset ax));;
  run DECODE_CLEAR_SEGOVR.

Definition x86emuOp_movs_byte (op1 : Z) : Op unit :=
  df_ <- flags (ACCESS_FLAG F_DF);;
  inc <- (if df_ then eret (- 1) else eret 1);;
  let count := 1 in
  m <- run (get mode);;
  count <- (if nz (Z.land m (Z.lor SYSMODE_PREFIX_REPE SYSMODE_PREFIX_REPNE)) then
     count <- run (x_reg rC);;
     run (set_x rC 0);;
     run (set_mode (fun m => Z.ldiff m (Z.lor SYSMODE_PREFIX_REPE SYSMODE_PREFIX_REPNE)));;
     eret count
   else eret count);;
  count <- loop (S (Z.to_nat count)) (fun count =>
    if negb (count =? 0) then
      let count := u32 (count - 1) in
      si <- run (x_reg rSI);;
      val <- run (fetch_data_byte si);;
      es <- run (s_reg ES);;
      di <- run (x_reg rDI);;
      run (store_data_byte_abs es di val);;
      si <- run (x_reg rSI);;
      run (set_x rSI (si + inc));;
      di <- run (x_reg rDI);;
      run (set_x rDI (di + inc));;
      eret (false, count)
    else eret (true, count)) count;;
  run DECODE_CLEAR_SEGOVR.

Definition x86emuOp_movs_word (op1 : Z) : Op unit :=
  m <- run (get mode);;
  inc <- (if nz (Z.land m SYSMODE_PREFIX_DATA) then
     df_ <- flags (ACCESS_FLAG F_DF);;
     if df_ then eret (- 4) else eret 4
   else
     df_ <- flags (ACCESS_FLAG F_DF);;
     if df_ then eret (- 2) else eret 2);;
  let count := 1 in
  m <- run (get mode);;
  count <- (if nz (Z.land m (Z.lor SYSMODE_PREFIX_REPE SYSMODE_PREFIX_REPNE)) then
     count <- run (x_reg rC);;
     run (set_x rC 0);;
     run (set_mode (fun m => Z.ldiff m (Z.lor SYSMODE_PREFIX_REPE SYSMODE_PREFIX_REPNE)));;
     eret count
   else eret count);;
  count <- loop (S (Z.to_nat count)) (fun count =>
    if negb (count =? 0) then
      let count := u32 (count - 1) in
      m <- run (get mode);;
      (if nz (Z.land m SYSMODE_PREFIX_DATA) then
         si <- run (x_reg rSI);;
         val <- run (fetch_data_long si);;
         es <- run (s_reg ES);;
         di <- run (x_reg rDI);;
         run (store_data_long_abs es di val)
       else
         si <- run (x_reg rSI);;
         val <- run (fetch_data_word si);;
         es <- run (s_reg ES);;
         di <- run (x_reg rDI);;
         run (store_data_word_abs es di (u16 val)));;
      si <- run (x_reg rSI);;
      run (set_x rSI (si + inc));;
      di <- run (x_reg rDI);;
      run (set_x rDI (di + inc));;
      eret (false, count)
    else eret (true, count)) count;;
  run DECODE_CLEAR_SEGOVR.

Definition x86emuOp_cmps_byte (op1 : Z) : Op unit :=
  df_ <- flags (ACCESS_FLAG F_DF);;
  inc <- (if df_ then eret (- 1) else eret 1);;
  m <- run (get mode);;
  (if nz (Z.land m SYSMODE_PREFIX_REPE) then
     cx <- run (x_reg rC);;
     loop (S (Z.to_nat cx)) (fun _ =>
       cx <- run (x_reg rC);;
       if negb (cx =? 0) then
         si <- run (x_reg rSI);;
         b <- run (fetch_data_byte si);;
         let val1 := signed 8 b in
         es <- run (s_reg ES);;
         di <- run (x_reg rDI);;
         b <- run (fetch_data_byte_abs es di);;
         let val2 := signed 8 b in
         _ <- flags (cmp_byte (u8 val1) (u8 val2));;
         cx <- run (x_reg rC);;
         run (set_x rC (cx - 1));;
         si <- run (x_reg rSI);;
         run (set_x rSI (si + inc));;
         di <- run (x_reg rDI);;
         run (set_x rDI (di + inc));;
         zf_ <- flags (ACCESS_FLAG F_ZF);;
         if negb zf_ then eret (true, tt) else eret (false, tt)
       else eret (true, tt)) tt;;
     run (set_mode (fun m => Z.ldiff m SYSMODE_PREFIX_REPE))
   else
     m <- run (get mode);;
     if nz (Z.land m SYSMODE_PREFIX_REPNE) then
       cx <- run (x_reg rC);;
       loop (S (Z.to_nat cx)) (fun _ =>
         cx <- run (x_reg rC);;
         if negb (cx =? 0) then
           si <- run (x_reg rSI);;
           b <- run (fetch_data_byte si);;
           let val1 := signed 8 b in
           es <- run (s_reg ES);;
           di <- run (x_reg rDI);;
           b <- run (fetch_data_byte_abs es di);;
           let val2 := signed 8 b in
           _ <- flags (cmp_byte (u8 val1) (u8 val2));;
           cx <- run (x_reg rC);;
           run (set_x rC (cx - 1));;
           si <- run (x_reg rSI);;
           run (set_x rSI (si + inc));;
           di <- run (x_reg rDI);;
           run (set_x rDI (di + inc));;
           zf_ <- flags (ACCESS_FLAG F_ZF);;
           if zf_ then eret (true, tt) else eret (false, tt)
         else eret (true, tt)) tt;;
       run (set_mode (fun m => Z.ldiff m SYSMODE_PREFIX_REPNE))
     else
       si <- run (x_reg rSI);;
       b <- run (fetch_data_byte si);;
       let val1 := signed 8 b in
       es <- run (s_reg ES);;
       di <- run (x_reg rDI);;
       b <- run (fetch_data_byte_abs es di);;
       let val2 := signed 8 b in
       _ <- flags (cmp_byte (u8 val1) (u8 val2));;
       si <- run (x_reg rSI);;
       run (set_x rSI (si + inc));;
       di <- run (x_reg rDI);;
       run (set_x rDI (di + inc)));;
  run DECODE_CLEAR_SEGOVR.

Definition x86emuOp_cmps_word (op1 : Z) : Op unit :=
  m <- run (get mode);;
  inc <- (if nz (Z.land m SYSMODE_PREFIX_DATA) then
     df_ <- flags (ACCESS_FLAG F_DF);;
     if df_ then eret (- 4) else eret 4
   else
     df_ <- flags (ACCESS_FLAG F_DF);;
     if df_ then eret (- 2) else eret 2);;
  m <- run (get mode);;
  (if nz (Z.land m SYSMODE_PREFIX_REPE) then
     cx <- run (x_reg rC);;
     loop (S (Z.to_nat cx)) (fun _ =>
       cx <- run (x_reg rC);;
       if negb (cx =? 0) then
         m <- run (get mode);;
         (if nz (Z.land m SYSMODE_PREFIX_DATA) then
            si <- run (x_reg rSI);;
            val1 <- run (fetch_data_long si);;
            es <- run (s_reg ES);;
            di <- run (x_reg rDI);;
            val2 <- run (fetch_data_long_abs es di);;
            _ <- flags (cmp_long val1 val2);;
            eret tt
          else
            si <- run (x_reg rSI);;
            val1 <- run (fetch_data_word si);;
            es <- run (s_reg ES);;
            di <- run (x_reg rDI);;
            val2 <- run (fetch_data_word_abs es di);;
            _ <- flags (cmp_word (u16 val1) (u16 val2));;
            eret tt);;
         cx <- run (x_reg rC);;
         run (set_x rC (cx - 1));;
         si <- run (x_reg rSI);;
         run (set_x rSI (si + inc));;
         di <- run (x_reg rDI);;
         run (set_x rDI (di + inc));;
         zf_ <- flags (ACCESS_FLAG F_ZF);;
         if negb zf_ then eret (true, tt) else eret (false, tt)
       else eret (true, tt)) tt;;
     run (set_mode (fun m => Z.ldiff m SYSMODE_PREFIX_REPE))
   else
     m <- run (get mode);;
     if nz (Z.land m SYSMODE_PREFIX_REPNE) then
       cx <- run (x_reg rC);;
       loop (S (Z.to_nat cx)) (fun _ =>
         cx <- run (x_reg rC);;
         if negb (cx =? 0) then
           m <- run (get mode);;
           (if nz (Z.land m SYSMODE_PREFIX_DATA) then
              si <- run (x_reg rSI);;
              val1 <- run (fetch_data_long si);;
              es <- run (s_reg ES);;
              di <- run (x_reg rDI);;
              val2 <- run (fetch_data_long_abs es di);;
              _ <- flags (cmp_long val1 val2);;
              eret tt
            else
              si <- run (x_reg rSI);;
              val1 <- run (fetch_data_word si);;
              es <- run (s_reg ES);;
              di <- run (x_reg rDI);;
              val2 <- run (fetch_data_word_abs es di);;
              _ <- flags (cmp_word (u16 val1) (u16 val2));;
              eret tt);;
           cx <- run (x_reg rC);;
           run (set_x rC (cx - 1));;
           si <- run (x_reg rSI);;
           run (set_x rSI (si + inc));;
           di <- run (x_reg rDI);;
           run (set_x rDI (di + inc));;
           zf_ <- flags (ACCESS_FLAG F_ZF);;
           if zf_ then eret (true, tt) else eret (false, tt)
         else eret (true, tt)) tt;;
       run (set_mode (fun m => Z.ldiff m SYSMODE_PREFIX_REPNE))
     else
       m <- run (get mode);;
       (if nz (Z.land m SYSMODE_PREFIX_DATA) then
          si <- run (x_reg rSI);;
          val1 <- run (fetch_data_long si);;
          es <- run (s_reg ES);;
          di <- run (x_reg rDI);;
          val2 <- run (fetch_data_long_abs es di);;
          _ <- flags (cmp_long val1 val2);;
          eret tt
        else
          si <- run (x_reg rSI);;
          val1 <- run (fetch_data_word si);;
          es <- run (s_reg ES);;
          di <- run (x_reg rDI);;
          val2 <- run (fetch_data_word_abs es di);;
          _ <- flags (cmp_word (u16 val1) (u16 val2));;
          eret tt);;
       si <- run (x_reg rSI);;
       run (set_x rSI (si + inc));;
       di <- run (x_reg rDI);;
       run (set_x rDI (di + inc)));;
  run DECODE_CLEAR_SEGOVR.

Definition x86emuOp_test_AL_IMM (op1 : Z) : Op unit :=
  imm <- run fetch_byte_imm;;
  al <- run (l_reg rA);;
  flags (test_byte al (u8 imm));;
  run DECODE_CLEAR_SEGOVR.

Definition x86emuOp_test_AX_IMM (op1 : Z) : Op unit :=
  m <- run (get mode);;
  srcval <- (if nz (Z.land m SYSMODE_PREFIX_DATA) then run fetch_long_imm else run fetch_word_imm);;
  m <- run (get mode);;
  (if nz (Z.land m SYSMODE_PREFIX_DATA) then
     eax <- run (e_reg rA);;
     flags (test_long eax srcval)
   else
     ax <- run (x_reg rA);;
     flags (test_word ax (u16 srcval)));;
  run DECODE_CLEAR_SEGOVR.

Definition x86emuOp_stos_byte (op1 : Z) : Op unit :=
  df_ <- flags (ACCESS_FLAG F_DF);;
  inc <- (if df_ then eret (- 1) else eret 1);;
  m <- run (get mode);;
  (if nz (Z.land m (Z.lor SYSMODE_PREFIX_REPE SYSMODE_PREFIX_REPNE)) then
     cx <- run (x_reg rC);;
     loop (S (Z.to_nat cx)) (fun _ =>
       cx <- run (x_reg rC);;
       if negb (cx =? 0) then
         es <- run (s_reg ES);;
         di <- run (x_reg rDI);;
         al <- run (l_reg rA);;
         run (store_data_byte_abs es di al);;
         cx <- run (x_reg rC);;
         run (set_x rC (cx - 1));;
         di <- run (x_reg rDI);;
         run (set_x rDI (di + inc));;
         eret (false, tt)
       else eret (true, tt)) tt;;
     run (set_mode (fun m => Z.ldiff m (Z.lor SYSMODE_PREFIX_REPE SYSMODE_PREFIX_REPNE)))
   else
     es <- run (s_reg ES);;
     di <- run (x_reg rDI);;
     al <- run (l_reg rA);;
     run (store_data_byte_abs es di al);;
     di <- run (x_reg rDI);;
     run (set_x rDI (di + inc)));;
  run DECODE_CLEAR_SEGOVR.

Definition x86emuOp_stos_word (op1 : Z) : Op unit :=
  m <- run (get mode);;
  inc <- (if nz (Z.land m SYSMODE_PREFIX_DATA) then
     df_ <- flags (ACCESS_FLAG F_DF);;
     if df_ then eret (- 4) else eret 4
   else
     df_ <- flags (ACCESS_FLAG F_DF);;
     if df_ then eret (- 2) else eret 2);;
  let count := 1 in
  m <- run (get mode);;
  count <- (if nz (Z.land m (Z.lor SYSMODE_PREFIX_REPE SYSMODE_PREFIX_REPNE)) then
     count <- run (x_reg rC);;
     run (set_x rC 0);;
     run (set_mode (fun m => Z.ldiff m (Z.lor SYSMODE_PREFIX_REPE SYSMODE_PREFIX_REPNE)));;
     eret count
   else eret count);;
  count <- loop (S (Z.to_nat count)) (fun count =>
    if negb (count =? 0) then
      let count := u32 (count - 1) in
      m <- run (get mode);;
      (if nz (Z.land m SYSMODE_PREFIX_DATA) then
         es <- run (s_reg ES);;
         di <- run (x_reg rDI);;
         eax <- run (e_reg rA);;
         run (store_data_long_abs es di eax)
       else
         es <- run (s_reg ES);;
         di <- run (x_reg rDI);;
         ax <- run (x_reg rA);;
         run (store_data_word_abs es di ax));;
      di <- run (x_reg rDI);;
      run (set_x rDI (di + inc));;
      eret (false, count)
    else eret (true, count)) count;;
  run DECODE_CLEAR_SEGOVR.

Definition x86emuOp_lods_byte (op1 : Z) : Op unit :=
  df_ <- flags (ACCESS_FLAG F_DF);;
  inc <- (if df_ then eret (- 1) else eret 1);;
  m <- run (get mode);;
  (if nz (Z.land m (Z.lor SYSMODE_PREFIX_REPE SYSMODE_PREFIX_REPNE)) then
     cx <- run (x_reg rC);;
     loop (S (Z.to_nat cx)) (fun _ =>
       cx <- run (x_reg rC);;
       if negb (cx =? 0) then
         si <- run (x_reg rSI);;
         b <- run (fetch_data_byte si);;
         run (set_l rA b);;
         cx <- run (x_reg rC);;
         run (set_x rC (cx - 1));;
         si <- run (x_reg rSI);;
         run (set_x rSI (si + inc));;
         eret (false, tt)
       else eret (true, tt)) tt;;
     run (set_mode (fun m => Z.ldiff m (Z.lor SYSMODE_PREFIX_REPE SYSMODE_PREFIX_REPNE)))
   else
     si <- run (x_reg rSI);;
     b <- run (fetch_data_byte si);;
     run (set_l rA b);;
     si <- run (x_reg rSI);;
     run (set_x rSI (si + inc)));;
  run DECODE_CLEAR_SEGOVR.

Definition x86emuOp_lods_word (op1 : Z) : Op unit :=
  m <- run (get mode);;
  inc <- (if nz (Z.land m SYSMODE_PREFIX_DATA) then
     df_ <- flags (ACCESS_FLAG F_DF);;
     if df_ then eret (- 4) else eret 4
   else
     df_ <- flags (ACCESS_FLAG F_DF);;
     if df_ then eret (- 2) else eret 2);;
  let count := 1 in
  m <- run (get mode);;
  count <- (if nz (Z.land m (Z.lor SYSMODE_PREFIX_REPE SYSMODE_PREFIX_REPNE)) then
     count <- run (x_reg rC);;
     run (set_x rC 0);;
     run (set_mode (fun m => Z.ldiff m (Z.lor SYSMODE_PREFIX_REPE SYSMODE_PREFIX_REPNE)));;
     eret count
   else eret count);;
  count <- loop (S (Z.to_nat count)) (fun count =>
    if negb (count =? 0) then
      let count := u32 (count - 1) in
      m <- run (get mode);;
      (if nz (Z.land m SYSMODE_PREFIX_DATA) then
         si <- run (x_reg rSI);;
         l <- run (fetch_data_long si);;
         run (set_e rA l)
       else
         si <- run (x_reg rSI);;
         w <- run (fetch_data_word si);;
         run (set_x rA w));;
      si <- run (x_reg rSI);;
      run (set_x rSI (si + inc));;
      eret (false, count)
    else eret (true, count)) count;;
  run DECODE_CLEAR_SEGOVR.

Definition x86emuOp_scas_byte (op1 : Z) : Op unit :=
  df_ <- flags (ACCESS_FLAG F_DF);;
  inc <- (if df_ then eret (- 1) else eret 1);;
  m <- run (get mode);;
  (if nz (Z.land m SYSMODE_PREFIX_REPE) then
     cx <- run (x_reg rC);;
     loop (S (Z.to_nat cx)) (fun _ =>
       cx <- run (x_reg rC);;
       if negb (cx =? 0) then
         es <- run (s_reg ES);;
         di <- run (x_reg rDI);;
         b <- run (fetch_data_byte_abs es di);;
         let val2 := signed 8 b in
         al <- run (l_reg rA);;
         _ <- flags (cmp_byte al (u8 val2));;
         cx <- run (x_reg rC);;
         run (set_x rC (cx - 1));;
         di <- run (x_reg rDI);;
         run (set_x rDI (di + inc));;
         zf_ <- flags (ACCESS_FLAG F_ZF);;
         if negb zf_ then eret (true, tt) else eret (false, tt)
       else eret (true, tt)) tt;;
     run (set_mode (fun m => Z.ldiff m SYSMODE_PREFIX_REPE))
   else
     m <- run (get mode);;
     if nz (Z.land m SYSMODE_PREFIX_REPNE) then
       cx <- run (x_reg rC);;
       loop (S (Z.to_nat cx)) (fun _ =>
         cx <- run (x_reg rC);;
         if negb (cx =? 0) then
           es <- run (s_reg ES);;
           di <- run (x_reg rDI);;
           b <- run (fetch_data_byte_abs es di);;
           let val2 := signed 8 b in
           al <- run (l_reg rA);;
           _ <- flags (cmp_byte al (u8 val2));;
           cx <- run (x_reg rC);;
           run (set_x rC (cx - 1));;
           di <- run (x_reg rDI);;
           run (set_x rDI (di + inc));;
           zf_ <- flags (ACCESS_FLAG F_ZF);;
           if zf_ then eret (true, tt) else eret (false, tt)
         else eret (true, tt)) tt;;
       run (set_mode (fun m => Z.ldiff m SYSMODE_PREFIX_REPNE))
     else
       es <- run (s_reg ES);;
       di <- run (x_reg rDI);;
       b <- run (fetch_data_byte_abs es di);;
       let val2 := signed 8 b in
       al <- run (l_reg rA);;
       _ <- flags (cmp_byte al (u8 val2));;
       di <- run (x_reg rDI);;
       run (set_x rDI (di + inc)));;
  run DECODE_CLEAR_SEGOVR.

Definition x86emuOp_scas_word (op1 : Z) : Op unit :=
  m <- run (get mode);;
  inc <- (if nz (Z.land m SYSMODE_PREFIX_DATA) then
     df_ <- flags (ACCESS_FLAG F_DF);;
     if df_ then eret (- 4) else eret 4
   else
     df_ <- flags (ACCESS_FLAG F_DF);;
     if df_ then eret (- 2) else eret 2);;
  m <- run (get mode);;
  (if nz (Z.land m SYSMODE_PREFIX_REPE) then
     cx <- run (x_reg rC);;
     loop (S (Z.to_nat cx)) (fun _ =>
       cx <- run (x_reg rC);;
       if negb (cx =? 0) then
         m <- run (get mode);;
         (if nz (Z.land m SYSMODE_PREFIX_DATA) then
            es <- run (s_reg ES);;
            di <- run (x_reg rDI);;
            val <- run (fetch_data_long_abs es di);;
            eax <- run (e_reg rA);;
            _ <- flags (cmp_long eax val);;
            eret tt
          else
            es <- run (s_reg ES);;
            di <- run (x_reg rDI);;
            val <- run (fetch_data_word_abs es di);;
            ax <- run (x_reg rA);;
            _ <- flags (cmp_word ax (u16 val));;
            eret tt);;
         cx <- run (x_reg rC);;
         run (set_x rC (cx - 1));;
         di <- run (x_reg rDI);;
         run (set_x rDI (di + inc));;
         zf_ <- flags (ACCESS_FLAG F_ZF);;
         if negb zf_ then eret (true, tt) else eret (false, tt)
       else eret (true, tt)) tt;;
     run (set_mode (fun m => Z.ldiff m SYSMODE_PREFIX_REPE))
   else
     m <- run (get mode);;
     if nz (Z.land m SYSMODE_PREFIX_REPNE) then
       cx <- run (x_reg rC);;
       loop (S (Z.to_nat cx)) (fun _ =>
         cx <- run (x_reg rC);;
         if negb (cx =? 0) then
           m <- run (get mode);;
           (if nz (Z.land m SYSMODE_PREFIX_DATA) then
              es <- run (s_reg ES);;
              di <- run (x_reg rDI);;
              val <- run (fetch_data_long_abs es di);;
              eax <- run (e_reg rA);;
              _ <- flags (cmp_long eax val);;
              eret tt
            else
              es <- run (s_reg ES);;
              di <- run (x_reg rDI);;
              val <- run (fetch_data_word_abs es di);;
              ax <- run (x_reg rA);;
              _ <- flags (cmp_word ax (u16 val));;
              eret tt);;
           cx <- run (x_reg rC);;
           run (set_x rC (cx - 1));;
           di <- run (x_reg rDI);;
           run (set_x rDI (di + inc));;
           zf_ <- flags (ACCESS_FLAG F_ZF);;
           if zf_ then eret (true, tt) else eret (false, tt)
         else eret (true, tt)) tt;;
       run (set_mode (fun m => Z.ldiff m SYSMODE_PREFIX_REPNE))
     else
       m <- run (get mode);;
       (if nz (Z.land m SYSMODE_PREFIX_DATA) then
          es <- run (s_reg ES);;
          di <- run (x_reg rDI);;
          val <- run (fetch_data_long_abs es di);;
          eax <- run (e_reg rA);;
          _ <- flags (cmp_long eax val);;
          eret tt
        else
          es <- run (s_reg ES);;
          di <- run (x_reg rDI);;
          val <- run (fetch_data_word_abs es di);;
          ax <- run (x_reg rA);;
          _ <- flags (cmp_word ax (u16 val));;
          eret tt);;
       di <- run (x_reg rDI);;
       run (set_x rDI (di + inc)));;
  run DECODE_CLEAR_SEGOVR.

Definition x86emuOp_mov_byte_AL_IMM (op1 : Z) : Op unit :=
  imm <- run fetch_byte_imm;;
  run (set_l rA imm);;
  run DECODE_CLEAR_SEGOVR.

Definition x86emuOp_mov_byte_CL_IMM (op1 : Z) : Op unit :=
  imm <- run fetch_byte_imm;;
  run (set_l rC imm);;
  run DECODE_CLEAR_SEGOVR.

Definition x86emuOp_mov_byte_DL_IMM (op1 : Z) : Op unit :=
  imm <- run fetch_byte_imm;;
  run (set_l rD imm);;
  run DECODE_CLEAR_SEGOVR.

Definition x86emuOp_mov_byte_BL_IMM (op1 : Z) : Op unit :=
  imm <- run fetch_byte_imm;;
  run (set_l rB imm);;
  run DECODE_CLEAR_SEGOVR.

Definition x86emuOp_mov_byte_AH_IMM (op1 : Z) : Op unit :=
  imm <- run fetch_byte_imm;;
  run (set_h rA imm);;
  run DECODE_CLEAR_SEGOVR.

Definition x86emuOp_mov_byte_CH_IMM (op1 : Z) : Op unit :=
  imm <- run fetch_byte_imm;;
  run (set_h rC imm);;
  run DECODE_CLEAR_SEGOVR.

Definition x86emuOp_mov_byte_DH_IMM (op1 : Z) : Op unit :=
  imm <- run fetch_byte_imm;;
  run (set_h rD imm);;
  run DECODE_CLEAR_SEGOVR.

Definition x86emuOp_mov_byte_BH_IMM (op1 : Z) : Op unit :=
  imm <- run fetch_byte_imm;;
  run (set_h rB imm);;
  run DECODE_CLEAR_SEGOVR.

Definition x86emuOp_mov_word_AX_IMM (op1 : Z) : Op unit :=
  m <- run (get mode);;
  srcval <- (if nz (Z.land m SYSMODE_PREFIX_DATA) then run fetch_long_imm else run fetch_word_imm);;
  m <- run (get mode);;
  (if nz (Z.land m SYSMODE_PREFIX_DATA) then run (set_e rA srcval) else run (set_x rA (u16 srcval)));;
  run DECODE_CLEAR_SEGOVR.

Definition x86emuOp_mov_word_CX_IMM (op1 : Z) : Op unit :=
  m <- run (get mode);;
  srcval <- (if nz (Z.land m SYSMODE_PREFIX_DATA) then run fetch_long_imm else run fetch_word_imm);;
  m <- run (get mode);;
  (if nz (Z.land m SYSMODE_PREFIX_DATA) then run (set_e rC srcval) else run (set_x rC (u16 srcval)));;
  run DECODE_CLEAR_SEGOVR.

Definition x86emuOp_mov_word_DX_IMM (op1 : Z) : Op unit :=
  m <- run (get mode);;
  srcval <- (if nz (Z.land m SYSMODE_PREFIX_DATA) then run fetch_long_imm else run fetch_word_imm);;
  m <- run (get mode);;
  (if nz (Z.land m SYSMODE_PREFIX_DATA) then run (set_e rD srcval) else run (set_x rD (u16 srcval)));;
  run DECODE_CLEAR_SEGOVR.

Definition x86emuOp_mov_word_BX_IMM (op1 : Z) : Op unit :=
  m <- run (get mode);;
  srcval <- (if nz (Z.land m SYSMODE_PREFIX_DATA) then run fetch_long_imm else run fetch_word_imm);;
  m <- run (get mode);;
  (if nz (Z.land m SYSMODE_PREFIX_DATA) then run (set_e rB srcval) else run (set_x rB (u16 srcval)));;
  run DECODE_CLEAR_SEGOVR.

Definition x86emuOp_mov_word_SP_IMM (op1 : Z) : Op unit :=
  m <- run (get mode);;
  srcval <- (if nz (Z.land m SYSMODE_PREFIX_DATA) then run fetch_long_imm else run fetch_word_imm);;
  m <- run (get mode);;
  (if nz (Z.land m SYSMODE_PREFIX_DATA) then run (set_e rSP srcval) else run (set_x rSP (u16 srcval)));;
  run DECODE_CLEAR_SEGOVR.

Definition x86emuOp_mov_word_BP_IMM (op1 : Z) : Op unit :=
  m <- run (get mode);;
  srcval <- (if nz (Z.land m SYSMODE_PREFIX_DATA) then run fetch_long_imm else run fetch_word_imm);;
  m <- run (get mode);;
  (if nz (Z.land m SYSMODE_PREFIX_DATA) then run (set_e rBP srcval) else run (set_x rBP (u16 srcval)));;
  run DECODE_CLEAR_SEGOVR.

Definition x86emuOp_mov_word_SI_IMM (op1 : Z) : Op unit :=
  m <- run (get mode);;
  srcval <- (if nz (Z.land m SYSMODE_PREFIX_DATA) then run fetch_long_imm else run fetch_word_imm);;
  m <- run (get mode);;
  (if nz (Z.land m SYSMODE_PREFIX_DATA) then run (set_e rSI srcval) else run (set_x rSI (u16 srcval)));;
  run DECODE_CLEAR_SEGOVR.

Definition x86emuOp_mov_word_DI_IMM (op1 : Z) : Op unit :=
  m <- run (get mode);;
  srcval <- (if nz (Z.land m SYSMODE_PREFIX_DATA) then run fetch_long_imm else run fetch_word_imm);;
  m <- run (get mode);;
  (if nz (Z.land m SYSMODE_PREFIX_DATA) then run (set_e rDI srcval) else run (set_x rDI (u16 srcval)));;
  run DECODE_CLEAR_SEGOVR.

End Handlers.
