(* ===== verification/X86OpsCtl.v ===== *)
(** * Opcodes C0 to FF

    Shifts, calls, interrupts, loops, ports and the groups of [ops.c], each
    handler as a computation of [X86Ops], in the order of the source. *)
From Stdlib Require Import ZArith Lia List Bool.
From S2P Require Import Prelude X86Flags X86Alu X86Shift X86Machine X86Decode X86MulDiv X86Ops.
Import ListNotations.
Local Open Scope Z_scope.
Local Open Scope err_scope.

Section Handlers.
Context {W : Type} {sys : Sys W}.
Local Abbreviation Op := (Op W).
(** [_X86EMU_intrTab]: the handlers the embedding program installs. *)
Variable intrTab : Z -> option (Z -> Run W unit).

Definition opcD0_byte_operation : list (Z -> Z -> Flags Z) :=
  [rol_byte; ror_byte; rcl_byte; rcr_byte; shl_byte; shr_byte; shl_byte; sar_byte].

Definition x86emuOp_opcC0_byte_RM_MEM (op1 : Z) : Op unit :=
  modrm <- run fetch_decode_modrm;;
  let '(md, rh, rl) := modrm in
  (match md with
   | 0 =>
       destoffset <- run (decode_rm00_address rl);;
       amt <- run fetch_byte_imm;;
       destval <- run (fetch_data_byte destoffset);;
       op <- entry opcD0_byte_operation rh;;
       destval <- flags (op destval amt);;
       run (store_data_byte destoffset destval)
   | 1 =>
       destoffset <- run (decode_rm01_address rl);;
       amt <- run fetch_byte_imm;;
       destval <- run (fetch_data_byte destoffset);;
       op <- entry opcD0_byte_operation rh;;
       destval <- flags (op destval amt);;
       run (store_data_byte destoffset destval)
   | 2 =>
       destoffset <- run (decode_rm10_address rl);;
       amt <- run fetch_byte_imm;;
       destval <- run (fetch_data_byte destoffset);;
       op <- entry opcD0_byte_operation rh;;
       destval <- flags (op destval amt);;
       run (store_data_byte destoffset destval)
   | 3 =>
       destreg <- run (decode_rm_byte_register rl);;
       amt <- run fetch_byte_imm;;
       dst <- rd_8 destreg;;
       op <- entry opcD0_byte_operation rh;;
       destval <- flags (op dst amt);;
       wr_8 destreg destval
   | _ => eret tt
   end);;
  run DECODE_CLEAR_SEGOVR.

Definition opcD1_word_operation : list (Z -> Z -> Flags Z) :=
  [rol_word; ror_word; rcl_word; rcr_word; shl_word; shr_word; shl_word; sar_word].

Definition opcD1_long_operation : list (Z -> Z -> Flags Z) :=
  [rol_long; ror_long; rcl_long; rcr_long; shl_long; shr_long; shl_long; sar_long].

Definition x86emuOp_opcC1_word_RM_MEM (op1 : Z) : Op unit :=
  modrm <- run fetch_decode_modrm;;
  let '(md, rh, rl) := modrm in
  (match md with
   | 0 =>
       m <- run (get mode);;
       if nz (Z.land m SYSMODE_PREFIX_DATA) then
         destoffset <- run (decode_rm00_address rl);;
         amt <- run fetch_byte_imm;;
         destval <- run (fetch_data_long destoffset);;
         op <- entry opcD1_long_operation rh;;
         destval <- flags (op destval amt);;
         run (store_data_long destoffset destval)
       else
         destoffset <- run (decode_rm00_address rl);;
         amt <- run fetch_byte_imm;;
         destval <- run (fetch_data_word destoffset);;
         op <- entry opcD1_word_operation rh;;
         destval <- flags (op destval amt);;
         run (store_data_word destoffset destval)
   | 1 =>
       m <- run (get mode);;
       if nz (Z.land m SYSMODE_PREFIX_DATA) then
         destoffset <- run (decode_rm01_address rl);;
         amt <- run fetch_byte_imm;;
         destval <- run (fetch_data_long destoffset);;
         op <- entry opcD1_long_operation rh;;
         destval <- flags (op destval amt);;
         run (store_data_long destoffset destval)
       else
         destoffset <- run (decode_rm01_address rl);;
         amt <- run fetch_byte_imm;;
         destval <- run (fetch_data_word destoffset);;
         op <- entry opcD1_word_operation rh;;
         destval <- flags (op destval amt);;
         run (store_data_word destoffset destval)
   | 2 =>
       m <- run (get mode);;
       if nz (Z.land m SYSMODE_PREFIX_DATA) then
         destoffset <- run (decode_rm10_address rl);;
         amt <- run fetch_byte_imm;;
         destval <- run (fetch_data_long destoffset);;
         op <- entry opcD1_long_operation rh;;
         destval <- flags (op destval amt);;
         run (store_data_long destoffset destval)
       else
         destoffset <- run (decode_rm10_address rl);;
         amt <- run fetch_byte_imm;;
         destval <- run (fetch_data_word destoffset);;
         op <- entry opcD1_word_operation rh;;
         destval <- flags (op destval amt);;
         run (store_data_word destoffset destval)
   | 3 =>
       m <- run (get mode);;
       if nz (Z.land m SYSMODE_PREFIX_DATA) then
         destreg <- run (decode_rm_long_register rl);;
         amt <- run fetch_byte_imm;;
         dst <- rd_32 destreg;;
         op <- entry opcD1_long_operation rh;;
         l <- flags (op dst amt);;
         wr_32 destreg l
       else
         destreg <- run (decode_rm_word_register rl);;
         amt <- run fetch_byte_imm;;
         dst <- rd_16 destreg;;
         op <- entry opcD1_word_operation rh;;
         w <- flags (op dst amt);;
         wr_16 destreg w
   | _ => eret tt
   end);;
  run DECODE_CLEAR_SEGOVR.

Definition x86emuOp_ret_near_IMM (op1 : Z) : Op unit :=
  imm <- run fetch_word_imm;;
  w <- run pop_word;;
  run (set_x rIP w);;
  sp <- run (x_reg rSP);;
  run (set_x rSP (sp + imm));;
  run DECODE_CLEAR_SEGOVR.

Definition x86emuOp_ret_near (op1 : Z) : Op unit :=
  w <- run pop_word;;
  run (set_x rIP w);;
  run DECODE_CLEAR_SEGOVR.

Definition x86emuOp_les_R_IMM (op1 : Z) : Op unit :=
  modrm <- run fetch_decode_modrm;;
  let '(md, rh, rl) := modrm in
  (match md with
   | 0 =>
       dstreg <- run (decode_rm_word_register rh);;
       srcoffset <- run (decode_rm00_address rl);;
       w <- run (fetch_data_word srcoffset);;
       wr_16 dstreg w;;
       w <- run (fetch_data_word (u32 (srcoffset + 2)));;
       run (set_s ES w)
   | 1 =>
       dstreg <- run (decode_rm_word_register rh);;
       srcoffset <- run (decode_rm01_address rl);;
       w <- run (fetch_data_word srcoffset);;
       wr_16 dstreg w;;
       w <- run (fetch_data_word (u32 (srcoffset + 2)));;
       run (set_s ES w)
   | 2 =>
       dstreg <- run (decode_rm_word_register rh);;
       srcoffset <- run (decode_rm10_address rl);;
       w <- run (fetch_data_word srcoffset);;
       wr_16 dstreg w;;
       w <- run (fetch_data_word (u32 (srcoffset + 2)));;
       run (set_s ES w)
   | 3 => eret tt
   | _ => eret tt
   end);;
  run DECODE_CLEAR_SEGOVR.

Definition x86emuOp_lds_R_IMM (op1 : Z) : Op unit :=
  modrm <- run fetch_decode_modrm;;
  let '(md, rh, rl) := modrm in
  (match md with
   | 0 =>
       dstreg <- run (decode_rm_word_register rh);;
       srcoffset <- run (decode_rm00_address rl);;
       w <- run (fetch_data_word srcoffset);;
       wr_16 dstreg w;;
       w <- run (fetch_data_word (u32 (srcoffset + 2)));;
       run (set_s DS w)
   | 1 =>
       dstreg <- run (decode_rm_word_register rh);;
       srcoffset <- run (decode_rm01_address rl);;
       w <- run (fetch_data_word srcoffset);;
       wr_16 dstreg w;;
       w <- run (fetch_data_word (u32 (srcoffset + 2)));;
       run (set_s DS w)
   | 2 =>
       dstreg <- run (decode_rm_word_register rh);;
       srcoffset <- run (decode_rm10_address rl);;
       w <- run (fetch_data_word srcoffset);;
       wr_16 dstreg w;;
       w <- run (fetch_data_word (u32 (srcoffset + 2)));;
       run (set_s DS w)
   | 3 => eret tt
   | _ => eret tt
   end);;
  run DECODE_CLEAR_SEGOVR.

Definition x86emuOp_mov_byte_RM_IMM (op1 : Z) : Op unit :=
  modrm <- run fetch_decode_modrm;;
  let '(md, rh, rl) := modrm in
  (if negb (rh =? 0) then run HALT_SYS else eret tt);;
  (match md with
   | 0 =>
       destoffset <- run (decode_rm00_address rl);;
       imm <- run fetch_byte_imm;;
       run (store_data_byte destoffset imm)
   | 1 =>
       destoffset <- run (decode_rm01_address rl);;
       imm <- run fetch_byte_imm;;
       run (store_data_byte destoffset imm)
   | 2 =>
       destoffset <- run (decode_rm10_address rl);;
       imm <- run fetch_byte_imm;;
       run (store_data_byte destoffset imm)
   | 3 =>
       destreg <- run (decode_rm_byte_register rl);;
       imm <- run fetch_byte_imm;;
       wr_8 destreg imm
   | _ => eret tt
   end);;
  run DECODE_CLEAR_SEGOVR.

Definition x86emuOp_mov_word_RM_IMM (op1 : Z) : Op unit :=
  modrm <- run fetch_decode_modrm;;
  let '(md, rh, rl) := modrm in
  (if negb (rh =? 0) then run HALT_SYS else eret tt);;
  (match md with
   | 0 =>
       m <- run (get mode);;
       if nz (Z.land m SYSMODE_PREFIX_DATA) then
         destoffset <- run (decode_rm00_address rl);;
         imm <- run fetch_long_imm;;
         run (store_data_long destoffset imm)
       else
         destoffset <- run (decode_rm00_address rl);;
         imm <- run fetch_word_imm;;
         run (store_data_word destoffset imm)
   | 1 =>
       m <- run (get mode);;
       if nz (Z.land m SYSMODE_PREFIX_DATA) then
         destoffset <- run (decode_rm01_address rl);;
         imm <- run fetch_long_imm;;
         run (store_data_long destoffset imm)
       else
         destoffset <- run (decode_rm01_address rl);;
         imm <- run fetch_word_imm;;
         run (store_data_word destoffset imm)
   | 2 =>
       m <- run (get mode);;
       if nz (Z.land m SYSMODE_PREFIX_DATA) then
         destoffset <- run (decode_rm10_address rl);;
         imm <- run fetch_long_imm;;
         run (store_data_long destoffset imm)
       else
         destoffset <- run (decode_rm10_address rl);;
         imm <- run fetch_word_imm;;
         run (store_data_word destoffset imm)
   | 3 =>
       m <- run (get mode);;
       if nz (Z.land m SYSMODE_PREFIX_DATA) then
         destreg <- run (decode_rm_long_register rl);;
         imm <- run fetch_long_imm;;
         wr_32 destreg imm
       else
         destreg <- run (decode_rm_word_register rl);;
         imm <- run fetch_word_imm;;
         wr_16 destreg imm
   | _ => eret tt
   end);;
  run DECODE_CLEAR_SEGOVR.

Definition x86emuOp_enter (op1 : Z) : Op unit :=
  local <- run fetch_word_imm;;
  nesting <- run fetch_byte_imm;;
  bp <- run (x_reg rBP);;
  run (push_word bp);;
  frame_pointer <- run (x_reg rSP);;
  (if 0 <? nesting then
     let i := 1 in
     i <- loop (Z.to_nat nesting) (fun i =>
       if i <? nesting then
         bp <- run (x_reg rBP);;
         run (set_x rBP (bp - 2));;
         ss <- run (s_reg SS);;
         bp <- run (x_reg rBP);;
         w <- run (fetch_data_word_abs ss bp);;
         run (push_word w);;
         let i := i + 1 in
         eret (false, i)
       else eret (true, i)) i;;
     run (push_word frame_pointer)
   else eret tt);;
  run (set_x rBP frame_pointer);;
  sp <- run (x_reg rSP);;
  run (set_x rSP (u16 (sp - local)));;
  run DECODE_CLEAR_SEGOVR.

Definition x86emuOp_leave (op1 : Z) : Op unit :=
  bp <- run (x_reg rBP);;
  run (set_x rSP bp);;
  w <- run pop_word;;
  run (set_x rBP w);;
  run DECODE_CLEAR_SEGOVR.

Definition x86emuOp_ret_far_IMM (op1 : Z) : Op unit :=
  imm <- run fetch_word_imm;;
  w <- run pop_word;;
  run (set_x rIP w);;
  w <- run pop_word;;
  run (set_s CS w);;
  sp <- run (x_reg rSP);;
  run (set_x rSP (sp + imm));;
  run DECODE_CLEAR_SEGOVR.

Definition x86emuOp_ret_far (op1 : Z) : Op unit :=
  w <- run pop_word;;
  run (set_x rIP w);;
  w <- run pop_word;;
  run (set_s CS w);;
  run DECODE_CLEAR_SEGOVR.

Definition x86emuOp_int3 (op1 : Z) : Op unit :=
  (match intrTab 3 with
   | Some f => run (f 3)
   | None =>
       flg <- run (get R_FLG);;
       run (push_word (u16 flg));;
       flags (CLEAR_FLAG F_IF);;
       flags (CLEAR_FLAG F_TF);;
       cs <- run (s_reg CS);;
       run (push_word cs);;
       w <- run (mem_access_word ((3 * 4) + 2));;
       run (set_s CS w);;
       ip <- run (x_reg rIP);;
       run (push_word ip);;
       w <- run (mem_access_word (3 * 4));;
       run (set_x rIP w)
   end);;
  run DECODE_CLEAR_SEGOVR.

Definition x86emuOp_int_IMM (op1 : Z) : Op unit :=
  intnum <- run fetch_byte_imm;;
  (match intrTab intnum with
   | Some f => run (f intnum)
   | None =>
       flg <- run (get R_FLG);;
       run (push_word (u16 flg));;
       flags (CLEAR_FLAG F_IF);;
       flags (CLEAR_FLAG F_TF);;
       cs <- run (s_reg CS);;
       run (push_word cs);;
       w <- run (mem_access_word ((intnum * 4) + 2));;
       run (set_s CS w);;
       ip <- run (x_reg rIP);;
       run (push_word ip);;
       w <- run (mem_access_word (intnum * 4));;
       run (set_x rIP w)
   end);;
  run DECODE_CLEAR_SEGOVR.

Definition x86emuOp_into (op1 : Z) : Op unit :=
  of_ <- flags (ACCESS_FLAG F_OF);;
  (if of_ then
     match intrTab 4 with
     | Some f => run (f 4)
     | None =>
         flg <- run (get R_FLG);;
         run (push_word (u16 flg));;
         flags (CLEAR_FLAG F_IF);;
         flags (CLEAR_FLAG F_TF);;
         cs <- run (s_reg CS);;
         run (push_word cs);;
         w <- run (mem_access_word ((4 * 4) + 2));;
         run (set_s CS w);;
         ip <- run (x_reg rIP);;
         run (push_word ip);;
         w <- run (mem_access_word (4 * 4));;
         run (set_x rIP w)
     end
   else eret tt);;
  run DECODE_CLEAR_SEGOVR.

Definition x86emuOp_opcD0_byte_RM_1 (op1 : Z) : Op unit :=
  modrm <- run fetch_decode_modrm;;
  let '(md, rh, rl) := modrm in
  (match md with
   | 0 =>
       destoffset <- run (decode_rm00_address rl);;
       destval <- run (fetch_data_byte destoffset);;
       op <- entry opcD0_byte_operation rh;;
       destval <- flags (op destval 1);;
       run (store_data_byte destoffset destval)
   | 1 =>
       destoffset <- run (decode_rm01_address rl);;
       destval <- run (fetch_data_byte destoffset);;
       op <- entry opcD0_byte_operation rh;;
       destval <- flags (op destval 1);;
       run (store_data_byte destoffset destval)
   | 2 =>
       destoffset <- run (decode_rm10_address rl);;
       destval <- run (fetch_data_byte destoffset);;
       op <- entry opcD0_byte_operation rh;;
       destval <- flags (op destval 1);;
       run (store_data_byte destoffset destval)
   | 3 =>
       destreg <- run (decode_rm_byte_register rl);;
       dst <- rd_8 destreg;;
       op <- entry opcD0_byte_operation rh;;
       destval <- flags (op dst 1);;
       wr_8 destreg destval
   | _ => eret tt
   end);;
  run DECODE_CLEAR_SEGOVR.

Definition x86emuOp_opcD1_word_RM_1 (op1 : Z) : Op unit :=
  modrm <- run fetch_decode_modrm;;
  let '(md, rh, rl) := modrm in
  (match md with
   | 0 =>
       m <- run (get mode);;
       if nz (Z.land m SYSMODE_PREFIX_DATA) then
         destoffset <- run (decode_rm00_address rl);;
         destval <- run (fetch_data_long destoffset);;
         op <- entry opcD1_long_operation rh;;
         destval <- flags (op destval 1);;
         run (store_data_long destoffset destval)
       else
         destoffset <- run (decode_rm00_address rl);;
         destval <- run (fetch_data_word destoffset);;
         op <- entry opcD1_word_operation rh;;
         destval <- flags (op destval 1);;
         run (store_data_word destoffset destval)
   | 1 =>
       m <- run (get mode);;
       if nz (Z.land m SYSMODE_PREFIX_DATA) then
         destoffset <- run (decode_rm01_address rl);;
         destval <- run (fetch_data_long destoffset);;
         op <- entry opcD1_long_operation rh;;
         destval <- flags (op destval 1);;
         run (store_data_long destoffset destval)
       else
         destoffset <- run (decode_rm01_address rl);;
         destval <- run (fetch_data_word destoffset);;
         op <- entry opcD1_word_operation rh;;
         destval <- flags (op destval 1);;
         run (store_data_word destoffset destval)
   | 2 =>
       m <- run (get mode);;
       if nz (Z.land m SYSMODE_PREFIX_DATA) then
         destoffset <- run (decode_rm10_address rl);;
         destval <- run (fetch_data_long destoffset);;
         op <- entry opcD1_long_operation rh;;
         destval <- flags (op destval 1);;
         run (store_data_long destoffset destval)
       else
         destoffset <- run (decode_rm10_address rl);;
         destval <- run (fetch_data_word destoffset);;
         op <- entry opcD1_word_operation rh;;
         destval <- flags (op destval 1);;
         run (store_data_word destoffset destval)
   | 3 =>
       m <- run (get mode);;
       if nz (Z.land m SYSMODE_PREFIX_DATA) then
         destreg <- run (decode_rm_long_register rl);;
         dst <- rd_32 destreg;;
         op <- entry opcD1_long_operation rh;;
         destval <- flags (op dst 1);;
         wr_32 destreg destval
       else
         destreg <- run (decode_rm_word_register rl);;
         dst <- rd_16 destreg;;
         op <- entry opcD1_word_operation rh;;
         destval <- flags (op dst 1);;
         wr_16 destreg destval
   | _ => eret tt
   end);;
  run DECODE_CLEAR_SEGOVR.

Definition x86emuOp_opcD2_byte_RM_CL (op1 : Z) : Op unit :=
  modrm <- run fetch_decode_modrm;;
  let '(md, rh, rl) := modrm in
  amt <- run (l_reg rC);;
  (match md with
   | 0 =>
       destoffset <- run (decode_rm00_address rl);;
       destval <- run (fetch_data_byte destoffset);;
       op <- entry opcD0_byte_operation rh;;
       destval <- flags (op destval amt);;
       run (store_data_byte destoffset destval)
   | 1 =>
       destoffset <- run (decode_rm01_address rl);;
       destval <- run (fetch_data_byte destoffset);;
       op <- entry opcD0_byte_operation rh;;
       destval <- flags (op destval amt);;
       run (store_data_byte destoffset destval)
   | 2 =>
       destoffset <- run (decode_rm10_address rl);;
       destval <- run (fetch_data_byte destoffset);;
       op <- entry opcD0_byte_operation rh;;
       destval <- flags (op destval amt);;
       run (store_data_byte destoffset destval)
   | 3 =>
       destreg <- run (decode_rm_byte_register rl);;
       dst <- rd_8 destreg;;
       op <- entry opcD0_byte_operation rh;;
       destval <- flags (op dst amt);;
       wr_8 destreg destval
   | _ => eret tt
   end);;
  run DECODE_CLEAR_SEGOVR.

Definition x86emuOp_opcD3_word_RM_CL (op1 : Z) : Op unit :=
  modrm <- run fetch_decode_modrm;;
  let '(md, rh, rl) := modrm in
  amt <- run (l_reg rC);;
  (match md with
   | 0 =>
       m <- run (get mode);;
       if nz (Z.land m SYSMODE_PREFIX_DATA) then
         destoffset <- run (decode_rm00_address rl);;
         destval <- run (fetch_data_long destoffset);;
         op <- entry opcD1_long_operation rh;;
         destval <- flags (op destval amt);;
         run (store_data_long destoffset destval)
       else
         destoffset <- run (decode_rm00_address rl);;
         destval <- run (fetch_data_word destoffset);;
         op <- entry opcD1_word_operation rh;;
         destval <- flags (op destval amt);;
         run (store_data_word destoffset destval)
   | 1 =>
       m <- run (get mode);;
       if nz (Z.land m SYSMODE_PREFIX_DATA) then
         destoffset <- run (decode_rm01_address rl);;
         destval <- run (fetch_data_long destoffset);;
         op <- entry opcD1_long_operation rh;;
         destval <- flags (op destval amt);;
         run (store_data_long destoffset destval)
       else
         destoffset <- run (decode_rm01_address rl);;
         destval <- run (fetch_data_word destoffset);;
         op <- entry opcD1_word_operation rh;;
         destval <- flags (op destval amt);;
         run (store_data_word destoffset destval)
   | 2 =>
       m <- run (get mode);;
       if nz (Z.land m SYSMODE_PREFIX_DATA) then
         destoffset <- run (decode_rm10_address rl);;
         destval <- run (fetch_data_long destoffset);;
         op <- entry opcD1_long_operation rh;;
         destval <- flags (op destval amt);;
         run (store_data_long destoffset destval)
       else
         destoffset <- run (decode_rm10_address rl);;
         destval <- run (fetch_data_word destoffset);;
         op <- entry opcD1_word_operation rh;;
         destval <- flags (op destval amt);;
         run (store_data_word destoffset destval)
   | 3 =>
       m <- run (get mode);;
       if nz (Z.land m SYSMODE_PREFIX_DATA) then
         destreg <- run (decode_rm_long_register rl);;
         dst <- rd_32 destreg;;
         op <- entry opcD1_long_operation rh;;
         l <- flags (op dst amt);;
         wr_32 destreg l
       else
         destreg <- run (decode_rm_word_register rl);;
         dst <- rd_16 destreg;;
         op <- entry opcD1_word_operation rh;;
         w <- flags (op dst amt);;
         wr_16 destreg w
   | _ => eret tt
   end);;
  run DECODE_CLEAR_SEGOVR.

Definition x86emuOp_aam (op1 : Z) : Op unit :=
  a <- run fetch_byte_imm;;
  (if negb (a =? 10) then run HALT_SYS else eret tt);;
  al <- run (l_reg rA);;
  w <- flags (aam_word al);;
  run (set_x rA w);;
  run DECODE_CLEAR_SEGOVR.

Definition x86emuOp_aad (op1 : Z) : Op unit :=
  a <- run fetch_byte_imm;;
  (if negb (a =? 10) then run HALT_SYS else eret tt);;
  ax <- run (x_reg rA);;
  w <- flags (aad_word ax);;
  run (set_x rA w);;
  run DECODE_CLEAR_SEGOVR.

Definition x86emuOp_xlat (op1 : Z) : Op unit :=
  bx <- run (x_reg rB);;
  al <- run (l_reg rA);;
  let addr := u16 (bx + al) in
  b <- run (fetch_data_byte addr);;
  run (set_l rA b);;
  run DECODE_CLEAR_SEGOVR.

Definition x86emuOp_loopne (op1 : Z) : Op unit :=
  b <- run fetch_byte_imm;;
  let ip := signed 8 b in
  ip2 <- run (x_reg rIP);;
  let ip := signed 16 (u16 (ip + (signed 16 ip2))) in
  cx <- run (x_reg rC);;
  run (set_x rC (cx - 1));;
  cx <- run (x_reg rC);;
  zf_ <- flags (ACCESS_FLAG F_ZF);;
  (if (negb (cx =? 0)) && (negb zf_) then run (set_x rIP ip) else eret tt);;
  run DECODE_CLEAR_SEGOVR.

Definition x86emuOp_loope (op1 : Z) : Op unit :=
  b <- run fetch_byte_imm;;
  let ip := signed 8 b in
  ip2 <- run (x_reg rIP);;
  let ip := signed 16 (u16 (ip + (signed 16 ip2))) in
  cx <- run (x_reg rC);;
  run (set_x rC (cx - 1));;
  cx <- run (x_reg rC);;
  zf_ <- flags (ACCESS_FLAG F_ZF);;
  (if (negb (cx =? 0)) && zf_ then run (set_x rIP ip) else eret tt);;
  run DECODE_CLEAR_SEGOVR.

Definition x86emuOp_loop (op1 : Z) : Op unit :=
  b <- run fetch_byte_imm;;
  let ip := signed 8 b in
  ip2 <- run (x_reg rIP);;
  let ip := signed 16 (u16 (ip + (signed 16 ip2))) in
  cx <- run (x_reg rC);;
  run (set_x rC (cx - 1));;
  cx <- run (x_reg rC);;
  (if negb (cx =? 0) then run (set_x rIP ip) else eret tt);;
  run DECODE_CLEAR_SEGOVR.

Definition x86emuOp_jcxz (op1 : Z) : Op unit :=
  b <- run fetch_byte_imm;;
  let offset := signed 8 b in
  ip <- run (x_reg rIP);;
  let target := u16 (ip + offset) in
  cx <- run (x_reg rC);;
  (if cx =? 0 then run (set_x rIP target) else eret tt);;
  run DECODE_CLEAR_SEGOVR.

Definition x86emuOp_in_byte_AL_IMM (op1 : Z) : Op unit :=
  port <- run fetch_byte_imm;;
  b <- run (input sys_inb port);;
  run (set_l rA b);;
  run DECODE_CLEAR_SEGOVR.

Definition x86emuOp_in_word_AX_IMM (op1 : Z) : Op unit :=
  port <- run fetch_byte_imm;;
  m <- run (get mode);;
  (if nz (Z.land m SYSMODE_PREFIX_DATA) then
     l <- run (input sys_inl port);;
     run (set_e rA l)
   else
     w <- run (input sys_inw port);;
     run (set_x rA w));;
  run DECODE_CLEAR_SEGOVR.

Definition x86emuOp_out_byte_IMM_AL (op1 : Z) : Op unit :=
  port <- run fetch_byte_imm;;
  al <- run (l_reg rA);;
  run (output sys_outb port al);;
  run DECODE_CLEAR_SEGOVR.

Definition x86emuOp_out_word_IMM_AX (op1 : Z) : Op unit :=
  port <- run fetch_byte_imm;;
  m <- run (get mode);;
  (if nz (Z.land m SYSMODE_PREFIX_DATA) then
     eax <- run (e_reg rA);;
     run (output sys_outl port eax)
   else
     ax <- run (x_reg rA);;
     run (output sys_outw port ax));;
  run DECODE_CLEAR_SEGOVR.

Definition x86emuOp_call_near_IMM (op1 : Z) : Op unit :=
  w <- run fetch_word_imm;;
  let ip := signed 16 w in
  ip2 <- run (x_reg rIP);;
  let ip := signed 16 (u16 (ip + (signed 16 ip2))) in
  ip2 <- run (x_reg rIP);;
  run (push_word ip2);;
  run (set_x rIP ip);;
  run DECODE_CLEAR_SEGOVR.

Definition x86emuOp_jump_near_IMM (op1 : Z) : Op unit :=
  w <- run fetch_word_imm;;
  let ip := signed 16 w in
  ip2 <- run (x_reg rIP);;
  let ip := ip + (signed 16 ip2) in
  run (set_x rIP (u16 ip));;
  run DECODE_CLEAR_SEGOVR.

Definition x86emuOp_jump_far_IMM (op1 : Z) : Op unit :=
  ip <- run fetch_word_imm;;
  cs <- run fetch_word_imm;;
  run (set_x rIP ip);;
  run (set_s CS cs);;
  run DECODE_CLEAR_SEGOVR.

Definition x86emuOp_jump_byte_IMM (op1 : Z) : Op unit :=
  b <- run fetch_byte_imm;;
  let offset := signed 8 b in
  ip <- run (x_reg rIP);;
  let target := u16 (ip + offset) in
  run (set_x rIP target);;
  run DECODE_CLEAR_SEGOVR.

Definition x86emuOp_in_byte_AL_DX (op1 : Z) : Op unit :=
  dx <- run (x_reg rD);;
  b <- run (input sys_inb dx);;
  run (set_l rA b);;
  run DECODE_CLEAR_SEGOVR.

Definition x86emuOp_in_word_AX_DX (op1 : Z) : Op unit :=
  m <- run (get mode);;
  (if nz (Z.land m SYSMODE_PREFIX_DATA) then
     dx <- run (x_reg rD);;
     l <- run (input sys_inl dx);;
     run (set_e rA l)
   else
     dx <- run (x_reg rD);;
     w <- run (input sys_inw dx);;
     run (set_x rA w));;
  run DECODE_CLEAR_SEGOVR.

Definition x86emuOp_out_byte_DX_AL (op1 : Z) : Op unit :=
  dx <- run (x_reg rD);;
  al <- run (l_reg rA);;
  run (output sys_outb dx al);;
  run DECODE_CLEAR_SEGOVR.

Definition x86emuOp_out_word_DX_AX (op1 : Z) : Op unit :=
  m <- run (get mode);;
  (if nz (Z.land m SYSMODE_PREFIX_DATA) then
     dx <- run (x_reg rD);;
     eax <- run (e_reg rA);;
     run (output sys_outl dx eax)
   else
     dx <- run (x_reg rD);;
     ax <- run (x_reg rA);;
     run (output sys_outw dx ax));;
  run DECODE_CLEAR_SEGOVR.

Definition x86emuOp_lock (op1 : Z) : Op unit :=
  run DECODE_CLEAR_SEGOVR.

Definition x86emuOp_repne (op1 : Z) : Op unit :=
  run (set_mode (fun m => Z.lor m SYSMODE_PREFIX_REPNE));;
  run DECODE_CLEAR_SEGOVR.

Definition x86emuOp_repe (op1 : Z) : Op unit :=
  run (set_mode (fun m => Z.lor m SYSMODE_PREFIX_REPE));;
  run DECODE_CLEAR_SEGOVR.

Definition x86emuOp_halt (op1 : Z) : Op unit :=
  run HALT_SYS;;
  run DECODE_CLEAR_SEGOVR.

Definition x86emuOp_cmc (op1 : Z) : Op unit :=
  flags (TOGGLE_FLAG F_CF);;
  run DECODE_CLEAR_SEGOVR.

Definition x86emuOp_opcF6_byte_RM (op1 : Z) : Op unit :=
  modrm <- run fetch_decode_modrm;;
  let '(md, rh, rl) := modrm in
  (match md with
   | 0 =>
       match rh with
       | 0 =>
           destoffset <- run (decode_rm00_address rl);;
           srcval <- run fetch_byte_imm;;
           destval <- run (fetch_data_byte destoffset);;
           flags (test_byte destval srcval)
       | 1 => run HALT_SYS
       | 2 =>
           destoffset <- run (decode_rm00_address rl);;
           destval <- run (fetch_data_byte destoffset);;
           let destval := not_byte destval in
           run (store_data_byte destoffset destval)
       | 3 =>
           destoffset <- run (decode_rm00_address rl);;
           destval <- run (fetch_data_byte destoffset);;
           destval <- flags (neg_byte destval);;
           run (store_data_byte destoffset destval)
       | 4 =>
           destoffset <- run (decode_rm00_address rl);;
           destval <- run (fetch_data_byte destoffset);;
           run (mul_byte destval)
       | 5 =>
           destoffset <- run (decode_rm00_address rl);;
           destval <- run (fetch_data_byte destoffset);;
           run (imul_byte destval)
       | 6 =>
           destoffset <- run (decode_rm00_address rl);;
           destval <- run (fetch_data_byte destoffset);;
           run (div_byte destval)
       | 7 =>
           destoffset <- run (decode_rm00_address rl);;
           destval <- run (fetch_data_byte destoffset);;
           run (idiv_byte destval)
       | _ => eret tt
       end
   | 1 =>
       match rh with
       | 0 =>
           destoffset <- run (decode_rm01_address rl);;
           srcval <- run fetch_byte_imm;;
           destval <- run (fetch_data_byte destoffset);;
           flags (test_byte destval srcval)
       | 1 => run HALT_SYS
       | 2 =>
           destoffset <- run (decode_rm01_address rl);;
           destval <- run (fetch_data_byte destoffset);;
           let destval := not_byte destval in
           run (store_data_byte destoffset destval)
       | 3 =>
           destoffset <- run (decode_rm01_address rl);;
           destval <- run (fetch_data_byte destoffset);;
           destval <- flags (neg_byte destval);;
           run (store_data_byte destoffset destval)
       | 4 =>
           destoffset <- run (decode_rm01_address rl);;
           destval <- run (fetch_data_byte destoffset);;
           run (mul_byte destval)
       | 5 =>
           destoffset <- run (decode_rm01_address rl);;
           destval <- run (fetch_data_byte destoffset);;
           run (imul_byte destval)
       | 6 =>
           destoffset <- run (decode_rm01_address rl);;
           destval <- run (fetch_data_byte destoffset);;
           run (div_byte destval)
       | 7 =>
           destoffset <- run (decode_rm01_address rl);;
           destval <- run (fetch_data_byte destoffset);;
           run (idiv_byte destval)
       | _ => eret tt
       end
   | 2 =>
       match rh with
       | 0 =>
           destoffset <- run (decode_rm10_address rl);;
           srcval <- run fetch_byte_imm;;
           destval <- run (fetch_data_byte destoffset);;
           flags (test_byte destval srcval)
       | 1 => run HALT_SYS
       | 2 =>
           destoffset <- run (decode_rm10_address rl);;
           destval <- run (fetch_data_byte destoffset);;
           let destval := not_byte destval in
           run (store_data_byte destoffset destval)
       | 3 =>
           destoffset <- run (decode_rm10_address rl);;
           destval <- run (fetch_data_byte destoffset);;
           destval <- flags (neg_byte destval);;
           run (store_data_byte destoffset destval)
       | 4 =>
           destoffset <- run (decode_rm10_address rl);;
           destval <- run (fetch_data_byte destoffset);;
           run (mul_byte destval)
       | 5 =>
           destoffset <- run (decode_rm10_address rl);;
           destval <- run (fetch_data_byte destoffset);;
           run (imul_byte destval)
       | 6 =>
           destoffset <- run (decode_rm10_address rl);;
           destval <- run (fetch_data_byte destoffset);;
           run (div_byte destval)
       | 7 =>
           destoffset <- run (decode_rm10_address rl);;
           destval <- run (fetch_data_byte destoffset);;
           run (idiv_byte destval)
       | _ => eret tt
       end
   | 3 =>
       match rh with
       | 0 =>
           destreg <- run (decode_rm_byte_register rl);;
           srcval <- run fetch_byte_imm;;
           dst <- rd_8 destreg;;
           flags (test_byte dst srcval)
       | 1 => run HALT_SYS
       | 2 =>
           destreg <- run (decode_rm_byte_register rl);;
           dst <- rd_8 destreg;;
           wr_8 destreg (not_byte dst)
       | 3 =>
           destreg <- run (decode_rm_byte_register rl);;
           dst <- rd_8 destreg;;
           b <- flags (neg_byte dst);;
           wr_8 destreg b
       | 4 =>
           destreg <- run (decode_rm_byte_register rl);;
           dst <- rd_8 destreg;;
           run (mul_byte dst)
       | 5 =>
           destreg <- run (decode_rm_byte_register rl);;
           dst <- rd_8 destreg;;
           run (imul_byte dst)
       | 6 =>
           destreg <- run (decode_rm_byte_register rl);;
           dst <- rd_8 destreg;;
           run (div_byte dst)
       | 7 =>
           destreg <- run (decode_rm_byte_register rl);;
           dst <- rd_8 destreg;;
           run (idiv_byte dst)
       | _ => eret tt
       end
   | _ => eret tt
   end);;
  run DECODE_CLEAR_SEGOVR.

Definition x86emuOp_opcF7_word_RM (op1 : Z) : Op unit :=
  modrm <- run fetch_decode_modrm;;
  let '(md, rh, rl) := modrm in
  (match md with
   | 0 =>
       match rh with
       | 0 =>
           m <- run (get mode);;
           if nz (Z.land m SYSMODE_PREFIX_DATA) then
             destoffset <- run (decode_rm00_address rl);;
             srcval <- run fetch_long_imm;;
             destval <- run (fetch_data_long destoffset);;
             flags (test_long destval srcval)
           else
             destoffset <- run (decode_rm00_address rl);;
             srcval <- run fetch_word_imm;;
             destval <- run (fetch_data_word destoffset);;
             flags (test_word destval srcval)
       | 1 => run HALT_SYS
       | 2 =>
           m <- run (get mode);;
           if nz (Z.land m SYSMODE_PREFIX_DATA) then
             destoffset <- run (decode_rm00_address rl);;
             destval <- run (fetch_data_long destoffset);;
             let destval := not_long destval in
             run (store_data_long destoffset destval)
           else
             destoffset <- run (decode_rm00_address rl);;
             destval <- run (fetch_data_word destoffset);;
             let destval := not_word destval in
             run (store_data_word destoffset destval)
       | 3 =>
           m <- run (get mode);;
           if nz (Z.land m SYSMODE_PREFIX_DATA) then
             destoffset <- run (decode_rm00_address rl);;
             destval <- run (fetch_data_long destoffset);;
             destval <- flags (neg_long destval);;
             run (store_data_long destoffset destval)
           else
             destoffset <- run (decode_rm00_address rl);;
             destval <- run (fetch_data_word destoffset);;
             destval <- flags (neg_word destval);;
             run (store_data_word destoffset destval)
       | 4 =>
           m <- run (get mode);;
           if nz (Z.land m SYSMODE_PREFIX_DATA) then
             destoffset <- run (decode_rm00_address rl);;
             destval <- run (fetch_data_long destoffset);;
             run (mul_long destval)
           else
             destoffset <- run (decode_rm00_address rl);;
             destval <- run (fetch_data_word destoffset);;
             run (mul_word destval)
       | 5 =>
           m <- run (get mode);;
           if nz (Z.land m SYSMODE_PREFIX_DATA) then
             destoffset <- run (decode_rm00_address rl);;
             destval <- run (fetch_data_long destoffset);;
             run (imul_long destval)
           else
             destoffset <- run (decode_rm00_address rl);;
             destval <- run (fetch_data_word destoffset);;
             run (imul_word destval)
       | 6 =>
           m <- run (get mode);;
           if nz (Z.land m SYSMODE_PREFIX_DATA) then
             destoffset <- run (decode_rm00_address rl);;
             destval <- run (fetch_data_long destoffset);;
             run (div_long destval)
           else
             destoffset <- run (decode_rm00_address rl);;
             destval <- run (fetch_data_word destoffset);;
             run (div_word destval)
       | 7 =>
           m <- run (get mode);;
           if nz (Z.land m SYSMODE_PREFIX_DATA) then
             destoffset <- run (decode_rm00_address rl);;
             destval <- run (fetch_data_long destoffset);;
             run_e (idiv_long destval)
           else
             destoffset <- run (decode_rm00_address rl);;
             destval <- run (fetch_data_word destoffset);;
             run_e (idiv_word destval)
       | _ => eret tt
       end
   | 1 =>
       match rh with
       | 0 =>
           m <- run (get mode);;
           if nz (Z.land m SYSMODE_PREFIX_DATA) then
             destoffset <- run (decode_rm01_address rl);;
             srcval <- run fetch_long_imm;;
             destval <- run (fetch_data_long destoffset);;
             flags (test_long destval srcval)
           else
             destoffset <- run (decode_rm01_address rl);;
             srcval <- run fetch_word_imm;;
             destval <- run (fetch_data_word destoffset);;
             flags (test_word destval srcval)
       | 1 => run HALT_SYS
       | 2 =>
           m <- run (get mode);;
           if nz (Z.land m SYSMODE_PREFIX_DATA) then
             destoffset <- run (decode_rm01_address rl);;
             destval <- run (fetch_data_long destoffset);;
             let destval := not_long destval in
             run (store_data_long destoffset destval)
           else
             destoffset <- run (decode_rm01_address rl);;
             destval <- run (fetch_data_word destoffset);;
             let destval := not_word destval in
             run (store_data_word destoffset destval)
       | 3 =>
           m <- run (get mode);;
           if nz (Z.land m SYSMODE_PREFIX_DATA) then
             destoffset <- run (decode_rm01_address rl);;
             destval <- run (fetch_data_long destoffset);;
             destval <- flags (neg_long destval);;
             run (store_data_long destoffset destval)
           else
             destoffset <- run (decode_rm01_address rl);;
             destval <- run (fetch_data_word destoffset);;
             destval <- flags (neg_word destval);;
             run (store_data_word destoffset destval)
       | 4 =>
           m <- run (get mode);;
           if nz (Z.land m SYSMODE_PREFIX_DATA) then
             destoffset <- run (decode_rm01_address rl);;
             destval <- run (fetch_data_long destoffset);;
             run (mul_long destval)
           else
             destoffset <- run (decode_rm01_address rl);;
             destval <- run (fetch_data_word destoffset);;
             run (mul_word destval)
       | 5 =>
           m <- run (get mode);;
           if nz (Z.land m SYSMODE_PREFIX_DATA) then
             destoffset <- run (decode_rm01_address rl);;
             destval <- run (fetch_data_long destoffset);;
             run (imul_long destval)
           else
             destoffset <- run (decode_rm01_address rl);;
             destval <- run (fetch_data_word destoffset);;
             run (imul_word destval)
       | 6 =>
           m <- run (get mode);;
           if nz (Z.land m SYSMODE_PREFIX_DATA) then
             destoffset <- run (decode_rm01_address rl);;
             destval <- run (fetch_data_long destoffset);;
             run (div_long destval)
           else
             destoffset <- run (decode_rm01_address rl);;
             destval <- run (fetch_data_word destoffset);;
             run (div_word destval)
       | 7 =>
           m <- run (get mode);;
           if nz (Z.land m SYSMODE_PREFIX_DATA) then
             destoffset <- run (decode_rm01_address rl);;
             destval <- run (fetch_data_long destoffset);;
             run_e (idiv_long destval)
           else
             destoffset <- run (decode_rm01_address rl);;
             destval <- run (fetch_data_word destoffset);;
             run_e (idiv_word destval)
       | _ => eret tt
       end
   | 2 =>
       match rh with
       | 0 =>
           m <- run (get mode);;
           if nz (Z.land m SYSMODE_PREFIX_DATA) then
             destoffset <- run (decode_rm10_address rl);;
             srcval <- run fetch_long_imm;;
             destval <- run (fetch_data_long destoffset);;
             flags (test_long destval srcval)
           else
             destoffset <- run (decode_rm10_address rl);;
             srcval <- run fetch_word_imm;;
             destval <- run (fetch_data_word destoffset);;
             flags (test_word destval srcval)
       | 1 => run HALT_SYS
       | 2 =>
           m <- run (get mode);;
           if nz (Z.land m SYSMODE_PREFIX_DATA) then
             destoffset <- run (decode_rm10_address rl);;
             destval <- run (fetch_data_long destoffset);;
             let destval := not_long destval in
             run (store_data_long destoffset destval)
           else
             destoffset <- run (decode_rm10_address rl);;
             destval <- run (fetch_data_word destoffset);;
             let destval := not_word destval in
             run (store_data_word destoffset destval)
       | 3 =>
           m <- run (get mode);;
           if nz (Z.land m SYSMODE_PREFIX_DATA) then
             destoffset <- run (decode_rm10_address rl);;
             destval <- run (fetch_data_long destoffset);;
             destval <- flags (neg_long destval);;
             run (store_data_long destoffset destval)
           else
             destoffset <- run (decode_rm10_address rl);;
             destval <- run (fetch_data_word destoffset);;
             destval <- flags (neg_word destval);;
             run (store_data_word destoffset destval)
       | 4 =>
           m <- run (get mode);;
           if nz (Z.land m SYSMODE_PREFIX_DATA) then
             destoffset <- run (decode_rm10_address rl);;
             destval <- run (fetch_data_long destoffset);;
             run (mul_long destval)
           else
             destoffset <- run (decode_rm10_address rl);;
             destval <- run (fetch_data_word destoffset);;
             run (mul_word destval)
       | 5 =>
           m <- run (get mode);;
           if nz (Z.land m SYSMODE_PREFIX_DATA) then
             destoffset <- run (decode_rm10_address rl);;
             destval <- run (fetch_data_long destoffset);;
             run (imul_long destval)
           else
             destoffset <- run (decode_rm10_address rl);;
             destval <- run (fetch_data_word destoffset);;
             run (imul_word destval)
       | 6 =>
           m <- run (get mode);;
           if nz (Z.land m SYSMODE_PREFIX_DATA) then
             destoffset <- run (decode_rm10_address rl);;
             destval <- run (fetch_data_long destoffset);;
             run (div_long destval)
           else
             destoffset <- run (decode_rm10_address rl);;
             destval <- run (fetch_data_word destoffset);;
             run (div_word destval)
       | 7 =>
           m <- run (get mode);;
           if nz (Z.land m SYSMODE_PREFIX_DATA) then
             destoffset <- run (decode_rm10_address rl);;
             destval <- run (fetch_data_long destoffset);;
             run_e (idiv_long destval)
           else
             destoffset <- run (decode_rm10_address rl);;
             destval <- run (fetch_data_word destoffset);;
             run_e (idiv_word destval)
       | _ => eret tt
       end
   | 3 =>
       match rh with
       | 0 =>
           m <- run (get mode);;
           if nz (Z.land m SYSMODE_PREFIX_DATA) then
             destreg <- run (decode_rm_long_register rl);;
             srcval <- run fetch_long_imm;;
             dst <- rd_32 destreg;;
             flags (test_long dst srcval)
           else
             destreg <- run (decode_rm_word_register rl);;
             srcval <- run fetch_word_imm;;
             dst <- rd_16 destreg;;
             flags (test_word dst srcval)
       | 1 => run HALT_SYS
       | 2 =>
           m <- run (get mode);;
           if nz (Z.land m SYSMODE_PREFIX_DATA) then
             destreg <- run (decode_rm_long_register rl);;
             dst <- rd_32 destreg;;
             wr_32 destreg (not_long dst)
           else
             destreg <- run (decode_rm_word_register rl);;
             dst <- rd_16 destreg;;
             wr_16 destreg (not_word dst)
       | 3 =>
           m <- run (get mode);;
           if nz (Z.land m SYSMODE_PREFIX_DATA) then
             destreg <- run (decode_rm_long_register rl);;
             dst <- rd_32 destreg;;
             l <- flags (neg_long dst);;
             wr_32 destreg l
           else
             destreg <- run (decode_rm_word_register rl);;
             dst <- rd_16 destreg;;
             w <- flags (neg_word dst);;
             wr_16 destreg w
       | 4 =>
           m <- run (get mode);;
           if nz (Z.land m SYSMODE_PREFIX_DATA) then
             destreg <- run (decode_rm_long_register rl);;
             dst <- rd_32 destreg;;
             run (mul_long dst)
           else
             destreg <- run (decode_rm_word_register rl);;
             dst <- rd_16 destreg;;
             run (mul_word dst)
       | 5 =>
           m <- run (get mode);;
           if nz (Z.land m SYSMODE_PREFIX_DATA) then
             destreg <- run (decode_rm_long_register rl);;
             dst <- rd_32 destreg;;
             run (imul_long dst)
           else
             destreg <- run (decode_rm_word_register rl);;
             dst <- rd_16 destreg;;
             run (imul_word dst)
       | 6 =>
           m <- run (get mode);;
           if nz (Z.land m SYSMODE_PREFIX_DATA) then
             destreg <- run (decode_rm_long_register rl);;
             dst <- rd_32 destreg;;
             run (div_long dst)
           else
             destreg <- run (decode_rm_word_register rl);;
             dst <- rd_16 destreg;;
             run (div_word dst)
       | 7 =>
           m <- run (get mode);;
           if nz (Z.land m SYSMODE_PREFIX_DATA) then
             destreg <- run (decode_rm_long_register rl);;
             dst <- rd_32 destreg;;
             run_e (idiv_long dst)
           else
             destreg <- run (decode_rm_word_register rl);;
             dst <- rd_16 destreg;;
             run_e (idiv_word dst)
       | _ => eret tt
       end
   | _ => eret tt
   end);;
  run DECODE_CLEAR_SEGOVR.

Definition x86emuOp_clc (op1 : Z) : Op unit :=
  flags (CLEAR_FLAG F_CF);;
  run DECODE_CLEAR_SEGOVR.

Definition x86emuOp_stc (op1 : Z) : Op unit :=
  flags (SET_FLAG F_CF);;
  run DECODE_CLEAR_SEGOVR.

Definition x86emuOp_cli (op1 : Z) : Op unit :=
  flags (CLEAR_FLAG F_IF);;
  run DECODE_CLEAR_SEGOVR.

Definition x86emuOp_sti (op1 : Z) : Op unit :=
  flags (SET_FLAG F_IF);;
  run DECODE_CLEAR_SEGOVR.

Definition x86emuOp_cld (op1 : Z) : Op unit :=
  flags (CLEAR_FLAG F_DF);;
  run DECODE_CLEAR_SEGOVR.

Definition x86emuOp_std (op1 : Z) : Op unit :=
  flags (SET_FLAG F_DF);;
  run DECODE_CLEAR_SEGOVR.

Definition x86emuOp_opcFE_byte_RM (op1 : Z) : Op unit :=
  modrm <- run fetch_decode_modrm;;
  let '(md, rh, rl) := modrm in
  (match md with
   | 0 =>
       destoffset <- run (decode_rm00_address rl);;
       match rh with
       | 0 =>
           destval <- run (fetch_data_byte destoffset);;
           destval <- flags (inc_byte destval);;
           run (store_data_byte destoffset destval)
       | 1 =>
           destval <- run (fetch_data_byte destoffset);;
           destval <- flags (dec_byte destval);;
           run (store_data_byte destoffset destval)
       | _ => eret tt
       end
   | 1 =>
       destoffset <- run (decode_rm01_address rl);;
       match rh with
       | 0 =>
           destval <- run (fetch_data_byte destoffset);;
           destval <- flags (inc_byte destval);;
           run (store_data_byte destoffset destval)
       | 1 =>
           destval <- run (fetch_data_byte destoffset);;
           destval <- flags (dec_byte destval);;
           run (store_data_byte destoffset destval)
       | _ => eret tt
       end
   | 2 =>
       destoffset <- run (decode_rm10_address rl);;
       match rh with
       | 0 =>
           destval <- run (fetch_data_byte destoffset);;
           destval <- flags (inc_byte destval);;
           run (store_data_byte destoffset destval)
       | 1 =>
           destval <- run (fetch_data_byte destoffset);;
           destval <- flags (dec_byte destval);;
           run (store_data_byte destoffset destval)
       | _ => eret tt
       end
   | 3 =>
       destreg <- run (decode_rm_byte_register rl);;
       match rh with
       | 0 =>
           dst <- rd_8 destreg;;
           b <- flags (inc_byte dst);;
           wr_8 destreg b
       | 1 =>
           dst <- rd_8 destreg;;
           b <- flags (dec_byte dst);;
           wr_8 destreg b
       | _ => eret tt
       end
   | _ => eret tt
   end);;
  run DECODE_CLEAR_SEGOVR.

Definition x86emuOp_opcFF_word_RM (op1 : Z) : Op unit :=
  let destoffset := 0 in
  modrm <- run fetch_decode_modrm;;
  let '(md, rh, rl) := modrm in
  (match md with
   | 0 =>
       destoffset <- run (decode_rm00_address rl);;
       match rh with
       | 0 =>
           m <- run (get mode);;
           if nz (Z.land m SYSMODE_PREFIX_DATA) then
             destval <- run (fetch_data_long destoffset);;
             destval <- flags (inc_long destval);;
             run (store_data_long destoffset destval)
           else
             destval <- run (fetch_data_word destoffset);;
             destval <- flags (inc_word destval);;
             run (store_data_word destoffset destval)
       | 1 =>
           m <- run (get mode);;
           if nz (Z.land m SYSMODE_PREFIX_DATA) then
             destval <- run (fetch_data_long destoffset);;
             destval <- flags (dec_long destval);;
             run (store_data_long destoffset destval)
           else
             destval <- run (fetch_data_word destoffset);;
             destval <- flags (dec_word destval);;
             run (store_data_word destoffset destval)
       | 2 =>
           destval <- run (fetch_data_word destoffset);;
           ip <- run (x_reg rIP);;
           run (push_word ip);;
           run (set_x rIP destval)
       | 3 =>
           destval <- run (fetch_data_word destoffset);;
           destval2 <- run (fetch_data_word (u32 (destoffset + 2)));;
           cs <- run (s_reg CS);;
           run (push_word cs);;
           run (set_s CS destval2);;
           ip <- run (x_reg rIP);;
           run (push_word ip);;
           run (set_x rIP destval)
       | 4 =>
           destval <- run (fetch_data_word destoffset);;
           run (set_x rIP destval)
       | 5 =>
           destval <- run (fetch_data_word destoffset);;
           destval2 <- run (fetch_data_word (u32 (destoffset + 2)));;
           run (set_x rIP destval);;
           run (set_s CS destval2)
       | 6 =>
           m <- run (get mode);;
           if nz (Z.land m SYSMODE_PREFIX_DATA) then
             destval <- run (fetch_data_long destoffset);;
             run (push_long destval)
           else
             destval <- run (fetch_data_word destoffset);;
             run (push_word destval)
       | _ => eret tt
       end
   | 1 =>
       destoffset <- run (decode_rm01_address rl);;
       match rh with
       | 0 =>
           m <- run (get mode);;
           if nz (Z.land m SYSMODE_PREFIX_DATA) then
             destval <- run (fetch_data_long destoffset);;
             destval <- flags (inc_long destval);;
             run (store_data_long destoffset destval)
           else
             destval <- run (fetch_data_word destoffset);;
             destval <- flags (inc_word destval);;
             run (store_data_word destoffset destval)
       | 1 =>
           m <- run (get mode);;
           if nz (Z.land m SYSMODE_PREFIX_DATA) then
             destval <- run (fetch_data_long destoffset);;
             destval <- flags (dec_long destval);;
             run (store_data_long destoffset destval)
           else
             destval <- run (fetch_data_word destoffset);;
             destval <- flags (dec_word destval);;
             run (store_data_word destoffset destval)
       | 2 =>
           destval <- run (fetch_data_word destoffset);;
           ip <- run (x_reg rIP);;
           run (push_word ip);;
           run (set_x rIP destval)
       | 3 =>
           destval <- run (fetch_data_word destoffset);;
           destval2 <- run (fetch_data_word (u32 (destoffset + 2)));;
           cs <- run (s_reg CS);;
           run (push_word cs);;
           run (set_s CS destval2);;
           ip <- run (x_reg rIP);;
           run (push_word ip);;
           run (set_x rIP destval)
       | 4 =>
           destval <- run (fetch_data_word destoffset);;
           run (set_x rIP destval)
       | 5 =>
           destval <- run (fetch_data_word destoffset);;
           destval2 <- run (fetch_data_word (u32 (destoffset + 2)));;
           run (set_x rIP destval);;
           run (set_s CS destval2)
       | 6 =>
           m <- run (get mode);;
           if nz (Z.land m SYSMODE_PREFIX_DATA) then
             destval <- run (fetch_data_long destoffset);;
             run (push_long destval)
           else
             destval <- run (fetch_data_word destoffset);;
             run (push_word destval)
       | _ => eret tt
       end
   | 2 =>
       destoffset <- run (decode_rm10_address rl);;
       match rh with
       | 0 =>
           m <- run (get mode);;
           if nz (Z.land m SYSMODE_PREFIX_DATA) then
             destval <- run (fetch_data_long destoffset);;
             destval <- flags (inc_long destval);;
             run (store_data_long destoffset destval)
           else
             destval <- run (fetch_data_word destoffset);;
             destval <- flags (inc_word destval);;
             run (store_data_word destoffset destval)
       | 1 =>
           m <- run (get mode);;
           if nz (Z.land m SYSMODE_PREFIX_DATA) then
             destval <- run (fetch_data_long destoffset);;
             destval <- flags (dec_long destval);;
             run (store_data_long destoffset destval)
           else
             destval <- run (fetch_data_word destoffset);;
             destval <- flags (dec_word destval);;
             run (store_data_word destoffset destval)
       | 2 =>
           destval <- run (fetch_data_word destoffset);;
           ip <- run (x_reg rIP);;
           run (push_word ip);;
           run (set_x rIP destval)
       | 3 =>
           destval <- run (fetch_data_word destoffset);;
           destval2 <- run (fetch_data_word (u32 (destoffset + 2)));;
           cs <- run (s_reg CS);;
           run (push_word cs);;
           run (set_s CS destval2);;
           ip <- run (x_reg rIP);;
           run (push_word ip);;
           run (set_x rIP destval)
       | 4 =>
           destval <- run (fetch_data_word destoffset);;
           run (set_x rIP destval)
       | 5 =>
           destval <- run (fetch_data_word destoffset);;
           destval2 <- run (fetch_data_word (u32 (destoffset + 2)));;
           run (set_x rIP destval);;
           run (set_s CS destval2)
       | 6 =>
           m <- run (get mode);;
           if nz (Z.land m SYSMODE_PREFIX_DATA) then
             destval <- run (fetch_data_long destoffset);;
             run (push_long destval)
           else
             destval <- run (fetch_data_word destoffset);;
             run (push_word destval)
       | _ => eret tt
       end
   | 3 =>
       match rh with
       | 0 =>
           m <- run (get mode);;
           if nz (Z.land m SYSMODE_PREFIX_DATA) then
             destreg <- run (decode_rm_long_register rl);;
             dst <- rd_32 destreg;;
             l <- flags (inc_long dst);;
             wr_32 destreg l
           else
             destreg <- run (decode_rm_word_register rl);;
             dst <- rd_16 destreg;;
             w <- flags (inc_word dst);;
             wr_16 destreg w
       | 1 =>
           m <- run (get mode);;
           if nz (Z.land m SYSMODE_PREFIX_DATA) then
             destreg <- run (decode_rm_long_register rl);;
             dst <- rd_32 destreg;;
             l <- flags (dec_long dst);;
             wr_32 destreg l
           else
             destreg <- run (decode_rm_word_register rl);;
             dst <- rd_16 destreg;;
             w <- flags (dec_word dst);;
             wr_16 destreg w
       | 2 =>
           destreg <- run (decode_rm_word_register rl);;
           ip <- run (x_reg rIP);;
           run (push_word ip);;
           dst <- rd_16 destreg;;
           run (set_x rIP dst)
       | 3 => run HALT_SYS
       | 4 =>
           destreg <- run (decode_rm_word_register rl);;
           dst <- rd_16 destreg;;
           run (set_x rIP dst)
       | 5 => run HALT_SYS
       | 6 =>
           m <- run (get mode);;
           if nz (Z.land m SYSMODE_PREFIX_DATA) then
             destreg <- run (decode_rm_long_register rl);;
             dst <- rd_32 destreg;;
             run (push_long dst)
           else
             destreg <- run (decode_rm_word_register rl);;
             dst <- rd_16 destreg;;
             run (push_word dst)
       | _ => eret tt
       end
   | _ => eret tt
   end);;
  run DECODE_CLEAR_SEGOVR.

End Handlers.
