(* ===== verification/X86Exec.v ===== *)
(** * The opcode table and the main loop of the x86 emulator

    [x86emu_optab] of [ops.c] and [X86EMU_exec] of [decode.c]. *)
From Stdlib Require Import ZArith Lia List Bool.
From S2P Require Import Prelude X86Flags X86Machine X86Decode X86Ops X86OpsExt X86OpsAlu X86OpsReg X86OpsStr X86OpsCtl.
Import ListNotations.
Local Open Scope Z_scope.
Local Open Scope err_scope.

Section Exec.
Context {W : Type} {sys : Sys W}.
Local Abbreviation Op := (Op W).
(** [_X86EMU_intrTab]: the handlers the embedding program installs. *)
Variable intrTab : Z -> option (Z -> Run W unit).

Definition x86emu_optab : list (Z -> Op unit) :=
  [
    x86emuOp_add_byte_RM_R; x86emuOp_add_word_RM_R; x86emuOp_add_byte_R_RM; x86emuOp_add_word_R_RM;
    x86emuOp_add_byte_AL_IMM; x86emuOp_add_word_AX_IMM; x86emuOp_push_ES; x86emuOp_pop_ES;
    x86emuOp_or_byte_RM_R; x86emuOp_or_word_RM_R; x86emuOp_or_byte_R_RM; x86emuOp_or_word_R_RM;
    x86emuOp_or_byte_AL_IMM; x86emuOp_or_word_AX_IMM; x86emuOp_push_CS; x86emuOp_two_byte;
    x86emuOp_adc_byte_RM_R; x86emuOp_adc_word_RM_R; x86emuOp_adc_byte_R_RM; x86emuOp_adc_word_R_RM;
    x86emuOp_adc_byte_AL_IMM; x86emuOp_adc_word_AX_IMM; x86emuOp_push_SS; x86emuOp_pop_SS;
    x86emuOp_sbb_byte_RM_R; x86emuOp_sbb_word_RM_R; x86emuOp_sbb_byte_R_RM; x86emuOp_sbb_word_R_RM;
    x86emuOp_sbb_byte_AL_IMM; x86emuOp_sbb_word_AX_IMM; x86emuOp_push_DS; x86emuOp_pop_DS;
    x86emuOp_and_byte_RM_R; x86emuOp_and_word_RM_R; x86emuOp_and_byte_R_RM; x86emuOp_and_word_R_RM;
    x86emuOp_and_byte_AL_IMM; x86emuOp_and_word_AX_IMM; x86emuOp_segovr_ES; x86emuOp_daa;
    x86emuOp_sub_byte_RM_R; x86emuOp_sub_word_RM_R; x86emuOp_sub_byte_R_RM; x86emuOp_sub_word_R_RM;
    x86emuOp_sub_byte_AL_IMM; x86emuOp_sub_word_AX_IMM; x86emuOp_segovr_CS; x86emuOp_das;
    x86emuOp_xor_byte_RM_R; x86emuOp_xor_word_RM_R; x86emuOp_xor_byte_R_RM; x86emuOp_xor_word_R_RM;
    x86emuOp_xor_byte_AL_IMM; x86emuOp_xor_word_AX_IMM; x86emuOp_segovr_SS; x86emuOp_aaa;
    x86emuOp_cmp_byte_RM_R; x86emuOp_cmp_word_RM_R; x86emuOp_cmp_byte_R_RM; x86emuOp_cmp_word_R_RM;
    x86emuOp_cmp_byte_AL_IMM; x86emuOp_cmp_word_AX_IMM; x86emuOp_segovr_DS; x86emuOp_aas;
    x86emuOp_inc_AX; x86emuOp_inc_CX; x86emuOp_inc_DX; x86emuOp_inc_BX;
    x86emuOp_inc_SP; x86emuOp_inc_BP; x86emuOp_inc_SI; x86emuOp_inc_DI;
    x86emuOp_dec_AX; x86emuOp_dec_CX; x86emuOp_dec_DX; x86emuOp_dec_BX;
    x86emuOp_dec_SP; x86emuOp_dec_BP; x86emuOp_dec_SI; x86emuOp_dec_DI;
    x86emuOp_push_AX; x86emuOp_push_CX; x86emuOp_push_DX; x86emuOp_push_BX;
    x86emuOp_push_SP; x86emuOp_push_BP; x86emuOp_push_SI; x86emuOp_push_DI;
    x86emuOp_pop_AX; x86emuOp_pop_CX; x86emuOp_pop_DX; x86emuOp_pop_BX;
    x86emuOp_pop_SP; x86emuOp_pop_BP; x86emuOp_pop_SI; x86emuOp_pop_DI;
    x86emuOp_push_all; x86emuOp_pop_all; x86emuOp_illegal_op; x86emuOp_illegal_op;
    x86emuOp_segovr_FS; x86emuOp_segovr_GS; x86emuOp_prefix_data; x86emuOp_prefix_addr;
    x86emuOp_push_word_IMM; x86emuOp_imul_word_IMM; x86emuOp_push_byte_IMM; x86emuOp_imul_byte_IMM;
    x86emuOp_ins_byte; x86emuOp_ins_word; x86emuOp_outs_byte; x86emuOp_outs_word;
    x86emuOp_jump_near_O; x86emuOp_jump_near_NO; x86emuOp_jump_near_B; x86emuOp_jump_near_NB;
    x86emuOp_jump_near_Z; x86emuOp_jump_near_NZ; x86emuOp_jump_near_BE; x86emuOp_jump_near_NBE;
    x86emuOp_jump_near_S; x86emuOp_jump_near_NS; x86emuOp_jump_near_P; x86emuOp_jump_near_NP;
    x86emuOp_jump_near_L; x86emuOp_jump_near_NL; x86emuOp_jump_near_LE; x86emuOp_jump_near_NLE;
    x86emuOp_opc80_byte_RM_IMM; x86emuOp_opc81_word_RM_IMM; x86emuOp_opc82_byte_RM_IMM; x86emuOp_opc83_word_RM_IMM;
    x86emuOp_test_byte_RM_R; x86emuOp_test_word_RM_R; x86emuOp_xchg_byte_RM_R; x86emuOp_xchg_word_RM_R;
    x86emuOp_mov_byte_RM_R; x86emuOp_mov_word_RM_R; x86emuOp_mov_byte_R_RM; x86emuOp_mov_word_R_RM;
    x86emuOp_mov_word_RM_SR; x86emuOp_lea_word_R_M; x86emuOp_mov_word_SR_RM; x86emuOp_pop_RM;
    x86emuOp_nop; x86emuOp_xchg_word_AX_CX; x86emuOp_xchg_word_AX_DX; x86emuOp_xchg_word_AX_BX;
    x86emuOp_xchg_word_AX_SP; x86emuOp_xchg_word_AX_BP; x86emuOp_xchg_word_AX_SI; x86emuOp_xchg_word_AX_DI;
    x86emuOp_cbw; x86emuOp_cwd; x86emuOp_call_far_IMM; x86emuOp_wait;
    x86emuOp_pushf_word; x86emuOp_popf_word; x86emuOp_sahf; x86emuOp_lahf;
    x86emuOp_mov_AL_M_IMM; x86emuOp_mov_AX_M_IMM; x86emuOp_mov_M_AL_IMM; x86emuOp_mov_M_AX_IMM;
    x86emuOp_movs_byte; x86emuOp_movs_word; x86emuOp_cmps_byte; x86emuOp_cmps_word;
    x86emuOp_test_AL_IMM; x86emuOp_test_AX_IMM; x86emuOp_stos_byte; x86emuOp_stos_word;
    x86emuOp_lods_byte; x86emuOp_lods_word; x86emuOp_scas_byte; x86emuOp_scas_word;
    x86emuOp_mov_byte_AL_IMM; x86emuOp_mov_byte_CL_IMM; x86emuOp_mov_byte_DL_IMM; x86emuOp_mov_byte_BL_IMM;
    x86emuOp_mov_byte_AH_IMM; x86emuOp_mov_byte_CH_IMM; x86emuOp_mov_byte_DH_IMM; x86emuOp_mov_byte_BH_IMM;
    x86emuOp_mov_word_AX_IMM; x86emuOp_mov_word_CX_IMM; x86emuOp_mov_word_DX_IMM; x86emuOp_mov_word_BX_IMM;
    x86emuOp_mov_word_SP_IMM; x86emuOp_mov_word_BP_IMM; x86emuOp_mov_word_SI_IMM; x86emuOp_mov_word_DI_IMM;
    x86emuOp_opcC0_byte_RM_MEM; x86emuOp_opcC1_word_RM_MEM; x86emuOp_ret_near_IMM; x86emuOp_ret_near;
    x86emuOp_les_R_IMM; x86emuOp_lds_R_IMM; x86emuOp_mov_byte_RM_IMM; x86emuOp_mov_word_RM_IMM;
    x86emuOp_enter; x86emuOp_leave; x86emuOp_ret_far_IMM; x86emuOp_ret_far;
    x86emuOp_int3 intrTab; x86emuOp_int_IMM intrTab; x86emuOp_into intrTab; fun op1 => run (x86emuOp_iret op1);
    x86emuOp_opcD0_byte_RM_1; x86emuOp_opcD1_word_RM_1; x86emuOp_opcD2_byte_RM_CL; x86emuOp_opcD3_word_RM_CL;
    x86emuOp_aam; x86emuOp_aad; x86emuOp_illegal_op; x86emuOp_xlat;
    x86emuOp_esc_coprocess_d8; x86emuOp_esc_coprocess_d9; x86emuOp_esc_coprocess_da; x86emuOp_esc_coprocess_db;
    x86emuOp_esc_coprocess_dc; x86emuOp_esc_coprocess_dd; x86emuOp_esc_coprocess_de; x86emuOp_esc_coprocess_df;
    x86emuOp_loopne; x86emuOp_loope; x86emuOp_loop; x86emuOp_jcxz;
    x86emuOp_in_byte_AL_IMM; x86emuOp_in_word_AX_IMM; x86emuOp_out_byte_IMM_AL; x86emuOp_out_word_IMM_AX;
    x86emuOp_call_near_IMM; x86emuOp_jump_near_IMM; x86emuOp_jump_far_IMM; x86emuOp_jump_byte_IMM;
    x86emuOp_in_byte_AL_DX; x86emuOp_in_word_AX_DX; x86emuOp_out_byte_DX_AL; x86emuOp_out_word_DX_AX;
    x86emuOp_lock; x86emuOp_illegal_op; x86emuOp_repne; x86emuOp_repe;
    x86emuOp_halt; x86emuOp_cmc; x86emuOp_opcF6_byte_RM; x86emuOp_opcF7_word_RM;
    x86emuOp_clc; x86emuOp_stc; x86emuOp_cli; x86emuOp_sti;
    x86emuOp_cld; x86emuOp_std; x86emuOp_opcFE_byte_RM; x86emuOp_opcFF_word_RM
  ].

(** One turn of the loop of [X86EMU_exec]: true when it returns. *)
Definition exec_step : Op bool :=
  i <- run (get intr);;
  if nz i && nz (Z.land i INTR_HALTED) then eret true
  else
    n <- run (get intno);;
    IF <- flags (ACCESS_FLAG F_IF);;
    (if nz i && ((nz (Z.land i INTR_SYNCH) && ((n =? 0) || (n =? 2))) || negb IF)
     then run (x86emu_intr_handle intrTab) else eret tt);;
    op1 <- run fetch_byte_imm;;
    h <- entry x86emu_optab op1;;
    h op1;;
    d <- run (get debug);;
    if nz (Z.land d DEBUG_EXIT)
    then run (put (fun m => upd_debug m (Z.ldiff d DEBUG_EXIT)));; eret true
    else eret false.

(** The loop, as long as there is fuel; the result says whether it returned. *)
Fixpoint exec_loop (fuel : nat) : Op bool :=
  match fuel with
  | O => eret false
  | S fuel' => done <- exec_step;; if done : bool then eret true else exec_loop fuel'
  end.

Definition X86EMU_exec (fuel : nat) : Op bool :=
  run (put (fun m => upd_intr m 0 (intno m)));; exec_loop fuel.
End Exec.
