(* ===== verification/X86Isa.v ===== *)
(** * The opcode map of the processor

    The regular part of the instruction set as a manual of the processor tabulates it: an
    opcode is an operation, a width and a form of operands.  [instruction] gives the meaning
    of an opcode of one byte, [instruction2] of the second byte of those that begin with 0F;
    both in terms of the operations of [prim_ops.c] and the operand decoding of [decode.c],
    whose meaning [X86Alu], [X86Shift], [X86MulDiv] and [X86Decode] establish. *)
From Stdlib Require Import ZArith Lia List Bool.
From S2P Require Import Prelude X86Flags X86Alu X86Shift X86Machine X86Decode X86MulDiv X86Ops.
Import ListNotations.
Local Open Scope Z_scope.
Local Open Scope err_scope.

(** ** The operations *)

(** ADD, OR, ADC, SBB, AND, SUB, XOR and CMP. *)
Definition arith (k : Z) : width -> Z -> Z -> Flags Z :=
  match k with 0 => op_add | 1 => op_or | 2 => op_adc | 3 => op_sbb | 4 => op_and | 5 => op_sub | 6 => op_xor | _ => op_cmp end.

(** ROL, ROR, RCL, RCR, SHL, SHR, SHL and SAR. *)
Definition shift (k : Z) : width -> Z -> Z -> Flags Z :=
  match k with 0 => op_rol | 1 => op_ror | 2 => op_rcl | 3 => op_rcr | 4 | 6 => op_shl | 5 => op_shr | _ => op_sar end.

(** The sixteen conditions: overflow, carry, zero, carry or zero, sign, parity, less, less or
    equal, and after each one its negation. *)
Definition condition (c : Z) (flg : Z) : bool :=
  let f := flag_of flg in
  match c with
  | 0 => f F_OF
  | 1 => negb (f F_OF)
  | 2 => f F_CF
  | 3 => negb (f F_CF)
  | 4 => f F_ZF
  | 5 => negb (f F_ZF)
  | 6 => f F_CF || f F_ZF
  | 7 => negb (f F_CF || f F_ZF)
  | 8 => f F_SF
  | 9 => negb (f F_SF)
  | 10 => f F_PF
  | 11 => negb (f F_PF)
  | 12 => xorb (f F_SF) (f F_OF)
  | 13 => negb (xorb (f F_SF) (f F_OF))
  | 14 => xorb (f F_SF) (f F_OF) || f F_ZF
  | _ => negb (xorb (f F_SF) (f F_OF) || f F_ZF)
  end.

Section Isa.
Context {W : Type} {sys : Sys W}.
Local Abbreviation Op := (Op W).

(** ** Operands *)

(** The width of an instruction: a byte, or as the prefix says. *)
Definition size (byte : bool) : Op width :=
  if byte then eret Byte
  else m <- run (get mode);; eret (if nz (Z.land m SYSMODE_PREFIX_DATA) then Long else Word).

Inductive operand := Mem (offset : Z) | Reg (r : Z).

Definition rm_address (md rl : Z) : Run W Z :=
  match md with 0 => decode_rm00_address rl | 1 => decode_rm01_address rl | _ => decode_rm10_address rl end.

(** The operand that the byte [md rh rl] names besides the register [rh]. *)
Definition rm_operand (md rl : Z) : Op operand :=
  if md =? 3 then eret (Reg rl) else offset <- run (rm_address md rl);; eret (Mem offset).

Definition get_reg (w : width) (r : Z) : Op Z :=
  match w with
  | Byte => p <- run (decode_rm_byte_register r);; rd_8 p
  | Word => p <- run (decode_rm_word_register r);; rd_16 p
  | Long => p <- run (decode_rm_long_register r);; rd_32 p
  end.

Definition set_reg (w : width) (r v : Z) : Op unit :=
  match w with
  | Byte => p <- run (decode_rm_byte_register r);; wr_8 p v
  | Word => p <- run (decode_rm_word_register r);; wr_16 p v
  | Long => p <- run (decode_rm_long_register r);; wr_32 p v
  end.

Definition read (w : width) (o : operand) : Op Z :=
  match o with
  | Mem a => run (by_width fetch_data_byte fetch_data_word fetch_data_long w a)
  | Reg r => get_reg w r
  end.

Definition write (w : width) (o : operand) (v : Z) : Op unit :=
  match o with
  | Mem a => run (by_width store_data_byte store_data_word store_data_long w a v)
  | Reg r => set_reg w r v
  end.

(** A value of a width, as a value of another. *)
Definition zero_extend (w : width) (v : Z) : Z := v.
Definition sign_extend (from w : width) (v : Z) : Z := wrap (bits w) (signed (bits from) v).

(** An immediate operand, and one of a byte that is extended by its sign. *)
Definition imm (w : width) : Op Z := run (by_width fetch_byte_imm fetch_word_imm fetch_long_imm w).
Definition imm8 (w : width) : Op Z := b <- run fetch_byte_imm;; eret (sign_extend Byte w b).

Definition finish : Op unit := run DECODE_CLEAR_SEGOVR.
Definition modrm : Op (Z * Z * Z) := run fetch_decode_modrm.

(** ** The forms of instructions *)

(** An operation on the other operand and a register; the result goes back unless it is a
    comparison. *)
Definition arith_E_G (byte : bool) (k : Z) : Op unit :=
  x <- modrm;; let '(md, rh, rl) := x in
  w <- size byte;;
  d <- rm_operand md rl;;
  a <- read w d;;
  b <- get_reg w rh;;
  r <- flags (arith k w a b);;
  ewhen (negb (k =? 7)) (write w d r);;
  finish.

Definition arith_G_E (byte : bool) (k : Z) : Op unit :=
  x <- modrm;; let '(md, rh, rl) := x in
  w <- size byte;;
  s <- rm_operand md rl;;
  b <- read w s;;
  a <- get_reg w rh;;
  r <- flags (arith k w a b);;
  ewhen (negb (k =? 7)) (set_reg w rh r);;
  finish.

(** On AL, AX or EAX and an immediate operand. *)
Definition arith_A_I (byte : bool) (k : Z) : Op unit :=
  w <- size byte;;
  b <- imm w;;
  a <- get_reg w 0;;
  r <- flags (arith k w a b);;
  ewhen (negb (k =? 7)) (set_reg w 0 r);;
  finish.

(** The group of immediate operands: the operation is in the second byte. *)
Definition arith_E_I (byte : bool) (operand : width -> Op Z) : Op unit :=
  x <- modrm;; let '(md, rh, rl) := x in
  w <- size byte;;
  d <- rm_operand md rl;;
  a <- (if md =? 3 then eret 0 else read w d);;
  b <- operand w;;
  a <- (if md =? 3 then read w d else eret a);;
  r <- flags (arith rh w a b);;
  ewhen (negb (rh =? 7)) (write w d r);;
  finish.

(** Shifts and rotations by 1 or an immediate count, and by CL. *)
Definition shift_operand (w : width) (d : operand) (rh n : Z) : Op unit :=
  a <- read w d;; r <- flags (shift rh w a n);; write w d r;; finish.

Definition shift_E (byte : bool) (count : Op Z) : Op unit :=
  x <- modrm;; let '(md, rh, rl) := x in
  w <- size byte;;
  d <- rm_operand md rl;;
  n <- count;;
  shift_operand w d rh n.

Definition shift_E_CL (byte : bool) : Op unit :=
  x <- modrm;; let '(md, rh, rl) := x in
  n <- run (l_reg rC);;
  w <- size byte;;
  d <- rm_operand md rl;;
  shift_operand w d rh n.

Definition test_E_G (byte : bool) : Op unit :=
  x <- modrm;; let '(md, rh, rl) := x in
  w <- size byte;;
  d <- rm_operand md rl;;
  a <- read w d;;
  b <- get_reg w rh;;
  flags (op_test w a b);;
  finish.

Definition test_A_I (byte : bool) : Op unit :=
  w <- size byte;;
  b <- imm w;;
  a <- get_reg w 0;;
  flags (op_test w a b);;
  finish.

Definition xchg_E_G (byte : bool) : Op unit :=
  x <- modrm;; let '(md, rh, rl) := x in
  w <- size byte;;
  d <- rm_operand md rl;;
  a <- read w d;;
  b <- get_reg w rh;;
  set_reg w rh a;;
  write w d b;;
  finish.

Definition xchg_A_G (r : Z) : Op unit :=
  w <- size false;;
  a <- get_reg w 0;;
  b <- get_reg w r;;
  set_reg w 0 b;;
  set_reg w r a;;
  finish.

Definition mov_E_G (byte : bool) : Op unit :=
  x <- modrm;; let '(md, rh, rl) := x in
  w <- size byte;;
  d <- rm_operand md rl;;
  v <- get_reg w rh;;
  write w d v;;
  finish.

Definition mov_G_E (byte : bool) : Op unit :=
  x <- modrm;; let '(md, rh, rl) := x in
  w <- size byte;;
  s <- rm_operand md rl;;
  v <- read w s;;
  set_reg w rh v;;
  finish.

Definition mov_G_I (byte : bool) (r : Z) : Op unit := w <- size byte;; v <- imm w;; set_reg w r v;; finish.

(** Memory at an address that the instruction holds. *)
Definition mov_A_O (byte : bool) : Op unit :=
  offset <- run fetch_word_imm;; w <- size byte;; v <- read w (Mem offset);; set_reg w 0 v;; finish.
Definition mov_O_A (byte : bool) : Op unit :=
  offset <- run fetch_word_imm;; w <- size byte;; v <- get_reg w 0;; write w (Mem offset) v;; finish.

(** INC and DEC, PUSH and POP of a register. *)
Definition unary_G (f : width -> Z -> Flags Z) (r : Z) : Op unit :=
  w <- size false;; a <- get_reg w r;; v <- flags (f w a);; set_reg w r v;; finish.
Definition push (w : width) (v : Z) : Op unit := run (match w with Long => push_long v | _ => push_word v end).
Definition pop (w : width) : Op Z := run (match w with Long => pop_long | _ => pop_word end).
Definition push_G (r : Z) : Op unit := w <- size false;; v <- get_reg w r;; push w v;; finish.
Definition pop_G (r : Z) : Op unit := w <- size false;; v <- pop w;; set_reg w r v;; finish.

(** A jump to an offset from the next instruction. *)
Definition jump_if (c ip offset : Z) : Op unit :=
  flg <- run (get R_FLG);; ewhen (condition c flg) (run (set_x rIP (u16 (ip + offset)))).
Definition jump_short (c : Z) : Op unit :=
  b <- run fetch_byte_imm;; ip <- run (x_reg rIP);; jump_if c ip (signed 8 b);; finish.
Definition jump_near (c : Z) : Op unit :=
  flg <- run (get R_FLG);;
  w <- run fetch_word_imm;; ip <- run (x_reg rIP);;
  ewhen (condition c flg) (run (set_x rIP (u16 (ip + signed 16 w))));;
  finish.

Definition set_condition (c : Z) : Op unit :=
  flg <- run (get R_FLG);;
  x <- modrm;; let '(md, rh, rl) := x in
  d <- rm_operand md rl;;
  write Byte d (Z.b2z (condition c flg));;
  finish.

(** The group of NOT, NEG and the multiplications and divisions. *)
Definition group3 (byte : bool) : Op unit :=
  x <- modrm;; let '(md, rh, rl) := x in
  (if rh =? 1 then run HALT_SYS
   else
     w <- size byte;;
     d <- rm_operand md rl;;
     match rh with
     | 0 => b <- imm w;; a <- read w d;; flags (op_test w a b)
     | _ =>
         a <- read w d;;
         match rh with
         | 2 => write w d (op_not w a)
         | 3 => r <- flags (op_neg w a);; write w d r
         | 4 => run (by_width mul_byte mul_word mul_long w a)
         | 5 => run (by_width imul_byte imul_word imul_long w a)
         | 6 => run (by_width div_byte div_word div_long w a)
         | _ => by_width (fun v => run (idiv_byte v)) (fun v => run_e (idiv_word v)) (fun v => run_e (idiv_long v)) w a
         end
     end);;
  finish.

(** MOVZX and MOVSX of a byte or a word. *)
Definition extend (from : width) (f : width -> Z -> Z) : Op unit :=
  x <- modrm;; let '(md, rh, rl) := x in
  w <- (match from with Byte => size false | _ => eret Long end);;
  s <- rm_operand md rl;;
  v <- read from s;;
  set_reg w rh (f w v);;
  finish.

(** SHLD and SHRD by an immediate count or by CL. *)
Definition double_shift (f : width -> Z -> Z -> Z -> Flags Z) (immediate : bool) : Op unit :=
  x <- modrm;; let '(md, rh, rl) := x in
  w <- size false;;
  d <- rm_operand md rl;;
  n <- (if immediate then run fetch_byte_imm else eret 0);;
  a <- read w d;;
  b <- get_reg w rh;;
  n <- (if immediate then eret n else run (l_reg rC));;
  r <- flags (f w a b n);;
  write w d r;;
  finish.

(** ** The opcode map *)

Definition instruction (op : Z) : option (Op unit) :=
  let byte := Z.even op in
  let k := (op / 8) mod 8 in
  let r := op mod 8 in
  if op <? 0x40 then
    match r with
    | 0 | 1 => Some (arith_E_G byte k)
    | 2 | 3 => Some (arith_G_E byte k)
    | 4 | 5 => Some (arith_A_I byte k)
    | _ => None
    end
  else if op <? 0x48 then Some (unary_G op_inc r)
  else if op <? 0x50 then Some (unary_G op_dec r)
  else if op <? 0x58 then Some (push_G r)
  else if op <? 0x60 then Some (pop_G r)
  else if op <? 0x70 then None
  else if op <? 0x80 then Some (jump_short (op mod 16))
  else
    match op with
    | 0x80 | 0x81 | 0x82 => Some (arith_E_I byte imm)
    | 0x83 => Some (arith_E_I false imm8)
    | 0x84 | 0x85 => Some (test_E_G byte)
    | 0x86 | 0x87 => Some (xchg_E_G byte)
    | 0x88 | 0x89 => Some (mov_E_G byte)
    | 0x8A | 0x8B => Some (mov_G_E byte)
    | 0x91 | 0x92 | 0x93 | 0x94 | 0x95 | 0x96 | 0x97 => Some (xchg_A_G r)
    | 0xA0 | 0xA1 => Some (mov_A_O byte)
    | 0xA2 | 0xA3 => Some (mov_O_A byte)
    | 0xA8 | 0xA9 => Some (test_A_I byte)
    | 0xB0 | 0xB1 | 0xB2 | 0xB3 | 0xB4 | 0xB5 | 0xB6 | 0xB7 => Some (mov_G_I true r)
    | 0xB8 | 0xB9 | 0xBA | 0xBB | 0xBC | 0xBD | 0xBE | 0xBF => Some (mov_G_I false r)
    | 0xC0 | 0xC1 => Some (shift_E byte (run fetch_byte_imm))
    | 0xD0 | 0xD1 => Some (shift_E byte (eret 1))
    | 0xD2 | 0xD3 => Some (shift_E_CL byte)
    | 0xF6 | 0xF7 => Some (group3 byte)
    | _ => None
    end.

Definition instruction2 (op : Z) : option (Op unit) :=
  if (0x80 <=? op) && (op <? 0x90) then Some (jump_near (op mod 16))
  else if (0x90 <=? op) && (op <? 0xA0) then Some (set_condition (op mod 16))
  else
    match op with
    | 0xA4 => Some (double_shift op_shld true)
    | 0xA5 => Some (double_shift op_shld false)
    | 0xAC => Some (double_shift op_shrd true)
    | 0xAD => Some (double_shift op_shrd false)
    | 0xB6 => Some (extend Byte zero_extend)
    | 0xB7 => Some (extend Word zero_extend)
    | 0xBE => Some (extend Byte (sign_extend Byte))
    | 0xBF => Some (extend Word (sign_extend Word))
    | _ => None
    end.
End Isa.
