(* ===== verification/X86OpcodeMap.v ===== *)
(** * The handlers follow the opcode map

    Each handler of [ops.c] and [ops2.c] repeats the same few lines for every form of its
    operand and for both widths; [X86Isa] says once what they all mean.  The proofs run a
    handler and its entry of the map side by side: what both do first is removed, and what
    only reads a register is replaced by its value. *)
From Stdlib Require Import ZArith Lia List Bool.
From S2P Require Import Prelude X86Flags X86Alu X86Shift X86Machine X86Decode X86MulDiv X86Ops X86OpsExt X86OpsAlu X86OpsReg X86OpsStr X86OpsCtl X86Exec X86Isa.
Import ListNotations.
Local Open Scope Z_scope.
Local Open Scope err_scope.

Section Steps.
Context {W : Type} {sys : Sys W} {laws : SysMemory W}.
Local Abbreviation Op := (Op W).

(** ** Steps both sides take *)

Lemma same_bind {A B} (f : Op A) (k k' : A -> Op B) h : (forall a h', k a h' = k' a h') -> ebind f k h = ebind f k' h.
Proof. intros H. unfold ebind. destruct (f h) as [[a h']|]; [apply H|reflexivity]. Qed.

Lemma range_3_bits (z : Z) : 0 <= Z.land z 7 < 8.
Proof. change 7 with (Z.ones 3). rewrite Z.land_ones by lia. apply Z.mod_pos_bound. lia. Qed.

Lemma modrm_bind {B} (k k' : Z * Z * Z -> Op B) h :
  (forall md rh rl h', 0 <= md < 4 -> 0 <= rh < 8 -> 0 <= rl < 8 -> k (md, rh, rl) h' = k' (md, rh, rl) h') ->
  ebind (run fetch_decode_modrm) k h = ebind (run fetch_decode_modrm) k' h.
Proof.
  intros H. unfold ebind, run, fetch_decode_modrm, bind, ret. destruct (fetch_byte_imm (emu h)) as [v s].
  apply H; try apply range_3_bits. change 3 with (Z.ones 2). rewrite Z.land_ones by lia. apply Z.mod_pos_bound. lia.
Qed.

(** An immediate operand is a value of its width, and to fetch it leaves the prefixes. *)
Lemma le16_word w a : in_word 16 (le16 (byte_at w) a).
Proof.
  pose proof (byte_at_range w a) as Ha. pose proof (byte_at_range w (a + 1)) as Hb. unfold in_word, le16 in *.
  change (2 ^ 8) with 256 in *. change (2 ^ 16) with 65536. lia.
Qed.

Lemma byte_imm_bind {B} (k k' : Z -> Op B) h :
  (forall v h', in_word 8 v -> mode (x86 (emu h')) = mode (x86 (emu h)) -> k v h' = k' v h') ->
  ebind (run fetch_byte_imm) k h = ebind (run fetch_byte_imm) k' h.
Proof. intros H. unfold ebind, run. rewrite fetch_byte_run. apply H; [apply byte_at_range|reflexivity]. Qed.

Lemma word_imm_bind {B} (k k' : Z -> Op B) h :
  (forall v h', in_word 16 v -> mode (x86 (emu h')) = mode (x86 (emu h)) -> k v h' = k' v h') ->
  ebind (run fetch_word_imm) k h = ebind (run fetch_word_imm) k' h.
Proof. intros H. unfold ebind, run. rewrite fetch_word_run. apply H; [apply le16_word|reflexivity]. Qed.

Lemma long_imm_bind {B} (k k' : Z -> Op B) h :
  (forall v h', mode (x86 (emu h')) = mode (x86 (emu h)) -> k v h' = k' v h') ->
  ebind (run fetch_long_imm) k h = ebind (run fetch_long_imm) k' h.
Proof. intros H. unfold ebind, run. rewrite fetch_long_run. apply H. reflexivity. Qed.

(** ** Steps that do not change the state *)

Lemma bind_assoc_at {A B C} (f : Op A) (g : A -> Op B) (k : B -> Op C) h : ebind (ebind f g) k h = ebind f (fun a => ebind (g a) k) h.
Proof. unfold ebind. now destruct (f h) as [[]|]. Qed.

Lemma eret_at {A B} (a : A) (k : A -> Op B) h : ebind (eret a) k h = k a h.
Proof. reflexivity. Qed.

Lemma ret_at {A B} (a : A) (k : A -> Op B) h : ebind (run (ret a)) k h = k a h.
Proof. now destruct h as [[] ?]. Qed.

Lemma get_at {A B} (f : X86EMU_regs -> A) (k : A -> Op B) h : ebind (run (get f)) k h = k (f (x86 (emu h))) h.
Proof. now destruct h as [[] ?]. Qed.

Lemma access_at {B} F (k : bool -> Op B) h : ebind (flags (ACCESS_FLAG F)) k h = k (flag_of (R_FLG (x86 (emu h))) F) h.
Proof. now destruct h as [[[] ?] ?]. Qed.

(** The registers the numbers name. *)
Definition byte_reg (r : Z) : breg :=
  match r with 0 => Lo rA | 1 => Lo rC | 2 => Lo rD | 3 => Lo rB | 4 => Hi rA | 5 => Hi rC | 6 => Hi rD | _ => Hi rB end.
Definition full_reg (r : Z) : greg :=
  match r with 0 => rA | 1 => rC | 2 => rD | 3 => rB | 4 => rSP | 5 => rBP | 6 => rSI | _ => rDI end.

Ltac eight r := assert (r = 0 \/ r = 1 \/ r = 2 \/ r = 3 \/ r = 4 \/ r = 5 \/ r = 6 \/ r = 7) as [->|[->|[->|[->|[->|[->|[->| ->]]]]]]] by lia.

Lemma byte_at_reg {B} r (k : option breg -> Op B) h : 0 <= r < 8 -> ebind (run (decode_rm_byte_register r)) k h = k (Some (byte_reg r)) h.
Proof. intros Hr. eight r; apply ret_at. Qed.

Lemma word_at_reg {B} r (k : option greg -> Op B) h : 0 <= r < 8 -> ebind (run (decode_rm_word_register r)) k h = k (Some (full_reg r)) h.
Proof. intros Hr. eight r; apply ret_at. Qed.

Lemma long_at_reg {B} r (k : option greg -> Op B) h : 0 <= r < 8 -> ebind (run (decode_rm_long_register r)) k h = k (Some (full_reg r)) h.
Proof. intros Hr. eight r; apply ret_at. Qed.

Definition byte_value (b : breg) (m : X86EMU_regs) : Z := match b with Lo r => l_of (gen m r) | Hi r => h_of (gen m r) end.

Lemma rd_8_at {B} b (k : Z -> Op B) h : ebind (rd_8 (Some b)) k h = k (byte_value b (x86 (emu h))) h.
Proof. destruct b; apply get_at. Qed.

Lemma rd_16_at {B} r (k : Z -> Op B) h : ebind (rd_16 (Some r)) k h = k (x_of (gen (x86 (emu h)) r)) h.
Proof. apply get_at. Qed.

Lemma rd_32_at {B} r (k : Z -> Op B) h : ebind (rd_32 (Some r)) k h = k (gen (x86 (emu h)) r) h.
Proof. apply get_at. Qed.

Lemma entry_at {A B} (t : list A) i (k : A -> Op B) h :
  ebind (entry t i) k h = match (if i <? 0 then None else nth_error t (Z.to_nat i)) with Some a => k a h | None => None end.
Proof. unfold ebind, entry, elift. now destruct (if i <? 0 then _ else _). Qed.

Lemma u8_id z : in_word 8 z -> u8 z = z.
Proof. apply wrap_small. Qed.

Lemma u16_x_of z : u16 (x_of z) = x_of z.
Proof. apply wrap_idem. Qed.

Lemma u16_signed_sum a z : u16 (a + signed 16 (x_of z)) = u16 (x_of z + a).
Proof.
  unfold u16, wrap, signed. destruct (_ <? _); [now rewrite Z.add_comm|].
  replace (a + (x_of z - 2 ^ 16)) with (x_of z + a + (-1) * 2 ^ 16) by lia. apply Z_mod_plus_full.
Qed.

Lemma wr_8_some b v : wr_8 (W := W) (Some b) v = run (match b with Lo r => set_l r v | Hi r => set_h r v end).
Proof. now destruct b. Qed.

Lemma wr_16_some r v : wr_16 (W := W) (Some r) v = run (set_x r v).
Proof. reflexivity. Qed.

Lemma wr_32_some r v : wr_32 (W := W) (Some r) v = run (set_e r v).
Proof. reflexivity. Qed.
End Steps.

Ltac eight r := assert (r = 0 \/ r = 1 \/ r = 2 \/ r = 3 \/ r = 4 \/ r = 5 \/ r = 6 \/ r = 7) as [->|[->|[->|[->|[->|[->|[->| ->]]]]]]] by lia.
Ltac four r := assert (r = 0 \/ r = 1 \/ r = 2 \/ r = 3) as [->|[->|[->| ->]]] by lia.


(** The names of the map, unfolded. *)
Ltac map_names :=
  cbv beta iota zeta delta [arith_E_G arith_G_E arith_A_I arith_E_I shift_operand shift_E shift_E_CL test_E_G test_A_I xchg_E_G xchg_A_G mov_E_G mov_G_E mov_G_I
    mov_A_O mov_O_A unary_G push_G pop_G push pop jump_short jump_near jump_if set_condition group3 extend zero_extend sign_extend double_shift
    modrm finish size rm_operand rm_address read write get_reg set_reg imm imm8 ewhen by_width arith shift condition Z.b2z
    op_add op_adc op_inc op_sub op_sbb op_cmp op_dec op_neg op_and op_or op_xor op_test op_not op_rol op_ror op_rcl op_rcr op_shl op_shr op_sar
    op_shld op_shrd bits x_reg e_reg l_reg h_reg s_reg byte_value negb Z.eqb Pos.eqb byte_reg full_reg].

(** One step of a side [ebind f k h] that does not change the state. *)
Ltac step_of side :=
  lazymatch side with
  | ebind (ebind ?f ?g) ?k ?h => rewrite (bind_assoc_at f g k h)
  | ebind (eret ?a) ?k ?h => change (ebind (eret a) k h) with (k a h)
  | ebind (run (get ?f)) ?k ?h => rewrite (get_at f k h)
  | ebind (flags (ACCESS_FLAG ?f)) ?k ?h => rewrite (access_at f k h)
  | ebind (run (decode_rm_byte_register ?r)) ?k ?h => rewrite (byte_at_reg r k h) by lia
  | ebind (run (decode_rm_word_register ?r)) ?k ?h => rewrite (word_at_reg r k h) by lia
  | ebind (run (decode_rm_long_register ?r)) ?k ?h => rewrite (long_at_reg r k h) by lia
  | ebind (rd_8 (Some ?b)) ?k ?h => rewrite (rd_8_at b k h)
  | ebind (rd_16 (Some ?r)) ?k ?h => rewrite (rd_16_at r k h)
  | ebind (rd_32 (Some ?r)) ?k ?h => rewrite (rd_32_at r k h)
  | ebind (wr_8 (Some ?b) ?v) ?k ?h => rewrite (wr_8_some b v)
  | ebind (wr_16 (Some ?r) ?v) ?k ?h => rewrite (wr_16_some r v)
  | ebind (wr_32 (Some ?r) ?v) ?k ?h => rewrite (wr_32_some r v)
  | ebind (entry ?t ?r) ?k ?h =>
      first [ is_var r; eight r
            | rewrite (entry_at t r k h);
              cbv beta iota zeta delta [nth_error Z.ltb Z.compare Z.to_nat Pos.to_nat Pos.iter_op Init.Nat.add opc80_byte_operation
                opc81_word_operation opc81_long_operation opc82_byte_operation opc83_word_operation opc83_long_operation
                opcD0_byte_operation opcD1_word_operation opcD1_long_operation] ]
  end.

(** Where the number of a group or a prefix decides. *)
Ltac case_step :=
  match goal with
  | |- context [match ?r with 0 => _ | _ => _ end] => is_var r; eight r
  | H : mode (x86 (emu ?h)) = _ |- context [mode (x86 (emu ?h))] => rewrite H
  | H : nz ?b = _ |- context [nz ?b] => rewrite H
  | |- context [if nz ?b then _ else _] => destruct (nz b) eqn:?
  | H : in_word 16 ?v |- context [u16 ?v] => rewrite (u16_id v H)
  | H : in_word 8 ?v |- context [u8 ?v] => rewrite (u8_id v H)
  | |- context [u16 (?a + signed 16 (x_of ?z))] => rewrite (u16_signed_sum a z)
  | |- context [u16 (x_of ?z)] => rewrite (u16_x_of z)
  end.

Ltac common_step :=
  lazymatch goal with
  | |- ?x = ?x => exact eq_refl
  | |- ebind (run fetch_decode_modrm) _ _ = _ => apply modrm_bind; let md := fresh "md" in intros md ? ? ? ? ? ?; four md
  | |- ebind (run fetch_byte_imm) _ _ = _ => apply byte_imm_bind; intros ? ? ? ?
  | |- ebind (run fetch_word_imm) _ _ = _ => apply word_imm_bind; intros ? ? ? ?
  | |- ebind (run fetch_long_imm) _ _ = _ => apply long_imm_bind; intros ? ? ?
  | |- ebind ?f _ ?h = ebind ?f _ ?h => apply same_bind; intros
  end.

Ltac side_by_side :=
  repeat (map_names; first
    [ lazymatch goal with |- ?l = _ => step_of l end
    | lazymatch goal with |- _ = ?r => step_of r end
    | case_step
    | common_step ]);
  repeat match goal with |- context [flag_of ?f ?F] => destruct (flag_of f F) end; try reflexivity.

Ltac head_of t := match t with ?f _ => head_of f | _ => t end.

(** From a number in a table to the body of its handler, then side by side. *)
Ltac follow table :=
  let h := fresh "h" in intros h;
  match goal with |- ebind (entry ?t ?op) ?k h = _ => rewrite (entry_at t op k h) end;
  cbv beta iota zeta delta [nth_error Z.ltb Z.compare Z.to_nat Pos.to_nat Pos.iter_op Init.Nat.add table];
  match goal with |- ?l = _ => let f := head_of l in unfold f end;
  side_by_side.

(** An entry of a table does what the map says of its number, if the map has it. *)
Definition as_mapped {W} {sys : Sys W} (table : list (Z -> Op W unit)) (map : Z -> option (Op W unit)) (op : Z) : Prop :=
  match map op with
  | Some i => forall h, (f <- entry table op;; f op) h = i h
  | None => True
  end.

Ltac mapped table map :=
  unfold as_mapped; let i := fresh "i" in
  match goal with |- match ?m with Some _ => _ | None => _ end => let v := eval cbv in (match m with Some _ => true | None => false end) in
    match v with true => idtac | false => exact I end end;
  cbv beta iota zeta delta [map Z.ltb Z.leb Z.compare Pos.compare Pos.compare_cont Z.even Z.modulo Z.div Z.div_eucl Z.pos_div_eucl Z.add Z.mul Z.sub Z.opp Z.pos_sub
    Z.succ_double Z.pred_double Z.double Pos.add Pos.mul Pos.succ Pos.pred_double andb Z.eqb Pos.eqb];
  follow table.

(** A stretch of a table. *)
Ltac entries table map :=
  match goal with |- Forall ?P ?l => let l' := eval vm_compute in l in change (Forall P l') end;
  repeat (apply Forall_cons; [mapped table map|]); apply Forall_nil.
