(* ===== verification/X86MapOne.v ===== *)
(** * The opcodes of one byte follow the opcode map *)
From Stdlib Require Import ZArith Lia List Bool.
From S2P Require Import Prelude X86Flags X86Alu X86Shift X86Machine X86Decode X86MulDiv X86Ops X86OpsExt X86OpsAlu X86OpsReg X86OpsStr X86OpsCtl X86Exec X86Isa X86OpcodeMap.
Import ListNotations.
Local Open Scope Z_scope.
Local Open Scope err_scope.

Section Map.
Context {W : Type} {sys : Sys W} {laws : SysMemory W}.
Variable intrTab : Z -> option (Z -> Run W unit).
Local Abbreviation one := (as_mapped (x86emu_optab intrTab) instruction).

(** Each lemma is a part of the table; numbers the map does not have hold at once. *)
Lemma map_00 : Forall one (List.map Z.of_nat (seq 0 16)).
Proof. entries @x86emu_optab @instruction. Qed.

Lemma map_10 : Forall one (List.map Z.of_nat (seq 16 16)).
Proof. entries @x86emu_optab @instruction. Qed.

Lemma map_20 : Forall one (List.map Z.of_nat (seq 32 16)).
Proof. entries @x86emu_optab @instruction. Qed.

Lemma map_30 : Forall one (List.map Z.of_nat (seq 48 16)).
Proof. entries @x86emu_optab @instruction. Qed.

Lemma map_40 : Forall one (List.map Z.of_nat (seq 64 64)).
Proof. entries @x86emu_optab @instruction. Qed.

Lemma map_80 : Forall one (List.map Z.of_nat (seq 128 2)).
Proof. entries @x86emu_optab @instruction. Qed.

Lemma map_82 : Forall one (List.map Z.of_nat (seq 130 2)).
Proof. entries @x86emu_optab @instruction. Qed.

Lemma map_84 : Forall one (List.map Z.of_nat (seq 132 28)).
Proof. entries @x86emu_optab @instruction. Qed.

Lemma map_A0 : Forall one (List.map Z.of_nat (seq 160 32)).
Proof. entries @x86emu_optab @instruction. Qed.

Lemma map_C0 : Forall one (List.map Z.of_nat (seq 192 17)).
Proof. entries @x86emu_optab @instruction. Qed.

Lemma map_D1 : Forall one (List.map Z.of_nat (seq 209 15)).
Proof. entries @x86emu_optab @instruction. Qed.

Lemma map_E0 : Forall one (List.map Z.of_nat (seq 224 23)).
Proof. entries @x86emu_optab @instruction. Qed.

Lemma map_F7 : Forall one (List.map Z.of_nat (seq 247 9)).
Proof. entries @x86emu_optab @instruction. Qed.

End Map.
