(* ===== verification/X86MapTwo.v ===== *)
(** * The opcodes of two bytes follow the opcode map *)
From Stdlib Require Import ZArith Lia List Bool.
From S2P Require Import Prelude X86Flags X86Alu X86Shift X86Machine X86Decode X86MulDiv X86Ops X86OpsExt X86OpsAlu X86OpsReg X86OpsStr X86OpsCtl X86Exec X86Isa X86OpcodeMap.
Import ListNotations.
Local Open Scope Z_scope.
Local Open Scope err_scope.

Section Map.
Context {W : Type} {sys : Sys W} {laws : SysMemory W}.
Local Abbreviation two := (as_mapped x86emu_optab2 instruction2).

(** 9D, SETNL, is missing: see [setnl_is_setl]. *)
Lemma map2_80 : Forall two (List.map Z.of_nat (seq 128 16)).
Proof. entries @x86emu_optab2 @instruction2. Qed.

Lemma map2_90 : Forall two (List.map Z.of_nat (seq 144 13)).
Proof. entries @x86emu_optab2 @instruction2. Qed.

Lemma map2_9E : Forall two (List.map Z.of_nat (seq 158 2)).
Proof. entries @x86emu_optab2 @instruction2. Qed.

Lemma map2_A0 : Forall two (List.map Z.of_nat (seq 160 16)).
Proof. entries @x86emu_optab2 @instruction2. Qed.

Lemma map2_B0 : Forall two (List.map Z.of_nat (seq 176 16)).
Proof. entries @x86emu_optab2 @instruction2. Qed.

End Map.
