(* ===== verification/X86Map.v ===== *)
(** * The emulator follows the opcode map

    The stretches of both tables put together, and programs that the emulator runs: what it
    computes, and where it departs from the processor. *)
From Stdlib Require Import ZArith Lia List Bool.
From S2P Require Import Prelude X86Flags X86Alu X86Shift X86Machine X86Decode X86MulDiv X86Ops X86OpsExt X86OpsAlu X86OpsReg X86OpsStr X86OpsCtl X86Exec X86Isa X86OpcodeMap X86MapOne X86MapTwo.
Import ListNotations.
Local Open Scope Z_scope.
Local Open Scope err_scope.

Section Map.
Context {W : Type} {sys : Sys W} {laws : SysMemory W}.
Variable intrTab : Z -> option (Z -> Run W unit).

Lemma one_byte op : 0 <= op < 256 -> as_mapped (x86emu_optab intrTab) instruction op.
Proof.
  intros Hop.
  destruct (Z_lt_le_dec op 128); [|destruct (Z_lt_le_dec op 192)].
  - destruct (Z_lt_le_dec op 64); [|now apply (stretch _ 64 64 op (map_40 intrTab)); lia].
    destruct (Z_lt_le_dec op 32); [destruct (Z_lt_le_dec op 16)|destruct (Z_lt_le_dec op 48)].
    + now apply (stretch _ 0 16 op (map_00 intrTab)); lia.
    + now apply (stretch _ 16 16 op (map_10 intrTab)); lia.
    + now apply (stretch _ 32 16 op (map_20 intrTab)); lia.
    + now apply (stretch _ 48 16 op (map_30 intrTab)); lia.
  - destruct (Z_lt_le_dec op 132); [destruct (Z_lt_le_dec op 130)|destruct (Z_lt_le_dec op 160)].
    + now apply (stretch _ 128 2 op (map_80 intrTab)); lia.
    + now apply (stretch _ 130 2 op (map_82 intrTab)); lia.
    + now apply (stretch _ 132 28 op (map_84 intrTab)); lia.
    + now apply (stretch _ 160 32 op (map_A0 intrTab)); lia.
  - destruct (Z_lt_le_dec op 224); [destruct (Z_lt_le_dec op 209)|destruct (Z_lt_le_dec op 247)].
    + now apply (stretch _ 192 17 op (map_C0 intrTab)); lia.
    + now apply (stretch _ 209 15 op (map_D1 intrTab)); lia.
    + now apply (stretch _ 224 23 op (map_E0 intrTab)); lia.
    + now apply (stretch _ 247 9 op (map_F7 intrTab)); lia.
Qed.

(** The map has nothing for the second bytes outside 80 to BF. *)
Lemma instruction2_range op : 0 <= op < 256 -> instruction2 (W := W) op <> None -> 128 <= op < 192.
Proof.
  intros Hop H. destruct (Z_lt_le_dec op 128); [|destruct (Z_lt_le_dec op 192); [lia|]]; exfalso; apply H.
  - assert (E : forallb (fun n => match instruction2 (W := W) (Z.of_nat n) with None => true | _ => false end) (seq 0 128) = true)
      by reflexivity.
    rewrite forallb_forall in E. specialize (E (Z.to_nat op) ltac:(apply in_seq; lia)). rewrite Z2Nat.id in E by lia.
    now destruct (instruction2 op).
  - assert (E : forallb (fun n => match instruction2 (W := W) (Z.of_nat n) with None => true | _ => false end) (seq 192 64) = true)
      by reflexivity.
    rewrite forallb_forall in E. specialize (E (Z.to_nat op) ltac:(apply in_seq; lia)). rewrite Z2Nat.id in E by lia.
    now destruct (instruction2 op).
Qed.

Lemma two_bytes op : 0 <= op < 256 -> op <> 0x9D -> as_mapped x86emu_optab2 instruction2 op.
Proof.
  intros Hop Hne. destruct (Z_lt_le_dec op 128) as [|].
  { unfold as_mapped. destruct (instruction2 op) eqn:E; [|exact I].
    pose proof (instruction2_range op Hop ltac:(congruence)). lia. }
  destruct (Z_lt_le_dec op 192) as [|].
  2:{ unfold as_mapped. destruct (instruction2 op) eqn:E; [|exact I].
    pose proof (instruction2_range op Hop ltac:(congruence)). lia. }
  destruct (Z_lt_le_dec op 160); [destruct (Z_lt_le_dec op 144); [|destruct (Z_lt_le_dec op 158)]|destruct (Z_lt_le_dec op 176)].
  - now apply (stretch _ 128 16 op map2_80); lia.
  - now apply (stretch _ 144 13 op map2_90); lia.
  - now apply (stretch _ 158 2 op map2_9E); lia.
  - now apply (stretch _ 160 16 op map2_A0); lia.
  - now apply (stretch _ 176 16 op map2_B0); lia.
Qed.

(** C22. The handlers follow the opcode map.  Whatever the state, the handler that
    [x86emu_optab] holds for an opcode of the regular part of the instruction set (the
    arithmetic and logic group in all its operand forms, increments, pushes and pops,
    conditional jumps, the immediate groups 80 to 83, tests, exchanges, moves, shifts and
    rotations, multiplication and division) computes exactly what the opcode map makes of it:
    the operation the number encodes, on operands of the width that the number and the prefix
    encode, with the register or the memory operand that the second byte encodes, fetched in
    the same order, and nothing else changed.  So do the handlers of the opcodes 0F 80 to
    0F BF (conditional jumps and sets, double shifts, extending moves) with the one exception
    of 0F 9D. *)
Theorem handlers_follow_the_map (op : Z) (i : Op W unit) (h : Host W) :
  0 <= op < 256 ->
  (instruction op = Some i -> (f <- entry (x86emu_optab intrTab) op;; f op) h = i h) /\
  (instruction2 op = Some i -> op <> 0x9D -> (f <- entry x86emu_optab2 op;; f op) h = i h).
Proof.
  intros Hop. split.
  - intros E. pose proof (one_byte op Hop) as H. unfold as_mapped in H. rewrite E in H. apply H.
  - intros E Hne. pose proof (two_bytes op Hop Hne) as H. unfold as_mapped in H. rewrite E in H. apply H.
Qed.
End Map.

(** ** Programs *)

(** Code at 1000h; the rest of the first bytes halts. *)
Definition program (code : list Z) : mem :=
  fun a => if in_range 0x1000 (Z.of_nat (length code)) a then nth (Z.to_nat (a - 0x1000)) code 0 else 0.
Definition loaded (code : list Z) : Host _ :=
  let e := bios_init (program code) tt in mkHost (Build_Emu (upd_gen (x86 e) rIP 0x1000) (world e)) 0.

(** AX and the flag CF where the program halts within 100 steps. *)
Definition outcome (code : list Z) : option (bool * Z * bool) :=
  match @X86EMU_exec _ bios (fun _ => None) 100 (loaded code) with
  | Some (returned, h) => Some (returned, x_of (gen (x86 (emu h)) rA), flag_of (R_FLG (x86 (emu h))) F_CF)
  | None => None
  end.

(** MOV CX,5; MOV AX,0; ADD AX,CX; LOOP; HLT. *)
Example sum_to_five : outcome [0xB9; 5; 0; 0xB8; 0; 0; 0x01; 0xC8; 0xE2; 0xFC; 0xF4] = Some (true, 15, false).
Proof. vm_compute. reflexivity. Qed.

(** CALL a procedure that multiplies AL by 7 and returns. *)
Example call_and_return : outcome [0xB0; 6; 0xE8; 1; 0; 0xF4; 0xB3; 7; 0xF6; 0xE3; 0xC3] = Some (true, 42, false).
Proof. vm_compute. reflexivity. Qed.

Lemma handlers_follow_the_map_witness :
  (f <- entry (@x86emu_optab _ bios (fun _ => None)) 0x01;; f 0x01) (loaded [0xC8]) = @arith_E_G _ bios false 0 (loaded [0xC8]).
Proof.
  exact (proj1 (@handlers_follow_the_map _ bios bios_laws (fun _ => None) 0x01 _ (loaded [0xC8]) ltac:(lia)) eq_refl).
Defined.

(** ** Departures from the processor *)

(** MOV AL,[v]; CMP AL,5; opcode 0F 9D on AL.  The processor sets AL if AL was not less;
    [x86emuOp2_set_byte] sets it if it was less; [x86emuOp2_long_jump] has the condition right
    for 0F 8D. *)
Definition cmp_setnl (v : Z) : list Z := [0xB0; v; 0x3C; 5; 0x0F; 0x9D; 0xC0; 0xF4].

Example setnl_is_setl : outcome (cmp_setnl 3) = Some (true, 1, true) /\ outcome (cmp_setnl 7) = Some (true, 0, false).
Proof. split; vm_compute; reflexivity. Qed.

(** MOV CX,16; BTS [2000h],CX; MOV AX,[2001h].  The bit 16 from 2000h is bit 0 of the byte
    2002h, which is the upper byte of the word read; the handler sets it in the byte 2001h,
    for it adds the number of words to the address as a number of bytes. *)
Example bts_word_offset : outcome [0xB9; 0x10; 0; 0x0F; 0xAB; 0x0E; 0; 0x20; 0xA1; 0x01; 0x20; 0xF4] = Some (true, 0x0001, false).
Proof. vm_compute. reflexivity. Qed.

(** MOV AX,-1; IMUL AX,AX,2: the product -2 fits, and the carry is set. *)
Example imul_negative_carry : outcome [0xB8; 0xFF; 0xFF; 0x6B; 0xC0; 2; 0xF4] = Some (true, 0xFFFE, true).
Proof. vm_compute. reflexivity. Qed.

(** MOV AX,16384; IMUL AX,AX,2: the product 32768 does not fit, and the carry is clear. *)
Example imul_overflow_missed : outcome [0xB8; 0; 0x40; 0x6B; 0xC0; 2; 0xF4] = Some (true, 0x8000, false).
Proof. vm_compute. reflexivity. Qed.

(** MOV EAX,FFFF0000h; LEA EAX,[1234h]; SHR EAX,16: the upper half of EAX is kept. *)
Example lea_writes_a_word :
  outcome [0x66; 0xB8; 0; 0; 0xFF; 0xFF; 0x66; 0x8D; 0x06; 0x34; 0x12; 0x66; 0xC1; 0xE8; 0x10; 0xF4] = Some (true, 0xFFFF, false).
Proof. vm_compute. reflexivity. Qed.

(** MOV AX, from the segment register 6: the handler reads through the null pointer. *)
Example segment_register_6_faults : outcome [0x8C; 0xF0; 0xF4] = None.
Proof. vm_compute. reflexivity. Qed.

(** MOV DX,8000h; MOV AX,0; MOV CX,FFFFh; IDIV CX: the emulator divides INT_MIN by -1. *)
Example idiv_traps : outcome [0xBA; 0; 0x80; 0xB8; 0; 0; 0xB9; 0xFF; 0xFF; 0xF7; 0xF9; 0xF4] = None.
Proof. vm_compute. reflexivity. Qed.

(** MOV CX,1; MOV DI,2000h; STOSD with the prefixes 66 F3; MOV AX,DI.  The handler of F3, like
    those of F0 and F2, ends as an instruction does and drops the prefixes before it, so
    the operands are words. *)
Example rep_drops_prefixes : outcome [0xB9; 1; 0; 0xBF; 0; 0x20; 0x66; 0xF3; 0xAB; 0x89; 0xF8; 0xF4] = Some (true, 0x2002, false).
Proof. vm_compute. reflexivity. Qed.
