(* ===== verification/X86Safe.v ===== *)
(** * Computations of the emulator that keep the machine well-formed

    A machine is well-formed when every register holds a value of its width.  [safe k m Q]:
    from a well-formed machine, [m] does not fault (unless [F] holds), and leaves one that is
    well-formed.  On the way it may be known what one register holds, [k], which is what the
    loops that count a register down need; and an instruction ends with the prefixes
    dropped or the machine halted, [Ended]. *)
From Stdlib Require Import ZArith Lia List Bool.
From S2P Require Import Prelude Hoare X86Flags X86Alu X86Shift X86Machine X86Decode X86MulDiv X86Ops.
Import ListNotations.
Local Open Scope Z_scope.
Local Open Scope err_scope.

(** Every register has a value of its type. *)
Record wf (m : X86EMU_regs) : Prop := {
  wf_gen : forall r, in_word 32 (gen m r);
  wf_seg : forall s, in_word 16 (seg m s);
  wf_FLG : in_word 32 (R_FLG m);
  wf_mode : in_word 32 (mode m);
  wf_intno : in_word 8 (intno m)
}.

(** No prefix is in force, or the machine is halted. *)
Definition finished (m : X86EMU_regs) : Prop := Z.land (mode m) SYSMODE_CLRMASK = 0 \/ nz (Z.land (intr m) INTR_HALTED) = true.

(** ** Words *)

Lemma in_word_le w v z : 0 <= w <= v -> in_word w z -> in_word v z.
Proof. intros Hw. unfold in_word. assert (2 ^ w <= 2 ^ v) by (apply Z.pow_le_mono_r; lia). lia. Qed.

Lemma in_word_bits w z : 0 <= w -> in_word w z <-> wrap w z = z.
Proof. intros Hw. split; [apply wrap_small|]. intros <-. now apply wrap_range. Qed.

Lemma in_word_lor w a b : 0 <= w -> in_word w a -> in_word w b -> in_word w (Z.lor a b).
Proof.
  intros Hw Ha Hb. apply in_word_bits; [easy|]. apply Z.bits_inj'. intros i Hi. rewrite testbit_wrap by easy.
  destruct (Z.ltb_spec i w); [reflexivity|]. now rewrite Z.lor_spec, (in_word_testbit_high w a), (in_word_testbit_high w b).
Qed.

Lemma in_word_lxor w a b : 0 <= w -> in_word w a -> in_word w b -> in_word w (Z.lxor a b).
Proof.
  intros Hw Ha Hb. apply in_word_bits; [easy|]. apply Z.bits_inj'. intros i Hi. rewrite testbit_wrap by easy.
  destruct (Z.ltb_spec i w); [reflexivity|]. now rewrite Z.lxor_spec, (in_word_testbit_high w a), (in_word_testbit_high w b).
Qed.

Lemma in_word_ldiff w a b : 0 <= w -> in_word w a -> in_word w (Z.ldiff a b).
Proof.
  intros Hw Ha. apply in_word_bits; [easy|]. apply Z.bits_inj'. intros i Hi. rewrite testbit_wrap by easy.
  destruct (Z.ltb_spec i w); [reflexivity|]. now rewrite Z.ldiff_spec, (in_word_testbit_high w a).
Qed.

Lemma in_word_land w a b : 0 <= w -> in_word w a -> in_word w (Z.land a b).
Proof.
  intros Hw Ha. apply in_word_bits; [easy|]. apply Z.bits_inj'. intros i Hi. rewrite testbit_wrap by easy.
  destruct (Z.ltb_spec i w); [reflexivity|]. now rewrite Z.land_spec, (in_word_testbit_high w a).
Qed.

Lemma x_set_word e v : in_word 32 e -> in_word 32 (x_set e v).
Proof. intros He. apply in_word_lor; [easy| |]; [now apply in_word_ldiff|]. apply (in_word_le 16); [easy|]. now apply wrap_range. Qed.

Lemma l_set_word e v : in_word 32 e -> in_word 32 (l_set e v).
Proof. intros He. apply in_word_lor; [easy| |]; [now apply in_word_ldiff|]. apply (in_word_le 8); [easy|]. now apply wrap_range. Qed.

Lemma h_set_word e v : in_word 32 e -> in_word 32 (h_set e v).
Proof.
  intros He. apply in_word_lor; [easy| |]; [now apply in_word_ldiff|]. pose proof (wrap_range 8 v ltac:(lia)) as Hv.
  rewrite Z.shiftl_mul_pow2 by easy. unfold in_word, u8 in *. change (2 ^ 8) with 256 in *. change (2 ^ 32) with 4294967296. lia.
Qed.

(** ** Flag operations *)

(** A flag operation that keeps the register in its width. *)
Definition flags_ok {A} (f : Flags A) : Prop := forall FLG, in_word 32 FLG -> in_word 32 (snd (f FLG)).

Lemma flags_ok_bind {A B} (f : Flags A) (k : A -> Flags B) : flags_ok f -> (forall a, flags_ok (k a)) -> flags_ok (bind f k).
Proof.
  intros Hf Hk FLG H. unfold bind. specialize (Hf FLG H). destruct (f FLG) as [a FLG']. now apply Hk.
Qed.

Lemma flags_ok_ret {A} (a : A) : flags_ok (ret a).
Proof. now intros FLG. Qed.

Lemma flags_ok_access F : flags_ok (ACCESS_FLAG F).
Proof. now intros FLG. Qed.

Lemma flags_ok_clear F : flags_ok (CLEAR_FLAG F).
Proof. intros FLG H. now apply in_word_ldiff. Qed.

Lemma flags_ok_set F : in_word 32 F -> flags_ok (SET_FLAG F).
Proof. intros HF FLG H. now apply in_word_lor. Qed.

Lemma flags_ok_toggle F : in_word 32 F -> flags_ok (TOGGLE_FLAG F).
Proof. intros HF FLG H. now apply in_word_lxor. Qed.

Lemma flags_ok_cond c F : in_word 32 F -> flags_ok (CONDITIONAL_SET_FLAG c F).
Proof. intros HF. destruct c; [now apply flags_ok_set|apply flags_ok_clear]. Qed.

Ltac small_word := unfold in_word; split; [discriminate|reflexivity].

Ltac fhead t := match t with ?f _ => fhead f | _ => t end.

Ltac flags_ok :=
  repeat lazymatch goal with
  | |- flags_ok (bind _ _) => apply flags_ok_bind; [|intros]
  | |- flags_ok (ret _) => apply flags_ok_ret
  | |- flags_ok (ACCESS_FLAG _) => apply flags_ok_access
  | |- flags_ok (CLEAR_FLAG _) => apply flags_ok_clear
  | |- flags_ok (SET_FLAG _) => apply flags_ok_set; small_word
  | |- flags_ok (TOGGLE_FLAG _) => apply flags_ok_toggle; small_word
  | |- flags_ok (CONDITIONAL_SET_FLAG _ _) => apply flags_ok_cond; small_word
  | |- flags_ok (match ?x with _ => _ end) => destruct x
  | |- flags_ok (let x := _ in _) => cbv zeta
  | |- flags_ok ?f => let h := fhead f in unfold h; cbv beta
  end.

(** ** The judgement *)

Inductive ghost := Plain (k : option (greg * Z)) | Ended.

Section Safe.
Context {W : Type} {sys : Sys W} {laws : SysMemory W}.
(** Whether a computation may fault. *)
Variable F : Prop.
Local Abbreviation Op := (Op W).

Definition in_ghost (g : ghost) (h : Host W) : Prop :=
  let m := x86 (emu h) in
  wf m /\
  match g with
  | Plain None => True
  | Plain (Some (r, x)) => gen m r = x
  | Ended => finished m
  end.

Definition safe (k : option (greg * Z)) {A} (m : Op A) (Q : ghost -> A -> Prop) : Prop :=
  forall h, in_ghost (Plain k) h -> hoare F m (fun a h' => exists g, in_ghost g h' /\ Q g a) h.

(** What keeps the machine well-formed and the known register; what keeps it well-formed;
    what ends an instruction. *)
Definition kept {A} (m : Op A) (R : A -> Prop) : Prop := forall k, safe k m (fun g a => g = Plain k /\ R a).
Definition clean {A} (m : Op A) (R : A -> Prop) : Prop := safe None m (fun g a => g = Plain None /\ R a).
Definition ends (m : Op unit) : Prop := safe None m (fun g _ => g = Ended).

Definition after (r : greg) (f : Z -> Z) (k : option (greg * Z)) : option (greg * Z) :=
  match k with Some (r', x) => Some (r', if greg_beq r' r then f x else x) | None => None end.
Definition sets (r : greg) (f : Z -> Z) (m : Op unit) : Prop := forall k, safe k m (fun g _ => g = Plain (after r f k)).

(** ** Composition *)

Lemma safe_mono k {A} (m : Op A) (Q Q' : ghost -> A -> Prop) : safe k m Q -> (forall g a, Q g a -> Q' g a) -> safe k m Q'.
Proof.
  intros H HQ h Hh. eapply hoare_mono; [exact (H h Hh)|]. intros a h' (g & Hg & Ha). exists g. auto.
Qed.

Lemma safe_bind k {A B} (m : Op A) (f : A -> Op B) (R : option (greg * Z) -> A -> Prop) Q :
  safe k m (fun g a => exists k', g = Plain k' /\ R k' a) -> (forall k' a, R k' a -> safe k' (f a) Q) -> safe k (ebind m f) Q.
Proof.
  intros Hm Hf h Hh. apply hoare_bind. eapply hoare_mono; [exact (Hm h Hh)|].
  intros a h' (g & Hg & k' & -> & Ha). exact (Hf k' a Ha h' Hg).
Qed.

Lemma safe_kept k {A B} (m : Op A) (f : A -> Op B) R Q : kept m R -> (forall a, R a -> safe k (f a) Q) -> safe k (ebind m f) Q.
Proof.
  intros Hm Hf. apply safe_bind with (fun k' a => k' = k /\ R a).
  - eapply safe_mono; [apply Hm|]. intros g a [-> Ha]. eauto.
  - intros k' a [-> Ha]. auto.
Qed.

Lemma safe_clean {A B} (m : Op A) (f : A -> Op B) R Q : clean m R -> (forall a, R a -> safe None (f a) Q) -> safe None (ebind m f) Q.
Proof.
  intros Hm Hf. apply safe_bind with (fun k' a => k' = None /\ R a).
  - eapply safe_mono; [apply Hm|]. intros g a [-> Ha]. eauto.
  - intros k' a [-> Ha]. auto.
Qed.

Lemma safe_sets k {B} r f (m : Op unit) (c : unit -> Op B) Q : sets r f m -> safe (after r f k) (c tt) Q -> safe k (ebind m c) Q.
Proof.
  intros Hm Hf. apply safe_bind with (fun k' a => k' = after r f k).
  - eapply safe_mono; [apply Hm|]. intros g a ->. eauto.
  - now intros k' [] ->.
Qed.

Lemma safe_assoc k {A B C} (m : Op A) (f : A -> Op B) (c : B -> Op C) Q :
  safe k (ebind m (fun a => ebind (f a) c)) Q -> safe k (ebind (ebind m f) c) Q.
Proof. intros H h Hh. unfold hoare. rewrite ebind_assoc. exact (H h Hh). Qed.

Lemma safe_ret k {A} (a : A) (Q : ghost -> A -> Prop) : Q (Plain k) a -> safe k (eret a) Q.
Proof. intros H h Hh. exists (Plain k). auto. Qed.

Lemma safe_ret_bind k {A B} (a : A) (f : A -> Op B) Q : safe k (f a) Q -> safe k (ebind (eret a) f) Q.
Proof. exact (fun H => H). Qed.

Lemma safe_run_ret k {A B} (a : A) (f : A -> Op B) Q : safe k (f a) Q -> safe k (ebind (run (ret a)) f) Q.
Proof. intros H [s c] Hh. exact (H (mkHost s c) Hh). Qed.

Lemma safe_run_bind k {A B C} (f : Run W A) (g : A -> Run W B) (c : B -> Op C) Q :
  safe k (ebind (run f) (fun a => ebind (run (g a)) c)) Q -> safe k (ebind (run (bind f g)) c) Q.
Proof.
  intros H h Hh. specialize (H h Hh). unfold hoare, ebind, run, bind in *. destruct (f (emu h)) as [a s]. exact H.
Qed.

Lemma safe_run_last k {A} (m : Run W A) Q : safe k (ebind (run m) eret) Q -> safe k (run m) Q.
Proof.
  intros H h Hh. specialize (H h Hh). unfold hoare, ebind, run in *. destruct (m (emu h)) as [a s]. exact H.
Qed.

Lemma safe_forget k {A} (m : Op A) Q : safe None m Q -> safe k m Q.
Proof. intros H h [Hw _]. apply H. now split. Qed.

Lemma safe_know r {A} (m : Op A) Q : (forall x, in_word 32 x -> safe (Some (r, x)) m Q) -> safe None m Q.
Proof. intros H h [Hw _]. apply (H (gen (x86 (emu h)) r)); [apply Hw|]. now split. Qed.

Lemma kept_clean {A} (m : Op A) R : kept m R -> clean m R.
Proof. intros H. apply (H None). Qed.

Lemma sets_clean r f m : sets r f m -> clean m (fun _ => True).
Proof. intros H. eapply safe_mono; [apply (H None)|]. now intros g a ->. Qed.

(** ** Elementary steps *)

Lemma kept_pure {A} (f : Host W -> A) (R : A -> Prop) : (forall h, wf (x86 (emu h)) -> R (f h)) -> kept (fun h => Some (f h, h)) R.
Proof. intros H k h Hh. exists (Plain k). split; [exact Hh|]. split; [easy|]. apply H, Hh. Qed.

Lemma kept_get {A} (f : X86EMU_regs -> A) (R : A -> Prop) : (forall m, wf m -> R (f m)) -> kept (run (get f)) R.
Proof. intros H k [[m w] c] Hh. exists (Plain k). split; [exact Hh|]. split; [easy|]. apply H, Hh. Qed.

Lemma kept_any {A} (f : X86EMU_regs -> A) : kept (run (get f)) (fun _ => True).
Proof. now apply kept_get. Qed.

Lemma known_e_reg r x : safe (Some (r, x)) (run (e_reg r)) (fun g a => g = Plain (Some (r, x)) /\ a = x).
Proof. intros [[m w] c] Hh. exists (Plain (Some (r, x))). split; [exact Hh|]. split; [easy|]. apply Hh. Qed.

Lemma known_x_reg r x : safe (Some (r, x)) (run (x_reg r)) (fun g a => g = Plain (Some (r, x)) /\ a = x_of x).
Proof. intros [[m w] c] Hh. exists (Plain (Some (r, x))). split; [exact Hh|]. split; [easy|]. destruct Hh as [_ E]. cbn in *. now rewrite E. Qed.

Lemma kept_e_reg r : kept (run (e_reg r)) (in_word 32).
Proof. apply kept_get. intros m H. apply H. Qed.

Lemma kept_x_reg r : kept (run (x_reg r)) (in_word 16).
Proof. apply kept_get. intros m H. now apply wrap_range. Qed.

Lemma kept_l_reg r : kept (run (l_reg r)) (in_word 8).
Proof. apply kept_get. intros m H. now apply wrap_range. Qed.

Lemma kept_h_reg r : kept (run (h_reg r)) (in_word 8).
Proof. apply kept_get. intros m H. now apply wrap_range. Qed.

Lemma kept_s_reg r : kept (run (s_reg r)) (in_word 16).
Proof. apply kept_get. intros m H. apply H. Qed.

Lemma kept_FLG : kept (run (get R_FLG)) (in_word 32).
Proof. apply kept_get. intros m H. apply H. Qed.

Lemma kept_put f : (forall m, wf m -> wf (f m) /\ forall r, gen (f m) r = gen m r) -> kept (run (put f)) (fun _ => True).
Proof.
  intros H k [[m w] c] [Hw Hk]. exists (Plain k). cbn in *. destruct (H m Hw) as [Hw' Hg]. split; [|easy]. split; [exact Hw'|].
  destruct k as [[r x]|]; [|easy]. cbn. now rewrite Hg.
Qed.

Lemma kept_world {A} (f : W -> A * W) (R : A -> Prop) :
  (forall w, R (fst (f w))) -> kept (run (fun s => let (a, w) := f (world s) in (a, Build_Emu (x86 s) w))) R.
Proof.
  intros H k [[m w] c] Hh. specialize (H w). unfold run, hoare. cbn in *. destruct (f w) as [a w']. exists (Plain k). now split.
Qed.

Lemma kept_get_counter : kept (get_counter (W := W)) (fun _ => True).
Proof. now apply (kept_pure counter). Qed.

Lemma kept_set_counter c : kept (set_counter (W := W) c) (fun _ => True).
Proof. intros k [s c'] Hh. exists (Plain k). now split. Qed.

Lemma kept_ret {A} (a : A) (R : A -> Prop) : R a -> kept (eret a) R.
Proof. intros H k. now apply safe_ret. Qed.

Lemma kept_flags {A} (f : Flags A) : flags_ok f -> kept (flags f) (fun _ => True).
Proof.
  intros H k [[m w] c] [Hw Hk]. unfold flags, run, on_flags, hoare. cbn in *. specialize (H (R_FLG m) (wf_FLG m Hw)).
  destruct (f (R_FLG m)) as [a FLG]. exists (Plain k). split; [|easy]. split; [|exact Hk]. now destruct Hw.
Qed.

Lemma kept_on_flags {A} (f : Flags A) : flags_ok f -> kept (run (on_flags f)) (fun _ => True).
Proof. exact (kept_flags f). Qed.

Lemma sets_put r f (v : X86EMU_regs -> Z) :
  (forall m, wf m -> v m = f (gen m r)) -> (forall z, in_word 32 z -> in_word 32 (f z)) -> sets r f (run (put (fun m => upd_gen m r (v m)))).
Proof.
  intros Hv Hf k [[m w] c] [Hw Hk]. exists (Plain (after r f k)). split; [|easy]. cbn in *. split.
  - constructor; cbn; try apply Hw. intros r'. destruct (greg_beq r' r); [|apply Hw]. rewrite Hv by easy. apply Hf, Hw.
  - destruct k as [[r' x]|]; [|easy]. cbn. destruct (greg_beq r' r) eqn:E; [|exact Hk].
    apply internal_greg_dec_bl in E. subst. now rewrite Hv.
Qed.

Lemma sets_e r v : sets r (fun _ => u32 v) (run (set_e r v)).
Proof. apply sets_put with (v := fun _ => u32 v); [easy|]. intros z _. now apply wrap_range. Qed.

Lemma sets_x r v : sets r (fun x => x_set x v) (run (set_x r v)).
Proof. apply sets_put with (v := fun m => x_set (gen m r) v); [easy|]. intros z. apply x_set_word. Qed.

Lemma sets_l r v : sets r (fun x => l_set x v) (run (set_l r v)).
Proof. apply sets_put with (v := fun m => l_set (gen m r) v); [easy|]. intros z. apply l_set_word. Qed.

Lemma sets_h r v : sets r (fun x => h_set x v) (run (set_h r v)).
Proof. apply sets_put with (v := fun m => h_set (gen m r) v); [easy|]. intros z. apply h_set_word. Qed.

Lemma kept_set_s s v : kept (run (set_s s v)) (fun _ => True).
Proof.
  apply kept_put. intros m Hw. split; [|easy]. constructor; cbn; try apply Hw. intros s'.
  destruct (sreg_beq s' s); [now apply wrap_range|apply Hw].
Qed.

Lemma kept_mode f : (forall z, in_word 32 z -> in_word 32 (f z)) -> kept (run (set_mode f)) (fun _ => True).
Proof. intros Hf. apply kept_put. intros m Hw. split; [|easy]. constructor; cbn; try apply Hw. apply Hf, Hw. Qed.

Lemma kept_set_FLG f : (forall m, wf m -> in_word 32 (f m)) -> kept (run (put (fun m => upd_FLG m (f m)))) (fun _ => True).
Proof. intros Hf. apply kept_put. intros m Hw. split; [|easy]. constructor; cbn; try apply Hw. now apply Hf. Qed.

Lemma kept_set_intr f g :
  (forall m, wf m -> in_word 8 (g m)) -> kept (run (put (fun m => upd_intr m (f m) (g m)))) (fun _ => True).
Proof. intros Hg. apply kept_put. intros m Hw. split; [|easy]. constructor; cbn; try apply Hw. now apply Hg. Qed.

Lemma byte_word w a : in_word 8 (byte_at w a).
Proof. apply byte_at_range. Qed.

Lemma le16_range w a : in_word 16 (le16 (byte_at w) a).
Proof.
  pose proof (byte_word w a). pose proof (byte_word w (a + 1)). unfold in_word, le16 in *.
  change (2 ^ 8) with 256 in *. change (2 ^ 16) with 65536. lia.
Qed.

Lemma le32_range w a : in_word 32 (le32 (byte_at w) a).
Proof.
  pose proof (le16_range w a). pose proof (le16_range w (a + 2)). unfold in_word, le32 in *.
  change (2 ^ 16) with 65536 in *. change (2 ^ 32) with 4294967296. lia.
Qed.

Lemma kept_rdb a : kept (run (load sys_rdb a)) (in_word 8).
Proof. apply (kept_world (fun w => (sys_rdb (u32 a) w, w))). intros w. cbn. rewrite rdb_bytes. apply byte_word. Qed.

Lemma kept_rdw a : kept (run (load sys_rdw a)) (in_word 16).
Proof. apply (kept_world (fun w => (sys_rdw (u32 a) w, w))). intros w. cbn. rewrite rdw_bytes. apply le16_range. Qed.

Lemma kept_rdl a : kept (run (load sys_rdl a)) (in_word 32).
Proof. apply (kept_world (fun w => (sys_rdl (u32 a) w, w))). intros w. cbn. rewrite rdl_bytes. apply le32_range. Qed.

Lemma kept_store f a v : kept (run (store f a v)) (fun _ => True).
Proof. now apply (kept_world (fun w => (tt, f (u32 a) v w))). Qed.

Lemma kept_input f p : kept (run (input f p)) (fun _ => True).
Proof. now apply (kept_world (fun w => f p w)). Qed.

Lemma kept_output f p v : kept (run (output f p v)) (fun _ => True).
Proof. now apply (kept_world (fun w => (tt, f p v w))). Qed.

(** The end of an instruction. *)
Lemma clear_segovr_ends : ends (run DECODE_CLEAR_SEGOVR).
Proof.
  intros [[m w] c] [Hw _]. exists Ended. split; [|easy]. split.
  - constructor; cbn; try apply Hw. apply in_word_ldiff; [easy|apply Hw].
  - left. cbn. apply Z.bits_inj'. intros i _. rewrite Z.land_spec, Z.ldiff_spec, Z.bits_0.
    now destruct (Z.testbit (mode m) i), (Z.testbit SYSMODE_CLRMASK i).
Qed.

Lemma nz_lor_halted i : nz (Z.land (Z.lor i INTR_HALTED) INTR_HALTED) = true.
Proof.
  unfold nz. apply negb_true_iff, Z.eqb_neq. intros H. apply (f_equal (fun z => Z.testbit z 2)) in H.
  rewrite Z.land_spec, Z.lor_spec, Z.bits_0 in H. unfold INTR_HALTED in H. cbn in H. now rewrite orb_true_r in H.
Qed.

Lemma halt_ends : ends (run HALT_SYS).
Proof.
  intros [[m w] c] [Hw _]. exists Ended. split; [|easy]. split; [constructor; apply Hw|]. right. apply nz_lor_halted.
Qed.

Lemma kept_halt : kept (run HALT_SYS) (fun _ => True).
Proof. apply kept_set_intr. intros m Hw. apply Hw. Qed.

(** ** Operands and tables *)

Lemma kept_byte_register r : 0 <= r < 8 -> kept (run (decode_rm_byte_register r)) (fun p => exists b, p = Some b).
Proof.
  intros Hr. assert (r = 0 \/ r = 1 \/ r = 2 \/ r = 3 \/ r = 4 \/ r = 5 \/ r = 6 \/ r = 7) as H by lia.
  repeat destruct H as [-> | H]; try subst; intros k [s c] Hh; exists (Plain k); eauto.
Qed.

Lemma kept_word_register r : 0 <= r < 8 -> kept (run (decode_rm_word_register r)) (fun p => exists b, p = Some b).
Proof.
  intros Hr. assert (r = 0 \/ r = 1 \/ r = 2 \/ r = 3 \/ r = 4 \/ r = 5 \/ r = 6 \/ r = 7) as H by lia.
  repeat destruct H as [-> | H]; try subst; intros k [s c] Hh; exists (Plain k); eauto.
Qed.

Lemma kept_long_register r : 0 <= r < 8 -> kept (run (decode_rm_long_register r)) (fun p => exists b, p = Some b).
Proof. exact (kept_word_register r). Qed.

Lemma kept_seg_register r : kept (run (decode_rm_seg_register r)) (fun _ => True).
Proof.
  intros k. unfold decode_rm_seg_register.
  assert (H : safe k (run (bind HALT_SYS (fun _ => ret None))) (fun g (_ : option sreg) => g = Plain k /\ True)).
  { intros [s c] Hh. exact (kept_halt k (mkHost s c) Hh). }
  repeat match goal with |- context [match ?x with _ => _ end] => destruct x end; try exact H;
    intros [s c] Hh; exists (Plain k); auto.
Qed.

Lemma kept_rd_8 b : kept (rd_8 (Some b)) (in_word 8).
Proof. destruct b; [exact (kept_l_reg r)|exact (kept_h_reg r)]. Qed.

Lemma kept_rd_16 r : kept (rd_16 (Some r)) (in_word 16).
Proof. exact (kept_x_reg r). Qed.

Lemma kept_rd_32 r : kept (rd_32 (Some r)) (in_word 32).
Proof. exact (kept_e_reg r). Qed.

Lemma sets_wr_16 r v : sets r (fun x => x_set x v) (wr_16 (Some r) v).
Proof. exact (sets_x r v). Qed.

Lemma sets_wr_32 r v : sets r (fun _ => u32 v) (wr_32 (Some r) v).
Proof. exact (sets_e r v). Qed.

Lemma clean_wr_8 b v : clean (wr_8 (Some b) v) (fun _ => True).
Proof. destruct b; eapply sets_clean; [exact (sets_l r v)|exact (sets_h r v)]. Qed.

(** A pointer to a segment register may be null, if a computation may fault. *)
Lemma kept_rd_s p : (p = None -> F) -> kept (rd_s p) (fun _ => True).
Proof.
  intros H k h Hh. destruct p as [s|]; [|exact (H eq_refl)]. now apply (kept_get (fun m => seg m s) (fun _ => True)).
Qed.

Lemma kept_wr_s p v : (p = None -> F) -> kept (wr_s p v) (fun _ => True).
Proof. intros H k h Hh. destruct p as [s|]; [|exact (H eq_refl)]. now apply (kept_set_s s v). Qed.

Lemma kept_entry {A} (t : list A) i : 0 <= i < Z.of_nat (length t) -> kept (entry t i) (fun f => In f t).
Proof.
  intros Hi k h Hh. unfold entry, elift, hoare. destruct (Z.ltb_spec i 0); [lia|].
  destruct (nth_error t (Z.to_nat i)) as [f|] eqn:E.
  - exists (Plain k). split; [exact Hh|]. split; [easy|]. now apply nth_error_In in E.
  - apply nth_error_None in E. lia.
Qed.

(** ** Loops *)

Lemma safe_loop {A} (P : nat -> option (greg * Z) -> A -> Prop) (body : A -> Op (bool * A)) :
  (forall n k a, P n k a ->
    safe k (body a) (fun g r => exists k', g = Plain k' /\ (fst r = true \/ exists n', n = S n' /\ P n' k' (snd r)))) ->
  forall fuel n k a, P n k a -> (n < fuel)%nat -> safe k (loop fuel body a) (fun g _ => g = Plain None).
Proof.
  intros Hbody. induction fuel as [|fuel IH]; intros n k a HP Hn; [lia|].
  cbn [loop]. apply safe_bind with (fun k' r => fst r = true \/ exists n', n = S n' /\ P n' k' (snd r)).
  { eapply safe_mono; [apply (Hbody n k a HP)|]. intros g r (k' & -> & H). eauto. }
  intros k' [[] a'] [Hstop | (n' & -> & HP')]; cbn [fst snd] in *; try discriminate.
  - apply safe_forget. now apply safe_ret.
  - apply safe_forget. now apply safe_ret.
  - apply (IH n'); [exact HP'|lia].
Qed.

(** A register that is counted: [f] says how many turns are left. *)
Definition counts (r : greg) (f : Z -> Z) (n : nat) (k : option (greg * Z)) (u : unit) : Prop :=
  exists x, k = Some (r, x) /\ in_word 32 x /\ f x = Z.of_nat n.

(** One turn: the loop is left, or one turn less is left. *)
Definition turn (r : greg) (f : Z -> Z) (body : Op (bool * unit)) : Prop :=
  forall x, in_word 32 x -> 0 <= f x ->
    safe (Some (r, x)) body (fun g s => exists x', g = Plain (Some (r, x')) /\ (fst s = true \/ in_word 32 x' /\ 0 < f x /\ f x' = f x - 1)).

Lemma safe_counting r f body fuel x :
  turn r f body -> in_word 32 x -> 0 <= f x < Z.of_nat fuel ->
  safe (Some (r, x)) (loop fuel (fun _ => body) tt) (fun g _ => g = Plain None).
Proof.
  intros Hturn Hx Hf. apply safe_loop with (P := counts r f) (n := Z.to_nat (f x)).
  - intros n k u (y & -> & Hy & Hn). eapply safe_mono; [apply Hturn; [exact Hy|lia]|].
    intros g s (y' & -> & H). exists (Some (r, y')). split; [easy|]. destruct H as [H | (Hy' & Hpos & Hn')]; [now left|]. right.
    exists (Nat.pred n). split; [lia|]. exists y'. split; [easy|]. split; [easy|lia].
  - exists x. split; [easy|]. split; [easy|lia].
  - lia.
Qed.

(** The three ways in which the handlers count. *)
Lemma safe_cx_loop {B} body (c : unit -> Op B) Q :
  turn rC x_of body -> safe None (c tt) Q ->
  safe None (ebind (run (x_reg rC)) (fun cx => ebind (loop (S (Z.to_nat cx)) (fun _ => body) tt) c)) Q.
Proof.
  intros Hturn Hc. apply (safe_know rC). intros x Hx.
  apply safe_bind with (fun k' a => k' = Some (rC, x) /\ a = x_of x).
  { eapply safe_mono; [apply known_x_reg|]. intros g a [-> ->]. eauto. }
  intros k' a [-> ->]. apply safe_bind with (fun k' _ => k' = None).
  { eapply safe_mono; [apply (safe_counting rC x_of)|]; [exact Hturn|exact Hx| |].
    - pose proof (wrap_range 16 x ltac:(lia)) as H. unfold in_word in H. fold (u16 x) (x_of x) in H. lia.
    - intros g u ->. eauto. }
  now intros k' [] ->.
Qed.

Lemma safe_scan r f (g : Z -> Z) (m : Op unit) body n :
  sets r g m -> turn r f body -> (forall x, in_word 32 x -> in_word 32 (g x) /\ 0 <= f (g x) < Z.of_nat n) ->
  safe None (ebind m (fun _ => loop n (fun _ => body) tt)) (fun g _ => g = Plain None).
Proof.
  intros Hset Hturn Hstart. apply (safe_know r). intros x Hx. eapply safe_sets; [exact Hset|]. cbn [after].
  replace (greg_beq r r) with true by (symmetry; now apply internal_greg_dec_lb).
  destruct (Hstart x Hx). now apply (safe_counting r f).
Qed.

Lemma clean_count_down (body : Z -> Op (bool * Z)) c :
  in_word 32 c -> (forall c, in_word 32 c -> clean (body c) (fun s => fst s = true \/ 0 < c /\ snd s = c - 1)) ->
  clean (loop (S (Z.to_nat c)) body c) (fun _ => True).
Proof.
  intros Hc Hbody. eapply safe_mono.
  - apply safe_loop with (P := fun n k a => k = None /\ in_word 32 a /\ n = Z.to_nat a) (n := Z.to_nat c); [|easy|lia].
    intros n k a (-> & Ha & ->). eapply safe_mono; [apply Hbody, Ha|]. intros g s [-> H]. exists None. split; [easy|].
    destruct H as [H | [Hpos H]]; [now left|]. right. exists (Z.to_nat (a - 1)). rewrite H. unfold in_word in *.
    split; [lia|]. split; [easy|]. split; [lia|easy].
  - now intros g a ->.
Qed.

Lemma clean_count_up (body : Z -> Op (bool * Z)) n :
  0 < n -> (forall i, 1 <= i -> clean (body i) (fun s => fst s = true \/ i < n /\ snd s = i + 1)) ->
  clean (loop (Z.to_nat n) body 1) (fun _ => True).
Proof.
  intros Hn Hbody. eapply safe_mono.
  - apply safe_loop with (P := fun t k i => k = None /\ 1 <= i /\ t = Z.to_nat (n - i)) (n := Z.to_nat (n - 1)); [|split; [easy|split; [lia|easy]]|lia].
    intros t k i (-> & Hi & ->). eapply safe_mono; [apply Hbody, Hi|]. intros g s [-> H]. exists None. split; [easy|].
    destruct H as [H | [Hpos H]]; [now left|]. right. exists (Z.to_nat (n - (i + 1))). rewrite H.
    split; [lia|]. split; [easy|]. split; [lia|easy].
  - now intros g a ->.
Qed.

(** ** Forms of sequences *)

Lemma safe_last k {A} (m : Op A) Q : safe k (ebind m eret) Q -> safe k m Q.
Proof. intros H h Hh. specialize (H h Hh). unfold hoare, ebind in *. now destruct (m h) as [[a h']|]. Qed.

Lemma safe_known_x {B} r x (f : Z -> Op B) Q : safe (Some (r, x)) (f (x_of x)) Q -> safe (Some (r, x)) (ebind (run (x_reg r)) f) Q.
Proof.
  intros H. apply safe_bind with (fun k' a => k' = Some (r, x) /\ a = x_of x).
  - eapply safe_mono; [apply known_x_reg|]. intros g a [-> ->]. eauto.
  - now intros k' a [-> ->].
Qed.

Lemma safe_known_e {B} r x (f : Z -> Op B) Q : safe (Some (r, x)) (f x) Q -> safe (Some (r, x)) (ebind (run (e_reg r)) f) Q.
Proof.
  intros H. apply safe_bind with (fun k' a => k' = Some (r, x) /\ a = x).
  - eapply safe_mono; [apply known_e_reg|]. intros g a [-> ->]. eauto.
  - now intros k' a [-> ->].
Qed.

Lemma ends_last (m : Op unit) : ends m -> safe None (ebind m eret) (fun g _ => g = Ended).
Proof. intros H h Hh. specialize (H h Hh). unfold hoare, ebind in *. now destruct (m h) as [[a h']|]. Qed.

(** A block without a value. *)
Lemma safe_block {B} (m : Op unit) (c : unit -> Op B) Q : clean m (fun _ => True) -> safe None (c tt) Q -> safe None (ebind m c) Q.
Proof. intros Hm Hc. eapply safe_clean; [exact Hm|]. now intros []. Qed.

(** The searches for a bit, up from 0 and down from the top. *)
Lemma clean_scan r (left g : Z -> Z) (m : Op unit) body n :
  sets r g m -> turn r left body -> (forall x, in_word 32 x -> in_word 32 (g x) /\ 0 <= left (g x) < Z.of_nat n) ->
  clean (ebind m (fun _ => loop n (fun _ => body) tt)) (fun _ => True).
Proof. intros Hm Hb Hg. eapply safe_mono; [eapply safe_scan; eassumption|]. now intros g' u ->. Qed.

Lemma clean_up_32 r body : turn r (fun x => 32 - x) body -> clean (ebind (wr_32 (Some r) 0) (fun _ => loop 33 (fun _ => body) tt)) (fun _ => True).
Proof. intros H. eapply clean_scan; [apply sets_wr_32|exact H|]. intros x _. split; [now apply wrap_range|]. change (u32 0) with 0. lia. Qed.

Lemma clean_down_32 r body : turn r (fun x => x) body -> clean (ebind (wr_32 (Some r) 31) (fun _ => loop 33 (fun _ => body) tt)) (fun _ => True).
Proof. intros H. eapply clean_scan; [apply sets_wr_32|exact H|]. intros x _. split; [now apply wrap_range|]. change (u32 31) with 31. lia. Qed.

Lemma clean_up_16 r body : turn r (fun x => 16 - x_of x) body -> clean (ebind (wr_16 (Some r) 0) (fun _ => loop 33 (fun _ => body) tt)) (fun _ => True).
Proof.
  intros H. eapply clean_scan; [apply sets_wr_16|exact H|]. intros x Hx. split; [now apply x_set_word|].
  rewrite x_of_x_set. change (u16 0) with 0. lia.
Qed.

Lemma clean_down_16 r body : turn r x_of body -> clean (ebind (wr_16 (Some r) 15) (fun _ => loop 33 (fun _ => body) tt)) (fun _ => True).
Proof.
  intros H. eapply clean_scan; [apply sets_wr_16|exact H|]. intros x Hx. split; [now apply x_set_word|].
  rewrite x_of_x_set. change (u16 15) with 15. lia.
Qed.
End Safe.

Lemma greg_beq_refl r : greg_beq r r = true.
Proof. now apply internal_greg_dec_lb. Qed.

(** ** Automation *)

Create HintDb kept discriminated.
Create HintDb clean discriminated.
Create HintDb setters discriminated.
#[export] Hint Constants Opaque : kept clean setters.
#[export] Hint Resolve kept_e_reg kept_x_reg kept_l_reg kept_h_reg kept_s_reg kept_FLG kept_flags kept_on_flags kept_get_counter kept_set_counter kept_set_s kept_rdb kept_rdw kept_rdl kept_store
  kept_input kept_output kept_halt kept_byte_register kept_word_register kept_long_register kept_seg_register kept_rd_8 kept_rd_16
  kept_rd_32 kept_rd_s kept_wr_s kept_entry kept_mode kept_set_FLG kept_set_intr : kept.
#[export] Hint Resolve kept_any | 10 : kept.
#[export] Hint Resolve clean_wr_8 : clean.
#[export] Hint Resolve sets_e sets_x sets_l sets_h sets_wr_16 sets_wr_32 : setters.

(** Side conditions. *)
Ltac word_goal :=
  intros;
  repeat first
    [ eassumption
    | match goal with H : wf _ |- in_word _ _ => apply H end
    | apply wrap_range; discriminate
    | apply x_set_word
    | apply in_word_lor; [discriminate| |]
    | apply in_word_ldiff; [discriminate|]
    | apply in_word_land; [discriminate|]
    | small_word
    | match goal with H : in_word 8 ?a |- in_word 32 ?a => apply (in_word_le 8); [lia|exact H] end
    | match goal with H : in_word 16 ?a |- in_word 32 ?a => apply (in_word_le 16); [lia|exact H] end ].

#[export] Hint Extern 1 (flags_ok _) => solve [flags_ok] : kept.
#[export] Hint Extern 1 (_ <= _ < _) => solve [eassumption | cbn; lia] : kept.
#[export] Hint Extern 1 (in_word _ _) => solve [cbv beta; word_goal] : kept.

Ltac four r := assert (r = 0 \/ r = 1 \/ r = 2 \/ r = 3) as [->|[->|[->| ->]]] by lia.
Ltac eight r := assert (r = 0 \/ r = 1 \/ r = 2 \/ r = 3 \/ r = 4 \/ r = 5 \/ r = 6 \/ r = 7) as [->|[->|[->|[->|[->|[->|[->| ->]]]]]]] by lia.

(** What a step tells of its value. *)
Ltac fact a H :=
  cbv beta in H;
  lazymatch type of H with
  | exists b, _ = Some b => destruct H as [? ->]
  | True => clear H
  | _ => lazymatch type of a with (Z * Z * Z)%type => destruct a as [[? ?] ?]; destruct H as (? & ? & ?) | _ => idtac end
  end.

Ltac case_on x :=
  first
    [ is_var x; match goal with H : 0 <= x < 4 |- _ => four x; clear H end
    | is_var x; match goal with H : 0 <= x < 8 |- _ => eight x; clear H end
    | destruct x eqn:? ];
  cbv iota.

Ltac safe_prim :=
  first
    [ eapply safe_kept; [solve [eauto 4 with kept nocore]|let a := fresh "v" in let H := fresh "Hv" in intros a H; fact a H]
    | eapply safe_clean; [solve [eauto 5 with clean kept nocore]|let a := fresh "v" in let H := fresh "Hv" in intros a H; fact a H]
    | eapply safe_sets; [solve [eauto 2 with setters nocore]|cbn [after greg_beq]; rewrite ?greg_beq_refl] ].

Ltac safe_step :=
  lazymatch goal with
  | |- kept _ _ _ => let k := fresh "k" in intros k
  | |- clean _ _ _ => unfold clean
  | |- ends _ _ => unfold ends
  | |- safe _ _ (eret _) _ => apply safe_ret
  | |- safe _ None (run DECODE_CLEAR_SEGOVR) (fun g _ => g = Ended) => apply clear_segovr_ends
  | |- safe _ None (ebind (run DECODE_CLEAR_SEGOVR) eret) _ => apply ends_last, clear_segovr_ends
  | |- safe _ None (run X86EMU_halt_sys) (fun g _ => g = Ended) => apply halt_ends
  | |- safe _ None (run HALT_SYS) (fun g _ => g = Ended) => apply halt_ends
  | |- turn _ _ _ _ => let x := fresh "x" in intros x ? ?
  | |- safe _ None (ebind (wr_32 (Some _) 0) (fun _ => loop _ _ _)) _ => apply clean_up_32
  | |- safe _ None (ebind (wr_32 (Some _) 31) (fun _ => loop _ _ _)) _ => apply clean_down_32
  | |- safe _ None (ebind (wr_16 (Some _) 0) (fun _ => loop _ _ _)) _ => apply clean_up_16
  | |- safe _ None (ebind (wr_16 (Some _) 15) (fun _ => loop _ _ _)) _ => apply clean_down_16
  | |- safe _ None (ebind (loop (S (Z.to_nat ?c)) _ ?c) _) _ =>
      eapply safe_clean; [apply clean_count_down; [word_goal|let c := fresh "c" in intros c ?]|intros ? _]
  | |- safe _ None (ebind (loop (Z.to_nat ?n) _ 1) _) _ =>
      eapply safe_clean; [apply clean_count_up; [zcmp; lia|let i := fresh "i" in intros i ?]|intros ? _]
  | |- safe _ _ (match ?x with _ => _ end) _ => case_on x
  | |- safe _ (Some (?r, ?x)) (ebind (run (x_reg ?r)) _) _ => apply safe_known_x
  | |- safe _ (Some (?r, ?x)) (ebind (run (e_reg ?r)) _) _ => apply safe_known_e
  | |- safe _ (Some (?r, ?x)) (ebind (rd_16 (Some ?r)) _) _ => apply safe_known_x
  | |- safe _ (Some (?r, ?x)) (ebind (rd_32 (Some ?r)) _) _ => apply safe_known_e
  | |- safe _ None (ebind (A := unit) (match _ with _ => _ end) _) _ => apply safe_block
  | |- safe _ None (ebind (A := unit) (ewhen _ _) _) _ => apply safe_block
  | |- safe _ _ (ewhen ?b _) _ => unfold ewhen
  | |- safe _ _ (ebind (ebind _ _) _) _ => apply safe_assoc
  | |- safe _ _ (ebind (eret _) _) _ => apply safe_ret_bind
  | |- safe _ _ (ebind (run (bind _ _)) _) _ => apply safe_run_bind
  | |- safe _ _ (ebind (run (ret _)) _) _ => apply safe_run_ret
  | |- safe _ _ (ebind (run (match ?x with _ => _ end)) _) _ => case_on x
  | |- safe _ _ (ebind (match ?x with _ => _ end) _) _ => case_on x
  | |- safe _ None (ebind (run (x_reg rC)) (fun cx => ebind (loop (@?n cx) (@?b cx) (@?u cx)) (@?c cx))) _ => apply safe_cx_loop
  | |- safe _ _ (ebind _ _) _ => safe_prim
  | |- safe _ _ _ _ => apply safe_last
  end; cbv beta zeta.

(** The end of a block, and of a turn of a loop: what is left to show of the value. *)
Ltac turn_left :=
  rewrite ?x_of_x_set; unfold u8, u16, u32, in_word in *; change (2 ^ 32) with 4294967296 in *; change (2 ^ 16) with 65536 in *; zcmp; try discriminate;
  match goal with
  | |- context [x_of ?x] => let H := fresh "Hx" in pose proof (wrap_range 16 x ltac:(lia)) as H; fold (u16 x) (x_of x) in H
  | _ => idtac
  end;
  rewrite ?wrap_idem, ?wrap_small by (unfold in_word in *; change (2 ^ 32) with 4294967296 in *; change (2 ^ 16) with 65536 in *; lia);
  unfold in_word in *; lia.

Ltac safe_leaf :=
  lazymatch goal with
  | |- exists x, Plain _ = Plain (Some (_, x)) /\ _ =>
      eexists; split; [reflexivity|]; first [left; reflexivity|right; split; [word_goal|split; turn_left]]
  | |- _ = _ /\ (true = true \/ _) => split; [reflexivity|left; reflexivity]
  | |- _ = _ /\ (_ \/ _) => split; [reflexivity|right; split; turn_left]
  | |- _ /\ _ => split; [reflexivity|]; solve [exact I | reflexivity | eassumption | word_goal]
  | _ => try solve [exact I | reflexivity | eassumption | word_goal]
  end.

Ltac safe_steps := repeat safe_step; try (cbn [fst snd]; safe_leaf).
