(* ===== verification/X86SafePrims.v ===== *)
(** * The functions the handlers call keep the machine well-formed *)
From Stdlib Require Import ZArith Lia List Bool.
From S2P Require Import Prelude Hoare X86Flags X86Alu X86Shift X86Machine X86Decode X86MulDiv X86Ops X86Safe.
Import ListNotations.
Local Open Scope Z_scope.
Local Open Scope err_scope.

Section Prims.
Context {W : Type} {sys : Sys W} {laws : SysMemory W}.
Variable F : Prop.

(** ** Stack and fetches *)

Lemma clean_push_word v : clean F (run (push_word v)) (fun _ => True).
Proof. unfold push_word. safe_steps. Qed.

Lemma clean_push_long v : clean F (run (push_long v)) (fun _ => True).
Proof. unfold push_long. safe_steps. Qed.

Lemma clean_pop_word : clean F (run pop_word) (in_word 16).
Proof. unfold pop_word. safe_steps. Qed.

Lemma clean_pop_long : clean F (run pop_long) (in_word 32).
Proof. unfold pop_long. safe_steps. Qed.

Lemma clean_fetch_byte_imm : clean F (run fetch_byte_imm) (in_word 8).
Proof. unfold fetch_byte_imm. safe_steps. Qed.

Lemma clean_fetch_word_imm : clean F (run fetch_word_imm) (in_word 16).
Proof. unfold fetch_word_imm. safe_steps. Qed.

Lemma clean_fetch_long_imm : clean F (run fetch_long_imm) (in_word 32).
Proof. unfold fetch_long_imm. safe_steps. Qed.

#[local] Hint Resolve clean_fetch_byte_imm clean_fetch_word_imm clean_fetch_long_imm : clean.

Lemma range_low a n : 0 <= n -> 0 <= Z.land a (Z.ones n) < 2 ^ n.
Proof. intros Hn. rewrite Z.land_ones by easy. apply Z.mod_pos_bound. now apply Z.pow_pos_nonneg. Qed.

Lemma clean_modrm : clean F (run fetch_decode_modrm) (fun x => let '(md, rh, rl) := x in 0 <= md < 4 /\ 0 <= rh < 8 /\ 0 <= rl < 8).
Proof. unfold fetch_decode_modrm. safe_steps. repeat split; apply (range_low _ 2) || apply (range_low _ 3); easy. Qed.

(** ** Data access *)

Lemma kept_data_segment : kept (W := W) F (run get_data_segment) (fun _ => True).
Proof. unfold get_data_segment. safe_steps. Qed.

#[local] Hint Resolve kept_data_segment : kept.

Lemma kept_fetch_data_byte a : kept F (run (fetch_data_byte a)) (in_word 8).
Proof. unfold fetch_data_byte. safe_steps. Qed.

Lemma kept_fetch_data_word a : kept F (run (fetch_data_word a)) (in_word 16).
Proof. unfold fetch_data_word. safe_steps. Qed.

Lemma kept_fetch_data_long a : kept F (run (fetch_data_long a)) (in_word 32).
Proof. unfold fetch_data_long. safe_steps. Qed.

Lemma kept_store_data_byte a v : kept F (run (store_data_byte a v)) (fun _ => True).
Proof. unfold store_data_byte. safe_steps. Qed.

Lemma kept_store_data_word a v : kept F (run (store_data_word a v)) (fun _ => True).
Proof. unfold store_data_word. safe_steps. Qed.

Lemma kept_store_data_long a v : kept F (run (store_data_long a v)) (fun _ => True).
Proof. unfold store_data_long. safe_steps. Qed.

Lemma kept_mem_access_word a : kept F (run (mem_access_word a)) (in_word 16).
Proof. exact (kept_rdw F a). Qed.

Lemma kept_fetch_data_byte_abs s a : kept F (run (fetch_data_byte_abs s a)) (in_word 8).
Proof. exact (kept_rdb F _). Qed.

Lemma kept_fetch_data_word_abs s a : kept F (run (fetch_data_word_abs s a)) (in_word 16).
Proof. exact (kept_rdw F _). Qed.

Lemma kept_fetch_data_long_abs s a : kept F (run (fetch_data_long_abs s a)) (in_word 32).
Proof. exact (kept_rdl F _). Qed.

Lemma kept_store_data_byte_abs s a v : kept F (run (store_data_byte_abs s a v)) (fun _ => True).
Proof. apply kept_store. Qed.

Lemma kept_store_data_word_abs s a v : kept F (run (store_data_word_abs s a v)) (fun _ => True).
Proof. apply kept_store. Qed.

Lemma kept_store_data_long_abs s a v : kept F (run (store_data_long_abs s a v)) (fun _ => True).
Proof. apply kept_store. Qed.

#[local] Hint Resolve kept_fetch_data_byte_abs kept_fetch_data_word_abs kept_fetch_data_long_abs kept_store_data_byte_abs
  kept_store_data_word_abs kept_store_data_long_abs : kept.

(** ** Addresses *)

Lemma kept_stack_segment : kept (W := W) F (run stack_segment) (fun _ => True).
Proof. apply kept_mode. word_goal. Qed.

#[local] Hint Resolve kept_stack_segment : kept.

Lemma clean_sib sib md : clean F (run (decode_sib_address sib md)) (fun _ => True).
Proof. unfold decode_sib_address. safe_steps. Qed.

#[local] Hint Resolve clean_sib : clean.

Lemma clean_rm00 rm : clean F (run (decode_rm00_address rm)) (fun _ => True).
Proof. unfold decode_rm00_address, x_sum, x_off, e_off. safe_steps. Qed.

Lemma clean_rm01 rm : clean F (run (decode_rm01_address rm)) (fun _ => True).
Proof. unfold decode_rm01_address, x_sum, x_off, e_off. safe_steps. Qed.

Lemma clean_rm10 rm : clean F (run (decode_rm10_address rm)) (fun _ => True).
Proof. unfold decode_rm10_address, x_sum, x_off, e_off. safe_steps. Qed.

(** ** Multiplication and division *)

Lemma clean_raise n : kept (W := W) F (run (x86emu_intr_raise n)) (fun _ => True).
Proof. apply kept_set_intr. word_goal. Qed.

#[local] Hint Resolve clean_raise : kept.

Lemma clean_mul_byte v : clean (W := W) F (run (mul_byte v)) (fun _ => True).
Proof. unfold mul_byte, set_cf_of, clear_cf_of. safe_steps. Qed.

Lemma clean_mul_word v : clean (W := W) F (run (mul_word v)) (fun _ => True).
Proof. unfold mul_word, set_cf_of, clear_cf_of. safe_steps. Qed.

Lemma clean_mul_long v : clean (W := W) F (run (mul_long v)) (fun _ => True).
Proof. unfold mul_long, set_cf_of, clear_cf_of. safe_steps. Qed.

Lemma clean_imul_byte v : clean (W := W) F (run (imul_byte v)) (fun _ => True).
Proof. unfold imul_byte, set_cf_of, clear_cf_of. safe_steps. Qed.

Lemma clean_imul_word v : clean (W := W) F (run (imul_word v)) (fun _ => True).
Proof. unfold imul_word, set_cf_of, clear_cf_of. safe_steps. Qed.

Lemma clean_imul_long v : clean (W := W) F (run (imul_long v)) (fun _ => True).
Proof. unfold imul_long, set_cf_of, clear_cf_of. safe_steps. Qed.

Lemma clean_div_byte v : clean (W := W) F (run (div_byte v)) (fun _ => True).
Proof. unfold div_byte, set_cf_of, clear_cf_of. safe_steps. Qed.

Lemma clean_div_word v : clean (W := W) F (run (div_word v)) (fun _ => True).
Proof. unfold div_word, set_cf_of, clear_cf_of. safe_steps. Qed.

Lemma clean_div_long v : clean (W := W) F (run (div_long v)) (fun _ => True).
Proof. unfold div_long, set_cf_of, clear_cf_of. safe_steps. Qed.

Lemma clean_idiv_byte v : clean (W := W) F (run (idiv_byte v)) (fun _ => True).
Proof. unfold idiv_byte, set_cf_of, clear_cf_of. safe_steps. Qed.

(** The signed divisions of words and longs may trap. *)
Lemma run_e_total {A} (f : Run W A) R : clean F (run f) R -> clean F (run_e (total f)) R.
Proof.
  intros H h Hh. specialize (H h Hh). unfold hoare, run_e, total, run in *. now destruct (f (emu h)) as [a s].
Qed.

Lemma run_e_bind {A B} (f : StateE (Emu W) A) (k : A -> StateE (Emu W) B) R Q :
  clean F (run_e f) R -> (forall a, R a -> clean F (run_e (k a)) Q) -> clean F (run_e (ebind f k)) Q.
Proof.
  intros Hf Hk h Hh. specialize (Hf h Hh). unfold hoare, run_e, ebind in *.
  destruct (f (emu h)) as [[a s]|]; [|exact Hf]. destruct Hf as (g & Hg & -> & Ha). exact (Hk a Ha _ Hg).
Qed.

Lemma run_e_lift {A} (o : option A) : F -> clean (W := W) F (run_e (elift o)) (fun _ => True).
Proof.
  intros HF h Hh. unfold hoare, run_e, elift. destruct o; [|exact HF]. exists (Plain None). split; [|easy]. now destruct h.
Qed.

Lemma clean_idiv_word v : F -> clean (W := W) F (run_e (idiv_word v)) (fun _ => True).
Proof.
  intros HF. unfold idiv_word.
  eapply run_e_bind; [apply run_e_total, kept_clean, (kept_x_reg F)|intros dx _; cbv beta].
  eapply run_e_bind; [apply run_e_total, kept_clean, (kept_x_reg F)|intros ax _; cbv beta zeta].
  destruct (v =? 0); [apply run_e_total, kept_clean, clean_raise|].
  eapply run_e_bind; [now apply run_e_lift|intros [q r] _; apply run_e_total]. safe_steps.
Qed.

Lemma clean_idiv_long v : F -> clean (W := W) F (run_e (idiv_long v)) (fun _ => True).
Proof.
  intros HF. unfold idiv_long.
  eapply run_e_bind; [apply run_e_total, kept_clean, (kept_e_reg F)|intros dx _; cbv beta].
  eapply run_e_bind; [apply run_e_total, kept_clean, (kept_e_reg F)|intros ax _; cbv beta zeta].
  destruct (v =? 0); [apply run_e_total, kept_clean, clean_raise|].
  eapply run_e_bind; [now apply run_e_lift|intros [q r] _; apply run_e_total]. safe_steps.
Qed.

(** ** String input and output *)

Lemma clean_times n body : clean (W := W) F (run body) (fun _ => True) -> clean F (run (times n body)) (fun _ => True).
Proof.
  intros H. induction n as [|n IH]; cbn [times]; unfold clean; apply safe_last; [apply safe_run_ret; now apply safe_ret|].
  apply safe_run_bind. eapply safe_clean; [exact H|]. intros _ _. eapply safe_clean; [exact IH|]. intros [] _. now apply safe_ret.
Qed.

#[local] Hint Resolve clean_times : clean.

Lemma clean_ins_transfer rd st inc :
  (forall s a v, kept (W := W) F (run (st s a v)) (fun _ => True)) -> clean (W := W) F (run (ins_transfer rd st inc)) (fun _ => True).
Proof. intros H. unfold ins_transfer. safe_steps. Qed.

Lemma clean_outs_transfer wr ld R inc :
  (forall s a, kept (W := W) F (run (ld s a)) R) -> clean (W := W) F (run (outs_transfer wr ld inc)) (fun _ => True).
Proof. intros H. unfold outs_transfer. safe_steps. Qed.

Lemma clean_rep_done : clean (W := W) F (run rep_done) (fun _ => True).
Proof. unfold rep_done. safe_steps. Qed.

Lemma clean_rep_count : clean (W := W) F (run rep_count) (fun _ => True).
Proof. unfold rep_count. safe_steps. Qed.

#[local] Hint Resolve clean_ins_transfer clean_outs_transfer clean_rep_done clean_rep_count : clean.

Lemma clean_ins size : clean (W := W) F (run (ins size)) (fun _ => True).
Proof. unfold ins. safe_steps. Qed.

Lemma clean_outs size : clean F (run (outs size)) (fun _ => True).
Proof. unfold outs. safe_steps. Qed.

(** ** Interrupts *)

(** The handlers that the embedding program installs keep the machine well-formed. *)
Definition handlers_keep (intrTab : Z -> option (Z -> Run W unit)) : Prop :=
  forall n f s, intrTab n = Some f -> wf (x86 s) -> wf (x86 (snd (f n s))).

Lemma clean_handler intrTab n f :
  handlers_keep intrTab -> intrTab n = Some f -> clean F (run (f n)) (fun _ => True).
Proof.
  intros H E [s c] [Hw _]. specialize (H n f s E Hw). unfold hoare, run. cbn [emu counter]. destruct (f n s) as [u s'].
  exists (Plain None). split; [|easy]. split; [exact H|easy].
Qed.

#[local] Hint Resolve kept_mem_access_word : kept.
#[local] Hint Resolve clean_push_word clean_pop_word clean_handler : clean.

Lemma clean_intr_handle intrTab : handlers_keep intrTab -> clean F (run (x86emu_intr_handle intrTab)) (fun _ => True).
Proof. intros H. unfold x86emu_intr_handle. safe_steps. Qed.

Lemma ends_iret op : ends F (run (x86emuOp_iret op)).
Proof. unfold x86emuOp_iret. safe_steps. Qed.
End Prims.

#[export] Hint Resolve kept_fetch_data_byte kept_fetch_data_word kept_fetch_data_long kept_store_data_byte kept_store_data_word kept_store_data_long
  kept_mem_access_word kept_fetch_data_byte_abs kept_fetch_data_word_abs kept_fetch_data_long_abs kept_store_data_byte_abs
  kept_store_data_word_abs kept_store_data_long_abs clean_raise : kept.
#[export] Hint Resolve clean_push_word clean_push_long clean_pop_word clean_pop_long clean_fetch_byte_imm clean_fetch_word_imm clean_fetch_long_imm
  clean_modrm clean_rm00 clean_rm01 clean_rm10 clean_mul_byte clean_mul_word clean_mul_long clean_imul_byte clean_imul_word clean_imul_long
  clean_div_byte clean_div_word clean_div_long clean_idiv_byte clean_idiv_word clean_idiv_long clean_ins clean_outs clean_handler
  clean_intr_handle : clean.
