(* ===== verification/X86SafeOps.v ===== *)
(** * The handlers keep the machine well-formed *)
From Stdlib Require Import ZArith Lia List Bool.
From S2P Require Import Prelude Hoare X86Flags X86Alu X86Shift X86Machine X86Decode X86MulDiv X86Ops X86OpsExt X86OpsAlu X86OpsReg X86OpsStr X86OpsCtl X86Exec X86Safe X86SafePrims.
Import ListNotations.
Local Open Scope Z_scope.
Local Open Scope err_scope.

Section Handlers.
Context {W : Type} {sys : Sys W} {laws : SysMemory W}.
Variable F : Prop.

(** The segment overrides and the sizes of operands and addresses. *)
Definition prefix (op : Z) : bool := existsb (Z.eqb op) [0x26; 0x2E; 0x36; 0x3E; 0x64; 0x65; 0x66; 0x67].

Definition instr (table : list (Z -> Op W unit)) (op : Z) : Prop :=
  safe F None (f <- entry table op;; f op) (fun g _ => g = if prefix op then Plain None else Ended).

(** The second byte. *)
Definition second (op : Z) : Prop := ends F (f <- entry x86emu_optab2 op;; f op).

Lemma second_entry op f : 0 <= op -> nth_error x86emu_optab2 (Z.to_nat op) = Some f -> ends F (f op) -> second op.
Proof.
  intros Hop E H h Hh. specialize (H h Hh). unfold hoare, ebind, entry, elift in *.
  destruct (Z.ltb_spec op 0); [lia|]. now rewrite E.
Qed.

Lemma instr_entry table op f :
  0 <= op -> nth_error table (Z.to_nat op) = Some f ->
  safe F None (f op) (fun g _ => g = if prefix op then Plain None else Ended) -> instr table op.
Proof.
  intros Hop E H h Hh. specialize (H h Hh). unfold hoare, ebind, entry, elift in *.
  destruct (Z.ltb_spec op 0); [lia|]. now rewrite E.
Qed.
End Handlers.

(** From a number to the steps of its handler. *)
Ltac instr1 :=
  eapply instr_entry; [discriminate|cbv beta iota zeta delta [nth_error Z.to_nat Pos.to_nat Pos.iter_op Init.Nat.add x86emu_optab x86emu_optab2]; reflexivity|];
  match goal with |- safe _ _ ?m ?Q => let f := fhead m in try unfold f; let q := eval cbv in Q in change Q with q end; cbv beta;
  safe_steps.

Ltac instr2 :=
  eapply second_entry; [discriminate|cbv beta iota zeta delta [nth_error Z.to_nat Pos.to_nat Pos.iter_op Init.Nat.add x86emu_optab2]; reflexivity|];
  match goal with |- ends _ ?m => let f := fhead m in unfold ends, f end; cbv beta;
  safe_steps.

(** The tables of the groups hold flag operations. *)
Lemma tables_ok (op : Z -> Z -> Flags Z) d s :
  In op (opc80_byte_operation ++ opc81_word_operation ++ opc81_long_operation ++ opcD0_byte_operation ++ opcD1_word_operation ++ opcD1_long_operation)%list ->
  flags_ok (op d s).
Proof. intros H. cbn in H. repeat destruct H as [<-|H]; try contradiction; flags_ok. Qed.

Ltac in_tables := apply tables_ok; rewrite ?in_app_iff; change opc82_byte_operation with opc80_byte_operation in *;
  change opc83_word_operation with opc81_word_operation in *; change opc83_long_operation with opc81_long_operation in *; tauto.

#[local] Hint Extern 0 (flags_ok (?op _ _)) => is_var op; in_tables : kept.

Ltac each step := match goal with |- Forall ?P ?l => let l' := eval vm_compute in l in change (Forall P l') end; repeat (apply Forall_cons; [step|]); apply Forall_nil.

Section Two.
Context {W : Type} {sys : Sys W} {laws : SysMemory W}.
Variable F : Prop.

Lemma second_00 : Forall (second (W := W) F) (List.map Z.of_nat (seq 0 128)).
Proof. each instr2. Qed.

Lemma second_80 : Forall (second (W := W) F) (List.map Z.of_nat (seq 128 64)).
Proof. each instr2. Qed.

Lemma second_C0 : Forall (second (W := W) F) (List.map Z.of_nat (seq 192 64)).
Proof. each instr2. Qed.

Lemma seconds op : in_word 8 op -> second (W := W) F op.
Proof.
  unfold in_word. change (2 ^ 8) with 256. intros H. destruct (Z_lt_le_dec op 128); [|destruct (Z_lt_le_dec op 192)].
  - now apply (stretch _ 0 128 op second_00); lia.
  - now apply (stretch _ 128 64 op second_80); lia.
  - now apply (stretch _ 192 64 op second_C0); lia.
Qed.

Lemma ends_two_byte op : ends F (x86emuOp_two_byte (W := W) op).
Proof.
  unfold ends, x86emuOp_two_byte. eapply safe_clean; [apply clean_fetch_byte_imm|]. intros op2 H. cbv beta in H. exact (seconds op2 H).
Qed.
End Two.

Section One.
Context {W : Type} {sys : Sys W} {laws : SysMemory W}.
Variable F : Prop.
Variable intrTab : Z -> option (Z -> Run W unit).
Hypothesis Htab : handlers_keep intrTab.
#[local] Hint Resolve Htab : clean.
Local Abbreviation one := (instr (W := W) F (x86emu_optab intrTab)).

Lemma first_two_byte : one 15.
Proof. eapply instr_entry; [discriminate|reflexivity|]. apply ends_two_byte. Qed.

Lemma first_00 : Forall one (List.map Z.of_nat (seq 0 15)).
Proof. each instr1. Qed.

Lemma first_10 : Forall one (List.map Z.of_nat (seq 16 48)).
Proof. each instr1. Qed.

Lemma first_40 : Forall one (List.map Z.of_nat (seq 64 76)).
Proof. each instr1. Qed.

(** 8C and 8E, the moves from and to segment registers. *)
Lemma first_segment : F -> Forall one [0x8C; 0x8E].
Proof. intros HF. each instr1. Qed.

Lemma first_8D : Forall one [0x8D; 0x8F].
Proof. each instr1. Qed.

Lemma first_90 : Forall one (List.map Z.of_nat (seq 144 48)).
Proof. each instr1. Qed.

Lemma first_C0 : Forall one (List.map Z.of_nat (seq 192 15)).
Proof. each instr1. Qed.

Lemma first_iret : one 207.
Proof. eapply instr_entry; [discriminate|reflexivity|]. exact (ends_iret F 207). Qed.

Lemma first_D0 : Forall one (List.map Z.of_nat (seq 208 39)).
Proof. each instr1. Qed.

Lemma first_F8 : Forall one (List.map Z.of_nat (seq 248 8)).
Proof. each instr1. Qed.

Lemma firsts op : 0 <= op < 256 -> op <> 0xF7 -> (op = 0x8C \/ op = 0x8E -> F) -> one op.
Proof.
  intros H H7 HF. assert (Hc : op < 15 \/ op = 15 \/ 16 <= op < 64 \/ 64 <= op < 140 \/ op = 140 \/ op = 142 \/ op = 141 \/ op = 143
    \/ 144 <= op < 192 \/ 192 <= op < 207 \/ op = 207 \/ 208 <= op < 247 \/ 248 <= op) by lia.
  pose proof first_segment as HS. pose proof first_8D as HM. rewrite !Forall_cons_iff in HM.
  destruct Hc as [? | [-> | [? | [? | [-> | [-> | [-> | [-> | [? | [? | [-> | [? | ?]]]]]]]]]]]].
  - now apply (stretch _ 0 15 op first_00); lia.
  - exact first_two_byte.
  - now apply (stretch _ 16 48 op first_10); lia.
  - now apply (stretch _ 64 76 op first_40); lia.
  - specialize (HS (HF (or_introl eq_refl))). now rewrite !Forall_cons_iff in HS.
  - specialize (HS (HF (or_intror eq_refl))). now rewrite !Forall_cons_iff in HS.
  - apply HM.
  - apply HM.
  - now apply (stretch _ 144 48 op first_90); lia.
  - now apply (stretch _ 192 15 op first_C0); lia.
  - exact first_iret.
  - now apply (stretch _ 208 39 op first_D0); lia.
  - now apply (stretch _ 248 8 op first_F8); lia.
Qed.
End One.

(** F7.  Seven in the field of its second byte is IDIV, which alone can trap. *)
Section Group3.
Context {W : Type} {sys : Sys W} {laws : SysMemory W}.

Definition group3_field (h : Host W) : Z := Z.land (Z.shiftr (byte_at (world (emu h)) (code_at (emu h))) 3) 7.

#[local] Hint Extern 0 => match goal with H : ?a = ?a -> ?P |- ?P => exact (H eq_refl) end : clean.

Lemma ends_F7 h : wf (x86 (emu h)) ->
  hoare (group3_field h = 7) (x86emuOp_opcF7_word_RM (W := W) 0xF7) (fun _ h' => exists g, in_ghost g h' /\ g = Ended) h.
Proof.
  intros Hw. unfold x86emuOp_opcF7_word_RM. pose proof (clean_modrm (group3_field h = 7) h (conj Hw I)) as Hm.
  assert (Hf : snd (fst (fst (fetch_decode_modrm (emu h)))) = group3_field h).
  { unfold fetch_decode_modrm, bind, ret. now rewrite fetch_byte_run. }
  unfold hoare, run in Hm. unfold hoare, ebind at 1, run at 1.
  destruct (fetch_decode_modrm (emu h)) as [[[md rh] rl] s]. destruct Hm as (g & Hg & -> & Hmd & Hrh & Hrl). cbn in Hf.
  assert (HF : rh = 7 -> group3_field h = 7) by congruence. clear Hf Hw.
  generalize dependent (group3_field h = 7). intros F HF.
  match goal with |- match ?m ?h1 with _ => _ end => change (hoare F m (fun _ h' => exists g, in_ghost g h' /\ g = Ended) h1);
    assert (Hs : safe F None m (fun g _ => g = Ended)); [clear Hg|exact (Hs _ Hg)] end.
  safe_steps.
Qed.
End Group3.
