(* ===== verification/X86Safety.v ===== *)
(** * The emulator is safe

    What [X86SafeOps] shows of the handlers, for the main loop and any number of instructions. *)
From Stdlib Require Import ZArith Lia List Bool.
From S2P Require Import Prelude Hoare X86Flags X86Machine X86Decode X86Ops X86OpsCtl X86Exec X86OpcodeMap X86Safe X86SafePrims X86SafeOps X86Map.
Import ListNotations.
Local Open Scope Z_scope.
Local Open Scope err_scope.

Section Safety.
Context {W : Type} {sys : Sys W} {laws : SysMemory W}.
Variable intrTab : Z -> option (Z -> Run W unit).
Hypothesis Htab : handlers_keep intrTab.

Definition halted (m : X86EMU_regs) : bool := nz (intr m) && nz (Z.land (intr m) INTR_HALTED).

(** The state in which the next instruction is fetched: a pending interrupt is attended to
    before. *)
Definition attended (h : Host W) : Host W :=
  let m := x86 (emu h) in
  if nz (intr m) && ((nz (Z.land (intr m) INTR_SYNCH) && ((intno m =? 0) || (intno m =? 2))) || negb (flag_of (R_FLG m) F_IF))
  then mkHost (snd (x86emu_intr_handle intrTab (emu h))) (counter h) else h.

Definition next_opcode (h : Host W) : Z :=
  let s := emu (attended h) in byte_at (world s) (code_at s).

(** What follows the interrupts in a turn of the loop. *)
Definition instruction_at (op1 : Z) : Op W bool :=
  (f <- entry (x86emu_optab intrTab) op1;; f op1);;
  d <- run (get debug);;
  if nz (Z.land d DEBUG_EXIT)
  then run (put (fun m => upd_debug m (Z.ldiff d DEBUG_EXIT)));; eret true
  else eret false.

Definition fetched (h : Host W) : Host W := mkHost (advance 1 (emu (attended h))) (counter h).

Lemma attended_run {A} (k : unit -> Op W A) h :
  let m := x86 (emu h) in
  ebind (if nz (intr m) && ((nz (Z.land (intr m) INTR_SYNCH) && ((intno m =? 0) || (intno m =? 2))) || negb (flag_of (R_FLG m) F_IF))
         then run (x86emu_intr_handle intrTab) else eret tt) k h = k tt (attended h).
Proof.
  cbv zeta. unfold attended. destruct (_ && _); [|reflexivity]. unfold ebind, run. now destruct (x86emu_intr_handle intrTab (emu h)) as [[] s].
Qed.

Lemma counter_attended h : counter (attended h) = counter h.
Proof. unfold attended. now destruct (_ && _). Qed.

Lemma exec_step_run h :
  exec_step intrTab h = if halted (x86 (emu h)) then Some (true, h) else instruction_at (next_opcode h) (fetched h).
Proof.
  unfold exec_step, halted. rewrite get_at. destruct (_ && _); [reflexivity|].
  rewrite get_at, access_at, attended_run. unfold ebind at 1, run at 1. rewrite fetch_byte_run, counter_attended.
  symmetry. apply ebind_assoc.
Qed.

(** A turn of the loop, in the judgement. *)
Lemma clean_attend (b : bool) : clean False (if b then run (x86emu_intr_handle intrTab) else eret tt) (fun _ => True).
Proof. destruct b; [now apply clean_intr_handle|now apply safe_ret]. Qed.

Lemma wf_attended h : wf (x86 (emu h)) -> wf (x86 (emu (attended h))).
Proof.
  intros Hw. pose proof (fun b => clean_attend b h (conj Hw I)) as H. unfold attended. destruct (_ && _); [|exact Hw].
  specialize (H true). unfold hoare, run in H. destruct (x86emu_intr_handle intrTab (emu h)) as [u s].
  destruct H as (g & [Hs _] & _). exact Hs.
Qed.

Lemma wf_fetched h : wf (x86 (emu h)) -> wf (x86 (emu (fetched h))).
Proof.
  intros Hw%wf_attended. pose proof (clean_fetch_byte_imm False (attended h) (conj Hw I)) as H.
  unfold hoare, run in H. rewrite fetch_byte_run in H. destruct H as (g & [Hs _] & _). exact Hs.
Qed.

Lemma opcode_range h : 0 <= next_opcode h < 256.
Proof. exact (byte_at_range _ _). Qed.

(** The instructions that may fault: the moves from and to segment registers, and IDIV on
    words and longs, the opcode F7 with 7 in its second byte. *)
Definition may_fault (op : Z) (h : Host W) : Prop := op = 0x8C \/ op = 0x8E \/ (op = 0xF7 /\ group3_field h = 7).

(** What a handler does, and a turn, from the state after the opcode was fetched. *)
Definition outcome_of (op : Z) (h : Host W) {A} (r : option (A * Host W)) : Prop :=
  match r with
  | None => may_fault op h
  | Some (_, h') => wf (x86 (emu h')) /\ (prefix op = false -> finished (x86 (emu h')))
  end.

Lemma handler_outcome op h : 0 <= op < 256 -> wf (x86 (emu h)) -> outcome_of op h ((f <- entry (x86emu_optab intrTab) op;; f op) h).
Proof.
  intros Hop Hw. destruct (Z.eq_dec op 0xF7) as [->|H7].
  { pose proof (ends_F7 h Hw) as H. unfold hoare in H. unfold outcome_of, may_fault.
    change (ebind _ _ h) with (x86emuOp_opcF7_word_RM (W := W) 0xF7 h).
    destruct (x86emuOp_opcF7_word_RM 0xF7 h) as [[u h']|]; [|now auto]. destruct H as (g & [Hw' Hg] & ->). now split. }
  pose proof (firsts (op = 0x8C \/ op = 0x8E) intrTab Htab op Hop H7 (fun H => H) h (conj Hw I)) as H.
  unfold hoare in H. unfold outcome_of. destruct (ebind _ _ h) as [[u h']|]; [|unfold may_fault; tauto].
  destruct H as (g & [Hw' Hg] & ->). split; [exact Hw'|]. intros E. rewrite E in Hg. exact Hg.
Qed.

Lemma turn_outcome op h : 0 <= op < 256 -> wf (x86 (emu h)) -> outcome_of op h (instruction_at op h).
Proof.
  intros Hop Hw. unfold instruction_at. pose proof (handler_outcome op h Hop Hw) as H. unfold outcome_of in *.
  unfold ebind at 1. destruct (ebind _ _ h) as [[u h']|]; [|exact H]. rewrite get_at.
  destruct (nz _); [|exact H]. destruct h' as [[m w] c]. cbn in *. destruct H as [H Hf]. split; [constructor; apply H|exact Hf].
Qed.
(** [k] turns of the loop lead from [h] to [h'], which has not returned. *)
Definition runs_to (k : nat) (h h' : Host W) : Prop := exec_loop intrTab k h = Some (false, h').

Lemma loop_outcome fuel : forall h, wf (x86 (emu h)) ->
  match exec_loop intrTab fuel h with
  | Some (_, h') => wf (x86 (emu h'))
  | None => exists k h1, (k < fuel)%nat /\ runs_to k h h1 /\ may_fault (next_opcode h1) (fetched h1)
  end.
Proof.
  induction fuel as [|fuel IH]; intros h Hw; [exact Hw|]. cbn [exec_loop]. unfold ebind.
  rewrite exec_step_run. destruct (halted (x86 (emu h))) eqn:Eh; [exact Hw|].
  pose proof (turn_outcome (next_opcode h) (fetched h) (opcode_range h) (wf_fetched h Hw)) as H. unfold outcome_of in H.
  destruct (instruction_at (next_opcode h) (fetched h)) as [[[] h']|] eqn:E.
  - apply H.
  - specialize (IH h' (proj1 H)). destruct (exec_loop intrTab fuel h') as [[b h'']|]; [exact IH|].
    destruct IH as (k & h1 & Hk & Hr & Hop). exists (S k), h1. split; [lia|]. split; [|exact Hop].
    unfold runs_to. cbn [exec_loop]. unfold ebind. now rewrite exec_step_run, Eh, E.
  - exists O, h. split; [lia|]. split; [reflexivity|exact H].
Qed.

Lemma exec_outcome fuel h : wf (x86 (emu h)) ->
  let h0 := mkHost (Build_Emu (upd_intr (x86 (emu h)) 0 (intno (x86 (emu h)))) (world (emu h))) (counter h) in
  X86EMU_exec intrTab fuel h = exec_loop intrTab fuel h0 /\ wf (x86 (emu h0)).
Proof. intros Hw. destruct h as [[m w] c]. split; [reflexivity|]. cbn in *. constructor; apply Hw. Qed.
End Safety.

(** C23. The emulator is safe.  On a machine whose registers hold values of their widths, with
    installed interrupt handlers that keep it so, the handler of an opcode ends (its loops
    are left, no null pointer is read and no table is read outside its bounds) and
    leaves such a machine, where moreover no prefix is in force any more, or which is halted, unless
    the opcode is a prefix itself.  Three instructions alone can fault: the moves from and to
    segment registers, 8C and 8E, where the register may not exist, and IDIV on words and
    longs, F7 with 7 in the field of its second byte, where the division may trap.  So after
    any number of instructions of any program [X86EMU_exec] has a well-formed machine, or the
    program has reached one of the three. *)
Theorem emulator_safe {W} {sys : Sys W} {laws : SysMemory W} (intrTab : Z -> option (Z -> Run W unit)) (h : Host W) :
  handlers_keep intrTab -> wf (x86 (emu h)) ->
  (forall op, 0 <= op < 256 ->
    match (f <- entry (x86emu_optab intrTab) op;; f op) h with
    | Some (_, h') => wf (x86 (emu h')) /\ (prefix op = false -> finished (x86 (emu h')))
    | None => may_fault op h
    end) /\
  (forall fuel,
    match X86EMU_exec intrTab fuel h with
    | Some (_, h') => wf (x86 (emu h'))
    | None => exists k h1, (k < fuel)%nat /\ X86EMU_exec intrTab k h = Some (false, h1) /\
        may_fault (next_opcode intrTab h1) (fetched intrTab h1)
    end).
Proof.
  intros Htab Hw. split.
  - intros op Hop. exact (handler_outcome intrTab Htab op h Hop Hw).
  - intros fuel. pose proof (fun n => exec_outcome intrTab n h Hw) as H. cbv zeta in H. rewrite (proj1 (H fuel)).
    pose proof (loop_outcome intrTab Htab fuel _ (proj2 (H fuel))) as HL. destruct (exec_loop _ _ _) as [[b h']|]; [exact HL|].
    destruct HL as (k & h1 & Hk & Hr & Hop). exists k, h1. split; [exact Hk|]. split; [|exact Hop]. now rewrite (proj1 (H k)).
Qed.

Lemma loaded_wf code : wf (x86 (emu (loaded code))).
Proof. constructor; [intros []|intros []| | |]; split; vm_compute; congruence. Qed.

Lemma emulator_safe_witness :
  wf (x86 (emu (loaded [0x8C; 0xF0]))) /\
  match @X86EMU_exec _ bios (fun _ => None) 1 (loaded [0x90; 0xF4]) with Some (_, h') => wf (x86 (emu h')) | None => False end.
Proof.
  split; [apply loaded_wf|].
  exact (proj2 (@emulator_safe _ bios bios_laws (fun _ => None) (loaded [0x90; 0xF4]) ltac:(discriminate) (loaded_wf _)) 1%nat).
Defined.
