(* ===== verification/Tree.v ===== *)
(** * Tree<K, E>: the kernel's dictionary

    [src/system/include/utilities/Tree.h]: a binary search tree of nodes with
    parent pointers, balanced by rotations.  The nodes live in a heap; a
    pointer is an address or null.  Keys and elements are integers (the kernel's
    instances use [size_t] and pointers), 0 being the null element.  [size_t]
    has [w] bits. *)
From Stdlib Require Import ZArith Lia List Bool.
From stdpp Require Import base gmap list fin_maps.
From S2P Require Import Prelude.
Import ListNotations.
Local Open Scope Z_scope.
Local Open Scope err_scope.

Definition loc : Type := positive.
Definition ptr : Type := option loc.

Record Node := mkNode {
  key : Z;
  element : Z;
  leftChild : ptr;
  rightChild : ptr;
  parent : ptr;
  height_ : Z
}.

Record IteratorNode := mkIteratorNode { value : ptr; pNode : ptr; pPreviousNode : ptr }.

Record Tree := mkTree {
  heap : gmap loc Node;
  root : ptr;
  nItems : Z;
  m_Begin : option IteratorNode
}.

Definition empty_tree : Tree := mkTree ∅ None 0 None.

Definition Op (A : Type) : Type := StateE Tree A.

(** ** Access to the nodes *)

Definition get_root : Op ptr := fun s => Some (root s, s).
Definition set_root (p : ptr) : Op unit :=
  fun s => Some (tt, mkTree (heap s) p (nItems s) (m_Begin s)).
Definition set_nItems (f : Z -> Z) : Op unit :=
  fun s => Some (tt, mkTree (heap s) (root s) (f (nItems s)) (m_Begin s)).
Definition set_Begin (b : option IteratorNode) : Op unit :=
  fun s => Some (tt, mkTree (heap s) (root s) (nItems s) b).

(** [p->field]; a null or dangling [p] is a fault. *)
Definition field {A} (f : Node -> A) (p : ptr) : Op A :=
  fun s => match p with
           | Some p => match heap s !! p with Some nd => Some (f nd, s) | None => None end
           | None => None
           end.

(** [p->field = v]. *)
Definition modify (f : Node -> Node) (p : ptr) : Op unit :=
  fun s => match p with
           | Some p =>
               match heap s !! p with
               | Some nd => Some (tt, mkTree (<[p := f nd]> (heap s)) (root s) (nItems s) (m_Begin s))
               | None => None
               end
           | None => None
           end.

Definition with_left (c : ptr) (nd : Node) : Node :=
  mkNode (key nd) (element nd) c (rightChild nd) (parent nd) (height_ nd).
Definition with_right (c : ptr) (nd : Node) : Node :=
  mkNode (key nd) (element nd) (leftChild nd) c (parent nd) (height_ nd).
Definition with_parent (c : ptr) (nd : Node) : Node :=
  mkNode (key nd) (element nd) (leftChild nd) (rightChild nd) c (height_ nd).
Definition with_height (h : Z) (nd : Node) : Node :=
  mkNode (key nd) (element nd) (leftChild nd) (rightChild nd) (parent nd) h.

Definition new_node (key value : Z) : Op ptr :=
  fun s => let p := fresh (dom (heap s)) in
           Some (Some p, mkTree (<[p := mkNode key value None None None 0]> (heap s))
                                (root s) (nItems s) (m_Begin s)).

Definition delete_node (p : ptr) : Op unit :=
  fun s => match p with
           | Some p =>
               match heap s !! p with
               | Some _ => Some (tt, mkTree (delete p (heap s)) (root s) (nItems s) (m_Begin s))
               | None => None
               end
           | None => Some (tt, s)
           end.

Definition nonnull (p : ptr) : bool := match p with Some _ => true | None => false end.
Definition same_ptr (p q : ptr) : bool := if decide (p = q) then true else false.

(** ** Rotations and heights *)

Definition rotateLeft (n : ptr) : Op unit :=
  y <- field rightChild n ;;
  yl <- field leftChild y ;; modify (with_right yl) n ;;
  (if nonnull yl then modify (with_parent n) yl else eret tt) ;;
  np <- field parent n ;; modify (with_parent np) y ;;
  (if nonnull np then
     npl <- field leftChild np ;;
     if same_ptr n npl then modify (with_left y) np else modify (with_right y) np
   else set_root y) ;;
  modify (with_left n) y ;;
  modify (with_parent y) n.

Definition rotateRight (n : ptr) : Op unit :=
  y <- field leftChild n ;;
  yr <- field rightChild y ;; modify (with_left yr) n ;;
  (if nonnull yr then modify (with_parent n) yr else eret tt) ;;
  np <- field parent n ;; modify (with_parent np) y ;;
  (if nonnull np then
     npl <- field leftChild np ;;
     if same_ptr n npl then modify (with_left y) np else modify (with_right y) np
   else set_root y) ;;
  modify (with_right n) y ;;
  modify (with_parent y) n.

Definition count : Op Z := fun s => Some (nItems s, s).

(** ** Iteration *)

(** [traverseNext] on a pair of [pNode] and [pPreviousNode]. *)
Fixpoint traverseNext (fuel : nat) (pNode pPreviousNode : ptr) : Op (ptr * ptr) :=
  match fuel with
  | O => efail
  | S fuel' =>
      if nonnull pNode then
        p <- field parent pNode ;; l <- field leftChild pNode ;; r <- field rightChild pNode ;;
        if same_ptr pPreviousNode p && nonnull l then traverseNext fuel' l pNode
        else if ((nonnull l && same_ptr pPreviousNode l) ||
                 (negb (nonnull l) && negb (same_ptr pPreviousNode pNode))) &&
                negb (same_ptr pPreviousNode r) then eret (pNode, pNode)
        else if same_ptr pPreviousNode pNode && nonnull r then traverseNext fuel' r pNode
        else traverseNext fuel' p pNode
      else eret (pNode, pPreviousNode)
  end.

(** [IteratorNode::reset]. *)
Definition reset (fuel : nat) (node prev : ptr) (n : Z) : Op IteratorNode :=
  if 1 <? n then
    np <- traverseNext fuel node prev ;;
    eret (mkIteratorNode (fst np) (fst np) (snd np))
  else eret (mkIteratorNode node node prev).

Definition next (fuel : nat) (i : IteratorNode) : Op IteratorNode :=
  np <- traverseNext fuel (pNode i) (pPreviousNode i) ;;
  eret (mkIteratorNode (fst np) (fst np) (snd np)).

Section Sized.

(** The width of [size_t]. *)
Variable w : Z.

Definition height (n : ptr) : Op Z :=
  if nonnull n then
    l <- field leftChild n ;; tempL <- (if nonnull l then field height_ l else eret 0) ;;
    r <- field rightChild n ;; tempR <- (if nonnull r then field height_ r else eret 0) ;;
    let tempL := wrap w (tempL + 1) in
    let tempR := wrap w (tempR + 1) in
    if tempR <? tempL
    then modify (with_height tempL) n ;; eret tempL
    else modify (with_height tempR) n ;; eret tempR
  else eret 0.

Definition balanceFactor (n : ptr) : Op Z :=
  r <- field rightChild n ;; hr <- height r ;;
  l <- field leftChild n ;; hl <- height l ;;
  eret (swrap 32 (swrap 32 hr - swrap 32 hl)).

Definition rebalanceNode (n : ptr) : Op unit :=
  balance <- balanceFactor n ;;
  if balance <? -1 then
    l <- field leftChild n ;; b <- balanceFactor l ;;
    if 0 <? b then rotateLeft l ;; rotateRight n else rotateRight n
  else if 1 <? balance then
    r <- field rightChild n ;; b <- balanceFactor r ;;
    if b <? 0 then rotateRight r ;; rotateLeft n else rotateLeft n
  else eret tt.

(** The loop that ends [insert] and [remove]: from [n] up, every node that is
    out of balance is rebalanced. *)
Fixpoint balance_up (fuel : nat) (n : ptr) : Op unit :=
  match fuel with
  | O => efail
  | S fuel' =>
      if nonnull n then
        b <- balanceFactor n ;;
        (if (b <? -1) || (1 <? b) then rebalanceNode n else eret tt) ;;
        p <- field parent n ;;
        balance_up fuel' p
      else eret tt
  end.

(** ** The dictionary *)

Fixpoint lookup_loop (fuel : nat) (k : Z) (n : ptr) : Op Z :=
  match fuel with
  | O => efail
  | S fuel' =>
      if nonnull n then
        nk <- field key n ;;
        if nk =? k then field element n
        else if k <? nk then l <- field leftChild n ;; lookup_loop fuel' k l
        else r <- field rightChild n ;; lookup_loop fuel' k r
      else eret 0
  end.

Definition lookup (fuel : nat) (k : Z) : Op Z := n <- get_root ;; lookup_loop fuel k n.

(** The descent of [insert]: where the new node [n] is linked in. *)
Fixpoint insert_loop (fuel : nat) (k : Z) (n currentNode : ptr) : Op ptr :=
  match fuel with
  | O => efail
  | S fuel' =>
      ck <- field key currentNode ;;
      if ck <? k then
        c <- field rightChild currentNode ;;
        if nonnull c then insert_loop fuel' k n c
        else modify (with_right n) currentNode ;; modify (with_parent currentNode) n ;; eret currentNode
      else
        c <- field leftChild currentNode ;;
        if nonnull c then insert_loop fuel' k n c
        else modify (with_left n) currentNode ;; modify (with_parent currentNode) n ;; eret currentNode
  end.

Definition insert (fuel : nat) (k v : Z) : Op unit :=
  n <- new_node k v ;;
  e <- lookup fuel k ;;
  if negb (e =? 0) then delete_node n
  else
    r <- get_root ;;
    (if nonnull r then
       currentNode <- insert_loop fuel k n r ;;
       balance_up fuel currentNode
     else
       set_root n ;; c <- count ;; i <- reset fuel n None c ;; set_Begin (Some i)) ;;
    set_nItems (fun i => wrap w (i + 1)).

Fixpoint find_loop (fuel : nat) (k : Z) (n : ptr) : Op ptr :=
  match fuel with
  | O => efail
  | S fuel' =>
      if nonnull n then
        nk <- field key n ;;
        if nk =? k then eret n
        else if k <? nk then l <- field leftChild n ;; find_loop fuel' k l
        else r <- field rightChild n ;; find_loop fuel' k r
      else eret None
  end.

(** [remove] rotates the node down until it is a leaf. *)
Fixpoint sink_loop (fuel : nat) (n : ptr) : Op unit :=
  match fuel with
  | O => efail
  | S fuel' =>
      l <- field leftChild n ;; r <- field rightChild n ;;
      if nonnull l || nonnull r then
        l <- field leftChild n ;; hl <- height l ;;
        r <- field rightChild n ;; hr <- height r ;;
        (if hl =? 0 then rotateLeft n
         else if hr =? 0 then rotateRight n
         else if hl <=? hr then rotateRight n ;; rotateLeft n
         else rotateLeft n ;; rotateRight n) ;;
        sink_loop fuel' n
      else eret tt
  end.

Definition remove (fuel : nat) (k : Z) : Op unit :=
  r <- get_root ;;
  n <- find_loop fuel k r ;;
  if nonnull n then
    sink_loop fuel n ;;
    p <- field parent n ;;
    (if nonnull p then
       pl <- field leftChild p ;;
       if same_ptr pl n then modify (with_left None) p else modify (with_right None) p
     else set_root None) ;;
    balance_up fuel n ;;
    delete_node n ;;
    set_nItems (fun i => wrap w (i - 1))
  else eret tt.

Fixpoint traverseNode_Remove (fuel : nat) (n : ptr) : Op unit :=
  match fuel with
  | O => efail
  | S fuel' =>
      if nonnull n then
        l <- field leftChild n ;; traverseNode_Remove fuel' l ;;
        r <- field rightChild n ;; traverseNode_Remove fuel' r ;;
        delete_node n
      else eret tt
  end.

Definition clear (fuel : nat) : Op unit :=
  r <- get_root ;; traverseNode_Remove fuel r ;;
  set_root None ;; set_nItems (fun _ => 0) ;; set_Begin None.

(** [traverseNode_Insert] inserts the nodes of another tree, [x]. *)
Fixpoint traverseNode_Insert (fuel : nat) (x : Tree) (n : ptr) : Op unit :=
  match fuel with
  | O => efail
  | S fuel' =>
      match n with
      | Some p =>
          match heap x !! p with
          | Some nd =>
              insert fuel' (key nd) (element nd) ;;
              traverseNode_Insert fuel' x (leftChild nd) ;;
              traverseNode_Insert fuel' x (rightChild nd)
          | None => efail
          end
      | None => eret tt
      end
  end.

Definition begin_ (fuel : nat) : Op (option IteratorNode) :=
  r <- get_root ;; n <- count ;;
  i <- reset fuel r None n ;; set_Begin (Some i) ;; eret (Some i).
End Sized.
