(* ===== verification/TreeRep.v ===== *)
(** * The representation of Tree<K, E>

    [shape] is the abstract binary tree a heap of [Tree.Node]s represents, [ctx]
    a path from the root to a subtree, [rep] the representation relation.  Each
    pointer-manipulating helper of [Tree] is run on a represented tree. *)
From Stdlib Require Import ZArith Lia List Bool.
From stdpp Require Import base gmap list fin_maps.
From S2P Require Import Prelude Tree.
Import ListNotations.
Local Open Scope Z_scope.
#[local] Set Warnings "-clear-no-such-hyp".

Inductive shape :=
| Leaf
| Br (p : loc) (k e : Z) (l r : shape).

Definition ptr_of (t : shape) : ptr := match t with Leaf => None | Br p _ _ _ _ => Some p end.

Fixpoint locs (t : shape) : list loc :=
  match t with Leaf => [] | Br p _ _ l r => p :: locs l ++ locs r end.

(** The pairs of key and element in order. *)
Fixpoint entries (t : shape) : list (Z * Z) :=
  match t with Leaf => [] | Br _ k e l r => entries l ++ (k, e) :: entries r end.

(** A path: the frames from the hole up to the root. *)
Inductive frame :=
| FL (p : loc) (k e : Z) (r : shape)
| FR (p : loc) (k e : Z) (l : shape).

Definition ctx := list frame.

Definition fill (t : shape) (f : frame) : shape :=
  match f with FL p k e r => Br p k e t r | FR p k e l => Br p k e l t end.

Fixpoint plug (t : shape) (c : ctx) : shape :=
  match c with [] => t | f :: c' => plug (fill t f) c' end.

Definition floc (f : frame) : loc := match f with FL p _ _ _ => p | FR p _ _ _ => p end.
Definition sibling (f : frame) : shape := match f with FL _ _ _ r => r | FR _ _ _ l => l end.
Definition cpar (c : ctx) : ptr := match c with [] => None | f :: _ => Some (floc f) end.

Fixpoint clocs (c : ctx) : list loc :=
  match c with [] => [] | f :: c' => floc f :: locs (sibling f) ++ clocs c' end.

Fixpoint before (c : ctx) : list (Z * Z) :=
  match c with
  | [] => []
  | FL _ _ _ _ :: c' => before c'
  | FR _ k e l :: c' => before c' ++ entries l ++ [(k, e)]
  end.

Fixpoint after (c : ctx) : list (Z * Z) :=
  match c with
  | [] => []
  | FL _ k e r :: c' => (k, e) :: entries r ++ after c'
  | FR _ _ _ _ :: c' => after c'
  end.

Lemma entries_plug c : forall t, entries (plug t c) = before c ++ entries t ++ after c.
Proof.
  induction c as [|[p k e r|p k e l] c IH]; intros t; simpl; [now rewrite app_nil_r|..];
    rewrite IH; simpl; rewrite <- ?app_assoc; reflexivity.
Qed.

Lemma locs_plug c : forall t, locs (plug t c) ≡ₚ locs t ++ clocs c.
Proof.
  induction c as [|[p k e r|p k e l] c IH]; intros t; simpl; [now rewrite app_nil_r|..];
    rewrite IH; simpl; solve_Permutation.
Qed.

(** ** Nodes without their heights *)

Definition look (H : gmap loc Node) (p : loc) : option Node := with_height 0 <$> H !! p.
Definition hgt (H : gmap loc Node) (p : loc) : option Z := height_ <$> H !! p.

Fixpoint rep (H : gmap loc Node) (t : shape) (par : ptr) : Prop :=
  match t with
  | Leaf => True
  | Br p k e l r =>
      look H p = Some (mkNode k e (ptr_of l) (ptr_of r) par 0) /\
      rep H l (Some p) /\ rep H r (Some p)
  end.

Fixpoint rep_ctx (H : gmap loc Node) (c : ctx) (hole : ptr) : Prop :=
  match c with
  | [] => True
  | FL p k e r :: c' =>
      look H p = Some (mkNode k e hole (ptr_of r) (cpar c') 0) /\ rep H r (Some p) /\ rep_ctx H c' (Some p)
  | FR p k e l :: c' =>
      look H p = Some (mkNode k e (ptr_of l) hole (cpar c') 0) /\ rep H l (Some p) /\ rep_ctx H c' (Some p)
  end.

Lemma rep_plug H c : forall t, rep H (plug t c) None <-> rep H t (cpar c) /\ rep_ctx H c (ptr_of t).
Proof. induction c as [|[] c IH]; intros t; simpl; rewrite ?IH; simpl; tauto. Qed.

Lemma rep_frame H H' t : forall par,
  (forall p, p ∈ locs t -> look H' p = look H p) -> rep H t par -> rep H' t par.
Proof.
  induction t as [|p k e l IHl r IHr]; intros par Hf; simpl in *; [done|]. intros (Hp & Hl & Hr).
  rewrite Hf by set_solver. split; [done|]. split; [apply IHl|apply IHr]; set_solver.
Qed.

Lemma rep_ctx_frame H H' c : forall hole,
  (forall p, p ∈ clocs c -> look H' p = look H p) -> rep_ctx H c hole -> rep_ctx H' c hole.
Proof.
  induction c as [|[] c IH]; intros hole Hf; simpl in *; [done|..]; intros (Hp & Hr & Hc);
    (rewrite Hf by set_solver; split; [done|]; split;
     [eapply rep_frame; [|done]; set_solver|apply IH; [set_solver|done]]).
Qed.

(** Two states that differ in the links of the nodes only. *)
Record relinked (s s' : Tree) : Prop := {
  relinked_hgt : forall q, hgt (heap s') q = hgt (heap s) q;
  relinked_items : nItems s' = nItems s;
  relinked_begin : m_Begin s' = m_Begin s
}.

#[export] Instance relinked_preorder : PreOrder relinked.
Proof.
  split; [by split|]. intros s1 s2 s3 [H1 H2 H3] [H4 H5 H6].
  split; [intros q; by rewrite H4|congruence..].
Qed.

(** ** Steps *)

Lemma look_Some H p k e l r par :
  look H p = Some (mkNode k e l r par 0) -> exists h, H !! p = Some (mkNode k e l r par h).
Proof. unfold look. destruct (H !! p) as [[]|] eqn:E; simpl; [|done]. intros [= -> -> -> -> ->]. eauto. Qed.

(** A field that is not the height. *)
Definition links_only {A} (f : Node -> A) : Prop := forall nd, f (with_height 0 nd) = f nd.

Lemma field_look {A} (f : Node -> A) p nd s :
  links_only f -> look (heap s) p = Some nd -> field f (Some p) s = Some (f nd, s).
Proof.
  unfold look, field. intros Hf. destruct (heap s !! p) as [x|] eqn:E; simpl; [|done].
  intros [= <-]. by rewrite Hf.
Qed.

Definition sets_link (f : Node -> Node) : Prop :=
  forall nd h, f (with_height h nd) = with_height h (f nd).

Lemma with_left_link c : sets_link (with_left c). Proof. done. Qed.
Lemma with_right_link c : sets_link (with_right c). Proof. done. Qed.
Lemma with_parent_link c : sets_link (with_parent c). Proof. done. Qed.
#[export] Hint Resolve with_left_link with_right_link with_parent_link : core.

Lemma sets_link_height f nd : sets_link f -> height_ (f nd) = height_ nd.
Proof.
  intros Hf. transitivity (height_ (f (with_height (height_ nd) nd))); [by destruct nd|]. by rewrite Hf.
Qed.

Lemma modify_look f p nd s :
  sets_link f -> look (heap s) p = Some nd ->
  exists s', modify f (Some p) s = Some (tt, s') /\ relinked s s' /\ root s' = root s /\
    look (heap s') p = Some (f nd) /\
    forall q, q <> p -> look (heap s') q = look (heap s) q.
Proof.
  unfold look, modify. intros Hf. destruct (heap s !! p) as [x|] eqn:E; simpl; [|done].
  intros [= <-]. eexists. split; [done|]. split; [|split; [done|]].
  - split; [|done..]. intros q. unfold hgt. cbn [heap]. rewrite lookup_insert.
    case_decide; [subst|done]. rewrite E. simpl. f_equal. by apply sets_link_height.
  - cbn [heap]. rewrite lookup_insert_eq. simpl. split; [by rewrite Hf|].
    intros q Hne. by rewrite lookup_insert_ne.
Qed.

(** A represented state: every node of the heap belongs to the tree. *)
Record reps (s : Tree) (t : shape) : Prop := {
  reps_rep : rep (heap s) t None;
  reps_root : root s = ptr_of t;
  reps_nodup : NoDup (locs t)
}.

(** [if (q) q->parent = n] for a subtree. *)
Lemma reparent_run t par n s :
  rep (heap s) t par -> NoDup (locs t) ->
  exists s', (if nonnull (ptr_of t) then modify (with_parent n) (ptr_of t) else eret tt) s = Some (tt, s') /\
    relinked s s' /\ root s' = root s /\ rep (heap s') t n /\
    forall q, q ∉ locs t -> look (heap s') q = look (heap s) q.
Proof.
  destruct t as [|p k e l r]; simpl; intros Hr Hd.
  - exists s. done.
  - destruct Hr as (Hp & Hl & Hr). apply NoDup_cons in Hd as [Hn _].
    destruct (modify_look (with_parent n) _ _ _ (with_parent_link n) Hp) as (s' & E & Hk & Ht & Hq & Hf).
    exists s'. split; [done|]. split; [done|]. split; [done|]. split.
    + split; [done|].
      split; (eapply rep_frame; [|done]); intros q Hin; apply Hf; set_solver.
    + intros q Hin. apply Hf. set_solver.
Qed.

(** The parent's link is moved from [n] to [y]. *)
Lemma replace_child_run c n y s :
  rep_ctx (heap s) c (Some n) -> NoDup (n :: clocs c) -> (c = [] -> root s = Some n) ->
  exists s', (if nonnull (cpar c) then
                npl <- field leftChild (cpar c) ;;
                if same_ptr (Some n) npl then modify (with_left (Some y)) (cpar c)
                else modify (with_right (Some y)) (cpar c)
              else set_root (Some y))%err s = Some (tt, s') /\
    relinked s s' /\ rep_ctx (heap s') c (Some y) /\
    root s' = (if nonnull (cpar c) then root s else Some y) /\
    forall q, q ∉ clocs c -> look (heap s') q = look (heap s) q.
Proof.
  intros Hc Hd Hroot. apply NoDup_cons in Hd as [Hn Hd].
  destruct c as [|[p k e r|p k e l] c]; simpl in *.
  - eexists. split; [done|]. done.
  - destruct Hc as (Hp & Hr & Hc). apply NoDup_cons in Hd as [Hpn Hd].
    erewrite ebind_run by (by eapply field_look; [|done]).
    destruct (modify_look (with_left (Some y)) _ _ _ (with_left_link _) Hp) as (s' & E & Hk & Ht & Hq & Hf).
    exists s'. unfold same_ptr. rewrite decide_True by done.
    split; [done|]. split; [done|]. split; [|split; [done|]]; [split; [done|split]|].
    + eapply rep_frame; [|done]. intros q Hin. apply Hf. set_solver.
    + eapply rep_ctx_frame; [|done]. intros q Hin. apply Hf. set_solver.
    + intros q Hin. apply Hf. set_solver.
  - destruct Hc as (Hp & Hr & Hc). apply NoDup_cons in Hd as [Hpn Hd].
    erewrite ebind_run by (by eapply field_look; [|done]).
    destruct (modify_look (with_right (Some y)) _ _ _ (with_right_link _) Hp) as (s' & E & Hk & Ht & Hq & Hf).
    exists s'. unfold same_ptr. rewrite decide_False.
    2: { destruct l; simpl in *; [done|]. intros [= ->]. set_solver. }
    split; [done|]. split; [done|]. split; [|split; [done|]]; [split; [done|split]|].
    + eapply rep_frame; [|done]. intros q Hin. apply Hf. set_solver.
    + eapply rep_ctx_frame; [|done]. intros q Hin. apply Hf. set_solver.
    + intros q Hin. apply Hf. set_solver.
Qed.

(** ** Rotations *)

Ltac run_field := erewrite ebind_run by (eapply field_look; [done|eassumption]).

(** Rewrite a node lookup backwards through the steps that did not change it. *)
Ltac chase :=
  repeat match goal with
    | F : forall q, _ -> look (heap ?s') q = look _ q |- context [look (heap ?s') _] =>
        rewrite F by (repeat split; (assumption || congruence))
    end.

(** The disjointness facts about [q ∈ l]. *)
Ltac apart q :=
  repeat match goal with
    | N : forall x, x ∈ ?l -> _, Hq : q ∈ ?l |- _ =>
        let N' := fresh in pose proof (N q Hq) as N'; clear N; destruct_and? N'
    end.

Ltac chase_rep :=
  match goal with
  | H : rep _ ?t ?par |- rep _ ?t ?par =>
      eapply rep_frame; [|exact H]; let q := fresh "q" in intros q ?; apart q; chase; reflexivity
  | H : rep_ctx _ ?c ?h |- rep_ctx _ ?c ?h =>
      eapply rep_ctx_frame; [|exact H]; let q := fresh "q" in intros q ?; apart q; chase; reflexivity
  end.

Lemma nodup_four {A} (p y : A) a b r c :
  NoDup (p :: y :: a ++ b ++ r ++ c) ->
  p <> y /\ NoDup b /\ NoDup c /\
  (forall x, x ∈ a -> x <> p /\ x <> y /\ (x ∉ b) /\ (x ∉ r) /\ (x ∉ c)) /\
  (forall x, x ∈ b -> x <> p /\ x <> y /\ (x ∉ a) /\ (x ∉ r) /\ (x ∉ c)) /\
  (forall x, x ∈ r -> x <> p /\ x <> y /\ (x ∉ a) /\ (x ∉ b) /\ (x ∉ c)) /\
  (forall x, x ∈ c -> x <> p /\ x <> y /\ (x ∉ a) /\ (x ∉ b) /\ (x ∉ r)) /\
  ((p ∉ a) /\ (p ∉ b) /\ (p ∉ r) /\ (p ∉ c)) /\ ((y ∉ a) /\ (y ∉ b) /\ (y ∉ r) /\ (y ∉ c)).
Proof.
  rewrite !NoDup_cons, !NoDup_app. intros (Hp & Hy & Ha & Hab & Hb & Hbr & Hr & Hrc & Hc).
  split; [set_solver|]. split; [done|]. split; [done|].
  repeat split; try set_solver.
Qed.

Lemma root_plug t t' c : (c = [] -> ptr_of t = ptr_of t') -> ptr_of (plug t c) = ptr_of (plug t' c).
Proof.
  destruct c as [|f c]; simpl; [auto|]. intros _. revert t t'.
  assert (H : forall c u u', ptr_of u = ptr_of u' -> ptr_of (plug u c) = ptr_of (plug u' c)).
  { clear. induction c as [|f c IH]; intros u u' E; simpl; [done|]. apply IH. by destruct f. }
  intros t t'. apply H. by destruct f.
Qed.

Lemma locs_plug_perm t t' c : locs t ≡ₚ locs t' -> locs (plug t c) ≡ₚ locs (plug t' c).
Proof. intros E. by rewrite !locs_plug, E. Qed.

(** The part the two rotations share: [b] moves below [p], and [y] takes the
    place of [p] below its parent. *)
Lemma lift_run {A} (K : Op A) c b p y ndp ndy s :
  rep (heap s) b (Some y) -> rep_ctx (heap s) c (Some p) ->
  look (heap s) p = Some ndp -> look (heap s) y = Some ndy -> parent ndp = cpar c ->
  (c = [] -> root s = Some p) ->
  p <> y -> NoDup (locs b) -> NoDup (clocs c) ->
  (forall x, x ∈ locs b -> x <> p /\ x <> y /\ (x ∉ clocs c)) ->
  (forall x, x ∈ clocs c -> x <> p /\ x <> y /\ (x ∉ locs b)) ->
  exists s',
    ((if nonnull (ptr_of b) then modify (with_parent (Some p)) (ptr_of b) else eret tt) ;;
     np <- field parent (Some p) ;; modify (with_parent np) (Some y) ;;
     (if nonnull np then
        npl <- field leftChild np ;;
        if same_ptr (Some p) npl then modify (with_left (Some y)) np else modify (with_right (Some y)) np
      else set_root (Some y)) ;; K)%err s = K s' /\
    relinked s s' /\ root s' = (if nonnull (cpar c) then root s else Some y) /\
    rep (heap s') b (Some p) /\ rep_ctx (heap s') c (Some y) /\
    look (heap s') p = Some ndp /\ look (heap s') y = Some (with_parent (cpar c) ndy) /\
    forall q, q <> y /\ (q ∉ locs b) /\ (q ∉ clocs c) -> look (heap s') q = look (heap s) q.
Proof.
  intros Hb Hc Hp Hy Hpar Hroot Hpy Hdb Hdc Nb Nc.
  assert (p ∉ locs b) by (intros Hx; by destruct (Nb _ Hx)).
  assert (p ∉ clocs c) by (intros Hx; by destruct (Nc _ Hx)).
  assert (y ∉ locs b) by (intros Hx; by destruct (Nb _ Hx) as (_ & ? & _)).
  assert (y ∉ clocs c) by (intros Hx; by destruct (Nc _ Hx) as (_ & ? & _)).
  destruct (reparent_run b (Some y) (Some p) s Hb Hdb) as (s2 & E2 & K2 & R2 & P2 & F2).
  erewrite ebind_run by exact E2. clear E2.
  assert (Hp2 : look (heap s2) p = Some ndp) by (chase; exact Hp).
  assert (Hy2 : look (heap s2) y = Some ndy) by (chase; exact Hy).
  run_field. rewrite Hpar.
  destruct (modify_look (with_parent (cpar c)) _ _ _ (with_parent_link _) Hy2) as (s3 & E3 & K3 & R3 & P3 & F3).
  erewrite ebind_run by exact E3. clear E3.
  destruct (replace_child_run c p y s3) as (s4 & E4 & K4 & P4 & R4 & F4).
  { chase_rep. }
  { by apply NoDup_cons. }
  { intros ->. rewrite R3, R2. auto. }
  erewrite ebind_run by exact E4. clear E4.
  exists s4. split; [done|]. split; [by etrans; [|etrans]|]. rewrite R4, R3, R2.
  split; [done|]. split; [chase_rep|]. split; [done|]. split; [by chase|]. split; [by chase|].
  intros q (Hqy & Hqb & Hqc). by chase.
Qed.

Lemma rotateRight_run s c p k e y ky ey a b r :
  reps s (plug (Br p k e (Br y ky ey a b) r) c) ->
  exists s', rotateRight (Some p) s = Some (tt, s') /\
    reps s' (plug (Br y ky ey a (Br p k e b r)) c) /\ relinked s s'.
Proof.
  intros [Hrep Hroot Hnd]. apply rep_plug in Hrep as [(Hp & (Hy & Ha & Hb) & Hr) Hc]. simpl in Hp, Hy, Hc.
  assert (Hnd' := Hnd). rewrite locs_plug in Hnd'. simpl in Hnd'. rewrite <- !app_assoc in Hnd'.
  apply nodup_four in Hnd' as (Hpy & Hdb & Hdc & Na & Nb & Nr & Nc & (Npa & Npb & Npr & Npc) & (Nya & Nyb & Nyr & Nyc)).
  unfold rotateRight. run_field. run_field. cbn [leftChild rightChild].
  destruct (modify_look (with_left (ptr_of b)) _ _ _ (with_left_link _) Hp) as (s1 & E1 & K1 & R1 & P1 & F1).
  erewrite ebind_run by exact E1.
  edestruct (lift_run (A := unit) (modify (with_right (Some p)) (Some y) ;; modify (with_parent (Some y)) (Some p))%err
    c b p y) with (s := s1) as (s4 & E4 & K4 & R4 & Pb & Pc & P4 & Y4 & F4); try done.
  { chase_rep. }
  { chase_rep. }
  { by chase. }
  { intros ->. by rewrite R1, Hroot. }
  { intros x Hx. by apart x. }
  { intros x Hx. by apart x. }
  rewrite E4. clear E1 E4.
  destruct (modify_look (with_right (Some p)) _ _ _ (with_right_link _) Y4) as (s5 & E5 & K5 & R5 & P5 & F5).
  erewrite ebind_run by exact E5.
  assert (Hp5 : look (heap s5) p = Some (with_left (ptr_of b) (mkNode k e (Some y) (ptr_of r) (cpar c) 0)))
    by (rewrite F5 by done; exact P4).
  destruct (modify_look (with_parent (Some y)) _ _ _ (with_parent_link _) Hp5) as (s6 & E6 & K6 & R6 & P6 & F6).
  exists s6. split; [exact E6|]. split; [split|].
  - apply rep_plug. split; [|cbn [ptr_of]; chase_rep]. cbn [rep ptr_of]. repeat split.
    + rewrite F6 by congruence. exact P5.
    + chase_rep.
    + exact P6.
    + chase_rep.
    + chase_rep.
  - rewrite R6, R5, R4, R1, Hroot. destruct c; [done|]. cbn [cpar nonnull]. by apply root_plug.
  - erewrite locs_plug_perm; [exact Hnd|]. simpl. solve_Permutation.
  - by etrans; [|etrans; [|etrans]].
Qed.

Lemma rotateLeft_run s c p k e y ky ey a b r :
  reps s (plug (Br p k e r (Br y ky ey b a)) c) ->
  exists s', rotateLeft (Some p) s = Some (tt, s') /\
    reps s' (plug (Br y ky ey (Br p k e r b) a) c) /\ relinked s s'.
Proof.
  intros [Hrep Hroot Hnd]. apply rep_plug in Hrep as [(Hp & Hr & (Hy & Hb & Ha)) Hc]. simpl in Hp, Hy, Hc.
  assert (Hnd' := Hnd).
  assert (Hperm : locs (plug (Br p k e r (Br y ky ey b a)) c) ≡ₚ p :: y :: locs a ++ locs b ++ locs r ++ clocs c)
    by (rewrite locs_plug; simpl; solve_Permutation).
  rewrite Hperm in Hnd'. clear Hperm.
  apply nodup_four in Hnd' as (Hpy & Hdb & Hdc & Na & Nb & Nr & Nc & (Npa & Npb & Npr & Npc) & (Nya & Nyb & Nyr & Nyc)).
  unfold rotateLeft. run_field. run_field. cbn [leftChild rightChild].
  destruct (modify_look (with_right (ptr_of b)) _ _ _ (with_right_link _) Hp) as (s1 & E1 & K1 & R1 & P1 & F1).
  erewrite ebind_run by exact E1.
  edestruct (lift_run (A := unit) (modify (with_left (Some p)) (Some y) ;; modify (with_parent (Some y)) (Some p))%err
    c b p y) with (s := s1) as (s4 & E4 & K4 & R4 & Pb & Pc & P4 & Y4 & F4); try done.
  { chase_rep. }
  { chase_rep. }
  { by chase. }
  { intros ->. by rewrite R1, Hroot. }
  { intros x Hx. by apart x. }
  { intros x Hx. by apart x. }
  rewrite E4. clear E1 E4.
  destruct (modify_look (with_left (Some p)) _ _ _ (with_left_link _) Y4) as (s5 & E5 & K5 & R5 & P5 & F5).
  erewrite ebind_run by exact E5.
  assert (Hp5 : look (heap s5) p = Some (with_right (ptr_of b) (mkNode k e (ptr_of r) (Some y) (cpar c) 0)))
    by (rewrite F5 by done; exact P4).
  destruct (modify_look (with_parent (Some y)) _ _ _ (with_parent_link _) Hp5) as (s6 & E6 & K6 & R6 & P6 & F6).
  exists s6. split; [exact E6|]. split; [split|].
  - apply rep_plug. split; [|cbn [ptr_of]; chase_rep]. cbn [rep ptr_of]. repeat split.
    + rewrite F6 by congruence. exact P5.
    + exact P6.
    + chase_rep.
    + chase_rep.
    + chase_rep.
  - rewrite R6, R5, R4, R1, Hroot. destruct c; [done|]. cbn [cpar nonnull]. by apply root_plug.
  - erewrite locs_plug_perm; [exact Hnd|]. simpl. solve_Permutation.
  - by etrans; [|etrans; [|etrans]].
Qed.

(** ** Heights *)

Fixpoint ht (t : shape) : Z :=
  match t with Leaf => 0 | Br _ _ _ l r => 1 + Z.max (ht l) (ht r) end.

(** Every node of [t] holds its height. *)
Fixpoint hts (H : gmap loc Node) (t : shape) : Prop :=
  match t with
  | Leaf => True
  | Br p _ _ l r => hgt H p = Some (ht t) /\ hts H l /\ hts H r
  end.

(** Every node below the root of [t] does. *)
Definition below (H : gmap loc Node) (t : shape) : Prop :=
  match t with Leaf => True | Br _ _ _ l r => hts H l /\ hts H r end.

(** Every node two levels below the root does. *)
Definition below2 (H : gmap loc Node) (t : shape) : Prop :=
  match t with Leaf => True | Br _ _ _ l r => below H l /\ below H r end.

(** Every node beside the path does. *)
Definition chts (H : gmap loc Node) (c : ctx) : Prop := Forall (fun f => hts H (sibling f)) c.

Lemma hts_below H t : hts H t -> below H t.
Proof. destruct t; simpl; tauto. Qed.

Lemma ht_nonneg t : 0 <= ht t.
Proof. induction t; simpl; lia. Qed.

Lemma ht_size t : ht t <= Z.of_nat (length (locs t)).
Proof.
  induction t as [|p k e l IHl r IHr]; simpl; [lia|]. rewrite length_app.
  pose proof (ht_nonneg l). pose proof (ht_nonneg r). lia.
Qed.

Lemma hts_frame H H' t : (forall q, q ∈ locs t -> hgt H' q = hgt H q) -> hts H t -> hts H' t.
Proof.
  induction t as [|p k e l IHl r IHr]; intros Hf; simpl in *; [done|]. intros (Hp & Hl & Hr).
  rewrite Hf by set_solver. split; [done|]. split; [apply IHl|apply IHr]; set_solver.
Qed.

Lemma chts_frame H H' c : (forall q, q ∈ clocs c -> hgt H' q = hgt H q) -> chts H c -> chts H' c.
Proof.
  unfold chts. induction c as [|f c IH]; intros Hf; simpl in *; [done|]. intros [Hs Hc]%Forall_cons.
  apply Forall_cons. split; [eapply hts_frame; [|done]; set_solver|apply IH; [set_solver|done]].
Qed.

Lemma below_frame H H' t : (forall q, hgt H' q = hgt H q) -> below H t -> below H' t.
Proof. intros Hf. destruct t; simpl; [done|]. intros [? ?]. split; (eapply hts_frame; [|done]; auto). Qed.

(** Two states that differ in the heights of the nodes in [P] only. *)
Record remeasured (P : loc -> Prop) (s s' : Tree) : Prop := {
  remeasured_look : forall q, look (heap s') q = look (heap s) q;
  remeasured_hgt : forall q, ~ P q -> hgt (heap s') q = hgt (heap s) q;
  remeasured_root : root s' = root s;
  remeasured_items : nItems s' = nItems s;
  remeasured_begin : m_Begin s' = m_Begin s
}.

Lemma remeasured_weaken (P Q : loc -> Prop) s s' :
  (forall q, P q -> Q q) -> remeasured P s s' -> remeasured Q s s'.
Proof. intros HPQ [? Hh ? ? ?]. split; try done. intros q Hq. apply Hh. auto. Qed.

Lemma remeasured_trans P s s' s'' : remeasured P s s' -> remeasured P s' s'' -> remeasured P s s''.
Proof.
  intros [L1 H1 R1 I1 B1] [L2 H2 R2 I2 B2]. split; [|..|congruence|congruence|congruence].
  - intros q. by rewrite L2.
  - intros q Hq. by rewrite H2, H1.
Qed.

Lemma remeasured_reps P s s' t : remeasured P s s' -> reps s t -> reps s' t.
Proof.
  intros [L _ R _ _] [Hr Ht Hd]. split; [|by rewrite R|done]. eapply rep_frame; [|done]. auto.
Qed.

Lemma set_height_run p nd h s :
  heap s !! p = Some nd ->
  exists s', modify (with_height h) (Some p) s = Some (tt, s') /\
    remeasured (fun q => q = p) s s' /\ hgt (heap s') p = Some h.
Proof.
  intros Hp. unfold modify. rewrite Hp. eexists. split; [done|]. unfold hgt, look. cbn [heap].
  split; [|by rewrite lookup_insert_eq].
  split; cbn [heap root nItems m_Begin]; try done; unfold look, hgt.
  - intros q. rewrite lookup_insert. case_decide; [subst; by rewrite Hp|done].
  - intros q Hq. by rewrite lookup_insert_ne.
Qed.

Lemma field_height_run t par s :
  rep (heap s) t par -> hts (heap s) t ->
  (if nonnull (ptr_of t) then field height_ (ptr_of t) else eret 0) s = Some (ht t, s).
Proof.
  destruct t as [|p k e l r]; simpl; intros Hr Hh; [done|]. destruct Hr as (Hp & _), Hh as (Hh & _).
  unfold hgt, field in *. apply look_Some in Hp as [h Hp]. rewrite Hp in *. simpl in Hh. by injection Hh as ->.
Qed.

Section Heights.
Context (w : Z) (Hw : 32 <= w).

Lemma height_run t par s :
  rep (heap s) t par -> NoDup (locs t) -> below (heap s) t -> ht t < 2 ^ 31 ->
  exists s', height w (ptr_of t) s = Some (ht t, s') /\ hts (heap s') t /\
    remeasured (fun q => ptr_of t = Some q) s s'.
Proof.
  destruct t as [|p k e l r]; intros Hr Hd Hb Hlt.
  - exists s. split; [done|]. split; [done|]. by split.
  - cbn [rep below locs] in *. destruct Hr as (Hp & Hl & Hr), Hb as (Hbl & Hbr).
    unfold height. cbn [ptr_of nonnull]. run_field. cbn [leftChild].
    erewrite ebind_run by (by eapply field_height_run). run_field. cbn [rightChild].
    erewrite ebind_run by (by eapply field_height_run).
    pose proof (ht_nonneg l). pose proof (ht_nonneg r). cbn [ht] in *.
    assert (2 ^ 31 < 2 ^ w) by (apply Z.pow_lt_mono_r; lia).
    rewrite !wrap_small by (unfold in_word; lia).
    apply look_Some in Hp as [h Hp].
    destruct (set_height_run p _ (1 + Z.max (ht l) (ht r)) s Hp) as (s' & E & M & Hh).
    exists s'. split; [|split].
    + destruct (Z.ltb_spec (ht r + 1) (ht l + 1));
        [replace (ht l + 1) with (1 + Z.max (ht l) (ht r)) by lia|replace (ht r + 1) with (1 + Z.max (ht l) (ht r)) by lia];
        by erewrite ebind_run by exact E.
    + cbn [hts ht]. apply NoDup_cons in Hd as [Hn _]. destruct M as [_ M _ _ _].
      split; [done|]. split; (eapply hts_frame; [|done]); intros q Hq; apply M; intros ->; set_solver.
    + eapply remeasured_weaken; [|exact M]. by intros q ->.
Qed.

Lemma balanceFactor_run p k e l r par s :
  rep (heap s) (Br p k e l r) par -> NoDup (locs (Br p k e l r)) ->
  below (heap s) l -> below (heap s) r -> ht (Br p k e l r) < 2 ^ 31 ->
  exists s', balanceFactor w (Some p) s = Some (ht r - ht l, s') /\ hts (heap s') l /\ hts (heap s') r /\
    remeasured (fun q => ptr_of l = Some q \/ ptr_of r = Some q) s s'.
Proof.
  cbn [rep locs ht]. intros (Hp & Hl & Hr) Hd Hbl Hbr Hlt.
  apply NoDup_cons in Hd as [Hn Hd]. apply NoDup_app in Hd as (Hdl & Hlr & Hdr).
  pose proof (ht_nonneg l). pose proof (ht_nonneg r).
  unfold balanceFactor. run_field. cbn [rightChild].
  destruct (height_run r _ s Hr Hdr Hbr) as (s1 & E1 & T1 & M1); [lia|].
  erewrite ebind_run by exact E1.
  assert (Hp1 : look (heap s1) p = Some (mkNode k e (ptr_of l) (ptr_of r) par 0))
    by (by rewrite (remeasured_look _ _ _ M1)).
  run_field. cbn [leftChild].
  assert (Hroot : forall t q, ptr_of t = Some q -> q ∈ locs t) by (intros [] q; simpl; [done|intros [= ->]; set_solver]).
  destruct (height_run l (Some p) s1) as (s2 & E2 & T2 & M2).
  { eapply rep_frame; [|exact Hl]. intros. apply M1. }
  { done. }
  { destruct l as [|pl kl el ll rl]; [done|]. destruct Hbl. split; (eapply hts_frame; [|done]);
      intros q Hq; apply M1; intros Hqr; apply Hroot in Hqr; simpl in *; set_solver. }
  { lia. }
  erewrite ebind_run by exact E2. exists s2. rewrite (swrap_31 (ht r)), (swrap_31 (ht l)), swrap_diff by lia. split; [done|].
  split; [done|]. split.
  - eapply hts_frame; [|done]. intros q Hq. apply M2. intros Hql. apply Hroot in Hql. by apply (Hlr q).
  - eapply remeasured_trans; (eapply remeasured_weaken; [|done]); simpl; tauto.
Qed.
End Heights.
