(* ===== verification/TreeMap.v ===== *)
(** * Tree<K, E> implements a finite map

    The rebalancing of [Tree] as functions on shapes, the runs of the loops of
    [insert], [remove], [lookup] and [clear], and the theorems: the operations
    implement those of a finite map from keys to elements, they terminate and
    never follow a null or dangling pointer, and insertion keeps the tree
    balanced. *)
From Stdlib Require Import ZArith Lia List Bool Sorting.Sorted.
From stdpp Require Import base gmap list fin_maps.
From S2P Require Import Prelude Tree TreeRep.
Import ListNotations.
Local Open Scope Z_scope.
#[local] Set Warnings "-clear-no-such-hyp".

(** ** Rebalancing on shapes *)

Definition bal (t : shape) : Z := match t with Leaf => 0 | Br _ _ _ l r => ht r - ht l end.

Definition rotL (t : shape) : shape :=
  match t with Br p k e l (Br y ky ey b a) => Br y ky ey (Br p k e l b) a | _ => t end.

Definition rotR (t : shape) : shape :=
  match t with Br p k e (Br y ky ey a b) r => Br y ky ey a (Br p k e b r) | _ => t end.

Definition rebal (t : shape) : shape :=
  match t with
  | Leaf => Leaf
  | Br p k e l r =>
      if ht r - ht l <? -1 then
        if 0 <? bal l then rotR (Br p k e (rotL l) r) else rotR t
      else if 1 <? ht r - ht l then
        if bal r <? 0 then rotL (Br p k e l (rotR r)) else rotL t
      else t
  end.

Definition balanced (t : shape) : Prop := -1 <= bal t <= 1.

(** The loop of [balance_up], from a subtree in a context to the whole tree. *)
Inductive climbs : shape -> ctx -> shape -> Prop :=
| climbs_top p k e l r : balanced (Br p k e l r) -> climbs (Br p k e l r) [] (Br p k e l r)
| climbs_up p k e l r f c u :
    balanced (Br p k e l r) -> climbs (fill (Br p k e l r) f) c u -> climbs (Br p k e l r) (f :: c) u
| climbs_turn p k e l r c u :
    ~ balanced (Br p k e l r) -> climbs (rebal (Br p k e l r)) c u -> climbs (Br p k e l r) c u.

Lemma ht_pos p k e l r : 1 <= ht (Br p k e l r).
Proof. cbn [ht]. pose proof (ht_nonneg l). lia. Qed.

(** The four rotations [rebal] chooses from. *)
Inductive turned : shape -> shape -> Prop :=
| turned_R p k e y ky ey a b r :
    ht r - ht (Br y ky ey a b) < -1 -> ht b <= ht a ->
    turned (Br p k e (Br y ky ey a b) r) (Br y ky ey a (Br p k e b r))
| turned_LR p k e y ky ey a z kz ez b b' r :
    ht r - ht (Br y ky ey a (Br z kz ez b b')) < -1 -> ht a < ht (Br z kz ez b b') ->
    turned (Br p k e (Br y ky ey a (Br z kz ez b b')) r)
           (Br z kz ez (Br y ky ey a b) (Br p k e b' r))
| turned_L p k e l y ky ey b a :
    1 < ht (Br y ky ey b a) - ht l -> ht b <= ht a ->
    turned (Br p k e l (Br y ky ey b a)) (Br y ky ey (Br p k e l b) a)
| turned_RL p k e l y ky ey z kz ez b' b a :
    1 < ht (Br y ky ey (Br z kz ez b' b) a) - ht l -> ht a < ht (Br z kz ez b' b) ->
    turned (Br p k e l (Br y ky ey (Br z kz ez b' b) a))
           (Br z kz ez (Br p k e l b') (Br y ky ey b a)).

Lemma rebal_turned p k e l r :
  ~ balanced (Br p k e l r) -> turned (Br p k e l r) (rebal (Br p k e l r)).
Proof.
  unfold balanced. cbn [bal rebal]. intros Hb.
  destruct (Z.ltb_spec (ht r - ht l) (-1)) as [Hl|Hl].
  - destruct l as [|y ky ey a b]; [pose proof (ht_nonneg r); simpl in Hl; lia|]. cbn [bal].
    destruct (Z.ltb_spec 0 (ht b - ht a)).
    + destruct b as [|z kz ez b b']; [pose proof (ht_nonneg a); simpl in *; lia|].
      simpl rotL. simpl rotR. constructor; lia.
    + simpl rotR. constructor; lia.
  - destruct (Z.ltb_spec 1 (ht r - ht l)) as [Hr|Hr]; [|lia].
    destruct r as [|y ky ey b a]; [pose proof (ht_nonneg l); simpl in Hr; lia|]. cbn [bal].
    destruct (Z.ltb_spec (ht a - ht b) 0).
    + destruct b as [|z kz ez b' b]; [pose proof (ht_nonneg a); simpl in *; lia|].
      simpl rotR. simpl rotL. constructor; lia.
    + simpl rotL. constructor; lia.
Qed.

Lemma turned_entries t t' : turned t t' -> entries t' = entries t.
Proof. intros []; simpl; rewrite <- ?app_assoc; simpl; rewrite <- ?app_assoc; reflexivity. Qed.

Lemma turned_locs t t' : turned t t' -> locs t' ≡ₚ locs t.
Proof. intros []; simpl; solve_Permutation. Qed.

Lemma turned_ht t t' : turned t t' -> ht t' <= ht t.
Proof. intros []; cbn [ht] in *; lia. Qed.

(** ** The loop ends *)

(** The sum of the heights of all nodes. *)
Fixpoint total (t : shape) : Z := match t with Leaf => 0 | Br _ _ _ l r => ht t + total l + total r end.

Lemma total_nonneg t : 0 <= total t.
Proof. induction t as [|p k e l IHl r IHr]; cbn [total]; [lia|]. pose proof (ht_pos p k e l r). lia. Qed.

Lemma turned_total t t' : turned t t' -> total t' < total t \/ balanced t'.
Proof.
  unfold balanced. intros []; cbn [total ht bal] in *; lia.
Qed.

Lemma balanced_dec t : balanced t \/ ~ balanced t.
Proof. unfold balanced. lia. Qed.

(** Turning a subtree ends with a balanced one. *)
Lemma climbs_turns c :
  (forall p k e l r, balanced (Br p k e l r) -> exists u, climbs (Br p k e l r) c u) ->
  forall n t, total t < Z.of_nat n -> t <> Leaf -> exists u, climbs t c u.
Proof.
  intros Hup. induction n as [|n IH]; intros t Hn Ht; [pose proof (total_nonneg t); lia|].
  destruct t as [|p k e l r]; [done|]. destruct (balanced_dec (Br p k e l r)) as [Hb|Hb]; [by apply Hup|].
  pose proof (rebal_turned _ _ _ _ _ Hb) as Hturn.
  assert (exists u, climbs (rebal (Br p k e l r)) c u) as [u Hu].
  { destruct (rebal (Br p k e l r)) as [|p' k' e' l' r'] eqn:E; [inversion Hturn|].
    destruct (turned_total _ _ Hturn) as [Hlt|Hb']; [apply IH; [lia|done]|by apply Hup]. }
  exists u. by apply climbs_turn.
Qed.

Lemma fill_Br t f : exists p k e l r, fill t f = Br p k e l r.
Proof. destruct f; simpl; eauto 10. Qed.

Lemma climbs_total c : forall t, t <> Leaf -> exists u, climbs t c u.
Proof.
  induction c as [|f c IH]; intros t Ht.
  - apply (climbs_turns [] ltac:(eauto using climbs_top) (S (Z.to_nat (total t)))); [lia|done].
  - apply (climbs_turns (f :: c)) with (n := S (Z.to_nat (total t))); [|lia|done].
    intros p k e l r Hb. destruct (IH (fill (Br p k e l r) f)) as [u Hu].
    + destruct (fill_Br (Br p k e l r) f) as (? & ? & ? & ? & ? & ->). done.
    + exists u. by apply climbs_up.
Qed.

Lemma climbs_Br t c u : climbs t c u -> t <> Leaf.
Proof. by intros []. Qed.

Lemma climbs_entries t c u : climbs t c u -> entries u = entries (plug t c).
Proof.
  induction 1 as [|p k e l r f c u Hb Hc IH|p k e l r c u Hb Hc IH]; [done|exact IH|].
  by rewrite IH, !entries_plug, (turned_entries _ _ (rebal_turned _ _ _ _ _ Hb)).
Qed.

Lemma climbs_locs t c u : climbs t c u -> locs u ≡ₚ locs (plug t c).
Proof.
  induction 1 as [|p k e l r f c u Hb Hc IH|p k e l r c u Hb Hc IH]; [done|exact IH|].
  rewrite IH. by apply locs_plug_perm, turned_locs, rebal_turned.
Qed.

(** ** Insertion keeps AVL balance *)

Fixpoint avl (t : shape) : Prop :=
  match t with Leaf => True | Br _ _ _ l r => balanced t /\ avl l /\ avl r end.

(** A subtree that is one level higher than the one it replaces. *)
Lemma turned_avl p k e l r t' :
  turned (Br p k e l r) t' -> -2 <= ht r - ht l <= 2 -> avl l -> avl r ->
  avl t' /\ balanced t' /\ ht (Br p k e l r) - 1 <= ht t'.
Proof.
  unfold balanced. intros Ht. inversion Ht; subst; cbn [avl ht bal] in *; unfold balanced in *; cbn [bal ht] in *;
    intros; destruct_and?; repeat split; (assumption || lia).
Qed.

Fixpoint avl_ctx (h : Z) (c : ctx) : Prop :=
  match c with
  | [] => True
  | f :: c' => avl (sibling f) /\ -1 <= ht (sibling f) - h <= 1 /\ avl_ctx (1 + Z.max h (ht (sibling f))) c'
  end.

Lemma avl_plug c : forall t, avl (plug t c) <-> avl t /\ avl_ctx (ht t) c.
Proof.
  induction c as [|[p k e r|p k e l] c IH]; intros t; cbn [plug avl_ctx]; [tauto|..]; rewrite IH; cbn [fill avl ht sibling];
    unfold balanced; cbn [bal].
  - split; intros; repeat split; try tauto; lia.
  - rewrite (Z.max_comm (ht t)). split; intros; repeat split; try tauto; lia.
Qed.

(** A subtree of height [h] is replaced by one of height [h] or [h + 1]: the
    climb ends with an AVL tree. *)
Lemma climbs_avl t c u : climbs t c u ->
  forall h, avl_ctx h c -> h <= ht t <= h + 1 -> (balanced t \/ ht t = h + 1) ->
  match t with Leaf => True | Br _ _ _ l r => avl l /\ avl r /\ -2 <= bal t <= 2 end ->
  avl u.
Proof.
  induction 1 as [p k e l r Hb|p k e l r f c u Hb Hc IH|p k e l r c u Hb Hc IH];
    intros h Hctx Hh Hd (Hl & Hr & Hb2).
  - done.
  - cbn [avl_ctx] in Hctx. destruct Hctx as (Hs & Hsh & Hctx).
    assert (Ht : avl (Br p k e l r)) by done. clear Hd. revert IH. generalize dependent (Br p k e l r).
    intros t _ _ Hh _ Ht IH. unfold balanced in *.
    apply (IH _ Hctx); destruct f; cbn [fill ht bal sibling] in *; try lia; split; (done || split; (done || lia)).
  - destruct Hd as [Hd|Hd]; [done|]. cbn [bal] in Hb2.
    destruct (turned_avl _ _ _ _ _ _ (rebal_turned _ _ _ _ _ Hb)) as (Ha & Hb' & Hht); [done..|].
    pose proof (turned_ht _ _ (rebal_turned _ _ _ _ _ Hb)) as Hle.
    apply (IH h Hctx); [lia|by left|]. unfold balanced in Hb'.
    destruct (rebal (Br p k e l r)); [done|]. cbn [avl] in Ha. destruct Ha as (_ & ? & ?). split; [done|]. split; [done|lia].
Qed.

(** The height of an AVL tree is logarithmic in its size. *)
Lemma avl_height t : avl t -> 2 ^ (ht t / 2) <= Z.of_nat (length (locs t)) + 1.
Proof.
  induction t as [|p k e l IHl r IHr]; [vm_compute; discriminate|]. cbn [avl]. intros (Hb & Hl & Hr).
  specialize (IHl Hl). specialize (IHr Hr). unfold balanced in Hb. cbn [bal] in Hb.
  pose proof (ht_nonneg l). pose proof (ht_nonneg r).
  assert (Hm : forall h, 0 <= h -> ht (Br p k e l r) - 2 <= h -> 2 ^ (ht (Br p k e l r) / 2) <= 2 * 2 ^ (h / 2)).
  { intros h Hh Hle. rewrite <- Z.pow_succ_r by (apply Z.div_pos; lia). apply Z.pow_le_mono_r; [lia|].
    rewrite <- Z.add_1_r. replace (h / 2 + 1) with ((h + 1 * 2) / 2) by (apply Z.div_add; lia).
    apply Z.div_le_mono; lia. }
  pose proof (Hm (ht l) ltac:(lia) ltac:(cbn [ht]; lia)). pose proof (Hm (ht r) ltac:(lia) ltac:(cbn [ht]; lia)).
  cbn [locs length]. rewrite length_app. lia.
Qed.

(** ** Runs *)

Lemma relinked_hts s s' t : relinked s s' -> hts (heap s) t -> hts (heap s') t.
Proof. intros [Hh _ _]. apply hts_frame. auto. Qed.

Lemma relinked_chts s s' c : relinked s s' -> chts (heap s) c -> chts (heap s') c.
Proof. intros [Hh _ _]. apply chts_frame. auto. Qed.

(** Measuring what is already measured changes nothing. *)
Lemma remeasured_same l r s s' :
  remeasured (fun q => ptr_of l = Some q \/ ptr_of r = Some q) s s' ->
  hts (heap s) l -> hts (heap s) r -> hts (heap s') l -> hts (heap s') r ->
  relinked s s' /\ forall q, look (heap s') q = look (heap s) q.
Proof.
  intros [L M R I B] Hl Hr Hl' Hr'. split; [|done]. split; [|done..]. intros q.
  assert (Hroot : forall t, hts (heap s) t -> hts (heap s') t -> ptr_of t = Some q -> hgt (heap s') q = hgt (heap s) q).
  { intros [|p k e a b]; simpl; [done|]. intros (H1 & _) (H2 & _) [= ->]. congruence. }
  destruct (decide (ptr_of l = Some q)) as [E|E]; [by apply (Hroot l)|].
  destruct (decide (ptr_of r = Some q)) as [E'|E']; [by apply (Hroot r)|]. apply M. tauto.
Qed.

(** The state of the loop at subtree [t] in context [c]. *)
Record climbing (s : Tree) (t : shape) (c : ctx) : Prop := {
  climbing_reps : reps s (plug t c);
  climbing_below : below2 (heap s) t;
  climbing_chts : chts (heap s) c;
  climbing_small : Z.of_nat (length (locs (plug t c))) < 2 ^ 31
}.

(** The same nodes, the same count, the same iterator. *)
Record kept (s s' : Tree) : Prop := {
  kept_items : nItems s' = nItems s;
  kept_begin : m_Begin s' = m_Begin s;
  kept_dom : dom (heap s') = dom (heap s)
}.

#[export] Instance kept_preorder : PreOrder kept.
Proof. split; [by split|]. intros a b d [] []. split; congruence. Qed.

Lemma relinked_kept s s' : relinked s s' -> kept s s'.
Proof.
  intros [Hh Hi Hb]. split; [done..|]. apply set_eq. intros q. rewrite !elem_of_dom.
  specialize (Hh q). unfold hgt in Hh. destruct (heap s' !! q), (heap s !! q); simpl in Hh; naive_solver.
Qed.

Lemma remeasured_kept P s s' : remeasured P s s' -> kept s s'.
Proof.
  intros [L _ _ Hi Hb]. split; [done..|]. apply set_eq. intros q. rewrite !elem_of_dom.
  specialize (L q). unfold look in L. destruct (heap s' !! q), (heap s !! q); simpl in L; naive_solver.
Qed.

Lemma reps_sub s t c : reps s (plug t c) -> rep (heap s) t (cpar c) /\ NoDup (locs t).
Proof.
  intros [Hr _ Hd]. apply rep_plug in Hr as [Hr _]. rewrite locs_plug in Hd.
  apply NoDup_app in Hd as (Hd & _). done.
Qed.

Lemma ht_plug_le t c : ht t <= Z.of_nat (length (locs (plug t c))).
Proof. rewrite locs_plug, length_app. pose proof (ht_size t). lia. Qed.

Section Runs.
Context (w : Z) (Hw : 32 <= w).

(** [balanceFactor] of a node of the represented tree. *)
Lemma balance_at s p k e l r c :
  reps s (plug (Br p k e l r) c) -> Z.of_nat (length (locs (plug (Br p k e l r) c))) < 2 ^ 31 ->
  below (heap s) l -> below (heap s) r ->
  exists s', balanceFactor w (Some p) s = Some (ht r - ht l, s') /\
    reps s' (plug (Br p k e l r) c) /\ hts (heap s') l /\ hts (heap s') r /\
    remeasured (fun q => ptr_of l = Some q \/ ptr_of r = Some q) s s'.
Proof.
  intros Hs Hsmall Hl Hr. destruct (reps_sub _ _ _ Hs) as [Hrep Hnd].
  pose proof (ht_plug_le (Br p k e l r) c) as Hle.
  destruct (balanceFactor_run w Hw _ _ _ _ _ _ _ Hrep Hnd Hl Hr) as (s' & E & Tl & Tr & M); [lia|].
  exists s'. split; [done|]. split; [by eapply remeasured_reps|done].
Qed.

(** The same where the heights of both subtrees are known to be right. *)
Lemma balance_known s p k e l r c :
  reps s (plug (Br p k e l r) c) -> Z.of_nat (length (locs (plug (Br p k e l r) c))) < 2 ^ 31 ->
  hts (heap s) l -> hts (heap s) r ->
  exists s', balanceFactor w (Some p) s = Some (ht r - ht l, s') /\
    reps s' (plug (Br p k e l r) c) /\ relinked s s'.
Proof.
  intros Hs Hsmall Hl Hr. destruct (balance_at s p k e l r c Hs Hsmall) as (s' & E & Hs' & Tl & Tr & M);
    [by apply hts_below..|].
  destruct (remeasured_same _ _ _ _ M Hl Hr Tl Tr) as [K _]. eauto.
Qed.

Lemma reps_look s p k e l r c :
  reps s (plug (Br p k e l r) c) ->
  look (heap s) p = Some (mkNode k e (ptr_of l) (ptr_of r) (cpar c) 0).
Proof. intros Hs. by destruct (reps_sub _ _ _ Hs) as [(Hp & _) _]. Qed.

(** [rebal t] is in place: what the loop needs to go on. *)
Lemma climbing_turned s s' t t' c :
  relinked s s' -> turned t t' -> reps s' (plug t' c) ->
  Z.of_nat (length (locs (plug t c))) < 2 ^ 31 ->
  below2 (heap s') t' -> chts (heap s) c -> climbing s' t' c.
Proof.
  intros K Ht Hs Hsmall Hb Hc. split; [done|done|by eapply relinked_chts|].
  by rewrite (locs_plug_perm _ _ c (turned_locs _ _ Ht)).
Qed.

Lemma rebalance_left s1 p k e l r c :
  reps s1 (plug (Br p k e l r) c) -> Z.of_nat (length (locs (plug (Br p k e l r) c))) < 2 ^ 31 ->
  hts (heap s1) l -> hts (heap s1) r -> chts (heap s1) c -> ht r - ht l < -1 ->
  exists s', (l <- field leftChild (Some p) ;; b <- balanceFactor w l ;;
     if 0 <? b then rotateLeft l ;; rotateRight (Some p) else rotateRight (Some p))%err s1 = Some (tt, s') /\
    climbing s' (rebal (Br p k e l r)) c /\ kept s1 s' /\
    field parent (Some p) s' = Some (ptr_of (rebal (Br p k e l r)), s').
Proof.
  intros Hs1 Hsmall Hl Hr Hc Hlt.
  assert (Hturn : turned (Br p k e l r) (rebal (Br p k e l r)))
    by (apply rebal_turned; unfold balanced; cbn [bal]; lia).
  cbn [rebal] in *. destruct (Z.ltb_spec (ht r - ht l) (-1)); [|lia].
  destruct l as [|y ky ey a b]; [inversion Hturn|].
  erewrite ebind_run by (eapply field_look; [done|exact (reps_look _ _ _ _ _ _ _ Hs1)]). cbn [leftChild ptr_of].
  destruct (balance_known s1 y ky ey a b (FL p k e r :: c) Hs1) as (s2 & E2 & Hs2 & K2); [done|apply Hl..|].
  erewrite ebind_run by exact E2. clear E2. cbn [bal] in *.
  apply (relinked_hts _ _ _ K2) in Hl, Hr. apply (relinked_chts _ _ _ K2) in Hc.
  destruct (Z.ltb_spec 0 (ht b - ht a)) as [Hab|Hab].
  + destruct b as [|z kz ez b b']; [inversion Hturn; subst; pose proof (ht_nonneg a); simpl in *; lia|].
    simpl rotL in *. simpl rotR in *.
    destruct (rotateLeft_run s2 (FL p k e r :: c) y ky ey z kz ez b' b a Hs2) as (s3 & E3 & Hs3 & K3).
    erewrite ebind_run by exact E3.
    destruct (rotateRight_run s3 c p k e z kz ez (Br y ky ey a b) b' r Hs3) as (s4 & E4 & Hs4 & K4).
    exists s4. split; [done|]. assert (K : relinked s2 s4) by (by etrans).
    split; [|split].
    * eapply climbing_turned; [exact K|done|done|done| |done].
      apply (relinked_hts _ _ _ K) in Hl, Hr. destruct Hl as (_ & ? & _ & ? & ?). done.
    * etrans; by apply relinked_kept.
    * etrans; [eapply field_look; [done|exact (reps_look s4 p k e b' r (FR z kz ez (Br y ky ey a b) :: c) Hs4)]|done].
  + simpl rotR in *.
    destruct (rotateRight_run s2 c p k e y ky ey a b r Hs2) as (s4 & E4 & Hs4 & K).
    exists s4. split; [done|]. split; [|split].
    * eapply climbing_turned; [exact K|done|done|done| |done].
      apply (relinked_hts _ _ _ K) in Hl, Hr. destruct Hl as (_ & Ha & ?). by split; [apply hts_below|].
    * etrans; by apply relinked_kept.
    * etrans; [eapply field_look; [done|exact (reps_look s4 p k e b r (FR y ky ey a :: c) Hs4)]|done].
Qed.

Lemma rebalance_right s1 p k e l r c :
  reps s1 (plug (Br p k e l r) c) -> Z.of_nat (length (locs (plug (Br p k e l r) c))) < 2 ^ 31 ->
  hts (heap s1) l -> hts (heap s1) r -> chts (heap s1) c -> 1 < ht r - ht l ->
  exists s', (r <- field rightChild (Some p) ;; b <- balanceFactor w r ;;
     if b <? 0 then rotateRight r ;; rotateLeft (Some p) else rotateLeft (Some p))%err s1 = Some (tt, s') /\
    climbing s' (rebal (Br p k e l r)) c /\ kept s1 s' /\
    field parent (Some p) s' = Some (ptr_of (rebal (Br p k e l r)), s').
Proof.
  intros Hs1 Hsmall Hl Hr Hc Hlt.
  assert (Hturn : turned (Br p k e l r) (rebal (Br p k e l r)))
    by (apply rebal_turned; unfold balanced; cbn [bal]; lia).
  cbn [rebal] in *. destruct (Z.ltb_spec (ht r - ht l) (-1)); [lia|]. destruct (Z.ltb_spec 1 (ht r - ht l)); [|lia].
  destruct r as [|y ky ey b a]; [inversion Hturn|].
  erewrite ebind_run by (eapply field_look; [done|exact (reps_look _ _ _ _ _ _ _ Hs1)]). cbn [rightChild ptr_of].
  destruct (balance_known s1 y ky ey b a (FR p k e l :: c) Hs1) as (s2 & E2 & Hs2 & K2); [done|apply Hr..|].
  erewrite ebind_run by exact E2. clear E2. cbn [bal] in *.
  apply (relinked_hts _ _ _ K2) in Hl, Hr. apply (relinked_chts _ _ _ K2) in Hc.
  destruct (Z.ltb_spec (ht a - ht b) 0) as [Hab|Hab].
  + destruct b as [|z kz ez b' b]; [inversion Hturn; subst; pose proof (ht_nonneg a); simpl in *; lia|].
    simpl rotL in *. simpl rotR in *.
    destruct (rotateRight_run s2 (FR p k e l :: c) y ky ey z kz ez b' b a Hs2) as (s3 & E3 & Hs3 & K3).
    erewrite ebind_run by exact E3.
    destruct (rotateLeft_run s3 c p k e z kz ez (Br y ky ey b a) b' l Hs3) as (s4 & E4 & Hs4 & K4).
    exists s4. split; [done|]. assert (K : relinked s2 s4) by (by etrans).
    split; [|split].
    * eapply climbing_turned; [exact K|done|done|done| |done].
      apply (relinked_hts _ _ _ K) in Hl, Hr. destruct Hr as (_ & (_ & ? & ?) & ?). done.
    * etrans; by apply relinked_kept.
    * etrans; [eapply field_look; [done|exact (reps_look s4 p k e l b' (FL z kz ez (Br y ky ey b a) :: c) Hs4)]|done].
  + simpl rotL in *.
    destruct (rotateLeft_run s2 c p k e y ky ey a b l Hs2) as (s4 & E4 & Hs4 & K).
    exists s4. split; [done|]. split; [|split].
    * eapply climbing_turned; [exact K|done|done|done| |done].
      apply (relinked_hts _ _ _ K) in Hl, Hr. destruct Hr as (_ & ? & Ha). by split; [|apply hts_below].
    * etrans; by apply relinked_kept.
    * etrans; [eapply field_look; [done|exact (reps_look s4 p k e l b (FL y ky ey a :: c) Hs4)]|done].
Qed.

Lemma rebalance_run s p k e l r c :
  reps s (plug (Br p k e l r) c) -> Z.of_nat (length (locs (plug (Br p k e l r) c))) < 2 ^ 31 ->
  hts (heap s) l -> hts (heap s) r -> chts (heap s) c -> ~ balanced (Br p k e l r) ->
  exists s', rebalanceNode w (Some p) s = Some (tt, s') /\
    climbing s' (rebal (Br p k e l r)) c /\ kept s s' /\
    field parent (Some p) s' = Some (ptr_of (rebal (Br p k e l r)), s').
Proof.
  intros Hs Hsmall Hl Hr Hc Hb. unfold balanced in Hb. cbn [bal] in Hb.
  unfold rebalanceNode. destruct (balance_known s p k e l r c Hs Hsmall Hl Hr) as (s1 & E1 & Hs1 & K1).
  erewrite ebind_run by exact E1. clear E1.
  apply (relinked_hts _ _ _ K1) in Hl, Hr. apply (relinked_chts _ _ _ K1) in Hc. apply relinked_kept in K1.
  destruct (Z.ltb_spec (ht r - ht l) (-1)) as [Hlt|Hlt];
    [destruct (rebalance_left s1 p k e l r c) as (s' & E & H & K & F)
    |destruct (Z.ltb_spec 1 (ht r - ht l)) as [Hgt|Hgt]; [|lia];
     destruct (rebalance_right s1 p k e l r c) as (s' & E & H & K & F)]; try done;
    (exists s'; split; [exact E|split; [done|split; [by etrans|done]]]).
Qed.

(** [balanceFactor] leaves the heights beside the path alone. *)
Lemma chts_measured s s' p k e l r c :
  reps s (plug (Br p k e l r) c) ->
  remeasured (fun q => ptr_of l = Some q \/ ptr_of r = Some q) s s' ->
  chts (heap s) c -> chts (heap s') c.
Proof.
  intros [_ _ Hd] M. apply chts_frame. intros q Hq. apply (remeasured_hgt _ _ _ M).
  rewrite locs_plug in Hd. apply NoDup_app in Hd as (_ & Hd & _). intros Hroot. apply (Hd q); [|done].
  destruct Hroot; [destruct l|destruct r]; simpl in *; try done; set_solver.
Qed.

(** One turn of the loop of [balance_up]. *)
Lemma balance_up_turn s p k e l r c :
  climbing s (Br p k e l r) c ->
  exists s1, reps s1 (plug (Br p k e l r) c) /\ hts (heap s1) l /\ hts (heap s1) r /\ chts (heap s1) c /\
    kept s s1 /\
    forall fuel, balance_up w (S fuel) (Some p) s =
      ((if ((ht r - ht l) <? -1) || (1 <? (ht r - ht l)) then rebalanceNode w (Some p) else eret tt) ;;
       q <- field parent (Some p) ;; balance_up w fuel q)%err s1.
Proof.
  intros [Hs [Hl Hr] Hc Hsmall].
  destruct (balance_at s p k e l r c Hs Hsmall Hl Hr) as (s1 & E & Hs1 & Tl & Tr & M).
  exists s1. split; [done|]. split; [done|]. split; [done|]. split; [exact (chts_measured _ _ _ _ _ _ _ _ Hs M Hc)|].
  split; [by eapply remeasured_kept|]. intros fuel. cbn [balance_up nonnull]. by erewrite ebind_run by exact E.
Qed.

Lemma balanced_test p k e l r :
  ((ht r - ht l) <? -1) || (1 <? (ht r - ht l)) = false <-> balanced (Br p k e l r).
Proof. unfold balanced. cbn [bal]. rewrite orb_false_iff, !Z.ltb_ge. lia. Qed.

(** [balance_up] does what [climbs] says. *)
Lemma balance_up_run t c u : climbs t c u -> forall s, climbing s t c ->
  exists N s', (forall fuel, (N <= fuel)%nat -> balance_up w fuel (ptr_of t) s = Some (tt, s')) /\
    reps s' u /\ below (heap s') u /\ kept s s'.
Proof.
  induction 1 as [p k e l r Hb|p k e l r f c u Hb Hc IH|p k e l r c u Hb Hc IH]; intros s Hs;
    destruct (balance_up_turn _ _ _ _ _ _ _ Hs) as (s1 & Hs1 & Tl & Tr & Tc & K1 & E).
  - exists 2%nat, s1. split; [|done]. intros [|[|fuel]] Hf; [lia..|]. cbn [ptr_of]. rewrite E.
    rewrite (proj2 (balanced_test p k e l r) Hb).
    erewrite ebind_run by done. erewrite ebind_run by (eapply field_look; [done|exact (reps_look _ _ _ _ _ _ _ Hs1)]).
    done.
  - destruct (IH s1) as (N & s' & E' & Hs' & Hb' & K').
    { apply Forall_cons in Tc as [Tf Tc]. split; [exact Hs1| |done|].
      - destruct f; cbn [fill below2 sibling] in *; (split; [done|by apply hts_below]) || (split; [by apply hts_below|done]).
      - exact (climbing_small _ _ _ Hs). }
    exists (S N), s'. split; [|split; [done|split; [done|by etrans]]].
    intros [|fuel] Hf; [lia|]. cbn [ptr_of]. rewrite E. rewrite (proj2 (balanced_test p k e l r) Hb).
    erewrite ebind_run by done. erewrite ebind_run by (eapply field_look; [done|exact (reps_look _ _ _ _ _ _ _ Hs1)]).
    cbn [parent cpar]. rewrite <- (E' fuel) by lia. by destruct f.
  - destruct (rebalance_run s1 p k e l r c) as (s2 & E2 & Hs2 & K2 & F2); [done|by destruct Hs|done..|].
    destruct (IH s2 Hs2) as (N & s' & E' & Hs' & Hb' & K').
    exists (S N), s'. split; [|split; [done|split; [done|etrans; [done|by etrans]]]].
    intros [|fuel] Hf; [lia|]. cbn [ptr_of]. rewrite E.
    destruct (_ || _) eqn:Et; [|by destruct Hb; eapply balanced_test].
    erewrite ebind_run by exact E2. erewrite ebind_run by exact F2. apply E'. lia.
Qed.
End Runs.
