(* ===== verification/TreeDict.v ===== *)
(** * The operations of Tree<K, E>

    [insert], [lookup], [remove], [count] and [clear] of [Tree] implement a
    finite map; the loops end, no pointer is null or dangling where it is
    followed, and no node leaks. *)
From Stdlib Require Import ZArith Lia List Bool Sorting.Sorted.
From stdpp Require Import base gmap list fin_maps sorting.
From S2P Require Import Prelude Tree TreeRep TreeMap.
Import ListNotations.
Local Open Scope Z_scope.
#[local] Set Warnings "-clear-no-such-hyp".

(** ** Sorted association lists *)

Definition sorted (l : list (Z * Z)) : Prop := StronglySorted Z.lt l.*1.

Definition to_map (l : list (Z * Z)) : gmap Z Z := list_to_map l.

Lemma sorted_mid l1 k e l2 :
  sorted (l1 ++ (k, e) :: l2) <->
  sorted (l1 ++ l2) /\ (forall x, x ∈ l1.*1 -> x < k) /\ (forall x, x ∈ l2.*1 -> k < x).
Proof.
  unfold sorted. rewrite !fmap_app, fmap_cons, !StronglySorted_app. cbn [fst]. split.
  - intros (Hx & H1 & H2). inversion H2 as [|? ? H3 H4]; subst. rewrite List.Forall_forall in H4.
    split; [split; [|done]|split].
    + intros x y Hin Hin'. apply Hx; [done|by apply elem_of_cons; right].
    + intros x Hin. apply Hx; [done|apply elem_of_cons; by left].
    + intros x Hin. apply H4. by apply list_elem_of_In.
  - intros ((Hx & H1 & H2) & Hl & Hr). split; [|split; [done|]].
    + intros x y Hin [->|Hin']%elem_of_cons; auto.
    + constructor; [done|]. rewrite List.Forall_forall. intros x Hin. apply Hr. by apply list_elem_of_In.
Qed.

Lemma to_map_not_in l k : k ∉ l.*1 -> to_map l !! k = None.
Proof. apply not_elem_of_list_to_map_1. Qed.

Lemma to_map_mid l1 k e l2 k' :
  sorted (l1 ++ (k, e) :: l2) ->
  to_map (l1 ++ (k, e) :: l2) !! k' =
  if k' =? k then Some e else if k' <? k then to_map l1 !! k' else to_map l2 !! k'.
Proof.
  intros (Hs & Hl & Hr)%sorted_mid. unfold to_map. rewrite list_to_map_app, lookup_union, list_to_map_cons.
  assert (H1 : k <= k' -> (list_to_map l1 : gmap Z Z) !! k' = None).
  { intros Hk. apply to_map_not_in. intros Hin. specialize (Hl _ Hin). lia. }
  assert (H2 : k' <= k -> (list_to_map l2 : gmap Z Z) !! k' = None).
  { intros Hk. apply to_map_not_in. intros Hin. specialize (Hr _ Hin). lia. }
  destruct (Z.eqb_spec k' k) as [->|Hne].
  - rewrite H1 by lia. by rewrite lookup_insert_eq, (left_id_L None _).
  - rewrite lookup_insert_ne by done. destruct (Z.ltb_spec k' k).
    + rewrite H2 by lia. by rewrite (right_id_L None _).
    + rewrite H1 by lia. by rewrite (left_id_L None _).
Qed.

Lemma to_map_insert l1 k e l2 :
  sorted (l1 ++ (k, e) :: l2) -> to_map (l1 ++ (k, e) :: l2) = <[k := e]> (to_map (l1 ++ l2)).
Proof.
  intros (Hs & Hl & Hr)%sorted_mid. unfold to_map. rewrite !list_to_map_app, list_to_map_cons.
  rewrite insert_union_r; [done|]. apply to_map_not_in. intros Hin. specialize (Hl _ Hin). lia.
Qed.

Lemma to_map_delete l1 k e l2 :
  sorted (l1 ++ (k, e) :: l2) -> to_map (l1 ++ l2) = delete k (to_map (l1 ++ (k, e) :: l2)).
Proof.
  intros Hs. rewrite to_map_insert by done. apply sorted_mid in Hs as (Hs & Hl & Hr).
  rewrite delete_insert_id; [done|]. apply to_map_not_in. rewrite fmap_app, elem_of_app.
  intros [Hin|Hin]; [specialize (Hl _ Hin)|specialize (Hr _ Hin)]; lia.
Qed.

Lemma sorted_NoDup l : sorted l -> NoDup l.*1.
Proof.
  unfold sorted. induction 1 as [|x l' Hs IH Hf]; [constructor|]. apply NoDup_cons. split; [|done].
  intros Hin%list_elem_of_In. rewrite List.Forall_forall in Hf. specialize (Hf _ Hin). lia.
Qed.

Lemma to_map_size l : sorted l -> size (to_map l) = length l.
Proof. intros Hs. by apply map_size_list_to_map, sorted_NoDup. Qed.

Lemma entries_length t : length (entries t) = length (locs t).
Proof.
  induction t as [|p k e l IHl r IHr]; simpl; [done|]. rewrite !length_app. simpl. lia.
Qed.

(** ** Searching *)

Lemma sorted_plug t c : sorted (entries (plug t c)) -> sorted (entries t).
Proof.
  rewrite entries_plug. unfold sorted. rewrite !fmap_app, !StronglySorted_app. tauto.
Qed.

(** All keys beside the path are on the right side of [k]. *)
Definition apart_from (k : Z) (c : ctx) : Prop :=
  (forall x, x ∈ (before c).*1 -> x < k) /\ (forall x, x ∈ (after c).*1 -> k < x).

Lemma apart_nil k : apart_from k [].
Proof. split; intros x Hx; by apply elem_of_nil in Hx. Qed.

Lemma apart_left k p k0 e l r c :
  sorted (entries (Br p k0 e l r)) -> apart_from k c -> k < k0 -> apart_from k (FL p k0 e r :: c).
Proof.
  intros (_ & _ & Hr)%sorted_mid [Hb Ha] Hk. split; [done|]. cbn [after]. intros x.
  rewrite fmap_cons, fmap_app, elem_of_cons, elem_of_app. cbn [fst].
  intros [->|[Hx|Hx]]; [done|specialize (Hr _ Hx); lia|auto].
Qed.

Lemma apart_right k p k0 e l r c :
  sorted (entries (Br p k0 e l r)) -> apart_from k c -> k0 < k -> apart_from k (FR p k0 e l :: c).
Proof.
  intros (_ & Hl & _)%sorted_mid [Hb Ha] Hk. split; [|done]. cbn [before]. intros x.
  rewrite !fmap_app, !elem_of_app, fmap_cons, elem_of_cons. cbn [fst].
  intros [Hx|[Hx|[->|Hx%elem_of_nil]]]; [auto|specialize (Hl _ Hx); lia|done|done].
Qed.

Lemma find_node s p k e l r c :
  reps s (plug (Br p k e l r) c) ->
  field key (Some p) s = Some (k, s) /\ field element (Some p) s = Some (e, s) /\
  field leftChild (Some p) s = Some (ptr_of l, s) /\ field rightChild (Some p) s = Some (ptr_of r, s) /\
  field parent (Some p) s = Some (cpar c, s).
Proof.
  intros Hs%reps_look. repeat split; (etrans; [eapply field_look; [done|exact Hs]|done]).
Qed.

Lemma sorted_sub p k e l r :
  sorted (entries (Br p k e l r)) ->
  sorted (entries (Br p k e l r)) /\ sorted (entries l) /\ sorted (entries r).
Proof.
  unfold sorted. cbn [entries]. rewrite fmap_app, fmap_cons. intros Hs. split; [done|].
  apply StronglySorted_app in Hs as (_ & Hl & Hr). by inversion Hr.
Qed.

Lemma lookup_loop_run s k t : forall c fuel,
  reps s (plug t c) -> sorted (entries t) -> (Z.to_nat (ht t) < fuel)%nat ->
  lookup_loop fuel k (ptr_of t) s = Some (default 0 (to_map (entries t) !! k), s).
Proof.
  induction t as [|p k0 e l IHl r IHr]; intros c [|fuel] Hs Hsort Hf; try lia; [done|].
  cbn [lookup_loop ptr_of nonnull entries] in *. rewrite to_map_mid by done.
  destruct (sorted_sub p k0 e l r Hsort) as (_ & Hsl & Hsr).
  destruct (find_node _ _ _ _ _ _ _ Hs) as (Ek & Ee & El & Er & _).
  pose proof (ht_nonneg l). pose proof (ht_nonneg r). cbn [ht] in Hf.
  erewrite ebind_run by exact Ek. rewrite (Z.eqb_sym k0 k). destruct (Z.eqb_spec k k0) as [->|Hne]; [exact Ee|].
  destruct (Z.ltb_spec k k0).
  - erewrite ebind_run by exact El. apply (IHl (FL p k0 e r :: c)); [exact Hs|done|lia].
  - erewrite ebind_run by exact Er. apply (IHr (FR p k0 e l :: c)); [exact Hs|done|lia].
Qed.

(** Where the search for [k] ends: at the node with that key, or at a null
    pointer. *)
Lemma find_loop_run s k t : forall c,
  reps s (plug t c) -> sorted (entries t) -> apart_from k c -> below (heap s) t -> chts (heap s) c ->
  exists t' c',
    (forall fuel, (Z.to_nat (ht t) < fuel)%nat -> find_loop fuel k (ptr_of t) s = Some (ptr_of t', s)) /\
    plug t' c' = plug t c /\ apart_from k c' /\ below (heap s) t' /\ chts (heap s) c' /\
    (t' = Leaf \/ exists p e l r, t' = Br p k e l r).
Proof.
  induction t as [|p k0 e l IHl r IHr]; intros c Hs Hsort Hap Hb Hc.
  { exists Leaf, c. split; [by intros [|fuel] Hf; [lia|]|]. by repeat split; try apply Hap; auto. }
  destruct (find_node _ _ _ _ _ _ _ Hs) as (Ek & Ee & El & Er & _).
  pose proof (ht_nonneg l). pose proof (ht_nonneg r). apply sorted_sub in Hsort as (Hsort & Hsl & Hsr).
  destruct Hb as [Hbl Hbr]. destruct (Z.eq_dec k0 k) as [->|Hne].
  { exists (Br p k e l r), c. split; [|split; [done|split; [done|split; [done|split; [done|eauto 10]]]]].
    intros [|fuel] Hf; [lia|]. cbn [find_loop ptr_of nonnull]. erewrite ebind_run by exact Ek. by rewrite Z.eqb_refl. }
  destruct (Z_lt_le_dec k k0) as [Hlt|Hge].
  - destruct (IHl (FL p k0 e r :: c)) as (t' & c' & Hrun & H'); [done|done|by apply (apart_left _ _ _ _ l)|by apply hts_below|by apply Forall_cons|].
    exists t', c'. split; [|exact H']. intros [|fuel] Hf; [lia|]. cbn [find_loop ptr_of nonnull ht] in *.
    erewrite ebind_run by exact Ek. rewrite (proj2 (Z.eqb_neq _ _) Hne), (proj2 (Z.ltb_lt _ _) Hlt).
    erewrite ebind_run by exact El. apply Hrun. lia.
  - destruct (IHr (FR p k0 e l :: c)) as (t' & c' & Hrun & H'); [done|done|apply (apart_right _ _ _ _ _ r); [done..|lia]|by apply hts_below|by apply Forall_cons|].
    exists t', c'. split; [|exact H']. intros [|fuel] Hf; [lia|]. cbn [find_loop ptr_of nonnull ht] in *.
    erewrite ebind_run by exact Ek. rewrite (proj2 (Z.eqb_neq _ _) Hne), (proj2 (Z.ltb_ge _ _) Hge).
    erewrite ebind_run by exact Er. apply Hrun. lia.
Qed.

(** ** Linking a new node in *)

Definition link (f : frame) (q : ptr) : Node -> Node :=
  match f with FL _ _ _ _ => with_left q | FR _ _ _ _ => with_right q end.

Lemma link_link f q : sets_link (link f q).
Proof. by destruct f. Qed.

Lemma attach_run s n k v f c :
  reps s (plug Leaf (f :: c)) -> look (heap s) n = Some (mkNode k v None None None 0) ->
  n ∉ locs (plug Leaf (f :: c)) ->
  exists s', (modify (link f (Some n)) (Some (floc f)) ;; modify (with_parent (Some (floc f))) (Some n) ;;
              eret (Some (floc f)))%err s = Some (Some (floc f), s') /\
    reps s' (plug (Br n k v Leaf Leaf) (f :: c)) /\ relinked s s'.
Proof.
  intros [Hr Hroot Hd] Hn Hnin. apply rep_plug in Hr as [_ Hc].
  rewrite locs_plug in Hnin, Hd. cbn [locs app clocs ptr_of] in *.
  apply NoDup_cons in Hd as [Hpn Hd]. apply NoDup_app in Hd as (Hds & Hsc & Hdc).
  apply not_elem_of_cons in Hnin as [Hnp Hnin]. rewrite not_elem_of_app in Hpn, Hnin.
  assert (exists nd, look (heap s) (floc f) = Some nd /\ rep (heap s) (sibling f) (Some (floc f)) /\
    rep_ctx (heap s) c (Some (floc f)) /\
    nd = match f with FL p k e r => mkNode k e None (ptr_of r) (cpar c) 0
                    | FR p k e l => mkNode k e (ptr_of l) None (cpar c) 0 end) as (nd & Hp & Hs & Hc' & End).
  { destruct f; cbn [rep_ctx floc sibling] in *; naive_solver. }
  destruct (modify_look (link f (Some n)) _ _ _ (link_link f _) Hp) as (s1 & E1 & K1 & R1 & P1 & F1).
  erewrite ebind_run by exact E1.
  assert (Hn1 : look (heap s1) n = Some (mkNode k v None None None 0)) by (rewrite F1 by congruence; done).
  destruct (modify_look (with_parent (Some (floc f))) _ _ _ (with_parent_link _) Hn1) as (s2 & E2 & K2 & R2 & P2 & F2).
  erewrite ebind_run by exact E2. exists s2. split; [done|]. split; [|by etrans].
  assert (Hp2 : look (heap s2) (floc f) = Some (link f (Some n) nd)) by (rewrite F2 by congruence; done).
  assert (Hf : forall q, q <> floc f -> q <> n -> look (heap s2) q = look (heap s) q)
    by (intros q ? ?; rewrite F2, F1 by done; done).
  assert (rep (heap s2) (sibling f) (Some (floc f)))
    by (eapply rep_frame; [|exact Hs]; intros q Hq; apply Hf; intros ->; naive_solver).
  assert (rep_ctx (heap s2) c (Some (floc f)))
    by (eapply rep_ctx_frame; [|exact Hc']; intros q Hq; apply Hf; intros ->; naive_solver).
  split.
  - apply rep_plug. split; [by repeat split|]. cbn [ptr_of]. subst nd.
    destruct f; cbn [rep_ctx floc sibling link] in *; done.
  - rewrite R2, R1, Hroot. cbn [plug]. apply root_plug. by destruct f.
  - rewrite locs_plug. cbn [locs app clocs]. apply NoDup_cons. split.
    + rewrite not_elem_of_cons, not_elem_of_app. done.
    + apply NoDup_cons. rewrite not_elem_of_app. split; [done|]. by apply NoDup_app.
Qed.

Lemma insert_loop_run s k v n t : forall c,
  reps s (plug t c) -> sorted (entries t) -> apart_from k c -> below (heap s) t -> chts (heap s) c ->
  look (heap s) n = Some (mkNode k v None None None 0) -> n ∉ locs (plug t c) ->
  t <> Leaf -> k ∉ (entries t).*1 ->
  exists s' f c',
    (forall fuel, (Z.to_nat (ht t) <= fuel)%nat ->
      insert_loop fuel k (Some n) (ptr_of t) s = Some (Some (floc f), s')) /\
    plug Leaf (f :: c') = plug t c /\ apart_from k (f :: c') /\ chts (heap s) (f :: c') /\
    reps s' (plug (Br n k v Leaf Leaf) (f :: c')) /\ relinked s s'.
Proof.
  induction t as [|p k0 e l IHl r IHr]; intros c Hs Hsort Hap Hb Hc Hn Hnin Hne Hk; [done|].
  destruct (find_node _ _ _ _ _ _ _ Hs) as (Ek & Ee & El & Er & _).
  pose proof (ht_nonneg l). pose proof (ht_nonneg r). apply sorted_sub in Hsort as (Hsort & Hsl & Hsr).
  cbn [entries] in Hk. rewrite fmap_app, fmap_cons, not_elem_of_app, not_elem_of_cons in Hk.
  destruct Hk as (Hkl & Hk0 & Hkr). cbn [fst] in Hk0. destruct Hb as [Hbl Hbr].
  destruct (Z_lt_le_dec k0 k) as [Hlt|Hge].
  - assert (Hap' : apart_from k (FR p k0 e l :: c)) by (by apply (apart_right _ _ _ _ _ r)).
    assert (Hc' : chts (heap s) (FR p k0 e l :: c)) by (by apply Forall_cons).
    assert (Hstep : forall fuel, insert_loop (S fuel) k (Some n) (Some p) s =
      (if nonnull (ptr_of r) then insert_loop fuel k (Some n) (ptr_of r)
       else modify (with_right (Some n)) (Some p) ;; modify (with_parent (Some p)) (Some n) ;; eret (Some p))%err s).
    { intros fuel. cbn [insert_loop]. erewrite ebind_run by exact Ek. rewrite (proj2 (Z.ltb_lt _ _) Hlt).
      by erewrite ebind_run by exact Er. }
    destruct r as [|pr kr er rl rr]; cbn [ptr_of nonnull] in Hstep.
    + destruct (attach_run s n k v (FR p k0 e l) c Hs Hn Hnin) as (s' & E & Hs1 & K).
      exists s', (FR p k0 e l), c. split; [|done]. intros [|fuel] Hf; [cbn [ht] in Hf; lia|]. by rewrite Hstep.
    + destruct (IHr (FR p k0 e l :: c)) as (s' & f & c' & Hrun & H'); try done; [by apply hts_below|].
      exists s', f, c'. split; [|done]. intros [|fuel] Hf; cbn [ht] in *; [lia|]. cbn [ptr_of]. rewrite Hstep. apply Hrun. lia.
  - assert (Hap' : apart_from k (FL p k0 e r :: c)) by (apply (apart_left _ _ _ _ l); [done..|lia]).
    assert (Hc' : chts (heap s) (FL p k0 e r :: c)) by (by apply Forall_cons).
    assert (Hstep : forall fuel, insert_loop (S fuel) k (Some n) (Some p) s =
      (if nonnull (ptr_of l) then insert_loop fuel k (Some n) (ptr_of l)
       else modify (with_left (Some n)) (Some p) ;; modify (with_parent (Some p)) (Some n) ;; eret (Some p))%err s).
    { intros fuel. cbn [insert_loop]. erewrite ebind_run by exact Ek. rewrite (proj2 (Z.ltb_ge _ _) Hge).
      by erewrite ebind_run by exact El. }
    destruct l as [|pl kl el ll lr]; cbn [ptr_of nonnull] in Hstep.
    + destruct (attach_run s n k v (FL p k0 e r) c Hs Hn Hnin) as (s' & E & Hs1 & K).
      exists s', (FL p k0 e r), c. split; [|done]. intros [|fuel] Hf; [cbn [ht] in Hf; lia|]. by rewrite Hstep.
    + destruct (IHl (FL p k0 e r :: c)) as (s' & f & c' & Hrun & H'); try done; [by apply hts_below|].
      exists s', f, c'. split; [|done]. intros [|fuel] Hf; cbn [ht] in *; [lia|]. cbn [ptr_of]. rewrite Hstep. apply Hrun. lia.
Qed.

(** ** The abstraction *)

(** [s] holds the nodes of [t] and nothing else, heights are in place, and the
    nodes hold the map [m], whose elements are not null. *)
Record represents (s : Tree) (t : shape) (m : gmap Z Z) : Prop := {
  represents_reps : reps s t;
  represents_below : below (heap s) t;
  represents_dom : dom (heap s) = list_to_set (locs t);
  represents_items : nItems s = Z.of_nat (size m);
  represents_sorted : sorted (entries t);
  represents_map : to_map (entries t) = m;
  represents_elements : map_Forall (fun _ e => e <> 0) m
}.

Lemma represents_locs s t m : represents s t m -> length (locs t) = size m.
Proof. intros H. rewrite <- entries_length, <- (represents_map _ _ _ H), to_map_size; [done|apply H]. Qed.

Lemma represents_empty : represents empty_tree Leaf ∅.
Proof.
  split; try done.
  - split; [done|done|constructor].
  - constructor.
Qed.

(** [new Node]. *)
Lemma new_node_run s t m k v :
  represents s t m ->
  exists n s1, new_node k v s = Some (Some n, s1) /\ heap s !! n = None /\
    s1 = mkTree (<[n := mkNode k v None None None 0]> (heap s)) (root s) (nItems s) (m_Begin s) /\
    reps s1 t /\ below (heap s1) t /\ (n ∉ locs t) /\
    look (heap s1) n = Some (mkNode k v None None None 0).
Proof.
  intros [[Hr Hroot Hd] Hb Hdom _ _ _ _]. exists (fresh (dom (heap s))). eexists. split; [done|].
  pose proof (is_fresh (dom (heap s))) as Hn. set (n := fresh (dom (heap s))) in *.
  assert (Hin : n ∉ locs t) by (rewrite Hdom in Hn; set_solver).
  split; [by apply not_elem_of_dom|]. split; [done|]. cbn [heap].
  split; [split; cbn [heap root]|]; [| |done|].
  - eapply rep_frame; [|done]. intros q Hq. unfold look. rewrite lookup_insert_ne; [done|]. intros ->. done.
  - done.
  - split; [|split; [done|unfold look; by rewrite lookup_insert_eq]].
    destruct t as [|p k0 e l r]; [done|]. cbn [below locs] in *.
    split; (eapply hts_frame; [|apply Hb]); intros q Hq; unfold hgt; (rewrite lookup_insert_ne; [done|]);
      intros ->; set_solver.
Qed.

Lemma lookup_run s t k fuel :
  reps s t -> sorted (entries t) -> (Z.to_nat (ht t) < fuel)%nat ->
  lookup fuel k s = Some (default 0 (to_map (entries t) !! k), s).
Proof.
  intros Hs Hsort Hf. unfold lookup. erewrite ebind_run by done. rewrite (reps_root _ _ Hs).
  by apply (lookup_loop_run s k t []).
Qed.

Lemma mkTree_eta s : mkTree (heap s) (root s) (nItems s) (m_Begin s) = s.
Proof. by destruct s. Qed.

(** Inserting a key that is present changes nothing. *)
Lemma insert_present w s t m k v e fuel :
  represents s t m -> m !! k = Some e -> (Z.to_nat (ht t) < fuel)%nat ->
  insert w fuel k v s = Some (tt, s).
Proof.
  intros H Hk Hf. destruct (new_node_run s t m k v H) as (n & s1 & E & Hn & -> & Hs1 & _ & _ & _).
  unfold insert. erewrite ebind_run by exact E.
  erewrite ebind_run by (apply (lookup_run _ t); [done|apply H|done]).
  rewrite (represents_map _ _ _ H), Hk. cbn [default].
  pose proof (represents_elements _ _ _ H k e Hk) as He. cbv beta in He. apply Z.eqb_neq in He. cbn. rewrite He.
  cbn. rewrite lookup_insert_eq. rewrite delete_insert_id by done. by rewrite mkTree_eta.
Qed.

Lemma climbs_insert_avl n k v f c u :
  avl (plug Leaf (f :: c)) -> climbs (fill (Br n k v Leaf Leaf) f) c u -> avl u.
Proof.
  intros Ha Hc. apply avl_plug in Ha as [_ Hctx]. cbn [avl_ctx ht] in Hctx. destruct Hctx as (Hs & Hh & Hctx).
  pose proof (ht_nonneg (sibling f)). apply (climbs_avl _ _ _ Hc _ Hctx);
    destruct f; cbn [fill ht sibling bal] in *; unfold balanced; cbn [bal ht]; try lia;
    split; try split; try done; cbn [avl]; unfold balanced; cbn [bal ht]; (done || lia).
Qed.

Section Theorems.
Context (w : Z) (Hw : 32 <= w).

(** Linking the node into a tree that is not empty, and balancing. *)
Lemma insert_grow s t m k v n s1 :
  represents s t m -> m !! k = None -> t <> Leaf -> Z.of_nat (size m) + 1 < 2 ^ 31 ->
  reps s1 t -> below (heap s1) t -> n ∉ locs t -> look (heap s1) n = Some (mkNode k v None None None 0) ->
  exists N s' u, (forall fuel, (N <= fuel)%nat ->
      (currentNode <- insert_loop fuel k (Some n) (ptr_of t) ;; balance_up w fuel currentNode)%err s1 = Some (tt, s')) /\
    reps s' u /\ below (heap s') u /\ kept s1 s' /\ sorted (entries u) /\ to_map (entries u) = <[k := v]> m /\
    locs u ≡ₚ n :: locs t /\ (avl t -> avl u).
Proof.
  intros H Hk Ht Hsmall Hs1 Hb Hn Hl. pose proof (represents_sorted _ _ _ H) as Hsort.
  assert (Hnot : k ∉ (entries t).*1).
  { apply not_elem_of_list_to_map. change (to_map (entries t) !! k = None). by rewrite (represents_map _ _ _ H). }
  destruct (insert_loop_run s1 k v n t []) as (s2 & f & c & E2 & Hp & Hap & Hc & Hs2 & K2);
    [done|done|apply apart_nil|done|constructor|done|done|done|done|].
  destruct (climbs_total c (fill (Br n k v Leaf Leaf) f)) as [u Hu].
  { destruct (fill_Br (Br n k v Leaf Leaf) f) as (? & ? & ? & ? & ? & ->). done. }
  cbn [plug] in Hp, Hs2. apply (relinked_chts _ _ _ K2) in Hc. apply Forall_cons in Hc as [Hcf Hcc].
  assert (Hlocs : locs (plug (Br n k v Leaf Leaf) (f :: c)) ≡ₚ n :: locs t) 
    by (rewrite <- Hp; cbn [plug]; rewrite !locs_plug; destruct f; simpl; solve_Permutation).
  assert (Hcl : climbing s2 (fill (Br n k v Leaf Leaf) f) c).
  { split; [exact Hs2| |exact Hcc|].
    - apply hts_below in Hcf. by destruct f.
    - cbn [plug] in Hlocs. rewrite Hlocs. cbn [length]. rewrite (represents_locs _ _ _ H). lia. }
  destruct (balance_up_run w Hw _ _ _ Hu s2 Hcl) as (N & s3 & E3 & Hs3 & Hb3 & K3).
  exists (max N (Z.to_nat (ht t))), s3, u.
  assert (Hent : entries u = before (f :: c) ++ (k, v) :: after (f :: c))
    by (rewrite (climbs_entries _ _ _ Hu); exact (entries_plug (f :: c) (Br n k v Leaf Leaf))).
  assert (Hent' : entries t = before (f :: c) ++ after (f :: c)) by (rewrite <- Hp; exact (entries_plug (f :: c) Leaf)).
  assert (Hsu : sorted (entries u)) by (rewrite Hent; apply sorted_mid; rewrite <- Hent'; split; [done|exact Hap]).
  split.
  { intros fuel Hf. erewrite ebind_run by (apply E2; lia).
    rewrite <- (E3 fuel) by lia. by destruct f. }
  split; [done|]. split; [done|]. split; [etrans; [by apply relinked_kept|done]|]. split; [done|]. split.
  - rewrite Hent, to_map_insert by (by rewrite <- Hent). by rewrite <- Hent', (represents_map _ _ _ H).
  - split; [by rewrite (climbs_locs _ _ _ Hu)|]. intros Ha. eapply climbs_insert_avl; [|exact Hu]. cbn [plug]. by rewrite Hp.
Qed.

Lemma items_run (f : Z -> Z) s :
  set_nItems f s = Some (tt, mkTree (heap s) (root s) (f (nItems s)) (m_Begin s)).
Proof. done. Qed.

Lemma wrap_small_31 z : 0 <= z < 2 ^ 31 -> wrap w z = z.
Proof.
  intros Hz. apply wrap_small. unfold in_word. assert (2 ^ 31 < 2 ^ w) by (apply Z.pow_lt_mono_r; lia). lia.
Qed.

(** A map with one key more. *)
Lemma represents_grown s1 s3 t u m k v n :
  m !! k = None -> v <> 0 -> Z.of_nat (size m) + 1 < 2 ^ 31 ->
  dom (heap s1) = {[n]} ∪ list_to_set (locs t) -> nItems s1 = Z.of_nat (size m) ->
  map_Forall (fun _ e => e <> 0) m ->
  reps s3 u -> below (heap s3) u -> dom (heap s3) = dom (heap s1) -> nItems s3 = nItems s1 ->
  sorted (entries u) -> to_map (entries u) = <[k := v]> m -> locs u ≡ₚ n :: locs t ->
  represents (mkTree (heap s3) (root s3) (wrap w (nItems s3 + 1)) (m_Begin s3)) u (<[k := v]> m).
Proof.
  intros Hk Hv Hsmall Hdom Hit He [Hr Hroot Hd] Hb Hdom3 Hit3 Hsort Hmap Hlocs.
  split; cbn [heap root nItems]; try done.
  - by rewrite Hdom3, Hdom, Hlocs.
  - rewrite Hit3, Hit, wrap_small_31 by lia. rewrite map_size_insert_None by done. lia.
  - by apply map_Forall_insert.
Qed.

Lemma insert_absent s t m k v :
  represents s t m -> m !! k = None -> v <> 0 -> Z.of_nat (size m) + 1 < 2 ^ 31 ->
  exists N s' u, (forall fuel, (N <= fuel)%nat -> insert w fuel k v s = Some (tt, s')) /\
    represents s' u (<[k := v]> m) /\ (avl t -> avl u).
Proof.
  intros H Hk Hv Hsmall. destruct (new_node_run s t m k v H) as (n & s1 & E & Hn & Es1 & Hs1 & Hb1 & Hnl & Hl1).
  assert (Hdom1 : dom (heap s1) = {[n]} ∪ list_to_set (locs t))
    by (rewrite Es1; cbn [heap]; rewrite dom_insert_L; by rewrite (represents_dom _ _ _ H)).
  assert (Hit1 : nItems s1 = Z.of_nat (size m)) by (rewrite Es1; apply (represents_items _ _ _ H)).
  assert (Hlook : forall fuel, (Z.to_nat (ht t) < fuel)%nat -> lookup fuel k s1 = Some (0, s1)).
  { intros fuel Hf. rewrite (lookup_run s1 t) by (done || apply H). by rewrite (represents_map _ _ _ H), Hk. }
  assert (Hstart : forall fuel, (Z.to_nat (ht t) < fuel)%nat -> insert w fuel k v s =
    ((if nonnull (ptr_of t) then
        currentNode <- insert_loop fuel k (Some n) (ptr_of t) ;; balance_up w fuel currentNode
      else set_root (Some n) ;; c <- count ;; i <- reset fuel (Some n) None c ;; set_Begin (Some i)) ;;
     set_nItems (fun i => wrap w (i + 1)))%err s1).
  { intros fuel Hf. unfold insert. erewrite ebind_run by exact E. erewrite ebind_run by (apply Hlook; lia).
    cbn [Z.eqb negb]. erewrite ebind_run by done. by rewrite (reps_root _ _ Hs1). }
  destruct t as [|p k0 e l r].
  - assert (m = ∅) as -> by (by rewrite <- (represents_map _ _ _ H)).
    eexists 1%nat, _, (Br n k v Leaf Leaf). split; [|split].
    + intros fuel Hf. rewrite Hstart by (cbn; lia). cbn [ptr_of nonnull].
      unfold count, reset, ebind, set_root, set_nItems, set_Begin, eret. cbn [heap root nItems m_Begin].
      rewrite Hit1. change (1 <? Z.of_nat (size (∅ : gmap Z Z))) with false. cbv iota beta. reflexivity.
    + apply (represents_grown s1 (mkTree (heap s1) (Some n) 0 (Some (mkIteratorNode (Some n) (Some n) None))) Leaf _ ∅ k v n);
        try done; cbn [heap root nItems locs entries].
      * split; [by repeat split|done|]. apply NoDup_singleton.
      * constructor; constructor.
    + intros _. by repeat split.
  - destruct (insert_grow s (Br p k0 e l r) m k v n s1) as (N & s3 & u & E3 & Hs3 & Hb3 & K3 & Hsort & Hmap & Hlocs & Hav); try done.
    eexists (max N (S (Z.to_nat (ht (Br p k0 e l r))))), _, u. split; [|split; [|done]].
    + intros fuel Hf. rewrite Hstart by lia. cbn [ptr_of nonnull].
      erewrite ebind_run by (apply (E3 fuel); lia). by rewrite items_run.
    + destruct K3 as [Hi3 _ Hd3]. apply (represents_grown s1 s3 (Br p k0 e l r) u m k v n); try done. apply H.
Qed.

(** ** Removal *)

(** [height] of a subtree whose heights are right. *)
Lemma height_known s t c :
  reps s (plug t c) -> hts (heap s) t -> Z.of_nat (length (locs (plug t c))) < 2 ^ 31 ->
  exists s', height w (ptr_of t) s = Some (ht t, s') /\ relinked s s' /\ forall u, reps s u -> reps s' u.
Proof.
  intros Hs Ht Hsmall. destruct (reps_sub _ _ _ Hs) as [Hrep Hnd]. pose proof (ht_plug_le t c).
  destruct (height_run w Hw t _ s Hrep Hnd (hts_below _ _ Ht)) as (s' & E & Ht' & M); [lia|].
  exists s'. split; [done|]. split; [|intros u Hu; exact (remeasured_reps _ _ _ _ M Hu)].
  apply (remeasured_same t Leaf); try done. eapply remeasured_weaken; [|exact M]. auto.
Qed.

Definition sink_turn (n : ptr) (hl hr : Z) : Op unit :=
  (if hl =? 0 then rotateLeft n
   else if hr =? 0 then rotateRight n
   else if hl <=? hr then rotateRight n ;; rotateLeft n
   else rotateLeft n ;; rotateRight n)%err.

Lemma sink_head s n k e l r c :
  reps s (plug (Br n k e l r) c) -> Z.of_nat (length (locs (plug (Br n k e l r) c))) < 2 ^ 31 ->
  hts (heap s) l -> hts (heap s) r -> nonnull (ptr_of l) || nonnull (ptr_of r) = true ->
  exists s1, reps s1 (plug (Br n k e l r) c) /\ relinked s s1 /\
    forall fuel, sink_loop w (S fuel) (Some n) s = (sink_turn (Some n) (ht l) (ht r) ;; sink_loop w fuel (Some n))%err s1.
Proof.
  intros Hs Hsmall Hl Hr Hnn. destruct (find_node _ _ _ _ _ _ _ Hs) as (_ & _ & El & Er & _).
  destruct (height_known s l (FL n k e r :: c) Hs Hl Hsmall) as (s1 & E1 & K1 & S1).
  pose proof (S1 _ Hs) as Hs1. destruct (find_node _ _ _ _ _ _ _ Hs1) as (_ & _ & _ & Er1 & _).
  destruct (height_known s1 r (FR n k e l :: c) Hs1) as (s2 & E2 & K2 & S2);
    [by eapply relinked_hts|done|].
  exists s2. split; [by apply S2|]. split; [by etrans|]. intros fuel. cbn [sink_loop].
  erewrite ebind_run by exact El. erewrite ebind_run by exact Er. rewrite Hnn.
  erewrite ebind_run by exact El. erewrite ebind_run by exact E1.
  erewrite ebind_run by exact Er1. by erewrite ebind_run by exact E2.
Qed.

(** One turn moves the node down: what is left below it is smaller. *)
Lemma sink_turn_run s n k e l r c :
  reps s (plug (Br n k e l r) c) -> hts (heap s) l -> hts (heap s) r -> chts (heap s) c ->
  nonnull (ptr_of l) || nonnull (ptr_of r) = true ->
  exists s' l' r' c', sink_turn (Some n) (ht l) (ht r) s = Some (tt, s') /\
    reps s' (plug (Br n k e l' r') c') /\ relinked s s' /\
    hts (heap s') l' /\ hts (heap s') r' /\ chts (heap s') c' /\
    (length (locs l') + length (locs r') < length (locs l) + length (locs r))%nat /\
    entries (plug (Br n k e l' r') c') = entries (plug (Br n k e l r) c) /\
    locs (plug (Br n k e l' r') c') ≡ₚ locs (plug (Br n k e l r) c).
Proof.
  intros Hs Hl Hr Hc Hnn. unfold sink_turn.
  destruct l as [|y ky ey a b]; [destruct r as [|z kz ez b' a']; [done|]|destruct r as [|z kz ez b' a']].
  - cbn [ht Z.eqb]. destruct (rotateLeft_run s c n k e z kz ez a' b' Leaf Hs) as (s1 & E1 & Hs1 & K).
    exists s1, Leaf, b', (FL z kz ez a' :: c). split; [exact E1|]. split; [exact Hs1|]. split; [done|].
    apply (relinked_hts _ _ _ K) in Hr. apply (relinked_chts _ _ _ K) in Hc. destruct Hr as (_ & ? & ?).
    split; [done|]. split; [done|]. split; [by apply Forall_cons|]. split; [simpl; rewrite !length_app; lia|].
    split; [by rewrite !entries_plug; simpl; rewrite <- ?app_assoc|rewrite !locs_plug; simpl; solve_Permutation].
  - pose proof (ht_pos y ky ey a b). destruct (Z.eqb_spec (ht (Br y ky ey a b)) 0) as [?|_]; [lia|]. cbn [ht Z.eqb].
    destruct (rotateRight_run s c n k e y ky ey a b Leaf Hs) as (s1 & E1 & Hs1 & K).
    exists s1, b, Leaf, (FR y ky ey a :: c). split; [exact E1|]. split; [exact Hs1|]. split; [done|].
    apply (relinked_hts _ _ _ K) in Hl. apply (relinked_chts _ _ _ K) in Hc. destruct Hl as (_ & ? & ?).
    split; [done|]. split; [done|]. split; [by apply Forall_cons|]. split; [simpl; rewrite !length_app; lia|].
    split; [rewrite !entries_plug; simpl; rewrite <- ?app_assoc; simpl; by rewrite <- ?app_assoc|rewrite !locs_plug; simpl; solve_Permutation].
  - pose proof (ht_pos y ky ey a b). pose proof (ht_pos z kz ez b' a').
    destruct (Z.eqb_spec (ht (Br y ky ey a b)) 0) as [?|_]; [lia|].
    destruct (Z.eqb_spec (ht (Br z kz ez b' a')) 0) as [?|_]; [lia|].
    destruct (_ <=? _).
    + destruct (rotateRight_run s c n k e y ky ey a b _ Hs) as (s1 & E1 & Hs1 & K1).
      destruct (rotateLeft_run s1 (FR y ky ey a :: c) n k e z kz ez a' b' b Hs1) as (s2 & E2 & Hs2 & K2).
      assert (K : relinked s s2) by (by etrans).
      exists s2, b, b', (FL z kz ez a' :: FR y ky ey a :: c). split; [by erewrite ebind_run by exact E1|].
      split; [exact Hs2|]. split; [done|].
      apply (relinked_hts _ _ _ K) in Hl, Hr. apply (relinked_chts _ _ _ K) in Hc.
      destruct Hl as (_ & ? & ?), Hr as (_ & ? & ?).
      split; [done|]. split; [done|]. split; [apply Forall_cons; split; [done|by apply Forall_cons]|].
      split; [simpl; rewrite !length_app; lia|].
      split; [rewrite !entries_plug; simpl; rewrite <- ?app_assoc; simpl; by rewrite <- ?app_assoc|rewrite !locs_plug; simpl; solve_Permutation].
    + destruct (rotateLeft_run s c n k e z kz ez a' b' _ Hs) as (s1 & E1 & Hs1 & K1).
      destruct (rotateRight_run s1 (FL z kz ez a' :: c) n k e y ky ey a b b' Hs1) as (s2 & E2 & Hs2 & K2).
      assert (K : relinked s s2) by (by etrans).
      exists s2, b, b', (FR y ky ey a :: FL z kz ez a' :: c). split; [by erewrite ebind_run by exact E1|].
      split; [exact Hs2|]. split; [done|].
      apply (relinked_hts _ _ _ K) in Hl, Hr. apply (relinked_chts _ _ _ K) in Hc.
      destruct Hl as (_ & ? & ?), Hr as (_ & ? & ?).
      split; [done|]. split; [done|]. split; [apply Forall_cons; split; [done|by apply Forall_cons]|].
      split; [simpl; rewrite !length_app; lia|].
      split; [rewrite !entries_plug; simpl; rewrite <- ?app_assoc; simpl; by rewrite <- ?app_assoc|rewrite !locs_plug; simpl; solve_Permutation].
Qed.

Lemma sink_loop_run n k e N : forall s l r c,
  (length (locs l) + length (locs r) < N)%nat ->
  reps s (plug (Br n k e l r) c) -> Z.of_nat (length (locs (plug (Br n k e l r) c))) < 2 ^ 31 ->
  hts (heap s) l -> hts (heap s) r -> chts (heap s) c ->
  exists s' c', (forall fuel, (N <= fuel)%nat -> sink_loop w fuel (Some n) s = Some (tt, s')) /\
    reps s' (plug (Br n k e Leaf Leaf) c') /\ relinked s s' /\ chts (heap s') c' /\
    entries (plug (Br n k e Leaf Leaf) c') = entries (plug (Br n k e l r) c) /\
    locs (plug (Br n k e Leaf Leaf) c') ≡ₚ locs (plug (Br n k e l r) c).
Proof.
  induction N as [|N IH]; intros s l r c Hlt Hs Hsmall Hl Hr Hc; [lia|].
  destruct (nonnull (ptr_of l) || nonnull (ptr_of r)) eqn:Hnn.
  - destruct (sink_head s n k e l r c Hs Hsmall Hl Hr Hnn) as (s1 & Hs1 & K1 & E1).
    apply (relinked_hts _ _ _ K1) in Hl, Hr. apply (relinked_chts _ _ _ K1) in Hc.
    destruct (sink_turn_run s1 n k e l r c Hs1 Hl Hr Hc Hnn) as (s2 & l' & r' & c' & E2 & Hs2 & K2 & Hl' & Hr' & Hc' & Hlen & Hent & Hloc).
    destruct (IH s2 l' r' c') as (s3 & c3 & E3 & Hs3 & K3 & Hc3 & Hent3 & Hloc3); [lia|done|by rewrite Hloc|done..|].
    exists s3, c3. split; [|split; [done|split; [etrans; [done|by etrans]|split; [done|split; [congruence|by rewrite Hloc3]]]]].
    intros [|fuel] Hf; [lia|]. rewrite E1. erewrite ebind_run by exact E2. apply E3. lia.
  - exists s, c. destruct l, r; try done. split; [|done]. intros [|fuel] Hf; [lia|]. cbn [sink_loop].
    destruct (find_node _ _ _ _ _ _ _ Hs) as (_ & _ & El & Er & _).
    erewrite ebind_run by exact El. by erewrite ebind_run by exact Er.
Qed.

(** The leaf is cut off. *)
Lemma prune_run s n k e c :
  reps s (plug (Br n k e Leaf Leaf) c) ->
  exists s', (if nonnull (cpar c) then
                pl <- field leftChild (cpar c) ;;
                if same_ptr pl (Some n) then modify (with_left None) (cpar c)
                else modify (with_right None) (cpar c)
              else set_root None)%err s = Some (tt, s') /\
    reps s' (plug Leaf c) /\ relinked s s' /\
    look (heap s') n = Some (mkNode k e None None (cpar c) 0).
Proof.
  intros [Hrep Hroot Hnd]. rewrite locs_plug in Hnd. cbn [locs app] in Hnd.
  apply NoDup_cons in Hnd as [Hn Hnd]. apply rep_plug in Hrep as [(Hp & _ & _) Hc]. cbn [ptr_of] in *.
  destruct c as [|f c].
  { eexists. split; [done|]. split; [split; [done|done|constructor]|done]. }
  cbn [cpar nonnull clocs] in *. apply not_elem_of_cons in Hn as [Hnf Hn]. apply NoDup_cons in Hnd as [Hfn Hnd].
  rewrite not_elem_of_app in Hn, Hfn.
  assert (exists nd, look (heap s) (floc f) = Some nd /\ rep (heap s) (sibling f) (Some (floc f)) /\
    rep_ctx (heap s) c (Some (floc f)) /\
    nd = match f with FL p k e r => mkNode k e (Some n) (ptr_of r) (cpar c) 0
                    | FR p k e l => mkNode k e (ptr_of l) (Some n) (cpar c) 0 end) as (nd & Hf & Hs & Hc' & End).
  { destruct f; cbn [rep_ctx floc sibling] in *; naive_solver. }
  assert (Htest : same_ptr (leftChild nd) (Some n) = match f with FL _ _ _ _ => true | FR _ _ _ _ => false end).
  { subst nd. unfold same_ptr. destruct f as [p' k' e' r|p' k' e' l]; cbn [leftChild]; case_decide as Hd; try done.
    destruct l; simpl in *; [done|]. injection Hd as ->. destruct Hn as [Hn _]. by apply not_elem_of_cons in Hn as [? _]. }
  destruct (modify_look (link f None) _ _ _ (link_link f _) Hf) as (s1 & E1 & K1 & R1 & P1 & F1).
  exists s1. split; [|split; [|split; [done|]]].
  - erewrite ebind_run by (eapply field_look; [done|exact Hf]). rewrite Htest. destruct f; exact E1.
  - split.
    + apply rep_plug. split; [done|].
      assert (rep (heap s1) (sibling f) (Some (floc f)))
        by (eapply rep_frame; [|exact Hs]; intros q Hq; apply F1; intros ->; naive_solver).
      assert (rep_ctx (heap s1) c (Some (floc f)))
        by (eapply rep_ctx_frame; [|exact Hc']; intros q Hq; apply F1; intros ->; naive_solver).
      subst nd. destruct f; cbn [rep_ctx floc sibling link ptr_of] in *; done.
    + rewrite R1, Hroot. cbn [plug]. apply root_plug. by destruct f.
    + rewrite locs_plug. cbn [locs app clocs]. apply NoDup_cons. rewrite not_elem_of_app. done.
  - by rewrite F1.
Qed.

(** The first turn of the climb is at the leaf that was cut off. *)
Lemma detached_turn s n k e par fuel :
  look (heap s) n = Some (mkNode k e None None par 0) ->
  balance_up w (S fuel) (Some n) s = balance_up w fuel par s.
Proof.
  intros Hn. assert (Hb : balanceFactor w (Some n) s = Some (0, s)).
  { unfold balanceFactor. erewrite ebind_run by (eapply field_look; [done|exact Hn]). cbn [rightChild].
    erewrite ebind_run by done. erewrite ebind_run by (eapply field_look; [done|exact Hn]). done. }
  cbn [balance_up nonnull]. erewrite ebind_run by exact Hb. cbn [Z.ltb Z.compare orb].
  erewrite ebind_run by done. erewrite ebind_run by (eapply field_look; [done|exact Hn]). done.
Qed.

(** Cutting off the leaf, climbing, and deleting it. *)
Lemma prune_climb s n k e c :
  reps s (plug (Br n k e Leaf Leaf) c) -> chts (heap s) c ->
  Z.of_nat (length (locs (plug (Br n k e Leaf Leaf) c))) < 2 ^ 31 ->
  exists N s' u, (forall fuel (K : Op unit), (N <= fuel)%nat ->
     (p <- field parent (Some n) ;;
      (if nonnull p then
         pl <- field leftChild p ;;
         if same_ptr pl (Some n) then modify (with_left None) p else modify (with_right None) p
       else set_root None) ;;
      balance_up w fuel (Some n) ;; K)%err s = K s') /\
    reps s' u /\ below (heap s') u /\ kept s s' /\
    entries u = before c ++ after c /\ locs u ≡ₚ clocs c.
Proof.
  intros Hs Hc Hsmall. destruct (prune_run s n k e c Hs) as (s1 & E1 & Hs1 & K1 & Hn1).
  destruct (find_node _ _ _ _ _ _ _ Hs) as (_ & _ & _ & _ & Ep).
  apply (relinked_chts _ _ _ K1) in Hc. apply relinked_kept in K1.
  destruct c as [|f c].
  - exists 2%nat, s1, Leaf. split; [|done]. intros [|[|fuel]] K Hf; [lia..|].
    erewrite ebind_run by exact Ep. erewrite ebind_run by exact E1. by erewrite ebind_run by (erewrite detached_turn by exact Hn1; done).
  - destruct (climbs_total c (fill Leaf f)) as [u Hu].
    { destruct (fill_Br Leaf f) as (? & ? & ? & ? & ? & ->). done. }
    apply Forall_cons in Hc as [Hcf Hcc].
    destruct (balance_up_run w Hw _ _ _ Hu s1) as (N & s2 & E2 & Hs2 & Hb2 & K2).
    { split; [exact Hs1| |exact Hcc|].
      - apply hts_below in Hcf. by destruct f.
      - change (plug (fill Leaf f) c) with (plug Leaf (f :: c)). rewrite locs_plug in *. cbn [locs app length] in *. lia. }
    exists (S N), s2, u. split; [|split; [done|split; [done|split; [by etrans|split]]]].
    + intros [|fuel] K Hf; [lia|]. erewrite ebind_run by exact Ep. erewrite ebind_run by exact E1.
      erewrite ebind_run; [done|]. erewrite detached_turn by exact Hn1. rewrite <- (E2 fuel) by lia. by destruct f.
    + rewrite (climbs_entries _ _ _ Hu). exact (entries_plug (f :: c) Leaf).
    + rewrite (climbs_locs _ _ _ Hu). exact (locs_plug (f :: c) Leaf).
Qed.

Lemma delete_run s n t :
  reps s t -> below (heap s) t -> n ∈ dom (heap s) -> n ∉ locs t ->
  exists s', delete_node (Some n) s = Some (tt, s') /\ reps s' t /\ below (heap s') t /\
    dom (heap s') = dom (heap s) ∖ {[n]} /\ nItems s' = nItems s.
Proof.
  intros [Hr Hroot Hd] Hb [nd Hn]%elem_of_dom Hnin. unfold delete_node. rewrite Hn. eexists. split; [done|].
  assert (Hne : forall q, q ∈ locs t -> delete n (heap s) !! q = heap s !! q)
    by (intros q Hq; rewrite lookup_delete_ne; [done|intros ->; done]).
  split; [|split; [|split; [apply dom_delete_L|done]]].
  - split; [|done|done]. eapply rep_frame; [|done]. intros q Hq. unfold look. cbn [heap]. by rewrite Hne.
  - destruct t as [|p k e l r]; [done|]. cbn [below locs heap] in *.
    split; (eapply hts_frame; [|apply Hb]); intros q Hq; unfold hgt; (rewrite Hne; [done|set_solver]).
Qed.

(** Removing a key that is present. *)
Lemma remove_node s t m k p e l r c :
  represents s t m -> Z.of_nat (size m) < 2 ^ 31 ->
  plug (Br p k e l r) c = t -> below (heap s) (Br p k e l r) -> chts (heap s) c ->
  exists N s' u, (forall fuel, (N <= fuel)%nat ->
      (sink_loop w fuel (Some p) ;;
       q <- field parent (Some p) ;;
       (if nonnull q then
          pl <- field leftChild q ;;
          if same_ptr pl (Some p) then modify (with_left None) q else modify (with_right None) q
        else set_root None) ;;
       balance_up w fuel (Some p) ;;
       delete_node (Some p) ;;
       set_nItems (fun i => wrap w (i - 1)))%err s = Some (tt, s')) /\
    represents s' u (delete k m) /\ m !! k = Some e.
Proof.
  intros H Hsmall Hp [Hbl Hbr] Hc. pose proof (represents_reps _ _ _ H) as Hs. rewrite <- Hp in Hs.
  pose proof (represents_locs _ _ _ H) as Hlen. rewrite <- Hp in Hlen.
  destruct (sink_loop_run p k e (S (length (locs l) + length (locs r))) s l r c) as (s1 & c1 & E1 & Hs1 & K1 & Hc1 & Hent1 & Hloc1);
    [lia|done|lia|done..|].
  destruct (prune_climb s1 p k e c1 Hs1 Hc1) as (N & s2 & u & E2 & Hs2 & Hb2 & K2 & Hent2 & Hloc2).
  { rewrite Hloc1. lia. }
  assert (Hlocs : locs t ≡ₚ p :: locs u)
    by (rewrite <- Hp, <- Hloc1, Hloc2, locs_plug; done).
  assert (Hent : entries t = before c1 ++ (k, e) :: after c1)
    by (rewrite <- Hp, <- Hent1, entries_plug; done).
  pose proof (represents_sorted _ _ _ H) as Hsort. rewrite Hent in Hsort.
  pose proof (reps_nodup _ _ (represents_reps _ _ _ H)) as Hnd. rewrite Hlocs in Hnd. apply NoDup_cons in Hnd as [Hpu Hnd].
  assert (Hk : m !! k = Some e).
  { rewrite <- (represents_map _ _ _ H), Hent, to_map_mid by done. by rewrite Z.eqb_refl. }
  pose proof (relinked_kept _ _ K1) as [Hi1 _ Hd1]. destruct K2 as [Hi2 _ Hd2].
  assert (Hdom : dom (heap s2) = {[p]} ∪ list_to_set (locs u))
    by (rewrite Hd2, Hd1, (represents_dom _ _ _ H), Hlocs; done).
  destruct (delete_run s2 p u Hs2 Hb2) as (s3 & E3 & Hs3 & Hb3 & Hd3 & Hi3); [rewrite Hdom; set_solver|done|].
  exists (max N (S (length (locs l) + length (locs r)))),
    (mkTree (heap s3) (root s3) (wrap w (nItems s3 - 1)) (m_Begin s3)), u.
  split; [|split; [|done]].
  - intros fuel Hf. erewrite ebind_run by (apply E1; lia).
    rewrite E2 by lia. by erewrite ebind_run by exact E3.
  - destruct Hs3 as [Hr3 Hroot3 Hnd3]. split; cbn [heap root nItems]; try done.
    + rewrite Hd3, Hdom. apply set_eq. intros q. rewrite elem_of_difference, elem_of_union, elem_of_singleton, elem_of_list_to_set.
      split; [naive_solver|]. intros Hq. split; [by right|]. intros ->. done.
    + rewrite Hi3, Hi2, Hi1, (represents_items _ _ _ H).
      assert (size (delete k m) = pred (size m)) as -> by (by apply map_size_delete_Some).
      assert (0 < size m)%nat by (rewrite <- Hlen, <- Hloc1, locs_plug; simpl; lia).
      rewrite wrap_small_31 by lia. lia.
    + rewrite Hent2. by apply sorted_mid in Hsort as [? _].
    + rewrite Hent2, (to_map_delete _ k e) by done. by rewrite <- Hent, (represents_map _ _ _ H).
    + intros k' e' Hk'. apply lookup_delete_Some in Hk' as [_ Hk']. exact (represents_elements _ _ _ H k' e' Hk').
Qed.

(** C24. [lookup] returns the element the map holds for the key, null where it
    holds none, and changes nothing; [count] is the size of the map.  The search
    ends within the height of the tree, which is logarithmic in the count as
    long as the tree is balanced. *)
Theorem lookup_correct s t m k fuel :
  represents s t m -> (Z.to_nat (ht t) < fuel)%nat ->
  lookup fuel k s = Some (default 0 (m !! k), s) /\
  count s = Some (Z.of_nat (size m), s) /\
  (avl t -> 2 ^ (ht t / 2) <= Z.of_nat (size m) + 1).
Proof.
  intros H Hf. rewrite (lookup_run s t) by (done || apply H). rewrite (represents_map _ _ _ H). split; [done|].
  unfold count. rewrite (represents_items _ _ _ H). split; [done|].
  intros Ha. rewrite <- (represents_locs _ _ _ H). by apply avl_height.
Qed.

(** C25. [insert] of a key that is absent adds it to the map, of one that is
    present changes nothing at all; in both cases every loop ends, no null or
    dangling pointer is followed, no node is lost, the heights stay right, and
    an AVL tree stays one. *)
Theorem insert_correct s t m k v :
  represents s t m -> v <> 0 -> Z.of_nat (size m) + 1 < 2 ^ 31 ->
  exists N s' u, (forall fuel, (N <= fuel)%nat -> insert w fuel k v s = Some (tt, s')) /\
    represents s' u (match m !! k with Some _ => m | None => <[k := v]> m end) /\
    (m !! k <> None -> s' = s) /\
    (avl t -> avl u).
Proof.
  intros H Hv Hsmall. destruct (m !! k) as [e|] eqn:Hk.
  - exists (S (Z.to_nat (ht t))), s, t. split; [|done]. intros fuel Hf. eapply insert_present; [done|done|lia].
  - destruct (insert_absent s t m k v H Hk Hv Hsmall) as (N & s' & u & E & Hs' & Ha). by exists N, s', u.
Qed.

(** C26. [remove] deletes the key from the map, and changes nothing when it is
    absent; every loop ends, in whatever shape earlier removals left the tree,
    no null or dangling pointer is followed and the node is freed. *)
Theorem remove_correct s t m k :
  represents s t m -> Z.of_nat (size m) < 2 ^ 31 ->
  exists N s' u, (forall fuel, (N <= fuel)%nat -> remove w fuel k s = Some (tt, s')) /\
    represents s' u (delete k m) /\ (m !! k = None -> s' = s).
Proof.
  intros H Hsmall.
  destruct (find_loop_run s k t []) as (t' & c & E & Hp & Hap & Hb & Hc & Ht');
    [apply H|apply H|apply apart_nil|apply H|constructor|]. cbn [plug] in Hp.
  assert (Hstart : forall fuel, (Z.to_nat (ht t) < fuel)%nat -> find_loop fuel k (root s) s = Some (ptr_of t', s))
    by (intros fuel Hf; rewrite (reps_root _ _ (represents_reps _ _ _ H)); by apply E).
  destruct Ht' as [->|(p & e & l & r & ->)].
  - exists (S (Z.to_nat (ht t))), s, t.
    assert (Hk : m !! k = None).
    { rewrite <- (represents_map _ _ _ H), <- Hp. apply to_map_not_in. rewrite entries_plug, !fmap_app, !elem_of_app.
      destruct Hap as [Hl Hr]. intros [Hin|[Hin|Hin]]; [specialize (Hl _ Hin); lia| |specialize (Hr _ Hin); lia].
      by apply elem_of_nil in Hin. }
    split; [|by rewrite delete_id]. intros fuel Hf. unfold remove. erewrite ebind_run by done.
    erewrite ebind_run by (apply Hstart; lia). done.
  - destruct (remove_node s t m k p e l r c H Hsmall Hp Hb Hc) as (N & s' & u & E' & Hs' & Hk).
    exists (max N (S (Z.to_nat (ht t)))), s', u. split; [|split; [done|by rewrite Hk]].
    intros fuel Hf. unfold remove. erewrite ebind_run by done. erewrite ebind_run by (apply Hstart; lia).
    apply E'. lia.
Qed.
End Theorems.
