(* ===== verification/TreeIter.v ===== *)
(** * Iteration over Tree<K, E>

    [IteratorNode] of [Tree] visits every entry once, in the order of the keys;
    [clear] frees every node. *)
From Stdlib Require Import ZArith Lia List Bool.
From stdpp Require Import base gmap list fin_maps sorting.
From S2P Require Import Prelude Tree TreeRep TreeMap TreeDict.
Import ListNotations.
Local Open Scope Z_scope.
#[local] Set Warnings "-clear-no-such-hyp".

(** The node visited first in [t], and the one visited after a subtree with
    the context [c]. *)
Fixpoint first (t : shape) : ptr :=
  match t with Leaf => None | Br p _ _ l _ => match l with Leaf => Some p | _ => first l end end.

Fixpoint up (c : ctx) : ptr :=
  match c with [] => None | FL p _ _ _ :: _ => Some p | FR _ _ _ _ :: c' => up c' end.

(** The iterator stands at [q]. *)
Definition stands (q : ptr) (i : IteratorNode) : Prop :=
  value i = q /\ pNode i = q /\ (q <> None -> pPreviousNode i = q).

(** The body of [for (it = begin(); it != end(); ++it)], collecting the pairs. *)
Fixpoint collect (fuel n : nat) (i : IteratorNode) : Op (list (Z * Z)) :=
  match n with
  | O => efail
  | S n' =>
      if nonnull (value i) then
        k <- field key (value i) ;; e <- field element (value i) ;;
        j <- next fuel i ;; rest <- collect fuel n' j ;; eret ((k, e) :: rest)
      else eret []
  end%err.

Lemma same_ptr_true p q : p = q -> same_ptr p q = true.
Proof. intros ->. unfold same_ptr. by rewrite decide_True. Qed.

Lemma same_ptr_false p q : p <> q -> same_ptr p q = false.
Proof. intros H. unfold same_ptr. by rewrite decide_False. Qed.

(** The pointers at a node are different. *)
Lemma node_apart s p k e l r c :
  reps s (plug (Br p k e l r) c) ->
  Some p <> cpar c /\ Some p <> ptr_of l /\ Some p <> ptr_of r /\
  (l <> Leaf -> ptr_of l <> ptr_of r /\ ptr_of l <> cpar c) /\ (r <> Leaf -> ptr_of r <> cpar c).
Proof.
  intros [_ _ Hd]. rewrite locs_plug in Hd. cbn [locs app] in Hd.
  apply NoDup_cons in Hd as [Hp Hd]. apply NoDup_app in Hd as (Hlr & Hc & _). apply NoDup_app in Hlr as (_ & Hlr & _).
  rewrite !not_elem_of_app in Hp. destruct Hp as [[Hpl Hpr] Hpc].
  assert (Hin : forall t q, ptr_of t = Some q -> q ∈ locs t) by (intros [] q; simpl; [done|intros [= ->]; set_solver]).
  assert (Hcin : forall q, cpar c = Some q -> q ∈ clocs c) by (destruct c as [|f c']; simpl; [done|intros q [= ->]; set_solver]).
  split; [intros E; by apply Hpc, Hcin|]. split; [intros E; by apply Hpl, Hin|]. split; [intros E; by apply Hpr, Hin|].
  split.
  - destruct l as [|q kq eq a b]; [done|]. intros _. cbn [ptr_of]. split; intros E.
    + apply (Hlr q); [by apply Hin|by apply Hin].
    + apply (Hc q); [apply elem_of_app; left; by apply Hin|by apply Hcin].
  - destruct r as [|q kq eq a b]; [done|]. intros _. cbn [ptr_of]. intros E.
    apply (Hc q); [apply elem_of_app; right; by apply Hin|by apply Hcin].
Qed.

Lemma traverse_at s p k e l r c prev fuel :
  reps s (plug (Br p k e l r) c) ->
  traverseNext (S fuel) (Some p) prev s =
  (if same_ptr prev (cpar c) && nonnull (ptr_of l) then traverseNext fuel (ptr_of l) (Some p)
   else if ((nonnull (ptr_of l) && same_ptr prev (ptr_of l)) ||
            (negb (nonnull (ptr_of l)) && negb (same_ptr prev (Some p)))) &&
           negb (same_ptr prev (ptr_of r)) then eret (Some p, Some p)
   else if same_ptr prev (Some p) && nonnull (ptr_of r) then traverseNext fuel (ptr_of r) (Some p)
   else traverseNext fuel (cpar c) (Some p)) s.
Proof.
  intros Hs. destruct (find_node _ _ _ _ _ _ _ Hs) as (_ & _ & El & Er & Ep). cbn [traverseNext nonnull].
  erewrite ebind_run by exact Ep. erewrite ebind_run by exact El. by erewrite ebind_run by exact Er.
Qed.

Lemma nonnull_ptr t : nonnull (ptr_of t) = match t with Leaf => false | _ => true end.
Proof. by destruct t. Qed.

(** Entering a subtree from its parent leads to its first node. *)
Lemma enter_run s t : forall c,
  reps s (plug t c) -> t <> Leaf -> (c <> [] \/ (1 < length (locs t))%nat) ->
  exists N, forall fuel, (N <= fuel)%nat -> traverseNext fuel (ptr_of t) (cpar c) s = Some ((first t, first t), s).
Proof.
  induction t as [|p k e l IHl r _]; intros c Hs Ht Hc; [done|].
  destruct (node_apart _ _ _ _ _ _ _ Hs) as (Hpc & Hpl & Hpr & Hl & Hr). destruct l as [|pl kl el ll lr].
  - exists 1%nat. intros [|fuel] Hf; [lia|]. cbn [ptr_of]. rewrite (traverse_at _ _ _ _ _ _ _ _ _ Hs).
    rewrite andb_false_r. cbn [nonnull ptr_of andb orb negb]. rewrite (same_ptr_false (cpar c) (Some p)) by done.
    rewrite same_ptr_false; [done|]. destruct r as [|pr kr er rl rr]; [|intros E; by apply Hr].
    destruct c; [simpl in Hc; naive_solver lia|done].
  - destruct (IHl (FL p k e r :: c) Hs) as [N HN]; [done|by left|]. exists (S N). intros [|fuel] Hf; [lia|].
    cbn [ptr_of]. rewrite (traverse_at _ _ _ _ _ _ _ _ _ Hs). rewrite same_ptr_true by done. cbn [ptr_of nonnull andb].
    apply (HN fuel). lia.
Qed.

(** Leaving a subtree upwards leads to the next node above it. *)
Lemma up_run s c : forall t, reps s (plug t c) -> t <> Leaf ->
  exists N prev, (forall fuel, (N <= fuel)%nat -> traverseNext fuel (cpar c) (ptr_of t) s = Some ((up c, prev), s)) /\
    (up c <> None -> prev = up c).
Proof.
  induction c as [|[p k e r|p k e l] c IH]; intros t Hs Ht.
  - exists 1%nat, (ptr_of t). split; [|done]. intros [|fuel] Hf; [lia|done].
  - exists 1%nat, (Some p). split; [|done]. intros [|fuel] Hf; [lia|]. cbn [cpar floc up].
    rewrite (traverse_at _ _ _ _ _ _ _ _ _ (Hs : reps s (plug (Br p k e t r) c))).
    destruct (node_apart _ _ _ _ _ _ _ (Hs : reps s (plug (Br p k e t r) c))) as (_ & _ & _ & Hl & _).
    destruct (Hl Ht) as [Hlr Hlc]. rewrite (same_ptr_false _ (cpar c)), (same_ptr_true (ptr_of t) (ptr_of t)),
      (same_ptr_false _ (ptr_of r)), nonnull_ptr by done. by destruct t.
  - destruct (IH (Br p k e l t) Hs) as (N & prev & HN & Hp); [done|].
    exists (S N), prev. split; [|done]. intros [|fuel] Hf; [lia|]. cbn [cpar floc up].
    rewrite (traverse_at _ _ _ _ _ _ _ _ _ (Hs : reps s (plug (Br p k e l t) c))).
    destruct (node_apart _ _ _ _ _ _ _ (Hs : reps s (plug (Br p k e l t) c))) as (_ & _ & Hpr & Hl & Hr).
    rewrite (same_ptr_false _ (cpar c)) by auto. rewrite (same_ptr_true (ptr_of t) (ptr_of t)) by done.
    rewrite (same_ptr_false (ptr_of t) (Some p)) by done. cbn [andb negb]. rewrite andb_false_r.
    apply (HN fuel). lia.
Qed.

(** From a visited node to the next one. *)
Lemma next_run s p k e l r c :
  reps s (plug (Br p k e l r) c) ->
  exists N j, (forall i, stands (Some p) i -> forall fuel, (N <= fuel)%nat -> next fuel i s = Some (j, s)) /\
    stands (match r with Leaf => up c | _ => first r end) j.
Proof.
  intros Hs. destruct (node_apart _ _ _ _ _ _ _ Hs) as (Hpc & Hpl & Hpr & _ & _).
  assert (Hat : forall fuel, traverseNext (S fuel) (Some p) (Some p) s =
    (if nonnull (ptr_of r) then traverseNext fuel (ptr_of r) (Some p) else traverseNext fuel (cpar c) (Some p)) s).
  { intros fuel. rewrite (traverse_at _ _ _ _ _ _ _ _ _ Hs). rewrite (same_ptr_false _ (cpar c)), (same_ptr_false _ (ptr_of l)),
      (same_ptr_true (Some p) (Some p)) by done. by rewrite !andb_false_r. }
  destruct r as [|pr kr er rl rr].
  - destruct (up_run s c (Br p k e l Leaf) Hs) as (N & prev & HN & Hp); [done|].
    exists (S N), (mkIteratorNode (up c) (up c) prev). split; [|done].
    intros i (_ & Hi & Hi') [|fuel] Hf; [lia|]. unfold next. rewrite Hi, Hi' by done.
    erewrite ebind_run by (rewrite Hat; apply HN; lia). done.
  - destruct (enter_run s (Br pr kr er rl rr) (FR p k e l :: c) Hs) as [N HN]; [done|by left|].
    exists (S N), (mkIteratorNode (first (Br pr kr er rl rr)) (first (Br pr kr er rl rr)) (first (Br pr kr er rl rr))).
    split; [|done]. intros i (_ & Hi & Hi') [|fuel] Hf; [lia|]. unfold next. rewrite Hi, Hi' by done.
    erewrite ebind_run by (rewrite Hat; apply (HN fuel); lia). done.
Qed.

(** Collecting from the first node of a subtree: its entries, then what comes
    after it. *)
Lemma collect_run s t : forall c, reps s (plug t c) -> t <> Leaf ->
  exists N, forall fuel n rest, (N <= fuel)%nat ->
    (forall j, stands (up c) j -> collect fuel n j s = Some (rest, s)) ->
    forall i, stands (first t) i -> collect fuel (length (entries t) + n) i s = Some (entries t ++ rest, s).
Proof.
  induction t as [|p k e l IHl r IHr]; intros c Hs Ht; [done|].
  destruct (find_node _ _ _ _ _ _ _ Hs) as (Ek & Ee & _ & _ & _).
  destruct (next_run _ _ _ _ _ _ _ Hs) as (Nn & j & Hnext & Hj).
  (* the node and what is to its right *)
  assert (exists N, forall fuel n rest, (N <= fuel)%nat ->
    (forall j, stands (up c) j -> collect fuel n j s = Some (rest, s)) ->
    forall i, stands (Some p) i -> collect fuel (S (length (entries r)) + n) i s = Some ((k, e) :: entries r ++ rest, s))
    as [Nr Hr].
  { destruct r as [|pr kr er rl rr].
    - exists Nn. intros fuel n rest Hf Hrest i Hi. cbn [entries length plus collect app].
      destruct Hi as (Hv & Hi). rewrite Hv. cbn [nonnull]. erewrite ebind_run by exact Ek. erewrite ebind_run by exact Ee.
      erewrite ebind_run by (apply Hnext; [done|lia]). by erewrite ebind_run by (apply Hrest, Hj).
    - destruct (IHr (FR p k e l :: c) Hs) as [N HN]; [done|]. exists (Nat.max Nn N). intros fuel n rest Hf Hrest i Hi.
      cbn [plus collect]. destruct Hi as (Hv & Hi). rewrite Hv. cbn [nonnull].
      erewrite ebind_run by exact Ek. erewrite ebind_run by exact Ee. erewrite ebind_run by (apply Hnext; [done|lia]).
      by erewrite ebind_run by (apply (HN fuel n rest); [lia|done|done]). }
  destruct l as [|pl kl el ll lr].
  - exists Nr. intros fuel n rest Hf Hrest i Hi. apply (Hr fuel n rest); done.
  - destruct (IHl (FL p k e r :: c) Hs) as [N HN]; [done|]. exists (Nat.max Nr N). intros fuel n rest Hf Hrest i Hi.
    change (entries (Br p k e (Br pl kl el ll lr) r)) with (entries (Br pl kl el ll lr) ++ (k, e) :: entries r).
    rewrite length_app, <- Nat.add_assoc, <- app_assoc. apply (HN fuel); [lia| |exact Hi].
    intros j' Hj'. apply (Hr fuel n rest); [lia|done|done].
Qed.

(** ** Clearing *)

Lemma traverse_remove_run s t par :
  rep (heap s) t par -> NoDup (locs t) ->
  exists s', (forall fuel, (Z.to_nat (ht t) < fuel)%nat -> traverseNode_Remove fuel (ptr_of t) s = Some (tt, s')) /\
    (forall q, heap s' !! q = if decide (q ∈ locs t) then None else heap s !! q) /\
    root s' = root s.
Proof.
  revert s par. induction t as [|p k e l IHl r IHr]; intros s par Hr Hd.
  { exists s. split; [by intros [|fuel] Hf; [simpl in Hf; lia|]|]. split; [|done]. intros q. by rewrite decide_False by apply not_elem_of_nil. }
  cbn [rep locs] in *. destruct Hr as (Hp & Hl & Hr). apply NoDup_cons in Hd as [Hn Hd].
  apply NoDup_app in Hd as (Hdl & Hlr & Hdr). rewrite not_elem_of_app in Hn. destruct Hn as [Hpl Hpr].
  pose proof (ht_nonneg l). pose proof (ht_nonneg r).
  destruct (IHl s (Some p) Hl Hdl) as (s1 & E1 & H1 & R1).
  assert (L1 : forall q, q ∉ locs l -> look (heap s1) q = look (heap s) q)
    by (intros q Hq; unfold look; by rewrite H1, decide_False).
  destruct (IHr s1 (Some p)) as (s2 & E2 & H2 & R2);
    [eapply rep_frame; [|exact Hr]; intros q Hq; apply L1; intros Hq'; by apply (Hlr q)|done|].
  assert (Hp1 : look (heap s1) p = Some (mkNode k e (ptr_of l) (ptr_of r) par 0)) by (by rewrite L1).
  assert (exists nd, heap s2 !! p = Some nd) as [nd Hp2].
  { rewrite H2, decide_False by done. apply look_Some in Hp1 as [h ->]. eauto. }
  exists (mkTree (delete p (heap s2)) (root s2) (nItems s2) (m_Begin s2)). split; [|split; [|cbn [root]; congruence]].
  - intros [|fuel] Hf; [lia|]. cbn [traverseNode_Remove ptr_of nonnull ht] in *.
    erewrite ebind_run by (eapply field_look; [done|exact Hp]). cbn [leftChild].
    erewrite ebind_run by (apply E1; lia). erewrite ebind_run by (eapply field_look; [done|exact Hp1]). cbn [rightChild].
    erewrite ebind_run by (apply E2; lia). unfold delete_node. by rewrite Hp2.
  - intros q. cbn [heap]. destruct (decide (q = p)) as [->|Hne].
    + rewrite lookup_delete_eq, decide_True; [done|]. apply elem_of_cons. by left.
    + rewrite lookup_delete_ne, H2, H1 by done. repeat case_decide; try done; set_solver.
Qed.

Lemma begin_sub s b u : reps s u -> reps (mkTree (heap s) (root s) (nItems s) b) u.
Proof. by intros []. Qed.

(** [begin]: the first node, or null. *)
Lemma reset_run s t m :
  represents s t m -> (1 < size m)%nat ->
  exists N, forall fuel, (N <= fuel)%nat ->
    reset fuel (ptr_of t) None (Z.of_nat (size m)) s = Some (mkIteratorNode (first t) (first t) (first t), s).
Proof.
  intros H Hm. pose proof (represents_locs _ _ _ H) as Hlen.
  destruct (enter_run s t []) as [N HN]; [apply H|intros ->; simpl in Hlen; lia|right; lia|].
  exists N. intros fuel Hf. unfold reset. destruct (Z.ltb_spec 1 (Z.of_nat (size m))); [|lia].
  by erewrite ebind_run by (apply (HN fuel); lia).
Qed.

(** The step after a single node: the end. *)
Lemma single_run s p k e :
  reps s (Br p k e Leaf Leaf) ->
  forall fuel n, (2 <= fuel)%nat -> (1 < n)%nat ->
    collect fuel n (mkIteratorNode (Some p) (Some p) None) s = Some ([(k, e)], s).
Proof.
  intros Hs [|[|fuel]] [|[|n]] Hf Hn; try lia. cbn [collect value nonnull].
  destruct (find_node s p k e Leaf Leaf [] Hs) as (Ek & Ee & _).
  erewrite ebind_run by exact Ek. erewrite ebind_run by exact Ee. unfold next. cbn [pNode pPreviousNode].
  assert (E : traverseNext (S (S fuel)) (Some p) None s = Some ((None, Some p), s)).
  { rewrite (traverse_at s p k e Leaf Leaf [] _ _ Hs). reflexivity. }
  erewrite ebind_run by (erewrite ebind_run by exact E; reflexivity). reflexivity.
Qed.

(** C27. Iterating from [begin] to [end] visits the entries of the map once
    each, in increasing order of the keys, and ends; the tree is unchanged. *)
Theorem iterate_correct s t m :
  represents s t m ->
  exists N l, sorted l /\ to_map l = m /\
    forall fuel n, (N <= fuel)%nat -> (size m < n)%nat ->
    exists i s', begin_ fuel s = Some (Some i, s') /\ collect fuel n i s' = Some (l, s') /\ represents s' t m.
Proof.
  intros H. pose proof (represents_locs _ _ _ H) as Hlen. pose proof (represents_reps _ _ _ H) as Hs.
  set (s' i := mkTree (heap s) (root s) (nItems s) (Some i)).
  assert (Hs' : forall i, represents (s' i) t m) by (intros i; destruct H; split; done || by apply begin_sub).
  assert (Hrun : exists N i, forall fuel n, (N <= fuel)%nat -> (size m < n)%nat ->
     reset fuel (root s) None (nItems s) s = Some (i, s) /\ collect fuel n i (s' i) = Some (entries t, s' i)).
  { rewrite (represents_items _ _ _ H), (reps_root _ _ Hs). destruct (Nat.le_gt_cases (size m) 1) as [Hle|Hgt].
    - exists 2%nat, (mkIteratorNode (ptr_of t) (ptr_of t) None). intros fuel n Hf Hn. split.
      { unfold reset. destruct (Z.ltb_spec 1 (Z.of_nat (size m))); [lia|done]. }
      destruct t as [|p k e l r]; [destruct n; [lia|done]|]. cbn [locs length] in Hlen. rewrite length_app in Hlen.
      destruct l; [|simpl in Hlen; lia]. destruct r; [|simpl in Hlen; lia].
      apply single_run; [by apply begin_sub|lia|simpl in Hlen; lia].
    - destruct (reset_run s t m H Hgt) as [N HN]. set (i := mkIteratorNode (first t) (first t) (first t)) in *.
      destruct (collect_run (s' i) t [] (represents_reps _ _ _ (Hs' i))) as [N' HN'];
        [intros ->; simpl in Hlen; lia|].
      exists (Nat.max N N'), i. intros fuel n Hf Hn. split; [apply HN; lia|].
      replace n with (length (entries t) + (n - length (entries t)))%nat by (rewrite entries_length; lia).
      rewrite <- (app_nil_r (entries t)) at 3. apply HN'; [lia| |done].
      intros j [Hv _]. destruct (n - length (entries t))%nat eqn:E; [rewrite entries_length in E; lia|].
      cbn [collect]. by rewrite Hv. }
  destruct Hrun as (N & i & Hrun). exists N, (entries t). split; [apply H|]. split; [apply H|].
  intros fuel n Hf Hn. destruct (Hrun fuel n Hf Hn) as [E1 E2]. exists i, (s' i). split; [|done].
  unfold begin_. erewrite ebind_run by done. erewrite ebind_run by done. by erewrite ebind_run by exact E1.
Qed.

(** [clear] frees every node and leaves the empty dictionary. *)
Theorem clear_correct s t m :
  represents s t m ->
  forall fuel, (Z.to_nat (ht t) < fuel)%nat ->
  exists s', clear fuel s = Some (tt, s') /\ heap s' = ∅ /\ represents s' Leaf ∅.
Proof.
  intros H fuel Hf. destruct (represents_reps _ _ _ H) as [Hrep Hroot Hnd].
  destruct (traverse_remove_run s t None Hrep Hnd) as (s1 & E & Hh & _).
  assert (Hempty : heap s1 = ∅).
  { apply map_eq. intros q. rewrite Hh, lookup_empty. case_decide as Hq; [done|]. apply not_elem_of_dom.
    rewrite (represents_dom _ _ _ H). by rewrite elem_of_list_to_set. }
  exists (mkTree (heap s1) None 0 None). split; [|split; [done|]].
  - unfold clear. erewrite ebind_run by done. rewrite Hroot. by erewrite ebind_run by (by apply E).
  - split; cbn [heap root nItems]; try done; [by repeat constructor|by rewrite Hempty|constructor].
Qed.

(** ** Witnesses *)

(** Two entries: the key 5 at the root and 3 to its left. *)
Definition pair_tree : Tree :=
  mkTree (<[1%positive := mkNode 5 50 (Some 2%positive) None None 2]>
          {[2%positive := mkNode 3 30 None None (Some 1%positive) 1]}) (Some 1%positive) 2 None.

Definition pair_shape : shape := Br 1%positive 5 50 (Br 2%positive 3 30 Leaf Leaf) Leaf.

Definition pair_map : gmap Z Z := {[3 := 30; 5 := 50]}.

Lemma pair_represents : represents pair_tree pair_shape pair_map.
Proof.
  split.
  - split; [by repeat split|done|]. repeat constructor; set_solver.
  - by repeat split.
  - vm_compute. reflexivity.
  - vm_compute. reflexivity.
  - repeat constructor; cbn; lia.
  - vm_compute. reflexivity.
  - intros k e. unfold pair_map. rewrite lookup_insert_Some, lookup_singleton_Some. lia.
Qed.

Lemma lookup_correct_witness : lookup 3 3 pair_tree = Some (30, pair_tree).
Proof. exact (proj1 (lookup_correct pair_tree pair_shape pair_map 3 3 pair_represents ltac:(cbn; lia))). Defined.

Lemma insert_correct_witness :
  exists N s' u, (forall fuel, (N <= fuel)%nat -> insert 32 fuel 4 40 pair_tree = Some (tt, s')) /\
    represents s' u (<[4 := 40]> pair_map) /\ avl u.
Proof.
  destruct (insert_correct 32 ltac:(lia) pair_tree pair_shape pair_map 4 40 pair_represents ltac:(lia) ltac:(vm_compute; reflexivity))
    as (N & s' & u & E & H & _ & Ha).
  exists N, s', u. split; [exact E|]. split; [exact H|]. apply Ha. unfold pair_shape, avl, balanced; cbn. lia.
Defined.

Lemma remove_correct_witness :
  exists N s' u, (forall fuel, (N <= fuel)%nat -> remove 32 fuel 5 pair_tree = Some (tt, s')) /\
    represents s' u (delete 5 pair_map).
Proof.
  destruct (remove_correct 32 ltac:(lia) pair_tree pair_shape pair_map 5 pair_represents ltac:(vm_compute; reflexivity))
    as (N & s' & u & E & H & _).
  exists N, s', u. split; [exact E|exact H].
Defined.

Lemma iterate_correct_witness :
  exists N l, to_map l = pair_map /\ forall fuel, (N <= fuel)%nat ->
    exists i s', begin_ fuel pair_tree = Some (Some i, s') /\ collect fuel 3 i s' = Some (l, s').
Proof.
  destruct (iterate_correct pair_tree pair_shape pair_map pair_represents) as (N & l & _ & Hm & H).
  exists N, l. split; [exact Hm|]. intros fuel Hf.
  destruct (H fuel 3%nat Hf ltac:(vm_compute; lia)) as (i & s' & E1 & E2 & _). exists i, s'. split; [exact E1|exact E2].
Defined.

Lemma clear_correct_witness : exists s', clear 3 pair_tree = Some (tt, s') /\ heap s' = ∅.
Proof.
  destruct (clear_correct pair_tree pair_shape pair_map pair_represents 3 ltac:(cbn; lia)) as (s' & E & H & _).
  exists s'. split; [exact E|exact H].
Defined.

(** ** Departures from the comments *)

(** Successive insertions. *)
Definition insert_all (l : list Z) (s : option Tree) : option Tree :=
  fold_left (fun o k => match o with
                        | Some s => match insert 32 100 k 1 s with Some (_, s') => Some s' | None => None end
                        | None => None
                        end) l s.

(** The shape a heap holds below a pointer. *)
Fixpoint shape_of (fuel : nat) (s : Tree) (p : ptr) : shape :=
  match fuel, p with
  | S fuel', Some q =>
      match heap s !! q with
      | Some nd => Br q (key nd) (element nd) (shape_of fuel' s (leftChild nd)) (shape_of fuel' s (rightChild nd))
      | None => Leaf
      end
  | _, _ => Leaf
  end.

(** After a removal the tree need not be an AVL tree. *)
Lemma remove_unbalances :
  match insert_all [4; 7; 5; 1; 3; 6; 2] (Some empty_tree) with
  | Some s => match remove 32 100 5 s with Some (_, s') => ~ avl (shape_of 10 s' (root s')) | None => False end
  | None => False
  end.
Proof. vm_compute. intuition congruence. Qed.

(** A null element hides its key from [insert], which then adds it again. *)
Lemma insert_null_twice :
  match insert 32 100 5 0 empty_tree with
  | Some (_, s) => match insert 32 100 5 0 s with Some (_, s') => nItems s' | None => 0 end
  | None => 0
  end = 2.
Proof. vm_compute. reflexivity. Qed.
