(* ===== verification/Slam.v ===== *)
(** * The kernel heap: SlamAllocator

    [src/system/kernel/core/lib/SlamAllocator.cc], as the x64 kernel is built
    ([USING_MAGIC] and [OVERRUN_CHECK], one processor): memory is a map from the
    addresses of 8-byte words to their values, free objects are linked through
    their first words, and slabs are runs of pages whose use a bitmap records.
    A fault is an access to a page that is not mapped, a failed assertion, a
    FATAL message, or a compiler built-in outside its domain.

    Pages of physical memory never run out; a page that is mapped holds
    [garbage], and mapping a page that is mapped changes nothing.  [heapStart]
    and [heapEnd] are what the address space gives, [cacheAddr] the addresses of
    [m_Caches].  Locks and interrupts are left out: one thread runs. *)
From Stdlib Require Import ZArith Lia List Bool.
From stdpp Require Import base gmap list.
From S2P Require Import Prelude.
Import ListNotations.
Local Open Scope Z_scope.
Local Open Scope err_scope.

(** ** Constants and data *)

Definition SLAB_MINIMUM_SIZE : Z := 4096.
Definition page_size : Z := 4096.
Definition MAGIC_VALUE : Z := 0xb00b1e55.
Definition TEMP_MAGIC : Z := 0x67845753.
Definition VIGILANT_MAGIC : Z := 0x1337cafe.

(** [sizeof(SlamCache::Node)]: [next], [prev] and [magic], at 0, 8 and 16. *)
Definition OBJECT_MINIMUM_SIZE : Z := 24.

(** [AllocHeader] ([magic] at 0, [cache] at 8) and [AllocFooter]. *)
Definition header_size : Z := 16.
Definition footer_size : Z := 16.

Record SlamCache := mkCache { m_PartialList : Z; m_ObjectSize : Z; m_SlabSize : Z }.

Record Slam := mkSlam {
  m_bInitialised : bool;
  memory : gmap Z Z;
  m_Caches : list SlamCache;
  m_SlabRegionBitmap : list Z;
  m_Base : Z;
  m_HeapPageCount : Z
}.

Definition new_slam : Slam := mkSlam false ∅ (replicate 32 (mkCache 0 0 0)) [] 0 0.

Definition Op (A : Type) : Type := StateE Slam A.

Definition put_memory (m : gmap Z Z) (s : Slam) : Slam :=
  mkSlam (m_bInitialised s) m (m_Caches s) (m_SlabRegionBitmap s) (m_Base s) (m_HeapPageCount s).

Definition put_bitmap (b : list Z) (s : Slam) : Slam :=
  mkSlam (m_bInitialised s) (memory s) (m_Caches s) b (m_Base s) (m_HeapPageCount s).

Definition add_pages (n : Z) (s : Slam) : Slam :=
  mkSlam (m_bInitialised s) (memory s) (m_Caches s) (m_SlabRegionBitmap s) (m_Base s) (wrap 64 (m_HeapPageCount s + n)).

Definition put_cache (i : nat) (c : SlamCache) (s : Slam) : Slam :=
  mkSlam (m_bInitialised s) (memory s) (<[i := c]> (m_Caches s)) (m_SlabRegionBitmap s) (m_Base s) (m_HeapPageCount s).

(** ** Memory *)

Definition load (a : Z) : Op Z := m <- egets memory ;; elift (m !! a).

Definition store (a v : Z) : Op unit :=
  m <- egets memory ;; _ <- elift (m !! a) ;; emodify (put_memory (<[a := v]> m)).

(** The 32-bit field [magic] of a node. *)
Definition load_magic (N : Z) : Op Z := w <- load (N + 16) ;; eret (wrap 32 w).

Definition store_magic (N v : Z) : Op unit := w <- load (N + 16) ;; store (N + 16) (w - wrap 32 w + v).

(** [assert], and a message that stops the kernel. *)
Definition assert (b : bool) : Op unit := if b then eret tt else efail.

Definition cache (i : nat) : Op SlamCache := cs <- egets m_Caches ;; elift (cs !! i).

Definition partial (i : nat) : Op Z := c <- cache i ;; eret (m_PartialList c).

Definition put_partial (i : nat) (h : Z) : Op unit :=
  c <- cache i ;; emodify (put_cache i (mkCache h (m_ObjectSize c) (m_SlabSize c))).

(** ** The search for free pages

    [~v] of a 64-bit entry, and the compiler's built-ins on it: the index of the
    lowest bit that is 1, counted from [i], within [k] bits. *)
Definition full_entry : Z := 0xFFFFFFFFFFFFFFFF.

Definition not64 (v : Z) : Z := full_entry - v.

Fixpoint lowest (k : nat) (v : Z) (i : nat) : nat :=
  match k with
  | O => i
  | S k' => if Z.testbit v (Z.of_nat i) then i else lowest k' v (S i)
  end.

(** [__builtin_ffsll], [__builtin_ctzll] and [__builtin_clzll] (the last two for
    entries other than 0) and [__builtin_popcountll]. *)
Definition ffsll (v : Z) : nat := if v =? 0 then 0 else S (lowest 64 v 0).
Definition ctzll (v : Z) : nat := lowest 64 v 0.
Definition clzll (v : Z) : nat := (63 - Z.to_nat (Z.log2 v))%nat.
Definition popcountll (v : Z) : nat :=
  length (List.filter (fun i => Z.testbit v (Z.of_nat i)) (seq 0 64)).

(** A single page. *)
Fixpoint find_one (bm : list Z) (entry : nat) : option (nat * nat) :=
  match bm with
  | [] => None
  | v :: bm' =>
      if v =? 0 then Some (entry, 0%nat)
      else if negb (v =? full_entry) then Some (entry, (ffsll (not64 v) - 1)%nat)
      else find_one bm' (S entry)
  end.

(** Consecutive free entries from [checkEntry] on, as long as 64 pages are
    missing: the entry after them and the pages that are still missing. *)
Fixpoint free_entries (fuel : nat) (bm : list Z) (checkEntry needed : nat) : option (nat * nat) :=
  match fuel with
  | O => None
  | S fuel' =>
      if (64 <=? needed)%nat then
        v ← bm !! checkEntry;
        if v =? 0 then free_entries fuel' bm (S checkEntry) (needed - 64) else Some (checkEntry, needed)
      else Some (checkEntry, needed)
  end.

(** More than 64 pages, [None] being a fault. *)
Fixpoint find_large (fuel : nat) (bm : list Z) (nPages entry : nat) : option (option (nat * nat)) :=
  match fuel with
  | O => None
  | S fuel' =>
      match bm !! entry with
      | None => Some None
      | Some v =>
          if negb (v =? 0) then find_large fuel' bm nPages (S entry)
          else
            '(checkEntry, needed) ← free_entries (S nPages) bm (S entry) (nPages - 64);
            if (needed =? 0)%nat then Some (Some (entry, 0%nat))
            else if (needed <? 64)%nat then
              w ← bm !! checkEntry;
              if w =? 0 then None
              else if (needed <=? ctzll w)%nat then Some (Some (entry, 0%nat))
              else find_large fuel' bm nPages (S checkEntry)
            else find_large fuel' bm nPages (S checkEntry)
      end
  end.

(** The linear search through one entry: [c] zeros in a row, from [b] on. *)
Definition skip_ones (k : nat) (s : nat * Z) : nat * Z :=
  let (len, v) := s in
  if Z.land v (Z.ones (Z.of_nat k)) =? Z.ones (Z.of_nat k) then ((len - k)%nat, Z.shiftr v (Z.of_nat k)) else s.

Fixpoint linear (len : nat) (v : Z) (c : nat) (b : option nat) (nPages : nat) : option nat :=
  match len with
  | O => b
  | S len' =>
      if Z.odd v then linear len' (Z.shiftr v 1) 0 None nPages
      else
        let b := match b with None => Some (63 - len')%nat | _ => b end in
        if (nPages <=? S c)%nat then b else linear len' (Z.shiftr v 1) (S c) b nPages
  end.

Definition linear_search (v : Z) (nPages : nat) : option nat :=
  let (len, v) := skip_ones 4 (skip_ones 8 (skip_ones 16 (skip_ones 32 (64%nat, v)))) in
  linear len v 0 None nPages.

(** 2 to 64 pages, within one entry. *)
Definition in_entry (v : Z) (nPages : nat) : option nat :=
  if v =? 0 then Some 0%nat
  else if (nPages <=? popcountll (not64 v))%nat then
    if (ctzll v <? nPages)%nat then
      if (clzll v <? nPages)%nat then linear_search v nPages else Some (64 - clzll v)%nat
    else Some 0%nat
  else None.

Fixpoint find_small (bm : list Z) (nPages entry : nat) : option (nat * nat) :=
  match bm with
  | [] => None
  | v :: bm' =>
      match in_entry v nPages with
      | Some bit => Some (entry, bit)
      | None => find_small bm' nPages (S entry)
      end
  end.

Definition find_place (bm : list Z) (nPages : nat) : option (option (nat * nat)) :=
  if (nPages =? 1)%nat then Some (find_one bm 0)
  else if (64 <? nPages)%nat then find_large (S (length bm)) bm nPages 0
  else Some (find_small bm nPages 0).

Section Slam.
Context (garbage : Z -> Z) (heapStart heapEnd : Z) (cacheAddr : nat -> Z).

(** ** Slabs *)

Definition page_words (a : Z) : gmap Z Z :=
  list_to_map (map (fun k => let w := a + 8 * Z.of_nat k in (w, garbage w)) (seq 0 512)).

(** [va.map] and [va.unmap] of one page. *)
Definition map_page (a : Z) : Op unit := emodify (fun s => put_memory (memory s ∪ page_words a) s).

Definition unmap_page (a : Z) : Op unit := emodify (fun s => put_memory (memory s ∖ page_words a) s).

Definition set_bit (entry bit : nat) (b : bool) : Op unit :=
  bm <- egets m_SlabRegionBitmap ;; v <- elift (bm !! entry) ;;
  emodify (put_bitmap (<[entry := if b then Z.lor v (Z.shiftl 1 (Z.of_nat bit))
                                  else Z.ldiff v (Z.shiftl 1 (Z.of_nat bit))]> bm)).

Definition next_bit (entry bit : nat) : nat * nat :=
  if (64 <=? S bit)%nat then (S entry, 0%nat) else (entry, S bit).

(** [for (i = 0; i < nPages; ++i)] of [getSlab] and of [freeSlab]. *)
Fixpoint mark_pages (n : nat) (entry bit : nat) (a : Z) : Op unit :=
  match n with
  | O => eret tt
  | S n' =>
      set_bit entry bit true ;; map_page a ;;
      let (entry', bit') := next_bit entry bit in mark_pages n' entry' bit' (a + page_size)
  end.

Fixpoint unmap_pages (n : nat) (a : Z) : Op unit :=
  match n with O => eret tt | S n' => unmap_page a ;; unmap_pages n' (a + page_size) end.

Fixpoint clear_bits (n : nat) (entry bit : nat) : Op unit :=
  match n with
  | O => eret tt
  | S n' =>
      set_bit entry bit false ;;
      let (entry', bit') := next_bit entry bit in clear_bits n' entry' bit'
  end.

Definition getSlab (fullSize : Z) : Op Z :=
  let nPages := Z.to_nat (fullSize / page_size) in
  assert (negb (nPages =? 0)%nat) ;;
  bm <- egets m_SlabRegionBitmap ;;
  place <- elift (find_place bm nPages) ;;
  match place with
  | None => efail
  | Some (entry, bit) =>
      base <- egets m_Base ;;
      let slab := base + (Z.of_nat entry * 64 + Z.of_nat bit) * page_size in
      mark_pages nPages entry bit slab ;;
      emodify (add_pages (Z.of_nat nPages)) ;;
      eret slab
  end.

Definition freeSlab (address length : Z) : Op unit :=
  let nPages := Z.to_nat (length / page_size) in
  assert (negb (nPages =? 0)%nat) ;;
  unmap_pages nPages address ;;
  base <- egets m_Base ;;
  let page := (address - base) / page_size in
  clear_bits nPages (Z.to_nat (page / 64)) (Z.to_nat (page mod 64)) ;;
  emodify (add_pages (- Z.of_nat nPages)).

(** ** SlamCache *)

Definition cache_initialise (objectSize : Z) (c : SlamCache) : SlamCache :=
  if objectSize <? OBJECT_MINIMUM_SIZE then c
  else mkCache 0 objectSize (if SLAB_MINIMUM_SIZE <? objectSize then objectSize else SLAB_MINIMUM_SIZE).

(** A free node of a new slab. *)
Definition init_node (slab size : Z) (nObjects i : nat) : Op unit :=
  let a k := slab + Z.of_nat k * size in
  store (a i) (if (nObjects <=? i + 1)%nat then 0 else a (i + 1)%nat) ;;
  store (a i + 8) (if (i =? 1)%nat then 0 else a (i - 1)%nat) ;;
  store_magic (a i) MAGIC_VALUE.

Fixpoint init_nodes (slab size : Z) (nObjects : nat) (js : list nat) : Op unit :=
  match js with
  | [] => eret tt
  | i :: js' => init_node slab size nObjects i ;; init_nodes slab size nObjects js'
  end.

Definition initialiseSlab (j : nat) (slab : Z) : Op Z :=
  c <- cache j ;;
  let nObjects := Z.to_nat (m_SlabSize c / m_ObjectSize c) in
  init_nodes slab (m_ObjectSize c) nObjects (seq 1 (nObjects - 1)) ;;
  store_magic slab TEMP_MAGIC ;;
  (if (2 <=? nObjects)%nat then
     let pFirst := slab + m_ObjectSize c in
     let pLast := slab + Z.of_nat (nObjects - 1) * m_ObjectSize c in
     pPartialPointer <- partial j ;;
     store pLast pPartialPointer ;;
     put_partial j pFirst ;;
     ewhen (negb (pPartialPointer =? 0)) (store (pPartialPointer + 8) pLast)
   else eret tt) ;;
  eret slab.

Definition new_slab (j : nat) : Op Z :=
  c <- cache j ;; slab <- getSlab (m_SlabSize c) ;; initialiseSlab j slab.

Definition cache_allocate (j : nat) : Op Z :=
  N <- partial j ;;
  if N =? 0 then new_slab j
  else
    next <- load N ;;
    if next =? VIGILANT_MAGIC then put_partial j 0 ;; new_slab j
    else
      magic <- load_magic N ;;
      if negb (magic =? TEMP_MAGIC) && negb (magic =? MAGIC_VALUE) then put_partial j 0 ;; new_slab j
      else put_partial j next ;; store_magic N TEMP_MAGIC ;; eret N.

Definition cache_free (j : nat) (object : Z) : Op unit :=
  c <- cache j ;;
  footer <- load (object + m_ObjectSize c - footer_size) ;;
  assert (footer =? VIGILANT_MAGIC) ;;
  magic <- load_magic object ;;
  assert (negb (magic =? MAGIC_VALUE)) ;;
  store_magic object MAGIC_VALUE ;;
  store (object + 8) 0 ;;
  pPartialPointer <- partial j ;;
  store object pPartialPointer ;;
  put_partial j object ;;
  ewhen (negb (pPartialPointer =? 0)) (store (pPartialPointer + 8) object).

Definition cache_isPointerValid (j : nat) (object : Z) : Op bool :=
  c <- cache j ;;
  footer <- load (object + m_ObjectSize c - footer_size) ;;
  if negb (footer =? VIGILANT_MAGIC) then eret false
  else magic <- load_magic object ;; eret (negb (magic =? MAGIC_VALUE)).

(** *** Recovery *)

(** [if (p->next) p->next->prev = p->prev; if (p->prev) p->prev->next = p->next]. *)
Definition unlink (N : Z) : Op unit :=
  next <- load N ;; prev <- load (N + 8) ;;
  ewhen (negb (next =? 0)) (store (next + 8) prev) ;;
  prev <- load (N + 8) ;; next <- load N ;;
  ewhen (negb (prev =? 0)) (store prev next).

(** Whether all objects of a slab look free. *)
Fixpoint all_free (slab size : Z) (js : list nat) : Op bool :=
  match js with
  | [] => eret true
  | i :: js' =>
      magic <- load_magic (slab + Z.of_nat i * size) ;;
      if magic =? MAGIC_VALUE then all_free slab size js' else eret false
  end.

Fixpoint unlink_all (j : nat) (slab size : Z) (js : list nat) : Op unit :=
  match js with
  | [] => eret tt
  | i :: js' =>
      let pNode := slab + Z.of_nat i * size in
      pNodeNext <- load pNode ;;
      unlink pNode ;;
      head <- partial j ;;
      ewhen (head =? pNode) (put_partial j pNodeNext) ;;
      unlink_all j slab size js'
  end.

(** Objects smaller than a page: [head] and [tail] are the reinsert list. *)
Fixpoint recover_small (maxSlabs j : nat) (head tail : Z) (freedSlabs : nat) : Op nat :=
  match maxSlabs with
  | O => eret freedSlabs
  | S maxSlabs' =>
      N <- partial j ;;
      if N =? 0 then
        store tail N ;; put_partial j head ;; eret freedSlabs
      else
        pNext <- load N ;; put_partial j pNext ;;
        c <- cache j ;;
        let slab := N - N mod page_size in
        let objects := seq 0 (Z.to_nat (m_SlabSize c / m_ObjectSize c)) in
        free <- all_free slab (m_ObjectSize c) objects ;;
        if free then
          unlink_all j slab (m_ObjectSize c) objects ;;
          freeSlab slab (m_SlabSize c) ;;
          recover_small maxSlabs' j head tail (S freedSlabs)
        else
          unlink N ;;
          if head =? 0 then
            store (N + 8) 0 ;; store N 0 ;; recover_small maxSlabs' j N N freedSlabs
          else
            store (N + 8) 0 ;; store N head ;; store (head + 8) N ;; recover_small maxSlabs' j N tail freedSlabs
  end.

Fixpoint recover_large (maxSlabs j : nat) (freedSlabs : nat) : Op nat :=
  match maxSlabs with
  | O => eret freedSlabs
  | S maxSlabs' =>
      N <- partial j ;;
      if N =? 0 then eret freedSlabs
      else
        pNext <- load N ;; put_partial j pNext ;;
        magic <- load_magic N ;; assert (magic =? MAGIC_VALUE) ;;
        unlink N ;;
        c <- cache j ;; freeSlab N (m_SlabSize c) ;;
        recover_large maxSlabs' j (S freedSlabs)
  end.

Definition cache_recovery (maxSlabs j : nat) : Op nat :=
  N <- partial j ;; c <- cache j ;;
  if N =? 0 then eret 0%nat
  else if m_ObjectSize c <? page_size then recover_small maxSlabs j 0 0 0 else recover_large maxSlabs j 0.

(** ** SlamAllocator *)

Definition initialise : Op unit :=
  let heapSize := heapEnd - heapStart in
  let bitmapBytes := heapSize / page_size / 8 in
  let rounded := if bitmapBytes mod page_size =? 0 then bitmapBytes
                 else bitmapBytes - bitmapBytes mod page_size + page_size in
  emodify (fun s =>
    mkSlam true (memory s) (imap (fun (i : nat) => cache_initialise (Z.shiftl 1 (Z.of_nat i))) (m_Caches s))
           (replicate (Z.to_nat (bitmapBytes / 8)) 0) (heapStart + rounded) (m_HeapPageCount s)).

(** [while (powerOf2 < nBytes || powerOf2 < OBJECT_MINIMUM_SIZE)]. *)
Fixpoint power_of_2 (fuel : nat) (nBytes powerOf2 : Z) (lg2 : nat) : option (Z * nat) :=
  match fuel with
  | O => None
  | S fuel' =>
      if (powerOf2 <? nBytes) || (powerOf2 <? OBJECT_MINIMUM_SIZE)
      then power_of_2 fuel' nBytes (wrap 64 (Z.shiftl powerOf2 1)) (S lg2)
      else Some (powerOf2, lg2)
  end.

Definition ensure_initialised : Op unit := b <- egets m_bInitialised ;; if b then eret tt else initialise.

Definition allocate (nBytes : Z) : Op Z :=
  ensure_initialised ;;
  r <- elift (power_of_2 65 (wrap 64 (nBytes + (header_size + footer_size))) 1 0) ;;
  let (powerOf2, lg2) := r : Z * nat in
  assert (lg2 <? 31)%nat ;;
  ret <- cache_allocate lg2 ;;
  assert (negb (ret =? 0)) ;;
  store (ret + 8) (cacheAddr lg2) ;;
  store ret VIGILANT_MAGIC ;;
  store (ret + powerOf2 - footer_size) VIGILANT_MAGIC ;;
  eret (ret + header_size).

(** The cache at an address. *)
Definition cache_at (p : Z) : option nat := fst <$> list_find (fun i => cacheAddr i = p) (seq 0 32).

Definition memIsInHeap (a : Z) : bool := (heapStart <=? a) && (a <? heapEnd).

Definition free (mem : Z) : Op unit :=
  ensure_initialised ;;
  assert (memIsInHeap mem) ;;
  p <- load (mem - header_size + 8) ;;
  magic <- load (mem - header_size) ;;
  assert (magic =? VIGILANT_MAGIC) ;;
  j <- elift (cache_at p) ;;
  cache_free j (mem - header_size).

Definition allocSize (mem : Z) : Op Z :=
  if mem =? 0 then eret 0
  else p <- load (mem - header_size + 8) ;; j <- elift (cache_at p) ;; c <- cache j ;; eret (m_ObjectSize c).

Definition isPointerValid (mem : Z) : Op bool :=
  ensure_initialised ;;
  if mem =? 0 then eret true
  else if negb (memIsInHeap mem) then eret false
  else
    magic <- load (mem - header_size) ;;
    if negb (magic =? VIGILANT_MAGIC) then eret false
    else
      p <- load (mem - header_size + 8) ;;
      match cache_at p with
      | None => eret false
      | Some j => _ <- cache_isPointerValid j (mem - header_size) ;; eret true
      end.

Fixpoint recovery_loop (js : list nat) (maxSlabs nSlabs : nat) (nPages : Z) : Op Z :=
  match js with
  | [] => eret nPages
  | i :: js' =>
      c <- cache i ;;
      if m_SlabSize c =? 0 then recovery_loop js' maxSlabs nSlabs nPages
      else
        thisSlabs <- cache_recovery maxSlabs i ;;
        let nPages := nPages + Z.of_nat thisSlabs * m_SlabSize c / page_size in
        let nSlabs := (nSlabs + thisSlabs)%nat in
        if (maxSlabs <=? nSlabs)%nat then eret nPages else recovery_loop js' maxSlabs nSlabs nPages
  end.

Definition recovery (maxSlabs : nat) : Op Z := recovery_loop (seq 0 32) maxSlabs 0 0.

End Slam.
