(* ===== verification/SlamSearch.v ===== *)
(** * The search for free pages of the kernel heap

    The three searches of [SlamAllocator::getSlab] find pages that are free;
    the one for 2 to 64 pages does so as long as an entry with enough free
    pages has them in a row. *)
From Stdlib Require Import ZArith Lia List Bool.
From stdpp Require Import base gmap list.
From S2P Require Import Prelude Slam.
Import ListNotations.
Local Open Scope nat_scope.

(** ** Bits of an entry *)

Definition bit (v : Z) (i : nat) : bool := Z.testbit v (Z.of_nat i).

(** [n] zeros from bit [r] on. *)
Definition zeros (v : Z) (r n : nat) : Prop := forall k, r <= k < r + n -> bit v k = false.

Definition has_run (n : nat) (v : Z) : Prop := exists r, r + n <= 64 /\ zeros v r n.

Lemma lowest_spec k v i :
  i <= lowest k v i <= i + k /\ zeros v i (lowest k v i - i) /\
  (lowest k v i < i + k -> bit v (lowest k v i) = true).
Proof.
  revert i. induction k as [|k IH]; intros i; simpl.
  - rewrite Nat.sub_diag. split_and!; [lia | lia | intros j Hj; lia | lia].
  - destruct (Z.testbit v (Z.of_nat i)) eqn:E.
    + rewrite Nat.sub_diag. split_and!; [lia | lia | intros j Hj; lia | done].
    + destruct (IH (S i)) as (Hr & Hz & Hb). split_and!; [lia | lia | | intros H; apply Hb; lia].
      intros j Hj. destruct (decide (j = i)) as [->|]; [done|]. apply Hz. lia.
Qed.

Lemma bit_high v i : in_word 64 v -> 64 <= i -> bit v i = false.
Proof. intros Hv Hi. apply (in_word_testbit_high 64); [done | lia | lia]. Qed.

Lemma full_entry_ones : full_entry = Z.ones 64.
Proof. reflexivity. Qed.

Lemma bit_not64 v i : in_word 64 v -> i < 64 -> bit (not64 v) i = negb (bit v i).
Proof.
  intros Hv Hi. unfold not64, bit. rewrite full_entry_ones, Z.sub_nocarry_ldiff.
  - rewrite Z.ldiff_spec, Z.ones_spec_low by lia. done.
  - apply Z.bits_inj'. intros n Hn. rewrite Z.ldiff_spec, Z.bits_0.
    destruct (Z.ltb_spec n 64).
    + rewrite Z.ones_spec_low by lia. apply andb_false_r.
    + pose proof (bit_high v (Z.to_nat n) Hv ltac:(lia)) as Hb. unfold bit in Hb.
      rewrite Z2Nat.id in Hb by lia. by rewrite Hb.
Qed.

(** Values are known by their bits. *)
Lemma entry_ext v w : in_word 64 v -> in_word 64 w -> (forall i, i < 64 -> bit v i = bit w i) -> v = w.
Proof.
  intros Hv Hw Hb. apply Z.bits_inj'. intros n Hn. rewrite <- (Z2Nat.id n) by lia.
  change (bit v (Z.to_nat n) = bit w (Z.to_nat n)).
  destruct (decide (Z.to_nat n < 64)); [by apply Hb|].
  by rewrite !bit_high by (done || lia).
Qed.

Lemma in_word_0 : in_word 64 0.
Proof. unfold in_word. lia. Qed.

Lemma in_word_full : in_word 64 full_entry.
Proof. rewrite full_entry_ones. unfold in_word. vm_compute. split; congruence. Qed.

Lemma bit_0 i : bit 0 i = false.
Proof. apply Z.bits_0. Qed.

Lemma bit_full i : i < 64 -> bit full_entry i = true.
Proof. intros Hi. rewrite full_entry_ones. apply Z.ones_spec_low. lia. Qed.

Lemma nonzero_bit v : in_word 64 v -> v <> 0%Z -> exists i, i < 64 /\ bit v i = true.
Proof.
  intros Hv Hne. destruct (lowest_spec 64 v 0) as (Hr & Hz & Hb).
  destruct (decide (lowest 64 v 0 < 64)) as [Hlt|Hge]; [by exists (lowest 64 v 0); auto|].
  exfalso. apply Hne, entry_ext; [done | apply in_word_0|]. intros i Hi. rewrite bit_0. apply Hz. lia.
Qed.

Lemma not_full_bit v : in_word 64 v -> v <> full_entry -> exists i, i < 64 /\ bit (not64 v) i = true.
Proof.
  intros Hv Hne. destruct (lowest_spec 64 (not64 v) 0) as (Hr & Hz & Hb).
  destruct (decide (lowest 64 (not64 v) 0 < 64)) as [Hlt|Hge]; [by exists (lowest 64 (not64 v) 0); auto|].
  exfalso. apply Hne, entry_ext; [done | apply in_word_full|]. intros i Hi. rewrite bit_full by done.
  specialize (Hz i ltac:(lia)). rewrite bit_not64 in Hz by done. by destruct (bit v i).
Qed.

(** ** A single page *)

Lemma find_one_spec bm e : Forall (in_word 64) bm ->
  match find_one bm e with
  | Some (entry, b) =>
      e <= entry /\ b < 64 /\ (exists v, bm !! (entry - e) = Some v /\ bit v b = false /\ forall i, i < b -> bit v i = true) /\
      (forall k, k < entry - e -> bm !! k = Some full_entry)
  | None => forall k, k < length bm -> bm !! k = Some full_entry
  end.
Proof.
  intros Hbm. revert e. induction Hbm as [|v bm Hv Hbm IH]; intros e; simpl; [intros; lia|].
  destruct (Z.eqb_spec v 0) as [->|H0].
  { rewrite Nat.sub_diag. split_and!; [lia | lia | | lia]. exists 0%Z. split_and!; [done | apply bit_0 | lia]. }
  destruct (Z.eqb_spec v full_entry) as [->|Hf]; cbn [negb].
  - specialize (IH (S e)). destruct (find_one bm (S e)) as [[entry b]|].
    + destruct IH as (Hle & Hb & (w & Hw & Hz) & Hpre). split_and!; [lia | done | |].
      * exists w. split; [|done]. by replace (entry - e) with (S (entry - S e)) by lia.
      * intros [|k] Hk; [done|]. apply Hpre. lia.
    + intros [|k] Hk; [done|]. apply IH. simpl in Hk. lia.
  - rewrite Nat.sub_diag. unfold ffsll.
    destruct (not_full_bit v Hv Hf) as (i & Hi & Hbi).
    destruct (Z.eqb_spec (not64 v) 0) as [E|_]; [rewrite E, bit_0 in Hbi; done|].
    destruct (lowest_spec 64 (not64 v) 0) as (Hr & Hz & Hb).
    assert (Hlt : lowest 64 (not64 v) 0 < 64).
    { destruct (decide (lowest 64 (not64 v) 0 < 64)); [done|]. rewrite Hz in Hbi by lia. done. }
    replace (S (lowest 64 (not64 v) 0) - 1) with (lowest 64 (not64 v) 0) by lia.
    split_and!; [lia | done | | lia]. exists v. split_and!; [done | |].
    + specialize (Hb ltac:(lia)). rewrite bit_not64 in Hb by done. by destruct (bit v _).
    + intros j Hj. specialize (Hz j ltac:(lia)). rewrite bit_not64 in Hz by (done || lia). by destruct (bit v j).
Qed.

(** ** A run within one entry *)

Lemma bit_shiftr v k i : bit (Z.shiftr v (Z.of_nat k)) i = bit v (k + i).
Proof. unfold bit. rewrite Z.shiftr_spec by lia. f_equal. lia. Qed.

(** The search goes on at [64 - len], after [c] zeros that start at [b]. *)
Lemma linear_run w len v c b n :
  len <= 64 -> c < n -> c + len <= 64 -> v = Z.shiftr w (Z.of_nat (64 - len)) ->
  zeros w (64 - len - c) c -> b = (if c =? 0 then None else Some (64 - len - c)) ->
  (exists r, 64 - len - c <= r /\ r + n <= 64 /\ zeros w r n) ->
  exists r, linear len v c b n = Some r /\ r + n <= 64 /\ zeros w r n.
Proof.
  revert v c b. induction len as [|len IH]; intros v c b Hlen Hc Hcl -> Hz -> (r & Hr1 & Hr2 & Hr); [lia|].
  cbn [linear]. rewrite <- Z.bit0_odd. change (Z.testbit ?x 0) with (bit x 0). rewrite bit_shiftr, Nat.add_0_r.
  rewrite Z.shiftr_shiftr by lia. replace (Z.of_nat (64 - S len) + 1)%Z with (Z.of_nat (64 - len)) by lia.
  destruct (bit w (64 - S len)) eqn:Eb.
  - apply IH; try done; try lia; [intros k Hk; lia|]. exists r. split_and!; [|done..].
    destruct (decide (r <= 64 - S len)); [|lia]. exfalso.
    destruct (decide (64 - S len < r + n)); [|lia]. rewrite Hr in Eb by lia. done.
  - assert (Hz' : zeros w (64 - len - S c) (S c)).
    { intros k Hk. destruct (decide (k = 64 - S len)) as [->|]; [done|]. apply Hz. lia. }
    assert (Eq : match (if c =? 0 then None else Some (64 - S len - c)) with None => Some (63 - len) | _ => if c =? 0 then None else Some (64 - S len - c) end
                 = Some (64 - len - S c)).
    { destruct (Nat.eqb_spec c 0); f_equal; lia. }
    rewrite Eq. destruct (Nat.leb_spec n (S c)) as [Hn|Hn].
    + eexists. split; [done|]. split; [lia|]. intros k Hk. apply Hz'. lia.
    + apply IH; try done; try lia. exists r. split_and!; [lia | done..].
Qed.

(** What is left to search: the bits from [64 - len] on, all below being ones. *)
Definition left_of (w : Z) (s : nat * Z) : Prop :=
  fst s <= 64 /\ snd s = Z.shiftr w (Z.of_nat (64 - fst s)) /\ forall i, i < 64 - fst s -> bit w i = true.

Lemma bit_ones k i : bit (Z.ones (Z.of_nat k)) i = (i <? k).
Proof.
  unfold bit. destruct (Nat.ltb_spec i k).
  - apply Z.ones_spec_low. lia.
  - apply Z.ones_spec_high. lia.
Qed.

Lemma skip_ones_left w k s : in_word 64 w -> left_of w s -> left_of w (skip_ones k s).
Proof.
  destruct s as [len v]. intros Hw (Hlen & Hv & Hones). unfold skip_ones. simpl in Hlen, Hv, Hones. subst v.
  destruct (Z.eqb_spec (Z.land (Z.shiftr w (Z.of_nat (64 - len))) (Z.ones (Z.of_nat k))) (Z.ones (Z.of_nat k))) as [E|_];
    [|by split_and!].
  assert (Hlow : forall i, i < k -> bit w (64 - len + i) = true).
  { intros i Hi. apply (f_equal (fun x => bit x i)) in E. rewrite bit_ones, (proj2 (Nat.ltb_lt _ _)) in E by done.
    unfold bit in E. rewrite Z.land_spec in E. apply andb_true_iff in E as [E _].
    change (bit (Z.shiftr w (Z.of_nat (64 - len))) i = true) in E. by rewrite bit_shiftr in E. }
  assert (Hk : k <= len).
  { destruct (decide (k <= len)); [done|]. specialize (Hlow len ltac:(lia)).
    rewrite bit_high in Hlow by (done || lia). done. }
  split_and!; simpl; [lia | |].
  - rewrite Z.shiftr_shiftr by lia. f_equal. lia.
  - intros i Hi. destruct (decide (i < 64 - len)); [by apply Hones|].
    replace i with (64 - len + (i - (64 - len))) by lia. apply Hlow. lia.
Qed.

Lemma linear_search_run w n : in_word 64 w -> 1 <= n -> has_run n w ->
  exists r, linear_search w n = Some r /\ r + n <= 64 /\ zeros w r n.
Proof.
  intros Hw Hn (r & Hr & Hz). unfold linear_search.
  set (s := skip_ones 4 _). assert (Hs : left_of w s).
  { subst s. do 4 (apply skip_ones_left; [done|]). split_and!; simpl; [lia | | lia]. by rewrite Z.shiftr_0_r. }
  destruct s as [len v]. destruct Hs as (Hlen & Hv & Hones). simpl in *.
  apply linear_run; try done; try lia; [intros k Hk; lia|]. exists r. split_and!; [|done..].
  destruct (decide (r < 64 - len)); [|lia]. exfalso.
  pose proof (Hones r ltac:(lia)) as H1. rewrite Hz in H1 by lia. done.
Qed.

Lemma popcount_run v n : in_word 64 v -> has_run n v -> n <= popcountll (not64 v).
Proof.
  intros Hv (r & Hr & Hz). unfold popcountll.
  replace 64 with (r + (n + (64 - r - n))) by lia. rewrite !seq_app, !List.filter_app, !length_app. simpl.
  assert (E : List.filter (fun i => Z.testbit (not64 v) (Z.of_nat i)) (seq r n) = seq r n).
  { apply forallb_filter_id. rewrite forallb_forall. intros i Hi%in_seq.
    change (bit (not64 v) i = true). rewrite bit_not64, Hz by (done || lia). done. }
  rewrite E, length_seq. lia.
Qed.

(** An entry with [n] free pages has [n] in a row. *)
Definition unfragmented (n : nat) (v : Z) : Prop := n <= popcountll (not64 v) -> has_run n v.

Lemma log2_entry v : in_word 64 v -> v <> 0%Z -> (0 <= Z.log2 v < 64)%Z.
Proof.
  intros [H0 H1] Hne. split; [apply Z.log2_nonneg|]. apply Z.log2_lt_pow2; [lia | done].
Qed.

Lemma above_log2 v i : (Z.log2 v < Z.of_nat i)%Z -> in_word 64 v -> bit v i = false.
Proof. intros Hi [H0 _]. by apply Z.bits_above_log2. Qed.

Lemma in_entry_spec v n : in_word 64 v -> 1 <= n <= 64 ->
  (unfragmented n v -> forall b, in_entry v n = Some b -> b + n <= 64 /\ zeros v b n) /\
  (in_entry v n = None -> ~ has_run n v).
Proof.
  intros Hv Hn. unfold in_entry. destruct (Z.eqb_spec v 0) as [->|H0].
  { split; [|done]. intros _ b [= <-]. split; [lia|]. intros k _. apply bit_0. }
  destruct (Nat.leb_spec n (popcountll (not64 v))) as [Hpop|Hpop].
  2: { split; [done|]. intros _ Hrun. apply (popcount_run v n Hv) in Hrun. lia. }
  destruct (Nat.ltb_spec (ctzll v) n) as [Hc|Hc].
  2: { split; [|done]. intros _ b [= <-]. split; [lia|].
       destruct (lowest_spec 64 v 0) as (_ & Hz & _). intros k Hk. apply Hz. unfold ctzll in Hc. lia. }
  pose proof (log2_entry v Hv H0) as Hlog. unfold clzll.
  destruct (Nat.ltb_spec (63 - Z.to_nat (Z.log2 v)) n) as [Hl|Hl].
  2: { split; [|done]. intros _ b [= <-]. split; [lia|]. intros k Hk. apply above_log2; [lia | done]. }
  split.
  - intros Hun b Hb. destruct (linear_search_run v n Hv ltac:(lia) (Hun Hpop)) as (r & Hr & Hrest).
    rewrite Hr in Hb. by injection Hb as <-.
  - intros Hnone Hrun. destruct (linear_search_run v n Hv ltac:(lia) Hrun) as (r & Hr & _). congruence.
Qed.

(** ** Pages in use *)

Definition used (bm : list Z) (p : nat) : bool :=
  match bm !! (p / 64) with Some v => bit v (p mod 64) | None => true end.

(** [n] free pages from page [p] on. *)
Definition free_pages (bm : list Z) (p n : nat) : Prop := forall k, k < n -> used bm (p + k) = false.

Lemma page_entry e b : b < 64 -> (e * 64 + b) / 64 = e /\ (e * 64 + b) mod 64 = b.
Proof.
  intros Hb. rewrite Nat.add_comm. split.
  - rewrite Nat.div_add by lia. rewrite Nat.div_small by lia. lia.
  - rewrite Nat.Div0.mod_add. by apply Nat.mod_small.
Qed.

Lemma used_at bm e b v : bm !! e = Some v -> b < 64 -> used bm (e * 64 + b) = bit v b.
Proof. intros He Hb. unfold used. destruct (page_entry e b Hb) as [-> ->]. by rewrite He. Qed.

Lemma free_in_entry bm e b n v : bm !! e = Some v -> b + n <= 64 -> zeros v b n -> free_pages bm (e * 64 + b) n.
Proof.
  intros He Hb Hz k Hk. rewrite <- Nat.add_assoc, (used_at bm e (b + k) v) by (done || lia). apply Hz. lia.
Qed.

Lemma find_small_spec bm n e : Forall (in_word 64) bm -> 1 <= n <= 64 ->
  (Forall (unfragmented n) bm -> forall entry b, find_small bm n e = Some (entry, b) ->
     e <= entry /\ exists v, bm !! (entry - e) = Some v /\ b + n <= 64 /\ zeros v b n) /\
  (find_small bm n e = None -> forall v, v ∈ bm -> ~ has_run n v).
Proof.
  intros Hbm Hn. revert e. induction Hbm as [|v bm Hv Hbm IH]; intros e; simpl.
  { split; [done|]. intros _ v Hin. by apply not_elem_of_nil in Hin. }
  destruct (in_entry_spec v n Hv Hn) as [Hsome Hnone]. destruct (in_entry v n) as [b0|].
  - split; [|done]. intros Hun entry b [= <- <-]. split; [lia|]. exists v. rewrite Nat.sub_diag. split; [done|].
    apply Hsome; [|done]. by inversion_clear Hun.
  - destruct (IH (S e)) as [IH1 IH2]. split.
    + intros Hun entry b Hf. inversion_clear Hun. destruct (IH1 ltac:(done) _ _ Hf) as (Hle & w & Hw & Hrest).
      split; [lia|]. exists w. split; [|done]. by replace (entry - e) with (S (entry - S e)) by lia.
    + intros Hf w [->|Hin]%elem_of_cons; [by apply Hnone | by apply IH2].
Qed.

(** ** More than one entry *)

Lemma free_entries_spec fuel bm e check needed c m :
  e <= check ->
  (forall k, e <= k < check -> bm !! k = Some 0%Z) ->
  free_entries fuel bm check needed = Some (c, m) ->
  check <= c /\ m + 64 * (c - check) = needed /\ (forall k, e <= k < c -> bm !! k = Some 0%Z).
Proof.
  revert check needed. induction fuel as [|fuel IH]; intros check needed He Hz; cbn [free_entries]; [done|].
  destruct (Nat.leb_spec 64 needed) as [Hn|Hn]; [|intros [= <- <-]; split_and!; [lia | lia | done]].
  destruct (bm !! check) as [v|] eqn:Hv; simpl; [|done].
  destruct (Z.eqb_spec v 0) as [->|_]; [|intros [= <- <-]; split_and!; [lia | lia | done]].
  intros Hf. apply IH in Hf as (Hle & Hm & Hz'); [split_and!; [lia | lia | done] | lia |].
  intros k Hk. destruct (decide (k = check)) as [->|]; [done|]. apply Hz. lia.
Qed.

Lemma used_zero bm p : bm !! (p / 64) = Some 0%Z -> used bm p = false.
Proof. unfold used. intros ->. apply bit_0. Qed.

Lemma find_large_spec fuel bm n e entry b : 64 < n ->
  find_large fuel bm n e = Some (Some (entry, b)) -> b = 0 /\ free_pages bm (entry * 64 + b) n.
Proof.
  intros Hn. revert e. induction fuel as [|fuel IH]; intros e; cbn [find_large]; [done|].
  destruct (bm !! e) as [v|] eqn:Hv; [|done].
  destruct (Z.eqb_spec v 0) as [->|_]; cbn [negb]; [|apply IH].
  destruct (free_entries (S n) bm (S e) (n - 64)) as [[c m]|] eqn:Hf; cbn [mbind option_bind]; [|done].
  apply (free_entries_spec _ bm e) in Hf as (Hc & Hm & Hz); [|lia|].
  2: { intros k Hk. by replace k with e by lia. }
  assert (Hfront : forall k, k < n - m -> used bm (e * 64 + 0 + k) = false).
  { intros k Hk. apply used_zero, Hz. pose proof (Nat.div_mod_eq (e * 64 + 0 + k) 64).
    pose proof (Nat.mod_upper_bound (e * 64 + 0 + k) 64). lia. }
  destruct (Nat.eqb_spec m 0) as [->|Hm0].
  { intros [= <- <-]. split; [done|]. intros k Hk. apply Hfront. lia. }
  destruct (Nat.ltb_spec m 64) as [Hm64|_]; [|apply IH].
  destruct (bm !! c) as [w|] eqn:Hw; cbn [mbind option_bind]; [|done].
  destruct (Z.eqb_spec w 0) as [_|_]; [done|].
  destruct (Nat.leb_spec m (ctzll w)) as [Hct|_]; [|apply IH].
  intros [= <- <-]. split; [done|]. intros k Hk.
  destruct (decide (k < n - m)); [by apply Hfront|].
  replace (e * 64 + 0 + k) with (c * 64 + (k - (n - m))) by lia. rewrite (used_at bm c _ w) by (done || lia).
  destruct (lowest_spec 64 w 0) as (_ & Hzw & _). apply Hzw. unfold ctzll in Hct. lia.
Qed.

Lemma before_used bm entry b v p :
  bm !! entry = Some v -> b < 64 -> (forall i, i < b -> bit v i = true) ->
  (forall k, k < entry -> bm !! k = Some full_entry) ->
  p < entry * 64 + b -> used bm p = true.
Proof.
  intros Hv Hb Hlow Hpre Hp. unfold used.
  pose proof (Nat.div_mod_eq p 64). pose proof (Nat.mod_upper_bound p 64 ltac:(lia)).
  destruct (decide (p / 64 = entry)) as [E|E].
  - rewrite E, Hv. apply Hlow. lia.
  - rewrite Hpre by lia. by apply bit_full.
Qed.

Lemma search_sound bm n : Forall (in_word 64) bm -> 1 <= n -> forall entry b,
  find_place bm n = Some (Some (entry, b)) -> (2 <= n <= 64 -> Forall (unfragmented n) bm) ->
  b < 64 /\ free_pages bm (entry * 64 + b) n.
Proof.
  intros Hbm Hn entry b Hf Hun. unfold find_place in Hf. destruct (Nat.eqb_spec n 1) as [->|H1].
  { injection Hf as Hf. pose proof (find_one_spec bm 0 Hbm) as Hs. rewrite Hf in Hs.
    destruct Hs as (_ & Hb & (v & Hv & Hbit & _) & _). rewrite Nat.sub_0_r in Hv. split; [done|].
    apply (free_in_entry _ _ _ _ v); [done | lia|]. intros k Hk. by replace k with b by lia. }
  destruct (Nat.ltb_spec 64 n) as [Hl|Hl].
  - apply find_large_spec in Hf as [-> Hf]; [split; [lia | done] | done].
  - injection Hf as Hf. destruct (find_small_spec bm n 0 Hbm ltac:(lia)) as [Hs _].
    destruct (Hs (Hun ltac:(lia)) _ _ Hf) as (_ & v & Hv & Hb & Hz). rewrite Nat.sub_0_r in Hv.
    split; [lia | by apply (free_in_entry _ _ _ _ v)].
Qed.

(** ** The claim *)

(** C15. The search for [nPages] free pages: a place it finds is free, for a
    single page always the first one, for up to 64 pages provided that an entry
    with enough free pages has them in a row, for more always; it finds none
    only if no page is free, or no entry has [nPages] free pages in a row. *)
Theorem slab_search_correct bm n :
  Forall (in_word 64) bm -> 1 <= n ->
  (forall entry b, find_place bm n = Some (Some (entry, b)) ->
     (2 <= n <= 64 -> Forall (unfragmented n) bm) -> b < 64 /\ free_pages bm (entry * 64 + b) n) /\
  (n = 1 -> exists place, find_place bm 1 = Some place /\
     match place with
     | Some (entry, b) => forall p, p < entry * 64 + b -> used bm p = true
     | None => forall p, used bm p = true
     end) /\
  (2 <= n <= 64 -> find_place bm n = Some None -> forall v, v ∈ bm -> ~ has_run n v).
Proof.
  intros Hbm Hn. split_and!.
  - by apply search_sound.
  - intros ->. unfold find_place. simpl. eexists. split; [done|].
    pose proof (find_one_spec bm 0 Hbm) as Hs. destruct (find_one bm 0) as [[entry b]|].
    + destruct Hs as (_ & Hb & (v & Hv & _ & Hlow) & Hpre). rewrite Nat.sub_0_r in Hv, Hpre. intros p Hp.
      by apply (before_used bm entry b v).
    + intros p. unfold used. destruct (bm !! (p / 64)) as [v|] eqn:Hv; [|done].
      rewrite Hs in Hv by by eapply lookup_lt_Some. injection Hv as <-. apply bit_full, Nat.mod_upper_bound. lia.
  - intros H2 Hf v Hv. unfold find_place in Hf.
    rewrite (proj2 (Nat.eqb_neq _ _)), (proj2 (Nat.ltb_ge _ _)) in Hf by lia. injection Hf as Hf.
    by apply (find_small_spec bm n 0 Hbm ltac:(lia)).
Qed.

(** Two pages in a bitmap whose first entry is in use up to its last four pages,
    and a hundred and twenty-eight behind it. *)
Lemma slab_search_correct_witness :
  let bm := [0x0FFFFFFFFFFFFFFF; 0; 0; 0]%Z in
  find_place bm 2 = Some (Some (0, 60)) /\ free_pages bm 60 2 /\ free_pages bm 64 128.
Proof.
  assert (Hbm : Forall (in_word 64) [0x0FFFFFFFFFFFFFFF; 0; 0; 0]%Z)
    by (repeat constructor; vm_compute; congruence).
  split; [reflexivity|]. split.
  - destruct (slab_search_correct _ 2 Hbm ltac:(lia)) as [H _]. apply (H 0 60); [reflexivity|]. intros _.
    repeat (apply Forall_cons; split); [| | | | apply Forall_nil; exact I]; intros _;
      (exists 60; split; [lia|]); intros k Hk;
      (destruct (decide (k = 60)) as [->|]; [reflexivity|]; replace k with 61 by lia; reflexivity).
  - destruct (slab_search_correct _ 128 Hbm ltac:(lia)) as [H _]. apply (H 1 0); [reflexivity | lia].
Defined.

(** The linear search for several pages leaves the entry with a run at its end
    that is too short: with every other page in use it takes the last page and
    the first of the next entry, which are in use. *)
Example search_takes_used_pages :
  find_place [0x5555555555555555; 0xFFFFFFFFFFFFFFFF; 0]%Z 2 = Some (Some (0, 63)) /\
  used [0x5555555555555555; 0xFFFFFFFFFFFFFFFF; 0]%Z 64 = true.
Proof. split; reflexivity. Qed.

(** The search for more than 64 pages reads past the end of the bitmap. *)
Example search_leaves_bitmap : find_place [1; 0]%Z 128 = None.
Proof. reflexivity. Qed.
