(* ===== verification/SlamInv.v ===== *)
(** * The invariant of the kernel heap

    Every object of a cache is free, live, or held by an operation in progress;
    objects do not overlap and lie in mapped pages that the bitmap records; the
    free ones are exactly those on the list of their cache, and the live ones
    have their header and footer. *)
From Stdlib Require Import ZArith Lia List Bool.
From stdpp Require Import base gmap list.
From S2P Require Import Prelude Slam SlamSearch.
Import ListNotations.
Local Open Scope Z_scope.
Local Open Scope err_scope.
#[local] Set Warnings "-clear-no-such-hyp".

(** ** Memory *)

(** All words of [len] bytes from [a] on are mapped. *)
Definition mapped (m : gmap Z Z) (a len : Z) : Prop :=
  forall w, a <= w < a + len -> (w - a) mod 8 = 0 -> is_Some (m !! w).

Lemma mapped_mono m m' a len : m ⊆ m' -> mapped m a len -> mapped m' a len.
Proof. intros Hm Ha w Hw Hal. destruct (Ha w Hw Hal) as [v Hv]. exists v. by eapply lookup_weaken. Qed.

Lemma load_run a v s : memory s !! a = Some v -> load a s = Some (v, s).
Proof. unfold load, ebind, egets, elift. by intros ->. Qed.

Lemma store_run a v s : is_Some (memory s !! a) ->
  store a v s = Some (tt, put_memory (<[a := v]> (memory s)) s).
Proof. intros [u Hu]. unfold store, ebind, egets, elift, emodify. by rewrite Hu. Qed.

Lemma load_magic_run N w s : memory s !! (N + 16) = Some w -> load_magic N s = Some (wrap 32 w, s).
Proof. intros Hw. unfold load_magic. by rewrite (ebind_run _ _ _ _ _ (load_run _ _ _ Hw)). Qed.

Lemma store_magic_run N v w s : memory s !! (N + 16) = Some w ->
  store_magic N v s = Some (tt, put_memory (<[N + 16 := w - wrap 32 w + v]> (memory s)) s).
Proof.
  intros Hw. unfold store_magic. rewrite (ebind_run _ _ _ _ _ (load_run _ _ _ Hw)).
  apply store_run. by exists w.
Qed.

Lemma wrap_magic w v : in_word 32 v -> wrap 32 (w - wrap 32 w + v) = v.
Proof.
  unfold in_word, wrap. intros Hv. rewrite <- (Z.mod_small v (2 ^ 32)) at 2 by done.
  rewrite (Z.div_mod w (2 ^ 32)) at 1 by lia.
  replace (2 ^ 32 * (w / 2 ^ 32) + w mod 2 ^ 32 - w mod 2 ^ 32 + v) with (v + (w / 2 ^ 32) * 2 ^ 32) by lia.
  by rewrite Z_mod_plus_full.
Qed.

Lemma page_words_mapped g a : mapped (page_words g a) a 4096.
Proof.
  intros w Hw Hal. destruct (page_words g a !! w) as [v|] eqn:E; [by eexists|]. exfalso.
  unfold page_words in E. apply not_elem_of_list_to_map_2 in E. apply E.
  apply list_elem_of_fmap. exists (w, g w). split; [done|].
  apply list_elem_of_fmap. exists (Z.to_nat ((w - a) / 8)). 
  pose proof (Z.div_mod (w - a) 8). assert (E8 : a + 8 * Z.of_nat (Z.to_nat ((w - a) / 8)) = w).
  { rewrite Z2Nat.id by (apply Z.div_pos; lia). lia. }
  split; [simpl; by rewrite E8|]. apply elem_of_seq. split; [lia|].
  apply Nat2Z.inj_lt. rewrite Z2Nat.id by (apply Z.div_pos; lia). lia.
Qed.

Lemma mapped_app m a l1 l2 : 0 <= l1 -> l1 mod 8 = 0 -> mapped m a l1 -> mapped m (a + l1) l2 -> mapped m a (l1 + l2).
Proof.
  intros H0 H8 H1 H2 w Hw Hal. destruct (Z.ltb_spec w (a + l1)); [apply H1; [lia | done]|].
  apply H2; [lia|]. rewrite <- Hal. rewrite <- (Z_mod_plus_full _ (l1 / 8) 8).
  f_equal. pose proof (Z.div_mod l1 8). lia.
Qed.

(** ** The bitmap *)

Lemma set_page_run e b c v s : m_SlabRegionBitmap s !! e = Some v ->
  set_bit e b c s = Some (tt, put_bitmap (<[e := if c then Z.lor v (Z.shiftl 1 (Z.of_nat b))
                                             else Z.ldiff v (Z.shiftl 1 (Z.of_nat b))]> (m_SlabRegionBitmap s)) s).
Proof. intros Hv. unfold set_bit, ebind, egets, elift, emodify. by rewrite Hv. Qed.

Lemma bit_pow b i : bit (Z.shiftl 1 (Z.of_nat b)) i = (i =? b)%nat.
Proof.
  unfold bit. rewrite Z.shiftl_1_l, Z.pow2_bits_eqb by lia.
  destruct (Nat.eqb_spec i b) as [->|H]; [apply Z.eqb_refl | apply Z.eqb_neq; lia].
Qed.

Lemma in_word_set v b : in_word 64 v -> (b < 64)%nat -> in_word 64 (Z.lor v (Z.shiftl 1 (Z.of_nat b))).
Proof.
  intros [H0 H1] Hb. assert (Hp : 0 <= Z.shiftl 1 (Z.of_nat b)) by (apply Z.shiftl_nonneg; lia).
  split; [by apply Z.lor_nonneg|].
  destruct (Z.eq_dec (Z.lor v (Z.shiftl 1 (Z.of_nat b))) 0) as [->|Hne]; [lia|].
  apply Z.log2_lt_cancel. rewrite Z.log2_lor by done. rewrite Z.log2_pow2 by lia.
  assert (Z.log2 (Z.shiftl 1 (Z.of_nat b)) < 64) by (rewrite Z.shiftl_1_l, Z.log2_pow2; lia).
  destruct (Z.eq_dec v 0) as [->|Hv]; [simpl; lia|].
  assert (Z.log2 v < 64) by (apply Z.log2_lt_pow2; lia). lia.
Qed.

Lemma used_set bm e b v p : bm !! e = Some v -> (b < 64)%nat ->
  used (<[e := Z.lor v (Z.shiftl 1 (Z.of_nat b))]> bm) p = used bm p || (p =? e * 64 + b)%nat.
Proof.
  intros Hv Hb. unfold used. pose proof (Nat.div_mod_eq p 64) as Hp.
  pose proof (Nat.mod_upper_bound p 64 ltac:(lia)).
  destruct (decide (p / 64 = e)%nat) as [E|E].
  - rewrite E, list_lookup_insert_eq by by eapply lookup_lt_Some. rewrite Hv.
    unfold bit at 1. rewrite Z.lor_spec. fold (bit v (p mod 64)) (bit (Z.shiftl 1 (Z.of_nat b)) (p mod 64)).
    rewrite bit_pow. f_equal. destruct (Nat.eqb_spec (p mod 64) b), (Nat.eqb_spec p (e * 64 + b)); lia.
  - rewrite list_lookup_insert_ne by done. rewrite (proj2 (Nat.eqb_neq p _)); [by rewrite orb_false_r|].
    intros ->. by destruct (page_entry e b Hb) as [? _].
Qed.

Lemma next_bit_page e b : (b < 64)%nat ->
  let (e', b') := next_bit e b in (b' < 64)%nat /\ (e' * 64 + b' = S (e * 64 + b))%nat.
Proof. intros Hb. unfold next_bit. destruct (Nat.leb_spec 64 (S b)); lia. Qed.

(** ** Taking and mapping pages *)

(** What the pages [p] to [p + n - 1] being taken leaves. *)
Record taken (p n : nat) (a : Z) (s s' : Slam) : Prop := {
  taken_memory : memory s ⊆ memory s';
  taken_mapped : mapped (memory s') a (4096 * Z.of_nat n);
  taken_word : Forall (in_word 64) (m_SlabRegionBitmap s) -> Forall (in_word 64) (m_SlabRegionBitmap s');
  taken_used q : used (m_SlabRegionBitmap s') q = used (m_SlabRegionBitmap s) q || ((p <=? q) && (q <? p + n))%nat;
  taken_caches : m_Caches s' = m_Caches s;
  taken_base : m_Base s' = m_Base s;
  taken_init : m_bInitialised s' = m_bInitialised s
}.

Lemma mark_pages_run garbage n e b a s :
  (b < 64)%nat -> free_pages (m_SlabRegionBitmap s) (e * 64 + b) n ->
  exists s', mark_pages garbage n e b a s = Some (tt, s') /\ taken (e * 64 + b) n a s s' /\
             m_HeapPageCount s' = m_HeapPageCount s.
Proof.
  revert e b a s. induction n as [|n IH]; intros e b a s Hb Hfree; simpl.
  - exists s. split; [done|]. split; [|done]. split; try done; [intros w Hw; lia|].
    intros q. rewrite (proj2 (andb_false_iff _ _)); [by rewrite orb_false_r|].
    rewrite Nat.leb_gt, Nat.ltb_ge. lia.
  - pose proof (Hfree 0%nat ltac:(lia)) as H0. rewrite Nat.add_0_r in H0.
    assert (Hv : exists v, m_SlabRegionBitmap s !! e = Some v).
    { unfold used in H0. destruct (page_entry e b Hb) as [He _]. rewrite He in H0.
      destruct (m_SlabRegionBitmap s !! e); [by eexists | done]. }
    destruct Hv as [v Hv]. rewrite (ebind_run _ _ _ _ _ (set_page_run e b true v s Hv)).
    pose proof (next_bit_page e b Hb) as Hn. destruct (next_bit e b) as [e' b']. destruct Hn as [Hb' Hp'].
    unfold ebind at 1, map_page, emodify. 
    set (s2 := put_memory _ _).
    destruct (IH e' b' (a + page_size) s2 Hb') as (s' & Hrun & Ht & Hc).
    { intros k Hk. subst s2. simpl. rewrite (used_set _ e b v) by done.
      rewrite Hp'. replace (S (e * 64 + b) + k)%nat with (e * 64 + b + S k)%nat by lia.
      rewrite Hfree by lia. simpl. apply Nat.eqb_neq. lia. }
    exists s'. split; [exact Hrun|]. split; [|exact Hc]. destruct Ht as [T1 T2 T3 T4 T5 T6 T7]. subst s2. simpl in *.
    split; try done.
    + etransitivity; [|exact T1]. apply map_union_subseteq_l.
    + replace (4096 * Z.of_nat (S n)) with (4096 + 4096 * Z.of_nat n) by lia.
      apply mapped_app; [lia | reflexivity | | exact T2].
      apply (mapped_mono _ _ _ _ T1). intros w Hw Hal.
      destruct (page_words_mapped garbage a w Hw Hal) as [u Hu].
      destruct (memory s !! w) as [x|] eqn:Ex; [exists x; by apply lookup_union_Some_l|].
      exists u. by rewrite lookup_union_r.
    + intros Hw. apply T3. apply Forall_insert; [done|]. apply in_word_set; [|done].
      rewrite Forall_forall in Hw. apply Hw. by eapply list_elem_of_lookup_2.
    + intros q. rewrite T4, (used_set _ e b v), Hp', <- orb_assoc by done. f_equal.
      destruct (Nat.eqb_spec q (e * 64 + b)), (Nat.leb_spec (S (e * 64 + b)) q), (Nat.ltb_spec q (S (e * 64 + b) + n)),
        (Nat.leb_spec (e * 64 + b) q), (Nat.ltb_spec q (e * 64 + b + S n)); simpl; lia.
Qed.

(** [getSlab] can serve [n] pages: its search finds a place that is free. *)
Definition place_for (bm : list Z) (n : nat) (p : nat) : Prop :=
  exists e b, find_place bm n = Some (Some (e, b)) /\ (2 <= n <= 64 -> Forall (unfragmented n) bm)%nat /\
              p = (e * 64 + b)%nat.

Lemma getSlab_run garbage n p s :
  Forall (in_word 64) (m_SlabRegionBitmap s) -> (1 <= n)%nat -> place_for (m_SlabRegionBitmap s) n p ->
  exists s', getSlab garbage (Z.of_nat n * 4096) s = Some (m_Base s + Z.of_nat p * 4096, s') /\
             taken p n (m_Base s + Z.of_nat p * 4096) s s' /\
             free_pages (m_SlabRegionBitmap s) p n /\
             m_HeapPageCount s' = wrap 64 (m_HeapPageCount s + Z.of_nat n).
Proof.
  intros Hw Hn (e & b & Hf & Hun & ->).
  destruct (search_sound _ n Hw Hn e b Hf Hun) as [Hb Hfree].
  unfold getSlab, page_size. rewrite Z.div_mul, Nat2Z.id by lia. unfold assert.
  rewrite (proj2 (Nat.eqb_neq _ _)) by lia. cbn [negb].
  estep ltac:(done). estep ltac:(done). unfold elift at 1. rewrite Hf. unfold ebind at 1. cbv iota beta.
  estep ltac:(done).
  replace (m_Base s + (Z.of_nat e * 64 + Z.of_nat b) * 4096) with (m_Base s + Z.of_nat (e * 64 + b) * 4096) by lia.
  destruct (mark_pages_run garbage n e b (m_Base s + Z.of_nat (e * 64 + b) * 4096) s Hb Hfree) as (s1 & Hrun & Ht & Hc).
  estep ltac:(exact Hrun). estep ltac:(done). eexists. split; [done|]. split_and!; [|done|by rewrite <- Hc].
  by destruct Ht.
Qed.

(** ** Objects *)

(** What an object is: in the hands of a client, of an operation in progress,
    or free. *)
Inductive status := Live | Held | Free.

#[global] Instance status_eq_dec : EqDecision status.
Proof. solve_decision. Defined.

(** The status of the object of cache [j] at an address. *)
Definition objects : Type := nat -> Z -> option status.

(** The objects of cache [j] in a list get a status. *)
Definition mark (j : nat) (l : list Z) (st : status) (D : objects) : objects :=
  fun i a => if decide (i = j /\ a ∈ l) then Some st else D i a.

Lemma mark_in j l st D a : a ∈ l -> mark j l st D j a = Some st.
Proof. intros Ha. unfold mark. by rewrite decide_True. Qed.

Lemma mark_out j l st D i a : ~ (i = j /\ a ∈ l) -> mark j l st D i a = D i a.
Proof. intros Ha. unfold mark. by rewrite decide_False. Qed.

Definition object_size (j : nat) : Z := 2 ^ Z.of_nat j.

Definition slab_size (j : nat) : Z := Z.max (object_size j) 4096.

(** The free list in memory. *)
Fixpoint chain (m : gmap Z Z) (l : list Z) : Prop :=
  match l with
  | [] => True
  | a :: l' => m !! a = Some (hd 0 l') /\ chain m l'
  end.

Lemma chain_frame m m' l : (forall a, a ∈ l -> m' !! a = m !! a) -> chain m l -> chain m' l.
Proof.
  induction l as [|a l IH]; intros Hf; simpl; [done|]. intros [Ha Hl]. split.
  - rewrite Hf; [done | apply elem_of_cons; auto].
  - apply IH; [|done]. intros b Hb. apply Hf, elem_of_cons. auto.
Qed.

Lemma object_size_ge j : (5 <= j)%nat -> 32 <= object_size j /\ object_size j mod 32 = 0.
Proof.
  intros Hj. unfold object_size. replace (Z.of_nat j) with (5 + (Z.of_nat j - 5)) by lia.
  rewrite Z.pow_add_r by lia. change (2 ^ 5) with 32.
  pose proof (Z.pow_pos_nonneg 2 (Z.of_nat j - 5) ltac:(lia) ltac:(lia)).
  split; [lia|]. rewrite Z.mul_comm. apply Z_mod_mult.
Qed.

(** The offset of the footer. *)
Lemma footer_offset j : (5 <= j)%nat -> 16 <= object_size j - 16 < object_size j /\ (object_size j - 16) mod 8 = 0.
Proof. intros Hj. pose proof (object_size_ge j Hj) as [H1 H2]. split; [lia|]. zlia. Qed.

Section Inv.
Context (heapStart heapEnd : Z) (cacheAddr : nat -> Z).

(** What memory says of the object of cache [j] at [a]. *)
Definition local (m : gmap Z Z) (j : nat) (a : Z) (st : status) : Prop :=
  match st with
  | Held => True
  | Free => exists w, m !! (a + 16) = Some w /\ wrap 32 w = MAGIC_VALUE
  | Live =>
      m !! a = Some VIGILANT_MAGIC /\ m !! (a + 8) = Some (cacheAddr j) /\
      m !! (a + object_size j - 16) = Some VIGILANT_MAGIC /\
      exists w, m !! (a + 16) = Some w /\ wrap 32 w <> MAGIC_VALUE
  end.

(** Where an object is. *)
Record placed (s : Slam) (j : nat) (a : Z) : Prop := {
  placed_cache : (5 <= j < 31)%nat;
  placed_base : m_Base s <= a;
  placed_end : a + object_size j <= heapEnd;
  placed_aligned : a mod 32 = 0;
  placed_mapped : mapped (memory s) a (object_size j);
  placed_used p : m_Base s + 4096 * Z.of_nat p < a + object_size j -> a < m_Base s + 4096 * (Z.of_nat p + 1) ->
                  used (m_SlabRegionBitmap s) p = true
}.

Record Inv (s : Slam) (D : objects) (F : nat -> list Z) : Prop := {
  inv_init : m_bInitialised s = true;
  inv_base : heapStart <= m_Base s /\ 0 < m_Base s /\ m_Base s mod 4096 = 0;
  inv_bitmap : Forall (in_word 64) (m_SlabRegionBitmap s);
  inv_caches j : (5 <= j < 32)%nat -> m_Caches s !! j = Some (mkCache (hd 0 (F j)) (object_size j) (slab_size j));
  inv_placed j a st : D j a = Some st -> placed s j a;
  inv_local j a st : D j a = Some st -> local (memory s) j a st;
  inv_apart i j a b : is_Some (D i a) -> is_Some (D j b) -> (i, a) <> (j, b) ->
                      a + object_size i <= b \/ b + object_size j <= a;
  inv_list j a : a ∈ F j <-> D j a = Some Free;
  inv_nodup j : NoDup (F j);
  inv_chain j : chain (memory s) (F j)
}.

(** The words of an object that the code looks at. *)
Definition covers (j : nat) (a w : Z) : Prop := a <= w < a + object_size j.

Lemma placed_word s j a k : placed s j a -> 0 <= k < object_size j -> k mod 8 = 0 -> is_Some (memory s !! (a + k)).
Proof. intros Hp Hk H8. apply (placed_mapped _ _ _ Hp); [lia|]. by replace (a + k - a) with k by lia. Qed.

Lemma local_frame m m' j a st : (5 <= j)%nat -> (forall w, covers j a w -> m' !! w = m !! w) ->
  local m j a st -> local m' j a st.
Proof.
  intros Hj Hf. pose proof (object_size_ge j Hj) as [H1 _]. unfold covers in Hf.
  destruct st; simpl; rewrite ?Hf by lia; done.
Qed.

Lemma object_nonzero s D F j a st : Inv s D F -> D j a = Some st -> a <> 0.
Proof. intros Hi Hd. pose proof (inv_placed _ _ _ Hi _ _ _ Hd) as [_ Hb _ _ _ _]. destruct (inv_base _ _ _ Hi). lia. Qed.

(** Memory changes within one object. *)
Lemma inv_within s D F j a st m :
  Inv s D F -> D j a = Some st ->
  (forall w, ~ covers j a w -> m !! w = memory s !! w) ->
  (forall w, is_Some (memory s !! w) -> is_Some (m !! w)) ->
  local m j a st -> (st = Free -> m !! a = memory s !! a) ->
  Inv (put_memory m s) D F.
Proof.
  intros Hi Hd Hframe Hdom Hloc Hnext. destruct Hi as [I1 I2 I3 I4 I5 I6 I7 I8 I9 I10].
  assert (Hother : forall i b st' w, D i b = Some st' -> (i, b) <> (j, a) -> covers i b w -> m !! w = memory s !! w).
  { intros i b st' w Hb Hne Hw. apply Hframe. intros Hc.
    destruct (I7 i j b a) as [H|H]; [by eexists | by eexists | done | |]; unfold covers in *; lia. }
  split; simpl; try done.
  - intros i b st' Hb. destruct (I5 i b st' Hb) as [P1 P2 P3 P4 P5 P6]. split; simpl; try done.
    intros w Hw Hal. by apply Hdom, P5.
  - intros i b st' Hb. destruct (decide ((i, b) = (j, a))) as [[= -> ->]|Hne]; [by simplify_eq|].
    apply (local_frame (memory s)); [by destruct (I5 i b st' Hb) as [? _ _ _ _ _]; lia | | by apply I6].
    intros w Hw. by eapply Hother.
  - intros i. apply (chain_frame (memory s)); [|done]. intros b Hb. apply I8 in Hb.
    destruct (decide ((i, b) = (j, a))) as [[= -> ->]|Hne]; [apply Hnext; by simplify_eq|].
    eapply Hother; [done..|]. destruct (I5 i b _ Hb) as [P1 _ _ _ _ _].
    destruct (object_size_ge i ltac:(lia)). unfold covers. lia.
Qed.

(** A store within one object. *)
Lemma inv_store s D F j a st k v :
  Inv s D F -> D j a = Some st -> 0 <= k < object_size j -> k mod 8 = 0 ->
  local (<[a + k := v]> (memory s)) j a st -> (st = Free -> 0 < k) ->
  store (a + k) v s = Some (tt, put_memory (<[a + k := v]> (memory s)) s) /\
  Inv (put_memory (<[a + k := v]> (memory s)) s) D F.
Proof.
  intros Hi Hd Hk H8 Hloc Hne. split.
  - apply store_run. eapply placed_word; [by eapply inv_placed | done..].
  - apply (inv_within s D F j a st); [done..| | |done|].
    + intros w Hw. apply lookup_insert_ne. intros <-. apply Hw. unfold covers. lia.
    + intros w Hw. destruct (decide (a + k = w)) as [<-|E]; [rewrite lookup_insert_eq; by eexists|].
      by rewrite lookup_insert_ne.
    + intros Hst. apply lookup_insert_ne. specialize (Hne Hst). lia.
Qed.

(** ** Changes of status *)

Definition fset (j : nat) (l : list Z) (F : nat -> list Z) : nat -> list Z :=
  fun i => if decide (i = j) then l else F i.

Lemma fset_eq j l F : fset j l F j = l.
Proof. unfold fset. by rewrite decide_True. Qed.

Lemma fset_ne j l F i : i <> j -> fset j l F i = F i.
Proof. intros H. unfold fset. by rewrite decide_False. Qed.

Lemma partial_run s D F j : Inv s D F -> (5 <= j < 32)%nat -> partial j s = Some (hd 0 (F j), s).
Proof.
  intros Hi Hj. unfold partial, cache, ebind, egets, elift, eret. by rewrite (inv_caches _ _ _ Hi j Hj).
Qed.

Lemma cache_run s D F j : Inv s D F -> (5 <= j < 32)%nat ->
  cache j s = Some (mkCache (hd 0 (F j)) (object_size j) (slab_size j), s).
Proof. intros Hi Hj. unfold cache, ebind, egets, elift. by rewrite (inv_caches _ _ _ Hi j Hj). Qed.

Definition with_partial (j : nat) (h : Z) (s : Slam) : Slam :=
  put_cache j (mkCache h (object_size j) (slab_size j)) s.

Lemma put_partial_run s D F j h : Inv s D F -> (5 <= j < 32)%nat ->
  put_partial j h s = Some (tt, with_partial j h s).
Proof. intros Hi Hj. unfold put_partial. estep ltac:(by eapply cache_run). done. Qed.

(** Whatever happens to the statuses of some objects of cache [j] and to its
    list, if the two agree and memory fits. *)
Lemma inv_mark s D F j l st fl :
  Inv s D F -> (5 <= j < 31)%nat ->
  (forall a, a ∈ l -> is_Some (D j a) /\ local (memory s) j a st) ->
  (forall a, a ∈ fl <-> mark j l st D j a = Some Free) -> NoDup fl -> chain (memory s) fl ->
  Inv (with_partial j (hd 0 fl) s) (mark j l st D) (fset j fl F).
Proof.
  intros Hi Hj Hl Hlist Hnd Hch. destruct Hi as [I1 I2 I3 I4 I5 I6 I7 I8 I9 I10].
  assert (Hsome : forall i a, is_Some (mark j l st D i a) -> is_Some (D i a)).
  { intros i a. unfold mark. case_decide as Hd; [|done]. destruct Hd as [-> Ha]. by destruct (Hl a Ha). }
  split; simpl; try done.
  - intros i Hij. destruct (decide (i = j)) as [->|Hne].
    + rewrite fset_eq, list_lookup_insert_eq; [done|]. by eapply lookup_lt_Some, I4.
    + rewrite fset_ne, list_lookup_insert_ne by congruence. by apply I4.
  - intros i a st' Hd. destruct (Hsome i a) as [st1 H1]; [by eexists|].
    destruct (I5 i a st1 H1) as [P1 P2 P3 P4 P5 P6]. by split.
  - intros i a st'. unfold mark. case_decide as Hd; [|apply I6]. destruct Hd as [-> Ha]. intros [= <-].
    by apply Hl.
  - intros i i' a b Ha Hb. apply I7; by apply Hsome.
  - intros i a. destruct (decide (i = j)) as [->|Hne]; [by rewrite fset_eq|].
    rewrite fset_ne, mark_out by (done || naive_solver). apply I8.
  - intros i. destruct (decide (i = j)) as [->|Hne]; [by rewrite fset_eq | by rewrite fset_ne].
  - intros i. destruct (decide (i = j)) as [->|Hne]; [by rewrite fset_eq | by rewrite fset_ne].
Qed.

Lemma with_partial_same s D F j : Inv s D F -> (5 <= j < 32)%nat -> with_partial j (hd 0 (F j)) s = s.
Proof.
  intros Hi Hj. unfold with_partial, put_cache. rewrite list_insert_id by by apply (inv_caches _ _ _ Hi). by destruct s.
Qed.

Lemma inv_fset s D F j : Inv s D (fset j (F j) F) -> Inv s D F.
Proof.
  assert (E : forall i, fset j (F j) F i = F i) by (intros i; unfold fset; by case_decide as H; [rewrite H|]).
  intros [I1 I2 I3 I4 I5 I6 I7 I8 I9 I10]. split; try done.
  - intros i Hi. rewrite <- E. by apply I4.
  - intros i a. rewrite <- E. apply I8.
  - intros i. rewrite <- E. apply I9.
  - intros i. rewrite <- E. apply I10.
Qed.

Lemma inv_pop s D F j N l : Inv s D F -> (5 <= j < 31)%nat -> F j = N :: l ->
  Inv (with_partial j (hd 0 l) s) (mark j [N] Held D) (fset j l F).
Proof.
  intros Hi Hj HF. pose proof (inv_nodup _ _ _ Hi j) as Hnd. pose proof (inv_chain _ _ _ Hi j) as Hch.
  rewrite HF in Hnd, Hch. inversion_clear Hnd as [|? ? HN Hl]. destruct Hch as [_ Hch].
  apply (inv_mark s D F j [N] Held l); try done.
  - intros a ->%list_elem_of_singleton. split; [|done]. exists Free. apply (inv_list _ _ _ Hi). rewrite HF. left.
  - intros a. unfold mark. case_decide as Hd.
    + destruct Hd as [_ ->%list_elem_of_singleton]. by split.
    + rewrite <- (inv_list _ _ _ Hi), HF, elem_of_cons. split; [auto|]. intros [->|]; [|done].
      exfalso. apply Hd. split; [done | by apply list_elem_of_singleton].
Qed.

Lemma inv_push s D F j l : Inv s D F -> (5 <= j < 31)%nat -> NoDup l ->
  (forall a, a ∈ l -> D j a = Some Held /\ local (memory s) j a Free) -> chain (memory s) (l ++ F j) ->
  Inv (with_partial j (hd 0 (l ++ F j)) s) (mark j l Free D) (fset j (l ++ F j) F).
Proof.
  intros Hi Hj Hnd Hl Hch. apply (inv_mark s D F j l Free); try done.
  - intros a Ha. destruct (Hl a Ha) as [Hh Hf]. split; [by eexists | done].
  - intros a. rewrite elem_of_app. unfold mark. case_decide as Hd; [naive_solver|].
    rewrite <- (inv_list _ _ _ Hi). naive_solver.
  - apply NoDup_app. split_and!; [done | | apply (inv_nodup _ _ _ Hi)].
    intros a Ha Hf%(inv_list _ _ _ Hi). destruct (Hl a Ha) as [Hh _]. congruence.
Qed.

Lemma inv_status s D F j a st st' : Inv s D F -> D j a = Some st -> st <> Free -> st' <> Free ->
  local (memory s) j a st' -> Inv s (mark j [a] st' D) F.
Proof.
  intros Hi Hd Hst Hst' Hloc. pose proof (inv_placed _ _ _ Hi _ _ _ Hd) as [Hj _ _ _ _ _].
  apply (inv_fset _ _ _ j). rewrite <- (with_partial_same s D F j) at 1 by (done || lia).
  apply inv_mark; try done.
  - intros b ->%list_elem_of_singleton. split; [by eexists | done].
  - intros b. unfold mark. case_decide as Hb.
    + destruct Hb as [_ ->%list_elem_of_singleton]. rewrite (inv_list _ _ _ Hi). split; congruence.
    + apply (inv_list _ _ _ Hi).
  - apply (inv_nodup _ _ _ Hi).
  - apply (inv_chain _ _ _ Hi).
Qed.
End Inv.
