(* ===== verification/SlamHeap.v ===== *)
(** * The operations of the kernel heap

    Every operation of SlamCache and SlamAllocator but the recovery keeps the
    invariant and leaves the words of the live objects alone; the claim puts
    together what that means to the clients of the heap. *)
From Stdlib Require Import ZArith Lia List Bool.
From stdpp Require Import base gmap list.
From S2P Require Import Prelude Slam SlamSearch SlamInv.
Import ListNotations.
Local Open Scope Z_scope.
Local Open Scope err_scope.
#[local] Set Warnings "-clear-no-such-hyp".

(** ** New slabs *)

(** The objects of a slab of cache [j], from number [i] on. *)
Definition nth_object (j : nat) (slab : Z) (k : nat) : Z := slab + Z.of_nat k * object_size j.

Definition slab_objects (j : nat) (slab : Z) (i n : nat) : list Z := map (nth_object j slab) (seq i n).

Definition object_count (j : nat) : nat := Z.to_nat (slab_size j / object_size j).

Definition slab_pages (j : nat) : nat := Z.to_nat (slab_size j / 4096).

Lemma slab_objects_in j slab i n a :
  a ∈ slab_objects j slab i n <-> exists k, (i <= k < i + n)%nat /\ a = nth_object j slab k.
Proof.
  unfold slab_objects. rewrite list_elem_of_fmap. split.
  - intros (k & -> & Hk%elem_of_seq). by exists k.
  - intros (k & Hk & ->). exists k. by rewrite elem_of_seq.
Qed.

Lemma nth_object_inj j slab k k' : (5 <= j)%nat -> nth_object j slab k = nth_object j slab k' -> k = k'.
Proof. intros Hj. destruct (object_size_ge j Hj). unfold nth_object. nia. Qed.

Lemma slab_objects_nodup j slab i n : (5 <= j)%nat -> NoDup (slab_objects j slab i n).
Proof.
  intros Hj. apply NoDup_fmap_2_strong; [|apply NoDup_seq].
  intros k k' _ _. by apply nth_object_inj.
Qed.

Lemma pow_4096 : 4096 = 2 ^ 12.
Proof. reflexivity. Qed.

Lemma slab_sizes j : (5 <= j)%nat ->
  slab_size j = Z.of_nat (object_count j) * object_size j /\ (1 <= object_count j)%nat /\
  slab_size j = Z.of_nat (slab_pages j) * 4096 /\ (1 <= slab_pages j)%nat.
Proof.
  intros Hj. destruct (object_size_ge j Hj) as [Hge _]. unfold object_count, slab_pages, slab_size.
  set (q := Z.of_nat j). assert (Hq : 5 <= q) by lia. unfold object_size in *. fold q in Hge |- *.
  destruct (Z.le_gt_cases q 12) as [H|H].
  - assert (E : 4096 = 2 ^ (12 - q) * 2 ^ q) by (rewrite <- Z.pow_add_r by lia; rewrite pow_4096; f_equal; lia).
    pose proof (Z.pow_pos_nonneg 2 (12 - q) ltac:(lia) ltac:(lia)).
    assert (Hd : 4096 / 2 ^ q = 2 ^ (12 - q)) by (rewrite E; apply Z.div_mul; lia).
    rewrite Z.max_r by nia. change (4096 / 4096) with 1. rewrite Hd, Z2Nat.id by lia. split_and!; lia.
  - assert (E : 2 ^ q = 2 ^ (q - 12) * 4096) by (rewrite pow_4096, <- Z.pow_add_r by lia; f_equal; lia).
    pose proof (Z.pow_pos_nonneg 2 (q - 12) ltac:(lia) ltac:(lia)).
    rewrite Z.max_l by lia. rewrite Z.div_same by lia. change (Z.to_nat 1) with 1%nat.
    assert (Hd : 2 ^ q / 4096 = 2 ^ (q - 12)) by (rewrite E; apply Z.div_mul; lia).
    rewrite Hd, Z2Nat.id by lia. split_and!; lia.
Qed.

Section Heap.
Context (garbage : Z -> Z) (heapStart heapEnd : Z) (cacheAddr : nat -> Z).
Abbreviation Inv := (Inv heapStart heapEnd cacheAddr).
Abbreviation local := (local cacheAddr).
Abbreviation placed := (placed heapEnd).

(** The page of an address. *)
Lemma page_of base w : base <= w -> exists p, base + 4096 * Z.of_nat p <= w < base + 4096 * (Z.of_nat p + 1).
Proof.
  intros Hw. exists (Z.to_nat ((w - base) / 4096)). pose proof (Z.div_mod (w - base) 4096).
  pose proof (Z.mod_pos_bound (w - base) 4096). rewrite Z2Nat.id by (apply Z.div_pos; lia). lia.
Qed.

(** An object and free pages do not overlap. *)
Lemma placed_not_free s i a p n : (0 < n)%nat -> placed s i a -> free_pages (m_SlabRegionBitmap s) p n ->
  a + object_size i <= m_Base s + 4096 * Z.of_nat p \/ m_Base s + 4096 * Z.of_nat (p + n) <= a.
Proof.
  intros Hn [P1 P2 P3 P4 P5 P6] Hfree. destruct (object_size_ge i ltac:(lia)) as [Hsz _].
  destruct (Z.le_gt_cases (a + object_size i) (m_Base s + 4096 * Z.of_nat p)) as [?|H1]; [by left|].
  destruct (Z.le_gt_cases (m_Base s + 4096 * Z.of_nat (p + n)) a) as [?|H2]; [by right|]. exfalso.
  destruct (page_of (m_Base s) (Z.max a (m_Base s + 4096 * Z.of_nat p)) ltac:(lia)) as [q Hq].
  pose proof (P6 q ltac:(lia) ltac:(lia)) as Hu. replace q with (p + (q - p))%nat in Hu by lia.
  rewrite Hfree in Hu by lia. done.
Qed.

(** Taking pages keeps what is there, *)
Lemma taken_placed p n a s s' i b : taken p n a s s' -> placed s i b -> placed s' i b.
Proof.
  intros [T1 T2 T3 T4 T5 T6 T7] [P1 P2 P3 P4 P5 P6]. split; rewrite ?T6; try done.
  - by apply (mapped_mono (memory s)).
  - intros q H1 H2. by rewrite T4, P6.
Qed.

Lemma taken_inv p n a s s' D F : taken p n a s s' -> Inv s D F -> Inv s' D F.
Proof.
  intros Ht Hi. pose proof Ht as [T1 T2 T3 T4 T5 T6 T7]. destruct Hi as [I1 I2 I3 I4 I5 I6 I7 I8 I9 I10].
  assert (Hmem : forall w, is_Some (memory s !! w) -> memory s' !! w = memory s !! w).
  { intros w [x Hx]. rewrite Hx. by eapply lookup_weaken. }
  split; rewrite ?T5, ?T6, ?T7; try done; [by apply T3 | | |].
  - intros i b st Hd. by eapply taken_placed, I5.
  - intros i b st Hd. pose proof (I6 i b st Hd) as Hloc. destruct st; simpl in *; [|done|].
    + destruct Hloc as (H1 & H2 & H3 & x & H4 & H5). split_and!; [by eapply lookup_weaken..|].
      exists x. split; [by eapply lookup_weaken | done].
    + destruct Hloc as (x & H4 & H5). exists x. split; [by eapply lookup_weaken | done].
  - intros i. specialize (I10 i). revert I10. generalize (F i). induction l as [|b l IH]; simpl; [done|].
    intros [Hb Hl]. split; [by eapply lookup_weaken | by apply IH].
Qed.

(** and makes room for the objects of a slab. *)
Lemma inv_new s s' D F j p : (5 <= j < 31)%nat ->
  let slab := m_Base s + Z.of_nat p * 4096 in
  taken p (slab_pages j) slab s s' -> Inv s D F -> free_pages (m_SlabRegionBitmap s) p (slab_pages j) ->
  slab + slab_size j <= heapEnd ->
  Inv s' (mark j (slab_objects j slab 0 (object_count j)) Held D) F /\
  (forall k, (k < object_count j)%nat -> D j (nth_object j slab k) = None).
Proof.
  intros Hj slab Ht Hi Hfree Hend. pose proof (taken_inv _ _ _ _ _ _ _ Ht Hi) as Hi'.
  destruct (slab_sizes j ltac:(lia)) as (Hs1 & Hc1 & Hs2 & Hp1). destruct (object_size_ge j ltac:(lia)) as [Hsz Hmod].
  assert (Hin : forall k, (k < object_count j)%nat ->
            slab <= nth_object j slab k /\ nth_object j slab k + object_size j <= slab + slab_size j).
  { intros k Hk. unfold nth_object. rewrite Hs1. nia. }
  assert (Hapart : forall i b k, is_Some (D i b) -> (k < object_count j)%nat ->
            b + object_size i <= nth_object j slab k \/ nth_object j slab k + object_size j <= b).
  { intros i b k [st Hb] Hk. destruct (placed_not_free s i b p (slab_pages j)) as [H|H]; [lia | by eapply inv_placed | done | |];
      destruct (Hin k Hk); subst slab; [left | right]; lia. }
  assert (Hnone : forall k, (k < object_count j)%nat -> D j (nth_object j slab k) = None).
  { intros k Hk. destruct (D j (nth_object j slab k)) eqn:E; [|done].
    destruct (Hapart j (nth_object j slab k) k) as [H|H]; [by eexists | done | lia | lia]. }
  split; [|done]. pose proof Ht as [T1 T2 T3 T4 T5 T6 T7].
  destruct (inv_base _ _ _ _ _ _ Hi) as (Hb1 & Hb2 & Hb3).
  destruct Hi' as [I1 I2 I3 I4 I5 I6 I7 I8 I9 I10]. split; try done.
  - intros i b st. unfold mark. case_decide as Hd; [|apply I5]. destruct Hd as [-> Hb%slab_objects_in].
    destruct Hb as (k & Hk & ->). intros _. destruct (Hin k ltac:(lia)) as [H1 H2]. split.
    + done.
    + rewrite T6. subst slab. lia.
    + lia.
    + unfold nth_object. subst slab. zlia.
    + intros w Hw Hal. apply T2; [rewrite Hs2 in H2; lia|]. unfold nth_object in Hal.
      replace (w - slab) with ((w - (slab + Z.of_nat k * object_size j)) + Z.of_nat k * (object_size j / 32) * 4 * 8) by zlia.
      by rewrite Z_mod_plus_full.
    + intros q Hq1 Hq2. rewrite T4. rewrite T6 in Hq1, Hq2. rewrite Hs2 in H2. subst slab.
      apply orb_true_iff. right. apply andb_true_iff. rewrite Nat.leb_le, Nat.ltb_lt. lia.
  - intros i b st. unfold mark. case_decide as Hd; [by intros [= <-] | apply I6].
  - assert (Hsome : forall i b, is_Some (mark j (slab_objects j slab 0 (object_count j)) Held D i b) ->
      (i = j /\ exists k, (k < object_count j)%nat /\ b = nth_object j slab k) \/ is_Some (D i b)).
    { intros i b. unfold mark. case_decide as Hd; [|by right]. destruct Hd as [-> Hb%slab_objects_in].
      destruct Hb as (k & Hk & ->). intros _. left. split; [done|]. exists k. split; [lia | done]. }
    intros i i' b b' [(-> & k & Hk & ->)|Hb]%Hsome [(-> & k' & Hk' & ->)|Hb']%Hsome Hne.
    + assert (Hkk : k <> k') by congruence. unfold nth_object. destruct (Nat.lt_total k k') as [H|[H|H]]; [left | done | right]; nia.
    + destruct (Hapart i' b' k Hb' Hk); [by right | by left].
    + by apply Hapart.
    + by apply I7.
  - intros i b. rewrite I8. unfold mark. case_decide as Hd; [|done]. destruct Hd as [-> Hb%slab_objects_in].
    destruct Hb as (k & Hk & ->). rewrite Hnone by lia. done.
Qed.

(** ** The free list of a new slab *)

Lemma held_store s D F j a k w v : Inv s D F -> D j a = Some Held -> w = a + k -> 0 <= k < object_size j -> k mod 8 = 0 ->
  store w v s = Some (tt, put_memory (<[w := v]> (memory s)) s) /\ Inv (put_memory (<[w := v]> (memory s)) s) D F.
Proof. intros Hi Hd -> Hk H8. by apply (inv_store _ _ _ s D F j a Held k v). Qed.

Lemma held_word s D F j a st k : Inv s D F -> D j a = Some st -> 0 <= k < object_size j -> k mod 8 = 0 ->
  is_Some (memory s !! (a + k)).
Proof. intros Hi Hd. apply (placed_word heapEnd). by eapply inv_placed. Qed.

Lemma held_store_magic s D F j a v : Inv s D F -> D j a = Some Held -> in_word 32 v -> (5 <= j)%nat ->
  exists w, store_magic a v s = Some (tt, put_memory (<[a + 16 := w]> (memory s)) s) /\ wrap 32 w = v /\
            Inv (put_memory (<[a + 16 := w]> (memory s)) s) D F.
Proof.
  intros Hi Hd Hv Hj. destruct (object_size_ge j Hj) as [Hsz _].
  destruct (held_word s D F j a Held 16 Hi Hd ltac:(lia) eq_refl) as [x Hx].
  eexists. split_and!; [by apply store_magic_run | by apply wrap_magic|].
  by destruct (held_store s D F j a 16 (a + 16) (x - wrap 32 x + v) Hi Hd eq_refl ltac:(lia) eq_refl).
Qed.

Lemma magic_word v : v = MAGIC_VALUE \/ v = TEMP_MAGIC -> in_word 32 v.
Proof. unfold in_word. intros [->| ->]; vm_compute; split; congruence. Qed.

Definition next_object (j : nat) (slab : Z) (n k : nat) : Z := if (n <=? k + 1)%nat then 0 else nth_object j slab (k + 1).

Lemma init_node_run s D F j slab n k : Inv s D F -> (5 <= j < 31)%nat -> D j (nth_object j slab k) = Some Held ->
  exists m, init_node slab (object_size j) n k s = Some (tt, put_memory m s) /\ Inv (put_memory m s) D F /\
    m !! nth_object j slab k = Some (next_object j slab n k) /\
    local m j (nth_object j slab k) Free /\
    (forall w, ~ covers j (nth_object j slab k) w -> m !! w = memory s !! w).
Proof.
  intros Hi Hj Hd. destruct (object_size_ge j ltac:(lia)) as [Hsz _].
  unfold init_node. cbv zeta beta. fold (nth_object j slab k) (nth_object j slab (k + 1)) (nth_object j slab (k - 1)).
  fold (next_object j slab n k). set (a := nth_object j slab k) in *.
  destruct (held_store s D F j a 0 a (next_object j slab n k) Hi Hd ltac:(lia) ltac:(lia) eq_refl) as [R1 I1].
  estep ltac:(exact R1).
  destruct (held_store _ _ _ j a 8 (a + 8) (if (k =? 1)%nat then 0 else nth_object j slab (k - 1)) I1 Hd eq_refl ltac:(lia) eq_refl) as [R2 I2].
  estep ltac:(exact R2).
  destruct (held_store_magic _ _ _ j a MAGIC_VALUE I2 Hd) as (w & R3 & Hw & I3); [apply magic_word; by left | lia|].
  eexists. split; [exact R3|]. split; [exact I3|]. simpl. split_and!.
  - rewrite !lookup_insert_ne by lia. apply lookup_insert_eq.
  - exists w. by rewrite lookup_insert_eq.
  - intros x Hx. unfold covers in Hx. by rewrite !lookup_insert_ne by lia.
Qed.

Lemma objects_apart j slab k k' w : (5 <= j)%nat -> k <> k' -> covers j (nth_object j slab k) w ->
  ~ covers j (nth_object j slab k') w.
Proof.
  intros Hj Hk. destruct (object_size_ge j Hj) as [Hsz _]. unfold covers, nth_object. intros H1 H2.
  destruct (Nat.lt_total k k') as [H|[H|H]]; nia.
Qed.

Lemma init_nodes_run js s D F j slab n : Inv s D F -> (5 <= j < 31)%nat -> NoDup js ->
  (forall k, k ∈ js -> D j (nth_object j slab k) = Some Held) ->
  exists m, init_nodes slab (object_size j) n js s = Some (tt, put_memory m s) /\ Inv (put_memory m s) D F /\
    (forall k, k ∈ js -> m !! nth_object j slab k = Some (next_object j slab n k) /\
                         local m j (nth_object j slab k) Free) /\
    (forall w, (forall k, k ∈ js -> ~ covers j (nth_object j slab k) w) -> m !! w = memory s !! w).
Proof.
  revert s. induction js as [|k js IH]; intros s Hi Hj Hnd Hd; simpl.
  - exists (memory s). replace (put_memory (memory s) s) with s by by destruct s.
    split_and!; try done. by intros k ?%not_elem_of_nil.
  - inversion_clear Hnd as [|? ? Hk Hnd'].
    destruct (init_node_run s D F j slab n k Hi Hj) as (m1 & R1 & I1 & N1 & L1 & F1); [apply Hd; left|].
    estep ltac:(exact R1).
    destruct (IH (put_memory m1 s) I1 Hj Hnd') as (m2 & R2 & I2 & N2 & F2); [intros; apply Hd; by right|].
    exists m2. split; [exact R2|]. split; [exact I2|]. split.
    + assert (Hkeep : forall w, covers j (nth_object j slab k) w -> m2 !! w = m1 !! w).
      { intros w Hw. rewrite F2; [done|]. intros k' Hk'. apply (objects_apart j slab k); [lia | | done]. congruence. }
      destruct (object_size_ge j ltac:(lia)) as [Hsz _].
      intros k' [->|Hk']%elem_of_cons; [|by apply N2]. split.
      * rewrite Hkeep; [done | unfold covers; lia].
      * by apply (local_frame cacheAddr m1 m2 j _ Free); [lia | |].
    + intros w Hw. rewrite F2 by (intros; apply Hw; by right). apply F1, Hw. left.
Qed.

(** Objects linked in order, before the list that was there. *)
Lemma chain_objects m j slab i c fl :
  (forall k, (i <= k < i + c)%nat ->
     m !! nth_object j slab k = Some (if (k + 1 =? i + c)%nat then hd 0 fl else nth_object j slab (k + 1))) ->
  chain m fl -> chain m (slab_objects j slab i c ++ fl).
Proof.
  revert i. induction c as [|c IH]; intros i Hm Hfl; [done|]. simpl. split.
  - rewrite Hm by lia. f_equal. destruct (Nat.eqb_spec (i + 1) (i + S c)) as [E|E].
    + replace c with 0%nat by lia. done.
    + destruct c as [|c]; [lia|]. simpl. f_equal. f_equal. lia.
  - apply IH; [|done]. intros k Hk. rewrite Hm by lia. by replace (i + S c)%nat with (S i + c)%nat by lia.
Qed.

(** ** Allocation from a cache *)

(** The words of the live objects are as they were. *)
Definition live_kept (D : objects) (s s' : Slam) : Prop :=
  forall i a w, D i a = Some Live -> covers i a w -> is_Some (memory s !! w) -> memory s' !! w = memory s !! w.

(** The same objects are live. *)
Definition live_same (D D' : objects) : Prop := forall i a, D i a = Some Live <-> D' i a = Some Live.

Record allocated (D : objects) (j : nat) (N : Z) (s s' : Slam) : Prop := {
  allocated_inv : exists D' F', Inv s' D' F' /\ D' j N = Some Held /\ live_same D D';
  allocated_magic : exists w, memory s' !! (N + 16) = Some w /\ wrap 32 w = TEMP_MAGIC;
  allocated_kept : live_kept D s s'
}.

Lemma live_same_mark j l st D : st <> Live -> (forall a, a ∈ l -> D j a <> Some Live) -> live_same D (mark j l st D).
Proof.
  intros Hst Hl i a. unfold mark. case_decide as Hd; [|done]. destruct Hd as [-> Ha]. split; [|congruence].
  intros H. by destruct (Hl a Ha).
Qed.

(** Objects with different statuses do not share words. *)
Lemma apart_word s D F i a st j b st' w : Inv s D F -> D i a = Some st -> D j b = Some st' -> st <> st' ->
  covers i a w -> ~ covers j b w.
Proof.
  intros Hi Ha Hb Hne Hw Hw'. destruct (inv_apart _ _ _ _ _ _ Hi i j a b) as [H|H]; [by eexists | by eexists | | |].
  - intros [= <- <-]. congruence.
  - unfold covers in *. lia.
  - unfold covers in *. lia.
Qed.

Lemma head_free s D F j : Inv s D F -> hd 0 (F j) <> 0 -> D j (hd 0 (F j)) = Some Free.
Proof. intros Hi Hne. apply (inv_list _ _ _ _ _ _ Hi). destruct (F j); [done | left]. Qed.

(** The link back from the old head of the list. *)
Lemma link_back s D F j h v : Inv s D F -> (5 <= j)%nat -> (h <> 0 -> D j h = Some Free) ->
  exists m, ewhen (negb (h =? 0)) (store (h + 8) v) s = Some (tt, put_memory m s) /\ Inv (put_memory m s) D F /\
            (forall w, ~ (h <> 0 /\ covers j h w) \/ w = h + 16 -> m !! w = memory s !! w).
Proof.
  intros Hi Hj Hh. destruct (Z.eqb_spec h 0) as [E|E]; cbn [negb ewhen].
  - exists (memory s). replace (put_memory (memory s) s) with s by by destruct s. by split_and!.
  - destruct (object_size_ge j Hj) as [Hsz _]. specialize (Hh E).
    destruct (inv_store _ _ _ s D F j h Free 8 v Hi Hh ltac:(lia) eq_refl) as [R I].
    + destruct (inv_local _ _ _ _ _ _ Hi _ _ _ Hh) as (w & Hw & Hm). exists w. by rewrite lookup_insert_ne by lia.
    + lia.
    + eexists. split_and!; [exact R | exact I|]. intros w Hw. apply lookup_insert_ne. intros <-.
      destruct Hw as [Hw|Hw]; [|lia]. apply Hw. split; [done|]. unfold covers. lia.
Qed.

Lemma nth_object_0 j slab : nth_object j slab 0 = slab.
Proof. unfold nth_object. lia. Qed.

(** A new slab becomes the front of the list of its cache. *)
Lemma link_slab s D F j slab n : Inv s D F -> (5 <= j < 31)%nat -> (2 <= n)%nat ->
  (forall k, (k < n)%nat -> D j (nth_object j slab k) = Some Held) ->
  (forall k, (1 <= k < n)%nat -> memory s !! nth_object j slab k = Some (next_object j slab n k) /\
                                 local (memory s) j (nth_object j slab k) Free) ->
  exists s', (store (nth_object j slab (n - 1)) (hd 0 (F j)) ;;
              put_partial j (nth_object j slab 1) ;;
              ewhen (negb (hd 0 (F j) =? 0)) (store (hd 0 (F j) + 8) (nth_object j slab (n - 1)))) s = Some (tt, s') /\
    (exists F', Inv s' (mark j (slab_objects j slab 1 (n - 1)) Free D) F') /\
    (forall w, ~ covers j (nth_object j slab (n - 1)) w -> ~ (hd 0 (F j) <> 0 /\ covers j (hd 0 (F j)) w) ->
               memory s' !! w = memory s !! w).
Proof.
  intros Hi Hj Hn Hd Hnodes. destruct (object_size_ge j ltac:(lia)) as [Hsz _]. set (h := hd 0 (F j)).
  set (pLast := nth_object j slab (n - 1)). pose proof (Hd (n - 1)%nat ltac:(lia)) as Hlast. fold pLast in Hlast.
  destruct (held_store s D F j pLast 0 pLast h Hi Hlast ltac:(lia) ltac:(lia) eq_refl) as [R1 I1].
  estep ltac:(exact R1). set (m1 := <[pLast := h]> (memory s)) in *.
  estep ltac:(apply (put_partial_run _ _ _ _ D F j _ I1); lia).
  assert (Hch : chain m1 (slab_objects j slab 1 (n - 1) ++ F j)).
  { apply chain_objects.
    - intros k Hk. destruct (Hnodes k ltac:(lia)) as [Hk1 _]. unfold next_object in Hk1.
      destruct (Nat.eqb_spec (k + 1) (1 + (n - 1))) as [E|E].
      + replace k with (n - 1)%nat by lia. apply lookup_insert_eq.
      + subst m1 pLast. rewrite lookup_insert_ne by (intros E'; apply nth_object_inj in E'; lia).
        rewrite Hk1. rewrite (proj2 (Nat.leb_gt _ _)) by lia. done.
    - apply (chain_frame (memory s)); [|apply (inv_chain _ _ _ _ _ _ Hi)].
      intros b Hb%(inv_list _ _ _ _ _ _ Hi). apply lookup_insert_ne. intros <-. congruence. }
  pose proof (inv_push _ _ _ _ D F j (slab_objects j slab 1 (n - 1)) I1 Hj) as I2.
  replace (hd 0 (slab_objects j slab 1 (n - 1) ++ F j)) with (nth_object j slab 1) in I2
    by (replace (n - 1)%nat with (S (n - 2)) by lia; done).
  specialize (I2 (slab_objects_nodup j slab 1 (n - 1) ltac:(lia))).
  assert (Hobj : forall a, a ∈ slab_objects j slab 1 (n - 1) -> D j a = Some Held /\ local m1 j a Free).
  { intros a (k & Hk & ->)%slab_objects_in. split; [apply Hd; lia|].
    destruct (Hnodes k ltac:(lia)) as [_ (w & Hw & Hm)]. exists w. split; [|done].
    subst m1. rewrite lookup_insert_ne; [done|]. intros E.
    assert (Hkn : k = (n - 1)%nat \/ k <> (n - 1)%nat) by lia. destruct Hkn as [->|Hkn]; [subst pLast; lia|].
    apply (objects_apart j slab (n - 1) k pLast); [lia | done | |]; unfold covers; fold pLast; lia. }
  specialize (I2 Hobj Hch).
  assert (Hh : h <> 0 -> mark j (slab_objects j slab 1 (n - 1)) Free D j h = Some Free).
  { intros Hne. pose proof (head_free s D F j Hi Hne) as Hf. unfold mark. case_decide; done. }
  destruct (link_back _ _ _ j h pLast I2 ltac:(lia) Hh) as (m2 & R2 & I3 & K2).
  eexists. split; [exact R2|]. split; [by eexists|]. intros w Hw Hwh. simpl. rewrite K2 by by left. simpl.
  apply lookup_insert_ne. intros <-. apply Hw. unfold covers. lia.
Qed.

Lemma initialiseSlab_run s D F j slab : Inv s D F -> (5 <= j < 31)%nat ->
  (forall k, (k < object_count j)%nat -> D j (nth_object j slab k) = Some Held) ->
  exists s', initialiseSlab j slab s = Some (slab, s') /\ allocated D j slab s s'.
Proof.
  intros Hi Hj Hd. destruct (slab_sizes j ltac:(lia)) as (_ & Hc & _ & _). destruct (object_size_ge j ltac:(lia)) as [Hsz _].
  set (n := object_count j) in *. unfold initialiseSlab. estep ltac:(apply (cache_run _ _ _ s D F j Hi); lia).
  cbn [m_ObjectSize m_SlabSize]. fold (object_count j). fold n.
  destruct (init_nodes_run (seq 1 (n - 1)) s D F j slab n Hi Hj) as (m1 & R1 & I1 & N1 & K1);
    [apply NoDup_seq | intros k Hk%elem_of_seq; apply Hd; lia|].
  estep ltac:(exact R1). pose proof (Hd 0%nat ltac:(lia)) as Hslab. rewrite nth_object_0 in Hslab.
  destruct (held_store_magic _ D F j slab TEMP_MAGIC I1 Hslab) as (x & R2 & Hx & I2); [apply magic_word; by right | lia|].
  estep ltac:(exact R2). simpl in I2.
  set (m2 := <[slab + 16 := x]> m1) in *. change (put_memory m2 (put_memory m1 s)) with (put_memory m2 s) in *.
  assert (Hout : forall i b w, D i b = Some Live -> covers i b w -> forall k, (k < n)%nat -> ~ covers j (nth_object j slab k) w).
  { intros i b w Hb Hw k Hk. eapply (apart_word s D F i b Live j); [done | done | by apply Hd | done | done]. }
  assert (Hm2 : forall i b w, D i b = Some Live -> covers i b w -> m2 !! w = memory s !! w).
  { intros i b w Hb Hw. pose proof (Hout i b w Hb Hw) as Ho. subst m2. rewrite lookup_insert_ne.
    - apply K1. intros k Hk%elem_of_seq. apply Ho. lia.
    - intros <-. apply (Ho 0%nat ltac:(lia)). rewrite nth_object_0. unfold covers. lia. }
  destruct (Nat.leb_spec 2 n) as [Hn|Hn].
  2: { estep ltac:(done). eexists. split; [done|]. split.
       - exists D, F. by split_and!.
       - exists x. split; [apply lookup_insert_eq | done].
       - intros i b w Hb Hw _. by eapply Hm2. }
  rewrite ebind_assoc. estep ltac:(apply (partial_run _ _ _ _ D F j I2); lia).
  fold (nth_object j slab (n - 1)).
  replace (slab + object_size j) with (nth_object j slab 1) by (unfold nth_object; lia).
  destruct (link_slab _ D F j slab n I2 Hj Hn Hd) as (s' & R3 & (F' & I3) & K3).
  { intros k Hk. assert (Hin : k ∈ seq 1 (n - 1)) by (apply elem_of_seq; lia). destruct (N1 k Hin) as [Hk1 Hk2].
    assert (Hkeep : forall w, covers j (nth_object j slab k) w -> m2 !! w = m1 !! w).
    { intros w Hw. apply lookup_insert_ne. intros <-. apply (objects_apart j slab k 0) in Hw; [|lia..].
      apply Hw. rewrite nth_object_0. unfold covers. lia. }
    split; [simpl; rewrite Hkeep; [done | unfold covers; lia]|].
    by apply (local_frame cacheAddr m1 m2 j _ Free); [lia | |]. }
  estep ltac:(exact R3). exists s'. split; [done|]. split.
  - eexists _, F'. split; [exact I3|]. split.
    + rewrite mark_out; [done|]. intros [_ (k & Hk & E)%slab_objects_in]. 
      assert (E' : nth_object j slab 0 = nth_object j slab k) by by rewrite nth_object_0.
      apply nth_object_inj in E'; lia.
    + apply live_same_mark; [done|]. intros b (k & Hk & ->)%slab_objects_in. rewrite Hd by lia. done.
  - exists x. split; [|done]. rewrite K3; [apply lookup_insert_eq | |].
    + intros Hw. apply (objects_apart j slab (n - 1) 0) in Hw; [|lia..]. apply Hw. rewrite nth_object_0. unfold covers. lia.
    + intros [Hne Hw]. pose proof (head_free s D F j Hi Hne) as Hf.
      eapply (apart_word s D F j _ Free j slab Held); [done..|]. unfold covers. lia.
  - intros i b w Hb Hw _. rewrite K3; [by eapply Hm2 | |].
    + eapply Hout; [done..|lia].
    + intros [Hne Hw']. pose proof (head_free s D F j Hi Hne) as Hf.
      by eapply (apart_word s D F i b Live j); [| | exact Hf | | |].
Qed.

(** Room for an object of cache [j]: one on the list, or pages for a slab. *)
Definition room (s : Slam) (j : nat) : Prop :=
  (exists c, m_Caches s !! j = Some c /\ m_PartialList c <> 0) \/
  (exists p, place_for (m_SlabRegionBitmap s) (slab_pages j) p /\
             m_Base s + Z.of_nat p * 4096 + slab_size j <= heapEnd).

Lemma new_slab_run s D F j p : Inv s D F -> (5 <= j < 31)%nat ->
  place_for (m_SlabRegionBitmap s) (slab_pages j) p -> m_Base s + Z.of_nat p * 4096 + slab_size j <= heapEnd ->
  exists N s', new_slab garbage j s = Some (N, s') /\ allocated D j N s s'.
Proof.
  intros Hi Hj Hp Hend. destruct (slab_sizes j ltac:(lia)) as (_ & _ & Hs & Hpg). unfold new_slab.
  estep ltac:(apply (cache_run _ _ _ s D F j Hi); lia). cbn [m_SlabSize]. rewrite Hs.
  destruct (getSlab_run garbage (slab_pages j) p s (inv_bitmap _ _ _ _ _ _ Hi) Hpg Hp) as (s1 & R1 & Ht & Hfree & _).
  estep ltac:(exact R1). set (slab := m_Base s + Z.of_nat p * 4096) in *.
  destruct (inv_new s s1 D F j p Hj Ht Hi Hfree Hend) as [I1 Hnone]. fold slab in I1, Hnone.
  set (D1 := mark j (slab_objects j slab 0 (object_count j)) Held D) in *.
  assert (Hsame : live_same D D1).
  { apply live_same_mark; [done|]. intros a (k & Hk & ->)%slab_objects_in. rewrite Hnone by lia. done. }
  destruct (initialiseSlab_run s1 D1 F j slab I1 Hj) as (s' & R2 & A).
  { intros k Hk. apply mark_in, slab_objects_in. exists k. split; [lia | done]. }
  exists slab, s'. split; [exact R2|]. destruct A as [(D' & F' & I2 & Hh & Hs2) Hm Hk]. split; [|done|].
  - exists D', F'. split_and!; [done..|]. intros i a. by rewrite (Hsame i a).
  - intros i a w Ha Hw [v Hv]. assert (Hv1 : memory s1 !! w = Some v) by (eapply lookup_weaken; [done | apply Ht]).
    rewrite (Hk i a w), Hv1, Hv; [done | by apply Hsame | done | by eexists].
Qed.

Lemma hd_aligned s D F j : Inv s D F -> hd 0 (F j) mod 32 = 0.
Proof.
  intros Hi. destruct (Z.eq_dec (hd 0 (F j)) 0) as [->|Hne]; [done|].
  pose proof (head_free s D F j Hi Hne) as Hf. by destruct (inv_placed _ _ _ _ _ _ Hi _ _ _ Hf).
Qed.

Lemma cache_allocate_run s D F j : Inv s D F -> (5 <= j < 31)%nat -> room s j ->
  exists N s', cache_allocate garbage j s = Some (N, s') /\ allocated D j N s s'.
Proof.
  intros Hi Hj Hroom. unfold cache_allocate. estep ltac:(apply (partial_run _ _ _ _ D F j Hi); lia).
  destruct (F j) as [|N l] eqn:HF; simpl hd.
  - simpl. destruct Hroom as [(c & Hc & Hne)|(p & Hp & Hend)]; [|by eapply new_slab_run].
    rewrite (inv_caches _ _ _ _ _ _ Hi j) in Hc by lia. injection Hc as <-. rewrite HF in Hne. done.
  - assert (HN : D j N = Some Free) by (apply (inv_list _ _ _ _ _ _ Hi); rewrite HF; left).
    rewrite (proj2 (Z.eqb_neq _ _)) by by eapply object_nonzero.
    pose proof (inv_chain _ _ _ _ _ _ Hi j) as Hch. rewrite HF in Hch. destruct Hch as [Hnext _].
    estep ltac:(by apply load_run).
    pose proof (inv_pop _ _ _ s D F j N l Hi Hj HF) as I1.
    assert (Hal : hd 0 l mod 32 = 0) by (pose proof (hd_aligned _ _ _ j I1) as H; by rewrite fset_eq in H).
    destruct (Z.eqb_spec (hd 0 l) VIGILANT_MAGIC) as [E|_]; [rewrite E in Hal; done|].
    destruct (inv_local _ _ _ _ _ _ Hi _ _ _ HN) as (w & Hw & Hmag).
    estep ltac:(by apply load_magic_run). rewrite Hmag. cbn [negb andb Z.eqb].
    replace (negb (MAGIC_VALUE =? TEMP_MAGIC) && negb (MAGIC_VALUE =? MAGIC_VALUE)) with false by done.
    estep ltac:(apply (put_partial_run _ _ _ s D F j _ Hi); lia).
    assert (HN1 : mark j [N] Held D j N = Some Held) by (apply mark_in; left).
    destruct (held_store_magic _ _ _ j N TEMP_MAGIC I1 HN1) as (x & R & Hx & I2); [apply magic_word; by right | lia|].
    estep ltac:(exact R). eexists N, _. split; [done|]. split.
    + eexists _, _. split; [exact I2|]. split; [done|]. apply live_same_mark; [done|].
      intros a ->%list_elem_of_singleton. congruence.
    + exists x. split; [apply lookup_insert_eq | done].
    + intros i a v Ha Hv _. simpl. apply lookup_insert_ne. intros <-.
      eapply (apart_word s D F i a Live j N Free); [done..|]. destruct (object_size_ge j ltac:(lia)). unfold covers. lia.
Qed.

(** ** The allocator *)

Lemma power_of_2_run n k fuel : 0 <= n <= 2 ^ 30 -> (k <= 30)%nat -> (30 - k < fuel)%nat ->
  exists j, power_of_2 fuel n (2 ^ Z.of_nat k) k = Some (object_size j, j) /\ (k <= j <= 30)%nat /\
            n <= object_size j /\ 24 <= object_size j.
Proof.
  revert k. induction fuel as [|fuel IH]; intros k Hn Hk Hf; [lia|]. simpl. unfold OBJECT_MINIMUM_SIZE.
  destruct (Z.ltb_spec (2 ^ Z.of_nat k) n) as [H1|H1]; simpl; [|destruct (Z.ltb_spec (2 ^ Z.of_nat k) 24) as [H2|H2]; simpl].
  3: { exists k. unfold object_size. split_and!; [done | lia | lia | lia | lia]. }
  all: assert (Hlt : (k < 30)%nat) by
    (destruct (decide (k = 30)%nat) as [->|]; [change (2 ^ Z.of_nat 30) with (2 ^ 30) in *; lia | lia]).
  all: assert (E : wrap 64 (Z.shiftl (2 ^ Z.of_nat k) 1) = 2 ^ Z.of_nat (S k)) by
    (rewrite Z.shiftl_mul_pow2 by lia; change (2 ^ 1) with 2;
     replace (2 ^ Z.of_nat k * 2) with (2 ^ Z.of_nat (S k)) by (rewrite Nat2Z.inj_succ, Z.pow_succ_r by lia; lia);
     apply wrap_small; split; [apply Z.pow_nonneg; lia | apply Z.pow_lt_mono_r; lia]).
  all: rewrite E; destruct (IH (S k) Hn ltac:(lia) ltac:(lia)) as (j & -> & Hj & Hsz); exists j;
    (split; [done|]; split; [lia | done]).
Qed.

(** The cache that serves a request. *)
Definition cache_for (nBytes : Z) : nat :=
  match power_of_2 65 (nBytes + 32) 1 0 with Some (_, j) => j | None => 0%nat end.

Lemma cache_for_run n : 0 <= n -> n + 32 <= 2 ^ 30 ->
  power_of_2 65 (n + 32) 1 0 = Some (object_size (cache_for n), cache_for n) /\
  (5 <= cache_for n < 31)%nat /\ n + 32 <= object_size (cache_for n).
Proof.
  intros H0 Hn. destruct (power_of_2_run (n + 32) 0 65 ltac:(lia) ltac:(lia) ltac:(lia)) as (j & Hrun & Hj & Hsz & _).
  unfold cache_for. change (2 ^ Z.of_nat 0) with 1 in Hrun. rewrite Hrun. split_and!; [done | | lia | done].
  destruct (decide (5 <= j)%nat); [done|]. exfalso.
  assert (object_size j <= 2 ^ 4) by (apply Z.pow_le_mono_r; lia). change (2 ^ 4) with 16 in *. lia.
Qed.

Lemma ensure_run s D F : Inv s D F -> ensure_initialised heapStart heapEnd s = Some (tt, s).
Proof. intros Hi. unfold ensure_initialised. estep ltac:(done). by rewrite (inv_init _ _ _ _ _ _ Hi). Qed.

(** A step that makes the object of cache [j] at [N] live. *)
Record grown (D : objects) (j : nat) (N : Z) (s s' : Slam) : Prop := {
  grown_inv : exists D' F', Inv s' D' F' /\ forall i a, D' i a = Some Live <-> D i a = Some Live \/ (i = j /\ a = N);
  grown_new : D j N <> Some Live;
  grown_kept : live_kept D s s'
}.

(** The header and the footer of a new object. *)
Lemma dress_run s D F j N n v : Inv s D F -> (5 <= j < 31)%nat -> D j N = Some Held -> n = object_size j ->
  memory s !! (N + 16) = Some v -> wrap 32 v = TEMP_MAGIC ->
  exists s', (store (N + 8) (cacheAddr j) ;; store N VIGILANT_MAGIC ;;
              store (N + n - footer_size) VIGILANT_MAGIC)%err s = Some (tt, s') /\
    Inv s' (mark j [N] Live D) F /\ (forall w, ~ covers j N w -> memory s' !! w = memory s !! w).
Proof.
  intros Hi Hj Hd -> Hv Htemp. destruct (object_size_ge j ltac:(lia)) as [Hsz _].
  destruct (footer_offset j ltac:(lia)) as [Hfo Hf8]. unfold footer_size.
  destruct (held_store s D F j N 8 (N + 8) (cacheAddr j) Hi Hd eq_refl ltac:(lia) eq_refl) as [R1 I1].
  estep ltac:(exact R1).
  destruct (held_store _ D F j N 0 N VIGILANT_MAGIC I1 Hd ltac:(lia) ltac:(lia) eq_refl) as [R2 I2].
  estep ltac:(exact R2).
  destruct (held_store _ D F j N (object_size j - 16) (N + object_size j - 16) VIGILANT_MAGIC I2 Hd
              ltac:(lia) ltac:(lia) Hf8) as [R3 I3].
  eexists. split; [exact R3|]. split.
  - apply (inv_status _ _ _ _ D F j N Held Live); [exact I3 | done..|]. simpl.
    rewrite !lookup_insert_eq. rewrite (lookup_insert_ne _ _ N) by lia.
    rewrite (lookup_insert_ne _ _ (N + 8)) by lia. rewrite !lookup_insert_eq.
    rewrite (lookup_insert_ne _ N (N + 8)) by lia. rewrite lookup_insert_eq. split_and!; [done..|].
    destruct (Z.eq_dec (object_size j) 32) as [E|E].
    + rewrite E. replace (N + 32 - 16) with (N + 16) by lia. rewrite lookup_insert_eq. by exists VIGILANT_MAGIC.
    + rewrite !lookup_insert_ne by lia. exists v. split; [done|]. rewrite Htemp. done.
  - intros w Hw. unfold covers in Hw. simpl. by rewrite !lookup_insert_ne by lia.
Qed.

Lemma allocate_run_heap s D F n : Inv s D F -> 0 <= n -> n + 32 <= 2 ^ 30 -> room s (cache_for n) ->
  exists N s', allocate garbage heapStart heapEnd cacheAddr n s = Some (N + 16, s') /\
    grown D (cache_for n) N s s'.
Proof.
  intros Hi H0 Hn Hroom. destruct (cache_for_run n H0 Hn) as (Hpow & Hj & Hsz). set (j := cache_for n) in *.
  unfold allocate, header_size, footer_size. estep ltac:(by eapply ensure_run).
  change (16 + 16) with 32. rewrite wrap_small by (unfold in_word; change (2 ^ 30) with 1073741824 in Hn; lia).
  unfold elift at 1. rewrite Hpow. unfold ebind at 1. cbv iota beta.
  unfold assert at 1. rewrite (proj2 (Nat.ltb_lt _ _)) by lia. estep ltac:(done).
  destruct (cache_allocate_run s D F j Hi Hj Hroom) as (N & s1 & R1 & [(D1 & F1 & I1 & Hh & Hsame) (v & Hv & Htemp) Hkept]).
  estep ltac:(exact R1). rewrite (proj2 (Z.eqb_neq N 0)) by by eapply object_nonzero. estep ltac:(done).
  destruct (dress_run s1 D1 F1 j N (object_size j) v I1 Hj Hh eq_refl Hv Htemp) as (s2 & R2 & I2 & K2).
  exists N, s2. split.
  - change footer_size with 16 in R2. revert R2. generalize (store (N + 8) (cacheAddr j)) (store N VIGILANT_MAGIC)
      (store (N + object_size j - 16) VIGILANT_MAGIC). intros m1 m2 m3. unfold ebind.
    destruct (m1 s1) as [[? t1]|]; [|done]. destruct (m2 t1) as [[? t2]|]; [|done]. by intros ->.
  - split.
    + eexists _, F1. split; [exact I2|]. intros i a. rewrite (Hsame i a). unfold mark. case_decide as Hd.
      * destruct Hd as [-> ->%list_elem_of_singleton]. split; [by right | done].
      * rewrite list_elem_of_singleton in Hd. split; [by left|]. by intros [?|?].
    + rewrite (Hsame j N), Hh. done.
    + intros i a w Ha Hw Hsome. rewrite K2; [by eapply Hkept|].
      by eapply (apart_word s1 D1 F1 i a Live j N Held); [| apply Hsame | | |].
Qed.

(** A step that ends the life of an object. *)
Record shrunk (D : objects) (j : nat) (N : Z) (s s' : Slam) : Prop := {
  shrunk_inv : exists D' F', Inv s' D' F' /\ forall i a, D' i a = Some Live <-> D i a = Some Live /\ ~ (i = j /\ a = N);
  shrunk_kept i a w : D i a = Some Live -> ~ (i = j /\ a = N) -> covers i a w -> memory s' !! w = memory s !! w;
  shrunk_room : room s' j
}.

Lemma cache_free_run s D F j N : Inv s D F -> (5 <= j < 31)%nat -> D j N = Some Live ->
  exists s', cache_free j N s = Some (tt, s') /\ shrunk D j N s s'.
Proof.
  intros Hi Hj Hd. destruct (object_size_ge j ltac:(lia)) as [Hsz _].
  destruct (inv_local _ _ _ _ _ _ Hi _ _ _ Hd) as (H1 & H2 & H3 & x & Hx & Hmag).
  unfold cache_free, footer_size. estep ltac:(apply (cache_run _ _ _ s D F j Hi); lia). cbn [m_ObjectSize].
  estep ltac:(by apply load_run). estep ltac:(done). estep ltac:(by apply load_magic_run).
  rewrite (proj2 (Z.eqb_neq _ _) Hmag). estep ltac:(done).
  set (D1 := mark j [N] Held D).
  assert (I0 : Inv s D1 F) by by apply (inv_status _ _ _ s D F j N Live Held).
  assert (Hh : D1 j N = Some Held) by (apply mark_in; left).
  destruct (held_store_magic s D1 F j N MAGIC_VALUE I0 Hh) as (w & R1 & Hw & I1); [apply magic_word; by left | lia|].
  estep ltac:(exact R1).
  destruct (held_store _ D1 F j N 8 (N + 8) 0 I1 Hh eq_refl ltac:(lia) eq_refl) as [R2 I2]. estep ltac:(exact R2).
  estep ltac:(apply (partial_run _ _ _ _ D1 F j I2); lia). set (h := hd 0 (F j)).
  destruct (held_store _ D1 F j N 0 N h I2 Hh ltac:(lia) ltac:(lia) eq_refl) as [R3 I3]. estep ltac:(exact R3).
  estep ltac:(apply (put_partial_run _ _ _ _ D1 F j _ I3); lia). simpl in I3.
  set (m := <[N := h]> _) in I3. change (put_memory m (put_memory _ (put_memory _ s))) with (put_memory m s) in I3 |- *.
  assert (Hout : forall v, ~ covers j N v -> m !! v = memory s !! v).
  { intros v Hv. unfold covers in Hv. subst m. by rewrite !lookup_insert_ne by lia. }
  assert (Hch : chain m ([N] ++ F j)).
  { split; [subst m; apply lookup_insert_eq|]. apply (chain_frame (memory s)); [|apply (inv_chain _ _ _ _ _ _ Hi)].
    intros b Hb%(inv_list _ _ _ _ _ _ Hi). apply Hout.
    eapply (apart_word s D F j b Free j N Live); [done..|]. unfold covers. lia. }
  assert (Hobj : forall a, a ∈ [N] -> D1 j a = Some Held /\ local m j a Free).
  { intros a ->%list_elem_of_singleton. split; [done|]. exists w. split; [|done].
    subst m. rewrite !lookup_insert_ne by lia. apply lookup_insert_eq. }
  pose proof (inv_push _ _ _ _ D1 F j [N] I3 Hj (NoDup_singleton N) Hobj Hch) as I4. simpl hd in I4.
  destruct (link_back _ _ _ j h N I4) as (m2 & R4 & I5 & K5); [lia | |].
  { intros Hne. rewrite mark_out; [unfold D1; rewrite mark_out|]; [by apply (head_free s D F)|..];
      intros [_ E%list_elem_of_singleton]; pose proof (head_free s D F j Hi Hne) as Hf; fold h in Hf; congruence. }
  eexists. split; [exact R4|]. split.
  - eexists _, _. split; [exact I5|]. intros i a. subst D1. unfold mark.
    case_decide as Hd1; [destruct Hd1 as [-> ->%list_elem_of_singleton]; naive_solver|].
    rewrite list_elem_of_singleton in Hd1. naive_solver.
  - intros i a v Ha Hne Hv. rewrite K5.
    + apply Hout. intros Hv'. destruct (inv_apart _ _ _ _ _ _ Hi i j a N) as [H|H]; [by eexists..| | |];
        [intros [= -> ->]; by apply Hne | unfold covers in *; lia..].
    + left. intros [Hh0 Hv']. pose proof (head_free s D F j Hi Hh0) as Hf.
      by eapply (apart_word s D F i a Live j h Free).
  - left. eexists. split; [apply (inv_caches _ _ _ _ _ _ I5); lia|]. rewrite fset_eq. simpl.
    exact (object_nonzero _ _ _ _ _ _ _ _ _ Hi Hd).
Qed.

Lemma cache_at_run j : (forall i k, (i < 32)%nat -> (k < 32)%nat -> cacheAddr i = cacheAddr k -> i = k) ->
  (j < 32)%nat -> cache_at cacheAddr (cacheAddr j) = Some j.
Proof.
  intros Hinj Hj. unfold cache_at. rewrite (proj2 (list_find_Some _ _ j j)); [done|].
  split_and!; [by rewrite lookup_seq_lt by lia | done |].
  intros i k Hk Hik E. apply lookup_seq in Hk as [-> Hk]. apply Hinj in E; lia.
Qed.

Hypothesis cacheAddr_inj : forall i k, (i < 32)%nat -> (k < 32)%nat -> cacheAddr i = cacheAddr k -> i = k.

(** The block of a live object. *)
Lemma live_block s D F j N : Inv s D F -> D j N = Some Live ->
  (5 <= j < 31)%nat /\ memIsInHeap heapStart heapEnd (N + 16) = true /\
  load (N + 16 - 16 + 8) s = Some (cacheAddr j, s) /\ load (N + 16 - 16) s = Some (VIGILANT_MAGIC, s).
Proof.
  intros Hi Hd. destruct (inv_placed _ _ _ _ _ _ Hi _ _ _ Hd) as [P1 P2 P3 _ _ _].
  destruct (inv_base _ _ _ _ _ _ Hi) as (Hb & _). destruct (object_size_ge j ltac:(lia)) as [Hsz _].
  destruct (inv_local _ _ _ _ _ _ Hi _ _ _ Hd) as (H1 & H2 & _). replace (N + 16 - 16) with N by lia.
  split_and!; [lia | lia | unfold memIsInHeap; apply andb_true_iff; lia | by apply load_run | by apply load_run].
Qed.

Lemma free_run_heap s D F j N : Inv s D F -> D j N = Some Live ->
  exists s', free heapStart heapEnd cacheAddr (N + 16) s = Some (tt, s') /\ shrunk D j N s s'.
Proof using All.
  intros Hi Hd. destruct (live_block s D F j N Hi Hd) as (Hj & Hin & R1 & R2).
  unfold free, header_size. estep ltac:(by eapply ensure_run). rewrite Hin. estep ltac:(done).
  estep ltac:(exact R1). estep ltac:(exact R2). estep ltac:(done).
  unfold elift. rewrite cache_at_run by (done || lia). unfold ebind. replace (N + 16 - 16) with N by lia.
  by eapply cache_free_run.
Qed.

Lemma isPointerValid_run s D F j N : Inv s D F -> D j N = Some Live ->
  isPointerValid heapStart heapEnd cacheAddr (N + 16) s = Some (true, s).
Proof using All.
  intros Hi Hd. pose proof (object_nonzero _ _ _ _ _ _ j N _ Hi Hd).
  destruct (live_block s D F j N Hi Hd) as (Hj & Hin & R1 & R2).
  destruct (inv_local _ _ _ _ _ _ Hi _ _ _ Hd) as (_ & _ & H3 & x & Hx & Hmag).
  pose proof (inv_placed _ _ _ _ _ _ Hi _ _ _ Hd) as [_ P2 _ _ _ _]. destruct (inv_base _ _ _ _ _ _ Hi) as (_ & Hb & _).
  unfold isPointerValid, header_size. estep ltac:(by eapply ensure_run).
  rewrite (proj2 (Z.eqb_neq _ _)) by lia. rewrite Hin. cbn [negb].
  estep ltac:(exact R2). rewrite Z.eqb_refl. cbn [negb]. estep ltac:(exact R1).
  rewrite cache_at_run by (done || lia). unfold cache_isPointerValid, footer_size. rewrite ebind_assoc.
  estep ltac:(apply (cache_run _ _ _ s D F j Hi); lia). cbn [m_ObjectSize].
  replace (N + 16 - 16) with N by lia. rewrite ebind_assoc. estep ltac:(by apply load_run).
  rewrite Z.eqb_refl. cbn [negb]. rewrite ebind_assoc. by estep ltac:(by apply load_magic_run).
Qed.

(** A client writes into its block. *)
Lemma write_run_heap s D F j N k v : Inv s D F -> D j N = Some Live -> 16 <= k -> k + 8 <= object_size j - 16 -> k mod 8 = 0 ->
  (k = 16 -> wrap 32 v <> MAGIC_VALUE) ->
  store (N + k) v s = Some (tt, put_memory (<[N + k := v]> (memory s)) s) /\
  Inv (put_memory (<[N + k := v]> (memory s)) s) D F.
Proof.
  intros Hi Hd Hk1 Hk2 Hk8 Hm. apply (inv_store _ _ _ s D F j N Live k v); [done | done | lia | done | | done].
  destruct (inv_local _ _ _ _ _ _ Hi _ _ _ Hd) as (H1 & H2 & H3 & x & Hx & Hmag). simpl.
  rewrite !lookup_insert_ne by lia. split_and!; [done..|].
  destruct (Z.eq_dec k 16) as [->|Hne].
  - exists v. rewrite lookup_insert_eq. split; [done | by apply Hm].
  - exists x. by rewrite lookup_insert_ne by lia.
Qed.
End Heap.
