(* ===== verification/SlamRuns.v ===== *)
(** * Runs of the kernel heap

    The heap from its initialisation on, in the hands of clients that write
    into their blocks and free what they were given; and runs in which the
    recovery of slabs, or a client's data, breaks it. *)
From Stdlib Require Import ZArith Lia List Bool.
From stdpp Require Import base gmap list.
From S2P Require Import Prelude Slam SlamSearch SlamInv SlamHeap.
Import ListNotations.
Local Open Scope Z_scope.
Local Open Scope err_scope.
#[local] Set Warnings "-clear-no-such-hyp".

Section Runs.
Context (garbage : Z -> Z) (heapStart heapEnd : Z) (cacheAddr : nat -> Z).
Hypothesis heap_start : 0 < heapStart /\ heapStart mod 4096 = 0 /\ heapStart <= heapEnd.
Hypothesis cacheAddr_inj : forall i k, (i < 32)%nat -> (k < 32)%nat -> cacheAddr i = cacheAddr k -> i = k.
Abbreviation Inv := (Inv heapStart heapEnd cacheAddr).
Abbreviation room := (room heapEnd).
Abbreviation allocate := (allocate garbage heapStart heapEnd cacheAddr).
Abbreviation free := (free heapStart heapEnd cacheAddr).

(** ** Initialisation *)

Lemma cache_sizes : forallb (fun j => let c := cache_initialise (Z.shiftl 1 (Z.of_nat j)) (mkCache 0 0 0) in
    (m_PartialList c =? 0) && (m_ObjectSize c =? object_size j) && (m_SlabSize c =? slab_size j)) (seq 5 27) = true.
Proof. vm_compute. reflexivity. Qed.

Lemma rounded_bytes x : 0 <= x -> let r := if x mod 4096 =? 0 then x else x - x mod 4096 + 4096 in
  0 <= r /\ r mod 4096 = 0.
Proof. intros Hx. cbv zeta. destruct (Z.eqb_spec (x mod 4096) 0); zlia. Qed.

Lemma initialise_inv : exists s, initialise heapStart heapEnd new_slam = Some (tt, s) /\
  Inv s (fun _ _ => None) (fun _ => []).
Proof using All.
  destruct heap_start as (H0 & Hmod & Hle). eexists. split; [reflexivity|].
  assert (Hbytes : 0 <= (heapEnd - heapStart) / page_size / 8) by (unfold page_size; repeat apply Z.div_pos; lia).
  pose proof (rounded_bytes _ Hbytes) as Hr. cbv zeta in Hr. unfold page_size in *.
  split; cbn [m_bInitialised m_Base m_SlabRegionBitmap m_Caches memory]; try done.
  - set (r := if _ =? 0 then _ else _) in *. split_and!; [lia | lia | zlia].
  - apply Forall_replicate, in_word_0.
  - intros j Hj. pose proof cache_sizes as Hc. rewrite forallb_forall in Hc. specialize (Hc j).
    rewrite in_seq in Hc. specialize (Hc ltac:(lia)). cbv zeta in Hc.
    rewrite list_lookup_imap. change (m_Caches new_slam) with (replicate 32 (mkCache 0 0 0)).
    rewrite lookup_replicate_2 by lia. cbn [fmap option_fmap option_map]. f_equal.
    destruct (cache_initialise (Z.shiftl 1 (Z.of_nat j)) (mkCache 0 0 0)) as [a b c]. simpl in *.
    apply andb_true_iff in Hc as [[H1 H2]%andb_true_iff H3]. f_equal; by apply Z.eqb_eq.
  - intros j a. split; [by intros ?%not_elem_of_nil | done].
  - intros j. constructor.
Qed.

(** ** Clients *)

(** The states the heap reaches, with the blocks handed out: their addresses
    and the sizes asked for. *)
Inductive reaches : Slam -> list (Z * Z) -> Prop :=
| reaches_boot s : initialise heapStart heapEnd new_slam = Some (tt, s) -> reaches s []
| reaches_allocate s l n p s' : reaches s l -> 0 <= n -> n + 32 <= 2 ^ 30 -> room s (cache_for n) ->
    allocate n s = Some (p, s') -> reaches s' ((p, n) :: l)
| reaches_free s l1 l2 p n s' : reaches s (l1 ++ (p, n) :: l2) -> free p s = Some (tt, s') -> reaches s' (l1 ++ l2)
| reaches_write s l p n k v s' : reaches s l -> (p, n) ∈ l -> 0 <= k -> k + 8 <= n -> k mod 8 = 0 ->
    (k = 0 -> wrap 32 v <> MAGIC_VALUE) -> store (p + k) v s = Some (tt, s') -> reaches s' l.

(** The live objects are the blocks. *)
Record blocks (l : list (Z * Z)) (D : objects) : Prop := {
  blocks_size p n : (p, n) ∈ l -> 0 <= n /\ n + 32 <= 2 ^ 30;
  blocks_live p n : (p, n) ∈ l -> D (cache_for n) (p - 16) = Some Live;
  blocks_all j N : D j N = Some Live -> exists n, (N + 16, n) ∈ l /\ j = cache_for n;
  blocks_nodup : NoDup (map fst l)
}.

Lemma blocks_add l D D' n N : blocks l D -> 0 <= n -> n + 32 <= 2 ^ 30 -> D (cache_for n) N <> Some Live ->
  (forall i a, D i a = Some Live -> D' i a = Some Live) ->
  (forall i a, D' i a = Some Live <-> D i a = Some Live \/ (i = cache_for n /\ a = N)) ->
  ~ (exists m, (N + 16, m) ∈ l) -> blocks ((N + 16, n) :: l) D'.
Proof.
  intros [B1 B2 B3 B4] H0 Hn Hnew Hmono Hd Hfresh. split.
  - intros p m [[= -> ->]|Hin]%elem_of_cons; [lia | by eapply B1].
  - intros p m [[= -> ->]|Hin]%elem_of_cons; [|by apply Hmono, B2].
    apply Hd. right. split; [done | lia].
  - intros j M [Hl|[-> ->]]%Hd.
    + destruct (B3 j M Hl) as (m & Hm & ->). exists m. split; [by right | done].
    + exists n. split; [left | done].
  - simpl. constructor; [|done]. intros Hin%list_elem_of_fmap. destruct Hin as ([p m] & Hp & Hin).
    simpl in Hp. subst p. apply Hfresh. by exists m.
Qed.

Lemma blocks_remove l1 l2 p n D D' : blocks (l1 ++ (p, n) :: l2) D ->
  (forall i a, D' i a = Some Live <-> D i a = Some Live /\ ~ (i = cache_for n /\ a = p - 16)) -> blocks (l1 ++ l2) D'.
Proof.
  intros [B1 B2 B3 B4] Hd.
  assert (Hsub : forall x, x ∈ l1 ++ l2 -> x ∈ l1 ++ (p, n) :: l2).
  { intros x [?|?]%elem_of_app; apply elem_of_app; [by left | right; by right]. }
  rewrite map_app in B4. simpl in B4. apply NoDup_app in B4 as (N1 & N2 & N3). inversion_clear N3 as [|? ? N4 N5].
  assert (Hne : forall q m, (q, m) ∈ l1 ++ l2 -> q <> p).
  { intros q m [Hin|Hin]%elem_of_app ->.
    - apply (N2 p); [apply list_elem_of_fmap; by exists (p, m) | left].
    - apply N4. apply list_elem_of_fmap. by exists (p, m). }
  split.
  - intros q m Hin. by eapply B1, Hsub.
  - intros q m Hin. apply Hd. split; [by apply B2, Hsub|]. intros [_ E]. apply (Hne q m Hin). lia.
  - intros j N [Hl Hnp]%Hd. destruct (B3 j N Hl) as (m & Hm & ->). exists m. split; [|done].
    apply elem_of_app in Hm as [?|[[= E1 E2]|?]%elem_of_cons]; [apply elem_of_app; by left | | apply elem_of_app; by right].
    exfalso. apply Hnp. split; [by subst m | lia].
  - rewrite map_app. apply NoDup_app. split_and!; [done | | done].
    intros x H1 H2. apply (N2 x H1). by right.
Qed.

(** The blocks of objects that do not overlap. *)
Lemma block_inside n : 0 <= n -> n + 32 <= 2 ^ 30 -> (5 <= cache_for n < 31)%nat /\ n + 32 <= object_size (cache_for n).
Proof. intros H0 Hn. destruct (cache_for_run n H0 Hn) as (_ & ? & ?). done. Qed.

Lemma blocks_apart s l D F p n q m : Inv s D F -> blocks l D -> (p, n) ∈ l -> (q, m) ∈ l -> p <> q ->
  p + n <= q \/ q + m <= p.
Proof.
  intros Hi [B1 B2 B3 B4] Hp Hq Hne. destruct (B1 p n Hp), (B1 q m Hq).
  destruct (block_inside n) as [_ Hn]; [done..|]. destruct (block_inside m) as [_ Hm]; [done..|].
  destruct (inv_apart _ _ _ _ _ _ Hi (cache_for n) (cache_for m) (p - 16) (q - 16)) as [H'|H'];
    [rewrite B2 by done; by eexists | rewrite B2 by done; by eexists | intros [= ? ?]; lia | lia | lia].
Qed.

Lemma blocks_mapped s l D F p n : Inv s D F -> blocks l D -> (p, n) ∈ l ->
  heapStart <= p /\ p + n <= heapEnd /\ p mod 16 = 0 /\ mapped (memory s) p n.
Proof.
  intros Hi [B1 B2 B3 B4] Hp. destruct (B1 p n Hp). destruct (block_inside n) as [_ Hn]; [done..|].
  destruct (inv_placed _ _ _ _ _ _ Hi _ _ _ (B2 p n Hp)) as [P1 P2 P3 P4 P5 _].
  destruct (inv_base _ _ _ _ _ _ Hi) as (Hb & _). split_and!; [lia | lia | zlia|].
  intros w Hw Hal. apply P5; [lia|]. replace (w - (p - 16)) with (w - p + 2 * 8) by lia. by rewrite Z_mod_plus_full.
Qed.

(** A block and its words are inside its object. *)
Lemma block_covers l D p n k : blocks l D -> (p, n) ∈ l -> 0 <= k < n -> covers (cache_for n) (p - 16) (p + k).
Proof.
  intros [B1 _ _ _] Hp Hk. destruct (B1 p n Hp). destruct (block_inside n) as [_ Hn]; [done..|]. unfold covers. lia.
Qed.

(** What the clients rely on: the invariant, and their blocks live. *)
Definition good (s : Slam) (l : list (Z * Z)) : Prop := exists D F, Inv s D F /\ blocks l D.

(** Contents of other blocks. *)
Definition kept (s s' : Slam) (p n : Z) : Prop :=
  forall k, 0 <= k < n -> k mod 8 = 0 -> memory s' !! (p + k) = memory s !! (p + k).

Lemma good_allocate s l n : good s l -> 0 <= n -> n + 32 <= 2 ^ 30 -> room s (cache_for n) ->
  exists p s', allocate n s = Some (p, s') /\ good s' ((p, n) :: l) /\ ~ (exists m, (p, m) ∈ l) /\
    forall q m, (q, m) ∈ l -> kept s s' q m.
Proof using All.
  intros (D & F & Hi & Hb) H0 Hn Hroom.
  destruct (allocate_run_heap garbage heapStart heapEnd cacheAddr s D F n Hi H0 Hn Hroom)
    as (N & s' & Hrun & [(D' & F' & Hi' & Hd) Hnew Hkept]).
  assert (Hfresh : ~ exists m, (N + 16, m) ∈ l).
  { intros [m Hm]. destruct Hb as [B1 B2 B3 B4]. destruct (B1 _ _ Hm). pose proof (B2 _ _ Hm) as HL.
    replace (N + 16 - 16) with N in HL by lia.
    assert (HL' : D' (cache_for n) N = Some Live) by (apply Hd; by right).
    destruct (decide (cache_for m = cache_for n)) as [E|E]; [congruence|].
    destruct (block_inside m) as [C1 _]; [done..|]. destruct (block_inside n) as [C2 _]; [done..|].
    destruct (object_size_ge (cache_for m) ltac:(lia)), (object_size_ge (cache_for n) ltac:(lia)).
    destruct (inv_apart _ _ _ _ _ _ Hi' (cache_for m) (cache_for n) N N);
      [rewrite (proj2 (Hd _ _)); [by eexists | by left] | by eexists | congruence | lia | lia]. }
  exists (N + 16), s'. split; [exact Hrun|]. split; [|split; [done|]].
  - exists D', F'. split; [done|]. apply (blocks_add l D D'); try done. intros i a Ha. apply Hd. by left.
  - intros q m Hq k Hk H8. pose proof Hb as [B1 B2 _ _]. apply (Hkept (cache_for m) (q - 16)).
    + by apply B2.
    + by eapply block_covers.
    + destruct (blocks_mapped s l D F q m Hi Hb Hq) as (_ & _ & _ & Hmap). apply Hmap; [lia|].
      by replace (q + k - q) with k by lia.
Qed.

Lemma good_free s l1 l2 p n : good s (l1 ++ (p, n) :: l2) ->
  exists s', free p s = Some (tt, s') /\ good s' (l1 ++ l2) /\ room s' (cache_for n) /\
    forall q m, (q, m) ∈ l1 ++ l2 -> kept s s' q m.
Proof using All.
  intros (D & F & Hi & Hb). pose proof Hb as [B1 B2 B3 B4].
  assert (Hin : (p, n) ∈ l1 ++ (p, n) :: l2) by (apply elem_of_app; right; left).
  destruct (free_run_heap garbage heapStart heapEnd cacheAddr cacheAddr_inj s D F _ _ Hi (B2 p n Hin))
    as (s' & Hrun & [(D' & F' & Hi' & Hd) Hkept Hroom]).
  replace (p - 16 + 16) with p in Hrun by lia. exists s'. split; [exact Hrun|].
  split; [exists D', F'; split; [done | by eapply blocks_remove]|]. split; [done|].
  intros q m Hq k Hk H8.
  assert (Hq' : (q, m) ∈ l1 ++ (p, n) :: l2).
  { apply elem_of_app in Hq as [?|?]; apply elem_of_app; [by left | right; by right]. }
  apply (Hkept (cache_for m) (q - 16)); [by apply B2 | | by eapply block_covers].
  intros [_ E]. rewrite map_app in B4. simpl in B4. apply NoDup_app in B4 as (_ & N2 & N3). inversion_clear N3 as [|? ? N4 _].
  assert (q = p) as -> by lia. apply elem_of_app in Hq as [Hq|Hq].
  - apply (N2 p); [apply list_elem_of_fmap; by exists (p, m) | left].
  - apply N4. apply list_elem_of_fmap. by exists (p, m).
Qed.

Lemma good_write s l p n k v : good s l -> (p, n) ∈ l -> 0 <= k -> k + 8 <= n -> k mod 8 = 0 ->
  (k = 0 -> wrap 32 v <> MAGIC_VALUE) ->
  store (p + k) v s = Some (tt, put_memory (<[p + k := v]> (memory s)) s) /\
  good (put_memory (<[p + k := v]> (memory s)) s) l.
Proof using All.
  intros (D & F & Hi & Hb) Hin Hk Hkn H8 Hm. pose proof Hb as [B1 B2 _ _]. destruct (B1 p n Hin).
  destruct (block_inside n) as [_ Hn]; [done..|].
  destruct (write_run_heap heapStart heapEnd cacheAddr s D F _ _ (16 + k) v Hi (B2 p n Hin)) as [R I];
    [lia | lia | by rewrite Z.add_mod, H8 by lia | intros; apply Hm; lia |].
  replace (p - 16 + (16 + k)) with (p + k) in R, I by lia. split; [exact R|]. by exists D, F.
Qed.

Lemma reaches_good s l : reaches s l -> good s l.
Proof using All.
  induction 1 as [s Hs|s l n p s' _ IH H0 Hn Hroom Hrun|s l1 l2 p n s' _ IH Hrun|s l p n k v s' _ IH Hin Hk Hkn H8 Hm Hrun].
  - destruct initialise_inv as (s1 & H1 & Hi). rewrite Hs in H1. injection H1 as <-.
    eexists _, _. split; [exact Hi|]. split; try done; [by intros ? ? ?%not_elem_of_nil..|constructor].
  - destruct (good_allocate s l n IH H0 Hn Hroom) as (p' & s1 & H1 & Hg & _). rewrite Hrun in H1. by injection H1 as <- <-.
  - destruct (good_free s l1 l2 p n IH) as (s1 & H1 & Hg & _). rewrite Hrun in H1. by injection H1 as <-.
  - destruct (good_write s l p n k v IH Hin Hk Hkn H8 Hm) as [H1 Hg]. rewrite Hrun in H1. by injection H1 as ->.
Qed.

(** C14. The kernel heap is safe, in every state reached from its initialisation by
    allocations for which there was [room], of up to 2^30 - 32 bytes, by freeing what was
    allocated, and by writing words into what was allocated, but never a word that ends
    in the magic number of free objects as the first one of a block.  There is room when
    the partial list of the cache is not empty, or when the search of the bitmap finds
    pages for a slab that ends inside the heap, with no entry of the bitmap fragmented
    ([unfragmented]) if the slab has 2 to 64 pages.  In such
    a state the blocks are mapped, aligned, inside the heap and do not overlap; an
    allocation of that size for which there is room succeeds and its block overlaps none
    of the others; every block passes [isPointerValid] and can be freed, after which
    there is room for its size again; and neither operation changes a word of another
    block. *)
Theorem slam_heap_safe s l : reaches s l ->
  (forall p n, (p, n) ∈ l -> heapStart <= p /\ p + n <= heapEnd /\ p mod 16 = 0 /\ mapped (memory s) p n) /\
  (forall p n q m, (p, n) ∈ l -> (q, m) ∈ l -> p <> q -> p + n <= q \/ q + m <= p) /\
  (forall n, 0 <= n -> n + 32 <= 2 ^ 30 -> room s (cache_for n) ->
     exists p s', allocate n s = Some (p, s') /\ reaches s' ((p, n) :: l) /\
       forall q m, (q, m) ∈ l -> (p + n <= q \/ q + m <= p) /\ kept s s' q m) /\
  (forall l1 l2 p n, l = l1 ++ (p, n) :: l2 ->
     isPointerValid heapStart heapEnd cacheAddr p s = Some (true, s) /\
     exists s', free p s = Some (tt, s') /\ reaches s' (l1 ++ l2) /\ room s' (cache_for n) /\
       forall q m, (q, m) ∈ l1 ++ l2 -> kept s s' q m).
Proof using All.
  intros Hr. pose proof (reaches_good s l Hr) as Hg. pose proof Hg as (D & F & Hi & Hb). split_and!.
  - intros p n. by apply (blocks_mapped s l D F).
  - intros p n q m. by apply (blocks_apart s l D F).
  - intros n H0 Hn Hroom. destruct (good_allocate s l n Hg H0 Hn Hroom) as (p & s' & Hrun & Hg' & Hfresh & Hkept).
    exists p, s'. split; [done|]. split; [by eapply reaches_allocate|]. intros q m Hq. split; [|by apply Hkept].
    destruct Hg' as (D' & F' & Hi' & Hb'). apply (blocks_apart s' ((p, n) :: l) D' F'); try done; [left | by right|].
    intros ->. apply Hfresh. by exists m.
  - intros l1 l2 p n ->. split.
    + pose proof Hb as [_ B2 _ _]. replace p with (p - 16 + 16) by lia.
      eapply (isPointerValid_run garbage heapStart heapEnd cacheAddr cacheAddr_inj); [exact Hi|].
      apply B2, elem_of_app. right. left.
    + destruct (good_free s l1 l2 p n Hg) as (s' & Hrun & _ & Hroom & Hkept). exists s'.
      split; [done|]. split; [by eapply reaches_free|]. by split.
Qed.
End Runs.

(** ** A concrete heap *)

Definition zeroed : Z -> Z := fun _ => 0.
Definition start : Z := 0x100000.
Definition small_end : Z := 0x300000.
Definition caches : nat -> Z := fun i => 64 + 64 * Z.of_nat i.

Abbreviation alloc := (allocate zeroed start small_end caches).
Abbreviation release := (free start small_end caches).

Lemma slam_heap_safe_witness :
  exists p s, reaches zeroed start small_end caches s [(p, 100)] /\ mapped (memory s) p 100 /\
              exists s', release p s = Some (tt, s').
Proof.
  assert (H1 : 0 < start /\ start mod 4096 = 0 /\ start <= small_end) by (vm_compute; intuition congruence).
  assert (H2 : forall i k, (i < 32)%nat -> (k < 32)%nat -> caches i = caches k -> i = k) by (unfold caches; lia).
  destruct (initialise start small_end new_slam) as [[[] s0]|] eqn:E0; [|discriminate].
  assert (Hbm : m_SlabRegionBitmap s0 = replicate 8 0).
  { apply (f_equal (option_map (fun r => m_SlabRegionBitmap (snd r)))) in E0. vm_compute in E0. by injection E0. }
  assert (Hbase : m_Base s0 = 0x101000).
  { apply (f_equal (option_map (fun r => m_Base (snd r)))) in E0. vm_compute in E0. by injection E0. }
  destruct (slam_heap_safe zeroed start small_end caches H1 H2 s0 [] (reaches_boot _ _ _ _ _ E0)) as (_ & _ & Ha & _).
  destruct (Ha 100) as (p & s & _ & Hr & _); [lia | vm_compute; congruence | |].
  { right. exists 0%nat. rewrite Hbm, Hbase. split; [|vm_compute; congruence].
    exists 0%nat, 0%nat. split; [reflexivity|]. split; [intros [H _]; vm_compute in H; lia | reflexivity]. }
  destruct (slam_heap_safe zeroed start small_end caches H1 H2 s _ Hr) as (Hm & _ & _ & Hf).
  exists p, s. split; [exact Hr|]. split; [by apply (Hm p 100); left|].
  destruct (Hf [] [] p 100 eq_refl) as (_ & s' & Hfree & _). by exists s'.
Defined.

(** ** Where the heap does not do what it means to *)

(** [recovery] follows the [prev] pointers of free nodes, which [allocate] does
    not keep up to date: it overwrites the header of a live block, whose [free]
    then fails its assertion. *)
Example recovery_breaks_header :
  (a <- alloc 10 ;; b <- alloc 10 ;; release b) new_slam <> None /\
  (a <- alloc 10 ;; b <- alloc 10 ;; _ <- recovery zeroed 1 ;; release b) new_slam = None.
Proof. split; vm_compute; congruence. Qed.

(** With every object of a cache free, the recovery that the kernel asks for on
    memory pressure writes through the null [reinsertTail]. *)
Example recovery_null :
  (a <- alloc 10 ;; release a ;; recovery zeroed 5) new_slam = None.
Proof. vm_compute. reflexivity. Qed.

(** The nodes set aside for reinsertion are dropped when [maxSlabs] runs out: the
    next allocation takes a new slab. *)
Example recovery_loses_objects :
  (m_HeapPageCount ∘ snd <$> (a <- alloc 2000 ;; alloc 2000) new_slam,
   m_HeapPageCount ∘ snd <$> (a <- alloc 2000 ;; _ <- recovery zeroed 1 ;; alloc 2000) new_slam) = (Some 1, Some 2).
Proof. vm_compute. reflexivity. Qed.

(** A client that stores the magic number first in its block cannot free it. *)
Example data_looks_free :
  (a <- alloc 100 ;; store a MAGIC_VALUE ;; release a) new_slam = None.
Proof. vm_compute. reflexivity. Qed.

(** The pages start behind the bitmap, which counts as many of them as fit the
    whole heap: the last ones lie behind its end. *)
Example slab_behind_heap :
  fst <$> (initialise start small_end ;; emodify (put_bitmap (replicate 7 full_entry ++ [full_entry - 2 ^ 63])) ;;
           getSlab zeroed 4096) new_slam = Some small_end.
Proof. vm_compute. reflexivity. Qed.

(** [isPointerValid] ignores what the cache says of the block: an overrun
    footer passes, and [free] fails its assertion. *)
Example pointer_valid_ignores_footer :
  (fst <$> (a <- alloc 16 ;; store (a + 32) 0 ;; isPointerValid start small_end caches a) new_slam,
   fst <$> (a <- alloc 16 ;; store (a + 32) 0 ;; release a) new_slam) = (Some true, None).
Proof. vm_compute. reflexivity. Qed.

(** The size with header and footer wraps around: a request of 2^64 - 1 bytes gets
    an object of 32. *)
Example huge_request_served :
  fst <$> (a <- alloc (2 ^ 64 - 1) ;; allocSize caches a) new_slam = Some 32.
Proof. vm_compute. reflexivity. Qed.
